(* ===== verification/_CoqProject ===== *)
-Q . S2P
Prelude.v
CArray.v
BitArray.v
Chunk.v
URLEscape.v
BitExpr.v
Varint.v
NumText.v
Bitvec.v
VdbeFifo.v
Tokenize.v
Complete.v
Heap.v
Hash.v
Mem.v
Record.v
Utf.v
SqlFunc.v
Like.v
PageBytes.v
BtreePage.v
BtreeParse.v
BtreeSpace.v
BtreeCells.v
BtreeEdit.v
BtreeInit.v
BtreeStore.v
BtreeFree.v
BtreeFreeList.v
BtreeExact.v
BtreePayload.v
BtreeChain.v
BtreeFill.v
BtreeCursor.v
BtreeWalk.v
BtreeScan.v
BtreeSeek.v
BtreeResume.v
BtreeIndex.v
UnixOs.v
UnixLock.v
UnixLockInv.v
UnixLockWp.v
UnixLockOpen.v
UnixLockWorld.v
DiskFile.v
RecordUpdate.v
Pager.v
PagerJournal.v
PagerCache.v
PagerWp.v
PagerPlayback.v
PagerRecovery.v
PagerLog.v
PagerPages.v
PagerTx.v
PagerTxJournal.v
PagerTxPage.v
PagerTxGet.v
PagerTxOpen.v
PagerTxBegin.v
PagerTxWrite.v
PagerTxKeep.v
PagerCommit.v
PagerRun.v
