(* ===== verification/Prelude.v ===== *)
(** * BathyScaphe: a verification library for its C code

    BathyScaphe is a Mac OS X reader of bulletin boards.  Most of it is
    Objective-C; its own C code is the part of the SGFoundation framework that
    manages arrays, chunks of memory and percent encoding, and below it lies
    the SQLite 3.5.9 that it is built with (src/misc/sqlite), which keeps its
    lists of threads.  This library models the C code of both whose
    correctness is a matter of data structures and algorithms, from the byte
    level up to searching b-trees, locking files and surviving crashes, and
    states what it does as theorems.  The configuration is that of the Xcode
    project (SQLITE_OMIT_UTF16, SQLITE_OMIT_INCRBLOB, SQLITE_OMIT_AUTHORIZATION,
    SQLITE_ENABLE_LOCKING_STYLE, threads on Unix), except that assertions are
    kept: the project defines NDEBUG, and the models show that what an
    assertion claims holds where the theorems exclude [Abort].  One half of an
    assertion is left out because the code breaks it (drop_cell_at_ten in
    [BtreeEdit]).

    ** How C is modelled

    A machine integer is a [Z]; [u8] to [s64] below cut to a width where the
    code stores or converts, [sint] is signed arithmetic that must not
    overflow.  A block of memory is a list, a pointer into it an index (or the
    list of the bytes behind it), and an access outside of it gives [UB].
    Objects with several pointers to them live in a [Heap].  Every operation
    returns in a monad that tells [Ret] (the C function returns) from [Abort]
    (an assertion fails), [UB] and [NoFuel]; the theorems prove [Ret], so they
    exclude the other three, termination included.  Allocators answer from an
    oracle ([list bool]) or an argument; fresh memory holds an argument.

    ** The parts, from the bottom up

    Shared: [Prelude] (this file), [Heap], [BitExpr] (bit manipulations decided
    by computation), [PageBytes] (two-byte integers and regions of a page).

    SGFoundation (src/frameworks/SGFoundation/framework/source):
    - [CArray]: base/collection/SGBaseCArray.c refines lists; its capacity loop.
    - [BitArray]: base/collection/SGBaseBitArray.c refines sets of indices.
    - [Chunk]: base/allocator/SGBaseChunk.c refines a stack of free blocks.
    - [URLEscape]: extensions/data/SGURLEscape.c, round trip and its overrun.

    SQLite, values and text (src/misc/sqlite):
    - [Varint] (util.c): variable-length and big-endian integers, round trips.
    - [NumText] (util.c): comparison, numerals, quotes, hexadecimal literals.
    - [Utf] (utf.c, SQLITE_SKIP_UTF8): UTF-8.
    - [Tokenize] (tokenize.c), [Complete] (complete.c): tokens and complete
      statements; the state machine of complete.c against a grammar.
    - [Mem] (vdbemem.c, main.c): values, their order, collations; [Record]
      (vdbeaux.c, OP_MakeRecord of vdbe.c): serial types and records.
    - [SqlFunc], [Like] (func.c): functions, aggregates, LIKE and GLOB.
    - [Hash] (hash.c), [Bitvec] (bitvec.c), [VdbeFifo] (vdbefifo.c):
      containers that refine a finite map, a set and a queue.

    SQLite, b-trees (btree.c, btreeInt.h):
    - one page: [BtreePage] (the operations), [BtreeParse] (cells),
      [BtreeSpace] (allocateSpace, freeSpace, defragmentPage and the invariant
      of the free space), [BtreeCells] and [BtreeEdit] (insertCell, dropCell
      and zeroPage refine a list of cells), [BtreeInit]
      (sqlite3BtreeInitPage).
    - many pages: [BtreeStore] (what a transaction sees of the file, and the
      pointer map), [BtreeFree] and [BtreeFreeList] (allocateBtreePage and
      freePage refine a set of free pages), [BtreeExact] (their exact search).
    - payloads: [BtreePayload] (fillInCell, accessPayload, getOverflowPage,
      clearCell), [BtreeChain] (reading and freeing overflow chains),
      [BtreeFill] (writing them; write-read round trip).
    - cursors: [BtreeCursor] (the operations), [BtreeWalk] (trees as zippers
      and one step), [BtreeScan] (whole scans), [BtreeSeek] (the search),
      [BtreeResume] (tables, interrupted scans), [BtreeIndex] (indexes).

    The files build on each other: records are compared with the collations
    of [Mem] and written with [Varint]; cells are parsed with [Varint] on pages
    of [BtreePage]; the store holds pages, payload chains take their pages from
    the free list and note them in the pointer map, and cursors read cells and
    payloads out of the store with the comparison as a parameter.

    SQLite, the pager and its rollback journal (pager.c, and of os_unix.c what
    its calls do to files):
    - the ground: [DiskFile] (bytes at an offset; files with the versions
      that a crash may bring back), [RecordUpdate], [Pager] (the structures
      and the calls to the system), [PagerJournal] (journal format, end of a
      transaction, playback, statement journals, rollback), [PagerCache]
      (acquiring, recycling and writing pages, syncJournal, the two phases of
      a commit, pagerSharedLock).
    - recovery: [PagerWp] (weakest preconditions), [PagerPlayback] (what a
      journal says, and pager_playback), [PagerRecovery] (the process that
      comes after a crash).
    - a transaction: [PagerLog] (the segments of the journal through every
      crash), [PagerPages] (the cache against the pages it stands for),
      [PagerTx], [PagerTxJournal], [PagerTxPage], [PagerTxGet],
      [PagerTxOpen], [PagerTxBegin], [PagerTxWrite], [PagerTxKeep] (the
      invariant, and each operation keeps it), [PagerCommit] (any client, from
      page 1 to the commit, atomic under crashes), [PagerRun] (two runs that
      lose a commit and a recovery).

    The crash model: a disk of sectors of 512 bytes.  A file may come back as
    any mixture of the versions since its last sync; every sector of the
    database that was written may be torn, a sector of the journal is one of
    its versions and what never was a header does not look like one (the
    random checksum is not modelled as a probability), a write of four bytes
    is done or not, and an entry of a directory that was not synced may be
    missing.  The theorems are for the mode that sqlite3PagerOpen sets up
    (journal deleted, fullSync), pages of at least a sector, no memory
    failures, one database without a master journal, and clients that stop at
    the first error; the second process meets no errors.  The sync of the
    directory with the first sync of a journal is taken to work (unixSync
    ignores its failure and goes on).  Recovery is shown up to the moment the
    journal is unlinked: its file is not synced before ([PagerRun]).

    SQLite, file locks (os_unix.c): [UnixOs] (system calls as a tree, the kernel
    as the class [Kernel], weakest preconditions), [UnixLock] (unixLock,
    unixUnlock, unixCheckReservedLock, unixClose and the shared records),
    [UnixLockInv], [UnixLockWp] and [UnixLockOpen] (the invariant of one process
    and what each operation does with it for any answer of the kernel),
    [UnixLockWorld] (any number of processes, interleaved at every call).
    A process starts with threadsOverrideEachOthersLocks at -1, as the code
    does, and its first open runs the test.  The kernel may refuse any call
    with an error, a release of a lock (ENOLCK) too; the world notes in
    [w_refused] the processes that were refused a release in unixUnlock or
    unixClose, or fstat, dup or a test lock in an open.  Exclusion, the records
    and the grant of locks hold for the processes that are not noted; the
    results of single calls hold for any answers; and runs show what the
    refusals do.  The invariant is for processes whose threads override each
    other's locks (what the test finds on a kernel with POSIX locks); of the
    other mode only that a locked handle of another thread is refused is shown.
    The files are on file systems that get POSIX locks.

    ** What the theorems say

    - refinement: the containers, the pointer map, the free list, the edits of
      a page and the scans of a tree do what the operations on lists, sets,
      queues and maps do, over any sequence of operations;
    - invariants and safety: exclusion between processes and the records of the
      locks in every reachable state; freed chains leave the file as it was; a
      crash at any moment of a transaction or of a recovery leaves the
      database as it was or with all changes;
    - round trips: integers, records, UTF-8, quoted and escaped text, payloads
      with their overflow pages, pages of a b-tree;
    - order and search: comparison of values and records, sqlite3BtreeMoveto;
    - errors and bounds: results of every branch, sums that never wrap, a
      damaged page that is read without leaving it, and the runs in which the
      code does fail, each as a theorem about a concrete run.

    ** Fuel and bounds

    Structural recursion is used where the C loop allows it.  Elsewhere the
    fuel is computed from the arguments and shown to be enough: the depth of
    a [Bitvec] from its size, the steps of a scan over text from its length,
    one step of allocateBtreePage without the exact search and one per trunk
    with it, [offset + amt + 1] pages for accessPayload, four doublings of
    the candidates that skip a page of the pointer map, a depth above the
    height of the tree for the cursor, two for the recursion of
    sqlite3BtreeNext and sqlite3BtreePrevious, the number of cells for a
    binary search, the size of the journal for its headers and records, and
    the answers that are left for a busy handler.

    ** Not modelled, and why

    - the Objective-C application and frameworks (src/application,
      src/frameworks, src/IBPallete): not C;
    - src/metadataimporter and MoreFilesX.c: calls of Core Foundation and of
      the File Manager, without state of their own; SmallObj.cpp is C++;
    - of pager.c: databases that are temporary or in memory, codecs and
      callbacks, sqlite3PagerMovepage, DontWrite and DontRollback, opening
      and closing, the setters; exclusive and persistent modes, master
      journals, statement journals and rollback by the process itself are
      modelled but have no theorems;
    - btree.c: sqlite3BtreeInsert, sqlite3BtreeDelete and balancing, opening
      and closing files and cursors, transactions, auto-vacuum at commit and
      the integrity check; reference counts of pages and hints to the pager
      that do not change what a page holds;
    - the compiler of SQL (parse.c, select.c, where.c, expr.c, build.c,
      insert.c, update.c, delete.c, trigger.c and the rest): code generators
      whose meaning is that of the interpreter vdbe.c, of which only
      OP_MakeRecord is modelled;
    - printf.c, date.c, random.c, sqlite3AtoF: long double, time and
      randomness of the host; the allocators mem1.c to mem5.c and mutexes:
      their contract is the oracle of the allocations;
    - of os_unix.c everything but POSIX locks and the calls on files: the
      other locking styles work by calls of other file systems;
    - generated files (parse.c, opcodes.c, keywordhash.h) and the extensions
      fts1, fts2, fts3, icu, which the program is not built with. *)

From stdpp Require Export prelude list numbers gmap.
From Stdlib Require Export ZArith Lia.

#[global] Open Scope Z_scope.

(** ** The shared base

    C values and effects as the component files use them: machine integers
    as [Z] with their wrap-around, blocks of memory as lists with checked
    reads and writes, the result monad and result codes, and the arithmetic,
    bit and list lemmas that several components need. *)

(** ** Machine integers *)

Definition u8 (z : Z) : Z := z mod 2 ^ 8.
Definition u16 (z : Z) : Z := z mod 2 ^ 16.
Definition u32 (z : Z) : Z := z mod 2 ^ 32.
Definition u64 (z : Z) : Z := z mod 2 ^ 64.
Definition s32 (z : Z) : Z := (z + 2 ^ 31) mod 2 ^ 32 - 2 ^ 31.
Definition s64 (z : Z) : Z := (z + 2 ^ 63) mod 2 ^ 64 - 2 ^ 63.

(** A [char] read on a target where [char] is signed. *)
Definition schar (z : Z) : Z := if z <? 128 then z else z - 256.

Definition is_byte (b : Z) : Prop := 0 <= b < 256.
Definition is_u32 (z : Z) : Prop := 0 <= z < 2 ^ 32.
Definition is_u64 (z : Z) : Prop := 0 <= z < 2 ^ 64.

Definition bytes_ok (bs : list Z) : Prop := Forall is_byte bs.

#[export] Instance is_byte_dec b : Decision (is_byte b).
Proof. unfold is_byte. apply _. Defined.

(** ** Results of C code

    [Ret]: the code returns; [Abort]: an assertion failed and the process
    stops; [UB]: the code reads or writes memory it does not own, or uses an
    indeterminate value; [NoFuel]: a loop did not finish within the fuel the
    model gives it. *)
Inductive res (A : Type) : Type :=
| Ret (a : A)
| Abort
| UB
| NoFuel.
Arguments Ret {A} _.
Arguments Abort {A}.
Arguments UB {A}.
Arguments NoFuel {A}.

#[export] Instance res_ret : MRet res := @Ret.
#[export] Instance res_bind : MBind res := fun A B f m =>
  match m with Ret a => f a | Abort => Abort | UB => UB | NoFuel => NoFuel end.
#[export] Instance res_fmap : FMap res := fun A B f m =>
  match m with
  | Ret a => Ret (f a) | Abort => Abort | UB => UB | NoFuel => NoFuel
  end.

(** [assert(b)] with assertions compiled in. *)
Definition c_assert (b : bool) : res unit := if b then Ret tt else Abort.

(** An access that is undefined outside of its bounds. *)
Definition of_opt {A} (o : option A) : res A :=
  match o with Some a => Ret a | None => UB end.

Lemma bind_ret_l {A B} (a : A) (f : A -> res B) : (Ret a ≫= f) = f a.
Proof. reflexivity. Qed.

Lemma bind_of_opt {A B} (a : A) (f : A -> res B) : (of_opt (Some a) ≫= f) = f a.
Proof. reflexivity. Qed.

Lemma bind_c_assert {B} (f : unit -> res B) : (c_assert true ≫= f) = f tt.
Proof. reflexivity. Qed.

Lemma bind_Ret_inv {A B} (m : res A) (f : A -> res B) b :
  (m ≫= f) = Ret b -> exists a, m = Ret a /\ f a = Ret b.
Proof. destruct m; simpl; [eauto | discriminate..]. Qed.

(** ** Blocks of memory *)

(** [l[i]] and [l[i] = v] with a [Z] index. *)
Definition rd {A} (l : list A) (i : Z) : option A :=
  if decide (0 <= i) then l !! Z.to_nat i else None.

Definition wr {A} (l : list A) (i : Z) (v : A) : option (list A) :=
  if decide (0 <= i < Z.of_nat (length l)) then Some (<[Z.to_nat i := v]> l)
  else None.

Definition zlen {A} (l : list A) : Z := Z.of_nat (length l).

Lemma zlen_nonneg {A} (l : list A) : 0 <= zlen l.
Proof. unfold zlen. lia. Qed.

Lemma zlen_nil {A} : zlen (@nil A) = 0.
Proof. reflexivity. Qed.

Lemma zlen_cons {A} (x : A) l : zlen (x :: l) = zlen l + 1.
Proof. unfold zlen. rewrite length_cons. lia. Qed.

Lemma zlen_app {A} (l1 l2 : list A) : zlen (l1 ++ l2) = zlen l1 + zlen l2.
Proof. unfold zlen. rewrite length_app. lia. Qed.

Lemma zlen_replicate {A} n (x : A) : zlen (replicate n x) = Z.of_nat n.
Proof. unfold zlen. by rewrite length_replicate. Qed.

Lemma rd_Some {A} (l : list A) i v :
  rd l i = Some v <-> 0 <= i /\ l !! Z.to_nat i = Some v.
Proof. unfold rd. case_decide; naive_solver. Qed.

Lemma rd_lt {A} (l : list A) i : 0 <= i < zlen l -> is_Some (rd l i).
Proof.
  unfold rd, zlen. intros ?. rewrite decide_True by lia.
  apply lookup_lt_is_Some. lia.
Qed.

Lemma rd_Some_lt {A} (l : list A) i v : rd l i = Some v -> 0 <= i < zlen l.
Proof.
  rewrite rd_Some. intros [? H%lookup_lt_Some]. unfold zlen. lia.
Qed.

Lemma rd_ge {A} (l : list A) i : zlen l <= i -> rd l i = None.
Proof.
  intros H. destruct (rd l i) eqn:E; [|done]. apply rd_Some_lt in E. lia.
Qed.

Lemma rd_nat {A} (l : list A) (i : nat) : rd l (Z.of_nat i) = l !! i.
Proof. unfold rd. rewrite decide_True by lia. by rewrite Nat2Z.id. Qed.

Lemma wr_Some {A} (l : list A) i v :
  0 <= i < zlen l -> wr l i v = Some (<[Z.to_nat i := v]> l).
Proof. unfold wr, zlen. intros. by rewrite decide_True by lia. Qed.

Lemma wr_inv {A} (l l' : list A) i v :
  wr l i v = Some l' -> 0 <= i < zlen l /\ l' = <[Z.to_nat i := v]> l.
Proof. unfold wr, zlen. case_decide; naive_solver. Qed.

Lemma zlen_insert {A} (l : list A) i v : zlen (<[i := v]> l) = zlen l.
Proof. unfold zlen. by rewrite length_insert. Qed.

Lemma wr_zlen {A} (l l' : list A) i v : wr l i v = Some l' -> zlen l' = zlen l.
Proof. intros [_ ->]%wr_inv. apply zlen_insert. Qed.

Lemma rd_insert_eq {A} (l : list A) i v :
  0 <= i < zlen l -> rd (<[Z.to_nat i := v]> l) i = Some v.
Proof.
  intros. unfold rd. rewrite decide_True by lia.
  apply list_lookup_insert_eq. unfold zlen in *. lia.
Qed.

Lemma rd_insert_ne {A} (l : list A) i j v :
  0 <= i -> i <> j -> rd (<[Z.to_nat i := v]> l) j = rd l j.
Proof.
  intros. unfold rd. case_decide; [|done].
  apply list_lookup_insert_ne. lia.
Qed.

(** The value of a signed [int] operation; overflow is undefined. *)
Definition sint (z : Z) : res Z :=
  if decide (- 2 ^ 31 <= z < 2 ^ 31) then Ret z else UB.

Lemma sint_id z : - 2 ^ 31 <= z < 2 ^ 31 -> sint z = Ret z.
Proof. intros. unfold sint. by rewrite decide_True. Qed.

(** The answers of the allocator to successive requests; it answers every
    request beyond the list. *)
Definition next_alloc (o : list bool) : bool * list bool :=
  match o with [] => (true, []) | b :: o => (b, o) end.

(** [strlen]: the index of the first NUL; undefined without one. *)
Fixpoint strlen (mem : list Z) : res Z :=
  match mem with
  | [] => UB
  | c :: mem => if c =? 0 then Ret 0 else n ← strlen mem; Ret (n + 1)
  end.

(** [<ctype.h>] in the C locale. *)
Definition isdigit (c : Z) : bool := (48 <=? c) && (c <=? 57).
Definition isupper (c : Z) : bool := (65 <=? c) && (c <=? 90).
Definition islower (c : Z) : bool := (97 <=? c) && (c <=? 122).
Definition isalpha (c : Z) : bool := isupper c || islower c.
Definition isalnum (c : Z) : bool := isdigit c || isalpha c.
Definition isspace (c : Z) : bool := (c =? 32) || ((9 <=? c) && (c <=? 13)).
Definition tolower (c : Z) : Z := if isupper c then c + 32 else c.
Definition toupper (c : Z) : Z := if islower c then c - 32 else c.
Definition isxdigit (c : Z) : bool :=
  isdigit c || ((65 <=? c) && (c <=? 70)) || ((97 <=? c) && (c <=? 102)).
(** The value of a hexadecimal digit. *)
Definition xdigit_val (c : Z) : Z :=
  if isdigit c then c - 48 else if isupper c then c - 55 else c - 87.

(** [memmove] inside of one block: [n] cells from [src] to [dst]. *)
Definition memmove {A} (l : list A) (dst src n : Z) : res (list A) :=
  if decide (0 <= n /\ 0 <= src /\ 0 <= dst
             /\ src + n <= zlen l /\ dst + n <= zlen l)
  then Ret (take (Z.to_nat dst) l ++ take (Z.to_nat n) (drop (Z.to_nat src) l)
              ++ drop (Z.to_nat (dst + n)) l)
  else UB.

(** [memcpy(&buf[at], src, n)] with the bytes [src] *)
Fixpoint copy_to (buf : list Z) (at_ : Z) (src : list Z) : res (list Z) :=
  match src with
  | [] => Ret buf
  | c :: src => buf ← of_opt (wr buf at_ c); copy_to buf (at_ + 1) src
  end.

(** The [n] bytes at [z+i]. *)
Definition bytes_at (z : list Z) (i n : Z) : res (list Z) :=
  if decide (0 <= i /\ 0 <= n /\ i + n <= zlen z)
  then Ret (take (Z.to_nat n) (drop (Z.to_nat i) z)) else UB.

(** [realloc] of a block of [l] cells to [n] cells: the old cells are kept
    as far as they fit, the new ones hold [fill]. *)
Definition realloc_block {A} (fill : A) (n : nat) (l : list A) : list A :=
  resize n fill l.

(** ** Data models

    The frameworks are built for 32-bit and for 64-bit machines: the width of
    [size_t] and the size of a pointer. *)
Inductive target := ILP32 | LP64.
Definition size_bits (t : target) : Z := match t with ILP32 => 32 | LP64 => 64 end.
Definition ptr_bytes (t : target) : Z := match t with ILP32 => 4 | LP64 => 8 end.
Definition size_t (t : target) (z : Z) : Z := z mod 2 ^ size_bits t.

(** ** Hint databases and tactics *)

Create Rewrite HintDb sizes.
#[export] Hint Rewrite @length_app @length_cons @length_nil @length_replicate
  @length_insert @length_fmap @length_take @length_drop @length_resize
  @length_reverse @length_seq : sizes.

(** Side conditions about sizes and indices. *)
Ltac size := unfold zlen in *; autorewrite with sizes in *; try lia.

(** A string without NUL, and its length. *)
Definition no_nul (s : list Z) : Prop := Forall (fun c => c <> 0) s.

Lemma strlen_app s rest : no_nul s -> strlen (s ++ 0 :: rest) = Ret (zlen s).
Proof.
  induction 1 as [|c s Hc _ IH]; [done|]. simpl.
  rewrite (proj2 (Z.eqb_neq c 0) Hc), IH. simpl. f_equal. size.
Qed.

(** A boolean property of all bytes, checked by computation. *)
Lemma byte_cases (P : Z -> bool) c :
  forallb P (seqZ 0 256) = true -> is_byte c -> P c = true.
Proof.
  rewrite forallb_forall. intros H Hc. apply H, list_elem_of_In, elem_of_seqZ.
  unfold is_byte in Hc. lia.
Qed.

Ltac byte_check P c :=
  let H := fresh in
  assert (P c = true) as H by (apply (byte_cases P); [vm_compute; reflexivity | assumption]);
  cbv beta in H.

(** ** Lists read and written at a position *)

Lemma zlen_fmap {A B} (f : A -> B) l : zlen (f <$> l) = zlen l.
Proof. size. Qed.

Lemma take_app_zlen {A} (a b : list A) : take (Z.to_nat (zlen a)) (a ++ b) = a.
Proof. unfold zlen. rewrite Nat2Z.id. apply take_app_length. Qed.

Lemma drop_app_zlen {A} (a b : list A) : drop (Z.to_nat (zlen a)) (a ++ b) = b.
Proof. unfold zlen. rewrite Nat2Z.id. apply drop_app_length. Qed.

Lemma list_split_at {A} (l : list A) i :
  0 <= i < zlen l -> exists a x b, l = a ++ x :: b /\ zlen a = i.
Proof.
  intros Hi. destruct (lookup_lt_is_Some_2 l (Z.to_nat i)) as [x Hx]; [size|].
  exists (take (Z.to_nat i) l), x, (drop (S (Z.to_nat i)) l). split; [|size].
  by rewrite (take_drop_middle _ _ _ Hx).
Qed.

Lemma rd_middle {A} (a b : list A) x : rd (a ++ x :: b) (zlen a) = Some x.
Proof. unfold zlen. rewrite rd_nat. by apply list_lookup_middle. Qed.

Lemma rd_0 {A} (x : A) l : rd (x :: l) 0 = Some x.
Proof. apply (rd_middle [] l x). Qed.

Lemma wr_middle {A} (a b : list A) x v :
  wr (a ++ x :: b) (zlen a) v = Some (a ++ v :: b).
Proof.
  rewrite wr_Some by size. unfold zlen. rewrite Nat2Z.id.
  f_equal. rewrite insert_app_r_alt by lia. by rewrite Nat.sub_diag.
Qed.

Lemma rd_app_r {A} (a b : list A) i : 0 <= i -> rd (a ++ b) (zlen a + i) = rd b i.
Proof.
  intros. unfold rd. rewrite !decide_True by size.
  rewrite lookup_app_r by size. f_equal. size.
Qed.

Lemma rd_app_l {A} (a b : list A) i : i < zlen a -> rd (a ++ b) i = rd a i.
Proof. intros. unfold rd. case_decide; [|done]. apply lookup_app_l. size. Qed.

Lemma delete_middle_zlen {A} (a b : list A) x :
  delete (Z.to_nat (zlen a)) (a ++ x :: b) = a ++ b.
Proof. unfold zlen. rewrite Nat2Z.id. apply delete_middle. Qed.

(** Opening a gap of one cell, and closing one. *)
Lemma memmove_up {A} (a b c : list A) x z :
  memmove (a ++ (x :: b) ++ z :: c) (zlen a + 1) (zlen a) (zlen (x :: b))
  = Ret (a ++ x :: (x :: b) ++ c).
Proof.
  unfold memmove. rewrite decide_True by size. f_equal.
  rewrite drop_app_zlen. rewrite take_app_zlen.
  replace (Z.to_nat (zlen a + 1)) with (S (length a)) by size.
  replace (Z.to_nat (zlen a + 1 + zlen (x :: b))) with (length a + S (length (x :: b)))%nat by size.
  rewrite drop_app_add. rewrite (take_app_ge _ _ (S (length a))) by lia.
  replace (S (length a) - length a)%nat with 1%nat by lia.
  rewrite <- app_assoc. f_equal. simpl. do 2 f_equal.
  replace (S (length b)) with (length b + 1)%nat by lia. by rewrite drop_app_add.
Qed.

Lemma memmove_down {A} (a : list A) x (b c : list A) :
  exists y, memmove (a ++ x :: b ++ c) (zlen a) (zlen a + 1) (zlen b)
    = Ret (a ++ b ++ y :: c).
Proof.
  unfold memmove. rewrite decide_True by size.
  rewrite take_app_zlen.
  replace (Z.to_nat (zlen a + 1)) with (length a + 1)%nat by size.
  replace (Z.to_nat (zlen a + zlen b)) with (length a + length b)%nat by size.
  rewrite !drop_app_add. simpl. rewrite drop_0, take_app_zlen.
  destruct b as [|b0 b _] using rev_ind; [by exists x|].
  exists b0. do 2 f_equal. f_equal. rewrite length_app. simpl.
  replace (length b + 1)%nat with (S (length b)) by lia. simpl.
  rewrite <- app_assoc. simpl. apply drop_app_length.
Qed.

(** Run the binds whose first part has a value. *)
Ltac crun := repeat (first
  [rewrite bind_ret_l | rewrite bind_of_opt | rewrite bind_c_assert]; cbv beta).

(** Step through the binds of a [res] computation that returned. *)
Ltac inv_ret :=
  repeat match goal with
  | H : (_ ≫= _) = Ret _ |- _ =>
      let a := fresh "a" in let E := fresh "E" in
      apply bind_Ret_inv in H as (a & E & H)
  | H : Ret _ = Ret _ |- _ => injection H as H; subst
  | H : of_opt ?o = Ret _ |- _ =>
      let E := fresh "E" in destruct o eqn:E; simpl in H; [|discriminate H]
  | H : c_assert ?b = Ret _ |- _ =>
      let E := fresh "E" in destruct b eqn:E; simpl in H; [|discriminate H]
  | H : Abort = Ret _ |- _ => discriminate H
  | H : UB = Ret _ |- _ => discriminate H
  | H : NoFuel = Ret _ |- _ => discriminate H
  end.

Lemma rd_Forall {A} (P : A -> Prop) l i x : Forall P l -> rd l i = Some x -> P x.
Proof. intros Hl [_ Hx]%rd_Some. by eapply Forall_lookup_1. Qed.

(** ** Arithmetic *)

Lemma pow2_pos n : 0 <= n -> 0 < 2 ^ n.
Proof. intros. by apply Z.pow_pos_nonneg. Qed.

Lemma u32_id z : is_u32 z -> u32 z = z.
Proof. unfold is_u32, u32. apply Z.mod_small. Qed.

Lemma u64_id z : is_u64 z -> u64 z = z.
Proof. unfold is_u64, u64. apply Z.mod_small. Qed.

Lemma u8_id z : is_byte z -> u8 z = z.
Proof. unfold is_byte, u8. apply Z.mod_small. Qed.

Lemma u8_byte z : is_byte (u8 z).
Proof. unfold is_byte, u8. apply Z.mod_pos_bound. lia. Qed.

Lemma u32_range z : is_u32 (u32 z).
Proof. unfold is_u32, u32. apply Z.mod_pos_bound. lia. Qed.

Lemma u64_range z : is_u64 (u64 z).
Proof. unfold is_u64, u64. apply Z.mod_pos_bound. lia. Qed.

Lemma s32_id z : - 2 ^ 31 <= z < 2 ^ 31 -> s32 z = z.
Proof. intros. unfold s32. rewrite Z.mod_small by lia. lia. Qed.

#[export] Hint Resolve u8_byte u32_range u64_range zlen_nonneg : core.

(** ** Bit operations *)

(** A disjunction of a multiple of [2^n] and a number below [2^n] is a sum. *)
Lemma lor_add_low a b n :
  0 <= n -> 0 <= b < 2 ^ n -> Z.lor (Z.shiftl a n) b = a * 2 ^ n + b.
Proof.
  intros Hn Hb. rewrite Z.shiftl_mul_pow2 by lia.
  rewrite Z.add_nocarry_lxor, Z.lxor_lor; [done | |].
  all: apply Z.bits_inj'; intros k Hk; rewrite Z.land_spec, Z.bits_0.
  all: destruct (decide (k < n)) as [Hlt | Hge].
  all: try (rewrite Z.mul_pow2_bits_low by lia; done).
  all: rewrite <- (Z.mod_small b (2 ^ n)) by lia;
       rewrite Z.mod_pow2_bits_high by lia; apply andb_false_r.
Qed.

Lemma land_ones_mod a n : 0 <= n -> Z.land a (2 ^ n - 1) = a mod 2 ^ n.
Proof.
  intros. rewrite <- Z.land_ones by lia. f_equal.
  rewrite Z.ones_equiv. lia.
Qed.

Lemma testbit_pow2 n k : 0 <= n -> Z.testbit (2 ^ n) k = bool_decide (n = k).
Proof.
  intros. rewrite Z.pow2_bits_eqb by lia. case_bool_decide; lia.
Qed.

(** [x & (1 << k)] is non-zero exactly when bit [k] of [x] is set. *)
Lemma land_bit_nonzero x k :
  0 <= k -> negb (Z.land x (Z.shiftl 1 k) =? 0) = Z.testbit x k.
Proof.
  intros Hk. rewrite Z.shiftl_1_l.
  destruct (Z.testbit x k) eqn:E.
  - apply negb_true_iff, Z.eqb_neq. intros H0.
    assert (Z.testbit (Z.land x (2 ^ k)) k = true) as H1.
    { rewrite Z.land_spec, E, testbit_pow2 by lia. by case_bool_decide. }
    rewrite H0, Z.bits_0 in H1. done.
  - apply negb_false_iff, Z.eqb_eq. apply Z.bits_inj'. intros j Hj.
    rewrite Z.land_spec, testbit_pow2, Z.bits_0 by lia.
    case_bool_decide; subst; [by rewrite E | apply andb_false_r].
Qed.

(** Setting and clearing a bit of a word of [n] bits. *)
Lemma lor_bit_spec x k j :
  0 <= k -> 0 <= j ->
  Z.testbit (Z.lor x (Z.shiftl 1 k)) j = (bool_decide (k = j) || Z.testbit x j).
Proof.
  intros. rewrite Z.lor_spec, Z.shiftl_1_l, testbit_pow2 by lia. apply orb_comm.
Qed.

Lemma ldiff_bit_spec x k j :
  0 <= k -> 0 <= j ->
  Z.testbit (Z.land x (Z.lnot (Z.shiftl 1 k))) j
  = (negb (bool_decide (k = j)) && Z.testbit x j).
Proof.
  intros. rewrite Z.land_spec, Z.lnot_spec, Z.shiftl_1_l, testbit_pow2 by lia.
  apply andb_comm.
Qed.

(** Bounds of bit operations, through the bits above position [n]. *)
Lemma bits_bound x n :
  0 <= n -> (0 <= x < 2 ^ n <-> 0 <= x /\ forall j, n <= j -> Z.testbit x j = false).
Proof.
  intros Hn. split.
  - intros Hx. split; [lia|]. intros j Hj.
    rewrite <- (Z.mod_small x (2 ^ n)) by lia. by apply Z.mod_pow2_bits_high.
  - intros [H0 Hb]. split; [done|].
    destruct (decide (x = 0)) as [-> | Hx]; [by apply pow2_pos|].
    apply Z.log2_lt_pow2; [lia|].
    destruct (decide (Z.log2 x < n)) as [|Hge]; [done|].
    pose proof (Hb (Z.log2 x) ltac:(lia)) as Hf.
    rewrite Z.bit_log2 in Hf by lia. done.
Qed.

Lemma lor_bound x y n : 0 <= n -> 0 <= x < 2 ^ n -> 0 <= y < 2 ^ n -> 0 <= Z.lor x y < 2 ^ n.
Proof.
  intros Hn Hx Hy. apply (bits_bound x n Hn) in Hx as [Hx0 Hx].
  apply (bits_bound y n Hn) in Hy as [Hy0 Hy].
  apply bits_bound; [done|]. split; [by apply Z.lor_nonneg|].
  intros j Hj. rewrite Z.lor_spec, Hx, Hy by done. done.
Qed.

Lemma land_bound_l x y n : 0 <= n -> 0 <= x < 2 ^ n -> 0 <= Z.land x y < 2 ^ n.
Proof.
  intros Hn Hx. apply (bits_bound x n Hn) in Hx as [Hx0 Hx].
  apply bits_bound; [done|]. split.
  - apply Z.land_nonneg. by left.
  - intros j Hj. by rewrite Z.land_spec, Hx.
Qed.

Lemma lxor_bound x y n : 0 <= n -> 0 <= x < 2 ^ n -> 0 <= y < 2 ^ n -> 0 <= Z.lxor x y < 2 ^ n.
Proof.
  intros Hn Hx Hy. apply (bits_bound x n Hn) in Hx as [Hx0 Hx].
  apply (bits_bound y n Hn) in Hy as [Hy0 Hy].
  apply bits_bound; [done|]. split; [apply Z.lxor_nonneg; lia|].
  intros j Hj. rewrite Z.lxor_spec, Hx, Hy by done. done.
Qed.

Lemma shiftl_1_bound k n : 0 <= k < n -> 0 <= Z.shiftl 1 k < 2 ^ n.
Proof.
  intros. rewrite Z.shiftl_1_l. split; [lia|]. apply Z.pow_lt_mono_r; lia.
Qed.

(** ** The byte of the file that the locks start at ([os.h]) *)

(** The locks of the Unix port and the pages of a database both depend on it. *)
Definition PENDING_BYTE : Z := 1073741824.

(** ** Result codes ([sqlite3.h]) *)

Definition SQLITE_OK : Z := 0.
Definition SQLITE_ERROR : Z := 1.
Definition SQLITE_ABORT : Z := 4.
Definition SQLITE_BUSY : Z := 5.
Definition SQLITE_NOMEM : Z := 7.
Definition SQLITE_INTERRUPT : Z := 9.
Definition SQLITE_IOERR : Z := 10.
Definition SQLITE_CORRUPT : Z := 11.
Definition SQLITE_FULL : Z := 13.
Definition SQLITE_TOOBIG : Z := 18.
Definition SQLITE_MISUSE : Z := 21.
Definition SQLITE_NOLFS : Z := 22.
