(* ===== verification/CArray.v ===== *)
(** * SGBaseCArray: the growing, NULL-terminated array of pointers

    Model of frameworks/SGFoundation/framework/source/base/collection/
    SGBaseCArray.c. The [elements] block is a list of cells; a cell that
    [malloc] or [realloc] left indeterminate is [None], a stored pointer is
    [Some p] and the null pointer is [Some 0]. *)

From S2P Require Import Prelude.

Record SGBaseCArray := mkCArray {
  capacity : Z;                           (* allocated buckets *)
  count : Z;                              (* number of elements *)
  elements : option (list (option Z))     (* None: the NULL pointer *)
}.

Definition kSGBaseCArrayBacketsInitSize : Z := 16.
Definition kSGBaseCArrayBacketsGrow : Z := 2.

Section CArray.
Context (t : target).

Definition SGBaseCArrayInit : SGBaseCArray := mkCArray 0 0 None.

(** [free(elements)] and a fresh [Init]; freeing NULL is allowed. *)
Definition SGBaseCArrayFinalize (self : SGBaseCArray) : SGBaseCArray :=
  SGBaseCArrayInit.

(** [while (newCount < numElements) newCount *= 2] on a [size_t]. *)
Fixpoint carray_grow (fuel : nat) (newCount numElements : Z) : option Z :=
  match fuel with
  | O => None
  | S fuel =>
      if newCount <? numElements
      then carray_grow fuel (size_t t (newCount * kSGBaseCArrayBacketsGrow)) numElements
      else Some newCount
  end.

(** The loop's fuel: a doubling [size_t] is 0 or above any [unsigned] after
    33 rounds, so a run that needs more rounds never ends. *)
Definition SGBaseCArrayNewCapacityFor_ (self : SGBaseCArray) (numElements : Z) : res Z :=
  let newCount := if capacity self =? 0 then kSGBaseCArrayBacketsInitSize
                  else capacity self in
  match carray_grow 34 newCount numElements with
  | Some c => Ret (u32 c)
  | None => NoFuel
  end.

(** [alloc] tells whether the allocator answers the request. Without memory
    the [malloc] branch writes through the null pointer before it is tested;
    the [realloc] branch reports the error and exits. *)
Definition SGBaseCArrayReserve (alloc : bool) (self : SGBaseCArray)
    (numElements : Z) : res SGBaseCArray :=
  if numElements <=? capacity self then Ret self else
  cap ← SGBaseCArrayNewCapacityFor_ self numElements;
  c_assert (numElements <=? cap);;
  let size := size_t t (cap * ptr_bytes t) in
  let cells := Z.to_nat (size / ptr_bytes t) in
  match elements self with
  | None =>
      c_assert (count self =? 0);;
      if alloc
      then newp ← of_opt (wr (replicate cells None) 0 (Some 0));
           Ret (mkCArray cap (count self) (Some newp))
      else UB
  | Some l =>
      if alloc
      then Ret (mkCArray cap (count self) (Some (realloc_block None cells l)))
      else Abort
  end.

(** [p[i] = v] through the pointer to the elements. *)
Definition carray_store (self : SGBaseCArray) (i v : Z) : res SGBaseCArray :=
  l ← of_opt (elements self);
  l' ← of_opt (wr l i (Some v));
  Ret (mkCArray (capacity self) (count self) (Some l')).

Definition carray_memmove (self : SGBaseCArray) (dst src n : Z) : res SGBaseCArray :=
  l ← of_opt (elements self);
  l' ← memmove l dst src n;
  Ret (mkCArray (capacity self) (count self) (Some l')).

Definition carray_set_count (self : SGBaseCArray) (n : Z) : SGBaseCArray :=
  mkCArray (capacity self) n (elements self).

Definition SGBaseCArrayAppendValue (alloc : bool) (self : SGBaseCArray)
    (aValue : Z) : res SGBaseCArray :=
  let idx := count self in
  self ← SGBaseCArrayReserve alloc self (u32 (idx + 2));
  self ← carray_store self idx aValue;
  let idx := u32 (idx + 1) in
  self ← carray_store self idx 0;
  Ret (carray_set_count self idx).

Definition SGBaseCArrayInsertValueAtIndex (alloc : bool) (self : SGBaseCArray)
    (aValue anIndex : Z) : res SGBaseCArray :=
  let cnt := count self in
  if cnt =? anIndex then SGBaseCArrayAppendValue alloc self aValue else
  c_assert (anIndex <? cnt);;
  self ← SGBaseCArrayReserve alloc self (u32 (cnt + 2));
  self ← carray_memmove self (anIndex + 1) anIndex (cnt - anIndex);
  self ← carray_store self anIndex aValue;
  let cnt := u32 (cnt + 1) in
  self ← carray_store self cnt 0;
  Ret (carray_set_count self cnt).

Definition SGBaseCArrayRemoveValueAtIndex (self : SGBaseCArray) (anIndex : Z)
    : res SGBaseCArray :=
  c_assert (anIndex <? count self);;
  let move_ := u32 (count self - u32 (anIndex + 1)) in
  self ← (if 0 <? move_ then carray_memmove self anIndex (anIndex + 1) move_
          else Ret self);
  let self := carray_set_count self (u32 (count self - 1)) in
  carray_store self (count self) 0.

Definition SGBaseCArrayRemoveLastValue (self : SGBaseCArray) : res SGBaseCArray :=
  if count self =? 0 then Ret self else
  let self := carray_set_count self (u32 (count self - 1)) in
  carray_store self (count self) 0.

(** The element count is read once, the elements at every round: the applier
    may change the array it is applied to. *)
Fixpoint carray_apply_from {S} (applier : Z -> Z -> SGBaseCArray * S -> res (SGBaseCArray * S))
    (i : Z) (rounds : nat) (st : SGBaseCArray * S) : res (SGBaseCArray * S) :=
  match rounds with
  | O => Ret st
  | Datatypes.S rounds =>
      l ← of_opt (elements (fst st));
      cell ← of_opt (rd l i);
      p ← of_opt cell;
      st ← applier p i st;
      carray_apply_from applier (i + 1) rounds st
  end.

Definition SGBaseCArrayApply {S} (self : SGBaseCArray)
    (applier : Z -> Z -> SGBaseCArray * S -> res (SGBaseCArray * S)) (userData : S)
    : res (SGBaseCArray * S) :=
  carray_apply_from applier 0 (Z.to_nat (count self)) (self, userData).

(** ** The list the array stands for, and its invariant *)

Definition contents (self : SGBaseCArray) : list Z :=
  match elements self with
  | None => []
  | Some l => omap id (take (Z.to_nat (count self)) l)
  end.

(** The capacity is 16 doubled some times; the cells up to [count] are
    pointers, the one at [count] is the terminating NULL. *)
Definition carray_rep (self : SGBaseCArray) (xs : list Z) : Prop :=
  count self = zlen xs /\
  match elements self with
  | None => capacity self = 0 /\ xs = []
  | Some l =>
      zlen l = capacity self
      /\ (exists k, (k <= 27)%nat /\ capacity self = 16 * 2 ^ Z.of_nat k)
      /\ exists rest, l = (Some <$> xs) ++ Some 0 :: rest
  end.

(** The element counts the array can be asked to hold: with 32-bit pointers
    the next size in bytes would be 2^32. *)
Definition max_elems : Z := match t with ILP32 => 2 ^ 29 | LP64 => 2 ^ 31 end.

(** ** Sequences of operations, on the array and on its list *)

Inductive carray_op :=
| OpAppend (v : Z)
| OpInsert (v i : Z)
| OpRemove (i : Z)
| OpRemoveLast.

Definition carray_step (op : carray_op) (self : SGBaseCArray) : res SGBaseCArray :=
  match op with
  | OpAppend v => SGBaseCArrayAppendValue true self v
  | OpInsert v i => SGBaseCArrayInsertValueAtIndex true self v i
  | OpRemove i => SGBaseCArrayRemoveValueAtIndex self i
  | OpRemoveLast => SGBaseCArrayRemoveLastValue self
  end.

Fixpoint carray_run (ops : list carray_op) (self : SGBaseCArray) : res SGBaseCArray :=
  match ops with
  | [] => Ret self
  | op :: ops => self ← carray_step op self; carray_run ops self
  end.

(** What the operations do to a list; [None]: the index is out of range. *)
Definition list_step (op : carray_op) (xs : list Z) : option (list Z) :=
  match op with
  | OpAppend v => Some (xs ++ [v])
  | OpInsert v i =>
      if i <=? zlen xs
      then Some (take (Z.to_nat i) xs ++ v :: drop (Z.to_nat i) xs) else None
  | OpRemove i => if i <? zlen xs then Some (delete (Z.to_nat i) xs) else None
  | OpRemoveLast => Some (take (length xs - 1) xs)
  end.

Fixpoint list_run (ops : list carray_op) (xs : list Z) : option (list Z) :=
  match ops with
  | [] => Some xs
  | op :: ops => xs ← list_step op xs; list_run ops xs
  end.

(** The indices are values of type [unsigned]. *)
Definition op_ok (op : carray_op) : Prop :=
  match op with
  | OpInsert _ i | OpRemove i => is_u32 i
  | _ => True
  end.

(** The calls an applier sees: each element with its index, in order. *)
Fixpoint fold_indexed {S} (f : Z -> Z -> S -> S) (i : Z) (xs : list Z) (s : S) : S :=
  match xs with
  | [] => s
  | x :: xs => fold_indexed f (i + 1) xs (f x i s)
  end.

(** ** The capacity computation *)

Lemma size_t_small z : 0 <= z < 2 ^ 32 -> size_t t z = z.
Proof.
  intros. unfold size_t. apply Z.mod_small. split; [lia|].
  destruct t; simpl size_bits; [lia|].
  apply Z.lt_le_trans with (2 ^ 32); [lia|]. by apply Z.pow_le_mono_r.
Qed.

Lemma pow2_27 (k : nat) : (k <= 27)%nat -> 0 < 2 ^ Z.of_nat k <= 2 ^ 27.
Proof. intros. split; [apply pow2_pos; lia | apply Z.pow_le_mono_r; lia]. Qed.

Lemma carray_grow_spec (fuel k : nat) (num : Z) :
  num <= 2 ^ 31 -> (k <= 27)%nat -> (27 - k < fuel)%nat ->
  exists k' : nat, (k <= k' <= 27)%nat
    /\ carray_grow fuel (16 * 2 ^ Z.of_nat k) num = Some (16 * 2 ^ Z.of_nat k')
    /\ num <= 16 * 2 ^ Z.of_nat k'
    /\ (k' = k \/ 8 * 2 ^ Z.of_nat k' < num).
Proof.
  revert k. induction fuel as [|fuel IH]; intros k Hnum Hk Hf; [lia|].
  cbn [carray_grow]. destruct (Z.ltb_spec (16 * 2 ^ Z.of_nat k) num) as [Hlt|Hge].
  - assert (k < 27)%nat as Hk'.
    { destruct (decide (k = 27)%nat) as [->|]; [|lia].
      change (2 ^ Z.of_nat 27) with (2 ^ 27) in Hlt. lia. }
    pose proof (pow2_27 (S k) ltac:(lia)) as HS.
    rewrite Nat2Z.inj_succ, Z.pow_succ_r in HS by lia.
    unfold kSGBaseCArrayBacketsGrow.
    rewrite size_t_small by lia.
    replace (16 * 2 ^ Z.of_nat k * 2) with (16 * 2 ^ Z.of_nat (S k))
      by (rewrite Nat2Z.inj_succ, Z.pow_succ_r by lia; lia).
    destruct (IH (S k)) as (k' & Hb & -> & Hle & Hmin); [lia..|].
    exists k'. split_and!; [lia|lia|done|lia|].
    destruct Hmin as [->|]; [|by right]. right.
    rewrite Nat2Z.inj_succ, Z.pow_succ_r by lia. lia.
  - exists k. split_and!; auto; lia.
Qed.

(** A loop whose counter has wrapped to 0 never reaches the bound. *)
Lemma carray_grow_zero fuel num : 0 < num -> carray_grow fuel 0 num = None.
Proof.
  intros Hn. induction fuel as [|fuel IH]; [done|]. cbn [carray_grow].
  rewrite (proj2 (Z.ltb_lt 0 num)) by done. by rewrite Z.mul_0_l, size_t_small.
Qed.

Lemma new_capacity_spec self num :
  (capacity self = 0 \/ exists k, (k <= 27)%nat /\ capacity self = 16 * 2 ^ Z.of_nat k) ->
  num <= 2 ^ 31 ->
  exists k : nat, (k <= 27)%nat
    /\ SGBaseCArrayNewCapacityFor_ self num = Ret (16 * 2 ^ Z.of_nat k)
    /\ num <= 16 * 2 ^ Z.of_nat k /\ capacity self <= 16 * 2 ^ Z.of_nat k
    /\ (capacity self = 16 * 2 ^ Z.of_nat k \/ k = O \/ 8 * 2 ^ Z.of_nat k < num).
Proof.
  intros Hcap Hnum. unfold SGBaseCArrayNewCapacityFor_.
  assert (exists k0 : nat, (k0 <= 27)%nat /\
    (if capacity self =? 0 then kSGBaseCArrayBacketsInitSize else capacity self)
      = 16 * 2 ^ Z.of_nat k0 /\ capacity self <= 16 * 2 ^ Z.of_nat k0 /\
    (capacity self = 16 * 2 ^ Z.of_nat k0 \/ k0 = O)) as (k0 & Hk0 & -> & Hc & Hd).
  { destruct Hcap as [->|(k0 & Hk & ->)].
    - exists O. split_and!; [lia|done|done|by right].
    - exists k0. pose proof (pow2_27 k0 Hk).
      rewrite (proj2 (Z.eqb_neq _ 0)) by lia. split_and!; [done..|lia|by left]. }
  destruct (carray_grow_spec 34 k0 num) as (k & Hk & -> & Hn & Hmin); [lia..|].
  pose proof (pow2_27 k ltac:(lia)).
  pose proof (Z.pow_le_mono_r 2 (Z.of_nat k0) (Z.of_nat k) ltac:(lia) ltac:(lia)).
  exists k. split_and!; [lia|..|lia|lia|].
  - f_equal. apply u32_id. split; lia.
  - destruct Hmin as [->|]; [|auto]. destruct Hd; auto.
Qed.

(** ** The representation under the operations *)

Lemma realloc_block_grow {A} (fill : A) n (l : list A) :
  (length l <= n)%nat -> realloc_block fill n l = l ++ replicate (n - length l) fill.
Proof. intros. unfold realloc_block. by apply resize_ge. Qed.

Lemma reserve_rep self xs n :
  carray_rep self xs -> 0 < n <= max_elems ->
  exists self' l, SGBaseCArrayReserve true self n = Ret self'
    /\ carray_rep self' xs /\ n <= capacity self' /\ elements self' = Some l.
Proof.
  intros [Hcount Hrep] Hn. unfold SGBaseCArrayReserve.
  destruct (Z.leb_spec n (capacity self)) as [Hle|Hlt].
  { destruct (elements self) as [l|] eqn:El.
    - exists self, l. split_and!; auto. split; [done|]. by rewrite El.
    - destruct Hrep as [H0 _]. lia. }
  assert (max_elems <= 2 ^ 31) as Hmax by (unfold max_elems; destruct t; lia).
  destruct (new_capacity_spec self n) as (k & Hk & -> & Hcap & Hmono & Hmin);
    [|lia|].
  { destruct (elements self); [right; tauto | left; tauto]. }
  crun. rewrite (proj2 (Z.leb_le n _) Hcap). simpl.
  pose proof (pow2_27 k Hk) as Hp.
  assert (size_t t (16 * 2 ^ Z.of_nat k * ptr_bytes t) / ptr_bytes t
          = 16 * 2 ^ Z.of_nat k) as ->.
  { unfold size_t. rewrite Z.mod_small; [rewrite Z.div_mul; [done|destruct t; done]|].
    unfold max_elems in *. destruct t; simpl size_bits; simpl ptr_bytes; [|lia].
    assert (k <= 25)%nat.
    { destruct (decide (k <= 25)%nat) as [|Hk']; [done|].
      pose proof (Z.pow_le_mono_r 2 26 (Z.of_nat k) ltac:(lia) ltac:(lia)).
      destruct Hmin as [Heq|[->|]]; lia. }
    pose proof (Z.pow_le_mono_r 2 (Z.of_nat k) 25 ltac:(lia) ltac:(lia)). lia. }
  destruct (elements self) as [l|] eqn:El.
  - destruct Hrep as (Hlen & Hpow & rest & ->). unfold zlen in Hlen.
    eexists _, _. split; [reflexivity|]. simpl. split_and!; [|lia|done].
    split; [done|]. simpl. rewrite realloc_block_grow by lia. split_and!.
    + size.
    + by exists k.
    + eexists. by rewrite <- app_assoc.
  - destruct Hrep as [H0 ->]. rewrite zlen_nil in Hcount.
    rewrite (proj2 (Z.eqb_eq _ _) Hcount). simpl.
    rewrite wr_Some by size. simpl.
    eexists _, _. split; [reflexivity|]. simpl. split_and!; [|lia|done].
    split; [by rewrite Hcount|]. simpl. split_and!.
    + size.
    + by exists k.
    + destruct (Z.to_nat (16 * 2 ^ Z.of_nat k)) as [|m] eqn:Em; [lia|].
      by eexists.
Qed.

Lemma append_rep self xs v :
  carray_rep self xs -> zlen xs + 2 <= max_elems ->
  exists self', SGBaseCArrayAppendValue true self v = Ret self'
    /\ carray_rep self' (xs ++ [v]).
Proof.
  intros Hrep Hmax. pose proof (proj1 Hrep) as Hcount.
  assert (max_elems <= 2 ^ 31) by (unfold max_elems; destruct t; lia).
  pose proof (zlen_nonneg xs). unfold SGBaseCArrayAppendValue.
  rewrite Hcount, (u32_id (zlen xs + 2)), (u32_id (zlen xs + 1)) by (split; lia).
  destruct (reserve_rep self xs (zlen xs + 2)) as (s1 & l & -> & Hrep1 & Hcap & El);
    [done|lia|].
  destruct Hrep1 as [Hc1 Hl]. rewrite El in Hl. destruct Hl as (Hlen & Hpow & rest & ->).
  destruct rest as [|r rest]; [size|].
  crun. unfold carray_store. rewrite El. crun.
  rewrite <- (zlen_fmap Some xs), wr_middle. crun. simpl.
  crun. rewrite (cons_middle (Some v)), app_assoc.
  replace (zlen (Some <$> xs) + 1) with (zlen ((Some <$> xs) ++ [Some v])) by size.
  rewrite wr_middle. crun. eexists. split; [done|].
  split; [simpl; size|]. simpl. split_and!; [size|done|].
  exists rest. by rewrite fmap_app.
Qed.

Lemma insert_rep self xs v i :
  carray_rep self xs -> zlen xs + 2 <= max_elems -> 0 <= i <= zlen xs ->
  exists self', SGBaseCArrayInsertValueAtIndex true self v i = Ret self'
    /\ carray_rep self' (take (Z.to_nat i) xs ++ v :: drop (Z.to_nat i) xs).
Proof.
  intros Hrep Hmax Hi. pose proof (proj1 Hrep) as Hcount.
  assert (max_elems <= 2 ^ 31) by (unfold max_elems; destruct t; lia).
  unfold SGBaseCArrayInsertValueAtIndex. rewrite Hcount.
  destruct (Z.eqb_spec (zlen xs) i) as [<-|Hne].
  { rewrite take_ge, drop_ge by size. by apply append_rep. }
  rewrite (proj2 (Z.ltb_lt _ _)) by lia. simpl.
  rewrite (u32_id (zlen xs + 2)), (u32_id (zlen xs + 1)) by (split; lia).
  destruct (reserve_rep self xs (zlen xs + 2)) as (s1 & l & -> & Hrep1 & Hcap & El);
    [done|lia|].
  destruct Hrep1 as [Hc1 Hl]. rewrite El in Hl. destruct Hl as (Hlen & Hpow & rest & ->).
  destruct rest as [|r rest]; [size|].
  crun. unfold carray_memmove, carray_store. rewrite El. crun.
  destruct (list_split_at xs i) as (a & x & b & -> & <-); [lia|].
  rewrite take_app_zlen, drop_app_zlen in *. rewrite fmap_app, fmap_cons.
  rewrite <- app_assoc, <- !app_comm_cons.
  rewrite <- (zlen_fmap Some a).
  replace (zlen (a ++ x :: b) - zlen (Some <$> a)) with (zlen (Some x :: (Some <$> b))) by size.
  rewrite app_comm_cons, memmove_up. crun. simpl. rewrite wr_middle. crun. simpl.
  match goal with |- context [wr ?l ?k _] =>
    replace l with (((Some <$> a) ++ Some v :: Some x :: (Some <$> b)) ++ r :: rest)
      by by rewrite <- app_assoc end.
  replace (zlen (a ++ x :: b) + 1)
    with (zlen ((Some <$> a) ++ Some v :: Some x :: (Some <$> b))) by size.
  rewrite wr_middle. crun. eexists. split; [done|].
  split; [simpl; size|]. simpl. split_and!; [size|done|].
  exists rest. by rewrite fmap_app.
Qed.

Lemma remove_rep self xs i :
  carray_rep self xs -> zlen xs <= max_elems -> 0 <= i < zlen xs ->
  exists self', SGBaseCArrayRemoveValueAtIndex self i = Ret self'
    /\ carray_rep self' (delete (Z.to_nat i) xs).
Proof.
  intros [Hcount Hrep] Hmax Hi.
  assert (max_elems <= 2 ^ 31) by (unfold max_elems; destruct t; lia).
  unfold SGBaseCArrayRemoveValueAtIndex. rewrite Hcount.
  rewrite (proj2 (Z.ltb_lt i (zlen xs))) by lia. simpl.
  destruct (elements self) as [l|] eqn:El; [|destruct Hrep as [_ ->]; size].
  destruct Hrep as (Hlen & Hpow & rest & ->).
  destruct (list_split_at xs i) as (a & x & b & -> & <-); [lia|].
  rewrite delete_middle_zlen.
  rewrite (u32_id (zlen a + 1)), (u32_id (_ - _)) by (split; size).
  replace (zlen (a ++ x :: b) - (zlen a + 1)) with (zlen b) by size.
  unfold carray_memmove, carray_store. rewrite El. crun.
  rewrite fmap_app, fmap_cons, <- app_assoc, <- !app_comm_cons.
  assert (exists y, (if 0 <? zlen b
    then l' ← memmove ((Some <$> a) ++ Some x :: (Some <$> b) ++ Some 0 :: rest)
                (zlen a) (zlen a + 1) (zlen b);
         Ret (mkCArray (capacity self) (count self) (Some l'))
    else Ret self)
    = Ret (mkCArray (capacity self) (count self)
        (Some ((Some <$> a) ++ (Some <$> b) ++ y :: Some 0 :: rest)))) as [y ->].
  { destruct (Z.ltb_spec 0 (zlen b)).
    - rewrite <- (zlen_fmap Some a), <- (zlen_fmap Some b).
      destruct (memmove_down (Some <$> a) (Some x) (Some <$> b) (Some 0 :: rest)) as [y ->].
      by exists y.
    - destruct b; [|size]. exists (Some x). destruct self as [c n e]; simpl in *.
      rewrite El, fmap_app, fmap_cons, <- app_assoc. done. }
  crun. simpl. rewrite Hcount, u32_id by (split; size).
  crun. rewrite app_assoc.
  replace (zlen (a ++ x :: b) - 1) with (zlen ((Some <$> a) ++ (Some <$> b))) by size.
  rewrite wr_middle. crun. eexists. split; [done|].
  split; [simpl; size|]. simpl. split_and!; [size|done|].
  eexists. by rewrite fmap_app.
Qed.

Lemma remove_last_rep self xs :
  carray_rep self xs -> zlen xs <= max_elems ->
  exists self', SGBaseCArrayRemoveLastValue self = Ret self'
    /\ carray_rep self' (take (length xs - 1) xs).
Proof.
  intros [Hcount Hrep] Hmax.
  assert (max_elems <= 2 ^ 31) by (unfold max_elems; destruct t; lia).
  unfold SGBaseCArrayRemoveLastValue. rewrite Hcount.
  destruct (Z.eqb_spec (zlen xs) 0) as [H0|H0].
  { exists self. split; [done|]. rewrite take_ge by size. done. }
  destruct (elements self) as [l|] eqn:El; [|destruct Hrep as [_ ->]; size].
  destruct Hrep as (Hlen & Hpow & rest & ->).
  destruct xs as [|x xs _] using rev_ind; [done|].
  rewrite u32_id by (split; size). unfold carray_store. simpl. rewrite El. crun.
  rewrite fmap_app, <- app_assoc. simpl.
  replace (zlen (xs ++ [x]) - 1) with (zlen (Some <$> xs)) by size.
  rewrite wr_middle. crun. eexists. split; [done|].
  replace (length (xs ++ [x]) - 1)%nat with (length xs) by size.
  rewrite take_app_length.
  split; [simpl; size|]. simpl. split_and!; [size|done|by eexists].
Qed.

Lemma contents_rep self xs : carray_rep self xs -> contents self = xs.
Proof.
  intros [Hc Hrep]. unfold contents. destruct (elements self) as [l|].
  - destruct Hrep as (_ & _ & rest & ->). rewrite Hc.
    rewrite <- (zlen_fmap Some), take_app_zlen.
    clear. induction xs as [|x xs IH]; [done|]. cbn. f_equal. exact IH.
  - by destruct Hrep as [_ ->].
Qed.

Lemma init_rep : carray_rep SGBaseCArrayInit [].
Proof. split; [done|]. simpl. auto. Qed.

Lemma step_rep op self xs :
  carray_rep self xs -> zlen xs + 2 <= max_elems -> op_ok op ->
  match list_step op xs with
  | Some ys => exists self', carray_step op self = Ret self' /\ carray_rep self' ys
      /\ zlen ys <= zlen xs + 1
  | None => carray_step op self = Abort
  end.
Proof.
  intros Hrep Hmax Hop. destruct op as [v|v i|i|]; simpl in *.
  - destruct (append_rep self xs v) as (s & -> & ?); auto.
    exists s. split_and!; [done..|size].
  - destruct (Z.leb_spec i (zlen xs)) as [Hle|Hgt].
    + destruct (insert_rep self xs v i) as (s & -> & ?); auto; [unfold is_u32 in Hop; lia|].
      exists s. split_and!; [done..|size].
    + unfold SGBaseCArrayInsertValueAtIndex. rewrite (proj1 Hrep).
      rewrite (proj2 (Z.eqb_neq _ _)), (proj2 (Z.ltb_ge i (zlen xs))) by lia. done.
  - destruct (Z.ltb_spec i (zlen xs)) as [Hlt|Hge].
    + destruct (remove_rep self xs i) as (s & -> & ?); auto; [lia|unfold is_u32 in Hop; lia|].
      exists s. split_and!; [done..|]. unfold is_u32 in Hop.
      assert (is_Some (xs !! Z.to_nat i)) as Hi by (apply lookup_lt_is_Some_2; size).
      pose proof (length_delete xs (Z.to_nat i) Hi). size.
    + unfold SGBaseCArrayRemoveValueAtIndex. rewrite (proj1 Hrep).
      rewrite (proj2 (Z.ltb_ge i (zlen xs))) by lia. done.
  - destruct (remove_last_rep self xs) as (s & -> & ?); auto; [lia|].
    exists s. split_and!; [done..|size].
Qed.

Lemma run_rep ops self xs :
  carray_rep self xs -> zlen xs + zlen ops + 1 <= max_elems -> Forall op_ok ops ->
  match list_run ops xs with
  | Some ys => exists self', carray_run ops self = Ret self' /\ carray_rep self' ys
  | None => carray_run ops self = Abort
  end.
Proof.
  revert self xs. induction ops as [|op ops IH]; intros self xs Hrep Hmax Hops; simpl.
  { by exists self. }
  inversion_clear Hops as [|? ? Hop Hops'].
  pose proof (step_rep op self xs Hrep ltac:(size) Hop) as Hstep.
  destruct (list_step op xs) as [ys|]; simpl; [|by rewrite Hstep].
  destruct Hstep as (self' & -> & Hrep' & Hlen). apply (IH self' ys); [done|size|done].
Qed.

(** C28: any sequence of append, insert, remove and remove-last calls on an
    initialised array, as long as the number of elements stays below the
    number the machine can address, does what the list operations do to the
    empty list: the array then holds that list, NULL-terminated and inside of
    its capacity, and the run stops at an assertion exactly when an index is
    out of range. *)
Theorem carray_refines_list (ops : list carray_op) :
  zlen ops + 1 <= max_elems -> Forall op_ok ops ->
  match list_run ops [] with
  | Some ys => exists self, carray_run ops SGBaseCArrayInit = Ret self
      /\ carray_rep self ys /\ contents self = ys
  | None => carray_run ops SGBaseCArrayInit = Abort
  end.
Proof.
  intros Hmax Hops.
  pose proof (run_rep ops SGBaseCArrayInit [] init_rep ltac:(size) Hops) as H.
  destruct (list_run ops []) as [ys|]; [|done].
  destruct H as (self & ? & Hrep). exists self. auto using contents_rep.
Qed.

Lemma apply_from_spec {S} applier (f : Z -> Z -> S -> S) self (s : S) pre xs l :
  elements self = Some l -> (exists rest, l = (Some <$> pre) ++ (Some <$> xs) ++ rest) ->
  (forall p i st, applier p i (self, st) = Ret (self, f p i st)) ->
  carray_apply_from applier (zlen pre) (length xs) (self, s)
  = Ret (self, fold_indexed f (zlen pre) xs s).
Proof.
  intros El Hl Happ. revert pre s Hl.
  induction xs as [|x xs IH]; intros pre s [rest ->]; [done|].
  cbn [length carray_apply_from fst]. rewrite El. crun.
  rewrite fmap_cons, <- app_comm_cons. rewrite <- (zlen_fmap Some pre), rd_middle. crun.
  rewrite Happ. crun. cbn [fold_indexed].
  replace (zlen (Some <$> pre) + 1) with (zlen (pre ++ [x])) by size.
  rewrite zlen_fmap. apply IH. exists rest.
  by rewrite fmap_app, <- app_assoc.
Qed.

(** [SGBaseCArrayApply] with an applier that leaves the array alone calls
    it once for every element, in order and with the element's index. *)
Theorem carray_apply_in_order {S} (self : SGBaseCArray) (xs : list Z)
    (applier : Z -> Z -> SGBaseCArray * S -> res (SGBaseCArray * S))
    (f : Z -> Z -> S -> S) (s : S) :
  carray_rep self xs ->
  (forall p i st, applier p i (self, st) = Ret (self, f p i st)) ->
  SGBaseCArrayApply self applier s = Ret (self, fold_indexed f 0 xs s).
Proof.
  intros [Hc Hrep] Happ. unfold SGBaseCArrayApply. rewrite Hc.
  unfold zlen. rewrite Nat2Z.id. destruct (elements self) as [l|] eqn:El.
  - apply (apply_from_spec applier f self s [] xs l); [done| |done].
    destruct Hrep as (_ & _ & rest & ->). by exists (Some 0 :: rest).
  - destruct Hrep as [_ ->]. done.
Qed.
End CArray.

Arguments carray_run : simpl never.

(** The capacity is computed by a loop that ends for every request up to
    2^31 elements, with the smallest doubling that is large enough; on a
    32-bit [size_t] it never ends for a larger request, because the doubled
    count wraps to 0. *)
Theorem carray_capacity_loop (self : SGBaseCArray) (num : Z) :
  (capacity self = 0 \/ exists k, (k <= 27)%nat /\ capacity self = 16 * 2 ^ Z.of_nat k) ->
  0 <= num < 2 ^ 32 ->
  (num <= 2 ^ 31 -> forall t, exists k : nat, (k <= 27)%nat
      /\ SGBaseCArrayNewCapacityFor_ t self num = Ret (16 * 2 ^ Z.of_nat k)
      /\ num <= 16 * 2 ^ Z.of_nat k
      /\ (capacity self = 16 * 2 ^ Z.of_nat k \/ k = O \/ 8 * 2 ^ Z.of_nat k < num))
  /\ (2 ^ 31 < num ->
      SGBaseCArrayNewCapacityFor_ ILP32 self num = NoFuel
      /\ forall fuel, carray_grow ILP32 fuel
           (if capacity self =? 0 then kSGBaseCArrayBacketsInitSize else capacity self) num
         = None).
Proof.
  intros Hcap Hnum. split.
  - intros Hle t. destruct (new_capacity_spec t self num Hcap Hle) as (k & ? & ? & ? & ? & ?).
    eauto 10.
  - intros Hgt.
    assert (forall fuel k, (k <= 27)%nat ->
      carray_grow ILP32 fuel (16 * 2 ^ Z.of_nat k) num = None) as Hdiv.
    { induction fuel as [|fuel IH]; intros k Hk; [done|]. cbn [carray_grow].
      pose proof (pow2_27 k Hk). rewrite (proj2 (Z.ltb_lt _ num)) by lia.
      unfold kSGBaseCArrayBacketsGrow.
      destruct (decide (k = 27)%nat) as [->|].
      - apply (carray_grow_zero ILP32). lia.
      - pose proof (pow2_27 (S k) ltac:(lia)) as HS.
        rewrite Nat2Z.inj_succ, Z.pow_succ_r in HS by lia.
        rewrite (size_t_small ILP32) by lia.
        replace (16 * 2 ^ Z.of_nat k * 2) with (16 * 2 ^ Z.of_nat (S k))
          by (rewrite Nat2Z.inj_succ, Z.pow_succ_r by lia; lia).
        apply IH. lia. }
    assert (forall fuel, carray_grow ILP32 fuel
      (if capacity self =? 0 then kSGBaseCArrayBacketsInitSize else capacity self) num
      = None) as Hall.
    { intros fuel. destruct Hcap as [->|(k & Hk & ->)]; [by apply (Hdiv fuel 0%nat); lia|].
      pose proof (pow2_27 k Hk). rewrite (proj2 (Z.eqb_neq _ 0)) by lia. by apply Hdiv. }
    split; [|done]. unfold SGBaseCArrayNewCapacityFor_. by rewrite Hall.
Qed.

(** Without memory the first store into an array is undefined - the block
    is written through before the test for NULL - while growing an existing
    block stops with the error report. *)
Theorem carray_out_of_memory (t : target) (self : SGBaseCArray) (xs : list Z) (v : Z) :
  carray_rep self xs -> zlen xs + 2 <= max_elems t -> capacity self < zlen xs + 2 ->
  SGBaseCArrayAppendValue t false self v
  = match elements self with None => UB | Some _ => Abort end.
Proof.
  intros Hrep Hmax Hcap. pose proof (proj1 Hrep) as Hcount.
  assert (max_elems t <= 2 ^ 31) by (unfold max_elems; destruct t; lia).
  unfold SGBaseCArrayAppendValue, SGBaseCArrayReserve.
  rewrite Hcount, (u32_id (zlen xs + 2)) by (split; size).
  rewrite (proj2 (Z.leb_gt (zlen xs + 2) (capacity self))) by lia.
  destruct (new_capacity_spec t self (zlen xs + 2)) as (k & Hk & -> & Hle & _); [|lia|].
  { destruct Hrep as [_ Hl]. destruct (elements self); [right; tauto|left; tauto]. }
  crun. rewrite (proj2 (Z.leb_le _ _)) by done. crun.
  destruct (elements self) as [l|] eqn:El; [done|].
  destruct Hrep as [_ Hl]. rewrite El in Hl. destruct Hl as [_ ->]. done.
Qed.

(** ** The theorems at concrete arrays *)

Lemma carray_refines_list_witness :
  exists self,
    carray_run LP64 [OpAppend 7; OpInsert 8 0; OpRemove 1; OpAppend 9] SGBaseCArrayInit
      = Ret self
    /\ contents self = [8; 9].
Proof.
  assert (Forall op_ok [OpAppend 7; OpInsert 8 0; OpRemove 1; OpAppend 9]) as Hok
    by (repeat constructor; discriminate).
  pose proof (carray_refines_list LP64 [OpAppend 7; OpInsert 8 0; OpRemove 1; OpAppend 9]
    ltac:(discriminate) Hok) as H.
  simpl in H. destruct H as (self & H1 & _ & H2). by exists self.
Defined.

Lemma carray_apply_in_order_witness :
  SGBaseCArrayApply (S := list (Z * Z))
    (mkCArray 16 2 (Some (Some 5 :: Some 6 :: Some 0 :: replicate 13 None)))
    (fun p i st => Ret (fst st, snd st ++ [(p, i)])) []
  = Ret (mkCArray 16 2 (Some (Some 5 :: Some 6 :: Some 0 :: replicate 13 None)),
         [(5, 0); (6, 1)]).
Proof.
  rewrite (carray_apply_in_order _ [5; 6] _ (fun p i st => st ++ [(p, i)]));
    [reflexivity | | reflexivity].
  split; [reflexivity|]. simpl. split; [reflexivity|]. split.
  - exists O. split; [lia|reflexivity].
  - by exists (replicate 13 None).
Defined.

Lemma carray_capacity_loop_witness :
  (exists k : nat, SGBaseCArrayNewCapacityFor_ LP64 SGBaseCArrayInit 100
     = Ret (16 * 2 ^ Z.of_nat k) /\ 100 <= 16 * 2 ^ Z.of_nat k)
  /\ SGBaseCArrayNewCapacityFor_ ILP32 SGBaseCArrayInit (2 ^ 31 + 1) = NoFuel.
Proof.
  split.
  - destruct (carray_capacity_loop SGBaseCArrayInit 100) as [H _];
      [by left|lia|]. destruct (H ltac:(lia) LP64) as (k & _ & ? & ? & _). eauto.
  - destruct (carray_capacity_loop SGBaseCArrayInit (2 ^ 31 + 1)) as [_ H];
      [by left|lia|]. apply H. lia.
Defined.

Lemma carray_out_of_memory_witness :
  SGBaseCArrayAppendValue LP64 false SGBaseCArrayInit 7 = UB.
Proof.
  rewrite (carray_out_of_memory LP64 SGBaseCArrayInit [] 7 init_rep);
    [reflexivity | discriminate | reflexivity].
Defined.
