(* ===== verification/BitArray.v ===== *)
(** * SGBaseBitArray: the growing array of bits

    Model of frameworks/SGFoundation/framework/source/base/collection/
    SGBaseBitArray.c: 32-bit words in one block, bit [i] in word [i >> 5].
    The contents of fresh memory are the argument [junk] of the operations
    that allocate; [alloc] tells whether the allocator answers. *)

From S2P Require Import Prelude.

Definition BITS_PER_WORD : Z := 32.
Definition PREFERED_LENGTH : Z := 16 * 8.
Definition NBITS_SHIFT : Z := 5.
Definition INDEX_MASK : Z := 31.

Record SGBaseBitArray := mkBitArray {
  mpStore : list Z;      (* UInt32 words *)
  mCapacity : Z          (* number of words *)
}.

(** [n] words of uninitialised memory. *)
Definition fresh_words (junk : list Z) (n : Z) : list Z := resize (Z.to_nat n) 0 junk.

Definition SGBaseBitArrayGetSizeOfStore (me : SGBaseBitArray) : Z := 4 * mCapacity me.

(** [memset(words + from, 0, nbytes)] on a block of 4-byte words. *)
Definition memset_words (l : list Z) (from nbytes : Z) : res (list Z) :=
  if decide (0 <= from /\ 0 <= nbytes /\ from + nbytes / 4 <= zlen l)
  then Ret (take (Z.to_nat from) l ++ replicate (Z.to_nat (nbytes / 4)) 0
            ++ drop (Z.to_nat (from + nbytes / 4)) l)
  else UB.

Definition SGBaseBitArrayClearAll (me : SGBaseBitArray) : res SGBaseBitArray :=
  s ← memset_words (mpStore me) 0 (SGBaseBitArrayGetSizeOfStore me);
  Ret (mkBitArray s (mCapacity me)).

Definition SGBaseBitArrayAllocLength (alloc : bool) (junk : list Z) (aLength : Z)
    : res SGBaseBitArray :=
  c_assert alloc;;
  let capacity_ := u32 (aLength / BITS_PER_WORD + 1) in
  c_assert alloc;;
  SGBaseBitArrayClearAll (mkBitArray (fresh_words junk capacity_) capacity_).

Definition SGBaseBitArrayAlloc (alloc : bool) (junk : list Z) : res SGBaseBitArray :=
  SGBaseBitArrayAllocLength alloc junk PREFERED_LENGTH.

Definition SGBaseBitArrayGetLength (me : SGBaseBitArray) : Z :=
  u32 (mCapacity me * BITS_PER_WORD).

Definition SGBaseBitArraySetLength (alloc : bool) (junk : list Z)
    (me : SGBaseBitArray) (aLength : Z) : res SGBaseBitArray :=
  let oldcap_ := mCapacity me in
  let newcap_ := u32 (aLength / BITS_PER_WORD + 1) in
  if oldcap_ =? newcap_ then Ret me else
  c_assert alloc;;
  let newp_ := if newcap_ <=? zlen (mpStore me) then take (Z.to_nat newcap_) (mpStore me)
               else mpStore me ++ fresh_words junk (newcap_ - zlen (mpStore me)) in
  if newcap_ <=? oldcap_ then Ret (mkBitArray newp_ newcap_) else
  s ← memset_words newp_ oldcap_ (4 * (newcap_ - oldcap_));
  Ret (mkBitArray s newcap_).

Definition SGBaseBitArrayReserve (alloc : bool) (junk : list Z)
    (me : SGBaseBitArray) (reserveLength : Z) : res SGBaseBitArray :=
  if SGBaseBitArrayGetLength me <? reserveLength
  then SGBaseBitArraySetLength alloc junk me reserveLength
  else Ret me.

Definition SGBaseBitArrayGetAtIndex (me : SGBaseBitArray) (anIndex : Z) : res bool :=
  let index_ := Z.shiftr anIndex NBITS_SHIFT in
  c_assert (index_ <? mCapacity me);;
  w ← of_opt (rd (mpStore me) index_);
  Ret (negb (Z.land w (Z.shiftl 1 (Z.land anIndex INDEX_MASK)) =? 0)).

Definition SGBaseBitArraySetAtIndex (me : SGBaseBitArray) (anIndex : Z)
    : res SGBaseBitArray :=
  let index_ := Z.shiftr anIndex NBITS_SHIFT in
  c_assert (index_ <? mCapacity me);;
  w ← of_opt (rd (mpStore me) index_);
  s ← of_opt (wr (mpStore me) index_
                (u32 (Z.lor w (Z.shiftl 1 (Z.land anIndex INDEX_MASK)))));
  Ret (mkBitArray s (mCapacity me)).

Definition SGBaseBitArrayClearAtIndex (me : SGBaseBitArray) (anIndex : Z)
    : res SGBaseBitArray :=
  let index_ := Z.shiftr anIndex NBITS_SHIFT in
  c_assert (index_ <? mCapacity me);;
  w ← of_opt (rd (mpStore me) index_);
  s ← of_opt (wr (mpStore me) index_
                (u32 (Z.land w (Z.lnot (Z.shiftl 1 (Z.land anIndex INDEX_MASK))))));
  Ret (mkBitArray s (mCapacity me)).

(** ** The set of indices the array stands for *)

(** Bit [j] of a list of 32-bit words. *)
Definition word_bit (l : list Z) (j : Z) : bool :=
  match rd l (j / 32) with Some w => Z.testbit w (j mod 32) | None => false end.

Definition bitarray_rep (me : SGBaseBitArray) (s : gset Z) : Prop :=
  zlen (mpStore me) = mCapacity me /\ 1 <= mCapacity me <= 2 ^ 27
  /\ Forall is_u32 (mpStore me)
  /\ forall j, (j ∈ s <-> 0 <= j /\ word_bit (mpStore me) j = true).

Inductive bit_op :=
| BitSet (i : Z)
| BitClear (i : Z)
| BitClearAll
| BitSetLength (n : Z)
| BitReserve (n : Z).

Definition bit_step (junk : list Z) (op : bit_op) (me : SGBaseBitArray)
    : res SGBaseBitArray :=
  match op with
  | BitSet i => SGBaseBitArraySetAtIndex me i
  | BitClear i => SGBaseBitArrayClearAtIndex me i
  | BitClearAll => SGBaseBitArrayClearAll me
  | BitSetLength n => SGBaseBitArraySetLength true junk me n
  | BitReserve n => SGBaseBitArrayReserve true junk me n
  end.

(** Each allocation finds other contents in fresh memory. *)
Fixpoint bit_run (ops : list (bit_op * list Z)) (me : SGBaseBitArray)
    : res SGBaseBitArray :=
  match ops with
  | [] => Ret me
  | (op, junk) :: ops => me ← bit_step junk op me; bit_run ops me
  end.

(** The same operations on a number of words and a set of indices. *)
Definition set_resize (n : Z) (st : Z * gset Z) : Z * gset Z :=
  let cap := n / 32 + 1 in (cap, filter (fun j => j < 32 * cap) (snd st)).

Definition set_step (op : bit_op) (st : Z * gset Z) : option (Z * gset Z) :=
  match op with
  | BitSet i => if i <? 32 * fst st then Some (fst st, {[i]} ∪ snd st) else None
  | BitClear i => if i <? 32 * fst st then Some (fst st, snd st ∖ {[i]}) else None
  | BitClearAll => Some (fst st, ∅)
  | BitSetLength n => Some (set_resize n st)
  | BitReserve n =>
      Some (if u32 (fst st * 32) <? n then set_resize n st else st)
  end.

Fixpoint set_run (ops : list bit_op) (st : Z * gset Z) : option (Z * gset Z) :=
  match ops with
  | [] => Some st
  | op :: ops => st ← set_step op st; set_run ops st
  end.

Definition bit_op_ok (op : bit_op) : Prop :=
  match op with
  | BitSet i | BitClear i | BitSetLength i | BitReserve i => is_u32 i
  | BitClearAll => True
  end.

(** ** Words and bits *)

Lemma index_word j : Z.shiftr j NBITS_SHIFT = j / 32.
Proof. unfold NBITS_SHIFT. by rewrite Z.shiftr_div_pow2. Qed.

Lemma index_bit j : Z.land j INDEX_MASK = j mod 32.
Proof. exact (land_ones_mod j 5 ltac:(lia)). Qed.

Lemma word_of_index cap j : 0 <= j -> (j / 32 <? cap) = (j <? 32 * cap).
Proof.
  intros. apply eq_true_iff_eq. rewrite !Z.ltb_lt.
  split; intros; [|apply Z.div_lt_upper_bound; lia].
  pose proof (Z.mod_pos_bound j 32). pose proof (Z.div_mod j 32). lia.
Qed.

Lemma word_bit_out l j : 0 <= j -> zlen l <= j / 32 -> word_bit l j = false.
Proof. intros. unfold word_bit. by rewrite rd_ge. Qed.

Lemma word_bit_insert l i w j :
  0 <= i -> 0 <= j -> i / 32 < zlen l ->
  word_bit (<[Z.to_nat (i / 32) := w]> l) j
  = if decide (i / 32 = j / 32) then Z.testbit w (j mod 32) else word_bit l j.
Proof.
  intros Hi Hj Hlt. pose proof (Z.div_pos i 32 Hi ltac:(lia)).
  unfold word_bit. case_decide as E.
  - rewrite <- E, rd_insert_eq by lia. done.
  - by rewrite rd_insert_ne.
Qed.

Lemma word_bit_app l1 l2 j :
  0 <= j -> j / 32 < zlen l1 -> word_bit (l1 ++ l2) j = word_bit l1 j.
Proof.
  intros Hj Hlt. unfold word_bit, rd.
  rewrite !decide_True by (apply Z.div_pos; lia).
  rewrite lookup_app_l; [done|]. pose proof (Z.div_pos j 32). size.
Qed.

Lemma word_bit_app_zeros l n j :
  0 <= j -> zlen l <= j / 32 -> word_bit (l ++ replicate n 0) j = false.
Proof.
  intros Hj Hge. unfold word_bit, rd. rewrite decide_True by (apply Z.div_pos; lia).
  rewrite lookup_app_r by size.
  destruct (_ !! _) as [w|] eqn:E; [|done].
  apply lookup_replicate in E as [-> _]. apply Z.bits_0.
Qed.

Lemma word_bit_take l n j :
  0 <= j -> word_bit (take (Z.to_nat n) l) j
            = (bool_decide (j / 32 < n) && word_bit l j).
Proof.
  intros Hj. pose proof (Z.div_pos j 32 Hj ltac:(lia)). unfold word_bit, rd.
  rewrite !decide_True by lia. case_bool_decide.
  - by rewrite lookup_take_lt by lia.
  - by rewrite lookup_take_ge by lia.
Qed.

Lemma memset_tail (l : list Z) n :
  0 <= n <= zlen l ->
  memset_words l n (4 * (zlen l - n))
  = Ret (take (Z.to_nat n) l ++ replicate (Z.to_nat (zlen l - n)) 0).
Proof.
  intros Hn. unfold memset_words.
  rewrite (Z.mul_comm 4), Z.div_mul by lia. rewrite decide_True by lia.
  do 2 f_equal. rewrite drop_ge by size. by rewrite app_nil_r.
Qed.

Lemma same_word i j : 0 <= i -> 0 <= j -> i / 32 = j / 32 -> i mod 32 = j mod 32 -> i = j.
Proof.
  intros. pose proof (Z.div_mod i 32 ltac:(lia)).
  pose proof (Z.div_mod j 32 ltac:(lia)). congruence.
Qed.

Lemma elem_of_words me s cap j :
  bitarray_rep me s -> mCapacity me = cap -> j ∈ s -> 0 <= j < 32 * cap.
Proof.
  intros (Hlen & Hcap & _ & Hs) <- Hj. apply Hs in Hj as [H0 Hb]. split; [done|].
  destruct (decide (j < 32 * mCapacity me)) as [|Hge]; [done|].
  rewrite word_bit_out in Hb; [done..|]. rewrite Hlen.
  apply Z.div_le_lower_bound; lia.
Qed.

(** ** The operations on the representation *)

Lemma get_spec me s j :
  bitarray_rep me s -> 0 <= j ->
  SGBaseBitArrayGetAtIndex me j
  = if j <? 32 * mCapacity me then Ret (bool_decide (j ∈ s)) else Abort.
Proof.
  intros (Hlen & Hcap & Hw & Hs) Hj. unfold SGBaseBitArrayGetAtIndex.
  rewrite index_word, index_bit, word_of_index by done.
  destruct (Z.ltb_spec j (32 * mCapacity me)) as [Hlt|]; [|done]. crun.
  pose proof (Z.div_pos j 32 Hj ltac:(lia)).
  destruct (rd_lt (mpStore me) (j / 32)) as [w Hr].
  { split; [done|]. rewrite Hlen. apply Z.div_lt_upper_bound; lia. }
  rewrite Hr. crun. f_equal. rewrite land_bit_nonzero by (apply Z.mod_pos_bound; lia).
  specialize (Hs j). unfold word_bit in Hs. rewrite Hr in Hs.
  case_bool_decide; destruct (Z.testbit w (j mod 32)); naive_solver.
Qed.

Lemma set_bit_word l i w :
  0 <= i -> i / 32 < zlen l -> rd l (i / 32) = Some w -> is_u32 w ->
  u32 (Z.lor w (Z.shiftl 1 (i mod 32))) = Z.lor w (Z.shiftl 1 (i mod 32)).
Proof.
  intros. apply u32_id. apply lor_bound; [lia|done|].
  apply shiftl_1_bound. by apply Z.mod_pos_bound.
Qed.

Lemma rep_word me s i :
  bitarray_rep me s -> 0 <= i < 32 * mCapacity me ->
  exists w, rd (mpStore me) (i / 32) = Some w /\ is_u32 w /\ 0 <= i / 32 < zlen (mpStore me).
Proof.
  intros (Hlen & Hcap & Hw & Hs) Hi.
  assert (0 <= i / 32 < zlen (mpStore me)) as Hb.
  { split; [apply Z.div_pos; lia|]. rewrite Hlen. apply Z.div_lt_upper_bound; lia. }
  destruct (rd_lt _ _ Hb) as [w Hr]. exists w. split_and!; [done| |lia..].
  apply rd_Some in Hr as [_ Hr]. by eapply Forall_lookup_1.
Qed.

Lemma set_rep me s i :
  bitarray_rep me s -> 0 <= i < 32 * mCapacity me ->
  exists me', SGBaseBitArraySetAtIndex me i = Ret me'
    /\ bitarray_rep me' ({[i]} ∪ s) /\ mCapacity me' = mCapacity me.
Proof.
  intros Hrep Hi. destruct (rep_word me s i Hrep Hi) as (w & Hr & Hw & Hb).
  destruct Hrep as (Hlen & Hcap & Hws & Hs). unfold SGBaseBitArraySetAtIndex.
  rewrite index_word, index_bit, word_of_index by lia.
  rewrite (proj2 (Z.ltb_lt i (32 * mCapacity me))) by lia. crun. rewrite Hr. crun.
  rewrite wr_Some by lia. crun. eexists. split; [done|]. split; [|done].
  rewrite (set_bit_word (mpStore me) i w) by (done || lia).
  pose proof (Z.mod_pos_bound i 32 ltac:(lia)).
  split_and!; simpl; [by rewrite zlen_insert|lia..| |].
  - apply Forall_insert; [done|]. apply lor_bound; [lia|done|]. by apply shiftl_1_bound.
  - intros j. rewrite elem_of_union, elem_of_singleton, Hs. split.
    + intros [->|[Hj Hb']].
      * split; [lia|]. rewrite word_bit_insert, decide_True by lia.
        rewrite lor_bit_spec, bool_decide_true by lia. done.
      * split; [done|]. rewrite word_bit_insert by lia. case_decide as E; [|done].
        rewrite lor_bit_spec by (try apply Z.mod_pos_bound; lia).
        unfold word_bit in Hb'. rewrite <- E, Hr in Hb'. rewrite Hb'. apply orb_true_r.
    + intros [Hj Hb']. rewrite word_bit_insert in Hb' by lia.
      case_decide as E; [|by auto].
      rewrite lor_bit_spec in Hb' by (try apply Z.mod_pos_bound; lia).
      apply orb_true_iff in Hb' as [Hm%bool_decide_eq_true|Hb'].
      * left. symmetry. apply same_word; lia.
      * right. split; [done|]. unfold word_bit. by rewrite <- E, Hr.
Qed.

Lemma clear_rep me s i :
  bitarray_rep me s -> 0 <= i < 32 * mCapacity me ->
  exists me', SGBaseBitArrayClearAtIndex me i = Ret me'
    /\ bitarray_rep me' (s ∖ {[i]}) /\ mCapacity me' = mCapacity me.
Proof.
  intros Hrep Hi. destruct (rep_word me s i Hrep Hi) as (w & Hr & Hw & Hb).
  destruct Hrep as (Hlen & Hcap & Hws & Hs). unfold SGBaseBitArrayClearAtIndex.
  rewrite index_word, index_bit, word_of_index by lia.
  rewrite (proj2 (Z.ltb_lt i (32 * mCapacity me))) by lia. crun. rewrite Hr. crun.
  rewrite wr_Some by lia. crun. eexists. split; [done|]. split; [|done].
  pose proof (land_bound_l w (Z.lnot (Z.shiftl 1 (i mod 32))) 32 ltac:(lia) Hw) as Hwb.
  rewrite u32_id by done.
  pose proof (Z.mod_pos_bound i 32 ltac:(lia)).
  split_and!; simpl; [by rewrite zlen_insert|lia..| |].
  - by apply Forall_insert.
  - intros j. rewrite elem_of_difference, elem_of_singleton, Hs. split.
    + intros [[Hj Hb'] Hne]. split; [done|]. rewrite word_bit_insert by lia.
      case_decide as E; [|done].
      rewrite ldiff_bit_spec by (try apply Z.mod_pos_bound; lia).
      unfold word_bit in Hb'. rewrite <- E, Hr in Hb'. rewrite Hb', andb_true_r.
      apply negb_true_iff, bool_decide_eq_false. intros Hm. apply Hne.
      symmetry. apply same_word; lia.
    + intros [Hj Hb']. rewrite word_bit_insert in Hb' by lia.
      case_decide as E.
      * rewrite ldiff_bit_spec in Hb' by (try apply Z.mod_pos_bound; lia).
        apply andb_true_iff in Hb' as [Hm%negb_true_iff%bool_decide_eq_false Hb'].
        split_and!; [done|unfold word_bit; by rewrite <- E, Hr|naive_solver].
      * split; [done|]. naive_solver.
Qed.

Lemma fresh_words_length junk n : 0 <= n -> zlen (fresh_words junk n) = n.
Proof. intros. unfold fresh_words. size. Qed.

Lemma Forall_u32_zeros n : Forall is_u32 (replicate n 0).
Proof. apply Forall_replicate. by split. Qed.

Lemma memset_all (l : list Z) :
  memset_words l 0 (4 * zlen l) = Ret (replicate (length l) 0).
Proof.
  pose proof (memset_tail l 0 ltac:(size)) as H. rewrite Z.sub_0_r in H. rewrite H.
  simpl. do 2 f_equal. size.
Qed.

Lemma zeros_rep n :
  1 <= n <= 2 ^ 27 -> bitarray_rep (mkBitArray (replicate (Z.to_nat n) 0) n) ∅.
Proof.
  intros. split_and!; simpl; [size|lia..|apply Forall_u32_zeros|].
  intros j. rewrite elem_of_empty. split; [done|]. intros [Hj Hb].
  pose proof (word_bit_app_zeros [] (Z.to_nat n) j Hj (Z.div_pos j 32 Hj ltac:(lia))).
  simpl in *. congruence.
Qed.

Lemma clear_all_rep me s :
  bitarray_rep me s ->
  exists me', SGBaseBitArrayClearAll me = Ret me'
    /\ bitarray_rep me' ∅ /\ mCapacity me' = mCapacity me.
Proof.
  intros (Hlen & Hcap & _). unfold SGBaseBitArrayClearAll, SGBaseBitArrayGetSizeOfStore.
  rewrite <- Hlen, memset_all. crun. eexists. split; [done|]. split; [|done].
  replace (length (mpStore me)) with (Z.to_nat (zlen (mpStore me))) by size.
  apply zeros_rep. lia.
Qed.

Lemma new_words n : is_u32 n -> u32 (n / BITS_PER_WORD + 1) = n / 32 + 1 /\ 1 <= n / 32 + 1 <= 2 ^ 27.
Proof.
  unfold is_u32, BITS_PER_WORD. intros [H0 H1].
  pose proof (Z.div_pos n 32 H0 ltac:(lia)).
  assert (n / 32 < 2 ^ 27) by (apply Z.div_lt_upper_bound; lia).
  split; [apply u32_id; split; lia | lia].
Qed.

Lemma set_length_rep junk me s n :
  bitarray_rep me s -> is_u32 n ->
  exists me', SGBaseBitArraySetLength true junk me n = Ret me'
    /\ bitarray_rep me' (snd (set_resize n (mCapacity me, s)))
    /\ mCapacity me' = n / 32 + 1.
Proof.
  intros Hrep Hn. destruct (new_words n Hn) as [E Hb].
  pose proof (fun j => elem_of_words me s (mCapacity me) j Hrep eq_refl) as Hin.
  destruct Hrep as (Hlen & Hcap & Hws & Hs). unfold SGBaseBitArraySetLength.
  rewrite E. simpl. set (cap := n / 32 + 1) in *.
  destruct (Z.eqb_spec (mCapacity me) cap) as [Heq|Hne].
  { exists me. split; [done|]. split; [|done]. split_and!; [done|lia..|done|].
    intros j. rewrite elem_of_filter, <- Hs. split; [tauto|].
    intros Hj. split; [|done]. apply Hin in Hj. lia. }
  crun. rewrite Hlen.
  destruct (Z.leb_spec cap (mCapacity me)) as [Hle|Hgt].
  { eexists. split; [done|]. split; [|done]. split_and!; simpl; [size|lia..| |].
    - by apply Forall_take.
    - intros j. rewrite elem_of_filter, Hs. split.
      + intros (Hj & H0 & Hbit). split; [done|]. rewrite word_bit_take by done.
        rewrite Hbit, bool_decide_true; [done|]. apply Z.div_lt_upper_bound; lia.
      + intros [H0 Hbit]. rewrite word_bit_take in Hbit by done.
        apply andb_true_iff in Hbit as [Hd%bool_decide_eq_true Hbit].
        split; [|done]. pose proof (Z.div_mod j 32). pose proof (Z.mod_pos_bound j 32). lia. }
  set (l := mpStore me ++ fresh_words junk (cap - mCapacity me)).
  assert (zlen l = cap) as Hl.
  { subst l. rewrite zlen_app, fresh_words_length by lia. lia. }
  replace (4 * (cap - mCapacity me)) with (4 * (zlen l - mCapacity me)) by lia.
  rewrite memset_tail by lia. crun.
  eexists. split; [done|]. split; [|done]. subst l.
  rewrite <- Hlen at 1. rewrite take_app_zlen, Hl.
  split_and!; simpl; [size|lia..| |].
  - apply Forall_app. split; [done|apply Forall_u32_zeros].
  - intros j. rewrite elem_of_filter, Hs. split.
    + intros (Hj & H0 & Hbit). split; [done|].
      assert (j ∈ s) as Hjs by by apply Hs. apply Hin in Hjs.
      rewrite word_bit_app; [done..|]. rewrite Hlen. apply Z.div_lt_upper_bound; lia.
    + intros [H0 Hbit].
      destruct (decide (j / 32 < zlen (mpStore me))) as [Hlt|Hge];
        [|rewrite word_bit_app_zeros in Hbit; [done|done|lia]].
      rewrite word_bit_app in Hbit by done.
      assert (j ∈ s) as Hjs by by apply Hs. apply Hin in Hjs. split; [lia|done].
Qed.

Lemma bit_step_rep junk op me s :
  bitarray_rep me s -> bit_op_ok op ->
  match set_step op (mCapacity me, s) with
  | Some (cap, s') => exists me', bit_step junk op me = Ret me'
      /\ bitarray_rep me' s' /\ mCapacity me' = cap
  | None => bit_step junk op me = Abort
  end.
Proof.
  intros Hrep Hop. destruct op as [i|i| |n|n]; simpl in *.
  - destruct (Z.ltb_spec i (32 * mCapacity me)).
    + apply set_rep; [done|]. unfold is_u32 in Hop. lia.
    + unfold SGBaseBitArraySetAtIndex. unfold is_u32 in Hop.
      by rewrite index_word, word_of_index, (proj2 (Z.ltb_ge _ _)) by lia.
  - destruct (Z.ltb_spec i (32 * mCapacity me)).
    + apply clear_rep; [done|]. unfold is_u32 in Hop. lia.
    + unfold SGBaseBitArrayClearAtIndex. unfold is_u32 in Hop.
      by rewrite index_word, word_of_index, (proj2 (Z.ltb_ge _ _)) by lia.
  - by eapply clear_all_rep.
  - by apply set_length_rep.
  - unfold SGBaseBitArrayReserve, SGBaseBitArrayGetLength, BITS_PER_WORD.
    destruct (_ <? n); simpl; [by apply set_length_rep|]. by exists me.
Qed.

Lemma bit_run_rep ops me s :
  bitarray_rep me s -> Forall bit_op_ok ops.*1 ->
  match set_run ops.*1 (mCapacity me, s) with
  | Some (cap, s') => exists me', bit_run ops me = Ret me'
      /\ bitarray_rep me' s' /\ mCapacity me' = cap
  | None => bit_run ops me = Abort
  end.
Proof.
  revert me s. induction ops as [|[op junk] ops IH]; intros me s Hrep Hops; simpl.
  { by exists me. }
  inversion_clear Hops as [|? ? Hop Hops']. simpl in *.
  pose proof (bit_step_rep junk op me s Hrep Hop) as Hstep.
  destruct (set_step op (mCapacity me, s)) as [[cap s']|]; simpl; [|by rewrite Hstep].
  destruct Hstep as (me' & -> & Hrep' & <-). by apply IH.
Qed.

(** C29: allocation gives an array of [n / 32 + 1] clear words, whatever the
    fresh memory held; then any sequence of bit and length operations does
    what the operations on a set of indices do - a shrinking length drops the
    indices beyond the last word kept, a growing one adds none - and stops at
    an assertion exactly when an index lies outside of the words; and reading
    any index gives membership in that set. *)
Theorem bitarray_refines_set (n : Z) (junk : list Z) (ops : list (bit_op * list Z)) :
  is_u32 n -> Forall bit_op_ok ops.*1 ->
  exists me0, SGBaseBitArrayAllocLength true junk n = Ret me0
  /\ match set_run ops.*1 (n / 32 + 1, ∅) with
     | Some (cap, s) => exists me, bit_run ops me0 = Ret me
         /\ forall j, 0 <= j -> SGBaseBitArrayGetAtIndex me j
              = if j <? 32 * cap then Ret (bool_decide (j ∈ s)) else Abort
     | None => bit_run ops me0 = Abort
     end.
Proof.
  intros Hn Hops. destruct (new_words n Hn) as [E Hb].
  unfold SGBaseBitArrayAllocLength. rewrite E. crun.
  unfold SGBaseBitArrayClearAll, SGBaseBitArrayGetSizeOfStore. simpl.
  replace (4 * (n / 32 + 1)) with (4 * zlen (fresh_words junk (n / 32 + 1)))
    by (rewrite fresh_words_length; lia).
  rewrite memset_all. crun. eexists. split; [done|].
  replace (length (fresh_words junk (n / 32 + 1))) with (Z.to_nat (n / 32 + 1))
    by (pose proof (fresh_words_length junk (n / 32 + 1)); size).
  pose proof (bit_run_rep ops _ ∅ (zeros_rep (n / 32 + 1) Hb) Hops) as H. simpl in H.
  destruct (set_run _ _) as [[cap s]|]; [|done].
  destruct H as (me & -> & Hrep & <-). exists me. split; [done|].
  intros j Hj. by apply get_spec.
Qed.

(** The reported length is 32 times the number of words, so at least the
    length asked for, except in the last 32 values of the 32-bit range: there
    the product wraps and the length of the largest array is reported as 0. *)
Theorem bitarray_length (n : Z) (junk : list Z) (me : SGBaseBitArray) (s : gset Z) :
  is_u32 n -> bitarray_rep me s ->
  exists me', SGBaseBitArraySetLength true junk me n = Ret me'
  /\ (n < 2 ^ 32 - 32 -> n < SGBaseBitArrayGetLength me' <= n + 32)
  /\ (2 ^ 32 - 32 <= n -> SGBaseBitArrayGetLength me' = 0).
Proof.
  intros Hn Hrep. destruct (set_length_rep junk me s n Hrep Hn) as (me' & ? & _ & Hcap).
  exists me'. split; [done|]. unfold SGBaseBitArrayGetLength, BITS_PER_WORD. rewrite Hcap.
  unfold is_u32 in Hn. pose proof (Z.div_mod n 32 ltac:(lia)).
  pose proof (Z.mod_pos_bound n 32 ltac:(lia)). split; intros Hb.
  - assert (n / 32 + 1 < 2 ^ 27) by lia. rewrite u32_id by (split; lia). lia.
  - assert (n / 32 + 1 = 2 ^ 27) as -> by lia. done.
Qed.

(** ** The theorems at concrete arrays *)

Lemma bitarray_refines_set_witness :
  exists me0 me,
    SGBaseBitArrayAllocLength true [7; 9] 40 = Ret me0
    /\ bit_run [(BitSet 3, []); (BitSet 40, []); (BitSetLength 10, [])] me0 = Ret me
    /\ SGBaseBitArrayGetAtIndex me 3 = Ret true
    /\ SGBaseBitArrayGetAtIndex me 40 = Abort.
Proof.
  assert (Forall bit_op_ok
    ([(BitSet 3, []); (BitSet 40, []); (BitSetLength 10, @nil Z)].*1)) as Hok
    by (repeat constructor; discriminate).
  destruct (bitarray_refines_set 40 [7; 9]
    [(BitSet 3, []); (BitSet 40, []); (BitSetLength 10, [])]
    ltac:(split; lia) Hok) as (me0 & H0 & H).
  exists me0. simpl in H. destruct H as (me & H1 & H2). exists me.
  split_and!; [exact H0|exact H1|..]; rewrite H2 by lia; reflexivity.
Defined.

Lemma bitarray_length_witness :
  exists me', SGBaseBitArraySetLength true [] (mkBitArray (replicate (Z.to_nat 1) 0) 1) 100 = Ret me'
  /\ 100 < SGBaseBitArrayGetLength me' <= 132.
Proof.
  destruct (bitarray_length 100 [] (mkBitArray (replicate (Z.to_nat 1) 0) 1) ∅)
    as (me' & H & Hlen & _); [split; lia | apply zeros_rep; lia|].
  exists me'. split; [exact H | apply Hlen; lia].
Defined.
