(* ===== verification/Chunk.v ===== *)
(** * SGBaseChunk: a chunk of equal blocks with an in-place free list

    Model of frameworks/SGFoundation/framework/source/base/allocator/
    SGBaseChunk.c. A chunk keeps the index of its first free block; every
    free block stores the index of the next one in its first byte. A pointer
    to a block is its offset into [bytes]. [junk] is what the fresh memory
    held. *)

From S2P Require Import Prelude.

Record SGBaseChunk := mkChunk {
  firstAvailableBlock : Z;    (* SGByte *)
  blocksAvailable : Z;        (* SGByte *)
  bytes : list Z
}.

(** [sizeof(SGBaseChunk)]: two counters and [bytes[1]]. *)
Definition sizeof_SGBaseChunk : Z := 3.

Section Chunk.
Context (t : target).

(** The two assertions at the head of [Alloc] and [Init]. *)
Definition chunk_args_ok (blockSize numBlocks : Z) : res unit :=
  c_assert (negb (blockSize =? 0) && negb (numBlocks =? 0));;
  c_assert (size_t t (blockSize * numBlocks) / blockSize =? numBlocks).

(** The size of the memory that [malloc] is asked for, and gives. *)
Definition SGBaseChunkAlloc (alloc : bool) (blockSize numBlocks : Z) : res Z :=
  chunk_args_ok blockSize numBlocks;;
  let memorySize := size_t t (sizeof_SGBaseChunk + size_t t (blockSize * numBlocks)) in
  let memorySize := size_t t (memorySize - 1) in
  c_assert (0 <? memorySize);;
  if alloc then Ret memorySize else Abort.

(** [for (i = 0; i < numBlocks; p += blockSize) *p = ++i] *)
Fixpoint chunk_init_loop (rounds : nat) (i p blockSize : Z) (bs : list Z) : res (list Z) :=
  match rounds with
  | O => Ret bs
  | S rounds =>
      bs ← of_opt (wr bs p (u8 (i + 1)));
      chunk_init_loop rounds (u8 (i + 1)) (p + blockSize) blockSize bs
  end.

Definition SGBaseChunkInit (memorySize : Z) (junk : list Z) (blockSize numBlocks : Z)
    : res SGBaseChunk :=
  chunk_args_ok blockSize numBlocks;;
  if memorySize <? sizeof_SGBaseChunk - 1 then UB else
  let region := resize (Z.to_nat (memorySize - (sizeof_SGBaseChunk - 1))) 0 junk in
  bs ← chunk_init_loop (Z.to_nat numBlocks) 0 0 blockSize region;
  Ret (mkChunk 0 numBlocks bs).

Definition SGBaseChunkCreate (alloc : bool) (junk : list Z) (blockSize numBlocks : Z)
    : res SGBaseChunk :=
  memorySize ← SGBaseChunkAlloc alloc blockSize numBlocks;
  SGBaseChunkInit memorySize junk blockSize numBlocks.
End Chunk.

Definition SGBaseChunkAllocateBlock (self : SGBaseChunk) (blockSize : Z)
    : res (option Z * SGBaseChunk) :=
  if blocksAvailable self =? 0 then Ret (None, self) else
  let pResult_ := firstAvailableBlock self * blockSize in
  next ← of_opt (rd (bytes self) pResult_);
  Ret (Some pResult_, mkChunk next (u8 (blocksAvailable self - 1)) (bytes self)).

Definition SGBaseChunkDeallocateBlock (self : SGBaseChunk) (p blockSize : Z)
    : res SGBaseChunk :=
  c_assert (0 <=? p);;
  c_assert (p mod blockSize =? 0);;
  bs ← of_opt (wr (bytes self) p (firstAvailableBlock self));
  Ret (mkChunk (u8 (p / blockSize)) (u8 (blocksAvailable self + 1)) bs).

(** The owner of a block stores a byte in it. *)
Definition chunk_client_write (self : SGBaseChunk) (p v : Z) : res SGBaseChunk :=
  bs ← of_opt (wr (bytes self) p v);
  Ret (mkChunk (firstAvailableBlock self) (blocksAvailable self) bs).

(** ** The stack of free blocks *)

(** Following the bytes from [first] visits exactly the blocks of [fl]. *)
Fixpoint chunk_chain (bs : list Z) (blockSize first : Z) (fl : list Z) : Prop :=
  match fl with
  | [] => True
  | x :: fl => first = x /\ exists y, rd bs (x * blockSize) = Some y
                 /\ chunk_chain bs blockSize y fl
  end.

Definition chunk_rep (blockSize numBlocks : Z) (c : SGBaseChunk) (fl : list Z) : Prop :=
  blocksAvailable c = zlen fl /\ NoDup fl
  /\ Forall (fun x => 0 <= x < numBlocks) fl
  /\ zlen (bytes c) = blockSize * numBlocks
  /\ chunk_chain (bytes c) blockSize (firstAvailableBlock c) fl.

Inductive chunk_op :=
| ChunkAlloc
| ChunkFree (p : Z)
| ChunkWrite (p v : Z).

Definition chunk_step (blockSize : Z) (op : chunk_op) (c : SGBaseChunk)
    : res (list (option Z) * SGBaseChunk) :=
  match op with
  | ChunkAlloc => '(r, c) ← SGBaseChunkAllocateBlock c blockSize; Ret ([r], c)
  | ChunkFree p => c ← SGBaseChunkDeallocateBlock c p blockSize; Ret ([], c)
  | ChunkWrite p v => c ← chunk_client_write c p v; Ret ([], c)
  end.

(** The answers to the allocations, and the last state. *)
Fixpoint chunk_run (blockSize : Z) (ops : list chunk_op) (c : SGBaseChunk)
    : res (list (option Z) * SGBaseChunk) :=
  match ops with
  | [] => Ret ([], c)
  | op :: ops =>
      '(out, c) ← chunk_step blockSize op c;
      '(outs, c) ← chunk_run blockSize ops c;
      Ret (out ++ outs, c)
  end.

(** A client that keeps the contract: it frees only pointers to blocks that
    are in use, and writes only into blocks that are in use. *)
Definition stack_step (blockSize numBlocks : Z) (op : chunk_op) (fl : list Z)
    : option (list (option Z) * list Z) :=
  match op with
  | ChunkAlloc =>
      match fl with
      | [] => Some ([None], [])
      | x :: fl => Some ([Some (x * blockSize)], fl)
      end
  | ChunkFree p =>
      if decide (0 <= p < blockSize * numBlocks /\ p mod blockSize = 0
                 /\ p / blockSize ∉ fl)
      then Some ([], p / blockSize :: fl) else None
  | ChunkWrite p v =>
      if decide (0 <= p < blockSize * numBlocks /\ p / blockSize ∉ fl)
      then Some ([], fl) else None
  end.

Fixpoint stack_run (blockSize numBlocks : Z) (ops : list chunk_op) (fl : list Z)
    : option (list (option Z) * list Z) :=
  match ops with
  | [] => Some ([], fl)
  | op :: ops =>
      '(out, fl) ← stack_step blockSize numBlocks op fl;
      '(outs, fl) ← stack_run blockSize numBlocks ops fl;
      Some (out ++ outs, fl)
  end.

(** ** Initialisation *)

Lemma chain_insert_ne bs bsz first fl i v :
  0 < bsz -> 0 <= i -> (forall x, x ∈ fl -> x * bsz <> i) ->
  chunk_chain bs bsz first fl -> chunk_chain (<[Z.to_nat i := v]> bs) bsz first fl.
Proof.
  intros Hb Hi. revert first. induction fl as [|x fl IH]; intros first Hne Hch; [done|].
  destruct Hch as (-> & y & Hy & Hch). split; [done|]. exists y. split.
  - rewrite rd_insert_ne; [done..|]. intros ->. by apply (Hne x); [left|].
  - apply IH; [|done]. intros z Hz. apply Hne. by right.
Qed.

Lemma init_loop_spec bsz n :
  forall (rounds : nat) (i : Z) (bs : list Z),
  0 < bsz -> 0 <= i -> i + Z.of_nat rounds = n -> n < 256 -> zlen bs = bsz * n ->
  exists bs', chunk_init_loop rounds i (i * bsz) bsz bs = Ret bs'
    /\ zlen bs' = bsz * n
    /\ (forall j, 0 <= j < i * bsz -> rd bs' j = rd bs j)
    /\ chunk_chain bs' bsz i (seqZ i (Z.of_nat rounds)).
Proof.
  induction rounds as [|r IH]; intros i bs Hb Hi Hn Hlt Hlen.
  { exists bs. split_and!; done. }
  cbn [chunk_init_loop]. rewrite wr_Some by nia. crun.
  rewrite (u8_id (i + 1)) by (split; lia).
  replace (i * bsz + bsz) with ((i + 1) * bsz) by lia.
  destruct (IH (i + 1) (<[Z.to_nat (i * bsz) := i + 1]> bs)) as (bs' & -> & Hl & Hold & Hch);
    [lia..|by rewrite zlen_insert|].
  exists bs'. split_and!; [done|done| |].
  - intros j Hj. rewrite Hold by nia. apply rd_insert_ne; nia.
  - rewrite seqZ_cons by lia. replace (Z.succ i) with (i + 1) by lia.
    replace (Z.pred (Z.of_nat (S r))) with (Z.of_nat r) by lia.
    split; [done|]. exists (i + 1). split; [|done].
    rewrite Hold by nia. apply rd_insert_eq. nia.
Qed.

Lemma chunk_args_spec t bsz n :
  0 < bsz -> 0 < n -> bsz * n < 2 ^ size_bits t -> chunk_args_ok t bsz n = Ret tt.
Proof.
  intros Hb Hn Hlt. unfold chunk_args_ok.
  rewrite !(proj2 (Z.eqb_neq _ 0)) by lia. simpl. crun.
  unfold size_t. rewrite Z.mod_small by nia.
  rewrite Z.mul_comm, Z.div_mul by lia. by rewrite Z.eqb_refl.
Qed.

Lemma create_rep t junk bsz n :
  0 < bsz -> 0 < n < 256 -> bsz * n + 2 < 2 ^ size_bits t ->
  exists c, SGBaseChunkCreate t true junk bsz n = Ret c
    /\ chunk_rep bsz n c (seqZ 0 n).
Proof.
  intros Hb Hn Hlt. unfold SGBaseChunkCreate, SGBaseChunkAlloc, SGBaseChunkInit.
  rewrite chunk_args_spec by lia. crun. unfold sizeof_SGBaseChunk, size_t.
  rewrite (Z.mod_small (bsz * n)) by nia.
  rewrite Zminus_mod_idemp_l, (Z.mod_small (3 + bsz * n - 1)) by nia.
  rewrite (proj2 (Z.ltb_lt 0 _)) by nia. crun.
  rewrite (proj2 (Z.ltb_ge _ _)) by nia.
  destruct (init_loop_spec bsz n (Z.to_nat n) 0
    (resize (Z.to_nat (3 + bsz * n - 1 - (3 - 1))) 0 junk)) as (bs & Hr & Hl & _ & Hch);
    [lia..|size|].
  rewrite Z.mul_0_l in Hr. rewrite Hr. crun. eexists. split; [done|].
  rewrite Z2Nat.id in Hch by lia.
  split_and!; simpl; [|apply NoDup_seqZ| |done|done].
  - unfold zlen. rewrite length_seqZ. lia.
  - apply Forall_forall. intros x Hx%elem_of_seqZ. lia.
Qed.

(** ** The operations on the representation *)

Lemma NoDup_range_length (fl : list Z) n :
  NoDup fl -> Forall (fun x => 0 <= x < n) fl -> zlen fl <= Z.max 0 n.
Proof.
  intros Hnd Hr.
  assert (fl ⊆+ seqZ 0 n) as Hs%submseteq_length.
  { apply NoDup_submseteq; [done|]. intros x Hx. rewrite Forall_forall in Hr.
    apply elem_of_seqZ. specialize (Hr x Hx). lia. }
  rewrite length_seqZ in Hs. unfold zlen. lia.
Qed.

Lemma block_offset bsz x : 0 < bsz -> x * bsz / bsz = x.
Proof. intros. apply Z.div_mul. lia. Qed.

Lemma alloc_rep bsz n c fl :
  0 < bsz -> n < 256 -> chunk_rep bsz n c fl ->
  exists c', SGBaseChunkAllocateBlock c bsz
      = Ret (match fl with [] => None | x :: _ => Some (x * bsz) end, c')
    /\ chunk_rep bsz n c' (tail fl) /\ (fl = [] -> c' = c).
Proof.
  intros Hb Hn (Hav & Hnd & Hr & Hl & Hch). unfold SGBaseChunkAllocateBlock.
  rewrite Hav. destruct fl as [|x fl].
  { exists c. split_and!; done. }
  rewrite (proj2 (Z.eqb_neq _ 0)) by size.
  destruct Hch as (-> & y & Hy & Hch). rewrite Hy. crun.
  pose proof (NoDup_range_length _ n Hnd Hr).
  eexists. split; [done|]. split; [|done].
  apply NoDup_cons in Hnd as [Hx Hnd]. apply Forall_cons in Hr as [Hx' Hr].
  split_and!; simpl; try done.
  rewrite u8_id; [size|split; size].
Qed.

Lemma free_rep bsz n c fl p :
  0 < bsz -> 0 < n < 256 -> chunk_rep bsz n c fl ->
  0 <= p < bsz * n -> p mod bsz = 0 -> p / bsz ∉ fl ->
  exists c', SGBaseChunkDeallocateBlock c p bsz = Ret c'
    /\ chunk_rep bsz n c' (p / bsz :: fl).
Proof.
  intros Hb Hn (Hav & Hnd & Hr & Hl & Hch) Hp Hm Hx.
  assert (0 <= p / bsz < n) as Hd.
  { split; [apply Z.div_pos; lia | apply Z.div_lt_upper_bound; lia]. }
  assert (p / bsz * bsz = p) as Hpx by (pose proof (Z.div_mod p bsz); lia).
  unfold SGBaseChunkDeallocateBlock.
  rewrite (proj2 (Z.leb_le 0 p) (proj1 Hp)), (proj2 (Z.eqb_eq (p mod bsz) 0) Hm). crun.
  rewrite wr_Some by lia. crun. eexists. split; [done|].
  assert (NoDup (p / bsz :: fl)) as Hnd' by by apply NoDup_cons.
  assert (Forall (fun x => 0 <= x < n) (p / bsz :: fl)) as Hr' by by constructor.
  pose proof (NoDup_range_length _ n Hnd' Hr').
  split_and!; simpl; try done.
  - rewrite u8_id; [size|split; size].
  - by rewrite zlen_insert.
  - split; [apply u8_id; split; lia|]. exists (firstAvailableBlock c). rewrite Hpx.
    split; [apply rd_insert_eq; lia|]. apply chain_insert_ne; try done; [lia|].
    intros x Hxf <-. apply Hx. by rewrite block_offset.
Qed.

Lemma write_rep bsz n c fl p v :
  0 < bsz -> chunk_rep bsz n c fl -> 0 <= p < bsz * n -> p / bsz ∉ fl ->
  exists c', chunk_client_write c p v = Ret c' /\ chunk_rep bsz n c' fl.
Proof.
  intros Hb (Hav & Hnd & Hr & Hl & Hch) Hp Hx. unfold chunk_client_write.
  rewrite wr_Some by lia. crun. eexists. split; [done|].
  split_and!; simpl; try done; [by rewrite zlen_insert|].
  apply chain_insert_ne; try done; [lia|]. intros x Hxf <-. apply Hx. by rewrite block_offset.
Qed.

Lemma chunk_step_rep bsz n op c fl out fl' :
  0 < bsz -> 0 < n < 256 -> chunk_rep bsz n c fl ->
  stack_step bsz n op fl = Some (out, fl') ->
  exists c', chunk_step bsz op c = Ret (out, c') /\ chunk_rep bsz n c' fl'.
Proof.
  intros Hb Hn Hrep Hst. destruct op as [|p|p v]; simpl in *.
  - destruct (alloc_rep bsz n c fl) as (c' & -> & Hc' & _); [done|lia|done|].
    exists c'. destruct fl; simplify_eq; done.
  - case_decide as Hd; simplify_eq. destruct Hd as (? & ? & ?).
    destruct (free_rep bsz n c fl p) as (c' & -> & ?); try done. by exists c'.
  - case_decide as Hd; simplify_eq. destruct Hd as (? & ?).
    destruct (write_rep bsz n c fl' p v) as (c' & -> & ?); try done. by exists c'.
Qed.

Lemma chunk_run_rep bsz n ops c fl outs fl' :
  0 < bsz -> 0 < n < 256 -> chunk_rep bsz n c fl ->
  stack_run bsz n ops fl = Some (outs, fl') ->
  exists c', chunk_run bsz ops c = Ret (outs, c') /\ chunk_rep bsz n c' fl'.
Proof.
  intros Hb Hn. revert c fl outs. induction ops as [|op ops IH]; intros c fl outs Hrep H; simpl in *.
  { simplify_eq. by exists c. }
  destruct (stack_step bsz n op fl) as [[out fl1]|] eqn:E1; simpl in H; [|done].
  destruct (stack_run bsz n ops fl1) as [[outs1 fl2]|] eqn:E2; simpl in H; [|done].
  simplify_eq. destruct (chunk_step_rep bsz n op c fl out fl1) as (c1 & -> & Hrep1); [done..|].
  destruct (IH c1 fl1 outs1 Hrep1 E2) as (c2 & Hrun & Hrep2).
  simpl. rewrite Hrun. by exists c2.
Qed.

(** C30: a chunk serves any client that keeps the contract - frees and writes
    only into blocks it holds - exactly as a stack of free block indices
    would: whatever the client writes into its blocks, an allocation answers
    with the most recently freed block, or NULL when every block is in use,
    and no access leaves the chunk's memory. *)
Theorem chunk_refines_stack (t : target) (junk : list Z) (bsz n : Z)
    (ops : list chunk_op) (outs : list (option Z)) (fl : list Z) :
  0 < bsz -> 0 < n < 256 -> bsz * n + 2 < 2 ^ size_bits t ->
  stack_run bsz n ops (seqZ 0 n) = Some (outs, fl) ->
  exists c0 c, SGBaseChunkCreate t true junk bsz n = Ret c0
    /\ chunk_run bsz ops c0 = Ret (outs, c)
    /\ blocksAvailable c = zlen fl.
Proof.
  intros Hb Hn Hsz Hst.
  destruct (create_rep t junk bsz n Hb Hn Hsz) as (c0 & Hc0 & Hrep).
  destruct (chunk_run_rep bsz n ops c0 _ outs fl Hb Hn Hrep Hst) as (c & Hc & Hrep').
  exists c0, c. split_and!; [done..|apply Hrep'].
Qed.

(** [m] allocations in a row. *)
Lemma stack_allocs bsz n (fl : list Z) :
  stack_run bsz n (replicate (length fl) ChunkAlloc) fl
  = Some ((fun x => Some (x * bsz)) <$> fl, []).
Proof. induction fl as [|x fl IH]; [done|]. simpl. by rewrite IH. Qed.

Lemma stack_run_app bsz n ops1 ops2 fl outs1 fl1 :
  stack_run bsz n ops1 fl = Some (outs1, fl1) ->
  stack_run bsz n (ops1 ++ ops2) fl
  = ('(outs2, fl2) ← stack_run bsz n ops2 fl1; Some (outs1 ++ outs2, fl2)).
Proof.
  revert fl outs1. induction ops1 as [|op ops IH]; intros fl outs1 H; simpl in *.
  { simplify_eq. by destruct (stack_run bsz n ops2 fl1) as [[]|]. }
  destruct (stack_step bsz n op fl) as [[out fl']|]; simpl in *; [|done].
  destruct (stack_run bsz n ops fl') as [[outs fl'']|] eqn:E; simpl in *; [|done].
  simplify_eq. rewrite (IH _ _ E).
  destruct (stack_run bsz n ops2 fl1) as [[]|]; simpl; [|done]. by rewrite app_assoc.
Qed.

(** A new chunk of [n] blocks gives out exactly its [n] blocks, each once
    and in address order, and then answers NULL. *)
Theorem chunk_exhaustion (t : target) (junk : list Z) (bsz n : Z) :
  0 < bsz -> 0 < n < 256 -> bsz * n + 2 < 2 ^ size_bits t ->
  exists c0 c, SGBaseChunkCreate t true junk bsz n = Ret c0
    /\ chunk_run bsz (replicate (Z.to_nat n) ChunkAlloc ++ [ChunkAlloc]) c0
       = Ret (((fun x => Some (x * bsz)) <$> seqZ 0 n) ++ [None], c).
Proof.
  intros Hb Hn Hsz. destruct (create_rep t junk bsz n Hb Hn Hsz) as (c0 & Hc0 & Hrep).
  pose proof (stack_allocs bsz n (seqZ 0 n)) as Hst. rewrite length_seqZ in Hst.
  apply (stack_run_app _ _ _ [ChunkAlloc]) in Hst. simpl in Hst.
  destruct (chunk_run_rep bsz n _ c0 _ _ _ Hb Hn Hrep Hst) as (c & Hc & _).
  by exists c0, c.
Qed.

(** The overflow assertion looks at [blockSize * numBlocks] alone: with a
    32-bit [size_t], 255 blocks of 16843009 bytes pass it, the size with the
    header added wraps to 1, and the initialisation writes past that byte. *)
Theorem chunk_header_overflow (junk : list Z) :
  chunk_args_ok ILP32 16843009 255 = Ret tt
  /\ SGBaseChunkAlloc ILP32 true 16843009 255 = Ret 1
  /\ SGBaseChunkCreate ILP32 true junk 16843009 255 = UB.
Proof. split_and!; reflexivity. Qed.

(** ** The theorems at concrete chunks *)

Lemma chunk_refines_stack_witness :
  exists c0 c, SGBaseChunkCreate LP64 true [] 4 3 = Ret c0
    /\ chunk_run 4 [ChunkAlloc; ChunkAlloc; ChunkWrite 1 9; ChunkFree 0; ChunkAlloc; ChunkAlloc; ChunkAlloc] c0
       = Ret ([Some 0; Some 4; Some 0; Some 8; None], c)
    /\ blocksAvailable c = 0.
Proof.
  apply (chunk_refines_stack LP64 [] 4 3 _ _ []); [lia|lia|reflexivity|].
  vm_compute. reflexivity.
Defined.

Lemma chunk_exhaustion_witness :
  exists c0 c, SGBaseChunkCreate ILP32 true [1; 2] 8 2 = Ret c0
    /\ chunk_run 8 [ChunkAlloc; ChunkAlloc; ChunkAlloc] c0 = Ret ([Some 0; Some 8; None], c).
Proof. apply (chunk_exhaustion ILP32 [1; 2] 8 2); [lia|lia|reflexivity]. Defined.
