(* ===== verification/URLEscape.v ===== *)
(** * SGURLEscape: percent encoding of byte strings

    Model of frameworks/SGFoundation/framework/source/extensions/data/
    SGURLEscape.c. The input is the block of memory that [string] points to;
    the result is the block that [malloc] and [realloc] gave, or [None] for
    NULL. *)

From S2P Require Import Prelude.

Section URLEscape.
Context (t : target).

(** "*-._" *)
Definition unescapeString : list Z := [42; 45; 46; 95].

(** [strchr] also finds the terminating NUL of its string. *)
Definition isSymbolToBeUnescaped (c : Z) : bool :=
  isalnum c || bool_decide (c ∈ unescapeString) || (c =? 0).

(** The digit of [%02X]. *)
Definition hex_digit (d : Z) : Z := if d <? 10 then d + 48 else d + 55.

(** [sprintf(ns + index, "%%%02X", c)]: three characters and a NUL. *)
Definition sprintf_escape (ns : list Z) (index c : Z) : res (list Z) :=
  ns ← of_opt (wr ns index 37);
  ns ← of_opt (wr ns (index + 1) (hex_digit (c / 16)));
  ns ← of_opt (wr ns (index + 2) (hex_digit (c mod 16)));
  of_opt (wr ns (index + 3) 0).

(** The loop's variables. *)
Record esc_state := mkEsc {
  e_ns : list Z; e_index : Z; e_newlen : Z; e_allocsize : Z;
  e_oracle : list bool; e_p : Z
}.

(** One character; [None]: [realloc] failed and the result is NULL. *)
Definition escape_char (mem junk : list Z) (st : esc_state) : res (option esc_state) :=
  c ← of_opt (rd mem (e_p st));
  if isSymbolToBeUnescaped c then
    ns ← of_opt (wr (e_ns st) (e_index st) c);
    index ← sint (e_index st + 1);
    Ret (Some (mkEsc ns index (e_newlen st) (e_allocsize st) (e_oracle st) (e_p st + 1)))
  else
    newlen ← sint (e_newlen st + 2);
    let grow := e_allocsize st <? size_t t newlen in
    let allocsize := if grow then size_t t (e_allocsize st * 2) else e_allocsize st in
    let '(ok, o) := if grow then next_alloc (e_oracle st) else (true, e_oracle st) in
    if ok then
      let ns := if grow then take (Z.to_nat allocsize)
                  (e_ns st ++ resize (Z.to_nat (allocsize - zlen (e_ns st))) 0 junk)
                else e_ns st in
      ns ← sprintf_escape ns (e_index st) c;
      index ← sint (e_index st + 3);
      Ret (Some (mkEsc ns index newlen allocsize o (e_p st + 1)))
    else Ret None.

Fixpoint escape_loop (mem junk : list Z) (length : nat) (st : esc_state)
    : res (option esc_state) :=
  match length with
  | O => Ret (Some st)
  | S length =>
      st ← escape_char mem junk st;
      match st with
      | Some st => escape_loop mem junk length st
      | None => Ret None
      end
  end.

(** Without memory for the first block the code goes on with NULL; an empty
    string then writes its terminator there. *)
Definition SGURLEscape (o : list bool) (junk mem : list Z) (length : Z)
    : res (option (list Z)) :=
  len ← (if length =? 0 then strlen mem else Ret length);
  let allocsize := size_t t (len + 1) in
  let '(ok, o) := next_alloc o in
  let ns := if ok then resize (Z.to_nat allocsize) 0 junk else [] in
  st ← escape_loop mem junk (Z.to_nat (size_t t (allocsize - 1)))
         (mkEsc ns 0 (s32 allocsize) allocsize o 0);
  match st with
  | None => Ret None
  | Some st => ns ← of_opt (wr (e_ns st) (e_index st) 0); Ret (Some ns)
  end.

(** ** sscanf with the format "%02X" *)

Inductive scan_result :=
| ScanEOF            (* -1: the input ended before the conversion *)
| ScanNoMatch        (* 0 *)
| ScanValue (v : Z). (* 1, and the value stored *)

(** Up to [width] hexadecimal digits. *)
Fixpoint scan_digits (width : nat) (mem : list Z) (v : Z) : res Z :=
  match width with
  | O => Ret v
  | S width =>
      match mem with
      | [] => UB
      | c :: mem => if isxdigit c then scan_digits width mem (16 * v + xdigit_val c)
                    else Ret v
      end
  end.

(** After the white space: an optional sign, which counts for the width. The
    prefix "0x" fills the width and leaves no digit, which is no match. *)
Definition scan_item (mem : list Z) : res scan_result :=
  c ← of_opt (rd mem 0);
  if c =? 0 then Ret ScanEOF else
  if (c =? 43) || (c =? 45) then
    d ← of_opt (rd mem 1);
    if isxdigit d
    then Ret (ScanValue (u32 (if c =? 45 then - xdigit_val d else xdigit_val d)))
    else Ret ScanNoMatch
  else if isxdigit c then
    d ← of_opt (rd mem 1);
    if (c =? 48) && ((d =? 120) || (d =? 88)) then Ret ScanNoMatch else
    v ← scan_digits 2 mem 0;
    Ret (ScanValue v)
  else Ret ScanNoMatch.

Fixpoint sscanf_02X (mem : list Z) : res scan_result :=
  match mem with
  | [] => UB
  | c :: mem' => if isspace c then sscanf_02X mem' else scan_item mem
  end.

(** ** SGURLUnescape *)

(** [hex] is [None] until a conversion has stored into it. A result other
    than 0 is taken as success, also the EOF of a string that ends at the
    percent sign. *)
Fixpoint unescape_loop (fuel : nat) (mem ns : list Z) (p index allocsize : Z)
    (hex : option Z) : res (list Z * Z) :=
  match fuel with
  | O => NoFuel
  | S fuel =>
      let allocsize := size_t t (allocsize - 1) in
      if 0 <? allocsize then
        c ← of_opt (rd mem p);
        '(c, p, allocsize, hex) ←
          (if c =? 37 then
             r ← sscanf_02X (drop (Z.to_nat (p + 1)) mem);
             match r with
             | ScanNoMatch => Ret (c, p, allocsize, hex)
             | ScanEOF => h ← of_opt hex;
                          Ret (u8 h, p + 2, size_t t (allocsize - 2), hex)
             | ScanValue v => Ret (u8 v, p + 2, size_t t (allocsize - 2), Some v)
             end
           else if c =? 43 then Ret (32, p, allocsize, hex)
           else Ret (c, p, allocsize, hex));
        ns ← of_opt (wr ns index c);
        index ← sint (index + 1);
        unescape_loop fuel mem ns (p + 1) index allocsize hex
      else Ret (ns, index)
  end.

(** The pointer moves at every round and a read behind the block is
    undefined, so one round per byte of the block is enough. *)
Definition SGURLUnescape (alloc : bool) (junk mem : list Z) (length : Z)
    : res (option (list Z)) :=
  len ← (if length =? 0 then strlen mem else Ret length);
  let allocsize := size_t t (len + 1) in
  if alloc then
    '(ns, index) ← unescape_loop (S (Datatypes.length mem)) mem
                     (resize (Z.to_nat allocsize) 0 junk) 0 0 allocsize None;
    ns ← of_opt (wr ns index 0);
    Ret (Some ns)
  else Ret None.

(** ** The encoding as a function on byte strings *)

Definition encode_byte (c : Z) : list Z :=
  if isSymbolToBeUnescaped c then [c]
  else [37; hex_digit (c / 16); hex_digit (c mod 16)].

Fixpoint url_encode (s : list Z) : list Z :=
  match s with [] => [] | c :: s => encode_byte c ++ url_encode s end.
End URLEscape.

(** ** Facts about one byte *)

Lemma encode_plain c :
  is_byte c -> isSymbolToBeUnescaped c = true -> c <> 37 /\ c <> 43.
Proof.
  intros Hc Hs.
  assert ((negb (isSymbolToBeUnescaped c) || (negb (c =? 37) && negb (c =? 43))) = true) as H.
  { by apply (byte_cases (fun c => negb (isSymbolToBeUnescaped c)
                        || (negb (c =? 37) && negb (c =? 43)))). }
  rewrite Hs in H. simpl in H. apply andb_true_iff in H. lia.
Qed.

Definition escape_digits_ok (c : Z) : bool :=
  let h := hex_digit (c / 16) in
  let l := hex_digit (c mod 16) in
  isxdigit h && isxdigit l && negb (isspace h) && negb (h =? 0) && negb (h =? 43)
  && negb (h =? 45) && negb (l =? 120) && negb (l =? 88) && negb (l =? 0)
  && (16 * (16 * 0 + xdigit_val h) + xdigit_val l =? c).

Lemma encode_digits c : is_byte c -> escape_digits_ok c = true.
Proof. by apply (byte_cases escape_digits_ok). Qed.

Lemma sscanf_encoded c rest :
  is_byte c ->
  sscanf_02X (hex_digit (c / 16) :: hex_digit (c mod 16) :: rest) = Ret (ScanValue c).
Proof.
  intros Hc. pose proof (encode_digits c Hc) as H. unfold escape_digits_ok in H.
  set (h := hex_digit (c / 16)) in *. set (l := hex_digit (c mod 16)) in *.
  rewrite !andb_true_iff, !negb_true_iff in H.
  destruct H as [[[[[[[[[Hh Hl] Hsp] H0] Hp] Hm] Hx] HX] Hl0] Hv].
  apply Z.eqb_eq in Hv.
  cbn [sscanf_02X]. rewrite Hsp. unfold scan_item, rd. simpl. crun.
  rewrite H0, Hp, Hm, Hh. simpl. crun. rewrite Hx, HX, andb_false_r. simpl.
  rewrite Hl. crun. by rewrite Hv.
Qed.

Lemma encode_byte_length c : 1 <= zlen (encode_byte c) <= 3.
Proof. unfold encode_byte. case_match; cbv; split; discriminate. Qed.

Lemma url_encode_length s : zlen s <= zlen (url_encode s) <= 3 * zlen s.
Proof.
  induction s as [|c s IH]; [done|]. simpl.
  pose proof (encode_byte_length c). size.
Qed.

Lemma url_encode_app a b : url_encode (a ++ b) = url_encode a ++ url_encode b.
Proof. induction a as [|c a IH]; [done|]. simpl. by rewrite IH, app_assoc. Qed.

Lemma url_encode_no_nul s : bytes_ok s -> no_nul s -> no_nul (url_encode s).
Proof.
  induction 1 as [|c s Hc _ IH]; intros Hn; [constructor|].
  inversion_clear Hn as [|? ? Hc0 Hs]. simpl. apply Forall_app. split; [|by apply IH].
  unfold encode_byte. destruct (isSymbolToBeUnescaped c); [by repeat constructor|].
  pose proof (encode_digits c Hc) as H. unfold escape_digits_ok in H.
  rewrite !andb_true_iff, !negb_true_iff in H. repeat constructor; lia.
Qed.

(** ** The encoder's loop *)

Lemma sprintf_escape_spec enc r c :
  4 <= zlen r ->
  exists r', sprintf_escape (enc ++ r) (zlen enc) c
    = Ret ((enc ++ [37; hex_digit (c / 16); hex_digit (c mod 16)]) ++ r')
    /\ zlen r' = zlen r - 3.
Proof.
  intros Hr. destruct r as [|r0 [|r1 [|r2 [|r3 r]]]]; try (size; done).
  exists (0 :: r). split; [|size]. unfold sprintf_escape.
  rewrite wr_middle. crun. rewrite (cons_middle 37), app_assoc.
  replace (zlen enc + 1) with (zlen (enc ++ [37])) by size. rewrite wr_middle. crun.
  rewrite (cons_middle (hex_digit _)), app_assoc.
  replace (zlen enc + 2) with (zlen ((enc ++ [37]) ++ [hex_digit (c / 16)])) by size.
  rewrite wr_middle. crun. rewrite (cons_middle (hex_digit (c mod 16))), app_assoc.
  replace (zlen enc + 3)
    with (zlen (((enc ++ [37]) ++ [hex_digit (c / 16)]) ++ [hex_digit (c mod 16)])) by size.
  rewrite wr_middle. simpl. by rewrite <- !app_assoc.
Qed.

(** The block is as long as the C code believes, what is written is the
    encoding of the characters read, and the rest fits. *)
Definition esc_inv (n : Z) (a b : list Z) (st : esc_state) : Prop :=
  e_p st = zlen a /\ e_index st = zlen (url_encode a)
  /\ e_newlen st = zlen (url_encode a) + zlen b + 1
  /\ e_newlen st <= e_allocsize st <= 6 * n + 2
  /\ zlen (e_ns st) = e_allocsize st
  /\ exists r, e_ns st = url_encode a ++ r.

Lemma size_t_u32 t z : 0 <= z < 2 ^ 32 -> size_t t z = z.
Proof.
  intros. unfold size_t. apply Z.mod_small. split; [lia|].
  destruct t; simpl size_bits; [lia|].
  apply Z.lt_le_trans with (2 ^ 32); [lia|]. by apply Z.pow_le_mono_r.
Qed.

Lemma encode_snoc a c : url_encode (a ++ [c]) = url_encode a ++ encode_byte c.
Proof. rewrite url_encode_app. simpl. by rewrite app_nil_r. Qed.

(** The escaping branch, once the block is large enough. *)
Lemma escape_write_inv n a c b r newlen al o :
  zlen a + zlen b + 1 = n -> n < 2 ^ 29 -> isSymbolToBeUnescaped c = false ->
  newlen = zlen (url_encode a) + zlen b + 4 ->
  newlen <= al <= 6 * n + 2 -> zlen (url_encode a ++ r) = al ->
  exists st',
    (ns ← sprintf_escape (url_encode a ++ r) (zlen (url_encode a)) c;
     index ← sint (zlen (url_encode a) + 3);
     Ret (Some (mkEsc ns index newlen al o (zlen a + 1)))) = Ret (Some st')
    /\ esc_inv n (a ++ [c]) b st' /\ e_oracle st' = o.
Proof.
  intros Hn Hmax Es Hnl Hal Hns. pose proof (url_encode_length a).
  destruct (sprintf_escape_spec (url_encode a) r c) as (r' & -> & Hr'); [size|].
  crun. rewrite sint_id by size. crun. eexists. split; [done|]. split; [|done].
  unfold esc_inv; simpl; rewrite encode_snoc; unfold encode_byte; rewrite Es.
  split_and!; [size..|]. by exists r'.
Qed.

Lemma escape_char_inv t junk n a c b rest st :
  zlen a + zlen b + 1 = n -> n < 2 ^ 29 ->
  esc_inv n a (c :: b) st ->
  (exists st', escape_char t (a ++ c :: b ++ rest) junk st = Ret (Some st')
     /\ esc_inv n (a ++ [c]) b st' /\ (e_oracle st = [] -> e_oracle st' = []))
  \/ (escape_char t (a ++ c :: b ++ rest) junk st = Ret None /\ e_oracle st <> []).
Proof.
  intros Hn Hmax (Hp & Hi & Hnl & Hal & Hns & r & Er).
  pose proof (url_encode_length a). unfold escape_char.
  rewrite Hp, rd_middle. crun. rewrite Er, Hi in *. rewrite zlen_cons in Hnl.
  destruct (isSymbolToBeUnescaped c) eqn:Es.
  - left. destruct r as [|r0 r]; [size|]. rewrite wr_middle. crun.
    rewrite sint_id by size. crun. eexists. split; [done|]. split; [|done].
    unfold esc_inv; simpl; rewrite encode_snoc; unfold encode_byte; rewrite Es.
    split_and!; [size..|]. exists r. by rewrite <- app_assoc.
  - rewrite (sint_id (e_newlen st + 2)) by size. crun.
    rewrite (size_t_u32 t (e_newlen st + 2)) by size.
    destruct (Z.ltb_spec (e_allocsize st) (e_newlen st + 2)) as [Hg|Hg].
    + rewrite (size_t_u32 t (e_allocsize st * 2)) by size.
      rewrite take_ge by size. rewrite <- app_assoc.
      set (r1 := r ++ resize _ 0 junk).
      assert (zlen (url_encode a ++ r1) = e_allocsize st * 2) as Hr1 by (subst r1; size).
      destruct (e_oracle st) as [|[|] o]; simpl; [left|left|by right].
      * destruct (escape_write_inv n a c b r1 (e_newlen st + 2) (e_allocsize st * 2) [])
          as (st' & -> & ? & ?); [(done || size)..|]. by exists st'.
      * destruct (escape_write_inv n a c b r1 (e_newlen st + 2) (e_allocsize st * 2) o)
          as (st' & -> & ? & ?); [(done || size)..|]. exists st'. by split_and!.
    + left. destruct (escape_write_inv n a c b r (e_newlen st + 2) (e_allocsize st) (e_oracle st))
        as (st' & -> & ? & Ho); [(done || size)..|]. exists st'. rewrite Ho. by split_and!.
Qed.

Lemma escape_loop_inv t junk n b a rest st :
  zlen a + zlen b = n -> n < 2 ^ 29 -> esc_inv n a b st ->
  (exists st', escape_loop t (a ++ b ++ rest) junk (length b) st = Ret (Some st')
     /\ esc_inv n (a ++ b) [] st')
  \/ (escape_loop t (a ++ b ++ rest) junk (length b) st = Ret None /\ e_oracle st <> []).
Proof.
  revert a st. induction b as [|c b IH]; intros a st Hn Hmax Hinv.
  { left. exists st. by rewrite app_nil_r. }
  cbn [length escape_loop]. rewrite <- app_comm_cons.
  destruct (escape_char_inv t junk n a c b rest st) as [(st1 & -> & Hinv1 & Ho) | [-> Ho]];
    [size|done|done| |by right].
  crun. rewrite (cons_middle c), !app_assoc. rewrite <- (app_assoc (a ++ [c])).
  destruct (IH (a ++ [c]) st1) as [(st' & -> & Hinv')|[-> Ho']]; [size|done|done| |].
  - left. exists st'. split; [done|]. by rewrite <- app_assoc in Hinv'.
  - right. split; [done|]. naive_solver.
Qed.

(** The length the caller gives, or [strlen] for 0. *)
Definition given_length (length : Z) (s rest : list Z) : Prop :=
  (length = 0 /\ no_nul s /\ exists r, rest = 0 :: r)
  \/ (length = zlen s /\ 0 < length).

Lemma given_length_len length s rest :
  given_length length s rest ->
  (if length =? 0 then strlen (s ++ rest) else Ret length) = Ret (zlen s).
Proof.
  intros [(-> & Hs & r & ->)|[-> Hl]]; [by apply strlen_app|].
  by rewrite (proj2 (Z.eqb_neq (zlen s) 0)) by lia.
Qed.

Lemma escape_run t (o : list bool) (junk s rest : list Z) length :
  given_length length s rest -> zlen s < 2 ^ 29 ->
  (exists r, SGURLEscape t (true :: o) junk (s ++ rest) length
             = Ret (Some (url_encode s ++ 0 :: r)))
  \/ (o <> [] /\ SGURLEscape t (true :: o) junk (s ++ rest) length = Ret None).
Proof.
  intros Hg Hlen. pose proof (zlen_nonneg s). unfold SGURLEscape.
  rewrite (given_length_len _ _ _ Hg). crun.
  rewrite (size_t_u32 t (zlen s + 1)), (size_t_u32 t (_ - 1)) by lia. cbn [next_alloc].
  rewrite Z.add_simpl_r. replace (Z.to_nat (zlen s)) with (Datatypes.length s) by size.
  set (st0 := mkEsc _ _ _ _ _ _).
  assert (esc_inv (zlen s) [] s st0) as Hinv.
  { unfold esc_inv, st0; simpl. rewrite s32_id by lia.
    split_and!; [done|done|done|lia|lia|size|]. by eexists. }
  destruct (escape_loop_inv t junk (zlen s) s [] rest st0) as [(st & Hr & Hinv')|[Hr Ho]];
    [done|done|done| |].
  - left. simpl in Hr. rewrite Hr. crun. simpl in Hinv'.
    destruct Hinv' as (_ & Hi & Hnl & Hal & Hns & r & Er). rewrite Er in *.
    destruct r as [|r0 r]; [size|]. rewrite Hi, wr_middle. crun. by exists r.
  - right. simpl in Hr, Ho. split; [done|]. by rewrite Hr.
Qed.

(** For a string of less than 2^29 bytes - NUL-terminated, or with its
    length given - the encoder never touches memory outside of its block:
    while the allocator answers, it returns a block that starts with the
    percent encoding of the string and a NUL, at least as long as the string
    and at most three times as long; when a [realloc] fails it returns NULL. *)
Lemma SGURLEscape_encodes (t : target) (o : list bool) (junk s rest : list Z) (length : Z) :
  given_length length s rest -> zlen s < 2 ^ 29 ->
  (exists r, SGURLEscape t (true :: o) junk (s ++ rest) length
             = Ret (Some (url_encode s ++ 0 :: r)))
    /\ zlen s <= zlen (url_encode s) <= 3 * zlen s
  \/ (o <> [] /\ SGURLEscape t (true :: o) junk (s ++ rest) length = Ret None).
Proof.
  intros Hg Hl. pose proof (url_encode_length s).
  destruct (escape_run t o junk s rest length Hg Hl); [left|right]; auto.
Qed.

(** ** The decoder *)

Lemma unescape_loop_spec t rest fuel b a mem r hex :
  bytes_ok b -> mem = url_encode a ++ url_encode b ++ 0 :: rest ->
  (length b < fuel)%nat -> zlen a + zlen b < 2 ^ 30 ->
  zlen b < zlen r ->
  exists r', unescape_loop t fuel mem (a ++ r) (zlen (url_encode a)) (zlen a)
               (zlen (url_encode b) + 1) hex
    = Ret ((a ++ b) ++ r', zlen (a ++ b)) /\ zlen r' = zlen r - zlen b.
Proof.
  intros Hb -> Hf Hmax Hr. revert fuel a r hex Hf Hmax Hr.
  induction Hb as [|c b Hc Hb IH]; intros fuel a r hex Hf Hmax Hr;
    (destruct fuel as [|fuel]; [simpl in Hf; lia|]); cbn [unescape_loop].
  { exists r. rewrite app_nil_r. split; [|size].
    by rewrite (size_t_u32 t (zlen (url_encode []) + 1 - 1)) by done. }
  pose proof (url_encode_length (c :: b)) as Hlen.
  pose proof (url_encode_length a) as Hlena.
  rewrite Z.add_simpl_r, (size_t_u32 t (zlen (url_encode (c :: b)))) by size.
  rewrite (proj2 (Z.ltb_lt 0 _)) by size.
  destruct r as [|r0 r]; [size|].
  assert (forall hex', exists r',
    unescape_loop t fuel (url_encode a ++ url_encode (c :: b) ++ 0 :: rest)
      (a ++ c :: r) (zlen (url_encode (a ++ [c]))) (zlen a + 1) (zlen (url_encode b) + 1) hex'
    = Ret ((a ++ c :: b) ++ r', zlen (a ++ c :: b)) /\ zlen r' = zlen (r0 :: r) - zlen (c :: b))
    as Hnext.
  { intros hex'.
    destruct (IH fuel (a ++ [c]) r hex') as (r' & Hr' & Hl'); [simpl in Hf; lia|size|size|].
    exists r'. split; [|size]. rewrite encode_snoc in *.
    rewrite <- !app_assoc in Hr'. simpl in Hr'. simpl.
    rewrite <- (app_assoc (encode_byte c)).
    replace (zlen (a ++ [c])) with (zlen a + 1) in Hr' by size.
    rewrite Hr'. by rewrite <- app_assoc. }
  simpl url_encode in *.
  destruct (isSymbolToBeUnescaped c) eqn:Es.
  - destruct (encode_plain c Hc Es) as [H37 H43].
    assert (encode_byte c = [c]) as Eb by (unfold encode_byte; by rewrite Es).
    rewrite Eb in *. simpl app in *. rewrite rd_middle. crun.
    rewrite (proj2 (Z.eqb_neq c 37)), (proj2 (Z.eqb_neq c 43)) by done. crun.
    rewrite wr_middle. crun. rewrite sint_id by size. crun.
    destruct (Hnext hex) as (r' & Hr' & Hl'). exists r'. split; [|done]. rewrite <- Hr'.
    rewrite encode_snoc, Eb. f_equal; size.
  - assert (encode_byte c = [37; hex_digit (c / 16); hex_digit (c mod 16)]) as Eb
      by (unfold encode_byte; by rewrite Es).
    rewrite Eb in *. simpl app in *. rewrite rd_middle. crun. simpl (37 =? 37). cbv iota.
    replace (Z.to_nat (zlen (url_encode a) + 1)) with (length (url_encode a) + 1)%nat by size.
    rewrite drop_app_add. simpl drop. rewrite sscanf_encoded by done. crun.
    rewrite u8_id by done. rewrite wr_middle. crun. rewrite sint_id by size. crun.
    destruct (Hnext (Some c)) as (r' & Hr' & Hl'). exists r'. split; [|done]. rewrite <- Hr'.
    rewrite encode_snoc, Eb. rewrite size_t_u32 by size. f_equal; size.
Qed.

(** C31: decoding what the encoder returned gives the string back, for every
    NUL-terminated string of less than 2^28 bytes and any contents of fresh
    memory. *)
Theorem url_escape_roundtrip (t : target) (junk1 junk2 s rest : list Z) :
  bytes_ok s -> no_nul s -> zlen s < 2 ^ 28 ->
  exists blk r, SGURLEscape t [] junk1 (s ++ 0 :: rest) 0 = Ret (Some blk)
    /\ SGURLUnescape t true junk2 blk 0 = Ret (Some (s ++ 0 :: r)).
Proof.
  intros Hb Hs Hlen. pose proof (zlen_nonneg s).
  destruct (escape_run t [] junk1 s (0 :: rest) 0) as [[r Hr]|[[] _]];
    [left; eauto|lia| |done].
  exists (url_encode s ++ 0 :: r).
  assert (SGURLEscape t [] junk1 (s ++ 0 :: rest) 0
          = SGURLEscape t [true] junk1 (s ++ 0 :: rest) 0) as -> by reflexivity.
  unfold SGURLUnescape. pose proof (url_encode_length s).
  rewrite Z.eqb_refl, strlen_app by (by apply url_encode_no_nul). crun.
  rewrite (size_t_u32 t (_ + 1)) by lia.
  set (ns := resize _ 0 junk2).
  assert (zlen ns = zlen (url_encode s) + 1) as Hns by (subst ns; size).
  destruct (unescape_loop_spec t r (S (length (url_encode s ++ 0 :: r))) s []
    (url_encode s ++ 0 :: r) ns None) as (r' & Hrun & Hl);
    [done|done|size|size|size|].
  change ([] ++ ns) with ns in Hrun.
  change (zlen (url_encode [])) with 0 in Hrun. change (zlen (@nil Z)) with 0 in Hrun.
  rewrite Hrun. crun. simpl app. destruct r' as [|r0 r']; [size|].
  rewrite wr_middle. crun. eauto.
Qed.

(** ** A percent sign without two digits behind it *)

(** What a well-formed text is made of: characters other than the percent sign
    and escapes. *)
Inductive url_item := Plain (c : Z) | Escape (h l : Z).

Definition item_ok (x : url_item) : Prop :=
  match x with
  | Plain c => c <> 0 /\ c <> 37
  | Escape h l => isxdigit h = true /\ isxdigit l = true
  end.

Definition item_text (x : url_item) : list Z :=
  match x with Plain c => [c] | Escape h l => [37; h; l] end.

Definition items_text (xs : list url_item) : list Z := mjoin (item_text <$> xs).

Lemma isxdigit_facts c :
  isxdigit c = true ->
  isspace c = false /\ c <> 0 /\ c <> 43 /\ c <> 45 /\ c <> 120 /\ c <> 88.
Proof. unfold isxdigit, isspace, isdigit. intros H. split_and!; lia. Qed.

Lemma scan_item_digit h mem :
  isxdigit h = true -> head mem <> Some 120 -> head mem <> Some 88 -> mem <> [] ->
  sscanf_02X (h :: mem) = (v ← scan_digits 2 (h :: mem) 0; Ret (ScanValue v)).
Proof.
  intros Hh Hx HX Hne. destruct (isxdigit_facts h Hh) as (Hsp & H0 & Hp & Hm & _).
  cbn [sscanf_02X]. rewrite Hsp. unfold scan_item. rewrite rd_0. crun.
  rewrite (proj2 (Z.eqb_neq h 0)), (proj2 (Z.eqb_neq h 43)), (proj2 (Z.eqb_neq h 45)) by done.
  cbn [orb]. rewrite Hh. destruct mem as [|d mem]; [done|].
  assert (rd (h :: d :: mem) 1 = Some d) as -> by apply (rd_middle [h] mem d). crun.
  rewrite (proj2 (Z.eqb_neq d 120)), (proj2 (Z.eqb_neq d 88)) by (simpl in Hx, HX; congruence).
  by rewrite andb_false_r.
Qed.

Lemma sscanf_total h d mem :
  isxdigit h = true -> d <> 120 -> d <> 88 ->
  (isxdigit d = true \/ d = 0) -> exists v, sscanf_02X (h :: d :: mem) = Ret (ScanValue v).
Proof.
  intros Hh Hx HX Hd. rewrite scan_item_digit by (simpl; congruence).
  cbn [scan_digits]. rewrite Hh. destruct Hd as [Hd | ->].
  - rewrite Hd. crun. by eexists.
  - change (isxdigit 0) with false. cbv iota. crun. by eexists.
Qed.

(** One more character is written, in all cases but those that end the run. *)
Lemma unescape_step t fuel mem ns p index al hex c :
  0 < size_t t (al - 1) -> rd mem p = Some c -> 0 <= index < zlen ns -> zlen ns < 2 ^ 30 ->
  (c = 37 -> exists v, sscanf_02X (drop (Z.to_nat (p + 1)) mem) = Ret (ScanValue v)) ->
  exists ns' hex', zlen ns' = zlen ns /\ (c = 37 -> hex' <> None) /\ (c <> 37 -> hex' = hex) /\
    unescape_loop t (S fuel) mem ns p index al hex
    = unescape_loop t fuel mem ns' (if c =? 37 then p + 2 + 1 else p + 1) (index + 1)
        (if c =? 37 then size_t t (size_t t (al - 1) - 2) else size_t t (al - 1)) hex'.
Proof.
  intros Hal Hc Hi Hns Hs. cbn [unescape_loop]. rewrite (proj2 (Z.ltb_lt 0 _)) by done.
  rewrite Hc. crun. destruct (Z.eqb_spec c 37) as [->|Hne].
  - destruct (Hs eq_refl) as [v ->]. crun. rewrite wr_Some by done. crun.
    rewrite sint_id by lia. crun. eexists _, (Some v). split; [apply zlen_insert|]. done.
  - destruct (c =? 43); crun; (rewrite wr_Some by done); crun; (rewrite sint_id by lia); crun;
      (eexists _, hex; split; [apply zlen_insert|]; done).
Qed.

(** The well-formed part of the text. *)
Lemma unescape_items t mem tl fuel k : forall xs pre ns index hex,
  Forall item_ok xs -> mem = pre ++ items_text xs ++ tl ->
  0 <= index -> index + zlen xs <= zlen ns -> zlen ns < 2 ^ 30 ->
  1 <= k -> zlen (items_text xs) + k < 2 ^ 30 ->
  exists ns' hex', zlen ns' = zlen ns /\
    unescape_loop t (length xs + fuel) mem ns (zlen pre) index (zlen (items_text xs) + k) hex
    = unescape_loop t fuel mem ns' (zlen (pre ++ items_text xs)) (index + zlen xs) k hex'.
Proof.
  induction xs as [|x xs IH]; intros pre ns index hex Hok Hmem Hi Hn Hmax Hk Hlen.
  { exists ns, hex. split; [done|]. unfold items_text. simpl. by rewrite app_nil_r, Z.add_0_r. }
  inversion_clear Hok as [|? ? Hx Hxs].
  assert (items_text (x :: xs) = item_text x ++ items_text xs) as E by done.
  rewrite E in *. rewrite zlen_cons, zlen_app in *.
  pose proof (zlen_nonneg xs). pose proof (zlen_nonneg (items_text xs)).
  assert (exists c r, item_text x = c :: r /\ (c = 37 <-> zlen (item_text x) = 3) /\
            (c <> 37 -> zlen (item_text x) = 1)) as (c & r & Ex & H3 & H1).
  { destruct x as [c|h l]; [|by exists 37, [h; l]]. exists c, []. destruct Hx. by split_and!. }
  destruct (unescape_step t (length xs + fuel) mem ns (zlen pre) index
    (zlen (item_text x) + zlen (items_text xs) + k) hex c) as (ns1 & hex1 & Hl1 & _ & _ & Hrun).
  - rewrite Ex, zlen_cons. pose proof (zlen_nonneg r). rewrite size_t_u32; rewrite Ex, zlen_cons in *; lia.
  - rewrite Hmem, Ex. apply rd_middle.
  - lia.
  - done.
  - intros ->. destruct x as [c|h l]; [destruct Hx; simplify_eq/=|]. simpl in Ex. injection Ex as <-.
    rewrite Hmem. replace (Z.to_nat (zlen pre + 1)) with (length pre + 1)%nat by size.
    rewrite drop_app_add. cbn [item_text app skipn drop]. destruct Hx as [Hh Hl].
    destruct (isxdigit_facts l Hl) as (_ & _ & _ & _ & ? & ?). apply sscanf_total; auto.
  - destruct (IH (pre ++ item_text x) ns1 (index + 1) hex1) as (ns2 & hex2 & Hl2 & Hrest);
      [done | by rewrite Hmem, <- !app_assoc | lia | lia | lia | lia | lia |].
    exists ns2, hex2. split; [lia|]. cbn [length Nat.add]. rewrite Hrun.
    rewrite zlen_app in Hrest. rewrite <- app_assoc in Hrest.
    replace (index + (zlen xs + 1)) with (index + 1 + zlen xs) by lia.
    rewrite <- Hrest. destruct (Z.eqb_spec c 37) as [E37|E37].
    + rewrite (proj1 H3 E37). rewrite !size_t_u32 by (rewrite ?size_t_u32; lia).
      f_equal; lia.
    + rewrite (H1 E37). rewrite size_t_u32 by lia. f_equal; lia.
Qed.

(** With a count that has wrapped the loop ends only by leaving a block. *)
Lemma unescape_overrun t mem : forall fuel ns p index al hex,
  0 <= index <= zlen ns -> zlen ns < 2 ^ 30 -> (Z.to_nat (zlen ns - index) < fuel)%nat ->
  3 * (zlen ns - index) + 3 < size_t t (al - 1) ->
  unescape_loop t fuel mem ns p index al hex = UB.
Proof.
  induction fuel as [|fuel IH]; intros ns p index al hex Hi Hmax Hf Hal; [lia|].
  assert (forall c p' al' hex', al' = size_t t (al - 1) \/ al' = size_t t (size_t t (al - 1) - 2) ->
    (ns ← of_opt (wr ns index c);
     index ← sint (index + 1);
     unescape_loop t fuel mem ns p' index al' hex') = UB) as Hnext.
  { intros c p' al' hex' Hal'. destruct (decide (index = zlen ns)) as [->|Hne].
    - unfold wr. rewrite decide_False by size. done.
    - rewrite wr_Some by lia. crun. rewrite sint_id by lia. crun.
      assert (size_t t (al - 1) - 3 <= size_t t (al' - 1)) as Hle.
      { assert (size_t t (al - 1) < 2 ^ size_bits t) as Hb.
        { unfold size_t. apply Z.mod_pos_bound. by destruct t. }
        assert (forall z, 0 <= z < 2 ^ size_bits t -> size_t t z = z) as Hid.
        { intros. by apply Z.mod_small. }
        destruct Hal' as [-> | ->].
        all: revert Hal Hb; generalize (size_t t (al - 1)) as w; intros w Hal Hb.
        - rewrite (Hid (w - 1)); lia.
        - rewrite (Hid (w - 2)), (Hid (w - 2 - 1)); lia. }
      apply IH; rewrite ?zlen_insert; lia. }
  cbn [unescape_loop]. rewrite (proj2 (Z.ltb_lt 0 _)) by lia.
  destruct (rd mem p) as [c|]; [|done]. crun. destruct (Z.eqb_spec c 37) as [->|Hne].
  - assert (forall l, (exists r, sscanf_02X l = Ret r) \/ sscanf_02X l = UB) as Htot.
    { assert (forall w l v, (exists r, scan_digits w l v = Ret r) \/ scan_digits w l v = UB) as Hsd.
      { induction w as [|w IHw]; intros l v; simpl; [by left; eexists|].
        destruct l; [by right|]. destruct (isxdigit z); [apply IHw | by left; eexists]. }
      induction l as [|x l IHl]; simpl; [by right|]. destruct (isspace x); [done|].
      unfold scan_item. rewrite rd_0. crun. destruct (x =? 0); [by left; eexists|].
      destruct (_ || _).
      { destruct (rd _ 1); [|by right]. crun. destruct (isxdigit _); by left; eexists. }
      destruct (isxdigit x); [|by left; eexists]. destruct (rd _ 1); [|by right]. crun.
      destruct (_ && _); [by left; eexists|].
      destruct (Hsd 2%nat (x :: l) 0) as [[v ->] | ->]; [left; by eexists | by right]. }
    destruct (Htot (drop (Z.to_nat (p + 1)) mem)) as [[r ->] | ->]; [|done]. crun.
    destruct r as [| |v]; crun.
    + destruct hex as [h|]; [|done]. crun. apply Hnext. by right.
    + apply Hnext. by left.
    + apply Hnext. by right.
  - destruct (c =? 43); crun; apply Hnext; by left.
Qed.

Lemma items_no_nul xs : Forall item_ok xs -> no_nul (items_text xs).
Proof.
  induction 1 as [|x xs Hx _ IH]; [constructor|]. unfold items_text. simpl.
  apply Forall_app. split; [|done]. destruct x as [c|h l]; simpl.
  - repeat constructor. by destruct Hx.
  - destruct Hx as [(_ & ? & _)%isxdigit_facts (_ & ? & _)%isxdigit_facts]. by repeat constructor.
Qed.

Lemma items_count xs : zlen xs <= zlen (items_text xs).
Proof.
  induction xs as [|x xs IH]; [done|]. change (items_text (x :: xs)) with (item_text x ++ items_text xs).
  assert (1 <= zlen (item_text x)) by (destruct x; simpl; size). size.
Qed.

Lemma size_t_negative t z : -4 <= z < 0 -> size_t t z = 2 ^ size_bits t + z.
Proof.
  intros Hz. unfold size_t. assert (2 ^ 32 <= 2 ^ size_bits t) by by destruct t.
  rewrite <- (Z_mod_plus_full z 1), Z.mod_small; lia.
Qed.

(** C32: A string that is made of characters other than the percent sign and
    of percent signs with two hexadecimal digits, and then ends with a percent
    sign or with a percent sign and one hexadecimal digit, makes the decoder
    leave its blocks, whatever lies behind the string and however long it is
    (less than 2^28 bytes): the lone digit is accepted as an escape of two
    and the pointer steps over the terminating NUL; a percent sign at the very
    end is accepted too, because [sscanf] answers EOF, which is not 0 - if no
    escape came before, an uninitialised value is decoded. *)
Theorem url_unescape_truncated (t : target) (junk rest : list Z) (xs : list url_item) (tl : list Z) :
  Forall item_ok xs -> zlen (items_text xs) < 2 ^ 28 ->
  tl = [37] \/ (exists d, tl = [37; d] /\ isxdigit d = true) ->
  SGURLUnescape t true junk (items_text xs ++ tl ++ 0 :: rest) 0 = UB.
Proof.
  intros Hok Hlen Htl.
  pose proof (items_no_nul xs Hok) as Hn. pose proof (items_count xs) as Hxs. pose proof (size_t_negative t) as Hneg.
  assert (no_nul tl /\ 1 <= zlen tl <= 2) as [Hnt Hzt].
  { destruct Htl as [-> | (d & -> & (_ & ? & _)%isxdigit_facts)]; split; by repeat constructor. }
  pose proof (zlen_nonneg xs). unfold SGURLUnescape.
  rewrite Z.eqb_refl, app_assoc, strlen_app by by apply Forall_app. crun.
  rewrite zlen_app, size_t_u32 by lia. set (ns := resize _ 0 junk).
  assert (zlen ns = zlen (items_text xs) + zlen tl + 1) as Hns by (subst ns; size).
  set (mem := (items_text xs ++ tl) ++ 0 :: rest).
  assert (exists fuel, S (length mem) = (length xs + S fuel)%nat /\
            (Z.to_nat (zlen ns - zlen xs) <= fuel)%nat) as (fuel & -> & Hf).
  { exists (S (length mem) - length xs - 1)%nat. unfold mem. rewrite !length_app. unfold zlen in *. simpl. lia. }
  destruct (unescape_items t mem (tl ++ 0 :: rest) (S fuel) (zlen tl + 1) xs [] ns 0 None)
    as (ns1 & hex1 & Hl1 & Hrun);
    [done | unfold mem; by rewrite <- app_assoc | done | lia..|].
  rewrite Z.add_assoc in Hrun. change (zlen (@nil Z)) with 0 in Hrun. rewrite Hrun. clear Hrun.
  cbn [app Z.add].
  assert (rd mem (zlen (items_text xs)) = Some 37) as Hrd.
  { unfold mem. rewrite <- app_assoc. by destruct Htl as [-> | (d & -> & _)]; apply rd_middle. }
  assert (forall l, drop (Z.to_nat (zlen (items_text xs) + 1)) (items_text xs ++ 37 :: l) = l) as Hdrop.
  { intros l. replace (Z.to_nat (zlen (items_text xs) + 1)) with (length (items_text xs) + 1)%nat by size.
    by rewrite drop_app_add. }
  assert (forall w, 2 ^ size_bits t - 4 <= w < 2 ^ size_bits t -> 3 * (zlen ns1 - (zlen xs + 1)) + 3 < w) as Hbig.
  { intros w Hw. assert (2 ^ 32 <= 2 ^ size_bits t) by by destruct t. lia. }
  destruct Htl as [-> | (d & -> & Hd)].
  - (* the percent sign is the last character *)
    cbn [unescape_loop]. change (zlen [37] + 1) with 2. rewrite (size_t_u32 t (2 - 1)) by lia.
    cbn [Z.sub Z.add Z.opp Z.pos_sub Z.ltb Z.compare Z.succ_double Z.pred_double Pos.pred_double].
    rewrite Hrd. crun. cbn [Z.eqb Pos.eqb]. unfold mem. rewrite <- app_assoc. cbn [app].
    rewrite Hdrop. cbn [sscanf_02X]. change (isspace 0) with false. cbv iota.
    unfold scan_item. rewrite rd_0. crun. cbn [Z.eqb]. crun. destruct hex1 as [h|]; [|done]. crun.
    rewrite wr_Some by lia. crun. rewrite sint_id by lia. crun.
    fold mem. rewrite (unescape_overrun t); [done|rewrite ?zlen_insert..]; try lia.
    rewrite (Hneg (2 - 1 - 2)) by lia. apply Hbig.
    unfold size_t. assert (2 ^ 32 <= 2 ^ size_bits t) by by destruct t. rewrite Z.mod_small; lia.
  - (* one digit behind the percent sign *)
    destruct (unescape_step t fuel mem ns1 (zlen (items_text xs)) (0 + zlen xs) (zlen [37; d] + 1) hex1 37)
      as (ns2 & hex2 & Hl2 & _ & _ & Hrun); [by rewrite size_t_u32 | done | lia | lia | |].
    + intros _. unfold mem. rewrite <- app_assoc. cbn [app]. rewrite Hdrop. apply sscanf_total; auto.
    + rewrite Hrun. change (zlen [37; d] + 1) with 3. rewrite (size_t_u32 t (3 - 1)) by lia.
      cbn [Z.eqb Pos.eqb]. change (3 - 1 - 2) with 0. rewrite (size_t_u32 t 0) by lia.
      rewrite unescape_overrun; [done|lia|lia|lia|]. rewrite (Hneg (0 - 1)), Hl2 by lia. apply Hbig. lia.
Qed.

(** ** The theorems at concrete strings *)

Lemma SGURLEscape_encodes_witness :
  exists r, SGURLEscape LP64 [true; true] [] [97; 32; 126; 0] 0
    = Ret (Some ([97; 37; 50; 48; 37; 55; 69] ++ 0 :: r)).
Proof.
  destruct (SGURLEscape_encodes LP64 [true] [] [97; 32; 126] [0] 0) as [[[r H] _]|[_ H]].
  - left. split; [reflexivity|]. split; [by repeat constructor | by exists []].
  - reflexivity.
  - exists r. exact H.
  - vm_compute in H. discriminate H.
Defined.

Lemma url_escape_roundtrip_witness :
  exists blk r, SGURLEscape ILP32 [] [] [104; 37; 43; 255; 0; 9] 0 = Ret (Some blk)
    /\ SGURLUnescape ILP32 true [5] blk 0 = Ret (Some ([104; 37; 43; 255] ++ 0 :: r)).
Proof.
  apply (url_escape_roundtrip ILP32 [] [5] [104; 37; 43; 255] [9]);
    [by repeat constructor | by repeat constructor | reflexivity].
Defined.

(** The strings "%4", "a%" and "%20b%". *)
Lemma url_unescape_truncated_witness :
  SGURLUnescape LP64 true [] [37; 52; 0] 0 = UB /\ SGURLUnescape ILP32 true [] [97; 37; 0; 5] 0 = UB /\
  SGURLUnescape LP64 true [7] [37; 50; 48; 98; 37; 0; 1; 2] 0 = UB.
Proof.
  split; [|split].
  - apply (url_unescape_truncated LP64 [] [] [] [37; 52]); [constructor | done | right; by exists 52].
  - apply (url_unescape_truncated ILP32 [] [5] [Plain 97] [37]); [by repeat constructor | done | by left].
  - apply (url_unescape_truncated LP64 [7] [1; 2] [Escape 50 48; Plain 98] [37]);
      [by repeat constructor | done | by left].
Defined.
