(* ===== verification/BitExpr.v ===== *)
(** * Equality of bit manipulations, decided by computation

    Expressions made of variables of known width, shifts by constants, masks,
    truncations and disjunctions. Every bit of such an expression is a
    disjunction of bits of the variables, which [bx_bit] computes; two
    expressions are equal when these agree at every position below their
    size. The codec files state the C code as it is written and use [bits_eq]
    to bring it to arithmetic. *)

From S2P Require Import Prelude.

Inductive bexp :=
| BVar (k : nat)
| BShl (e : bexp) (n : nat)
| BShr (e : bexp) (n : nat)
| BMask (e : bexp) (m : Z)
| BTrunc (e : bexp) (n : nat)
| BOr (e1 e2 : bexp).

Fixpoint bx_val (env : list Z) (e : bexp) : Z :=
  match e with
  | BVar k => nth k env 0
  | BShl e n => Z.shiftl (bx_val env e) (Z.of_nat n)
  | BShr e n => Z.shiftr (bx_val env e) (Z.of_nat n)
  | BMask e m => Z.land (bx_val env e) m
  | BTrunc e n => bx_val env e mod 2 ^ Z.of_nat n
  | BOr e1 e2 => Z.lor (bx_val env e1) (bx_val env e2)
  end.

(** Positions from [bx_top] on are clear. *)
Fixpoint bx_top (ws : list nat) (e : bexp) : nat :=
  match e with
  | BVar k => nth k ws O
  | BShl e n => (bx_top ws e + n)%nat
  | BShr e n => (bx_top ws e - n)%nat
  | BMask e _ => bx_top ws e
  | BTrunc e n => Nat.min n (bx_top ws e)
  | BOr e1 e2 => Nat.max (bx_top ws e1) (bx_top ws e2)
  end.

(** The variable bits that position [i] is the disjunction of. *)
Fixpoint bx_bit (ws : list nat) (e : bexp) (i : nat) : list (nat * nat) :=
  match e with
  | BVar k => if (i <? nth k ws O)%nat then [(k, i)] else []
  | BShl e n => if (i <? n)%nat then [] else bx_bit ws e (i - n)
  | BShr e n => bx_bit ws e (i + n)
  | BMask e m => if Z.testbit m (Z.of_nat i) then bx_bit ws e i else []
  | BTrunc e n => if (i <? n)%nat then bx_bit ws e i else []
  | BOr e1 e2 => bx_bit ws e1 i ++ bx_bit ws e2 i
  end.

Definition env_ok (ws : list nat) (env : list Z) : Prop :=
  Forall2 (fun w v => 0 <= v < 2 ^ Z.of_nat w) ws env.

Definition bits_or (env : list Z) (l : list (nat * nat)) : bool :=
  existsb (fun p => Z.testbit (nth p.1 env 0) (Z.of_nat p.2)) l.

Lemma env_ok_nth ws env k :
  env_ok ws env -> 0 <= nth k env 0 < 2 ^ Z.of_nat (nth k ws O).
Proof.
  intros H. revert k. induction H as [|w v ws env Hv _ IH]; intros [|k]; simpl; auto.
  all: by split.
Qed.

Lemma bits_or_app env l1 l2 : bits_or env (l1 ++ l2) = bits_or env l1 || bits_or env l2.
Proof. apply existsb_app. Qed.

Lemma bx_bit_spec ws env e i :
  env_ok ws env -> Z.testbit (bx_val env e) (Z.of_nat i) = bits_or env (bx_bit ws e i).
Proof.
  intros Henv. revert i. induction e as [k|e IH n|e IH n|e IH m|e IH n|e1 IH1 e2 IH2]; intros i; simpl.
  - pose proof (env_ok_nth ws env k Henv) as Hk.
    destruct (Nat.ltb_spec i (nth k ws O)) as [Hlt|Hge]; simpl.
    + by rewrite orb_false_r.
    + apply (bits_bound _ (Z.of_nat (nth k ws O)) ltac:(lia)) in Hk as [_ Hk]. apply Hk. lia.
  - destruct (Nat.ltb_spec i n) as [Hlt|Hge].
    + rewrite Z.shiftl_spec_low by lia. done.
    + rewrite Z.shiftl_spec by lia. rewrite <- IH. f_equal. lia.
  - rewrite Z.shiftr_spec by lia. rewrite <- IH. f_equal. lia.
  - rewrite Z.land_spec, IH. destruct (Z.testbit m (Z.of_nat i)); simpl.
    + apply andb_true_r.
    + apply andb_false_r.
  - destruct (Nat.ltb_spec i n) as [Hlt|Hge].
    + rewrite Z.mod_pow2_bits_low by lia. apply IH.
    + rewrite Z.mod_pow2_bits_high by lia. done.
  - by rewrite Z.lor_spec, bits_or_app, IH1, IH2.
Qed.

Lemma bx_bit_top ws e i : (bx_top ws e <= i)%nat -> bx_bit ws e i = [].
Proof.
  revert i. induction e as [k|e IH n|e IH n|e IH m|e IH n|e1 IH1 e2 IH2]; intros i Hi; simpl in *.
  - by rewrite (proj2 (Nat.ltb_ge _ _)) by lia.
  - case_match; [done|]. apply IH. lia.
  - apply IH. lia.
  - case_match; [|done]. apply IH. lia.
  - destruct (Nat.ltb_spec i n); [|done]. apply IH. lia.
  - by rewrite IH1, IH2 by lia.
Qed.

Definition pair_mem (p : nat * nat) (l : list (nat * nat)) : bool :=
  existsb (fun q => Nat.eqb p.1 q.1 && Nat.eqb p.2 q.2) l.

Definition same_bits (l1 l2 : list (nat * nat)) : bool :=
  forallb (fun p => pair_mem p l2) l1 && forallb (fun p => pair_mem p l1) l2.

Definition bx_eqb (ws : list nat) (e1 e2 : bexp) : bool :=
  forallb (fun i => same_bits (bx_bit ws e1 i) (bx_bit ws e2 i))
    (seq 0 (Nat.max (bx_top ws e1) (bx_top ws e2))).

Lemma pair_mem_true p l : pair_mem p l = true -> p ∈ l.
Proof.
  unfold pair_mem. rewrite existsb_exists. intros (q & Hq%list_elem_of_In & H).
  apply andb_true_iff in H as [H1%Nat.eqb_eq H2%Nat.eqb_eq].
  destruct p, q; simpl in *. by subst.
Qed.

Lemma bits_or_incl env l1 l2 :
  forallb (fun p => pair_mem p l2) l1 = true -> bits_or env l1 = true -> bits_or env l2 = true.
Proof.
  unfold bits_or. rewrite forallb_forall, !existsb_exists.
  intros Hl (p & Hp & Hb). exists p. split; [|done].
  apply list_elem_of_In, pair_mem_true, Hl, Hp.
Qed.

Lemma same_bits_or env l1 l2 : same_bits l1 l2 = true -> bits_or env l1 = bits_or env l2.
Proof.
  unfold same_bits. intros [H1 H2]%andb_true_iff. apply eq_true_iff_eq.
  split; by apply bits_or_incl.
Qed.

Lemma bx_eqb_sound ws env e1 e2 :
  env_ok ws env -> bx_eqb ws e1 e2 = true -> bx_val env e1 = bx_val env e2.
Proof.
  intros Henv Heq. apply Z.bits_inj'. intros n Hn.
  rewrite <- (Z2Nat.id n) by done. set (i := Z.to_nat n).
  rewrite !(bx_bit_spec ws) by done.
  destruct (decide (i < Nat.max (bx_top ws e1) (bx_top ws e2))%nat) as [Hlt|Hge].
  - apply same_bits_or. unfold bx_eqb in Heq. rewrite forallb_forall in Heq.
    apply Heq, in_seq. lia.
  - by rewrite !bx_bit_top by lia.
Qed.

(** [x] is the value of [e]: used to compute bounds. *)
Lemma bx_val_bound ws env e :
  env_ok ws env -> 0 <= bx_val env e < 2 ^ Z.of_nat (bx_top ws e).
Proof.
  intros Henv. apply bits_bound; [lia|]. split.
  - induction e; simpl; try (by apply Z.shiftl_nonneg || by apply Z.shiftr_nonneg).
    + apply (env_ok_nth ws env k Henv).
    + apply Z.land_nonneg. by left.
    + apply Z.mod_pos_bound. by apply pow2_pos; lia.
    + by apply Z.lor_nonneg.
  - intros j Hj. rewrite <- (Z2Nat.id j) by lia. rewrite (bx_bit_spec ws) by done.
    rewrite bx_bit_top by lia. done.
Qed.

(** ** Reification *)

Ltac list_index x l :=
  lazymatch l with
  | x :: _ => constr:(O)
  | _ :: ?l => let n := list_index x l in constr:(S n)
  end.

Ltac bx_reify env t :=
  lazymatch t with
  | Z.lor ?a ?b => let a := bx_reify env a in let b := bx_reify env b in constr:(BOr a b)
  | Z.land ?a ?m => let a := bx_reify env a in
      let m := eval vm_compute in m in constr:(BMask a m)
  | Z.shiftl ?a ?n => let a := bx_reify env a in
      let n := eval vm_compute in (Z.to_nat n) in constr:(BShl a n)
  | Z.shiftr ?a ?n => let a := bx_reify env a in
      let n := eval vm_compute in (Z.to_nat n) in constr:(BShr a n)
  | u8 ?a => let a := bx_reify env a in constr:(BTrunc a 8)
  | u16 ?a => let a := bx_reify env a in constr:(BTrunc a 16)
  | u32 ?a => let a := bx_reify env a in constr:(BTrunc a 32)
  | u64 ?a => let a := bx_reify env a in constr:(BTrunc a 64)
  | ?x => let k := list_index x env in constr:(BVar k)
  end.

(** [bits_eq ws env Henv] proves an equation between two bit expressions over
    the variables [env], whose widths are [ws]. *)
Ltac bits_eq ws env Henv :=
  lazymatch goal with
  | |- ?l = ?r =>
      let e1 := bx_reify env l in
      let e2 := bx_reify env r in
      change (bx_val env e1 = bx_val env e2);
      apply (bx_eqb_sound ws env e1 e2 Henv); vm_compute; reflexivity
  end.
