(* ===== verification/Varint.v ===== *)
(** * Variable-length integers and big-endian words of the database format

    Model of the integer codecs of misc/sqlite/util.c, with the [getVarint32]
    and [putVarint32] macros of sqliteInt.h. A pointer is the list of bytes
    that can be read from it on; the writers give the list of bytes that they
    store. *)

From S2P Require Import Prelude BitExpr.

(** [!(x & 0x80)] *)
Definition flag_clear (x : Z) : bool := Z.land x 128 =? 0.

Definition MASK14 : Z := Z.lor (Z.shiftl 127 14) 127.
(** [(0x7f<<28)|(0x7f<<14)|(0x7f)] in 32 bits *)
Definition MASK28 : Z := u32 (Z.lor (Z.lor (Z.shiftl 127 28) (Z.shiftl 127 14)) 127).

(** ** Writing *)

(** [for(i=7; i>=0; i--){ p[i] = (v & 0x7f) | 0x80; v >>= 7; }]: the bytes
    [p[0..n)] in front of those already stored. *)
Fixpoint put_varint_tail (n : nat) (v : Z) (stored : list Z) : list Z :=
  match n with
  | O => stored
  | S n => put_varint_tail n (Z.shiftr v 7) (Z.lor (Z.land v 127) 128 :: stored)
  end.

(** [do{ buf[n++] = (v & 0x7f) | 0x80; v >>= 7; }while( v!=0 )] *)
Fixpoint put_varint_buf (fuel : nat) (v : Z) (buf : list Z) : res (list Z) :=
  match fuel with
  | O => NoFuel
  | S fuel =>
      let buf := buf ++ [Z.lor (Z.land v 127) 128] in
      let v := Z.shiftr v 7 in
      if v =? 0 then Ret buf else put_varint_buf fuel v buf
  end.

Definition sqlite3PutVarint (v : Z) : res (list Z) :=
  if negb (Z.land v (Z.shiftl 4278190080 32) =? 0)
  then Ret (put_varint_tail 8 (Z.shiftr v 8) [u8 v])
  else
    buf ← put_varint_buf 10 v [];
    b0 ← of_opt (rd buf 0);
    buf ← of_opt (wr buf 0 (Z.land b0 127));
    c_assert (zlen buf <=? 9);;
    Ret (reverse buf).

(** Without the branch that the macro takes for one byte. *)
Definition sqlite3PutVarint32 (v : Z) : res (list Z) :=
  if Z.land v (u32 (Z.lnot 16383)) =? 0
  then Ret [u8 (Z.lor (Z.shiftr v 7) 128); Z.land v 127]
  else sqlite3PutVarint v.

Definition putVarint32 (v : Z) : res (list Z) :=
  if v <? 128 then Ret [u8 v] else sqlite3PutVarint32 v.

(** [do{ i++; v >>= 7; }while( v!=0 && i<9 )] *)
Fixpoint varint_len_loop (fuel : nat) (i v : Z) : res Z :=
  match fuel with
  | O => NoFuel
  | S fuel =>
      let i := i + 1 in
      let v := Z.shiftr v 7 in
      if negb (v =? 0) && (i <? 9) then varint_len_loop fuel i v else Ret i
  end.

Definition sqlite3VarintLen (v : Z) : res Z := varint_len_loop 9 0 v.

(** ** Reading *)

Definition sqlite3GetVarint (p : list Z) : res (Z * Z) :=
  a ← of_opt (rd p 0);
  if flag_clear a then Ret (1, a) else
  b ← of_opt (rd p 1);
  if flag_clear b then
    let a := Z.land a 127 in
    let a := u32 (Z.shiftl a 7) in
    Ret (2, Z.lor a b)
  else
  c ← of_opt (rd p 2);
  let a := Z.lor (u32 (Z.shiftl a 14)) c in
  if flag_clear a then
    let a := Z.land a MASK14 in
    let b := Z.land b 127 in
    let b := u32 (Z.shiftl b 7) in
    Ret (3, Z.lor a b)
  else
  let a := Z.land a MASK14 in
  c ← of_opt (rd p 3);
  let b := Z.lor (u32 (Z.shiftl b 14)) c in
  if flag_clear b then
    let b := Z.land b MASK14 in
    let a := u32 (Z.shiftl a 7) in
    Ret (4, Z.lor a b)
  else
  let b := Z.land b MASK14 in
  let s := a in
  c ← of_opt (rd p 4);
  let a := Z.lor (u32 (Z.shiftl a 14)) c in
  if flag_clear a then
    let b := u32 (Z.shiftl b 7) in
    let a := Z.lor a b in
    let s := Z.shiftr s 18 in
    Ret (5, Z.lor (u64 (Z.shiftl s 32)) a)
  else
  let s := Z.lor (u32 (Z.shiftl s 7)) b in
  c ← of_opt (rd p 5);
  let b := Z.lor (u32 (Z.shiftl b 14)) c in
  if flag_clear b then
    let a := Z.land a MASK14 in
    let a := u32 (Z.shiftl a 7) in
    let a := Z.lor a b in
    let s := Z.shiftr s 18 in
    Ret (6, Z.lor (u64 (Z.shiftl s 32)) a)
  else
  c ← of_opt (rd p 6);
  let a := Z.lor (u32 (Z.shiftl a 14)) c in
  if flag_clear a then
    let a := Z.land a MASK28 in
    let b := Z.land b MASK14 in
    let b := u32 (Z.shiftl b 7) in
    let a := Z.lor a b in
    let s := Z.shiftr s 11 in
    Ret (7, Z.lor (u64 (Z.shiftl s 32)) a)
  else
  let a := Z.land a MASK14 in
  c ← of_opt (rd p 7);
  let b := Z.lor (u32 (Z.shiftl b 14)) c in
  if flag_clear b then
    let b := Z.land b MASK28 in
    let a := u32 (Z.shiftl a 7) in
    let a := Z.lor a b in
    let s := Z.shiftr s 4 in
    Ret (8, Z.lor (u64 (Z.shiftl s 32)) a)
  else
  c ← of_opt (rd p 8);
  let a := Z.lor (u32 (Z.shiftl a 15)) c in
  let b := Z.land b MASK14 in
  let b := u32 (Z.shiftl b 8) in
  let a := Z.lor a b in
  let s := u32 (Z.shiftl s 4) in
  b ← of_opt (rd p 4);
  let b := Z.land b 127 in
  let b := Z.shiftr b 3 in
  let s := Z.lor s b in
  Ret (9, Z.lor (u64 (Z.shiftl s 32)) a).

(** Without the branch that the macro takes for one byte. *)
Definition sqlite3GetVarint32 (p : list Z) : res (Z * Z) :=
  a ← of_opt (rd p 0);
  b ← of_opt (rd p 1);
  if flag_clear b then
    let a := Z.land a 127 in
    let a := u32 (Z.shiftl a 7) in
    Ret (2, Z.lor a b)
  else
  c ← of_opt (rd p 2);
  let a := Z.lor (u32 (Z.shiftl a 14)) c in
  if flag_clear a then
    let a := Z.land a MASK14 in
    let b := Z.land b 127 in
    let b := u32 (Z.shiftl b 7) in
    Ret (3, Z.lor a b)
  else
  c ← of_opt (rd p 3);
  let b := Z.lor (u32 (Z.shiftl b 14)) c in
  if flag_clear b then
    let b := Z.land b MASK14 in
    let a := Z.land a MASK14 in
    let a := u32 (Z.shiftl a 7) in
    Ret (4, Z.lor a b)
  else
  c ← of_opt (rd p 4);
  let a := Z.lor (u32 (Z.shiftl a 14)) c in
  if flag_clear a then
    let a := Z.land a MASK28 in
    let b := Z.land b MASK28 in
    let b := u32 (Z.shiftl b 7) in
    Ret (5, Z.lor a b)
  else
  '(n, v64) ← sqlite3GetVarint p;
  c_assert ((5 <? n) && (n <=? 9));;
  Ret (n, u32 v64).

Definition getVarint32 (p : list Z) : res (Z * Z) :=
  a ← of_opt (rd p 0);
  if a <? 128 then Ret (1, a) else sqlite3GetVarint32 p.

(** ** Four-byte big-endian integers *)

Definition sqlite3Get4byte (p : list Z) : res Z :=
  p0 ← of_opt (rd p 0); p1 ← of_opt (rd p 1);
  p2 ← of_opt (rd p 2); p3 ← of_opt (rd p 3);
  Ret (u32 (Z.lor (Z.lor (Z.lor (Z.shiftl p0 24) (Z.shiftl p1 16)) (Z.shiftl p2 8)) p3)).

Definition sqlite3Put4byte (v : Z) : list Z :=
  [u8 (Z.shiftr v 24); u8 (Z.shiftr v 16); u8 (Z.shiftr v 8); u8 v].

(** ** The format: seven bits a byte, the ninth byte whole *)

(** [k]: how many more bytes may carry the continuation flag. *)
Fixpoint varint_decode (k : nat) (n acc : Z) (p : list Z) {struct p} : option (Z * Z) :=
  match p with
  | [] => None
  | c :: p =>
      match k with
      | O => Some (n + 1, acc * 256 + c)
      | S k => if c <? 128 then Some (n + 1, acc * 128 + c)
               else varint_decode k (n + 1) (acc * 128 + (c - 128)) p
      end
  end.

(** The bytes of a value below [128^k], most significant first, each with
    the flag. *)
Fixpoint varint_flagged (k : nat) (v : Z) : list Z :=
  match k with
  | O => []
  | S k => varint_flagged k (v / 128) ++ [v mod 128 + 128]
  end.

(** The smallest number of seven-bit groups. *)
Fixpoint varint_groups (fuel : nat) (v : Z) : nat :=
  match fuel with
  | O => O
  | S fuel => if v <? 128 then O else S (varint_groups fuel (v / 128))
  end.

Definition varint_encode (v : Z) : list Z :=
  if v <? 2 ^ 56 then
    let k := varint_groups 8 v in
    varint_flagged k (v / 128) ++ [v mod 128]
  else varint_flagged 8 (v / 256) ++ [v mod 256].

(** ** Reading a varint *)

Lemma flag_clear_testbit x : flag_clear x = negb (Z.testbit x 7).
Proof.
  unfold flag_clear. change 128 with (Z.shiftl 1 7).
  rewrite <- (land_bit_nonzero x 7) by lia. by rewrite negb_involutive.
Qed.

Lemma flag_clear_byte c : is_byte c -> flag_clear c = (c <? 128).
Proof.
  intros Hc. assert (Bool.eqb (flag_clear c) (c <? 128) = true) as H.
  { by apply (byte_cases (fun c => Bool.eqb (flag_clear c) (c <? 128))). }
  by apply Bool.eqb_prop in H.
Qed.

Lemma flag_clear_lor a n c :
  8 <= n -> is_byte c -> flag_clear (Z.lor (u32 (Z.shiftl a n)) c) = (c <? 128).
Proof.
  intros Hn Hc. rewrite <- flag_clear_byte, !flag_clear_testbit by done.
  unfold u32. rewrite Z.lor_spec, Z.mod_pow2_bits_low, Z.shiftl_spec_low by lia. done.
Qed.

(** The format, with the bit operations of the C code. *)
Fixpoint decode_bits (k : nat) (n acc : Z) (p : list Z) {struct p} : option (Z * Z) :=
  match p with
  | [] => None
  | c :: p =>
      match k with
      | O => Some (n + 1, Z.lor (Z.shiftl acc 8) c)
      | S k => if c <? 128 then Some (n + 1, Z.lor (Z.shiftl acc 7) c)
               else decode_bits k (n + 1) (Z.lor (Z.shiftl acc 7) (Z.land c 127)) p
      end
  end.

Lemma low_seven c : is_byte c -> 128 <= c -> Z.land c 127 = c - 128.
Proof.
  intros Hc Hge. assert (((c <? 128) || (Z.land c 127 =? c - 128)) = true) as H.
  { by apply (byte_cases (fun c => (c <? 128) || (Z.land c 127 =? c - 128))). }
  lia.
Qed.

Lemma decode_bits_eq k n acc p :
  bytes_ok p -> decode_bits k n acc p = varint_decode k n acc p.
Proof.
  intros Hp. revert k n acc. induction Hp as [|c p Hc _ IH]; intros k n acc; [done|].
  simpl. destruct k as [|k].
  - by rewrite (lor_add_low acc c 8) by (unfold is_byte in Hc; lia).
  - destruct (Z.ltb_spec c 128) as [Hlt|Hge].
    + by rewrite (lor_add_low acc c 7) by (unfold is_byte in Hc; lia).
    + rewrite IH, low_seven by done. by rewrite (lor_add_low acc (c - 128) 7)
        by (unfold is_byte in Hc; lia).
Qed.

Lemma env_byte c ws env : is_byte c -> env_ok ws env -> env_ok (8%nat :: ws) (c :: env).
Proof. intros Hc H. constructor; [|done]. unfold is_byte in Hc. simpl. lia. Qed.

Lemma env_low c ws env :
  is_byte c -> (c <? 128) = true -> env_ok ws env -> env_ok (7%nat :: ws) (c :: env).
Proof. intros Hc Hl H. constructor; [|done]. unfold is_byte in Hc. simpl. lia. Qed.

Lemma env_nil : env_ok [] [].
Proof. constructor. Qed.

Create HintDb varint_env.
#[local] Hint Resolve env_byte env_low env_nil : varint_env.

Lemma decode_bits_first c p :
  decode_bits 8 0 0 (c :: p)
  = if c <? 128 then Some (1, c) else decode_bits 7 1 (Z.land c 127) p.
Proof. simpl. by rewrite !Z.lor_0_l. Qed.

Lemma exit_eq (n m x y : Z) : n = m -> x = y -> Ret (n, x) = of_opt (Some (m, y)).
Proof. by intros -> ->. Qed.

(** Close an exit: the value read is the value of the format. *)
Ltac varint_exit ws env :=
  let H := fresh in
  assert (env_ok ws env) as H by auto 12 with varint_env nocore;
  apply exit_eq; [reflexivity|]; unfold MASK14, MASK28; bits_eq ws env H.

(** The next byte: none left, last byte, or one more to come. *)
Ltac next_byte p c Hc Hp E :=
  destruct p as [|c p]; [reflexivity|];
  let H := fresh in
  inversion_clear Hp as [|? ? H Hp']; rename H into Hc; rename Hp' into Hp;
  cbn [lookup list_lookup]; crun;
  rewrite ?flag_clear_lor by (done || lia); rewrite ?flag_clear_byte by done;
  rewrite ?decode_bits_first; cbn [decode_bits];
  destruct (c <? 128) eqn:E; cbv zeta.

Lemma get_varint_bits p : bytes_ok p -> sqlite3GetVarint p = of_opt (decode_bits 8 0 0 p).
Proof.
  intros Hp. unfold sqlite3GetVarint.
  rewrite (rd_nat p 0 : rd p 0 = p !! 0%nat), (rd_nat p 1 : rd p 1 = p !! 1%nat),
    (rd_nat p 2 : rd p 2 = p !! 2%nat), (rd_nat p 3 : rd p 3 = p !! 3%nat),
    (rd_nat p 4 : rd p 4 = p !! 4%nat), (rd_nat p 5 : rd p 5 = p !! 5%nat),
    (rd_nat p 6 : rd p 6 = p !! 6%nat), (rd_nat p 7 : rd p 7 = p !! 7%nat),
    (rd_nat p 8 : rd p 8 = p !! 8%nat).
  next_byte p p0 H0 Hp E0; [done|].
  next_byte p p1 H1 Hp E1; [varint_exit [8%nat; 7%nat] [p0; p1]|].
  next_byte p p2 H2 Hp E2; [varint_exit [8%nat; 8%nat; 7%nat] [p0; p1; p2]|].
  next_byte p p3 H3 Hp E3; [varint_exit [8%nat; 8%nat; 8%nat; 7%nat] [p0; p1; p2; p3]|].
  next_byte p p4 H4 Hp E4;
    [varint_exit [8%nat; 8%nat; 8%nat; 8%nat; 7%nat] [p0; p1; p2; p3; p4]|].
  next_byte p p5 H5 Hp E5;
    [varint_exit [8%nat; 8%nat; 8%nat; 8%nat; 8%nat; 7%nat] [p0; p1; p2; p3; p4; p5]|].
  next_byte p p6 H6 Hp E6;
    [varint_exit [8%nat; 8%nat; 8%nat; 8%nat; 8%nat; 8%nat; 7%nat]
       [p0; p1; p2; p3; p4; p5; p6]|].
  next_byte p p7 H7 Hp E7;
    [varint_exit [8%nat; 8%nat; 8%nat; 8%nat; 8%nat; 8%nat; 8%nat; 7%nat]
       [p0; p1; p2; p3; p4; p5; p6; p7]|].
  destruct p as [|p8 p]; [reflexivity|].
  inversion_clear Hp as [|? ? H8 Hp'].
  cbn [lookup list_lookup decode_bits]; crun; cbv zeta.
  varint_exit [8%nat; 8%nat; 8%nat; 8%nat; 8%nat; 8%nat; 8%nat; 8%nat; 8%nat]
    [p0; p1; p2; p3; p4; p5; p6; p7; p8].
Qed.

Lemma get_varint_spec p :
  bytes_ok p -> sqlite3GetVarint p = of_opt (varint_decode 8 0 0 p).
Proof. intros Hp. by rewrite get_varint_bits, decode_bits_eq. Qed.

Lemma varint_decode_count k n acc p m v :
  varint_decode k n acc p = Some (m, v) -> n < m <= n + Z.of_nat k + 1 /\ m - n <= zlen p.
Proof.
  revert k n acc. induction p as [|c p IH]; intros k n acc H; [done|]. simpl in H.
  rewrite zlen_cons. pose proof (zlen_nonneg p).
  destruct k as [|k]; [by simplify_eq; lia|].
  destruct (c <? 128); [by simplify_eq; lia|]. apply IH in H. lia.
Qed.

Lemma exit32_eq (n m x y : Z) :
  n = m -> x = u32 y -> Ret (n, x) = prod_map id u32 <$> of_opt (Some (m, y)).
Proof. by intros -> ->. Qed.

Ltac varint32_exit ws env :=
  let H := fresh in
  assert (env_ok ws env) as H by auto 12 with varint_env nocore;
  apply exit32_eq; [reflexivity|]; unfold MASK14, MASK28; bits_eq ws env H.

Lemma get_varint32_bits c p :
  bytes_ok (c :: p) -> (c <? 128) = false ->
  sqlite3GetVarint32 (c :: p)
  = prod_map id u32 <$> of_opt (decode_bits 8 0 0 (c :: p)).
Proof.
  intros Hp E0. unfold sqlite3GetVarint32. rewrite get_varint_bits by done.
  rewrite (rd_nat (c :: p) 0 : rd _ 0 = (c :: p) !! 0%nat),
    (rd_nat (c :: p) 1 : rd _ 1 = (c :: p) !! 1%nat),
    (rd_nat (c :: p) 2 : rd _ 2 = (c :: p) !! 2%nat),
    (rd_nat (c :: p) 3 : rd _ 3 = (c :: p) !! 3%nat),
    (rd_nat (c :: p) 4 : rd _ 4 = (c :: p) !! 4%nat).
  inversion_clear Hp as [|? ? H0 Hp']. rename Hp' into Hp.
  rewrite decode_bits_first, E0. cbn [lookup list_lookup]. crun.
  next_byte p p1 H1 Hp E1; [varint32_exit [8%nat; 7%nat] [c; p1]|].
  next_byte p p2 H2 Hp E2; [varint32_exit [8%nat; 8%nat; 7%nat] [c; p1; p2]|].
  next_byte p p3 H3 Hp E3; [varint32_exit [8%nat; 8%nat; 8%nat; 7%nat] [c; p1; p2; p3]|].
  next_byte p p4 H4 Hp E4;
    [varint32_exit [8%nat; 8%nat; 8%nat; 8%nat; 7%nat] [c; p1; p2; p3; p4]|].
  destruct (decode_bits _ _ _ p) as [[n v]|] eqn:E; [|done].
  rewrite decode_bits_eq in E by done. apply varint_decode_count in E as [Hn _].
  simpl. rewrite (proj2 (Z.ltb_lt 5 n)), (proj2 (Z.leb_le n 9)) by lia. done.
Qed.

Lemma getVarint32_spec p :
  bytes_ok p -> getVarint32 p = prod_map id u32 <$> of_opt (varint_decode 8 0 0 p).
Proof.
  intros Hp. rewrite <- decode_bits_eq by done.
  destruct p as [|c p]; [done|]. unfold getVarint32. rewrite (rd_nat _ 0 : rd _ 0 = _).
  cbn [lookup list_lookup]. crun. destruct (c <? 128) eqn:E.
  - rewrite decode_bits_first, E. inversion_clear Hp as [|? ? Hc _]. unfold is_byte in Hc.
    simpl. rewrite u32_id by (unfold is_u32; lia). done.
  - by apply get_varint32_bits.
Qed.

(** ** Writing a varint *)

Lemma flag_byte v : Z.lor (Z.land v 127) 128 = v mod 128 + 128.
Proof.
  rewrite (land_ones_mod v 7 : 0 <= 7 -> Z.land v 127 = v mod 128) by lia.
  rewrite Z.lor_comm.
  rewrite (lor_add_low 1 (v mod 128) 7 : _ -> _ -> Z.lor 128 _ = _)
    by (lia || apply Z.mod_pos_bound; lia). lia.
Qed.

Lemma put_varint_tail_spec n v stored :
  put_varint_tail n v stored = varint_flagged n v ++ stored.
Proof.
  revert v stored. induction n as [|n IH]; intros v stored; [done|]. simpl.
  rewrite IH, flag_byte, Z.shiftr_div_pow2 by lia. by rewrite <- app_assoc.
Qed.

Lemma varint_flagged_length n v : length (varint_flagged n v) = n.
Proof. revert v. induction n; intros v; simpl; [done|]. rewrite length_app, IHn. simpl. lia. Qed.

Lemma varint_groups_small fuel v : 0 <= v < 128 -> varint_groups fuel v = 0%nat.
Proof. intros. destruct fuel; simpl; [done|]. by rewrite (proj2 (Z.ltb_lt v 128)) by lia. Qed.

Lemma put_varint_buf_spec k fuel v buf :
  0 <= v < 128 ^ Z.of_nat (S k) -> (k < fuel)%nat ->
  put_varint_buf fuel v buf
  = Ret (buf ++ reverse (varint_flagged (S (varint_groups k v)) v)).
Proof.
  revert fuel v buf. induction k as [|k IH]; intros fuel v buf Hv Hf;
    (destruct fuel as [|fuel]; [lia|]); cbn [put_varint_buf];
    rewrite flag_byte, (Z.shiftr_div_pow2 v 7) by lia; change (2 ^ 7) with 128.
  - rewrite (Z.div_small v 128) by lia. done.
  - cbn [varint_groups]. destruct (Z.ltb_spec v 128) as [Hlt|Hge].
    + rewrite Z.div_small by lia. done.
    + assert (1 <= v / 128) by (apply Z.div_le_lower_bound; lia).
      rewrite (proj2 (Z.eqb_neq (v / 128) 0)) by lia.
      rewrite IH; [|split; [lia|]|lia].
      * rewrite <- app_assoc. f_equal. f_equal.
        change (varint_flagged (S (S (varint_groups k (v / 128)))) v)
          with (varint_flagged (S (varint_groups k (v / 128))) (v / 128) ++ [v mod 128 + 128]).
        by rewrite reverse_app.
      * apply Z.div_lt_upper_bound; [lia|]. rewrite Nat2Z.inj_succ in Hv.
        rewrite Z.pow_succ_r in Hv by lia. lia.
Qed.

Lemma high_bits_clear v n :
  0 <= n -> 0 <= v -> (Z.shiftl (Z.shiftr v n) n =? 0) = (v <? 2 ^ n).
Proof.
  intros Hn Hv. rewrite Z.shiftl_mul_pow2, Z.shiftr_div_pow2 by lia.
  pose proof (pow2_pos n Hn) as Hp. apply eq_true_iff_eq. rewrite Z.eqb_eq, Z.ltb_lt.
  split; intros H.
  - pose proof (Z.div_mod v (2 ^ n)). pose proof (Z.mod_pos_bound v (2 ^ n)). nia.
  - rewrite Z.div_small by lia. done.
Qed.

Lemma varint_groups_bound fuel v : (varint_groups fuel v <= fuel)%nat.
Proof.
  revert v. induction fuel as [|fuel IH]; intros v; cbn [varint_groups]; [lia|].
  destruct (v <? 128); [lia|]. apply le_n_S, IH.
Qed.

Lemma varint_groups_lt fuel v :
  0 <= v < 128 ^ Z.of_nat (S fuel) -> v < 128 ^ Z.of_nat (S (varint_groups fuel v)).
Proof.
  revert v. induction fuel as [|fuel IH]; intros v Hv; [exact (proj2 Hv)|]. cbn [varint_groups].
  destruct (Z.ltb_spec v 128); [lia|].
  assert (0 <= v / 128 < 128 ^ Z.of_nat (S fuel)) as Hd.
  { split; [apply Z.div_pos; lia|]. apply Z.div_lt_upper_bound; [lia|].
    rewrite Nat2Z.inj_succ, Z.pow_succ_r in Hv by lia. lia. }
  apply IH in Hd. rewrite (Nat2Z.inj_succ (S _)), Z.pow_succ_r by lia.
  pose proof (Z.div_mod v 128). pose proof (Z.mod_pos_bound v 128). lia.
Qed.

Lemma varint_groups_fuel f g v :
  0 <= v < 128 ^ Z.of_nat (S f) -> (f <= g)%nat -> varint_groups g v = varint_groups f v.
Proof.
  revert g v. induction f as [|f IH]; intros g v Hv Hg.
  - simpl. apply varint_groups_small. lia.
  - destruct g as [|g]; [lia|]. simpl. destruct (Z.ltb_spec v 128); [done|].
    f_equal. apply IH; [|lia]. split; [apply Z.div_pos; lia|]. apply Z.div_lt_upper_bound; [lia|].
    rewrite Nat2Z.inj_succ, Z.pow_succ_r in Hv by lia. lia.
Qed.

Lemma put_varint_spec v : is_u64 v -> sqlite3PutVarint v = Ret (varint_encode v).
Proof.
  intros Hv. unfold is_u64 in Hv. unfold sqlite3PutVarint, varint_encode.
  assert (env_ok [64%nat] [v]) as Henv by (repeat constructor; lia).
  assert (Z.land v (Z.shiftl 4278190080 32) = Z.shiftl (Z.shiftr v 56) 56) as ->
    by bits_eq [64%nat] [v] Henv.
  rewrite high_bits_clear by lia. destruct (Z.ltb_spec v (2 ^ 56)) as [Hlt|Hge]; simpl negb; cbv iota.
  - rewrite (put_varint_buf_spec 7) by lia. rewrite bind_ret_l. cbn [varint_flagged app].
    rewrite reverse_app. cbn [reverse rev_append app].
    rewrite (varint_groups_fuel 7 8) by lia.
    set (k := varint_groups 7 v). set (L := varint_flagged k (v / 128)).
    change (reverse [v mod 128 + 128] ++ reverse L) with (v mod 128 + 128 :: reverse L).
    rewrite (rd_middle [] (reverse L) _ : rd (_ :: reverse L) 0 = _). crun.
    rewrite (wr_middle [] (reverse L) _ _ : wr (_ :: reverse L) 0 _ = _). crun.
    assert (Z.land (v mod 128 + 128) 127 = v mod 128) as ->.
    { pose proof (Z.mod_pos_bound v 128). rewrite low_seven; unfold is_byte; lia. }
    rewrite (proj2 (Z.leb_le _ 9)), bind_c_assert.
    + change (v mod 128 :: reverse L) with (reverse [v mod 128] ++ reverse L).
      by rewrite app_nil_l, <- reverse_app, reverse_involutive.
    + unfold L, k. pose proof (varint_groups_bound 7 v). size. rewrite varint_flagged_length. lia.
  - rewrite put_varint_tail_spec, Z.shiftr_div_pow2 by lia. done.
Qed.

Lemma varint_flagged_bytes n v : 0 <= v -> bytes_ok (varint_flagged n v).
Proof.
  revert v. induction n as [|n IH]; intros v Hv; simpl; [constructor|].
  apply Forall_app_2; [apply IH, Z.div_pos; lia|]. repeat constructor.
  all: pose proof (Z.mod_pos_bound v 128); lia.
Qed.

Lemma varint_encode_bytes v : is_u64 v -> bytes_ok (varint_encode v).
Proof.
  intros Hv. unfold is_u64 in Hv. unfold varint_encode. case_match;
    (apply Forall_app_2; [apply varint_flagged_bytes, Z.div_pos; lia|]);
    repeat constructor; first [pose proof (Z.mod_pos_bound v 128) | pose proof (Z.mod_pos_bound v 256)];
    try lia; pose proof (Z.mod_pos_bound v 256); lia.
Qed.

Lemma varint_decode_flagged j k n acc v rest :
  (j <= k)%nat -> 0 <= v < 128 ^ Z.of_nat j ->
  varint_decode k n acc (varint_flagged j v ++ rest)
  = varint_decode (k - j) (n + Z.of_nat j) (acc * 128 ^ Z.of_nat j + v) rest.
Proof.
  revert k v rest. induction j as [|j IH]; intros k v rest Hj Hv.
  - simpl. replace (k - 0)%nat with k by lia. f_equal; lia.
  - cbn [varint_flagged]. rewrite <- app_assoc. rewrite Nat2Z.inj_succ, Z.pow_succ_r in Hv by lia.
    rewrite IH; [|lia|split; [apply Z.div_pos; lia|apply Z.div_lt_upper_bound; lia]].
    replace (k - j)%nat with (S (k - S j)) by lia. cbn [varint_decode app].
    pose proof (Z.mod_pos_bound v 128). pose proof (Z.div_mod v 128).
    destruct (Z.ltb_spec (v mod 128 + 128) 128); [lia|]. f_equal; [lia|].
    rewrite Nat2Z.inj_succ, Z.pow_succ_r by lia. lia.
Qed.

Lemma varint_decode_encode v rest :
  is_u64 v ->
  varint_decode 8 0 0 (varint_encode v ++ rest) = Some (zlen (varint_encode v), v).
Proof.
  intros Hv. unfold is_u64 in Hv. unfold varint_encode.
  pose proof (Z.div_mod v 256). pose proof (Z.mod_pos_bound v 256).
  pose proof (Z.div_mod v 128). pose proof (Z.mod_pos_bound v 128).
  destruct (Z.ltb_spec v (2 ^ 56)) as [Hlt|Hge]; rewrite zlen_app, <- app_assoc.
  - assert (0 <= v < 128 ^ Z.of_nat 8) as Hv8 by lia.
    rewrite (varint_groups_fuel 7 8) by lia. apply varint_groups_lt in Hv8.
    pose proof (varint_groups_bound 7 v) as Hb. set (k := varint_groups 7 v) in *.
    rewrite Nat2Z.inj_succ, Z.pow_succ_r in Hv8 by lia.
    rewrite varint_decode_flagged; [|lia|split; [apply Z.div_pos; lia|apply Z.div_lt_upper_bound; lia]].
    replace (8 - k)%nat with (S (7 - k)) by lia. cbn [varint_decode app].
    rewrite (proj2 (Z.ltb_lt _ 128)) by lia. do 2 f_equal; [|lia].
    size. rewrite varint_flagged_length. lia.
  - rewrite varint_decode_flagged; [|lia|].
    + cbn [varint_decode app Nat.sub]. do 2 f_equal. lia.
    + change (128 ^ Z.of_nat 8) with (2 ^ 56).
      split; [apply Z.div_pos; lia|apply Z.div_lt_upper_bound; lia].
Qed.

Lemma varint_encode_length v : is_u64 v -> 1 <= zlen (varint_encode v) <= 9.
Proof.
  intros Hv. unfold is_u64 in Hv. unfold varint_encode. case_match; size;
    rewrite varint_flagged_length; [|lia].
  assert (varint_groups 8 v <= 7)%nat; [|lia].
  rewrite (varint_groups_fuel 7 8) by lia. apply varint_groups_bound.
Qed.

Lemma varint_len_loop_spec k fuel i v :
  0 <= v < 128 ^ Z.of_nat (S k) -> (k < fuel)%nat -> 0 <= i -> i + Z.of_nat k < 9 ->
  varint_len_loop fuel i v = Ret (i + 1 + Z.of_nat (varint_groups k v)).
Proof.
  revert fuel i v. induction k as [|k IH]; intros fuel i v Hv Hf Hi Hk;
    (destruct fuel as [|fuel]; [lia|]); cbn [varint_len_loop];
    rewrite (Z.shiftr_div_pow2 v 7) by lia; change (2 ^ 7) with 128.
  - rewrite Z.div_small by lia. simpl. f_equal. lia.
  - cbn [varint_groups]. destruct (Z.ltb_spec v 128) as [Hlt|Hge].
    + rewrite Z.div_small by lia. simpl. f_equal. lia.
    + assert (1 <= v / 128) by (apply Z.div_le_lower_bound; lia).
      rewrite (proj2 (Z.eqb_neq (v / 128) 0)), (proj2 (Z.ltb_lt (i + 1) 9)) by lia.
      cbn [negb andb]. rewrite IH; [f_equal; lia| |lia|lia|lia].
      split; [lia|]. apply Z.div_lt_upper_bound; [lia|].
      rewrite Nat2Z.inj_succ, Z.pow_succ_r in Hv by lia. lia.
Qed.

(** Above 56 bits the loop stops at nine. *)
Lemma varint_len_loop_stop fuel i v :
  (0 < fuel)%nat -> i = 9 - Z.of_nat fuel -> 128 ^ (Z.of_nat fuel - 1) <= v ->
  varint_len_loop fuel i v = Ret 9.
Proof.
  revert i v. induction fuel as [|fuel IH]; intros i v Hf Hi Hv; [lia|].
  cbn [varint_len_loop]. rewrite (Z.shiftr_div_pow2 v 7) by lia. change (2 ^ 7) with 128.
  destruct fuel as [|fuel].
  - rewrite (proj2 (Z.ltb_ge (i + 1) 9)) by lia. rewrite andb_false_r. f_equal. lia.
  - replace (Z.of_nat (S (S fuel)) - 1) with (Z.succ (Z.of_nat (S fuel) - 1)) in Hv by lia.
    rewrite Z.pow_succ_r in Hv by lia.
    assert (128 ^ (Z.of_nat (S fuel) - 1) <= v / 128) as Hd
      by (apply Z.div_le_lower_bound; lia).
    assert (0 < 128 ^ (Z.of_nat (S fuel) - 1)) by (apply Z.pow_pos_nonneg; lia).
    rewrite (proj2 (Z.eqb_neq (v / 128) 0)), (proj2 (Z.ltb_lt (i + 1) 9)) by lia.
    cbn [negb andb]. apply IH; [lia|lia|done].
Qed.

Lemma varint_len_spec v : is_u64 v -> sqlite3VarintLen v = Ret (zlen (varint_encode v)).
Proof.
  intros Hv. unfold is_u64 in Hv. unfold sqlite3VarintLen, varint_encode.
  destruct (Z.ltb_spec v (2 ^ 56)) as [Hlt|Hge].
  - rewrite (varint_len_loop_spec 7) by lia. rewrite (varint_groups_fuel 7 8) by lia.
    f_equal. size. rewrite varint_flagged_length. lia.
  - rewrite varint_len_loop_stop; [|lia|done|simpl; lia]. done.
Qed.

Lemma putVarint32_spec v : is_u32 v -> putVarint32 v = Ret (varint_encode v).
Proof.
  intros Hv. unfold is_u32 in Hv. unfold putVarint32, sqlite3PutVarint32.
  assert (is_u64 v) as H64 by (unfold is_u64; lia).
  unfold varint_encode. rewrite (proj2 (Z.ltb_lt v (2 ^ 56))) by lia.
  cbn [varint_groups]. destruct (Z.ltb_spec v 128) as [H1|H1].
  { cbn [varint_flagged app]. rewrite u8_id, Z.mod_small by (unfold is_byte; lia). done. }
  assert (env_ok [32%nat] [v]) as Henv by (repeat constructor; lia).
  assert (Z.land v (u32 (Z.lnot 16383)) = Z.shiftl (Z.shiftr v 14) 14) as ->
    by bits_eq [32%nat] [v] Henv.
  rewrite high_bits_clear by lia. destruct (Z.ltb_spec v (2 ^ 14)) as [H2|H2].
  - assert (0 <= v / 128 < 128) as Hd.
    { split; [apply Z.div_pos; lia|apply Z.div_lt_upper_bound; lia]. }
    rewrite (proj2 (Z.ltb_lt (v / 128) 128)) by lia. cbn [varint_flagged app].
    rewrite Z.shiftr_div_pow2 by lia. change (2 ^ 7) with 128.
    rewrite (Z.mod_small (v / 128)) by lia.
    rewrite (land_ones_mod v 7 : 0 <= 7 -> Z.land v 127 = v mod 128) by lia.
    rewrite Z.lor_comm, (lor_add_low 1 (v / 128) 7 : _ -> _ -> Z.lor 128 _ = _) by lia.
    rewrite u8_id by (unfold is_byte; lia). do 2 f_equal. lia.
  - rewrite put_varint_spec by done. unfold varint_encode.
    rewrite (proj2 (Z.ltb_lt v (2 ^ 56))) by lia. cbn [varint_groups].
    by rewrite (proj2 (Z.ltb_ge v 128)) by lia.
Qed.

Lemma get4byte_eq p0 p1 p2 p3 rest :
  sqlite3Get4byte (p0 :: p1 :: p2 :: p3 :: rest)
  = Ret (u32 (Z.lor (Z.lor (Z.lor (Z.shiftl p0 24) (Z.shiftl p1 16)) (Z.shiftl p2 8)) p3)).
Proof. reflexivity. Qed.

(** ** Properties *)

(** On every byte string both readers compute what the format says: seven
    bits from each byte whose flag is set, then the last byte, the ninth byte
    whole. They read beyond the string exactly when the varint is truncated;
    the 32-bit reader delivers the low 32 bits of the value with the same
    length, and its assertion on that length holds. *)
Lemma varint_read (p : list Z) (Hp : bytes_ok p) :
  sqlite3GetVarint p = of_opt (varint_decode 8 0 0 p)
  /\ getVarint32 p = prod_map id u32 <$> of_opt (varint_decode 8 0 0 p).
Proof. split; [by apply get_varint_spec | by apply getVarint32_spec]. Qed.

Lemma varint_read_witness :
  sqlite3GetVarint [129; 128; 1; 7] = Ret (3, 16385)
  /\ getVarint32 [129; 128] = UB.
Proof.
  split.
  - refine (eq_trans (proj1 (varint_read [129; 128; 1; 7] _)) _); [|reflexivity].
    repeat constructor; lia.
  - refine (eq_trans (proj2 (varint_read [129; 128] _)) _); [|reflexivity].
    repeat constructor; lia.
Defined.

(** C22: Writing a 64-bit value and reading it back gives the value and the
    number of bytes written, which is between one and nine and the number
    that [sqlite3VarintLen] announces; for 32-bit values the 32-bit writer
    stores the same bytes and the 32-bit reader gives the value back. *)
Theorem varint_roundtrip (v : Z) (rest : list Z) (Hv : is_u64 v) (Hr : bytes_ok rest) :
  exists bs, sqlite3PutVarint v = Ret bs /\ bytes_ok bs /\ 1 <= zlen bs <= 9
    /\ sqlite3VarintLen v = Ret (zlen bs)
    /\ sqlite3GetVarint (bs ++ rest) = Ret (zlen bs, v)
    /\ (is_u32 v -> putVarint32 v = Ret bs /\ getVarint32 (bs ++ rest) = Ret (zlen bs, v)).
Proof.
  exists (varint_encode v). pose proof (varint_encode_bytes v Hv) as Hb.
  assert (bytes_ok (varint_encode v ++ rest)) by (by apply Forall_app_2).
  rewrite put_varint_spec, varint_len_spec, get_varint_spec, varint_decode_encode by done.
  repeat split; try done; try (by apply varint_encode_length).
  - by apply putVarint32_spec.
  - rewrite getVarint32_spec, varint_decode_encode by done. simpl. by rewrite u32_id.
Qed.

Lemma varint_roundtrip_witness :
  exists bs, sqlite3PutVarint 300 = Ret bs /\ bytes_ok bs /\ 1 <= zlen bs <= 9
    /\ sqlite3VarintLen 300 = Ret (zlen bs)
    /\ sqlite3GetVarint (bs ++ [255]) = Ret (zlen bs, 300)
    /\ (is_u32 300 -> putVarint32 300 = Ret bs /\ getVarint32 (bs ++ [255]) = Ret (zlen bs, 300)).
Proof.
  apply (varint_roundtrip 300 [255]); [unfold is_u64; lia | repeat constructor; lia].
Defined.

(** [sqlite3Put4byte] and [sqlite3Get4byte] are inverse to each other on
    32-bit values and on strings of four bytes, whatever follows the bytes. *)
Lemma four_byte_roundtrip (v p0 p1 p2 p3 : Z) (rest : list Z)
    (Hv : is_u32 v) (Hp : bytes_ok [p0; p1; p2; p3]) :
  sqlite3Get4byte (sqlite3Put4byte v ++ rest) = Ret v
  /\ sqlite3Put4byte <$> sqlite3Get4byte (p0 :: p1 :: p2 :: p3 :: rest)
     = Ret [p0; p1; p2; p3].
Proof.
  unfold is_u32 in Hv. inversion_clear Hp as [|? ? H0 Hp0].
  inversion_clear Hp0 as [|? ? H1 Hp1]. inversion_clear Hp1 as [|? ? H2 Hp2].
  inversion_clear Hp2 as [|? ? H3 _]. unfold sqlite3Put4byte. cbn [app].
  assert (env_ok [32%nat] [v]) as Hev by (repeat constructor; lia).
  assert (env_ok [8; 8; 8; 8]%nat [p0; p1; p2; p3]) as Hep by auto with varint_env nocore.
  rewrite !get4byte_eq. split.
  - f_equal. bits_eq [32%nat] [v] Hev.
  - cbn [fmap res_fmap]. f_equal.
    f_equal; [|f_equal; [|f_equal; [|f_equal]]];
      bits_eq [8; 8; 8; 8]%nat [p0; p1; p2; p3] Hep.
Qed.

Lemma four_byte_roundtrip_witness :
  sqlite3Get4byte (sqlite3Put4byte 66051 ++ []) = Ret 66051
  /\ sqlite3Put4byte <$> sqlite3Get4byte [0; 1; 2; 255] = Ret [0; 1; 2; 255].
Proof.
  apply (four_byte_roundtrip 66051 0 1 2 255 []); [unfold is_u32; lia|].
  repeat constructor; lia.
Defined.
