(* ===== verification/NumText.v ===== *)
(** * Text comparison, numerals, quotes and hexadecimal literals

    Model of the string routines of misc/sqlite/util.c: case-insensitive
    comparison, the recognisers and readers of decimal numerals, the removal
    of SQL quotes and the decoding of hexadecimal literals. A [const char *]
    is the list of the bytes that can be read from it on, so that a
    NUL-terminated string is [s ++ 0 :: rest]; a string that is changed in
    place is a block that is read and written by index. A [char] is signed,
    as on the machines the program is built for; 64-bit signed arithmetic
    wraps around, as the compilers of these machines make it. *)

From S2P Require Import Prelude.

(** ** Comparison *)

Definition sqlite3UpperToLower : list Z :=
  [
   0; 1; 2; 3; 4; 5; 6; 7; 8; 9; 10; 11; 12; 13; 14; 15; 16; 17;
   18; 19; 20; 21; 22; 23; 24; 25; 26; 27; 28; 29; 30; 31; 32; 33; 34; 35;
   36; 37; 38; 39; 40; 41; 42; 43; 44; 45; 46; 47; 48; 49; 50; 51; 52; 53;
   54; 55; 56; 57; 58; 59; 60; 61; 62; 63; 64; 97; 98; 99; 100; 101; 102; 103;
   104; 105; 106; 107; 108; 109; 110; 111; 112; 113; 114; 115; 116; 117; 118; 119; 120; 121;
   122; 91; 92; 93; 94; 95; 96; 97; 98; 99; 100; 101; 102; 103; 104; 105; 106; 107;
   108; 109; 110; 111; 112; 113; 114; 115; 116; 117; 118; 119; 120; 121; 122; 123; 124; 125;
   126; 127; 128; 129; 130; 131; 132; 133; 134; 135; 136; 137; 138; 139; 140; 141; 142; 143;
   144; 145; 146; 147; 148; 149; 150; 151; 152; 153; 154; 155; 156; 157; 158; 159; 160; 161;
   162; 163; 164; 165; 166; 167; 168; 169; 170; 171; 172; 173; 174; 175; 176; 177; 178; 179;
   180; 181; 182; 183; 184; 185; 186; 187; 188; 189; 190; 191; 192; 193; 194; 195; 196; 197;
   198; 199; 200; 201; 202; 203; 204; 205; 206; 207; 208; 209; 210; 211; 212; 213; 214; 215;
   216; 217; 218; 219; 220; 221; 222; 223; 224; 225; 226; 227; 228; 229; 230; 231; 232; 233;
   234; 235; 236; 237; 238; 239; 240; 241; 242; 243; 244; 245; 246; 247; 248; 249; 250; 251;
   252; 253; 254; 255].

(** [UpperToLower[c]]; a byte is always inside of the table. *)
Definition UpperToLower (c : Z) : Z := default 0 (rd sqlite3UpperToLower c).

Fixpoint sqlite3StrICmp (zLeft zRight : list Z) : res Z :=
  match zLeft, zRight with
  | a :: zLeft', b :: zRight' =>
      if negb (a =? 0) && (UpperToLower a =? UpperToLower b)
      then sqlite3StrICmp zLeft' zRight'
      else Ret (UpperToLower a - UpperToLower b)
  | _, _ => UB
  end.

(** With [N = 0] neither string is read. *)
Fixpoint strnicmp_loop (fuel : nat) (zLeft zRight : list Z) (N : Z) : res Z :=
  match fuel with
  | O => NoFuel
  | S fuel =>
      N' ← sint (N - 1);
      if 0 <? N then
        a ← of_opt (rd zLeft 0);
        if a =? 0 then b ← of_opt (rd zRight 0); Ret (UpperToLower a - UpperToLower b)
        else
          b ← of_opt (rd zRight 0);
          if UpperToLower a =? UpperToLower b
          then strnicmp_loop fuel (tail zLeft) (tail zRight) N'
          else Ret (UpperToLower a - UpperToLower b)
      else if N' <? 0 then Ret 0
      else (a ← of_opt (rd zLeft 0); b ← of_opt (rd zRight 0);
            Ret (UpperToLower a - UpperToLower b))
  end.

Definition sqlite3StrNICmp (zLeft zRight : list Z) (N : Z) : res Z :=
  strnicmp_loop (S (length zLeft)) zLeft zRight N.

(** ** Numerals *)

(** [*z] and [z += n]. *)
Definition deref (z : list Z) : res Z := of_opt (rd z 0).
Definition advance (n : nat) (z : list Z) : list Z := drop n z.

(** [while( isdigit( *z ) ){ z += incr; }] *)
Fixpoint skip_digits (fuel : nat) (incr : nat) (z : list Z) : res (list Z) :=
  match fuel with
  | O => NoFuel
  | S fuel =>
      c ← deref z;
      if isdigit c then skip_digits fuel incr (advance incr z) else Ret z
  end.

Inductive encoding := SQLITE_UTF8 | SQLITE_UTF16LE | SQLITE_UTF16BE.

(** The fraction and the exponent: the rest of the text, what is stored in
    [*realnum], and whether the code goes on. *)
Definition isnumber_frac (fuel incr : nat) (z : list Z) (realnum : option bool)
    : res (list Z * option bool * bool) :=
  c ← deref z;
  if c =? 46 then
    let z := advance incr z in
    c ← deref z;
    if negb (isdigit c) then Ret (z, realnum, false) else
    z ← skip_digits fuel incr z;
    Ret (z, Some true, true)
  else Ret (z, realnum, true).

Definition isnumber_exp (fuel incr : nat) (z : list Z) (realnum : option bool)
    : res (list Z * option bool * bool) :=
  c ← deref z;
  if (c =? 101) || (c =? 69) then
    let z := advance incr z in
    c ← deref z;
    let z := if (c =? 43) || (c =? 45) then advance incr z else z in
    c ← deref z;
    if negb (isdigit c) then Ret (z, realnum, false) else
    z ← skip_digits fuel incr z;
    Ret (z, Some true, true)
  else Ret (z, realnum, true).

(** The value returned, and what is stored in [*realnum], if anything. *)
Definition sqlite3IsNumber (z : list Z) (enc : encoding) : res (bool * option bool) :=
  let incr := match enc with SQLITE_UTF8 => 1%nat | _ => 2%nat end in
  let z := match enc with SQLITE_UTF16BE => advance 1 z | _ => z end in
  let fuel := S (length z) in
  c ← deref z;
  let z := if (c =? 45) || (c =? 43) then advance incr z else z in
  c ← deref z;
  if negb (isdigit c) then Ret (false, None) else
  let z := advance incr z in
  let realnum := Some false in
  z ← skip_digits fuel incr z;
  '(z, realnum, ok) ← isnumber_frac fuel incr z realnum;
  if negb ok then Ret (false, realnum) else
  '(z, realnum, ok) ← isnumber_exp fuel incr z realnum;
  if negb ok then Ret (false, realnum) else
  c ← deref z;
  Ret (c =? 0, realnum).

(** The sign of [memcmp(a, b, n)]; both blocks must have [n] bytes. *)
Fixpoint memcmp (n : nat) (a b : list Z) : res Z :=
  match n, a, b with
  | O, _, _ => Ret 0
  | S n, x :: a, y :: b =>
      if x =? y then memcmp n a b else Ret (if x <? y then -1 else 1)
  | _, _, _ => UB
  end.

(** "922337203685477580" *)
Definition pow63_digits : list Z :=
  [57; 50; 50; 51; 51; 55; 50; 48; 51; 54; 56; 53; 52; 55; 55; 53; 56; 48].

Definition compare2pow63 (zNum : list Z) : res Z :=
  c ← memcmp 18 zNum pow63_digits;
  if c =? 0 then d ← of_opt (rd zNum 18); Ret (schar d - 56) else Ret c.

(** [while( isspace( *zNum ) ) zNum++] *)
Fixpoint skip_space (z : list Z) : res (list Z) :=
  match z with
  | [] => UB
  | c :: z' => if isspace c then skip_space z' else Ret z
  end.

(** [while( zNum[0]=='0' ){ zNum++; }] *)
Fixpoint skip_zeros (z : list Z) : res (list Z) :=
  match z with
  | [] => UB
  | c :: z' => if c =? 48 then skip_zeros z' else Ret z
  end.

(** [for(i=0; (c=zNum[i])>='0' && c<='9'; i++){ v = v*10 + c - '0'; }]: the
    last [c], [i] and [v]. *)
Fixpoint atoi_loop (z : list Z) (i v : Z) : res (Z * Z * Z) :=
  match z with
  | [] => UB
  | x :: z =>
      let c := schar x in
      if (48 <=? c) && (c <=? 57)
      then atoi_loop z (i + 1) (s64 (s64 (s64 (v * 10) + c) - 48))
      else Ret (c, i, v)
  end.

Definition b2z (b : bool) : Z := if b then 1 else 0.

Definition sqlite3Atoi64 (zNum : list Z) : res (bool * Z) :=
  zNum ← skip_space zNum;
  c ← deref zNum;
  let neg := c =? 45 in
  let zNum := if neg then advance 1 zNum else if c =? 43 then advance 1 zNum else zNum in
  zNum ← skip_zeros zNum;
  '(c, i, v) ← atoi_loop zNum 0 0;
  let pNum := if neg then s64 (- v) else v in
  if negb (c =? 0) || (i =? 0) || (19 <? i) then Ret (false, pNum)
  else if i <? 19 then Ret (true, pNum)
  else d ← compare2pow63 zNum; Ret (d <? b2z neg, pNum).

(** [for(i=0; (c=zNum[i])>='0' && c<='9'; i++){}] *)
Fixpoint count_digits (z : list Z) (i : Z) : res Z :=
  match z with
  | [] => UB
  | x :: z =>
      let c := schar x in
      if (48 <=? c) && (c <=? 57) then count_digits z (i + 1) else Ret i
  end.

Definition sqlite3FitsIn64Bits (zNum : list Z) (negFlag : bool) : res bool :=
  c ← deref zNum;
  let neg := c =? 45 in
  let zNum := if neg then advance 1 zNum else if c =? 43 then advance 1 zNum else zNum in
  let neg := if negFlag then negb neg else neg in
  zNum ← skip_zeros zNum;
  i ← count_digits zNum 0;
  if i <? 19 then Ret true
  else if 19 <? i then Ret false
  else d ← compare2pow63 zNum; Ret (d <? b2z neg).

(** [for(i=0; i<11 && (c = zNum[i] - '0')>=0 && c<=9; i++){ v = v*10 + c; }] *)
Fixpoint getint_loop (z : list Z) (i v : Z) : res (Z * Z) :=
  if i <? 11 then
    match z with
    | [] => UB
    | x :: z =>
        let c := schar x - 48 in
        if (0 <=? c) && (c <=? 9)
        then getint_loop z (i + 1) (s64 (s64 (v * 10) + c))
        else Ret (i, v)
    end
  else Ret (i, v).

(** The value stored when the answer is true. *)
Definition sqlite3GetInt32 (zNum : list Z) : res (option Z) :=
  c ← deref zNum;
  let neg := c =? 45 in
  let zNum := if neg then advance 1 zNum else if c =? 43 then advance 1 zNum else zNum in
  zNum ← skip_zeros zNum;
  '(i, v) ← getint_loop zNum 0 0;
  if 10 <? i then Ret None
  else if 2147483647 <? s64 (v - b2z neg) then Ret None
  else Ret (Some (s32 (if neg then s64 (- v) else v))).

(** ** Quotes *)

Fixpoint dequote_loop (fuel : nat) (quote i j : Z) (z : list Z) : res (list Z) :=
  match fuel with
  | O => NoFuel
  | S fuel =>
      c ← of_opt (rd z i);
      if c =? 0 then Ret z
      else if c =? quote then
        c1 ← of_opt (rd z (i + 1));
        if c1 =? quote then
          z ← of_opt (wr z j quote);
          dequote_loop fuel quote (i + 1 + 1) (j + 1) z
        else of_opt (wr z j 0)
      else
        z ← of_opt (wr z j c);
        dequote_loop fuel quote (i + 1) (j + 1) z
  end.

(** The closing quote that belongs to an opening one. *)
Definition close_quote (c : Z) : option Z :=
  if (c =? 39) || (c =? 34) || (c =? 96) then Some c
  else if c =? 91 then Some 93 else None.

(** For a pointer that is not NULL. *)
Definition sqlite3Dequote (z : list Z) : res (list Z) :=
  c ← of_opt (rd z 0);
  match close_quote c with
  | None => Ret z
  | Some quote => dequote_loop (S (length z)) quote 1 0 z
  end.

(** ** Hexadecimal literals *)

Definition hexToInt (h : Z) : res Z :=
  c_assert (((48 <=? h) && (h <=? 57)) || ((97 <=? h) && (h <=? 102))
            || ((65 <=? h) && (h <=? 70)));;
  let h := h + 9 * Z.land 1 (Z.shiftr h 6) in
  Ret (Z.land h 15).

Fixpoint hextoblob_loop (fuel : nat) (z : list Z) (n i : Z) (zBlob : list Z) : res (list Z) :=
  match fuel with
  | O => NoFuel
  | S fuel =>
      if i <? n then
        c0 ← of_opt (rd z i);
        h0 ← hexToInt (schar c0);
        c1 ← of_opt (rd z (i + 1));
        h1 ← hexToInt (schar c1);
        zBlob ← of_opt (wr zBlob (i / 2) (u8 (Z.lor (Z.shiftl h0 4) h1)));
        hextoblob_loop fuel z n (i + 2) zBlob
      else of_opt (wr zBlob (i / 2) 0)
  end.

(** [zBlob]: the block that the allocator gave, of [n/2 + 1] bytes with
    arbitrary contents, or [None]. *)
Definition sqlite3HexToBlob (zBlob : option (list Z)) (z : list Z) (n : Z) : res (option (list Z)) :=
  match zBlob with
  | None => Ret None
  | Some zBlob =>
      zBlob ← hextoblob_loop (S (length z)) z (n - 1) 0 zBlob;
      Ret (Some zBlob)
  end.

(** ** What the routines are to compute *)

Fixpoint drop_while (P : Z -> bool) (l : list Z) : list Z :=
  match l with
  | [] => []
  | x :: l' => if P x then drop_while P l' else l
  end.

Fixpoint take_while (P : Z -> bool) (l : list Z) : list Z :=
  match l with
  | [] => []
  | x :: l => if P x then x :: take_while P l else []
  end.

(** Lexicographic order on byte strings. *)
Fixpoint lex_compare (l1 l2 : list Z) : comparison :=
  match l1, l2 with
  | [], [] => Eq
  | [], _ => Lt
  | _, [] => Gt
  | x :: l1, y :: l2 => match x ?= y with Eq => lex_compare l1 l2 | c => c end
  end.

Definition digits_val (ds : list Z) : Z := fold_left (fun v c => v * 10 + (c - 48)) ds 0.

(** An optional sign, the digits that follow it, and the rest. *)
Definition text_neg (s : list Z) : bool := bool_decide (head s = Some 45).
Definition text_unsigned (s : list Z) : list Z :=
  match s with c :: s' => if (c =? 45) || (c =? 43) then s' else s | [] => [] end.
Definition text_digits (s : list Z) : list Z := take_while isdigit (text_unsigned s).
Definition text_rest (s : list Z) : list Z := drop_while isdigit (text_unsigned s).
(** The integer that the beginning of [s] stands for. *)
Definition text_int (s : list Z) : Z :=
  (if text_neg s then -1 else 1) * digits_val (text_digits s).

(** [[+-]? [0-9]+ ( . [0-9]+ )? ( [eE] [+-]? [0-9]+ )?] *)
Definition sign_part (s : list Z) : Prop := s = [] \/ s = [43] \/ s = [45].
Definition digit_part (s : list Z) : Prop := s <> [] /\ Forall (fun c => isdigit c = true) s.
Definition frac_part (s : list Z) : Prop := s = [] \/ exists ds, s = 46 :: ds /\ digit_part ds.
Definition exp_part (s : list Z) : Prop :=
  s = [] \/ exists e sg ds, s = e :: sg ++ ds /\ (e = 101 \/ e = 69) /\ sign_part sg /\ digit_part ds.

Inductive is_numeral : list Z -> bool -> Prop :=
| numeral_intro sg ds fr ex :
    sign_part sg -> digit_part ds -> frac_part fr -> exp_part ex ->
    is_numeral (sg ++ ds ++ fr ++ ex) (negb (bool_decide (fr ++ ex = []))).

(** [s] with each [q] written twice. *)
Definition double_quote (q : Z) (s : list Z) : list Z :=
  s ≫= fun c => if c =? q then [q; q] else [c].

(** The bytes that pairs of hexadecimal digits stand for. *)
Fixpoint hex_pairs (s : list Z) : list Z :=
  match s with
  | a :: b :: s => (xdigit_val a * 16 + xdigit_val b) :: hex_pairs s
  | _ => []
  end.

(** ** Comparison *)

Lemma UpperToLower_tolower c : is_byte c -> UpperToLower c = tolower c.
Proof.
  intros Hc. byte_check (fun c => UpperToLower c =? tolower c) c. lia.
Qed.

Lemma tolower_nonzero c : is_byte c -> c <> 0 -> 0 < tolower c.
Proof.
  intros Hc Hn. byte_check (fun c => (c =? 0) || (0 <? tolower c)) c. lia.
Qed.

Lemma lex_compare_eq l1 l2 : lex_compare l1 l2 = Eq <-> l1 = l2.
Proof.
  revert l2. induction l1 as [|x l1 IH]; intros [|y l2]; simpl; try naive_solver.
  destruct (Z.compare_spec x y) as [->|H|H]; [rewrite IH; naive_solver| |];
    (split; [done|]; intros [= -> ->]; lia).
Qed.

(** What [sqlite3StrICmp] needs of the two positions it looks at. *)
Lemma stricmp_run s1 s2 r1 r2 :
  bytes_ok s1 -> bytes_ok s2 -> no_nul s1 -> no_nul s2 ->
  exists d, sqlite3StrICmp (s1 ++ 0 :: r1) (s2 ++ 0 :: r2) = Ret d
    /\ (d ?= 0) = lex_compare (tolower <$> s1) (tolower <$> s2).
Proof.
  intros Hb1. revert s2. induction Hb1 as [|x s1 Hx _ IH]; intros s2 Hb2 Hn1 Hn2.
  - destruct Hb2 as [|y s2 Hy _]; [by exists 0|].
    exists (0 - UpperToLower y). inversion_clear Hn2 as [|? ? Hy0 _]. split; [done|].
    rewrite UpperToLower_tolower by done. simpl.
    pose proof (tolower_nonzero y Hy Hy0). destruct (Z.compare_spec (0 - tolower y) 0); lia || done.
  - inversion_clear Hn1 as [|? ? Hx0 Hn]. cbn [app sqlite3StrICmp].
    destruct Hb2 as [|y s2 Hy Hb2].
    + exists (UpperToLower x - 0). cbn [app]. change (UpperToLower 0) with 0.
      rewrite UpperToLower_tolower by done. pose proof (tolower_nonzero x Hx Hx0).
      rewrite (proj2 (Z.eqb_neq (tolower x) 0)) by lia. rewrite andb_false_r. split; [done|].
      simpl. destruct (Z.compare_spec (tolower x - 0) 0); lia || done.
    + inversion_clear Hn2 as [|? ? Hy0 Hn2']. cbn [app].
      rewrite !UpperToLower_tolower by done. rewrite (proj2 (Z.eqb_neq x 0)) by done.
      cbn [negb andb fmap list_fmap lex_compare].
      destruct (Z.eqb_spec (tolower x) (tolower y)) as [He|He].
      * rewrite He, Z.compare_refl. by apply IH.
      * eexists. split; [done|].
        destruct (Z.compare_spec (tolower x - tolower y) 0), (Z.compare_spec (tolower x) (tolower y));
          lia || done.
Qed.

Lemma strnicmp_run fuel N s1 s2 r1 r2 :
  bytes_ok s1 -> bytes_ok s2 -> no_nul s1 -> no_nul s2 ->
  (length s1 < fuel)%nat -> (N < 2 ^ 31)%Z -> 0 <= N ->
  exists d, strnicmp_loop fuel (s1 ++ 0 :: r1) (s2 ++ 0 :: r2) N = Ret d
    /\ (d ?= 0) = lex_compare (tolower <$> take (Z.to_nat N) s1)
                              (tolower <$> take (Z.to_nat N) s2).
Proof.
  intros Hb1. revert fuel N s2. induction Hb1 as [|x s1 Hx _ IH];
    intros fuel N s2 Hb2 Hn1 Hn2 Hf HN HN0; (destruct fuel as [|fuel]; [simpl in Hf; lia|]);
    cbn [strnicmp_loop]; rewrite (sint_id (N - 1)), bind_ret_l by lia;
    (destruct (Z.ltb_spec 0 N);
      [|assert (N = 0) as -> by lia; by exists 0]);
    replace (Z.to_nat N) with (S (Z.to_nat (N - 1))) by lia.
  - destruct Hb2 as [|y s2 Hy _]; [by exists 0|].
    exists (0 - UpperToLower y). inversion_clear Hn2 as [|? ? Hy0 _]. split; [done|].
    rewrite UpperToLower_tolower by done. simpl.
    pose proof (tolower_nonzero y Hy Hy0).
    destruct (Z.compare_spec (0 - tolower y) 0); lia || done.
  - inversion_clear Hn1 as [|? ? Hx0 Hn].
    rewrite (rd_middle [] (s1 ++ 0 :: r1) x : rd ((x :: s1) ++ 0 :: r1) 0 = _), bind_of_opt.
    rewrite (proj2 (Z.eqb_neq x 0)) by done.
    destruct Hb2 as [|y s2 Hy Hb2].
    + exists (UpperToLower x - 0).
      rewrite (rd_middle [] r2 0 : rd ([] ++ 0 :: r2) 0 = _), bind_of_opt.
      change (UpperToLower 0) with 0.
      rewrite UpperToLower_tolower by done. pose proof (tolower_nonzero x Hx Hx0).
      rewrite (proj2 (Z.eqb_neq (tolower x) 0)) by lia. split; [done|].
      simpl. destruct (Z.compare_spec (tolower x - 0) 0); lia || done.
    + inversion_clear Hn2 as [|? ? Hy0 Hn2'].
      rewrite (rd_middle [] (s2 ++ 0 :: r2) y : rd ((y :: s2) ++ 0 :: r2) 0 = _), bind_of_opt.
      rewrite !UpperToLower_tolower by done. cbn [firstn fmap list_fmap lex_compare].
      destruct (Z.eqb_spec (tolower x) (tolower y)) as [He|He].
      * rewrite He, Z.compare_refl. cbn [app tail]. apply IH; try done; simpl in Hf; lia.
      * eexists. split; [done|].
        destruct (Z.compare_spec (tolower x - tolower y) 0), (Z.compare_spec (tolower x) (tolower y));
          lia || done.
Qed.

(** ** Numerals recognised *)

Lemma deref_cons c l : deref (c :: l) = Ret c.
Proof. unfold deref. by rewrite rd_0. Qed.

(** [s] is followed by a NUL: a first character is always there. *)
Lemma deref_str s rest : deref (s ++ 0 :: rest) = Ret (default 0 (head s)).
Proof. by destruct s. Qed.

Lemma drop_while_head P s : match head (drop_while P s) with Some c => P c = false | None => True end.
Proof. induction s as [|c s IH]; simpl; [done|]. by destruct (P c) eqn:E. Qed.

Lemma take_drop_while P s : take_while P s ++ drop_while P s = s.
Proof. induction s as [|c s IH]; simpl; [done|]. destruct (P c); [|done]. simpl. by rewrite IH. Qed.

Lemma take_while_all P s : Forall (fun c => P c = true) (take_while P s).
Proof. induction s as [|c s IH]; simpl; [done|]. destruct (P c) eqn:E; by constructor. Qed.

Lemma take_while_app P a b :
  Forall (fun c => P c = true) a ->
  match head b with Some c => P c = false | None => True end ->
  take_while P (a ++ b) = a /\ drop_while P (a ++ b) = b.
Proof.
  intros Ha Hb. induction Ha as [|c a Hc _ [IH1 IH2]]; simpl.
  - destruct b as [|c b]; [done|]. simpl in *. by rewrite Hb.
  - by rewrite Hc, IH1, IH2.
Qed.

Lemma skip_digits_spec fuel s rest :
  (length s < fuel)%nat ->
  skip_digits fuel 1 (s ++ 0 :: rest) = Ret (drop_while isdigit s ++ 0 :: rest).
Proof.
  revert fuel. induction s as [|c s IH]; intros fuel Hf; (destruct fuel; [simpl in Hf; lia|]); [done|].
  cbn [skip_digits app drop_while]. rewrite deref_cons, bind_ret_l.
  destruct (isdigit c); [|done]. apply IH. simpl in Hf. lia.
Qed.

Lemma drop_while_length P s : (length (drop_while P s) <= length s)%nat.
Proof. induction s as [|c s IH]; simpl; [lia|]. case_match; simpl; lia. Qed.

(** The recogniser on the bytes in front of the NUL. *)
Definition digit_at (s : list Z) : bool := isdigit (default 0 (head s)).

Definition read_frac (s : list Z) : option (bool * list Z) :=
  match s with
  | c :: f => if c =? 46 then (if digit_at f then Some (true, drop_while isdigit f) else None)
              else Some (false, s)
  | [] => Some (false, s)
  end.

Definition read_exp (s : list Z) : option (bool * list Z) :=
  match s with
  | c :: f => if (c =? 101) || (c =? 69) then
                let g := text_unsigned f in
                if digit_at g then Some (true, drop_while isdigit g) else None
              else Some (false, s)
  | [] => Some (false, s)
  end.

Definition read_numeral (s : list Z) : bool * option bool :=
  if negb (digit_at (text_unsigned s)) then (false, None) else
  match read_frac (text_rest s) with
  | None => (false, Some false)
  | Some (r1, s) =>
      match read_exp s with
      | None => (false, Some r1)
      | Some (r2, s) => (bool_decide (s = []), Some (r1 || r2))
      end
  end.

Lemma digit_part_take s : digit_at s = true -> digit_part (take_while isdigit s).
Proof.
  intros H. split; [|apply take_while_all].
  destruct s as [|c s]; [done|]. unfold digit_at in H. simpl in *. by rewrite H.
Qed.

Lemma digit_part_at ds s : digit_part ds -> digit_at (ds ++ s) = true.
Proof. intros [Hn Hd]. by destruct Hd. Qed.

Lemma strip_sign_deref s rest c1 c2 :
  (c1 = 45 /\ c2 = 43) \/ (c1 = 43 /\ c2 = 45) ->
  (let c := default 0 (head s) in
   if (c =? c1) || (c =? c2) then advance 1 (s ++ 0 :: rest) else s ++ 0 :: rest)
  = text_unsigned s ++ 0 :: rest.
Proof.
  intros Hc. destruct s as [|c s]; [by destruct Hc as [[-> ->]|[-> ->]]|].
  simpl. destruct Hc as [[-> ->]|[-> ->]]; [|rewrite orb_comm]; by case_match.
Qed.

Lemma text_unsigned_length s : (length (text_unsigned s) <= length s)%nat.
Proof. destruct s; simpl; [lia|]. case_match; simpl; lia. Qed.

Lemma skip_digits_tail fuel s rest :
  (length s < fuel)%nat -> digit_at s = true ->
  skip_digits fuel 1 (advance 1 (s ++ 0 :: rest)) = Ret (drop_while isdigit s ++ 0 :: rest).
Proof.
  intros Hf Hd. destruct s as [|c s]; [done|]. unfold digit_at in Hd. simpl in Hd.
  cbn [advance skipn app drop_while]. rewrite Hd. apply skip_digits_spec. simpl in Hf. lia.
Qed.

Lemma isnumber_frac_run fuel s rest r :
  (length s < fuel)%nat -> no_nul s ->
  exists z, isnumber_frac fuel 1 (s ++ 0 :: rest) r
    = match read_frac s with
      | None => Ret (z, r, false)
      | Some (b, s') => Ret (s' ++ 0 :: rest, if b then Some true else r, true)
      end.
Proof.
  intros Hf Hs. unfold isnumber_frac. rewrite deref_str, bind_ret_l.
  destruct s as [|c s]; [by exists []|]. cbn [head from_option id]. simpl read_frac.
  destruct (c =? 46); [|by exists []]. cbn [app advance skipn]; rewrite ?drop_0. rewrite deref_str, bind_ret_l.
  change (isdigit (default 0 (head s))) with (digit_at s).
  destruct (digit_at s); [|by eexists]. exists []. cbn [negb].
  rewrite skip_digits_spec, bind_ret_l by (simpl in Hf; lia). done.
Qed.

Lemma isnumber_exp_run fuel s rest r :
  (length s < fuel)%nat -> no_nul s ->
  exists z, isnumber_exp fuel 1 (s ++ 0 :: rest) r
    = match read_exp s with
      | None => Ret (z, r, false)
      | Some (b, s') => Ret (s' ++ 0 :: rest, if b then Some true else r, true)
      end.
Proof.
  intros Hf Hs. unfold isnumber_exp. rewrite deref_str, bind_ret_l.
  destruct s as [|c s]; [by exists []|]. cbn [head from_option id]. simpl read_exp.
  destruct ((c =? 101) || (c =? 69)); [|by exists []]. cbn [app advance skipn]; rewrite ?drop_0. cbv zeta.
  rewrite deref_str, bind_ret_l.
  pose proof (strip_sign_deref s rest 43 45) as Hss. cbv zeta in Hss.
  change (drop 1 (s ++ 0 :: rest)) with (advance 1 (s ++ 0 :: rest)).
  rewrite Hss by lia. clear Hss.
  pose proof (text_unsigned_length s) as Hlen. set (u := text_unsigned s) in *.
  rewrite deref_str, bind_ret_l.
  change (isdigit (default 0 (head u))) with (digit_at u).
  destruct (digit_at u); [|by eexists]. exists []. cbn [negb].
  rewrite skip_digits_spec, bind_ret_l by (simpl in Hf; lia). done.
Qed.

Lemma drop_while_no_nul P s : no_nul s -> no_nul (drop_while P s).
Proof. induction 1 as [|c s Hc Hs IH]; simpl; [constructor|]. case_match; [done|by constructor]. Qed.

Lemma text_unsigned_no_nul s : no_nul s -> no_nul (text_unsigned s).
Proof. destruct 1 as [|c s Hc Hs]; simpl; [constructor|]. case_match; [done|by constructor]. Qed.

Lemma read_frac_rest s b s' :
  no_nul s -> read_frac s = Some (b, s') -> (length s' <= length s)%nat /\ no_nul s'.
Proof.
  intros Hs. destruct Hs as [|c s Hc Hs]; simpl; [intros [= _ <-]; split; [done|constructor]|].
  destruct (c =? 46); [destruct (digit_at s); [|done]|]; intros [= _ <-].
  - pose proof (drop_while_length isdigit s). split; [lia|by apply drop_while_no_nul].
  - split; [simpl; lia|by constructor].
Qed.

Lemma read_exp_rest s b s' :
  no_nul s -> read_exp s = Some (b, s') -> (length s' <= length s)%nat /\ no_nul s'.
Proof.
  intros Hs. destruct Hs as [|c s Hc Hs]; simpl; [intros [= _ <-]; split; [done|constructor]|].
  destruct ((c =? 101) || (c =? 69)); [destruct (digit_at _); [|done]|]; intros [= _ <-].
  - pose proof (drop_while_length isdigit (text_unsigned s)).
    pose proof (text_unsigned_length s).
    split; [lia|by apply drop_while_no_nul, text_unsigned_no_nul].
  - split; [simpl; lia|by constructor].
Qed.

Lemma isnumber_run s rest :
  no_nul s -> sqlite3IsNumber (s ++ 0 :: rest) SQLITE_UTF8 = Ret (read_numeral s).
Proof.
  intros Hs. unfold sqlite3IsNumber, read_numeral, text_rest. cbv zeta.
  rewrite deref_str, bind_ret_l.
  pose proof (strip_sign_deref s rest 45 43) as Hss. cbv zeta in Hss. rewrite Hss by lia. clear Hss.
  pose proof (text_unsigned_length s) as Hlen.
  set (u := text_unsigned s) in *. rewrite deref_str, bind_ret_l.
  change (isdigit (default 0 (head u))) with (digit_at u).
  destruct (digit_at u) eqn:Hu; [|done]. simpl negb. cbv iota.
  rewrite skip_digits_tail, bind_ret_l by (done || (rewrite length_app; lia)).
  pose proof (text_unsigned_no_nul s Hs : no_nul u) as Hnu.
  pose proof (drop_while_length isdigit u) as Hd. pose proof (drop_while_no_nul isdigit u Hnu) as Hnd.
  set (d := drop_while isdigit u) in *. set (fuel := S (length (s ++ 0 :: rest))).
  assert (length s < fuel)%nat as Hf by (unfold fuel; rewrite length_app; lia).
  destruct (isnumber_frac_run fuel d rest (Some false)) as [z ->]; [lia|done|].
  destruct (read_frac d) as [[b1 s1]|] eqn:E1; [|done]. cbn [mbind res_bind negb].
  apply read_frac_rest in E1 as [Hl1 Hn1]; [|done].
  destruct (isnumber_exp_run fuel s1 rest (if b1 then Some true else Some false)) as [z' ->]; [lia|done|].
  destruct (read_exp s1) as [[b2 s2]|] eqn:E2; [|by destruct b1]. cbn [mbind res_bind negb].
  apply read_exp_rest in E2 as [Hl2 Hn2]; [|done].
  rewrite deref_str, bind_ret_l. do 2 f_equal; [|by destruct b1, b2].
  destruct Hn2; [done|]. by apply Z.eqb_neq.
Qed.

(** The recogniser accepts the grammar. *)
Definition head_not (P : Z -> bool) (s : list Z) : Prop :=
  match head s with Some c => P c = false | None => True end.

Lemma digits_then ds t :
  digit_part ds -> head_not isdigit t ->
  drop_while isdigit (ds ++ t) = t /\ digit_at (ds ++ t) = true.
Proof.
  intros Hd Ht. split; [|by apply digit_part_at]. by apply take_while_app; [apply Hd|].
Qed.

Lemma sign_digits sg ds t :
  sign_part sg -> digit_part ds -> text_unsigned (sg ++ ds ++ t) = ds ++ t.
Proof.
  intros Hs [Hn Hd]. destruct Hs as [->|[->| ->]]; [|done|done]. simpl.
  destruct Hd as [|c ds Hc _]; [done|]. simpl. unfold isdigit in Hc.
  destruct (Z.eqb_spec c 45), (Z.eqb_spec c 43); subst; done.
Qed.

Lemma exp_part_head ex : exp_part ex -> head_not isdigit ex /\ head_not (Z.eqb 46) ex.
Proof.
  intros [->|(e & sg & ds & -> & He & _)]; [done|]. by destruct He as [-> | ->].
Qed.

Lemma read_frac_complete fr ex :
  frac_part fr -> exp_part ex ->
  read_frac (fr ++ ex) = Some (negb (bool_decide (fr = [])), ex).
Proof.
  intros [->|(ds & -> & Hd)] [Hx Hy]%exp_part_head; simpl.
  - destruct ex as [|c ex]; [done|]. unfold head_not in Hy. cbn [head] in Hy. simpl.
    rewrite Z.eqb_sym in Hy. by rewrite Hy.
  - destruct (digits_then ds ex) as [-> ->]; done.
Qed.

Lemma read_exp_complete ex :
  exp_part ex -> read_exp ex = Some (negb (bool_decide (ex = [])), []).
Proof.
  intros [->|(e & sg & ds & -> & He & Hs & Hd)]; [done|]. simpl.
  rewrite <- (app_nil_r ds), sign_digits by done.
  destruct (digits_then ds []) as [-> ->]; [done..|].
  by destruct He as [-> | ->].
Qed.

Lemma frac_exp_head fr ex : frac_part fr -> exp_part ex -> head_not isdigit (fr ++ ex).
Proof. intros [->|(ds & -> & Hd)] He; [by apply exp_part_head|done]. Qed.

Lemma read_numeral_complete s b : is_numeral s b -> read_numeral s = (true, Some b).
Proof.
  destruct 1 as [sg ds fr ex Hs Hd Hf He]. unfold read_numeral, text_rest.
  rewrite sign_digits by done.
  destruct (digits_then ds (fr ++ ex)) as [-> ->]; [done|by apply frac_exp_head|]. cbn [negb].
  rewrite read_frac_complete, read_exp_complete by done.
  rewrite bool_decide_true by done. do 2 f_equal.
  destruct Hf as [->|(f & -> & _)]; [done|].
  by rewrite (bool_decide_false (46 :: f = [])), (bool_decide_false ((46 :: f) ++ ex = [])).
Qed.

(** What it accepts is in the grammar. *)
Lemma text_unsigned_split s :
  exists sg, sign_part sg /\ s = sg ++ text_unsigned s.
Proof.
  destruct s as [|c s]; [exists []; split; [by left|done]|]. simpl.
  destruct (Z.eqb_spec c 45) as [->|]; [exists [45]; split; [by right; right|done]|].
  destruct (Z.eqb_spec c 43) as [->|]; [exists [43]; split; [by right; left|done]|].
  exists []. split; [by left|done].
Qed.

Lemma read_frac_sound s b s' :
  read_frac s = Some (b, s') -> exists fr, frac_part fr /\ s = fr ++ s' /\ b = negb (bool_decide (fr = [])).
Proof.
  destruct s as [|c s]; simpl; [intros [= <- <-]; exists []; by split; [left|]|].
  destruct (Z.eqb_spec c 46) as [->|]; [|intros [= <- <-]; exists []; by split; [left|]].
  destruct (digit_at s) eqn:E; [|done]. intros [= <- <-].
  exists (46 :: take_while isdigit s). split; [|split; [|done]].
  - right. eexists. split; [done|]. by apply digit_part_take.
  - simpl. by rewrite take_drop_while.
Qed.

Lemma read_exp_sound s b s' :
  read_exp s = Some (b, s') -> exists ex, exp_part ex /\ s = ex ++ s' /\ b = negb (bool_decide (ex = [])).
Proof.
  destruct s as [|c s]; simpl; [intros [= <- <-]; exists []; by split; [left|]|].
  destruct ((c =? 101) || (c =? 69)) eqn:Ec; [|intros [= <- <-]; exists []; by split; [left|]].
  destruct (digit_at _) eqn:E; [|done]. intros [= <- <-].
  destruct (text_unsigned_split s) as (sg & Hsg & Hs).
  exists (c :: sg ++ take_while isdigit (text_unsigned s)). split; [|split; [|done]].
  - right. exists c, sg, (take_while isdigit (text_unsigned s)). split; [done|]. split; [lia|].
    split; [done|]. by apply digit_part_take.
  - simpl. rewrite <- app_assoc, take_drop_while. by f_equal.
Qed.

Lemma read_numeral_sound s r : read_numeral s = (true, r) -> exists b, is_numeral s b.
Proof.
  unfold read_numeral, text_rest. destruct (digit_at _) eqn:Ed; [|done]. cbn [negb].
  destruct (read_frac _) as [[b1 s1]|] eqn:E1; [|done].
  destruct (read_exp s1) as [[b2 s2]|] eqn:E2; [|done].
  intros [= Hs2%bool_decide_eq_true_1 _]. subst s2.
  apply read_frac_sound in E1 as (fr & Hf & Hs1 & _).
  apply read_exp_sound in E2 as (ex & He & Hs2 & _). rewrite app_nil_r in Hs2. subst s1.
  destruct (text_unsigned_split s) as (sg & Hsg & Hs).
  assert (s = sg ++ take_while isdigit (text_unsigned s) ++ fr ++ ex) as ->.
  { rewrite <- Hs1, take_drop_while. done. }
  eexists. constructor; try done. by apply digit_part_take.
Qed.

(** ** Integers read *)

Lemma s64_eq a b : a mod 2 ^ 64 = b mod 2 ^ 64 -> s64 a = s64 b.
Proof. intros H. unfold s64. by rewrite <- Zplus_mod_idemp_l, H, Zplus_mod_idemp_l. Qed.

Lemma s64_mod a : s64 a mod 2 ^ 64 = a mod 2 ^ 64.
Proof.
  unfold s64. rewrite Zminus_mod_idemp_l. f_equal. lia.
Qed.

Lemma s64_id z : - 2 ^ 63 <= z < 2 ^ 63 -> s64 z = z.
Proof. intros. unfold s64. rewrite Z.mod_small; lia. Qed.

(** A step of the accumulation, modulo 2^64. *)
Lemma s64_step V c : s64 (s64 (s64 (s64 V * 10) + c) - 48) = s64 (V * 10 + (c - 48)).
Proof.
  apply s64_eq. rewrite <- Zminus_mod_idemp_l, s64_mod, Zminus_mod_idemp_l.
  replace (s64 (s64 V * 10) + c - 48) with (s64 (s64 V * 10) + (c - 48)) by lia.
  rewrite <- Zplus_mod_idemp_l, s64_mod, <- Zmult_mod_idemp_l, s64_mod.
  by rewrite Zmult_mod_idemp_l, Zplus_mod_idemp_l.
Qed.

Definition digits (ds : list Z) : Prop := Forall (fun c => isdigit c = true) ds.

Lemma digit_range c : isdigit c = true -> 48 <= c <= 57.
Proof. unfold isdigit. lia. Qed.

Lemma digits_val_app a b : digits_val (a ++ b) = fold_left (fun v c => v * 10 + (c - 48)) b (digits_val a).
Proof. unfold digits_val. apply fold_left_app. Qed.

Lemma digits_val_snoc ds c : digits_val (ds ++ [c]) = digits_val ds * 10 + (c - 48).
Proof. by rewrite digits_val_app. Qed.

Lemma fold_digits_shift ds v :
  fold_left (fun v c => v * 10 + (c - 48)) ds v = v * 10 ^ zlen ds + digits_val ds.
Proof.
  induction ds as [|c ds IH] using rev_ind.
  - unfold digits_val. simpl. rewrite zlen_nil. lia.
  - rewrite fold_left_app. simpl. rewrite IH, digits_val_snoc, zlen_app, zlen_cons, zlen_nil.
    rewrite Z.pow_add_r by (lia || apply zlen_nonneg). lia.
Qed.

Lemma digits_val_cons c ds : digits_val (c :: ds) = (c - 48) * 10 ^ zlen ds + digits_val ds.
Proof. unfold digits_val at 1. simpl. rewrite fold_digits_shift. lia. Qed.

Lemma digits_val_bound ds : digits ds -> 0 <= digits_val ds < 10 ^ zlen ds.
Proof.
  induction 1 as [|c ds Hc%digit_range _ IH]; [done|].
  rewrite digits_val_cons, zlen_cons, Z.pow_add_r by (lia || apply zlen_nonneg). nia.
Qed.

Lemma digits_val_lead c ds :
  isdigit c = true -> c <> 48 -> digits ds -> 10 ^ zlen ds <= digits_val (c :: ds).
Proof.
  intros Hc%digit_range Hn Hd%digits_val_bound. rewrite digits_val_cons. nia.
Qed.

Lemma digits_val_zeros ds : digits_val (drop_while (Z.eqb 48) ds) = digits_val ds.
Proof.
  induction ds as [|c ds IH]; [done|]. cbn [drop_while]. destruct (Z.eqb_spec 48 c) as [<-|]; [|done].
  rewrite IH, digits_val_cons. lia.
Qed.

Lemma schar_digit c : is_byte c -> ((48 <=? schar c) && (schar c <=? 57)) = isdigit c.
Proof.
  intros Hc. byte_check (fun c => Bool.eqb ((48 <=? schar c) && (schar c <=? 57)) (isdigit c)) c.
  by apply Bool.eqb_prop.
Qed.

Lemma schar_zero c : is_byte c -> (schar c =? 0) = (c =? 0).
Proof.
  intros Hc. byte_check (fun c => Bool.eqb (schar c =? 0) (c =? 0)) c. by apply Bool.eqb_prop.
Qed.

Lemma isdigit_schar c : isdigit c = true -> schar c = c.
Proof. intros Hc%digit_range. unfold schar. by rewrite (proj2 (Z.ltb_lt c 128)) by lia. Qed.

Lemma atoi_loop_spec s rest i V :
  bytes_ok s ->
  atoi_loop (s ++ 0 :: rest) i (s64 V)
  = Ret (schar (default 0 (head (drop_while isdigit s))), i + zlen (take_while isdigit s),
         s64 (fold_left (fun v c => v * 10 + (c - 48)) (take_while isdigit s) V)).
Proof.
  intros Hb. revert i V. induction Hb as [|c s Hc _ IH]; intros i V.
  - simpl. do 3 f_equal. rewrite zlen_nil. lia.
  - cbn [app atoi_loop drop_while take_while]. rewrite schar_digit by done.
    destruct (isdigit c) eqn:E.
    + rewrite (isdigit_schar c), s64_step, IH by done. cbn [fold_left].
      do 3 f_equal. rewrite zlen_cons. lia.
    + simpl. do 3 f_equal. rewrite zlen_nil. lia.
Qed.

Lemma count_digits_spec s rest i :
  bytes_ok s -> count_digits (s ++ 0 :: rest) i = Ret (i + zlen (take_while isdigit s)).
Proof.
  intros Hb. revert i. induction Hb as [|c s Hc _ IH]; intros i.
  - simpl. rewrite zlen_nil. f_equal. lia.
  - cbn [app count_digits take_while]. rewrite schar_digit by done.
    destruct (isdigit c) eqn:E; [rewrite IH, zlen_cons | rewrite zlen_nil]; f_equal; lia.
Qed.

Lemma skip_space_spec s rest :
  skip_space (s ++ 0 :: rest) = Ret (drop_while isspace s ++ 0 :: rest).
Proof. induction s as [|c s IH]; [done|]. simpl. by destruct (isspace c). Qed.

Lemma skip_zeros_spec s rest :
  skip_zeros (s ++ 0 :: rest) = Ret (drop_while (Z.eqb 48) s ++ 0 :: rest).
Proof.
  induction s as [|c s IH]; [done|]. cbn [app skip_zeros drop_while]. rewrite Z.eqb_sym.
  by destruct (48 =? c).
Qed.

Lemma memcmp_digits a b ta tb :
  digits a -> digits b -> length a = length b ->
  memcmp (length a) (a ++ ta) (b ++ tb) = Ret (Z.sgn (digits_val a - digits_val b)).
Proof.
  intros Ha. revert b. induction Ha as [|x a Hx Ha IH]; intros b Hb Hl.
  - destruct b; [done|discriminate Hl].
  - destruct Hb as [|y b Hy Hb]; [discriminate Hl|]. injection Hl as Hl. simpl.
    rewrite !digits_val_cons. replace (zlen b) with (zlen a) by size.
    pose proof (digits_val_bound a Ha). pose proof (digits_val_bound b Hb) as Hbb.
    replace (zlen b) with (zlen a) in Hbb by size.
    destruct (Z.eqb_spec x y) as [->|Hne].
    + rewrite IH by done. do 2 f_equal. lia.
    + f_equal. apply digit_range in Hx, Hy. destruct (Z.ltb_spec x y).
      * symmetry. apply Z.sgn_neg. nia.
      * symmetry. apply Z.sgn_pos. nia.
Qed.

Lemma compare2pow63_spec ds t (neg : bool) :
  digits ds -> zlen ds = 19 ->
  exists d, compare2pow63 (ds ++ t) = Ret d
    /\ (d <? b2z neg) = (digits_val ds <? 2 ^ 63 + b2z neg).
Proof.
  intros Hd Hl. assert (exists a c, ds = a ++ [c] /\ length a = 18%nat) as (a & c & -> & Hla).
  { destruct ds as [|c a _] using rev_ind; [by rewrite zlen_nil in Hl|].
    exists a, c. split; [done|]. revert Hl. size. }
  apply Forall_app in Hd as [Ha Hc]. inversion_clear Hc as [|? ? Hc' _].
  unfold compare2pow63. rewrite <- app_assoc.
  pose proof (memcmp_digits a pow63_digits ([c] ++ t) [] Ha) as Hm.
  rewrite app_nil_r, Hla in Hm. rewrite Hm; [|repeat constructor|done].
  rewrite bind_ret_l, digits_val_snoc. change (digits_val pow63_digits) with 922337203685477580.
  set (V := digits_val a). pose proof (digit_range c Hc').
  destruct (Z.eqb_spec (Z.sgn (V - 922337203685477580)) 0) as [Hs|Hs].
  - replace (rd (a ++ [c] ++ t) 18) with (rd (a ++ c :: t) (zlen a)) by (f_equal; size).
    rewrite rd_middle, bind_of_opt.
    rewrite isdigit_schar by done. eexists. split; [done|].
    apply Z.sgn_null_iff in Hs. destruct neg; unfold b2z; lia.
  - eexists. split; [done|]. destruct neg; unfold b2z; lia.
Qed.

(** The last step of both 64-bit recognisers. *)
Lemma fits_check ds t (neg : bool) :
  digits ds -> head ds <> Some 48 ->
  (if zlen ds <? 19 then Ret true
   else if 19 <? zlen ds then Ret false
   else d ← compare2pow63 (ds ++ t); Ret (d <? b2z neg))
  = Ret (digits_val ds <? 2 ^ 63 + b2z neg).
Proof.
  intros Hd Hh. pose proof (digits_val_bound ds Hd) as Hb.
  assert (0 <= b2z neg <= 1) by (destruct neg; unfold b2z; lia).
  destruct (Z.ltb_spec (zlen ds) 19) as [Hl|Hl].
  - pose proof (Z.pow_le_mono_r 10 (zlen ds) 18). f_equal. lia.
  - destruct (Z.ltb_spec 19 (zlen ds)) as [Hg|Hg].
    + destruct ds as [|c ds]; [by rewrite zlen_nil in Hg|].
      inversion_clear Hd as [|? ? Hc Hd'].
      pose proof (digits_val_lead c ds Hc ltac:(by intros ->) Hd') as Hlead.
      rewrite zlen_cons in Hg. pose proof (Z.pow_le_mono_r 10 19 (zlen ds)). f_equal. lia.
    + destruct (compare2pow63_spec ds t neg Hd) as (d & -> & <-); [lia|]. done.
Qed.

Lemma take_skip_zeros u :
  take_while isdigit (drop_while (Z.eqb 48) u) = drop_while (Z.eqb 48) (take_while isdigit u).
Proof.
  induction u as [|c u IH]; [done|]. cbn [drop_while take_while].
  destruct (Z.eqb_spec 48 c) as [<-|Hn]; [by cbn|]. cbn [take_while].
  destruct (isdigit c); [|done]. cbn [drop_while]. by rewrite (proj2 (Z.eqb_neq 48 c)).
Qed.

Lemma drop_skip_zeros u :
  drop_while isdigit (drop_while (Z.eqb 48) u) = drop_while isdigit u.
Proof.
  induction u as [|c u IH]; [done|]. cbn [drop_while].
  destruct (Z.eqb_spec 48 c) as [<-|Hn]; [by cbn|]. done.
Qed.

Lemma drop_zeros_head u : head (drop_while (Z.eqb 48) u) <> Some 48.
Proof.
  pose proof (drop_while_head (Z.eqb 48) u) as H. destruct (head _) as [c|]; [|done].
  intros [= ->]. by rewrite Z.eqb_refl in H.
Qed.

(** The sign: what the three readers do with it. *)
Lemma sign_read s rest :
  (let c := default 0 (head s) in
   if c =? 45 then advance 1 (s ++ 0 :: rest)
   else if c =? 43 then advance 1 (s ++ 0 :: rest) else s ++ 0 :: rest)
  = text_unsigned s ++ 0 :: rest.
Proof.
  destruct s as [|c s]; [done|]. simpl. by destruct (c =? 45), (c =? 43).
Qed.

Lemma text_neg_eq s : text_neg s = (default 0 (head s) =? 45).
Proof.
  unfold text_neg. destruct s as [|c s]; [done|]. simpl.
  case_bool_decide as H; symmetry; [apply Z.eqb_eq | apply Z.eqb_neq]; congruence.
Qed.

Lemma text_unsigned_bytes s : bytes_ok s -> bytes_ok (text_unsigned s).
Proof. destruct 1 as [|c s Hc Hs]; simpl; [constructor|]. case_match; [done|by constructor]. Qed.

Lemma drop_while_bytes P s : bytes_ok s -> bytes_ok (drop_while P s).
Proof. induction 1 as [|c s Hc Hs IH]; simpl; [constructor|]. case_match; [done|by constructor]. Qed.

(** The digits of [s] without leading zeros. *)
Definition text_significant (s : list Z) : list Z := drop_while (Z.eqb 48) (text_digits s).

Lemma text_significant_digits s : digits (text_significant s).
Proof.
  unfold text_significant, text_digits.
  pose proof (take_while_all isdigit (text_unsigned s)) as H. induction H as [|c l Hc Hl IH]; [constructor|].
  cbn [drop_while]. case_match; [done|by constructor].
Qed.

Lemma text_significant_val s : digits_val (text_significant s) = digits_val (text_digits s).
Proof. apply digits_val_zeros. Qed.

Lemma text_significant_nil s : (zlen (text_significant s) =? 0) = (digits_val (text_digits s) =? 0).
Proof.
  rewrite <- text_significant_val. pose proof (text_significant_digits s) as Hd.
  pose proof (drop_zeros_head (text_digits s)) as Hh. fold (text_significant s) in Hh.
  destruct (text_significant s) as [|c l]; [done|]. inversion_clear Hd as [|? ? Hc Hd'].
  pose proof (digits_val_lead c l Hc ltac:(by intros ->) Hd') as H.
  pose proof (Z.pow_pos_nonneg 10 (zlen l)). pose proof (zlen_nonneg l). rewrite zlen_cons. lia.
Qed.

Lemma text_int_range s :
  (- 2 ^ 63 <= text_int s < 2 ^ 63) <-> digits_val (text_digits s) < 2 ^ 63 + b2z (text_neg s).
Proof.
  unfold text_int. pose proof (digits_val_bound (text_digits s)) as Hb.
  specialize (Hb (take_while_all isdigit (text_unsigned s))).
  destruct (text_neg s); unfold b2z; lia.
Qed.

(** The state after sign and zeros. *)
Lemma significant_split s :
  drop_while (Z.eqb 48) (text_unsigned s) = text_significant s ++ text_rest s.
Proof.
  rewrite <- (take_drop_while isdigit (drop_while _ _)).
  by rewrite take_skip_zeros, drop_skip_zeros.
Qed.

Lemma head_zero s : no_nul s -> (default 0 (head s) =? 0) = bool_decide (s = []).
Proof. destruct 1 as [|c s Hc Hs]; [done|]. rewrite bool_decide_false by done. by apply Z.eqb_neq. Qed.

Lemma head_byte s : bytes_ok s -> is_byte (default 0 (head s)).
Proof. destruct 1; [unfold is_byte; simpl; lia | done]. Qed.

Definition b_atoi64 (s : list Z) : bool :=
  bool_decide (text_rest s = []) && negb (text_int s =? 0)
  && ((- 2 ^ 63 <=? text_int s) && (text_int s <? 2 ^ 63)).

Lemma atoi64_run s rest :
  bytes_ok s -> no_nul s ->
  let s1 := drop_while isspace s in
  sqlite3Atoi64 (s ++ 0 :: rest) = Ret (b_atoi64 s1, s64 (text_int s1)).
Proof.
  intros Hb Hn s1. unfold sqlite3Atoi64. rewrite skip_space_spec, bind_ret_l. fold s1.
  pose proof (drop_while_bytes isspace s Hb : bytes_ok s1) as Hb1.
  pose proof (drop_while_no_nul isspace s Hn : no_nul s1) as Hn1.
  rewrite deref_str, bind_ret_l. cbv zeta.
  pose proof (sign_read s1 rest) as Hs. cbv zeta in Hs. rewrite Hs. clear Hs.
  rewrite skip_zeros_spec, bind_ret_l, significant_split, <- text_neg_eq.
  assert (bytes_ok (text_significant s1 ++ text_rest s1)) as Hb2.
  { rewrite <- significant_split. by apply drop_while_bytes, text_unsigned_bytes. }
  pose proof (atoi_loop_spec _ rest 0 0 Hb2) as Ha. change (s64 0) with 0 in Ha.
  rewrite Ha, bind_ret_l. clear Ha.
  pose proof (drop_while_head isdigit (text_unsigned s1)) as Hh. fold (text_rest s1) in Hh.
  pose proof (text_significant_digits s1) as Hsd.
  destruct (take_while_app isdigit (text_significant s1) (text_rest s1) Hsd Hh) as [-> ->].
  assert (no_nul (text_rest s1)) as Hnr by by apply drop_while_no_nul, text_unsigned_no_nul.
  assert (bytes_ok (text_rest s1)) as Hbr by by apply Forall_app in Hb2 as [_ ?].
  rewrite schar_zero, head_zero, Z.add_0_l, text_significant_nil by (done || by apply head_byte).
  change (fold_left _ (text_significant s1) 0) with (digits_val (text_significant s1)).
  rewrite text_significant_val.
  assert ((if text_neg s1 then s64 (- s64 (digits_val (text_digits s1))) else s64 (digits_val (text_digits s1)))
          = s64 (text_int s1)) as ->.
  { unfold text_int. destruct (text_neg s1); [|f_equal; lia]. apply s64_eq.
    rewrite <- Z.sub_0_l, <- Zminus_mod_idemp_r, s64_mod, Zminus_mod_idemp_r. done. }
  pose proof (fits_check (text_significant s1) (text_rest s1 ++ 0 :: rest) (text_neg s1) Hsd
                (drop_zeros_head _)) as Hf.
  rewrite text_significant_val in Hf. rewrite <- app_assoc.
  assert ((digits_val (text_digits s1) <? 2 ^ 63 + b2z (text_neg s1))
    = ((- 2 ^ 63 <=? text_int s1) && (text_int s1 <? 2 ^ 63))) as Hr.
  { pose proof (text_int_range s1). lia. }
  rewrite Hr in Hf. unfold b_atoi64.
  assert ((text_int s1 =? 0) = (digits_val (text_digits s1) =? 0)) as ->.
  { unfold text_int. destruct (text_neg s1); lia. }
  rewrite <- text_significant_nil.
  destruct (bool_decide (text_rest s1 = [])); [|done].
  destruct (zlen (text_significant s1) =? 0); [done|]. cbn [negb orb andb].
  destruct (Z.ltb_spec (zlen (text_significant s1)) 19) as [Hl|Hl].
  - rewrite (proj2 (Z.ltb_ge 19 _)) by lia. by injection Hf as <-.
  - destruct (19 <? zlen (text_significant s1)); [by injection Hf as <-|].
    destruct (compare2pow63 _); try discriminate Hf. cbn in Hf. injection Hf as <-. done.
Qed.

(** After the sign, for the readers that do not skip white space. *)
Lemma sign_zeros_run {A} s rest (k : bool -> list Z -> res A) :
  (c ← deref (s ++ 0 :: rest);
   let neg := c =? 45 in
   let zNum := if neg then advance 1 (s ++ 0 :: rest)
               else if c =? 43 then advance 1 (s ++ 0 :: rest) else s ++ 0 :: rest in
   zNum ← skip_zeros zNum; k neg zNum)
  = k (text_neg s) (text_significant s ++ text_rest s ++ 0 :: rest).
Proof.
  rewrite deref_str, bind_ret_l. cbv zeta.
  pose proof (sign_read s rest) as Hs. cbv zeta in Hs. rewrite Hs. clear Hs.
  by rewrite skip_zeros_spec, bind_ret_l, significant_split, <- text_neg_eq, <- app_assoc.
Qed.

Lemma significant_bytes s : bytes_ok s -> bytes_ok (text_significant s ++ text_rest s).
Proof. intros H. rewrite <- significant_split. by apply drop_while_bytes, text_unsigned_bytes. Qed.

Lemma significant_take s :
  take_while isdigit (text_significant s ++ text_rest s) = text_significant s.
Proof.
  apply take_while_app; [apply text_significant_digits|].
  apply (drop_while_head isdigit (text_unsigned s)).
Qed.

Lemma fits64_run s rest negFlag :
  bytes_ok s ->
  sqlite3FitsIn64Bits (s ++ 0 :: rest) negFlag
  = Ret (let v := if negFlag then - text_int s else text_int s in
         (- 2 ^ 63 <=? v) && (v <? 2 ^ 63)).
Proof.
  intros Hb.
  etransitivity; [exact (sign_zeros_run s rest (fun neg zNum =>
    let neg := if negFlag then negb neg else neg in
    i ← count_digits zNum 0;
    if i <? 19 then Ret true else if 19 <? i then Ret false
    else d ← compare2pow63 zNum; Ret (d <? b2z neg)))|]. cbv zeta.
  rewrite (app_assoc (text_significant s)).
  rewrite count_digits_spec, significant_take, bind_ret_l, Z.add_0_l by by apply significant_bytes.
  rewrite <- (app_assoc (text_significant s)).
  rewrite fits_check by (apply text_significant_digits || apply drop_zeros_head).
  rewrite text_significant_val. f_equal. unfold text_int.
  pose proof (digits_val_bound (text_digits s) (take_while_all isdigit (text_unsigned s))).
  destruct (text_neg s), negFlag; unfold b2z; simpl negb; cbv iota; lia.
Qed.

Lemma getint_loop_spec ds t i v :
  digits ds -> head_not isdigit t -> is_byte (default 0 (head t)) -> t <> [] -> 0 <= i <= 11 -> 0 <= v < 10 ^ i ->
  exists v', getint_loop (ds ++ t) i v = Ret (Z.min 11 (i + zlen ds), v')
    /\ (i + zlen ds <= 10 -> v' = fold_left (fun v c => v * 10 + (c - 48)) ds v).
Proof.
  intros Hd Ht Hb Hne. revert i v. induction Hd as [|c ds Hc _ IH]; intros i v Hi Hv.
  - destruct t as [|c t]; [done|]. rewrite zlen_nil, Z.add_0_r. exists v. split; [|done].
    cbn [app getint_loop]. destruct (Z.ltb_spec i 11); [|by rewrite Z.min_l by lia; do 2 f_equal; lia].
    rewrite Z.min_r by lia. pose proof (schar_digit c Hb) as Hs. unfold head_not in Ht.
    cbn [head] in Ht. rewrite Ht in Hs.
    by replace ((0 <=? schar c - 48) && (schar c - 48 <=? 9)) with false by lia.
  - cbn [app getint_loop]. rewrite zlen_cons. pose proof (zlen_nonneg ds).
    destruct (Z.ltb_spec i 11).
    + pose proof (digit_range c Hc). rewrite (isdigit_schar c Hc).
      replace ((0 <=? c - 48) && (c - 48 <=? 9)) with true by lia.
      assert (10 ^ i <= 10 ^ 10) by (apply Z.pow_le_mono_r; lia).
      rewrite (s64_id (v * 10)), (s64_id (v * 10 + (c - 48))) by lia.
      destruct (IH (i + 1) (v * 10 + (c - 48))) as (v' & -> & Hv'); [lia| |].
      { rewrite Z.pow_add_r by lia. lia. }
      exists v'. split; [do 2 f_equal; lia|]. intros. apply Hv'. lia.
    + exists v. split; [|lia]. rewrite Z.min_l by lia. do 2 f_equal. lia.
Qed.

Lemma getint32_run s rest :
  bytes_ok s ->
  sqlite3GetInt32 (s ++ 0 :: rest)
  = Ret (if (- 2 ^ 31 <=? text_int s) && (text_int s <? 2 ^ 31) then Some (text_int s) else None).
Proof.
  intros Hb.
  etransitivity; [exact (sign_zeros_run s rest (fun neg zNum =>
    '(i, v) ← getint_loop zNum 0 0;
    if 10 <? i then Ret None
    else if 2147483647 <? s64 (v - b2z neg) then Ret None
    else Ret (Some (s32 (if neg then s64 (- v) else v)))))|]. cbv beta.
  assert (head_not isdigit (text_rest s ++ 0 :: rest)) as Hh.
  { pose proof (drop_while_head isdigit (text_unsigned s)) as Hh. fold (text_rest s) in Hh.
    unfold head_not. by destruct (text_rest s). }
  assert (is_byte (default 0 (head (text_rest s ++ 0 :: rest)))) as Hhb.
  { pose proof (head_byte _ (drop_while_bytes isdigit _ (text_unsigned_bytes s Hb))) as Hx.
    fold (text_rest s) in Hx. by destruct (text_rest s). }
  pose proof (text_significant_digits s) as Hd. pose proof (digits_val_bound _ Hd) as Hv.
  destruct (getint_loop_spec (text_significant s) (text_rest s ++ 0 :: rest) 0 0)
    as (v & -> & Hval); [done..|by destruct (text_rest s)|lia|lia|].
  rewrite bind_ret_l, Z.add_0_l in *. unfold text_int. rewrite <- text_significant_val.
  assert (0 <= b2z (text_neg s) <= 1) by (destruct (text_neg s); unfold b2z; lia).
  change (fold_left _ (text_significant s) 0) with (digits_val (text_significant s)) in Hval.
  destruct (Z.leb_spec (zlen (text_significant s)) 10) as [Hl|Hl].
  - rewrite Z.min_r, Hval in * by lia. rewrite (proj2 (Z.ltb_ge 10 _)) by lia.
    set (V := digits_val (text_significant s)) in *.
    assert (V < 10 ^ 10) by (pose proof (Z.pow_le_mono_r 10 (zlen (text_significant s)) 10); lia).
    rewrite (s64_id (V - _)) by lia.
    destruct (text_neg s); unfold b2z in *; cbv iota; rewrite ?(s64_id (- V)) by lia.
    + destruct (Z.ltb_spec 2147483647 (V - 1)); case_match; try lia; try done.
      rewrite s32_id by lia. do 2 f_equal; lia.
    + destruct (Z.ltb_spec 2147483647 (V - 0)); case_match; try lia; try done.
      rewrite s32_id by lia. do 2 f_equal; lia.
  - rewrite Z.min_l by lia. cbn.
    pose proof (drop_zeros_head (text_digits s) : head (text_significant s) <> Some 48) as Hz.
    destruct (text_significant s) as [|c ds]; [rewrite zlen_nil in Hl; lia|].
    inversion_clear Hd as [|? ? Hc Hd'].
    pose proof (digits_val_lead c ds Hc ltac:(by intros ->) Hd') as Hlead. rewrite zlen_cons in Hl.
    assert (10 ^ 10 <= 10 ^ zlen ds) by (apply Z.pow_le_mono_r; lia).
    destruct (text_neg s); case_match; lia || done.
Qed.

(** ** Quotes removed *)

Lemma dequote_run fuel q s t a m :
  no_nul s -> q <> 0 -> m <> [] -> head t <> Some q -> t <> [] ->
  (length (double_quote q s) < fuel)%nat ->
  exists tail,
    dequote_loop fuel q (zlen (a ++ m)) (zlen a) (a ++ m ++ double_quote q s ++ q :: t)
    = Ret (a ++ s ++ 0 :: tail)
    /\ zlen (a ++ m ++ double_quote q s ++ q :: t) = zlen (a ++ s ++ 0 :: tail).
Proof.
  intros Hs Hq. revert fuel a m. induction Hs as [|c s Hc _ IH]; intros fuel a m Hm Ht Hne Hf;
    (destruct fuel as [|fuel]; [simpl in Hf; lia|]); cbn [dequote_loop];
    destruct m as [|x m]; try done; rewrite app_assoc.
  - cbn [double_quote mbind list_bind app]. rewrite rd_middle, bind_of_opt.
    rewrite (proj2 (Z.eqb_neq q 0)), Z.eqb_refl by done.
    destruct t as [|y t]; [done|]. rewrite (rd_app_r _ (q :: y :: t) 1) by lia.
    change (rd (q :: y :: t) 1) with (Some y). rewrite bind_of_opt.
    rewrite (proj2 (Z.eqb_neq y q)) by (simpl in Ht; congruence).
    rewrite <- app_assoc. cbn [app]. rewrite wr_middle. eexists. split; [done|]. size.
  - destruct (Z.eqb_spec c q) as [->|Hcq].
    + replace (double_quote q (q :: s)) with (q :: q :: double_quote q s) in *
        by (unfold double_quote; cbn; by rewrite Z.eqb_refl).
      cbn [app]. rewrite rd_middle, bind_of_opt, (proj2 (Z.eqb_neq q 0)), Z.eqb_refl by done.
      rewrite (rd_app_r _ _ 1) by lia.
      change (rd (q :: q :: ?l) 1) with (Some q). rewrite bind_of_opt, Z.eqb_refl.
      rewrite <- app_assoc. cbn [app]. rewrite wr_middle, bind_of_opt.
      destruct (IH fuel (a ++ [q]) (m ++ [q; q])) as (tl & Hr & Hl); [by destruct m|done|done|simpl in Hf; lia|].
      exists tl. rewrite <- !app_assoc in Hr, Hl. rewrite <- ?app_assoc in Hr. cbn [app] in Hr, Hl. split.
      * rewrite <- Hr. f_equal; size.
      * revert Hl. size.
    + replace (double_quote q (c :: s)) with (c :: double_quote q s) in *
        by (unfold double_quote; cbn; by rewrite (proj2 (Z.eqb_neq c q))).
      cbn [app]. rewrite rd_middle, bind_of_opt, (proj2 (Z.eqb_neq c 0)), (proj2 (Z.eqb_neq c q)) by done.
      rewrite <- app_assoc. cbn [app]. rewrite wr_middle, bind_of_opt.
      destruct (IH fuel (a ++ [c]) (m ++ [c])) as (tl & Hr & Hl); [by destruct m|done|done|simpl in Hf; lia|].
      exists tl. rewrite <- !app_assoc in Hr, Hl. rewrite <- ?app_assoc in Hr. cbn [app] in Hr, Hl. split.
      * rewrite <- Hr. f_equal; size.
      * revert Hl. size.
Qed.

(** ** Hexadecimal literals *)

Lemma xdigit_byte c : isxdigit c = true -> is_byte c.
Proof. unfold isxdigit, isdigit, is_byte. lia. Qed.

Lemma hexToInt_spec c :
  isxdigit c = true -> hexToInt (schar c) = Ret (xdigit_val c) /\ 0 <= xdigit_val c < 16.
Proof.
  intros Hx. pose proof (xdigit_byte c Hx) as Hc.
  byte_check (fun c => negb (isxdigit c) || (match hexToInt (schar c) with
    | Ret v => v =? xdigit_val c | _ => false end) && (0 <=? xdigit_val c) && (xdigit_val c <? 16)) c.
  rewrite Hx in H. destruct (hexToInt (schar c)); cbn [negb orb andb] in H; [|lia..].
  split; [f_equal|]; lia.
Qed.

(** Two digits at a time. *)
Lemma hextoblob_run fuel k s rest z a m :
  Forall (fun c => isxdigit c = true) s -> length s = (2 * k)%nat -> (k < fuel)%nat ->
  zlen z = 2 * zlen a -> zlen m = Z.of_nat k + 1 ->
  hextoblob_loop fuel (z ++ s ++ rest) (zlen z + zlen s - 1) (zlen z) (a ++ m)
  = Ret (a ++ hex_pairs s ++ [0]).
Proof.
  revert fuel s z a m. induction k as [|k IH]; intros fuel s z a m Hs Hl Hf Hz Hm;
    (destruct fuel as [|fuel]; [lia|]); cbn [hextoblob_loop].
  - destruct s; [|discriminate Hl]. rewrite zlen_nil.
    rewrite (proj2 (Z.ltb_ge (zlen z) _)) by lia.
    destruct m as [|x [|y m]]; try (exfalso; revert Hm; size; simpl; lia).
    replace (zlen z / 2) with (zlen a) by (rewrite Hz, Z.mul_comm, Z.div_mul; lia).
    by rewrite wr_middle.
  - destruct s as [|c0 [|c1 s]]; try (simpl in Hl; lia).
    inversion_clear Hs as [|? ? H0 Hs']. inversion_clear Hs' as [|? ? H1 Hs].
    apply hexToInt_spec in H0 as [E0 R0]. apply hexToInt_spec in H1 as [E1 R1].
    rewrite !zlen_cons. pose proof (zlen_nonneg s).
    rewrite (proj2 (Z.ltb_lt (zlen z) _)) by lia. cbn [app].
    rewrite rd_middle, bind_of_opt, E0, bind_ret_l.
    rewrite (rd_app_r z _ 1) by lia. change (rd (c0 :: c1 :: ?l) 1) with (Some c1).
    rewrite bind_of_opt, E1, bind_ret_l.
    rewrite (lor_add_low _ _ 4) by lia. change (2 ^ 4) with 16. rewrite u8_id by (unfold is_byte; lia).
    replace (zlen z / 2) with (zlen a) by (rewrite Hz, Z.mul_comm, Z.div_mul; lia).
    destruct m as [|x m]; [exfalso; revert Hm; size|]. rewrite wr_middle, bind_of_opt.
    rewrite zlen_cons in Hm.
    specialize (IH fuel s (z ++ [c0; c1]) (a ++ [xdigit_val c0 * 16 + xdigit_val c1]) m).
    rewrite <- !app_assoc in IH. cbn [app] in IH. cbn [hex_pairs app].
    rewrite <- IH; [|done|simpl in Hl; lia|lia|size|lia]. f_equal; size.
Qed.

(** ** Properties *)

(** [sqlite3StrICmp] and [sqlite3StrNICmp] never read behind the
    terminators and order two strings, or their first [N] bytes, as the
    lexicographic order of the strings with upper case folded to lower case
    does: negative, zero and positive for less, equal and greater. *)
Lemma stricmp_order (s1 s2 r1 r2 : list Z) (N : Z)
    (Hb1 : bytes_ok s1) (Hb2 : bytes_ok s2) (Hn1 : no_nul s1) (Hn2 : no_nul s2)
    (HN : 0 <= N < 2 ^ 31) :
  (exists d, sqlite3StrICmp (s1 ++ 0 :: r1) (s2 ++ 0 :: r2) = Ret d
     /\ (d ?= 0) = lex_compare (tolower <$> s1) (tolower <$> s2)
     /\ (d = 0 <-> tolower <$> s1 = tolower <$> s2))
  /\ exists d, sqlite3StrNICmp (s1 ++ 0 :: r1) (s2 ++ 0 :: r2) N = Ret d
     /\ (d ?= 0) = lex_compare (tolower <$> take (Z.to_nat N) s1) (tolower <$> take (Z.to_nat N) s2)
     /\ (d = 0 <-> tolower <$> take (Z.to_nat N) s1 = tolower <$> take (Z.to_nat N) s2).
Proof.
  split.
  - destruct (stricmp_run s1 s2 r1 r2) as (d & Hd & Hc); [done..|]. exists d.
    by rewrite <- lex_compare_eq, <- Hc, Z.compare_eq_iff.
  - destruct (strnicmp_run (S (length (s1 ++ 0 :: r1))) N s1 s2 r1 r2) as (d & Hd & Hc);
      [done..|size|lia|lia|]. exists d.
    by rewrite <- lex_compare_eq, <- Hc, Z.compare_eq_iff.
Qed.

Lemma stricmp_order_witness :
  (exists d, sqlite3StrICmp ([65; 98] ++ 0 :: [7]) ([97; 66; 67] ++ 0 :: []) = Ret d
     /\ (d ?= 0) = Lt /\ (d = 0 <-> [97; 98] = [97; 98; 99]))
  /\ exists d, sqlite3StrNICmp ([65; 98] ++ 0 :: [7]) ([97; 66; 67] ++ 0 :: []) 2 = Ret d
     /\ (d ?= 0) = Eq /\ (d = 0 <-> [97; 98] = [97; 98]).
Proof.
  apply (stricmp_order [65; 98] [97; 66; 67] [7] [] 2); repeat constructor; lia.
Defined.

(** [sqlite3IsNumber] accepts exactly the decimal numerals of SQL
    (optional sign, digits, optional fraction, optional exponent), for every
    NUL-terminated string it returns without reading behind the terminator,
    and for a numeral it reports whether there is a fraction or an exponent. *)
Lemma isnumber_grammar (s rest : list Z) (Hs : no_nul s) :
  exists b r, sqlite3IsNumber (s ++ 0 :: rest) SQLITE_UTF8 = Ret (b, r)
    /\ (b = true <-> exists real, is_numeral s real)
    /\ forall real, is_numeral s real -> r = Some real.
Proof.
  rewrite isnumber_run by done. destruct (read_numeral s) as [b r] eqn:E.
  exists b, r. split; [done|]. split.
  - split; [intros ->; by apply read_numeral_sound in E|].
    intros [real Hr%read_numeral_complete]. congruence.
  - intros real Hr%read_numeral_complete. congruence.
Qed.

Lemma isnumber_grammar_witness :
  exists b r, sqlite3IsNumber ([45; 49; 46; 53; 101; 55] ++ 0 :: []) SQLITE_UTF8 = Ret (b, r)
    /\ (b = true <-> exists real, is_numeral [45; 49; 46; 53; 101; 55] real)
    /\ forall real, is_numeral [45; 49; 46; 53; 101; 55] real -> r = Some real.
Proof. apply (isnumber_grammar [45; 49; 46; 53; 101; 55] []). repeat constructor; lia. Defined.

(** C33: The three integer readers agree with the integer that the text stands
    for. [sqlite3Atoi64] skips white space and accepts exactly the non-zero
    integers of 64 signed bits that nothing follows, and stores the value
    modulo 2^64; zero is refused. [sqlite3FitsIn64Bits] accepts exactly the
    prefixes in that range (the lower bound included), and [sqlite3GetInt32]
    delivers exactly those of 32 signed bits. *)
Theorem integer_readers (s rest : list Z) (negFlag : bool) (Hb : bytes_ok s) (Hn : no_nul s) :
  (let s1 := drop_while isspace s in
   sqlite3Atoi64 (s ++ 0 :: rest)
   = Ret (bool_decide (text_rest s1 = []) && negb (text_int s1 =? 0)
          && ((- 2 ^ 63 <=? text_int s1) && (text_int s1 <? 2 ^ 63)), s64 (text_int s1)))
  /\ sqlite3FitsIn64Bits (s ++ 0 :: rest) negFlag
     = Ret (let v := if negFlag then - text_int s else text_int s in
            (- 2 ^ 63 <=? v) && (v <? 2 ^ 63))
  /\ sqlite3GetInt32 (s ++ 0 :: rest)
     = Ret (if (- 2 ^ 31 <=? text_int s) && (text_int s <? 2 ^ 31) then Some (text_int s) else None).
Proof.
  split; [by apply atoi64_run|]. split; [by apply fits64_run | by apply getint32_run].
Qed.

(** The text [-0012]. *)
Lemma integer_readers_witness :
  sqlite3Atoi64 [45; 48; 48; 49; 50; 0] = Ret (true, -12)
  /\ sqlite3FitsIn64Bits [45; 48; 48; 49; 50; 0] false = Ret true
  /\ sqlite3GetInt32 [45; 48; 48; 49; 50; 0] = Ret (Some (-12)).
Proof.
  apply (integer_readers [45; 48; 48; 49; 50] [] false); repeat constructor; lia.
Defined.

(** Removing the quotes of a quoted text, in which the quote is written
    twice, gives the text back in the same buffer, whatever follows the closing
    quote; other text is left alone. *)
Lemma dequote_quoted (c q : Z) (s t : list Z)
    (Hq : close_quote c = Some q) (Hs : no_nul s) (Ht : head t <> Some q) (Hne : t <> []) :
  exists tail, sqlite3Dequote (c :: double_quote q s ++ q :: t) = Ret (s ++ 0 :: tail)
    /\ zlen (c :: double_quote q s ++ q :: t) = zlen (s ++ 0 :: tail).
Proof.
  assert (q <> 0) as Hq0.
  { unfold close_quote in Hq. intros ->. repeat case_match; simplify_eq; lia. }
  unfold sqlite3Dequote. rewrite rd_0, bind_of_opt, Hq.
  apply (dequote_run _ q s t [] [c]); try done. simpl. rewrite length_app. lia.
Qed.

Lemma dequote_quoted_witness :
  exists tail, sqlite3Dequote (39 :: double_quote 39 [97; 39; 98] ++ 39 :: [0]) = Ret ([97; 39; 98] ++ 0 :: tail)
    /\ zlen (39 :: double_quote 39 [97; 39; 98] ++ 39 :: [0]) = zlen ([97; 39; 98] ++ 0 :: tail).
Proof. apply dequote_quoted; [reflexivity | repeat constructor; lia | discriminate..]. Defined.

Lemma hex_to_blob_run (s rest buf : list Z) (k : nat) :
  Forall (fun c => isxdigit c = true) s -> length s = (2 * k)%nat -> zlen buf = zlen s / 2 + 1 ->
  sqlite3HexToBlob (Some buf) (s ++ rest) (zlen s) = Ret (Some (hex_pairs s ++ [0])).
Proof.
  intros Hs Hl Hbuf. unfold sqlite3HexToBlob.
  assert (zlen s / 2 = Z.of_nat k) as Hk.
  { replace (zlen s) with (Z.of_nat k * 2) by size. by rewrite Z.div_mul. }
  pose proof (hextoblob_run (S (length (s ++ rest))) k s rest [] [] buf Hs Hl) as H.
  cbn [app] in H. change (zlen []) with 0 in H. rewrite Z.add_0_l in H.
  rewrite H; [done|size|done|lia].
Qed.

(** A hexadecimal literal of [2 k] digits becomes the [k] bytes that the
    digits stand for, with a terminator, inside of the allocated block; an
    allocation that fails gives no blob. *)
Lemma hex_to_blob (s rest buf : list Z) (k : nat)
    (Hs : Forall (fun c => isxdigit c = true) s) (Hl : length s = (2 * k)%nat)
    (Hbuf : zlen buf = zlen s / 2 + 1) :
  sqlite3HexToBlob (Some buf) (s ++ rest) (zlen s) = Ret (Some (hex_pairs s ++ [0]))
  /\ sqlite3HexToBlob None (s ++ rest) (zlen s) = Ret None.
Proof. split; [by apply (hex_to_blob_run s rest buf k)|done]. Qed.

Lemma hex_to_blob_witness :
  sqlite3HexToBlob (Some [9; 9; 9]) ([52; 97; 48; 70] ++ [39]) (zlen [52; 97; 48; 70])
  = Ret (Some [74; 15; 0])
  /\ sqlite3HexToBlob None ([52; 97; 48; 70] ++ [39]) (zlen [52; 97; 48; 70]) = Ret None.
Proof. apply (hex_to_blob [52; 97; 48; 70] [39] [9; 9; 9] 2); [repeat constructor | reflexivity..]. Defined.
