(* ===== verification/Bitvec.v ===== *)
(** * Sparse bitmap of page numbers

    Model of misc/sqlite/bitvec.c. A bitmap holds numbers between 1 and its
    size in 512 bytes whose last part is a union: a plain bitmap when the size
    allows it, else a hash table of up to half its cells, else pointers to
    bitmaps of a fraction of the range. The union is modelled as the view that
    was stored last, or as all zero, which is the same in every view; the
    widths depend on the size of a pointer. Recursion uses fuel; the fuel
    [bitvec_fuel] is shown to be enough for every size, but for the last 124 of
    a 32-bit system, for which the recursion does not end
    ([bitvec_divisor_wraps]). *)

From S2P Require Import Prelude.

Section layout.
Context (t : target).

Definition BITVEC_SZ : Z := 512.
Definition BITVEC_USIZE : Z := (BITVEC_SZ - 12) / ptr_bytes t * ptr_bytes t.
Definition BITVEC_NCHAR : Z := BITVEC_USIZE.
Definition BITVEC_NBIT : Z := BITVEC_NCHAR * 8.
Definition BITVEC_NINT : Z := BITVEC_USIZE / 4.
Definition BITVEC_MXHASH : Z := BITVEC_NINT / 2.
Definition BITVEC_NPTR : Z := BITVEC_USIZE / ptr_bytes t.
Definition BITVEC_HASH (X : Z) : Z := u32 (X * 37) mod BITVEC_NINT.
End layout.

Inductive Bitvec :=
| mkBitvec (iSize nSet iDivisor : Z) (u : bitvec_u)
with bitvec_u :=
| u_zero
| u_bitmap (aBitmap : list Z)
| u_hash (aHash : list Z)
| u_sub (apSub : list (option Bitvec)).

Definition iSize (p : Bitvec) : Z := let 'mkBitvec n _ _ _ := p in n.
Definition nSet (p : Bitvec) : Z := let 'mkBitvec _ s _ _ := p in s.
Definition iDivisor (p : Bitvec) : Z := let 'mkBitvec _ _ d _ := p in d.
Definition bv_u (p : Bitvec) : bitvec_u := let 'mkBitvec _ _ _ u := p in u.
Definition set_u (p : Bitvec) (u : bitvec_u) : Bitvec :=
  let 'mkBitvec n s d _ := p in mkBitvec n s d u.

Section bitvec.
Context (t : target).
Notation NCHAR := (BITVEC_NCHAR t).
Notation NBIT := (BITVEC_NBIT t).
Notation NINT := (BITVEC_NINT t).
Notation MXHASH := (BITVEC_MXHASH t).
Notation NPTR := (BITVEC_NPTR t).
Notation HASH := (BITVEC_HASH t).

(** The three views of the union. *)
Definition aBitmap (u : bitvec_u) : option (list Z) :=
  match u with
  | u_zero => Some (replicate (Z.to_nat NCHAR) 0)
  | u_bitmap l => Some l
  | _ => None
  end.
Definition aHash (u : bitvec_u) : option (list Z) :=
  match u with
  | u_zero => Some (replicate (Z.to_nat NINT) 0)
  | u_hash l => Some l
  | _ => None
  end.
Definition apSub (u : bitvec_u) : option (list (option Bitvec)) :=
  match u with
  | u_zero => Some (replicate (Z.to_nat NPTR) None)
  | u_sub l => Some l
  | _ => None
  end.

(** [o]: the answers of the allocator. *)
Definition sqlite3BitvecCreate (o : list bool) (n : Z) : option Bitvec * list bool :=
  let '(ok, o) := next_alloc o in
  ((if ok then Some (mkBitvec n 0 0 u_zero) else None), o).

(** The search of the hash table: the cell with [i], or the first empty one. *)
Fixpoint test_probe (fuel : nat) (l : list Z) (i h : Z) : res bool :=
  match fuel with
  | O => NoFuel
  | S fuel =>
      v ← of_opt (rd l h);
      if v =? 0 then Ret false
      else if v =? i then Ret true
      else let h := h + 1 in
           let h := if NINT <=? h then 0 else h in
           test_probe fuel l i h
  end.

Fixpoint sqlite3BitvecTest (fuel : nat) (p : option Bitvec) (i : Z) : res bool :=
  match fuel, p with
  | O, _ => NoFuel
  | S _, None => Ret false
  | S fuel, Some p =>
      if (iSize p <? i) || (i =? 0) then Ret false
      else if iSize p <=? NBIT then
        let i := i - 1 in
        l ← of_opt (aBitmap (bv_u p));
        b ← of_opt (rd l (i / 8));
        Ret (negb (Z.land b (Z.shiftl 1 (Z.land i 7)) =? 0))
      else if 0 <? iDivisor p then
        let bin := (i - 1) / iDivisor p in
        let i := (i - 1) mod iDivisor p + 1 in
        l ← of_opt (apSub (bv_u p));
        q ← of_opt (rd l bin);
        sqlite3BitvecTest fuel q i
      else
        l ← of_opt (aHash (bv_u p));
        test_probe (S (length l)) l i (HASH i)
  end.

(** [Some h]: the empty cell that ends the search; [None]: [i] is there. *)
Fixpoint set_probe (fuel : nat) (l : list Z) (i h : Z) : res (option Z) :=
  match fuel with
  | O => NoFuel
  | S fuel =>
      v ← of_opt (rd l h);
      if v =? 0 then Ret (Some h)
      else if v =? i then Ret None
      else let h := h + 1 in
           let h := if h =? NINT then 0 else h in
           set_probe fuel l i h
  end.

(** [for(j=0; j<BITVEC_NINT; j++){ if( aiValues[j] ) rc |= Set(p, aiValues[j]); }] *)
Fixpoint set_values (set : list bool -> Bitvec -> Z -> res (Z * Bitvec * list bool))
    (rc : Z) (o : list bool) (p : Bitvec) (aiValues : list Z) : res (Z * Bitvec * list bool) :=
  match aiValues with
  | [] => Ret (rc, p, o)
  | v :: vs =>
      if v =? 0 then set_values set rc o p vs
      else
        '(rc', p, o) ← set o p v;
        set_values set (Z.lor rc rc') o p vs
  end.

Fixpoint sqlite3BitvecSet (fuel : nat) (o : list bool) (p : Bitvec) (i : Z)
    : res (Z * Bitvec * list bool) :=
  match fuel with
  | O => NoFuel
  | S fuel =>
      c_assert (0 <? i);;
      c_assert (i <=? iSize p);;
      if iSize p <=? NBIT then
        let i := i - 1 in
        l ← of_opt (aBitmap (bv_u p));
        b ← of_opt (rd l (i / 8));
        l ← of_opt (wr l (i / 8) (u8 (Z.lor b (Z.shiftl 1 (Z.land i 7)))));
        Ret (SQLITE_OK, set_u p (u_bitmap l), o)
      else if negb (iDivisor p =? 0) then
        let bin := (i - 1) / iDivisor p in
        let i := (i - 1) mod iDivisor p + 1 in
        l ← of_opt (apSub (bv_u p));
        q ← of_opt (rd l bin);
        let '(q, o) := match q with
                       | Some q => (Some q, o)
                       | None => sqlite3BitvecCreate o (iDivisor p)
                       end in
        match q with
        | None => Ret (SQLITE_NOMEM, p, o)
        | Some q =>
            '(rc, q, o) ← sqlite3BitvecSet fuel o q i;
            l ← of_opt (wr l bin (Some q));
            Ret (rc, set_u p (u_sub l), o)
        end
      else
        l ← of_opt (aHash (bv_u p));
        r ← set_probe (S (length l)) l i (HASH i);
        match r with
        | None => Ret (SQLITE_OK, p, o)
        | Some h =>
            let n := u32 (nSet p + 1) in
            if MXHASH <=? n then
              let aiValues := l in
              let p := mkBitvec (iSize p) n
                         (u32 (size_t t (iSize p + NPTR - 1) / NPTR)) u_zero in
              '(rc, p, o) ← sqlite3BitvecSet fuel o p i;
              set_values (sqlite3BitvecSet fuel) rc o p aiValues
            else
              l ← of_opt (wr l h i);
              Ret (SQLITE_OK, mkBitvec (iSize p) n (iDivisor p) (u_hash l), o)
        end
  end.

(** [if( aiValues[j] && aiValues[j]!=i ) Set(p, aiValues[j])], the result
    of the call dropped. *)
Fixpoint reset_values (set : list bool -> Bitvec -> Z -> res (Z * Bitvec * list bool))
    (i : Z) (o : list bool) (p : Bitvec) (aiValues : list Z) : res (Bitvec * list bool) :=
  match aiValues with
  | [] => Ret (p, o)
  | v :: vs =>
      if negb (v =? 0) && negb (v =? i) then
        '(_, p, o) ← set o p v;
        reset_values set i o p vs
      else reset_values set i o p vs
  end.

Fixpoint sqlite3BitvecClear (fuel : nat) (o : list bool) (p : Bitvec) (i : Z)
    : res (Bitvec * list bool) :=
  match fuel with
  | O => NoFuel
  | S fuel =>
      c_assert (0 <? i);;
      if iSize p <=? NBIT then
        let i := i - 1 in
        l ← of_opt (aBitmap (bv_u p));
        b ← of_opt (rd l (i / 8));
        l ← of_opt (wr l (i / 8) (u8 (Z.land b (Z.lnot (Z.shiftl 1 (Z.land i 7))))));
        Ret (set_u p (u_bitmap l), o)
      else if negb (iDivisor p =? 0) then
        let bin := (i - 1) / iDivisor p in
        let i := (i - 1) mod iDivisor p + 1 in
        l ← of_opt (apSub (bv_u p));
        q ← of_opt (rd l bin);
        match q with
        | None => Ret (p, o)
        | Some q =>
            '(q, o) ← sqlite3BitvecClear fuel o q i;
            l ← of_opt (wr l bin (Some q));
            Ret (set_u p (u_sub l), o)
        end
      else
        l ← of_opt (aHash (bv_u p));
        let p := mkBitvec (iSize p) 0 (iDivisor p) (u_hash (replicate (length l) 0)) in
        reset_values (sqlite3BitvecSet fuel) i o p l
  end.

(** ** The set that a bitmap stands for *)

(** Bit [j] of a plain bitmap. *)
Definition bitmap_bit (l : list Z) (j : Z) : bool :=
  match rd l (j / 8) with Some b => Z.testbit b (j mod 8) | None => false end.

(** The [m]-th cell that the search for [i] looks at. *)
Definition slot (i m : Z) : Z := (HASH i + m) mod NINT.

Definition cell_used (l : list Z) (k : Z) : Prop := exists w, rd l k = Some w /\ w <> 0.

(** From the home cell of a value to its cell there is no empty cell. *)
Definition hash_inv (l : list Z) : Prop :=
  forall k v, rd l k = Some v -> v <> 0 ->
    exists m, 0 <= m < NINT /\ k = slot v m /\ forall m', 0 <= m' < m -> cell_used l (slot v m').

Definition used (l : list Z) : Z := zlen (filter (fun v => v <> 0) l).

Definition sub_set (D : Z) (s : Z -> bool) (bin i : Z) : bool :=
  (1 <=? i) && (i <=? D) && s (bin * D + i).

(** [bv_ok d n p s]: the bitmap [p] of size [n] has at most [d] levels of
    sub-bitmaps and contains the numbers of [s]. *)
Inductive bv_ok : nat -> Z -> Bitvec -> (Z -> bool) -> Prop :=
| bv_bitmap d n p s l :
    iSize p = n -> 0 <= n <= NBIT -> aBitmap (bv_u p) = Some l -> zlen l = NCHAR -> bytes_ok l ->
    (forall i, s i = (1 <=? i) && (i <=? n) && bitmap_bit l (i - 1)) ->
    bv_ok d n p s
| bv_hash d n p s l :
    iSize p = n -> NBIT < n <= NBIT * NPTR ^ Z.of_nat d -> iDivisor p = 0 ->
    aHash (bv_u p) = Some l -> zlen l = NINT -> hash_inv l ->
    nSet p = used l -> used l < MXHASH -> Forall (fun v => 0 <= v <= n) l ->
    (forall i, s i = bool_decide (i <> 0 /\ i ∈ l)) ->
    bv_ok d n p s
| bv_sub d n p s l D :
    iSize p = n -> NBIT < n <= NBIT * NPTR ^ Z.of_nat (S d) ->
    D = (n + NPTR - 1) / NPTR -> iDivisor p = D ->
    apSub (bv_u p) = Some l -> zlen l = NPTR ->
    (forall i, s i = true -> 1 <= i <= n) ->
    (forall bin, rd l bin = Some None -> forall i, sub_set D s bin i = false) ->
    (forall bin q, rd l bin = Some (Some q) -> bv_ok d D q (sub_set D s bin)) ->
    bv_ok (S d) n p s.

End bitvec.

(** Four levels of sub-bitmaps cover every 32-bit size. *)
Definition bitvec_fuel : nat := 9.

(** ** Layout *)

Lemma layout_facts t :
  BITVEC_NBIT t = BITVEC_NCHAR t * 8 /\ 0 < BITVEC_NCHAR t < 512 /\ 0 < BITVEC_NINT t < 512
  /\ 0 < BITVEC_MXHASH t /\ 2 * BITVEC_MXHASH t <= BITVEC_NINT t /\ 2 <= BITVEC_NPTR t < 512
  /\ 2 ^ 32 <= BITVEC_NBIT t * BITVEC_NPTR t ^ Z.of_nat 4 /\ BITVEC_NPTR t < BITVEC_NBIT t.
Proof. destruct t; repeat split; vm_compute; congruence. Qed.

Section proofs.
Context (t : target).
Notation NCHAR := (BITVEC_NCHAR t).
Notation NBIT := (BITVEC_NBIT t).
Notation NINT := (BITVEC_NINT t).
Notation MXHASH := (BITVEC_MXHASH t).
Notation NPTR := (BITVEC_NPTR t).
Notation HASH := (BITVEC_HASH t).
Notation bv_ok := (bv_ok t).
Notation slot := (slot t).
Notation hash_inv := (hash_inv t).

(** ** Plain bitmaps *)

Lemma bit_pos j : 0 <= j -> 0 <= j / 8 /\ 0 <= Z.land j 7 < 8 /\ Z.land j 7 = j mod 8.
Proof.
  intros Hj. rewrite (land_ones_mod j 3 : 0 <= 3 -> Z.land j 7 = j mod 8) by lia.
  pose proof (Z.mod_pos_bound j 8). split; [apply Z.div_pos; lia|]. lia.
Qed.

(** Changing one bit changes that bit only. *)
Lemma bitmap_bit_insert l j b f k :
  0 <= j -> 0 <= k -> rd l (j / 8) = Some b ->
  (forall x, 0 <= x -> Z.testbit (f b) x = if bool_decide (j mod 8 = x) then Z.testbit (f b) x else Z.testbit b x) ->
  bitmap_bit (<[Z.to_nat (j / 8) := f b]> l) k
  = if bool_decide (j = k) then Z.testbit (f b) (j mod 8) else bitmap_bit l k.
Proof.
  intros Hj Hk Hb Hf. unfold bitmap_bit. destruct (bit_pos j Hj) as (Hq & _ & _).
  pose proof (Z.div_mod j 8). pose proof (Z.div_mod k 8). pose proof (Z.mod_pos_bound k 8).
  destruct (decide (j / 8 = k / 8)) as [He|Hne].
  - rewrite <- He, rd_insert_eq by (apply rd_Some_lt in Hb; lia). rewrite Hb.
    rewrite Hf by lia. case_bool_decide as E1; case_bool_decide as E2; try (exfalso; lia); [|done].
    by rewrite E1.
  - rewrite rd_insert_ne by done. rewrite bool_decide_false; [done|]. intros ->. done.
Qed.

Lemma byte_set_bit b x : is_byte b -> 0 <= x < 8 -> u8 (Z.lor b (Z.shiftl 1 x)) = Z.lor b (Z.shiftl 1 x).
Proof.
  intros Hb Hx. apply u8_id. unfold is_byte in *. change 256 with (2 ^ 8) in *.
  apply lor_bound; [lia|done|]. by apply shiftl_1_bound.
Qed.

Lemma byte_clear_bit b m : is_byte b -> u8 (Z.land b m) = Z.land b m.
Proof.
  intros Hb. apply u8_id. unfold is_byte in *. change 256 with (2 ^ 8) in *.
  apply land_bound_l; [lia|done].
Qed.

(** ** The hash table *)

Lemma slot_range i m : 0 <= slot i m < NINT.
Proof. unfold Bitvec.slot. apply Z.mod_pos_bound. apply layout_facts. Qed.

Lemma slot_0 i : slot i 0 = HASH i.
Proof.
  unfold Bitvec.slot, BITVEC_HASH. rewrite Z.add_0_r. apply Z.mod_mod.
  pose proof (layout_facts t). lia.
Qed.

(** The step of the search, in both forms that the code has. *)
Lemma slot_succ i m :
  (let h := slot i m + 1 in if h =? NINT then 0 else h) = slot i (m + 1)
  /\ (let h := slot i m + 1 in if NINT <=? h then 0 else h) = slot i (m + 1).
Proof.
  pose proof (slot_range i m) as Hr. pose proof (layout_facts t) as (_ & _ & HN & _).
  cbv zeta. unfold Bitvec.slot in *.
  replace (HASH i + (m + 1)) with ((HASH i + m) + 1) by lia.
  rewrite <- (Zplus_mod_idemp_l (HASH i + m) 1). set (x := (HASH i + m) mod NINT) in *.
  destruct (Z.eqb_spec (x + 1) NINT) as [->|Hne].
  - rewrite Z_mod_same_full, Z.leb_refl. done.
  - rewrite (proj2 (Z.leb_gt NINT (x + 1))), Z.mod_small by lia. done.
Qed.

Lemma slot_find i k : 0 <= k < NINT -> exists m, 0 <= m < NINT /\ slot i m = k.
Proof.
  intros Hk. exists ((k - HASH i) mod NINT). split; [apply Z.mod_pos_bound; lia|].
  unfold Bitvec.slot. rewrite Zplus_mod_idemp_r.
  replace (HASH i + (k - HASH i)) with k by lia. by apply Z.mod_small.
Qed.

(** The search for [i] ends at the first cell that is empty or holds [i]. *)
Lemma probe_spec l i M fuel m :
  zlen l = NINT -> i <> 0 -> (exists v, rd l (slot i M) = Some v /\ (v = 0 \/ v = i)) ->
  0 <= m <= M -> M < NINT -> M - m < Z.of_nat fuel ->
  exists mz v, m <= mz <= M /\ rd l (slot i mz) = Some v /\ (v = 0 \/ v = i)
    /\ (forall m', m <= m' < mz -> cell_used l (slot i m') /\ rd l (slot i m') <> Some i)
    /\ set_probe t fuel l i (slot i m) = Ret (if v =? 0 then Some (slot i mz) else None)
    /\ test_probe t fuel l i (slot i m) = Ret (negb (v =? 0)).
Proof.
  intros Hl Hi HM. revert m. induction fuel as [|fuel IH]; intros m Hm HMN Hf; [lia|].
  destruct (rd_lt l (slot i m)) as [v Hv]; [rewrite Hl; apply slot_range|].
  cbn [set_probe test_probe]. rewrite Hv, !bind_of_opt.
  destruct (Z.eqb_spec v 0) as [->|H0].
  { exists m, 0. split; [lia|]. split; [done|]. split; [by left|]. split; [lia|done]. }
  destruct (Z.eqb_spec v i) as [->|Hvi].
  { exists m, i. split; [lia|]. split; [done|]. split; [by right|]. split; [lia|].
    by rewrite (proj2 (Z.eqb_neq i 0)). }
  destruct (slot_succ i m) as [E1 E2]. cbv zeta in E1, E2. rewrite E1, E2.
  assert (m <> M) by (intros ->; destruct HM as (w & Hw & ?); naive_solver congruence).
  destruct (IH (m + 1)) as (mz & w & Hmz & Hw & Hwi & Hall & Hs & Ht); [lia..|].
  exists mz, w. split; [lia|]. split; [done|]. split; [done|]. split; [|done].
  intros m' Hm'. destruct (decide (m' = m)) as [->|]; [|apply Hall; lia].
  split; [by exists v | congruence].
Qed.

Lemma used_insert l k v :
  rd l k = Some 0 -> v <> 0 -> used (<[Z.to_nat k := v]> l) = used l + 1.
Proof.
  intros Hk Hv. pose proof (rd_Some_lt _ _ _ Hk) as Hr.
  destruct (list_split_at l k Hr) as (a & x & b & -> & <-).
  rewrite rd_middle in Hk. injection Hk as ->.
  pose proof (wr_middle a b 0 v) as Hw. rewrite wr_Some in Hw by lia. injection Hw as ->.
  unfold used. rewrite !filter_app, !filter_cons.
  rewrite decide_True by done. rewrite (decide_False (P := 0 <> 0)) by lia. size.
Qed.

Lemma used_bound l : 0 <= used l <= zlen l.
Proof.
  unfold used, zlen. pose proof (length_filter (fun v => v <> 0) l). lia.
Qed.

Lemma empty_cell l : used l < zlen l -> exists k, rd l k = Some 0.
Proof.
  induction l as [|v l IH]; unfold used; rewrite ?zlen_cons, ?filter_cons; [intros H; cbn in H; lia|].
  case_decide as Hv; intros H.
  - rewrite zlen_cons in H. destruct IH as [k Hk]; [unfold used; lia|].
    exists (k + 1). replace (k + 1) with (zlen [v] + k) by (rewrite zlen_cons, zlen_nil; lia).
    pose proof (rd_app_r [v] l k) as Hr. cbn [app] in Hr. rewrite Hr; [done|]. apply rd_Some_lt in Hk. lia.
  - exists 0. assert (v = 0) as -> by lia. exact (rd_middle [] l 0).
Qed.

Lemma used_zero n : used (replicate n 0) = 0.
Proof. unfold used. induction n; [done|]. simpl. rewrite filter_cons. by rewrite decide_False by lia. Qed.

Lemma rd_elem l k (v : Z) : rd l k = Some v -> v ∈ l.
Proof. intros [_ H]%rd_Some. by apply list_elem_of_lookup_2 in H. Qed.

Lemma elem_rd l (v : Z) : v ∈ l -> exists k, rd l k = Some v.
Proof. intros [k Hk]%list_elem_of_lookup. exists (Z.of_nat k). by rewrite rd_nat. Qed.

(** Searching a table that is not full. *)
Lemma hash_search l i :
  zlen l = NINT -> hash_inv l -> used l < NINT -> i <> 0 ->
  (i ∈ l /\ set_probe t (S (length l)) l i (HASH i) = Ret None
     /\ test_probe t (S (length l)) l i (HASH i) = Ret true)
  \/ (i ∉ l /\ exists m, 0 <= m < NINT /\ rd l (slot i m) = Some 0
     /\ (forall m', 0 <= m' < m -> cell_used l (slot i m'))
     /\ set_probe t (S (length l)) l i (HASH i) = Ret (Some (slot i m))
     /\ test_probe t (S (length l)) l i (HASH i) = Ret false).
Proof.
  intros Hl Hinv Hu Hi. destruct (empty_cell l) as [k Hk]; [lia|].
  destruct (slot_find i k) as (M & HM & <-); [apply rd_Some_lt in Hk; lia|].
  destruct (probe_spec l i M (S (length l)) 0) as (m & v & Hm & Hv & Hvi & Hall & Hs & Ht);
    [done|done|by eexists; eauto|lia|lia|unfold zlen in Hl; lia|].
  rewrite slot_0 in Hs, Ht. destruct (Z.eqb_spec v 0) as [->|H0].
  - right. split.
    + intros [k' Hk']%elem_rd. destruct (Hinv k' i Hk' Hi) as (mi & Hmi & -> & Hbefore).
      destruct (Z.lt_trichotomy mi m) as [Hlt|[->|Hgt]].
      * destruct (Hall mi) as [_ Hne]; [lia|done].
      * rewrite Hv in Hk'. congruence.
      * destruct (Hbefore m) as (w & Hw & Hw0); [lia|]. congruence.
    + exists m. split; [lia|]. split; [done|]. split; [|done]. intros m' Hm'. by apply Hall.
  - left. destruct Hvi as [->| ->]; [done|]. split; [by eapply rd_elem|done].
Qed.

(** Storing a value in the empty cell that ends its search. *)
Lemma hash_store l i m :
  zlen l = NINT -> hash_inv l -> i <> 0 -> 0 <= m < NINT -> rd l (slot i m) = Some 0 ->
  (forall m', 0 <= m' < m -> cell_used l (slot i m')) ->
  let l' := <[Z.to_nat (slot i m) := i]> l in
  hash_inv l' /\ (forall x, x <> 0 -> x ∈ l' <-> x = i \/ x ∈ l).
Proof.
  intros Hl Hinv Hi Hm Hz Hall l'. pose proof (slot_range i m) as Hr.
  assert (forall k, cell_used l k -> cell_used l' k) as Hused.
  { intros k (w & Hw & Hw0). unfold cell_used, l'. destruct (decide (slot i m = k)) as [<-|Hne].
    - exists i. by rewrite rd_insert_eq by lia.
    - exists w. by rewrite rd_insert_ne by lia. }
  split.
  - intros k v Hk Hv. unfold l' in Hk. destruct (decide (slot i m = k)) as [<-|Hne].
    + rewrite rd_insert_eq in Hk by lia. injection Hk as <-. exists m.
      split; [done|]. split; [done|]. intros m' Hm'. by apply Hused, Hall.
    + rewrite rd_insert_ne in Hk by lia. destruct (Hinv k v Hk Hv) as (mv & ? & ? & Hb).
      exists mv. split; [done|]. split; [done|]. intros m' Hm'. by apply Hused, Hb.
  - intros x Hx. unfold l'. split.
    + intros [k Hk]%elem_rd. destruct (decide (slot i m = k)) as [<-|Hne].
      * rewrite rd_insert_eq in Hk by lia. left. congruence.
      * rewrite rd_insert_ne in Hk by lia. right. by eapply rd_elem.
    + intros [->|[k Hk]%elem_rd].
      * apply (rd_elem _ (slot i m)). by apply rd_insert_eq; lia.
      * destruct (decide (slot i m = k)) as [<-|Hne]; [congruence|].
        apply (rd_elem _ k). by rewrite rd_insert_ne by lia.
Qed.

(** ** Well-formed bitmaps *)

Lemma bv_ok_ext d n p s s' : bv_ok d n p s -> (forall i, s i = s' i) -> bv_ok d n p s'.
Proof.
  intros H. revert s'. induction H as [| |d n p s l D Hn Hr HD Hi Hu Hl Hb Hnone Hsub IH]; intros s' He.
  - eapply bv_bitmap; eauto.
  - eapply bv_hash; eauto.
  - apply (bv_sub t d n p s' l D); try done.
    + intros i Hs. apply Hb. by rewrite He.
    + intros bin Hbin i. rewrite <- (Hnone bin Hbin i). unfold sub_set. by rewrite He.
    + intros bin q Hq. apply (IH bin q Hq). intros i. unfold sub_set. by rewrite He.
Qed.

Lemma bv_ok_range d n p s i : bv_ok d n p s -> s i = true -> 1 <= i <= n.
Proof.
  destruct 1 as [d n p s l Hn Hr Hu Hl Hb Hs|d n p s l Hn Hr Hd Hu Hl Hinv Hset Hmx Hv Hs|];
    intros Hi.
  - rewrite Hs in Hi. lia.
  - rewrite Hs, bool_decide_eq_true in Hi. destruct Hi as [H0 Hin].
    rewrite Forall_forall in Hv. apply Hv in Hin. lia.
  - auto.
Qed.

Lemma bv_ok_size d n p s : bv_ok d n p s -> iSize p = n /\ n <= NBIT * NPTR ^ Z.of_nat d.
Proof.
  pose proof (layout_facts t) as (HNB & HNC & HNI & HMX & HMX2 & HNP & H32 & HNPB).
  destruct 1; (split; [done|]); try lia.
  pose proof (Z.pow_pos_nonneg NPTR (Z.of_nat d)). nia.
Qed.

Lemma bv_fresh d n :
  0 <= n <= NBIT * NPTR ^ Z.of_nat d -> bv_ok d n (mkBitvec n 0 0 u_zero) (fun _ => false).
Proof.
  pose proof (layout_facts t) as (HNB & HNC & HNI & HMX & HMX2 & HNP & H32 & HNPB).
  intros Hn. destruct (Z.leb_spec n NBIT) as [Hs|Hs].
  - eapply bv_bitmap; [done|lia|done|rewrite zlen_replicate; lia| |].
    + apply Forall_replicate. unfold is_byte. lia.
    + intros i. unfold bitmap_bit. destruct (rd _ _) as [b|] eqn:E; [|by rewrite andb_false_r].
      apply rd_elem, elem_of_replicate in E as [-> _]. by rewrite Z.bits_0, andb_false_r.
  - eapply bv_hash; [done|lia|done|done|rewrite zlen_replicate; lia| | | | |].
    + intros k v Hk Hv. apply rd_elem, elem_of_replicate in Hk as [-> _]. done.
    + by rewrite used_zero.
    + rewrite used_zero. lia.
    + apply Forall_replicate. lia.
    + intros i. symmetry. apply bool_decide_eq_false. intros [Hi [Hx _]%elem_of_replicate]. done.
Qed.

(** Sizes for which the computation of the divisor does not wrap. *)
Definition size_ok (n : Z) : Prop := n < 2 ^ 32 /\ n + NPTR - 1 < 2 ^ size_bits t.

Lemma divisor_facts d n :
  NBIT < n <= NBIT * NPTR ^ Z.of_nat (S d) ->
  let D := (n + NPTR - 1) / NPTR in
  1 <= D < n /\ n <= NPTR * D /\ D <= NBIT * NPTR ^ Z.of_nat d.
Proof.
  pose proof (layout_facts t) as (HNB & HNC & HNI & HMX & HMX2 & HNP & H32 & HNPB).
  intros Hn D.
  assert (D * NPTR <= n + NPTR - 1 < D * NPTR + NPTR) as HD.
  { unfold D. pose proof (Z.div_mod (n + NPTR - 1) NPTR). pose proof (Z.mod_pos_bound (n + NPTR - 1) NPTR). lia. }
  rewrite Nat2Z.inj_succ, Z.pow_succ_r in Hn by lia.
  set (P := NPTR ^ Z.of_nat d) in *. assert (0 < P) by (apply Z.pow_pos_nonneg; lia).
  assert (1 <= D < n) by nia. split; [done|split; [lia|]].
  assert (D * NPTR < (NBIT * P + 1) * NPTR) by lia. nia.
Qed.

Lemma divisor_computed n :
  NBIT < n -> size_ok n -> u32 (size_t t (n + NPTR - 1) / NPTR) = (n + NPTR - 1) / NPTR.
Proof.
  pose proof (layout_facts t) as (HNB & HNC & HNI & HMX & HMX2 & HNP & H32 & HNPB).
  intros Hn [H1 H2]. unfold size_t. rewrite (Z.mod_small (n + NPTR - 1)) by lia.
  apply u32_id. unfold is_u32. split; [apply Z.div_pos; lia|]. apply Z.div_lt_upper_bound; lia.
Qed.

Lemma sub_pos n D i :
  1 <= i <= n -> 1 <= D -> n <= NPTR * D ->
  0 <= (i - 1) / D < NPTR /\ 1 <= (i - 1) mod D + 1 <= D
  /\ (i - 1) / D * D + ((i - 1) mod D + 1) = i.
Proof.
  intros Hi HD Hn. pose proof (Z.div_mod (i - 1) D). pose proof (Z.mod_pos_bound (i - 1) D).
  split; [split|lia].
  - apply Z.div_pos; lia.
  - apply Z.div_lt_upper_bound; lia.
Qed.

(** The place of a number determines it. *)
Lemma sub_pos_unique D i bin j :
  1 <= D -> 1 <= j <= D -> (bin * D + j = i <-> (i - 1) / D = bin /\ (i - 1) mod D + 1 = j).
Proof.
  intros HD Hj. pose proof (Z.div_mod (i - 1) D) as Hdm. split.
  - intros <-. replace (bin * D + j - 1) with (j - 1 + bin * D) by lia.
    rewrite Z.div_add, Z.mod_add, Z.div_small, Z.mod_small by lia. lia.
  - intros [<- <-]. lia.
Qed.

Lemma sub_lookup (l : list (option Bitvec)) n D i :
  zlen l = NPTR -> 1 <= i <= n -> 1 <= D -> n <= NPTR * D ->
  exists q, rd l ((i - 1) / D) = Some q.
Proof.
  intros Hl Hi HD Hn. destruct (sub_pos n D i) as (Hb & _); [done..|].
  destruct (rd_lt l ((i - 1) / D)) as [q Hq]; [lia|]. by exists q.
Qed.

Lemma sub_set_at n D s i :
  1 <= i <= n -> 1 <= D -> n <= NPTR * D ->
  sub_set D s ((i - 1) / D) ((i - 1) mod D + 1) = s i.
Proof.
  intros Hi HD Hn. destruct (sub_pos n D i) as (_ & Hj & He); [done..|].
  unfold sub_set. rewrite He.
  rewrite (proj2 (Z.leb_le 1 _)), (proj2 (Z.leb_le _ D)) by lia. done.
Qed.

Lemma bitmap_byte (l : list Z) n i :
  zlen l = NCHAR -> n <= NBIT -> 1 <= i <= n -> exists b, rd l ((i - 1) / 8) = Some b.
Proof.
  pose proof (layout_facts t) as (HNB & _). intros Hl Hn Hi.
  destruct (rd_lt l ((i - 1) / 8)) as [b Hb]; [|by exists b].
  split; [apply Z.div_pos; lia|apply Z.div_lt_upper_bound; lia].
Qed.

(** [sqlite3BitvecTest] gives membership. *)
Lemma test_ok d n p s i fuel :
  bv_ok d n p s -> 0 <= i -> (d < fuel)%nat -> sqlite3BitvecTest t fuel (Some p) i = Ret (s i).
Proof.
  pose proof (layout_facts t) as (HNB & HNC & HNI & HMX & HMX2 & HNP & H32 & HNPB).
  intros Hok. pose proof Hok as Hok'. revert i fuel Hok'.
  induction Hok as [d n p s l Hn Hr Hu Hl Hb Hs
    |d n p s l Hn Hr Hd Hu Hl Hinv Hset Hmx Hv Hs
    |d n p s l D Hn Hr HD Hid Hu Hl Hb Hnone Hsub IH];
    intros i fuel Hok Hi Hf; (destruct fuel as [|fuel]; [lia|]);
    cbn [sqlite3BitvecTest]; rewrite Hn;
    (destruct ((n <? i) || (i =? 0)) eqn:Hir;
      [destruct (s i) eqn:Es; [|done]; pose proof (bv_ok_range _ _ _ _ _ Hok Es); lia|]);
    assert (1 <= i <= n) as Hin by lia; cbv zeta; rewrite Hu, bind_of_opt.
  - rewrite (proj2 (Z.leb_le n NBIT)) by lia.
    destruct (bitmap_byte l n i) as [b Hbb]; [lia..|]. rewrite Hbb, bind_of_opt.
    destruct (bit_pos (i - 1)) as (_ & Hbit & He); [lia|]. rewrite land_bit_nonzero, Hs by lia.
    rewrite (proj2 (Z.leb_le 1 i)), (proj2 (Z.leb_le i n)) by lia.
    unfold bitmap_bit. by rewrite Hbb, He.
  - rewrite (proj2 (Z.leb_gt n NBIT)), Hd by lia. cbn [Z.ltb Z.compare].
    destruct (hash_search l i) as [(Hin' & _ & Ht)|(Hni & m & _ & _ & _ & _ & Ht)]; [done|done|lia|lia| |].
    + rewrite Ht, Hs. f_equal. symmetry. apply bool_decide_eq_true. split; [lia|done].
    + rewrite Ht, Hs. f_equal. symmetry. apply bool_decide_eq_false. naive_solver.
  - destruct (divisor_facts d n Hr) as (HD1 & HD2 & HD3). rewrite <- HD in *.
    rewrite (proj2 (Z.leb_gt n NBIT)), Hid, (proj2 (Z.ltb_lt 0 D)) by lia.
    destruct (sub_lookup l n D i) as [q Hq]; [done|lia..|]. rewrite Hq, bind_of_opt.
    destruct (sub_pos n D i) as (_ & Hj & _); [lia..|].
    rewrite <- (sub_set_at n D s i) by lia. destruct q as [q|].
    + apply (IH _ _ Hq); [by apply Hsub|lia|lia].
    + rewrite (Hnone _ Hq). destruct fuel; [lia|done].
Qed.

(** ** Setting *)

(** What a call that sets [i] in the bitmap [p] with the numbers [s]
    establishes: nothing but [i] is added; a zero return code means that [i]
    is in and nothing is lost; without a failed allocation the code is zero. *)
Definition set_post (d : nat) (n : Z) (p : Bitvec) (s : Z -> bool) (i : Z) (o : list bool)
    (r : res (Z * Bitvec * list bool)) : Prop :=
  exists rc p' o' s', r = Ret (rc, p', o') /\ bv_ok d n p' s'
    /\ (forall j, s' j = true -> j = i \/ s j = true)
    /\ (rc = SQLITE_OK -> forall j, s' j = (j =? i) || s j)
    /\ (Forall (eq true) o -> rc = SQLITE_OK /\ Forall (eq true) o')
    /\ (iDivisor p <> 0 -> iDivisor p' <> 0).

(** A plain bitmap with one bit changed to [g]. *)
Lemma bitmap_update d n p s l i b (f : Z -> Z) (g : bool) :
  bv_ok d n p s -> n <= NBIT -> 1 <= i <= n -> aBitmap t (bv_u p) = Some l ->
  rd l ((i - 1) / 8) = Some b -> is_byte (f b) ->
  (forall x, 0 <= x -> Z.testbit (f b) x = if bool_decide ((i - 1) mod 8 = x) then g else Z.testbit b x) ->
  bv_ok d n (set_u p (u_bitmap (<[Z.to_nat ((i - 1) / 8) := f b]> l))) (fun j => if j =? i then g else s j).
Proof.
  intros Hok Hsm Hi Hu Hbb Hby Hf.
  inversion Hok as [d' n' p' s' l0 Hn Hr Hu0 Hl Hb Hs| |]; subst; [|lia..].
  rewrite Hu in Hu0. injection Hu0 as <-.
  apply (bv_bitmap t d (iSize p) _ _ (<[Z.to_nat ((i - 1) / 8) := f b]> l)).
  - by destruct p.
  - lia.
  - by destruct p.
  - by rewrite zlen_insert.
  - by apply Forall_insert.
  - intros j. destruct (decide (1 <= j)) as [Hj|Hj].
    + rewrite bitmap_bit_insert with (b := b); [|lia|lia|done|].
      * rewrite (Hf ((i - 1) mod 8)), (bool_decide_true ((i - 1) mod 8 = (i - 1) mod 8)), Hs
          by (done || (pose proof (Z.mod_pos_bound (i - 1) 8); lia)).
        destruct (Z.eqb_spec j i) as [->|Hne].
        -- rewrite bool_decide_true, (proj2 (Z.leb_le 1 i)), (proj2 (Z.leb_le i _)) by lia. done.
        -- by rewrite bool_decide_false by lia.
      * intros x Hx. rewrite Hf by done. by case_bool_decide.
    + rewrite (proj2 (Z.leb_gt 1 j)) by lia. destruct (Z.eqb_spec j i); [lia|].
      rewrite Hs. lia.
Qed.

Lemma set_bitmap_case d n p s i o f :
  bv_ok d n p s -> n <= NBIT -> 1 <= i <= n ->
  set_post d n p s i o (sqlite3BitvecSet t (S f) o p i).
Proof.
  pose proof (layout_facts t) as (HNB & HNC & HNI & HMX & HMX2 & HNP & H32 & HNPB).
  intros Hok Hsm Hi.
  inversion Hok as [d' n' p' s' l Hn Hr Hu Hl Hb Hs| |]; subst; [|lia..].
  cbn [sqlite3BitvecSet]. rewrite (proj2 (Z.ltb_lt 0 i)), (proj2 (Z.leb_le i _)) by lia. crun.
  rewrite (proj2 (Z.leb_le _ NBIT)) by lia. cbv zeta. rewrite Hu. crun.
  destruct (bitmap_byte l (iSize p) i) as [b Hbb]; [lia..|]. rewrite Hbb. crun.
  rewrite wr_Some by (by apply rd_Some_lt in Hbb). crun.
  destruct (bit_pos (i - 1)) as (_ & Hbit & He); [lia|].
  assert (is_byte b) as Hbyte by (by eapply (rd_Forall is_byte)).
  rewrite byte_set_bit by done.
  exists SQLITE_OK, (set_u p (u_bitmap (<[Z.to_nat ((i - 1) / 8) := Z.lor b (Z.shiftl 1 (Z.land (i - 1) 7))]> l))), o,
    (fun j => if j =? i then true else s j).
  split; [done|]. split; [|split; [|split; [|split; [done|by destruct p]]]].
  - apply (bitmap_update d _ p s l i b (fun b => Z.lor b (Z.shiftl 1 (Z.land (i - 1) 7))) true Hok); try done.
    + rewrite <- byte_set_bit by done. done.
    + intros x Hx. rewrite lor_bit_spec, He by lia. by case_bool_decide.
  - intros j. destruct (Z.eqb_spec j i); [by left|by right].
  - intros _ j. by destruct (j =? i).
Qed.

(** ** Changing one sub-bitmap *)

Definition upd (D : Z) (s : Z -> bool) (bin : Z) (s1 : Z -> bool) (j : Z) : bool :=
  if (1 <=? j) && ((j - 1) / D =? bin) then s1 ((j - 1) mod D + 1) else s j.

Lemma sub_set_upd D s bin s1 bin' k :
  1 <= D -> 0 <= bin' -> (forall k, s1 k = true -> 1 <= k <= D) ->
  sub_set D (upd D s bin s1) bin' k = if bool_decide (bin' = bin) then s1 k else sub_set D s bin' k.
Proof.
  intros HD Hb' Hs1. unfold sub_set, upd.
  destruct (decide (1 <= k <= D)) as [Hk|Hk].
  - destruct (sub_pos_unique D (bin' * D + k) bin' k HD Hk) as [[-> ->] _]; [done|].
    rewrite (proj2 (Z.leb_le 1 (bin' * D + k))), (proj2 (Z.leb_le 1 k)), (proj2 (Z.leb_le k D)) by nia.
    cbn [andb]. destruct (Z.eqb_spec bin' bin) as [->|Hne]; by case_bool_decide.
  - replace ((1 <=? k) && (k <=? D)) with false by lia. cbn [andb].
    case_bool_decide; [|done]. destruct (s1 k) eqn:E; [|done]. apply Hs1 in E. lia.
Qed.

Lemma bv_sub_inv d n p s :
  bv_ok d n p s -> NBIT < n -> iDivisor p <> 0 ->
  exists d' l, d = S d' /\ iSize p = n /\ n <= NBIT * NPTR ^ Z.of_nat (S d')
    /\ iDivisor p = (n + NPTR - 1) / NPTR /\ apSub t (bv_u p) = Some l /\ zlen l = NPTR
    /\ (forall bin, rd l bin = Some None -> forall i, sub_set (iDivisor p) s bin i = false)
    /\ (forall bin q, rd l bin = Some (Some q) -> bv_ok d' (iDivisor p) q (sub_set (iDivisor p) s bin)).
Proof.
  destruct 1 as [d n p s l Hn Hr Hu Hl Hb Hs
    |d n p s l Hn Hr Hd Hu Hl Hinv Hset Hmx Hv Hs
    |d n p s l D Hn Hr HD Hid Hu Hl Hb Hnone Hsub]; intros Hbig Hne; [lia|done|].
  exists d, l. subst D. rewrite Hid. repeat split; done || lia.
Qed.

Lemma sub_update d n p s l bin q s1 :
  bv_ok (S d) n p s -> NBIT < n -> iDivisor p <> 0 -> apSub t (bv_u p) = Some l -> 0 <= bin < NPTR ->
  bv_ok d (iDivisor p) q s1 -> (forall k, s1 k = true -> bin * iDivisor p + k <= n) ->
  bv_ok (S d) n (set_u p (u_sub (<[Z.to_nat bin := Some q]> l))) (upd (iDivisor p) s bin s1).
Proof.
  intros Hok Hbig Hne Hu Hbin Hq Hs1.
  destruct (bv_sub_inv _ _ _ _ Hok Hbig Hne) as (d' & l' & [= <-] & Hn & Hsz & HD & Hu' & Hl & Hnone & Hsub).
  rewrite Hu in Hu'. injection Hu' as <-.
  destruct (divisor_facts d n) as (HD1 & HD2 & HD3); [lia|]. rewrite <- HD in *.
  assert (forall k, s1 k = true -> 1 <= k <= iDivisor p) as Hs1r
    by (intros k Hk; by apply (bv_ok_range _ _ _ _ _ Hq)).
  apply (bv_sub t d n _ _ (<[Z.to_nat bin := Some q]> l) (iDivisor p)).
  - by destruct p.
  - lia.
  - done.
  - by destruct p.
  - by destruct p.
  - by rewrite zlen_insert.
  - intros i. unfold upd. destruct ((1 <=? i) && _) eqn:E.
    + intros Hk. pose proof (Hs1 _ Hk). pose proof (Z.div_mod (i - 1) (iDivisor p)). lia.
    + by apply (bv_ok_range _ _ _ _ _ Hok).
  - intros bin' Hb i. pose proof (rd_Some_lt _ _ _ Hb) as Hr.
    rewrite sub_set_upd by (done || lia). case_bool_decide as E.
    + subst bin'. rewrite rd_insert_eq in Hb by lia. done.
    + rewrite rd_insert_ne in Hb by lia. by apply Hnone.
  - intros bin' q' Hb. pose proof (rd_Some_lt _ _ _ Hb) as Hr.
    eapply bv_ok_ext; [|intros i; symmetry; by apply sub_set_upd; [lia..|]].
    case_bool_decide as E.
    + subst bin'. rewrite rd_insert_eq in Hb by lia. by injection Hb as <-.
    + rewrite rd_insert_ne in Hb by lia. by apply Hsub.
Qed.

Lemma size_ok_sub n m : size_ok n -> m <= n -> size_ok m.
Proof. unfold size_ok. lia. Qed.

Lemma set_sub_case d f :
  (forall n p s i o, size_ok n -> bv_ok d n p s -> 1 <= i <= n ->
     set_post d n p s i o (sqlite3BitvecSet t f o p i)) ->
  forall n p s i o, size_ok n -> bv_ok (S d) n p s -> NBIT < n -> iDivisor p <> 0 -> 1 <= i <= n ->
  set_post (S d) n p s i o (sqlite3BitvecSet t (S f) o p i).
Proof.
  intros IH n p s i o Hsz Hok Hbig Hne Hi.
  destruct (bv_sub_inv _ _ _ _ Hok Hbig Hne) as (d' & l & [= <-] & Hn & Hsz' & HD & Hu & Hl & Hnone & Hsub).
  destruct (divisor_facts d n) as (HD1 & HD2 & HD3); [lia|]. rewrite <- HD in *.
  cbn [sqlite3BitvecSet]. rewrite Hn, (proj2 (Z.ltb_lt 0 i)), (proj2 (Z.leb_le i n)) by lia. crun.
  rewrite (proj2 (Z.leb_gt n NBIT)), (proj2 (Z.eqb_neq (iDivisor p) 0)) by lia. cbn [negb]. cbv zeta.
  rewrite Hu. crun. set (D := iDivisor p) in *. set (bin := (i - 1) / D). set (i' := (i - 1) mod D + 1).
  destruct (sub_lookup l n D i) as [q Hq]; [done|lia..|]. fold bin in Hq. rewrite Hq. crun.
  destruct (sub_pos n D i) as (Hbin & Hi' & Hpos); [lia..|]. fold bin i' in Hbin, Hi', Hpos.
  assert (exists q' o1, (match q with Some q0 => (Some q0, o) | None => sqlite3BitvecCreate o D end) = (q', o1)
    /\ (Forall (eq true) o -> q' <> None /\ Forall (eq true) o1)
    /\ match q' with None => True | Some q' => bv_ok d D q' (sub_set D s bin) end) as (q' & o1 & -> & Ho & Hq').
  { destruct q as [q|]; [exists (Some q), o; by split; [|split; [|apply Hsub]]|].
    unfold sqlite3BitvecCreate, next_alloc.
    assert (bv_ok d D (mkBitvec D 0 0 u_zero) (sub_set D s bin)) as Hfresh.
    { eapply bv_ok_ext; [apply bv_fresh; lia|]. intros k. by rewrite (Hnone bin Hq). }
    destruct o as [|[] o]; eexists _, _; (split; [reflexivity|]); (split; [|done]);
      intros Hall; inversion Hall; done. }
  destruct q' as [q'|].
  - destruct (IH D q' (sub_set D s bin) i' o1) as (rc & q2 & o2 & s1 & -> & Hok1 & Hsub1 & Hrc & Hall & _);
      [by apply (size_ok_sub n); [|lia]|done|lia|]. crun.
    rewrite wr_Some by lia. crun.
    assert (forall k, s1 k = true -> bin * D + k <= n) as Hs1.
    { intros k Hk. destruct (Hsub1 k Hk) as [->|Hk']; [lia|].
      apply andb_true_iff in Hk' as [_ Hk']. apply (bv_ok_range _ _ _ _ _ Hok) in Hk'. lia. }
    exists rc, (set_u p (u_sub (<[Z.to_nat bin := Some q2]> l))), o2, (upd D s bin s1).
    split; [done|]. split; [by apply sub_update|].
    assert (forall j, s j = true -> 1 <= j <= n) as Hrange by (intros j; apply (bv_ok_range _ _ _ _ _ Hok)).
    split; [|split; [|split; [|by destruct p]]].
    + intros j. unfold upd. destruct ((1 <=? j) && ((j - 1) / D =? bin)) eqn:E; [|by right].
      assert (1 <= j /\ (j - 1) / D = bin) as [Hj Hjb] by lia. intros [Hk|Hk]%Hsub1.
      * left. pose proof (Z.div_mod (j - 1) D). unfold i' in *. lia.
      * right. pose proof (Z.div_mod (j - 1) D). apply andb_true_iff in Hk as [_ Hk].
        replace (bin * D + ((j - 1) mod D + 1)) with j in Hk by lia. done.
    + intros H0 j. unfold upd. destruct ((1 <=? j) && ((j - 1) / D =? bin)) eqn:E.
      * assert (1 <= j /\ (j - 1) / D = bin) as [Hj Hjb] by lia. rewrite Hrc by done.
        unfold sub_set. pose proof (Z.div_mod (j - 1) D). pose proof (Z.mod_pos_bound (j - 1) D).
        replace (bin * D + ((j - 1) mod D + 1)) with j by lia.
        rewrite (proj2 (Z.leb_le 1 _)), (proj2 (Z.leb_le _ D)) by lia. cbn [andb]. f_equal.
        unfold i' in *. lia.
      * destruct (Z.eqb_spec j i) as [->|]; [|done]. unfold bin in E. lia.
    + intros Ho'. apply Hall. by apply Ho.
  - exists SQLITE_NOMEM, p, o1, s. split; [done|]. split; [done|]. split; [by right|].
    split; [done|]. split; [|done]. intros Ho'. by destruct (Ho Ho').
Qed.

Lemma bv_hash_inv d n p s :
  bv_ok d n p s -> NBIT < n -> iDivisor p = 0 ->
  exists l, iSize p = n /\ n <= NBIT * NPTR ^ Z.of_nat d /\ aHash t (bv_u p) = Some l /\ zlen l = NINT
    /\ hash_inv l /\ nSet p = used l /\ used l < MXHASH /\ Forall (fun v => 0 <= v <= n) l
    /\ (forall i, s i = bool_decide (i <> 0 /\ i ∈ l)).
Proof.
  pose proof (layout_facts t) as (HNB & HNC & HNI & HMX & HMX2 & HNP & H32 & HNPB).
  destruct 1 as [d n p s l Hn Hr Hu Hl Hb Hs
    |d n p s l Hn Hr Hd Hu Hl Hinv Hset Hmx Hv Hs
    |d n p s l D Hn Hr HD Hid Hu Hl Hb Hnone Hsub]; intros Hbig H0; [lia| |].
  - exists l. repeat split; done || lia.
  - destruct (divisor_facts d n Hr) as (HD1 & _). lia.
Qed.

Lemma set_hash_case d n p s i o f :
  bv_ok d n p s -> NBIT < n -> iDivisor p = 0 -> 1 <= i <= n -> nSet p + 1 < MXHASH \/ s i = true ->
  exists p' s', sqlite3BitvecSet t (S f) o p i = Ret (SQLITE_OK, p', o)
    /\ bv_ok d n p' s' /\ (forall j, s' j = (j =? i) || s j) /\ iDivisor p' = 0 /\ nSet p' <= nSet p + 1.
Proof.
  pose proof (layout_facts t) as (HNB & HNC & HNI & HMX & HMX2 & HNP & H32 & HNPB).
  intros Hok Hbig H0 Hi Hroom.
  destruct (bv_hash_inv _ _ _ _ Hok Hbig H0) as (l & Hn & Hsz & Hu & Hl & Hinv & Hset & Hmx & Hv & Hs).
  cbn [sqlite3BitvecSet]. rewrite Hn, (proj2 (Z.ltb_lt 0 i)), (proj2 (Z.leb_le i n)) by lia. crun.
  rewrite (proj2 (Z.leb_gt n NBIT)), H0, Hu by lia. cbn [Z.eqb negb]. crun.
  pose proof (used_bound l) as Hub.
  destruct (hash_search l i) as [(Hin & -> & _)|(Hni & m & Hm & Hz & Hall & -> & _)]; [done|done|lia|lia| |]; crun.
  - exists p, s. split; [done|]. split; [done|]. split; [|split; [done|lia]].
    intros j. destruct (Z.eqb_spec j i) as [->|]; [|done].
    replace (s i) with true; [done|]. rewrite Hs. symmetry. apply bool_decide_eq_true. split; [lia|done].
  - assert (s i = false) as Hsi by (rewrite Hs; apply bool_decide_eq_false; naive_solver).
    assert (nSet p + 1 < MXHASH) as Hroom' by (destruct Hroom; [done|congruence]).
    rewrite (u32_id (nSet p + 1)) by (unfold is_u32; lia).
    rewrite (proj2 (Z.leb_gt MXHASH _)) by lia.
    pose proof (slot_range i m) as Hr. rewrite wr_Some by lia. crun.
    destruct (hash_store l i m) as [Hinv' Hmem]; [done|done|lia|done..|].
    set (l' := <[Z.to_nat (slot i m) := i]> l) in *.
    exists (mkBitvec n (nSet p + 1) 0 (u_hash l')), (fun j => (j =? i) || s j).
    assert (used l' = used l + 1) as Hu' by (apply used_insert; [done|lia]).
    split; [done|]. split; [|split; [done|split; [done|simpl; lia]]].
    apply (bv_hash t d n _ _ l'); try done; try (simpl; lia).
    + unfold l'. by rewrite zlen_insert.
    + unfold l'. apply Forall_insert; [done|lia].
    + intros j. rewrite Hs. destruct (Z.eqb_spec j i) as [->|Hne].
      * symmetry. apply bool_decide_eq_true. split; [lia|]. apply Hmem; [lia|]. by left.
      * apply bool_decide_ext. split; intros [Hj0 Hj]; (split; [done|]); apply (Hmem j Hj0) in Hj || apply (Hmem j Hj0); naive_solver.
Qed.

Lemma set_values_ok d n set vs :
  (forall p s i o, bv_ok d n p s -> iDivisor p <> 0 -> 1 <= i <= n -> set_post d n p s i o (set o p i)) ->
  Forall (fun v => 0 <= v <= n) vs -> forall rc o p s, bv_ok d n p s -> iDivisor p <> 0 ->
  exists rc' p' o' s', set_values set rc o p vs = Ret (rc', p', o') /\ bv_ok d n p' s'
    /\ iDivisor p' <> 0
    /\ (forall j, s' j = true -> s j = true \/ (j <> 0 /\ j ∈ vs))
    /\ (rc' = SQLITE_OK -> rc = SQLITE_OK /\ forall j, s' j = s j || bool_decide (j <> 0 /\ j ∈ vs))
    /\ (Forall (eq true) o -> rc = SQLITE_OK -> rc' = SQLITE_OK /\ Forall (eq true) o').
Proof.
  intros Hset Hvs. induction Hvs as [|v vs Hv _ IH]; intros rc o p s Hok Hne; cbn [set_values].
  { exists rc, p, o, s. split; [done|]. split; [done|]. split; [done|]. split; [by left|]. split; [|done].
    intros ->. split; [done|]. intros j. rewrite bool_decide_false by set_solver. by rewrite orb_false_r. }
  destruct (Z.eqb_spec v 0) as [->|Hv0].
  - destruct (IH rc o p s Hok Hne) as (rc' & p' & o' & s' & -> & Hok' & Hne' & Hs' & Hrc & Ho).
    exists rc', p', o', s'. split; [done|]. split; [done|]. split; [done|]. split; [|split; [|done]].
    + intros j Hj. destruct (Hs' j Hj); set_solver.
    + intros H0. destruct (Hrc H0) as [-> Hj]. split; [done|]. intros j. rewrite Hj. f_equal.
      apply bool_decide_ext. set_solver.
  - destruct (Hset p s v o Hok Hne) as (rc1 & p1 & o1 & s1 & -> & Hok1 & Hs1 & Hrc1 & Ho1 & Hne1); [lia|]. crun.
    destruct (IH (Z.lor rc rc1) o1 p1 s1 Hok1 (Hne1 Hne)) as (rc' & p' & o' & s' & -> & Hok' & Hne' & Hs' & Hrc & Ho).
    exists rc', p', o', s'. split; [done|]. split; [done|]. split; [done|]. split; [|split].
    + intros j Hj. destruct (Hs' j Hj) as [Hj1|?]; [|set_solver].
      destruct (Hs1 j Hj1) as [->|?]; [|by left]. right. set_solver.
    + intros H0. destruct (Hrc H0) as [Hor Hj]. apply Z.lor_eq_0_iff in Hor as [-> ->].
      split; [done|]. intros j. rewrite Hj, Hrc1 by done.
      destruct (Z.eqb_spec j v) as [->|Hjv]; cbn [orb].
      * rewrite bool_decide_true by set_solver. by rewrite orb_true_r.
      * f_equal. apply bool_decide_ext. set_solver.
    + intros Hall ->. destruct (Ho1 Hall) as [-> Hall1]. by apply Ho.
Qed.

(** The full hash table becomes a bitmap of sub-bitmaps. *)
Lemma set_convert_case d n p s i o f :
  (forall p s i o, bv_ok (S d) n p s -> iDivisor p <> 0 -> 1 <= i <= n ->
     set_post (S d) n p s i o (sqlite3BitvecSet t f o p i)) ->
  size_ok n -> bv_ok (S d) n p s -> NBIT < n -> iDivisor p = 0 -> 1 <= i <= n ->
  MXHASH <= nSet p + 1 -> s i = false ->
  set_post (S d) n p s i o (sqlite3BitvecSet t (S f) o p i).
Proof.
  pose proof (layout_facts t) as (HNB & HNC & HNI & HMX & HMX2 & HNP & H32 & HNPB).
  intros Hset Hsz Hok Hbig H0 Hi Hfull Hsi.
  destruct (bv_hash_inv _ _ _ _ Hok Hbig H0) as (l & Hn & Hsz' & Hu & Hl & Hinv & Hns & Hmx & Hv & Hs).
  cbn [sqlite3BitvecSet]. rewrite Hn, (proj2 (Z.ltb_lt 0 i)), (proj2 (Z.leb_le i n)) by lia. crun.
  rewrite (proj2 (Z.leb_gt n NBIT)), H0, Hu by lia. cbn [Z.eqb negb]. crun.
  pose proof (used_bound l) as Hub.
  destruct (hash_search l i) as [(Hin & _ & _)|(Hni & m & Hm & Hz & Hall & -> & _)]; [done|done|lia|lia| |].
  { exfalso. rewrite Hs, bool_decide_eq_false in Hsi. apply Hsi. split; [lia|done]. }
  crun. rewrite (u32_id (nSet p + 1)) by (unfold is_u32; lia).
  rewrite (proj2 (Z.leb_le MXHASH _)) by lia. cbv zeta.
  rewrite divisor_computed by (done || lia).
  destruct (divisor_facts d n) as (HD1 & HD2 & HD3); [lia|].
  set (D := (n + NPTR - 1) / NPTR) in *. set (p1 := mkBitvec n (nSet p + 1) D u_zero).
  assert (bv_ok (S d) n p1 (fun _ => false)) as Hok1.
  { apply (bv_sub t d n p1 _ (replicate (Z.to_nat NPTR) None) D); try done.
    - rewrite zlen_replicate. lia.
    - intros bin _ k. unfold sub_set. by rewrite andb_false_r.
    - intros bin q [_ Hq%list_elem_of_lookup_2]%rd_Some.
      by apply elem_of_replicate in Hq as [? _]. }
  destruct (Hset p1 _ i o Hok1) as (rc & p2 & o2 & s2 & -> & Hok2 & Hs2 & Hrc2 & Ho2 & Hne2); [simpl; lia|done|].
  crun. specialize (Hne2 ltac:(simpl; lia)).
  destruct (set_values_ok (S d) n (sqlite3BitvecSet t f) l Hset Hv rc o2 p2 s2 Hok2 Hne2)
    as (rc' & p' & o' & s' & -> & Hok' & Hne' & Hs' & Hrc' & Ho').
  exists rc', p', o', s'. split; [done|]. split; [done|]. split; [|split; [|split; [|done]]].
  - intros j Hj. destruct (Hs' j Hj) as [Hj2|Hj2].
    + destruct (Hs2 j Hj2); [by left|done].
    + right. rewrite Hs. by apply bool_decide_eq_true.
  - intros Hz0 j. destruct (Hrc' Hz0) as [-> Hj]. rewrite Hj, Hrc2, orb_false_r, <- Hs by done. done.
  - intros Hall'. destruct (Ho2 Hall') as [-> Hall2]. by apply Ho'.
Qed.

Lemma set_ok d : forall fuel n p s i o,
  size_ok n -> bv_ok d n p s -> 1 <= i <= n -> (2 * d < fuel)%nat ->
  set_post d n p s i o (sqlite3BitvecSet t fuel o p i).
Proof.
  pose proof (layout_facts t) as (HNB & HNC & HNI & HMX & HMX2 & HNP & H32 & HNPB).
  induction d as [|d IH]; intros fuel n p s i o Hsz Hok Hi Hf; (destruct fuel as [|f]; [lia|]).
  { apply set_bitmap_case; [done| |done]. apply bv_ok_size in Hok as [_ Hb]. change (NPTR ^ Z.of_nat 0) with 1 in Hb. lia. }
  destruct (Z.leb_spec n NBIT) as [Hsm|Hbig]; [by apply set_bitmap_case|].
  destruct (decide (iDivisor p = 0)) as [H0|Hne]; [|].
  - destruct (decide (nSet p + 1 < MXHASH)) as [Hroom|Hfull]; [|destruct (s i) eqn:Es].
    1, 2: destruct (set_hash_case (S d) n p s i o f) as (p' & s' & -> & Hok' & Hs' & Hd' & _); auto;
      exists SQLITE_OK, p', o, s'; (split; [done|]); (split; [done|]);
      (split; [|done]); intros j; rewrite Hs', orb_true_iff, Z.eqb_eq; done.
    apply set_convert_case; try done; [|lia].
    destruct f as [|f]; [lia|]. intros p' s' i' o' Hok' Hne' Hi'.
    apply set_sub_case; try done. intros. apply IH; done || lia.
  - apply set_sub_case; try done. intros. apply IH; done || lia.
Qed.

(** ** Clearing *)

Definition clear_post (d : nat) (n : Z) (s : Z -> bool) (i : Z) (r : res (Bitvec * list bool)) (o : list bool) : Prop :=
  exists p' s', r = Ret (p', o) /\ bv_ok d n p' s' /\ forall j, s' j = negb (j =? i) && s j.

Lemma clear_bitmap_case d n p s i o f :
  bv_ok d n p s -> n <= NBIT -> 1 <= i <= n ->
  clear_post d n s i (sqlite3BitvecClear t (S f) o p i) o.
Proof.
  intros Hok Hsm Hi.
  inversion Hok as [d' n' p' s' l Hn Hr Hu Hl Hb Hs| |]; subst; [|lia..].
  cbn [sqlite3BitvecClear]. rewrite (proj2 (Z.ltb_lt 0 i)) by lia. crun.
  rewrite (proj2 (Z.leb_le _ NBIT)) by lia. cbv zeta. rewrite Hu. crun.
  destruct (bitmap_byte l (iSize p) i) as [b Hbb]; [lia..|]. rewrite Hbb. crun.
  rewrite wr_Some by (by apply rd_Some_lt in Hbb). crun.
  destruct (bit_pos (i - 1)) as (_ & Hbit & He); [lia|].
  assert (is_byte b) as Hbyte by (by eapply (rd_Forall is_byte)).
  rewrite byte_clear_bit by done.
  eexists _, (fun j => if j =? i then false else s j). split; [reflexivity|]. split.
  - apply (bitmap_update d _ p s l i b (fun b => Z.land b (Z.lnot (Z.shiftl 1 (Z.land (i - 1) 7)))) false Hok); try done.
    + rewrite <- byte_clear_bit by done. done.
    + intros x Hx. rewrite ldiff_bit_spec, He by lia. by case_bool_decide.
  - intros j. by destruct (j =? i).
Qed.

Lemma reset_values_ok d n i f vs :
  NBIT < n -> Forall (fun v => 0 <= v <= n) vs -> forall o p s,
  bv_ok d n p s -> iDivisor p = 0 -> nSet p + used vs < MXHASH ->
  exists p' s', reset_values (sqlite3BitvecSet t (S f)) i o p vs = Ret (p', o)
    /\ bv_ok d n p' s' /\ forall j, s' j = s j || bool_decide (j <> 0 /\ j <> i /\ j ∈ vs).
Proof.
  intros Hbig Hvs. induction Hvs as [|v vs Hv _ IH]; intros o p s Hok H0 Hroom; cbn [reset_values].
  { exists p, s. split; [done|]. split; [done|]. intros j.
    rewrite bool_decide_false by set_solver. by rewrite orb_false_r. }
  unfold used in Hroom. rewrite filter_cons in Hroom. fold (used vs) in Hroom.
  destruct (Z.eqb_spec v 0) as [->|Hv0]; cbn [negb andb].
  - rewrite decide_False in Hroom by lia.
    destruct (IH o p s Hok H0 Hroom) as (p' & s' & -> & Hok' & Hs').
    exists p', s'. split; [done|]. split; [done|]. intros j. rewrite Hs'. f_equal.
    apply bool_decide_ext. set_solver.
  - rewrite decide_True, zlen_cons in Hroom by done. fold (used vs) in Hroom.
    pose proof (used_bound vs) as Hub.
    destruct (Z.eqb_spec v i) as [->|Hvi]; cbn [negb].
    + destruct (IH o p s Hok H0) as (p' & s' & -> & Hok' & Hs'); [lia|].
      exists p', s'. split; [done|]. split; [done|]. intros j. rewrite Hs'. f_equal.
      apply bool_decide_ext. set_solver.
    + destruct (set_hash_case d n p s v o f) as (p1 & s1 & -> & Hok1 & Hs1 & Hd1 & Hn1); [done..|lia|left; lia|].
      crun. destruct (IH o p1 s1 Hok1 Hd1) as (p' & s' & -> & Hok' & Hs'); [lia|].
      exists p', s'. split; [done|]. split; [done|]. intros j. rewrite Hs', Hs1.
      destruct (Z.eqb_spec j v) as [->|Hjv]; cbn [orb].
      * rewrite (bool_decide_true (v <> 0 /\ v <> i /\ v ∈ v :: vs)) by set_solver. by rewrite orb_true_r.
      * f_equal. apply bool_decide_ext. set_solver.
Qed.

Lemma clear_hash_case d n p s i o f :
  bv_ok d n p s -> NBIT < n -> iDivisor p = 0 -> 1 <= i <= n ->
  clear_post d n s i (sqlite3BitvecClear t (S (S f)) o p i) o.
Proof.
  pose proof (layout_facts t) as (HNB & HNC & HNI & HMX & HMX2 & HNP & H32 & HNPB).
  intros Hok Hbig H0 Hi.
  destruct (bv_hash_inv _ _ _ _ Hok Hbig H0) as (l & Hn & Hsz' & Hu & Hl & Hinv & Hns & Hmx & Hv & Hs).
  remember (S f) as f1 eqn:Ef.
  cbn [sqlite3BitvecClear]. rewrite Hn, (proj2 (Z.ltb_lt 0 i)) by lia. crun.
  rewrite (proj2 (Z.leb_gt n NBIT)), H0, Hu by lia. cbn [Z.eqb negb]. crun. cbv zeta.
  set (p0 := mkBitvec n 0 0 (u_hash (replicate (length l) 0))).
  assert (bv_ok d n p0 (fun _ => false)) as Hok0.
  { apply (bv_hash t d n p0 _ (replicate (length l) 0)); try done.
    - by rewrite zlen_replicate.
    - intros k v Hk Hvn. apply rd_elem, elem_of_replicate in Hk as [-> _]. done.
    - by rewrite used_zero.
    - rewrite used_zero. lia.
    - apply Forall_replicate. lia.
    - intros k. symmetry. apply bool_decide_eq_false. intros [Hk [Hx _]%elem_of_replicate]. done. }
  subst f1. destruct (reset_values_ok d n i f l Hbig Hv o p0 _ Hok0) as (p' & s' & -> & Hok' & Hs'); [done|simpl; lia|].
  exists p', s'. split; [done|]. split; [done|]. intros j. rewrite Hs', Hs. cbn [orb].
  destruct (Z.eqb_spec j i) as [->|Hne]; cbn [negb andb].
  - apply bool_decide_eq_false. naive_solver.
  - apply bool_decide_ext. naive_solver.
Qed.

Lemma clear_ok d : forall fuel n p s i o,
  bv_ok d n p s -> 1 <= i <= n -> (2 * d < fuel)%nat ->
  clear_post d n s i (sqlite3BitvecClear t fuel o p i) o.
Proof.
  pose proof (layout_facts t) as (HNB & HNC & HNI & HMX & HMX2 & HNP & H32 & HNPB).
  induction d as [|d IH]; intros fuel n p s i o Hok Hi Hf; (destruct fuel as [|f]; [lia|]).
  { apply clear_bitmap_case; [done| |done]. apply bv_ok_size in Hok as [_ Hb]. change (NPTR ^ Z.of_nat 0) with 1 in Hb. lia. }
  destruct (Z.leb_spec n NBIT) as [Hsm|Hbig]; [by apply clear_bitmap_case|].
  destruct (decide (iDivisor p = 0)) as [H0|Hne].
  { destruct f as [|f]; [lia|]. by apply clear_hash_case. }
  destruct (bv_sub_inv _ _ _ _ Hok Hbig Hne) as (d' & l & [= <-] & Hn & Hsz' & HD & Hu & Hl & Hnone & Hsub).
  destruct (divisor_facts d n) as (HD1 & HD2 & HD3); [lia|]. rewrite <- HD in *.
  cbn [sqlite3BitvecClear]. rewrite Hn, (proj2 (Z.ltb_lt 0 i)) by lia. crun.
  rewrite (proj2 (Z.leb_gt n NBIT)), (proj2 (Z.eqb_neq (iDivisor p) 0)) by lia. cbn [negb]. cbv zeta.
  rewrite Hu. crun. set (D := iDivisor p) in *. set (bin := (i - 1) / D). set (i' := (i - 1) mod D + 1).
  destruct (sub_lookup l n D i) as [q Hq]; [done|lia..|]. fold bin in Hq. rewrite Hq. crun.
  destruct (sub_pos n D i) as (Hbin & Hi' & Hpos); [lia..|]. fold bin i' in Hbin, Hi', Hpos.
  pose proof (sub_set_at n D s i) as Hat. fold bin i' in Hat.
  destruct q as [q|].
  - destruct (IH f D q (sub_set D s bin) i' o) as (q2 & s1 & -> & Hok1 & Hs1); [by apply Hsub|lia|lia|].
    crun. rewrite wr_Some by lia. crun.
    eexists _, (upd D s bin s1). split; [reflexivity|]. split.
    + apply sub_update; try done. intros k Hk. rewrite Hs1 in Hk. apply andb_true_iff in Hk as [_ Hk].
      apply andb_true_iff in Hk as [_ Hk]. apply (bv_ok_range _ _ _ _ _ Hok) in Hk. lia.
    + intros j. unfold upd. destruct ((1 <=? j) && ((j - 1) / D =? bin)) eqn:E.
      * assert (1 <= j /\ (j - 1) / D = bin) as [Hj Hjb] by lia. rewrite Hs1.
        unfold sub_set. pose proof (Z.div_mod (j - 1) D). pose proof (Z.mod_pos_bound (j - 1) D).
        replace (bin * D + ((j - 1) mod D + 1)) with j by lia.
        rewrite (proj2 (Z.leb_le 1 _)), (proj2 (Z.leb_le _ D)) by lia. cbn [andb]. do 2 f_equal.
        unfold i' in *. lia.
      * destruct (Z.eqb_spec j i) as [->|]; [|done]. unfold bin in E. lia.
  - exists p, s. split; [done|]. split; [done|]. intros j.
    destruct (Z.eqb_spec j i) as [->|]; [|done].
    rewrite <- Hat, (Hnone _ Hq) by lia. done.
Qed.

(** ** A bitmap under a client *)

Inductive bv_op := BSet (i : Z) | BClear (i : Z) | BTest (i : Z).

Definition bv_op_ok (n : Z) (op : bv_op) : Prop :=
  match op with BSet i | BClear i => 1 <= i <= n | BTest i => 0 <= i end.

(** The return codes of the calls that set, and the answers of the tests. *)
Fixpoint bv_run (ops : list bv_op) (o : list bool) (p : Bitvec) : res (list Z * list bool) :=
  match ops with
  | [] => Ret ([], [])
  | BSet i :: ops =>
      '(rc, p, o) ← sqlite3BitvecSet t bitvec_fuel o p i;
      '(codes, tests) ← bv_run ops o p; Ret (rc :: codes, tests)
  | BClear i :: ops =>
      '(p, o) ← sqlite3BitvecClear t bitvec_fuel o p i; bv_run ops o p
  | BTest i :: ops =>
      b ← sqlite3BitvecTest t bitvec_fuel (Some p) i;
      '(codes, tests) ← bv_run ops o p; Ret (codes, b :: tests)
  end.

(** The answers of a set of numbers. *)
Fixpoint set_run (ops : list bv_op) (S : gset Z) : list bool :=
  match ops with
  | [] => []
  | BSet i :: ops => set_run ops ({[i]} ∪ S)
  | BClear i :: ops => set_run ops (S ∖ {[i]})
  | BTest i :: ops => bool_decide (i ∈ S) :: set_run ops S
  end.

Lemma bv_run_ok n ops : size_ok n -> Forall (bv_op_ok n) ops -> forall o p s S,
  bv_ok 4 n p s -> (forall j, s j = true -> j ∈ S) ->
  exists codes tests, bv_run ops o p = Ret (codes, tests)
    /\ Forall2 (fun b r => b = true -> r = true) tests (set_run ops S)
    /\ ((forall j, s j = bool_decide (j ∈ S)) -> Forall (eq SQLITE_OK) codes -> tests = set_run ops S)
    /\ (Forall (eq true) o -> Forall (eq SQLITE_OK) codes).
Proof.
  intros Hsz Hops. induction Hops as [|op ops Hop _ IH]; intros o p s S Hok HsS.
  { exists [], []. repeat constructor. }
  destruct op as [i|i|i]; cbn [bv_run set_run]; simpl in Hop.
  - destruct (set_ok 4 bitvec_fuel n p s i o) as (rc & p1 & o1 & s1 & -> & Hok1 & Hs1 & Hrc & Ho & _);
      [done..|unfold bitvec_fuel; lia|]. crun.
    destruct (IH o1 p1 s1 ({[i]} ∪ S) Hok1) as (codes & tests & -> & Hle & Heq & Hall).
    { intros j Hj. destruct (Hs1 j Hj); set_solver. }
    exists (rc :: codes), tests. split; [done|]. split; [done|]. split.
    + intros He Hc. inversion_clear Hc as [|? ? H0 Hc']. apply Heq; [|done].
      intros j. rewrite Hrc, He by done. destruct (Z.eqb_spec j i) as [->|]; cbn [orb].
      * symmetry. apply bool_decide_eq_true. set_solver.
      * apply bool_decide_ext. set_solver.
    + intros Hto. destruct (Ho Hto) as [-> Ho1]. constructor; [done|]. by apply Hall.
  - destruct (clear_ok 4 bitvec_fuel n p s i o) as (p1 & s1 & -> & Hok1 & Hs1);
      [done..|unfold bitvec_fuel; lia|]. crun.
    destruct (IH o p1 s1 (S ∖ {[i]}) Hok1) as (codes & tests & -> & Hle & Heq & Hall).
    { intros j Hj. rewrite Hs1 in Hj. apply andb_true_iff in Hj as [Hj Hsj]. apply HsS in Hsj.
      apply negb_true_iff, Z.eqb_neq in Hj. set_solver. }
    exists codes, tests. split; [done|]. split; [done|]. split; [|done].
    intros He. apply Heq. intros j. rewrite Hs1, He. destruct (Z.eqb_spec j i) as [->|]; cbn [negb andb].
    + symmetry. apply bool_decide_eq_false. set_solver.
    + apply bool_decide_ext. set_solver.
  - rewrite (test_ok 4 n p s i) by (done || unfold bitvec_fuel; lia). crun.
    destruct (IH o p s S Hok HsS) as (codes & tests & -> & Hle & Heq & Hall).
    exists codes, (s i :: tests). split; [done|]. split; [|split; [|done]].
    + constructor; [|done]. intros Hi. apply bool_decide_eq_true. by apply HsS.
    + intros He Hc. by rewrite (Heq He Hc), He.
Qed.

End proofs.

(** On a system with 32-bit pointers and size_t, a bitmap of 2^32 - 124 numbers
    or more gets the divisor 0 when its hash table is full: the sum in
    [(iSize + BITVEC_NPTR - 1)/BITVEC_NPTR] wraps. [sqlite3BitvecSet] then
    finds a full table again and calls itself, whatever the depth (up to the
    wrap of [nSet]). *)
Lemma bitvec_divisor_wraps (fuel : nat) (o : list bool) (n s i : Z) :
  2 ^ 32 - 124 <= n < 2 ^ 32 -> 1 <= i <= n ->
  BITVEC_MXHASH ILP32 <= s + 1 -> 0 <= s -> s + Z.of_nat fuel < 2 ^ 32 ->
  sqlite3BitvecSet ILP32 fuel o (mkBitvec n s 0 u_zero) i = NoFuel.
Proof.
  intros Hn Hi. revert s. induction fuel as [|fuel IH]; intros s Hs H0 Hf; [done|].
  cbn [sqlite3BitvecSet iSize iDivisor bv_u nSet aHash].
  rewrite (proj2 (Z.ltb_lt 0 i)), (proj2 (Z.leb_le i n)) by lia. cbn [c_assert]. crun.
  rewrite (proj2 (Z.leb_gt n (BITVEC_NBIT ILP32))) by (change (BITVEC_NBIT ILP32) with 4000; lia).
  cbn [Z.eqb negb].
  assert (0 <= BITVEC_HASH ILP32 i < 125) as Hh by (unfold BITVEC_HASH; by apply Z.mod_pos_bound).
  assert (forall k, set_probe ILP32 (S k) (replicate (Z.to_nat (BITVEC_NINT ILP32)) 0) i (BITVEC_HASH ILP32 i)
            = Ret (Some (BITVEC_HASH ILP32 i))) as ->.
  { intros k. cbn [set_probe]. change (BITVEC_NINT ILP32) with 125.
    unfold rd. rewrite decide_True, lookup_replicate_2 by lia. crun. done. }
  crun. assert (u32 (s + 1) = s + 1) as -> by (apply Z.mod_small; lia).
  rewrite (proj2 (Z.leb_le _ (s + 1))) by done.
  assert (u32 (size_t ILP32 (n + BITVEC_NPTR ILP32 - 1) / BITVEC_NPTR ILP32) = 0) as ->.
  { change (BITVEC_NPTR ILP32) with 125. unfold size_t. simpl size_bits.
    replace (n + 125 - 1) with (n + 124 - 2 ^ 32 + 1 * 2 ^ 32) by lia.
    rewrite Z_mod_plus_full, Z.mod_small, Z.div_small by lia. done. }
  rewrite IH; [done | lia..].
Qed.

(** C19: A bitmap that was just created behaves, under every sequence of set,
    clear and test calls in its range, as a set of numbers: no call leaves the
    memory of the bitmap or fails to return, with the recursion bounded by
    [bitvec_fuel], for every 32-bit size with 64-bit pointers, and for every
    size below 2^32 - 124 with 32-bit pointers ([bitvec_divisor_wraps] shows
    the others). When every call that sets reports
    success, all tests are right, and they do when memory does not run out;
    after a failed allocation numbers may be lost, but a test never answers
    yes for a number that is not in the set. *)
Theorem bitvec_refines_set (t : target) (n : Z) (ops : list bv_op) (o : list bool) (p : Bitvec) (o' : list bool)
    (Hn : 0 <= n < 2 ^ 32) (Hw : n + BITVEC_NPTR t - 1 < 2 ^ size_bits t)
    (Hops : Forall (bv_op_ok n) ops) (Hp : sqlite3BitvecCreate o n = (Some p, o')) :
  exists codes tests, bv_run t ops o' p = Ret (codes, tests)
    /\ Forall2 (fun b r => b = true -> r = true) tests (set_run ops ∅)
    /\ (Forall (eq SQLITE_OK) codes -> tests = set_run ops ∅)
    /\ (Forall (eq true) o' -> Forall (eq SQLITE_OK) codes).
Proof.
  assert (p = mkBitvec n 0 0 u_zero) as ->.
  { unfold sqlite3BitvecCreate in Hp. destruct (next_alloc o) as [[] ?]; by simplify_eq. }
  destruct (bv_run_ok t n ops (conj (proj2 Hn) Hw) Hops o' (mkBitvec n 0 0 u_zero) (fun _ => false) ∅)
    as (codes & tests & Hrun & Hle & Heq & Hall).
  - apply bv_fresh. pose proof (layout_facts t). lia.
  - done.
  - exists codes, tests. split; [done|]. split; [done|]. split; [|done]. apply Heq.
    intros j. symmetry. apply bool_decide_eq_false. set_solver.
Qed.

Lemma bitvec_refines_set_witness :
  let ops := [BSet 7; BSet 100000; BTest 7; BClear 7; BTest 7; BTest 100000] in
  exists codes tests, bv_run LP64 ops [] (mkBitvec 100000 0 0 u_zero) = Ret (codes, tests)
    /\ Forall2 (fun b r => b = true -> r = true) tests (set_run ops ∅)
    /\ (Forall (eq SQLITE_OK) codes -> tests = set_run ops ∅)
    /\ (Forall (eq true) [] -> Forall (eq SQLITE_OK) codes).
Proof.
  apply (bitvec_refines_set LP64 100000 _ []); [lia|vm_compute; reflexivity| |reflexivity].
  repeat constructor; simpl; lia.
Defined.
