(* ===== verification/VdbeFifo.v ===== *)
(** * Queue of rowids in linked pages

    Model of misc/sqlite/vdbefifo.c: a queue of 64-bit integers in a chain of
    pages, each an array that is written from the left and read from the left.
    The pages live in a heap of blocks, because the first and the last page
    are reached by two pointers that may be equal; a page that was freed can
    not be touched again. *)

From S2P Require Import Prelude.

Record FifoPage := mkPage {
  nSlot : Z;
  iWrite : Z;
  iRead : Z;
  pNext : option nat;
  aSlot : list (option Z);   (** [None]: never written *)
}.

Record Fifo := mkFifo {
  nEntry : Z;
  pFirst : option nat;
  pLast : option nat;
}.

(** Blocks by address; [None] was freed. *)
Notation heap := (list (option FifoPage)).

Definition load (h : heap) (l : nat) : res FifoPage :=
  match h !! l with Some (Some p) => Ret p | _ => UB end.

Definition store (h : heap) (l : nat) (p : FifoPage) : heap := <[l := Some p]> h.

Definition sqlite3_free (h : heap) (l : nat) : heap := <[l := None]> h.

Definition FIFO_OK : Z := 0.
Definition FIFO_NOMEM : Z := 7.
Definition FIFO_DONE : Z := 101.

Section fifo.
Context (t : target).

(** [sizeof(FifoPage)] with one slot. *)
Definition sizeof_FifoPage : Z := match t with ILP32 => 24 | LP64 => 32 end.
Definition FIFOSIZE_FIRST : Z := (128 - sizeof_FifoPage) / 8 + 1.
Definition FIFOSIZE_MAX : Z := (262144 - sizeof_FifoPage) / 8 + 1.

(** [o]: the answers of the allocator. *)
Definition allocateFifoPage (h : heap) (o : list bool) (n : Z) : option nat * heap * list bool :=
  let n := if FIFOSIZE_MAX <? n then FIFOSIZE_MAX else n in
  let '(ok, o) := next_alloc o in
  if ok then (Some (length h), h ++ [Some (mkPage n 0 0 None (replicate (Z.to_nat n) None))], o)
  else (None, h, o).

Definition sqlite3VdbeFifoInit : Fifo := mkFifo 0 None None.

(** The two ways to a page that has room. *)
Definition fifo_room (h : heap) (o : list bool) (f : Fifo)
    : res (option nat * Fifo * heap * list bool) :=
  match pLast f with
  | None =>
      let '(p, h, o) := allocateFifoPage h o FIFOSIZE_FIRST in
      Ret (p, mkFifo (nEntry f) p p, h, o)
  | Some l =>
      pPage ← load h l;
      if nSlot pPage <=? iWrite pPage then
        let '(p, h, o) := allocateFifoPage h o (nEntry f) in
        pPage ← load h l;
        let h := store h l (mkPage (nSlot pPage) (iWrite pPage) (iRead pPage) p (aSlot pPage)) in
        Ret (p, (match p with Some _ => mkFifo (nEntry f) (pFirst f) p | None => f end), h, o)
      else Ret (Some l, f, h, o)
  end.

Definition sqlite3VdbeFifoPush (h : heap) (o : list bool) (f : Fifo) (val : Z)
    : res (Z * Fifo * heap * list bool) :=
  '(p, f, h, o) ← fifo_room h o f;
  match p with
  | None => Ret (FIFO_NOMEM, f, h, o)
  | Some l =>
      pPage ← load h l;
      slots ← of_opt (wr (aSlot pPage) (iWrite pPage) (Some val));
      w ← sint (iWrite pPage + 1);
      let h := store h l (mkPage (nSlot pPage) w (iRead pPage) (pNext pPage) slots) in
      n ← sint (nEntry f + 1);
      Ret (FIFO_OK, mkFifo n (pFirst f) (pLast f), h, o)
  end.

Definition sqlite3VdbeFifoPop (h : heap) (f : Fifo) : res (Z * option Z * Fifo * heap) :=
  if nEntry f =? 0 then Ret (FIFO_DONE, None, f, h) else
  c_assert (0 <? nEntry f);;
  l ← of_opt (pFirst f);
  pPage ← load h l;
  c_assert (iRead pPage <? iWrite pPage);;
  c_assert (iWrite pPage <=? nSlot pPage);;
  c_assert (iRead pPage <? nSlot pPage);;
  c_assert (0 <=? iRead pPage);;
  cell ← of_opt (rd (aSlot pPage) (iRead pPage));
  val ← of_opt cell;
  let r := iRead pPage + 1 in
  let h := store h l (mkPage (nSlot pPage) (iWrite pPage) r (pNext pPage) (aSlot pPage)) in
  let n := nEntry f - 1 in
  if iWrite pPage <=? r then
    let first := pNext pPage in
    let h := sqlite3_free h l in
    if n =? 0 then
      c_assert (bool_decide (pLast f = Some l));;
      Ret (FIFO_OK, Some val, mkFifo n first None, h)
    else
      c_assert (bool_decide (first <> None));;
      Ret (FIFO_OK, Some val, mkFifo n first (pLast f), h)
  else
    c_assert (0 <? n);;
    Ret (FIFO_OK, Some val, mkFifo n (pFirst f) (pLast f), h).

Fixpoint fifo_clear_loop (fuel : nat) (h : heap) (p : option nat) : res heap :=
  match fuel, p with
  | _, None => Ret h
  | O, _ => NoFuel
  | S fuel, Some l =>
      pPage ← load h l;
      fifo_clear_loop fuel (sqlite3_free h l) (pNext pPage)
  end.

Definition sqlite3VdbeFifoClear (h : heap) (f : Fifo) : res (Fifo * heap) :=
  h ← fifo_clear_loop (length h) h (pFirst f);
  Ret (sqlite3VdbeFifoInit, h).

(** ** The queue that a fifo stands for *)

(** The entries of a page that are to be read. *)
Definition page_vals (p : FifoPage) : list (option Z) :=
  take (Z.to_nat (iWrite p - iRead p)) (drop (Z.to_nat (iRead p)) (aSlot p)).

Definition page_ok (p : FifoPage) : Prop :=
  0 <= iRead p < iWrite p /\ iWrite p <= nSlot p /\ nSlot p = zlen (aSlot p)
  /\ nSlot p <= FIFOSIZE_MAX.

Record fifo_rep (h : heap) (f : Fifo) (ls : list nat) (ps : list FifoPage) (q : list Z) : Prop := {
  rep_pages : Forall2 (fun l p => h !! l = Some (Some p)) ls ps;
  rep_nodup : NoDup ls;
  rep_links : forall i p, ps !! i = Some p -> pNext p = ls !! S i;
  rep_ok : Forall page_ok ps;
  rep_first : pFirst f = head ls;
  rep_last : pLast f = last ls;
  rep_vals : mjoin (page_vals <$> ps) = Some <$> q;
  rep_entries : nEntry f = zlen q;
  rep_live : forall l p, h !! l = Some (Some p) -> l ∈ ls;   (** no page is leaked *)
}.

(** ** Pages *)

Lemma page_vals_push p v :
  0 <= iRead p <= iWrite p -> iWrite p < zlen (aSlot p) ->
  page_vals (mkPage (nSlot p) (iWrite p + 1) (iRead p) (pNext p) (<[Z.to_nat (iWrite p) := Some v]> (aSlot p)))
  = page_vals p ++ [Some v].
Proof.
  intros Hr Hw. destruct p as [n w r nx s]; simpl in *. unfold page_vals; simpl.
  destruct (list_split_at s w) as (a & x & b & -> & <-); [lia|].
  pose proof (wr_middle a b x (Some v)) as Hins. rewrite wr_Some in Hins by size. injection Hins as ->.
  rewrite !drop_app_le by size.
  replace (Z.to_nat (zlen a + 1 - r)) with (length (drop (Z.to_nat r) a) + 1)%nat by size.
  replace (Z.to_nat (zlen a - r)) with (length (drop (Z.to_nat r) a)) by size.
  by rewrite take_app_add, take_app_length.
Qed.

Lemma page_vals_pop p :
  0 <= iRead p < iWrite p -> iWrite p <= zlen (aSlot p) ->
  exists x, rd (aSlot p) (iRead p) = Some x
    /\ page_vals p = x :: page_vals (mkPage (nSlot p) (iWrite p) (iRead p + 1) (pNext p) (aSlot p)).
Proof.
  intros Hr Hw. destruct p as [n w r nx s]; simpl in *. unfold page_vals; simpl.
  destruct (list_split_at s r) as (a & x & b & -> & <-); [lia|]. exists x.
  split; [apply rd_middle|]. rewrite drop_app_zlen.
  replace (Z.to_nat (zlen a + 1)) with (length a + 1)%nat by size. rewrite drop_app_add. simpl.
  rewrite drop_0. by replace (Z.to_nat (w - zlen a)) with (S (Z.to_nat (w - (zlen a + 1)))) by size.
Qed.

Lemma page_vals_done p : iWrite p <= iRead p -> page_vals p = [].
Proof. intros H. unfold page_vals. by replace (Z.to_nat (iWrite p - iRead p)) with 0%nat by lia. Qed.

(** The pages of the chain [ls] in the heap. *)
Notation pages h ls ps := (Forall2 (fun l p => h !! l = Some (Some p)) ls ps).

Lemma pages_frame (h h' : heap) ls ps :
  pages h ls ps -> (forall l, l ∈ ls -> h' !! l = h !! l) -> pages h' ls ps.
Proof.
  induction 1 as [|l p ls ps Hl _ IH]; intros Hf; constructor.
  - rewrite Hf; [done|]. by left.
  - apply IH. intros l' Hl'. apply Hf. by right.
Qed.

Lemma pages_nonempty ps : Forall page_ok ps -> mjoin (page_vals <$> ps) = [] -> ps = [].
Proof.
  destruct 1 as [|p ps Hp _]; [done|]. cbn. intros H.
  destruct Hp as (Hr & Hw & Hn & _). destruct (page_vals_pop p) as (x & _ & Hx); [lia..|].
  by rewrite Hx in H.
Qed.

Lemma page_bound h f ls ps q i p :
  fifo_rep h f ls ps q -> ps !! i = Some p -> exists l, ls !! i = Some l /\ h !! l = Some (Some p).
Proof. intros Hrep Hp. by destruct (Forall2_lookup_r _ _ _ _ _ (rep_pages _ _ _ _ _ Hrep) Hp) as (l & ? & ?); eauto. Qed.

(** A chain with a last page. *)
Lemma chain_last h f ls ps q l :
  fifo_rep h f ls ps q -> pLast f = Some l ->
  exists ls0 ps0 p, ls = ls0 ++ [l] /\ ps = ps0 ++ [p] /\ h !! l = Some (Some p)
    /\ pages h ls0 ps0 /\ length ls0 = length ps0 /\ l ∉ ls0.
Proof.
  intros Hrep Hl. pose proof (rep_last _ _ _ _ _ Hrep) as Hlast. rewrite Hl in Hlast.
  destruct ls as [|l0 ls0 _] using rev_ind; [done|]. rewrite last_snoc in Hlast. injection Hlast as <-.
  pose proof (rep_pages _ _ _ _ _ Hrep) as Hp. apply Forall2_app_inv_l in Hp as (ps0 & ps1 & Hp0 & Hp1 & ->).
  inversion Hp1 as [|? p ? ? Hlp Hnil]; subst. inversion Hnil; subst.
  exists ls0, ps0, p. repeat split; try done; [by eapply Forall2_length|].
  pose proof (rep_nodup _ _ _ _ _ Hrep) as Hnd. apply NoDup_app in Hnd as (_ & Hd & _).
  intros Hin. apply (Hd l Hin). by left.
Qed.

(** Replacing the last page of the chain by one with the same link. *)
Lemma rep_set_last h f ls0 l ps0 p p' q q' f' :
  fifo_rep h f (ls0 ++ [l]) (ps0 ++ [p]) q -> length ls0 = length ps0 -> l ∉ ls0 ->
  page_ok p' -> pNext p' = pNext p -> page_vals p' = page_vals p ++ (Some <$> q') ->
  pFirst f' = pFirst f -> pLast f' = pLast f -> nEntry f' = zlen (q ++ q') ->
  fifo_rep (store h l p') f' (ls0 ++ [l]) (ps0 ++ [p']) (q ++ q').
Proof.
  intros [Hp Hnd Hlk Hok Hf Hl Hv He Hlive] Hlen Hni Hok' Hnx Hvals Hf' Hl' He'.
  apply Forall2_app_inv_l in Hp as (ps1 & ps2 & Hp0 & Hp1 & Heq).
  assert (ps1 = ps0 /\ ps2 = [p]) as [-> ->].
  { apply app_inj_1 in Heq as [-> ->]; [done|]. apply Forall2_length in Hp0. lia. }
  inversion Hp1 as [|? ? ? ? Hlp _]; subst.
  assert (l < length h)%nat as Hlt by (by eapply lookup_lt_Some).
  split; try congruence.
  - apply Forall2_app.
    + apply (pages_frame h); [done|]. intros l' Hl0. unfold store. rewrite list_lookup_insert_ne; [done|].
      by intros ->.
    + constructor; [|constructor]. unfold store. by apply list_lookup_insert_eq.
  - intros i pi Hi. destruct (decide (i < length ps0)%nat) as [Hi0|Hi0].
    + rewrite lookup_app_l in Hi by done. apply Hlk. by rewrite lookup_app_l.
    + rewrite lookup_app_r in Hi by lia. apply list_lookup_singleton_Some in Hi as [Hi <-].
      rewrite Hnx. apply Hlk. rewrite lookup_app_r by lia. by rewrite list_lookup_singleton_Some.
  - apply Forall_app in Hok as [Hok _]. apply Forall_app. split; [done|by constructor].
  - rewrite fmap_app, join_app in Hv |- *. rewrite fmap_app, <- Hv. simpl.
    by rewrite Hvals, !app_nil_r, app_assoc.
  - intros l' p2 Hl2. unfold store in Hl2. destruct (decide (l = l')) as [<-|Hne].
    + apply elem_of_app. right. by left.
    + rewrite list_lookup_insert_ne in Hl2 by done. by eapply Hlive.
Qed.

Definition with_next (p : FifoPage) (nx : option nat) : FifoPage :=
  mkPage (nSlot p) (iWrite p) (iRead p) nx (aSlot p).

(** The first page of an empty queue. *)
Lemma rep_first_page h f f' np v :
  fifo_rep h f [] [] [] -> page_ok np -> pNext np = None -> page_vals np = [Some v] ->
  f' = mkFifo 1 (Some (length h)) (Some (length h)) ->
  fifo_rep (h ++ [Some np]) f' [length h] [np] [v].
Proof.
  intros [_ _ _ _ _ _ _ _ Hlive] Hok Hnx Hvals ->. split; try done.
  - constructor; [|constructor]. by rewrite list_lookup_middle.
  - apply NoDup_singleton.
  - intros i p Hi. apply list_lookup_singleton_Some in Hi as [-> <-]. done.
  - by constructor.
  - simpl. by rewrite Hvals.
  - intros l p Hl. apply lookup_app_Some in Hl as [Hl|[Hge Hl]]; [by apply Hlive in Hl; inversion Hl|].
    apply list_lookup_singleton_Some in Hl as [Hl _]. apply list_elem_of_singleton. lia.
Qed.

(** A new page behind the last one. *)
Lemma rep_next_page h f f' ls0 l ps0 p q np v :
  fifo_rep h f (ls0 ++ [l]) (ps0 ++ [p]) q -> length ls0 = length ps0 -> l ∉ ls0 ->
  page_ok np -> pNext np = None -> page_vals np = [Some v] ->
  f' = mkFifo (zlen q + 1) (pFirst f) (Some (length h)) ->
  fifo_rep (store h l (with_next p (Some (length h))) ++ [Some np]) f' ((ls0 ++ [l]) ++ [length h])
    ((ps0 ++ [with_next p (Some (length h))]) ++ [np]) (q ++ [v]).
Proof.
  intros [Hp Hnd Hlk Hok Hf Hl Hv He Hlive] Hlen Hni Hok' Hnx Hvals ->.
  pose proof (Forall2_length _ _ _ Hp) as Hlens. rewrite !length_app in Hlens. simpl in Hlens.
  apply Forall2_app_inv_l in Hp as (ps1 & ps2 & Hp0 & Hp1 & Heq).
  assert (ps1 = ps0 /\ ps2 = [p]) as [-> ->].
  { apply app_inj_1 in Heq as [-> ->]; [done|]. apply Forall2_length in Hp0. lia. }
  inversion Hp1 as [|? ? ? ? Hlp _]; subst.
  assert (l < length h)%nat as Hlt by (by eapply lookup_lt_Some).
  assert (forall l', l' ∈ ls0 -> (l' < length h)%nat) as Hin0.
  { intros l' Hl'. apply list_elem_of_lookup in Hl' as [i Hi].
    destruct (Forall2_lookup_l _ _ _ _ _ Hp0 Hi) as (p' & _ & Hp'). by eapply lookup_lt_Some. }
  apply Forall_app in Hok as [Hok Hokp]. inversion_clear Hokp as [|? ? Hokp' _].
  split.
  - apply Forall2_app; [apply Forall2_app|].
    + apply (pages_frame h); [done|]. intros l' Hl'. rewrite lookup_app_l by (unfold store; rewrite length_insert; auto).
      apply list_lookup_insert_ne. by intros ->.
    + constructor; [|constructor]. rewrite lookup_app_l by (unfold store; by rewrite length_insert).
      by apply list_lookup_insert_eq.
    + constructor; [|constructor]. apply list_lookup_middle. unfold store. by rewrite length_insert.
  - apply NoDup_app. split; [done|]. split; [|apply NoDup_singleton].
    intros l' Hl' ->%list_elem_of_singleton. apply elem_of_app in Hl' as [Hl'|Hl'].
    + apply Hin0 in Hl'. lia.
    + apply list_elem_of_singleton in Hl'. lia.
  - intros i pi Hi. apply lookup_app_Some in Hi as [Hi|[Hge Hi]].
    + apply lookup_app_Some in Hi as [Hi|[Hge Hi]].
      * rewrite lookup_app_l; [apply Hlk; by apply lookup_app_l_Some|].
        apply lookup_lt_Some in Hi. rewrite length_app. simpl. lia.
      * apply list_lookup_singleton_Some in Hi as [Hi <-]. simpl.
        rewrite lookup_app_r by (rewrite length_app; simpl; lia).
        symmetry. apply list_lookup_singleton_Some. split; [rewrite length_app; simpl; lia|done].
    + apply list_lookup_singleton_Some in Hi as [Hi <-]. rewrite length_app in Hi, Hge. simpl in *.
      rewrite Hnx. symmetry. apply lookup_ge_None. rewrite !length_app. simpl. lia.
  - apply Forall_app. split; [apply Forall_app; split; [done|]|]; by constructor.
  - simpl. rewrite Hf. by destruct ls0.
  - simpl. by rewrite last_snoc.
  - rewrite fmap_app, join_app, (fmap_app page_vals), join_app.
    change (mjoin (page_vals <$> [with_next p (Some (length h))])) with (mjoin (page_vals <$> [p])).
    rewrite <- join_app, <- fmap_app, Hv, fmap_app. by simpl; rewrite Hvals.
  - simpl. size.
  - intros l' p' Hl'. apply lookup_app_Some in Hl' as [Hl'|[Hge Hl']].
    + apply elem_of_app. left. unfold store in Hl'. destruct (decide (l = l')) as [<-|Hne].
      * apply elem_of_app. right. by left.
      * rewrite list_lookup_insert_ne in Hl' by done. by eapply Hlive.
    + apply list_lookup_singleton_Some in Hl' as [Hl' _]. unfold store in *. rewrite length_insert in *.
      apply elem_of_app. right. apply list_elem_of_singleton. lia.
Qed.

(** ** Operations *)

Lemma fifo_sizes : 1 <= FIFOSIZE_FIRST <= FIFOSIZE_MAX /\ FIFOSIZE_MAX < 2 ^ 31.
Proof. unfold FIFOSIZE_FIRST, FIFOSIZE_MAX, sizeof_FifoPage. destruct t; repeat split; vm_compute; congruence. Qed.

Lemma load_store h l p : (l < length h)%nat -> load (store h l p) l = Ret p.
Proof. intros H. unfold load, store. by rewrite list_lookup_insert_eq. Qed.

Lemma load_new h p : load (h ++ [Some p]) (length h) = Ret p.
Proof. unfold load. by rewrite list_lookup_middle. Qed.

Lemma load_app_l h x l : (l < length h)%nat -> load (h ++ x) l = load h l.
Proof. intros H. unfold load. by rewrite lookup_app_l. Qed.

Lemma store_new h p p' : store (h ++ [Some p]) (length h) p' = h ++ [Some p'].
Proof. unfold store. rewrite insert_app_r_alt by lia. by rewrite Nat.sub_diag. Qed.

(** A page as [allocateFifoPage] delivers it, with its first entry. *)
Definition first_entry (n v : Z) : FifoPage :=
  mkPage n 1 0 None (<[0%nat := Some v]> (replicate (Z.to_nat n) None)).

Lemma first_entry_ok n v : 1 <= n <= FIFOSIZE_MAX -> page_ok (first_entry n v) /\ page_vals (first_entry n v) = [Some v].
Proof.
  intros Hn. split.
  - unfold page_ok, first_entry. simpl. size.
  - apply (page_vals_push (mkPage n 0 0 None (replicate (Z.to_nat n) None)) v); simpl; [lia|size].
Qed.

Definition push_post (h : heap) (ls : list nat) (ps : list FifoPage) (q : list Z) (v : Z) (o : list bool)
    (r : res (Z * Fifo * heap * list bool)) : Prop :=
  exists rc f' h' o', r = Ret (rc, f', h', o')
    /\ (rc = FIFO_OK /\ (exists ls' ps', fifo_rep h' f' ls' ps' (q ++ [v]))
        \/ rc = FIFO_NOMEM /\ fifo_rep h' f' ls ps q /\ ~ Forall (eq true) o)
    /\ (Forall (eq true) o -> Forall (eq true) o').

Lemma next_alloc_cases o : exists o', (Forall (eq true) o -> Forall (eq true) o')
  /\ (next_alloc o = (true, o') \/ next_alloc o = (false, o') /\ ~ Forall (eq true) o).
Proof.
  destruct o as [|[] o]; [exists []; auto|exists o|exists o]; (split; [by inversion 1|]); [by left|right].
  split; [done|]. by inversion 1.
Qed.

Lemma push_empty h f v o :
  fifo_rep h f [] [] [] -> push_post h [] [] [] v o (sqlite3VdbeFifoPush h o f v).
Proof.
  intros Hrep. pose proof fifo_sizes. pose proof (rep_entries _ _ _ _ _ Hrep : nEntry f = 0) as He.
  unfold sqlite3VdbeFifoPush, fifo_room.
  rewrite (rep_last _ _ _ _ _ Hrep). cbn [last]. unfold allocateFifoPage.
  rewrite (proj2 (Z.ltb_ge FIFOSIZE_MAX _)) by lia.
  destruct (next_alloc_cases o) as (o' & Ho & [->|[-> Hno]]).
  - rewrite bind_ret_l. cbv beta iota. rewrite load_new, bind_ret_l. cbn [iWrite nSlot iRead pNext aSlot].
    rewrite wr_Some by size. crun. cbn [nEntry pFirst pLast].
    rewrite (sint_id (0 + 1)), (sint_id (nEntry f + 1)) by lia. crun. rewrite store_new, He. eexists _, _, _, o'. split; [reflexivity|]. split; [|done].
    left. split; [done|]. destruct (first_entry_ok FIFOSIZE_FIRST v) as [Hok Hv]; [lia|].
    exists [length h], [first_entry FIFOSIZE_FIRST v]. by apply (rep_first_page h f).
  - eexists _, _, _, o'. split; [reflexivity|]. split; [|done]. right. split; [done|]. split; [|done].
    destruct Hrep as [? ? ? ? ? ? ? ? Hlive]. by split.
Qed.

Lemma push_ok h f ls ps q v o :
  fifo_rep h f ls ps q -> zlen q + 1 < 2 ^ 31 -> push_post h ls ps q v o (sqlite3VdbeFifoPush h o f v).
Proof.
  intros Hrep Hq. pose proof fifo_sizes. pose proof (zlen_nonneg q).
  destruct (pLast f) as [l|] eqn:El.
  - destruct (chain_last _ _ _ _ _ _ Hrep El) as (ls0 & ps0 & p & -> & -> & Hp & Hpages & Hlen & Hni).
    pose proof (rep_ok _ _ _ _ _ Hrep) as Hok. apply Forall_app in Hok as [_ Hok].
    inversion_clear Hok as [|? ? Hpok _]. pose proof Hpok as (Hr & Hw & Hsz & Hmax).
    assert (l < length h)%nat as Hlt by (by eapply lookup_lt_Some).
    assert (pNext p = None) as Hnx.
    { rewrite (rep_links _ _ _ _ _ Hrep (length ps0)) by (by rewrite list_lookup_middle).
      apply lookup_ge_None. rewrite length_app. simpl. lia. }
    unfold sqlite3VdbeFifoPush, fifo_room. rewrite El.
    assert (load h l = Ret p) as Hload by (unfold load; by rewrite Hp). rewrite Hload, bind_ret_l.
    pose proof (rep_entries _ _ _ _ _ Hrep) as He.
    destruct (Z.leb_spec (nSlot p) (iWrite p)) as [Hfull|Hroom].
    + unfold allocateFifoPage. rewrite He. set (n := if FIFOSIZE_MAX <? zlen q then _ else _).
      assert (1 <= n <= FIFOSIZE_MAX) as Hn.
      { assert (1 <= zlen q); [|unfold n; case_match; lia].
        pose proof (rep_vals _ _ _ _ _ Hrep) as Hv. destruct q as [|x q]; [|rewrite zlen_cons; pose proof (zlen_nonneg q); lia].
        apply pages_nonempty in Hv; [by destruct ps0|by eapply rep_ok]. }
      destruct (next_alloc_cases o) as (o' & Ho & [->|[-> Hno]]); cbv beta iota zeta.
      * rewrite load_app_l, Hload by done. rewrite bind_ret_l, bind_ret_l. cbv beta iota.
        assert (store (h ++ [Some (mkPage n 0 0 None (replicate (Z.to_nat n) None))]) l (with_next p (Some (length h)))
          = store h l (with_next p (Some (length h))) ++ [Some (mkPage n 0 0 None (replicate (Z.to_nat n) None))]) as Hst.
        { unfold store. by rewrite insert_app_l. }
        fold (with_next p (Some (length h))). rewrite Hst.
        assert (length (store h l (with_next p (Some (length h)))) = length h) as Hlh by (unfold store; by rewrite length_insert).
        rewrite <- Hlh at 2. rewrite load_new, bind_ret_l. cbn [iWrite nSlot iRead pNext aSlot nEntry pFirst pLast].
        rewrite wr_Some by size. crun. rewrite !sint_id by lia. crun.
        rewrite <- Hlh at 3. rewrite store_new.
        eexists _, _, _, o'. split; [reflexivity|]. split; [|done]. left. split; [done|].
        destruct (first_entry_ok n v Hn) as [Hok' Hv'].
        eexists _, _. apply (rep_next_page h f); try done.
      * rewrite Hload, bind_ret_l, bind_ret_l. cbv beta iota.
        eexists _, f, _, o'. split; [reflexivity|]. split; [|done]. right. split; [done|]. split; [|done].
        rewrite <- Hnx. assert (mkPage (nSlot p) (iWrite p) (iRead p) (pNext p) (aSlot p) = p) as -> by by destruct p.
        unfold store. by rewrite list_insert_id.
    + rewrite bind_ret_l. cbv beta iota. rewrite Hload, bind_ret_l.
      rewrite wr_Some by lia. crun. rewrite !sint_id by lia. crun.
      eexists _, _, _, o. split; [reflexivity|]. split; [|done]. left. split; [done|].
      eexists _, _. apply (rep_set_last h f ls0 l ps0 p _ q [v]); try done; simpl.
      * unfold page_ok. simpl. rewrite zlen_insert. lia.
      * apply page_vals_push; lia.
      * size.
  - pose proof (rep_last _ _ _ _ _ Hrep) as Hl. rewrite El in Hl. symmetry in Hl. apply last_None in Hl as ->.
    pose proof (rep_pages _ _ _ _ _ Hrep) as Hp. inversion Hp; subst.
    pose proof (rep_vals _ _ _ _ _ Hrep) as Hv. destruct q; [|done]. by apply push_empty.
Qed.

(** The first page of a chain that holds something. *)
Lemma chain_first h f ls ps x q :
  fifo_rep h f ls ps (x :: q) ->
  exists l ls1 p ps1, ls = l :: ls1 /\ ps = p :: ps1 /\ h !! l = Some (Some p) /\ pages h ls1 ps1
    /\ l ∉ ls1 /\ NoDup ls1 /\ page_ok p /\ Forall page_ok ps1 /\ pNext p = head ls1.
Proof.
  intros [Hp Hnd Hlk Hok Hf Hl Hv He Hlive]. destruct Hp as [|l p ls1 ps1 Hlp Hp]; [done|].
  apply NoDup_cons in Hnd as [Hni Hnd]. inversion_clear Hok as [|? ? Hpok Hok'].
  exists l, ls1, p, ps1. repeat split; try done; try apply Hpok.
  rewrite (Hlk 0%nat p) by done. by destruct ls1.
Qed.

(** The chain without its first page. *)
Lemma rep_drop_first h f f' l ls1 p ps1 q q' :
  fifo_rep h f (l :: ls1) (p :: ps1) q -> mjoin (page_vals <$> ps1) = Some <$> q' ->
  pFirst f' = head ls1 -> pLast f' = last ls1 -> nEntry f' = zlen q' ->
  fifo_rep (sqlite3_free h l) f' ls1 ps1 q'.
Proof.
  intros [Hp Hnd Hlk Hok Hf Hl Hv He Hlive] Hq Hf' Hl' He'.
  inversion Hp as [|? ? ? ? Hlp Hp']; subst. apply NoDup_cons in Hnd as [Hni Hnd].
  inversion_clear Hok as [|? ? Hpok Hok'].
  assert (l < length h)%nat as Hlt by (by eapply lookup_lt_Some).
  split; try done.
  - apply (pages_frame h); [done|]. intros l' Hl0. apply list_lookup_insert_ne. by intros ->.
  - intros i p' Hi. apply (Hlk (S i)). done.
  - intros l' p' Hl0. unfold sqlite3_free in Hl0. destruct (decide (l = l')) as [<-|Hne].
    + rewrite list_lookup_insert_eq in Hl0 by done. congruence.
    + rewrite list_lookup_insert_ne in Hl0 by done. apply Hlive in Hl0.
      apply elem_of_cons in Hl0 as [->|]; done.
Qed.

Lemma pop_ok h f ls ps x q :
  fifo_rep h f ls ps (x :: q) ->
  exists f' h' ls' ps', sqlite3VdbeFifoPop h f = Ret (FIFO_OK, Some x, f', h') /\ fifo_rep h' f' ls' ps' q.
Proof.
  intros Hrep. destruct (chain_first _ _ _ _ _ _ Hrep)
    as (l & ls1 & p & ps1 & -> & -> & Hp & Hpages & Hni & Hnd & Hpok & Hok & Hnx).
  pose proof (rep_entries _ _ _ _ _ Hrep) as He. rewrite zlen_cons in He. pose proof (zlen_nonneg q).
  pose proof Hpok as (Hr & Hw & Hsz & Hmax).
  assert (l < length h)%nat as Hlt by (by eapply lookup_lt_Some).
  destruct (page_vals_pop p) as (y & Hy & Hvals); [lia..|].
  pose proof (rep_vals _ _ _ _ _ Hrep) as Hv. cbn in Hv. rewrite Hvals in Hv. injection Hv as -> Hv.
  unfold sqlite3VdbeFifoPop. rewrite (proj2 (Z.eqb_neq (nEntry f) 0)), (proj2 (Z.ltb_lt 0 (nEntry f))) by lia.
  rewrite (rep_first _ _ _ _ _ Hrep). cbn [head]. crun.
  assert (load h l = Ret p) as -> by (unfold load; by rewrite Hp). crun.
  rewrite (proj2 (Z.ltb_lt (iRead p) (iWrite p))), (proj2 (Z.leb_le (iWrite p) (nSlot p))),
    (proj2 (Z.ltb_lt (iRead p) (nSlot p))), (proj2 (Z.leb_le 0 (iRead p))), Hy by lia. crun. cbv zeta.
  set (p' := mkPage _ _ (iRead p + 1) _ _) in *.
  assert (fifo_rep (sqlite3_free (store h l p') l)
            (mkFifo (nEntry f - 1) (pNext p) (match ls1 with [] => None | _ => pLast f end)) ls1 ps1
            (drop (length (page_vals p')) q) \/ page_vals p' <> []) as Hdrop.
  { destruct (decide (page_vals p' = [])) as [Hnil|]; [left|by right]. rewrite Hnil in Hv |- *.
    replace (sqlite3_free (store h l p') l) with (sqlite3_free h l)
      by (unfold sqlite3_free, store; by rewrite list_insert_insert_eq).
    eapply rep_drop_first; [exact Hrep|exact Hv|done| |simpl; rewrite drop_0; lia].
    simpl. rewrite (rep_last _ _ _ _ _ Hrep). by destruct ls1. }
  destruct (Z.leb_spec (iWrite p) (iRead p + 1)) as [Hdone|Hmore].
  - assert (page_vals p' = []) as Hnil by (apply page_vals_done; simpl; lia).
    destruct Hdrop as [Hdrop|]; [|done]. rewrite Hnil in Hdrop, Hv. cbn [length drop] in Hdrop.
    destruct ls1 as [|l1 ls1].
    + inversion Hpages; subst ps1. destruct q; [|discriminate Hv].
      replace (nEntry f - 1 =? 0) with true by (symmetry; apply Z.eqb_eq; unfold zlen in He; simpl in He; lia).
      rewrite bool_decide_true by (by rewrite (rep_last _ _ _ _ _ Hrep)). crun.
      eexists _, _, [], []. split; [reflexivity|]. exact Hdrop.
    + inversion Hpages; subst. destruct q as [|z q].
      { apply pages_nonempty in Hv; done. }
      rewrite zlen_cons in *. pose proof (zlen_nonneg q).
      rewrite (proj2 (Z.eqb_neq (nEntry f - 1) 0)) by lia.
      rewrite Hnx in *. rewrite bool_decide_true by done. crun.
      eexists _, _, _, _. split; [reflexivity|]. exact Hdrop.
  - assert (page_vals p' <> []) as Hne.
    { destruct (page_vals_pop p') as (z & _ & ->); [simpl; lia..|done]. }
    assert (q <> []) as Hq by (intros ->; by destruct (page_vals p')).
    destruct q as [|z q]; [done|]. rewrite zlen_cons in *. pose proof (zlen_nonneg q).
    rewrite (proj2 (Z.ltb_lt 0 (nEntry f - 1))) by lia. crun.
    eexists _, _, (l :: ls1), (p' :: ps1). split; [reflexivity|].
    destruct Hrep as [Hpp Hnd' Hlk Hok' Hf Hl Hv' He' Hlive].
    split; try done.
    + constructor; [by apply list_lookup_insert_eq|].
      apply (pages_frame h); [done|]. intros l' Hl0. apply list_lookup_insert_ne. by intros ->.
    + intros [|i] p2 Hi; simpl in Hi; [injection Hi as <-|]; [unfold p'; simpl; rewrite Hnx; by destruct ls1|].
      by apply (Hlk (S i)).
    + constructor; [|done]. unfold page_ok. simpl. lia.
    + simpl. rewrite zlen_cons. lia.
    + intros l' p2 Hl2. unfold store in Hl2. destruct (decide (l = l')) as [<-|Hn]; [by left|].
      rewrite list_lookup_insert_ne in Hl2 by done. by eapply Hlive.
Qed.

Lemma clear_loop_ok ls ps h fuel :
  pages h ls ps -> NoDup ls -> (forall i p, ps !! i = Some p -> pNext p = ls !! S i) ->
  (forall l p, h !! l = Some (Some p) -> l ∈ ls) -> (length ls <= fuel)%nat ->
  exists h', fifo_clear_loop fuel h (head ls) = Ret h' /\ Forall (eq None) h'.
Proof.
  intros Hp. revert h fuel Hp. induction ls as [|l ls IH] in ps |- *; intros h fuel Hp Hnd Hlk Hlive Hf.
  - exists h. split; [by destruct fuel|]. apply Forall_lookup_2. intros i [p|] Hi; [|done].
    apply Hlive in Hi. inversion Hi.
  - inversion Hp as [|? p ? ps1 Hlp Hp']; subst. apply NoDup_cons in Hnd as [Hni Hnd].
    destruct fuel as [|fuel]; [simpl in Hf; lia|]. cbn [fifo_clear_loop head].
    unfold load. rewrite Hlp. crun. rewrite (Hlk 0%nat p) by done.
    replace ((l :: ls) !! 1%nat) with (head ls) by (by destruct ls).
    assert (l < length h)%nat as Hlt by (by eapply lookup_lt_Some).
    apply (IH ps1); [|done| | |simpl in Hf; lia].
    + apply (pages_frame h); [done|]. intros l' Hl0. apply list_lookup_insert_ne. by intros ->.
    + intros i p' Hi. by apply (Hlk (S i)).
    + intros l' p' Hl0. unfold sqlite3_free in Hl0. destruct (decide (l = l')) as [<-|Hne].
      * rewrite list_lookup_insert_eq in Hl0 by done. congruence.
      * rewrite list_lookup_insert_ne in Hl0 by done. apply Hlive in Hl0.
        apply elem_of_cons in Hl0 as [->|]; done.
Qed.

Lemma fifo_clear_ok h f ls ps q :
  fifo_rep h f ls ps q ->
  exists h', sqlite3VdbeFifoClear h f = Ret (sqlite3VdbeFifoInit, h') /\ Forall (eq None) h'.
Proof.
  intros [Hp Hnd Hlk Hok Hf Hl Hv He Hlive].
  destruct (clear_loop_ok ls ps h (length h) Hp Hnd Hlk Hlive) as (h' & Hr & Hall).
  - assert (length ls <= length (seq 0 (length h)))%nat as H; [|by rewrite length_seq in H].
    apply submseteq_length, NoDup_submseteq; [done|]. intros l Hl0.
    apply list_elem_of_lookup in Hl0 as [i Hi].
    destruct (Forall2_lookup_l _ _ _ _ _ Hp Hi) as (p & _ & Hlp).
    apply elem_of_seq. apply lookup_lt_Some in Hlp. lia.
  - exists h'. unfold sqlite3VdbeFifoClear. by rewrite Hf, Hr.
Qed.

(** ** A fifo under a client *)

Inductive fifo_op := FPush (v : Z) | FPop.

Fixpoint fifo_run (ops : list fifo_op) (h : heap) (o : list bool) (f : Fifo)
    : res (list (Z * option Z) * Fifo * heap) :=
  match ops with
  | [] => Ret ([], f, h)
  | FPush v :: ops =>
      '(rc, f, h, o) ← sqlite3VdbeFifoPush h o f v;
      '(outs, f, h) ← fifo_run ops h o f; Ret ((rc, None) :: outs, f, h)
  | FPop :: ops =>
      '(rc, v, f, h) ← sqlite3VdbeFifoPop h f;
      '(outs, f, h) ← fifo_run ops h o f; Ret ((rc, v) :: outs, f, h)
  end.

(** The answers that a queue with the entries [q] may give. *)
Inductive queue_answers : list fifo_op -> list (Z * option Z) -> list Z -> Prop :=
| qa_nil q : queue_answers [] [] q
| qa_push v ops outs q :
    queue_answers ops outs (q ++ [v]) -> queue_answers (FPush v :: ops) ((FIFO_OK, None) :: outs) q
| qa_nomem v ops outs q :
    queue_answers ops outs q -> queue_answers (FPush v :: ops) ((FIFO_NOMEM, None) :: outs) q
| qa_pop ops outs x q :
    queue_answers ops outs q -> queue_answers (FPop :: ops) ((FIFO_OK, Some x) :: outs) (x :: q)
| qa_done ops outs :
    queue_answers ops outs [] -> queue_answers (FPop :: ops) ((FIFO_DONE, None) :: outs) [].

Lemma fifo_run_ok ops : forall h o f ls ps q,
  fifo_rep h f ls ps q -> zlen q + zlen ops < 2 ^ 31 ->
  exists outs f' h' ls' ps' q', fifo_run ops h o f = Ret (outs, f', h')
    /\ fifo_rep h' f' ls' ps' q' /\ queue_answers ops outs q
    /\ (Forall (eq true) o -> Forall (fun out => out.1 <> FIFO_NOMEM) outs).
Proof.
  induction ops as [|[v|] ops IH]; intros h o f ls ps q Hrep Hq; cbn [fifo_run].
  - exists [], f, h, ls, ps, q. repeat split; try done; try apply Hrep; constructor.
  - rewrite zlen_cons in Hq. pose proof (zlen_nonneg ops).
    destruct (push_ok h f ls ps q v o Hrep ltac:(lia)) as (rc & f1 & h1 & o1 & -> & Hcase & Ho). crun.
    destruct Hcase as [(-> & ls1 & ps1 & Hrep1)|(-> & Hrep1 & Hno)].
    + destruct (IH h1 o1 f1 ls1 ps1 (q ++ [v]) Hrep1) as (outs & f' & h' & ls' & ps' & q' & -> & Hrep' & Hans & Hall);
        [rewrite zlen_app, zlen_cons, zlen_nil; lia|].
      eexists _, f', h', ls', ps', q'. split; [reflexivity|]. split; [done|]. split; [by constructor|].
      intros Ht. constructor; [done|]. by apply Hall, Ho.
    + destruct (IH h1 o1 f1 ls ps q Hrep1) as (outs & f' & h' & ls' & ps' & q' & -> & Hrep' & Hans & Hall); [lia|].
      eexists _, f', h', ls', ps', q'. split; [reflexivity|]. split; [done|]. split; [by constructor|]. done.
  - rewrite zlen_cons in Hq. pose proof (zlen_nonneg ops). destruct q as [|x q].
    + unfold sqlite3VdbeFifoPop. rewrite (rep_entries _ _ _ _ _ Hrep), zlen_nil. cbn [Z.eqb]. crun.
      destruct (IH h o f ls ps [] Hrep) as (outs & f' & h' & ls' & ps' & q' & -> & Hrep' & Hans & Hall); [lia|].
      eexists _, f', h', ls', ps', q'. split; [reflexivity|]. split; [done|]. split; [by constructor|].
      intros Ht. constructor; [done|]. by apply Hall.
    + destruct (pop_ok h f ls ps x q Hrep) as (f1 & h1 & ls1 & ps1 & -> & Hrep1). crun. rewrite zlen_cons in Hq.
      destruct (IH h1 o f1 ls1 ps1 q Hrep1) as (outs & f' & h' & ls' & ps' & q' & -> & Hrep' & Hans & Hall); [lia|].
      eexists _, f', h', ls', ps', q'. split; [reflexivity|]. split; [done|]. split; [by constructor|].
      intros Ht. constructor; [done|]. by apply Hall.
Qed.

End fifo.

(** C21: A fifo under any sequence of fewer than 2^31 calls answers as a queue:
    entries come out in the order in which they went in, none is lost or made
    up, the end is reported when the queue is empty, and a push reports
    [SQLITE_NOMEM] only when the allocator failed and then changes nothing. No
    call touches memory outside of a live page, all assertions hold, and
    clearing the fifo at the end frees every page. *)
Theorem fifo_refines_queue (t : target) (ops : list fifo_op) (o : list bool) (Hops : zlen ops < 2 ^ 31) :
  exists outs f h h', fifo_run t ops [] o sqlite3VdbeFifoInit = Ret (outs, f, h)
    /\ queue_answers ops outs []
    /\ (Forall (eq true) o -> Forall (fun out => out.1 <> FIFO_NOMEM) outs)
    /\ sqlite3VdbeFifoClear h f = Ret (sqlite3VdbeFifoInit, h') /\ Forall (eq None) h'.
Proof.
  assert (fifo_rep t [] sqlite3VdbeFifoInit [] [] []) as Hrep.
  { split; try done; constructor. }
  destruct (fifo_run_ok t ops [] o _ _ _ _ Hrep) as (outs & f & h & ls & ps & q & Hrun & Hrep' & Hans & Hall); [done|].
  destruct (fifo_clear_ok t h f ls ps q Hrep') as (h' & Hc & Hn). by exists outs, f, h, h'.
Qed.

Lemma fifo_refines_queue_witness :
  exists outs f h h',
    fifo_run LP64 [FPush 5; FPush 6; FPop; FPop; FPop] [] [true] sqlite3VdbeFifoInit = Ret (outs, f, h)
    /\ queue_answers [FPush 5; FPush 6; FPop; FPop; FPop] outs []
    /\ (Forall (eq true) [true] -> Forall (fun out => out.1 <> FIFO_NOMEM) outs)
    /\ sqlite3VdbeFifoClear h f = Ret (sqlite3VdbeFifoInit, h') /\ Forall (eq None) h'.
Proof. apply (fifo_refines_queue LP64 [FPush 5; FPush 6; FPop; FPop; FPop] [true]). reflexivity. Defined.
