(* ===== verification/Tokenize.v ===== *)
(** * The SQL tokenizer

    Model of misc/sqlite/tokenize.c: [sqlite3GetToken], which finds the length
    and the type of the token at a position, and the loop of
    [sqlite3RunParser] that feeds the tokens to the parser. The text is the
    list of the bytes that can be read from the position on, so a read behind
    the terminator is seen. [keywordCode] is generated by the build
    (keywordhash.h) and the parser by lemon (parse.c): both are parameters. *)

From S2P Require Import Prelude NumText.

(** The token types that the tokenizer itself knows; [TK_KEYWORD] stands for
    those that [keywordCode] delivers, [TK_EOF] for the end of input. *)
Inductive tk :=
| TK_SPACE | TK_COMMENT | TK_MINUS | TK_LP | TK_RP | TK_SEMI | TK_PLUS | TK_STAR | TK_SLASH
| TK_REM | TK_EQ | TK_LE | TK_NE | TK_LSHIFT | TK_LT | TK_GE | TK_RSHIFT | TK_GT | TK_ILLEGAL
| TK_BITOR | TK_CONCAT | TK_COMMA | TK_BITAND | TK_BITNOT | TK_STRING | TK_DOT | TK_INTEGER
| TK_FLOAT | TK_ID | TK_VARIABLE | TK_REGISTER | TK_BLOB | TK_KEYWORD (code : Z) | TK_EOF.

#[export] Instance tk_eq_dec : EqDecision tk.
Proof. solve_decision. Defined.

Definition sqlite3IsAsciiIdChar : list Z :=
  [0; 0; 0; 0; 1; 0; 0; 0; 0; 0; 0; 0; 0; 0; 0; 0;
   1; 1; 1; 1; 1; 1; 1; 1; 1; 1; 0; 0; 0; 0; 0; 0;
   0; 1; 1; 1; 1; 1; 1; 1; 1; 1; 1; 1; 1; 1; 1; 1;
   1; 1; 1; 1; 1; 1; 1; 1; 1; 1; 1; 0; 0; 0; 0; 1;
   0; 1; 1; 1; 1; 1; 1; 1; 1; 1; 1; 1; 1; 1; 1; 1;
   1; 1; 1; 1; 1; 1; 1; 1; 1; 1; 1; 0; 0; 0; 0; 0].

Definition IdChar (c : Z) : bool :=
  negb (Z.land c 128 =? 0)
  || ((31 <? c) && negb (default 0 (rd sqlite3IsAsciiIdChar (c - 32)) =? 0)).

(** [z[i]] *)
Definition at_ (z : list Z) (i : Z) : res Z := of_opt (rd z i).

(** [for(i=i; P(z[i]); i++){}]: the first index at which [P] fails. *)
Fixpoint scan_list (P : Z -> bool) (z : list Z) (i : Z) : res Z :=
  match z with
  | [] => UB
  | c :: z => if P c then scan_list P z (i + 1) else Ret i
  end.
Definition scan (P : Z -> bool) (z : list Z) (i : Z) : res Z := scan_list P (drop (Z.to_nat i) z) i.

Definition tok_result : Type := tk * Z.

(** [case '-'] *)
Definition token_minus (z : list Z) : res tok_result :=
  c1 ← at_ z 1;
  if c1 =? 45 then
    i ← scan (fun c => negb (c =? 0) && negb (c =? 10)) z 2;
    Ret (TK_COMMENT, i)
  else Ret (TK_MINUS, 1).

(** [for(i=3, c=z[2]; (c!='*' || z[i]!='/') && (c=z[i])!=0; i++){}]: the last
    [i] and [c]; [z] is what [i] points to. *)
Fixpoint comment_loop (z : list Z) (i c : Z) : res (Z * Z) :=
  match z with
  | [] => UB
  | zi :: z =>
      if negb (c =? 42) || negb (zi =? 47) then
        if zi =? 0 then Ret (i, zi) else comment_loop z (i + 1) zi
      else Ret (i, c)
  end.

(** [case '/'] *)
Definition token_slash (z : list Z) : res tok_result :=
  c1 ← at_ z 1;
  if negb (c1 =? 42) then Ret (TK_SLASH, 1) else
  c2 ← at_ z 2;
  if c2 =? 0 then Ret (TK_SLASH, 1) else
  '(i, c) ← comment_loop (drop 3 z) 3 c2;
  let i := if negb (c =? 0) then i + 1 else i in
  Ret (TK_COMMENT, i).

Definition token_less (z : list Z) : res tok_result :=
  c ← at_ z 1;
  if c =? 61 then Ret (TK_LE, 2)
  else if c =? 62 then Ret (TK_NE, 2)
  else if c =? 60 then Ret (TK_LSHIFT, 2)
  else Ret (TK_LT, 1).

Definition token_greater (z : list Z) : res tok_result :=
  c ← at_ z 1;
  if c =? 61 then Ret (TK_GE, 2)
  else if c =? 62 then Ret (TK_RSHIFT, 2)
  else Ret (TK_GT, 1).

Definition token_bang (z : list Z) : res tok_result :=
  c ← at_ z 1;
  if negb (c =? 61) then Ret (TK_ILLEGAL, 2) else Ret (TK_NE, 2).

Definition token_bar (z : list Z) : res tok_result :=
  c ← at_ z 1;
  if negb (c =? 124) then Ret (TK_BITOR, 1) else Ret (TK_CONCAT, 2).

(** The loop over a quoted string; [z] is what [i] points to. The last [i]
    and [c]. *)
Fixpoint string_loop (fuel : nat) (delim : Z) (z : list Z) (i : Z) : res (Z * Z) :=
  match fuel with
  | O => NoFuel
  | S fuel =>
      c ← at_ z 0;
      if c =? 0 then Ret (i, c)
      else if c =? delim then
        c1 ← at_ z 1;
        if c1 =? delim then string_loop fuel delim (drop 2 z) (i + 1 + 1)
        else Ret (i, c)
      else string_loop fuel delim (drop 1 z) (i + 1)
  end.

Definition token_string (z : list Z) : res tok_result :=
  delim ← at_ z 0;
  '(i, c) ← string_loop (length z) delim (drop 1 z) 1;
  if negb (c =? 0) then Ret (TK_STRING, i + 1) else Ret (TK_ILLEGAL, i).

(** [(z[i]=='e' || z[i]=='E') && ( isdigit(z[i+1]) || ((z[i+1]=='+' || z[i+1]=='-') && isdigit(z[i+2])) )] *)
Definition exponent_at (z : list Z) (i : Z) : res bool :=
  e ← at_ z i;
  if (e =? 101) || (e =? 69) then
    c1 ← at_ z (i + 1);
    if isdigit c1 then Ret true
    else if (c1 =? 43) || (c1 =? 45) then c2 ← at_ z (i + 2); Ret (isdigit c2)
    else Ret false
  else Ret false.

Definition token_number (z : list Z) : res tok_result :=
  i ← scan isdigit z 0;
  c ← at_ z i;
  '(t, i) ← (if c =? 46 then i ← scan isdigit z (i + 1); Ret (TK_FLOAT, i) else Ret (TK_INTEGER, i));
  e ← exponent_at z i;
  '(t, i) ← (if (e : bool) then i ← scan isdigit z (i + 2); Ret (TK_FLOAT, i) else Ret (t, i));
  j ← scan IdChar z i;
  Ret (if i <? j then TK_ILLEGAL else t, j).

(** [case '.']: a number when a digit follows. *)
Definition token_dot (z : list Z) : res tok_result :=
  c ← at_ z 1;
  if negb (isdigit c) then Ret (TK_DOT, 1) else token_number z.

(** [for(i=1, c=z[0]; c!=']' && (c=z[i])!=0; i++){}]: the last [i] and [c]. *)
Fixpoint bracket_loop (z : list Z) (i c : Z) : res (Z * Z) :=
  if c =? 93 then Ret (i, c) else
  match z with
  | [] => UB
  | zi :: z => if zi =? 0 then Ret (i, zi) else bracket_loop z (i + 1) zi
  end.

Definition token_bracket (z : list Z) : res tok_result :=
  c ← at_ z 0;
  '(i, c) ← bracket_loop (drop 1 z) 1 c;
  Ret (if c =? 93 then TK_ID else TK_ILLEGAL, i).

(** A variable name; [z] is what [i] points to. The type, the number of name
    characters and the last [i]. *)
Fixpoint variable_loop (fuel : nat) (z : list Z) (i n : Z) : res (tk * Z * Z) :=
  match fuel with
  | O => NoFuel
  | S fuel =>
      c ← at_ z 0;
      if c =? 0 then Ret (TK_VARIABLE, n, i)
      else if IdChar c then variable_loop fuel (drop 1 z) (i + 1) (n + 1)
      else if (c =? 40) && (0 <? n) then
        j ← scan (fun c => negb (c =? 0) && negb (isspace c) && negb (c =? 41)) z 1;
        c ← at_ z j;
        if c =? 41 then Ret (TK_VARIABLE, n, i + j + 1) else Ret (TK_ILLEGAL, n, i + j)
      else if c =? 58 then
        c1 ← at_ z 1;
        if c1 =? 58 then variable_loop fuel (drop 2 z) (i + 1 + 1) n
        else Ret (TK_VARIABLE, n, i)
      else Ret (TK_VARIABLE, n, i)
  end.

Definition token_variable (z : list Z) : res tok_result :=
  '(t, n, i) ← variable_loop (length z) (drop 1 z) 1 0;
  Ret (if n =? 0 then TK_ILLEGAL else t, i).

Definition token_hash (z : list Z) : res tok_result :=
  i ← scan isdigit z 1;
  if 1 <? i then Ret (TK_REGISTER, i) else token_variable z.

(** The digits of a blob literal: the type so far, the last [i] and [c]. *)
Fixpoint blob_loop (z : list Z) (t : tk) (i : Z) : res (tk * Z * Z) :=
  match z with
  | [] => UB
  | c :: z =>
      if negb (c =? 0) && negb (c =? 39)
      then blob_loop z (if negb (isxdigit c) then TK_ILLEGAL else t) (i + 1)
      else Ret (t, i, c)
  end.

Definition token_blob (z : list Z) : res tok_result :=
  '(t, i, c) ← blob_loop (drop 2 z) TK_BLOB 2;
  let t := if negb (i mod 2 =? 0) || (c =? 0) then TK_ILLEGAL else t in
  let i := if negb (c =? 0) then i + 1 else i in
  Ret (t, i).

Section tokenizer.
Context (keywordCode : list Z -> Z -> tk).

(** [default:] *)
Definition token_word (z : list Z) : res tok_result :=
  c ← at_ z 0;
  if negb (IdChar c) then Ret (TK_ILLEGAL, 1) else
  i ← scan IdChar z 1;
  Ret (keywordCode z i, i).

Definition sqlite3GetToken (z : list Z) : res tok_result :=
  c ← at_ z 0;
  if (c =? 32) || (c =? 9) || (c =? 10) || (c =? 12) || (c =? 13) then
    i ← scan isspace z 1; Ret (TK_SPACE, i)
  else if c =? 45 then token_minus z
  else if c =? 40 then Ret (TK_LP, 1)
  else if c =? 41 then Ret (TK_RP, 1)
  else if c =? 59 then Ret (TK_SEMI, 1)
  else if c =? 43 then Ret (TK_PLUS, 1)
  else if c =? 42 then Ret (TK_STAR, 1)
  else if c =? 47 then token_slash z
  else if c =? 37 then Ret (TK_REM, 1)
  else if c =? 61 then c1 ← at_ z 1; Ret (TK_EQ, 1 + b2z (c1 =? 61))
  else if c =? 60 then token_less z
  else if c =? 62 then token_greater z
  else if c =? 33 then token_bang z
  else if c =? 124 then token_bar z
  else if c =? 44 then Ret (TK_COMMA, 1)
  else if c =? 38 then Ret (TK_BITAND, 1)
  else if c =? 126 then Ret (TK_BITNOT, 1)
  else if (c =? 96) || (c =? 39) || (c =? 34) then token_string z
  else if c =? 46 then token_dot z
  else if isdigit c then token_number z
  else if c =? 91 then token_bracket z
  else if c =? 63 then i ← scan isdigit z 1; Ret (TK_VARIABLE, i)
  else if c =? 35 then token_hash z
  else if (c =? 36) || (c =? 64) || (c =? 58) then token_variable z
  else if (c =? 120) || (c =? 88) then
    c1 ← at_ z 1;
    if c1 =? 39 then token_blob z else token_word z
  else token_word z.

(** What the token loop uses of the parser and of the connection: a parser
    state that also holds [pParse] and [db]. *)
Class ParserOps (P : Type) := {
  mallocFailed : P -> bool;
  isInterrupted : P -> bool;
  parse_rc : P -> Z;
  set_rc : Z -> P -> P;
  sqlite3Parser : tk -> list Z -> P -> P;
}.


Context {P : Type} `{!ParserOps P}.

(** The token loop up to [abort_parse]: the state, [i], [lastTokenParsed], the
    text of the last token, and [nErr]. *)
Fixpoint parse_loop (fuel : nat) (mxSqlLen : Z) (zSql : list Z) (p : P) (i : Z)
    (lastTokenParsed : option tk) (text : list Z) : res (P * Z * option tk * list Z * Z) :=
  match fuel with
  | O => NoFuel
  | S fuel =>
      if mallocFailed p then Ret (p, i, lastTokenParsed, text, 0) else
      c ← at_ zSql i;
      if c =? 0 then Ret (p, i, lastTokenParsed, text, 0) else
      '(t, n) ← sqlite3GetToken (drop (Z.to_nat i) zSql);
      let text := take (Z.to_nat n) (drop (Z.to_nat i) zSql) in
      let i := i + n in
      if mxSqlLen <? i then Ret (set_rc SQLITE_TOOBIG p, i, lastTokenParsed, text, 0) else
      match t with
      | TK_SPACE | TK_COMMENT =>
          if isInterrupted p then Ret (set_rc SQLITE_INTERRUPT p, i, lastTokenParsed, text, 0)
          else parse_loop fuel mxSqlLen zSql p i lastTokenParsed text
      | TK_ILLEGAL => Ret (p, i, lastTokenParsed, text, 1)
      | _ =>
          let p := sqlite3Parser t text p in
          if negb (parse_rc p =? SQLITE_OK) then Ret (p, i, Some t, text, 0)
          else parse_loop fuel mxSqlLen zSql p i (Some t) text
      end
  end.

(** [abort_parse:] the end of the input is given to the parser. *)
Definition parse_end (zSql : list Z) (p : P) (i : Z) (last : option tk) (text : list Z) (nErr : Z) : res P :=
  c ← at_ zSql i;
  if (c =? 0) && (nErr =? 0) && (parse_rc p =? SQLITE_OK) then
    let p := if bool_decide (last = Some TK_SEMI) then p else sqlite3Parser TK_SEMI text p in
    Ret (sqlite3Parser TK_EOF text p)
  else Ret p.

(** The state after the tokens of [zSql], and the number of errors. *)
Definition sqlite3RunParser (mxSqlLen : Z) (zSql : list Z) (p : P) : res (P * Z) :=
  '(p, i, last, text, nErr) ← parse_loop (S (length zSql)) mxSqlLen zSql (set_rc SQLITE_OK p) 0 None [];
  p ← parse_end zSql p i last text nErr;
  Ret (p, nErr).

End tokenizer.

(** ** Every token lies inside of the text *)

Lemma at_str s rest i :
  no_nul s -> 0 <= i <= zlen s ->
  exists c, at_ (s ++ 0 :: rest) i = Ret c /\ (c = 0 <-> i = zlen s).
Proof.
  intros Hs Hi. destruct (decide (i = zlen s)) as [->|Hne].
  - exists 0. unfold at_. by rewrite rd_middle.
  - destruct (rd_lt s i) as [c Hc]; [lia|]. exists c. unfold at_.
    rewrite rd_app_l, Hc by lia. split; [done|]. split; [|done].
    intros ->. by apply (rd_Forall _ _ _ _ Hs) in Hc.
Qed.

Lemma scan_str P s rest i :
  P 0 = false -> 0 <= i <= zlen s ->
  exists j, scan P (s ++ 0 :: rest) i = Ret j /\ i <= j <= zlen s.
Proof.
  intros H0 Hi. unfold scan. rewrite drop_app_le by size.
  assert (zlen (drop (Z.to_nat i) s) = zlen s - i) as Hl by size.
  revert Hl. generalize (drop (Z.to_nat i) s) as l. clear Hi. generalize i.
  intros k l. revert k. induction l as [|c l IH]; intros k Hl; cbn [app scan_list].
  - rewrite H0. exists k. rewrite zlen_nil in Hl. split; [done|lia].
  - rewrite zlen_cons in Hl. pose proof (zlen_nonneg l). destruct (P c).
    + destruct (IH (k + 1)) as (j & -> & Hj); [lia|]. exists j. split; [done|lia].
    + exists k. split; [done|lia].
Qed.

Lemma at_0 c l : at_ (c :: l) 0 = Ret c.
Proof. unfold at_. by rewrite rd_0. Qed.

Lemma at_1 c d l : at_ (c :: d :: l) 1 = Ret d.
Proof. unfold at_. by rewrite (rd_middle [c] l d : rd (c :: d :: l) 1 = _). Qed.

Definition tok_ok (s : list Z) (r : res tok_result) : Prop :=
  exists t n, r = Ret (t, n) /\ 1 <= n <= zlen s.

Lemma tok_ok_ret s t n : 1 <= n <= zlen s -> tok_ok s (Ret (t, n)).
Proof. intros H. by exists t, n. Qed.

Ltac tok_at i c H :=
  let E := fresh in
  lazymatch goal with
  | |- context [at_ (?s ++ 0 :: ?rest) i] =>
      destruct (at_str s rest i ltac:(assumption) ltac:(size)) as (c & E & H)
  end;
  rewrite E; clear E; crun.

(** Split on the conditions and close the exits. *)
Ltac tok_exits :=
  repeat match goal with
  | |- tok_ok _ (if ?b then _ else _) => let E := fresh "E" in destruct b eqn:E
  | |- tok_ok _ (Ret _) => apply tok_ok_ret; size
  end.

Section bounds.
Context (s rest : list Z) (Hs : no_nul s) (Hne : 1 <= zlen s).
Notation z := (s ++ 0 :: rest).

Lemma two_chars c : (c = 0 <-> 1 = zlen s) -> c <> 0 -> 2 <= zlen s.
Proof. lia. Qed.

Lemma token_minus_ok : tok_ok s (token_minus z).
Proof.
  unfold token_minus. tok_at 1 c Hc. destruct (Z.eqb_spec c 45) as [->|]; [|tok_exits].
  destruct (scan_str (fun c => negb (c =? 0) && negb (c =? 10)) s rest 2) as (j & -> & Hj); [done|lia|].
  crun. tok_exits.
Qed.

Lemma comment_loop_ok s1 rest1 i c :
  no_nul s1 -> exists j d, comment_loop (s1 ++ 0 :: rest1) i c = Ret (j, d)
    /\ i <= j <= i + zlen s1 /\ (d <> 0 -> j < i + zlen s1).
Proof.
  intros Hs1. revert i c. induction Hs1 as [|x s1 Hx _ IH]; intros i c; cbn [app comment_loop].
  - exists i, 0. change (zlen []) with 0. split; [by destruct (c =? 42)|]. split; [lia|done].
  - rewrite zlen_cons. pose proof (zlen_nonneg s1). destruct (negb (c =? 42) || negb (x =? 47)).
    + rewrite (proj2 (Z.eqb_neq x 0)) by done.
      destruct (IH (i + 1) x) as (j & d & -> & Hj & Hd). exists j, d. split; [done|]. split; [lia|].
      intros H0. specialize (Hd H0). lia.
    + exists i, c. split; [done|]. split; [lia|]. lia.
Qed.

Lemma no_nul_drop n (l : list Z) : no_nul l -> no_nul (drop n l).
Proof. apply Forall_drop. Qed.

Lemma token_slash_ok : tok_ok s (token_slash z).
Proof.
  unfold token_slash. tok_at 1 c Hc. destruct (Z.eqb_spec c 42) as [->|]; cbn [negb]; [|tok_exits].
  assert (2 <= zlen s) by lia. tok_at 2 c2 Hc2. destruct (Z.eqb_spec c2 0) as [->|H2]; [tok_exits|].
  assert (3 <= zlen s) by lia. rewrite drop_app_le by size.
  destruct (comment_loop_ok (drop 3 s) rest 3 c2) as (j & d & -> & Hj & Hd); [by apply no_nul_drop|].
  crun. assert (zlen (drop 3 s) = zlen s - 3) as Hl by size. rewrite Hl in *. cbv zeta.
  destruct (Z.eqb_spec d 0); cbn [negb]; tok_exits.
Qed.

Lemma string_loop_ok fuel delim s1 rest1 i :
  no_nul s1 -> (length s1 < fuel)%nat ->
  exists j d, string_loop fuel delim (s1 ++ 0 :: rest1) i = Ret (j, d)
    /\ i <= j <= i + zlen s1 /\ (d <> 0 -> j < i + zlen s1).
Proof.
  revert s1 i. induction fuel as [|fuel IH]; intros s1 i Hs1 Hf; [lia|]. cbn [string_loop].
  destruct s1 as [|x s1].
  - exists i, 0. cbn [app]. rewrite at_0. crun.
    change (zlen []) with 0. split; [done|]. split; [lia|done].
  - inversion_clear Hs1 as [|? ? Hx Hs1']. cbn [app]. rewrite at_0. crun.
    rewrite (proj2 (Z.eqb_neq x 0)) by done. rewrite zlen_cons. pose proof (zlen_nonneg s1).
    simpl in Hf. destruct (Z.eqb_spec x delim) as [->|].
    + destruct s1 as [|y s1]; cbn [app]; rewrite at_1; crun.
      * destruct (0 =? delim) eqn:E; [lia|]. exists i, delim. split; [done|]. change (zlen []) with 0; lia.
      * destruct (y =? delim); [|exists i, delim; split; [done|]; lia].
        cbn [skipn]. rewrite drop_0. inversion_clear Hs1' as [|? ? Hy Hs2]. rewrite zlen_cons in *.
        destruct (IH s1 (i + 1 + 1)) as (j & d & -> & Hj & Hd); [done|simpl in Hf; lia|].
        exists j, d. split; [done|]. split; [lia|]. intros H0. specialize (Hd H0). lia.
    + cbn [skipn]. rewrite drop_0. destruct (IH s1 (i + 1)) as (j & d & -> & Hj & Hd); [done|lia|].
      exists j, d. split; [done|]. split; [lia|]. intros H0. specialize (Hd H0). lia.
Qed.

Lemma token_string_ok : tok_ok s (token_string z).
Proof.
  unfold token_string. tok_at 0 delim Hd. rewrite drop_app_le by size.
  destruct (string_loop_ok (length z) delim (drop 1 s) rest 1) as (j & d & -> & Hj & Hd0);
    [by apply no_nul_drop|size|].
  crun. assert (zlen (drop 1 s) = zlen s - 1) as Hl by size. rewrite Hl in *.
  destruct (Z.eqb_spec d 0); cbn [negb]; tok_exits.
Qed.

Lemma exponent_at_ok i :
  0 <= i <= zlen s -> exists e, exponent_at z i = Ret e /\ (e = true -> i + 2 <= zlen s).
Proof.
  intros Hi. unfold exponent_at. tok_at i c Hc.
  destruct ((c =? 101) || (c =? 69)) eqn:Ec; [|by exists false].
  assert (i + 1 <= zlen s) by lia. tok_at (i + 1) c1 Hc1.
  destruct (isdigit c1) eqn:Ed.
  { exists true. split; [done|]. intros _. apply digit_range in Ed. lia. }
  destruct ((c1 =? 43) || (c1 =? 45)) eqn:Es; [|by exists false].
  assert (i + 2 <= zlen s) by lia. tok_at (i + 2) c2 Hc2. exists (isdigit c2). by split.
Qed.

Lemma token_number_ok c :
  at_ z 0 = Ret c -> isdigit c = true \/ c = 46 -> tok_ok s (token_number z).
Proof.
  intros H0 Hc. unfold token_number.
  destruct (scan_str isdigit s rest 0) as (i & Hscan & Hi); [done|lia|]. rewrite Hscan. crun.
  destruct (at_str s rest i Hs) as (d & Hd & Hd0); [lia|]. rewrite Hd. crun.
  assert (i = 0 -> d = 46) as Hdot.
  { intros ->. rewrite H0 in Hd. injection Hd as <-. destruct Hc as [Hc|]; [|done].
    destruct s as [|x l]; [by cbn in Hne|]. cbn [app] in *. rewrite at_0 in H0. injection H0 as <-.
    change (scan_list isdigit (x :: l ++ 0 :: rest) 0 = Ret 0) in Hscan. cbn [scan_list] in Hscan.
    rewrite Hc in Hscan.
    assert (forall m k k', scan_list isdigit m k = Ret k' -> k <= k') as Hmono.
    { induction m as [|y m IH]; intros k k'; cbn [scan_list]; [done|].
      destruct (isdigit y); [intros Hk%IH; lia|]. intros [= ->]. lia. }
    apply Hmono in Hscan. lia. }
  assert (exists t j, (if d =? 46 then i0 ← scan isdigit z (i + 1); Ret (TK_FLOAT, i0) else Ret (TK_INTEGER, i)) = Ret (t, j)
    /\ 1 <= j <= zlen s) as (t & j & -> & Hj).
  { destruct (Z.eqb_spec d 46) as [->|Hd46]; [|exists TK_INTEGER, i; split; [done|]; lia].
    destruct (scan_str isdigit s rest (i + 1)) as (j & -> & Hj); [done|lia|]. exists TK_FLOAT, j. split; [done|lia]. }
  crun. destruct (exponent_at_ok j) as (e & -> & He); [lia|]. crun.
  assert (exists t' k, (if e then i0 ← scan isdigit z (j + 2); Ret (TK_FLOAT, i0) else Ret (t, j)) = Ret (t', k)
    /\ 1 <= k <= zlen s) as (t' & k & -> & Hk).
  { destruct e; [|by exists t, j]. specialize (He eq_refl).
    destruct (scan_str isdigit s rest (j + 2)) as (k & -> & Hk); [done|lia|]. exists TK_FLOAT, k. split; [done|lia]. }
  crun. destruct (scan_str IdChar s rest k) as (m & -> & Hm); [done|lia|]. crun. tok_exits.
Qed.

Lemma bracket_loop_ok s1 rest1 i c :
  no_nul s1 -> exists j d, bracket_loop (s1 ++ 0 :: rest1) i c = Ret (j, d) /\ i <= j <= i + zlen s1.
Proof.
  intros Hs1. revert i c. induction Hs1 as [|x s1 Hx _ IH]; intros i c; cbn [app bracket_loop].
  - destruct (c =? 93); eexists _, _; (split; [reflexivity|]); change (zlen []) with 0; lia.
  - rewrite zlen_cons. pose proof (zlen_nonneg s1).
    destruct (c =? 93); [eexists _, _; (split; [reflexivity|]); lia|].
    rewrite (proj2 (Z.eqb_neq x 0)) by done. destruct (IH (i + 1) x) as (j & d & -> & Hj).
    exists j, d. split; [done|lia].
Qed.

Lemma token_bracket_ok : tok_ok s (token_bracket z).
Proof.
  unfold token_bracket. tok_at 0 c Hc. rewrite drop_app_le by size.
  destruct (bracket_loop_ok (drop 1 s) rest 1 c) as (j & d & -> & Hj); [by apply no_nul_drop|].
  crun. assert (zlen (drop 1 s) = zlen s - 1) as Hl by size. rewrite Hl in *. tok_exits.
Qed.

Lemma variable_loop_ok fuel s1 rest1 i n :
  no_nul s1 -> (length s1 < fuel)%nat ->
  exists t m j, variable_loop fuel (s1 ++ 0 :: rest1) i n = Ret (t, m, j) /\ i <= j <= i + zlen s1.
Proof.
  revert s1 i n. induction fuel as [|fuel IH]; intros s1 i n Hs1 Hf; [lia|]. cbn [variable_loop].
  destruct s1 as [|x s1].
  - cbn [app]. rewrite at_0. crun. eexists _, _, _. split; [reflexivity|]. change (zlen []) with 0. lia.
  - inversion Hs1 as [|? ? Hx Hs1']; subst. cbn [app]. rewrite at_0. crun.
    rewrite (proj2 (Z.eqb_neq x 0)), zlen_cons by done. pose proof (zlen_nonneg s1). simpl in Hf.
    destruct (IdChar x).
    { cbn [skipn]. rewrite drop_0. destruct (IH s1 (i + 1) (n + 1)) as (t & m & j & -> & Hj); [done|lia|].
      eexists _, _, _. split; [reflexivity|lia]. }
    destruct ((x =? 40) && (0 <? n)).
    { destruct (scan_str (fun c => negb (c =? 0) && negb (isspace c) && negb (c =? 41)) (x :: s1) rest1 1) as (j & Hj & Hjr);
        [done|rewrite zlen_cons; lia|]. cbn [app] in Hj. rewrite Hj. crun.
      destruct (at_str (x :: s1) rest1 j Hs1) as (c & Hc & Hc0); [lia|]. cbn [app] in Hc. rewrite Hc. crun.
      rewrite zlen_cons in *. destruct (Z.eqb_spec c 41) as [->|]; eexists _, _, _; (split; [reflexivity|]); lia. }
    destruct (x =? 58); [|eexists _, _, _; split; [reflexivity|lia]].
    destruct s1 as [|y s1]; cbn [app]; rewrite at_1; crun.
    { cbn [Z.eqb]. eexists _, _, _. split; [reflexivity|lia]. }
    rewrite zlen_cons in *. destruct (y =? 58); [|eexists _, _, _; split; [reflexivity|lia]].
    cbn [skipn]. rewrite drop_0. inversion_clear Hs1' as [|? ? Hy Hs2].
    destruct (IH s1 (i + 1 + 1) n) as (t & m & j & -> & Hj); [done|simpl in Hf; lia|].
    eexists _, _, _. split; [reflexivity|lia].
Qed.

Lemma token_variable_ok : tok_ok s (token_variable z).
Proof.
  unfold token_variable. rewrite drop_app_le by size.
  destruct (variable_loop_ok (length z) (drop 1 s) rest 1 0) as (t & n & j & -> & Hj); [by apply no_nul_drop|size|].
  crun. assert (zlen (drop 1 s) = zlen s - 1) as Hl by size. rewrite Hl in *. tok_exits.
Qed.

Lemma scan_tok_ok P (f : Z -> tk) : P 0 = false -> tok_ok s (i ← scan P z 1; Ret (f i, i)).
Proof. intros H0. destruct (scan_str P s rest 1) as (j & -> & Hj); [done|lia|]. crun. tok_exits. Qed.

Lemma token_hash_ok : tok_ok s (token_hash z).
Proof.
  unfold token_hash. destruct (scan_str isdigit s rest 1) as (j & -> & Hj); [done|lia|]. crun.
  destruct (1 <? j); [tok_exits|apply token_variable_ok].
Qed.

Lemma blob_loop_ok s1 rest1 t i :
  no_nul s1 -> exists t' j c, blob_loop (s1 ++ 0 :: rest1) t i = Ret (t', j, c)
    /\ i <= j <= i + zlen s1 /\ (c <> 0 -> j < i + zlen s1).
Proof.
  intros Hs1. revert t i. induction Hs1 as [|x s1 Hx _ IH]; intros t i; cbn [app blob_loop].
  - eexists _, _, _. split; [reflexivity|]. change (zlen []) with 0. split; [lia|done].
  - rewrite (proj2 (Z.eqb_neq x 0)), zlen_cons by done. pose proof (zlen_nonneg s1). cbn [negb andb].
    destruct (negb (x =? 39)).
    + destruct (IH (if negb (isxdigit x) then TK_ILLEGAL else t) (i + 1)) as (t' & j & c & -> & Hj & Hc).
      eexists _, _, _. split; [reflexivity|]. split; [lia|]. intros H0. specialize (Hc H0). lia.
    + eexists _, _, _. split; [reflexivity|]. lia.
Qed.

Lemma token_blob_ok : 2 <= zlen s -> tok_ok s (token_blob z).
Proof.
  intros H2. unfold token_blob. rewrite drop_app_le by size.
  destruct (blob_loop_ok (drop 2 s) rest TK_BLOB 2) as (t & j & c & -> & Hj & Hc); [by apply no_nul_drop|].
  crun. assert (zlen (drop 2 s) = zlen s - 2) as Hl by size. rewrite Hl in *. cbv zeta.
  destruct (Z.eqb_spec c 0); cbn [negb]; tok_exits.
Qed.

Context (keywordCode : list Z -> Z -> tk).

Lemma token_word_ok : tok_ok s (token_word keywordCode z).
Proof.
  unfold token_word. tok_at 0 c Hc. destruct (negb (IdChar c)); [tok_exits|].
  by apply (scan_tok_ok IdChar (keywordCode z)).
Qed.

End bounds.

Section tokens.
Context (keywordCode : list Z -> Z -> tk).
Notation GetToken := (sqlite3GetToken keywordCode).

Lemma get_token_bound s rest :
  no_nul s -> s <> [] -> s <> [33] -> tok_ok s (GetToken (s ++ 0 :: rest)).
Proof.
  intros Hs Hne Hb. assert (1 <= zlen s) as Hl by (destruct s; [done|]; rewrite zlen_cons; pose proof (zlen_nonneg s); lia).
  unfold sqlite3GetToken. destruct (at_str s rest 0 Hs) as (c & H0 & Hc0); [lia|]. rewrite H0. crun.
  destruct (_ || (c =? 13)); [by apply (scan_tok_ok s rest Hl isspace (fun _ => TK_SPACE))|].
  destruct (c =? 45); [by apply token_minus_ok|].
  destruct (c =? 40); [tok_exits|]. destruct (c =? 41); [tok_exits|]. destruct (c =? 59); [tok_exits|].
  destruct (c =? 43); [tok_exits|]. destruct (c =? 42); [tok_exits|].
  destruct (c =? 47); [by apply token_slash_ok|]. destruct (c =? 37); [tok_exits|].
  destruct (c =? 61).
  { tok_at 1 d Hd. destruct (Z.eqb_spec d 61); unfold b2z; tok_exits. }
  destruct (c =? 60).
  { unfold token_less. tok_at 1 d Hd. destruct (Z.eqb_spec d 61), (Z.eqb_spec d 62), (Z.eqb_spec d 60); tok_exits. }
  destruct (c =? 62).
  { unfold token_greater. tok_at 1 d Hd. destruct (Z.eqb_spec d 61), (Z.eqb_spec d 62); tok_exits. }
  destruct (Z.eqb_spec c 33) as [->|].
  { unfold token_bang. tok_at 1 d Hd. destruct s as [|x [|y l]]; [done| |].
    - unfold at_ in H0. cbn [app] in H0. rewrite rd_0 in H0. injection H0 as ->. done.
    - destruct (negb (d =? 61)); apply tok_ok_ret; rewrite !zlen_cons; pose proof (zlen_nonneg l); lia. }
  destruct (c =? 124).
  { unfold token_bar. tok_at 1 d Hd. destruct (Z.eqb_spec d 124); tok_exits. }
  destruct (c =? 44); [tok_exits|]. destruct (c =? 38); [tok_exits|]. destruct (c =? 126); [tok_exits|].
  destruct (_ || (c =? 34)); [by apply token_string_ok|].
  destruct (Z.eqb_spec c 46) as [->|].
  { unfold token_dot. tok_at 1 d Hd. destruct (negb (isdigit d)); [tok_exits|]. apply (token_number_ok s rest Hs Hl 46); auto. }
  destruct (isdigit c) eqn:Ed; [apply (token_number_ok s rest Hs Hl c); auto|].
  destruct (c =? 91); [by apply token_bracket_ok|].
  destruct (c =? 63); [by apply (scan_tok_ok s rest Hl isdigit (fun _ => TK_VARIABLE))|].
  destruct (c =? 35); [by apply token_hash_ok|].
  destruct (_ || (c =? 58)); [by apply token_variable_ok|].
  destruct ((c =? 120) || (c =? 88)); [|by apply token_word_ok].
  tok_at 1 d Hd. destruct (Z.eqb_spec d 39) as [->|]; [apply token_blob_ok; [done|lia]|by apply token_word_ok].
Qed.

(** The tokens of a text: the pieces that [sqlite3GetToken] cuts off in turn. *)
Inductive lexes (rest : list Z) : list Z -> list (tk * list Z) -> Prop :=
| lexes_nil : lexes rest [] []
| lexes_cons s1 s2 t toks :
    s1 <> [] -> GetToken (s1 ++ s2 ++ 0 :: rest) = Ret (t, zlen s1) -> lexes rest s2 toks ->
    lexes rest (s1 ++ s2) ((t, s1) :: toks).

Lemma lexes_concat rest s toks : lexes rest s toks -> mjoin (snd <$> toks) = s.
Proof. induction 1 as [|s1 s2 t toks _ _ _ IH]; [done|]. change (s1 ++ mjoin (snd <$> toks) = s1 ++ s2). by rewrite IH. Qed.

Lemma lexes_exists rest s : no_nul s -> last s <> Some 33 -> exists toks, lexes rest s toks.
Proof.
  remember (length s) as n eqn:Hn. revert s Hn.
  induction (lt_wf n) as [n _ IH]; intros s -> Hs Hl.
  destruct s as [|x s]; [exists []; constructor|].
  destruct (get_token_bound (x :: s) rest) as (t & k & Hk & Hr); [done|done|by intros [= -> ->]|].
  set (s1 := take (Z.to_nat k) (x :: s)). set (s2 := drop (Z.to_nat k) (x :: s)).
  assert (x :: s = s1 ++ s2) as Hs12 by (symmetry; apply take_drop).
  assert (zlen s1 = k) as Hl1 by (unfold s1; size).
  assert (zlen s2 = zlen (x :: s) - k) as Hl2 by (unfold s2; size).
  destruct (IH (length s2)) with (s := s2) as [toks Htoks].
  - unfold zlen in *. lia.
  - done.
  - rewrite Hs12 in Hs. by apply Forall_app in Hs as [_ ?].
  - intros He. apply Hl. rewrite Hs12, last_app, He. done.
  - exists ((t, s1) :: toks). rewrite Hs12. constructor; [|by rewrite app_assoc, <- Hs12, Hl1|done].
    intros H0. rewrite H0 in Hl1. unfold zlen in Hl1. simpl in Hl1. lia.
Qed.

(** The tokens of a text that stands in front of [tail]. *)
Inductive lexes_to (tail : list Z) : list Z -> list (tk * list Z) -> Prop :=
| lexes_to_nil : lexes_to tail [] []
| lexes_to_cons s1 s2 t toks :
    s1 <> [] -> GetToken (s1 ++ s2 ++ tail) = Ret (t, zlen s1) -> lexes_to tail s2 toks ->
    lexes_to tail (s1 ++ s2) ((t, s1) :: toks).

Lemma lexes_to_length tail s toks : lexes_to tail s toks -> (length toks <= length s)%nat.
Proof.
  induction 1 as [|s1 s2 t toks Hne _ _ IH]; [done|]. rewrite length_app. simpl.
  destruct s1; [done | simpl; lia].
Qed.

(** Every text falls into tokens, or into tokens and a last [!]. *)
Lemma lexes_or_bang rest s :
  no_nul s -> (exists toks, lexes rest s toks) \/
    (exists s0 toks, s = s0 ++ [33] /\ lexes_to (33 :: 0 :: rest) s0 toks).
Proof.
  remember (length s) as n eqn:Hn. revert s Hn.
  induction (lt_wf n) as [n _ IH]; intros s -> Hs.
  destruct (decide (s = [])) as [->|Hne]; [left; exists []; constructor|].
  destruct (decide (s = [33])) as [->|Hb]; [right; exists [], []; split; [done|constructor]|].
  destruct (get_token_bound s rest Hs Hne Hb) as (t & k & Hk & Hr).
  set (s1 := take (Z.to_nat k) s) in *. set (s2 := drop (Z.to_nat k) s).
  assert (s = s1 ++ s2) as Hs12 by (symmetry; apply take_drop).
  assert (zlen s1 = k) as Hl1 by (unfold s1; size).
  assert (s1 <> []) as Hne1 by (intros E; rewrite E in Hl1; change (zlen []) with 0 in Hl1; lia).
  destruct (IH (length s2)) with (s := s2) as [[toks Htoks] | (s0 & toks & E0 & Htoks)].
  - rewrite Hs12, length_app. unfold zlen in Hl1. lia.
  - done.
  - rewrite Hs12 in Hs. by apply Forall_app in Hs as [_ ?].
  - left. exists ((t, s1) :: toks). rewrite Hs12. constructor; [done | by rewrite app_assoc, <- Hs12, Hl1 | done].
  - right. exists (s1 ++ s0), ((t, s1) :: toks). split; [by rewrite <- app_assoc, <- E0|].
    constructor; [done | | done]. rewrite Hl1, <- Hk. f_equal. rewrite Hs12, E0, <- !app_assoc. done.
Qed.

Context {P : Type} `{!ParserOps P}.

(** Spaces and comments are not given to the parser. *)
Definition significant (x : tk * list Z) : bool :=
  match x.1 with TK_SPACE | TK_COMMENT => false | _ => true end.

Definition feed (p : P) (x : tk * list Z) : P := sqlite3Parser x.1 x.2 p.

(** The parser states in which it goes on. *)
Definition keeps_going (good : P -> Prop) : Prop :=
  forall p, good p -> mallocFailed p = false /\ isInterrupted p = false /\ parse_rc p = SQLITE_OK
    /\ (forall t x, good (sqlite3Parser t x p)).

(** The last of the tokens that satisfies [f]. *)
Definition last_token (f : tk * list Z -> bool) (toks : list (tk * list Z)) : option (tk * list Z) :=
  last (List.filter f toks).

Lemma token_at a s1 s2 rest :
  drop (Z.to_nat (zlen a)) (a ++ (s1 ++ s2) ++ 0 :: rest) = s1 ++ s2 ++ 0 :: rest
  /\ take (Z.to_nat (zlen s1)) (s1 ++ s2 ++ 0 :: rest) = s1.
Proof. rewrite drop_app_zlen, <- app_assoc. split; [done|]. apply take_app_zlen. Qed.

Lemma text_at a s1 s2 rest :
  s1 <> [] -> no_nul s1 -> exists c, at_ (a ++ (s1 ++ s2) ++ 0 :: rest) (zlen a) = Ret c /\ c <> 0.
Proof.
  intros Hne Hs. destruct s1 as [|c s1]; [done|]. exists c. inversion_clear Hs as [|? ? Hc _].
  split; [|done]. unfold at_. cbn [app]. by rewrite rd_middle.
Qed.

(** The loop never leaves the text. *)
Lemma parse_loop_safe mx rest s toks : lexes rest s toks -> forall fuel a p lp text,
  no_nul s -> (length s < fuel)%nat ->
  exists p' i lp' text' nErr,
    parse_loop keywordCode fuel mx (a ++ s ++ 0 :: rest) p (zlen a) lp text = Ret (p', i, lp', text', nErr)
    /\ 0 <= i <= zlen (a ++ s).
Proof.
  induction 1 as [|s1 s2 t toks Hne Htok Hlex IH]; intros fuel a p lp text Hs Hf;
    (destruct fuel as [|fuel]; [lia|]); cbn [parse_loop]; pose proof (zlen_nonneg a).
  - destruct (mallocFailed p).
    { eexists _, _, _, _, _. split; [reflexivity|]. rewrite app_nil_r. lia. }
    unfold at_. cbn [app]. rewrite rd_middle. crun. cbn [Z.eqb].
    eexists _, _, _, _, _. split; [reflexivity|]. rewrite app_nil_r. lia.
  - apply Forall_app in Hs as [Hs1 Hs2]. rewrite length_app in Hf.
    assert (1 <= length s1)%nat by (destruct s1; [done|simpl; lia]).
    destruct (mallocFailed p).
    { eexists _, _, _, _, _. split; [reflexivity|]. rewrite !zlen_app. pose proof (zlen_nonneg s1). pose proof (zlen_nonneg s2). lia. }
    destruct (text_at a s1 s2 rest Hne Hs1) as (c & -> & Hc). crun. rewrite (proj2 (Z.eqb_neq c 0)) by done.
    destruct (token_at a s1 s2 rest) as [-> Htk]. rewrite Htok. crun. cbv zeta. rewrite Htk.
    assert (0 <= zlen a + zlen s1 <= zlen (a ++ s1 ++ s2)) as Hb.
    { rewrite !zlen_app. pose proof (zlen_nonneg s1). pose proof (zlen_nonneg s2). lia. }
    destruct (mx <? zlen a + zlen s1); [by eexists _, _, _, _, _|].
    assert (forall p' lp' text', exists p2 i2 l2 t2 n2,
      parse_loop keywordCode fuel mx (a ++ (s1 ++ s2) ++ 0 :: rest) p' (zlen a + zlen s1) lp' text' = Ret (p2, i2, l2, t2, n2)
      /\ 0 <= i2 <= zlen (a ++ s1 ++ s2)) as Hgo.
    { intros p' lp' text'. rewrite <- zlen_app, <- (app_assoc s1), !(app_assoc a). apply IH; [done|lia]. }
    destruct t; try (destruct (negb (parse_rc _ =? SQLITE_OK)); [by eexists _, _, _, _, _|apply Hgo]);
      try (destruct (isInterrupted p); [by eexists _, _, _, _, _|apply Hgo]); by eexists _, _, _, _, _.
Qed.

(** With a parser that goes on, it gets all significant tokens. *)
Lemma parse_loop_feeds good mx rest s toks : keeps_going good -> lexes rest s toks ->
  forall fuel a p lp text, no_nul s -> (length s < fuel)%nat -> good p ->
  Forall (fun x => x.1 <> TK_ILLEGAL) toks -> zlen (a ++ s) <= mx ->
  parse_loop keywordCode fuel mx (a ++ s ++ 0 :: rest) p (zlen a) lp text
  = Ret (foldl feed p (List.filter significant toks), zlen (a ++ s),
         match last_token significant toks with Some x => Some x.1 | None => lp end,
         default text (snd <$> last toks), 0).
Proof.
  intros Hgood. induction 1 as [|s1 s2 t toks Hne Htok Hlex IH];
    intros fuel a p lp text Hs Hf Hp Hleg Hmx;
    (destruct fuel as [|fuel]; [lia|]); cbn [parse_loop]; destruct (Hgood p Hp) as (-> & Hint & Hrc & Hgo).
  - unfold at_. cbn [app]. rewrite rd_middle. crun. cbn [Z.eqb]. by rewrite app_nil_r.
  - apply Forall_app in Hs as [Hs1 Hs2]. rewrite length_app in Hf.
    inversion_clear Hleg as [|? ? Hleg1 Hleg2]. simpl in Hleg1.
    assert (1 <= length s1)%nat by (destruct s1; [done|simpl; lia]).
    destruct (text_at a s1 s2 rest Hne Hs1) as (c & -> & Hc). crun. rewrite (proj2 (Z.eqb_neq c 0)) by done.
    destruct (token_at a s1 s2 rest) as [-> Htk]. rewrite Htok. crun. cbv zeta. rewrite Htk.
    rewrite !zlen_app in Hmx. pose proof (zlen_nonneg s2).
    rewrite (proj2 (Z.ltb_ge mx _)) by lia.
    assert (default s1 (snd <$> last toks) = default text (snd <$> last ((t, s1) :: toks))) as Htext.
    { destruct toks as [|y toks]; [done|]. rewrite (last_cons_cons). by destruct (last (y :: toks)) eqn:El; [|apply last_None in El]. }
    assert (forall lp', parse_loop keywordCode fuel mx (a ++ (s1 ++ s2) ++ 0 :: rest)
      (if significant (t, s1) then feed p (t, s1) else p) (zlen a + zlen s1) lp' s1
      = Ret (foldl feed p (List.filter significant ((t, s1) :: toks)), zlen (a ++ s1 ++ s2),
             match last_token significant toks with Some x => Some x.1 | None => lp' end,
             default text (snd <$> last ((t, s1) :: toks)), 0)) as Hnext.
    { intros lp'. rewrite <- Htext, <- zlen_app, <- (app_assoc s1), !(app_assoc a).
      rewrite IH; [|done|lia|by destruct (significant _); [apply Hgo|]|done|rewrite !zlen_app; lia].
      simpl. by destruct (significant (t, s1)). }
    assert (forall b, (if significant (t, s1) then Some t else lp) = b ->
      match last_token significant toks with Some x => Some x.1 | None => b end
      = match last_token significant ((t, s1) :: toks) with Some x => Some x.1 | None => lp end) as Hlast.
    { intros b <-. unfold last_token. simpl. destruct (significant (t, s1)); [|done].
      destruct (List.filter significant toks) as [|y l]; [done|]. rewrite last_cons_cons.
      by destruct (last (y :: l)) eqn:El; [|apply last_None in El]. }
    assert (forall t', parse_rc (sqlite3Parser t' s1 p) =? SQLITE_OK = true) as Hok.
    { intros t'. apply Z.eqb_eq. by apply (Hgood _ (Hgo t' s1)). }
    destruct t; try done; rewrite ?Hint, ?Hok; cbn [negb];
      (etransitivity; [apply Hnext|]); rewrite (Hlast _ eq_refl); done.
Qed.

(** The loop up to [tail]. *)
Lemma parse_loop_to good mx tail s toks : keeps_going good -> lexes_to tail s toks ->
  forall fuel a p lp text, no_nul s -> good p ->
  Forall (fun x => x.1 <> TK_ILLEGAL) toks -> zlen (a ++ s) <= mx ->
  exists p' lp' text', good p' /\
    parse_loop keywordCode (length toks + fuel) mx (a ++ s ++ tail) p (zlen a) lp text
    = parse_loop keywordCode fuel mx (a ++ s ++ tail) p' (zlen (a ++ s)) lp' text'.
Proof.
  intros Hgood. induction 1 as [|s1 s2 t toks Hne Htok Hlex IH]; intros fuel a p lp text Hs Hp Hleg Hmx.
  { exists p, lp, text. split; [done|]. by rewrite app_nil_r. }
  apply Forall_app in Hs as [Hs1 Hs2]. inversion_clear Hleg as [|? ? Hleg1 Hleg2]. simpl in Hleg1.
  destruct (Hgood p Hp) as (Hm & Hint & Hrc & Hgo).
  assert (forall p' lp', good p' -> exists p2 lp2 text2, good p2 /\
    parse_loop keywordCode (length toks + fuel) mx (a ++ (s1 ++ s2) ++ tail) p' (zlen a + zlen s1) lp' s1
    = parse_loop keywordCode fuel mx (a ++ (s1 ++ s2) ++ tail) p2 (zlen (a ++ s1 ++ s2)) lp2 text2) as Hnext.
  { intros p' lp' Hp'. destruct (IH fuel (a ++ s1) p' lp' s1) as (p2 & lp2 & text2 & Hp2 & E); [done..| |].
    - by rewrite <- app_assoc.
    - exists p2, lp2, text2. split; [done|]. rewrite zlen_app, <- !app_assoc in E. by rewrite <- !app_assoc. }
  cbn [length Nat.add parse_loop]. rewrite Hm.
  destruct s1 as [|c s1]; [done|]. inversion Hs1 as [|? ? Hc _]; subst.
  assert (at_ (a ++ ((c :: s1) ++ s2) ++ tail) (zlen a) = Ret c) as ->.
  { unfold at_. cbn [app]. by rewrite rd_middle. }
  crun. rewrite (proj2 (Z.eqb_neq c 0)) by done.
  rewrite drop_app_zlen, <- app_assoc, Htok. crun. cbv zeta. rewrite take_app_zlen.
  rewrite !zlen_app in Hmx. pose proof (zlen_nonneg s2). rewrite (proj2 (Z.ltb_ge mx _)) by lia.
  assert (forall t', parse_rc (sqlite3Parser t' (c :: s1) p) =? SQLITE_OK = true) as Hok.
  { intros t'. apply Z.eqb_eq. by apply (Hgood _ (Hgo t' (c :: s1))). }
  rewrite <- app_assoc in Hnext. destruct t; try done; rewrite ?Hint, ?Hok; cbn [negb]; apply Hnext; auto.
Qed.

(** The [!] at the end, with the end of the block behind the terminator. *)
Lemma parse_bang fuel mx s p lp text :
  mallocFailed p = false -> exists p' text' n,
    parse_loop keywordCode (S fuel) mx (s ++ [33; 0]) p (zlen s) lp text
    = Ret (p', zlen s + 2, lp, text', n).
Proof.
  intros Hm. cbn [parse_loop]. rewrite Hm. unfold at_. rewrite rd_middle. crun. cbn [Z.eqb].
  rewrite drop_app_zlen.
  change (sqlite3GetToken keywordCode [33; 0]) with (Ret (TK_ILLEGAL, 2)). crun. cbv zeta.
  destruct (mx <? zlen s + 2); by eexists _, _, _.
Qed.

Lemma lexes_length rest s toks : lexes rest s toks -> no_nul s -> Forall (fun x => no_nul x.2) toks.
Proof.
  induction 1 as [|s1 s2 t toks _ _ _ IH]; intros Hs; [constructor|].
  apply Forall_app in Hs as [Hs1 Hs2]. constructor; [done|by apply IH].
Qed.

End tokens.

Lemma run_parser_returns (keywordCode : list Z -> Z -> tk) {P : Type} `{!ParserOps P}
    (mx : Z) (s rest : list Z) (p : P) toks :
  no_nul s -> lexes keywordCode rest s toks ->
  exists r, sqlite3RunParser keywordCode mx (s ++ 0 :: rest) p = Ret r.
Proof.
  intros Hs Hlex. unfold sqlite3RunParser.
  destruct (parse_loop_safe keywordCode mx rest s toks Hlex (S (length (s ++ 0 :: rest))) [] (set_rc SQLITE_OK p) None [])
    as (p' & i & lp & text & nErr & Hrun & Hi); [done|size|].
  cbn [app] in Hrun. change (zlen []) with 0 in Hrun. rewrite Hrun. crun.
  unfold parse_end. destruct (at_str s rest i Hs) as (c & -> & _); [done|]. crun.
  case_match; by eexists.
Qed.

(** C34: For every text that does not end in an exclamation mark the tokens
    that [sqlite3GetToken] finds, one behind the other, make up exactly the
    text, and [sqlite3RunParser] returns without reading behind the
    terminator, whatever the parser does. While the parser accepts and no
    token is illegal, the parser is given exactly the tokens that are not
    space or comment, in order, a semicolon when the last of them is none, and
    the end of input. *)
Theorem run_parser_tokens (keywordCode : list Z -> Z -> tk) {P : Type} `{!ParserOps P}
    (mx : Z) (s rest : list Z) (p : P) (Hs : no_nul s) (Hl : last s <> Some 33) :
  exists toks, lexes keywordCode rest s toks /\ mjoin (snd <$> toks) = s
    /\ (exists r, sqlite3RunParser keywordCode mx (s ++ 0 :: rest) p = Ret r)
    /\ forall good, keeps_going good -> good (set_rc SQLITE_OK p) -> zlen s <= mx ->
        Forall (fun x => x.1 <> TK_ILLEGAL) toks ->
        let p1 := foldl feed (set_rc SQLITE_OK p) (List.filter significant toks) in
        let text := default [] (snd <$> last toks) in
        sqlite3RunParser keywordCode mx (s ++ 0 :: rest) p
        = Ret (sqlite3Parser TK_EOF text
                 (if bool_decide (fst <$> last_token significant toks = Some TK_SEMI) then p1
                  else sqlite3Parser TK_SEMI text p1), 0).
Proof.
  destruct (lexes_exists keywordCode rest s Hs Hl) as [toks Hlex]. exists toks.
  split; [done|]. split; [by eapply lexes_concat|]. split.
  - by eapply run_parser_returns.
  - intros good Hgood Hp Hmx Hleg p1 text. unfold sqlite3RunParser.
    pose proof (parse_loop_feeds keywordCode good mx rest s toks Hgood Hlex (S (length (s ++ 0 :: rest))) []
      (set_rc SQLITE_OK p) None [] Hs ltac:(size) Hp Hleg Hmx) as Hrun.
    cbn [app] in Hrun. change (zlen []) with 0 in Hrun. rewrite Hrun. crun. fold p1 text.
    unfold parse_end. unfold at_. rewrite rd_middle. crun.
    assert (good p1) as Hp1.
    { assert (forall l p0, good p0 -> good (foldl feed p0 l)) as Hfold; [|by apply Hfold].
      induction l as [|x l IH]; intros p0 Hp0; [done|]. simpl. apply IH. by apply (Hgood p0 Hp0). }
    destruct (Hgood p1 Hp1) as (_ & _ & -> & _). cbn [Z.eqb andb].
    by destruct (last_token significant toks).
Qed.

(** A parser that records its tokens. *)
#[export] Instance record_parser : ParserOps (list tk) := {
  mallocFailed _ := false;
  isInterrupted _ := false;
  parse_rc _ := SQLITE_OK;
  set_rc _ p := p;
  sqlite3Parser t _ p := p ++ [t];
}.

(** The text [a b]. *)
Lemma run_parser_tokens_witness :
  exists toks, lexes (fun _ _ => TK_ID) [] [97; 32; 98] toks /\ mjoin (snd <$> toks) = [97; 32; 98]
    /\ (exists r, sqlite3RunParser (fun _ _ => TK_ID) 100 ([97; 32; 98] ++ [0]) [] = Ret r)
    /\ forall good, keeps_going good -> good (set_rc SQLITE_OK []) -> zlen [97; 32; 98] <= 100 ->
        Forall (fun x => x.1 <> TK_ILLEGAL) toks ->
        let p1 := foldl feed (set_rc SQLITE_OK []) (List.filter significant toks) in
        let text := default [] (snd <$> last toks) in
        sqlite3RunParser (fun _ _ => TK_ID) 100 ([97; 32; 98] ++ [0]) []
        = Ret (sqlite3Parser TK_EOF text
                 (if bool_decide (fst <$> last_token significant toks = Some TK_SEMI) then p1
                  else sqlite3Parser TK_SEMI text p1), 0).
Proof.
  apply (run_parser_tokens (fun _ _ => TK_ID) 100 [97; 32; 98] [] []); [repeat constructor; lia|discriminate].
Defined.

(** C35: Every SQL text falls into tokens that lie inside of it, and then
    [sqlite3RunParser] returns without reading behind the terminator, or it
    ends in an exclamation mark that no token before it covers. Then, while
    the parser accepts and no token is illegal, [sqlite3RunParser] reads the
    byte behind the terminator: the token for an exclamation mark that no
    equals sign follows has length two even at the end of the text (the block
    ends with the terminator here). *)
Theorem run_parser_bang (keywordCode : list Z -> Z -> tk) {P : Type} `{!ParserOps P}
    (mx : Z) (s : list Z) (p : P) (good : P -> Prop) :
  no_nul s -> keeps_going good -> good (set_rc SQLITE_OK p) -> zlen s <= mx ->
  ((exists toks, lexes keywordCode [] s toks) /\
   exists r, sqlite3RunParser keywordCode mx (s ++ [0]) p = Ret r) \/
  (exists s0 toks, s = s0 ++ [33] /\ lexes_to keywordCode [33; 0] s0 toks /\
     (Forall (fun x => x.1 <> TK_ILLEGAL) toks ->
      sqlite3RunParser keywordCode mx (s ++ [0]) p = UB)).
Proof.
  intros Hs Hgood Hp Hmx.
  destruct (lexes_or_bang keywordCode [] s Hs) as [[toks Hlex] | (s0 & toks & -> & Hlex)].
  - left. split; [by exists toks|]. by apply (run_parser_returns keywordCode mx s [] p toks).
  - right. exists s0, toks. split; [done|]. split; [done|]. intros Hleg.
    apply Forall_app in Hs as [Hs _]. unfold sqlite3RunParser. rewrite <- app_assoc. cbn [app].
    pose proof (lexes_to_length _ _ _ _ Hlex) as Hlt. rewrite zlen_app in Hmx. change (zlen [33]) with 1 in Hmx.
    assert (exists fuel, S (length (s0 ++ [33; 0]%Z)) = (length toks + S fuel)%nat) as [fuel ->].
    { exists (S (length s0) + 1 - length toks)%nat. rewrite length_app. simpl. lia. }
    destruct (parse_loop_to keywordCode good mx [33; 0] s0 toks Hgood Hlex (S fuel) [] _ None [] Hs Hp Hleg)
      as (p' & lp & text & Hp' & E); [simpl; lia|].
    cbn [app] in E. change (zlen (@nil Z)) with 0 in E. rewrite E.
    destruct (parse_bang keywordCode fuel mx s0 p' lp text) as (p2 & text2 & n & ->); [by apply Hgood|].
    crun. unfold parse_end, at_. rewrite rd_ge; [done|]. rewrite zlen_app. change (zlen [33; 0]) with 2. lia.
Qed.

(** The text [a !]. *)
Lemma run_parser_bang_witness :
  ((exists toks, lexes (fun _ _ => TK_ID) [] [97; 32; 33] toks) /\
   exists r, sqlite3RunParser (fun _ _ => TK_ID) 100 ([97; 32; 33] ++ [0]) ([] : list tk) = Ret r) \/
  (exists s0 toks, [97; 32; 33] = s0 ++ [33] /\ lexes_to (fun _ _ => TK_ID) [33; 0] s0 toks /\
     (Forall (fun x => x.1 <> TK_ILLEGAL) toks ->
      sqlite3RunParser (fun _ _ => TK_ID) 100 ([97; 32; 33] ++ [0]) ([] : list tk) = UB)).
Proof.
  apply (run_parser_bang (fun _ _ => TK_ID) 100 [97; 32; 33] [] (fun _ => True));
    [repeat constructor; lia | by intros p _ | done | done].
Defined.

(** It is the second case. *)
Lemma run_parser_bang_runs : sqlite3RunParser (fun _ _ => TK_ID) 100 [97; 32; 33; 0] ([] : list tk) = UB.
Proof. vm_compute. reflexivity. Qed.

Lemma double_quote_cons q c s :
  double_quote q (c :: s) = (if c =? q then [q; q] else [c]) ++ double_quote q s.
Proof. done. Qed.

Lemma string_loop_quoted q s t fuel i :
  q <> 0 -> no_nul s -> head t <> Some q -> t <> [] -> (length (double_quote q s) < fuel)%nat ->
  string_loop fuel q (double_quote q s ++ q :: t) i = Ret (i + zlen (double_quote q s), q).
Proof.
  intros Hq Hs Ht Hne. revert fuel i. induction Hs as [|c s Hc _ IH]; intros fuel i Hf;
    (destruct fuel as [|fuel]; [lia|]); cbn [string_loop].
  - change (double_quote q []) with (@nil Z). cbn [app]. destruct t as [|y t]; [done|].
    rewrite at_0, at_1. crun. rewrite (proj2 (Z.eqb_neq q 0)), Z.eqb_refl by done.
    rewrite (proj2 (Z.eqb_neq y q)) by (simpl in Ht; congruence). by rewrite Z.add_0_r.
  - rewrite double_quote_cons, zlen_app in *. destruct (Z.eqb_spec c q) as [->|Hcq]; cbn [app] in *.
    + rewrite at_0, at_1. crun. rewrite (proj2 (Z.eqb_neq q 0)), Z.eqb_refl by done. cbn [skipn].
      rewrite drop_0, IH by (simpl in Hf; lia). change (zlen [q; q]) with 2. f_equal. f_equal. lia.
    + rewrite at_0. crun. rewrite (proj2 (Z.eqb_neq c 0)), (proj2 (Z.eqb_neq c q)) by done. cbn [skipn].
      rewrite drop_0, IH by (simpl in Hf; lia). change (zlen [c]) with 1. f_equal. f_equal. lia.
Qed.

Lemma quoted_token_run (keywordCode : list Z -> Z -> tk) (q : Z) (s t : list Z)
    (Hq : q = 39 \/ q = 34 \/ q = 96) (Hs : no_nul s) (Ht : head t <> Some q) (Hne : t <> []) :
  let tok := q :: double_quote q s ++ [q] in
  sqlite3GetToken keywordCode (tok ++ t) = Ret (TK_STRING, zlen tok)
  /\ exists tail, sqlite3Dequote (tok ++ [0]) = Ret (s ++ 0 :: tail).
Proof.
  intros tok. assert (q <> 0) as Hq0 by lia. split.
  - unfold tok, sqlite3GetToken. cbn [app]. rewrite at_0. crun.
    assert (token_string (q :: (double_quote q s ++ [q]) ++ t) = Ret (TK_STRING, zlen tok)) as Hstr.
    { unfold token_string. rewrite at_0. crun. cbn [skipn]. rewrite drop_0, <- app_assoc. cbn [app].
      rewrite string_loop_quoted by (done || size). crun. rewrite (proj2 (Z.eqb_neq q 0)) by done.
      unfold tok. cbn [negb]. rewrite zlen_cons, zlen_app. do 2 f_equal. change (zlen [q]) with 1. lia. }
    rewrite Hstr. by destruct Hq as [->|[->| ->]].
  - unfold tok. cbn [app]. rewrite <- app_assoc. cbn [app].
    unfold sqlite3Dequote. rewrite rd_0, bind_of_opt.
    assert (close_quote q = Some q) as -> by (by destruct Hq as [->|[->| ->]]).
    destruct (dequote_run (S (length (q :: double_quote q s ++ [q; 0]))) q s [0] [] [q]) as (tail & Hr & _);
      [done|done|done|simpl; congruence|done|size|]. by exists tail.
Qed.

(** A text in single, double or grave quotes, in which the quote is
    written twice, is one token of type [TK_STRING] that ends with the closing
    quote, and [sqlite3Dequote] turns a copy of the token into the text. *)
Lemma quoted_token (keywordCode : list Z -> Z -> tk) (q : Z) (s t : list Z)
    (Hq : q = 39 \/ q = 34 \/ q = 96) (Hs : no_nul s) (Ht : head t <> Some q) (Hne : t <> []) :
  let tok := q :: double_quote q s ++ [q] in
  sqlite3GetToken keywordCode (tok ++ t) = Ret (TK_STRING, zlen tok)
  /\ exists tail, sqlite3Dequote (tok ++ [0]) = Ret (s ++ 0 :: tail).
Proof. by apply quoted_token_run. Qed.

(** The text [it's] in single quotes, with a comma behind. *)
Lemma quoted_token_witness :
  sqlite3GetToken (fun _ _ => TK_ID) ((39 :: double_quote 39 [105; 116; 39; 115] ++ [39]) ++ [44; 0])
  = Ret (TK_STRING, 7)
  /\ exists tail, sqlite3Dequote ((39 :: double_quote 39 [105; 116; 39; 115] ++ [39]) ++ [0])
     = Ret ([105; 116; 39; 115] ++ 0 :: tail).
Proof.
  apply (quoted_token (fun _ _ => TK_ID) 39 [105; 116; 39; 115] [44; 0]);
    [by left | repeat constructor; lia | discriminate..].
Defined.
