(* ===== verification/Complete.v ===== *)
(** * Is a statement complete?

    Model of misc/sqlite/complete.c: [sqlite3_complete] cuts the text into
    tokens of eight classes and runs a state machine with seven states over
    them. The theorems relate the machine to the grammar of complete
    statements, and the routine to the machine and to a declarative reading of
    the token classes. *)

From S2P Require Import Prelude NumText Tokenize.

(** Token classes. *)
Definition tkSEMI : Z := 0.
Definition tkWS : Z := 1.
Definition tkOTHER : Z := 2.
Definition tkEXPLAIN : Z := 3.
Definition tkCREATE : Z := 4.
Definition tkTEMP : Z := 5.
Definition tkTRIGGER : Z := 6.
Definition tkEND : Z := 7.

Definition trans : list (list Z) :=
  [ (* SEMI WS OTHER EXPLAIN CREATE TEMP TRIGGER END *)
    [0; 0; 1; 2; 3; 1; 1; 1];   (* START *)
    [0; 1; 1; 1; 1; 1; 1; 1];   (* NORMAL *)
    [0; 2; 1; 1; 3; 1; 1; 1];   (* EXPLAIN *)
    [0; 3; 1; 1; 1; 3; 4; 1];   (* CREATE *)
    [5; 4; 4; 4; 4; 4; 4; 4];   (* TRIGGER *)
    [5; 5; 4; 4; 4; 4; 4; 6];   (* SEMI *)
    [0; 6; 4; 4; 4; 4; 4; 4] ]. (* END *)

Definition next_state (state token : Z) : res Z :=
  row ← of_opt (rd trans state); of_opt (rd row token).

(** What one round of the loop finds: a token, with [zSql] at its last
    character; or the end of the text inside of a token. *)
Inductive round :=
| Token (token : Z) (zSql : list Z)
| ReturnFalse               (** [return 0;] *)
| ReturnStart.              (** [return state==0;] *)

(** [while( zSql[0] && (zSql[0]!='*' || zSql[1]!='/') ){ zSql++; }] *)
Fixpoint skip_comment (z : list Z) : res (list Z) :=
  match z with
  | [] => UB
  | c :: z' =>
      if c =? 0 then Ret z
      else if negb (c =? 42) then skip_comment z'
      else d ← deref z'; if negb (d =? 47) then skip_comment z' else Ret z
  end.

(** [while( *zSql && *zSql!=stop ){ zSql++; }] *)
Fixpoint skip_to (stop : Z) (z : list Z) : res (list Z) :=
  match z with
  | [] => UB
  | c :: z' => if negb (c =? 0) && negb (c =? stop) then skip_to stop z' else Ret z
  end.

(** [for(nId=1; IdChar(zSql[nId]); nId++){}], from [zSql+nId]. *)
Fixpoint id_length (z : list Z) (nId : Z) : res Z :=
  match z with
  | [] => UB
  | c :: z => if IdChar (schar c) then id_length z (nId + 1) else Ret nId
  end.

Definition kw_create : list Z := [99; 114; 101; 97; 116; 101].
Definition kw_trigger : list Z := [116; 114; 105; 103; 103; 101; 114].
Definition kw_temp : list Z := [116; 101; 109; 112].
Definition kw_temporary : list Z := [116; 101; 109; 112; 111; 114; 97; 114; 121].
Definition kw_end : list Z := [101; 110; 100].
Definition kw_explain : list Z := [101; 120; 112; 108; 97; 105; 110].

(** [nId==n && sqlite3StrNICmp(zSql, kw, n)==0] *)
Definition is_keyword (zSql : list Z) (nId : Z) (kw : list Z) : res bool :=
  if nId =? zlen kw then d ← sqlite3StrNICmp zSql (kw ++ [0]) (zlen kw); Ret (d =? 0)
  else Ret false.

Definition word_token (zSql : list Z) (nId c : Z) : res Z :=
  if (c =? 99) || (c =? 67) then
    b ← is_keyword zSql nId kw_create;
    Ret (if (b : bool) then tkCREATE else tkOTHER)
  else if (c =? 116) || (c =? 84) then
    b ← is_keyword zSql nId kw_trigger;
    if (b : bool) then Ret tkTRIGGER else
    b ← is_keyword zSql nId kw_temp;
    if (b : bool) then Ret tkTEMP else
    b ← is_keyword zSql nId kw_temporary;
    Ret (if (b : bool) then tkTEMP else tkOTHER)
  else if (c =? 101) || (c =? 69) then
    b ← is_keyword zSql nId kw_end;
    if (b : bool) then Ret tkEND else
    b ← is_keyword zSql nId kw_explain;
    Ret (if (b : bool) then tkEXPLAIN else tkOTHER)
  else Ret tkOTHER.

Definition complete_round (zSql : list Z) : res round :=
  c ← deref zSql;
  if c =? 59 then Ret (Token tkSEMI zSql)
  else if (c =? 32) || (c =? 13) || (c =? 9) || (c =? 10) || (c =? 12) then Ret (Token tkWS zSql)
  else if c =? 47 then
    c1 ← deref (advance 1 zSql);
    if negb (c1 =? 42) then Ret (Token tkOTHER zSql) else
    z ← skip_comment (advance 2 zSql);
    e ← deref z;
    if e =? 0 then Ret ReturnFalse else Ret (Token tkWS (advance 1 z))
  else if c =? 45 then
    c1 ← deref (advance 1 zSql);
    if negb (c1 =? 45) then Ret (Token tkOTHER zSql) else
    z ← skip_to 10 zSql;
    e ← deref z;
    if e =? 0 then Ret ReturnStart else Ret (Token tkWS z)
  else if c =? 91 then
    z ← skip_to 93 (advance 1 zSql);
    e ← deref z;
    if e =? 0 then Ret ReturnFalse else Ret (Token tkOTHER z)
  else if (c =? 96) || (c =? 34) || (c =? 39) then
    z ← skip_to c (advance 1 zSql);
    e ← deref z;
    if e =? 0 then Ret ReturnFalse else Ret (Token tkOTHER z)
  else if IdChar c then
    nId ← id_length (advance 1 zSql) 1;
    token ← word_token zSql nId c;
    Ret (Token token (advance (Z.to_nat (nId - 1)) zSql))
  else Ret (Token tkOTHER zSql).

Fixpoint complete_loop (fuel : nat) (zSql : list Z) (state : Z) : res bool :=
  match fuel with
  | O => NoFuel
  | S fuel =>
      c ← deref zSql;
      if c =? 0 then Ret (state =? 0) else
      r ← complete_round zSql;
      match r with
      | ReturnFalse => Ret false
      | ReturnStart => Ret (state =? 0)
      | Token token z =>
          state ← next_state state token;
          complete_loop fuel (advance 1 z) state
      end
  end.

Definition sqlite3_complete (zSql : list Z) : res bool := complete_loop (S (length zSql)) zSql 0.

(** ** The grammar of complete statements *)

Inductive token_class := SEMI | WS | OTHER | EXPLAIN | CREATE | TEMP | TRIGGER | END_.

#[export] Instance token_class_eq_dec : EqDecision token_class.
Proof. solve_decision. Defined.

Definition token_code (k : token_class) : Z :=
  match k with
  | SEMI => tkSEMI | WS => tkWS | OTHER => tkOTHER | EXPLAIN => tkEXPLAIN
  | CREATE => tkCREATE | TEMP => tkTEMP | TRIGGER => tkTRIGGER | END_ => tkEND
  end.

(** The start of a trigger definition: [[EXPLAIN] CREATE TEMP* TRIGGER]. *)
Inductive trigger_head : list token_class -> Prop :=
| trigger_head_intro (explain : bool) (n : nat) :
    trigger_head ((if explain then [EXPLAIN] else []) ++ [CREATE] ++ replicate n TEMP ++ [TRIGGER]).

(** A trigger body goes up to the first [;END;]. *)
Definition trigger_end : list token_class := [SEMI; END_; SEMI].
Definition trigger_body (ts : list token_class) : Prop :=
  trigger_end `suffix_of` ts
  /\ forall us, us `prefix_of` ts -> trigger_end `suffix_of` us -> us = ts.

(** An ordinary statement goes up to the first semicolon. *)
Definition ordinary (ts : list token_class) : Prop :=
  SEMI ∉ ts /\ forall h, trigger_head h -> ~ h `prefix_of` ts.

(** Sequences of complete statements, white space left out. *)
Inductive statements : list token_class -> Prop :=
| statements_nil : statements []
| statements_ordinary ts us : ordinary ts -> statements us -> statements (ts ++ SEMI :: us)
| statements_trigger h body us :
    trigger_head h -> trigger_body body -> statements us -> statements (h ++ body ++ us).

Definition not_ws (k : token_class) : bool := negb (bool_decide (k = WS)).

(** The state of the machine after a sequence of tokens. *)
Definition machine (state : Z) (ts : list token_class) : res Z :=
  foldl (fun r k => s ← r; next_state s (token_code k)) (Ret state) ts.

(** ** The machine accepts the grammar *)

Definition delta (s : Z) (k : token_class) : Z :=
  match next_state s (token_code k) with Ret x => x | _ => 0 end.

Notation run := (foldl delta).

Lemma delta_spec s k :
  0 <= s <= 6 -> next_state s (token_code k) = Ret (delta s k) /\ 0 <= delta s k <= 6.
Proof.
  intros Hs. assert (s = 0 \/ s = 1 \/ s = 2 \/ s = 3 \/ s = 4 \/ s = 5 \/ s = 6) as H by lia.
  destruct H as [->|[->|[->|[->|[->|[->| ->]]]]]]; destruct k; (split; [reflexivity|]); vm_compute; intuition congruence.
Qed.

Lemma machine_run s ts : 0 <= s <= 6 -> machine s ts = Ret (run s ts) /\ 0 <= run s ts <= 6.
Proof.
  unfold machine. revert s. induction ts as [|k ts IH]; intros s Hs; [done|]. cbn [foldl].
  destruct (delta_spec s k Hs) as [Hd Hr]. rewrite bind_ret_l, Hd. by apply IH.
Qed.

Lemma delta_ws s : 0 <= s <= 6 -> delta s WS = s.
Proof.
  intros Hs. assert (s = 0 \/ s = 1 \/ s = 2 \/ s = 3 \/ s = 4 \/ s = 5 \/ s = 6) as H by lia.
  by destruct H as [->|[->|[->|[->|[->|[->| ->]]]]]].
Qed.

Lemma run_filter s ts : 0 <= s <= 6 -> run s (List.filter not_ws ts) = run s ts.
Proof.
  revert s. induction ts as [|k ts IH]; intros s Hs; [done|].
  destruct (delta_spec s k Hs) as [_ Hr]. simpl. destruct (decide (k = WS)) as [->|Hk].
  - rewrite delta_ws by done. by apply IH.
  - unfold not_ws at 1. rewrite bool_decide_false by done. simpl. by apply IH.
Qed.

Lemma trigger_head_run h : trigger_head h -> run 0 h = 4 /\ SEMI ∉ h.
Proof.
  intros [e n]. split.
  - rewrite !foldl_app. assert (run (run 0 (if e then [EXPLAIN] else [])) [CREATE] = 3) as -> by by destruct e.
    assert (forall m, run 3 (replicate m TEMP) = 3) as Ht by (induction m; [done|]; exact IHm).
    by rewrite Ht.
  - rewrite !elem_of_app, elem_of_replicate. destruct e; set_solver.
Qed.

(** Without a semicolon: what the state says about the tokens so far. *)
Definition head_inv (ts : list token_class) (s : Z) : Prop :=
  (s = 0 /\ ts = []) \/ s = 1 \/ (s = 2 /\ ts = [EXPLAIN])
  \/ (s = 3 /\ exists (e : bool) n, ts = (if e then [EXPLAIN] else []) ++ [CREATE] ++ replicate n TEMP)
  \/ (s = 4 /\ exists h, trigger_head h /\ h `prefix_of` ts).

Lemma run_head ts : SEMI ∉ ts -> WS ∉ ts -> head_inv ts (run 0 ts).
Proof.
  induction ts as [|k ts IH] using rev_ind; intros Hs Hw; [by left|].
  rewrite foldl_app. cbn [foldl]. assert (k <> SEMI /\ k <> WS) as [Hk Hkw] by set_solver.
  destruct IH as [[-> ->]|[->|[[-> ->]|[[-> (e & n & ->)]|[-> (h & Hh & Hp)]]]]]; [set_solver..| | | | |].
  - destruct k; try done; try (by right; left); try (by right; right; left; split).
    right; right; right; left. split; [done|]. by exists false, 0%nat.
  - destruct k; try done; by right; left.
  - destruct k; try done; try (by right; left).
    right; right; right; left. split; [done|]. by exists true, 0%nat.
  - destruct k; try done; try (by right; left).
    + right; right; right; left. split; [done|]. exists e, (S n). rewrite <- !app_assoc.
      by rewrite replicate_S_end.
    + right; right; right; right. split; [done|].
      eexists. split; [apply (trigger_head_intro e n)|]. by rewrite <- !app_assoc.
  - right; right; right; right. split; [by destruct k|]. exists h. split; [done|]. by apply prefix_app_r.
Qed.

(** In a body without [;END;]: the state is the part of it that was seen. *)
Definition no_end (ts : list token_class) : Prop :=
  forall us, us `prefix_of` ts -> ~ trigger_end `suffix_of` us.

Definition body_inv (ts : list token_class) (s : Z) : Prop :=
  (s = 4 /\ last ts <> Some SEMI) \/ (s = 5 /\ exists v, ts = v ++ [SEMI])
  \/ (s = 6 /\ exists v, ts = v ++ [SEMI; END_]).

Lemma run_body ts : no_end ts -> WS ∉ ts -> body_inv ts (run 4 ts).
Proof.
  induction ts as [|k ts IH] using rev_ind; intros Hne Hw; [by left|].
  rewrite foldl_app. cbn [foldl]. assert (k <> WS) as Hkw by set_solver.
  destruct IH as [[-> Hl]|[[-> [v ->]]|[-> [v ->]]]]; [|set_solver| | |].
  - intros us Hus. apply Hne. by apply prefix_app_r.
  - destruct k; try done; try (by left; split; [|by rewrite last_snoc]).
    right; left. split; [done|]. by exists ts.
  - destruct k; try done; try (by left; split; [|by rewrite last_snoc]).
    + right; left. split; [done|]. by eexists.
    + right; right. split; [done|]. exists v. by rewrite <- app_assoc.
  - destruct k; try done; try (by left; split; [|by rewrite last_snoc]).
    exfalso. apply (Hne _ (reflexivity _)). exists v. by rewrite <- app_assoc.
Qed.

Lemma run_trigger_body ts : trigger_body ts -> WS ∉ ts -> run 4 ts = 0.
Proof.
  intros [[v ->] Hmin] Hw. rewrite foldl_app.
  assert (no_end v) as Hne.
  { intros us Hus Hsuf. assert (us = v ++ trigger_end) as -> by (apply Hmin; [by apply prefix_app_r|done]).
    apply prefix_length in Hus. rewrite length_app in Hus. simpl in Hus. lia. }
  destruct (run_body v Hne) as [[-> _]|[[-> _]|[_ [u ->]]]]; [set_solver|done|done|].
  exfalso. assert (u ++ trigger_end = (u ++ [SEMI; END_]) ++ trigger_end) as Heq.
  { apply Hmin; [|by exists u]. exists [END_; SEMI]. by rewrite <- !app_assoc. }
  apply (f_equal length) in Heq. rewrite !length_app in Heq. simpl in Heq. lia.
Qed.

Lemma prefix_of_snoc {A} (us ts : list A) k :
  us `prefix_of` ts ++ [k] -> us `prefix_of` ts \/ us = ts ++ [k].
Proof.
  intros [w Hw]. destruct w as [|x w _] using rev_ind; [right; by rewrite app_nil_r in Hw|].
  left. rewrite app_assoc in Hw. apply app_inj_tail in Hw as [-> _]. by exists w.
Qed.

(** A body ends at its first [;END;], if there is one. *)
Lemma body_split ts : no_end ts \/ exists body us, ts = body ++ us /\ trigger_body body.
Proof.
  induction ts as [|k ts [IH|(body & us & -> & Hb)]] using rev_ind.
  - left. intros us ->%prefix_nil_inv [v Hv]. by destruct v.
  - assert (forall us, us `prefix_of` ts ++ [k] -> trigger_end `suffix_of` us -> us = ts ++ [k]) as Hwhole.
    { intros us Hus Hsuf. apply prefix_of_snoc in Hus as [Hus| ->]; [by destruct (IH us Hus)|done]. }
    destruct (decide (trigger_end `suffix_of` (ts ++ [k]))) as [Hsuf|Hno].
    + right. exists (ts ++ [k]), []. by rewrite app_nil_r.
    + left. intros us Hus Hsuf. by rewrite (Hwhole us Hus Hsuf) in Hsuf.
  - right. exists body, (us ++ [k]). by rewrite app_assoc.
Qed.

Lemma first_semi (ts : list token_class) : SEMI ∉ ts \/ exists a b, ts = a ++ SEMI :: b /\ SEMI ∉ a.
Proof.
  induction ts as [|k ts [IH|(a & b & -> & Ha)]]; [left; set_solver| |].
  - destruct (decide (k = SEMI)) as [->|Hk]; [right; exists [], ts; set_solver|left; set_solver].
  - right. destruct (decide (k = SEMI)) as [->|Hk]; [exists [], (a ++ SEMI :: b); set_solver|].
    exists (k :: a), b. split; [done|set_solver].
Qed.

(** Once in a trigger, the machine leaves it at [;END;] only. *)
Lemma run_in_trigger ts : SEMI ∉ ts -> WS ∉ ts -> run 4 ts = 4.
Proof.
  induction ts as [|k ts IH] using rev_ind; intros Hs Hw; [done|].
  rewrite foldl_app. cbn [foldl]. rewrite IH by set_solver. destruct k; try done; set_solver.
Qed.

Lemma ordinary_run ts : ordinary ts -> WS ∉ ts -> delta (run 0 ts) SEMI = 0.
Proof.
  intros [Hs Hh] Hw. destruct (run_head ts Hs Hw) as [[-> _]|[->|[[-> _]|[[-> _]|[_ (h & Hh1 & Hh2)]]]]]; try done.
  by destruct (Hh h Hh1).
Qed.

Lemma statements_run ts : statements ts -> WS ∉ ts -> run 0 ts = 0.
Proof.
  induction 1 as [|ts us Ho _ IH|h body us Hh Hb _ IH]; intros Hw; [done| |].
  - rewrite foldl_app. cbn [foldl]. rewrite ordinary_run by set_solver. apply IH. set_solver.
  - rewrite !foldl_app. destruct (trigger_head_run h Hh) as [-> _].
    rewrite run_trigger_body by set_solver. apply IH. set_solver.
Qed.

Lemma run_statements ts : WS ∉ ts -> run 0 ts = 0 -> statements ts.
Proof.
  remember (length ts) as n eqn:Hn. revert ts Hn. induction (lt_wf n) as [n _ IH]; intros ts -> Hw H0.
  destruct (first_semi ts) as [Hs|(a & b & -> & Ha)].
  - destruct (run_head ts Hs Hw) as [[_ ->]|[Hr|[[Hr _]|[[Hr _]|[Hr _]]]]]; try congruence. constructor.
  - assert ((delta (run 0 a) SEMI = 0 /\ run 0 a <> 4)
            \/ run 0 a = 4 /\ exists h, trigger_head h /\ h `prefix_of` a) as [[Hd Hr]|(Hr & h & Hh & c & ->)].
    { destruct (run_head a Ha ltac:(set_solver)) as [[-> _]|[->|[[-> _]|[[-> _]|Hr]]]]; auto. }
    { constructor.
      - split; [done|]. intros h Hh [c ->].
        rewrite foldl_app, (proj1 (trigger_head_run h Hh)), run_in_trigger in Hr by set_solver. done.
      - apply (IH (length b)); [rewrite length_app; simpl; lia|done|set_solver|].
        rewrite foldl_app in H0. cbn [foldl] in H0. by rewrite Hd in H0. }
    rewrite <- app_assoc in *. destruct (trigger_head_run h Hh) as [Hrun _].
    rewrite foldl_app, Hrun in H0.
    destruct (body_split (c ++ SEMI :: b)) as [Hno|(body & us & Heq & Hb)].
    + destruct (run_body _ Hno) as [[Hx _]|[[Hx _]|[Hx _]]]; [set_solver|congruence..].
    + rewrite Heq in *. apply statements_trigger; [done|done|].
      rewrite foldl_app, run_trigger_body in H0 by (done || set_solver).
      apply (IH (length us)); [|done|set_solver|done].
      rewrite !length_app. destruct body as [|k body]; [by destruct Hb as [[[|] ?] _]|simpl; lia].
Qed.

Lemma machine_statements ts :
  machine 0 ts = Ret 0 <-> statements (List.filter not_ws ts).
Proof.
  destruct (machine_run 0 ts) as [-> _]; [lia|]. rewrite <- (run_filter 0 ts) by lia.
  assert (WS ∉ List.filter not_ws ts) as Hw.
  { rewrite list_elem_of_In, filter_In. intros [_ H]. done. }
  split.
  - intros [= H]. by apply run_statements.
  - intros H. f_equal. by apply statements_run.
Qed.

(** ** The tokens of a text *)

(** How a text ends: between tokens, inside of a token, or inside of a comment
    that the end of the line would close. *)
Inductive ending := AtEnd | InToken | InLineComment.

Definition word_class (w : list Z) : token_class :=
  let l := tolower <$> w in
  if bool_decide (l = kw_create) then CREATE
  else if bool_decide (l = kw_trigger) then TRIGGER
  else if bool_decide (l = kw_temp) then TEMP
  else if bool_decide (l = kw_temporary) then TEMP
  else if bool_decide (l = kw_end) then END_
  else if bool_decide (l = kw_explain) then EXPLAIN
  else OTHER.

Definition is_white (c : Z) : bool := (c =? 32) || (c =? 13) || (c =? 9) || (c =? 10) || (c =? 12).
Definition is_quote (c : Z) : bool := (c =? 96) || (c =? 34) || (c =? 39).
Definition is_special (c : Z) : bool :=
  (c =? 59) || is_white c || (c =? 47) || (c =? 45) || (c =? 91) || is_quote c || IdChar c.

(** [*/] does not occur in [body] and does not straddle its end. *)
Definition comment_text (body : list Z) : Prop := forall a b, body ++ [42] <> a ++ [42; 47] ++ b.

Inductive lexed : list Z -> list token_class -> ending -> Prop :=
| lexed_nil : lexed [] [] AtEnd
| lexed_semi s ts e : lexed s ts e -> lexed (59 :: s) (SEMI :: ts) e
| lexed_white c s ts e : is_white c = true -> lexed s ts e -> lexed (c :: s) (WS :: ts) e
| lexed_slash s ts e : head s <> Some 42 -> lexed s ts e -> lexed (47 :: s) (OTHER :: ts) e
| lexed_comment body s ts e :
    comment_text body -> lexed s ts e -> lexed ([47; 42] ++ body ++ [42; 47] ++ s) (WS :: ts) e
| lexed_comment_open body : (forall a b, body <> a ++ [42; 47] ++ b) -> lexed ([47; 42] ++ body) [] InToken
| lexed_minus s ts e : head s <> Some 45 -> lexed s ts e -> lexed (45 :: s) (OTHER :: ts) e
| lexed_line body s ts e : 10 ∉ body -> lexed s ts e -> lexed ([45; 45] ++ body ++ 10 :: s) (WS :: ts) e
| lexed_line_open body : 10 ∉ body -> lexed ([45; 45] ++ body) [] InLineComment
| lexed_bracket body s ts e : 93 ∉ body -> lexed s ts e -> lexed (91 :: body ++ 93 :: s) (OTHER :: ts) e
| lexed_bracket_open body : 93 ∉ body -> lexed (91 :: body) [] InToken
| lexed_quote q body s ts e :
    is_quote q = true -> q ∉ body -> lexed s ts e -> lexed (q :: body ++ q :: s) (OTHER :: ts) e
| lexed_quote_open q body : is_quote q = true -> q ∉ body -> lexed (q :: body) [] InToken
| lexed_word w s ts e :
    w <> [] -> Forall (fun c => IdChar c = true) w ->
    match head s with Some c => IdChar c = false | None => True end ->
    lexed s ts e -> lexed (w ++ s) (word_class w :: ts) e
| lexed_other c s ts e : is_special c = false -> lexed s ts e -> lexed (c :: s) (OTHER :: ts) e.

(** The loops over the inside of a token. *)
Lemma skip_to_found stop body z :
  no_nul body -> stop ∉ body -> stop <> 0 -> skip_to stop (body ++ stop :: z) = Ret (stop :: z).
Proof.
  intros Hb Hs H0. induction Hb as [|c body Hc _ IH]; cbn [app skip_to].
  - by rewrite (proj2 (Z.eqb_neq stop 0)), Z.eqb_refl.
  - rewrite (proj2 (Z.eqb_neq c 0)), (proj2 (Z.eqb_neq c stop)) by set_solver. cbn [negb andb].
    apply IH. set_solver.
Qed.

Lemma skip_to_open stop body rest :
  no_nul body -> stop ∉ body -> skip_to stop (body ++ 0 :: rest) = Ret (0 :: rest).
Proof.
  intros Hb Hs. induction Hb as [|c body Hc _ IH]; cbn [app skip_to]; [done|].
  rewrite (proj2 (Z.eqb_neq c 0)), (proj2 (Z.eqb_neq c stop)) by set_solver. cbn [negb andb].
  apply IH. set_solver.
Qed.

Lemma skip_comment_found body z :
  no_nul body -> comment_text body -> skip_comment (body ++ 42 :: 47 :: z) = Ret (42 :: 47 :: z).
Proof.
  induction 1 as [|c body Hc Hb IH]; intros Ht; cbn [app skip_comment]; [done|].
  rewrite (proj2 (Z.eqb_neq c 0)) by done.
  assert (skip_comment (body ++ 42 :: 47 :: z) = Ret (42 :: 47 :: z)) as IH'.
  { apply IH. intros a b Hab. apply (Ht (c :: a) b). simpl. by rewrite Hab. }
  destruct (Z.eqb_spec c 42) as [->|]; cbn [negb]; [|done].
  destruct body as [|d body]; cbn [app]; rewrite deref_cons, bind_ret_l; [done|].
  destruct (Z.eqb_spec d 47) as [->|]; cbn [negb]; [|done].
  destruct (Ht [] (body ++ [42])). done.
Qed.

Lemma skip_comment_open body rest :
  no_nul body -> (forall a b, body <> a ++ [42; 47] ++ b) -> skip_comment (body ++ 0 :: rest) = Ret (0 :: rest).
Proof.
  induction 1 as [|c body Hc Hb IH]; intros Ht; cbn [app skip_comment]; [done|].
  rewrite (proj2 (Z.eqb_neq c 0)) by done.
  assert (skip_comment (body ++ 0 :: rest) = Ret (0 :: rest)) as IH'.
  { apply IH. intros a b Hab. apply (Ht (c :: a) b). simpl. by rewrite Hab. }
  destruct (Z.eqb_spec c 42) as [->|]; cbn [negb]; [|done].
  destruct body as [|d body]; cbn [app]; rewrite deref_cons, bind_ret_l; [done|].
  destruct (Z.eqb_spec d 47) as [->|]; cbn [negb]; [|done].
  by destruct (Ht [] body).
Qed.

Lemma IdChar_schar c : is_byte c -> IdChar (schar c) = IdChar c.
Proof.
  intros Hc. byte_check (fun c => Bool.eqb (IdChar (schar c)) (IdChar c)) c. by apply Bool.eqb_prop.
Qed.

Lemma id_length_spec w s rest n :
  bytes_ok w -> Forall (fun c => IdChar c = true) w ->
  match head s with Some c => IdChar c = false | None => True end -> bytes_ok s ->
  id_length (w ++ s ++ 0 :: rest) n = Ret (n + zlen w).
Proof.
  intros Hb Hw Hs Hbs. revert n. induction Hw as [|c w Hc _ IH]; intros n; cbn [app id_length].
  - change (zlen []) with 0. rewrite Z.add_0_r. destruct Hbs as [|c s Hc _]; [done|]. cbn [app id_length].
    rewrite IdChar_schar by done. simpl in Hs. by rewrite Hs.
  - inversion_clear Hb as [|? ? Hb1 Hb2]. rewrite IdChar_schar, Hc, IH, zlen_cons by done. f_equal. lia.
Qed.

Lemma is_keyword_spec w s rest kw :
  bytes_ok w -> no_nul w -> bytes_ok s -> no_nul s -> bytes_ok kw -> no_nul kw ->
  tolower <$> kw = kw -> zlen kw < 2 ^ 31 ->
  is_keyword (w ++ s ++ 0 :: rest) (zlen w) kw = Ret (bool_decide (tolower <$> w = kw)).
Proof.
  intros Hbw Hnw Hbs Hns Hbk Hnk Hkw Hlt. unfold is_keyword.
  destruct (Z.eqb_spec (zlen w) (zlen kw)) as [Hl|Hl].
  - unfold sqlite3StrNICmp. rewrite app_assoc.
    destruct (strnicmp_run (S (length ((w ++ s) ++ 0 :: rest))) (zlen kw) (w ++ s) kw rest [])
      as (d & -> & Hd); [by apply Forall_app|done|by apply Forall_app|done|size|done|apply zlen_nonneg|].
    crun. f_equal. rewrite <- Hl in Hd at 1. rewrite take_app_zlen in Hd.
    rewrite (take_ge kw) in Hd by size. rewrite Hkw in Hd.
    destruct (Z.eqb_spec d 0) as [->|H0]; symmetry.
    + apply bool_decide_eq_true. apply lex_compare_eq. by rewrite <- Hd.
    + apply bool_decide_eq_false. rewrite <- lex_compare_eq, <- Hd. intros H%Z.compare_eq_iff. done.
  - f_equal. symmetry. apply bool_decide_eq_false. intros Heq. apply Hl. rewrite <- Heq. size.
Qed.

Lemma word_token_spec c w s rest :
  bytes_ok (c :: w) -> no_nul (c :: w) -> bytes_ok s -> no_nul s ->
  word_token ((c :: w) ++ s ++ 0 :: rest) (zlen (c :: w)) c = Ret (token_code (word_class (c :: w))).
Proof.
  intros Hb Hn Hbs Hns. unfold word_token.
  rewrite !is_keyword_spec by (done || (repeat constructor; lia)). crun.
  unfold word_class. cbv zeta.
  assert (head (tolower <$> c :: w) = Some (tolower c)) as Hh by done.
  assert (forall kw x, head kw = Some x -> tolower c <> x -> bool_decide (tolower <$> c :: w = kw) = false) as Hne.
  { intros kw x Hx Hc. apply bool_decide_eq_false. intros Heq. rewrite Heq in Hh. congruence. }
  assert (tolower c = 99 <-> (c =? 99) || (c =? 67) = true) as Hc by (unfold tolower, isupper; case_match; lia).
  assert (tolower c = 116 <-> (c =? 116) || (c =? 84) = true) as Ht by (unfold tolower, isupper; case_match; lia).
  assert (tolower c = 101 <-> (c =? 101) || (c =? 69) = true) as He by (unfold tolower, isupper; case_match; lia).
  destruct ((c =? 99) || (c =? 67)).
  { assert (tolower c = 99) as Hx by tauto.
    rewrite (Hne kw_trigger 116), (Hne kw_temp 116), (Hne kw_temporary 116), (Hne kw_end 101), (Hne kw_explain 101)
      by (done || lia). by case_bool_decide. }
  rewrite (Hne kw_create 99) by (done || (intros Hx; apply Hc in Hx; done)).
  destruct ((c =? 116) || (c =? 84)).
  { assert (tolower c = 116) as Hx by tauto.
    rewrite (Hne kw_end 101), (Hne kw_explain 101) by (done || lia).
    repeat (case_bool_decide; [done|]). done. }
  rewrite (Hne kw_trigger 116), (Hne kw_temp 116), (Hne kw_temporary 116)
    by (done || (intros Hx; apply Ht in Hx; done)).
  destruct ((c =? 101) || (c =? 69)); [by repeat (case_bool_decide; [done|])|].
  by rewrite (Hne kw_end 101), (Hne kw_explain 101) by (done || (intros Hx; apply He in Hx; done)).
Qed.

(** One round of the loop for each kind of token. *)
Lemma loop_token fuel z s token z' t' :
  complete_round z = Ret (Token token z') -> deref z = Ret s -> s <> 0 ->
  complete_loop (S fuel) z t' = (state ← next_state t' token; complete_loop fuel (advance 1 z') state).
Proof. intros Hr Hd Hs. cbn [complete_loop]. rewrite Hd. crun. rewrite (proj2 (Z.eqb_neq s 0)) by done. by rewrite Hr. Qed.

Definition answer (e : ending) (s : Z) : bool := match e with InToken => false | _ => s =? 0 end.

Lemma white_round c z : is_white c = true -> complete_round (c :: z) = Ret (Token tkWS (c :: z)).
Proof.
  intros Hw. unfold complete_round. rewrite deref_cons. crun. fold (is_white c). rewrite Hw.
  destruct (Z.eqb_spec c 59) as [->|]; [discriminate Hw|done].
Qed.

Lemma quote_round q z : is_quote q = true ->
  complete_round (q :: z) = (z ← skip_to q z; e ← deref z; Ret (if e =? 0 then ReturnFalse else Token tkOTHER z)).
Proof.
  intros Hq. unfold complete_round. rewrite deref_cons. crun. fold (is_quote q). rewrite Hq.
  unfold is_quote in Hq. assert (q = 96 \/ q = 34 \/ q = 39) as Hc by lia.
  destruct Hc as [->|[->| ->]]; cbn [Z.eqb Pos.eqb orb advance skipn]; rewrite ?drop_0;
    (destruct (skip_to _ z) as [z'| | |]; [|done..]; rewrite !bind_ret_l;
     destruct (deref z') as [d| | |]; [|done..]; rewrite !bind_ret_l; by destruct (d =? 0)).
Qed.

Lemma IdChar_plain c : IdChar c = true -> is_byte c ->
  c <> 0 /\ (c =? 59) || is_white c || (c =? 47) || (c =? 45) || (c =? 91) || is_quote c = false.
Proof.
  intros Hi Hc.
  byte_check (fun c => negb (IdChar c) || (negb (c =? 0) && negb ((c =? 59) || is_white c || (c =? 47) || (c =? 45) || (c =? 91) || is_quote c))) c.
  rewrite Hi in H. cbn [negb orb] in H. apply andb_true_iff in H as [H1 H2]. split; [lia|]. by apply negb_true_iff.
Qed.

Lemma plain_round c z :
  (c =? 59) || is_white c || (c =? 47) || (c =? 45) || (c =? 91) || is_quote c = false ->
  complete_round (c :: z)
  = if IdChar c then
      nId ← id_length z 1; token ← word_token (c :: z) nId c;
      Ret (Token token (advance (Z.to_nat (nId - 1)) (c :: z)))
    else Ret (Token tkOTHER (c :: z)).
Proof.
  intros H. rewrite !orb_false_iff in H. destruct H as [[[[[H1 H2] H3] H4] H5] H6].
  unfold complete_round. rewrite deref_cons. crun. fold (is_white c). fold (is_quote c).
  rewrite H1, H2, H3, H4, H5, H6. cbn [advance skipn]. by rewrite drop_0.
Qed.

(** A token, and the rest of the text. *)
Lemma loop_step fuel c z k z' st e ts rest s :
  complete_round (c :: z) = Ret (Token (token_code k) z') -> c <> 0 -> 0 <= st <= 6 ->
  advance 1 z' = s ++ 0 :: rest ->
  (forall st, 0 <= st <= 6 -> complete_loop fuel (s ++ 0 :: rest) st = Ret (answer e (run st ts))) ->
  complete_loop (S fuel) (c :: z) st = Ret (answer e (run st (k :: ts))).
Proof.
  intros Hr Hc Hst Hz IH. erewrite loop_token; [|done|apply deref_cons|done].
  destruct (delta_spec st k Hst) as [-> Hd]. crun. rewrite Hz. by apply IH.
Qed.

Lemma loop_stop fuel c z st r b :
  complete_round (c :: z) = Ret r -> c <> 0 ->
  match r with ReturnFalse => b = false | ReturnStart => b = (st =? 0) | Token _ _ => False end ->
  complete_loop (S fuel) (c :: z) st = Ret b.
Proof.
  intros Hr Hc Hb. cbn [complete_loop]. rewrite deref_cons. crun.
  rewrite (proj2 (Z.eqb_neq c 0)), Hr by done. crun. by destruct r; subst.
Qed.

Lemma lexed_run s ts e rest : lexed s ts e -> bytes_ok s -> no_nul s -> forall fuel st,
  (length s < fuel)%nat -> 0 <= st <= 6 ->
  complete_loop fuel (s ++ 0 :: rest) st = Ret (answer e (run st ts)).
Proof.
  induction 1 as [|s ts e _ IH|c s ts e Hw _ IH|s ts e Hh _ IH|body s ts e Ht _ IH|body Ht
    |s ts e Hh _ IH|body s ts e Ht _ IH|body Ht|body s ts e Ht _ IH|body Ht|q body s ts e Hq Ht _ IH
    |q body Hq Ht|w s ts e Hne Hw Hh _ IH|c s ts e Hsp _ IH]; intros Hb Hn fuel st Hf Hst;
    (destruct fuel as [|fuel]; [lia|]).
  - done.
  - inversion_clear Hb. inversion_clear Hn. cbn [app].
    eapply loop_step; [reflexivity|done|done|reflexivity|].
    intros. apply IH; try done. simpl in Hf. lia.
  - inversion_clear Hb. inversion_clear Hn. cbn [app].
    eapply (loop_step _ _ _ WS); [by apply white_round|done|done|reflexivity|].
    intros. apply IH; try done. simpl in Hf. lia.
  - inversion_clear Hb. inversion_clear Hn. cbn [app].
    eapply (loop_step _ _ _ OTHER (47 :: s ++ 0 :: rest)); [|done|done|reflexivity|].
    + unfold complete_round. rewrite deref_cons. crun. cbn [Z.eqb Pos.eqb orb advance skipn]. rewrite ?drop_0, deref_str.
      crun. destruct s as [|d s]; [done|]. simpl in Hh |- *. by rewrite (proj2 (Z.eqb_neq d 42)) by congruence.
    + intros. apply IH; try done. simpl in Hf. lia.
  - rewrite <- !app_assoc. cbn [app]. apply Forall_app in Hb as [_ Hb], Hn as [_ Hn].
    apply Forall_app in Hb as [Hb1 Hb2], Hn as [Hn1 Hn2].
    apply Forall_app in Hb2 as [_ Hb2], Hn2 as [_ Hn2].
    eapply (loop_step _ _ _ WS (47 :: s ++ 0 :: rest)); [|done|done|reflexivity|].
    + unfold complete_round. rewrite deref_cons. crun. cbn [Z.eqb Pos.eqb orb advance skipn]. rewrite ?drop_0, deref_cons.
      crun. cbn [Z.eqb Pos.eqb negb]. rewrite skip_comment_found, bind_ret_l, deref_cons by done. done.
    + intros. apply IH; try done. rewrite !length_app in Hf. simpl in Hf. lia.
  - rewrite <- !app_assoc. cbn [app]. apply Forall_app in Hn as [_ Hn].
    eapply loop_stop; [|done|].
    + unfold complete_round. rewrite deref_cons. crun. cbn [Z.eqb Pos.eqb orb advance skipn]. rewrite ?drop_0, deref_cons.
      crun. cbn [Z.eqb Pos.eqb negb]. rewrite skip_comment_open, bind_ret_l, deref_cons by done. reflexivity.
    + done.
  - inversion_clear Hb. inversion_clear Hn. cbn [app].
    eapply (loop_step _ _ _ OTHER (45 :: s ++ 0 :: rest)); [|done|done|reflexivity|].
    + unfold complete_round. rewrite deref_cons. crun. cbn [Z.eqb Pos.eqb orb advance skipn]. rewrite ?drop_0, deref_str.
      crun. destruct s as [|d s]; [done|]. simpl in Hh |- *. by rewrite (proj2 (Z.eqb_neq d 45)) by congruence.
    + intros. apply IH; try done. simpl in Hf. lia.
  - rewrite <- !app_assoc. cbn [app]. apply Forall_app in Hb as [_ Hb], Hn as [_ Hn].
    apply Forall_app in Hb as [Hb1 Hb2], Hn as [Hn1 Hn2]. inversion_clear Hb2. inversion_clear Hn2.
    eapply (loop_step _ _ _ WS (10 :: s ++ 0 :: rest)); [|done|done|reflexivity|].
    + unfold complete_round. rewrite deref_cons. crun. cbn [Z.eqb Pos.eqb orb advance skipn]. rewrite ?drop_0, deref_cons.
      crun. cbn [Z.eqb Pos.eqb negb]. 
      pose proof (skip_to_found 10 (45 :: 45 :: body) (s ++ 0 :: rest)) as Hk. cbn [app] in Hk.
      rewrite Hk, bind_ret_l, deref_cons; [done|by repeat constructor|set_solver|done].
    + intros. apply IH; try done. rewrite !length_app in Hf. simpl in Hf. lia.
  - rewrite <- !app_assoc. cbn [app]. apply Forall_app in Hn as [_ Hn].
    eapply loop_stop; [|done|].
    + unfold complete_round. rewrite deref_cons. crun. cbn [Z.eqb Pos.eqb orb advance skipn]. rewrite ?drop_0, deref_cons.
      crun. cbn [Z.eqb Pos.eqb negb]. 
      pose proof (skip_to_open 10 (45 :: 45 :: body) rest) as Hk. cbn [app] in Hk.
      rewrite Hk, bind_ret_l, deref_cons; [reflexivity|by repeat constructor|set_solver].
    + done.
  - inversion_clear Hb as [|? ? Hb0 Hb']. inversion_clear Hn as [|? ? Hn0 Hn'].
    apply Forall_app in Hb' as [Hb1 Hb2], Hn' as [Hn1 Hn2]. inversion_clear Hb2. inversion_clear Hn2.
    cbn [app]. rewrite <- app_assoc. cbn [app].
    eapply (loop_step _ _ _ OTHER (93 :: s ++ 0 :: rest)); [|done|done|reflexivity|].
    + unfold complete_round. rewrite deref_cons. crun. cbn [Z.eqb Pos.eqb orb advance skipn]. rewrite ?drop_0.
      rewrite skip_to_found, bind_ret_l, deref_cons by done. done.
    + intros. apply IH; try done. simpl in Hf. rewrite length_app in Hf. simpl in Hf. lia.
  - inversion_clear Hn as [|? ? Hn0 Hn']. cbn [app]. eapply loop_stop; [|done|].
    + unfold complete_round. rewrite deref_cons. crun. cbn [Z.eqb Pos.eqb orb advance skipn]. rewrite ?drop_0.
      rewrite skip_to_open, bind_ret_l, deref_cons by done. reflexivity.
    + done.
  - inversion_clear Hb as [|? ? Hb0 Hb']. inversion_clear Hn as [|? ? Hn0 Hn'].
    apply Forall_app in Hb' as [Hb1 Hb2], Hn' as [Hn1 Hn2]. inversion_clear Hb2. inversion_clear Hn2.
    cbn [app]. rewrite <- app_assoc. cbn [app].
    eapply (loop_step _ _ _ OTHER (q :: s ++ 0 :: rest)); [|done|done|reflexivity|].
    + rewrite quote_round, skip_to_found, bind_ret_l, deref_cons, bind_ret_l by done.
      by rewrite (proj2 (Z.eqb_neq q 0)).
    + intros. apply IH; try done. simpl in Hf. rewrite length_app in Hf. simpl in Hf. lia.
  - inversion_clear Hn as [|? ? Hn0 Hn']. cbn [app]. eapply loop_stop; [|done|].
    + rewrite quote_round, skip_to_open, bind_ret_l, deref_cons by done. reflexivity.
    + done.
  - apply Forall_app in Hb as [Hb1 Hb2], Hn as [Hn1 Hn2]. destruct w as [|c w]; [done|].
    rewrite <- app_assoc. inversion_clear Hw as [|? ? Hc Hw']. inversion_clear Hb1 as [|? ? Hbc Hbw].
    destruct (IdChar_plain c Hc Hbc) as [Hc0 Hpl].
    eapply (loop_step _ c (w ++ s ++ 0 :: rest) (word_class (c :: w)) (drop (length w) (c :: w) ++ s ++ 0 :: rest));
      [|done|done| |].
    + rewrite plain_round, Hc, id_length_spec, bind_ret_l by done.
      replace (1 + zlen w) with (zlen (c :: w)) by (rewrite zlen_cons; lia).
      pose proof (word_token_spec c w s rest) as Hwt. cbn [app] in Hwt. rewrite Hwt, bind_ret_l by (done || by constructor).
      do 2 f_equal. unfold advance. rewrite zlen_cons.
      replace (Z.to_nat (zlen w + 1 - 1)) with (length w) by size.
      by rewrite <- (drop_app_le (c :: w) (s ++ 0 :: rest)) by (simpl; lia).
    + unfold advance. assert (length (drop (length w) (c :: w)) = 1%nat) as Hl by (rewrite length_drop; simpl; lia).
      destruct (drop (length w) (c :: w)) as [|d [|]]; try discriminate Hl. cbn [app skipn]. by rewrite drop_0.
    + intros. apply IH; try done. rewrite length_app in Hf. simpl in Hf. lia.
  - inversion_clear Hb. inversion_clear Hn. cbn [app]. unfold is_special in Hsp.
    apply orb_false_iff in Hsp as [Hpl Hid].
    eapply (loop_step _ _ _ OTHER (c :: s ++ 0 :: rest)); [|done|done|reflexivity|].
    + by rewrite plain_round, Hid by done.
    + intros. apply IH; try done. simpl in Hf. lia.
Qed.

(** Every text has such a reading. *)
Lemma comment_split (l : list Z) :
  (exists body t, l = body ++ [42; 47] ++ t /\ comment_text body) \/ forall a b, l <> a ++ [42; 47] ++ b.
Proof.
  induction l as [|c l [(body & t & -> & Hb)|Hno]].
  - right. intros a b H. by destruct a.
  - destruct (decide (c = 42 /\ head (body ++ [42]) = Some 47)) as [[-> Hx]|Hn].
    + left. assert (body ++ [42] = 47 :: tail (body ++ [42])) as Hx' by (destruct body; simpl in *; congruence).
      clear Hx. rename Hx' into Hx. exists [], (tail (body ++ [42; 47] ++ t)). split.
      * replace (body ++ [42; 47] ++ t) with ((body ++ [42]) ++ 47 :: t) by (by rewrite <- app_assoc). rewrite Hx. done.
      * intros a b H. apply (f_equal length) in H. rewrite !length_app in H. simpl in H. lia.
    + left. exists (c :: body), t. split; [done|]. intros a b H. destruct a as [|x a].
      * simpl in H. injection H as -> H. apply Hn. by rewrite H.
      * simpl in H. injection H as -> H. by apply (Hb a b).
  - destruct (decide (c = 42 /\ head l = Some 47)) as [[-> Hh]|Hn].
    + left. destruct l as [|d l]; [done|]. injection Hh as ->. exists [], l. split; [done|].
      intros a b H. apply (f_equal length) in H. rewrite !length_app in H. simpl in H. lia.
    + right. intros [|x a] b H.
      * injection H as -> ->. by apply Hn.
      * injection H as -> H. by apply (Hno a b).
Qed.

Lemma lexed_exists s : no_nul s -> bytes_ok s -> exists ts e, lexed s ts e.
Proof.
  remember (length s) as n eqn:Hn. revert s Hn. induction (lt_wf n) as [n _ IH]; intros s -> Hs Hb.
  assert (forall a t, s = a ++ t -> a <> [] -> exists ts e, lexed t ts e) as Hrest.
  { intros a t -> Ha. apply (IH (length t)); [rewrite length_app; destruct a; [done|simpl; lia]|done| |].
    - by apply Forall_app in Hs as [_ ?].
    - by apply Forall_app in Hb as [_ ?]. }
  clear IH. destruct s as [|c s]; [exists [], AtEnd; constructor|].
  destruct (Hrest [c] s) as (ts & e & Hlex); [done|done|].
  destruct (decide (c = 59)) as [->|H59]; [eexists _, _; by constructor|].
  destruct (is_white c) eqn:Ew; [eexists _, _; by apply lexed_white|].
  destruct (decide (c = 47)) as [->|H47].
  { destruct s as [|d s]; [eexists _, _; by apply lexed_slash|].
    destruct (decide (d = 42)) as [->|Hd]; [|eexists _, _; apply lexed_slash; [simpl; congruence|done]].
    destruct (comment_split s) as [(body & t & -> & Hc)|Hno].
    - destruct (Hrest ([47; 42] ++ body ++ [42; 47]) t) as (ts' & e' & Hlex'); [by rewrite <- !app_assoc|done|].
      eexists _, _. by apply (lexed_comment body t).
    - eexists _, _. by apply (lexed_comment_open s). }
  destruct (decide (c = 45)) as [->|H45].
  { destruct s as [|d s]; [eexists _, _; by apply lexed_minus|].
    destruct (decide (d = 45)) as [->|Hd]; [|eexists _, _; apply lexed_minus; [simpl; congruence|done]].
    destruct (decide (10 ∈ s)) as [Hin|Hni].
    - apply list_elem_of_split_l in Hin as (body & t & -> & Hni).
      destruct (Hrest ([45; 45] ++ body ++ [10]) t) as (ts' & e' & Hlex'); [by rewrite <- !app_assoc|done|].
      eexists _, _. by apply (lexed_line body t).
    - eexists _, _. by apply (lexed_line_open s). }
  destruct (decide (c = 91)) as [->|H91].
  { destruct (decide (93 ∈ s)) as [Hin|Hni].
    - apply list_elem_of_split_l in Hin as (body & t & -> & Hni).
      destruct (Hrest (91 :: body ++ [93]) t) as (ts' & e' & Hlex'); [by rewrite <- app_comm_cons, <- !app_assoc|done|].
      eexists _, _. by apply (lexed_bracket body t).
    - eexists _, _. by apply (lexed_bracket_open s). }
  destruct (is_quote c) eqn:Eq.
  { destruct (decide (c ∈ s)) as [Hin|Hni].
    - apply list_elem_of_split_l in Hin as (body & t & -> & Hni).
      destruct (Hrest (c :: body ++ [c]) t) as (ts' & e' & Hlex'); [by rewrite <- app_comm_cons, <- !app_assoc|done|].
      eexists _, _. by apply (lexed_quote c body t).
    - eexists _, _. by apply (lexed_quote_open c s). }
  destruct (IdChar c) eqn:Ei.
  - set (w := take_while IdChar (c :: s)). set (t := drop_while IdChar (c :: s)).
    assert (w <> []) as Hw by (unfold w; simpl; by rewrite Ei).
    destruct (Hrest w t) as (ts' & e' & Hlex'); [symmetry; apply take_drop_while|done|].
    rewrite <- (take_drop_while IdChar (c :: s)). eexists _, _. apply lexed_word; [done| | |exact Hlex'].
    + apply take_while_all.
    + apply (drop_while_head IdChar (c :: s)).
  - eexists _, _. apply lexed_other; [|done]. unfold is_special.
    rewrite Ew, Eq, Ei, (proj2 (Z.eqb_neq c 59)), (proj2 (Z.eqb_neq c 47)), (proj2 (Z.eqb_neq c 45)),
      (proj2 (Z.eqb_neq c 91)) by done. done.
Qed.

(** C18: For every NUL-terminated text [sqlite3_complete] returns without
    reading behind the terminator; the text has a reading as a sequence of
    tokens, and for every such reading the answer is yes exactly when the text
    does not end inside of a token and the tokens other than white space are a
    sequence of complete statements: an ordinary statement ends with its first
    semicolon, a trigger definition ([[EXPLAIN] CREATE TEMP* TRIGGER]) with the
    first [;END;] behind its head. So the answer differs from what sqlite3.h
    and the comment in complete.c say of two kinds of text
    ([complete_doc_cases]): it is yes for a text without any token, and no for
    a text that ends with a semicolon behind the head of a trigger definition
    that has no BEGIN and END. *)
Theorem complete_statements (s rest : list Z) (Hs : no_nul s) (Hb : bytes_ok s) :
  (exists ts e, lexed s ts e)
  /\ (exists b, sqlite3_complete (s ++ 0 :: rest) = Ret b
       /\ forall ts e, lexed s ts e ->
            (b = true <-> e <> InToken /\ statements (List.filter not_ws ts))).
Proof.
  destruct (lexed_exists s Hs Hb) as (ts0 & e0 & Hlex0). split; [by exists ts0, e0|].
  unfold sqlite3_complete. rewrite (lexed_run s ts0 e0 rest) by (done || size).
  eexists. split; [reflexivity|]. intros ts e Hlex.
  assert (answer e0 (run 0 ts0) = answer e (run 0 ts)) as ->.
  { pose proof (lexed_run s ts0 e0 [] Hlex0 Hb Hs (S (length s)) 0) as H1.
    pose proof (lexed_run s ts e [] Hlex Hb Hs (S (length s)) 0) as H2.
    specialize (H1 ltac:(lia) ltac:(lia)). specialize (H2 ltac:(lia) ltac:(lia)). congruence. }
  rewrite <- machine_statements, (proj1 (machine_run 0 ts ltac:(lia))).
  destruct e; simpl; rewrite ?Z.eqb_eq; split; intros H; naive_solver congruence.
Qed.

(** The empty text, and [CREATE TRIGGER a;]. *)
Lemma complete_doc_cases :
  sqlite3_complete [0] = Ret true /\
  sqlite3_complete [67; 82; 69; 65; 84; 69; 32; 84; 82; 73; 71; 71; 69; 82; 32; 97; 59; 0] = Ret false.
Proof. split; vm_compute; reflexivity. Qed.

(** The text [create trigger a;end;], with a comment. *)
Lemma complete_statements_witness :
  let s := [99; 114; 101; 97; 116; 101; 47; 42; 47; 42; 47; 116; 114; 105; 103; 103; 101; 114; 32; 97; 59; 101; 110; 100; 59] in
  (exists ts e, lexed s ts e)
  /\ (exists b, sqlite3_complete (s ++ [0]) = Ret b
       /\ forall ts e, lexed s ts e ->
            (b = true <-> e <> InToken /\ statements (List.filter not_ws ts))).
Proof. apply complete_statements; repeat constructor; lia. Defined.
