(* ===== verification/Heap.v ===== *)
(** * A heap of blocks

    Objects that the C code reaches through several pointers (list nodes, lock
    records) live in a heap: blocks by address, each live, with its content, or
    freed. Reading, writing or freeing a block that is not live is undefined.
    Addresses are not used twice, so that a dangling pointer is never valid. *)

From S2P Require Import Prelude.

Notation heap A := (list (option A)).

(** An allocator that answers every request goes on doing so. *)
Lemma next_alloc_all o b o' :
  next_alloc o = (b, o') -> Forall (eq true) o -> b = true /\ Forall (eq true) o'.
Proof. unfold next_alloc. destruct o; intros [= <- <-]; [done|]. by inversion_clear 1. Qed.

Section heap.
Context {A : Type}.

Definition hload (m : heap A) (l : nat) : res A :=
  match m !! l with Some (Some a) => Ret a | _ => UB end.

Definition hstore (m : heap A) (l : nat) (a : A) : res (heap A) :=
  _ ← hload m l; Ret (<[l := Some a]> m).

Definition hmodify (f : A -> A) (m : heap A) (l : nat) : res (heap A) :=
  a ← hload m l; Ret (<[l := Some (f a)]> m).

Definition hfree (m : heap A) (l : nat) : res (heap A) :=
  _ ← hload m l; Ret (<[l := None]> m).

(** [o]: the answers of the allocator. *)
Definition halloc (m : heap A) (o : list bool) (a : A) : option nat * (heap A) * list bool :=
  let '(ok, o) := next_alloc o in
  if ok then (Some (length m), m ++ [Some a], o) else (None, m, o).

Lemma hload_Some (m : heap A) l a : m !! l = Some (Some a) -> hload m l = Ret a.
Proof. unfold hload. by intros ->. Qed.

Lemma hmodify_Some f (m : heap A) l a :
  m !! l = Some (Some a) -> hmodify f m l = Ret (<[l := Some (f a)]> m).
Proof. intros H. unfold hmodify. by rewrite (hload_Some _ _ _ H). Qed.

Lemma hfree_Some (m : heap A) l a : m !! l = Some (Some a) -> hfree m l = Ret (<[l := None]> m).
Proof. intros H. unfold hfree. by rewrite (hload_Some _ _ _ H). Qed.

Lemma halloc_cases (m : heap A) o a :
  exists b o', next_alloc o = (b, o')
    /\ (Forall (eq true) o -> b = true /\ Forall (eq true) o')
    /\ halloc m o a = if b then (Some (length m), m ++ [Some a], o') else (None, m, o').
Proof.
  unfold halloc. destruct (next_alloc o) as [b o'] eqn:Eo. exists b, o'.
  split; [done|]. split; [by eapply next_alloc_all|by destruct b].
Qed.

Lemma live_lt (m : heap A) l a : m !! l = Some (Some a) -> (l < length m)%nat.
Proof. apply lookup_lt_Some. Qed.

End heap.

(** ** Doubly linked lists

    A list of nodes with their contents, from the pointer before the first
    node to the pointer behind the last one. *)
Section dlist.
Context {A D : Type} (get_next get_prev : A -> option nat) (content : A -> D -> Prop).


Definition head_or (ns : list (nat * D)) (n : option nat) : option nat :=
  match ns with [] => n | (l, _) :: _ => Some l end.
Definition last_or (p : option nat) (ns : list (nat * D)) : option nat :=
  match last ns with None => p | Some (l, _) => Some l end.

Fixpoint dlist (m : heap A) (p : option nat) (ns : list (nat * D)) (n : option nat) : Prop :=
  match ns with
  | [] => True
  | (l, d) :: ns =>
      (exists a, m !! l = Some (Some a) /\ get_next a = head_or ns n /\ get_prev a = p /\ content a d)
      /\ dlist m (Some l) ns n
  end.

Lemma head_or_app a b n : head_or (a ++ b) n = head_or a (head_or b n).
Proof. by destruct a as [|[]]. Qed.

Lemma last_or_cons p x a : last_or p (x :: a) = last_or (Some x.1) a.
Proof. unfold last_or. rewrite last_cons. destruct (last a) as [[]|]; [done|]. by destruct x. Qed.

Lemma last_or_app p a b : last_or p (a ++ b) = last_or (last_or p a) b.
Proof. unfold last_or. rewrite last_app. by destruct (last b) as [[]|]. Qed.

Lemma dlist_app m p a b n :
  dlist m p (a ++ b) n <-> dlist m p a (head_or b n) /\ dlist m (last_or p a) b n.
Proof.
  revert p. induction a as [|[l d] a IH]; intros p; [simpl; tauto|].
  cbn [app dlist]. rewrite IH, head_or_app, last_or_cons. simpl. tauto.
Qed.

Lemma dlist_frame m m' p ns n :
  (forall l, l ∈ ns.*1 -> m' !! l = m !! l) -> dlist m p ns n -> dlist m' p ns n.
Proof.
  revert p. induction ns as [|[l d] ns IH]; intros p Hm; [done|]. cbn [dlist].
  intros [(a & Ha & Hrest) Hd]. split.
  - exists a. split; [|done]. rewrite Hm by (simpl; left). done.
  - apply IH; [|done]. intros l' Hl'. apply Hm. simpl. by right.
Qed.

Lemma dlist_insert_other m p ns n l v : l ∉ ns.*1 -> dlist m p ns n -> dlist (<[l := v]> m) p ns n.
Proof.
  intros Hl. apply dlist_frame. intros l' Hl'. apply list_lookup_insert_ne. by intros ->.
Qed.

Lemma dlist_live m p ns n l : dlist m p ns n -> l ∈ ns.*1 -> exists a, m !! l = Some (Some a).
Proof.
  revert p. induction ns as [|[l' d] ns IH]; intros p; simpl; [by rewrite elem_of_nil|].
  intros [(a & Ha & _) Hd] [->|Hl]%elem_of_cons; [by exists a|]. by apply (IH (Some l')).
Qed.

Lemma dlist_grow m p ns n x : dlist m p ns n -> dlist (m ++ [x]) p ns n.
Proof.
  intros H. eapply dlist_frame; [|exact H]. intros l Hl.
  destruct (dlist_live _ _ _ _ _ H Hl) as (a & Ha). rewrite lookup_app_l; [done|]. by eapply live_lt.
Qed.

(** Changing the pointer behind the last node and the one before the first. *)
Lemma dlist_set_next m p ns l d n n' a :
  l ∉ ns.*1 -> dlist m p (ns ++ [(l, d)]) n ->
  m !! l = Some (Some a) ->
  forall a', get_next a' = n' -> get_prev a' = get_prev a -> (forall d, content a d -> content a' d) ->
  dlist (<[l := Some a']> m) p (ns ++ [(l, d)]) n'.
Proof.
  intros Hl Hd Ha a' Hn Hp Hc. apply dlist_app in Hd as [H1 H2]. apply dlist_app. split.
  - by apply dlist_insert_other.
  - simpl in *. destruct H2 as [(b & Hb & Hbn & Hbp & Hbc) _]. split; [|done].
    rewrite Ha in Hb. injection Hb as ->. exists a'. split; [apply list_lookup_insert_eq; by eapply live_lt|].
    split; [done|]. split; [congruence|auto].
Qed.

Lemma dlist_set_prev m p ns l d n p' a :
  l ∉ ns.*1 -> dlist m p ((l, d) :: ns) n ->
  m !! l = Some (Some a) ->
  forall a', get_next a' = get_next a -> get_prev a' = p' -> (forall d, content a d -> content a' d) ->
  dlist (<[l := Some a']> m) p' ((l, d) :: ns) n.
Proof.
  intros Hl [(b & Hb & Hbn & Hbp & Hbc) Hd] Ha a' Hn Hp Hc. split; [|by apply dlist_insert_other].
  rewrite Ha in Hb. injection Hb as ->. exists a'. split; [apply list_lookup_insert_eq; by eapply live_lt|].
  split; [congruence|]. split; [done|auto].
Qed.

End dlist.
