(* ===== verification/Hash.v ===== *)
(** * Hash tables

    Model of misc/sqlite/hash.c: a table of buckets over one doubly linked list
    of all elements, in which the elements of a bucket are neighbours. The list
    nodes live in a heap; the bucket array belongs to the table alone.

    A key is the memory that [pKey] points to, [None] for a null pointer. The
    copy of a key that a table with [copyKey] makes lives exactly as long as
    its element and is kept in it. [int] shifts of the hash functions wrap, as
    the code relies on. *)

From S2P Require Import Prelude NumText Heap.

Record HashElem := mkElem {
  next : option nat;
  prev : option nat;
  edata : Z;                 (** 0: the null pointer *)
  pKey : option (list Z);
  nKey : Z;
}.

(** [struct _ht] *)
Record ht_entry := mkEntry {
  hcount : Z;
  chain : option nat;
}.

Record Hash := mkHash {
  keyClass : Z;
  copyKey : bool;
  count : Z;
  htsize : Z;
  first : option nat;
  ht : option (list ht_entry);
}.

Definition SQLITE_HASH_STRING : Z := 3.
Definition SQLITE_HASH_BINARY : Z := 4.

Definition set_next (n : option nat) (e : HashElem) : HashElem :=
  mkElem n (prev e) (edata e) (pKey e) (nKey e).
Definition set_prev (p : option nat) (e : HashElem) : HashElem :=
  mkElem (next e) p (edata e) (pKey e) (nKey e).
Definition set_data (d : Z) (e : HashElem) : HashElem :=
  mkElem (next e) (prev e) d (pKey e) (nKey e).
Definition set_key (k : option (list Z)) (e : HashElem) : HashElem :=
  mkElem (next e) (prev e) (edata e) k (nKey e).
Definition set_nKey (n : Z) (e : HashElem) : HashElem :=
  mkElem (next e) (prev e) (edata e) (pKey e) n.

Definition with_first (f : option nat) (H : Hash) : Hash :=
  mkHash (keyClass H) (copyKey H) (count H) (htsize H) f (ht H).
Definition with_count (c : Z) (H : Hash) : Hash :=
  mkHash (keyClass H) (copyKey H) c (htsize H) (first H) (ht H).
Definition with_ht (n : Z) (t : option (list ht_entry)) (H : Hash) : Hash :=
  mkHash (keyClass H) (copyKey H) (count H) n (first H) t.

Definition sqlite3HashInit (cls : Z) (copy : bool) : res Hash :=
  c_assert ((SQLITE_HASH_STRING <=? cls) && (cls <=? SQLITE_HASH_BINARY));;
  Ret (mkHash cls copy 0 0 None None).

(** [while( elem ){ next_elem = elem->next; ...; sqlite3_free(elem); }] *)
Fixpoint clear_loop (fuel : nat) (m : heap HashElem) (elem : option nat) : res (heap HashElem) :=
  match fuel, elem with
  | _, None => Ret m
  | O, _ => NoFuel
  | S fuel, Some l =>
      e ← hload m l;
      m ← hfree m l;
      clear_loop fuel m (next e)
  end.

Definition sqlite3HashClear (H : Hash) (m : heap HashElem) : res (Hash * heap HashElem) :=
  m ← clear_loop (length m) m (first H);
  Ret (mkHash (keyClass H) (copyKey H) 0 0 None None, m).

(** ** Hash and comparison functions *)

(** [h = (h<<3) ^ h ^ c] *)
Definition hash_step (h c : Z) : Z := Z.lxor (Z.lxor (s32 (Z.shiftl h 3)) h) c.

(** [n] rounds over the bytes of a key, each seen through [f]. *)
Fixpoint hash_bytes (f : Z -> Z) (n : nat) (z : list Z) (h : Z) : res Z :=
  match n with
  | O => Ret h
  | S n => c ← deref z; hash_bytes f n (advance 1 z) (hash_step h (f c))
  end.

(** The memory behind a key; a null pointer has none. *)
Definition kmem (k : option (list Z)) : list Z := default [] k.

Definition strHash (key : option (list Z)) (n : Z) : res Z :=
  let z := kmem key in
  n ← (if n <=? 0 then strlen z else Ret n);
  h ← hash_bytes UpperToLower (Z.to_nat n) z 0;
  Ret (Z.land h 0x7fffffff).

Definition strCompare (k1 : option (list Z)) (n1 : Z) (k2 : option (list Z)) (n2 : Z) : res Z :=
  if negb (n1 =? n2) then Ret 1 else sqlite3StrNICmp (kmem k1) (kmem k2) n1.

Definition binHash (key : option (list Z)) (n : Z) : res Z :=
  h ← hash_bytes schar (Z.to_nat n) (kmem key) 0;
  Ret (Z.land h 0x7fffffff).

Definition binCompare (k1 : option (list Z)) (n1 : Z) (k2 : option (list Z)) (n2 : Z) : res Z :=
  if negb (n1 =? n2) then Ret 1 else memcmp (Z.to_nat n1) (kmem k1) (kmem k2).

Definition hashFunction (cls : Z) : res (option (list Z) -> Z -> res Z) :=
  if cls =? SQLITE_HASH_STRING then Ret strHash
  else c_assert (cls =? SQLITE_HASH_BINARY);; Ret binHash.

Definition compareFunction (cls : Z) : res (option (list Z) -> Z -> option (list Z) -> Z -> res Z) :=
  if cls =? SQLITE_HASH_STRING then Ret strCompare
  else c_assert (cls =? SQLITE_HASH_BINARY);; Ret binCompare.

(** ** The list and its buckets *)

(** The links of a new element in front of the first one of its bucket; the
    result is [pH->first]. *)
Definition link_before (H : Hash) (pHead pNew : nat) (m : heap HashElem) : res (option nat * heap HashElem) :=
  hd ← hload m pHead;
  m ← hmodify (set_next (Some pHead)) m pNew;
  m ← hmodify (set_prev (prev hd)) m pNew;
  '(f, m) ← match prev hd with
    | Some p => m ← hmodify (set_next (Some pNew)) m p; Ret (first H, m)
    | None => Ret (Some pNew, m)
    end;
  m ← hmodify (set_prev (Some pNew)) m pHead;
  Ret (f, m).

(** The links of the first element of a bucket. *)
Definition link_front (H : Hash) (pNew : nat) (m : heap HashElem) : res (option nat * heap HashElem) :=
  m ← hmodify (set_next (first H)) m pNew;
  m ← match first H with
    | Some f => hmodify (set_prev (Some pNew)) m f
    | None => Ret m
    end;
  m ← hmodify (set_prev None) m pNew;
  Ret (Some pNew, m).

(** [pEntry] is the bucket [b] of the table. *)
Definition insertElement (H : Hash) (b : Z) (pNew : nat) (m : heap HashElem) : res (Hash * heap HashElem) :=
  t ← of_opt (ht H);
  pEntry ← of_opt (rd t b);
  '(f, m) ← match chain pEntry with
    | Some pHead => link_before H pHead pNew m
    | None => link_front H pNew m
    end;
  n ← sint (hcount pEntry + 1);
  t ← of_opt (wr t b (mkEntry n (Some pNew)));
  Ret (with_first f (with_ht (htsize H) (Some t) H), m).

Section table.
Context (tg : target).

Definition sizeof_ht : Z := match tg with ILP32 => 8 | LP64 => 16 end.

(** [for(elem=pH->first, pH->first=0; elem; elem = next_elem)] *)
Fixpoint rehash_loop (fuel : nat) (xHash : option (list Z) -> Z -> res Z) (new_size : Z)
    (H : Hash) (m : heap HashElem) (elem : option nat) : res (Hash * heap HashElem) :=
  match fuel, elem with
  | _, None => Ret (H, m)
  | O, _ => NoFuel
  | S fuel, Some l =>
      e ← hload m l;
      h ← xHash (pKey e) (nKey e);
      let next_elem := next e in
      '(H, m) ← insertElement H (Z.land h (new_size - 1)) l m;
      rehash_loop fuel xHash new_size H m next_elem
  end.

(** The request for the new buckets must fit in an [int]. *)
Definition rehash (H : Hash) (new_size : Z) (m : heap HashElem) (o : list bool)
    : res (Hash * heap HashElem * list bool) :=
  _ ← sint (new_size * sizeof_ht);
  let '(ok, o) := next_alloc o in
  if ok then
    let H := with_ht new_size (Some (replicate (Z.to_nat new_size) (mkEntry 0 None))) H in
    xHash ← hashFunction (keyClass H);
    '(H, m) ← rehash_loop (length m) xHash new_size (with_first None H) m (first H);
    Ret (H, m, o)
  else Ret (H, m, o).

(** [while( count-- && elem )] *)
Fixpoint find_loop (fuel : nat) (xCompare : option (list Z) -> Z -> option (list Z) -> Z -> res Z)
    (m : heap HashElem) (count : Z) (elem : option nat) (key : option (list Z)) (n : Z) : res (option nat) :=
  match fuel with
  | O => NoFuel
  | S fuel =>
      if count =? 0 then Ret None else
      match elem with
      | None => Ret None
      | Some l =>
          e ← hload m l;
          c ← xCompare (pKey e) (nKey e) key n;
          if c =? 0 then Ret (Some l)
          else find_loop fuel xCompare m (count - 1) (next e) key n
      end
  end.

Definition findElementGivenHash (H : Hash) (m : heap HashElem) (key : option (list Z)) (n h : Z)
    : res (option nat) :=
  match ht H with
  | None => Ret None
  | Some t =>
      pEntry ← of_opt (rd t h);
      xCompare ← compareFunction (keyClass H);
      find_loop (S (length m)) xCompare m (hcount pEntry) (chain pEntry) key n
  end.

(** The element leaves the list; the result is [pH->first]. *)
Definition unlink (H : Hash) (elem : nat) (m : heap HashElem) : res (option nat * heap HashElem) :=
  e ← hload m elem;
  '(f, m) ← match prev e with
    | Some p => m ← hmodify (set_next (next e)) m p; Ret (first H, m)
    | None => Ret (next e, m)
    end;
  m ← match next e with
    | Some n => hmodify (set_prev (prev e)) m n
    | None => Ret m
    end;
  Ret (f, m).

Definition removeElementGivenHash (H : Hash) (elem : nat) (h : Z) (m : heap HashElem)
    : res (Hash * heap HashElem) :=
  '(f, m) ← unlink H elem m;
  t ← of_opt (ht H);
  pEntry ← of_opt (rd t h);
  e ← hload m elem;
  let c := if bool_decide (chain pEntry = Some elem) then next e else chain pEntry in
  n ← sint (hcount pEntry - 1);
  let c := if n <=? 0 then None else c in
  t ← of_opt (wr t h (mkEntry n c));
  m ← hfree m elem;
  k ← sint (count H - 1);
  let H := mkHash (keyClass H) (copyKey H) k (htsize H) f (Some t) in
  if k <=? 0 then
    c_assert (bool_decide (first H = None));;
    c_assert (count H =? 0);;
    sqlite3HashClear H m
  else Ret (H, m).

(** ** The interface *)

Definition sqlite3HashFindElem (H : Hash) (m : heap HashElem) (key : option (list Z)) (n : Z)
    : res (option nat) :=
  match ht H with
  | None => Ret None
  | Some _ =>
      xHash ← hashFunction (keyClass H);
      h ← xHash key n;
      if htsize H =? 0 then UB else
      findElementGivenHash H m key n (Z.rem h (htsize H))
  end.

Definition sqlite3HashFind (H : Hash) (m : heap HashElem) (key : option (list Z)) (n : Z) : res Z :=
  elem ← sqlite3HashFindElem H m key n;
  match elem with
  | Some l => e ← hload m l; Ret (edata e)
  | None => Ret 0
  end.

Context (junk : HashElem).   (* what [sqlite3_malloc] leaves in a new element *)

(** The element found, if the table has buckets. *)
Definition insert_find (H : Hash) (m : heap HashElem) (key : option (list Z)) (n hraw : Z)
    : res (option (nat * Z)) :=
  if htsize H =? 0 then Ret None else
  let h := Z.rem hraw (htsize H) in
  elem ← findElementGivenHash H m key n h;
  Ret (match elem with Some l => Some (l, h) | None => None end).

(** The new element with its key. *)
Definition insert_alloc (H : Hash) (m : heap HashElem) (o : list bool) (key : option (list Z)) (n : Z)
    : res (option nat * heap HashElem * list bool) :=
  let '(new_elem, m, o) := halloc m o junk in
  match new_elem with
  | None => Ret (None, m, o)
  | Some l =>
      if copyKey H && bool_decide (key <> None) then
        let '(ok, o) := next_alloc o in
        if ok then
          if decide (0 <= n <= zlen (kmem key)) then
            m ← hmodify (set_key (Some (take (Z.to_nat n) (kmem key)))) m l; Ret (Some l, m, o)
          else UB
        else m ← hfree m l; Ret (None, m, o)
      else m ← hmodify (set_key key) m l; Ret (Some l, m, o)
  end.

(** The element goes into its bucket and gets its data. *)
Definition insert_place (H : Hash) (m : heap HashElem) (o : list bool) (l : nat) (hraw data : Z)
    : res (Z * Hash * heap HashElem * list bool) :=
  c_assert (0 <? htsize H);;
  '(H, m) ← insertElement H (Z.rem hraw (htsize H)) l m;
  m ← hmodify (set_data data) m l;
  Ret (0, H, m, o).

(** From [pH->count++] to the end. *)
Definition insert_attach (H : Hash) (m : heap HashElem) (o : list bool) (l : nat) (hraw data : Z)
    : res (Z * Hash * heap HashElem * list bool) :=
  c ← sint (count H + 1);
  let H := with_count c H in
  '(H, m, o) ← (if htsize H =? 0 then rehash H (128 / sizeof_ht) m o else Ret (H, m, o));
  if htsize H =? 0 then
    m ← hfree m l; Ret (data, with_count 0 H, m, o)
  else
    '(H, m, o) ← (if htsize H <? count H then s ← sint (htsize H * 2); rehash H s m o
                  else Ret (H, m, o));
    insert_place H m o l hraw data.

Definition sqlite3HashInsert (H : Hash) (m : heap HashElem) (o : list bool)
    (key : option (list Z)) (n data : Z) : res (Z * Hash * heap HashElem * list bool) :=
  xHash ← hashFunction (keyClass H);
  hraw ← xHash key n;
  found ← insert_find H m key n hraw;
  match found with
  | Some (elem, h) =>
      e ← hload m elem;
      let old_data := edata e in
      if data =? 0 then
        '(H, m) ← removeElementGivenHash H elem h m; Ret (old_data, H, m, o)
      else
        m ← hmodify (set_data data) m elem;
        m ← (if copyKey H then Ret m else hmodify (set_key key) m elem);
        c_assert (n =? nKey e);;
        Ret (old_data, H, m, o)
  | None =>
      if data =? 0 then Ret (0, H, m, o) else
      '(new_elem, m, o) ← insert_alloc H m o key n;
      match new_elem with
      | None => Ret (data, H, m, o)
      | Some l =>
          m ← hmodify (set_nKey n) m l;
          insert_attach H m o l hraw data
      end
  end.

End table.

(** Walking over all elements with [sqliteHashFirst] and [sqliteHashNext]. *)
Fixpoint hash_walk (fuel : nat) (m : heap HashElem) (elem : option nat) : res (list Z) :=
  match fuel, elem with
  | _, None => Ret []
  | O, _ => NoFuel
  | S fuel, Some l => e ← hload m l; ds ← hash_walk fuel m (next e); Ret (edata e :: ds)
  end.

(** ** Keys up to the comparison of their class *)

Definition fold_key (cls c : Z) : Z := if cls =? SQLITE_HASH_STRING then UpperToLower c else c.

Definition canon (cls : Z) (z : list Z) (n : Z) : list Z := fold_key cls <$> take (Z.to_nat n) z.

(** A key has [n] bytes; one of the string class has no NUL but perhaps the last. *)
Definition valid_key (cls : Z) (z : list Z) (n : Z) : Prop :=
  0 < n <= zlen z /\ n < 2 ^ 31 /\ bytes_ok z
  /\ (cls = SQLITE_HASH_STRING -> no_nul (take (Z.to_nat (n - 1)) z)).

#[export] Instance valid_key_dec cls z n : Decision (valid_key cls z n).
Proof. unfold valid_key, bytes_ok, no_nul. apply _. Defined.

Definition key_ok (cls : Z) (k : option (list Z)) (n : Z) (ck : list Z) : Prop :=
  exists z, k = Some z /\ valid_key cls z n /\ canon cls z n = ck.

Definition hash_val (cls : Z) (ck : list Z) : Z :=
  Z.land (foldl (fun h c => hash_step h (if cls =? SQLITE_HASH_STRING then c else schar c)) 0 ck) 0x7fffffff.

Definition is_class (cls : Z) : Prop := cls = SQLITE_HASH_STRING \/ cls = SQLITE_HASH_BINARY.

Lemma hash_val_range cls ck : 0 <= hash_val cls ck < 2 ^ 31.
Proof. unfold hash_val. rewrite Z.land_comm. apply land_bound_l; lia. Qed.

Lemma hash_bytes_fold f n z h :
  (n <= length z)%nat -> hash_bytes f n z h = Ret (foldl (fun h c => hash_step h (f c)) h (take n z)).
Proof.
  revert z h. induction n as [|n IH]; intros z h Hn; [done|].
  destruct z as [|c z]; [simpl in Hn; lia|]. cbn [hash_bytes]. rewrite deref_cons, bind_ret_l.
  unfold advance. cbn [tail take foldl]. apply IH. simpl in Hn. lia.
Qed.

Lemma foldl_fmap_hash (f g : Z -> Z) h l :
  foldl (fun h c => hash_step h (g c)) h (f <$> l) = foldl (fun h c => hash_step h (g (f c))) h l.
Proof. revert h. induction l; intros; simpl; auto. Qed.

Definition hash_fn (cls : Z) : option (list Z) -> Z -> res Z :=
  if cls =? SQLITE_HASH_STRING then strHash else binHash.
Definition cmp_fn (cls : Z) : option (list Z) -> Z -> option (list Z) -> Z -> res Z :=
  if cls =? SQLITE_HASH_STRING then strCompare else binCompare.

Lemma hashFunction_class cls : is_class cls -> hashFunction cls = Ret (hash_fn cls).
Proof. by intros [-> | ->]. Qed.

Lemma compareFunction_class cls : is_class cls -> compareFunction cls = Ret (cmp_fn cls).
Proof. by intros [-> | ->]. Qed.

Lemma hash_fn_ok cls k n ck :
  is_class cls -> key_ok cls k n ck -> hash_fn cls k n = Ret (hash_val cls ck).
Proof.
  intros [-> | ->] (z & -> & (Hn & _) & <-); unfold hash_fn, hash_val, canon; simpl.
  - unfold strHash. simpl. rewrite (proj2 (Z.leb_gt n 0)) by lia. rewrite bind_ret_l, hash_bytes_fold by size.
    rewrite bind_ret_l. do 2 f_equal. symmetry. apply (foldl_fmap_hash _ (fun c => c)).
  - unfold binHash. simpl. rewrite hash_bytes_fold, bind_ret_l by size. do 2 f_equal.
    symmetry. apply (foldl_fmap_hash _ schar).
Qed.

Lemma memcmp_eq n a b :
  (n <= length a)%nat -> (n <= length b)%nat ->
  exists r, memcmp n a b = Ret r /\ (r = 0 <-> take n a = take n b).
Proof.
  revert a b. induction n as [|n IH]; intros a b Ha Hb; [by exists 0|].
  destruct a as [|x a], b as [|y b]; simpl in *; try lia.
  destruct (Z.eqb_spec x y) as [->|Hne].
  - destruct (IH a b) as (r & -> & Hr); [lia..|]. exists r. split; [done|]. rewrite Hr.
    split; [by intros ->|]. congruence.
  - eexists. split; [reflexivity|]. split; [destruct (x <? y); lia|congruence].
Qed.

Lemma strnicmp_eq fuel n a b :
  (n <= length a)%nat -> (n <= length b)%nat -> (n < fuel)%nat -> Z.of_nat n < 2 ^ 31 ->
  no_nul (take (n - 1) a) ->
  exists r, strnicmp_loop fuel a b (Z.of_nat n) = Ret r
    /\ (r = 0 <-> UpperToLower <$> take n a = UpperToLower <$> take n b).
Proof.
  revert fuel a b. induction n as [|n IH]; intros fuel a b Ha Hb Hf Hn Hnul.
  all: destruct fuel as [|fuel]; [lia|]; cbn [strnicmp_loop]; rewrite sint_id, bind_ret_l by lia.
  { by exists 0. }
  destruct a as [|x a], b as [|y b]; simpl in Ha, Hb; try lia.
  rewrite (proj2 (Z.ltb_lt 0 (Z.of_nat (S n)))) by lia. rewrite !rd_0. crun. cbn [tail].
  replace (Z.of_nat (S n) - 1) with (Z.of_nat n) by lia. cbn [take fmap list_fmap].
  destruct n as [|n].
  - assert (exists r, (if x =? 0 then Ret (UpperToLower x - UpperToLower y)
        else if UpperToLower x =? UpperToLower y then strnicmp_loop fuel a b (Z.of_nat 0)
             else Ret (UpperToLower x - UpperToLower y)) = Ret r
        /\ (r = 0 <-> UpperToLower x = UpperToLower y)) as (r & Hr & Hiff).
    { destruct (x =? 0); [eexists; split; [done|lia]|].
      destruct (Z.eqb_spec (UpperToLower x) (UpperToLower y)) as [->|]; [|eexists; split; [done|lia]].
      destruct fuel; [lia|]. by exists 0. }
    exists r. split; [exact Hr|]. rewrite Hiff. split; [by intros ->|congruence].
  - cbn [Nat.sub take] in Hnul. inversion_clear Hnul as [|? ? Hx Hnul']. rewrite (proj2 (Z.eqb_neq x 0)) by done.
    destruct (Z.eqb_spec (UpperToLower x) (UpperToLower y)) as [->|Hne].
    + destruct (IH fuel a b) as (r & -> & Hr); [lia..| |].
      { replace (S n - 1)%nat with n by lia. done. }
      exists r. split; [done|]. rewrite Hr. split; [by intros ->|congruence].
    + eexists. split; [reflexivity|]. split; [lia|congruence].
Qed.

Lemma canon_length cls z n : 0 < n <= zlen z -> zlen (canon cls z n) = n.
Proof. intros. unfold canon. size. Qed.

Lemma cmp_fn_ok cls k1 n1 c1 k2 n2 c2 :
  is_class cls -> key_ok cls k1 n1 c1 -> key_ok cls k2 n2 c2 ->
  exists r, cmp_fn cls k1 n1 k2 n2 = Ret r /\ (r = 0 <-> c1 = c2).
Proof.
  intros Hcls (z1 & -> & (Hn1 & Hm1 & Hb1 & Hz1) & <-) (z2 & -> & (Hn2 & Hm2 & Hb2 & Hz2) & <-).
  destruct (decide (n1 = n2)) as [<-|Hne].
  - destruct Hcls as [-> | ->]; unfold cmp_fn, strCompare, binCompare, canon, fold_key; simpl;
      rewrite Z.eqb_refl; cbn [negb].
    + destruct (strnicmp_eq (S (length z1)) (Z.to_nat n1) z1 z2) as (r & Hr & Hiff); [size..| |].
      { replace (Z.to_nat n1 - 1)%nat with (Z.to_nat (n1 - 1)) by lia. by apply Hz1. }
      rewrite Z2Nat.id in Hr by lia. by exists r.
    + destruct (memcmp_eq (Z.to_nat n1) z1 z2) as (r & Hr & Hiff); [size..|]. exists r.
      split; [done|]. by rewrite !list_fmap_id.
  - exists 1. split.
    + unfold cmp_fn, strCompare, binCompare.
      destruct (cls =? SQLITE_HASH_STRING); by rewrite (proj2 (Z.eqb_neq n1 n2)).
    + split; [done|]. intros H. apply (f_equal zlen) in H. rewrite !canon_length in H by done. done.
Qed.

(** ** The table as groups of neighbours *)

(** A node: its address, its key and its data. *)
Notation node := (nat * (list Z * Z))%type.
Notation group := (Z * list node)%type.

Definition nodes (gs : list group) : list node := concat (snd <$> gs).

Fixpoint bucket (b : Z) (gs : list group) : list node :=
  match gs with
  | [] => []
  | (b', g) :: gs => if b =? b' then g else bucket b gs
  end.

Definition entry_of (g : list node) : ht_entry := mkEntry (zlen g) (head_or g None).

Definition content (cls : Z) (e : HashElem) (d : list Z * Z) : Prop :=
  key_ok cls (pKey e) (nKey e) d.1 /\ edata e = d.2.

Definition groups_ok (cls size : Z) (gs : list group) : Prop :=
  NoDup gs.*1
  /\ Forall (fun bg => bg.2 <> [] /\ Forall (fun x => hash_val cls x.2.1 mod size = bg.1) bg.2) gs.

Notation dl cls := (dlist next prev (content cls)).

Record table_rep (m : heap HashElem) (H : Hash) (gs : list group) : Prop := {
  tr_class : is_class (keyClass H);
  tr_size : exists k, 0 <= k <= 40 /\ htsize H = 2 ^ k;
  tr_table : exists t, ht H = Some t /\ zlen t = htsize H
    /\ forall b, 0 <= b < htsize H -> rd t b = Some (entry_of (bucket b gs));
  tr_list : dl (keyClass H) m None (nodes gs) None;
  tr_first : first H = head_or (nodes gs) None;
  tr_locs : NoDup (nodes gs).*1;
  tr_groups : groups_ok (keyClass H) (htsize H) gs;
}.

Lemma nodes_app a b : nodes (a ++ b) = nodes a ++ nodes b.
Proof. unfold nodes. by rewrite fmap_app, concat_app. Qed.

Lemma nodes_cons b g gs : nodes ((b, g) :: gs) = g ++ nodes gs.
Proof. reflexivity. Qed.

Lemma bucket_app b (g1 g2 : list group) : b ∉ g1.*1 -> bucket b (g1 ++ g2) = bucket b g2.
Proof.
  induction g1 as [|[b' g] g1 IH]; [done|]. simpl. rewrite not_elem_of_cons. intros [Hne Hn].
  rewrite (proj2 (Z.eqb_neq b b')) by done. auto.
Qed.

Lemma bucket_none b (gs : list group) : b ∉ gs.*1 -> bucket b gs = [].
Proof. intros H. rewrite <- (app_nil_r gs), bucket_app by done. done. Qed.

Lemma bucket_hit b g (g1 g2 : list group) : b ∉ g1.*1 -> bucket b (g1 ++ (b, g) :: g2) = g.
Proof. intros H. rewrite bucket_app by done. simpl. by rewrite Z.eqb_refl. Qed.

(** Replacing the group of one bucket leaves the others. *)
Lemma bucket_other b b' g1 g2 (x y : list group) :
  Forall (fun bg => bg.1 = b) x -> Forall (fun bg => bg.1 = b) y -> b' <> b ->
  bucket b' (g1 ++ x ++ g2) = bucket b' (g1 ++ y ++ g2).
Proof.
  intros Hx Hy Hne. induction g1 as [|[b1 g] g1 IH].
  - assert (forall z, Forall (fun bg : group => bg.1 = b) z -> bucket b' (z ++ g2) = bucket b' g2) as Hz.
    { induction 1 as [|[b1 g] z Hb _ IH]; [done|]. simpl in *. subst.
      by rewrite (proj2 (Z.eqb_neq b' b)) by done. }
    simpl. by rewrite !Hz.
  - simpl. by rewrite IH.
Qed.

Lemma bucket_split b (gs : list group) :
  b ∈ gs.*1 -> exists g1 g g2, gs = g1 ++ (b, g) :: g2 /\ b ∉ g1.*1.
Proof.
  induction gs as [|[b' g] gs IH]; [by rewrite elem_of_nil|]. simpl.
  destruct (decide (b = b')) as [->|Hne].
  - intros _. exists [], g, gs. split; [done|]. apply not_elem_of_nil.
  - intros [?|Hb]%elem_of_cons; [done|]. destruct (IH Hb) as (g1 & g' & g2 & -> & Hn).
    exists ((b', g) :: g1), g', g2. split; [done|]. simpl. by rewrite not_elem_of_cons.
Qed.

Lemma groups_ok_hit cls size g1 b g g2 :
  groups_ok cls size (g1 ++ (b, g) :: g2) ->
  g <> [] /\ Forall (fun x => hash_val cls x.2.1 mod size = b) g /\ b ∉ g1.*1 /\ b ∉ g2.*1.
Proof.
  intros [Hnd Hf]. rewrite fmap_app in Hnd. simpl in Hnd.
  apply NoDup_app in Hnd as (_ & Hx & Hnd). apply NoDup_cons in Hnd as [Hb _].
  apply Forall_app in Hf as [_ Hf]. inversion_clear Hf as [|? ? [Hg Hg'] _]. repeat split; try done.
  intros Hin. apply (Hx b Hin). by left.
Qed.

(** Replacing the group of a bucket, or adding one in front. *)
Lemma groups_ok_replace cls size g1 b g g' g2 :
  groups_ok cls size (g1 ++ (b, g) :: g2) ->
  g' <> [] -> Forall (fun x => hash_val cls x.2.1 mod size = b) g' ->
  groups_ok cls size (g1 ++ (b, g') :: g2).
Proof.
  intros [Hnd Hf] Hg Hg'. split.
  - rewrite fmap_app in *. done.
  - apply Forall_app in Hf as [Hf1 Hf2]. inversion_clear Hf2. apply Forall_app. split; [done|]. by constructor.
Qed.

Lemma groups_ok_drop cls size g1 b g g2 :
  groups_ok cls size (g1 ++ (b, g) :: g2) -> groups_ok cls size (g1 ++ g2).
Proof.
  intros [Hnd Hf]. split.
  - rewrite fmap_app in *. simpl in Hnd. apply NoDup_app in Hnd as (H1 & H2 & H3).
    apply NoDup_cons in H3 as [_ H3]. apply NoDup_app. split; [done|]. split; [|done].
    intros x Hx Hx2. apply (H2 x Hx). by right.
  - apply Forall_app in Hf as [Hf1 Hf2]. inversion_clear Hf2. by apply Forall_app.
Qed.

Lemma hash_bucket cls size ck k : 0 <= k -> size = 2 ^ k ->
  Z.rem (hash_val cls ck) size = hash_val cls ck mod size
  /\ Z.land (hash_val cls ck) (size - 1) = hash_val cls ck mod size
  /\ 0 <= hash_val cls ck mod size < size.
Proof.
  intros Hk ->. pose proof (hash_val_range cls ck). pose proof (pow2_pos k Hk). split; [|split].
  - by apply Z.rem_mod_nonneg; lia.
  - by apply land_ones_mod.
  - by apply Z.mod_pos_bound.
Qed.

(** The list of live nodes fits in the heap. *)
Lemma locs_length (m : heap HashElem) cls p ns n :
  dl cls m p ns n -> NoDup ns.*1 -> (length ns <= length m)%nat.
Proof.
  intros Hd Hnd. rewrite <- (length_fmap fst ns). transitivity (length (seq 0 (length m))); [|by rewrite length_seq].
  apply submseteq_length, NoDup_submseteq; [done|]. intros l Hl.
  destruct (dlist_live _ _ _ _ _ _ _ _ Hd Hl) as (a & Ha). apply elem_of_seq. apply live_lt in Ha. lia.
Qed.

(** ** Links *)

Lemma content_link cls e d n p : content cls e d -> content cls (set_next n e) d /\ content cls (set_prev p e) d.
Proof. done. Qed.

Lemma link_before_ok cls H m A hd dh B l d e :
  dl cls m None (A ++ (hd, dh) :: B) None -> NoDup (A ++ (hd, dh) :: B).*1 ->
  l ∉ (A ++ (hd, dh) :: B).*1 -> m !! l = Some (Some e) -> content cls e d ->
  first H = head_or (A ++ (hd, dh) :: B) None ->
  exists m', link_before H hd l m = Ret (head_or (A ++ (l, d) :: (hd, dh) :: B) None, m')
    /\ dl cls m' None (A ++ (l, d) :: (hd, dh) :: B) None
    /\ length m' = length m
    /\ (forall l', l' ∉ (A ++ (l, d) :: (hd, dh) :: B).*1 -> m' !! l' = m !! l').
Proof.
  intros Hd Hnd Hl He Hc Hf. pose proof Hd as Hd'. apply dlist_app in Hd' as [HA HB].
  destruct HB as [(he & Hhe & Hhn & Hhp & Hhc) HB]. cbn [head_or] in HA.
  rewrite fmap_app in Hnd, Hl. apply not_elem_of_app in Hl as [HlA HlB]. cbn [fmap list_fmap fst] in Hnd, HlB.
  apply not_elem_of_cons in HlB as [Hlh HlB].
  apply NoDup_app in Hnd as (HndA & HAB & Hnd). apply NoDup_cons in Hnd as [HhB HndB].
  unfold link_before. rewrite (hload_Some _ _ _ Hhe). crun. rewrite (hmodify_Some _ _ _ _ He). crun.
  set (m1 := <[l:=_]> m). assert (m1 !! l = Some (Some (set_next (Some hd) e))) as Hm1.
  { apply list_lookup_insert_eq. by eapply live_lt. }
  rewrite (hmodify_Some _ _ _ _ Hm1). crun.
  set (e2 := set_prev (prev he) (set_next (Some hd) e)). set (m2 := <[l:=_]> m1).
  assert (m2 !! l = Some (Some e2)) as Hm2 by (apply list_lookup_insert_eq; by eapply live_lt).
  assert (forall l', l' <> l -> m2 !! l' = m !! l') as Hoth.
  { intros l' Hne. unfold m2, m1. by rewrite !list_lookup_insert_ne. }
  assert (length m2 = length m) as Hlen by (unfold m2, m1; by rewrite !length_insert).
  clearbody m2. clear m1 Hm1. rewrite Hhp. unfold last_or at 1.
  destruct A as [|[p dp] A _] using rev_ind.
  - cbn [last]. crun. rewrite (hmodify_Some _ _ _ he) by (by rewrite Hoth). crun.
    eexists. split; [reflexivity|]. split; [|split].
    + cbn [app dlist head_or]. split; [|split].
      * exists e2. rewrite list_lookup_insert_ne by done. split; [done|]. unfold e2. simpl. by rewrite Hhp.
      * exists (set_prev (Some l) he). split; [apply list_lookup_insert_eq; rewrite Hlen; by eapply live_lt|done].
      * apply dlist_insert_other; [done|]. eapply dlist_frame; [|exact HB].
        intros l' Hl'. apply Hoth. by intros ->.
    + by rewrite length_insert.
    + intros l' Hl'. cbn in Hl'. rewrite !not_elem_of_cons in Hl'. rewrite list_lookup_insert_ne by naive_solver.
      apply Hoth. naive_solver.
  - rewrite last_snoc. crun. apply dlist_app in HA as [HA Hp]. destruct Hp as [(pe & Hpe & Hpn & Hpp & Hpc) _].
    rewrite fmap_app in HlA, HAB, HndA. cbn in HlA, HAB, HndA. apply not_elem_of_app in HlA as [HlA Hlp].
    rewrite list_elem_of_singleton in Hlp.
    apply NoDup_app in HndA as (HndA & HpA & _).
    assert (p ∉ A.*1) as Hp by (intros Hin; apply (HpA p Hin); by left).
    assert (p <> hd /\ p ∉ B.*1) as [Hph HpB].
    { apply not_elem_of_cons, (HAB p), elem_of_app. right. by left. }
    rewrite (hmodify_Some _ m2 p pe) by (by rewrite Hoth). crun.
    rewrite (hmodify_Some _ _ hd he) by (by rewrite list_lookup_insert_ne, Hoth). crun.
    eexists. split; [rewrite Hf, <- !app_assoc; by destruct A as [|[] A]|]. split; [|split].
    + rewrite <- app_assoc. apply dlist_app. cbn [app dlist head_or]. split; [|split; [|split; [|split]]].
      * apply dlist_insert_other; [intros Hin; apply (HAB hd); [rewrite elem_of_app; by left|by left]|].
        apply dlist_insert_other; [done|]. eapply dlist_frame; [|exact HA].
        intros l' Hl'. apply Hoth. by intros ->.
      * exists (set_next (Some l) pe). rewrite list_lookup_insert_ne by done.
        split; [apply list_lookup_insert_eq; rewrite Hlen; by eapply live_lt|done].
      * exists e2. rewrite !list_lookup_insert_ne by done. split; [done|]. unfold e2. simpl. rewrite Hhp.
        split; [done|]. split; [|done]. unfold last_or. by rewrite last_snoc.
      * exists (set_prev (Some l) he).
        split; [apply list_lookup_insert_eq; rewrite length_insert, Hlen; by eapply live_lt|done].
      * apply dlist_insert_other; [done|]. apply dlist_insert_other; [done|]. eapply dlist_frame; [|exact HB].
        intros l' Hl'. apply Hoth. by intros ->.
    + by rewrite !length_insert.
    + intros l' Hl'. rewrite !fmap_app in Hl'. cbn in Hl'. rewrite !not_elem_of_app, !not_elem_of_cons in Hl'.
      rewrite !list_lookup_insert_ne by naive_solver. apply Hoth. naive_solver.
Qed.

Lemma link_front_ok cls H m ns l d e :
  dl cls m None ns None -> NoDup ns.*1 -> l ∉ ns.*1 -> m !! l = Some (Some e) -> content cls e d ->
  first H = head_or ns None ->
  exists m', link_front H l m = Ret (Some l, m')
    /\ dl cls m' None ((l, d) :: ns) None
    /\ length m' = length m
    /\ (forall l', l' ∉ ((l, d) :: ns).*1 -> m' !! l' = m !! l').
Proof.
  intros Hd Hnd Hl He Hc Hf. unfold link_front. rewrite (hmodify_Some _ _ _ _ He). crun. rewrite Hf.
  set (e1 := set_next _ e). set (m1 := <[l:=_]> m).
  assert (m1 !! l = Some (Some e1)) as Hm1 by (apply list_lookup_insert_eq; by eapply live_lt).
  assert (forall l', l' <> l -> m1 !! l' = m !! l') as Hoth.
  { intros l' Hne. unfold m1. by rewrite list_lookup_insert_ne. }
  assert (length m1 = length m) as Hlen by (unfold m1; by rewrite length_insert).
  clearbody m1. destruct ns as [|[f df] ns].
  - cbn [head_or] in *. crun. rewrite (hmodify_Some _ _ _ _ Hm1). crun. eexists. split; [reflexivity|]. split; [|split].
    + split; [|done]. exists (set_prev None e1). split; [apply list_lookup_insert_eq; rewrite Hlen; by eapply live_lt|done].
    + by rewrite length_insert.
    + intros l' Hl'. cbn in Hl'. rewrite not_elem_of_cons in Hl'. rewrite list_lookup_insert_ne by naive_solver.
      apply Hoth. naive_solver.
  - cbn [head_or fmap list_fmap fst dlist] in *. apply not_elem_of_cons in Hl as [Hlf Hl].
    apply NoDup_cons in Hnd as [Hfn Hnd].
    destruct Hd as [(fe & Hfe & Hfn' & Hfp & Hfc) Hd].
    rewrite (hmodify_Some _ m1 f fe) by (by rewrite Hoth). crun.
    rewrite (hmodify_Some _ _ l e1) by (by rewrite list_lookup_insert_ne). crun.
    eexists. split; [reflexivity|]. split; [|split].
    + split; [|split].
      * exists (set_prev None e1).
        split; [apply list_lookup_insert_eq; rewrite length_insert, Hlen; by eapply live_lt|done].
      * exists (set_prev (Some l) fe). rewrite list_lookup_insert_ne by done.
        split; [apply list_lookup_insert_eq; rewrite Hlen; by eapply live_lt|done].
      * apply dlist_insert_other; [done|]. apply dlist_insert_other; [done|]. eapply dlist_frame; [|exact Hd].
        intros l' Hl'. apply Hoth. by intros ->.
    + by rewrite !length_insert.
    + intros l' Hl'. rewrite !not_elem_of_cons in Hl'. rewrite !list_lookup_insert_ne by naive_solver.
      apply Hoth. naive_solver.
Qed.

(** What [insertElement] does to the groups. *)
Definition inserted (b : Z) (x : node) (gs gs' : list group) : Prop :=
  (exists g1 g g2, gs = g1 ++ (b, g) :: g2 /\ gs' = g1 ++ (b, x :: g) :: g2)
  \/ (b ∉ gs.*1 /\ gs' = (b, [x]) :: gs).

Lemma inserted_nodes b x gs gs' : inserted b x gs gs' -> nodes gs' ≡ₚ x :: nodes gs.
Proof.
  intros [(g1 & g & g2 & -> & ->)|[_ ->]]; [|done]. rewrite !nodes_app, !nodes_cons. cbn [app].
  symmetry. apply Permutation_middle.
Qed.

Definition same_frame (H H' : Hash) : Prop :=
  keyClass H' = keyClass H /\ copyKey H' = copyKey H /\ count H' = count H /\ htsize H' = htsize H.

Lemma insertElement_ok m H gs l d e :
  table_rep m H gs -> l ∉ (nodes gs).*1 -> m !! l = Some (Some e) -> content (keyClass H) e d ->
  zlen (nodes gs) + 1 < 2 ^ 31 ->
  exists H' m' gs', insertElement H (hash_val (keyClass H) d.1 mod htsize H) l m = Ret (H', m')
    /\ table_rep m' H' gs' /\ inserted (hash_val (keyClass H) d.1 mod htsize H) (l, d) gs gs'
    /\ same_frame H H' /\ length m' = length m
    /\ (forall l', l' ∉ (nodes gs').*1 -> m' !! l' = m !! l').
Proof.
  intros [Hcls (k & Hk & Hsz) (t & Ht & Htl & Htb) Hd Hf Hnd Hg] Hl He Hc Hlen.
  pose proof (hash_bucket (keyClass H) (htsize H) d.1 k ltac:(lia) Hsz) as (_ & _ & Hb).
  set (b := hash_val (keyClass H) d.1 mod htsize H) in *.
  unfold insertElement. rewrite Ht. crun. rewrite (Htb b Hb). crun. cbn [chain hcount entry_of].
  assert (forall gs' f m', inserted b (l, d) gs gs' -> dl (keyClass H) m' None (nodes gs') None ->
      f = head_or (nodes gs') None -> length m' = length m ->
      (forall l', l' ∉ (nodes gs').*1 -> m' !! l' = m !! l') ->
      exists H' m'' gs'', (n ← sint (zlen (bucket b gs) + 1);
          t ← of_opt (wr t b (mkEntry n (Some l)));
          Ret (with_first f (with_ht (htsize H) (Some t) H), m')) = Ret (H', m'')
        /\ table_rep m'' H' gs'' /\ inserted b (l, d) gs gs'' /\ same_frame H H' /\ length m'' = length m
        /\ (forall l', l' ∉ (nodes gs'').*1 -> m'' !! l' = m !! l')) as Hfin.
  { intros gs' f m' Hins Hd' Hf' Hlen' Hfr.
    assert (zlen (bucket b gs) <= zlen (nodes gs)) as Hle.
    { destruct (decide (b ∈ gs.*1)) as [Hin|Hni]; [|rewrite bucket_none by done; size].
      destruct (bucket_split b gs Hin) as (g1 & g & g2 & -> & Hn). rewrite bucket_hit by done.
      rewrite nodes_app, nodes_cons. size. }
    pose proof (zlen_nonneg (bucket b gs)).
    rewrite sint_id by lia. crun. rewrite wr_Some by lia. crun.
    exists (with_first f (with_ht (htsize H) (Some (<[Z.to_nat b:=mkEntry (zlen (bucket b gs) + 1) (Some l)]> t)) H)), m', gs'.
    split; [reflexivity|]. split; [|done]. split; simpl; try done.
    - by exists k.
    - eexists. split; [reflexivity|]. split; [by rewrite zlen_insert|]. intros b' Hb'.
      destruct Hins as [(g1 & g & g2 & -> & ->)|[Hni ->]].
      + destruct (groups_ok_hit _ _ _ _ _ _ Hg) as (_ & _ & Hn1 & _).
        destruct (decide (b' = b)) as [->|Hne].
        * rewrite rd_insert_eq by lia. rewrite !bucket_hit by done. unfold entry_of. rewrite zlen_cons. done.
        * rewrite rd_insert_ne, Htb by lia. f_equal. f_equal. apply (bucket_other b b' g1 g2 [_] [_]); [by repeat constructor..|done].
      + destruct (decide (b' = b)) as [->|Hne].
        * rewrite rd_insert_eq by lia. rewrite bucket_none by done. simpl. by rewrite Z.eqb_refl.
        * rewrite rd_insert_ne, Htb by lia. simpl. by rewrite (proj2 (Z.eqb_neq b' b)).
    - rewrite (inserted_nodes _ _ _ _ Hins). simpl. by constructor.
    - destruct Hins as [(g1 & g & g2 & -> & ->)|[Hni ->]].
      + destruct (groups_ok_hit _ _ _ _ _ _ Hg) as (_ & Hgb & _). eapply groups_ok_replace; [exact Hg|done|by constructor].
      + destruct Hg as [Hg1 Hg2]. split; [simpl; by constructor|]. constructor; [|done]. split; [done|by repeat constructor]. }
  destruct (decide (b ∈ gs.*1)) as [Hin|Hni].
  - destruct (bucket_split b gs Hin) as (g1 & g & g2 & -> & Hn).
    destruct (groups_ok_hit _ _ _ _ _ _ Hg) as (Hgn & _).
    rewrite bucket_hit in * by done. destruct g as [|[hd dh] g]; [done|]. cbn [head_or].
    rewrite nodes_app, nodes_cons in Hd, Hnd, Hl, Hf.
    destruct (link_before_ok (keyClass H) H m (nodes g1) hd dh (g ++ nodes g2) l d e) as (m' & -> & Hd' & Hl' & Hfr); try done.
    crun. apply (Hfin (g1 ++ (b, (l, d) :: (hd, dh) :: g) :: g2)); try done.
    + left. by exists g1, ((hd, dh) :: g), g2.
    + by rewrite nodes_app, nodes_cons.
    + by rewrite nodes_app, nodes_cons.
    + intros l' Hl''. apply Hfr. by rewrite nodes_app, nodes_cons in Hl''.
  - rewrite (bucket_none b gs Hni) in *. cbn [head_or].
    destruct (link_front_ok (keyClass H) H m (nodes gs) l d e) as (m' & -> & Hd' & Hl' & Hfr); try done.
    crun. apply (Hfin ((b, [(l, d)]) :: gs)); try done. by right.
Qed.

(** ** Rehashing *)

Lemma rehash_loop_ok size rest : forall fuel m H gs p,
  table_rep m H gs -> htsize H = size ->
  dl (keyClass H) m p rest None -> NoDup (nodes gs ++ rest).*1 ->
  (length rest <= fuel)%nat -> zlen (nodes gs ++ rest) < 2 ^ 31 ->
  exists H' m' gs', rehash_loop fuel (hash_fn (keyClass H)) size H m (head_or rest None) = Ret (H', m')
    /\ table_rep m' H' gs' /\ nodes gs' ≡ₚ nodes gs ++ rest /\ same_frame H H' /\ length m' = length m
    /\ (forall l', l' ∉ (nodes gs').*1 -> m' !! l' = m !! l').
Proof.
  induction rest as [|[l d] rest IH]; intros fuel m H gs p Htr Hsz Hd Hnd Hf Hlen.
  - exists H, m, gs. rewrite app_nil_r. split; [by destruct fuel|]. done.
  - destruct fuel as [|fuel]; [simpl in Hf; lia|]. destruct Hd as [(e & He & Hn & Hp & Hc) Hd].
    cbn [rehash_loop head_or]. rewrite (hload_Some _ _ _ He). crun.
    rewrite (hash_fn_ok _ _ _ d.1) by (apply Htr || apply Hc). crun.
    destruct (tr_size _ _ _ Htr) as (k & Hk & Hsize).
    destruct (hash_bucket (keyClass H) (htsize H) d.1 k ltac:(lia) Hsize) as (_ & Hland & _).
    rewrite <- Hsz, Hland. rewrite fmap_app in Hnd. cbn in Hnd. apply NoDup_app in Hnd as (Hnd1 & Hdis & Hnd2).
    apply NoDup_cons in Hnd2 as [Hlr Hnd2].
    assert (l ∉ (nodes gs).*1) as Hl by (intros Hin; apply (Hdis l Hin); by left).
    destruct (insertElement_ok m H gs l d e Htr Hl He Hc) as (H1 & m1 & gs1 & -> & Htr1 & Hins & Hsf & Hlm & Hfr).
    { rewrite zlen_app, zlen_cons in Hlen. pose proof (zlen_nonneg rest). lia. }
    crun. rewrite Hn. pose proof (inserted_nodes _ _ _ _ Hins) as Hperm.
    destruct Hsf as (Hs1 & Hs2 & Hs3 & Hs4). rewrite Hsz, <- Hs1.
    assert (forall l', l' ∈ rest.*1 -> l' ∉ (nodes gs1).*1) as Hdis'.
    { intros l' Hin Hin'. rewrite Hperm in Hin'. cbn in Hin'. apply elem_of_cons in Hin' as [->|Hin']; [done|].
      apply (Hdis l' Hin'). by right. }
    destruct (IH fuel m1 H1 gs1 (Some l)) as (H' & m' & gs' & -> & Htr' & Hperm' & (Hs1' & Hs2' & Hs3' & Hs4') & Hlm' & Hfr').
    + done.
    + by rewrite Hs4.
    + rewrite Hs1. eapply dlist_frame; [|exact Hd]. intros l' Hl'. apply Hfr. by apply Hdis'.
    + rewrite fmap_app. apply NoDup_app. split; [apply Htr1|]. split; [|done].
      intros x Hx Hx'. by apply (Hdis' x).
    + simpl in Hf. lia.
    + revert Hlen. unfold zlen. rewrite Hperm, !length_app. simpl. lia.
    + exists H', m', gs'. split; [done|]. split; [done|]. split.
      * rewrite Hperm', Hperm. cbn [app]. by rewrite Permutation_middle.
      * split; [unfold same_frame; repeat split; congruence|]. split; [congruence|].
        intros l' Hl'. rewrite Hfr' by done. apply Hfr. rewrite Hperm, <- ?elem_of_list_In.
        intros Hin. apply Hl'. rewrite Hperm', fmap_app, elem_of_app. left. by rewrite Hperm.
Qed.

(** A fresh bucket array of [2^k] empty buckets. *)
Lemma empty_table m H size k :
  is_class (keyClass H) -> 0 <= k <= 40 -> size = 2 ^ k ->
  table_rep m (with_first None (with_ht size (Some (replicate (Z.to_nat size) (mkEntry 0 None))) H)) [].
Proof.
  intros Hcls Hk ->. pose proof (pow2_pos k ltac:(lia)). split; simpl; try done.
  - by exists k.
  - eexists. split; [reflexivity|]. split; [size|]. intros b Hb. unfold rd.
    rewrite decide_True by lia. apply lookup_replicate. split; [done|lia].
  - constructor.
  - split; constructor.
Qed.

(** Rehashing succeeds, or nothing changes. *)
Lemma rehash_ok tg m H ns size k o :
  is_class (keyClass H) -> 0 <= k -> size = 2 ^ k -> size * sizeof_ht tg < 2 ^ 31 ->
  dl (keyClass H) m None ns None -> NoDup ns.*1 -> first H = head_or ns None -> zlen ns < 2 ^ 31 ->
  exists b o', next_alloc o = (b, o') /\
    if b then exists H' m' gs', rehash tg H size m o = Ret (H', m', o')
      /\ table_rep m' H' gs' /\ nodes gs' ≡ₚ ns /\ length m' = length m
      /\ (keyClass H' = keyClass H /\ copyKey H' = copyKey H /\ count H' = count H /\ htsize H' = size)
      /\ (forall l', l' ∉ (nodes gs').*1 -> m' !! l' = m !! l')
    else rehash tg H size m o = Ret (H, m, o').
Proof.
  intros Hcls Hk Hs Hb Hd Hnd Hf Hl. destruct (next_alloc o) as [b o'] eqn:Eo. exists b, o'. split; [done|].
  assert (0 < sizeof_ht tg) by (by destruct tg). pose proof (pow2_pos k Hk).
  assert (size < 2 ^ 31) by nia.
  assert (k <= 40).
  { destruct (Z.le_gt_cases k 40) as [|Hgt]; [done|]. pose proof (Z.pow_lt_mono_r 2 31 k). lia. }
  unfold rehash. rewrite sint_id, Eo by nia. crun. destruct b; [|done].
  cbn [keyClass with_ht]. rewrite hashFunction_class by done. crun.
  pose proof (empty_table m H size k Hcls ltac:(lia) Hs) as Htr.
  destruct (rehash_loop_ok size ns (length m) _ _ [] None Htr) as (H' & m' & gs' & Hrun & Htr' & Hp & Hsf & Hlm & Hfr); try done.
  { by eapply locs_length. }
  cbn [first with_ht]. rewrite Hf. cbn [keyClass with_first with_ht] in Hrun. rewrite Hrun. crun.
  exists H', m', gs'. split; [done|]. split; [done|]. split; [done|]. split; [done|]. split; [exact Hsf|done].
Qed.

(** ** Finding an element *)

Lemma find_loop_ok cls m key n ck g rest : forall fuel p,
  is_class cls -> key_ok cls key n ck -> dl cls m p (g ++ rest) None -> (length g < fuel)%nat ->
  exists r, find_loop fuel (cmp_fn cls) m (zlen g) (head_or (g ++ rest) None) key n = Ret r
    /\ match r with
       | Some l => exists d, (l, (ck, d)) ∈ g
       | None => ck ∉ g.*2.*1
       end.
Proof.
  induction g as [|[l [ck' d]] g IH]; intros fuel p Hcls Hk Hd Hf.
  - destruct fuel as [|fuel]; [lia|]. exists None. split; [done|]. apply not_elem_of_nil.
  - destruct fuel as [|fuel]; [lia|]. destruct Hd as [(e & He & Hn & _ & Hc & Hdat) Hd].
    cbn [find_loop app head_or]. pose proof (zlen_nonneg g). rewrite zlen_cons.
    rewrite (proj2 (Z.eqb_neq (zlen g + 1) 0)) by lia. rewrite (hload_Some _ _ _ He). crun.
    destruct (cmp_fn_ok cls _ _ _ _ _ _ Hcls Hc Hk) as (r & -> & Hr). crun. simpl in Hr.
    destruct (Z.eqb_spec r 0) as [H0|H0].
    + exists (Some l). split; [done|]. exists d. apply Hr in H0 as ->. by left.
    + replace (zlen g + 1 - 1) with (zlen g) by lia. rewrite Hn.
      destruct (IH fuel (Some l) Hcls Hk Hd) as (r' & -> & Hr'); [simpl in Hf; lia|].
      exists r'. split; [done|]. destruct r' as [l'|].
      * destruct Hr' as [d' Hd']. exists d'. by right.
      * simpl. apply not_elem_of_cons. split; [|done]. intros ->. by apply H0, Hr.
Qed.

Lemma bucket_prefix (b : Z) (gs : list group) :
  bucket b gs <> [] -> exists a c, nodes gs = a ++ bucket b gs ++ c.
Proof.
  intros H. destruct (decide (b ∈ gs.*1)) as [Hin|Hni]; [|by rewrite bucket_none in H].
  destruct (bucket_split b gs Hin) as (g1 & g & g2 & -> & Hn). rewrite bucket_hit by done.
  exists (nodes g1), (nodes g2). by rewrite nodes_app, nodes_cons.
Qed.

Lemma node_bucket cls size gs x :
  groups_ok cls size gs -> x ∈ nodes gs -> x ∈ bucket (hash_val cls x.2.1 mod size) gs.
Proof.
  intros Hg Hx. unfold nodes in Hx. apply list_elem_of_In, in_concat in Hx as (g & Hin & Hx).
  apply list_elem_of_In in Hin, Hx. apply list_elem_of_fmap in Hin as ([b g'] & -> & Hin).
  apply list_elem_of_split in Hin as (g1 & g2 & ->).
  destruct (groups_ok_hit _ _ _ _ _ _ Hg) as (_ & Hf & Hn & _).
  rewrite Forall_forall in Hf. rewrite (Hf x Hx). by rewrite bucket_hit.
Qed.

Lemma bucket_nodes b gs x : x ∈ bucket b gs -> x ∈ nodes gs.
Proof.
  intros Hx. destruct (bucket_prefix b gs) as (a & c & ->); [by intros H; rewrite H in Hx; apply elem_of_nil in Hx|].
  rewrite !elem_of_app. auto.
Qed.

Lemma find_ok m H gs key n ck :
  table_rep m H gs -> key_ok (keyClass H) key n ck ->
  exists r, findElementGivenHash H m key n (hash_val (keyClass H) ck mod htsize H) = Ret r
    /\ match r with
       | Some l => exists d, (l, (ck, d)) ∈ nodes gs
       | None => ck ∉ (nodes gs).*2.*1
       end.
Proof.
  intros [Hcls (k & Hk & Hsz) (t & Ht & Htl & Htb) Hd Hf Hnd Hg] Hkey.
  destruct (hash_bucket (keyClass H) (htsize H) ck k ltac:(lia) Hsz) as (_ & _ & Hb).
  set (b := hash_val (keyClass H) ck mod htsize H) in *.
  unfold findElementGivenHash. rewrite Ht, (Htb b Hb). crun. rewrite compareFunction_class by done. crun.
  cbn [hcount chain entry_of].
  assert (forall r, match r with Some l => exists d, (l, (ck, d)) ∈ bucket b gs | None => ck ∉ (bucket b gs).*2.*1 end ->
    match r with Some l => exists d, (l, (ck, d)) ∈ nodes gs | None => ck ∉ (nodes gs).*2.*1 end) as Hlift.
  { intros [l|]; [intros [d Hd']; exists d; by eapply bucket_nodes|]. intros Hn Hin. apply Hn.
    apply list_elem_of_fmap in Hin as ([ck' d] & Heq & Hin). simpl in Heq. subst ck'.
    apply list_elem_of_fmap in Hin as ([l [ck' d']] & [= <- <-] & Hin).
    apply (node_bucket _ _ _ _ Hg) in Hin. cbn [fst snd] in Hin. fold b in Hin.
    apply list_elem_of_fmap. exists (ck, d). split; [done|]. apply list_elem_of_fmap. by exists (l, (ck, d)). }
  destruct (decide (bucket b gs = [])) as [He|Hne].
  - rewrite He in *. exists None. split; [by cbn|]. apply (Hlift None). apply not_elem_of_nil.
  - destruct (bucket_prefix b gs Hne) as (a & c & Hn). rewrite Hn in Hd. apply dlist_app in Hd as [_ Hd].
    destruct (find_loop_ok (keyClass H) m key n ck (bucket b gs) c (S (length m)) _ Hcls Hkey Hd) as (r & Hr & Hm).
    { pose proof (locs_length m _ _ _ _ Hd) as Hle. rewrite length_app in Hle.
      rewrite Hn in Hnd. rewrite fmap_app in Hnd. apply NoDup_app in Hnd as (_ & _ & Hnd). specialize (Hle Hnd). lia. }
    exists r. split; [|by apply Hlift]. rewrite <- Hr. f_equal. by destruct (bucket b gs) as [|[]].
Qed.

(** ** Changing the data of an element *)

Definition set_nodes (l : nat) (d : list Z * Z) (ns : list node) : list node :=
  (fun x : node => if decide (x.1 = l) then (l, d) else x) <$> ns.

Definition set_node (l : nat) (d : list Z * Z) (gs : list group) : list group :=
  (fun bg : group => (bg.1, set_nodes l d bg.2)) <$> gs.

Lemma set_node_nodes l d gs : nodes (set_node l d gs) = set_nodes l d (nodes gs).
Proof.
  induction gs as [|[b g] gs IH]; [done|]. cbn [set_node fmap list_fmap fst snd]. rewrite !nodes_cons.
  fold (set_node l d gs). unfold set_nodes in *. by rewrite fmap_app, IH.
Qed.

Lemma set_nodes_locs l d ns : (set_nodes l d ns).*1 = ns.*1.
Proof. induction ns as [|[l' x] ns IH]; [done|]. cbn. case_decide; simpl in *; subst; f_equal; auto. Qed.

Lemma set_nodes_other l d ns : l ∉ ns.*1 -> set_nodes l d ns = ns.
Proof.
  induction ns as [|[l' x] ns IH]; [done|]. cbn. rewrite not_elem_of_cons. intros [Hne Hn].
  rewrite decide_False by (simpl; congruence). f_equal. by apply IH.
Qed.

Lemma head_or_set l d ns n : head_or (set_nodes l d ns) n = head_or ns n.
Proof. destruct ns as [|[l' x] ns]; [done|]. cbn. case_decide; simpl in *; congruence. Qed.

Lemma dlist_set cls m p ns n l e e' d :
  dl cls m p ns n -> m !! l = Some (Some e) -> next e' = next e -> prev e' = prev e ->
  content cls e' d -> dl cls (<[l := Some e']> m) p (set_nodes l d ns) n.
Proof.
  intros Hd He Hn Hp Hc. revert p Hd. induction ns as [|[l' x] ns IH]; intros p; [done|].
  intros [(a & Ha & Han & Hap & Hac) Hd]. pose proof (head_or_set l d ns n) as Hh. unfold set_nodes in *.
  cbn [fmap list_fmap fst]. case_decide as Heq; simpl in Heq.
  - subst l'. split; [|by apply IH]. exists e'. rewrite He in Ha. injection Ha as ->.
    split; [apply list_lookup_insert_eq; by eapply live_lt|]. rewrite Hh. repeat split; try apply Hc; congruence.
  - split; [|by apply IH]. exists a. rewrite list_lookup_insert_ne by done. by rewrite Hh.
Qed.

Lemma bucket_set l d b gs : bucket b (set_node l d gs) = set_nodes l d (bucket b gs).
Proof.
  induction gs as [|[b' g] gs IH]; [done|]. cbn [set_node fmap list_fmap fst snd bucket].
  destruct (b =? b'); [done|]. exact IH.
Qed.

Lemma table_set m H gs l e e' ck d d' :
  table_rep m H gs -> (l, (ck, d)) ∈ nodes gs -> m !! l = Some (Some e) ->
  next e' = next e -> prev e' = prev e -> content (keyClass H) e' (ck, d') ->
  table_rep (<[l := Some e']> m) H (set_node l (ck, d') gs).
Proof.
  intros [Hcls Hsz (t & Ht & Htl & Htb) Hd Hf Hnd Hg] Hin He Hn Hp Hc. split; try done.
  - exists t. split; [done|]. split; [done|]. intros b Hb. rewrite (Htb b Hb), bucket_set. f_equal.
    unfold entry_of. rewrite head_or_set. f_equal. unfold set_nodes. size.
  - rewrite set_node_nodes. by apply (dlist_set _ _ _ _ _ _ e).
  - by rewrite set_node_nodes, head_or_set.
  - by rewrite set_node_nodes, set_nodes_locs.
  - assert (forall x, x ∈ nodes gs -> x.1 = l -> x.2.1 = ck) as Hkey.
    { intros [l' [ck' dd]] Hx Heq. simpl in *. subst l'.
      apply list_elem_of_split in Hin as (a & c & Heq'). rewrite Heq' in Hnd, Hx.
      rewrite fmap_app in Hnd. cbn in Hnd. apply NoDup_app in Hnd as (_ & H1 & H2). apply NoDup_cons in H2 as [H2 _].
      apply elem_of_app in Hx as [Hx|[Hx|Hx]%elem_of_cons].
      - exfalso. apply (H1 l); [|by left]. apply list_elem_of_fmap. by exists (l, (ck', dd)).
      - by injection Hx.
      - exfalso. apply H2. apply list_elem_of_fmap. by exists (l, (ck', dd)). }
    destruct Hg as [Hg1 Hg2]. split.
    + unfold set_node. rewrite <- list_fmap_compose. done.
    + unfold set_node. apply Forall_fmap. rewrite Forall_forall in Hg2 |- *. intros [b g] Hbg.
      destruct (Hg2 _ Hbg) as [Hne Hall]. simpl in *. split; [by destruct g|].
      apply Forall_fmap. rewrite Forall_forall in Hall |- *. intros x Hx. simpl. rewrite <- (Hall x Hx).
      case_decide as Hd'; [|done]. simpl. rewrite (Hkey x); [done| |done].
      apply list_elem_of_split in Hbg as (g1 & g2 & ->). rewrite nodes_app, nodes_cons, !elem_of_app. auto.
Qed.

(** ** Removing an element *)

Lemma unlink_ok cls H m A l d C :
  dl cls m None (A ++ (l, d) :: C) None -> NoDup (A ++ (l, d) :: C).*1 ->
  first H = head_or (A ++ (l, d) :: C) None ->
  exists m' e, unlink H l m = Ret (head_or (A ++ C) None, m')
    /\ dl cls m' None (A ++ C) None /\ length m' = length m
    /\ m' !! l = Some (Some e) /\ next e = head_or C None
    /\ (forall l', l' ∉ (A ++ (l, d) :: C).*1 -> m' !! l' = m !! l').
Proof.
  intros Hd Hnd Hf. apply dlist_app in Hd as [HA [(e & He & Hn & Hp & Hc) HC]].
  rewrite fmap_app in Hnd. cbn in Hnd. apply NoDup_app in Hnd as (HndA & Hdis & Hnd). apply NoDup_cons in Hnd as [HlC HndC].
  assert (l ∉ A.*1) as HlA by (intros Hin; apply (Hdis l Hin); by left).
  unfold unlink. rewrite (hload_Some _ _ _ He). crun.
  assert (exists m1, (match prev e with
      | Some p => m ← hmodify (set_next (next e)) m p; Ret (first H, m)
      | None => Ret (next e, m) end) = Ret (head_or (A ++ C) None, m1)
    /\ dl cls m1 None A (head_or C None) /\ length m1 = length m /\ (forall l', l' ∉ A.*1 -> m1 !! l' = m !! l'))
    as (m1 & -> & HA1 & Hl1 & Hf1).
  { rewrite Hp, Hn. unfold last_or. destruct A as [|[p dp] A _] using rev_ind; [by exists m|].
    rewrite last_snoc. cbn [head_or] in HA. rewrite fmap_app in HndA. apply NoDup_app in HndA as (_ & HpA & _).
    assert (p ∉ A.*1) as HpA' by (intros Hin; apply (HpA p Hin); by left).
    pose proof HA as HA'. apply dlist_app in HA' as [_ [(pe & Hpe & Hpn & Hpp & Hpc) _]].
    rewrite (hmodify_Some _ _ _ _ Hpe). crun. eexists. split; [|split; [|split]].
    - rewrite Hf, <- !app_assoc. by destruct A as [|[] A].
    - eapply dlist_set_next; [done|exact HA|done..].
    - by rewrite length_insert.
    - intros l' Hl'. apply list_lookup_insert_ne. intros ->. apply Hl'. rewrite fmap_app, elem_of_app. right. by left. }
  crun. rewrite Hn, Hp. destruct C as [|[c dc] C].
  - crun. exists m1, e. rewrite app_nil_r in *. repeat split; try done.
    + by rewrite Hf1.
    + intros l' Hl'. rewrite fmap_app, not_elem_of_app in Hl'. apply Hf1, Hl'.
  - cbn [fmap list_fmap fst head_or] in *. apply not_elem_of_cons in HlC as [Hlc HlC]. apply NoDup_cons in HndC as [HcC HndC].
    assert (c ∉ A.*1) as HcA by (intros Hin; apply (Hdis c Hin); right; by left).
    assert (forall l', l' ∈ C.*1 -> l' ∉ A.*1) as HCA by (intros l' H1 H2; apply (Hdis l' H2); right; by right).
    destruct HC as [(ce & Hce & Hcn & Hcp & Hcc) HC].
    rewrite (hmodify_Some _ m1 c ce) by (by rewrite Hf1). crun. eexists _, e. split; [reflexivity|].
    split; [|split; [|split; [|split]]].
    + apply dlist_app. split; [by apply dlist_insert_other|]. split.
      * exists (set_prev (last_or None A) ce). split; [apply list_lookup_insert_eq; rewrite Hl1; by eapply live_lt|done].
      * apply dlist_insert_other; [done|]. eapply dlist_frame; [|exact HC]. intros l' Hl'. by apply Hf1, HCA.
    + by rewrite length_insert.
    + by rewrite list_lookup_insert_ne, Hf1.
    + done.
    + intros l' Hl'. rewrite fmap_app, not_elem_of_app in Hl'. cbn in Hl'. rewrite !not_elem_of_cons in Hl'.
      rewrite list_lookup_insert_ne by naive_solver. apply Hf1, Hl'.
Qed.

(** The groups after the removal: an emptied group disappears. *)
Definition cut_group (b : Z) (g : list node) : list group := match g with [] => [] | _ => [(b, g)] end.

Lemma cut_group_nodes b g : nodes (cut_group b g) = g.
Proof. destruct g; [done|]. unfold nodes. simpl. by rewrite app_nil_r. Qed.

Lemma groups_ok_cut cls size g1 b ga x gc g2 :
  groups_ok cls size (g1 ++ (b, ga ++ x :: gc) :: g2) ->
  groups_ok cls size (g1 ++ cut_group b (ga ++ gc) ++ g2).
Proof.
  intros Hg. destruct (groups_ok_hit _ _ _ _ _ _ Hg) as (_ & Hall & _).
  destruct (decide (ga ++ gc = [])) as [->|Hne]; [by eapply groups_ok_drop|].
  assert (cut_group b (ga ++ gc) = [(b, ga ++ gc)]) as -> by (by destruct (ga ++ gc)).
  eapply groups_ok_replace; [exact Hg|done|]. apply Forall_app in Hall as [H1 H2].
  inversion_clear H2. by apply Forall_app.
Qed.

(** The entry that the code stores for the bucket. *)
Lemma cut_entry b ga l d gc rest :
  NoDup (ga ++ (l, d) :: gc).*1 ->
  let g : list node := ga ++ (l, d) :: gc in
  let c := if bool_decide (head_or g None = Some l) then head_or (gc ++ rest) None else head_or g None in
  mkEntry (zlen g - 1) (if zlen g - 1 <=? 0 then None else c) = entry_of (bucket b (cut_group b (ga ++ gc))).
Proof.
  intros Hnd g c. assert (zlen g - 1 = zlen (ga ++ gc)) as -> by (unfold g; size).
  assert (bucket b (cut_group b (ga ++ gc)) = ga ++ gc) as ->.
  { destruct (ga ++ gc); [done|]. simpl. by rewrite Z.eqb_refl. }
  unfold entry_of. f_equal. unfold c, g. destruct ga as [|[l' d'] ga].
  - cbn [app head_or]. rewrite bool_decide_true by done. destruct gc as [|[] gc]; [done|].
    by rewrite (proj2 (Z.leb_gt _ _)) by size.
  - cbn [app head_or]. rewrite bool_decide_false; [by rewrite (proj2 (Z.leb_gt _ _)) by size|].
    intros [= ->]. cbn in Hnd. apply NoDup_cons in Hnd as [Hn _]. apply Hn.
    rewrite fmap_app, elem_of_app. right. by left.
Qed.

(** ** The table as a finite map *)

Notation keys gs := ((nodes gs).*2.*1).

Definition hash_map (gs : list group) : gmap (list Z) Z := list_to_map (nodes gs).*2.

Record hash_rep (m : heap HashElem) (H : Hash) (gs : list group) : Prop := {
  hr_class : is_class (keyClass H);
  hr_count : count H = zlen (nodes gs);
  hr_keys : NoDup (keys gs);
  hr_data : Forall (fun x => x.2.2 <> 0) (nodes gs);
  hr_live : forall l e, m !! l = Some (Some e) -> l ∈ (nodes gs).*1;
  hr_table : (gs = [] /\ ht H = None /\ htsize H = 0 /\ first H = None)
             \/ (nodes gs <> [] /\ table_rep m H gs /\ htsize H <= 2 ^ 26);
}.

Lemma hash_map_perm gs gs' : NoDup (keys gs) -> nodes gs ≡ₚ nodes gs' -> hash_map gs = hash_map gs'.
Proof. intros Hnd Hp. apply list_to_map_proper; [done|]. by rewrite Hp. Qed.

Lemma hash_map_in gs l ck d : NoDup (keys gs) -> (l, (ck, d)) ∈ nodes gs -> hash_map gs !! ck = Some d.
Proof.
  intros Hnd Hin. apply elem_of_list_to_map; [done|]. apply list_elem_of_fmap. by exists (l, (ck, d)).
Qed.

Lemma hash_map_notin gs ck : ck ∉ keys gs -> hash_map gs !! ck = None.
Proof. apply not_elem_of_list_to_map. Qed.

Lemma clear_loop_none n m : clear_loop n m None = Ret m.
Proof. by destruct n. Qed.

Lemma removeElement_ok m H gs l ck d :
  hash_rep m H gs -> zlen (nodes gs) < 2 ^ 31 -> (l, (ck, d)) ∈ nodes gs ->
  exists H' m' gs', removeElementGivenHash H l (hash_val (keyClass H) ck mod htsize H) m = Ret (H', m')
    /\ hash_rep m' H' gs' /\ nodes gs ≡ₚ (l, (ck, d)) :: nodes gs'
    /\ keyClass H' = keyClass H /\ copyKey H' = copyKey H.
Proof.
  intros [Hcls Hcnt Hkeys Hdat Hlive Htab] Hlen Hin.
  destruct Htab as [(-> & _)|(_ & Htr & H26)]; [by apply elem_of_nil in Hin|].
  destruct Htr as [_ (k & Hk & Hsz) (t & Ht & Htl & Htb) Hd Hf Hnd Hg].
  destruct (hash_bucket (keyClass H) (htsize H) ck k ltac:(lia) Hsz) as (_ & _ & Hb).
  pose proof (node_bucket _ _ _ _ Hg Hin) as Hinb. cbn [fst snd] in Hinb.
  set (b := hash_val (keyClass H) ck mod htsize H) in *.
  assert (b ∈ gs.*1) as Hbin.
  { destruct (decide (b ∈ gs.*1)) as [|Hni]; [done|]. rewrite bucket_none in Hinb by done. by apply elem_of_nil in Hinb. }
  destruct (bucket_split b gs Hbin) as (g1 & g & g2 & -> & Hn). rewrite bucket_hit in Hinb by done.
  apply list_elem_of_split in Hinb as (ga & gc & ->).
  assert (nodes (g1 ++ (b, ga ++ (l, (ck, d)) :: gc) :: g2) = (nodes g1 ++ ga) ++ (l, (ck, d)) :: gc ++ nodes g2) as Hns.
  { rewrite nodes_app, nodes_cons. by rewrite <- !app_assoc. }
  set (gs' := g1 ++ cut_group b (ga ++ gc) ++ g2).
  assert (nodes gs' = (nodes g1 ++ ga) ++ gc ++ nodes g2) as Hns'.
  { unfold gs'. rewrite !nodes_app, cut_group_nodes. by rewrite <- !app_assoc. }
  assert (nodes (g1 ++ (b, ga ++ (l, (ck, d)) :: gc) :: g2) ≡ₚ (l, (ck, d)) :: nodes gs') as Hperm.
  { rewrite Hns, Hns'. symmetry. apply Permutation_middle. }
  unfold removeElementGivenHash. pose proof Hnd as Hnd0. rewrite Hns in Hd, Hnd, Hf.
  destruct (unlink_ok _ H m _ l (ck, d) _ Hd Hnd Hf) as (m1 & e & -> & Hd1 & Hl1 & He1 & Hn1 & Hfr1). crun.
  rewrite Ht. crun. rewrite (Htb b Hb), bucket_hit by done. crun. rewrite (hload_Some _ _ _ He1). crun.
  cbn [chain hcount entry_of]. rewrite Hn1.
  assert (zlen (ga ++ (l, (ck, d)) :: gc) <= zlen (nodes (g1 ++ (b, ga ++ (l, (ck, d)) :: gc) :: g2))) as Hle.
  { rewrite Hns. size. }
  rewrite (sint_id (zlen (ga ++ (l, (ck, d)) :: gc) - 1)) by (pose proof (zlen_nonneg (ga ++ (l, (ck, d)) :: gc)); lia). crun.
  rewrite (cut_entry b ga l (ck, d) gc (nodes g2)).
  2:{ rewrite nodes_app, nodes_cons in Hnd0. rewrite !fmap_app in Hnd0. rewrite fmap_app.
      apply NoDup_app in Hnd0 as (_ & _ & Hnd0). by apply NoDup_app in Hnd0 as (Hnd0 & _). }
  rewrite wr_Some by lia. crun. rewrite (hfree_Some _ _ _ He1). crun. rewrite Hcnt.
  assert (zlen (nodes (g1 ++ (b, ga ++ (l, (ck, d)) :: gc) :: g2)) = zlen (nodes gs') + 1) as Hcnt'.
  { unfold zlen. rewrite Hperm. simpl. lia. }
  rewrite Hcnt' in *. pose proof (zlen_nonneg (nodes gs')). replace (zlen (nodes gs') + 1 - 1) with (zlen (nodes gs')) by lia.
  rewrite sint_id by lia. crun. rewrite <- Hns'.
  assert (l ∉ (nodes gs').*1) as Hlni.
  { rewrite Hperm in Hnd0. cbn in Hnd0. by apply NoDup_cons in Hnd0 as [? _]. }
  assert (forall l0 e0, <[l:=None]> m1 !! l0 = Some (Some e0) -> l0 ∈ (nodes gs').*1) as Hlive'.
  { intros l0 e0 Hl0. destruct (decide (l0 = l)) as [->|Hne].
    - rewrite list_lookup_insert_eq in Hl0 by (by eapply live_lt). done.
    - rewrite list_lookup_insert_ne in Hl0 by done.
      destruct (decide (l0 ∈ (nodes (g1 ++ (b, ga ++ (l, (ck, d)) :: gc) :: g2)).*1)) as [Hin'|Hni'].
      + rewrite Hperm in Hin'. cbn in Hin'. by apply elem_of_cons in Hin' as [->|?].
      + rewrite Hfr1 in Hl0 by (by rewrite <- Hns). by apply Hlive in Hl0. }
  rewrite Hperm in Hkeys, Hdat. cbn in Hkeys. apply NoDup_cons in Hkeys as [_ Hkeys]. inversion_clear Hdat as [|? ? _ Hdat'].
  destruct (decide (nodes gs' = [])) as [Hemp|Hne].
  - rewrite Hemp in *. cbn [first count keyClass copyKey]. rewrite bool_decide_true by done.
    change (zlen (@nil node)) with 0. cbn [Z.leb Z.compare Z.eqb head_or c_assert]. crun. unfold sqlite3HashClear.
    cbn [first keyClass copyKey]. rewrite clear_loop_none. crun. eexists _, _, []. split; [reflexivity|].
    split; [|done]. split; try done. by left.
  - rewrite (proj2 (Z.leb_gt (zlen (nodes gs')) 0)) by (destruct (nodes gs'); [done|size]).
    eexists _, _, gs'. split; [reflexivity|]. split; [|done]. split; try done. right. split; [done|]. split; [|done].
    split; cbn [keyClass htsize ht first]; try done.
    + by exists k.
    + eexists. split; [reflexivity|]. split; [by rewrite zlen_insert|]. intros b' Hb'.
      destruct (groups_ok_hit _ _ _ _ _ _ Hg) as (_ & _ & _ & Hn2).
      destruct (decide (b' = b)) as [->|Hneb].
      * rewrite rd_insert_eq by lia. unfold gs'. rewrite bucket_app by done. do 2 f_equal.
        destruct (ga ++ gc); cbn [cut_group app bucket]; [by rewrite bucket_none|]. by rewrite Z.eqb_refl.
      * rewrite rd_insert_ne, Htb by lia. f_equal. f_equal.
        apply (bucket_other b b' g1 g2 [_]); [by repeat constructor|destruct (ga ++ gc); by repeat constructor|done].
    + apply dlist_insert_other; [done|]. by rewrite Hns'.
    + rewrite Hperm in Hnd0. cbn in Hnd0. by apply NoDup_cons in Hnd0 as [_ ?].
    + by eapply groups_ok_cut.
Qed.

(** What one call of [sqlite3HashInsert] may do to the map: [r] is returned. *)
Inductive map_step (ck : list Z) (data : Z) (M : gmap (list Z) Z) : Z -> gmap (list Z) Z -> Prop :=
| step_put : data <> 0 -> map_step ck data M (default 0 (M !! ck)) (<[ck := data]> M)
| step_delete : data = 0 -> map_step ck data M (default 0 (M !! ck)) (delete ck M)
| step_nomem : data <> 0 -> M !! ck = None -> map_step ck data M data M.

Section insert.
Context (tg : target) (junk : HashElem).

(** The table and the heap behind an insertion. *)
Definition insert_post (m : heap HashElem) (H : Hash) (gs : list group) (o : list bool)
    (ck : list Z) (data : Z) (out : res (Z * Hash * heap HashElem * list bool)) : Prop :=
  exists r H' m' o' gs', out = Ret (r, H', m', o')
    /\ hash_rep m' H' gs' /\ map_step ck data (hash_map gs) r (hash_map gs')
    /\ zlen (nodes gs') <= zlen (nodes gs) + 1
    /\ keyClass H' = keyClass H
    /\ (Forall (eq true) o -> Forall (eq true) o' /\ (data <> 0 -> r = default 0 (hash_map gs !! ck))).

Lemma find_rep m H gs key n ck :
  hash_rep m H gs -> key_ok (keyClass H) key n ck ->
  exists r, insert_find H m key n (hash_val (keyClass H) ck) = Ret r
    /\ match r with
       | Some (l, h) => h = hash_val (keyClass H) ck mod htsize H /\ exists d, (l, (ck, d)) ∈ nodes gs
       | None => ck ∉ keys gs
       end.
Proof.
  intros [Hcls _ _ _ _ Htab] Hk. unfold insert_find.
  destruct Htab as [(-> & _ & -> & _)|(_ & Htr & _)].
  - exists None. split; [done|]. apply not_elem_of_nil.
  - destruct (tr_size _ _ _ Htr) as (k & Hk' & Hsz).
    destruct (hash_bucket (keyClass H) (htsize H) ck k ltac:(lia) Hsz) as (-> & _ & Hb).
    rewrite (proj2 (Z.eqb_neq (htsize H) 0)) by lia.
    destruct (find_ok m H gs key n ck Htr Hk) as (r & -> & Hr). crun. eexists. split; [reflexivity|]. by destruct r.
Qed.

(** Replacing the data of an element that is there. *)
Lemma replace_ok m H gs l ck d d' e e' :
  hash_rep m H gs -> (l, (ck, d)) ∈ nodes gs -> d' <> 0 -> m !! l = Some (Some e) ->
  next e' = next e -> prev e' = prev e -> content (keyClass H) e' (ck, d') ->
  exists gs', hash_rep (<[l := Some e']> m) H gs' /\ hash_map gs' = <[ck := d']> (hash_map gs)
    /\ zlen (nodes gs') = zlen (nodes gs).
Proof.
  intros [Hcls Hcnt Hkeys Hdat Hlive Htab] Hin Hd' He Hn Hp Hc.
  destruct Htab as [(-> & _)|(Hne & Htr & H26)]; [by apply elem_of_nil in Hin|].
  pose proof (table_set _ _ _ _ _ _ _ _ _ Htr Hin He Hn Hp Hc) as Htr'.
  pose proof (tr_locs _ _ _ Htr) as Hnd. pose proof Hin as Hin'.
  apply list_elem_of_split in Hin' as (a & c & Hac).
  assert (nodes (set_node l (ck, d') gs) = a ++ (l, (ck, d')) :: c) as Hns.
  { rewrite set_node_nodes, Hac. rewrite Hac in Hnd. rewrite fmap_app in Hnd. cbn in Hnd.
    apply NoDup_app in Hnd as (_ & Hdis & Hnd). apply NoDup_cons in Hnd as [Hlc _].
    assert (l ∉ a.*1) as Hla by (intros Hx; apply (Hdis l Hx); by left).
    unfold set_nodes. rewrite fmap_app. cbn [fmap list_fmap fst]. rewrite decide_True by done.
    fold (set_nodes l (ck, d') a). fold (set_nodes l (ck, d') c). by rewrite !set_nodes_other. }
  assert (keys (set_node l (ck, d') gs) = keys gs) as Hks by (rewrite Hns, Hac, !fmap_app; done).
  exists (set_node l (ck, d') gs). split; [|split].
  - split; try done.
    + rewrite Hcnt, Hns, Hac. size.
    + by rewrite Hks.
    + rewrite Hns. rewrite Hac in Hdat. apply Forall_app in Hdat as [H1 H2]. inversion_clear H2.
      apply Forall_app. split; [done|]. by constructor.
    + intros l0 e0 Hl0. rewrite set_node_nodes, set_nodes_locs.
      destruct (decide (l0 = l)) as [->|Hne0].
      * rewrite list_elem_of_fmap. by exists (l, (ck, d)).
      * rewrite list_lookup_insert_ne in Hl0 by done. by eapply Hlive.
    + right. split; [rewrite Hns; by destruct a|done].
  - rewrite (hash_map_perm (set_node l (ck, d') gs) ((0, (l, (ck, d')) :: a ++ c) :: [])).
    + rewrite (hash_map_perm gs ((0, (l, (ck, d)) :: a ++ c) :: [])); [|done|].
      * unfold hash_map. rewrite !nodes_cons. cbn. by rewrite insert_insert_eq.
      * rewrite Hac, nodes_cons, app_nil_r. symmetry. apply Permutation_middle.
    + by rewrite Hks.
    + rewrite Hns, nodes_cons, app_nil_r. symmetry. apply Permutation_middle.
  - rewrite Hns, Hac. size.
Qed.

(** Freeing a block that is in no list changes nothing. *)
Lemma rep_grow m H gs x :
  hash_rep m H gs -> hash_rep (m ++ [x]) H gs \/ exists e, x = Some e.
Proof.
  intros [Hcls Hcnt Hkeys Hdat Hlive Htab]. destruct x as [e|]; [right; by exists e|left]. split; try done.
  - intros l e Hl. apply lookup_app_Some in Hl as [Hl|[Hge Hl]]; [by eapply Hlive|].
    by apply list_lookup_singleton_Some in Hl as [_ Hl].
  - destruct Htab as [Htab|(Hne & [? ? ? Hd ? ? ?] & H26)]; [by left|right]. split; [done|]. split; [|done].
    split; try done. by apply dlist_grow.
Qed.

(** The element and its key are allocated, or nothing stays allocated. *)
Lemma insert_alloc_ok H m o key n ck :
  key_ok (keyClass H) key n ck ->
  exists r m' o', insert_alloc junk H m o key n = Ret (r, m', o')
    /\ (Forall (eq true) o -> Forall (eq true) o' /\ is_Some r)
    /\ match r with
       | Some l => l = length m /\ exists key', m' = m ++ [Some (set_key key' junk)] /\ key_ok (keyClass H) key' n ck
       | None => m' = m \/ m' = m ++ [None]
       end.
Proof.
  intros Hk. unfold insert_alloc. destruct (halloc_cases m o junk) as (b & o1 & _ & Ho & ->).
  destruct b; [|exists None, m, o1; split; [done|]; split; [intros Ht; by destruct (Ho Ht)|by left]].
  assert ((m ++ [Some junk]) !! length m = Some (Some junk)) as Hl by (by apply list_lookup_middle).
  assert (forall x, <[length m := x]> (m ++ [Some junk]) = m ++ [x]) as Hins.
  { intros x. rewrite insert_app_r_alt by lia. by rewrite Nat.sub_diag. }
  destruct Hk as (z & -> & Hv & Hc). rewrite (bool_decide_true (Some z <> None)) by done.
  destruct (copyKey H); cbn [andb].
  - destruct (next_alloc o1) as [b2 o2] eqn:Eo.
    pose proof (next_alloc_all _ _ _ Eo) as Ho2.
    destruct b2.
    + destruct Hv as (Hn & Hm & Hb & Hnul). change (kmem (Some z)) with z. rewrite decide_True by lia.
      rewrite (hmodify_Some _ _ _ _ Hl). crun. rewrite Hins. eexists (Some _), _, o2. split; [reflexivity|].
      split; [intros Ht; split; [by apply Ho2, Ho|done]|]. split; [done|]. eexists. split; [reflexivity|].
      eexists. split; [reflexivity|]. split.
      * repeat split; try lia; [size|by apply Forall_take|]. intros Hs. rewrite take_take.
        replace (Z.to_nat (n - 1) `min` Z.to_nat n)%nat with (Z.to_nat (n - 1)) by lia. by apply Hnul.
      * rewrite <- Hc. unfold canon. by rewrite take_take, Nat.min_id.
    + rewrite (hfree_Some _ _ _ Hl). crun. rewrite Hins. eexists None, _, o2. split; [reflexivity|].
      split; [|by right]. intros Ht. destruct (Ho2 (proj2 (Ho Ht))). done.
  - rewrite (hmodify_Some _ _ _ _ Hl). crun. rewrite Hins. eexists (Some _), _, o1. split; [reflexivity|].
    split; [intros Ht; split; [by apply Ho|done]|]. split; [done|]. exists (Some z). split; [done|]. by exists z.
Qed.

Lemma table_rep_count m H gs c : table_rep m H gs -> table_rep m (with_count c H) gs.
Proof. by intros [? ? ? ? ? ? ?]. Qed.

Lemma place_ok m H gs o l e ck data :
  table_rep m H gs -> htsize H <= 2 ^ 26 -> count H = zlen (nodes gs) + 1 -> zlen (nodes gs) + 1 < 2 ^ 31 ->
  NoDup (keys gs) -> Forall (fun x => x.2.2 <> 0) (nodes gs) ->
  (forall l' e', m !! l' = Some (Some e') -> l' = l \/ l' ∈ (nodes gs).*1) ->
  l ∉ (nodes gs).*1 -> m !! l = Some (Some e) -> key_ok (keyClass H) (pKey e) (nKey e) ck ->
  ck ∉ keys gs -> data <> 0 ->
  exists H' m' gs', insert_place H m o l (hash_val (keyClass H) ck) data = Ret (0, H', m', o)
    /\ hash_rep m' H' gs' /\ hash_map gs' = <[ck := data]> (hash_map gs)
    /\ zlen (nodes gs') = zlen (nodes gs) + 1 /\ keyClass H' = keyClass H.
Proof.
  intros Htr H26 Hcnt Hlen Hkeys Hdat Hlive Hl He Hk Hck Hd. unfold insert_place.
  destruct (tr_size _ _ _ Htr) as (k & Hk' & Hsz).
  destruct (hash_bucket (keyClass H) (htsize H) ck k ltac:(lia) Hsz) as (-> & _ & Hb).
  rewrite (proj2 (Z.ltb_lt 0 (htsize H))) by lia. crun.
  destruct (insertElement_ok m H gs l (ck, edata e) e Htr Hl He) as (H' & m1 & gs1 & Hrun & Htr1 & Hins & Hsf & Hlm & Hfr);
    [done|done|]. cbn [fst] in Hrun, Hins. rewrite Hrun. crun. clear Hrun.
  pose proof (inserted_nodes _ _ _ _ Hins) as Hp. destruct Hsf as (Hs1 & Hs2 & Hs3 & Hs4).
  assert ((l, (ck, edata e)) ∈ nodes gs1) as Hin by (rewrite Hp; by left).
  assert (keys gs1 ≡ₚ ck :: keys gs) as Hkp by (by rewrite Hp).
  assert (exists e1, m1 !! l = Some (Some e1) /\ content (keyClass H') e1 (ck, edata e)) as (e1 & He1 & Hc1).
  { pose proof (tr_list _ _ _ Htr1) as Hd1. apply list_elem_of_split in Hin as (a & c & Hac). rewrite Hac in Hd1.
    apply dlist_app in Hd1 as [_ [(e1 & He1 & _ & _ & Hc1) _]]. by exists e1. }
  rewrite (hmodify_Some _ _ _ _ He1). crun. exists H', (<[l := Some (set_data data e1)]> m1).
  pose proof (table_set m1 H' gs1 l e1 (set_data data e1) ck (edata e) data Htr1 Hin He1 eq_refl eq_refl) as Htr2.
  assert (content (keyClass H') (set_data data e1) (ck, data)) as Hc2 by (split; [apply Hc1|done]). specialize (Htr2 Hc2).
  assert (nodes (set_node l (ck, data) gs1) ≡ₚ (l, (ck, data)) :: nodes gs) as Hp2.
  { rewrite set_node_nodes. unfold set_nodes. rewrite Hp. cbn [fmap list_fmap fst]. rewrite decide_True by done.
    fold (set_nodes l (ck, data) (nodes gs)). by rewrite set_nodes_other. }
  assert (keys (set_node l (ck, data) gs1) ≡ₚ ck :: keys gs) as Hkp2 by (by rewrite Hp2).
  exists (set_node l (ck, data) gs1). split; [reflexivity|]. split; [|split; [|split; [|done]]].
  - split.
    + by rewrite Hs1; apply Htr.
    + rewrite Hs3, Hcnt. unfold zlen. rewrite Hp2. simpl. lia.
    + rewrite Hkp2. by constructor.
    + rewrite Hp2. by constructor.
    + intros l' e' Hl'. rewrite set_node_nodes, set_nodes_locs, Hp. cbn. rewrite elem_of_cons.
      destruct (decide (l' = l)) as [|Hne]; [by left|]. right. rewrite list_lookup_insert_ne in Hl' by done.
      destruct (decide (l' ∈ (nodes gs1).*1)) as [Hi|Hni].
      * rewrite Hp in Hi. cbn in Hi. by apply elem_of_cons in Hi as [->|?].
      * rewrite Hfr in Hl' by done. by destruct (Hlive l' e' Hl').
    + right. split; [intros Hn0; rewrite Hn0 in Hp2; by apply Permutation_nil_cons in Hp2|]. by rewrite Hs4.
  - rewrite (hash_map_perm _ ((0, (l, (ck, data)) :: nodes gs) :: [])).
    + unfold hash_map. rewrite nodes_cons. cbn. by rewrite app_nil_r.
    + rewrite Hkp2. by constructor.
    + by rewrite nodes_cons, app_nil_r.
  - unfold zlen. rewrite Hp2. simpl. lia.
Qed.

(** The new element ends up in the table, or is freed for want of a table. *)
Lemma attach_ok m H gs o e ck data :
  hash_rep m H gs -> zlen (nodes gs) + 1 < 2 ^ 25 -> key_ok (keyClass H) (pKey e) (nKey e) ck ->
  ck ∉ keys gs -> data <> 0 ->
  insert_post m H gs o ck data
    (insert_attach tg H (m ++ [Some e]) o (length m) (hash_val (keyClass H) ck) data).
Proof.
  intros Hrep Hlen Hk Hck Hd. pose proof Hrep as [Hcls Hcnt Hkeys Hdat Hlive Htab].
  assert ((m ++ [Some e]) !! length m = Some (Some e)) as He by (by apply list_lookup_middle).
  assert (length m ∉ (nodes gs).*1) as Hl.
  { destruct Htab as [(-> & _)|(_ & Htr & _)]; [apply not_elem_of_nil|]. intros Hin.
    destruct (dlist_live _ _ _ _ _ _ _ _ (tr_list _ _ _ Htr) Hin) as (a & Ha). apply live_lt in Ha. lia. }
  assert (forall l' e', (m ++ [Some e]) !! l' = Some (Some e') -> l' = length m \/ l' ∈ (nodes gs).*1) as Hlive'.
  { intros l' e' Hl'. apply lookup_app_Some in Hl' as [Hl'|[Hge Hl']]; [right; by eapply Hlive|].
    apply list_lookup_singleton_Some in Hl' as [Hz _]. left. lia. }
  unfold insert_attach. rewrite Hcnt. pose proof (zlen_nonneg (nodes gs)). rewrite sint_id by lia. crun.
  cbn [htsize with_count]. unfold insert_post.
  assert (forall H2 m2 gs2 o2, table_rep m2 H2 gs2 -> htsize H2 <= 2 ^ 26 -> count H2 = zlen (nodes gs) + 1 ->
    keyClass H2 = keyClass H -> nodes gs2 ≡ₚ nodes gs ->
    (forall l, l ∉ (nodes gs2).*1 -> m2 !! l = (m ++ [Some e]) !! l) ->
    (Forall (eq true) o -> Forall (eq true) o2) ->
    insert_post m H gs o ck data (insert_place H2 m2 o2 (length m) (hash_val (keyClass H) ck) data)) as Hfin.
  { intros H2 m2 gs2 o2 Htr2 H26 Hc2 Hk2 Hp2 Hfr2 Ho2.
    assert (zlen (nodes gs2) = zlen (nodes gs)) as Hz by (unfold zlen; by rewrite Hp2).
    destruct (place_ok m2 H2 gs2 o2 (length m) e ck data Htr2 H26) as (H' & m' & gs' & Hrun & Hrep' & Hmap & Hlen' & Hcl').
    - lia.
    - lia.
    - by rewrite Hp2.
    - by rewrite Hp2.
    - intros l' e' Hl'. destruct (decide (l' ∈ (nodes gs2).*1)) as [|Hni]; [by right|].
      rewrite Hfr2 in Hl' by done. rewrite Hp2. by eapply Hlive'.
    - by rewrite Hp2.
    - rewrite Hfr2; [done|]. by rewrite Hp2.
    - by rewrite Hk2.
    - by rewrite Hp2.
    - done.
    - exists 0, H', m', o2, gs'. rewrite <- Hk2. split; [done|]. split; [done|].
      assert (hash_map gs2 = hash_map gs) as Hm by (apply hash_map_perm; [by rewrite Hp2|done]).
      pose proof (hash_map_notin gs ck Hck) as Hnone. rewrite Hmap, Hm, Hnone. split; [|split; [lia|split; [congruence|]]].
      + replace 0 with (default 0 (hash_map gs !! ck)) by (by rewrite Hnone). by apply step_put.
      + intros Ht. by split; [apply Ho2|]. }
  destruct Htab as [(-> & Hht & Hsz & Hf)|(Hne & Htr & H26)].
  - rewrite Hsz. cbn [Z.eqb]. set (H1 := with_count _ H).
    destruct (rehash_ok tg (m ++ [Some e]) H1 [] (128 / sizeof_ht tg) (match tg with ILP32 => 4 | LP64 => 3 end) o)
      as (b & o' & Eo & Hcase); try done; try (by destruct tg); [constructor|].
    pose proof (next_alloc_all _ _ _ Eo) as Ho.
    destruct b.
    + destruct Hcase as (H' & m' & gs' & -> & Htr' & Hp & Hlm & (Hc1 & Hc2 & Hc3 & Hc4) & Hfr). crun.
      rewrite Hc4, Hc3, (proj2 (Z.eqb_neq (128 / sizeof_ht tg) 0)) by (by destruct tg).
      cbn [count H1 with_count]. change (zlen (nodes [])) with 0 in *.
      rewrite (proj2 (Z.ltb_ge (128 / sizeof_ht tg) (0 + 1))) by (destruct tg; done). crun.
      apply (Hfin H' m' gs' o'); try done; [rewrite Hc4; by destruct tg|].
      intros Ht. by apply Ho.
    + rewrite Hcase. crun. cbn [htsize H1 with_count]. rewrite Hsz. cbn [Z.eqb].
      rewrite (hfree_Some _ _ _ He). crun.
      assert (<[length m := None]> (m ++ [Some e]) = m ++ [None]) as ->.
      { rewrite insert_app_r_alt by lia. by rewrite Nat.sub_diag. }
      destruct (rep_grow m H [] None Hrep) as [Hg|[? ?]]; [|done].
      eexists _, _, _, _, []. split; [reflexivity|]. split; [|split; [|split; [done|split; [done|]]]].
      * destruct Hg as [G1 G2 G3 G4 G5 G6]. split; try done. left. done.
      * by apply step_nomem.
      * intros Ht. by destruct (Ho Ht).
  - destruct (tr_size _ _ _ Htr) as (k & Hk' & Hsz). pose proof (pow2_pos k ltac:(lia)).
    rewrite (proj2 (Z.eqb_neq (htsize H) 0)) by lia. crun. cbn [htsize with_count count].
    rewrite (proj2 (Z.eqb_neq (htsize H) 0)) by lia.
    assert (table_rep (m ++ [Some e]) (with_count (zlen (nodes gs) + 1) H) gs) as Htr'.
    { apply table_rep_count. destruct Htr as [? ? ? Hdl ? ? ?]. split; try done. by apply dlist_grow. }
    destruct (Z.ltb_spec (htsize H) (zlen (nodes gs) + 1)) as [Hgt|Hle].
    + rewrite (sint_id (htsize H * 2)) by lia. crun.
      assert (0 < sizeof_ht tg <= 16) by (by destruct tg).
      destruct (rehash_ok tg (m ++ [Some e]) (with_count (zlen (nodes gs) + 1) H) (nodes gs) (htsize H * 2) (k + 1) o)
        as (b & o' & Eo & Hcase); try apply Htr'; [lia|rewrite Hsz, Z.pow_add_r by lia; lia|nia|lia|].
      pose proof (next_alloc_all _ _ _ Eo) as Ho.
      destruct b.
      * destruct Hcase as (H' & m' & gs' & -> & Htr2 & Hp & Hlm & (Hc1 & Hc2 & Hc3 & Hc4) & Hfr). crun.
        apply (Hfin H' m' gs' o'); try done; [lia|]. intros Ht. by apply Ho.
      * rewrite Hcase. crun. apply (Hfin _ _ gs o'); try done. intros Ht. by apply Ho.
    + crun. by apply (Hfin _ _ gs o).
Qed.

Lemma insert_ok m H gs o key n ck data :
  hash_rep m H gs -> zlen (nodes gs) + 1 < 2 ^ 25 -> key_ok (keyClass H) key n ck ->
  insert_post m H gs o ck data (sqlite3HashInsert tg junk H m o key n data).
Proof.
  intros Hrep Hlen Hk. pose proof Hrep as [Hcls Hcnt Hkeys Hdat Hlive Htab]. unfold sqlite3HashInsert.
  rewrite hashFunction_class by done. crun. rewrite (hash_fn_ok _ _ _ ck Hcls Hk). crun.
  destruct (find_rep m H gs key n ck Hrep Hk) as (r & -> & Hr). crun. destruct r as [[l h]|].
  - destruct Hr as (-> & d & Hin). destruct Htab as [(-> & _)|(_ & Htr & _)]; [by apply elem_of_nil in Hin|].
    assert (exists e, m !! l = Some (Some e) /\ content (keyClass H) e (ck, d)) as (e & He & Hc).
    { pose proof (tr_list _ _ _ Htr) as Hd. pose proof Hin as Hin'. apply list_elem_of_split in Hin' as (a & c & Hac).
      rewrite Hac in Hd. apply dlist_app in Hd as [_ [(e & He & _ & _ & Hc) _]]. by exists e. }
    rewrite (hload_Some _ _ _ He). crun. destruct Hc as [Hce Hcd]. cbn [fst snd] in Hce, Hcd. rewrite Hcd.
    pose proof (hash_map_in gs l ck d Hkeys Hin) as Hm.
    assert (d = default 0 (hash_map gs !! ck)) as Hdm by (by rewrite Hm).
    destruct (Z.eqb_spec data 0) as [->|Hd0].
    + destruct (removeElement_ok m H gs l ck d Hrep ltac:(lia) Hin) as (H' & m' & gs' & -> & Hrep' & Hp & Hs1 & Hs2).
      crun. exists d, H', m', o, gs'. split; [done|]. split; [done|]. split; [|split; [|by split]].
      * replace (hash_map gs') with (delete ck (hash_map gs)); [rewrite Hdm at 1; by apply step_delete|].
        rewrite (hash_map_perm gs ((0, (l, (ck, d)) :: nodes gs') :: [])); [|done|by rewrite nodes_cons, app_nil_r].
        unfold hash_map. rewrite nodes_cons. cbn. rewrite app_nil_r, delete_insert_eq. apply delete_id.
        apply not_elem_of_list_to_map. rewrite Hp in Hkeys. cbn in Hkeys. by apply NoDup_cons in Hkeys as [? _].
      * unfold zlen. rewrite Hp. simpl. lia.
    + rewrite (hmodify_Some _ _ _ _ He). crun.
      assert ((<[l := Some (set_data data e)]> m) !! l = Some (Some (set_data data e))) as He1.
      { apply list_lookup_insert_eq. by eapply live_lt. }
      assert (n = nKey e) as Hnk.
      { destruct Hk as (z1 & -> & (Hv1 & _) & Hck1), Hce as (z2 & _ & (Hv2 & _) & Hck2).
        rewrite <- (canon_length (keyClass H) z1 n), <- (canon_length (keyClass H) z2 (nKey e)) by done. congruence. }
      assert (exists e', next e' = next e /\ prev e' = prev e /\ content (keyClass H) e' (ck, data) /\
        (if copyKey H then Ret (<[l := Some (set_data data e)]> m)
         else hmodify (set_key key) (<[l := Some (set_data data e)]> m) l) = Ret (<[l := Some e']> m))
        as (e' & Hn' & Hp' & Hc' & ->).
      { destruct (copyKey H).
        - exists (set_data data e). by repeat split.
        - exists (set_key key (set_data data e)). repeat split; [|by rewrite (hmodify_Some _ _ _ _ He1), list_insert_insert_eq].
          cbn. by rewrite <- Hnk. }
      crun. rewrite (proj2 (Z.eqb_eq n (nKey e))) by done. crun.
      destruct (replace_ok m H gs l ck d data e e' Hrep Hin Hd0 He Hn' Hp' Hc') as (gs' & Hrep' & Hmap & Hlen').
      exists d, H, (<[l := Some e']> m), o, gs'. split; [done|]. split; [done|]. rewrite Hmap, Hdm.
      split; [by apply step_put|]. split; [lia|]. by rewrite <- Hdm.
  - pose proof (hash_map_notin gs ck Hr) as Hm. destruct (Z.eqb_spec data 0) as [->|Hd0].
    + exists 0, H, m, o, gs. split; [done|]. split; [done|]. split; [|split; [lia|by split]].
      rewrite <- (delete_id (hash_map gs) ck) at 2 by done.
      replace 0 with (default 0 (hash_map gs !! ck)) at 2 by (by rewrite Hm). by apply step_delete.
    + destruct (insert_alloc_ok H m o key n ck Hk) as (r & m1 & o1 & -> & Ho & Hr'). crun. destruct r as [l|].
      * destruct Hr' as (-> & key' & -> & Hk').
        rewrite (hmodify_Some _ _ _ (set_key key' junk)) by (by apply list_lookup_middle). crun.
        assert (<[length m := Some (set_nKey n (set_key key' junk))]> (m ++ [Some (set_key key' junk)])
                = m ++ [Some (set_nKey n (set_key key' junk))]) as ->.
        { rewrite insert_app_r_alt by lia. by rewrite Nat.sub_diag. }
        destruct (attach_ok m H gs o1 (set_nKey n (set_key key' junk)) ck data Hrep Hlen Hk' Hr Hd0)
          as (r & H' & m' & o' & gs' & -> & Hrep' & Hst & Hle & Hcl & Hall).
        exists r, H', m', o', gs'. do 5 (split; [done|]). intros Ht. by apply Hall, Ho.
      * assert (hash_rep m1 H gs) as Hrep1.
        { destruct Hr' as [-> | ->]; [done|]. by destruct (rep_grow m H gs None Hrep) as [|[? ?]]. }
        exists data, H, m1, o1, gs. split; [done|]. split; [done|]. split; [by apply step_nomem|].
        split; [lia|]. split; [done|]. intros Ht. by destruct (Ho Ht) as [_ [? ?]].
Qed.

End insert.

Lemma hash_find_ok m H gs key n ck :
  hash_rep m H gs -> key_ok (keyClass H) key n ck ->
  sqlite3HashFind H m key n = Ret (default 0 (hash_map gs !! ck)).
Proof.
  intros [Hcls _ Hkeys _ _ Htab] Hk. unfold sqlite3HashFind, sqlite3HashFindElem.
  destruct Htab as [(-> & -> & _)|(_ & Htr & _)]; [done|].
  destruct (tr_table _ _ _ Htr) as (t & -> & _). rewrite hashFunction_class by done. crun.
  rewrite (hash_fn_ok _ _ _ ck Hcls Hk). crun. destruct (tr_size _ _ _ Htr) as (k & Hk' & Hsz).
  destruct (hash_bucket (keyClass H) (htsize H) ck k ltac:(lia) Hsz) as (-> & _ & Hb).
  rewrite (proj2 (Z.eqb_neq (htsize H) 0)) by lia.
  destruct (find_ok m H gs key n ck Htr Hk) as (r & -> & Hr). crun. destruct r as [l|].
  - destruct Hr as (d & Hin). rewrite (hash_map_in gs l ck d Hkeys Hin).
    pose proof (tr_list _ _ _ Htr) as Hd. apply list_elem_of_split in Hin as (a & c & Hac).
    rewrite Hac in Hd. apply dlist_app in Hd as [_ [(e & He & _ & _ & _ & Hdat) _]].
    rewrite (hload_Some _ _ _ He). crun. by rewrite Hdat.
  - by rewrite (hash_map_notin gs ck Hr).
Qed.

Lemma hash_list m H gs : hash_rep m H gs ->
  dl (keyClass H) m None (nodes gs) None /\ first H = head_or (nodes gs) None /\ NoDup (nodes gs).*1.
Proof.
  intros [_ _ _ _ _ [(-> & _ & _ & ->)|(_ & Htr & _)]]; [repeat split; constructor|]. by destruct Htr.
Qed.

Lemma hash_walk_ok cls m ns : forall fuel p,
  dl cls m p ns None -> (length ns <= fuel)%nat -> hash_walk fuel m (head_or ns None) = Ret (snd <$> ns.*2).
Proof.
  induction ns as [|[l d] ns IH]; intros fuel p Hd Hf; [by destruct fuel|].
  destruct fuel as [|fuel]; [simpl in Hf; lia|]. destruct Hd as [(e & He & Hn & _ & _ & Hdat) Hd].
  cbn [hash_walk head_or]. rewrite (hload_Some _ _ _ He). crun. rewrite Hn, (IH fuel (Some l)); [|done|simpl in Hf; lia].
  crun. by rewrite Hdat.
Qed.

Lemma hash_clear_loop_ok cls ns : forall m fuel p,
  dl cls m p ns None -> NoDup ns.*1 -> (length ns <= fuel)%nat ->
  exists m', clear_loop fuel m (head_or ns None) = Ret m' /\ length m' = length m
    /\ (forall l, l ∈ ns.*1 -> m' !! l = Some None) /\ (forall l, l ∉ ns.*1 -> m' !! l = m !! l).
Proof.
  induction ns as [|[l d] ns IH]; intros m fuel p Hd Hnd Hf.
  - exists m. rewrite clear_loop_none. repeat split; try done. intros l Hl. by apply elem_of_nil in Hl.
  - destruct fuel as [|fuel]; [simpl in Hf; lia|]. destruct Hd as [(e & He & Hn & _) Hd].
    cbn in Hnd. apply NoDup_cons in Hnd as [Hl Hnd].
    cbn [clear_loop head_or]. rewrite (hload_Some _ _ _ He). crun. rewrite (hfree_Some _ _ _ He). crun. rewrite Hn.
    destruct (IH (<[l := None]> m) fuel (Some l)) as (m' & -> & Hlen & Hin & Hout).
    + by apply dlist_insert_other.
    + done.
    + simpl in Hf. lia.
    + exists m'. split; [done|]. split; [by rewrite Hlen, length_insert|]. cbn. split.
      * intros l' [->|Hl']%elem_of_cons; [|by apply Hin]. rewrite Hout by done.
        apply list_lookup_insert_eq. by eapply live_lt.
      * intros l' Hl'. apply not_elem_of_cons in Hl' as [Hne Hl']. rewrite Hout by done.
        by rewrite list_lookup_insert_ne by congruence.
Qed.

Lemma hash_clear_ok m H gs :
  hash_rep m H gs ->
  exists m', sqlite3HashClear H m = Ret (mkHash (keyClass H) (copyKey H) 0 0 None None, m') /\ Forall (eq None) m'.
Proof.
  intros Hrep. destruct (hash_list m H gs Hrep) as (Hd & Hf & Hnd). unfold sqlite3HashClear. rewrite Hf.
  destruct (hash_clear_loop_ok _ _ m (length m) None Hd Hnd) as (m' & -> & Hlen & Hin & Hout); [by eapply locs_length|].
  crun. exists m'. split; [done|]. apply Forall_lookup. intros l [e|] Hl; [exfalso|done].
  destruct (decide (l ∈ (nodes gs).*1)) as [Hi|Hni]; [by rewrite Hin in Hl|]. rewrite Hout in Hl by done.
  by apply Hni, (hr_live _ _ _ Hrep l e).
Qed.

(** ** A table under a client *)

Inductive hash_op := HInsert (key : list Z) (n data : Z) | HFind (key : list Z) (n : Z).

Definition op_key (op : hash_op) : list Z * Z :=
  match op with HInsert key n _ => (key, n) | HFind key n => (key, n) end.

Fixpoint hash_run (tg : target) (junk : HashElem) (ops : list hash_op) (H : Hash) (m : heap HashElem)
    (o : list bool) : res (list Z * Hash * heap HashElem) :=
  match ops with
  | [] => Ret ([], H, m)
  | HInsert key n data :: ops =>
      '(r, H, m, o) ← sqlite3HashInsert tg junk H m o (Some key) n data;
      '(outs, H, m) ← hash_run tg junk ops H m o; Ret (r :: outs, H, m)
  | HFind key n :: ops =>
      r ← sqlite3HashFind H m (Some key) n;
      '(outs, H, m) ← hash_run tg junk ops H m o; Ret (r :: outs, H, m)
  end.

(** The answers that a finite map gives; [may_fail]: an insertion may be refused. *)
Inductive map_answers (cls : Z) (may_fail : bool) :
    list hash_op -> list Z -> gmap (list Z) Z -> gmap (list Z) Z -> Prop :=
| ma_nil M : map_answers cls may_fail [] [] M M
| ma_insert key n data ops r outs M M1 M2 :
    map_step (canon cls key n) data M r M1 ->
    (may_fail = false -> data <> 0 -> r = default 0 (M !! canon cls key n)) ->
    map_answers cls may_fail ops outs M1 M2 ->
    map_answers cls may_fail (HInsert key n data :: ops) (r :: outs) M M2
| ma_find key n ops outs M M2 :
    map_answers cls may_fail ops outs M M2 ->
    map_answers cls may_fail (HFind key n :: ops) (default 0 (M !! canon cls key n) :: outs) M M2.

Lemma hash_run_ok tg junk cls ops (mf : bool) : forall H m gs o,
  hash_rep m H gs -> keyClass H = cls -> zlen (nodes gs) + zlen ops < 2 ^ 25 ->
  Forall (fun op => valid_key cls (op_key op).1 (op_key op).2) ops ->
  (mf = false -> Forall (eq true) o) ->
  exists outs H' m' gs', hash_run tg junk ops H m o = Ret (outs, H', m')
    /\ hash_rep m' H' gs' /\ keyClass H' = cls
    /\ map_answers cls mf ops outs (hash_map gs) (hash_map gs').
Proof.
  induction ops as [|op ops IH]; intros H m gs o Hrep Hcl Hlen Hops Ho.
  - exists [], H, m, gs. repeat split; try done; try apply Hrep. constructor.
  - inversion_clear Hops as [|? ? Hv Hops']. rewrite zlen_cons in Hlen. pose proof (zlen_nonneg ops).
    destruct op as [key n data|key n]; cbn [op_key fst snd] in Hv; cbn [hash_run];
      (assert (key_ok (keyClass H) (Some key) n (canon cls key n)) as Hk by (exists key; by rewrite Hcl)).
    + destruct (insert_ok tg junk m H gs o (Some key) n (canon cls key n) data Hrep ltac:(lia) Hk)
        as (r & H1 & m1 & o1 & gs1 & -> & Hrep1 & Hst & Hle & Hcl1 & Hall). crun.
      destruct (IH H1 m1 gs1 o1) as (outs & H' & m' & gs' & -> & Hrep' & Hcl' & Hans); try done; [congruence|lia| |].
      { intros Hm. by apply Hall, Ho. }
      exists (r :: outs), H', m', gs'. repeat split; try done; try apply Hrep'.
      econstructor; [exact Hst| |exact Hans]. intros Hm Hd. by apply Hall; [apply Ho|].
    + rewrite (hash_find_ok m H gs (Some key) n _ Hrep Hk). crun.
      destruct (IH H m gs o) as (outs & H' & m' & gs' & -> & Hrep' & Hcl' & Hans); try done; [lia|].
      eexists _, H', m', gs'. repeat split; try done; try apply Hrep'. by constructor.
Qed.

Lemma map_answers_weaken cls mf ops outs M M' :
  map_answers cls mf ops outs M M' -> map_answers cls true ops outs M M'.
Proof. induction 1; by econstructor. Qed.

Lemma hash_init_rep cls copy : is_class cls -> hash_rep [] (mkHash cls copy 0 0 None None) [].
Proof. intros Hcls. split; try done; try constructor. done. Qed.

(** C15: A hash table under fewer than 2^25 insertions, deletions and searches
    with keys of its class answers as a finite map from keys, taken up to
    letter case in a string table, to data: an insertion returns the data it
    replaces and is refused only when the allocator failed, and then the map
    is unchanged. Walking over the elements afterwards visits the data of the
    map, each key once, and clearing the table frees every element. No call
    touches memory that is not live and no assertion fails. *)
Theorem hash_refines_map (tg : target) (junk : HashElem) (cls : Z) (copy : bool) (ops : list hash_op) (o : list bool)
    (Hcls : is_class cls) (Hops : Forall (fun op => valid_key cls (op_key op).1 (op_key op).2) ops)
    (Hlen : zlen ops < 2 ^ 25) :
  exists outs H m M kvs, (H0 ← sqlite3HashInit cls copy; hash_run tg junk ops H0 [] o) = Ret (outs, H, m)
    /\ map_answers cls true ops outs ∅ M
    /\ (Forall (eq true) o -> map_answers cls false ops outs ∅ M)
    /\ (hash_walk (length m) m (first H) = Ret kvs.*2 /\ kvs ≡ₚ map_to_list M /\ count H = zlen kvs)
    /\ exists H' m', sqlite3HashClear H m = Ret (H', m') /\ Forall (eq None) m'.
Proof.
  assert (sqlite3HashInit cls copy = Ret (mkHash cls copy 0 0 None None)) as -> by (by destruct Hcls as [-> | ->]).
  crun. pose proof (hash_init_rep cls copy Hcls) as Hrep0.
  destruct (hash_run_ok tg junk cls ops (negb (bool_decide (Forall (eq true) o))) _ [] [] o Hrep0 eq_refl Hlen Hops)
    as (outs & H & m & gs & Hrun & Hrep & Hcl & Hans); [by case_bool_decide|].
  destruct (hash_list m H gs Hrep) as (Hd & Hf & Hnd). destruct (hash_clear_ok m H gs Hrep) as (m' & Hc & Hm').
  exists outs, H, m, (hash_map gs), (nodes gs).*2. split; [exact Hrun|]. split; [by eapply map_answers_weaken|].
  split; [intros Ht; by rewrite bool_decide_true in Hans by done|]. split; [split; [|split]|eauto].
  - rewrite Hf. apply (hash_walk_ok _ m (nodes gs) _ None Hd). by eapply locs_length.
  - symmetry. apply map_to_list_to_map, Hrep.
  - rewrite (hr_count _ _ _ Hrep). size.
Qed.

(** Two spellings of a key, a deletion and a refused insertion. *)
Lemma hash_refines_map_witness :
  let ops := [HInsert [65; 98; 0] 3 7; HFind [97; 66; 0] 3; HInsert [97; 98; 0] 3 9; HInsert [65; 66; 0] 3 0] in
  exists outs H m M kvs,
    (H0 ← sqlite3HashInit SQLITE_HASH_STRING true; hash_run LP64 (mkElem None None 0 None 0) ops H0 [] [true; true]) = Ret (outs, H, m)
    /\ map_answers SQLITE_HASH_STRING true ops outs ∅ M
    /\ (Forall (eq true) [true; true] -> map_answers SQLITE_HASH_STRING false ops outs ∅ M)
    /\ (hash_walk (length m) m (first H) = Ret kvs.*2 /\ kvs ≡ₚ map_to_list M /\ count H = zlen kvs)
    /\ exists H' m', sqlite3HashClear H m = Ret (H', m') /\ Forall (eq None) m'.
Proof.
  apply hash_refines_map; [by left| |reflexivity].
  apply (bool_decide_unpack _). vm_compute. exact I.
Defined.
