(* ===== verification/Mem.v ===== *)
(** * Values in memory cells and their order

    Model of [struct Mem] (misc/sqlite/vdbeInt.h), of [sqlite3MemCompare]
    (vdbemem.c) and of the built-in collating functions (main.c). A [double] is
    its 64-bit pattern; the operations of the language on doubles are those of
    IEEE 754 binary64 as the Standard Library specifies them ([SpecFloat]).
    The fields of a cell that only manage its memory ([db], [xDel], [zMalloc])
    are left out; the memory behind [z] is the list of its bytes. The program
    is compiled with SQLITE_OMIT_INCRBLOB, which makes [MEM_Zero] 0, and with
    SQLITE_OMIT_UTF16. *)

From Stdlib Require Import SpecFloat.
From S2P Require Import Prelude NumText.

(** ** Doubles *)

Definition sf_prec : Z := 53.
Definition sf_emax : Z := 1024.

(** The float with the bit pattern [b]. *)
Definition dbl (b : Z) : spec_float :=
  let s := Z.testbit b 63 in
  let e := Z.land (Z.shiftr b 52) 2047 in
  let f := Z.land b (2 ^ 52 - 1) in
  if e =? 0 then
    match f with Zpos m => S754_finite s m (-1074) | _ => S754_zero s end
  else if e =? 2047 then
    if f =? 0 then S754_infinity s else S754_nan
  else
    match f + 2 ^ 52 with Zpos m => S754_finite s m (e - 1075) | _ => S754_nan end.

(** The conversion of an integer, which rounds to nearest. *)
Definition i64_to_double (i : Z) : spec_float := binary_normalize sf_prec sf_emax i 0 false.

(** [x!=x] *)
Definition sqlite3IsNaN (x : spec_float) : bool := negb (SFeqb x x).

(** ** Cells *)

Record Mem := mkMem {
  u_i : Z;
  r : Z;                 (** the bit pattern of the [double] *)
  z : list Z;
  n : Z;
  flags : Z;
  enc : Z;
}.

Definition MEM_Null : Z := 0x0001.
Definition MEM_Str : Z := 0x0002.
Definition MEM_Int : Z := 0x0004.
Definition MEM_Real : Z := 0x0008.
Definition MEM_Blob : Z := 0x0010.
Definition MEM_Term : Z := 0x0020.
Definition MEM_Dyn : Z := 0x0040.
Definition MEM_Static : Z := 0x0080.
Definition MEM_Ephem : Z := 0x0100.

(** [(f & m)!=0] *)
Definition has (f m : Z) : bool := negb (Z.land f m =? 0).

Definition SQLITE_UTF8 : Z := 1.

(** A collating sequence: the encoding and the function that it registers;
    [pUser] is part of the function. *)
Record CollSeq := mkColl {
  cenc : Z;
  xCmp : list Z -> list Z -> res Z;
}.

(** The [n] bytes at [z]. *)
Definition cell_bytes (m : Mem) : res (list Z) :=
  if decide (0 <= n m <= zlen (z m)) then Ret (take (Z.to_nat (n m)) (z m)) else UB.

(** [r1 = pMem->u.i] or [r1 = pMem->r] *)
Definition cell_double (m : Mem) : spec_float :=
  if negb (has (flags m) MEM_Real) then i64_to_double (u_i m) else dbl (r m).

(** Without UTF-16 no text changes its encoding, and [sqlite3ValueText] gives
    a null pointer when the encodings differ. *)
Definition compare_collated (m1 m2 : Mem) (c : CollSeq) : res Z :=
  if enc m1 =? cenc c then
    s1 ← cell_bytes m1; s2 ← cell_bytes m2; xCmp c s1 s2
  else xCmp c [] [].

Definition compare_blobs (m1 m2 : Mem) : res Z :=
  let k := if n m2 <? n m1 then n m2 else n m1 in
  rc ← memcmp (Z.to_nat k) (z m1) (z m2);
  if rc =? 0 then sint (n m1 - n m2) else Ret rc.

Definition sqlite3MemCompare (m1 m2 : Mem) (pColl : option CollSeq) : res Z :=
  let f1 := flags m1 in
  let f2 := flags m2 in
  let combined := Z.lor f1 f2 in
  if has combined MEM_Null then Ret (Z.land f2 MEM_Null - Z.land f1 MEM_Null) else
  if has combined (Z.lor MEM_Int MEM_Real) then
    if negb (has f1 (Z.lor MEM_Int MEM_Real)) then Ret 1 else
    if negb (has f2 (Z.lor MEM_Int MEM_Real)) then Ret (-1) else
    if Z.land (Z.land f1 f2) MEM_Int =? 0 then
      let r1 := cell_double m1 in
      let r2 := cell_double m2 in
      Ret (if SFltb r1 r2 then -1 else if SFltb r2 r1 then 1 else 0)
    else
      c_assert (has f1 MEM_Int);;
      c_assert (has f2 MEM_Int);;
      Ret (if u_i m1 <? u_i m2 then -1 else if u_i m2 <? u_i m1 then 1 else 0)
  else if has combined MEM_Str then
    if negb (has f1 MEM_Str) then Ret 1 else
    if negb (has f2 MEM_Str) then Ret (-1) else
    c_assert (enc m1 =? enc m2);;
    c_assert ((enc m1 =? SQLITE_UTF8) || (enc m1 =? 2) || (enc m1 =? 3));;
    match pColl with
    | Some c => compare_collated m1 m2 c
    | None => compare_blobs m1 m2
    end
  else compare_blobs m1 m2.

(** ** Built-in collating functions *)

(** [allSpaces(z, n)]: [while( n>0 && z[n-1]==' ' ){ n--; } return n==0;] *)
Fixpoint allSpaces_loop (k : nat) (z : list Z) : res bool :=
  match k with
  | O => Ret true
  | S k' => c ← of_opt (rd z (Z.of_nat k')); if c =? 32 then allSpaces_loop k' z else Ret false
  end.

(** For a negative [n] the loop does not start, and [n==0] is false. *)
Definition allSpaces (z : list Z) (n : Z) : res bool :=
  if n <? 0 then Ret false else allSpaces_loop (Z.to_nat n) z.

Definition binCollFunc (padFlag : bool) (k1 k2 : list Z) : res Z :=
  let n := if zlen k1 <? zlen k2 then zlen k1 else zlen k2 in
  rc ← memcmp (Z.to_nat n) k1 k2;
  if rc =? 0 then
    pad ← (if padFlag then
             a ← allSpaces (drop (Z.to_nat n) k1) (zlen k1 - n);
             if a : bool then allSpaces (drop (Z.to_nat n) k2) (zlen k2 - n) else Ret false
           else Ret false);
    if pad : bool then Ret rc else sint (zlen k1 - zlen k2)
  else Ret rc.

(** The bytes behind the key are out of reach: with [N] at most both lengths
    the comparison does not get there. *)
Definition nocaseCollatingFunc (k1 k2 : list Z) : res Z :=
  r ← sqlite3StrNICmp k1 k2 (if zlen k1 <? zlen k2 then zlen k1 else zlen k2);
  if r =? 0 then sint (zlen k1 - zlen k2) else Ret r.

(** ** Comparisons as total preorders *)

(** What a comparison promises to those who sort by it. *)
Class CmpOrder {A} (c : A -> A -> comparison) : Prop := {
  cmp_antisym x y : c y x = CompOpp (c x y);
  cmp_trans x y w : c x y <> Gt -> c y w <> Gt -> c x w <> Gt;
}.

#[export] Instance Z_compare_order : CmpOrder Z.compare.
Proof.
  split.
  - intros. apply Z.compare_antisym.
  - intros x y w. change (x <= y -> y <= w -> x <= w). lia.
Qed.

#[export] Instance cmp_on_order {A B} (f : A -> B) c `{!CmpOrder c} : CmpOrder (fun x y => c (f x) (f y)).
Proof. split; intros; [apply cmp_antisym|by eapply cmp_trans]. Qed.

Lemma lex_compare_antisym l1 l2 : lex_compare l2 l1 = CompOpp (lex_compare l1 l2).
Proof.
  revert l2. induction l1 as [|x l1 IH]; intros [|y l2]; try done. cbn [lex_compare].
  rewrite (Z.compare_antisym x y). destruct (x ?= y); simpl; [apply IH|done..].
Qed.

Lemma lex_compare_trans l1 l2 l3 :
  lex_compare l1 l2 <> Gt -> lex_compare l2 l3 <> Gt -> lex_compare l1 l3 <> Gt.
Proof.
  revert l2 l3. induction l1 as [|x l1 IH]; intros [|y l2] [|w l3]; try done. cbn [lex_compare].
  destruct (Z.compare_spec x y), (Z.compare_spec y w), (Z.compare_spec x w); try done; try lia. apply IH.
Qed.

#[export] Instance lex_compare_order : CmpOrder lex_compare.
Proof. split; [intros; apply lex_compare_antisym|apply lex_compare_trans]. Qed.

(** A float that is not NaN by its sign, exponent and mantissa. *)
Definition float_key (f : spec_float) : list Z :=
  match f with
  | S754_nan => []
  | S754_infinity s => [if s then -2 else 2]
  | S754_zero _ => [0]
  | S754_finite true m e => [-1; - e; Zneg m]
  | S754_finite false m e => [1; e; Zpos m]
  end.

Lemma SFcompare_key f1 f2 :
  f1 <> S754_nan -> f2 <> S754_nan -> SFcompare f1 f2 = Some (lex_compare (float_key f1) (float_key f2)).
Proof.
  intros H1 H2. destruct f1 as [s1|s1| |s1 m1 e1], f2 as [s2|s2| |s2 m2 e2]; try done;
    try (by destruct s1); try (by destruct s2); try (by destruct s1, s2).
  cbn [SFcompare]. f_equal. destruct s1, s2; cbn [float_key lex_compare]; try done.
  - change (-1 ?= -1) with Eq. cbv iota. rewrite Z.compare_opp, (Z.compare_antisym e1 e2).
    destruct (e1 ?= e2); try done. cbn [CompOpp]. change (Pos.compare_cont Eq m1 m2) with (Pos.compare m1 m2).
    change (Z.neg m1 ?= Z.neg m2) with (CompOpp (Pos.compare m1 m2)). by destruct (Pos.compare m1 m2).
  - change (1 ?= 1) with Eq. cbv iota. destruct (e1 ?= e2); try done.
    change (Pos.compare_cont Eq m1 m2) with (Pos.compare m1 m2).
    change (Z.pos m1 ?= Z.pos m2) with (Pos.compare m1 m2). by destruct (Pos.compare m1 m2).
Qed.

Lemma SFcompare_antisym f1 f2 : SFcompare f2 f1 = CompOpp <$> SFcompare f1 f2.
Proof.
  destruct f1, f2; try done; rewrite !SFcompare_key by done; apply (f_equal Some), lex_compare_antisym.
Qed.

(** Equal floats (0 and -0, too) compare alike. *)
Lemma SFcompare_equal f1 f2 f : SFeqb f1 f2 = true -> SFcompare f1 f = SFcompare f2 f.
Proof.
  intros H. assert (f1 <> S754_nan /\ f2 <> S754_nan) as [H1 H2] by (destruct f1, f2; by split).
  unfold SFeqb in H. rewrite SFcompare_key in H by done.
  assert (float_key f1 = float_key f2) as E by (apply lex_compare_eq; by destruct (lex_compare _ _)).
  assert (f = S754_nan \/ f <> S754_nan) as [-> |Hf] by (destruct f; by (left + right)); [by destruct f1, f2|].
  by rewrite !SFcompare_key, E.
Qed.

(** ** The values of cells *)

Inductive value :=
| VNull
| VInt (i : Z)
| VReal (b : Z)
| VText (s : list Z)
| VBlob (s : list Z).

#[export] Instance value_eq_dec : EqDecision value.
Proof. solve_decision. Defined.

(** The value of a cell by its flags; a number may have a text beside it. *)
Definition value_of (m : Mem) : value :=
  let bytes := take (Z.to_nat (n m)) (z m) in
  if has (flags m) MEM_Null then VNull
  else if has (flags m) MEM_Int then VInt (u_i m)
  else if has (flags m) MEM_Real then VReal (r m)
  else if has (flags m) MEM_Str then VText bytes
  else VBlob bytes.

(** A cell between two instructions.  One that is an integer and a real, as
    [sqlite3VdbeIntegerAffinity] makes it, has equal numbers. *)
Record mem_ok (m : Mem) : Prop := {
  mo_type : has (flags m) (Z.lor MEM_Null (Z.lor (Z.lor MEM_Int MEM_Real) (Z.lor MEM_Str MEM_Blob))) = true;
  mo_number : has (flags m) MEM_Int = true -> has (flags m) MEM_Real = true ->
    SFeqb (dbl (r m)) (i64_to_double (u_i m)) = true;
  mo_int : has (flags m) MEM_Int = true -> - 2 ^ 63 <= u_i m < 2 ^ 63;
  mo_real : has (flags m) MEM_Real = true -> is_u64 (r m) /\ sqlite3IsNaN (dbl (r m)) = false;
  mo_bytes : has (flags m) (Z.lor MEM_Str MEM_Blob) = true ->
    bytes_ok (z m) /\ 0 <= n m <= zlen (z m) /\ n m < 2 ^ 31 - 1;
  mo_enc : has (flags m) MEM_Str = true -> enc m = SQLITE_UTF8;
}.

(** NULL before numbers before texts before blobs. *)
Definition value_class (v : value) : Z :=
  match v with VNull => 0 | VInt _ | VReal _ => 1 | VText _ => 2 | VBlob _ => 3 end.

Definition value_float (v : value) : spec_float :=
  match v with VInt i => i64_to_double i | VReal b => dbl b | _ => S754_nan end.

Definition value_compare (cc : list Z -> list Z -> comparison) (v1 v2 : value) : comparison :=
  match v1, v2 with
  | VInt i1, VInt i2 => i1 ?= i2
  | VInt _, VReal _ | VReal _, VInt _ | VReal _, VReal _ => default Eq (SFcompare (value_float v1) (value_float v2))
  | VText s1, VText s2 => cc s1 s2
  | VBlob s1, VBlob s2 => lex_compare s1 s2
  | _, _ => value_class v1 ?= value_class v2
  end.

(** What a collating sequence promises: the sign of [cc] on texts. Without a
    collating sequence texts compare by their bytes. *)
Class Collation (pColl : option CollSeq) (cc : list Z -> list Z -> comparison) : Prop := {
  coll_order : CmpOrder cc;
  coll_run : match pColl with
    | None => cc = lex_compare
    | Some c => cenc c = SQLITE_UTF8
        /\ forall s1 s2, bytes_ok s1 -> bytes_ok s2 -> zlen s1 < 2 ^ 31 - 1 -> zlen s2 < 2 ^ 31 - 1 ->
           exists rc, xCmp c s1 s2 = Ret rc /\ - 2 ^ 31 < rc < 2 ^ 31 /\ (rc ?= 0) = cc s1 s2
    end;
}.

Lemma value_compare_antisym cc v1 v2 :
  CmpOrder cc -> value_compare cc v2 v1 = CompOpp (value_compare cc v1 v2).
Proof.
  intros Hcc. destruct v1, v2; cbn [value_compare value_class]; try done; try apply cmp_antisym.
  all: rewrite SFcompare_antisym; by destruct (SFcompare _ _).
Qed.

(** Integers meet reals through a rounding conversion; the order is transitive
    where they do not meet. *)
Definition same_numbers (v1 v2 : value) : Prop :=
  match v1, v2 with
  | VInt _, VReal _ | VReal _, VInt _ => False
  | VReal b1, VReal b2 => dbl b1 <> S754_nan /\ dbl b2 <> S754_nan
  | _, _ => True
  end.

Lemma value_compare_trans cc v1 v2 v3 :
  CmpOrder cc -> same_numbers v1 v2 -> same_numbers v2 v3 ->
  value_compare cc v1 v2 <> Gt -> value_compare cc v2 v3 <> Gt -> value_compare cc v1 v3 <> Gt.
Proof.
  intros Hcc. destruct v1, v2, v3; cbn [value_compare value_class same_numbers]; try done; intros H1 H2; try apply cmp_trans.
  destruct H1 as [Ha Hb], H2 as [_ Hc]. cbn [value_float]. rewrite !SFcompare_key by done. cbn. apply cmp_trans.
Qed.

(** ** Flags *)

Lemma has_lor_l f1 f2 m : has (Z.lor f1 f2) m = has f1 m || has f2 m.
Proof.
  unfold has. rewrite Z.land_lor_distr_l. rewrite <- negb_andb. f_equal. apply eq_true_iff_eq.
  by rewrite andb_true_iff, !Z.eqb_eq, Z.lor_eq_0_iff.
Qed.

Lemma has_lor_r f m1 m2 : has f (Z.lor m1 m2) = has f m1 || has f m2.
Proof. unfold has. rewrite !(Z.land_comm f). apply (has_lor_l m1 m2 f). Qed.

Lemma has_bit f k : 0 <= k -> has f (2 ^ k) = Z.testbit f k.
Proof. intros. unfold has. rewrite <- land_bit_nonzero, Z.shiftl_1_l by done. done. Qed.

Lemma has_int_both f1 f2 : (Z.land (Z.land f1 f2) MEM_Int =? 0) = negb (has f1 MEM_Int && has f2 MEM_Int).
Proof.
  change MEM_Int with (2 ^ 2). rewrite !has_bit by done. rewrite <- Z.land_spec, <- has_bit by done.
  unfold has. by rewrite negb_involutive.
Qed.

Lemma land_null f : Z.land f MEM_Null = if has f MEM_Null then 1 else 0.
Proof.
  change MEM_Null with (2 ^ 1 - 1). rewrite (land_ones_mod f 1) by done. unfold has. rewrite (land_ones_mod f 1) by done.
  change (2 ^ 1) with 2. pose proof (Z.mod_pos_bound f 2 ltac:(lia)). destruct (Z.eqb_spec (f mod 2) 0); simpl; lia.
Qed.

(** ** Comparing bytes *)

Lemma memcmp_take k : forall a b i j,
  (k <= i)%nat -> (k <= j)%nat -> memcmp k (take i a) (take j b) = memcmp k a b.
Proof.
  induction k as [|k IH]; intros a b i j Hi Hj; [done|]. destruct i as [|i], j as [|j]; try lia.
  destruct a as [|x a], b as [|y b]; try done. cbn [take memcmp]. rewrite IH by lia. done.
Qed.

(** The common prefix decides, then the length. *)
Lemma memcmp_lex (a : list Z) : forall b : list Z,
  exists r, memcmp (Nat.min (length a) (length b)) a b = Ret r /\ -1 <= r <= 1
    /\ ((if r =? 0 then zlen a - zlen b else r) ?= 0) = lex_compare a b.
Proof.
  induction a as [|x a IH]; intros [|y b].
  - by exists 0.
  - exists 0. split; [done|]. split; [lia|]. cbn [Z.eqb lex_compare]. rewrite Z.compare_lt_iff. size.
  - exists 0. split; [done|]. split; [lia|]. cbn [Z.eqb lex_compare]. rewrite Z.compare_gt_iff. size.
  - cbn [length Nat.min memcmp lex_compare]. destruct (Z.eqb_spec x y) as [->|Hne].
    + rewrite Z.compare_refl. destruct (IH b) as (r & -> & Hr & Hc). exists r. split; [done|]. split; [done|].
      rewrite <- Hc, !zlen_cons. destruct (r =? 0); f_equal; lia.
    + destruct (Z.ltb_spec x y).
      * exists (-1). split; [done|]. split; [lia|]. simpl. by rewrite (proj2 (Z.compare_lt_iff x y)) by lia.
      * exists 1. split; [done|]. split; [lia|]. simpl. by rewrite (proj2 (Z.compare_gt_iff x y)) by lia.
Qed.

Lemma min_length (a b : list Z) : Z.to_nat (if zlen a <? zlen b then zlen a else zlen b) = Nat.min (length a) (length b).
Proof. destruct (Z.ltb_spec (zlen a) (zlen b)); size. Qed.

Notation has_bytes m := (has (flags m) (Z.lor MEM_Str MEM_Blob) = true).

Lemma cell_bytes_ok m : mem_ok m -> has_bytes m -> cell_bytes m = Ret (take (Z.to_nat (n m)) (z m)).
Proof. intros Hm Hb. unfold cell_bytes. rewrite decide_True; [done|]. by apply (mo_bytes _ Hm). Qed.

Lemma compare_blobs_ok m1 m2 :
  mem_ok m1 -> mem_ok m2 -> has_bytes m1 -> has_bytes m2 ->
  exists rc, compare_blobs m1 m2 = Ret rc /\ - 2 ^ 31 < rc < 2 ^ 31
    /\ (rc ?= 0) = lex_compare (take (Z.to_nat (n m1)) (z m1)) (take (Z.to_nat (n m2)) (z m2)).
Proof.
  intros H1 H2 B1 B2. destruct (mo_bytes _ H1 B1) as (_ & Hn1 & Hm1), (mo_bytes _ H2 B2) as (_ & Hn2 & Hm2).
  set (s1 := take (Z.to_nat (n m1)) (z m1)). set (s2 := take (Z.to_nat (n m2)) (z m2)).
  assert (zlen s1 = n m1 /\ zlen s2 = n m2) as [L1 L2] by (unfold s1, s2; split; size).
  destruct (memcmp_lex s1 s2) as (r & Hr & Hb & Hc). unfold compare_blobs.
  replace (Z.to_nat (if n m2 <? n m1 then n m2 else n m1)) with (Nat.min (length s1) (length s2)).
  2:{ destruct (Z.ltb_spec (n m2) (n m1)); size. }
  rewrite <- (memcmp_take _ (z m1) (z m2) (Z.to_nat (n m1)) (Z.to_nat (n m2))) by size.
  fold s1 s2. rewrite Hr. crun. rewrite L1, L2 in Hc. destruct (r =? 0).
  - rewrite sint_id by lia. exists (n m1 - n m2). repeat split; [lia..|done].
  - exists r. repeat split; [lia..|done].
Qed.

Lemma take_bytes m : mem_ok m -> has_bytes m ->
  bytes_ok (take (Z.to_nat (n m)) (z m)) /\ zlen (take (Z.to_nat (n m)) (z m)) < 2 ^ 31 - 1.
Proof.
  intros Hm B. destruct (mo_bytes _ Hm B) as (Hb & Hn & Hl). split; [by apply Forall_take|size].
Qed.

(** A cell has one of the five kinds of value. *)
Lemma mem_kind m : mem_ok m ->
  match value_of m with
  | VNull => has (flags m) MEM_Null = true
  | VInt _ => has (flags m) MEM_Null = false /\ has (flags m) MEM_Int = true
  | VReal _ => has (flags m) MEM_Null = false /\ has (flags m) MEM_Int = false /\ has (flags m) MEM_Real = true
  | VText _ => has (flags m) MEM_Null = false /\ has (flags m) MEM_Int = false /\ has (flags m) MEM_Real = false
      /\ has (flags m) MEM_Str = true
  | VBlob _ => has (flags m) MEM_Null = false /\ has (flags m) MEM_Int = false /\ has (flags m) MEM_Real = false
      /\ has (flags m) MEM_Str = false /\ has (flags m) MEM_Blob = true
  end.
Proof.
  intros [Ht _ _ _ _ _]. rewrite !has_lor_r in Ht. unfold value_of.
  destruct (has (flags m) MEM_Null); [done|]. destruct (has (flags m) MEM_Int), (has (flags m) MEM_Real); try done.
  destruct (has (flags m) MEM_Str); [done|]. done.
Qed.

Ltac mem_flags :=
  repeat match goal with
  | H : has (flags _) _ = _ |- _ => rewrite H in *
  | H : _ /\ _ |- _ => destruct H
  end.

Lemma float_sign f1 f2 :
  let rc := if SFltb f1 f2 then -1 else if SFltb f2 f1 then 1 else 0 in
  - 2 ^ 31 < rc < 2 ^ 31 /\ (rc ?= 0) = default Eq (SFcompare f1 f2).
Proof.
  cbv zeta. unfold SFltb. rewrite (SFcompare_antisym f1 f2). by destruct (SFcompare f1 f2) as [[| |]|].
Qed.

(** The double of a number compares as the number of its value. *)
Lemma cell_double_compare m f : mem_ok m -> has (flags m) MEM_Null = false -> has (flags m) MEM_Int || has (flags m) MEM_Real = true ->
  SFcompare (cell_double m) f = SFcompare (value_float (value_of m)) f.
Proof.
  intros Hm Hn Hk. unfold cell_double, value_of. rewrite Hn. pose proof (mo_number _ Hm) as E.
  destruct (has (flags m) MEM_Int), (has (flags m) MEM_Real); try done. cbn [negb value_float]. by apply SFcompare_equal, E.
Qed.

Lemma cell_float_sign m1 m2 v1 v2 : mem_ok m1 -> mem_ok m2 -> value_of m1 = v1 -> value_of m2 = v2 ->
  has (flags m1) MEM_Null = false -> has (flags m2) MEM_Null = false ->
  has (flags m1) MEM_Int || has (flags m1) MEM_Real = true -> has (flags m2) MEM_Int || has (flags m2) MEM_Real = true ->
  let rc := if SFltb (cell_double m1) (cell_double m2) then -1 else if SFltb (cell_double m2) (cell_double m1) then 1 else 0 in
  - 2 ^ 31 < rc < 2 ^ 31 /\ (rc ?= 0) = default Eq (SFcompare (value_float v1) (value_float v2)).
Proof.
  intros H1 H2 <- <- N1 N2 K1 K2. pose proof (float_sign (cell_double m1) (cell_double m2)) as [Hr Hc]. cbv zeta. split; [exact Hr|].
  rewrite Hc. rewrite cell_double_compare by done. f_equal.
  by rewrite SFcompare_antisym, cell_double_compare, <- SFcompare_antisym.
Qed.

Lemma mem_compare_ok m1 m2 pColl cc :
  Collation pColl cc -> mem_ok m1 -> mem_ok m2 ->
  exists rc, sqlite3MemCompare m1 m2 pColl = Ret rc /\ - 2 ^ 31 < rc < 2 ^ 31
    /\ (rc ?= 0) = value_compare cc (value_of m1) (value_of m2).
Proof.
  intros Hcc H1 H2. pose proof (mem_kind m1 H1) as K1. pose proof (mem_kind m2 H2) as K2.
  unfold sqlite3MemCompare. rewrite has_int_both, !has_lor_l, !has_lor_r, !land_null.
  pose proof (cell_float_sign m1 m2 _ _ H1 H2 eq_refl eq_refl) as Hsign. cbv zeta in Hsign.
  destruct (value_of m1) as [|i1|b1|s1|s1] eqn:V1, (value_of m2) as [|i2|b2|s2|s2] eqn:V2;
    mem_flags; rewrite ?orb_true_l, ?orb_true_r; cbn [negb andb orb value_compare value_class];
    try (by (eexists; split; [reflexivity|]; split; [lia|])).
  all: unfold value_of in V1, V2; mem_flags; simplify_eq; crun; cbn [value_float].
  - eexists. split; [reflexivity|]. destruct (Z.ltb_spec (u_i m1) (u_i m2)); [split; [lia|]|].
    + symmetry. by apply Z.compare_lt_iff.
    + destruct (Z.ltb_spec (u_i m2) (u_i m1)); (split; [lia|]); symmetry; [by apply Z.compare_gt_iff|].
      apply Z.compare_eq_iff. lia.
  - eexists. split; [reflexivity|]. by apply Hsign.
  - eexists. split; [reflexivity|]. by apply Hsign.
  - eexists. split; [reflexivity|]. by apply Hsign.
  - assert (has_bytes m1 /\ has_bytes m2) as [B1 B2] by (rewrite !has_lor_r; mem_flags; by rewrite ?orb_true_l).
    assert (enc m1 = SQLITE_UTF8 /\ enc m2 = SQLITE_UTF8) as [E1 E2] by (split; by apply mo_enc). rewrite E1, E2. cbn [Z.eqb SQLITE_UTF8 Pos.eqb orb]. crun.
    pose proof coll_run as Hrun. destruct pColl as [c|].
    + destruct Hrun as [Hce Hx]. unfold compare_collated. rewrite E1, Hce. cbn [Z.eqb SQLITE_UTF8 Pos.eqb].
      rewrite !cell_bytes_ok by done. crun. apply Hx; by apply take_bytes.
    + rewrite Hrun. by apply compare_blobs_ok.
  - apply compare_blobs_ok; try done; rewrite has_lor_r; mem_flags; by rewrite orb_true_r.
Qed.

(** ** The built-in collating sequences *)

(** One comparison, and another where it does not decide. *)
Definition cmp_then {A} (c1 c2 : A -> A -> comparison) (x y : A) : comparison :=
  match c1 x y with Eq => c2 x y | c => c end.

Lemma cmp_eq_trans {A} (c : A -> A -> comparison) `{!CmpOrder c} x y w :
  c x y = Eq -> c y w = Eq -> c x w = Eq.
Proof.
  intros H1 H2. pose proof (cmp_antisym (c := c) x y) as A1. pose proof (cmp_antisym (c := c) y w) as A2.
  pose proof (cmp_antisym (c := c) x w) as A3.
  pose proof (cmp_trans (c := c) x y w) as T1. pose proof (cmp_trans (c := c) w y x) as T2.
  rewrite H1, H2 in *. rewrite A1, A2, A3 in T2. destruct (c x w); naive_solver.
Qed.

#[export] Instance cmp_then_order {A} (c1 c2 : A -> A -> comparison) `{!CmpOrder c1} `{!CmpOrder c2} :
  CmpOrder (cmp_then c1 c2).
Proof.
  split.
  - intros x y. unfold cmp_then. rewrite (cmp_antisym (c := c1) x y). destruct (c1 x y); simpl; [apply cmp_antisym|done..].
  - intros x y w. unfold cmp_then.
    pose proof (cmp_trans (c := c1) x y w) as T. pose proof (cmp_eq_trans c1 x y w) as E.
    pose proof (cmp_trans (c := c1) y w x) as T2. pose proof (cmp_trans (c := c1) w x y) as T3.
    rewrite (cmp_antisym (c := c1) x y), (cmp_antisym (c := c1) x w), (cmp_antisym (c := c1) y w) in *.
    destruct (c1 x y), (c1 y w), (c1 x w); simpl in *; try naive_solver. apply cmp_trans.
Qed.

(** The text in front of the first NUL, in lower case. *)
Definition nocase_key (s : list Z) : list Z := tolower <$> take_while (fun c => negb (c =? 0)) s.

Definition nocase_compare : list Z -> list Z -> comparison :=
  cmp_then (fun s1 s2 => lex_compare (nocase_key s1) (nocase_key s2)) (fun s1 s2 => zlen s1 ?= zlen s2).

Fixpoint rtrim (s : list Z) : list Z :=
  match s with
  | [] => []
  | c :: s => match rtrim s with [] => if c =? 32 then [] else [c] | t => c :: t end
  end.

Definition rtrim_compare (s1 s2 : list Z) : comparison := lex_compare (rtrim s1) (rtrim s2).

Lemma nocase_lt (x y : Z) : is_byte x -> is_byte y -> UpperToLower x - UpperToLower y = tolower x - tolower y.
Proof. intros. by rewrite !UpperToLower_tolower. Qed.

Lemma nocase_loop s1 : forall fuel s2,
  bytes_ok s1 -> bytes_ok s2 -> (length s1 < fuel)%nat -> zlen s1 < 2 ^ 31 -> zlen s2 < 2 ^ 31 ->
  exists rc, strnicmp_loop fuel s1 s2 (if zlen s1 <? zlen s2 then zlen s1 else zlen s2) = Ret rc
    /\ - 256 < rc < 256
    /\ ((if rc =? 0 then zlen s1 - zlen s2 else rc) ?= 0) = nocase_compare s1 s2.
Proof.
  unfold nocase_compare, cmp_then. induction s1 as [|x s1 IH]; intros fuel s2 Hb1 Hb2 Hf H1 H2; (destruct fuel as [|fuel]; [simpl in Hf; lia|]).
  - exists 0. pose proof (zlen_nonneg s2). change (zlen (@nil Z)) with 0. split; [|split; [lia|]].
    + destruct (Z.ltb_spec 0 (zlen s2)); [done|]. replace (zlen s2) with 0 by lia. done.
    + cbn [Z.eqb]. destruct s2 as [|y s2]; [done|]. rewrite zlen_cons in *. pose proof (zlen_nonneg s2).
      assert ((0 ?= zlen s2 + 1) = Lt) as Hlt by (apply Z.compare_lt_iff; lia).
      rewrite Hlt. replace (0 - (zlen s2 + 1) ?= 0) with Lt by (symmetry; apply Z.compare_lt_iff; lia).
      unfold nocase_key. simpl. by destruct (y =? 0).
  - destruct s2 as [|y s2].
    + exists 0. rewrite zlen_cons in *. change (zlen (@nil Z)) with 0 in *. pose proof (zlen_nonneg s1).
      rewrite (proj2 (Z.ltb_ge (zlen s1 + 1) 0)) by lia. split; [done|]. split; [lia|]. cbn [Z.eqb].
      replace (zlen s1 + 1 - 0 ?= 0) with Gt by (symmetry; apply Z.compare_gt_iff; lia).
      assert ((zlen s1 + 1 ?= 0) = Gt) as -> by (apply Z.compare_gt_iff; lia).
      unfold nocase_key. simpl. by destruct (x =? 0).
    + inversion_clear Hb1 as [|? ? Hx Hb1']. inversion_clear Hb2 as [|? ? Hy Hb2'].
      rewrite !zlen_cons in *. pose proof (zlen_nonneg s1). pose proof (zlen_nonneg s2). cbn [strnicmp_loop].
      assert ((if zlen s1 + 1 <? zlen s2 + 1 then zlen s1 + 1 else zlen s2 + 1)
              = (if zlen s1 <? zlen s2 then zlen s1 else zlen s2) + 1) as ->.
      { destruct (Z.ltb_spec (zlen s1) (zlen s2)), (Z.ltb_spec (zlen s1 + 1) (zlen s2 + 1)); lia. }
      set (k := if zlen s1 <? zlen s2 then zlen s1 else zlen s2).
      assert (0 <= k < 2 ^ 31 - 1) by (unfold k; destruct (Z.ltb_spec (zlen s1) (zlen s2)); lia).
      rewrite sint_id by lia. crun. rewrite (proj2 (Z.ltb_lt 0 (k + 1))) by lia. rewrite !rd_0. crun. cbn [tail].
      replace (k + 1 - 1) with k by lia. unfold nocase_key. cbn [take_while].
      replace (zlen s1 + 1 - (zlen s2 + 1)) with (zlen s1 - zlen s2) by lia.
      replace (zlen s1 + 1 ?= zlen s2 + 1) with (zlen s1 ?= zlen s2) by (rewrite !(Z.add_comm _ 1); symmetry; apply Z.add_compare_mono_l).
      pose proof (tolower_nonzero y) as Ty. pose proof (tolower_nonzero x) as Tx.
      rewrite !UpperToLower_tolower by done.
      assert (is_byte (tolower x) /\ is_byte (tolower y)) as [Bx By].
      { unfold is_byte in *. unfold tolower, isupper.
        destruct ((65 <=? x) && (x <=? 90)) eqn:E1, ((65 <=? y) && (y <=? 90)) eqn:E2;
          rewrite ?andb_true_iff, ?Z.leb_le in *; lia. }
      unfold is_byte in Bx, By. destruct (Z.eqb_spec x 0) as [->|Hx0].
      * change (tolower 0) with 0 in *. exists (0 - tolower y). split; [done|]. split; [lia|]. cbn [negb].
        destruct (Z.eqb_spec y 0) as [->|Hy0]; cbn [negb fmap list_fmap lex_compare].
        -- change (0 - tolower 0 =? 0) with true. cbv iota.
           destruct (Z.compare_spec (zlen s1) (zlen s2)), (Z.compare_spec (zlen s1 - zlen s2) 0); lia || done.
        -- specialize (Ty Hy Hy0). rewrite (proj2 (Z.eqb_neq _ 0)) by lia. apply Z.compare_lt_iff. lia.
      * destruct (Z.eqb_spec (tolower x) (tolower y)) as [He|Hne].
        -- destruct (IH fuel s2 Hb1' Hb2') as (rc & Hrun & Hr & Hc); [simpl in Hf; lia|lia|lia|].
           exists rc. split; [exact Hrun|]. split; [done|]. rewrite Hc. unfold nocase_key. cbn [negb].
           assert (y <> 0) as Hy0.
           { intros ->. specialize (Tx Hx Hx0). change (tolower 0) with 0 in He. lia. }
           rewrite (proj2 (Z.eqb_neq y 0)) by done. cbn [negb fmap list_fmap lex_compare].
           by rewrite He, Z.compare_refl.
        -- exists (tolower x - tolower y). split; [done|]. split; [lia|]. rewrite (proj2 (Z.eqb_neq _ 0)) by lia.
           cbn [negb fmap list_fmap]. destruct (Z.eqb_spec y 0) as [->|Hy0]; cbn [negb fmap list_fmap lex_compare].
           ++ specialize (Tx Hx Hx0). change (tolower 0) with 0. apply Z.compare_gt_iff. lia.
           ++ destruct (Z.compare_spec (tolower x) (tolower y)); [lia|apply Z.compare_lt_iff|apply Z.compare_gt_iff]; lia.
Qed.

Lemma bin_run s1 s2 :
  zlen s1 < 2 ^ 31 - 1 -> zlen s2 < 2 ^ 31 - 1 ->
  exists rc, binCollFunc false s1 s2 = Ret rc /\ - 2 ^ 31 < rc < 2 ^ 31 /\ (rc ?= 0) = lex_compare s1 s2.
Proof.
  intros H1 H2. unfold binCollFunc. rewrite min_length.
  destruct (memcmp_lex s1 s2) as (r & -> & Hr & Hc). crun. pose proof (zlen_nonneg s1). pose proof (zlen_nonneg s2).
  destruct (r =? 0); crun; [rewrite sint_id by lia|]; eexists; (split; [reflexivity|]; split; [lia|done]).
Qed.

#[export] Instance binary_collation : Collation (Some (mkColl SQLITE_UTF8 (binCollFunc false))) lex_compare.
Proof. split; [apply _|]. split; [done|]. intros. by apply bin_run. Qed.

#[export] Instance no_collation : Collation None lex_compare.
Proof. split; [apply _|done]. Qed.

#[export] Instance nocase_collation : Collation (Some (mkColl SQLITE_UTF8 nocaseCollatingFunc)) nocase_compare.
Proof.
  split; [apply _|]. split; [done|]. intros s1 s2 Hb1 Hb2 H1 H2. cbn [xCmp]. unfold nocaseCollatingFunc, sqlite3StrNICmp.
  destruct (nocase_loop s1 (S (length s1)) s2) as (rc & -> & Hr & Hc); [done|done|lia|lia|lia|]. crun.
  pose proof (zlen_nonneg s1). pose proof (zlen_nonneg s2).
  destruct (rc =? 0); [rewrite sint_id by lia|]; eexists; (split; [reflexivity|]; split; [lia|done]).
Qed.

(** *** RTRIM *)

Definition spaces (s : list Z) : bool := forallb (Z.eqb 32) s.

Lemma allSpaces_spec s : allSpaces s (zlen s) = Ret (spaces s).
Proof.
  unfold allSpaces. rewrite (proj2 (Z.ltb_ge (zlen s) 0)) by auto. unfold zlen. rewrite Nat2Z.id.
  induction s as [|c s IH] using rev_ind; [done|]. rewrite length_app, Nat.add_1_r. cbn [allSpaces_loop].
  rewrite (rd_middle s [] c : rd (s ++ [c]) (Z.of_nat (length s)) = _), bind_of_opt.
  unfold spaces. rewrite forallb_app. cbn [forallb]. rewrite andb_true_r, (Z.eqb_sym 32 c).
  destruct (c =? 32); [|by rewrite andb_false_r]. rewrite andb_true_r. unfold spaces in IH. rewrite <- IH.
  assert (forall k t, (k <= length s)%nat -> allSpaces_loop k (s ++ t) = allSpaces_loop k s) as Hk.
  { induction k as [|k IHk]; intros t Hle; [done|]. cbn [allSpaces_loop]. rewrite rd_app_l by (unfold zlen; lia).
    destruct (rd s (Z.of_nat k)); [|done]. cbn. destruct (_ =? 32); [|done]. apply IHk. lia. }
  by apply Hk.
Qed.

Lemma rtrim_spaces s : rtrim s = [] <-> spaces s = true.
Proof.
  induction s as [|c s IH]; [done|]. cbn [rtrim]. unfold spaces in *. cbn [forallb]. rewrite andb_true_iff, <- IH.
  rewrite (Z.eqb_sym 32 c). destruct (rtrim s); [|naive_solver]. destruct (c =? 32); naive_solver.
Qed.

(** The sign of the comparison behind the common prefix. *)
Lemma rtrim_loop s1 : forall s2,
  Forall (fun c => 32 <= c) s1 -> Forall (fun c => 32 <= c) s2 ->
  let k := Nat.min (length s1) (length s2) in
  exists r, memcmp k s1 s2 = Ret r /\ -1 <= r <= 1
    /\ ((if r =? 0 then if spaces (drop k s1) && spaces (drop k s2) then 0 else zlen s1 - zlen s2 else r) ?= 0)
       = rtrim_compare s1 s2.
Proof.
  unfold rtrim_compare. induction s1 as [|x s1 IH]; intros [|y s2] H1 H2; cbv zeta.
  - by exists 0.
  - exists 0. split; [done|]. split; [lia|]. cbn [length Nat.min drop Z.eqb]. change (spaces []) with true.
    change (zlen (@nil Z)) with 0. change (rtrim []) with (@nil Z). cbn [andb]. destruct (spaces (y :: s2)) eqn:E.
    + apply rtrim_spaces in E. by rewrite E.
    + destruct (rtrim (y :: s2)) eqn:Er; [apply rtrim_spaces in Er; congruence|].
      cbn [lex_compare]. apply Z.compare_lt_iff. size.
  - exists 0. split; [done|]. split; [lia|]. cbn [length Nat.min drop Z.eqb]. change (spaces []) with true.
    change (zlen (@nil Z)) with 0. change (rtrim []) with (@nil Z). rewrite andb_true_r. destruct (spaces (x :: s1)) eqn:E.
    + apply rtrim_spaces in E. by rewrite E.
    + destruct (rtrim (x :: s1)) eqn:Er; [apply rtrim_spaces in Er; congruence|].
      cbn [lex_compare]. apply Z.compare_gt_iff. size.
  - inversion_clear H1 as [|? ? Hx H1']. inversion_clear H2 as [|? ? Hy H2'].
    destruct (IH s2 H1' H2') as (r & Hr & Hb & Hc). cbn [length Nat.min memcmp drop].
    assert (forall c s t, 32 <= c -> rtrim (c :: s) = [] -> 32 <= t -> c <= t) as Hsp.
    { intros c s t Hc' Hs Ht. cbn [rtrim] in Hs. destruct (rtrim s); [|done]. destruct (Z.eqb_spec c 32); [lia|done]. }
    destruct (Z.eqb_spec x y) as [->|Hne].
    + rewrite Hr. exists r. split; [done|]. split; [done|]. rewrite !zlen_cons.
      replace (zlen s1 + 1 - (zlen s2 + 1)) with (zlen s1 - zlen s2) by lia. rewrite Hc. cbn [rtrim].
      destruct (rtrim s1), (rtrim s2); destruct (Z.eqb_spec y 32); cbn [lex_compare]; rewrite ?Z.compare_refl; done.
    + assert (forall v, v = -1 \/ v = 1 -> (v ?= 0) = lex_compare (rtrim (x :: s1)) (rtrim (y :: s2)) ->
        exists r0, Ret v = Ret r0 /\ -1 <= r0 <= 1 /\ ((if r0 =? 0 then
           if spaces (drop (Nat.min (length s1) (length s2)) s1) && spaces (drop (Nat.min (length s1) (length s2)) s2)
           then 0 else zlen (x :: s1) - zlen (y :: s2) else r0) ?= 0) = lex_compare (rtrim (x :: s1)) (rtrim (y :: s2))) as Hfin.
      { intros v Hv Hs. exists v. split; [done|]. split; [lia|]. by destruct Hv as [-> | ->]. }
      cbn [rtrim] in *. destruct (Z.ltb_spec x y).
      * apply Hfin; [by left|]. symmetry. change (-1 ?= 0) with Lt.
        destruct (rtrim s1), (rtrim s2), (Z.eqb_spec x 32), (Z.eqb_spec y 32); cbn [lex_compare]; try lia; try done;
          by rewrite (proj2 (Z.compare_lt_iff x y)).
      * apply Hfin; [by right|]. symmetry. change (1 ?= 0) with Gt. assert (y < x) by lia.
        destruct (rtrim s1), (rtrim s2), (Z.eqb_spec x 32), (Z.eqb_spec y 32); cbn [lex_compare]; try lia; try done;
          by rewrite (proj2 (Z.compare_gt_iff x y)).
Qed.

Lemma rtrim_run s1 s2 :
  zlen s1 < 2 ^ 31 - 1 -> zlen s2 < 2 ^ 31 - 1 ->
  Forall (fun c => 32 <= c) s1 -> Forall (fun c => 32 <= c) s2 ->
  exists rc, binCollFunc true s1 s2 = Ret rc /\ - 2 ^ 31 < rc < 2 ^ 31 /\ (rc ?= 0) = rtrim_compare s1 s2.
Proof.
  intros H1 H2 F1 F2. unfold binCollFunc. rewrite min_length.
  destruct (rtrim_loop s1 s2 F1 F2) as (r & -> & Hr & Hc). crun. pose proof (zlen_nonneg s1). pose proof (zlen_nonneg s2).
  set (k := Nat.min (length s1) (length s2)) in *.
  assert (zlen s1 - (if zlen s1 <? zlen s2 then zlen s1 else zlen s2) = zlen (drop k s1)
    /\ zlen s2 - (if zlen s1 <? zlen s2 then zlen s1 else zlen s2) = zlen (drop k s2)) as [-> ->].
  { unfold k. destruct (Z.ltb_spec (zlen s1) (zlen s2)); size. }
  rewrite !allSpaces_spec. destruct (Z.eqb_spec r 0) as [->|]; crun; [|exists r; repeat split; [lia..|done]].
  destruct (spaces (drop k s1)); crun; [destruct (spaces (drop k s2)); crun|]; cbn [andb] in Hc;
    try (rewrite sint_id by lia); eexists; (split; [reflexivity|]; split; [lia|done]).
Qed.

(** An integer and a real cell. *)
Definition int_cell (i : Z) : Mem := mkMem i 0 [] 0 MEM_Int SQLITE_UTF8.
Definition real_cell (b : Z) : Mem := mkMem 0 b [] 0 MEM_Real SQLITE_UTF8.

(** A cell that is an integer and a real: 2. *)
Lemma affinity_cell_ok : mem_ok (mkMem 2 (2 ^ 62) [] 0 (Z.lor MEM_Int MEM_Real) SQLITE_UTF8).
Proof. by split. Qed.

(** C23: [sqlite3MemCompare] puts NULL before numbers before texts before
    blobs, integers and reals in the order of their numbers, texts in the order
    of the collating sequence and blobs in that of their bytes; exchanging the
    cells turns the answer around, and the order is transitive unless integers
    and reals meet: an integer is rounded before it meets a real, so that
    2^53 + 1 and 2^53 both equal the real 2^53 but not each other. *)
Theorem mem_compare_order (pColl : option CollSeq) (cc : list Z -> list Z -> comparison) (m1 m2 m3 : Mem)
    (Hcc : Collation pColl cc) (H1 : mem_ok m1) (H2 : mem_ok m2) (H3 : mem_ok m3) :
  (exists rc rc', sqlite3MemCompare m1 m2 pColl = Ret rc /\ (rc ?= 0) = value_compare cc (value_of m1) (value_of m2)
     /\ sqlite3MemCompare m2 m1 pColl = Ret rc' /\ (rc' ?= 0) = CompOpp (rc ?= 0))
  /\ (same_numbers (value_of m1) (value_of m2) -> same_numbers (value_of m2) (value_of m3) ->
      exists a b c, sqlite3MemCompare m1 m2 pColl = Ret a /\ sqlite3MemCompare m2 m3 pColl = Ret b
        /\ sqlite3MemCompare m1 m3 pColl = Ret c /\ (a <= 0 -> b <= 0 -> c <= 0))
  /\ (sqlite3MemCompare (int_cell (2 ^ 53 + 1)) (real_cell (1076 * 2 ^ 52)) pColl = Ret 0
      /\ sqlite3MemCompare (real_cell (1076 * 2 ^ 52)) (int_cell (2 ^ 53)) pColl = Ret 0
      /\ sqlite3MemCompare (int_cell (2 ^ 53 + 1)) (int_cell (2 ^ 53)) pColl = Ret 1).
Proof.
  pose proof coll_order as Hord.
  destruct (mem_compare_ok m1 m2 pColl cc Hcc H1 H2) as (a & Ha & _ & Sa).
  destruct (mem_compare_ok m2 m1 pColl cc Hcc H2 H1) as (a' & Ha' & _ & Sa').
  destruct (mem_compare_ok m2 m3 pColl cc Hcc H2 H3) as (b & Hb & _ & Sb).
  destruct (mem_compare_ok m1 m3 pColl cc Hcc H1 H3) as (c & Hc & _ & Sc).
  split; [|split; [|by repeat split; vm_compute]].
  - exists a, a'. repeat split; try done. rewrite Sa', Sa. by apply value_compare_antisym.
  - intros S1 S2. exists a, b, c. repeat split; try done.
    change ((a ?= 0) <> Gt -> (b ?= 0) <> Gt -> (c ?= 0) <> Gt). rewrite Sa, Sb, Sc.
    by apply value_compare_trans.
Qed.

(** Three integers and the BINARY sequence. *)
Lemma mem_compare_order_witness :
  let c := Some (mkColl SQLITE_UTF8 (binCollFunc false)) in
  (exists rc rc', sqlite3MemCompare (int_cell 1) (int_cell 2) c = Ret rc
     /\ (rc ?= 0) = value_compare lex_compare (value_of (int_cell 1)) (value_of (int_cell 2))
     /\ sqlite3MemCompare (int_cell 2) (int_cell 1) c = Ret rc' /\ (rc' ?= 0) = CompOpp (rc ?= 0))
  /\ (same_numbers (value_of (int_cell 1)) (value_of (int_cell 2)) ->
      same_numbers (value_of (int_cell 2)) (value_of (int_cell 3)) ->
      exists a b c', sqlite3MemCompare (int_cell 1) (int_cell 2) c = Ret a /\ sqlite3MemCompare (int_cell 2) (int_cell 3) c = Ret b
        /\ sqlite3MemCompare (int_cell 1) (int_cell 3) c = Ret c' /\ (a <= 0 -> b <= 0 -> c' <= 0))
  /\ (sqlite3MemCompare (int_cell (2 ^ 53 + 1)) (real_cell (1076 * 2 ^ 52)) c = Ret 0
      /\ sqlite3MemCompare (real_cell (1076 * 2 ^ 52)) (int_cell (2 ^ 53)) c = Ret 0
      /\ sqlite3MemCompare (int_cell (2 ^ 53 + 1)) (int_cell (2 ^ 53)) c = Ret 1).
Proof.
  assert (forall i, - 2 ^ 63 <= i < 2 ^ 63 -> mem_ok (int_cell i)) as Hok.
  { intros i Hi. by split. }
  apply mem_compare_order; try apply Hok; try lia. apply binary_collation.
Defined.

(** The built-in collating functions on texts: BINARY compares bytes,
    NOCASE compares the texts in front of their first NUL by their letters
    without case and then the lengths, both are total preorders; RTRIM ignores
    spaces at the end where no character is below the space, but with such
    characters it is no order at all: a text with a space behind it equals the
    text, which is less than the text with a tab behind it, which is less than
    the one with the space. *)
Lemma builtin_collations (s1 s2 : list Z)
    (Hb1 : bytes_ok s1) (Hb2 : bytes_ok s2) (H1 : zlen s1 < 2 ^ 31 - 1) (H2 : zlen s2 < 2 ^ 31 - 1) :
  (exists rc, binCollFunc false s1 s2 = Ret rc /\ (rc ?= 0) = lex_compare s1 s2)
  /\ (exists rc, nocaseCollatingFunc s1 s2 = Ret rc /\ (rc ?= 0) = nocase_compare s1 s2)
  /\ (Forall (fun c => 32 <= c) s1 -> Forall (fun c => 32 <= c) s2 ->
      exists rc, binCollFunc true s1 s2 = Ret rc /\ (rc ?= 0) = rtrim_compare s1 s2)
  /\ CmpOrder lex_compare /\ CmpOrder nocase_compare
  /\ (binCollFunc true [97; 32] [97] = Ret 0 /\ binCollFunc true [97] [97; 9] = Ret (-1)
      /\ binCollFunc true [97; 9] [97; 32] = Ret (-1)).
Proof.
  split; [destruct (bin_run s1 s2 H1 H2) as (rc & ? & _ & ?); by exists rc|].
  split; [destruct (proj2 (coll_run (Collation := nocase_collation)) s1 s2 Hb1 Hb2 H1 H2) as (rc & ? & _ & ?); by exists rc|].
  split; [intros F1 F2; destruct (rtrim_run s1 s2 H1 H2 F1 F2) as (rc & ? & _ & ?); by exists rc|].
  split; [apply _|]. split; [apply _|]. done.
Qed.

Lemma builtin_collations_witness :
  (exists rc, binCollFunc false [65] [97; 98] = Ret rc /\ (rc ?= 0) = lex_compare [65] [97; 98])
  /\ (exists rc, nocaseCollatingFunc [65] [97; 98] = Ret rc /\ (rc ?= 0) = nocase_compare [65] [97; 98])
  /\ (Forall (fun c => 32 <= c) [65] -> Forall (fun c => 32 <= c) [97; 98] ->
      exists rc, binCollFunc true [65] [97; 98] = Ret rc /\ (rc ?= 0) = rtrim_compare [65] [97; 98])
  /\ CmpOrder lex_compare /\ CmpOrder nocase_compare
  /\ (binCollFunc true [97; 32] [97] = Ret 0 /\ binCollFunc true [97] [97; 9] = Ret (-1)
      /\ binCollFunc true [97; 9] [97; 32] = Ret (-1)).
Proof. apply (builtin_collations [65] [97; 98]); [repeat constructor; lia..|reflexivity|reflexivity]. Defined.
