(* ===== verification/Record.v ===== *)
(** * Serial types and records

    Model of the storage format of values (misc/sqlite/vdbeaux.c): the serial
    type of a cell, writing and reading its bytes, taking a record apart and
    comparing a record with one that is taken apart, and of the instruction
    that puts a record together (OP_MakeRecord in vdbe.c).

    The negation of an [i64] and shifts of an [int] wrap, as the code relies on
    for the smallest integer and for bytes from 128 on. *)

From Stdlib Require Import SpecFloat.
From S2P Require Import Prelude BitExpr Varint NumText Mem.

Definition MAX_6BYTE : Z := Z.shiftl 0x00008000 32 - 1.

Definition sqlite3VdbeSerialType (pMem : Mem) (file_format : Z) : res Z :=
  if has (flags pMem) MEM_Null then Ret 0 else
  if has (flags pMem) MEM_Int then
    let i := u_i pMem in
    if (4 <=? file_format) && (Z.land i 1 =? i) then Ret (8 + i) else
    let u := u64 (if i <? 0 then s64 (- i) else i) in
    Ret (if u <=? 127 then 1 else if u <=? 32767 then 2 else if u <=? 8388607 then 3
         else if u <=? 2147483647 then 4 else if u <=? MAX_6BYTE then 5 else 6)
  else
  if has (flags pMem) MEM_Real then Ret 7 else
  c_assert (has (flags pMem) (Z.lor MEM_Str MEM_Blob));;
  c_assert (0 <=? n pMem);;
  n2 ← sint (n pMem * 2);
  n2 ← sint (n2 + 12);
  n2 ← sint (n2 + b2z (has (flags pMem) MEM_Str));
  Ret (u32 n2).

Definition aSize : list Z := [0; 1; 2; 3; 4; 6; 8; 8; 0; 0; 0; 0].

Definition sqlite3VdbeSerialTypeLen (serial_type : Z) : res Z :=
  if 12 <=? serial_type then Ret ((serial_type - 12) / 2) else of_opt (rd aSize serial_type).

(** [while( i-- ){ buf[i] = (v&0xFF); v >>= 8; }] with [buf] at the offset [o] *)
Fixpoint put_bytes (i : nat) (v : Z) (o : Z) (buf : list Z) : res (list Z) :=
  match i with
  | O => Ret buf
  | S i => buf ← of_opt (wr buf (o + Z.of_nat i) (Z.land v 255)); put_bytes i (Z.shiftr v 8) o buf
  end.

(** The buffer is a block and the offset of [buf] in it; with [MEM_Zero] 0 no
    blob has a tail of zeros. *)
Definition sqlite3VdbeSerialPut (buf : list Z) (o nBuf : Z) (pMem : Mem) (file_format : Z)
    : res (Z * list Z) :=
  serial_type ← sqlite3VdbeSerialType pMem file_format;
  if (serial_type <=? 7) && (0 <? serial_type) then
    let v := if serial_type =? 7 then r pMem else u64 (u_i pMem) in
    len ← sqlite3VdbeSerialTypeLen serial_type;
    c_assert (len <=? nBuf);;
    buf ← put_bytes (Z.to_nat len) v o buf;
    Ret (len, buf)
  else if 12 <=? serial_type then
    tlen ← sqlite3VdbeSerialTypeLen serial_type;
    c_assert (n pMem =? tlen);;
    c_assert (n pMem <=? nBuf);;
    let len := n pMem in
    src ← cell_bytes pMem;
    buf ← copy_to buf o src;
    Ret (len, buf)
  else Ret (0, buf).

(** [buf[i]] *)
Definition byte_at (buf : list Z) (i : Z) : res Z := of_opt (rd buf i).

Definition set_int (m : Mem) (i : Z) : Mem := mkMem i (r m) (z m) (n m) MEM_Int (enc m).

(** [(buf[i]<<24) | (buf[i+1]<<16) | (buf[i+2]<<8) | buf[i+3]] as an [int] *)
Definition get_int4 (buf : list Z) (i : Z) : res Z :=
  b0 ← byte_at buf i; b1 ← byte_at buf (i + 1); b2 ← byte_at buf (i + 2); b3 ← byte_at buf (i + 3);
  Ret (Z.lor (Z.lor (Z.lor (s32 (Z.shiftl b0 24)) (Z.shiftl b1 16)) (Z.shiftl b2 8)) b3).

(** The cell behind the reading, and the number of bytes read. *)
Definition sqlite3VdbeSerialGet (buf : list Z) (serial_type : Z) (pMem : Mem) : res (Mem * Z) :=
  if (serial_type =? 10) || (serial_type =? 11) || (serial_type =? 0) then
    Ret (mkMem (u_i pMem) (r pMem) (z pMem) (n pMem) MEM_Null (enc pMem), 0)
  else if serial_type =? 1 then
    b0 ← byte_at buf 0; Ret (set_int pMem (schar b0), 1)
  else if serial_type =? 2 then
    b0 ← byte_at buf 0; b1 ← byte_at buf 1;
    Ret (set_int pMem (Z.lor (Z.shiftl (schar b0) 8) b1), 2)
  else if serial_type =? 3 then
    b0 ← byte_at buf 0; b1 ← byte_at buf 1; b2 ← byte_at buf 2;
    Ret (set_int pMem (Z.lor (Z.lor (Z.shiftl (schar b0) 16) (Z.shiftl b1 8)) b2), 3)
  else if serial_type =? 4 then
    i ← get_int4 buf 0; Ret (set_int pMem i, 4)
  else if serial_type =? 5 then
    b0 ← byte_at buf 0; b1 ← byte_at buf 1;
    let x := u64 (Z.lor (Z.shiftl (schar b0) 8) b1) in
    y ← get_int4 buf 2;
    let x := Z.lor (u64 (Z.shiftl x 32)) (u32 y) in
    Ret (set_int pMem (s64 x), 6)
  else if (serial_type =? 6) || (serial_type =? 7) then
    x ← get_int4 buf 0;
    y ← get_int4 buf 4;
    let x := Z.lor (u64 (Z.shiftl (u64 x) 32)) (u32 y) in
    if serial_type =? 6 then Ret (set_int pMem (s64 x), 8)
    else Ret (mkMem (u_i pMem) x (z pMem) (n pMem)
                (if sqlite3IsNaN (dbl x) then MEM_Null else MEM_Real) (enc pMem), 8)
  else if (serial_type =? 8) || (serial_type =? 9) then
    Ret (set_int pMem (serial_type - 8), 0)
  else
    let len := (serial_type - 12) / 2 in
    Ret (mkMem (u_i pMem) (r pMem) buf len
           (Z.lor (if Z.odd serial_type then MEM_Str else MEM_Blob) MEM_Ephem) (enc pMem), len).

(** ** Records *)

Record KeyInfo := mkKeyInfo {
  k_enc : Z;
  incrKey : bool;
  prefixIsEqual : bool;
  nField : Z;
  aSortOrder : option (list bool);
  aColl : list (option CollSeq);
}.

Record UnpackedRecord := mkUnpacked {
  pKeyInfo : KeyInfo;
  needFree : bool;
  aMem : list Mem;         (** [nField] cells *)
}.

(** [&aKey[d]] *)
Definition ptr_at (aKey : list Z) (d : Z) : res (list Z) :=
  if 0 <=? d then Ret (drop (Z.to_nat d) aKey) else UB.

(** A cell as the stack or the allocator gives it, with the fields that the
    code sets before it is used. *)
Definition fresh_cell (junk : Mem) (k : KeyInfo) : Mem :=
  mkMem (u_i junk) (r junk) (z junk) (n junk) 0 (k_enc k).

(** [while( idx<szHdr && i<p->nField )]; the cells in the order of the fields. *)
Fixpoint unpack_loop (fuel : nat) (junk : Mem) (k : KeyInfo) (nKey : Z) (aKey : list Z)
    (szHdr idx d i nF : Z) (cells : list Mem) : res (list Mem) :=
  match fuel with
  | O => NoFuel
  | S fuel =>
      if (idx <? szHdr) && (i <? nF) then
        '(w, serial_type) ← getVarint32 (drop (Z.to_nat idx) aKey);
        let idx := idx + w in
        stop ← (if nKey <=? d then len ← sqlite3VdbeSerialTypeLen serial_type; Ret (0 <? len) else Ret false);
        if stop : bool then Ret cells else
        p ← ptr_at aKey d;
        '(m, len) ← sqlite3VdbeSerialGet p serial_type (fresh_cell junk k);
        d ← sint (d + len);
        unpack_loop fuel junk k nKey aKey szHdr idx d (i + 1) nF (cells ++ [m])
      else Ret cells
  end.

Section unpack.
Context (tg : target) (junk : Mem).

Definition sizeof_Mem : Z := match tg with ILP32 => 40 | LP64 => 56 end.

(** [None]: no memory for the result. A varint takes at least one byte, so that
    the header bounds the number of rounds. *)
Definition sqlite3VdbeRecordUnpack (k : KeyInfo) (nKey : Z) (aKey : list Z) (szSpace : Z) (o : list bool)
    : res (option UnpackedRecord * list bool) :=
  nByte ← sint (sizeof_Mem * (nField k + 2));
  let '(room, need, o) :=
    if szSpace <? nByte then let '(ok, o) := next_alloc o in (ok, true, o) else (true, false, o) in
  if room : bool then
    '(idx, szHdr) ← getVarint32 aKey;
    cells ← unpack_loop (S (length aKey)) junk k nKey aKey szHdr idx (s32 szHdr) 0 (u16 (nField k + 1)) [];
    Ret (Some (mkUnpacked k need cells), o)
  else Ret (None, o).

(** [while( idx1<szHdr1 && i<pPKey2->nField )]: the result, the field reached and
    the offset of the next data. *)
Fixpoint compare_loop (fuel : nat) (p2 : UnpackedRecord) (nKey1 : Z) (aKey1 : list Z)
    (szHdr1 idx1 d1 i : Z) (mem1 : Mem) : res (Z * Z * Z) :=
  match fuel with
  | O => NoFuel
  | S fuel =>
      if (idx1 <? szHdr1) && (i <? zlen (aMem p2)) then
        '(w, serial_type1) ← getVarint32 (drop (Z.to_nat idx1) aKey1);
        let idx1 := u32 (idx1 + w) in
        stop ← (if u32 nKey1 <=? d1 then len ← sqlite3VdbeSerialTypeLen serial_type1; Ret (0 <? len) else Ret false);
        if stop : bool then Ret (0, i, d1) else
        '(mem1, len) ← sqlite3VdbeSerialGet (drop (Z.to_nat d1) aKey1) serial_type1 mem1;
        let d1 := u32 (d1 + len) in
        m2 ← of_opt (rd (aMem p2) i);
        coll ← (if i <? nField (pKeyInfo p2) then of_opt (rd (aColl (pKeyInfo p2)) i) else Ret None);
        rc ← sqlite3MemCompare mem1 m2 coll;
        if negb (rc =? 0) then Ret (rc, i, d1)
        else compare_loop fuel p2 nKey1 aKey1 szHdr1 idx1 d1 (i + 1) mem1
      else Ret (0, i, d1)
  end.

Definition sqlite3VdbeRecordCompare (nKey1 : Z) (aKey1 : list Z) (p2 : UnpackedRecord) : res Z :=
  let k := pKeyInfo p2 in
  '(idx1, szHdr1) ← getVarint32 aKey1;
  '(rc, i, d1) ← compare_loop (S (length aKey1)) p2 nKey1 aKey1 szHdr1 idx1 szHdr1 0 (fresh_cell junk k);
  if rc =? 0 then
    Ret (if incrKey k then -1
         else if negb (prefixIsEqual k) then if d1 <? u32 nKey1 then 1 else rc
         else rc)
  else
    match aSortOrder k with
    | Some a =>
        if i <? nField k then desc ← of_opt (rd a i); if desc : bool then sint (- rc) else Ret rc
        else Ret rc
    | None => Ret rc
    end.

End unpack.

Definition sqlite3VdbeIdxRowidLen (aKey : list Z) : res Z :=
  '(_, szHdr) ← getVarint32 aKey;
  '(_, typeRowid) ← getVarint32 (drop (Z.to_nat (u32 (szHdr - 1))) aKey);
  sqlite3VdbeSerialTypeLen typeRowid.

(** ** OP_MakeRecord *)

(** The first loop: the bytes of the data and of the types. *)
Fixpoint record_sizes (file_format : Z) (ms : list Mem) (nData nHdr : Z) : res (Z * Z) :=
  match ms with
  | [] => Ret (nData, nHdr)
  | m :: ms =>
      serial_type ← sqlite3VdbeSerialType m file_format;
      len ← sqlite3VdbeSerialTypeLen serial_type;
      w ← sqlite3VarintLen serial_type;
      nHdr ← sint (nHdr + w);
      record_sizes file_format ms (u64 (nData + len)) nHdr
  end.

(** The length of the header counts itself. *)
Definition header_size (nHdr : Z) : res Z :=
  nVarint ← sqlite3VarintLen nHdr;
  nHdr ← sint (nHdr + nVarint);
  w ← sqlite3VarintLen nHdr;
  if nVarint <? w then sint (nHdr + 1) else Ret nHdr.

(** [putVarint32(&zNewRecord[i], v)] *)
Definition put_at (buf : list Z) (i v : Z) : res (Z * list Z) :=
  bs ← putVarint32 v; buf ← copy_to buf i bs; Ret (i + zlen bs, buf).

Fixpoint record_types (file_format : Z) (ms : list Mem) (i : Z) (buf : list Z) : res (Z * list Z) :=
  match ms with
  | [] => Ret (i, buf)
  | m :: ms =>
      serial_type ← sqlite3VdbeSerialType m file_format;
      '(i, buf) ← put_at buf i serial_type;
      record_types file_format ms i buf
  end.

Fixpoint record_data (file_format : Z) (ms : list Mem) (nByte i : Z) (buf : list Z) : res (Z * list Z) :=
  match ms with
  | [] => Ret (i, buf)
  | m :: ms =>
      '(len, buf) ← sqlite3VdbeSerialPut buf i (nByte - i) m file_format;
      record_data file_format ms nByte (i + len) buf
  end.

(** How the instruction ends. *)
Inductive make_result :=
| MadeRecord (pOut : Mem)
| TooBig
| NoMem.

(** The fields [ms] are those behind [applyAffinity]; [grow nByte] is the buffer
    that [sqlite3VdbeMemGrow] gives the output cell. *)
Definition op_MakeRecord (file_format limit_length : Z) (grow : Z -> option (list Z)) (out : Mem) (ms : list Mem)
    : res make_result :=
  '(nData, nHdr) ← record_sizes file_format ms 0 0;
  nHdr ← header_size nHdr;
  let nByte := u64 (nHdr + nData) in
  if limit_length <? nByte then Ret TooBig else
  match grow nByte with
  | None => Ret NoMem
  | Some zNewRecord =>
      '(i, zNewRecord) ← put_at zNewRecord 0 nHdr;
      '(i, zNewRecord) ← record_types file_format ms i zNewRecord;
      '(i, zNewRecord) ← record_data file_format ms nByte i zNewRecord;
      c_assert (i =? nByte);;
      Ret (MadeRecord (mkMem (u_i out) (r out) zNewRecord nByte (Z.lor MEM_Blob MEM_Dyn) SQLITE_UTF8))
  end.

(** ** Bytes of big-endian integers *)

Fixpoint be_bytes (k : nat) (v : Z) : list Z :=
  match k with
  | O => []
  | S k => be_bytes k (Z.shiftr v 8) ++ [v mod 256]
  end.

Lemma be_bytes_length k v : length (be_bytes k v) = k.
Proof. revert v. induction k as [|k IH]; intros v; [done|]. cbn [be_bytes]. rewrite length_app, IH. simpl. lia. Qed.

Lemma be_bytes_ok k v : bytes_ok (be_bytes k v).
Proof.
  revert v. induction k as [|k IH]; intros v; [constructor|]. cbn [be_bytes]. apply Forall_app. split; [apply IH|].
  constructor; [|constructor]. apply Z.mod_pos_bound. lia.
Qed.

Lemma be_bytes_mod (k : nat) j v : 8 * Z.of_nat k <= j -> be_bytes k (v mod 2 ^ j) = be_bytes k v.
Proof.
  revert j v. induction k as [|k IH]; intros j v Hj; [done|]. cbn [be_bytes]. f_equal; [|f_equal].
  - rewrite !Z.shiftr_div_pow2 by lia.
    assert (v mod 2 ^ j / 2 ^ 8 = (v / 2 ^ 8) mod 2 ^ (j - 8)) as ->; [|apply IH; lia].
    replace (2 ^ j) with (2 ^ 8 * 2 ^ (j - 8)) by (rewrite <- Z.pow_add_r by lia; f_equal; lia).
    pose proof (pow2_pos (j - 8) ltac:(lia)). rewrite Z.rem_mul_r by lia.
    rewrite Z.mul_comm, Z.div_add by lia. rewrite (Z.div_small (v mod 2 ^ 8)); [lia|]. apply Z.mod_pos_bound. lia.
  - rewrite <- Znumtheory.Zmod_div_mod; [done|lia|apply pow2_pos; lia|]. exists (2 ^ (j - 8)). change 256 with (2 ^ 8).
    rewrite <- Z.pow_add_r by lia. f_equal. lia.
Qed.

Lemma be_bytes_add a b v : be_bytes (a + b) v = be_bytes a (Z.shiftr v (8 * Z.of_nat b)) ++ be_bytes b v.
Proof.
  revert v. induction b as [|b IH]; intros v; [by rewrite Nat.add_0_r, Z.mul_0_r, Z.shiftr_0_r, app_nil_r|].
  rewrite Nat.add_succ_r. cbn [be_bytes]. rewrite IH, Z.shiftr_shiftr by lia. rewrite <- app_assoc. do 3 f_equal. lia.
Qed.

Lemma land_255 v : Z.land v 255 = v mod 256.
Proof. apply (land_ones_mod v 8). lia. Qed.

Lemma put_bytes_spec k : forall v a old c,
  length old = k -> put_bytes k v (zlen a) (a ++ old ++ c) = Ret (a ++ be_bytes k v ++ c).
Proof.
  induction k as [|k IH]; intros v a old c Hl; [by destruct old|].
  destruct old as [|y old _] using rev_ind; [done|]. rewrite length_app in Hl. simpl in Hl.
  cbn [put_bytes be_bytes]. rewrite <- (app_assoc old). cbn [app].
  replace (zlen a + Z.of_nat k) with (zlen (a ++ old)) by size. rewrite app_assoc, wr_middle. crun.
  rewrite <- app_assoc, IH by lia. by rewrite land_255, <- !app_assoc.
Qed.

Lemma copy_to_spec src : forall a old c,
  length old = length src -> copy_to (a ++ old ++ c) (zlen a) src = Ret (a ++ src ++ c).
Proof.
  induction src as [|x src IH]; intros a old c Hl; [by destruct old|].
  destruct old as [|y old]; [done|]. cbn [copy_to app]. rewrite wr_middle. crun.
  replace (a ++ x :: old ++ c) with ((a ++ [x]) ++ old ++ c) by (by rewrite <- app_assoc).
  replace (zlen a + 1) with (zlen (a ++ [x])) by size. rewrite IH by (simpl in Hl; lia). by rewrite <- app_assoc.
Qed.

Lemma lor_mul_low a b k : 0 <= k -> 0 <= b < 2 ^ k -> Z.lor (a * 2 ^ k) b = a * 2 ^ k + b.
Proof. intros Hk Hb. rewrite <- (lor_add_low a b k Hk Hb). by rewrite Z.shiftl_mul_pow2. Qed.

(** Joining bytes with [|] and [<<]. *)
Lemma lor_bytes2 x b : is_byte b -> Z.lor (Z.shiftl x 8) b = x * 2 ^ 8 + b.
Proof. intros. by apply lor_add_low. Qed.

Lemma lor_bytes3 x b1 b2 : is_byte b1 -> is_byte b2 ->
  Z.lor (Z.lor (Z.shiftl x 16) (Z.shiftl b1 8)) b2 = (x * 2 ^ 8 + b1) * 2 ^ 8 + b2.
Proof.
  unfold is_byte. intros H1 H2. rewrite (Z.shiftl_mul_pow2 b1), lor_add_low by lia.
  replace (x * 2 ^ 16 + b1 * 2 ^ 8) with ((x * 2 ^ 8 + b1) * 2 ^ 8) by lia. by rewrite lor_mul_low by lia.
Qed.

Lemma lor_bytes4 x b1 b2 b3 : is_byte b1 -> is_byte b2 -> is_byte b3 ->
  Z.lor (Z.lor (Z.lor (x * 2 ^ 24) (Z.shiftl b1 16)) (Z.shiftl b2 8)) b3 = ((x * 2 ^ 8 + b1) * 2 ^ 8 + b2) * 2 ^ 8 + b3.
Proof.
  unfold is_byte. intros H1 H2 H3. rewrite !Z.shiftl_mul_pow2 by lia.
  rewrite (lor_mul_low x _ 24) by lia. replace (x * 2 ^ 24 + b1 * 2 ^ 16) with ((x * 2 ^ 8 + b1) * 2 ^ 16) by lia.
  rewrite (lor_mul_low _ _ 16) by lia.
  replace ((x * 2 ^ 8 + b1) * 2 ^ 16 + b2 * 2 ^ 8) with (((x * 2 ^ 8 + b1) * 2 ^ 8 + b2) * 2 ^ 8) by lia.
  by rewrite lor_mul_low by lia.
Qed.

Lemma schar_byte b : is_byte b -> schar b = (b + 2 ^ 7) mod 2 ^ 8 - 2 ^ 7.
Proof.
  unfold is_byte, schar. intros Hb. destruct (Z.ltb_spec b 128).
  - rewrite Z.mod_small by lia. lia.
  - rewrite (Z.mod_eq (b + 2 ^ 7)) by lia. replace ((b + 2 ^ 7) / 2 ^ 8) with 1; [lia|].
    apply (Z.div_unique _ _ 1 (b - 128)); lia.
Qed.

(** The top byte of a number in the signed range of its width. *)
Lemma schar_top x : - 2 ^ 7 <= x < 2 ^ 7 -> schar (x mod 256) = x.
Proof.
  intros Hx. rewrite schar_byte by (apply Z.mod_pos_bound; lia). change 256 with (2 ^ 8).
  rewrite Z.add_mod_idemp_l by lia. rewrite Z.mod_small by lia. lia.
Qed.

Lemma s32_top b : is_byte b -> s32 (Z.shiftl b 24) = schar b * 2 ^ 24.
Proof.
  intros Hb. rewrite Z.shiftl_mul_pow2 by lia. unfold s32, schar, is_byte in *. destruct (Z.ltb_spec b 128).
  - rewrite Z.mod_small by lia. lia.
  - replace (b * 2 ^ 24 + 2 ^ 31) with ((b * 2 ^ 24 - 2 ^ 31) + 1 * 2 ^ 32) by lia.
    rewrite Z.mod_add, Z.mod_small by lia. lia.
Qed.

Lemma byte_mod v : is_byte (v mod 256).
Proof. apply Z.mod_pos_bound. lia. Qed.

#[export] Hint Resolve byte_mod : core.

Lemma split_byte v : v = Z.shiftr v 8 * 2 ^ 8 + v mod 256.
Proof. rewrite Z.shiftr_div_pow2 by lia. change 256 with (2 ^ 8). pose proof (Z.div_mod v (2 ^ 8)). lia. Qed.

Lemma schar_cong x : exists q, schar (x mod 256) = x - 256 * q /\ - 2 ^ 7 <= schar (x mod 256) < 2 ^ 7.
Proof.
  rewrite schar_byte by done. change 256 with (2 ^ 8). rewrite Z.add_mod_idemp_l by lia.
  pose proof (Z.mod_pos_bound (x + 2 ^ 7) (2 ^ 8) ltac:(lia)). pose proof (Z.div_mod (x + 2 ^ 7) (2 ^ 8)).
  exists ((x + 2 ^ 7) / 2 ^ 8). lia.
Qed.

Lemma s32_unique w v q : - 2 ^ 31 <= v < 2 ^ 31 -> w = v + q * 2 ^ 32 -> s32 w = v.
Proof.
  intros Hv ->. unfold s32. replace (v + q * 2 ^ 32 + 2 ^ 31) with ((v + 2 ^ 31) + q * 2 ^ 32) by lia.
  rewrite Z.mod_add, Z.mod_small by lia. lia.
Qed.

Lemma s64_unique w v q : - 2 ^ 63 <= v < 2 ^ 63 -> w = v + q * 2 ^ 64 -> s64 w = v.
Proof.
  intros Hv ->. unfold s64. replace (v + q * 2 ^ 64 + 2 ^ 63) with ((v + 2 ^ 63) + q * 2 ^ 64) by lia.
  rewrite Z.mod_add, Z.mod_small by lia. lia.
Qed.

Lemma be_bytes_4 w : be_bytes 4 w =
  [Z.shiftr (Z.shiftr (Z.shiftr w 8) 8) 8 mod 256; Z.shiftr (Z.shiftr w 8) 8 mod 256; Z.shiftr w 8 mod 256; w mod 256].
Proof. reflexivity. Qed.

Lemma rd_quad {A} (x0 x1 x2 x3 : A) l :
  rd (x0 :: x1 :: x2 :: x3 :: l) 1 = Some x1 /\ rd (x0 :: x1 :: x2 :: x3 :: l) 2 = Some x2
  /\ rd (x0 :: x1 :: x2 :: x3 :: l) 3 = Some x3.
Proof. done. Qed.

Lemma get_int4_be a w c : get_int4 (a ++ be_bytes 4 w ++ c) (zlen a) = Ret (s32 w).
Proof.
  rewrite be_bytes_4. set (w1 := Z.shiftr w 8). set (w2 := Z.shiftr w1 8). set (w3 := Z.shiftr w2 8).
  unfold get_int4, byte_at. cbn [app].
  rewrite rd_middle. crun. rewrite !rd_app_r by lia.
  rewrite !(proj1 (rd_quad _ _ _ _ _)), !(proj1 (proj2 (rd_quad _ _ _ _ _))), !(proj2 (proj2 (rd_quad _ _ _ _ _))).
  crun. rewrite s32_top by done.
  rewrite lor_bytes4 by done. f_equal. symmetry.
  pose proof (split_byte w). pose proof (split_byte w1). pose proof (split_byte w2). fold w1 in H. fold w2 in H0. fold w3 in H1.
  destruct (schar_cong w3) as (q & Hq & Hr). pose proof (byte_mod w2). pose proof (byte_mod w1). pose proof (byte_mod w).
  unfold is_byte in *. apply (s32_unique _ _ q); lia.
Qed.

(** ** Values in records *)

Definition MAX_LENGTH : Z := 1000000000.

(** The serial type and the bytes of a value. *)
Definition serial_type (ff : Z) (v : value) : Z :=
  match v with
  | VNull => 0
  | VInt i =>
      if (4 <=? ff) && ((i =? 0) || (i =? 1)) then 8 + i
      else let u := Z.abs i in
        if u <=? 127 then 1 else if u <=? 32767 then 2 else if u <=? 8388607 then 3
        else if u <=? 2147483647 then 4 else if u <=? 2 ^ 47 - 1 then 5 else 6
  | VReal _ => 7
  | VText s => 2 * zlen s + 13
  | VBlob s => 2 * zlen s + 12
  end.

Definition type_len (t : Z) : Z := if 12 <=? t then (t - 12) / 2 else default 0 (rd aSize t).

Definition serial_data (ff : Z) (v : value) : list Z :=
  match v with
  | VNull => []
  | VInt i => be_bytes (Z.to_nat (type_len (serial_type ff v))) i
  | VReal b => be_bytes 8 b
  | VText s | VBlob s => s
  end.

(** A cell that a record can hold. *)
Definition storable (m : Mem) : Prop := mem_ok m /\ (has_bytes m -> n m <= MAX_LENGTH).

Lemma land_1_self i : (Z.land i 1 =? i) = (i =? 0) || (i =? 1).
Proof.
  assert (Z.land i 1 = i mod 2) as -> by (by apply (land_ones_mod i 1)). pose proof (Z.mod_pos_bound i 2 ltac:(lia)).
  pose proof (Z.div_mod i 2 ltac:(lia)).
  destruct (Z.eqb_spec (i mod 2) i), (Z.eqb_spec i 0), (Z.eqb_spec i 1); simpl; try done; try lia.
Qed.

Lemma abs_u64 i : - 2 ^ 63 <= i < 2 ^ 63 -> u64 (if i <? 0 then s64 (- i) else i) = Z.abs i.
Proof.
  intros Hi. destruct (Z.ltb_spec i 0); [|rewrite u64_id; unfold is_u64; lia].
  destruct (decide (i = - 2 ^ 63)) as [->|Hne]; [done|].
  rewrite (s64_unique (- i) (- i) 0) by lia. rewrite u64_id; unfold is_u64; lia.
Qed.

Lemma has_bytes_text m : has (flags m) MEM_Str = true -> has_bytes m.
Proof. intros H. rewrite has_lor_r, H. done. Qed.

Lemma has_bytes_blob m : has (flags m) MEM_Blob = true -> has_bytes m.
Proof. intros H. rewrite has_lor_r, H. by rewrite orb_true_r. Qed.

Lemma cell_size m : storable m -> has_bytes m ->
  zlen (take (Z.to_nat (n m)) (z m)) = n m /\ 0 <= n m <= MAX_LENGTH.
Proof.
  intros [Hm Hl] Hb. destruct (mo_bytes _ Hm Hb) as (_ & Hn & _). specialize (Hl Hb). split; [size|lia].
Qed.

Lemma serial_type_ok m ff :
  storable m -> sqlite3VdbeSerialType m ff = Ret (serial_type ff (value_of m))
    /\ is_u32 (serial_type ff (value_of m)).
Proof.
  intros Hs. destruct Hs as [Hm Hl] eqn:E. clear E. pose proof (mem_kind m Hm) as Hk.
  unfold sqlite3VdbeSerialType, MAX_LENGTH in *.
  destruct (value_of m) as [|i|b|s|s] eqn:V; unfold value_of in V; mem_flags; simplify_eq; cbn [serial_type].
  - split; [done|]. unfold is_u32. lia.
  - specialize (mo_int _ Hm ltac:(done)) as Hi. rewrite land_1_self, abs_u64 by done.
    change MAX_6BYTE with (2 ^ 47 - 1). unfold is_u32.
    destruct (Z.eqb_spec (u_i m) 0), (Z.eqb_spec (u_i m) 1), (4 <=? ff); cbn [orb andb];
      try (split; [done|lia]); (split; [done|]); repeat destruct (_ <=? _); lia.
  - split; [done|]. unfold is_u32. lia.
  - destruct (cell_size m Hs (has_bytes_text m ltac:(done))) as [-> Hn]. unfold MAX_LENGTH in Hn.
    rewrite has_lor_r. mem_flags. cbn [orb]. crun. rewrite (proj2 (Z.leb_le 0 (n m))) by lia. crun.
    rewrite !sint_id by (cbn [b2z]; lia). crun. rewrite !sint_id by (cbn [b2z]; lia). crun. rewrite !sint_id by (cbn [b2z]; lia). crun.
    cbn [b2z]. unfold is_u32. rewrite u32_id by (unfold is_u32; lia). split; [f_equal; lia|lia].
  - destruct (cell_size m Hs (has_bytes_blob m ltac:(done))) as [-> Hn]. unfold MAX_LENGTH in Hn.
    rewrite has_lor_r. mem_flags. cbn [orb]. crun. rewrite (proj2 (Z.leb_le 0 (n m))) by lia. crun.
    rewrite !sint_id by (cbn [b2z]; lia). crun. rewrite !sint_id by (cbn [b2z]; lia). crun. rewrite !sint_id by (cbn [b2z]; lia). crun.
    cbn [b2z]. unfold is_u32. rewrite u32_id by (unfold is_u32; lia). split; [f_equal; lia|lia].
Qed.

Lemma type_len_ok t : is_u32 t -> sqlite3VdbeSerialTypeLen t = Ret (type_len t).
Proof.
  unfold is_u32, sqlite3VdbeSerialTypeLen, type_len. intros Ht. destruct (Z.leb_spec 12 t); [done|].
  destruct (rd_lt aSize t) as [x ->]; [change (zlen aSize) with 12; lia|done].
Qed.

Lemma int_types ff i : - 2 ^ 63 <= i < 2 ^ 63 ->
  let t := serial_type ff (VInt i) in
  (t = 8 /\ i = 0) \/ (t = 9 /\ i = 1) \/ (t = 1 /\ - 2 ^ 7 <= i < 2 ^ 7) \/ (t = 2 /\ - 2 ^ 15 <= i < 2 ^ 15)
  \/ (t = 3 /\ - 2 ^ 23 <= i < 2 ^ 23) \/ (t = 4 /\ - 2 ^ 31 <= i < 2 ^ 31) \/ (t = 5 /\ - 2 ^ 47 <= i < 2 ^ 47)
  \/ (t = 6 /\ - 2 ^ 63 <= i < 2 ^ 63).
Proof.
  intros Hi. cbn [serial_type]. destruct (Z.eqb_spec i 0), (Z.eqb_spec i 1), (4 <=? ff); cbn [andb orb];
    repeat match goal with |- context [Z.abs i <=? ?k] => destruct (Z.leb_spec (Z.abs i) k) end; lia.
Qed.

Lemma type_len_data ff v :
  match v with VInt i => - 2 ^ 63 <= i < 2 ^ 63 | _ => True end ->
  type_len (serial_type ff v) = zlen (serial_data ff v).
Proof.
  intros Hv. destruct v as [|i|b|s|s]; [done| |done| |].
  - cbn [serial_data]. unfold zlen. rewrite be_bytes_length.
    destruct (int_types ff i Hv) as [[-> _]|[[-> _]|[[-> _]|[[-> _]|[[-> _]|[[-> _]|[[-> _]|[-> _]]]]]]]]; done.
  - cbn [serial_type serial_data]. unfold type_len. pose proof (zlen_nonneg s).
    rewrite (proj2 (Z.leb_le 12 (2 * zlen s + 13))) by lia.
    replace (2 * zlen s + 13 - 12) with (1 + zlen s * 2) by lia. by rewrite Z.div_add.
  - cbn [serial_type serial_data]. unfold type_len. pose proof (zlen_nonneg s).
    rewrite (proj2 (Z.leb_le 12 (2 * zlen s + 12))) by lia.
    replace (2 * zlen s + 12 - 12) with (zlen s * 2) by lia. by rewrite Z.div_mul.
Qed.

Definition int_range (v : value) : Prop := match v with VInt i => - 2 ^ 63 <= i < 2 ^ 63 | _ => True end.

Lemma storable_range m : mem_ok m -> int_range (value_of m).
Proof.
  intros Hm. pose proof (mem_kind m Hm) as Hk. destruct (value_of m) eqn:V; try done.
  unfold value_of in V. mem_flags. simplify_eq. by apply (mo_int _ Hm).
Qed.

(** Writing a value fills exactly its bytes. *)
Lemma serial_put_ok m ff a old c nBuf :
  storable m -> length old = length (serial_data ff (value_of m)) -> zlen old <= nBuf ->
  sqlite3VdbeSerialPut (a ++ old ++ c) (zlen a) nBuf m ff
  = Ret (zlen old, a ++ serial_data ff (value_of m) ++ c).
Proof.
  intros Hs Hlen Hbuf. pose proof Hs as [Hm Hl]. destruct (serial_type_ok m ff Hs) as [Ht Hu].
  unfold sqlite3VdbeSerialPut. rewrite Ht. crun. clear Ht.
  assert (zlen old = type_len (serial_type ff (value_of m))) as Hz.
  { rewrite type_len_data by (by apply storable_range). unfold zlen. by rewrite Hlen. }
  rewrite !type_len_ok by done. pose proof (mem_kind m Hm) as Hk.
  destruct (value_of m) as [|i|b|s|s] eqn:V.
  - cbn [serial_type serial_data] in *. by destruct old.
  - assert (int_range (VInt i)) as Hr by (rewrite <- V; by apply storable_range). cbn [int_range] in Hr.
    assert (i = u_i m) as -> by (unfold value_of in V; mem_flags; by simplify_eq).
    destruct (int_types ff (u_i m) Hr) as [[Ht Hi]|[[Ht Hi]|Hother]].
    + cbn [serial_data] in *. rewrite Ht in *. by destruct old.
    + cbn [serial_data] in *. rewrite Ht in *. by destruct old.
    + set (t := serial_type ff (VInt (u_i m))) in *.
      assert (1 <= t <= 6) as Ht16 by lia.
      assert ((t <=? 7) && (0 <? t) = true) as -> by (apply andb_true_iff; rewrite Z.leb_le, Z.ltb_lt; lia).
      crun. rewrite <- Hz. rewrite (proj2 (Z.leb_le (zlen old) nBuf)) by lia. crun. rewrite (proj2 (Z.eqb_neq t 7)) by lia.
      rewrite put_bytes_spec by (unfold zlen; lia). crun. cbn [serial_data]. fold t. rewrite <- Hz. unfold u64.
      rewrite be_bytes_mod; [done|]. rewrite Z2Nat.id by auto. rewrite Hz. unfold type_len.
      destruct (decide (t = 1 \/ t = 2 \/ t = 3 \/ t = 4 \/ t = 5 \/ t = 6)) as [Hd|Hd]; [|lia].
      by destruct Hd as [-> |[-> |[-> |[-> |[-> | ->]]]]].
  - cbn [serial_type serial_data] in *. change ((7 <=? 7) && (0 <? 7)) with true. cbv iota. change (7 =? 7) with true. cbv iota. crun.
    rewrite <- Hz, (proj2 (Z.leb_le (zlen old) nBuf)) by lia. crun. rewrite be_bytes_length in Hlen.
    rewrite put_bytes_spec by (unfold zlen; lia). crun.
    assert (b = r m) as -> by (unfold value_of in V; mem_flags; by simplify_eq). unfold zlen. by rewrite Nat2Z.id, Hlen.
  - mem_flags. destruct (cell_size m Hs (has_bytes_text m ltac:(done))) as [Hs1 Hn].
    assert (s = take (Z.to_nat (n m)) (z m)) as -> by (unfold value_of in V; mem_flags; by simplify_eq).
    cbn [serial_type serial_data] in *. rewrite Hs1 in *.
    rewrite (proj2 (Z.leb_gt (2 * n m + 13) 7)), (proj2 (Z.leb_le 12 (2 * n m + 13))) by lia. cbn [andb]. crun. rewrite <- Hz.
    assert (zlen old = n m) as Ho by (unfold zlen in *; lia).
    rewrite Ho, Z.eqb_refl. crun. rewrite (proj2 (Z.leb_le (n m) nBuf)) by lia. crun.
    rewrite cell_bytes_ok by (done || by apply has_bytes_text). crun. by rewrite copy_to_spec.
  - mem_flags. destruct (cell_size m Hs (has_bytes_blob m ltac:(done))) as [Hs1 Hn].
    assert (s = take (Z.to_nat (n m)) (z m)) as -> by (unfold value_of in V; mem_flags; by simplify_eq).
    cbn [serial_type serial_data] in *. rewrite Hs1 in *.
    rewrite (proj2 (Z.leb_gt (2 * n m + 12) 7)), (proj2 (Z.leb_le 12 (2 * n m + 12))) by lia. cbn [andb]. crun. rewrite <- Hz.
    assert (zlen old = n m) as Ho by (unfold zlen in *; lia).
    rewrite Ho, Z.eqb_refl. crun. rewrite (proj2 (Z.leb_le (n m) nBuf)) by lia. crun.
    rewrite cell_bytes_ok by (done || by apply has_bytes_blob). crun. by rewrite copy_to_spec.
Qed.

(** What a reader gets: the value, in a cell that is well formed. *)
Lemma s64_wrap i : - 2 ^ 63 <= i < 2 ^ 63 -> s64 (i mod 2 ^ 64) = i.
Proof. intros Hi. apply (s64_unique _ _ (- (i / 2 ^ 64))); [done|]. rewrite Z.mod_eq by lia. lia. Qed.

Lemma s32_signed i : - 2 ^ 31 <= i < 2 ^ 31 -> s32 i = i.
Proof. intros Hi. by apply (s32_unique _ _ 0); lia. Qed.

Lemma u32_s32 w : u32 (s32 w) = w mod 2 ^ 32.
Proof.
  unfold u32, s32. rewrite Zminus_mod_idemp_l. f_equal. lia.
Qed.

(** The two words of eight bytes. *)
Lemma join_words v : Z.lor (u64 (Z.shiftl (u64 (s32 (Z.shiftr v 32))) 32)) (u32 (s32 v)) = v mod 2 ^ 64.
Proof.
  rewrite u32_s32. assert (u64 (Z.shiftl (u64 (s32 (Z.shiftr v 32))) 32) = (Z.shiftr v 32 mod 2 ^ 32) * 2 ^ 32) as ->.
  { unfold u64. rewrite Z.shiftl_mul_pow2 by lia.
    replace (2 ^ 64) with (2 ^ 32 * 2 ^ 32) by lia. rewrite Z.mul_mod_distr_r by lia. f_equal.
    rewrite <- Znumtheory.Zmod_div_mod; [apply u32_s32|lia|lia|]. by exists (2 ^ 32). }
  rewrite lor_mul_low by (try lia; apply Z.mod_pos_bound; lia).
  rewrite Z.shiftr_div_pow2 by lia. replace (2 ^ 64) with (2 ^ 32 * 2 ^ 32) by lia. rewrite Z.rem_mul_r by lia. lia.
Qed.

Definition value_ok (v : value) : Prop :=
  match v with
  | VNull => True
  | VInt i => - 2 ^ 63 <= i < 2 ^ 63
  | VReal b => is_u64 b /\ sqlite3IsNaN (dbl b) = false
  | VText s | VBlob s => bytes_ok s /\ zlen s <= MAX_LENGTH
  end.

Lemma storable_value m : storable m -> value_ok (value_of m).
Proof.
  intros Hs. pose proof Hs as [Hm Hl]. pose proof (mem_kind m Hm) as Hk. pose proof (storable_range m Hm) as Hr.
  destruct (value_of m) eqn:V; try done; unfold value_of in V; mem_flags; simplify_eq.
  - by apply (mo_real _ Hm).
  - destruct (cell_size m Hs (has_bytes_text m ltac:(done))) as [C1 C2]. split; [|lia].
    by apply take_bytes, has_bytes_text.
  - destruct (cell_size m Hs (has_bytes_blob m ltac:(done))) as [C1 C2]. split; [|lia].
    by apply take_bytes, has_bytes_blob.
Qed.

Lemma set_int_ok m i : - 2 ^ 63 <= i < 2 ^ 63 -> value_of (set_int m i) = VInt i /\ mem_ok (set_int m i).
Proof. intros Hi. split; [done|]. by split. Qed.

Lemma be_2 w : be_bytes 2 w = [Z.shiftr w 8 mod 256; w mod 256].
Proof. reflexivity. Qed.

(** Reading an integer of each width. *)
Lemma get_int_ok t i rest m :
  (t = 1 /\ - 2 ^ 7 <= i < 2 ^ 7) \/ (t = 2 /\ - 2 ^ 15 <= i < 2 ^ 15)
  \/ (t = 3 /\ - 2 ^ 23 <= i < 2 ^ 23) \/ (t = 4 /\ - 2 ^ 31 <= i < 2 ^ 31) \/ (t = 5 /\ - 2 ^ 47 <= i < 2 ^ 47)
  \/ (t = 6 /\ - 2 ^ 63 <= i < 2 ^ 63) ->
  sqlite3VdbeSerialGet (be_bytes (Z.to_nat (type_len t)) i ++ rest) t m = Ret (set_int m i, type_len t).
Proof.
  intros [[-> Hi]|[[-> Hi]|[[-> Hi]|[[-> Hi]|[[-> Hi]|[-> Hi]]]]]]; unfold sqlite3VdbeSerialGet; cbn [Z.eqb Pos.eqb orb].
  - change (Z.to_nat (type_len 1)) with 1%nat. cbn [be_bytes app]. unfold byte_at. rewrite rd_0. crun.
    rewrite schar_top by lia. done.
  - change (Z.to_nat (type_len 2)) with 2%nat. rewrite be_2. cbn [app]. unfold byte_at. rewrite rd_0.
    change (rd (?x :: ?y :: rest) 1) with (Some y). crun. rewrite lor_bytes2 by done.
    assert (- 2 ^ 7 <= Z.shiftr i 8 < 2 ^ 7) as Hb.
    { rewrite Z.shiftr_div_pow2 by lia. split; [apply Z.div_le_lower_bound|apply Z.div_lt_upper_bound]; lia. }
    rewrite schar_top by done. by rewrite <- split_byte.
  - change (Z.to_nat (type_len 3)) with 3%nat. cbn [be_bytes app]. unfold byte_at. rewrite rd_0.
    change (rd (?x :: ?y :: ?w :: rest) 1) with (Some y). change (rd (?x :: ?y :: ?w :: rest) 2) with (Some w). crun.
    rewrite lor_bytes3 by done.
    assert (- 2 ^ 7 <= Z.shiftr (Z.shiftr i 8) 8 < 2 ^ 7) as Hb.
    { rewrite Z.shiftr_shiftr, Z.shiftr_div_pow2 by lia. split; [apply Z.div_le_lower_bound|apply Z.div_lt_upper_bound]; lia. }
    rewrite schar_top by done. by rewrite <- !split_byte.
  - change (Z.to_nat (type_len 4)) with 4%nat. rewrite (get_int4_be [] i rest : get_int4 (be_bytes 4 i ++ rest) 0 = _). crun.
    by rewrite s32_signed.
  - change (Z.to_nat (type_len 5)) with (2 + 4)%nat. rewrite be_bytes_add, be_2. change (8 * Z.of_nat 4) with 32.
    set (h := Z.shiftr i 32). rewrite <- app_assoc. unfold byte_at. cbn [app]. rewrite rd_0.
    change (rd (?x :: ?y :: ?l) 1) with (Some y). crun. rewrite lor_bytes2 by done.
    rewrite (get_int4_be [Z.shiftr h 8 mod 256; h mod 256] i rest
      : get_int4 (Z.shiftr h 8 mod 256 :: h mod 256 :: be_bytes 4 i ++ rest) 2 = _). crun.
    assert (- 2 ^ 15 <= h < 2 ^ 15) as Hh.
    { unfold h. rewrite Z.shiftr_div_pow2 by lia. split; [apply Z.div_le_lower_bound|apply Z.div_lt_upper_bound]; lia. }
    assert (- 2 ^ 7 <= Z.shiftr h 8 < 2 ^ 7) as Hb.
    { rewrite Z.shiftr_div_pow2 by lia. split; [apply Z.div_le_lower_bound|apply Z.div_lt_upper_bound]; lia. }
    rewrite schar_top, <- split_byte by done. rewrite <- (s32_signed h) by lia. unfold h.
    rewrite join_words, s64_wrap by lia. done.
  - change (Z.to_nat (type_len 6)) with (4 + 4)%nat. rewrite be_bytes_add. change (8 * Z.of_nat 4) with 32. rewrite <- app_assoc.
    rewrite (get_int4_be [] (Z.shiftr i 32) (be_bytes 4 i ++ rest) : get_int4 (be_bytes 4 _ ++ be_bytes 4 i ++ rest) 0 = _).
    crun. rewrite (get_int4_be (be_bytes 4 (Z.shiftr i 32)) i rest : get_int4 (be_bytes 4 _ ++ be_bytes 4 i ++ rest) 4 = _).
    crun. rewrite join_words, s64_wrap by lia. done.
Qed.

(** Reading the bytes of a value gives the value. *)
Lemma serial_get_ok ff v m0 rest :
  value_ok v -> enc m0 = SQLITE_UTF8 -> bytes_ok rest ->
  exists m, sqlite3VdbeSerialGet (serial_data ff v ++ rest) (serial_type ff v) m0 = Ret (m, zlen (serial_data ff v))
    /\ value_of m = v /\ storable m /\ enc m = SQLITE_UTF8.
Proof.
  intros Hv He Hr. assert (zlen (serial_data ff v) = type_len (serial_type ff v)) as Hl.
  { symmetry. apply type_len_data. by destruct v. }
  destruct v as [|i|b|s|s]; cbn [value_ok] in Hv.
  - eexists. split; [reflexivity|]. split; [done|]. split; [|done]. by split.
  - assert (storable (set_int m0 i)) as Hst.
    { split; [by apply set_int_ok|]. done. }
    exists (set_int m0 i). split; [|split; [done|split; [done|exact He]]]. rewrite Hl.
    pose proof (int_types ff i Hv) as Hty. cbn [serial_data] in *. set (t := serial_type ff (VInt i)) in *.
    destruct Hty as [[-> ->]|[[-> ->]|Hty]]; [done..|]. by apply get_int_ok.
  - destruct Hv as [Hb Hn]. cbn [serial_data serial_type]. unfold sqlite3VdbeSerialGet. cbn [Z.eqb Pos.eqb orb].
    change 8%nat with (4 + 4)%nat. rewrite be_bytes_add. change (8 * Z.of_nat 4) with 32. rewrite <- app_assoc.
    rewrite (get_int4_be [] (Z.shiftr b 32) (be_bytes 4 b ++ rest) : get_int4 (be_bytes 4 _ ++ be_bytes 4 b ++ rest) 0 = _).
    crun. rewrite (get_int4_be (be_bytes 4 (Z.shiftr b 32)) b rest : get_int4 (be_bytes 4 _ ++ be_bytes 4 b ++ rest) 4 = _).
    crun. rewrite join_words, (Z.mod_small b) by exact Hb. rewrite Hn.
    eexists. split; [reflexivity|]. split; [done|]. split; [|done]. split; [|done]. split; try done.
  - destruct Hv as [Hb Hn]. cbn [serial_data serial_type] in *. pose proof (zlen_nonneg s). unfold sqlite3VdbeSerialGet.
    repeat (rewrite (proj2 (Z.eqb_neq (2 * zlen s + 13) _)) by lia). cbn [orb].
    replace ((2 * zlen s + 13 - 12) / 2) with (zlen s) by (replace (2 * zlen s + 13 - 12) with (1 + zlen s * 2) by lia; by rewrite Z.div_add).
    assert (Z.odd (2 * zlen s + 13) = true) as ->.
    { replace (2 * zlen s + 13) with (1 + 2 * (zlen s + 6)) by lia. by rewrite Z.odd_add_mul_2. }
    eexists. split; [reflexivity|]. split; [|split; [|exact He]].
    + unfold value_of. cbn. rewrite take_app_zlen. done.
    + split; [|cbn; lia]. split; cbn; try done. intros _. split; [by apply Forall_app|].
      unfold MAX_LENGTH in Hn. rewrite zlen_app. pose proof (zlen_nonneg rest). lia.
  - destruct Hv as [Hb Hn]. cbn [serial_data serial_type] in *. pose proof (zlen_nonneg s). unfold sqlite3VdbeSerialGet.
    repeat (rewrite (proj2 (Z.eqb_neq (2 * zlen s + 12) _)) by lia). cbn [orb].
    destruct (Z.eqb_spec (2 * zlen s + 12) 0); [lia|]. destruct (Z.eqb_spec (2 * zlen s + 12) 1); [lia|].
    replace ((2 * zlen s + 12 - 12) / 2) with (zlen s) by (replace (2 * zlen s + 12 - 12) with (zlen s * 2) by lia; by rewrite Z.div_mul).
    assert (Z.odd (2 * zlen s + 12) = false) as ->.
    { replace (2 * zlen s + 12) with (0 + 2 * (zlen s + 6)) by lia. by rewrite Z.odd_add_mul_2. }
    eexists. split; [reflexivity|]. split; [|split; [|exact He]].
    + unfold value_of. cbn. rewrite take_app_zlen. done.
    + split; [|cbn; lia]. split; cbn; try done. intros _. split; [by apply Forall_app|].
      unfold MAX_LENGTH in Hn. rewrite zlen_app. pose proof (zlen_nonneg rest). lia.
Qed.

(** ** The bytes of a record *)

Definition types_bytes (ff : Z) (vs : list value) : list Z :=
  concat ((fun v => varint_encode (serial_type ff v)) <$> vs).
Definition data_bytes (ff : Z) (vs : list value) : list Z := concat (serial_data ff <$> vs).

(** The header length: it counts its own varint. *)
Definition header_len (ff : Z) (vs : list value) : Z :=
  let h := zlen (types_bytes ff vs) in
  let k := h + zlen (varint_encode h) in
  if zlen (varint_encode h) <? zlen (varint_encode k) then k + 1 else k.

Definition record_bytes (ff : Z) (vs : list value) : list Z :=
  varint_encode (header_len ff vs) ++ types_bytes ff vs ++ data_bytes ff vs.

Lemma types_cons ff v vs : types_bytes ff (v :: vs) = varint_encode (serial_type ff v) ++ types_bytes ff vs.
Proof. reflexivity. Qed.

Lemma data_cons ff v vs : data_bytes ff (v :: vs) = serial_data ff v ++ data_bytes ff vs.
Proof. reflexivity. Qed.

Lemma div_ltb v a b : 0 < a -> (v / a <? b) = (v <? a * b).
Proof.
  intros Ha. pose proof (Z.div_mod v a). pose proof (Z.mod_pos_bound v a Ha).
  destruct (Z.ltb_spec (v / a) b), (Z.ltb_spec v (a * b)); try done; nia.
Qed.

Lemma varint_len_cases v : 0 <= v < 2 ^ 28 ->
  zlen (varint_encode v) = if v <? 2 ^ 7 then 1 else if v <? 2 ^ 14 then 2 else if v <? 2 ^ 21 then 3 else 4.
Proof.
  intros Hv. unfold varint_encode. rewrite (proj2 (Z.ltb_lt v (2 ^ 56))) by lia.
  rewrite (varint_groups_fuel 3 8) by (change (128 ^ Z.of_nat 4) with (2 ^ 28); lia).
  unfold zlen. rewrite length_app, varint_flagged_length. cbn [varint_groups length].
  rewrite !Z.div_div, !div_ltb by lia. change (128 * 128) with (2 ^ 14). change (2 ^ 14 * 128) with (2 ^ 21). change 128 with (2 ^ 7).
  destruct (v <? 2 ^ 7); [done|]. destruct (v <? 2 ^ 14); [done|]. by destruct (v <? 2 ^ 21).
Qed.

(** The lengths of the varints in a goal, by cases. *)
Ltac varint_cases :=
  repeat (rewrite varint_len_cases by lia;
    repeat match goal with |- context [?a <? 2 ^ ?k] => destruct (Z.ltb_spec a (2 ^ k)); try lia end;
    repeat match goal with |- context [?a <? ?b] => destruct (Z.ltb_spec a b); try lia end); try lia.

Lemma header_len_fix ff vs : zlen (types_bytes ff vs) < 2 ^ 27 ->
  header_len ff vs = zlen (types_bytes ff vs) + zlen (varint_encode (header_len ff vs))
  /\ 0 < header_len ff vs < 2 ^ 27 + 5.
Proof.
  intros Hh. unfold header_len. set (h := zlen (types_bytes ff vs)) in *. assert (0 <= h) by (unfold h; auto).
  cbv zeta. rewrite (varint_len_cases h) by lia.
  destruct (Z.ltb_spec h (2 ^ 7)), (Z.ltb_spec h (2 ^ 14)), (Z.ltb_spec h (2 ^ 21)); try lia; varint_cases.
Qed.

Lemma header_size_ok ff vs : zlen (types_bytes ff vs) < 2 ^ 27 ->
  header_size (zlen (types_bytes ff vs)) = Ret (header_len ff vs).
Proof.
  intros Hh. destruct (header_len_fix ff vs Hh) as [_ Hb]. unfold header_size, header_len in *.
  set (h := zlen (types_bytes ff vs)) in *. assert (0 <= h) by (unfold h; auto). cbv zeta in *.
  pose proof (varint_encode_length h ltac:(unfold is_u64; lia)).
  rewrite varint_len_spec by (unfold is_u64; lia). crun. rewrite sint_id by lia. crun.
  rewrite varint_len_spec by (unfold is_u64; lia). crun.
  destruct (_ <? _); [|done]. by rewrite sint_id by lia.
Qed.

Lemma serial_type_u32 ff v : value_ok v -> is_u32 (serial_type ff v).
Proof.
  unfold is_u32. intros Hv. destruct v as [|i|b|s|s]; cbn [value_ok] in Hv.
  - cbn. lia.
  - destruct (int_types ff i Hv) as [[-> _]|[[-> _]|[[-> _]|[[-> _]|[[-> _]|[[-> _]|[[-> _]|[-> _]]]]]]]]; lia.
  - cbn. lia.
  - destruct Hv as [_ Hl]. unfold MAX_LENGTH in Hl. cbn [serial_type]. pose proof (zlen_nonneg s). lia.
  - destruct Hv as [_ Hl]. unfold MAX_LENGTH in Hl. cbn [serial_type]. pose proof (zlen_nonneg s). lia.
Qed.

Lemma u32_u64 v : is_u32 v -> is_u64 v.
Proof. unfold is_u32, is_u64. lia. Qed.

#[local] Hint Resolve serial_type_u32 u32_u64 storable_value : core.

Lemma types_length ff vs : Forall value_ok vs ->
  zlen vs <= zlen (types_bytes ff vs) <= 9 * zlen vs.
Proof.
  induction 1 as [|v vs Hv _ IH]; [done|]. rewrite types_cons, zlen_app, zlen_cons.
  pose proof (varint_encode_length (serial_type ff v) ltac:(auto)). lia.
Qed.

Lemma serial_data_length ff v : value_ok v -> zlen (serial_data ff v) <= MAX_LENGTH.
Proof.
  intros Hv. rewrite <- type_len_data by (by destruct v). unfold MAX_LENGTH.
  destruct v as [|i|b|s|s]; cbn [value_ok] in Hv.
  - by vm_compute.
  - destruct (int_types ff i Hv) as [[-> _]|[[-> _]|[[-> _]|[[-> _]|[[-> _]|[[-> _]|[[-> _]|[-> _]]]]]]]]; by vm_compute.
  - by vm_compute.
  - rewrite type_len_data by done. apply Hv.
  - rewrite type_len_data by done. apply Hv.
Qed.

Lemma data_length ff vs : Forall value_ok vs -> zlen (data_bytes ff vs) <= MAX_LENGTH * zlen vs.
Proof.
  induction 1 as [|v vs Hv _ IH]; [done|]. rewrite data_cons, zlen_app, zlen_cons.
  pose proof (serial_data_length ff v Hv). lia.
Qed.

Lemma serial_data_bytes ff v : value_ok v -> bytes_ok (serial_data ff v).
Proof.
  intros Hv. destruct v; cbn [serial_data]; [constructor|apply be_bytes_ok|apply be_bytes_ok|apply Hv|apply Hv].
Qed.

Lemma record_parts_bytes ff vs : Forall value_ok vs -> bytes_ok (types_bytes ff vs) /\ bytes_ok (data_bytes ff vs).
Proof.
  induction 1 as [|v vs Hv _ [IH1 IH2]]; [split; constructor|]. rewrite types_cons, data_cons. split; apply Forall_app; split; auto.
  - apply varint_encode_bytes. auto.
  - by apply serial_data_bytes.
Qed.

(** ** Putting a record together *)

Lemma put_at_ok a old c v : is_u32 v -> length old = length (varint_encode v) ->
  put_at (a ++ old ++ c) (zlen a) v = Ret (zlen (a ++ varint_encode v), a ++ varint_encode v ++ c).
Proof. intros Hv Hl. unfold put_at. rewrite putVarint32_spec by done. crun. rewrite copy_to_spec by done. crun. by rewrite zlen_app. Qed.

(** A block of memory splits where a part of it is written. *)
Lemma split_room {A} (old : list A) n : n <= zlen old -> exists o1 o2, old = o1 ++ o2 /\ zlen o1 = Z.max 0 n.
Proof.
  intros Hn. exists (take (Z.to_nat n) old), (drop (Z.to_nat n) old). split; [by rewrite take_drop|size].
Qed.

Lemma record_sizes_ok ff ms : forall nData nHdr,
  Forall storable ms -> 0 <= nData -> 0 <= nHdr ->
  nData + zlen (data_bytes ff (value_of <$> ms)) < 2 ^ 63 -> nHdr + zlen (types_bytes ff (value_of <$> ms)) < 2 ^ 31 ->
  record_sizes ff ms nData nHdr
  = Ret (nData + zlen (data_bytes ff (value_of <$> ms)), nHdr + zlen (types_bytes ff (value_of <$> ms))).
Proof.
  induction ms as [|m ms IH]; intros nData nHdr Hs Hd0 Hh0 Hd Hh.
  - cbn [fmap list_fmap record_sizes]. change (zlen (data_bytes ff [])) with 0. change (zlen (types_bytes ff [])) with 0. by rewrite !Z.add_0_r.
  - inversion_clear Hs as [|? ? Hm Hs']. cbn [fmap list_fmap record_sizes] in *.
    rewrite types_cons, data_cons, !zlen_app in *. destruct (serial_type_ok m ff Hm) as [-> Hu]. crun.
    rewrite type_len_ok by done. crun. rewrite varint_len_spec by auto. crun.
    pose proof (zlen_nonneg (varint_encode (serial_type ff (value_of m)))).
    pose proof (zlen_nonneg (types_bytes ff (value_of <$> ms))). pose proof (zlen_nonneg (data_bytes ff (value_of <$> ms))).
    rewrite sint_id by lia. crun. rewrite type_len_data by (by apply storable_range, Hm).
    pose proof (zlen_nonneg (serial_data ff (value_of m))).
    rewrite u64_id by (unfold is_u64; lia). rewrite IH by (done || lia). do 2 f_equal; lia.
Qed.

Lemma record_types_ok ff ms : forall a old c,
  Forall storable ms -> zlen old = zlen (types_bytes ff (value_of <$> ms)) ->
  record_types ff ms (zlen a) (a ++ old ++ c)
  = Ret (zlen (a ++ types_bytes ff (value_of <$> ms)), a ++ types_bytes ff (value_of <$> ms) ++ c).
Proof.
  induction ms as [|m ms IH]; intros a old c Hs Hl.
  - change (zlen (types_bytes ff (value_of <$> []))) with 0 in Hl. destruct old; [|rewrite zlen_cons in Hl; pose proof (zlen_nonneg old); lia].
    cbn [record_types]. by rewrite app_nil_r.
  - inversion_clear Hs as [|? ? Hm Hs']. cbn [fmap list_fmap record_types] in *. rewrite types_cons in *. rewrite zlen_app in Hl.
    destruct (serial_type_ok m ff Hm) as [-> Hu]. crun. set (e := varint_encode (serial_type ff (value_of m))) in *.
    pose proof (zlen_nonneg e). pose proof (zlen_nonneg (types_bytes ff (value_of <$> ms))).
    destruct (split_room old (zlen e) ltac:(lia)) as (o1 & o2 & -> & Ho1). rewrite zlen_app in Hl.
    rewrite <- (app_assoc o1), put_at_ok by (done || (fold e; unfold zlen in *; lia)). crun. fold e. rewrite app_assoc.
    rewrite IH by (done || lia). by rewrite <- !app_assoc.
Qed.

Lemma record_data_ok ff ms nByte : forall a old c,
  Forall storable ms -> zlen old = zlen (data_bytes ff (value_of <$> ms)) -> zlen a + zlen old <= nByte ->
  record_data ff ms nByte (zlen a) (a ++ old ++ c)
  = Ret (zlen (a ++ data_bytes ff (value_of <$> ms)), a ++ data_bytes ff (value_of <$> ms) ++ c).
Proof.
  induction ms as [|m ms IH]; intros a old c Hs Hl Hb.
  - change (zlen (data_bytes ff (value_of <$> []))) with 0 in Hl. destruct old; [|rewrite zlen_cons in Hl; pose proof (zlen_nonneg old); lia].
    cbn [record_data]. by rewrite app_nil_r.
  - inversion_clear Hs as [|? ? Hm Hs']. cbn [fmap list_fmap record_data] in *. rewrite data_cons in *. rewrite zlen_app in Hl.
    set (e := serial_data ff (value_of m)) in *.
    pose proof (zlen_nonneg e). pose proof (zlen_nonneg (data_bytes ff (value_of <$> ms))).
    destruct (split_room old (zlen e) ltac:(lia)) as (o1 & o2 & -> & Ho1). rewrite zlen_app in Hl, Hb.
    rewrite <- (app_assoc o1), serial_put_ok; [|done|fold e; unfold zlen in *; lia|lia]. crun. fold e.
    replace (zlen a + zlen o1) with (zlen (a ++ e)) by (rewrite zlen_app; lia). rewrite app_assoc.
    rewrite IH; [by rewrite <- !app_assoc|done|lia|rewrite zlen_app; lia].
Qed.

(** The instruction stores the record, unless it is too long or memory is short. *)
Lemma make_record_ok ff limit grow out ms :
  Forall storable ms -> zlen ms <= 32767 -> limit <= MAX_LENGTH ->
  (forall k buf, grow k = Some buf -> k <= zlen buf) ->
  let rec := record_bytes ff (value_of <$> ms) in
  op_MakeRecord ff limit grow out ms =
    Ret (if limit <? zlen rec then TooBig else
         match grow (zlen rec) with
         | None => NoMem
         | Some buf => MadeRecord (mkMem (u_i out) (r out) (rec ++ drop (length rec) buf) (zlen rec)
                                     (Z.lor MEM_Blob MEM_Dyn) SQLITE_UTF8)
         end).
Proof.
  intros Hs Hn Hlim Hgrow rec. set (vs := value_of <$> ms) in *.
  assert (Forall value_ok vs) as Hv.
  { apply Forall_fmap. eapply Forall_impl; [exact Hs|]. apply storable_value. }
  assert (zlen vs = zlen ms) as Hvs by (unfold vs; size).
  pose proof (types_length ff vs Hv) as Ht. pose proof (data_length ff vs Hv) as Hd. unfold MAX_LENGTH in *.
  pose proof (zlen_nonneg (data_bytes ff vs)). pose proof (zlen_nonneg ms).
  unfold op_MakeRecord. rewrite record_sizes_ok by (done || (fold vs; lia)). crun. fold vs. rewrite !Z.add_0_l.
  rewrite header_size_ok by lia. crun. destruct (header_len_fix ff vs ltac:(lia)) as [Hfix Hpos].
  assert (header_len ff vs + zlen (data_bytes ff vs) = zlen rec) as Hlen.
  { unfold rec, record_bytes. rewrite !zlen_app. lia. }
  rewrite u64_id by (unfold is_u64; lia). rewrite Hlen. destruct (limit <? zlen rec); [done|].
  destruct (grow (zlen rec)) as [buf|] eqn:Eg; [|done]. apply Hgrow in Eg.
  destruct (split_room buf (zlen rec) Eg) as (b0 & c & -> & Hb0). rewrite Z.max_r in Hb0 by auto.
  set (h := varint_encode (header_len ff vs)) in *. pose proof (zlen_nonneg h).
  destruct (split_room b0 (zlen h) ltac:(lia)) as (b1 & b2 & -> & Hb1). rewrite zlen_app in Hb0.
  destruct (split_room b2 (zlen (types_bytes ff vs)) ltac:(lia)) as (b3 & b4 & -> & Hb3). rewrite zlen_app in Hb0.
  rewrite <- (app_assoc b1), <- (app_assoc b3).
  assert (is_u32 (header_len ff vs)) as Hhu by (unfold is_u32; lia).
  assert (length b1 = length (varint_encode (header_len ff vs))) as Hb1' by (fold h; unfold zlen in *; lia).
  pose proof (put_at_ok [] b1 (b3 ++ b4 ++ c) (header_len ff vs) Hhu Hb1') as Hput.
  change (zlen (@nil Z)) with 0 in Hput. fold h in Hput. cbn [app] in Hput. rewrite Hput. crun.
  rewrite (record_types_ok ff ms h b3 (b4 ++ c)) by (done || (fold vs; lia)). crun. fold vs. rewrite app_assoc.
  rewrite (record_data_ok ff ms) by (done || (fold vs; rewrite ?zlen_app; lia)). crun. fold vs.
  assert ((h ++ types_bytes ff vs) ++ data_bytes ff vs = rec) as Hrec by (unfold rec, record_bytes; by rewrite <- app_assoc).
  rewrite Hrec, Z.eqb_refl. crun. do 3 f_equal. rewrite app_assoc, Hrec.
  assert (length rec = length (b1 ++ b3 ++ b4)) as Hl by (rewrite !length_app; unfold zlen in *; lia).
  rewrite Hl. replace (b1 ++ b3 ++ b4 ++ c) with ((b1 ++ b3 ++ b4) ++ c) by (by rewrite <- !app_assoc).
  by rewrite drop_app_length.
Qed.

(** ** Taking a record apart *)

Lemma get_varint_encode v rest :
  is_u32 v -> bytes_ok rest -> getVarint32 (varint_encode v ++ rest) = Ret (zlen (varint_encode v), v).
Proof.
  intros Hv Hr. rewrite getVarint32_spec.
  - rewrite varint_decode_encode by auto. simpl. by rewrite u32_id.
  - apply Forall_app. split; [apply varint_encode_bytes; auto|done].
Qed.

(** The state of a reader between two fields: the types of [vs] are at [idx],
    their data at [d], and both end where they should. *)
Record reading (ff : Z) (aKey : list Z) (szHdr idx d : Z) (vs : list value) : Prop := {
  rd_values : Forall value_ok vs;
  rd_idx : 0 <= idx /\ exists t, drop (Z.to_nat idx) aKey = types_bytes ff vs ++ t /\ bytes_ok t;
  rd_d : 0 <= d /\ drop (Z.to_nat d) aKey = data_bytes ff vs;
  rd_hdr : szHdr = idx + zlen (types_bytes ff vs);
  rd_end : zlen aKey = d + zlen (data_bytes ff vs);
}.

Lemma drop_step {A} (l a b : list A) i : 0 <= i ->
  drop (Z.to_nat i) l = a ++ b -> drop (Z.to_nat (i + zlen a)) l = b.
Proof.
  intros Hi H. replace (Z.to_nat (i + zlen a)) with (Z.to_nat i + length a)%nat by size.
  rewrite <- skipn_skipn, H || rewrite <- drop_drop, H. apply drop_app_length.
Qed.

(** One field further. *)
Lemma reading_step ff aKey szHdr idx d v vs :
  reading ff aKey szHdr idx d (v :: vs) ->
  value_ok v
  /\ idx < szHdr
  /\ getVarint32 (drop (Z.to_nat idx) aKey) = Ret (zlen (varint_encode (serial_type ff v)), serial_type ff v)
  /\ drop (Z.to_nat d) aKey = serial_data ff v ++ data_bytes ff vs
  /\ (zlen aKey <= d -> zlen (serial_data ff v) = 0)
  /\ reading ff aKey szHdr (idx + zlen (varint_encode (serial_type ff v))) (d + zlen (serial_data ff v)) vs.
Proof.
  intros [Hv (Hi & t & Ht & Hb) (Hd & Hdd) Hh He]. inversion_clear Hv as [|? ? Hv0 Hvs].
  destruct (record_parts_bytes ff vs Hvs) as [Hbt Hbd].
  rewrite types_cons, zlen_app in Hh. rewrite data_cons, zlen_app in He. rewrite types_cons, <- app_assoc in Ht. rewrite data_cons in Hdd.
  pose proof (varint_encode_length (serial_type ff v) ltac:(auto)).
  pose proof (zlen_nonneg (types_bytes ff vs)). pose proof (zlen_nonneg (data_bytes ff vs)). pose proof (zlen_nonneg (serial_data ff v)).
  split; [done|]. split; [lia|]. split; [|split; [done|split; [lia|split; try done; try lia]]].
  - rewrite Ht. apply get_varint_encode; [auto|by apply Forall_app].
  - split; [lia|]. exists t. split; [by apply (drop_step _ _ _ _ Hi Ht)|done].
  - split; [lia|]. by apply (drop_step _ _ _ _ Hd Hdd).
Qed.

Lemma reading_done ff aKey szHdr idx d : reading ff aKey szHdr idx d [] -> szHdr = idx /\ zlen aKey = d.
Proof.
  intros [_ _ _ Hh He]. change (zlen (types_bytes ff [])) with 0 in Hh. change (zlen (data_bytes ff [])) with 0 in He. lia.
Qed.

Lemma reading_start ff vs : Forall value_ok vs -> zlen vs <= 32767 ->
  getVarint32 (record_bytes ff vs) = Ret (zlen (varint_encode (header_len ff vs)), header_len ff vs)
  /\ reading ff (record_bytes ff vs) (header_len ff vs) (zlen (varint_encode (header_len ff vs))) (header_len ff vs) vs
  /\ 0 < header_len ff vs < 2 ^ 27 + 5.
Proof.
  intros Hv Hn. pose proof (types_length ff vs Hv). destruct (header_len_fix ff vs ltac:(lia)) as [Hfix Hpos].
  destruct (record_parts_bytes ff vs Hv) as [Hbt Hbd]. unfold record_bytes. split; [|split; [|done]].
  - apply get_varint_encode; [unfold is_u32; lia|by apply Forall_app].
  - split; try done; try lia.
    + split; [auto|]. exists (data_bytes ff vs). by rewrite drop_app_zlen.
    + split; [lia|]. rewrite Hfix at 1. rewrite Z.add_comm, <- zlen_app, app_assoc. apply drop_app_zlen.
    + rewrite !zlen_app. lia.
Qed.

Lemma unpack_loop_ok ff junk k aKey szHdr : forall vs fuel idx d i cells,
  reading ff aKey szHdr idx d vs -> k_enc k = SQLITE_UTF8 -> (length vs < fuel)%nat -> zlen aKey < 2 ^ 31 ->
  0 <= i -> i <= u16 (nField k + 1) ->
  exists ms, unpack_loop fuel junk k (zlen aKey) aKey szHdr idx d i (u16 (nField k + 1)) cells = Ret (cells ++ ms)
    /\ value_of <$> ms = take (Z.to_nat (u16 (nField k + 1) - i)) vs /\ Forall storable ms.
Proof.
  induction vs as [|v vs IH]; intros fuel idx d i cells Hr Hk Hf Hlen Hi0 Hi; (destruct fuel as [|fuel]; [simpl in Hf; lia|]);
    cbn [unpack_loop].
  - apply reading_done in Hr as [-> ->]. rewrite (proj2 (Z.ltb_ge idx idx)) by lia. cbn [andb].
    exists []. rewrite app_nil_r. split; [done|]. split; [by rewrite take_nil|constructor].
  - destruct (Z.ltb_spec i (u16 (nField k + 1))).
    2:{ rewrite andb_false_r. exists []. rewrite app_nil_r. split; [done|]. split; [|constructor].
        by replace (Z.to_nat (u16 (nField k + 1) - i)) with 0%nat by lia. }
    pose proof (rd_end _ _ _ _ _ _ Hr) as He. pose proof (rd_d _ _ _ _ _ _ Hr) as [Hd0 _].
    destruct (reading_step _ _ _ _ _ _ _ Hr) as (Hv & Hlt & Hget & Hdat & Hstop & Hr').
    rewrite (proj2 (Z.ltb_lt idx szHdr)) by done. cbn [andb]. rewrite Hget. crun.
    assert ((if zlen aKey <=? d then len ← sqlite3VdbeSerialTypeLen (serial_type ff v); Ret (0 <? len) else Ret false) = Ret false) as ->.
    { destruct (Z.leb_spec (zlen aKey) d); [|done]. rewrite type_len_ok, type_len_data by (auto || by destruct v). crun.
      rewrite Hstop by done. done. }
    crun. unfold ptr_at. rewrite (proj2 (Z.leb_le 0 d)) by done. crun. rewrite Hdat.
    destruct (record_parts_bytes ff vs (rd_values _ _ _ _ _ _ Hr')) as [_ Hbd].
    destruct (serial_get_ok ff v (fresh_cell junk k) (data_bytes ff vs) Hv Hk Hbd) as (m & -> & Hm & Hst & _). crun.
    pose proof (rd_end _ _ _ _ _ _ Hr') as He'. pose proof (zlen_nonneg (data_bytes ff vs)).
    pose proof (rd_d _ _ _ _ _ _ Hr') as [Hd0' _].
    rewrite sint_id by lia. crun.
    destruct (IH fuel _ _ (i + 1) (cells ++ [m]) Hr' Hk) as (ms & -> & Hms & Hall); [simpl in Hf; lia|done|lia|lia|].
    exists (m :: ms). rewrite <- app_assoc. split; [done|]. split; [|by constructor].
    replace (Z.to_nat (u16 (nField k + 1) - i)) with (S (Z.to_nat (u16 (nField k + 1) - (i + 1)))) by lia.
    cbn [fmap list_fmap take]. by rewrite Hm, Hms.
Qed.

(** Any header is shorter than its record, so that the fuel is enough. *)
Lemma record_fuel ff vs : Forall value_ok vs -> (length vs < S (length (record_bytes ff vs)))%nat.
Proof.
  intros Hv. pose proof (types_length ff vs Hv). unfold record_bytes. rewrite !length_app. unfold zlen in *. lia.
Qed.

(** ** Comparing records *)

(** The first field that differs, with the order of its values. *)
Fixpoint record_diff (ccs : Z -> list Z -> list Z -> comparison) (i : Z) (vs1 vs2 : list value) : option (Z * comparison) :=
  match vs1, vs2 with
  | v1 :: vs1, v2 :: vs2 =>
      match value_compare (ccs i) v1 v2 with
      | Eq => record_diff ccs (i + 1) vs1 vs2
      | c => Some (i, c)
      end
  | _, _ => None
  end.

Definition descending (k : KeyInfo) (i : Z) : bool :=
  match aSortOrder k with Some a => (i <? nField k) && default false (rd a i) | None => false end.

(** The order of a record with the values [vs1] and the cells of [vs2]. *)
Definition record_order (ff : Z) (k : KeyInfo) (ccs : Z -> list Z -> list Z -> comparison) (vs1 vs2 : list value) : comparison :=
  match record_diff ccs 0 vs1 vs2 with
  | Some (i, c) => if descending k i then CompOpp c else c
  | None =>
      if incrKey k then Lt else if prefixIsEqual k then Eq
      else match data_bytes ff (drop (length vs2) vs1) with [] => Eq | _ => Gt end
  end.

(** The collating sequences of the key, as comparisons. *)
Definition key_collations (k : KeyInfo) (ccs : Z -> list Z -> list Z -> comparison) : Prop :=
  forall i, 0 <= i -> if i <? nField k then exists c, rd (aColl k) i = Some c /\ Collation c (ccs i) else ccs i = lex_compare.

Lemma compare_loop_ok ff p2 aKey szHdr ccs : forall vs1 fuel idx d i m0 pre ms2,
  reading ff aKey szHdr idx d vs1 -> szHdr < 2 ^ 31 -> enc m0 = SQLITE_UTF8 -> (length vs1 < fuel)%nat -> zlen aKey < 2 ^ 31 ->
  aMem p2 = pre ++ ms2 -> i = zlen pre -> Forall mem_ok ms2 -> key_collations (pKeyInfo p2) ccs ->
  exists rc i' d', compare_loop fuel p2 (zlen aKey) aKey szHdr idx d i m0 = Ret (rc, i', d') /\ - 2 ^ 31 < rc < 2 ^ 31
    /\ match record_diff ccs i vs1 (value_of <$> ms2) with
       | Some (j, c) => i' = j /\ (rc ?= 0) = c /\ c <> Eq /\ 0 <= j < zlen (aMem p2)
       | None => rc = 0 /\ (d' < zlen aKey <-> data_bytes ff (drop (length ms2) vs1) <> []) /\ 0 <= d' < 2 ^ 31
       end.
Proof.
  induction vs1 as [|v vs1 IH]; intros fuel idx d i m0 pre ms2 Hr Hsz He Hf Hlen Hpre Hi Hms Hcc;
    (destruct fuel as [|fuel]; [simpl in Hf; lia|]); cbn [compare_loop].
  - pose proof (rd_d _ _ _ _ _ _ Hr) as [Hd0 _]. apply reading_done in Hr as [-> Hd]. rewrite (proj2 (Z.ltb_ge idx idx)) by lia. cbn [andb].
    exists 0, i, d. split; [done|]. split; [lia|]. rewrite drop_nil. cbn [record_diff]. split; [done|]. split; [|lia].
    split; [lia|done].
  - pose proof (rd_end _ _ _ _ _ _ Hr) as Hend. pose proof (rd_d _ _ _ _ _ _ Hr) as [Hd0 Hdd]. rewrite Hpre, zlen_app.
    destruct ms2 as [|m2 ms2].
    + change (zlen (@nil Mem)) with 0. rewrite (proj2 (Z.ltb_ge i (zlen pre + 0))) by lia. rewrite andb_false_r.
      exists 0, i, d. split; [done|]. split; [lia|]. cbn [record_diff fmap list_fmap]. split; [done|].
      cbn [length]. rewrite drop_0. pose proof (zlen_nonneg (data_bytes ff (v :: vs1))). split; [|lia].
      destruct (data_bytes ff (v :: vs1)); [change (zlen (@nil Z)) with 0 in *|rewrite zlen_cons in *; pose proof (zlen_nonneg l)];
        (split; intros ?; (done || lia)).
    + rewrite (proj2 (Z.ltb_lt i (zlen pre + zlen (m2 :: ms2)))) by (rewrite zlen_cons; pose proof (zlen_nonneg ms2); lia).
      destruct (reading_step _ _ _ _ _ _ _ Hr) as (Hv & Hlt & Hget & Hdat & Hstop & Hr').
      rewrite (proj2 (Z.ltb_lt idx szHdr)) by done. cbn [andb]. rewrite Hget. crun.
      rewrite (u32_id (zlen aKey)) by (unfold is_u32; pose proof (zlen_nonneg aKey); lia).
      assert ((if zlen aKey <=? d then len ← sqlite3VdbeSerialTypeLen (serial_type ff v); Ret (0 <? len) else Ret false) = Ret false) as ->.
      { destruct (Z.leb_spec (zlen aKey) d); [|done]. rewrite type_len_ok, type_len_data by (auto || by destruct v). crun.
        rewrite Hstop by done. done. }
      crun. rewrite Hdat. destruct (record_parts_bytes ff vs1 (rd_values _ _ _ _ _ _ Hr')) as [_ Hbd].
      destruct (serial_get_ok ff v m0 (data_bytes ff vs1) Hv He Hbd) as (m & -> & Hm & Hst & Hen). crun.
      pose proof (rd_end _ _ _ _ _ _ Hr') as He'. pose proof (zlen_nonneg (data_bytes ff vs1)).
      pose proof (rd_d _ _ _ _ _ _ Hr') as [Hd0' _]. pose proof (rd_hdr _ _ _ _ _ _ Hr') as Hh'.
      pose proof (rd_idx _ _ _ _ _ _ Hr') as [Hi0' _]. pose proof (zlen_nonneg (types_bytes ff vs1)).
      rewrite (u32_id (idx + _)), (u32_id (d + _)) by (unfold is_u32; lia).
      rewrite Hi, rd_middle. crun. rewrite <- Hi.
      assert (exists c, (if i <? nField (pKeyInfo p2) then of_opt (rd (aColl (pKeyInfo p2)) i) else Ret None) = Ret c
        /\ Collation c (ccs i)) as (c & -> & Hcol).
      { specialize (Hcc i ltac:(subst; auto)). destruct (i <? nField (pKeyInfo p2)).
        - destruct Hcc as (c & -> & Hcol). by exists c.
        - exists None. split; [done|]. rewrite Hcc. apply _. }
      crun. inversion_clear Hms as [|? ? Hm2 Hms2].
      destruct (mem_compare_ok m m2 c (ccs i) Hcol (proj1 Hst) Hm2) as (rc & -> & Hrc & Hsg). crun. rewrite Hm in Hsg.
      cbn [record_diff fmap list_fmap]. destruct (Z.eqb_spec rc 0) as [->|Hne]; cbn [negb].
      * change (0 ?= 0) with Eq in Hsg. rewrite <- Hsg.
        destruct (IH fuel _ _ (i + 1) m (pre ++ [m2]) ms2 Hr' Hsz Hen) as (rc & i' & d' & -> & Hrc' & Hdiff); try done.
        -- simpl in Hf. lia.
        -- by rewrite Hpre, <- app_assoc.
        -- rewrite zlen_app. change (zlen [m2]) with 1. lia.
        -- exists rc, i', d'. split; [done|]. split; [done|]. cbn [length drop].
           rewrite Hpre, zlen_app, <- Hi in Hdiff. exact Hdiff.
      * exists rc, i, (d + zlen (serial_data ff v)). split; [done|]. split; [done|]. rewrite <- Hsg.
        pose proof (zlen_nonneg ms2). pose proof (zlen_cons m2 ms2).
        assert (0 <= i) by (subst; auto).
        destruct (Z.compare_spec rc 0); [done|split; [done|split; [done|split; [done|lia]]]..].
Qed.

Lemma storable_values ms : Forall storable ms -> Forall value_ok (value_of <$> ms).
Proof. intros Hs. apply Forall_fmap. eapply Forall_impl; [exact Hs|]. apply storable_value. Qed.

Lemma unpack_ok tg junk ff k vs szSpace o :
  Forall value_ok vs -> zlen vs <= 32767 -> zlen (record_bytes ff vs) <= MAX_LENGTH ->
  k_enc k = SQLITE_UTF8 -> 0 <= nField k < 65535 ->
  exists p o', sqlite3VdbeRecordUnpack tg junk k (zlen (record_bytes ff vs)) (record_bytes ff vs) szSpace o = Ret (p, o')
    /\ match p with
       | None => szSpace < sizeof_Mem tg * (nField k + 2) /\ next_alloc o = (false, o')
       | Some u => pKeyInfo u = k /\ value_of <$> aMem u = take (Z.to_nat (nField k + 1)) vs /\ Forall storable (aMem u)
           /\ needFree u = (szSpace <? sizeof_Mem tg * (nField k + 2))
       end.
Proof.
  intros Hv Hn Hl Hk Hf. unfold MAX_LENGTH in Hl. destruct (reading_start ff vs Hv Hn) as (Hget & Hr & Hpos).
  assert (u16 (nField k + 1) = nField k + 1) as Hu by (unfold u16; apply Z.mod_small; lia).
  assert (exists ms, unpack_loop (S (length (record_bytes ff vs))) junk k (zlen (record_bytes ff vs)) (record_bytes ff vs)
      (header_len ff vs) (zlen (varint_encode (header_len ff vs))) (s32 (header_len ff vs)) 0 (u16 (nField k + 1)) [] = Ret ms
    /\ value_of <$> ms = take (Z.to_nat (nField k + 1)) vs /\ Forall storable ms) as (ms & Hrun & Hms & Hall).
  { rewrite s32_signed by lia.
    destruct (unpack_loop_ok ff junk k _ _ vs (S (length (record_bytes ff vs))) _ _ 0 [] Hr Hk) as (ms & Hrun & Hms & Hall);
      [by apply record_fuel|lia|lia|lia|].
    exists ms. split; [exact Hrun|]. split; [|done]. by rewrite Hms, Hu, Z.sub_0_r. }
  unfold sqlite3VdbeRecordUnpack. assert (0 < sizeof_Mem tg <= 56) by (by destruct tg).
  rewrite sint_id by nia. crun. destruct (Z.ltb_spec szSpace (sizeof_Mem tg * (nField k + 2))) as [Hlt|Hge].
  - destruct (next_alloc o) as [b o'] eqn:Eo. destruct b.
    + rewrite Hget. crun. rewrite Hrun. crun. eexists _, _. split; [reflexivity|]. done.
    + eexists _, _. split; [reflexivity|]. done.
  - rewrite Hget. crun. rewrite Hrun. crun. eexists _, _. split; [reflexivity|]. done.
Qed.

(** The last type of a record that ends in an integer takes one byte. *)
Lemma rowid_len_ok ff vs i : Forall value_ok (vs ++ [VInt i]) -> zlen (vs ++ [VInt i]) <= 32767 ->
  sqlite3VdbeIdxRowidLen (record_bytes ff (vs ++ [VInt i])) = Ret (zlen (serial_data ff (VInt i))).
Proof.
  intros Hv Hn. destruct (reading_start ff _ Hv Hn) as (Hget & _ & Hpos). unfold sqlite3VdbeIdxRowidLen. rewrite Hget. crun.
  pose proof (types_length ff _ Hv). destruct (header_len_fix ff (vs ++ [VInt i]) ltac:(lia)) as [Hfix _].
  rewrite u32_id by (unfold is_u32; lia).
  apply Forall_app in Hv as [Hvs Hvi]. inversion_clear Hvi as [|? ? Hi _]. cbn [value_ok] in Hi.
  assert (varint_encode (serial_type ff (VInt i)) = [serial_type ff (VInt i)]) as He.
  { destruct (int_types ff i Hi) as [[-> _]|[[-> _]|[[-> _]|[[-> _]|[[-> _]|[[-> _]|[[-> _]|[-> _]]]]]]]]; done. }
  assert (types_bytes ff (vs ++ [VInt i]) = types_bytes ff vs ++ varint_encode (serial_type ff (VInt i))) as Ht.
  { unfold types_bytes. rewrite fmap_app, concat_app. cbn. by rewrite app_nil_r. }
  unfold record_bytes. set (h := varint_encode (header_len ff (vs ++ [VInt i]))) in *.
  assert (header_len ff (vs ++ [VInt i]) - 1 = zlen (h ++ types_bytes ff vs)) as ->.
  { rewrite Hfix, Ht, !zlen_app, He. change (zlen [serial_type ff (VInt i)]) with 1. lia. }
  rewrite Ht, <- !app_assoc, app_assoc, drop_app_zlen.
  rewrite get_varint_encode by (auto || (apply (record_parts_bytes ff (vs ++ [VInt i])), Forall_app; split; [done|by constructor])).
  crun. rewrite type_len_ok by auto. by rewrite type_len_data.
Qed.

(** Cells of each kind that a record can hold. *)
Lemma int_cell_storable i : - 2 ^ 63 <= i < 2 ^ 63 -> storable (int_cell i).
Proof. intros Hi. by split; [split|]. Qed.

Lemma null_cell_storable e : storable (mkMem 0 0 [] 0 MEM_Null e).
Proof. by split; [split|]. Qed.

Lemma text_cell_storable s : bytes_ok s -> zlen s <= MAX_LENGTH -> storable (mkMem 0 0 s (zlen s) MEM_Str SQLITE_UTF8).
Proof.
  intros Hs Hl. split; [|done]. split; try done. intros _. unfold MAX_LENGTH in Hl. cbn [z n].
  pose proof (zlen_nonneg s). split; [done|lia].
Qed.

(** C16: OP_MakeRecord stores a record unless it is longer than the limit or
    memory is short; taken apart again, the record gives back the values of the
    fields in their order, as many as the key asks for and one more, and a
    record that ends in an integer tells the number of bytes of that integer.
    No byte outside of the record is read or written. *)
Theorem record_roundtrip (tg : target) (junk out : Mem) (ff limit : Z) (grow : Z -> option (list Z)) (ms : list Mem)
    (k : KeyInfo) (szSpace : Z) (o : list bool)
    (Hs : Forall storable ms) (Hn : zlen ms <= 32767) (Hlim : limit <= MAX_LENGTH)
    (Hgrow : forall n buf, grow n = Some buf -> n <= zlen buf)
    (Hk : k_enc k = SQLITE_UTF8) (Hf : 0 <= nField k < 65535) :
  exists res, op_MakeRecord ff limit grow out ms = Ret res /\
    match res with
    | TooBig => limit < zlen (record_bytes ff (value_of <$> ms))
    | NoMem => grow (zlen (record_bytes ff (value_of <$> ms))) = None
    | MadeRecord m => exists rec, cell_bytes m = Ret rec /\ bytes_ok rec /\ zlen rec <= limit
        /\ (exists p o', sqlite3VdbeRecordUnpack tg junk k (n m) rec szSpace o = Ret (p, o')
             /\ match p with
                | None => szSpace < sizeof_Mem tg * (nField k + 2) /\ next_alloc o = (false, o')
                | Some u => value_of <$> aMem u = take (Z.to_nat (nField k + 1)) (value_of <$> ms) /\ Forall storable (aMem u)
                end)
        /\ forall vs i, value_of <$> ms = vs ++ [VInt i] ->
             sqlite3VdbeIdxRowidLen rec = Ret (zlen (serial_data ff (VInt i)))
    end.
Proof.
  pose proof (storable_values ms Hs) as Hv. assert (zlen (value_of <$> ms) <= 32767) as Hnv by (by rewrite zlen_fmap).
  eexists. split; [by apply make_record_ok|]. set (rec := record_bytes ff (value_of <$> ms)).
  destruct (Z.ltb_spec limit (zlen rec)); [done|]. destruct (grow (zlen rec)) as [buf|] eqn:Eg; [|done].
  exists rec. split; [|split; [|split; [done|split]]].
  - unfold cell_bytes. cbn [n z]. rewrite decide_True by (rewrite zlen_app; pose proof (zlen_nonneg rec); pose proof (zlen_nonneg (drop (length rec) buf)); lia).
    by rewrite take_app_zlen.
  - unfold rec, record_bytes. destruct (record_parts_bytes ff _ Hv). destruct (reading_start ff _ Hv Hnv) as (_ & _ & Hpos).
    apply Forall_app. split; [apply varint_encode_bytes; unfold is_u64; lia|by apply Forall_app].
  - cbn [n]. destruct (unpack_ok tg junk ff k _ szSpace o Hv Hnv ltac:(fold rec; lia) Hk Hf) as (p & o' & Hrun & Hp).
    exists p, o'. split; [exact Hrun|]. destruct p; [|done]. by destruct Hp as (_ & ? & ? & _).
  - intros vs i Heq. unfold rec. rewrite Heq in *. by apply rowid_len_ok.
Qed.

(** A NULL, a text and a rowid. *)
Lemma record_roundtrip_witness :
  let junk := mkMem 0 0 [] 0 0 0 in
  let ms := [mkMem 0 0 [] 0 MEM_Null 0; mkMem 0 0 [104; 105] 2 MEM_Str SQLITE_UTF8; int_cell (-129)] in
  let k := mkKeyInfo SQLITE_UTF8 false false 2 None [None; None] in
  exists res, op_MakeRecord 4 MAX_LENGTH (fun n => Some (replicate (Z.to_nat n) 0)) junk ms = Ret res /\
    match res with
    | TooBig => MAX_LENGTH < zlen (record_bytes 4 (value_of <$> ms))
    | NoMem => Some (replicate (Z.to_nat (zlen (record_bytes 4 (value_of <$> ms)))) 0) = None
    | MadeRecord m => exists rec, cell_bytes m = Ret rec /\ bytes_ok rec /\ zlen rec <= MAX_LENGTH
        /\ (exists p o', sqlite3VdbeRecordUnpack LP64 junk k (n m) rec 200 [true] = Ret (p, o')
             /\ match p with
                | None => 200 < sizeof_Mem LP64 * (nField k + 2) /\ next_alloc [true] = (false, o')
                | Some u => value_of <$> aMem u = take (Z.to_nat (nField k + 1)) (value_of <$> ms) /\ Forall storable (aMem u)
                end)
        /\ forall vs i, value_of <$> ms = vs ++ [VInt i] ->
             sqlite3VdbeIdxRowidLen rec = Ret (zlen (serial_data 4 (VInt i)))
    end.
Proof.
  apply (record_roundtrip LP64 _ _ 4 MAX_LENGTH (fun n => Some (replicate (Z.to_nat n) 0))); try done.
  - constructor; [apply null_cell_storable|]. constructor; [|constructor; [apply int_cell_storable; lia|constructor]].
    apply (text_cell_storable [104; 105]); [repeat constructor; lia|done].
  - intros n buf [= <-]. rewrite zlen_replicate. lia.
Defined.

(** C17: Comparing a record that OP_MakeRecord stored with one that is taken
    apart orders them by the first field in which they differ, with the
    collating sequence of the field and turned around where the field is
    descending; when no field differs, [incrKey] makes the record less,
    [prefixIsEqual] equal, and otherwise the record is greater when there are
    bytes of data behind the compared fields - fields that take no bytes (NULL,
    and 0 and 1 from file format 4 on) do not make it greater. *)
Theorem record_compare_order (junk out : Mem) (ff limit : Z) (grow : Z -> option (list Z)) (ms : list Mem) (m : Mem)
    (p2 : UnpackedRecord) (ccs : Z -> list Z -> list Z -> comparison)
    (Hs : Forall storable ms) (Hn : zlen ms <= 32767) (Hlim : limit <= MAX_LENGTH)
    (Hgrow : forall n buf, grow n = Some buf -> n <= zlen buf)
    (Hmake : op_MakeRecord ff limit grow out ms = Ret (MadeRecord m))
    (Hp : Forall mem_ok (aMem p2)) (Hk : k_enc (pKeyInfo p2) = SQLITE_UTF8) (Hc : key_collations (pKeyInfo p2) ccs)
    (Hsort : forall a, aSortOrder (pKeyInfo p2) = Some a -> nField (pKeyInfo p2) <= zlen a) :
  exists rec rc, cell_bytes m = Ret rec /\ sqlite3VdbeRecordCompare junk (n m) rec p2 = Ret rc
    /\ (rc ?= 0) = record_order ff (pKeyInfo p2) ccs (value_of <$> ms) (value_of <$> aMem p2).
Proof.
  pose proof (storable_values ms Hs) as Hv. assert (zlen (value_of <$> ms) <= 32767) as Hnv by (by rewrite zlen_fmap).
  rewrite make_record_ok in Hmake by done. set (rec := record_bytes ff (value_of <$> ms)) in *.
  destruct (Z.ltb_spec limit (zlen rec)) as [|Hle]; [discriminate|]. destruct (grow (zlen rec)) as [buf|]; [|discriminate].
  injection Hmake as <-. pose proof (zlen_nonneg rec). unfold MAX_LENGTH in *.
  assert (cell_bytes (mkMem (u_i out) (r out) (rec ++ drop (length rec) buf) (zlen rec) (Z.lor MEM_Blob MEM_Dyn) SQLITE_UTF8) = Ret rec) as Hcell.
  { unfold cell_bytes. cbn [n z]. rewrite decide_True by (rewrite zlen_app; pose proof (zlen_nonneg (drop (length rec) buf)); lia).
    by rewrite take_app_zlen. }
  destruct (reading_start ff _ Hv Hnv) as (Hget & Hr & Hpos). fold rec in Hget, Hr.
  destruct (compare_loop_ok ff p2 rec _ ccs _ (S (length rec)) _ _ 0 (fresh_cell junk (pKeyInfo p2)) [] (aMem p2) Hr)
    as (rc & i & d & Hrun & Hrc & Hdiff); try done; [lia|by apply record_fuel|lia|].
  unfold sqlite3VdbeRecordCompare. exists rec. rewrite Hcell. cbn [n]. rewrite Hget. crun. rewrite Hrun. crun.
  unfold record_order. destruct (record_diff _ _ _ _) as [[j c]|].
  - destruct Hdiff as (-> & Hsg & Hne & Hj). rewrite (proj2 (Z.eqb_neq rc 0)) by (intros ->; by apply Hne).
    unfold descending. destruct (aSortOrder (pKeyInfo p2)) as [a|] eqn:Ea; [|by exists rc].
    destruct (Z.ltb_spec j (nField (pKeyInfo p2))); cbn [andb]; [|by exists rc].
    specialize (Hsort a eq_refl). destruct (rd_lt a j ltac:(lia)) as [b Hb]. rewrite Hb. crun. cbn [default].
    destruct b; cbn [id]; [|by exists rc]. rewrite sint_id by lia. exists (- rc). split; [done|]. split; [done|].
    rewrite <- Hsg. rewrite <- Z.compare_antisym. change 0 with (- 0) at 1. apply Z.compare_opp.
  - destruct Hdiff as (-> & Hd & Hdr). cbn [Z.eqb]. eexists. split; [done|]. split; [reflexivity|].
    rewrite length_fmap. rewrite (u32_id (zlen rec)) by (unfold is_u32; lia).
    destruct (incrKey (pKeyInfo p2)); [done|]. destruct (prefixIsEqual (pKeyInfo p2)); [done|]. cbn [negb].
    destruct (Z.ltb_spec d (zlen rec)); destruct (data_bytes ff _); try done; try lia; naive_solver lia.
Qed.

(** A record of two fields and a key of one; the second field is NULL. *)
Lemma record_compare_order_witness :
  let junk := mkMem 0 0 [] 0 0 0 in
  let ms := [int_cell 5; mkMem 0 0 [] 0 MEM_Null 0] in
  let k := mkKeyInfo SQLITE_UTF8 false false 1 (Some [false]) [None] in
  exists m, op_MakeRecord 1 100 (fun n => Some (replicate (Z.to_nat n) 0)) junk ms = Ret (MadeRecord m)
  /\ exists rec rc, cell_bytes m = Ret rec /\ sqlite3VdbeRecordCompare junk (n m) rec (mkUnpacked k false [int_cell 5]) = Ret rc
    /\ (rc ?= 0) = record_order 1 k (fun _ => lex_compare) (value_of <$> ms) (value_of <$> [int_cell 5]).
Proof.
  eexists. split; [vm_compute; reflexivity|].
  apply (record_compare_order _ (mkMem 0 0 [] 0 0 0) 1 100 (fun n => Some (replicate (Z.to_nat n) 0))
    [int_cell 5; mkMem 0 0 [] 0 MEM_Null 0] _ (mkUnpacked (mkKeyInfo SQLITE_UTF8 false false 1 (Some [false]) [None]) false [int_cell 5])
    (fun _ => lex_compare)); try done.
  - constructor; [apply int_cell_storable; lia|]. constructor; [apply null_cell_storable|constructor].
  - intros n buf [= <-]. rewrite zlen_replicate. lia.
  - constructor; [apply int_cell_storable; lia|constructor].
  - intros i Hi. cbn [nField pKeyInfo]. destruct (Z.ltb_spec i 1); [|done].
    assert (i = 0) as -> by lia. exists None. split; [done|apply _].
  - intros a [= <-]. done.
Defined.
