(* ===== verification/Utf.v ===== *)
(** * UTF-8: [utf.c] and [SQLITE_SKIP_UTF8]

    A text is the block of memory that holds it, with its terminator, and a
    pointer into it an index; a read outside of the block is undefined.
    [sqlite3Utf8Read] takes any number of continuation bytes, so that a long
    run of them shifts the character out of an [int]: undefined as well.  A
    [readable] text has at most four of them in a row behind a lead byte.
    [chars z i cs j] says that the characters [cs] lie from [i] to [j]; the
    routines that walk along texts are described by it. *)

From S2P Require Import Prelude BitExpr.

(** ** The routines *)

Definition sqlite3UtfTrans1 : list Z :=
  [0; 1; 2; 3; 4; 5; 6; 7; 8; 9; 10; 11; 12; 13; 14; 15;
   16; 17; 18; 19; 20; 21; 22; 23; 24; 25; 26; 27; 28; 29; 30; 31;
   0; 1; 2; 3; 4; 5; 6; 7; 8; 9; 10; 11; 12; 13; 14; 15;
   0; 1; 2; 3; 4; 5; 6; 7; 0; 1; 2; 3; 0; 1; 0; 0].

(** The bytes that the macro stores behind [zOut], in order. *)
Definition WRITE_UTF8 (c : Z) : list Z :=
  if c <? 0x80 then [u8 (Z.land c 0xff)]
  else if c <? 0x800 then
    [u8 (0xc0 + Z.land (Z.shiftr c 6) 0x1f); u8 (0x80 + Z.land c 0x3f)]
  else if c <? 0x10000 then
    [u8 (0xe0 + Z.land (Z.shiftr c 12) 0x0f); u8 (0x80 + Z.land (Z.shiftr c 6) 0x3f);
     u8 (0x80 + Z.land c 0x3f)]
  else
    [u8 (0xf0 + Z.land (Z.shiftr c 18) 0x07); u8 (0x80 + Z.land (Z.shiftr c 12) 0x3f);
     u8 (0x80 + Z.land (Z.shiftr c 6) 0x3f); u8 (0x80 + Z.land c 0x3f)].

(** [while( z!=zTerm && ( *z & 0xc0)==0x80 ){ c = (c<<6) + (0x3f & * (z++)); }] *)
Fixpoint utf8_tail (fuel : nat) (z : list Z) (zTerm : option Z) (i c : Z) : res (Z * Z) :=
  match fuel with
  | O => NoFuel
  | S fuel =>
      if bool_decide (zTerm = Some i) then Ret (c, i) else
      b ← of_opt (rd z i);
      if Z.land b 0xc0 =? 0x80 then
        c ← sint (Z.shiftl c 6);
        c ← sint (c + Z.land 0x3f b);
        utf8_tail fuel z zTerm (i + 1) c
      else Ret (c, i)
  end.

(** [zTerm] is [None] for the callers' [0], which no pointer equals. *)
Definition sqlite3Utf8Read (z : list Z) (zTerm : option Z) (i : Z) : res (Z * Z) :=
  c ← of_opt (rd z i);
  let i := i + 1 in
  if 0xc0 <=? c then
    c ← of_opt (rd sqlite3UtfTrans1 (c - 0xc0));
    '(c, i) ← utf8_tail (S (length z)) z zTerm i c;
    let c := if (c <? 0x80) || (Z.land c 0xfffff800 =? 0xd800) || (Z.land c 0xfffffffe =? 0xfffe)
             then 0xfffd else c in
    Ret (c, i)
  else Ret (c, i).

(** [while( ( *zIn & 0xc0)==0x80 ){ zIn++; }] *)
Fixpoint skip_tail (fuel : nat) (z : list Z) (i : Z) : res Z :=
  match fuel with
  | O => NoFuel
  | S fuel =>
      b ← of_opt (rd z i);
      if Z.land b 0xc0 =? 0x80 then skip_tail fuel z (i + 1) else Ret i
  end.

Definition SQLITE_SKIP_UTF8 (z : list Z) (i : Z) : res Z :=
  b ← of_opt (rd z i);
  if 0xc0 <=? b then skip_tail (S (length z)) z (i + 1) else Ret (i + 1).

(** [while( *z!=0 && z<zTerm ){ SQLITE_SKIP_UTF8(z); r++; }]; without a
    length [zTerm] is the largest pointer. *)
Fixpoint charlen_loop (fuel : nat) (z : list Z) (zTerm : option Z) (i r : Z) : res Z :=
  match fuel with
  | O => NoFuel
  | S fuel =>
      b ← of_opt (rd z i);
      if negb (b =? 0) && match zTerm with Some t => i <? t | None => true end then
        i ← SQLITE_SKIP_UTF8 z i;
        r ← sint (r + 1);
        charlen_loop fuel z zTerm i r
      else Ret r
  end.

Definition sqlite3Utf8CharLen (zIn : list Z) (nByte : Z) : res Z :=
  charlen_loop (S (length zIn)) zIn (if 0 <=? nByte then Some nByte else None) 0 0.

(** One round of the first loop of [sqlite3UtfSelfTest], with the two
    assertions at its end. *)
Definition utf8_selftest_round (i : Z) : res unit :=
  let zBuf := WRITE_UTF8 i ++ [0] in
  let n := zlen (WRITE_UTF8 i) in
  '(c, z) ← sqlite3Utf8Read zBuf (Some n) 0;
  let t := if (0xd800 <=? i) && (i <=? 0xdfff) then 0xfffd else i in
  let t := if Z.land i 0xfffffffe =? 0xfffe then 0xfffd else t in
  c_assert (c =? t);; c_assert (z =? n).

(** ** Texts as lists of characters *)

(** The characters [cs] lie from [i] to [j]. *)
Inductive chars (z : list Z) : Z -> list Z -> Z -> Prop :=
| chars_nil i : chars z i [] i
| chars_cons i c k cs j :
    sqlite3Utf8Read z None i = Ret (c, k) -> c <> 0 -> chars z k cs j -> chars z i (c :: cs) j.

(** The characters from [i] to the terminator. *)
Definition text_to (z : list Z) (i : Z) (cs : list Z) (j : Z) : Prop :=
  chars z i cs j /\ rd z j = Some 0.
Definition text (z : list Z) (i : Z) (cs : list Z) : Prop := exists j, text_to z i cs j.

(** A block with a terminator in which a lead byte is followed by at most four
    continuation bytes. *)
Definition is_cont (b : Z) : bool := Z.land b 0xc0 =? 0x80.
Definition readable (z : list Z) : Prop :=
  bytes_ok z /\ (exists n, rd z n = Some 0) /\
  forall i b, rd z i = Some b -> 0xc0 <= b ->
    exists k b', 1 <= k <= 5 /\ rd z (i + k) = Some b' /\ is_cont b' = false.

Lemma is_cont_spec b : is_byte b -> is_cont b = (128 <=? b) && (b <? 192).
Proof.
  intros Hb.
  byte_check (fun b => bool_decide (is_cont b = (128 <=? b) && (b <? 192))) b.
  by apply bool_decide_eq_true in H.
Qed.

Lemma cont_payload b : is_byte b -> Z.land 0x3f b = b mod 64.
Proof. intros _. rewrite Z.land_comm. apply (Z.land_ones b 6). lia. Qed.

Lemma utf8_tail_cont f z T i c b :
  is_byte b -> rd z i = Some b -> is_cont b = true -> T <> Some i -> 0 <= c < 2 ^ 24 ->
  utf8_tail (S f) z T i c = utf8_tail f z T (i + 1) (c * 64 + b mod 64).
Proof.
  intros Hb Hr Hc HT Hi. cbn [utf8_tail]. rewrite bool_decide_eq_false_2 by done.
  rewrite Hr. crun. fold (is_cont b). rewrite Hc.
  pose proof (Z.mod_pos_bound b 64). rewrite Z.shiftl_mul_pow2 by lia.
  rewrite sint_id by lia. crun. rewrite cont_payload by done. rewrite sint_id by lia.
  by crun.
Qed.

Lemma utf8_tail_stop f z T i c :
  (T = Some i \/ exists b, rd z i = Some b /\ is_cont b = false) ->
  utf8_tail (S f) z T i c = Ret (c, i).
Proof.
  intros H. cbn [utf8_tail]. case_bool_decide as HT; [done|].
  destruct H as [?|(b & Hr & Hc)]; [done|]. rewrite Hr. crun. fold (is_cont b). by rewrite Hc.
Qed.

(** What a character becomes at the end of [sqlite3Utf8Read]. *)
Definition sanitized (c : Z) : Z :=
  if (c <? 0x80) || (Z.land c 0xfffff800 =? 0xd800) || (Z.land c 0xfffffffe =? 0xfffe)
  then 0xfffd else c.

Lemma sanitized_pos c : 0x80 <= sanitized c.
Proof. unfold sanitized. destruct (Z.ltb_spec c 0x80); cbn [orb]; [lia|]. by case_match; lia. Qed.

(** A lead byte stands for at most five bits, and the continuation bytes that
    the tables of the format allow keep it in an [int]. *)
Lemma trans1_small b : is_byte b -> 0xc0 <= b ->
  exists c, rd sqlite3UtfTrans1 (b - 0xc0) = Some c /\ 0 <= c < 2 ^ 5.
Proof.
  intros Hb H.
  byte_check (fun b => (b <? 0xc0) || match rd sqlite3UtfTrans1 (b - 0xc0) with
                                      | Some c => (0 <=? c) && (c <? 32) | None => false end) b.
  rewrite (proj2 (Z.ltb_ge _ _) H) in H0. cbn [orb] in H0.
  destruct (rd _ _) as [c|]; [|done]. exists c. split; [done|]. lia.
Qed.

Lemma utf8_read_single z T i b :
  rd z i = Some b -> b < 0xc0 -> sqlite3Utf8Read z T i = Ret (b, i + 1).
Proof.
  intros Hr Hb. unfold sqlite3Utf8Read. rewrite Hr. crun.
  by rewrite (proj2 (Z.leb_gt _ _) Hb).
Qed.

Lemma utf8_read_lead z T i b x :
  rd z i = Some b -> 0xc0 <= b -> rd sqlite3UtfTrans1 (b - 0xc0) = Some x ->
  sqlite3Utf8Read z T i =
    '(c, j) ← utf8_tail (S (length z)) z T (i + 1) x; Ret (sanitized c, j).
Proof.
  intros Hr Hb Hx. unfold sqlite3Utf8Read. rewrite Hr. crun.
  rewrite (proj2 (Z.leb_le _ _) Hb), Hx. crun. done.
Qed.

(** The run of continuation bytes is walked alike by reading and by skipping. *)
Lemma tail_skip f z i c c' j :
  utf8_tail f z None i c = Ret (c', j) -> skip_tail f z i = Ret j.
Proof.
  revert i c. induction f as [|f IH]; intros i c H; [done|].
  cbn [utf8_tail skip_tail] in *. rewrite bool_decide_eq_false_2 in H by done.
  destruct (rd z i) as [b|]; [|done]. cbn [of_opt] in *. rewrite bind_ret_l in H. crun.
  destruct (Z.land b 0xc0 =? 0x80); [|by inv_ret].
  inv_ret. eauto.
Qed.

Lemma read_skip z i c j :
  sqlite3Utf8Read z None i = Ret (c, j) -> SQLITE_SKIP_UTF8 z i = Ret j.
Proof.
  unfold sqlite3Utf8Read, SQLITE_SKIP_UTF8. intros H.
  destruct (rd z i) as [b|]; [|done]. cbn [of_opt] in *. rewrite bind_ret_l in H. crun.
  destruct (0xc0 <=? b); [|by inv_ret].
  inv_ret. destruct a0 as [c' j']. inv_ret. eauto using tail_skip.
Qed.

Lemma tail_bounds f z T i c c' j :
  utf8_tail f z T i c = Ret (c', j) -> i <= j /\ (0 <= i -> i <= zlen z -> j <= zlen z).
Proof.
  revert i c. induction f as [|f IH]; intros i c H; [done|].
  cbn [utf8_tail] in H. case_bool_decide; [inv_ret; lia|].
  destruct (rd z i) as [b|] eqn:E; [|done]. cbn [of_opt] in H. rewrite bind_ret_l in H.
  apply rd_Some_lt in E.
  destruct (Z.land b 0xc0 =? 0x80); [|inv_ret; lia].
  inv_ret. apply IH in H. lia.
Qed.

Lemma read_bounds z T i c j :
  sqlite3Utf8Read z T i = Ret (c, j) -> i < j /\ 0 <= i /\ j <= zlen z.
Proof.
  unfold sqlite3Utf8Read. intros H.
  destruct (rd z i) as [b|] eqn:E; [|done]. cbn [of_opt] in *. rewrite bind_ret_l in H.
  apply rd_Some_lt in E.
  destruct (0xc0 <=? b); [|inv_ret; lia].
  inv_ret. destruct a0 as [c' j']. inv_ret. apply tail_bounds in E1. lia.
Qed.

(** The three ways to read a character. *)
Lemma read_cases z T i c j : bytes_ok z ->
  sqlite3Utf8Read z T i = Ret (c, j) ->
  exists b, rd z i = Some b /\ is_byte b /\
    ((b < 0xc0 /\ c = b /\ j = i + 1) \/ (0xc0 <= b /\ 0x80 <= c)).
Proof.
  intros Hz H. destruct (rd z i) as [b|] eqn:E.
  2:{ unfold sqlite3Utf8Read in H. by rewrite E in H. }
  pose proof (rd_Forall _ _ _ _ Hz E) as Hb. exists b. split_and!; [done..|].
  destruct (Z.lt_ge_cases b 0xc0) as [Hlt|Hge].
  - rewrite (utf8_read_single z T i b) in H by done. inv_ret. auto.
  - destruct (trans1_small b Hb Hge) as (x & Hx & _).
    rewrite (utf8_read_lead z T i b x) in H by done.
    inv_ret. destruct a as [c' j']. inv_ret. right. split; [lia|]. apply sanitized_pos.
Qed.

(** An ASCII byte and an ASCII character are the same thing, so that the
    code may test the next byte where it means the next character. *)
Lemma read_ascii z T i c j x : bytes_ok z ->
  sqlite3Utf8Read z T i = Ret (c, j) -> 0 <= x < 0x80 ->
  (rd z i = Some x <-> c = x) /\ (c = x -> j = i + 1).
Proof.
  intros Hz H Hx. destruct (read_cases z T i c j Hz H) as (b & Hr & Hb & Hc).
  rewrite Hr. split; [split; [intros [= ->]|intros ->; f_equal]|intros ->]; lia.
Qed.

Lemma read_nonneg z T i c j : bytes_ok z -> sqlite3Utf8Read z T i = Ret (c, j) -> 0 <= c.
Proof. intros Hz H. destruct (read_cases z T i c j Hz H) as (b & _ & [] & ?). lia. Qed.

(** ** Every readable block holds a text *)

Lemma tail_stops k : forall f z i c b',
  bytes_ok z -> 0 <= c < 2 ^ (29 - 6 * Z.of_nat k) -> (k <= 4)%nat -> (k < f)%nat ->
  rd z (i + Z.of_nat k) = Some b' -> is_cont b' = false -> 0 <= i ->
  exists c' j, utf8_tail f z None i c = Ret (c', j).
Proof.
  induction k as [|k IH]; intros f z i c b' Hz Hc Hk Hf Hr Hb Hi;
    (destruct f as [|f]; [lia|]).
  - exists c, i. apply utf8_tail_stop. right. exists b'. by rewrite Z.add_0_r in Hr.
  - destruct (rd_lt z i) as [b E]; [apply rd_Some_lt in Hr; lia|].
    pose proof (rd_Forall _ _ _ _ Hz E) as Hbb.
    destruct (is_cont b) eqn:Ec.
    + assert (2 ^ (29 - 6 * Z.of_nat (S k)) * 64 = 2 ^ (29 - 6 * Z.of_nat k)) as Hp
        by (change 64 with (2 ^ 6); rewrite <- Z.pow_add_r by lia; f_equal; lia).
      assert (2 ^ (29 - 6 * Z.of_nat (S k)) <= 2 ^ 23) by (apply Z.pow_le_mono_r; lia).
      pose proof (Z.mod_pos_bound b 64).
      rewrite (utf8_tail_cont f z None i c b) by (done || lia).
      apply (IH f z (i + 1) _ b'); try (done || lia).
      replace (i + 1 + Z.of_nat k) with (i + Z.of_nat (S k)) by lia. done.
    + exists c, i. apply utf8_tail_stop. eauto.
Qed.

Lemma read_readable z i : readable z -> is_Some (rd z i) ->
  exists c j, sqlite3Utf8Read z None i = Ret (c, j).
Proof.
  intros (Hz & _ & Hl) [b Hr]. pose proof (rd_Forall _ _ _ _ Hz Hr) as Hb.
  destruct (Z.lt_ge_cases b 0xc0) as [Hlt|Hge]; [eauto using utf8_read_single|].
  destruct (trans1_small b Hb Hge) as (x & Hx & Hxb).
  rewrite (utf8_read_lead z None i b x) by done.
  destruct (Hl i b Hr Hge) as (k & b' & Hk & Hr' & Hb').
  destruct (tail_stops (Z.to_nat (k - 1)) (S (length z)) z (i + 1) x b') as (c & j & ->);
    try (done || lia).
  - assert (2 ^ 5 <= 2 ^ (29 - 6 * Z.of_nat (Z.to_nat (k - 1)))) by (apply Z.pow_le_mono_r; lia). lia.
  - apply rd_Some_lt in Hr'. apply rd_Some_lt in Hr. unfold zlen in *. lia.
  - rewrite <- Hr'. f_equal. lia.
  - apply rd_Some_lt in Hr. lia.
  - crun. eauto.
Qed.

(** The terminator at [n] is not stepped over. *)
Lemma tail_before f z i c c' j n : bytes_ok z -> rd z n = Some 0 -> i <= n ->
  utf8_tail f z None i c = Ret (c', j) -> j <= n.
Proof.
  intros Hz Hn. revert i c. induction f as [|f IH]; intros i c Hi H; [done|].
  cbn [utf8_tail] in H. rewrite bool_decide_eq_false_2 in H by done.
  destruct (decide (i = n)) as [->|].
  - rewrite Hn in H. change (Ret (c, n) = Ret (c', j)) in H. injection H. lia.
  - destruct (rd z i) as [b|] eqn:E; [|done]. cbn [of_opt] in H. rewrite bind_ret_l in H.
    destruct (Z.land b 0xc0 =? 0x80); [|inv_ret; lia].
    inv_ret. apply IH in H; lia.
Qed.

Lemma read_before z i c j n : bytes_ok z -> rd z n = Some 0 -> i < n ->
  sqlite3Utf8Read z None i = Ret (c, j) -> j <= n.
Proof.
  intros Hz Hn Hi H. destruct (read_cases z None i c j Hz H) as (b & Hr & Hb & [(_ & _ & ->)|(Hge & _)]); [lia|].
  destruct (trans1_small b Hb Hge) as (x & Hx & _).
  rewrite (utf8_read_lead z None i b x) in H by done.
  inv_ret. destruct a as [c' j']. inv_ret. eapply (tail_before _ z (i + 1) x); [done..| |done]. lia.
Qed.

Lemma text_exists z i n : readable z -> rd z n = Some 0 -> 0 <= i <= n -> exists cs, text z i cs.
Proof.
  intros Hz Hn. remember (Z.to_nat (n - i)) as k eqn:Hk. revert i Hk.
  induction k as [k IH] using lt_wf_ind. intros i Hk Hi.
  destruct (rd_lt z i) as [b Hb]; [apply rd_Some_lt in Hn; lia|].
  destruct (decide (b = 0)) as [->|Hb0].
  { exists [], i. split; [constructor|done]. }
  assert (i < n) by (destruct (decide (i = n)); [congruence|lia]).
  destruct (read_readable z i Hz) as (c & j & Hr); [eauto|].
  destruct Hz as (Hz & Hz').
  pose proof (read_bounds _ _ _ _ _ Hr). pose proof (read_before z i c j n Hz Hn ltac:(lia) Hr).
  destruct (IH (Z.to_nat (n - j)) ltac:(lia) j eq_refl ltac:(lia)) as (cs & m & Hcs & Hm).
  exists (c :: cs), m. split; [|done]. apply (chars_cons z i c j); [done| |done].
  intros ->. destruct (read_ascii z None i 0 j 0 Hz Hr ltac:(lia)) as [[_ E] _].
  specialize (E eq_refl). congruence.
Qed.

Lemma text_unique z i cs j cs' j' : bytes_ok z ->
  text_to z i cs j -> text_to z i cs' j' -> cs = cs' /\ j = j'.
Proof.
  intros Hz [H Hj]. revert cs'. induction H as [i|i c k cs j Hr Hc _ IH]; intros cs' [H' Hj'].
  - destruct H' as [|i c k cs' j' Hr Hc]; [done|].
    destruct (read_ascii z None i c k 0 Hz Hr ltac:(lia)) as [[E _] _]. by rewrite E in Hc.
  - destruct H' as [|i c' k' cs' j' Hr' Hc' H'].
    + destruct (read_ascii z None i c k 0 Hz Hr ltac:(lia)) as [[E _] _]. by rewrite E in Hc.
    + rewrite Hr in Hr'. injection Hr' as <- <-.
      destruct (IH Hj cs') as [-> ->]; done.
Qed.

Lemma chars_app z i cs k ds j : chars z i cs k -> chars z k ds j -> chars z i (cs ++ ds) j.
Proof. induction 1; [done|]. intros. econstructor; eauto. Qed.

Lemma chars_split z i cs ds j : chars z i (cs ++ ds) j -> exists k, chars z i cs k /\ chars z k ds j.
Proof.
  revert i. induction cs as [|c cs IH]; intros i H; [eexists; split; [constructor|done]|].
  inversion H as [|? ? k ? ? Hr Hc H']; subst. apply IH in H' as (k' & ? & ?).
  exists k'. split; [econstructor; eauto|done].
Qed.

Lemma chars_bounds z i cs j : chars z i cs j -> i + zlen cs <= j.
Proof.
  induction 1 as [|i c k cs j Hr Hc H IH]; [size|].
  apply read_bounds in Hr. rewrite zlen_cons. lia.
Qed.

Lemma text_char z i c cs j : bytes_ok z -> text_to z i (c :: cs) j ->
  exists k, sqlite3Utf8Read z None i = Ret (c, k) /\ text_to z k cs j /\
    SQLITE_SKIP_UTF8 z i = Ret k /\ i < k /\ 0 <= i /\ c <> 0 /\
    exists b, rd z i = Some b /\ b <> 0.
Proof.
  intros Hz [H Hj]. inversion H as [|? ? k ? ? Hr Hc H']; subst.
  pose proof (read_bounds _ _ _ _ _ Hr).
  exists k. split_and!; try (done || lia); [by eapply read_skip|].
  destruct (read_cases z None i c k Hz Hr) as (b & Hb & _ & Hcase).
  exists b. split; [done|]. lia.
Qed.

Lemma text_end z i j : bytes_ok z -> text_to z i [] j ->
  j = i /\ rd z i = Some 0 /\ sqlite3Utf8Read z None i = Ret (0, i + 1).
Proof.
  intros Hz [H Hj]. inversion H; subst. split_and!; [done..|].
  by apply utf8_read_single.
Qed.

(** ** Writing and reading *)

Lemma land_div_mod c m n : 0 <= m -> 0 <= n ->
  Z.land (Z.shiftr c n) (2 ^ m - 1) = (c / 2 ^ n) mod 2 ^ m.
Proof. intros. rewrite land_ones_mod, Z.shiftr_div_pow2 by lia. done. Qed.

Lemma trans1_payload k x : In k [(0xc0, 32); (0xe0, 16); (0xf0, 8)] -> 0 <= x < snd k ->
  rd sqlite3UtfTrans1 (fst k + x - 0xc0) = Some x.
Proof.
  intros Hk Hx.
  assert (forallb (fun k => forallb (fun x => (snd k <=? x) ||
      bool_decide (rd sqlite3UtfTrans1 (fst k + x - 0xc0) = Some x)) (seqZ 0 32))
      [(0xc0, 32); (0xe0, 16); (0xf0, 8)] = true) as H by (vm_compute; reflexivity).
  rewrite forallb_forall in H. specialize (H k Hk). rewrite forallb_forall in H.
  assert (snd k <= 32) by (repeat (destruct Hk as [<-|Hk]; [cbn; lia|]); done).
  specialize (H x). rewrite (proj2 (Z.leb_gt _ _)) in H by lia.
  apply bool_decide_eq_true in H; [done|].
  apply list_elem_of_In, elem_of_seqZ. lia.
Qed.

Lemma sanitized_char c : 0x80 <= c < 0x110000 ->
  sanitized c = if (0xd800 <=? c) && (c <=? 0xdfff) then 0xfffd
                else if Z.land c 0xfffffffe =? 0xfffe then 0xfffd else c.
Proof.
  intros Hc. unfold sanitized. rewrite (proj2 (Z.ltb_ge c 0x80)) by lia. cbn [orb].
  assert (Z.land c 0xfffff800 = 2048 * (c / 2048)) as ->.
  { replace (2048 * (c / 2048)) with (Z.ldiff c (Z.ones 11)).
    2:{ rewrite Z.ldiff_ones_r, Z.shiftl_mul_pow2, Z.shiftr_div_pow2 by lia. change (2 ^ 11) with 2048. lia. }
    apply Z.bits_inj_iff'. intros n Hn. rewrite Z.land_spec, Z.ldiff_spec.
    destruct (Z.lt_ge_cases n 32) as [Hn32|Hn32].
    - f_equal. assert (n < 32) by lia. clear - Hn Hn32.
      assert (forallb (fun n => Bool.eqb (Z.testbit 0xfffff800 n) (negb (Z.testbit (Z.ones 11) n))) (seqZ 0 32) = true)
        as H by (vm_compute; reflexivity).
      rewrite forallb_forall in H. apply eqb_prop, H, list_elem_of_In, elem_of_seqZ. lia.
    - assert (Z.testbit c n = false) as ->; [|done].
      apply (bits_bound c 32); lia. }
  destruct (Z.eqb_spec (2048 * (c / 2048)) 0xd800) as [E|E];
    destruct (Z.leb_spec 0xd800 c), (Z.leb_spec c 0xdfff); cbn [orb andb]; try done;
    exfalso; Z.to_euclidean_division_equations; lia.
Qed.

Lemma rd_cons_S {A} (x : A) l i : 0 <= i -> rd (x :: l) (i + 1) = rd l i.
Proof. intros. change (x :: l) with ([x] ++ l). rewrite Z.add_comm. by apply (rd_app_r [x]). Qed.

(** Continuation bytes up to the end pointer. *)
Lemma tail_cont_bytes ys : forall f z i x,
  (forall j y, ys !! j = Some y -> rd z (i + Z.of_nat j) = Some (0x80 + y)) ->
  Forall (fun y => 0 <= y < 64) ys -> (length ys <= 4)%nat -> (length ys < f)%nat ->
  0 <= x < 2 ^ (29 - 6 * zlen ys) ->
  utf8_tail f z (Some (i + zlen ys)) i x = Ret (foldl (fun c y => c * 64 + y) x ys, i + zlen ys).
Proof.
  induction ys as [|y ys IH]; intros f z i x Hrd Hys Hl Hf Hx; (destruct f as [|f]; [lia|]).
  - change (zlen []) with 0 in *. rewrite Z.add_0_r. apply utf8_tail_stop. by left.
  - apply Forall_cons in Hys as [Hy Hys]. rewrite zlen_cons in *. cbn [length] in Hl, Hf.
    assert (2 ^ (29 - 6 * (zlen ys + 1)) * 64 = 2 ^ (29 - 6 * zlen ys)) as Hp.
    { change 64 with (2 ^ 6). rewrite <- Z.pow_add_r by (unfold zlen; lia). f_equal. lia. }
    assert (2 ^ (29 - 6 * (zlen ys + 1)) <= 2 ^ 23) by (apply Z.pow_le_mono_r; pose proof (zlen_nonneg ys); lia).
    rewrite (utf8_tail_cont f z _ i x (0x80 + y)).
    + replace ((0x80 + y) mod 64) with y
        by (change 0x80 with (2 * 64); rewrite Z.add_comm, Z.mod_add, Z.mod_small by lia; done).
      cbn [foldl]. replace (i + (zlen ys + 1)) with (i + 1 + zlen ys) by lia.
      apply IH; [|done|lia..]. intros j y' Hj. rewrite <- (Hrd (S j) y' Hj). f_equal. lia.
    + unfold is_byte. lia.
    + rewrite <- (Hrd 0%nat y eq_refl). f_equal. lia.
    + rewrite is_cont_spec by (unfold is_byte; lia). lia.
    + pose proof (zlen_nonneg ys). intros [=]. lia.
    + lia.
Qed.

(** A buffer with a lead byte and continuation bytes behind it reads as the
    bits that they carry. *)
Lemma read_cont_bytes b x ys :
  is_byte b -> 0xc0 <= b -> rd sqlite3UtfTrans1 (b - 0xc0) = Some x -> 0 <= x < 32 ->
  (length ys <= 3)%nat -> Forall (fun y => 0 <= y < 64) ys ->
  sqlite3Utf8Read (b :: ((fun y => 0x80 + y) <$> ys) ++ [0]) (Some (1 + zlen ys)) 0 =
  Ret (sanitized (foldl (fun c y => c * 64 + y) x ys), 1 + zlen ys).
Proof.
  intros Hb Hge Hx Hxb Hl Hys.
  rewrite (utf8_read_lead _ _ 0 b x), tail_cont_bytes; try done.
  - intros j y Hy. rewrite Z.add_comm, Z.add_assoc, Z.add_0_r, rd_cons_S, rd_app_l, rd_nat by
      (apply lookup_lt_Some in Hy; size). by rewrite list_lookup_fmap, Hy.
  - lia.
  - size.
  - assert (2 ^ 11 <= 2 ^ (29 - 6 * zlen ys)) by (apply Z.pow_le_mono_r; unfold zlen; lia). lia.
Qed.

(** A multi-byte character reads back when its bits are those of [i]. *)
Lemma write_multi i k x ys :
  In k [(0xc0, 32); (0xe0, 16); (0xf0, 8)] -> 0 <= x < snd k -> 0x80 <= i < 0x110000 ->
  WRITE_UTF8 i = u8 (fst k + x) :: ((fun y => 0x80 + y) <$> ys) ->
  (length ys <= 3)%nat -> Forall (fun y => 0 <= y < 64) ys ->
  foldl (fun c y => c * 64 + y) x ys = i -> utf8_selftest_round i = Ret tt.
Proof.
  intros Hk Hx Hi Hw Hl Hys Hf. unfold utf8_selftest_round. rewrite Hw.
  assert (is_byte (fst k + x) /\ 0xc0 <= fst k + x /\ snd k <= 32) as (Hb & Hge & Hs).
  { unfold is_byte. repeat (destruct Hk as [<-|Hk]; [cbn in *; lia|]); done. }
  rewrite (u8_id _ Hb). cbn [app].
  replace (zlen (fst k + x :: ((fun y => 0x80 + y) <$> ys))) with (1 + zlen ys)
    by (rewrite zlen_cons, zlen_fmap; lia).
  rewrite (read_cont_bytes _ x) by (done || lia || by apply trans1_payload).
  rewrite Hf, sanitized_char by done. crun.
  assert (Z.land 0xfffd 0xfffffffe =? 0xfffe = false) by done.
  destruct ((0xd800 <=? i) && (i <=? 0xdfff)) eqn:Esur.
  - assert (Z.land i 0xfffffffe =? 0xfffe = false) as ->.
    { apply Z.eqb_neq. intros E. assert (Z.testbit (Z.land i 0xfffffffe) 13 = true) as Ht by by rewrite E.
      rewrite Z.land_spec, Z.testbit_eqb in Ht by lia.
      assert (i / 2 ^ 13 = 6) as Hd by (change (2 ^ 13) with 8192; Z.to_euclidean_division_equations; lia).
      rewrite Hd in Ht. done. }
    by rewrite Z.eqb_refl, Z.eqb_refl.
  - rewrite !Z.eqb_refl. done.
Qed.

Lemma write_cont c n : 0 <= n -> u8 (0x80 + Z.land (Z.shiftr c n) 0x3f) = 0x80 + (c / 2 ^ n) mod 64.
Proof.
  intros. change 0x3f with (2 ^ 6 - 1). rewrite land_div_mod by lia.
  change (2 ^ 6) with 64. pose proof (Z.mod_pos_bound (c / 2 ^ n) 64 ltac:(lia)). apply u8_id. unfold is_byte. lia.
Qed.

(** [sqlite3Utf8Read] reads back what [WRITE_UTF8] wrote, up to the
    terminator and not further, for every Unicode character; surrogates and
    the two non-characters become the replacement character.  So the first
    loop of [sqlite3UtfSelfTest] never fails an assertion. *)
Theorem utf8_selftest_passes i : 0 <= i < 0x110000 -> utf8_selftest_round i = Ret tt.
Proof.
  intros Hi. pose proof (land_div_mod i) as Hland.
  destruct (Z.ltb_spec i 0x80) as [H1|H1]; [|destruct (Z.ltb_spec i 0x800) as [H2|H2];
    [|destruct (Z.ltb_spec i 0x10000) as [H3|H3]]].
  - assert (is_byte i) as Hb by (unfold is_byte; lia).
    byte_check (fun i => (0x80 <=? i) || match utf8_selftest_round i with Ret _ => true | _ => false end) i.
    rewrite (proj2 (Z.leb_gt _ _) H1) in H. cbn [orb] in H.
    by destruct (utf8_selftest_round i) as [[]| | |].
  - apply (write_multi i (0xc0, 32) ((i / 2 ^ 6) mod 2 ^ 5) [(i / 2 ^ 0) mod 64]).
    + cbn. tauto.
    + apply Z.mod_pos_bound. done.
    + lia.
    + unfold WRITE_UTF8. rewrite (proj2 (Z.ltb_ge _ _) H1), (proj2 (Z.ltb_lt _ _) H2).
      rewrite <- (Z.shiftr_0_r i) at 2. rewrite write_cont by lia.
      change 0x1f with (2 ^ 5 - 1). by rewrite Hland by lia.
    + cbn. lia.
    + repeat constructor; Z.to_euclidean_division_equations; lia.
    + cbn [foldl]. Z.to_euclidean_division_equations; lia.
  - apply (write_multi i (0xe0, 16) ((i / 2 ^ 12) mod 2 ^ 4) [(i / 2 ^ 6) mod 64; (i / 2 ^ 0) mod 64]).
    + cbn. tauto.
    + apply Z.mod_pos_bound. done.
    + lia.
    + unfold WRITE_UTF8. rewrite (proj2 (Z.ltb_ge _ _) H1), (proj2 (Z.ltb_ge _ _) H2), (proj2 (Z.ltb_lt _ _) H3).
      rewrite <- (Z.shiftr_0_r i) at 3. rewrite !write_cont by lia.
      change 0x0f with (2 ^ 4 - 1). by rewrite Hland by lia.
    + cbn. lia.
    + repeat constructor; Z.to_euclidean_division_equations; lia.
    + cbn [foldl]. Z.to_euclidean_division_equations; lia.
  - apply (write_multi i (0xf0, 8) ((i / 2 ^ 18) mod 2 ^ 3)
             [(i / 2 ^ 12) mod 64; (i / 2 ^ 6) mod 64; (i / 2 ^ 0) mod 64]).
    + cbn. tauto.
    + apply Z.mod_pos_bound. done.
    + lia.
    + unfold WRITE_UTF8. rewrite (proj2 (Z.ltb_ge _ _) H1), (proj2 (Z.ltb_ge _ _) H2), (proj2 (Z.ltb_ge _ _) H3).
      rewrite <- (Z.shiftr_0_r i) at 4. rewrite !write_cont by lia.
      change 0x07 with (2 ^ 3 - 1). by rewrite Hland by lia.
    + cbn. lia.
    + repeat constructor; Z.to_euclidean_division_equations; lia.
    + cbn [foldl]. Z.to_euclidean_division_equations; lia.
Qed.

Lemma utf8_selftest_passes_witness : utf8_selftest_round 0x20ac = Ret tt.
Proof. apply (utf8_selftest_passes 0x20ac). lia. Defined.

(** ** Counting characters *)

Lemma charlen_all fuel z i cs j r : bytes_ok z -> text_to z i cs j ->
  (length cs < fuel)%nat -> 0 <= r -> r + zlen cs < 2 ^ 31 ->
  charlen_loop fuel z None i r = Ret (r + zlen cs).
Proof.
  intros Hz. revert i cs r. induction fuel as [|fuel IH]; intros i cs r Ht Hf Hr Hb; [lia|].
  cbn [charlen_loop]. destruct cs as [|c cs].
  - destruct (text_end z i j Hz Ht) as (_ & -> & _). crun. cbn. by rewrite Z.add_0_r.
  - destruct (text_char z i c cs j Hz Ht) as (k & _ & Ht' & Hs & _ & _ & _ & b & -> & Hb0).
    rewrite zlen_cons in *. pose proof (zlen_nonneg cs).
    crun. rewrite (proj2 (Z.eqb_neq b 0) Hb0). cbn [negb andb]. rewrite Hs. crun.
    rewrite sint_id by lia. crun.
    rewrite (IH k cs) by (done || cbn in Hf; lia). f_equal. lia.
Qed.

Lemma utf8_charlen_spec z cs : bytes_ok z -> zlen z < 2 ^ 31 -> text z 0 cs ->
  sqlite3Utf8CharLen z (-1) = Ret (zlen cs).
Proof.
  intros Hz Hl [j Ht]. pose proof (chars_bounds _ _ _ _ (proj1 Ht)) as Hb.
  pose proof (rd_Some_lt _ _ _ (proj2 Ht)) as Hj.
  unfold sqlite3Utf8CharLen. cbn [Z.leb Z.compare].
  rewrite (charlen_all _ z 0 cs j) by (done || unfold zlen in *; lia). done.
Qed.

(** ** Walking along a text *)

Lemma text_nil z i : bytes_ok z -> text z i [] ->
  sqlite3Utf8Read z None i = Ret (0, i + 1) /\ rd z i = Some 0.
Proof. intros Hz [j H]. apply text_end in H; tauto. Qed.

Lemma text_cons z i c cs : bytes_ok z -> text z i (c :: cs) ->
  exists k, sqlite3Utf8Read z None i = Ret (c, k) /\ text z k cs /\
    SQLITE_SKIP_UTF8 z i = Ret k /\ 0 < c /\ (c < 0x80 -> k = i + 1) /\
    exists b, rd z i = Some b /\ b <> 0 /\ forall x, 0 <= x < 0x80 -> b = x <-> c = x.
Proof.
  intros Hz [j H]. destruct (text_char z i c cs j Hz H) as (k & Hr & Ht & Hs & _ & _ & Hc & b & Hb & Hb0).
  pose proof (read_nonneg z None i c k Hz Hr).
  exists k. split_and!; try done; [by exists j|lia|..].
  - intros Hlt. by apply (read_ascii z None i c k c Hz Hr).
  - exists b. split_and!; try done. intros x Hx.
    destruct (read_ascii z None i c k x Hz Hr Hx) as [E _]. rewrite Hb in E.
    rewrite <- E. naive_solver.
Qed.

Lemma text_length z i cs : text z i cs -> 0 <= i -> (length cs < length z)%nat.
Proof.
  intros (j & H & Hj) Hi. apply chars_bounds in H. apply rd_Some_lt in Hj.
  unfold zlen in *. lia.
Qed.

Lemma text_index z i cs : text z i cs -> 0 <= i.
Proof.
  intros (j & H & Hj). destruct H as [i|i c k cs j Hr _ _].
  - apply rd_Some_lt in Hj. lia.
  - apply read_bounds in Hr. lia.
Qed.
