(* ===== verification/SqlFunc.v ===== *)
(** * SQL functions: the text, numeric and aggregate functions of [func.c]

    A function gets what the [sqlite3_value_*] routines return for its
    arguments ([value]): the type, the text as a block with its terminator,
    the blob, the number of bytes and the numbers.  It ends with one call of a
    [sqlite3_result_*] routine, or with none ([sql_result]).  The allocator
    answers from an oracle; fresh memory holds the bytes [junk].  The
    arithmetic of [i64] wraps around, as the compilers of these machines make
    it; that of [int] is undefined when it overflows. *)

From S2P Require Import Prelude BitExpr NumText Tokenize Mem Record Utf.
From Stdlib Require Import Floats.SpecFloat.

(** ** Arguments and results *)

Inductive value_type := SQLITE_NULL | SQLITE_INTEGER | SQLITE_FLOAT | SQLITE_TEXT | SQLITE_BLOB.

#[export] Instance value_type_eq_dec : EqDecision value_type.
Proof. solve_decision. Defined.

Record value := mkValue {
  type : value_type;              (** [sqlite3_value_type] *)
  text_ : option (list Z);        (** [sqlite3_value_text] *)
  blob : option (list Z);         (** [sqlite3_value_blob] *)
  nbytes : Z;                     (** [sqlite3_value_bytes] *)
  int64 : Z;                      (** [sqlite3_value_int64] *)
  double : spec_float;            (** [sqlite3_value_double] *)
}.

(** [sqlite3_value_int] *)
Definition int_ (v : value) : Z := s32 (int64 v).

Inductive sql_result :=
| NoResult                        (** no call: the result stays NULL *)
| ResultNull
| ResultInt (i : Z)
| ResultDouble (d : spec_float)
| ResultText (t : list Z)         (** with the bytes that the call is given *)
| ResultBlob (b : list Z)
| ResultValue (v : value)
| ResultError (msg : list Z)
| ResultTooBig
| ResultNoMem.

(** "integer overflow" *)
Definition integer_overflow : list Z :=
  [105; 110; 116; 101; 103; 101; 114; 32; 111; 118; 101; 114; 102; 108; 111; 119].

(** ** length() and substr() *)

(** [while( *z ){ len++; SQLITE_SKIP_UTF8(z); }] *)
Fixpoint count_chars (fuel : nat) (z : list Z) (i len : Z) : res Z :=
  match fuel with
  | O => NoFuel
  | S fuel =>
      b ← of_opt (rd z i);
      if b =? 0 then Ret len else
      len ← sint (len + 1);
      i ← SQLITE_SKIP_UTF8 z i;
      count_chars fuel z i len
  end.

Definition lengthFunc (argv0 : value) : res sql_result :=
  match type argv0 with
  | SQLITE_BLOB | SQLITE_INTEGER | SQLITE_FLOAT => Ret (ResultInt (nbytes argv0))
  | SQLITE_TEXT =>
      match text_ argv0 with
      | None => Ret NoResult
      | Some z => len ← count_chars (S (length z)) z 0 0; Ret (ResultInt len)
      end
  | SQLITE_NULL => Ret ResultNull
  end.

(** [while( *z && p ){ SQLITE_SKIP_UTF8(z); p--; }] *)
Fixpoint skip_chars (fuel : nat) (z : list Z) (i p : Z) : res Z :=
  match fuel with
  | O => NoFuel
  | S fuel =>
      b ← of_opt (rd z i);
      if negb (b =? 0) && negb (p =? 0) then
        i ← SQLITE_SKIP_UTF8 z i; skip_chars fuel z i (p - 1)
      else Ret i
  end.

(** The start and the length that the arguments ask for. *)
Definition substr_window (len p1 p2 : Z) : Z * Z :=
  let '(p1, p2) :=
    if p1 <? 0 then
      let p1 := p1 + len in
      if p1 <? 0 then (0, p2 + p1) else (p1, p2)
    else if 0 <? p1 then (p1 - 1, p2) else (p1, p2) in
  if len <? p1 + p2 then (p1, len - p1) else (p1, p2).

(** [argv2] is missing when [argc] is 2; [limit] is
    [aLimit[SQLITE_LIMIT_LENGTH]]. *)
Definition substrFunc (limit : Z) (argv0 argv1 : value) (argv2 : option value) : res sql_result :=
  let p2 := match argv2 with Some v => int_ v | None => limit end in
  if decide (type argv0 = SQLITE_BLOB) then
    match blob argv0 with
    | None => Ret NoResult
    | Some z =>
        let '(p1, p2) := substr_window (nbytes argv0) (int_ argv1) p2 in
        let p2 := if p2 <? 0 then 0 else p2 in
        b ← (if p2 =? 0 then Ret [] else bytes_at z p1 p2); Ret (ResultBlob b)
    end
  else
    match text_ argv0 with
    | None => Ret NoResult
    | Some z =>
        len ← count_chars (S (length z)) z 0 0;
        let '(p1, p2) := substr_window len (int_ argv1) p2 in
        i ← skip_chars (S (length z)) z 0 p1;
        j ← skip_chars (S (length z)) z i p2;
        t ← bytes_at z i (j - i); Ret (ResultText t)
    end.

(** ** abs() and sum() *)

Definition fopp : spec_float -> spec_float := SFopp.

Definition absFunc (argv0 : value) : sql_result :=
  match type argv0 with
  | SQLITE_INTEGER =>
      let iVal := int64 argv0 in
      if iVal <? 0 then
        if s64 (Z.shiftl iVal 1) =? 0 then ResultError integer_overflow
        else ResultInt (s64 (- iVal))
      else ResultInt iVal
  | SQLITE_NULL => ResultNull
  | _ =>
      let rVal := double argv0 in
      ResultDouble (if SFltb rVal (S754_zero false) then fopp rVal else rVal)
  end.

Record SumCtx := mkSum {
  rSum : spec_float;
  iSum : Z;
  cnt : Z;
  overflow : Z;
  approx : Z;
}.

(** [sqlite3_aggregate_context] gives zeroed memory at the first step. *)
Definition sum_zero : SumCtx := mkSum (S754_zero false) 0 0 0 0.

Definition fadd (x y : spec_float) : spec_float := SFadd sf_prec sf_emax x y.

(** The type is that of [sqlite3_value_numeric_type]. *)
Definition sumStep (p : SumCtx) (argv0 : value) : SumCtx :=
  match type argv0 with
  | SQLITE_NULL => p
  | SQLITE_INTEGER =>
      let v := int64 argv0 in
      let r := fadd (rSum p) (i64_to_double v) in
      if Z.lor (approx p) (overflow p) =? 0 then
        let iNewSum := s64 (iSum p + v) in
        let s1 := Z.shiftr (iSum p) 63 in
        let s2 := Z.shiftr v 63 in
        let s3 := Z.shiftr iNewSum 63 in
        mkSum r iNewSum (s64 (cnt p + 1))
          (u8 (Z.lor (Z.land (Z.land s1 s2) (Z.lnot s3)) (Z.land (Z.land (Z.lnot s1) (Z.lnot s2)) s3)))
          (approx p)
      else mkSum r (iSum p) (s64 (cnt p + 1)) (overflow p) (approx p)
  | _ => mkSum (fadd (rSum p) (double argv0)) (iSum p) (s64 (cnt p + 1)) (overflow p) 1
  end.

(** [None]: no step has asked for the context. *)
Definition sumFinalize (p : option SumCtx) : sql_result :=
  match p with
  | Some p =>
      if 0 <? cnt p then
        if negb (overflow p =? 0) then ResultError integer_overflow
        else if negb (approx p =? 0) then ResultDouble (rSum p)
        else ResultInt (iSum p)
      else NoResult
  | None => NoResult
  end.

Definition fdiv (x y : spec_float) : spec_float := SFdiv sf_prec sf_emax x y.

Definition avgFinalize (p : option SumCtx) : sql_result :=
  match p with
  | Some p => if 0 <? cnt p then ResultDouble (fdiv (rSum p) (i64_to_double (cnt p))) else NoResult
  | None => NoResult
  end.

Definition totalFinalize (p : option SumCtx) : sql_result :=
  ResultDouble (match p with Some p => rSum p | None => S754_zero false end).

(** ** Sums *)

Definition is_i64 (x : Z) : Prop := - 2 ^ 63 <= x < 2 ^ 63.

#[export] Instance is_i64_dec x : Decision (is_i64 x).
Proof. unfold is_i64. apply _. Defined.

Lemma shiftr_sign x : is_i64 x -> Z.shiftr x 63 = if x <? 0 then -1 else 0.
Proof.
  unfold is_i64. intros Hx. rewrite Z.shiftr_div_pow2 by lia.
  destruct (Z.ltb_spec x 0); Z.to_euclidean_division_equations; lia.
Qed.

Lemma s64_wraps a b : is_i64 a -> is_i64 b ->
  is_i64 (s64 (a + b)) /\
  s64 (a + b) = if decide (is_i64 (a + b)) then a + b else if a <? 0 then a + b + 2 ^ 64 else a + b - 2 ^ 64.
Proof.
  unfold is_i64, s64. intros Ha Hb. split; [Z.to_euclidean_division_equations; lia|].
  case_decide; [|destruct (Z.ltb_spec a 0)]; Z.to_euclidean_division_equations; lia.
Qed.

(** The test of the three signs. *)
Lemma overflow_flag a b : is_i64 a -> is_i64 b ->
  let n := s64 (a + b) in
  let s1 := Z.shiftr a 63 in let s2 := Z.shiftr b 63 in let s3 := Z.shiftr n 63 in
  u8 (Z.lor (Z.land (Z.land s1 s2) (Z.lnot s3)) (Z.land (Z.land (Z.lnot s1) (Z.lnot s2)) s3))
  = if decide (is_i64 (a + b)) then 0 else 255.
Proof.
  intros Ha Hb n s1 s2 s3. subst n s1 s2 s3. destruct (s64_wraps a b Ha Hb) as [Hn En].
  rewrite !shiftr_sign by done. rewrite En. clear En Hn. unfold is_i64 in *. case_decide as Hd;
    destruct (Z.ltb_spec a 0), (Z.ltb_spec b 0); try lia;
    match goal with |- context [?x <? 0] => destruct (Z.ltb_spec x 0) end; try lia; reflexivity.
Qed.

(** An argument that is NULL or an integer. *)
Definition int_arg (x : option Z) : value :=
  match x with
  | Some v => mkValue SQLITE_INTEGER None None 0 v (i64_to_double v)
  | None => mkValue SQLITE_NULL None None 0 0 (S754_zero false)
  end.

Definition int_sum (vs : list Z) : Z := foldr Z.add 0 vs.

(** No sum of the first arguments leaves the range of [i64]. *)
Definition sums_fit (vs : list Z) : Prop := forall k, is_i64 (int_sum (take k vs)).

Lemma int_sum_app a b : int_sum (a ++ b) = int_sum a + int_sum b.
Proof. unfold int_sum. induction a as [|x a IH]; cbn; [done|]. rewrite IH. lia. Qed.

(** The context behind the arguments [vs]. *)
Definition sum_state (vs : list Z) (p : SumCtx) : Prop :=
  cnt p = zlen vs /\ approx p = 0 /\ is_i64 (iSum p) /\
  ((overflow p = 0 /\ iSum p = int_sum vs /\ sums_fit vs) \/ (overflow p = 255 /\ ~ sums_fit vs)).

Lemma sums_fit_snoc vs v : sums_fit (vs ++ [v]) <-> sums_fit vs /\ is_i64 (int_sum vs + v).
Proof.
  split.
  - intros H. split.
    + intros k. destruct (decide (k <= length vs)%nat) as [Hk|Hk].
      * rewrite <- (take_app_le vs [v]) by done. apply H.
      * rewrite take_ge by lia. rewrite <- (take_app_length vs [v]). apply H.
    + specialize (H (length (vs ++ [v]))). rewrite take_ge, int_sum_app in H by done.
      cbn in H. by rewrite Z.add_0_r in H.
  - intros [H Hv] k. destruct (decide (k <= length vs)%nat) as [Hk|Hk].
    + rewrite take_app_le by done. apply H.
    + rewrite take_ge by size. rewrite int_sum_app. cbn. by rewrite Z.add_0_r.
Qed.

Lemma sumStep_ok vs v p : sum_state vs p -> is_i64 v -> zlen vs + 1 < 2 ^ 63 ->
  sum_state (vs ++ [v]) (sumStep p (int_arg (Some v))).
Proof.
  intros (Hc & Ha & Hi & Hcase) Hv Hl. pose proof (zlen_nonneg vs).
  unfold sumStep. cbn [type int_arg int64]. rewrite Ha, Hc.
  assert (s64 (zlen vs + 1) = zlen (vs ++ [v])) as Ec
    by (rewrite zlen_app; change (zlen [v]) with 1; unfold s64; Z.to_euclidean_division_equations; lia).
  rewrite Ec. destruct Hcase as [(-> & Es & Hf)|(-> & Hf)].
  - change (Z.lor 0 0 =? 0) with true. cbv iota. unfold sum_state. cbn [cnt approx iSum overflow].
    rewrite overflow_flag by done. destruct (s64_wraps (iSum p) v Hi Hv) as [Hn En].
    split_and!; [done..|]. rewrite sums_fit_snoc, int_sum_app. change (int_sum [v]) with (v + 0).
    rewrite Es in En |- *. rewrite En. case_decide; [left|right]; split_and!; try done; [lia|tauto..].
  - change (Z.lor 0 255 =? 0) with false. cbv iota. unfold sum_state. cbn [cnt approx iSum overflow]. split_and!; [done..|].
    right. rewrite sums_fit_snoc. tauto.
Qed.

Lemma sum_run args : Forall is_i64 (omap id args) -> zlen (omap id args) < 2 ^ 63 ->
  sum_state (omap id args) (foldl sumStep sum_zero (int_arg <$> args)).
Proof.
  induction args as [|x args IH] using rev_ind; intros Hr Hl.
  - unfold sum_state, sums_fit, is_i64. cbn. split_and!; try (lia || done). left. split_and!; try (lia || done).
    intros k. destruct k; cbn; lia.
  - rewrite fmap_app, foldl_app, omap_app. rewrite omap_app in Hr, Hl.
    destruct x as [v|]; cbn in Hr, Hl |- *.
    + rewrite zlen_app in Hl. change (zlen [v]) with 1 in Hl.
      apply Forall_app in Hr as [Hr [Hv _]%Forall_cons].
      assert (zlen (omap id args) + 1 < 2 ^ 63) by exact Hl.
      apply sumStep_ok; [apply IH; [exact Hr|lia]|exact Hv|done].
    + rewrite app_nil_r in *. by apply IH.
Qed.

(** C37: sum() over integers and NULLs.  The NULLs are skipped.  When every sum
    of the first arguments fits into 64 bits the result is the exact sum;
    otherwise the query ends with the error "integer overflow", and never
    with a sum that has wrapped around, even when later arguments would bring
    the sum back into range.  Without any integer the result stays NULL. *)
Theorem sum_never_wraps (args : list (option Z)) :
  Forall is_i64 (omap id args) -> zlen (omap id args) < 2 ^ 63 ->
  let result := sumFinalize (Some (foldl sumStep sum_zero (int_arg <$> args))) in
  (omap id args = [] -> result = NoResult) /\
  (omap id args <> [] -> sums_fit (omap id args) -> result = ResultInt (int_sum (omap id args))) /\
  (~ sums_fit (omap id args) -> result = ResultError integer_overflow).
Proof.
  intros Hr Hl. pose proof (sum_run args Hr Hl) as (Hc & Ha & _ & Hcase).
  generalize dependent (foldl sumStep sum_zero (int_arg <$> args)). intros p Hc Ha Hcase.
  cbv zeta. unfold sumFinalize. rewrite Hc, Ha. cbn [Z.eqb negb].
  assert (omap id args <> [] -> 0 <? zlen (omap id args) = true) as Hne
    by (destruct (omap id args); intros ?; [done|rewrite zlen_cons; pose proof (zlen_nonneg l); lia]).
  split_and!.
  - by intros ->.
  - intros He Hf. rewrite Hne by done. destruct Hcase as [(-> & -> & _)|[_ ?]]; done.
  - intros Hf. destruct Hcase as [(_ & _ & ?)|[-> _]]; [done|].
    rewrite Hne; [done|]. intros He. rewrite He in Hf. apply Hf. unfold sums_fit, is_i64.
    intros k. destruct k; cbn; lia.
Qed.

Lemma sum_never_wraps_witness :
  sumFinalize (Some (foldl sumStep sum_zero (int_arg <$> [Some (2 ^ 63 - 1); None; Some (-5)])))
  = ResultInt (2 ^ 63 - 6).
Proof.
  apply (sum_never_wraps [Some (2 ^ 63 - 1); None; Some (-5)]).
  - cbn. repeat constructor; unfold is_i64; lia.
  - reflexivity.
  - discriminate.
  - intros [|[|[|k]]]; cbn; unfold is_i64; lia.
Defined.

(** ** Substrings *)

Lemma count_chars_ok fuel z i cs r : bytes_ok z -> text z i cs -> (length cs < fuel)%nat ->
  0 <= r -> r + zlen cs < 2 ^ 31 -> count_chars fuel z i r = Ret (r + zlen cs).
Proof.
  intros Hz. revert i cs r. induction fuel as [|fuel IH]; intros i cs r Ht Hf Hr Hb; [lia|].
  cbn [count_chars]. destruct cs as [|c cs].
  - destruct (text_nil z i Hz Ht) as [_ ->]. crun. by rewrite Z.add_0_r.
  - destruct (text_cons z i c cs Hz Ht) as (k & _ & Ht' & Hs & _ & _ & b & -> & Hb0 & _).
    rewrite zlen_cons in *. pose proof (zlen_nonneg cs). crun.
    rewrite (proj2 (Z.eqb_neq b 0) Hb0), sint_id by lia. crun. rewrite Hs. crun.
    rewrite (IH k cs) by (done || cbn in Hf; lia). f_equal. lia.
Qed.

(** How many of the [cs] a count [p] selects; a negative one never gets to 0. *)
Definition selected (p : Z) (cs : list Z) : nat := if p <? 0 then length cs else Z.to_nat p.

Lemma skip_chars_ok fuel z i cs p : bytes_ok z -> text z i cs -> (length cs < fuel)%nat ->
  exists k, skip_chars fuel z i p = Ret k /\
    chars z i (take (selected p cs) cs) k /\ text z k (drop (selected p cs) cs).
Proof.
  intros Hz. revert i cs p. induction fuel as [|fuel IH]; intros i cs p Ht Hf; [lia|].
  cbn [skip_chars]. destruct cs as [|c cs].
  - destruct (text_nil z i Hz Ht) as [_ ->]. crun. cbn [Z.eqb negb andb].
    exists i. rewrite take_nil, drop_nil. by repeat constructor.
  - destruct (text_cons z i c cs Hz Ht) as (k & Hr & Ht' & Hs & Hc & _ & b & -> & Hb0 & _).
    crun. rewrite (proj2 (Z.eqb_neq b 0) Hb0). cbn [negb andb].
    destruct (Z.eqb_spec p 0) as [->|Hp]; cbn [negb].
    + exists i. by repeat constructor.
    + rewrite Hs. crun. destruct (IH k cs (p - 1) Ht' ltac:(cbn in Hf; lia)) as (j & -> & Hch & Htx).
      exists j. split; [done|].
      assert (selected p (c :: cs) = S (selected (p - 1) cs)) as ->.
      { unfold selected. destruct (Z.ltb_spec p 0), (Z.ltb_spec (p - 1) 0); cbn [length]; lia. }
      cbn [take drop]. split; [|done]. econstructor; [done|lia|done].
Qed.

(** The first character that substr() is asked for, counted from 0, when the
    text has [n]: from the end for a negative argument. *)
Definition first_asked (n a : Z) : Z := if 0 <? a then a - 1 else if a <? 0 then a + n else 0.

Lemma window_selects (cs : list Z) a c :
  - 2 ^ 31 <= a < 2 ^ 31 -> - 2 ^ 31 <= c < 2 ^ 31 ->
  let s := first_asked (zlen cs) a in
  let '(p1, p2) := substr_window (zlen cs) a c in
  0 <= p1 /\ p1 = Z.max 0 s /\
  (0 <= c -> 0 <= s \/ 0 <= s + c ->
     take (selected p2 (drop (Z.to_nat p1) cs)) (drop (Z.to_nat p1) cs)
     = drop (Z.to_nat s) (take (Z.to_nat (s + c)) cs)) /\
  (c < 0 \/ s < 0 /\ s + c < 0 -> p2 < 0) /\
  (p2 < 0 -> drop (Z.to_nat s) (take (Z.to_nat (s + c)) cs) = []) /\
  (0 <= p2 -> p1 + p2 <= zlen cs /\
     take (Z.to_nat p2) (drop (Z.to_nat p1) cs) = drop (Z.to_nat s) (take (Z.to_nat (s + c)) cs)).
Proof.
  intros Ha Hc s. pose proof (zlen_nonneg cs) as Hn.
  destruct (substr_window (zlen cs) a c) as [p1 p2] eqn:E.
  assert (p1 = Z.max 0 s /\ p2 = Z.min (if s <? 0 then s + c else c) (zlen cs - Z.max 0 s)) as [-> Hp2].
  { unfold substr_window, first_asked in *. subst s.
    destruct (Z.ltb_spec a 0), (Z.ltb_spec 0 a); try lia; repeat case_match; simplify_eq; lia. }
  assert (Z.to_nat (Z.max 0 s) = Z.to_nat s) as Es by lia. rewrite Es.
  assert (0 <= p2 -> take (Z.to_nat p2) (drop (Z.to_nat s) cs) = drop (Z.to_nat s) (take (Z.to_nat (s + c)) cs)) as Hpos.
  { intros Hp. rewrite take_drop_commute. f_equal.
    destruct (Z.ltb_spec s 0); [|].
    - destruct (Z.min_spec (s + c) (zlen cs - Z.max 0 s)) as [[? Em]|[? Em]]; rewrite Em in Hp2.
      + f_equal. lia.
      + rewrite !take_ge by (unfold zlen in *; lia). done.
    - destruct (Z.min_spec c (zlen cs - Z.max 0 s)) as [[? Em]|[? Em]]; rewrite Em in Hp2.
      + f_equal. lia.
      + rewrite !take_ge by (unfold zlen in *; lia). done. }
  split_and!; [lia|done| | | |].
  - intros Hc0 Hs. destruct (Z.lt_ge_cases p2 0) as [Hneg|Hge].
    + unfold selected. rewrite (proj2 (Z.ltb_lt p2 0)) by done.
      assert (0 <= s /\ zlen cs <= s) by (destruct (Z.ltb_spec s 0); lia).
      rewrite !drop_ge; [done|rewrite length_take; unfold zlen in *; lia|unfold zlen in *; lia].
    + unfold selected. rewrite (proj2 (Z.ltb_ge p2 0)) by done. by apply Hpos.
  - intros H. destruct (Z.ltb_spec s 0); lia.
  - intros H. apply drop_ge. rewrite length_take. destruct (Z.ltb_spec s 0); unfold zlen in *; lia.
  - intros H. split; [|by apply Hpos]. destruct (Z.ltb_spec s 0); lia.
Qed.

Lemma bytes_at_slice z i j : 0 <= i -> i <= j -> j <= zlen z ->
  bytes_at z i (j - i) = Ret (take (Z.to_nat (j - i)) (drop (Z.to_nat i) z)).
Proof. intros. unfold bytes_at. rewrite decide_True by lia. done. Qed.

(** The bytes from [i] to [j]. *)
Definition slice (z : list Z) (i j : Z) : list Z := take (Z.to_nat (j - i)) (drop (Z.to_nat i) z).

Lemma int_range v : - 2 ^ 31 <= int_ v < 2 ^ 31.
Proof. unfold int_, s32. Z.to_euclidean_division_equations; lia. Qed.

(** C38: substr() on a text returns the bytes of the characters that are asked
    for: those from [first_asked] on, as many as the length says, as far as
    the text has them.  But with a negative length, or with a start in front
    of the text and an end in front of it too, it returns the whole rest
    instead of nothing.  On a blob it returns the bytes that are asked for,
    and nothing in those two cases.  All reads stay inside of the argument. *)
Theorem substr_selects (limit : Z) (x start : value) (len : option value)
    (Hlimit : 0 <= limit < 2 ^ 31) :
  let a := int_ start in
  let c := match len with Some v => int_ v | None => limit end in
  (forall z, type x <> SQLITE_BLOB -> text_ x = Some z -> readable z -> zlen z < 2 ^ 31 ->
     exists cs i j, let s := first_asked (zlen cs) a in
       text z 0 cs /\ chars z 0 (take (Z.to_nat s) cs) i /\
       substrFunc limit x start len = Ret (ResultText (slice z i j)) /\
       chars z i (if decide (c < 0 \/ s < 0 /\ s + c < 0) then drop (Z.to_nat s) cs
                  else drop (Z.to_nat s) (take (Z.to_nat (s + c)) cs)) j) /\
  (forall b, type x = SQLITE_BLOB -> blob x = Some b -> nbytes x = zlen b ->
     let s := first_asked (zlen b) a in
     substrFunc limit x start len
     = Ret (ResultBlob (drop (Z.to_nat s) (take (Z.to_nat (s + c)) b)))).
Proof.
  cbv zeta. set (a := int_ start). set (c := match len with Some v => int_ v | None => limit end).
  assert (- 2 ^ 31 <= a < 2 ^ 31) as Ha by apply int_range.
  assert (- 2 ^ 31 <= c < 2 ^ 31) as Hc by (unfold c; destruct len; [apply int_range|lia]).
  unfold substrFunc. fold a c. split.
  - intros z Ht Hz Hread Hl. rewrite decide_False, Hz by done. destruct Hread as (Hzb & [n Hn] & Hlead).
    destruct (text_exists z 0 n) as [cs Hcs]; [by split_and!; [|exists n|]|done|apply rd_Some_lt in Hn; lia|].
    pose proof (text_length z 0 cs Hcs ltac:(lia)) as Hlen.
    rewrite (count_chars_ok _ z 0 cs) by (done || unfold zlen in *; lia). crun. rewrite Z.add_0_l.
    pose proof (window_selects cs a c Ha Hc) as Hw. cbv zeta in Hw.
    destruct (substr_window (zlen cs) a c) as [p1 p2].
    destruct Hw as (Hp1 & Ep1 & Hsel & Hneg & _ & _).
    set (s := first_asked (zlen cs) a) in *.
    destruct (skip_chars_ok (S (length z)) z 0 cs p1 Hzb Hcs ltac:(lia)) as (i & -> & Hi & Hti).
    unfold selected in Hi, Hti. rewrite (proj2 (Z.ltb_ge p1 0)) in Hi, Hti by lia. crun.
    destruct (skip_chars_ok (S (length z)) z i _ p2 Hzb Hti) as (j & -> & Hj & Htj).
    { rewrite length_drop. lia. }
    crun. exists cs, i, j. cbv zeta. fold s. split_and!; [done| | |].
    + by replace (Z.to_nat s) with (Z.to_nat p1) by lia.
    + pose proof (chars_bounds _ _ _ _ Hi). pose proof (chars_bounds _ _ _ _ Hj).
      pose proof (text_index _ _ _ Htj). destruct Htj as (m & Hm & Hm'). apply chars_bounds in Hm.
      apply rd_Some_lt in Hm'. rewrite bytes_at_slice; [done|unfold zlen in *; lia..].
    + case_decide as Hd.
      * specialize (Hneg Hd). unfold selected in Hj. rewrite (proj2 (Z.ltb_lt p2 0)) in Hj by done.
        rewrite firstn_all in Hj. by replace (Z.to_nat s) with (Z.to_nat p1) by lia.
      * rewrite <- Hsel by lia. done.
  - intros b Ht Hb Hn. rewrite decide_True, Hb, Hn by done.
    pose proof (window_selects b a c Ha Hc) as Hw. cbv zeta in Hw.
    destruct (substr_window (zlen b) a c) as [p1 p2].
    destruct Hw as (Hp1 & Ep1 & _ & _ & Hempty & Hpos).
    destruct (Z.ltb_spec p2 0) as [Hp2|Hp2].
    + rewrite Hempty by done. done.
    + destruct (Hpos Hp2) as [Hle E]. destruct (Z.eqb_spec p2 0) as [->|].
      * crun. by rewrite <- E.
      * unfold bytes_at. rewrite decide_True by lia. crun. by rewrite E.
Qed.

(** 'héllo' from the fourth character from the end, two characters. *)
Lemma substr_selects_witness :
  let arg i := mkValue SQLITE_INTEGER None None 0 i (S754_zero false) in
  exists cs i j, let s := first_asked (zlen cs) (-4) in
    text [104; 0xc3; 0xa9; 108; 108; 111; 0] 0 cs /\
    chars [104; 0xc3; 0xa9; 108; 108; 111; 0] 0 (take (Z.to_nat s) cs) i /\
    substrFunc 1000 (mkValue SQLITE_TEXT (Some [104; 0xc3; 0xa9; 108; 108; 111; 0]) None 6 0 (S754_zero false))
      (arg (-4)) (Some (arg 2)) = Ret (ResultText (slice [104; 0xc3; 0xa9; 108; 108; 111; 0] i j)) /\
    chars [104; 0xc3; 0xa9; 108; 108; 111; 0] i
      (if decide (2 < 0 \/ s < 0 /\ s + 2 < 0) then drop (Z.to_nat s) cs
       else drop (Z.to_nat s) (take (Z.to_nat (s + 2)) cs)) j.
Proof.
  apply (substr_selects 1000
    (mkValue SQLITE_TEXT (Some [104; 0xc3; 0xa9; 108; 108; 111; 0]) None 6 0 (S754_zero false))
    (mkValue SQLITE_INTEGER None None 0 (-4) (S754_zero false))
    (Some (mkValue SQLITE_INTEGER None None 0 2 (S754_zero false)))).
  - lia.
  - discriminate.
  - reflexivity.
  - split_and!.
    + repeat constructor; unfold is_byte; lia.
    + exists 6. reflexivity.
    + intros i b Hr Hb. apply rd_Some in Hr as [Hi Hr].
      assert (i = 1) as ->.
      { destruct (Z.to_nat i) as [|[|[|[|[|[|[|k]]]]]]] eqn:Ei; cbn in Hr; simplify_eq; lia. }
      exists 2, 108. split_and!; [lia..|reflexivity|reflexivity].
  - reflexivity.
Defined.

(** ** hex() and quote() *)

Section allocating.
(** A new block of [n] bytes, or nothing. *)
Variable malloc : Z -> option (list Z).
(** [aLimit[SQLITE_LIMIT_LENGTH]] *)
Variable limit : Z.

(** The block, or the result that was set. *)
Definition contextMalloc (nByte : Z) : list Z + sql_result :=
  if limit <? nByte then inr ResultTooBig
  else match malloc nByte with
       | Some z => inl z
       | None => inr (if 0 <? nByte then ResultNoMem else NoResult)
       end.

Definition hexdigits : list Z := [48; 49; 50; 51; 52; 53; 54; 55; 56; 57; 65; 66; 67; 68; 69; 70].

(** [for(i=0; i<n; i++){ z[at++] = hexdigits[(b[i]>>4)&0xf]; z[at++] = hexdigits[b[i]&0xf]; }] *)
Fixpoint hex_loop (b : list Z) (n : nat) (z : list Z) (at_ : Z) {struct n} : res (list Z) :=
  match n with
  | O => Ret z
  | S n =>
      match b with
      | [] => UB
      | c :: b =>
          h ← of_opt (rd hexdigits (Z.land (Z.shiftr c 4) 0x0f));
          z ← of_opt (wr z at_ h);
          l ← of_opt (rd hexdigits (Z.land c 0x0f));
          z ← of_opt (wr z (at_ + 1) l);
          hex_loop b n z (at_ + 2)
      end
  end.

Definition hexFunc (argv0 : value) : res sql_result :=
  let n := nbytes argv0 in
  match contextMalloc (n * 2 + 1) with
  | inr r => Ret r
  | inl zHex =>
      zHex ← hex_loop (default [] (blob argv0)) (Z.to_nat n) zHex 0;
      zHex ← of_opt (wr zHex (2 * n) 0);
      t ← bytes_at zHex 0 (n * 2); Ret (ResultText t)
  end.

(** [for(i=0, n=0; zArg[i]; i++){ if( zArg[i]=='\'' ) n++; }] *)
Fixpoint count_quotes (zArg : list Z) (i n : Z) : res (Z * Z) :=
  match zArg with
  | [] => UB
  | c :: zArg =>
      if c =? 0 then Ret (i, n)
      else i ← sint (i + 1); count_quotes zArg i (if c =? 39 then u64 (n + 1) else n)
  end.

(** [for(i=0, j=1; zArg[i]; i++){ z[j++] = zArg[i]; if( zArg[i]=='\'' ){ z[j++] = '\''; } }] *)
Fixpoint quote_loop (zArg : list Z) (z : list Z) (j : Z) : res (list Z * Z) :=
  match zArg with
  | [] => UB
  | c :: zArg =>
      if c =? 0 then Ret (z, j) else
      z ← of_opt (wr z j c);
      if c =? 39 then z ← of_opt (wr z (j + 1) 39); quote_loop zArg z (j + 2)
      else quote_loop zArg z (j + 1)
  end.

Definition quote_text (zArg : list Z) : res sql_result :=
  '(i, n) ← count_quotes zArg 0 0;
  match contextMalloc (i + n + 3) with
  | inr r => Ret r
  | inl z =>
      z ← of_opt (wr z 0 39);
      '(z, j) ← quote_loop zArg z 1;
      z ← of_opt (wr z j 39);
      z ← of_opt (wr z (j + 1) 0);
      t ← bytes_at z 0 (j + 1); Ret (ResultText t)
  end.

Definition quote_blob (zBlob : list Z) (nBlob : Z) : res sql_result :=
  match contextMalloc (2 * nBlob + 4) with
  | inr r => Ret r
  | inl zText =>
      zText ← hex_loop zBlob (Z.to_nat nBlob) zText 2;
      zText ← of_opt (wr zText (nBlob * 2 + 2) 39);
      zText ← of_opt (wr zText (nBlob * 2 + 3) 0);
      zText ← of_opt (wr zText 0 88);
      zText ← of_opt (wr zText 1 39);
      n ← strlen zText;
      t ← bytes_at zText 0 n; Ret (ResultText t)
  end.

Definition quoteFunc (argv0 : value) : res sql_result :=
  match type argv0 with
  | SQLITE_NULL => Ret (ResultText [78; 85; 76; 76])
  | SQLITE_INTEGER | SQLITE_FLOAT => Ret (ResultValue argv0)
  | SQLITE_BLOB => quote_blob (default [] (blob argv0)) (nbytes argv0)
  | SQLITE_TEXT => match text_ argv0 with None => Ret NoResult | Some zArg => quote_text zArg end
  end.

End allocating.

(** ** Literals *)

(** The two digits of every byte. *)
Definition hex_of (b : list Z) : list Z :=
  b ≫= fun c => [default 0 (rd hexdigits (c / 16)); default 0 (rd hexdigits (c mod 16))].

Lemma hexdigit_spec k : 0 <= k < 16 ->
  exists d, rd hexdigits k = Some d /\ isxdigit d = true /\ xdigit_val d = k /\ d <> 0.
Proof.
  intros Hk. assert (is_byte k) as Hb by (unfold is_byte; lia).
  byte_check (fun k => (16 <=? k) || match rd hexdigits k with
    | Some d => isxdigit d && (xdigit_val d =? k) && negb (d =? 0) | None => false end) k.
  rewrite (proj2 (Z.leb_gt 16 k)) in H by lia. cbn [orb] in H.
  destruct (rd hexdigits k) as [d|]; [|done]. exists d.
  rewrite !andb_true_iff, negb_true_iff, Z.eqb_eq, Z.eqb_neq in H. tauto.
Qed.

Lemma hex_of_cons c b : is_byte c -> exists h l, hex_of (c :: b) = h :: l :: hex_of b /\
  rd hexdigits (Z.land (Z.shiftr c 4) 0x0f) = Some h /\ rd hexdigits (Z.land c 0x0f) = Some l /\
  isxdigit h = true /\ isxdigit l = true /\ xdigit_val h * 16 + xdigit_val l = c /\ h <> 0 /\ l <> 0.
Proof.
  intros Hc. unfold is_byte in Hc.
  assert (0 <= c / 16 < 16) as Hh by (Z.to_euclidean_division_equations; lia).
  destruct (hexdigit_spec (c / 16) Hh) as (h & Eh & Hxh & Hvh & Hnh).
  destruct (hexdigit_spec (c mod 16)) as (l & El & Hxl & Hvl & Hnl); [by apply Z.mod_pos_bound|].
  exists h, l. unfold hex_of. cbn [mbind list_bind app]. rewrite Eh, El. cbn [default].
  change 0x0f with (2 ^ 4 - 1). rewrite !land_ones_mod, Z.shiftr_div_pow2 by lia.
  change (2 ^ 4) with 16. rewrite (Z.mod_small (c / 16) 16) by done.
  split_and!; try done. rewrite Hvh, Hvl. Z.to_euclidean_division_equations; lia.
Qed.

Lemma hex_of_length b : bytes_ok b -> zlen (hex_of b) = 2 * zlen b.
Proof.
  induction 1 as [|c b Hc _ IH]; [done|].
  destruct (hex_of_cons c b Hc) as (h & l & -> & _). rewrite !zlen_cons, IH. lia.
Qed.

Lemma hex_of_digits b : bytes_ok b ->
  Forall (fun c => isxdigit c = true) (hex_of b) /\ no_nul (hex_of b) /\ hex_pairs (hex_of b) = b.
Proof.
  induction 1 as [|c b Hc _ (IH1 & IH2 & IH3)]; [by split_and!; constructor|].
  destruct (hex_of_cons c b Hc) as (h & l & -> & _ & _ & Hh & Hl & Hv & Hnh & Hnl).
  split_and!; [by repeat constructor|by repeat constructor|]. cbn [hex_pairs]. by rewrite IH3, Hv.
Qed.

(** Writing a list over the cells from [zlen a] on. *)
Lemma hex_loop_ok b rest a hole z : bytes_ok b -> zlen hole = 2 * zlen b ->
  hex_loop (b ++ rest) (length b) (a ++ hole ++ z) (zlen a) = Ret (a ++ hex_of b ++ z).
Proof.
  intros Hb. revert a hole. induction Hb as [|c b Hc _ IH]; intros a hole Hl.
  - destruct hole; [done|]. rewrite zlen_cons, (@zlen_nil Z) in Hl.
    pose proof (zlen_nonneg hole). lia.
  - destruct hole as [|x [|y hole]]; [..|];
      [rewrite ?zlen_cons, (@zlen_nil Z) in Hl; pose proof (zlen_nonneg b); lia..|].
    destruct (hex_of_cons c b Hc) as (h & l & -> & Eh & El & _).
    cbn [length hex_loop app]. rewrite Eh. crun. rewrite wr_middle. crun. rewrite El. crun.
    replace (zlen a + 1) with (zlen (a ++ [h])) by size.
    replace (a ++ h :: y :: hole ++ z) with ((a ++ [h]) ++ y :: hole ++ z) by (by rewrite <- app_assoc).
    rewrite wr_middle. crun.
    replace (zlen a + 2) with (zlen (a ++ [h; l])) by size.
    replace ((a ++ [h]) ++ l :: hole ++ z) with ((a ++ [h; l]) ++ hole ++ z) by (by rewrite <- !app_assoc).
    rewrite IH by (rewrite !zlen_cons in Hl; lia). by rewrite <- app_assoc.
Qed.

Lemma double_quote_39 s c :
  double_quote 39 (c :: s) = (if c =? 39 then [39; 39] else [c]) ++ double_quote 39 s.
Proof. done. Qed.

Lemma count_quotes_ok s r i n : no_nul s -> 0 <= i -> i + zlen s < 2 ^ 31 -> 0 <= n -> n + zlen s < 2 ^ 64 ->
  count_quotes (s ++ 0 :: r) i n
  = Ret (i + zlen s, n + (zlen (double_quote 39 s) - zlen s)) /\ zlen (double_quote 39 s) <= 2 * zlen s.
Proof.
  intros Hs. revert i n. induction Hs as [|c s Hc _ IH]; intros i n Hi Hb Hn Hb'.
  - change (zlen (double_quote 39 [])) with 0. rewrite (@zlen_nil Z). cbn [app count_quotes Z.eqb].
    split; [|lia]. f_equal. f_equal; lia.
  - rewrite zlen_cons in *. pose proof (zlen_nonneg s). cbn [app count_quotes].
    rewrite (proj2 (Z.eqb_neq c 0) Hc), sint_id by lia. crun.
    rewrite double_quote_39, zlen_app.
    destruct (c =? 39).
    + destruct (IH (i + 1) (n + 1)) as [E ?]; try lia.
      rewrite u64_id by (unfold is_u64; lia). rewrite E. change (zlen [39; 39]) with 2.
      split; [|lia]. f_equal. f_equal; lia.
    + destruct (IH (i + 1) n) as [-> ?]; try lia. change (zlen [c]) with 1.
      split; [|lia]. f_equal. f_equal; lia.
Qed.

Lemma quote_loop_ok s r a hole z : no_nul s -> zlen hole = zlen (double_quote 39 s) ->
  quote_loop (s ++ 0 :: r) (a ++ hole ++ z) (zlen a)
  = Ret (a ++ double_quote 39 s ++ z, zlen a + zlen (double_quote 39 s)).
Proof.
  intros Hs. revert a hole. induction Hs as [|c s Hc _ IH]; intros a hole Hl.
  - destruct hole; [cbn; by rewrite Z.add_0_r|]. rewrite zlen_cons in Hl.
    change (zlen (double_quote 39 [])) with 0 in Hl. pose proof (zlen_nonneg hole). lia.
  - rewrite double_quote_39 in *. cbn [app quote_loop].
    rewrite (proj2 (Z.eqb_neq c 0) Hc). destruct (Z.eqb_spec c 39) as [->|]; rewrite zlen_app in *.
    + change (zlen [39; 39]) with 2 in *. pose proof (zlen_nonneg (double_quote 39 s)).
      destruct hole as [|x [|y hole]]; [rewrite ?zlen_cons, (@zlen_nil Z) in Hl; lia..|].
      cbn [app]. rewrite wr_middle. crun.
      replace (zlen a + 1) with (zlen (a ++ [39])) by size.
      replace (a ++ 39 :: y :: hole ++ z) with ((a ++ [39]) ++ y :: hole ++ z) by (by rewrite <- app_assoc).
      rewrite wr_middle. crun.
      replace (zlen a + 2) with (zlen (a ++ [39; 39])) by size.
      replace ((a ++ [39]) ++ 39 :: hole ++ z) with ((a ++ [39; 39]) ++ hole ++ z) by (by rewrite <- !app_assoc).
      rewrite IH by (rewrite !zlen_cons in Hl; lia). rewrite <- app_assoc. f_equal. f_equal. size.
    + change (zlen [c]) with 1 in *. pose proof (zlen_nonneg (double_quote 39 s)).
      destruct hole as [|x hole]; [rewrite (@zlen_nil Z) in Hl; lia|].
      cbn [app]. rewrite wr_middle. crun.
      replace (zlen a + 1) with (zlen (a ++ [c])) by size.
      replace (a ++ c :: hole ++ z) with ((a ++ [c]) ++ hole ++ z) by (by rewrite <- app_assoc).
      rewrite IH by (rewrite zlen_cons in Hl; lia). rewrite <- app_assoc. f_equal. f_equal. size.
Qed.

Lemma blob_loop_digits s r t i : Forall (fun c => isxdigit c = true) s -> no_nul s ->
  blob_loop (s ++ 39 :: r) t i = Ret (t, i + zlen s, 39).
Proof.
  intros Hs Hn. revert i. induction Hs as [|c s Hc _ IH]; intros i; [cbn; by rewrite Z.add_0_r|].
  apply Forall_cons in Hn as [Hn0 Hn]. cbn [app blob_loop].
  assert (c <> 39) as Hq by (intros ->; done).
  rewrite (proj2 (Z.eqb_neq c 0)), (proj2 (Z.eqb_neq c 39)), Hc by done. cbn [negb andb].
  rewrite IH by done. rewrite zlen_cons. f_equal. f_equal. f_equal. lia.
Qed.

(** Equations between lengths of lists with literal parts. *)
Ltac zl := rewrite ?zlen_app, ?zlen_cons, ?(@zlen_nil Z); repeat rewrite ?zlen_app, ?zlen_cons, ?(@zlen_nil Z); lia.

(** What [contextMalloc] decides about a literal of [n] bytes. *)
Definition literal_result (malloc : Z -> option (list Z)) (limit n : Z) (lit : list Z) : sql_result :=
  if limit <? n then ResultTooBig
  else match malloc n with Some _ => ResultText lit | None => ResultNoMem end.

Lemma rev_destruct_two {A} (l : list A) : (2 <= length l)%nat -> exists l' x y, l = l' ++ [x; y].
Proof.
  intros Hl. destruct l as [|y l _] using rev_ind; [cbn in Hl; lia|].
  destruct l as [|x l _] using rev_ind; [cbn in Hl; lia|].
  exists l, x, y. by rewrite <- app_assoc.
Qed.

Lemma bytes_at_front (a r : list Z) n : n = zlen a -> bytes_at (a ++ r) 0 n = Ret a.
Proof.
  intros ->. unfold bytes_at. rewrite decide_True by size. cbn. by rewrite drop_0, take_app_zlen.
Qed.

Section quoting.
Context (malloc : Z -> option (list Z)) (limit : Z).
Context (Hmalloc : forall n b, malloc n = Some b -> zlen b = n).

Lemma quote_text_ok s r : no_nul s -> zlen s < 2 ^ 30 ->
  let lit := 39 :: double_quote 39 s ++ [39] in
  quote_text malloc limit (s ++ 0 :: r) = Ret (literal_result malloc limit (zlen lit + 1) lit).
Proof.
  intros Hs Hl lit. pose proof (zlen_nonneg s). unfold quote_text.
  destruct (count_quotes_ok s r 0 0 Hs) as [-> _]; try lia. crun.
  replace (0 + zlen s + (0 + (zlen (double_quote 39 s) - zlen s)) + 3) with (zlen lit + 1) by (subst lit; size).
  unfold contextMalloc, literal_result. destruct (limit <? zlen lit + 1); [done|].
  destruct (malloc (zlen lit + 1)) as [b|] eqn:E.
  2:{ rewrite (proj2 (Z.ltb_lt 0 _)) by (pose proof (zlen_nonneg lit); lia). done. }
  apply Hmalloc in E.
  assert (exists x hole y w, b = [x] ++ hole ++ [y; w] /\ zlen hole = zlen (double_quote 39 s))
    as (x & hole & y & w & -> & Hh).
  { subst lit. rewrite zlen_cons, zlen_app in E. change (zlen [39]) with 1 in E.
    pose proof (zlen_nonneg (double_quote 39 s)).
    destruct b as [|x b]; [rewrite (@zlen_nil Z) in E; lia|]. exists x.
    destruct (rev_destruct_two b) as (hole & y & w & ->); [rewrite zlen_cons in E; unfold zlen in *; lia|].
    exists hole, y, w. split; [done|]. rewrite zlen_cons, zlen_app in E. change (zlen [y; w]) with 2 in E. lia. }
  change (wr ([x] ++ hole ++ [y; w]) 0 39) with (Some ([39] ++ hole ++ [y; w])). crun.
  pose proof (quote_loop_ok s r [39] hole [y; w] Hs Hh) as Hq. change (zlen [39]) with 1 in Hq.
  rewrite Hq. crun.
  replace (1 + zlen (double_quote 39 s)) with (zlen ([39] ++ double_quote 39 s)) by size.
  rewrite app_assoc, wr_middle. crun.
  replace (zlen ([39] ++ double_quote 39 s) + 1) with (zlen (([39] ++ double_quote 39 s) ++ [39])) by size.
  replace (([39] ++ double_quote 39 s) ++ [39; w]) with ((([39] ++ double_quote 39 s) ++ [39]) ++ [w])
    by (by rewrite <- app_assoc).
  rewrite wr_middle. crun. by rewrite bytes_at_front.
Qed.

Lemma quote_blob_ok b : bytes_ok b ->
  let lit := [88; 39] ++ hex_of b ++ [39] in
  quote_blob malloc limit b (zlen b) = Ret (literal_result malloc limit (zlen lit + 1) lit).
Proof.
  intros Hb lit. pose proof (zlen_nonneg b). pose proof (hex_of_length b Hb) as Hh. unfold quote_blob.
  replace (2 * zlen b + 4) with (zlen lit + 1) by (subst lit; zl).
  unfold contextMalloc, literal_result. destruct (limit <? zlen lit + 1); [done|].
  destruct (malloc (zlen lit + 1)) as [m|] eqn:E.
  2:{ rewrite (proj2 (Z.ltb_lt 0 _)) by (pose proof (zlen_nonneg lit); lia). done. }
  apply Hmalloc in E.
  assert (exists x1 x2 hole y w, m = [x1; x2] ++ hole ++ [y; w] /\ zlen hole = 2 * zlen b)
    as (x1 & x2 & hole & y & w & -> & Hl).
  { subst lit. rewrite !zlen_app, Hh in E. change (zlen [88; 39]) with 2 in E. change (zlen [39]) with 1 in E.
    destruct m as [|x1 [|x2 m]]; [rewrite ?zlen_cons, (@zlen_nil Z) in E; lia..|]. exists x1, x2.
    rewrite !zlen_cons in E.
    destruct (rev_destruct_two m) as (hole & y & w & ->); [unfold zlen in *; lia|].
    exists hole, y, w. split; [done|]. rewrite zlen_app in E. change (zlen [y; w]) with 2 in E. lia. }
  pose proof (hex_loop_ok b [] [x1; x2] hole [y; w] Hb Hl) as Hhex.
  rewrite app_nil_r in Hhex. change (zlen [x1; x2]) with 2 in Hhex.
  replace (Z.to_nat (zlen b)) with (length b) by (unfold zlen; lia). rewrite Hhex. crun.
  replace (zlen b * 2 + 2) with (zlen ([x1; x2] ++ hex_of b)) by zl.
  rewrite app_assoc, wr_middle. crun.
  replace (zlen b * 2 + 3) with (zlen (([x1; x2] ++ hex_of b) ++ [39])) by zl.
  replace (([x1; x2] ++ hex_of b) ++ [39; w]) with ((([x1; x2] ++ hex_of b) ++ [39]) ++ [w])
    by (by rewrite <- app_assoc).
  rewrite wr_middle. crun.
  replace ((([x1; x2] ++ hex_of b) ++ [39]) ++ [0]) with ([x1; x2] ++ hex_of b ++ [39; 0])
    by (by rewrite <- !app_assoc).
  change (wr ([x1; x2] ++ hex_of b ++ [39; 0]) 0 88) with (Some ([88; x2] ++ hex_of b ++ [39; 0])). crun.
  pose proof (wr_middle [88] (hex_of b ++ [39; 0]) x2 39) as Hw. change (zlen [88]) with 1 in Hw.
  cbn [app] in Hw |- *. rewrite Hw. crun. change (88 :: 39 :: hex_of b ++ [39; 0]) with ([88; 39] ++ hex_of b ++ [39; 0]).
  replace ([88; 39] ++ hex_of b ++ [39; 0]) with (lit ++ 0 :: []) by (subst lit; by rewrite <- !app_assoc).
  rewrite strlen_app; [|subst lit; repeat (apply Forall_app; split); try apply hex_of_digits; by repeat constructor].
  crun. by rewrite bytes_at_front.
Qed.

End quoting.

Lemma blob_token_run keywordCode b t : bytes_ok b ->
  let lit := [88; 39] ++ hex_of b ++ [39] in
  sqlite3GetToken keywordCode (lit ++ t) = Ret (TK_BLOB, zlen lit).
Proof.
  intros Hb lit. destruct (hex_of_digits b Hb) as (Hx & Hn & _). pose proof (hex_of_length b Hb) as Hl.
  assert (token_blob (lit ++ t) = Ret (TK_BLOB, zlen lit)) as H.
  { unfold token_blob. subst lit. rewrite <- !app_assoc. cbn [app]. cbn [drop]. rewrite drop_0.
    rewrite blob_loop_digits by done. crun. rewrite Hl.
    replace ((2 + 2 * zlen b) mod 2) with 0
      by (rewrite (Z.mul_comm 2 (zlen b)), Z.mod_add by lia; done).
    cbn [Z.eqb negb orb]. f_equal. f_equal. zl. }
  rewrite <- H. subst lit. rewrite <- !app_assoc. done.
Qed.

(** C39: quote() writes SQL literals that read back.  A text becomes one string
    token, which [sqlite3Dequote] turns into the text; a blob becomes one blob
    token, whose digits [sqlite3HexToBlob] turns into the bytes.  A literal
    that does not fit into the length limit, and a failing allocation, end
    with their errors; nothing is written outside of the block. *)
Theorem quote_reads_back (malloc : Z -> option (list Z)) (limit : Z)
    (Hmalloc : forall n b, malloc n = Some b -> zlen b = n) (keywordCode : list Z -> Z -> tk) (x : value) :
  (forall s r, type x = SQLITE_TEXT -> text_ x = Some (s ++ 0 :: r) -> no_nul s -> zlen s < 2 ^ 30 ->
     let lit := 39 :: double_quote 39 s ++ [39] in
     quoteFunc malloc limit x = Ret (literal_result malloc limit (zlen lit + 1) lit) /\
     (forall t, head t <> Some 39 -> t <> [] ->
        sqlite3GetToken keywordCode (lit ++ t) = Ret (TK_STRING, zlen lit)) /\
     exists tail, sqlite3Dequote (lit ++ [0]) = Ret (s ++ 0 :: tail)) /\
  (forall b, type x = SQLITE_BLOB -> blob x = Some b -> nbytes x = zlen b -> bytes_ok b ->
     let lit := [88; 39] ++ hex_of b ++ [39] in
     quoteFunc malloc limit x = Ret (literal_result malloc limit (zlen lit + 1) lit) /\
     (forall t, sqlite3GetToken keywordCode (lit ++ t) = Ret (TK_BLOB, zlen lit)) /\
     forall buf, zlen buf = zlen b + 1 ->
       sqlite3HexToBlob (Some buf) (drop 2 lit) (zlen lit - 3) = Ret (Some (b ++ [0]))).
Proof.
  split.
  - intros s r Ht Hx Hs Hl lit. unfold quoteFunc. rewrite Ht, Hx. split_and!.
    + by apply quote_text_ok.
    + intros t Hh Hne. apply (quoted_token_run keywordCode 39 s t); auto.
    + apply (quoted_token_run keywordCode 39 s [0]); auto; done.
  - intros b Ht Hx Hn Hb lit. unfold quoteFunc. rewrite Ht, Hx, Hn. split_and!.
    + by apply quote_blob_ok.
    + intros t. by apply blob_token_run.
    + intros buf Hbuf. destruct (hex_of_digits b Hb) as (Hd & _ & Hp). pose proof (hex_of_length b Hb) as Hl.
      assert (zlen lit - 3 = zlen (hex_of b)) as -> by (subst lit; zl).
      change (drop 2 lit) with (hex_of b ++ [39]).
      rewrite (hex_to_blob_run (hex_of b) [39] buf (length b)); [by rewrite Hp|done|unfold zlen in *; lia|].
      rewrite Hl, Hbuf, Z.mul_comm, Z.div_mul; lia.
Qed.

Lemma quote_reads_back_witness :
  let x := mkValue SQLITE_BLOB None (Some [0xca; 0xfe]) 2 0 (S754_zero false) in
  let malloc n := Some (replicate (Z.to_nat (Z.max 0 n)) 7) in
  let lit := [88; 39] ++ hex_of [0xca; 0xfe] ++ [39] in
  quoteFunc (fun n => if 0 <=? n then malloc n else None) 100 x
    = Ret (literal_result (fun n => if 0 <=? n then malloc n else None) 100 (zlen lit + 1) lit)
  /\ (forall t, sqlite3GetToken (fun _ _ => TK_ID) (lit ++ t) = Ret (TK_BLOB, zlen lit))
  /\ forall buf, zlen buf = 3 -> sqlite3HexToBlob (Some buf) (drop 2 lit) (zlen lit - 3)
     = Ret (Some ([0xca; 0xfe] ++ [0])).
Proof.
  apply (quote_reads_back (fun n => if 0 <=? n then Some (replicate (Z.to_nat (Z.max 0 n)) 7) else None) 100).
  - intros n b. destruct (Z.leb_spec 0 n); [|discriminate]. intros [= <-].
    rewrite zlen_replicate. lia.
  - reflexivity.
  - reflexivity.
  - reflexivity.
  - repeat constructor; unfold is_byte; lia.
Defined.
