(* ===== verification/Like.v ===== *)
(** * LIKE and GLOB: [patternCompare] and [likeFunc] of [func.c]

    The matcher runs on the bytes of the pattern [P] and of the string [S]
    with an index into each; the [while] loop and its recursive calls are one
    function, since every call starts as the loop does, with no escape
    pending.  The reference is declarative: [parse] cuts the characters of a
    pattern into items, and [glob_match] says what a list of items matches. *)

From S2P Require Import Prelude NumText Utf SqlFunc.

(** ** The routines *)

Record compareInfo := mkInfo { matchAll : Z; matchOne : Z; matchSet : Z; noCase : bool }.

Definition globInfo : compareInfo := mkInfo 42 63 91 false.
Definition likeInfoNorm : compareInfo := mkInfo 37 95 0 true.
Definition likeInfoAlt : compareInfo := mkInfo 37 95 0 false.

Definition GlogUpperToLower (A : Z) : res Z :=
  if A <? 0x80 then of_opt (rd sqlite3UpperToLower A) else Ret A.

(** [if( noCase ){ GlogUpperToLower(c); }] *)
Definition fold_char (info : compareInfo) (c : Z) : res Z :=
  if noCase info then GlogUpperToLower c else Ret c.

Section loops.
Variables (P S : list Z) (info : compareInfo) (esc : Z).

(** [while( (c=read(zPattern)) == matchAll || c == matchOne ){ ... }]: the
    character behind the run with the two pointers, or nothing where the code
    returns 0. *)
Fixpoint wildcard_run (fuel : nat) (p s : Z) : res (option (Z * Z * Z)) :=
  match fuel with
  | O => NoFuel
  | Datatypes.S fuel =>
      '(c, p) ← sqlite3Utf8Read P None p;
      if (c =? matchAll info) || (c =? matchOne info) then
        if c =? matchOne info then
          '(c2, s) ← sqlite3Utf8Read S None s;
          if c2 =? 0 then Ret None else wildcard_run fuel p s
        else wildcard_run fuel p s
      else Ret (Some (c, p, s))
  end.

(** [while( *zString && patternCompare(...)==0 ){ SQLITE_SKIP_UTF8(zString); }
    return *zString!=0;] *)
Fixpoint set_search (fuel : nat) (compare : Z -> res bool) (s : Z) : res bool :=
  match fuel with
  | O => NoFuel
  | Datatypes.S fuel =>
      b ← of_opt (rd S s);
      if b =? 0 then Ret false else
      r ← compare s;
      if r : bool then Ret true else
      s ← SQLITE_SKIP_UTF8 S s; set_search fuel compare s
  end.

(** [while( c2 != 0 && c2 != c ){ c2 = read(zString); GlogUpperToLower(c2); }] *)
Fixpoint find_char (fuel : nat) (c c2 s : Z) : res (Z * Z) :=
  match fuel with
  | O => NoFuel
  | Datatypes.S fuel =>
      if negb (c2 =? 0) && negb (c2 =? c) then
        '(c2, s) ← sqlite3Utf8Read S None s;
        c2 ← fold_char info c2;
        find_char fuel c c2 s
      else Ret (c2, s)
  end.

(** [while( (c2 = read(zString))!=0 ){ ... } return 0;] *)
Fixpoint char_search (fuel : nat) (compare : Z -> res bool) (c s : Z) : res bool :=
  match fuel with
  | O => NoFuel
  | Datatypes.S fuel =>
      '(c2, s) ← sqlite3Utf8Read S None s;
      if c2 =? 0 then Ret false else
      c2 ← fold_char info c2;
      c ← fold_char info c;
      '(c2, s) ← find_char (Datatypes.S (length S)) c c2 s;
      if c2 =? 0 then Ret false else
      r ← compare s;
      if r : bool then Ret true else char_search fuel compare c s
  end.

(** [while( c2 && c2!=']' ){ ... }]: the last [c2], the pointer and [seen]. *)
Fixpoint set_loop (fuel : nat) (c c2 prior_c : Z) (seen : bool) (p : Z) : res (Z * Z * bool) :=
  match fuel with
  | O => NoFuel
  | Datatypes.S fuel =>
      if negb (c2 =? 0) && negb (c2 =? 93) then
        '(prior_c, seen, p) ←
          (range ← (if c2 =? 45 then
                      b ← of_opt (rd P p); Ret (negb (b =? 93) && negb (b =? 0) && (0 <? prior_c))
                    else Ret false);
           if range : bool then
             '(c2, p) ← sqlite3Utf8Read P None p;
             Ret (0, if (prior_c <=? c) && (c <=? c2) then true else seen, p)
           else Ret (c2, if c =? c2 then true else seen, p));
        '(c2, p) ← sqlite3Utf8Read P None p;
        set_loop fuel c c2 prior_c seen p
      else Ret (c2, p, seen)
  end.

(** The branch [c==matchSet]: nothing where the code returns 0. *)
Definition match_set (p s : Z) : res (option (Z * Z)) :=
  '(c, s) ← sqlite3Utf8Read S None s;
  if c =? 0 then Ret None else
  '(c2, p) ← sqlite3Utf8Read P None p;
  '(invert, c2, p) ← (if c2 =? 94 then '(c2, p) ← sqlite3Utf8Read P None p; Ret (true, c2, p)
                      else Ret (false, c2, p));
  '(seen, c2, p) ← (if c2 =? 93 then '(c2, p) ← sqlite3Utf8Read P None p; Ret (c =? 93, c2, p)
                    else Ret (false, c2, p));
  '(c2, p, seen) ← set_loop (Datatypes.S (length P)) c c2 0 seen p;
  if (c2 =? 0) || Bool.eqb seen invert then Ret None else Ret (Some (p, s)).

Fixpoint patternCompare (fuel : nat) (zPattern zString : Z) (prevEscape : bool) : res bool :=
  match fuel with
  | O => NoFuel
  | Datatypes.S fuel =>
      '(c, p) ← sqlite3Utf8Read P None zPattern;
      if c =? 0 then b ← of_opt (rd S zString); Ret (b =? 0)
      else if negb prevEscape && (c =? matchAll info) then
        run ← wildcard_run (Datatypes.S (length P)) p zString;
        match run with
        | None => Ret false
        | Some (c, p, s) =>
            if c =? 0 then Ret true
            else if c =? esc then
              '(c, p) ← sqlite3Utf8Read P None p;
              if c =? 0 then Ret false else
              char_search (Datatypes.S (length S)) (fun s => patternCompare fuel p s false) c s
            else if c =? matchSet info then
              set_search (Datatypes.S (length S)) (fun s => patternCompare fuel (p - 1) s false) s
            else
              char_search (Datatypes.S (length S)) (fun s => patternCompare fuel p s false) c s
        end
      else if negb prevEscape && (c =? matchOne info) then
        '(c2, s) ← sqlite3Utf8Read S None zString;
        if c2 =? 0 then Ret false else patternCompare fuel p s prevEscape
      else if c =? matchSet info then
        m ← match_set p zString;
        match m with
        | None => Ret false
        | Some (p, s) => patternCompare fuel p s prevEscape
        end
      else if (esc =? c) && negb prevEscape then patternCompare fuel p zString true
      else
        '(c2, s) ← sqlite3Utf8Read S None zString;
        c ← fold_char info c;
        c2 ← fold_char info c2;
        if negb (c =? c2) then Ret false else patternCompare fuel p s false
  end.

End loops.

(** "LIKE or GLOB pattern too complex" and "ESCAPE expression must be a single
    character" *)
Inductive like_error := TooComplex | BadEscape.
Definition message (e : like_error) : list Z :=
  match e with
  | TooComplex => [76; 73; 75; 69; 32; 111; 114; 32; 71; 76; 79; 66; 32; 112; 97; 116; 116; 101; 114; 110;
                   32; 116; 111; 111; 32; 99; 111; 109; 112; 108; 101; 120]
  | BadEscape => [69; 83; 67; 65; 80; 69; 32; 101; 120; 112; 114; 101; 115; 115; 105; 111; 110; 32;
                  109; 117; 115; 116; 32; 98; 101; 32; 97; 32; 115; 105; 110; 103; 108; 101; 32;
                  99; 104; 97; 114; 97; 99; 116; 101; 114]
  end.

(** [limit] is [aLimit[SQLITE_LIMIT_LIKE_PATTERN_LENGTH]]; [info] is the user
    data of the function; [argv2] is missing when [argc] is 2. *)
Definition likeFunc (info : compareInfo) (limit : Z) (argv0 argv1 : value) (argv2 : option value)
    : res sql_result :=
  let zB := text_ argv0 in
  let zA := text_ argv1 in
  if limit <? nbytes argv0 then Ret (ResultError (message TooComplex)) else
  let compare (escape : Z) :=
    match zA, zB with
    | Some zA, Some zB =>
        b ← patternCompare zB zA info escape (S (length zB)) 0 0 false;
        Ret (ResultInt (if b : bool then 1 else 0))
    | _, _ => Ret NoResult
    end in
  match argv2 with
  | None => compare 0
  | Some v =>
      match text_ v with
      | None => Ret NoResult
      | Some zEsc =>
          n ← sqlite3Utf8CharLen zEsc (-1);
          if negb (n =? 1) then Ret (ResultError (message BadEscape)) else
          '(escape, _) ← sqlite3Utf8Read zEsc None 0;
          compare escape
      end
  end.

(** ** What a pattern says *)

Inductive item :=
| Any                                          (** any characters *)
| One                                          (** one character *)
| Lit (c : Z)                                  (** this character *)
| OneOf (invert : bool) (ranges : list (Z * Z)) (** one character of a set, or not of it *)
| Never.                                       (** nothing *)

(** The members of a set up to its [\]]: single characters and ranges.  A [-]
    makes a range when a character that does not end a range is in front of
    it and something other than the closing [\]] is behind it. *)
Fixpoint set_items (prior : Z) (cs : list Z) : option (list (Z * Z) * list Z) :=
  match cs with
  | [] => None
  | c :: r =>
      if c =? 93 then Some ([], r) else
      let single := (fun '(l, rest) => ((c, c) :: l, rest)) <$> set_items c r in
      if (c =? 45) && (0 <? prior) then
        match r with
        | d :: r' => if d =? 93 then single
                     else (fun '(l, rest) => ((prior, d) :: l, rest)) <$> set_items 0 r'
        | [] => single
        end
      else single
  end.

(** Behind the [\[]: a [^] inverts the set, and a [\]] in first place is a
    member of it. *)
Definition set_body (invert : bool) (cs : list Z) : option (bool * list (Z * Z) * list Z) :=
  match cs with
  | c :: r =>
      if c =? 93 then (fun '(l, rest) => (invert, (c, c) :: l, rest)) <$> set_items 0 r
      else (fun '(l, rest) => (invert, l, rest)) <$> set_items 0 cs
  | [] => None
  end.

Definition parse_set (cs : list Z) : option (bool * list (Z * Z) * list Z) :=
  match cs with
  | c :: r => if c =? 94 then set_body true r else set_body false cs
  | [] => None
  end.

(** The items of a pattern.  A set that is not closed matches nothing.  A lone
    escape character at the end is dropped, except behind a run of wildcards
    that starts with a [matchAll] ([run]), where nothing matches. *)
Fixpoint parse_fuel (n : nat) (info : compareInfo) (esc : Z) (run : bool) (cs : list Z) : list item :=
  match n, cs with
  | S n, c :: r =>
      if c =? matchAll info then Any :: parse_fuel n info esc true r
      else if c =? matchOne info then One :: parse_fuel n info esc run r
      else if c =? matchSet info then
        match parse_set r with
        | Some (invert, l, r) => OneOf invert l :: parse_fuel n info esc false r
        | None => [Never]
        end
      else if c =? esc then
        match r with
        | d :: r => Lit d :: parse_fuel n info esc false r
        | [] => if run then [Never] else []
        end
      else Lit c :: parse_fuel n info esc false r
  | _, _ => []
  end.

Definition parse (info : compareInfo) (esc : Z) (cs : list Z) : list item :=
  parse_fuel (length cs) info esc false cs.

(** Upper case letters of ASCII count as their lower case when asked for. *)
Definition folded (info : compareInfo) (c : Z) : Z := if noCase info then tolower c else c.

Definition in_ranges (c : Z) (l : list (Z * Z)) : bool :=
  existsb (fun '(a, b) => (a <=? c) && (c <=? b)) l.

Inductive glob_match (info : compareInfo) : list item -> list Z -> Prop :=
| match_end : glob_match info [] []
| match_one c l s : glob_match info l s -> glob_match info (One :: l) (c :: s)
| match_lit c d l s :
    folded info c = folded info d -> glob_match info l s -> glob_match info (Lit c :: l) (d :: s)
| match_oneof invert ranges c l s :
    in_ranges c ranges = negb invert -> glob_match info l s ->
    glob_match info (OneOf invert ranges :: l) (c :: s)
| match_any_none l s : glob_match info l s -> glob_match info (Any :: l) s
| match_any_more c l s : glob_match info (Any :: l) s -> glob_match info (Any :: l) (c :: s).

(** ** Parsing *)

Lemma set_items_shorter prior cs l rest : set_items prior cs = Some (l, rest) -> (length rest < length cs)%nat.
Proof.
  revert prior l. induction cs as [cs IH] using (induction_ltof1 _ (@length Z)). unfold ltof in IH.
  intros prior l H. destruct cs as [|c r]; [done|]. cbn [set_items] in H.
  destruct (c =? 93); [injection H as <- <-; cbn; lia|].
  assert (forall f, (fun '(l, rest) => (f l : list (Z * Z), rest)) <$> set_items c r = Some (l, rest) ->
            (length rest < length (c :: r))%nat) as Hs.
  { intros f Hf. destruct (set_items c r) as [[l' rest']|] eqn:E; [|done].
    injection Hf as <- <-. apply IH in E; cbn in *; lia. }
  destruct ((c =? 45) && (0 <? prior)); [|by apply (Hs (cons (c, c)))].
  destruct r as [|d r']; [by apply (Hs (cons (c, c)))|].
  destruct (d =? 93); [by apply (Hs (cons (c, c)))|].
  destruct (set_items 0 r') as [[l' rest']|] eqn:E; [|done].
  injection H as <- <-. apply IH in E; cbn in *; lia.
Qed.

Lemma parse_set_shorter cs i l rest : parse_set cs = Some (i, l, rest) -> (length rest < length cs)%nat.
Proof.
  assert (forall i' cs, set_body i' cs = Some (i, l, rest) -> (length rest < length cs)%nat) as Hb.
  { clear. intros i' cs H. destruct cs as [|c r]; [done|]. cbn [set_body] in H.
    destruct (c =? 93).
    - destruct (set_items 0 r) as [[l' rest']|] eqn:E; [|done]. injection H as <- <- <-.
      apply set_items_shorter in E. cbn. lia.
    - destruct (set_items 0 (c :: r)) as [[l' rest']|] eqn:E; [|done]. injection H as <- <- <-.
      by apply set_items_shorter in E. }
  destruct cs as [|c r]; [done|]. cbn [parse_set].
  destruct (c =? 94); intros H%Hb; cbn in *; lia.
Qed.

Lemma parse_fuel_enough n m info esc run cs :
  (length cs <= n)%nat -> (length cs <= m)%nat ->
  parse_fuel n info esc run cs = parse_fuel m info esc run cs.
Proof.
  revert m run cs. induction n as [|n IH]; intros m run cs Hn Hm.
  - destruct cs; [by destruct m|cbn in Hn; lia].
  - destruct cs as [|c r]; [by destruct m|]. destruct m as [|m]; [cbn in Hm; lia|].
    cbn [length] in *. cbn [parse_fuel].
    destruct (parse_set r) as [[[i l] rest]|] eqn:E; [apply parse_set_shorter in E|];
      repeat case_match; f_equal; try apply IH; simplify_eq; cbn in *; lia || done.
Qed.

Section parsing.
Context (info : compareInfo) (esc : Z).

Definition parse_at (run : bool) (cs : list Z) : list item :=
  parse_fuel (length cs) info esc run cs.

Lemma parse_at_fuel n run cs : (length cs <= n)%nat -> parse_fuel n info esc run cs = parse_at run cs.
Proof. intros. by apply parse_fuel_enough. Qed.

Lemma parse_cons run c r :
  parse_at run (c :: r) =
  if c =? matchAll info then Any :: parse_at true r
  else if c =? matchOne info then One :: parse_at run r
  else if c =? matchSet info then
    match parse_set r with
    | Some (invert, l, r) => OneOf invert l :: parse_at false r
    | None => [Never]
    end
  else if c =? esc then
    match r with
    | d :: r => Lit d :: parse_at false r
    | [] => if run then [Never] else []
    end
  else Lit c :: parse_at false r.
Proof.
  unfold parse_at at 1. cbn [length parse_fuel].
  destruct (parse_set r) as [[[i l] rest]|] eqn:E; [apply parse_set_shorter in E|];
    repeat case_match; simplify_eq; f_equal; apply parse_at_fuel; cbn [length] in *; lia.
Qed.

End parsing.

(** ** What the items match *)

Section matching.
Context (info : compareInfo).
Notation glob := (glob_match info).

Lemma glob_any l s : glob (Any :: l) s <-> exists s1 s2, s = s1 ++ s2 /\ glob l s2.
Proof.
  split.
  - remember (Any :: l) as l' eqn:E. induction 1; simplify_eq.
    + by exists [], s.
    + destruct IHglob_match as (s1 & s2 & -> & H'); [done|]. by exists (c :: s1), s2.
  - intros (s1 & s2 & -> & H). induction s1; by constructor.
Qed.

Lemma glob_any_any l s : glob (Any :: Any :: l) s <-> glob (Any :: l) s.
Proof.
  split; [|by constructor]. rewrite !glob_any. intros (s1 & s2 & -> & H).
  apply glob_any in H as (s3 & s4 & -> & H). exists (s1 ++ s3), s4. by rewrite app_assoc.
Qed.

Lemma glob_any_one_nil l : ~ glob (Any :: One :: l) [].
Proof. rewrite glob_any. intros ([|] & [|] & E & H); try discriminate E; inversion H. Qed.

Lemma glob_any_one l c s : glob (Any :: One :: l) (c :: s) <-> glob (Any :: l) s.
Proof.
  rewrite !glob_any. split.
  - intros (s1 & s2 & E & H). inversion H as [|d ? s2' H'| | | |]; subst.
    destruct s1 as [|x s1]; cbn in E; simplify_eq; [by exists [], s2'|].
    exists (s1 ++ [d]), s2'. by rewrite <- app_assoc.
  - intros (s1 & s2 & -> & H). revert c. induction s1 as [|x s1 IH]; intros c.
    + exists [], (c :: s2). by repeat constructor.
    + destruct (IH x) as (s3 & s4 & E & H'). exists (c :: s3), s4. cbn in *. by rewrite E.
Qed.

Lemma glob_any_lit_nil c l : ~ glob (Any :: Lit c :: l) [].
Proof. rewrite glob_any. intros ([|] & [|] & E & H); try discriminate E; inversion H. Qed.

Lemma glob_any_lit c d l s :
  glob (Any :: Lit c :: l) (d :: s) <->
  (folded info c = folded info d /\ glob l s) \/ glob (Any :: Lit c :: l) s.
Proof.
  rewrite !glob_any. split.
  - intros (s1 & s2 & E & H). destruct s1 as [|x s1]; cbn in E; simplify_eq.
    + inversion H; subst. by left.
    + right. eauto.
  - intros [[E H]|(s1 & s2 & -> & H)].
    + exists [], (d :: s). split; [done|by constructor].
    + by exists (d :: s1), s2.
Qed.

Lemma glob_lit_cons c d l s :
  glob (Lit c :: l) (d :: s) <-> folded info c = folded info d /\ glob l s.
Proof. split; [by inversion 1|intros []; by constructor]. Qed.

Lemma glob_nil s : glob [] s <-> s = [].
Proof. split; [by inversion 1|intros ->; constructor]. Qed.

Lemma glob_never l s : ~ glob (Never :: l) s.
Proof. by inversion 1. Qed.

Lemma glob_any_never s : ~ glob [Any; Never] s.
Proof. rewrite glob_any. intros (s1 & s2 & _ & H). by inversion H. Qed.

Lemma glob_any_all s : glob [Any] s.
Proof. apply glob_any. exists s, []. rewrite app_nil_r. by repeat constructor. Qed.

Lemma folded_idem c : folded info (folded info c) = folded info c.
Proof. unfold folded. destruct (noCase info); [|done]. unfold tolower, isupper. repeat case_match; lia. Qed.

Lemma folded_pos c : 0 < c -> 0 < folded info c.
Proof. unfold folded, tolower, isupper. repeat case_match; lia. Qed.

Lemma fold_char_spec c : 0 <= c -> fold_char info c = Ret (folded info c).
Proof.
  intros Hc. unfold fold_char, folded, GlogUpperToLower. destruct (noCase info); [|done].
  destruct (Z.ltb_spec c 0x80).
  - assert (is_byte c) by (unfold is_byte; lia).
    byte_check (fun c => (0x80 <=? c) || bool_decide (rd sqlite3UpperToLower c = Some (tolower c))) c.
    rewrite (proj2 (Z.leb_gt 0x80 c)) in H1 by lia. apply bool_decide_eq_true in H1. by rewrite H1.
  - unfold tolower, isupper. destruct (Z.leb_spec c 90); [lia|]. by rewrite andb_false_r.
Qed.

End matching.

(** ** The loops *)

(** A routine that answers whether [Q] holds. *)
Definition answers_iff (r : res bool) (Q : Prop) : Prop := exists b, r = Ret b /\ (b = true <-> Q).

Lemma answers_true (Q : Prop) : Q -> answers_iff (Ret true) Q.
Proof. intros H. by exists true. Qed.

Lemma answers_false (Q : Prop) : ~ Q -> answers_iff (Ret false) Q.
Proof. intros H. by exists false. Qed.

Lemma answers_mono r (Q Q' : Prop) : answers_iff r Q -> (Q <-> Q') -> answers_iff r Q'.
Proof. intros (b & -> & Hb) HQ. exists b. by rewrite Hb. Qed.

Section loops_ok.
Context (P S : list Z) (info : compareInfo) (esc : Z).
Context (HP : bytes_ok P) (HS : bytes_ok S).
Notation glob := (glob_match info).
Notation parse_at := (parse_at info esc).

(** A call on the rest of the string that answers for the items [l]. *)
Definition compares (compare : Z -> res bool) (l : list item) : Prop :=
  forall s ds, text S s ds -> answers_iff (compare s) (glob l ds).

(** Searching the folded character [c], with [c2] in hand and [ds] behind it. *)
Lemma find_char_ok fuel c c2 s ds : text S s ds -> (length ds + 1 < fuel)%nat -> 0 < c2 ->
  exists c2' s', find_char S info fuel (folded info c) (folded info c2) s = Ret (c2', s') /\
    ((c2' = 0 /\ forall l, ~ glob (Any :: Lit c :: l) (c2 :: ds)) \/
     (c2' <> 0 /\ exists ds', text S s' ds' /\ (length ds' <= length ds)%nat /\
        forall l, glob (Any :: Lit c :: l) (c2 :: ds) <->
                  glob l ds' \/ glob (Any :: Lit c :: l) ds')).
Proof.
  revert c2 s ds. induction fuel as [|fuel IH]; intros c2 s ds Ht Hf Hc2; [lia|].
  pose proof (folded_pos info c2 Hc2) as Hpos.
  cbn [find_char]. rewrite (proj2 (Z.eqb_neq _ 0)) by lia. cbn [negb andb].
  destruct (Z.eqb_spec (folded info c2) (folded info c)) as [E|E]; cbn [negb].
  - exists (folded info c2), s. split; [done|]. right. split; [lia|]. exists ds. split_and!; [done..|].
    intros l. rewrite glob_any_lit. naive_solver.
  - destruct ds as [|d ds].
    + destruct (text_nil S s HS Ht) as [-> _]. crun. rewrite fold_char_spec by lia. crun.
      assert (folded info 0 = 0) as -> by (unfold folded; by case_match).
      destruct fuel as [|fuel]; [cbn in Hf; lia|]. cbn [find_char]. cbn [Z.eqb negb andb].
      exists 0, (s + 1). split; [done|]. left. split; [done|]. intros l. rewrite glob_any_lit.
      intros [[? _]|H]; [congruence|by apply glob_any_lit_nil in H].
    + destruct (text_cons S s d ds HS Ht) as (k & -> & Ht' & _ & Hd & _). crun.
      rewrite fold_char_spec by lia. crun.
      destruct (IH d k ds Ht' ltac:(cbn in Hf; lia) Hd) as (c2' & s' & -> & Hcase).
      exists c2', s'. split; [done|]. destruct Hcase as [[-> Hno]|(Hne & ds' & Ht'' & Hl & Hiff)].
      * left. split; [done|]. intros l. rewrite glob_any_lit. intros [[? _]|H]; [congruence|by apply (Hno l)].
      * right. split; [done|]. exists ds'. split_and!; [done|cbn; lia|].
        intros l. rewrite glob_any_lit, Hiff. split; [|tauto]. intros [[? _]|H]; [congruence|done].
Qed.

Lemma char_search_ok fuel compare c c' s ds l : compares compare l ->
  folded info c' = folded info c -> 0 < c' ->
  text S s ds -> (length ds < fuel)%nat ->
  answers_iff (char_search S info fuel compare c' s) (glob (Any :: Lit c :: l) ds).
Proof.
  intros Hcmp Hc Hc'. revert c' Hc Hc' s ds.
  induction fuel as [|fuel IH]; intros c' Hc Hc' s ds Ht Hf; [lia|].
  cbn [char_search]. destruct ds as [|d ds].
  - destruct (text_nil S s HS Ht) as [-> _]. crun. apply answers_false, glob_any_lit_nil.
  - destruct (text_cons S s d ds HS Ht) as (k & -> & Ht' & _ & Hd & _). crun.
    rewrite (proj2 (Z.eqb_neq d 0)), !fold_char_spec by lia. crun. rewrite Hc.
    destruct (find_char_ok (Datatypes.S (length S)) c d k ds Ht') as (c2' & s' & -> & Hcase);
      [pose proof (text_length S k ds Ht' (text_index _ _ _ Ht')); lia|done|].
    crun. destruct Hcase as [[-> Hno]|(Hne & ds' & Ht'' & Hl & Hiff)].
    + apply answers_false, Hno.
    + rewrite (proj2 (Z.eqb_neq c2' 0) Hne).
      destruct (Hcmp s' ds' Ht'') as (b & -> & Hb). crun. destruct b.
      * apply answers_true, Hiff. left. by apply Hb.
      * apply (answers_mono _ (glob (Any :: Lit c :: l) ds')).
        -- apply IH; [apply folded_idem| |done|cbn in Hf; lia].
           rewrite <- Hc. by apply folded_pos.
        -- rewrite Hiff. naive_solver.
Qed.

(** A search that gives up on the empty rest, for items that need a character. *)
Lemma set_search_ok fuel compare s ds l : compares compare l -> ~ glob l [] ->
  text S s ds -> (length ds < fuel)%nat ->
  answers_iff (set_search S fuel compare s) (glob (Any :: l) ds).
Proof.
  intros Hcmp Hnil. revert s ds. induction fuel as [|fuel IH]; intros s ds Ht Hf; [lia|].
  cbn [set_search]. destruct ds as [|d ds].
  - destruct (text_nil S s HS Ht) as [_ ->]. crun. apply answers_false.
    rewrite glob_any. intros ([|] & [|] & E & H); try discriminate E. done.
  - destruct (text_cons S s d ds HS Ht) as (k & _ & Ht' & Hs & _ & _ & b & -> & Hb & _). crun.
    rewrite (proj2 (Z.eqb_neq b 0) Hb).
    destruct (Hcmp s _ Ht) as (r & -> & Hr). crun. destruct r.
    + apply answers_true. constructor. by apply Hr.
    + rewrite Hs. crun. apply (answers_mono _ (glob (Any :: l) ds)).
      * apply IH; [done|cbn in Hf; lia].
      * split; [by constructor|]. inversion 1; subst; [|done]. exfalso. by assert (false = true) by tauto.
Qed.

(** What is left of the pattern when its character [c] is in hand and [p]
    points behind it. *)
Definition at_char (p c : Z) (cs : list Z) : Prop :=
  match cs with
  | [] => c = 0
  | d :: r => c = d /\ 0 < c /\ text P p r /\ (c < 0x80 -> text P (p - 1) cs)
  end.

Lemma read_at_char p cs : text P p cs ->
  exists c k, sqlite3Utf8Read P None p = Ret (c, k) /\ at_char k c cs.
Proof.
  intros Ht. destruct cs as [|d r].
  - destruct (text_nil P p HP Ht) as [-> _]. by exists 0, (p + 1).
  - destruct (text_cons P p d r HP Ht) as (k & -> & Ht' & _ & Hd & Hk & _).
    exists d, k. split; [done|]. split_and!; try done.
    intros Hlt. rewrite (Hk Hlt). by replace (p + 1 - 1) with p by lia.
Qed.

Context (Hset : 0 <= matchSet info < 0x80) (Hesc : esc = 0 \/ matchSet info = 0).
Context (Hall : matchAll info <> 0) (Hone : matchOne info <> 0) (Hdiff : matchAll info <> matchOne info).

Lemma wildcard_run_ok fuel p s cs ds : text P p cs -> text S s ds -> (length cs < fuel)%nat ->
  exists r, wildcard_run P S info fuel p s = Ret r /\
    match r with
    | None => ~ glob (Any :: parse_at true cs) ds
    | Some (c, p', s') => exists cs' ds',
        at_char p' c cs' /\ text S s' ds' /\ c <> matchAll info /\ c <> matchOne info /\
        (length cs' <= length cs)%nat /\
        (glob (Any :: parse_at true cs) ds <-> glob (Any :: parse_at true cs') ds')
    end.
Proof.
  revert p s cs ds. induction fuel as [|fuel IH]; intros p s cs ds Hp Hs Hf; [lia|].
  cbn [wildcard_run]. destruct (read_at_char p cs Hp) as (c & k & -> & Hc). crun.
  destruct cs as [|d r]; cbn [at_char] in Hc.
  - subst c. rewrite !(proj2 (Z.eqb_neq 0 _)) by done. cbn [orb].
    eexists. split; [done|]. exists [], ds. by split_and!.
  - destruct Hc as (-> & Hd & Hr & Hback). rewrite parse_cons.
    destruct (Z.eqb_spec d (matchOne info)) as [->|Hn1].
    + rewrite orb_true_r. rewrite (proj2 (Z.eqb_neq (matchOne info) (matchAll info))) by done.
      destruct ds as [|x ds].
      * destruct (text_nil S s HS Hs) as [-> _]. crun. exists None. split; [done|]. apply glob_any_one_nil.
      * destruct (text_cons S s x ds HS Hs) as (s' & -> & Hs' & _ & Hx & _). crun.
        rewrite (proj2 (Z.eqb_neq x 0)) by lia.
        destruct (IH k s' r ds Hr Hs' ltac:(cbn in Hf; lia)) as (res & -> & Hres).
        exists res. split; [done|].
        destruct res as [[[c' p'] s'']|]; [|by rewrite glob_any_one].
        destruct Hres as (cs' & ds' & ? & ? & ? & ? & ? & Hiff). exists cs', ds'.
        rewrite glob_any_one. split_and!; try done. cbn; lia.
    + rewrite orb_false_r. destruct (Z.eqb_spec d (matchAll info)) as [->|Hn2].
      * destruct (IH k s r ds Hr Hs ltac:(cbn in Hf; lia)) as (res & -> & Hres).
        exists res. split; [done|].
        destruct res as [[[c' p'] s'']|]; [|by rewrite glob_any_any].
        destruct Hres as (cs' & ds' & ? & ? & ? & ? & ? & Hiff). exists cs', ds'.
        rewrite glob_any_any. split_and!; try done. cbn; lia.
      * eexists. split; [done|]. exists (d :: r), ds.
        split_and!; try done. rewrite parse_cons, (proj2 (Z.eqb_neq d (matchAll info))), (proj2 (Z.eqb_neq d (matchOne info))) by done. done.
Qed.

Lemma set_loop_ok fuel c c2 prior seen p cs : at_char p c2 cs -> (length cs < fuel)%nat -> 0 <= prior ->
  exists c2' p' seen', set_loop P fuel c c2 prior seen p = Ret (c2', p', seen') /\
    match set_items prior cs with
    | None => c2' = 0
    | Some (l, rest) => c2' <> 0 /\ text P p' rest /\ seen' = seen || in_ranges c l
    end.
Proof.
  revert c2 prior seen p cs. induction fuel as [|fuel IH]; intros c2 prior seen p cs Hc Hf Hpr; [lia|].
  cbn [set_loop]. destruct cs as [|d r]; cbn [at_char] in Hc.
  { subst c2. cbn [Z.eqb negb andb]. by exists 0, p, seen. }
  destruct Hc as (-> & Hd & Hr & Hback). rewrite (proj2 (Z.eqb_neq d 0)) by lia. cbn [negb andb set_items].
  destruct (Z.eqb_spec d 93) as [->|Hn93]; cbn [negb].
  { exists 93, p, seen. split; [done|]. split_and!; [done..|]. by rewrite orb_false_r. }
  assert (forall seen0, exists c2' p' seen',
      ('(c2, p) ← sqlite3Utf8Read P None p; set_loop P fuel c c2 d (if c =? d then true else seen0) p)
        = Ret (c2', p', seen') /\
      match (fun '(l, rest) => ((d, d) :: l, rest)) <$> set_items d r with
      | None => c2' = 0
      | Some (l, rest) => c2' <> 0 /\ text P p' rest /\ seen' = seen0 || in_ranges c l
      end) as Hsingle.
  { intros seen0. destruct (read_at_char p r Hr) as (c' & k & -> & Hc'). crun.
    destruct (IH c' d (if c =? d then true else seen0) k r Hc' ltac:(cbn in Hf; lia) ltac:(lia))
      as (c2' & p' & seen' & -> & Hres).
    exists c2', p', seen'. split; [done|].
    destruct (set_items d r) as [[l rest]|]; [|done]. cbn.
    destruct Hres as (? & ? & ->). split_and!; try done.
    replace ((d <=? c) && (c <=? d)) with (c =? d) by lia. by destruct (c =? d), seen0. }
  destruct (Z.eqb_spec d 45) as [->|Hn45]; cbn [andb]; [|crun; apply (Hsingle seen)].
  assert (exists b, rd P p = Some b /\ (negb (b =? 93) && negb (b =? 0)) =
      match r with d :: _ => negb (d =? 93) | [] => false end) as (b & -> & Hb).
  { destruct r as [|e r].
    - destruct (text_nil P p HP Hr) as [_ E]. exists 0. by rewrite E.
    - destruct (text_cons P p e r HP Hr) as (k & _ & _ & _ & He & _ & b & E & Hb0 & Hbe).
      exists b. split; [done|]. rewrite (proj2 (Z.eqb_neq b 0) Hb0), andb_true_r. f_equal.
      specialize (Hbe 93). destruct (Z.eqb_spec b 93), (Z.eqb_spec e 93); try done; lia. }
  crun. rewrite Hb. destruct r as [|e r]; [cbn [andb]; crun; destruct (0 <? prior); apply (Hsingle seen)|].
  destruct (Z.eqb_spec e 93) as [->|Hne]; cbn [negb andb]; [crun; destruct (0 <? prior); apply (Hsingle seen)|].
  destruct (0 <? prior) eqn:Epr; [|crun; apply (Hsingle seen)].
  destruct (text_cons P p e r HP Hr) as (k & -> & Hr' & _ & He & _). crun.
  destruct (read_at_char k r Hr') as (c' & k' & -> & Hc'). crun.
  destruct (IH c' 0 (if (prior <=? c) && (c <=? e) then true else seen) k' r Hc'
    ltac:(cbn in Hf; lia) ltac:(lia)) as (c2' & p' & seen' & -> & Hres).
  exists c2', p', seen'. split; [done|].
  destruct (set_items 0 r) as [[l rest]|]; [|done]. cbn.
  destruct Hres as (? & ? & ->). split_and!; try done.
  by destruct ((prior <=? c) && (c <=? e)), seen.
Qed.

Lemma set_body_ok fuel (invert : bool) c c2 p cs : at_char p c2 cs -> (length cs < fuel)%nat ->
  exists c2' p' seen',
    ('(seen, c2, p) ← (if c2 =? 93 then '(c2, p) ← sqlite3Utf8Read P None p; Ret (c =? 93, c2, p)
                       else Ret (false, c2, p));
     set_loop P fuel c c2 0 seen p) = Ret (c2', p', seen') /\
    match set_body invert cs with
    | None => c2' = 0
    | Some (i, l, rest) => c2' <> 0 /\ text P p' rest /\ seen' = in_ranges c l /\ i = invert
    end.
Proof.
  intros Hc Hf. destruct cs as [|d r]; cbn [set_body].
  { cbn in Hc. subst c2. crun. cbn [Z.eqb]. crun.
    destruct (set_loop_ok fuel c 0 0 false p [] eq_refl Hf ltac:(lia)) as (c2' & p' & seen' & -> & H).
    by exists c2', p', seen'. }
  pose proof Hc as (-> & Hd & Hr & _). destruct (Z.eqb_spec d 93) as [->|Hn].
  - destruct (read_at_char p r Hr) as (c' & k & -> & Hc'). crun.
    destruct (set_loop_ok fuel c c' 0 (c =? 93) k r Hc' ltac:(cbn in Hf; lia) ltac:(lia))
      as (c2' & p' & seen' & -> & H).
    exists c2', p', seen'. split; [done|].
    destruct (set_items 0 r) as [[l rest]|]; [|done]. destruct H as (? & ? & ->). cbn.
    split_and!; try done. f_equal. lia.
  - crun. destruct (set_loop_ok fuel c d 0 false p (d :: r) Hc Hf ltac:(lia)) as (c2' & p' & seen' & -> & H).
    exists c2', p', seen'. split; [done|].
    destruct (set_items 0 (d :: r)) as [[l rest]|]; [|done]. cbn. naive_solver.
Qed.

Lemma match_set_ok p s r ds : text P p r -> text S s ds ->
  exists res, match_set P S p s = Ret res /\
    match res with
    | None => forall l, ~ glob (match parse_set r with
                                | Some (i, rs, rest) => OneOf i rs :: l | None => [Never] end) ds
    | Some (p', s') => exists i rs rest d ds', parse_set r = Some (i, rs, rest) /\ ds = d :: ds' /\
        text P p' rest /\ text S s' ds' /\ in_ranges d rs = negb i
    end.
Proof.
  intros Hp Hs. unfold match_set. destruct ds as [|d ds].
  { destruct (text_nil S s HS Hs) as [-> _]. crun. exists None. split; [done|].
    intros l H. destruct (parse_set r) as [[[i rs] rest]|]; inversion H. }
  destruct (text_cons S s d ds HS Hs) as (s' & -> & Hs' & _ & Hd & _). crun.
  rewrite (proj2 (Z.eqb_neq d 0)) by lia.
  destruct (read_at_char p r Hp) as (c2 & k & -> & Hc2). crun.
  pose proof (text_length P p r Hp (text_index _ _ _ Hp)) as Hl.
  assert (exists i cs p2 c2', (if c2 =? 94 then '(c2, p) ← sqlite3Utf8Read P None k; Ret (true, c2, p)
      else Ret (false, c2, k)) = Ret (i, c2', p2) /\ at_char p2 c2' cs /\ (length cs <= length r)%nat /\
      parse_set r = set_body i cs) as (i & cs & p2 & c2' & -> & Hc2' & Hcs & Hparse).
  { destruct r as [|e r]; cbn [at_char] in Hc2.
    - subst c2. by exists false, [], k, 0.
    - pose proof Hc2 as (-> & He & Hr & _). cbn [parse_set]. destruct (Z.eqb_spec e 94) as [->|].
      + destruct (read_at_char k r Hr) as (c' & k' & -> & Hc'). crun.
        exists true, r, k', c'. split_and!; try done. cbn; lia.
      + by exists false, (e :: r), k, e. }
  crun. rewrite Hparse.
  destruct (set_body_ok (Datatypes.S (length P)) i d c2' p2 cs Hc2' ltac:(lia)) as (c3 & p3 & seen & Hrun & Hres).
  assert (forall {A} (f : Z * Z * bool -> res A),
    (('(seen, c2, p) ← (if c2' =? 93 then '(c2, p) ← sqlite3Utf8Read P None p2; Ret (d =? 93, c2, p)
                       else Ret (false, c2', p2));
      (set_loop P (Datatypes.S (length P)) d c2 0 seen p ≫= f))) = f (c3, p3, seen)) as Hbind.
  { intros A f. destruct (if c2' =? 93 then _ else _) as [[[sn cc] pp]| | |]; try discriminate Hrun.
    rewrite bind_ret_l in Hrun. cbv beta iota in Hrun. rewrite bind_ret_l. cbv beta iota. by rewrite Hrun. }
  rewrite Hbind. destruct (set_body i cs) as [[[i' rs] rest]|].
  - destruct Hres as (Hne & Hp3 & -> & ->). rewrite (proj2 (Z.eqb_neq c3 0) Hne). cbn [orb].
    destruct (Bool.eqb_spec (in_ranges d rs) i) as [E|E].
    + exists None. split; [done|]. intros l H. inversion H; subst. destruct (in_ranges d rs); done.
    + eexists. split; [done|]. exists i, rs, rest, d, ds. split_and!; try done.
      by destruct (in_ranges d rs), i.
  - subst c3. exists None. split; [done|]. intros l H. inversion H.
Qed.

Notation PC := (patternCompare P S info esc).

(** The items of a pattern whose first character stands for itself. *)
Definition escaped (cs : list Z) : list item :=
  match cs with [] => [] | d :: r => Lit d :: parse_at false r end.

Definition pc_ok (fuel : nat) : Prop := forall p s cs ds,
  text P p cs -> text S s ds -> (length cs < fuel)%nat ->
  answers_iff (PC fuel p s false) (glob (parse_at false cs) ds) /\
  (matchSet info = 0 -> answers_iff (PC fuel p s true) (glob (escaped cs) ds)).

(** Behind a wildcard: the search that the character [c] selects. *)
Lemma after_wildcard_ok fuel c p s cs ds : pc_ok fuel ->
  at_char p c cs -> text S s ds -> c <> matchAll info -> c <> matchOne info -> (length cs < fuel)%nat ->
  answers_iff
    (if c =? 0 then Ret true
     else if c =? esc then
       '(c, p) ← sqlite3Utf8Read P None p;
       if c =? 0 then Ret false else
       char_search S info (Datatypes.S (length S)) (fun s => PC fuel p s false) c s
     else if c =? matchSet info then
       set_search S (Datatypes.S (length S)) (fun s => PC fuel (p - 1) s false) s
     else
       char_search S info (Datatypes.S (length S)) (fun s => PC fuel p s false) c s)
    (glob (Any :: parse_at true cs) ds).
Proof.
  intros IH Hc Hs Hna Hno Hf.
  assert (length ds < Datatypes.S (length S))%nat as Hds
    by (pose proof (text_length S s ds Hs (text_index _ _ _ Hs)); lia).
  assert (forall p r, text P p r -> (length r < fuel)%nat ->
    compares (fun s => PC fuel p s false) (parse_at false r)) as Hcmp.
  { intros p' r Hp' Hl s' ds' Hs'. by apply IH. }
  destruct cs as [|d r]; [cbn in Hc; subst c; apply answers_true, glob_any_all|].
  destruct Hc as (-> & Hd & Hr & Hback). cbn [length] in Hf.
  rewrite (proj2 (Z.eqb_neq d 0)), parse_cons by lia.
  rewrite (proj2 (Z.eqb_neq d (matchAll info))), (proj2 (Z.eqb_neq d (matchOne info))) by done.
  destruct (Z.eqb_spec d esc) as [->|Hne].
  - rewrite (proj2 (Z.eqb_neq esc (matchSet info))) by lia.
    destruct r as [|e r].
    + destruct (text_nil P p HP Hr) as [-> _]. crun. apply answers_false, glob_any_never.
    + destruct (text_cons P p e r HP Hr) as (k & -> & Hr' & _ & He & _). crun.
      rewrite (proj2 (Z.eqb_neq e 0)) by lia.
      apply char_search_ok; try done. apply Hcmp; [done|cbn in Hf; lia].
  - destruct (Z.eqb_spec d (matchSet info)) as [->|Hns].
    + specialize (Hback ltac:(lia)).
      apply set_search_ok; [|by destruct (parse_set r) as [[[]]|]; inversion 1|done..].
      intros s' ds' Hs'. destruct (IH (p - 1) s' _ ds' Hback Hs' ltac:(cbn; lia)) as [Ha _].
      rewrite parse_cons in Ha.
      rewrite !(proj2 (Z.eqb_neq (matchSet info) _)), Z.eqb_refl in Ha by done. done.
    + apply char_search_ok; try done. apply Hcmp; [done|lia].
Qed.

(** A character that stands for itself. *)
Lemma literal_ok fuel d p s r ds : pc_ok fuel -> text P p r -> text S s ds -> 0 < d -> (length r < fuel)%nat ->
  answers_iff
    ('(c2, s) ← sqlite3Utf8Read S None s;
     c ← fold_char info d;
     c2 ← fold_char info c2;
     if negb (c =? c2) then Ret false else PC fuel p s false)
    (glob (Lit d :: parse_at false r) ds).
Proof.
  intros IH Hp Hs Hd Hf. pose proof (folded_pos info d Hd).
  destruct ds as [|x ds].
  - destruct (text_nil S s HS Hs) as [-> _]. crun. rewrite !fold_char_spec by lia. crun.
    assert (folded info 0 = 0) as -> by (unfold folded; by case_match).
    rewrite (proj2 (Z.eqb_neq _ 0)) by lia. cbn [negb]. apply answers_false. inversion 1.
  - destruct (text_cons S s x ds HS Hs) as (s' & -> & Hs' & _ & Hx & _). crun.
    rewrite !fold_char_spec by lia. crun.
    destruct (Z.eqb_spec (folded info d) (folded info x)) as [E|E]; cbn [negb].
    + eapply answers_mono; [by apply (IH p s' r ds Hp Hs')|]. rewrite glob_lit_cons. tauto.
    + apply answers_false. by rewrite glob_lit_cons; intros [].
Qed.

Lemma patternCompare_ok fuel : pc_ok fuel.
Proof.
  induction fuel as [|fuel IH]; intros p s cs ds Hp Hs Hf; [lia|].
  cbn [patternCompare]. destruct (read_at_char p cs Hp) as (c & k & -> & Hc). crun.
  destruct cs as [|d r].
  { cbn in Hc. subst c. cbn [Z.eqb escaped].
    assert (exists b, rd S s = Some b /\ (b = 0 <-> ds = [])) as (b & -> & Hb).
    { destruct ds as [|x ds]; [exists 0; by rewrite (proj2 (text_nil S s HS Hs))|].
      destruct (text_cons S s x ds HS Hs) as (? & _ & _ & _ & _ & _ & b & ? & ? & _). by exists b. }
    crun. assert (answers_iff (Ret (b =? 0)) (glob [] ds)); [|done].
    eexists. split; [done|]. by rewrite Z.eqb_eq, glob_nil. }
  destruct Hc as (-> & Hd & Hr & _). cbn [length] in Hf. cbn [negb andb].
  rewrite (proj2 (Z.eqb_neq d 0)) by lia.
  split; [|intros Hset0; rewrite andb_false_r, (proj2 (Z.eqb_neq d (matchSet info))) by lia;
           apply literal_ok; by try lia].
  rewrite parse_cons, andb_true_r.
  destruct (Z.eqb_spec d (matchAll info)) as [->|Hna].
  { destruct (wildcard_run_ok (Datatypes.S (length P)) k s r ds Hr Hs) as (res & -> & Hres);
      [pose proof (text_length P k r Hr (text_index _ _ _ Hr)); lia|].
    crun. destruct res as [[[c p'] s']|]; [|by apply answers_false].
    destruct Hres as (cs' & ds' & Hc & Hs' & Hca & Hco & Hl & Hiff).
    eapply answers_mono; [apply (after_wildcard_ok fuel c p' s' cs' ds'); by try lia|].
    by rewrite Hiff. }
  destruct (Z.eqb_spec d (matchOne info)) as [->|Hno].
  { destruct ds as [|x ds].
    - destruct (text_nil S s HS Hs) as [-> _]. crun. apply answers_false. inversion 1.
    - destruct (text_cons S s x ds HS Hs) as (s' & -> & Hs' & _ & Hx & _). crun.
      rewrite (proj2 (Z.eqb_neq x 0)) by lia.
      eapply answers_mono; [apply (IH k s' r ds Hr Hs'); lia|]. split; [by constructor|by inversion 1]. }
  destruct (Z.eqb_spec d (matchSet info)) as [->|Hns].
  { destruct (match_set_ok k s r ds Hr Hs) as (res & -> & Hres). crun.
    destruct res as [[p' s']|]; [|by destruct (parse_set r) as [[[i rs] rest]|];
      apply answers_false; [apply (Hres (parse_at false rest))|apply (Hres [])]].
    destruct Hres as (i & rs & rest & x & ds' & Hpar & -> & Hp' & Hs' & Hin).
    rewrite Hpar. apply parse_set_shorter in Hpar.
    eapply answers_mono; [apply (IH p' s' rest ds' Hp' Hs'); lia|]. split; [by constructor|by inversion 1]. }
  rewrite (Z.eqb_sym esc d). destruct (Z.eqb_spec d esc) as [->|Hne]; [|apply literal_ok; by try lia].
  destruct (IH k s r ds Hr Hs ltac:(lia)) as [_ H].
  eapply answers_mono; [apply H; lia|]. by destruct r.
Qed.

End loops_ok.

(** ** The theorem *)

(** The parameters of the three operators: GLOB takes no escape character. *)
Definition operator (info : compareInfo) (argv2 : option value) : Prop :=
  info = globInfo /\ argv2 = None \/ info = likeInfoNorm \/ info = likeInfoAlt.

Lemma pattern_compare_run info esc P S p s :
  readable P -> readable S -> text P 0 p -> text S 0 s ->
  (info = globInfo /\ esc = 0 \/ info = likeInfoNorm \/ info = likeInfoAlt) ->
  answers_iff (patternCompare P S info esc (Datatypes.S (length P)) 0 0 false)
    (glob_match info (parse info esc p) s).
Proof.
  intros (HP & _) (HS & _) Hp Hs Hi.
  assert (0 <= matchSet info < 0x80 /\ (esc = 0 \/ matchSet info = 0) /\ matchAll info <> 0 /\
          matchOne info <> 0 /\ matchAll info <> matchOne info) as (H1 & H2 & H3 & H4 & H5).
  { destruct Hi as [[-> ->]|[-> | ->]]; cbn; split_and!; lia || auto. }
  pose proof (text_length P 0 p Hp ltac:(lia)) as Hl.
  exact (proj1 (patternCompare_ok P S info esc HP HS H1 H2 H3 H4 H5 (Datatypes.S (length P))
    0 0 p s Hp Hs ltac:(lia))).
Qed.

Lemma readable_text z : readable z -> exists cs, text z 0 cs.
Proof.
  intros Hz. pose proof Hz as (_ & [n Hn] & _).
  apply (text_exists z 0 n); [done..|]. apply rd_Some_lt in Hn. lia.
Qed.

(** C24: LIKE and GLOB answer whether the string matches the pattern.  For
    readable texts the call reads nothing behind a terminator, ends, and
    gives 1 exactly when the characters of the string match the items of the
    pattern; the escape character is taken literally in front of any
    character, and has to be exactly one character.  A pattern longer than
    the limit is an error, and a NULL among the arguments leaves NULL. *)
Theorem like_glob_match (info : compareInfo) (limit : Z) (argv0 argv1 : value) (argv2 : option value)
    (Hop : operator info argv2) (zB zA : list Z)
    (HB : text_ argv0 = Some zB) (HA : text_ argv1 = Some zA) (HrB : readable zB) (HrA : readable zA) :
  exists pattern string, text zB 0 pattern /\ text zA 0 string /\
  (limit < nbytes argv0 -> likeFunc info limit argv0 argv1 argv2 = Ret (ResultError (message TooComplex))) /\
  (nbytes argv0 <= limit ->
   match argv2 with
   | None => exists b, likeFunc info limit argv0 argv1 argv2 = Ret (ResultInt b) /\ (b = 0 \/ b = 1) /\
       (b = 1 <-> glob_match info (parse info 0 pattern) string)
   | Some v =>
       (text_ v = None -> likeFunc info limit argv0 argv1 argv2 = Ret NoResult) /\
       forall zEsc, text_ v = Some zEsc -> readable zEsc -> zlen zEsc < 2 ^ 31 ->
       exists escape, text zEsc 0 escape /\
         match escape with
         | [esc] => exists b, likeFunc info limit argv0 argv1 argv2 = Ret (ResultInt b) /\ (b = 0 \/ b = 1) /\
             (b = 1 <-> glob_match info (parse info esc pattern) string)
         | _ => likeFunc info limit argv0 argv1 argv2 = Ret (ResultError (message BadEscape))
         end
   end).
Proof.
  destruct (readable_text zB HrB) as [p Hp]. destruct (readable_text zA HrA) as [s Hs].
  exists p, s. split_and!; [done..| |]; unfold likeFunc; rewrite HB, HA.
  { intros H. by rewrite (proj2 (Z.ltb_lt _ _) H). }
  intros H. rewrite (proj2 (Z.ltb_ge _ _) H).
  assert (forall esc, (info = globInfo /\ esc = 0 \/ info = likeInfoNorm \/ info = likeInfoAlt) ->
    exists b, (b ← patternCompare zB zA info esc (S (length zB)) 0 0 false;
               Ret (ResultInt (if b : bool then 1 else 0))) = Ret (ResultInt b) /\ (b = 0 \/ b = 1) /\
      (b = 1 <-> glob_match info (parse info esc p) s)) as Hcmp.
  { intros esc Hi. destruct (pattern_compare_run info esc zB zA p s HrB HrA Hp Hs Hi) as (b & -> & Hb).
    crun. exists (if b then 1 else 0). split; [done|]. rewrite <- Hb. destruct b; lia || naive_solver lia. }
  destruct argv2 as [v|].
  - split; [by intros ->|]. intros zEsc Hv Hz Hl. rewrite Hv.
    destruct (readable_text zEsc Hz) as [escape He]. exists escape. split; [done|].
    destruct Hz as (Hzb & _). rewrite (utf8_charlen_spec zEsc escape) by done. crun.
    destruct escape as [|esc [|e escape]].
    + done.
    + change (zlen [esc] =? 1) with true. cbn [negb].
      destruct (text_cons zEsc 0 esc [] Hzb He) as (k & -> & _). crun.
      apply Hcmp. destruct Hop as [[_ ?]|?]; [done|by right].
    + rewrite !zlen_cons. pose proof (zlen_nonneg escape).
      rewrite (proj2 (Z.eqb_neq _ 1)) by lia. done.
  - apply Hcmp. destruct Hop as [[-> _]|?]; [by left|by right].
Qed.

(** 'Data' LIKE '_A%' *)
Lemma like_glob_match_witness :
  let v t := mkValue SQLITE_TEXT (Some t) None (zlen t - 1) 0 (SpecFloat.S754_zero false) in
  exists pattern string, text [95; 65; 37; 0] 0 pattern /\ text [68; 97; 116; 97; 0] 0 string /\
    exists b, likeFunc likeInfoNorm 50000 (v [95; 65; 37; 0]) (v [68; 97; 116; 97; 0]) None
      = Ret (ResultInt b) /\ (b = 0 \/ b = 1) /\
      (b = 1 <-> glob_match likeInfoNorm (parse likeInfoNorm 0 pattern) string).
Proof.
  assert (forall z n, Forall (fun b => 0 <= b < 128) z -> rd z n = Some 0 -> readable z) as Hascii.
  { intros z n Hz Hn. split_and!.
    - eapply Forall_impl; [exact Hz|]. unfold is_byte. intros; lia.
    - by exists n.
    - intros i b Hr Hb. apply (rd_Forall _ _ _ _ Hz) in Hr. lia. }
  destruct (like_glob_match likeInfoNorm 50000
    (mkValue SQLITE_TEXT (Some [95; 65; 37; 0]) None 3 0 (SpecFloat.S754_zero false))
    (mkValue SQLITE_TEXT (Some [68; 97; 116; 97; 0]) None 4 0 (SpecFloat.S754_zero false)) None
    ltac:(right; left; reflexivity) [95; 65; 37; 0] [68; 97; 116; 97; 0] eq_refl eq_refl
    ltac:(apply (Hascii _ 3); [repeat constructor; lia|reflexivity])
    ltac:(apply (Hascii _ 4); [repeat constructor; lia|reflexivity])) as (p & s & Hp & Hs & _ & H).
  exists p, s. split_and!; [exact Hp|exact Hs|]. apply H. cbn. lia.
Defined.

(** A pattern that ends in its escape character: the character is dropped, but
    behind a [%] nothing matches, although [%] matches the empty string. *)
Lemma like_dangling_escape :
  patternCompare [92; 0] [0] likeInfoNorm 92 2 0 0 false = Ret true /\
  patternCompare [37; 92; 0] [0] likeInfoNorm 92 3 0 0 false = Ret false.
Proof. split; vm_compute; reflexivity. Qed.
