(* ===== verification/PageBytes.v ===== *)
(** * Bytes of a page: two-byte integers, blocks of bytes and regions

    The macros [get2byte] and [put2byte] of [btreeInt.h], and the lemmas on
    which the proofs about b-tree pages rest: what a write leaves alone
    ([same_outside]), which bytes lie where ([holds]), and lists of regions
    that do not overlap ([disj]). *)

From S2P Require Import Prelude.

Definition get2byte (d : list Z) (a : Z) : res Z :=
  x ← of_opt (rd d a); y ← of_opt (rd d (a + 1)); Ret (Z.lor (Z.shiftl x 8) y).

Definition put2byte (d : list Z) (a v : Z) : res (list Z) :=
  d ← of_opt (wr d a (u8 (Z.shiftr v 8))); of_opt (wr d (a + 1) (u8 v)).

Lemma bind_ext {A B} (m : res A) (f g : A -> res B) : (forall a, f a = g a) -> (m ≫= f) = (m ≫= g).
Proof. intros H. by destruct m; cbn. Qed.

(** ** What a write leaves alone *)

(** The two blocks differ at most in the bytes [a, b). *)
Definition same_outside (d d' : list Z) (a b : Z) : Prop :=
  zlen d' = zlen d /\ forall i, i < a \/ b <= i -> rd d' i = rd d i.

Lemma same_outside_refl d a b : same_outside d d a b.
Proof. done. Qed.

Lemma same_outside_trans d1 d2 d3 a b :
  same_outside d1 d2 a b -> same_outside d2 d3 a b -> same_outside d1 d3 a b.
Proof.
  intros [L1 H1] [L2 H2]. split; [by rewrite L2|]. intros i Hi. by rewrite H2, H1.
Qed.

Lemma same_outside_mono d d' a b a' b' :
  same_outside d d' a b -> a' <= a -> b <= b' -> same_outside d d' a' b'.
Proof. intros [L H] Ha Hb. split; [done|]. intros i Hi. apply H. lia. Qed.

Lemma rd_wr (d d' : list Z) a v i : wr d a v = Some d' -> rd d' i = if i =? a then Some v else rd d i.
Proof.
  intros H. pose proof (wr_inv _ _ _ _ H) as [Ha ->].
  destruct (Z.eqb_spec i a) as [->|Hne]; [by apply rd_insert_eq|].
  apply rd_insert_ne; lia.
Qed.

Lemma wr_ok {A} (d : list A) a v : 0 <= a < zlen d -> exists d', wr d a v = Some d'.
Proof. intros Ha. rewrite wr_Some by done. eauto. Qed.

Lemma bytes_ok_wr (d : list Z) a v d' : bytes_ok d -> is_byte v -> wr d a v = Some d' -> bytes_ok d'.
Proof. intros Hd Hv H. apply wr_inv in H as [_ ->]. by apply Forall_insert. Qed.

Lemma wr_outside (d : list Z) a v d' : wr d a v = Some d' -> same_outside d d' a (a + 1).
Proof.
  intros H. split; [by eapply wr_zlen|]. intros i Hi. rewrite (rd_wr _ _ _ _ _ H).
  destruct (Z.eqb_spec i a); [lia|done].
Qed.

(** ** Two-byte integers *)

Lemma get2byte_val d a x y : rd d a = Some x -> rd d (a + 1) = Some y -> is_byte y ->
  get2byte d a = Ret (x * 256 + y).
Proof.
  intros Hx Hy Hb. unfold get2byte. rewrite Hx, Hy. crun. f_equal.
  unfold is_byte in Hb. rewrite (lor_add_low x y 8) by lia. done.
Qed.

Lemma get2byte_ok d a : bytes_ok d -> 0 <= a -> a + 1 < zlen d ->
  exists v, get2byte d a = Ret v /\ 0 <= v < 65536.
Proof.
  intros Hd Ha Hl. destruct (rd_lt d a) as [x Hx]; [lia|]. destruct (rd_lt d (a + 1)) as [y Hy]; [lia|].
  pose proof (rd_Forall _ _ _ _ Hd Hx). pose proof (rd_Forall _ _ _ _ Hd Hy).
  exists (x * 256 + y). split; [by apply get2byte_val|]. unfold is_byte in *. lia.
Qed.

Lemma get2byte_inv d a v : get2byte d a = Ret v -> 0 <= a /\ a + 1 < zlen d.
Proof.
  unfold get2byte. intros H. destruct (rd d a) as [x|] eqn:E; [|done].
  cbn [of_opt] in H. rewrite bind_ret_l in H. destruct (rd d (a + 1)) as [y|] eqn:E'; [|done].
  apply rd_Some_lt in E, E'. lia.
Qed.

Lemma get2byte_range d a v : bytes_ok d -> get2byte d a = Ret v -> 0 <= v < 65536.
Proof.
  intros Hd H. pose proof (get2byte_inv _ _ _ H). destruct (get2byte_ok d a Hd) as (v' & E & ?); [lia..|].
  rewrite H in E. by injection E as <-.
Qed.

Lemma get2byte_frame d d' a b x : same_outside d d' a b -> x + 2 <= a \/ b <= x ->
  get2byte d' x = get2byte d x.
Proof. intros [_ H] Hx. unfold get2byte. by rewrite !H by lia. Qed.

Lemma put2byte_ok d a v : bytes_ok d -> 0 <= a -> a + 2 <= zlen d -> 0 <= v < 65536 ->
  exists d', put2byte d a v = Ret d' /\ get2byte d' a = Ret v /\ bytes_ok d' /\
    same_outside d d' a (a + 2).
Proof.
  intros Hd Ha Hl Hv. unfold put2byte.
  destruct (wr_ok d a (u8 (Z.shiftr v 8))) as [d1 H1]; [lia|].
  pose proof (wr_zlen _ _ _ _ H1) as L1.
  destruct (wr_ok d1 (a + 1) (u8 v)) as [d2 H2]; [lia|].
  rewrite H1. crun. rewrite H2. exists d2. split; [done|].
  pose proof (bytes_ok_wr _ _ _ _ Hd (u8_byte _) H1) as Hd1.
  split_and!.
  - rewrite (get2byte_val d2 a (u8 (Z.shiftr v 8)) (u8 v)).
    + f_equal. rewrite Z.shiftr_div_pow2 by lia. unfold u8. change (2 ^ 8) with 256.
      Z.to_euclidean_division_equations; lia.
    + rewrite (rd_wr _ _ _ _ _ H2), (rd_wr _ _ _ _ _ H1).
      rewrite Z.eqb_refl. by rewrite (proj2 (Z.eqb_neq a (a + 1))) by lia.
    + by rewrite (rd_wr _ _ _ _ _ H2), Z.eqb_refl.
    + apply u8_byte.
  - by apply (bytes_ok_wr d1 (a + 1) (u8 v)).
  - apply (same_outside_trans _ d1);
      [apply (same_outside_mono _ _ a (a + 1))|apply (same_outside_mono _ _ (a + 1) (a + 1 + 1))];
      try lia; by eapply wr_outside.
Qed.

(** ** Blocks of bytes *)

(** The bytes [c] lie at [a]. *)
Definition holds (d : list Z) (a : Z) (c : list Z) : Prop :=
  0 <= a /\ a + zlen c <= zlen d /\ forall i, 0 <= i < zlen c -> rd d (a + i) = rd c i.

Lemma rd_drop {A} (l : list A) a i : 0 <= a -> 0 <= i -> rd (drop (Z.to_nat a) l) i = rd l (a + i).
Proof.
  intros Ha Hi. unfold rd. rewrite !decide_True, lookup_drop by lia. f_equal. lia.
Qed.

Lemma rd_take {A} (l : list A) n i : i < n -> rd (take (Z.to_nat n) l) i = rd l i.
Proof.
  intros Hi. unfold rd. case_decide; [|done]. apply lookup_take_lt. lia.
Qed.

Lemma rd_ext {A} (l l' : list A) : zlen l = zlen l' -> (forall i, 0 <= i < zlen l -> rd l i = rd l' i) -> l = l'.
Proof.
  intros Hl H. apply list_eq. intros i. destruct (decide (i < length l)%nat) as [Hi|Hi].
  - specialize (H (Z.of_nat i) ltac:(unfold zlen; lia)). by rewrite !rd_nat in H.
  - rewrite !lookup_ge_None_2; [done|unfold zlen in *; lia..].
Qed.

Lemma bytes_at_ok d a n : 0 <= a -> 0 <= n -> a + n <= zlen d ->
  exists c, bytes_at d a n = Ret c /\ zlen c = n /\ holds d a c.
Proof.
  intros Ha Hn Hl. unfold bytes_at. rewrite decide_True by lia.
  assert (zlen (take (Z.to_nat n) (drop (Z.to_nat a) d)) = n) as L
    by (unfold zlen in *; rewrite length_take, length_drop; lia).
  eexists. split; [done|]. split; [done|]. split_and!; [done|by rewrite L|].
  rewrite L. intros i Hi. by rewrite rd_take, rd_drop by lia.
Qed.

Lemma holds_self c : holds c 0 c.
Proof. split_and!; [done|lia|]. intros i _. by rewrite Z.add_0_l. Qed.

Lemma holds_unique d a c c' : holds d a c -> holds d a c' -> zlen c = zlen c' -> c = c'.
Proof.
  intros (_ & _ & H) (_ & _ & H') L. apply rd_ext; [done|]. intros i Hi.
  rewrite <- H, H' by lia. done.
Qed.

Lemma holds_bytes_at d a c n : holds d a c -> n = zlen c -> bytes_at d a n = Ret c.
Proof.
  intros Hc ->. pose proof Hc as (Ha & Hl & _). pose proof (zlen_nonneg c).
  destruct (bytes_at_ok d a (zlen c)) as (c' & -> & L & Hc'); [lia..|].
  f_equal. by apply (holds_unique d a).
Qed.

Lemma holds_app d a c1 c2 : holds d a c1 -> holds d (a + zlen c1) c2 -> holds d a (c1 ++ c2).
Proof.
  intros (Ha & Hl1 & H1) (_ & Hl2 & H2). pose proof (zlen_nonneg c1). split_and!; [done|rewrite zlen_app; lia|].
  rewrite zlen_app. intros i Hi. destruct (decide (i < zlen c1)) as [Hlt|Hge].
  - rewrite H1 by lia. symmetry. apply rd_app_l. lia.
  - replace (a + i) with (a + zlen c1 + (i - zlen c1)) by lia. rewrite H2 by lia.
    replace i with (zlen c1 + (i - zlen c1)) at 2 by lia. symmetry. apply rd_app_r. lia.
Qed.

Lemma holds_drop d a c : holds d a c -> exists rest, drop (Z.to_nat a) d = c ++ rest.
Proof.
  intros Hc. pose proof (holds_bytes_at d a c _ Hc eq_refl) as H. unfold bytes_at in H.
  case_decide; [|done]. injection H as H.
  exists (drop (Z.to_nat (zlen c)) (drop (Z.to_nat a) d)). rewrite <- H at 1. by rewrite take_drop.
Qed.

Lemma holds_frame d d' a b x c : same_outside d d' a b -> x + zlen c <= a \/ b <= x ->
  holds d x c -> holds d' x c.
Proof.
  intros [L H] Hx (Ha & Hl & Hc). split_and!; [done|by rewrite L|].
  intros i Hi. rewrite H by lia. by apply Hc.
Qed.

Lemma copy_to_ok src : forall d a, bytes_ok d -> bytes_ok src -> 0 <= a -> a + zlen src <= zlen d ->
  exists d', copy_to d a src = Ret d' /\ holds d' a src /\ bytes_ok d' /\
    same_outside d d' a (a + zlen src).
Proof.
  induction src as [|c src IH]; intros d a Hd Hs Ha Hl.
  - exists d. change (zlen []) with 0 in *. unfold holds. change (zlen []) with 0.
    split_and!; try done. intros; lia.
  - apply Forall_cons in Hs as [Hc Hs]. rewrite zlen_cons in *. pose proof (zlen_nonneg src).
    cbn [copy_to]. destruct (wr_ok d a c) as [d1 H1]; [lia|]. rewrite H1. crun.
    pose proof (wr_zlen _ _ _ _ H1) as L1.
    destruct (IH d1 (a + 1)) as (d' & -> & (_ & _ & Hh) & Hb & Hout);
      [by apply (bytes_ok_wr d a c)|done|lia|lia|].
    exists d'. split; [done|]. split_and!; [|done|].
    + split_and!; [done|destruct Hout; rewrite zlen_cons; lia|]. rewrite zlen_cons. intros i Hi.
      destruct (decide (i = 0)) as [->|].
      * destruct Hout as [_ Hout]. rewrite Hout, (rd_wr _ _ _ _ _ H1) by lia.
        by rewrite Z.add_0_r, Z.eqb_refl.
      * replace (a + i) with (a + 1 + (i - 1)) by lia. rewrite Hh by lia.
        replace i with (i - 1 + 1) at 2 by lia. change (c :: src) with ([c] ++ src).
        rewrite Z.add_comm. symmetry. apply (rd_app_r [c]). lia.
    + apply (same_outside_trans _ d1);
        [apply (same_outside_mono _ _ a (a + 1)); [by eapply wr_outside|lia..]
        |apply (same_outside_mono _ _ (a + 1) (a + 1 + zlen src)); [done|lia..]].
Qed.

(** ** Regions *)

(** Two regions, each an offset and a size, do not overlap. *)
Definition apart (x y : Z * Z) : Prop := x.1 + x.2 <= y.1 \/ y.1 + y.2 <= x.1.

Fixpoint disj (l : list (Z * Z)) : Prop :=
  match l with
  | [] => True
  | x :: l => Forall (apart x) l /\ disj l
  end.

Lemma apart_sym x y : apart x y -> apart y x.
Proof. unfold apart. lia. Qed.

#[export] Instance disj_perm : Proper ((≡ₚ) ==> iff) disj.
Proof.
  assert (forall l l', l ≡ₚ l' -> disj l -> disj l') as H.
  { induction 1 as [|x l l' Hp IH|x y l|l1 l2 l3 _ IH1 _ IH2]; [done| | |tauto].
    - cbn. intros [Hf Hd]. rewrite <- Hp at 1. tauto.
    - cbn. intros [[Hyx Hy]%Forall_cons [Hx Hd]]. split_and!; [|done..].
      constructor; [by apply apart_sym|done]. }
  intros l l' Hp. split; [by apply H|apply H]. by symmetry.
Qed.

Lemma disj_app l1 l2 : disj (l1 ++ l2) <-> disj l1 /\ disj l2 /\ forall x y, x ∈ l1 -> y ∈ l2 -> apart x y.
Proof.
  induction l1 as [|x l1 IH]; cbn.
  - split; [intros H; split_and!; [done..|intros ? ? []%not_elem_of_nil]|tauto].
  - rewrite IH, Forall_app, !Forall_forall. split.
    + intros [[H1 H2] (H3 & H4 & H5)]. split_and!; [done..|].
      intros a b [->|Ha]%elem_of_cons Hb; eauto.
    + intros [[H1 H2] [H3 H4]]. split_and!; try done.
      * intros y Hy. apply H4; [left|done].
      * intros a b Ha Hb. apply H4; [by right|done].
Qed.

Lemma disj_apart l x y : disj (x :: l) -> y ∈ l -> apart x y.
Proof. intros [H _] Hy. rewrite Forall_forall in H. by apply H. Qed.

Definition sizes (l : list (Z * Z)) : Z := foldr (fun x n => x.2 + n) 0 l.

Lemma sizes_app l1 l2 : sizes (l1 ++ l2) = sizes l1 + sizes l2.
Proof. unfold sizes. induction l1 as [|x l1 IH]; cbn; [done|]. rewrite IH. lia. Qed.

#[export] Instance sizes_perm : Proper ((≡ₚ) ==> (=)) sizes.
Proof. unfold sizes. induction 1; cbn; lia. Qed.

(** Regions inside of [a, b). *)
Definition inside (a b : Z) (l : list (Z * Z)) : Prop :=
  Forall (fun x => a <= x.1 /\ 0 <= x.2 /\ x.1 + x.2 <= b) l.

Lemma inside_sizes_nonneg a b l : inside a b l -> 0 <= sizes l.
Proof. unfold sizes. induction 1 as [|x l Hx _ IH]; cbn; lia. Qed.

(** The regions on the two sides of a region. *)
Lemma inside_split a b o s l : Forall (apart (o, s)) l -> inside a b l ->
  exists l1 l2, l ≡ₚ l1 ++ l2 /\ inside a o l1 /\ inside (o + s) b l2.
Proof.
  induction l as [|[o' s'] l IHl]; intros Hap Hin; [exists [], []; split_and!; constructor|].
  apply Forall_cons in Hap as [Hx Hap]. apply Forall_cons in Hin as [Hy Hin]. cbn in Hx, Hy.
  destruct (IHl Hap Hin) as (l1 & l2 & Hp & H1 & H2). unfold apart in Hx. cbn in Hx.
  destruct Hx as [Hx|Hx].
  - exists l1, ((o', s') :: l2). split_and!; [etrans; [apply perm_skip, Hp|apply Permutation_middle]|done|].
    constructor; [cbn; lia|done].
  - exists ((o', s') :: l1), l2. split_and!; [cbn; by apply perm_skip|constructor; [cbn; lia|done]|done].
Qed.

(** Regions that do not overlap take no more room than there is. *)
Lemma sizes_bound a b l : a <= b -> disj l -> inside a b l -> sizes l <= b - a.
Proof.
  remember (length l) as n eqn:Hn. revert a b l Hn. induction n as [n IH] using lt_wf_ind.
  intros a b l -> Hab Hd Hin. destruct l as [|[o s] l]; [cbn; lia|].
  destruct Hd as [Hap Hd]. apply Forall_cons in Hin as [Ho Hin]. cbn in Ho |- *.
  destruct (inside_split a b o s l Hap Hin) as (l1 & l2 & Hp & H1 & H2).
  rewrite Hp, sizes_app. rewrite Hp in Hd. apply disj_app in Hd as (Hd1 & Hd2 & _).
  apply Permutation_length in Hp. rewrite length_app in Hp.
  pose proof (IH (length l1) ltac:(cbn; lia) a o l1 eq_refl ltac:(lia) Hd1 H1).
  pose proof (IH (length l2) ltac:(cbn; lia) (o + s) b l2 eq_refl ltac:(lia) Hd2 H2). lia.
Qed.

(** The same two bytes at two places. *)
Lemma holds_get2byte d d' a a' b : zlen b = 2 -> holds d a b -> holds d' a' b ->
  get2byte d' a' = get2byte d a.
Proof.
  intros Lb (_ & _ & H) (_ & _ & H'). unfold get2byte.
  replace (rd d' a') with (rd d a) by (rewrite <- (Z.add_0_r a), <- (Z.add_0_r a'), H, H' by lia; done).
  by rewrite H, H' by lia.
Qed.

(** A copied block carries the blocks inside of it. *)
Lemma holds_inside d t a b x c : holds d a b -> holds t a b -> a <= x -> x + zlen c <= a + zlen b ->
  holds d x c -> holds t x c.
Proof.
  intros (Ha & _ & Hd) (_ & Lt & Ht) Hx Hl (_ & _ & Hc). split_and!; [lia|lia|].
  intros i Hi. rewrite <- Hc by done. replace (x + i) with (a + (x - a + i)) by lia.
  by rewrite Hd, Ht by lia.
Qed.

Lemma holds_bytes_ok d a c : bytes_ok d -> holds d a c -> bytes_ok c.
Proof.
  intros Hd (_ & _ & Hc). apply Forall_lookup_2. intros i x Hx.
  pose proof (lookup_lt_Some _ _ _ Hx). apply (rd_Forall is_byte d (a + Z.of_nat i)); [done|].
  rewrite Hc by (unfold zlen; lia). by rewrite rd_nat.
Qed.
