(* ===== verification/BtreePage.v ===== *)
(** * B-tree pages: the operations of [btree.c] on one page

    A [MemPage] holds the bytes of a page ([aData]) and what was decoded from
    them.  All offsets are indices into [aData]; an access outside of it is
    undefined, and so is a [memcpy] of a negative length.  Pointers to cells
    are lists of bytes.  The assertions are kept, but for the half of one in
    dropCell that bounds the offset from below ([pc>10]): the code can break it
    ([drop_cell_at_ten] of [BtreeEdit]).  The parent is the number of
    its page; [idxParent] belongs to the cursor ([BtreeCursor]).  [temp] is the
    scratch page of the pager with whatever it holds; [sqlite3PagerWrite]
    answers with a result code and leaves the bytes as they are.  [u16] fields are cut where the code stores into them. *)

From S2P Require Import Prelude Varint PageBytes.


Definition PTF_INTKEY : Z := 0x01.
Definition PTF_ZERODATA : Z := 0x02.
Definition PTF_LEAFDATA : Z := 0x04.
Definition PTF_LEAF : Z := 0x08.

(** What the pages use of the [BtShared]. *)
Record BtShared := mkBt {
  pageSize : Z;
  usableSize : Z;
  bt_maxLocal : Z;
  bt_minLocal : Z;
  maxLeaf : Z;
  minLeaf : Z;
  autoVacuum : bool;
}.

Record MemPage := mkPage {
  isInit : bool;
  idxShift : bool;
  intKey : bool;
  leaf : bool;
  zeroData : bool;
  leafData : bool;
  hasData : bool;
  hdrOffset : Z;
  childPtrSize : Z;
  maxLocal : Z;
  minLocal : Z;
  cellOffset : Z;
  nFree : Z;
  nCell : Z;
  aOvfl : list (list Z * Z);     (** [nOverflow] cells with their indices *)
  pgno : Z;
  pParent : option Z;
  aData : list Z;
}.

Definition nOverflow (p : MemPage) : Z := zlen (aOvfl p).

Definition set_data (d : list Z) (p : MemPage) : MemPage :=
  mkPage (isInit p) (idxShift p) (intKey p) (leaf p) (zeroData p) (leafData p) (hasData p)
    (hdrOffset p) (childPtrSize p) (maxLocal p) (minLocal p) (cellOffset p) (nFree p) (nCell p)
    (aOvfl p) (pgno p) (pParent p) d.
Definition set_nFree (n : Z) (p : MemPage) : MemPage :=
  mkPage (isInit p) (idxShift p) (intKey p) (leaf p) (zeroData p) (leafData p) (hasData p)
    (hdrOffset p) (childPtrSize p) (maxLocal p) (minLocal p) (cellOffset p) (u16 n) (nCell p)
    (aOvfl p) (pgno p) (pParent p) (aData p).
Definition set_nCell (n : Z) (p : MemPage) : MemPage :=
  mkPage (isInit p) (idxShift p) (intKey p) (leaf p) (zeroData p) (leafData p) (hasData p)
    (hdrOffset p) (childPtrSize p) (maxLocal p) (minLocal p) (cellOffset p) (nFree p) (u16 n)
    (aOvfl p) (pgno p) (pParent p) (aData p).
Definition set_idxShift (b : bool) (p : MemPage) : MemPage :=
  mkPage (isInit p) b (intKey p) (leaf p) (zeroData p) (leafData p) (hasData p)
    (hdrOffset p) (childPtrSize p) (maxLocal p) (minLocal p) (cellOffset p) (nFree p) (nCell p)
    (aOvfl p) (pgno p) (pParent p) (aData p).
Definition set_ovfl (l : list (list Z * Z)) (p : MemPage) : MemPage :=
  mkPage (isInit p) (idxShift p) (intKey p) (leaf p) (zeroData p) (leafData p) (hasData p)
    (hdrOffset p) (childPtrSize p) (maxLocal p) (minLocal p) (cellOffset p) (nFree p) (nCell p)
    l (pgno p) (pParent p) (aData p).

Definition b2z (b : bool) : Z := if b then 1 else 0.

(** ** Cells *)

Record CellInfo := mkInfo {
  nKey : Z;
  nData : Z;
  nPayload : Z;
  nHeader : Z;
  nLocal : Z;
  iOverflow : Z;
  nSize : Z;
}.

Section page.
Variable pBt : BtShared.

Definition sqlite3BtreeParseCellPtr (pPage : MemPage) (pCell : list Z) : res CellInfo :=
  let n := childPtrSize pPage in
  c_assert (n =? 4 - 4 * b2z (leaf pPage));;
  '(n, nPayload) ← (if hasData pPage then
                      '(k, v) ← getVarint32 (drop (Z.to_nat n) pCell); Ret (n + k, v)
                    else Ret (n, 0));
  let nData := nPayload in
  '(n, nKey, nPayload) ←
    (if intKey pPage then
       '(k, v) ← sqlite3GetVarint (drop (Z.to_nat n) pCell); Ret (n + k, s64 v, nPayload)
     else
       '(k, x) ← getVarint32 (drop (Z.to_nat n) pCell); Ret (n + k, x, u32 (nPayload + x)));
  if nPayload <=? maxLocal pPage then
    let nSize := u32 (nPayload + n) in
    let nSize := if nSize <? 4 then 4 else nSize in
    Ret (mkInfo nKey nData nPayload (u16 n) (u16 nPayload) 0 (u16 nSize))
  else
    let minLocal := minLocal pPage in
    let maxLocal := maxLocal pPage in
    m ← (if usableSize pBt =? 4 then UB else Ret (usableSize pBt - 4));
    let surplus := s32 (minLocal + u32 (nPayload - minLocal) mod u32 m) in
    let nLocal := u16 (if surplus <=? maxLocal then surplus else minLocal) in
    let iOverflow := u16 (nLocal + n) in
    Ret (mkInfo nKey nData nPayload (u16 n) nLocal iOverflow (u16 (iOverflow + 4))).

Definition cellSizePtr (pPage : MemPage) (pCell : list Z) : res Z :=
  info ← sqlite3BtreeParseCellPtr pPage pCell; Ret (nSize info).

(** The offset of the cell in [aData]. *)
Definition findCell (pPage : MemPage) (iCell : Z) : res Z :=
  get2byte (aData pPage) (cellOffset pPage + 2 * iCell).

(** For the assertions. *)
Definition cellSize (pPage : MemPage) (iCell : Z) : res Z :=
  pc ← findCell pPage iCell; cellSizePtr pPage (drop (Z.to_nat pc) (aData pPage)).

(** [for(i=nOverflow-1; i>=0; i--){ ... }], with the entries in reverse. *)
Fixpoint findOverflow_loop (ovfl : list (list Z * Z)) (iCell : Z) : (list Z) + Z :=
  match ovfl with
  | [] => inr iCell
  | (pCell, k) :: ovfl =>
      if k <=? iCell then
        if k =? iCell then inl pCell else findOverflow_loop ovfl (iCell - 1)
      else findOverflow_loop ovfl iCell
  end.

Definition findOverflowCell (pPage : MemPage) (iCell : Z) : res (list Z) :=
  match findOverflow_loop (reverse (aOvfl pPage)) iCell with
  | inl pCell => Ret pCell
  | inr iCell => pc ← findCell pPage iCell; Ret (drop (Z.to_nat pc) (aData pPage))
  end.

(** ** Space *)

(** The loop over the cells: the new bytes and [brk]. *)
Fixpoint defrag_loop (n : nat) (i : Z) (pPage : MemPage) (temp data : list Z) (brk : Z)
    : res (list Z * Z) :=
  match n with
  | O => Ret (data, brk)
  | S n =>
      let pAddr := cellOffset pPage + i * 2 in
      pc ← get2byte data pAddr;
      c_assert (pc <? usableSize pBt);;
      size ← cellSizePtr pPage (drop (Z.to_nat pc) temp);
      let brk := brk - size in
      c ← bytes_at temp pc size;
      data ← copy_to data brk c;
      data ← put2byte data pAddr brk;
      defrag_loop n (i + 1) pPage temp data brk
  end.

(** The header and the gap after the cells were moved. *)
Definition defrag_finish (data : list Z) (hdr addr brk : Z) : res (list Z) :=
  c_assert (addr <=? brk);;
  data ← put2byte data (hdr + 5) brk;
  data ← of_opt (wr data (hdr + 1) 0);
  data ← of_opt (wr data (hdr + 2) 0);
  data ← of_opt (wr data (hdr + 7) 0);
  z ← (if brk - addr <? 0 then UB else Ret (replicate (Z.to_nat (brk - addr)) 0));
  copy_to data addr z.

Definition defragmentPage (temp : list Z) (pPage : MemPage) : res MemPage :=
  c_assert (nOverflow pPage =? 0);;
  let data := aData pPage in
  let hdr := hdrOffset pPage in
  let cellOffset := cellOffset pPage in
  let nCell := nCell pPage in
  k ← get2byte data (hdr + 3);
  c_assert (nCell =? k);;
  let usableSize := usableSize pBt in
  brk ← get2byte data (hdr + 5);
  b ← bytes_at data brk (usableSize - brk);
  temp ← copy_to temp brk b;
  '(data, brk) ← defrag_loop (Z.to_nat nCell) 0 pPage temp data usableSize;
  data ← defrag_finish data hdr (cellOffset + 2 * nCell) brk;
  Ret (set_data data pPage).

(** [while( (pc = get2byte(&data[addr]))>0 ){ ... }]: the offset that is
    returned and the bytes, or nothing. *)
Fixpoint alloc_search (fuel : nat) (data : list Z) (hdr nFrag addr nByte : Z)
    : res (option (Z * list Z)) :=
  match fuel with
  | O => NoFuel
  | S fuel =>
      pc ← get2byte data addr;
      if 0 <? pc then
        size ← get2byte data (pc + 2);
        if nByte <=? size then
          if size <? nByte + 4 then
            b ← bytes_at data pc 2;
            data ← copy_to data addr b;
            data ← of_opt (wr data (hdr + 7) (u8 (nFrag + size - nByte)));
            Ret (Some (pc, data))
          else
            data ← put2byte data (pc + 2) (size - nByte);
            Ret (Some (pc + size - nByte, data))
        else alloc_search fuel data hdr nFrag pc nByte
      else Ret None
  end.

Definition allocateSpace (temp : list Z) (pPage : MemPage) (nByte : Z) : res (Z * MemPage) :=
  let nByte := if nByte <? 4 then 4 else nByte in
  if (nFree pPage <? nByte) || (0 <? nOverflow pPage) then Ret (0, pPage) else
  let pPage := set_nFree (nFree pPage - nByte) pPage in
  let hdr := hdrOffset pPage in
  nFrag ← of_opt (rd (aData pPage) (hdr + 7));
  found ← (if nFrag <? 60
           then alloc_search (S (length (aData pPage))) (aData pPage) hdr nFrag (hdr + 1) nByte
           else Ret None);
  match found with
  | Some (pc, data) => Ret (pc, set_data data pPage)
  | None =>
      top ← get2byte (aData pPage) (hdr + 5);
      nCell ← get2byte (aData pPage) (hdr + 3);
      let cellOffset := cellOffset pPage in
      '(top, pPage) ←
        (if (60 <=? nFrag) || (top - nByte <? cellOffset + 2 * nCell) then
           pPage ← defragmentPage temp pPage;
           top ← get2byte (aData pPage) (hdr + 5); Ret (top, pPage)
         else Ret (top, pPage));
      let top := top - nByte in
      c_assert (cellOffset + 2 * nCell <=? top);;
      data ← put2byte (aData pPage) (hdr + 5) top;
      Ret (top, set_data data pPage)
  end.

(** [while( (pbegin = get2byte(&data[addr]))<start && pbegin>0 ){ ... }]: the
    last [addr] and [pbegin]. *)
Fixpoint free_find (fuel : nat) (data : list Z) (start addr : Z) : res (Z * Z) :=
  match fuel with
  | O => NoFuel
  | S fuel =>
      pbegin ← get2byte data addr;
      if (pbegin <? start) && (0 <? pbegin) then
        c_assert (pbegin <=? usableSize pBt - 4);;
        c_assert (addr <? pbegin);;
        free_find fuel data start pbegin
      else Ret (addr, pbegin)
  end.

(** [while( (pbegin = get2byte(&data[addr]))>0 ){ ... }], which joins blocks. *)
Fixpoint free_coalesce (fuel : nat) (data : list Z) (hdr addr : Z) : res (list Z) :=
  match fuel with
  | O => NoFuel
  | S fuel =>
      pbegin ← get2byte data addr;
      if 0 <? pbegin then
        c_assert (addr <? pbegin);;
        c_assert (pbegin <=? usableSize pBt - 4);;
        pnext ← get2byte data pbegin;
        psize ← get2byte data (pbegin + 2);
        if (pnext <=? pbegin + psize + 3) && (0 <? pnext) then
          let frag := pnext - (pbegin + psize) in
          nFrag ← of_opt (rd data (hdr + 7));
          c_assert (frag <=? nFrag);;
          data ← of_opt (wr data (hdr + 7) (u8 (nFrag - frag)));
          next ← get2byte data pnext;
          data ← put2byte data pbegin next;
          nsize ← get2byte data (pnext + 2);
          data ← put2byte data (pbegin + 2) (pnext + nsize - pbegin);
          free_coalesce fuel data hdr addr
        else free_coalesce fuel data hdr pbegin
      else Ret data
  end.

(** A free block at the start of the content area is removed. *)
Definition free_top (data : list Z) (hdr : Z) : res (list Z) :=
  h1 ← of_opt (rd data (hdr + 1)); h5 ← of_opt (rd data (hdr + 5));
  h2 ← of_opt (rd data (hdr + 2)); h6 ← of_opt (rd data (hdr + 6));
  if (h1 =? h5) && (h2 =? h6) then
    pbegin ← get2byte data (hdr + 1);
    b ← bytes_at data pbegin 2;
    data ← copy_to data (hdr + 1) b;
    top ← get2byte data (hdr + 5);
    psize ← get2byte data (pbegin + 2);
    put2byte data (hdr + 5) (top + psize)
  else Ret data.

Definition freeSpace (pPage : MemPage) (start size : Z) : res MemPage :=
  let data := aData pPage in
  let hdr := hdrOffset pPage in
  c_assert (hdr + 6 + (if leaf pPage then 0 else 4) <=? start);;
  c_assert (start + size <=? usableSize pBt);;
  let size := if size <? 4 then 4 else size in
  '(addr, pbegin) ← free_find (S (length data)) data start (hdr + 1);
  c_assert (pbegin <=? usableSize pBt - 4);;
  c_assert ((addr <? pbegin) || (pbegin =? 0));;
  data ← put2byte data addr start;
  data ← put2byte data start pbegin;
  data ← put2byte data (start + 2) size;
  data ← free_coalesce (S (length data)) data hdr (hdr + 1);
  data ← free_top data hdr;
  Ret (set_data data (set_nFree (nFree pPage + size) pPage)).

(** ** Making and reading pages *)

Definition decodeFlags (pPage : MemPage) (flagByte : Z) : MemPage :=
  let intKey := negb (Z.land flagByte (Z.lor PTF_INTKEY PTF_LEAFDATA) =? 0) in
  let zeroData := negb (Z.land flagByte PTF_ZERODATA =? 0) in
  let leaf := negb (Z.land flagByte PTF_LEAF =? 0) in
  let leafData := negb (Z.land flagByte PTF_LEAFDATA =? 0) in
  mkPage (isInit pPage) (idxShift pPage) intKey leaf zeroData leafData
    (negb (zeroData || (negb leaf && leafData)))
    (hdrOffset pPage) (4 * b2z (negb leaf))
    (u16 (if leafData then maxLeaf pBt else bt_maxLocal pBt))
    (u16 (if leafData then minLeaf pBt else bt_minLocal pBt))
    (cellOffset pPage) (nFree pPage) (nCell pPage) (aOvfl pPage) (pgno pPage) (pParent pPage) (aData pPage).

Definition MX_CELL : Z := (pageSize pBt - 8) / 6.

(** [while( pc>0 ){ ... }]: the free bytes, or nothing for a corrupt list. *)
Fixpoint init_free (fuel : nat) (data : list Z) (pc nFree : Z) : res (option Z) :=
  match fuel with
  | O => NoFuel
  | S fuel =>
      if 0 <? pc then
        if usableSize pBt - 4 <? pc then Ret None else
        next ← get2byte data pc;
        size ← get2byte data (pc + 2);
        if (0 <? next) && (next <=? pc + size + 3) then Ret None
        else init_free fuel data next (nFree + size)
      else Ret (Some nFree)
  end.

(** The parent is given with its page number; [sqlite3PagerRef] only counts. *)
Definition sqlite3BtreeInitPage (pPage : MemPage) (parent : option Z) : res (Z * MemPage) :=
  if negb (bool_decide (pParent pPage = parent)) &&
     (negb (bool_decide (pParent pPage = None)) || isInit pPage) then Ret (SQLITE_CORRUPT, pPage) else
  if isInit pPage then Ret (SQLITE_OK, pPage) else
  let pParent := match pParent pPage with None => parent | Some _ => pParent pPage end in
  let hdr := hdrOffset pPage in
  let data := aData pPage in
  h0 ← of_opt (rd data hdr);
  let p := decodeFlags pPage h0 in
  let cellOffset := hdr + 12 - 4 * b2z (leaf p) in
  top ← get2byte data (hdr + 5);
  nCell ← get2byte data (hdr + 3);
  let page (init : bool) (nFree : Z) :=
    mkPage init false (intKey p) (leaf p) (zeroData p) (leafData p) (hasData p) hdr (childPtrSize p)
      (maxLocal p) (minLocal p) cellOffset nFree nCell [] (pgno p) pParent data in
  if MX_CELL <? nCell then Ret (SQLITE_CORRUPT, page false (nFree p)) else
  if (nCell =? 0) && match parent with Some pg => negb (pg =? 1) | None => false end
  then Ret (SQLITE_CORRUPT, page false (nFree p)) else
  pc ← get2byte data (hdr + 1);
  nFrag ← of_opt (rd data (hdr + 7));
  free ← init_free (S (length data)) data pc (nFrag + top - (cellOffset + 2 * nCell));
  match free with
  | None => Ret (SQLITE_CORRUPT, page false (nFree p))
  | Some nFree =>
      if usableSize pBt <=? nFree then Ret (SQLITE_CORRUPT, page false (u16 nFree))
      else Ret (SQLITE_OK, page true (u16 nFree))
  end.

Definition zeroPage (pPage : MemPage) (flags : Z) : res MemPage :=
  let data := aData pPage in
  let hdr := hdrOffset pPage in
  z ← (if usableSize pBt - hdr <? 0 then UB else Ret (replicate (Z.to_nat (usableSize pBt - hdr)) 0));
  data ← copy_to data hdr z;
  data ← of_opt (wr data hdr (u8 flags));
  let first := hdr + 8 + 4 * b2z (Z.land flags PTF_LEAF =? 0) in
  data ← copy_to data (hdr + 1) [0; 0; 0; 0];
  data ← of_opt (wr data (hdr + 7) 0);
  data ← put2byte data (hdr + 5) (usableSize pBt);
  let p := decodeFlags pPage flags in
  Ret (mkPage true false (intKey p) (leaf p) (zeroData p) (leafData p) (hasData p) hdr (childPtrSize p)
         (maxLocal p) (minLocal p) (u16 first) (u16 (usableSize pBt - first)) 0 [] (pgno p) (pParent p) data).

(** ** Cells in and out *)

(** [for(i=idx+1; i<nCell; i++, ptr+=2){ ptr[0] = ptr[2]; ptr[1] = ptr[3]; }] *)
Fixpoint drop_ptrs (n : nat) (data : list Z) (ptr : Z) : res (list Z) :=
  match n with
  | O => Ret data
  | S n =>
      x ← of_opt (rd data (ptr + 2)); data ← of_opt (wr data ptr x);
      y ← of_opt (rd data (ptr + 3)); data ← of_opt (wr data (ptr + 1) y);
      drop_ptrs n data (ptr + 2)
  end.

Definition dropCell (pPage : MemPage) (idx sz : Z) : res MemPage :=
  c_assert ((0 <=? idx) && (idx <? nCell pPage));;
  size ← cellSize pPage idx;
  c_assert (sz =? size);;
  let ptr := cellOffset pPage + 2 * idx in
  pc ← get2byte (aData pPage) ptr;
  c_assert (pc + sz <=? usableSize pBt);;
  pPage ← freeSpace pPage pc sz;
  data ← drop_ptrs (Z.to_nat (nCell pPage - (idx + 1))) (aData pPage) ptr;
  let pPage := set_nCell (nCell pPage - 1) pPage in
  data ← put2byte data (hdrOffset pPage + 3) (nCell pPage);
  Ret (set_idxShift true (set_nFree (nFree pPage + 2) (set_data data pPage))).

(** [for(j=end-2, ptr=&data[j]; j>ins; j-=2, ptr-=2){ ptr[0] = ptr[-2]; ptr[1] = ptr[-1]; }] *)
Fixpoint insert_ptrs (fuel : nat) (data : list Z) (j ins : Z) : res (list Z) :=
  match fuel with
  | O => NoFuel
  | S fuel =>
      if ins <? j then
        x ← of_opt (rd data (j - 2)); data ← of_opt (wr data j x);
        y ← of_opt (rd data (j - 1)); data ← of_opt (wr data (j + 1) y);
        insert_ptrs fuel data (j - 2) ins
      else Ret data
  end.

(** The pointer map, with its state, and the answer of [sqlite3PagerWrite]. *)
Context {St : Type} (ptrmapPut : St -> Z -> Z -> Z -> res (Z * St)).
Variable PagerWrite : Z.

Definition PTRMAP_OVERFLOW1 : Z := 3.

(** [pCell] from its first byte that is copied on; [pTemp] is its block. *)
Definition insertCell (temp : list Z) (st : St) (pPage : MemPage) (i : Z) (pCell : list Z) (sz : Z)
    (pTemp : option (list Z)) (nSkip : Z) : res (Z * MemPage * St) :=
  c_assert ((0 <=? i) && (i <=? nCell pPage + nOverflow pPage));;
  size ← cellSizePtr pPage pCell;
  c_assert (sz =? size);;
  if negb (nOverflow pPage =? 0) || (nFree pPage <? sz + 2) then
    pCell ← (match pTemp with
             | Some pTemp => b ← bytes_at pCell nSkip (sz - nSkip); copy_to pTemp nSkip b
             | None => Ret pCell
             end);
    let j := nOverflow pPage in
    c_assert (j <? 5);;
    Ret (SQLITE_OK, set_nFree 0 (set_ovfl (aOvfl pPage ++ [(pCell, u16 i)]) pPage), st)
  else
    if negb (PagerWrite =? SQLITE_OK) then Ret (PagerWrite, pPage, st) else
    let hdr := hdrOffset pPage in
    top ← get2byte (aData pPage) (hdr + 5);
    let end_ := cellOffset pPage + 2 * nCell pPage + 2 in
    let ins := cellOffset pPage + 2 * i in
    pPage ← (if top - sz <? end_ then
               pPage ← defragmentPage temp pPage;
               top ← get2byte (aData pPage) (hdr + 5);
               c_assert (end_ + sz <=? top);;
               Ret pPage
             else Ret pPage);
    '(idx, pPage) ← allocateSpace temp pPage sz;
    c_assert (0 <? idx);;
    t ← get2byte (aData pPage) (hdr + 5);
    c_assert (end_ <=? t);;
    let pPage := set_nCell (nCell pPage + 1) pPage in
    let pPage := set_nFree (nFree pPage - 2) pPage in
    b ← bytes_at pCell nSkip (sz - nSkip);
    data ← copy_to (aData pPage) (idx + nSkip) b;
    data ← insert_ptrs (S (length data)) data (end_ - 2) ins;
    data ← put2byte data ins idx;
    data ← put2byte data (hdr + 3) (nCell pPage);
    let pPage := set_idxShift true (set_data data pPage) in
    if autoVacuum pBt then
      info ← sqlite3BtreeParseCellPtr pPage pCell;
      let n := s64 (nData info + (if intKey pPage then 0 else nKey info)) in
      c_assert (n =? nPayload info);;
      if nLocal info <? n then
        pgnoOvfl ← sqlite3Get4byte (drop (Z.to_nat (iOverflow info)) pCell);
        '(rc, st) ← ptrmapPut st pgnoOvfl PTRMAP_OVERFLOW1 (pgno pPage);
        Ret (rc, pPage, st)
      else Ret (SQLITE_OK, pPage, st)
    else Ret (SQLITE_OK, pPage, st).

End page.
