(* ===== verification/BtreeParse.v ===== *)
(** * The cells of a b-tree page: their headers and what they keep on the page

    The header that [fillInCell] writes is read back by
    [sqlite3BtreeParseCellPtr], and the part of the payload that stays on the
    page is within its bounds and leaves whole overflow pages. *)

From S2P Require Import Prelude Varint PageBytes BtreePage.

Section parse.
Context (pBt : BtShared).

(** The first part of [fillInCell]: the header in the buffer [pCell] and
    [nHeader]. *)
Definition fill_header (pPage : MemPage) (pCell : list Z) (nKey nData nZero : Z) : res (list Z * Z) :=
  let nHeader := if negb (leaf pPage) then 4 else 0 in
  '(pCell, nHeader) ←
    (if hasData pPage then
       bs ← sqlite3PutVarint (u64 (s32 (nData + nZero)));
       pCell ← copy_to pCell nHeader bs; Ret (pCell, nHeader + zlen bs)
     else Ret (pCell, nHeader));
  bs ← sqlite3PutVarint (u64 nKey);
  pCell ← copy_to pCell nHeader bs; Ret (pCell, nHeader + zlen bs).

(** The payload of [n] bytes that stays on the page. *)
Definition local_size (p : MemPage) (n : Z) : Z :=
  if n <=? maxLocal p then n else
  let surplus := minLocal p + (n - minLocal p) mod (usableSize pBt - 4) in
  if surplus <=? maxLocal p then surplus else minLocal p.

(** A page whose fields are as [decodeFlags] sets them for a sane [BtShared]. *)
Definition sane (p : MemPage) : Prop :=
  childPtrSize p = 4 - 4 * b2z (leaf p) /\ 0 <= minLocal p <= maxLocal p /\ maxLocal p + 35 <= usableSize pBt /\
  480 <= usableSize pBt <= 32768.

(** What the header of a cell says. *)
Definition payload (p : MemPage) (nKey nData : Z) : Z := nData + if intKey p then 0 else nKey.

Definition cell_args (p : MemPage) (nKey nData : Z) : Prop :=
  (if hasData p then 0 <= nData else nData = 0) /\
  (if intKey p then - 2 ^ 63 <= nKey < 2 ^ 63 else 0 <= nKey) /\ payload p nKey nData < 2 ^ 31.

Definition header_bytes (p : MemPage) (nKey nData : Z) : list Z :=
  (if hasData p then varint_encode nData else []) ++ varint_encode (u64 nKey).

Definition cell_info (p : MemPage) (nKey nData h : Z) : CellInfo :=
  let n := payload p nKey nData in
  let l := local_size p n in
  mkInfo nKey nData n h l (if n <=? maxLocal p then 0 else h + l)
    (if n <=? maxLocal p then Z.max 4 (n + h) else h + l + 4).

Lemma local_size_bounds p n : sane p -> 0 <= n ->
  Z.min n (minLocal p) <= local_size p n <= Z.min n (maxLocal p) /\
  (local_size p n = n \/ local_size p n = minLocal p \/ (n - local_size p n) mod (usableSize pBt - 4) = 0).
Proof.
  intros (_ & Hm & Hu & Hu') Hn. unfold local_size. destruct (Z.leb_spec n (maxLocal p)); [lia|].
  pose proof (Z.mod_pos_bound (n - minLocal p) (usableSize pBt - 4) ltac:(lia)) as Hb.
  pose proof (Z.mod_le (n - minLocal p) (usableSize pBt - 4) ltac:(lia) ltac:(lia)) as Hle.
  destruct (Z.leb_spec (minLocal p + (n - minLocal p) mod (usableSize pBt - 4)) (maxLocal p)); [|lia].
  split; [lia|]. right. right.
  replace (n - (minLocal p + (n - minLocal p) mod (usableSize pBt - 4)))
    with ((n - minLocal p) / (usableSize pBt - 4) * (usableSize pBt - 4)); [apply Z.mod_mul; lia|].
  pose proof (Z.div_mod (n - minLocal p) (usableSize pBt - 4) ltac:(lia)). lia.
Qed.

Lemma u64_s64 k : - 2 ^ 63 <= k < 2 ^ 63 -> s64 (u64 k) = k /\ is_u64 (u64 k).
Proof. intros H. unfold s64, u64, is_u64. split; Z.to_euclidean_division_equations; lia. Qed.

Lemma key_u64 p nKey nData : cell_args p nKey nData -> is_u64 (u64 nKey) /\
  if intKey p then s64 (u64 nKey) = nKey else u64 nKey = nKey /\ is_u32 nKey.
Proof.
  intros (Hd & Hk & Hn). unfold payload in Hn. destruct (intKey p); [destruct (u64_s64 nKey); [lia|done]|].
  assert (0 <= nData) by (destruct (hasData p); lia). unfold is_u64, is_u32, u64. rewrite Z.mod_small by lia. lia.
Qed.

Lemma header_bytes_ok p nKey nData : cell_args p nKey nData ->
  bytes_ok (header_bytes p nKey nData) /\ 1 <= zlen (header_bytes p nKey nData) <= 18.
Proof.
  intros Ha. destruct (key_u64 _ _ _ Ha) as [Hk _]. destruct Ha as (Hd & Hk' & Hn). unfold payload in Hn.
  pose proof (varint_encode_bytes _ Hk). pose proof (varint_encode_length _ Hk). unfold header_bytes. rewrite zlen_app.
  destruct (hasData p); [|split; [done|change (zlen []) with 0; lia]].
  assert (is_u64 nData) as Hu by (unfold is_u64; destruct (intKey p); lia).
  pose proof (varint_encode_bytes _ Hu). pose proof (varint_encode_length _ Hu). split; [by apply Forall_app|lia].
Qed.

Lemma getVarint32_encode v rest : is_u32 v -> bytes_ok rest ->
  getVarint32 (varint_encode v ++ rest) = Ret (zlen (varint_encode v), v).
Proof.
  intros Hv Hr. assert (is_u64 v) as Hv' by (unfold is_u32, is_u64 in *; lia).
  rewrite getVarint32_spec, varint_decode_encode; [by simpl; rewrite u32_id|done|].
  apply Forall_app. split; [by apply varint_encode_bytes|done].
Qed.

Lemma getVarint_encode v rest : is_u64 v -> bytes_ok rest ->
  sqlite3GetVarint (varint_encode v ++ rest) = Ret (zlen (varint_encode v), v).
Proof.
  intros Hv Hr. rewrite get_varint_spec, varint_decode_encode; [done|done|].
  apply Forall_app. split; [by apply varint_encode_bytes|done].
Qed.

Lemma drop_zlen {A} (l1 l2 : list A) n : n = zlen l1 -> drop (Z.to_nat n) (l1 ++ l2) = l2.
Proof. intros ->. unfold zlen. rewrite Nat2Z.id. apply drop_app_length. Qed.

Lemma u16_id n : 0 <= n < 65536 -> u16 n = n.
Proof. intros. unfold u16. by apply Z.mod_small. Qed.

(** The last part: sizes from the numbers of the header. *)
Lemma cell_sizes_ok p nKey nData h : sane p -> cell_args p nKey nData -> 0 <= h <= 22 ->
  let nPayload := payload p nKey nData in
  (if nPayload <=? maxLocal p then
    let nSize := u32 (nPayload + h) in
    let nSize := if nSize <? 4 then 4 else nSize in
    Ret (mkInfo nKey nData nPayload (u16 h) (u16 nPayload) 0 (u16 nSize))
  else
    m ← (if usableSize pBt =? 4 then UB else Ret (usableSize pBt - 4));
    let surplus := s32 (minLocal p + u32 (nPayload - minLocal p) mod u32 m) in
    let nLocal := u16 (if surplus <=? maxLocal p then surplus else minLocal p) in
    let iOverflow := u16 (nLocal + h) in
    Ret (mkInfo nKey nData nPayload (u16 h) nLocal iOverflow (u16 (iOverflow + 4)))) =
  Ret (cell_info p nKey nData h).
Proof.
  intros Hs (Hd & Hk & Hn) Hh nPayload.
  assert (0 <= nPayload < 2 ^ 31) as Hp
    by (unfold nPayload, payload in *; destruct (hasData p), (intKey p); lia).
  pose proof (local_size_bounds p nPayload Hs ltac:(lia)) as [Hb _]. destruct Hs as (_ & Hm & Hu & Hu').
  unfold cell_info. fold nPayload. unfold local_size in Hb |- *. rewrite (u16_id h) by lia.
  destruct (Z.leb_spec nPayload (maxLocal p)).
  - rewrite u32_id by (unfold is_u32; lia). rewrite (u16_id nPayload) by lia.
    replace (if nPayload + h <? 4 then 4 else nPayload + h) with (Z.max 4 (nPayload + h)) by (destruct (Z.ltb_spec (nPayload + h) 4); lia).
    by rewrite u16_id by lia.
  - rewrite (proj2 (Z.eqb_neq _ 4)) by lia. crun. rewrite !u32_id by (unfold is_u32; lia).
    pose proof (Z.mod_pos_bound (nPayload - minLocal p) (usableSize pBt - 4) ltac:(lia)).
    set (sur := minLocal p + _) in *. replace (s32 sur) with sur by (unfold s32; rewrite Z.mod_small; lia).
    set (l := if sur <=? maxLocal p then sur else minLocal p) in *. rewrite (u16_id l) by lia.
    rewrite (Z.add_comm l h). rewrite (u16_id (h + l)) by lia. by rewrite u16_id by lia.
Qed.

Lemma parse_cell_ok p pre rest nKey nData : sane p -> cell_args p nKey nData -> zlen pre = childPtrSize p ->
  bytes_ok rest ->
  sqlite3BtreeParseCellPtr pBt p (pre ++ header_bytes p nKey nData ++ rest) =
  Ret (cell_info p nKey nData (zlen pre + zlen (header_bytes p nKey nData))).
Proof.
  intros Hs Ha Hpre Hr. pose proof Hs as (Hc & _). pose proof (header_bytes_ok _ _ _ Ha) as [Hhb Hhl].
  destruct (key_u64 _ _ _ Ha) as [Hku Hk].
  unfold sqlite3BtreeParseCellPtr. rewrite (proj2 (Z.eqb_eq _ _) Hc). crun. rewrite drop_zlen by done.
  pose proof (zlen_nonneg pre).
  assert (zlen pre <= 4) as Hpre4 by (rewrite Hpre, Hc; unfold b2z; destruct (leaf p); lia).
  unfold header_bytes in *. set (hd := if hasData p then varint_encode nData else []) in *.
  set (kv := varint_encode (u64 nKey)) in *. rewrite <- app_assoc. rewrite zlen_app in *.
  apply Forall_app in Hhb as [Hb1 Hb2].
  assert (bytes_ok (kv ++ rest)) as Hb3 by (by apply Forall_app).
  pose proof Ha as (Hd & Hki & Hn). unfold payload in Hn.
  assert ((if hasData p then '(k, v) ← getVarint32 (hd ++ kv ++ rest); Ret (childPtrSize p + k, v)
           else Ret (childPtrSize p, 0)) = Ret (zlen (pre ++ hd), nData)) as ->.
  { rewrite zlen_app, <- Hpre. unfold hd. destruct (hasData p); [|subst nData; by rewrite Z.add_0_r].
    rewrite getVarint32_encode; [by crun|unfold is_u32; destruct (intKey p); lia|done]. }
  crun. rewrite app_assoc, drop_zlen by done.
  set (h := zlen pre + (zlen hd + zlen kv)).
  assert ((if intKey p then
      '(k, v) ← sqlite3GetVarint (kv ++ rest); Ret (zlen (pre ++ hd) + k, s64 v, nData)
    else
      '(k, x) ← getVarint32 (kv ++ rest); Ret (zlen (pre ++ hd) + k, x, u32 (nData + x))) =
    Ret (h, nKey, payload p nKey nData)) as ->.
  { unfold payload, h. rewrite zlen_app. destruct (intKey p).
    - unfold kv. rewrite getVarint_encode by done. crun. rewrite Hk. do 3 f_equal; lia.
    - destruct Hk as [Hk1 Hk2]. unfold kv. rewrite Hk1, getVarint32_encode by done. crun.
      assert (0 <= nData) by (destruct (hasData p); lia). rewrite u32_id by (unfold is_u32; lia). do 3 f_equal; lia. }
  crun. apply cell_sizes_ok; [done|done|unfold h; lia].
Qed.

(** The bytes at an offset, as a split of the whole. *)
Lemma holds_split d a c : bytes_ok d -> holds d a c -> exists pre rest, d = pre ++ c ++ rest /\ zlen pre = a /\ bytes_ok rest.
Proof.
  intros Hd Hc. destruct (holds_drop _ _ _ Hc) as [rest E]. destruct Hc as (Ha & Hl & _). pose proof (zlen_nonneg c).
  exists (take (Z.to_nat a) d), rest. rewrite <- E, take_drop. split_and!; [done|unfold zlen in *; rewrite length_take; lia|].
  apply (Forall_drop _ (Z.to_nat a)) in Hd. rewrite E in Hd. by apply Forall_app in Hd as [_ ?].
Qed.

Lemma fill_header_ok p pCell nKey nData nZero : sane p ->
  cell_args p nKey (if hasData p then nData + nZero else 0) -> bytes_ok pCell -> 22 <= zlen pCell ->
  exists pCell', fill_header p pCell nKey nData nZero =
      Ret (pCell', childPtrSize p + zlen (header_bytes p nKey (if hasData p then nData + nZero else 0))) /\
    bytes_ok pCell' /\ holds pCell' (childPtrSize p) (header_bytes p nKey (if hasData p then nData + nZero else 0)) /\
    same_outside pCell pCell' (childPtrSize p)
      (childPtrSize p + zlen (header_bytes p nKey (if hasData p then nData + nZero else 0))).
Proof.
  intros (Hc & _) Ha Hb Hl. pose proof (header_bytes_ok _ _ _ Ha) as [Hhb Hhl].
  destruct (key_u64 _ _ _ Ha) as [Hku _]. destruct Ha as (Hd & Hki & Hn). unfold payload in Hn.
  unfold fill_header, header_bytes in *. rewrite zlen_app in *.
  set (kv := varint_encode (u64 nKey)) in *. set (c := childPtrSize p) in *.
  assert (0 <= c <= 4) by (rewrite Hc; unfold b2z; destruct (leaf p); lia).
  replace (if negb (leaf p) then 4 else 0) with c by (rewrite Hc; by destruct (leaf p)).
  rewrite put_varint_spec by done. fold kv.
  destruct (hasData p).
  - set (x := nData + nZero) in *. assert (0 <= x < 2 ^ 31) as Hx by (destruct (intKey p); lia).
    replace (s32 x) with x by (unfold s32; rewrite Z.mod_small; lia).
    assert (u64 x = x) as Ex by (unfold u64; rewrite Z.mod_small; lia). rewrite Ex, put_varint_spec by (unfold is_u64; lia). crun.
    apply Forall_app in Hhb as [Hb1 Hb2]. set (hd := varint_encode x) in *. pose proof (zlen_nonneg kv). pose proof (zlen_nonneg hd).
    destruct (copy_to_ok hd pCell c) as (d1 & -> & Hh1 & B1 & O1); [done|done|lia|lia|]. crun. pose proof O1 as [L1 O1'].
    destruct (copy_to_ok kv d1 (c + zlen hd)) as (d2 & -> & Hh2 & B2 & O2); [done|done|lia|lia|]. crun. pose proof O2 as [L2 O2'].
    exists d2. split_and!; [do 2 f_equal; lia|done| |].
    + apply holds_app; [|done]. apply (holds_frame _ _ _ _ _ _ O2); [lia|done].
    + split; [congruence|]. intros i Hi. rewrite O2', O1' by lia. done.
  - cbn [app] in *. change (zlen []) with 0 in *. crun. pose proof (zlen_nonneg kv).
    destruct (copy_to_ok kv pCell c) as (d1 & -> & Hh1 & B1 & O1); [done|done|lia|lia|]. crun.
    exists d1. rewrite Z.add_0_l. done.
Qed.
End parse.

(** The header that [fillInCell] writes is read back by
    [sqlite3BtreeParseCellPtr] as the key, the size of the data and the size
    of the header, on all four kinds of pages.  The payload that stays on the
    page is all of it up to [maxLocal]; else it is between [minLocal] and
    [maxLocal] and, when it is not the least, what is left over fills whole
    overflow pages.  The sizes do not overflow their 16 bits, and the cell is
    the header, the local payload and the number of the overflow page, but at
    least four bytes. *)
Lemma cell_header_roundtrip pBt p pCell nKey nData nZero : sane pBt p ->
  cell_args p nKey (if hasData p then nData + nZero else 0) -> bytes_ok pCell -> 22 <= zlen pCell ->
  let d := if hasData p then nData + nZero else 0 in
  let n := payload p nKey d in
  exists pCell' h l, fill_header p pCell nKey nData nZero = Ret (pCell', h) /\ zlen pCell' = zlen pCell /\
    sqlite3BtreeParseCellPtr pBt p pCell' = Ret (mkInfo nKey d n h l (if n <=? maxLocal p then 0 else h + l)
      (if n <=? maxLocal p then Z.max 4 (n + h) else h + l + 4)) /\ h <= 22 /\
    (n <= maxLocal p -> l = n) /\ (maxLocal p < n -> minLocal p <= l <= maxLocal p) /\
    (l = n \/ l = minLocal p \/ (n - l) mod (usableSize pBt - 4) = 0).
Proof.
  intros Hs Ha Hb Hl d n. destruct (fill_header_ok pBt p pCell nKey nData nZero) as (pCell' & E & B & H & [L _]); [done..|].
  fold d in E, H, Ha. destruct (holds_split _ _ _ B H) as (pre & rest & -> & Hpre & Hr).
  pose proof (header_bytes_ok _ _ _ Ha) as [_ Hhl]. pose proof Hs as (Hc & Hm & _).
  assert (0 <= n) by (destruct Ha as (Hd & Hk & _); unfold n, payload, d in *; destruct (hasData p), (intKey p); lia).
  destruct (local_size_bounds pBt p n Hs ltac:(done)) as [Hlb Hlr].
  eexists _, _, (local_size pBt p n). split; [exact E|]. split; [done|].
  split; [rewrite parse_cell_ok by done; unfold cell_info; fold n; by rewrite <- Hpre|].
  unfold b2z in Hc. split; [destruct (leaf p); lia|]. split; [unfold local_size; intros; by rewrite (proj2 (Z.leb_le _ _)) by done|].
  split; [lia|done].
Qed.

(** A table leaf of 512 bytes, and a cell with more than fits. *)
Definition ex_bt : BtShared := mkBt 512 512 102 39 477 39 false.
Definition ex_raw : MemPage :=
  mkPage false false false false false false false 0 0 0 0 0 0 0 [] 2 None (replicate 512 7).

Lemma ex_sane : sane ex_bt (decodeFlags ex_bt ex_raw 13).
Proof. split_and!; vm_compute; congruence. Qed.

Lemma cell_header_roundtrip_witness :
  exists pCell' h l, fill_header (decodeFlags ex_bt ex_raw 13) (replicate 30 0) (-5) 1000 200 = Ret (pCell', h) /\
    sqlite3BtreeParseCellPtr ex_bt (decodeFlags ex_bt ex_raw 13) pCell' =
      Ret (mkInfo (-5) 1200 1200 h l (h + l) (h + l + 4)) /\ h <= 22 /\ (1200 - l) mod 508 = 0.
Proof.
  destruct (cell_header_roundtrip ex_bt (decodeFlags ex_bt ex_raw 13) (replicate 30 0) (-5) 1000 200 ex_sane)
    as (pCell' & h & l & E & _ & E' & Hh & _ & _ & Hl).
  - repeat split; vm_compute; congruence.
  - apply Forall_replicate. unfold is_byte. lia.
  - vm_compute. congruence.
  - exists pCell', h, l. split_and!; [done..|].
    assert (l = 184) as -> by (vm_compute in E; injection E as <- <-; vm_compute in E'; by injection E' as <-). done.
Defined.
