(* ===== verification/BtreeSpace.v ===== *)
(** * Space on a b-tree page

    The invariant of the space of a page and the proofs that [allocateSpace]
    and [freeSpace] keep it.  The content area of a page, from [top] to the
    end, is cut into the regions in use, the free blocks, which form a list
    through their first four bytes, and fragments of up to three bytes, which
    are only counted.  [layout p k used free top] says so for a page with [k]
    cell pointers. *)

From S2P Require Import Prelude Varint PageBytes BtreePage.

(** ** The list of free blocks *)

Notation region := (Z * Z)%type.

(** The free blocks that the link at [a] leads to. *)
Fixpoint chain (d : list Z) (a : Z) (l : list region) : Prop :=
  match l with
  | [] => get2byte d a = Ret 0
  | x :: l => get2byte d a = Ret x.1 /\ get2byte d (x.1 + 2) = Ret x.2 /\ chain d x.1 l
  end.

(** The first links of a longer list. *)
Fixpoint links (d : list Z) (a : Z) (l : list region) : Prop :=
  match l with
  | [] => True
  | x :: l => get2byte d a = Ret x.1 /\ get2byte d (x.1 + 2) = Ret x.2 /\ links d x.1 l
  end.

(** Where the link behind the blocks [l] is. *)
Fixpoint link_of (a : Z) (l : list region) : Z :=
  match l with [] => a | x :: l => link_of x.1 l end.

(** What the link to the blocks [l] holds. *)
Definition link_to (l : list region) : Z := match l with [] => 0 | x :: _ => x.1 end.

Lemma chain_app d a l1 l2 : chain d a (l1 ++ l2) <-> links d a l1 /\ chain d (link_of a l1) l2.
Proof. revert a. induction l1 as [|x l1 IH]; intros a; cbn; [tauto|]. rewrite IH. tauto. Qed.

Lemma chain_link d a l : chain d a l -> get2byte d a = Ret (link_to l).
Proof. destruct l; cbn; tauto. Qed.

(** Blocks in ascending order from [lo] on. *)
Fixpoint asc (lo : Z) (l : list region) : Prop :=
  match l with [] => True | x :: l => lo <= x.1 /\ asc (x.1 + x.2) l end.

(** More than three bytes between the blocks. *)
Fixpoint spaced (l : list region) : Prop :=
  match l with
  | [] => True
  | x :: l => match l with [] => True | y :: _ => x.1 + x.2 + 3 < y.1 end /\ spaced l
  end.

Lemma asc_mono lo lo' l : lo' <= lo -> asc lo l -> asc lo' l.
Proof. destruct l; cbn; [done|]. intros ? []. split; [lia|done]. Qed.

Lemma asc_Forall lo l : asc lo l -> Forall (fun x => 4 <= x.2) l -> Forall (fun x => lo <= x.1) l.
Proof.
  revert lo. induction l as [|x l IH]; intros lo Ha Hs; [constructor|].
  destruct Ha as [Hx Ha]. apply Forall_cons in Hs as [Hx4 Hs]. constructor; [done|].
  eapply Forall_impl; [by apply (IH (x.1 + x.2))|]. cbn. intros; lia.
Qed.

Lemma asc_app lo l1 x l2 : asc lo (l1 ++ x :: l2) -> Forall (fun x => 4 <= x.2) (l1 ++ x :: l2) ->
  Forall (fun y => y.1 + y.2 <= x.1) l1 /\ asc (x.1 + x.2) l2 /\ lo <= x.1.
Proof.
  revert lo. induction l1 as [|y l1 IH]; intros lo Ha Hs.
  - destruct Ha as [? ?]. by split_and!; [constructor| |].
  - destruct Ha as [Hy Ha]. apply Forall_cons in Hs as [Hy4 Hs]. cbn in Ha.
    destruct (IH _ Ha Hs) as (H1 & H2 & H3). split_and!; [by constructor|done|lia].
Qed.

(** Writes that spare the links of a list leave the list alone. *)
Definition spares (d d' : list Z) (x : region) : Prop :=
  get2byte d' x.1 = get2byte d x.1 /\ get2byte d' (x.1 + 2) = get2byte d (x.1 + 2).

Lemma chain_frame d d' a l : get2byte d' a = get2byte d a -> Forall (spares d d') l ->
  chain d a l -> chain d' a l.
Proof.
  revert a. induction l as [|x l IH]; intros a Ha Hl; cbn; [by rewrite Ha|].
  apply Forall_cons in Hl as [[Hx1 Hx2] Hl]. rewrite Ha, Hx2. intros (? & ? & ?).
  split_and!; [done..|]. by apply IH.
Qed.

(** A list hung up at another link. *)
Lemma chain_move d d' a b l : get2byte d' a = Ret (link_to l) -> Forall (spares d d') l ->
  chain d b l -> chain d' a l.
Proof.
  destruct l as [|x l]; cbn; [done|]. intros Ha [[Hx1 Hx2] Hl]%Forall_cons (_ & H2 & Hc).
  split_and!; [done|by rewrite Hx2|]. by apply (chain_frame d).
Qed.

(** The link behind the last block may change. *)
Lemma links_frame d d' a l : get2byte d' a = get2byte d a \/ l = [] ->
  Forall (fun x => get2byte d' (x.1 + 2) = get2byte d (x.1 + 2)) l ->
  Forall (fun x => x.1 = link_of a l \/ get2byte d' x.1 = get2byte d x.1) l ->
  asc (a + 2) l -> Forall (fun x => 4 <= x.2) l ->
  links d a l -> links d' a l.
Proof.
  revert a. induction l as [|x l IH]; intros a Ha H2 H1 Hasc Hs; [done|].
  cbn. destruct Ha as [Ha|]; [|done].
  apply Forall_cons in H2 as [Hx2 H2]. apply Forall_cons in H1 as [Hx1 H1].
  apply Forall_cons in Hs as [Hx4 Hs]. destruct Hasc as [Hlo Hasc].
  rewrite Ha, Hx2. intros (? & ? & ?). split_and!; [done..|].
  apply IH; try done; [|eapply asc_mono; [|done]; lia].
  destruct l as [|y l]; [by right|left].
  destruct Hx1 as [Hx1|]; [|done]. exfalso. cbn in Hx1.
  assert (Forall (fun z => x.1 < z.1) (y :: l)) as Hgt.
  { eapply Forall_impl; [by apply (asc_Forall (x.1 + x.2))|]. cbn. intros; lia. }
  assert (forall m b, Forall (fun z => b < z.1) m -> b < link_of b m \/ m = []) as Hlink.
  { clear. intros m b Hm. destruct m as [|z m]; [by right|left]. cbn.
    apply Forall_cons in Hm as [Hz Hm]. revert z Hz. induction Hm as [|w m Hw Hm IHm]; intros z Hz; [done|].
    cbn. by apply IHm. }
  destruct (Hlink (y :: l) x.1 Hgt) as [Hlt|]; [cbn in Hlt; lia|done].
Qed.

(** ** The content area *)

Definition in_area (top usable : Z) (x : region) : Prop :=
  top <= x.1 /\ 4 <= x.2 /\ x.1 + x.2 <= usable.

(** The regions of the area and the bytes that are left over. *)
Definition content (top usable : Z) (l : list region) (frag : Z) : Prop :=
  disj l /\ Forall (in_area top usable) l /\ frag = usable - top - sizes l.

Lemma content_perm top usable l l' f : l ≡ₚ l' -> content top usable l f -> content top usable l' f.
Proof. intros Hp (H1 & H2 & H3). unfold content. rewrite <- Hp. done. Qed.

Lemma in_area_inside top usable l : Forall (in_area top usable) l -> inside top usable l.
Proof. intros H. eapply Forall_impl; [done|]. unfold in_area. intros; lia. Qed.

Lemma content_frag top usable l f : top <= usable -> content top usable l f -> 0 <= f.
Proof.
  intros Ht (H1 & H2 & ->). pose proof (sizes_bound top usable l Ht H1 (in_area_inside _ _ _ H2)). lia.
Qed.

Lemma area_sizes top usable l : Forall (in_area top usable) l -> 4 * zlen l <= sizes l.
Proof.
  induction 1 as [|x l Hx _ IH]; [done|]. rewrite zlen_cons. unfold sizes in *. cbn. unfold in_area in Hx. lia.
Qed.

Lemma content_length top usable l f : top <= usable -> content top usable l f -> 4 * zlen l <= usable - top.
Proof.
  intros Ht H. pose proof (content_frag _ _ _ _ Ht H). destruct H as (_ & H2 & ->).
  pose proof (area_sizes _ _ _ H2). lia.
Qed.

(** A block joined with the next one takes over the bytes between them. *)
Lemma content_join top usable O x y r f :
  content top usable (O ++ x :: y :: r) f -> x.1 + x.2 <= y.1 -> y.1 <= x.1 + x.2 + 3 ->
  content top usable (O ++ (x.1, y.1 + y.2 - x.1) :: r) (f - (y.1 - (x.1 + x.2))).
Proof.
  intros H Hxy Hclose.
  assert (O ++ x :: y :: r ≡ₚ x :: y :: (O ++ r)) as Hp
    by (rewrite <- Permutation_middle; apply perm_skip; by rewrite <- Permutation_middle).
  apply (content_perm _ _ _ _ _ Hp) in H. eapply content_perm; [apply Permutation_middle|].
  destruct H as ([[_ Hx]%Forall_cons [Hy Hd]] & Hin & ->).
  apply Forall_cons in Hin as [Hix Hin]. apply Forall_cons in Hin as [Hiy Hin].
  split_and!.
  - split; [|done]. rewrite Forall_forall in Hx, Hy, Hin |- *. intros z Hz.
    specialize (Hx z Hz). specialize (Hy z Hz). specialize (Hin z Hz).
    unfold apart, in_area in *. cbn. lia.
  - constructor; [|done]. unfold in_area in *. cbn. lia.
  - unfold sizes in *. cbn. lia.
Qed.

(** The list with close blocks joined. *)
Fixpoint joined_from (x : region) (l : list region) : list region :=
  match l with
  | [] => [x]
  | y :: l => if y.1 <=? x.1 + x.2 + 3 then joined_from (x.1, y.1 + y.2 - x.1) l
              else x :: joined_from y l
  end.
Definition joined (l : list region) : list region :=
  match l with [] => [] | x :: l => joined_from x l end.

Lemma joined_from_head x l : exists s l', joined_from x l = (x.1, s) :: l'.
Proof.
  revert x. induction l as [|y l IH]; intros [o s]; cbn; [eauto|].
  case_match; [apply (IH (o, _))|eauto].
Qed.

Lemma joined_spaced x l : spaced (joined_from x l).
Proof.
  revert x. induction l as [|y l IH]; intros x; cbn; [done|].
  destruct (Z.leb_spec y.1 (x.1 + x.2 + 3)); [apply IH|].
  pose proof (IH y) as Hy. destruct (joined_from_head y l) as (s & l' & E). rewrite E in *.
  cbn. split; [lia|done].
Qed.

Lemma joined_asc x l lo : lo <= x.1 -> asc (x.1 + x.2) l -> Forall (fun x => 4 <= x.2) l -> asc lo (joined_from x l).
Proof.
  revert x lo. induction l as [|y l IH]; intros x lo Hlo Ha Hs; cbn; [done|].
  destruct Ha as [Hy Ha]. apply Forall_cons in Hs as [Hy4 Hs].
  destruct (y.1 <=? x.1 + x.2 + 3).
  - apply IH; [done| |done]. cbn. eapply asc_mono; [|done]. lia.
  - cbn. split; [done|]. by apply IH.
Qed.

Lemma get2byte_eq d d' i : rd d' i = rd d i -> rd d' (i + 1) = rd d (i + 1) -> get2byte d' i = get2byte d i.
Proof. intros H1 H2. unfold get2byte. by rewrite H1, H2. Qed.

Lemma chain_spares a x l lo : asc lo (x :: l) -> Forall (fun x => 4 <= x.2) (x :: l) -> a + 2 <= lo ->
  Forall (fun z => a + 2 <= z.1) (x :: l) /\ Forall (fun z => x.1 + 4 <= z.1) l.
Proof.
  intros Hasc Hs Ha. split.
  - eapply Forall_impl; [by apply (asc_Forall lo)|]. cbn. intros; lia.
  - destruct Hasc as [_ Hasc]. apply Forall_cons in Hs as [Hx Hs].
    eapply Forall_impl; [by apply (asc_Forall (x.1 + x.2))|]. cbn. intros; lia.
Qed.

Section coalesce.
Context (pBt : BtShared) (top : Z) (hdr : Z).
Notation usable := (usableSize pBt).

(** What the loops know about the bytes of the page. *)
Definition page_bytes (d : list Z) : Prop := bytes_ok d /\ usable <= zlen d /\ usable <= 32768 /\ 0 <= hdr /\ hdr + 8 <= top.

(** Joining the block [x] with the next one, [y]. *)
Lemma join_step d a x y l f frag : page_bytes d ->
  chain d a (x :: y :: l) -> asc (a + 2) (x :: y :: l) -> Forall (in_area top usable) (x :: y :: l) ->
  hdr + 1 <= a -> a <> hdr + 6 -> a <> hdr + 7 -> 0 <= frag <= f -> rd d (hdr + 7) = Some f ->
  exists d1 d2 d3, wr d (hdr + 7) (u8 (f - frag)) = Some d1 /\ get2byte d1 y.1 = Ret (link_to l) /\
    put2byte d1 x.1 (link_to l) = Ret d2 /\ get2byte d2 (y.1 + 2) = Ret y.2 /\
    put2byte d2 (x.1 + 2) (y.1 + y.2 - x.1) = Ret d3 /\
    page_bytes d3 /\ zlen d3 = zlen d /\ rd d3 (hdr + 7) = Some (f - frag) /\
    chain d3 a ((x.1, y.1 + y.2 - x.1) :: l) /\
    (forall i, i <> hdr + 7 -> i < x.1 \/ x.1 + 4 <= i -> rd d3 i = rd d i).
Proof.
  intros (Hd & Hu & Hu' & Hh & Ht) (Ca & Cx & Cy & Cy2 & Cl) Hasc Hin Ha Ha6 Ha7 Hfrag Hf.
  assert (Forall (fun z => 4 <= z.2) (x :: y :: l)) as H4
    by (eapply Forall_impl; [done|]; unfold in_area; intros; lia).
  destruct (chain_spares a x (y :: l) (a + 2) Hasc H4 ltac:(lia)) as [_ Hyl].
  apply Forall_cons in Hin as [Hix Hin]. pose proof Hin as [Hiy Hil]%Forall_cons.
  destruct Hasc as (Hlo & Hxy & Hasc). apply Forall_cons in Hyl as [Hy4 Hyl]. unfold in_area in Hix, Hiy.
  pose proof (rd_Forall _ _ _ _ Hd Hf) as Hfb. unfold is_byte in Hfb.
  destruct (wr_ok d (hdr + 7) (u8 (f - frag))) as [d1 E1]; [lia|].
  pose proof (wr_outside _ _ _ _ E1) as O1. pose proof (bytes_ok_wr _ _ _ _ Hd (u8_byte _) E1) as B1.
  assert (0 <= link_to l <= usable) as Hlink.
  { destruct l as [|z l]; cbn; [lia|]. apply Forall_cons in Hil as [[? ?] _]. lia. }
  destruct (put2byte_ok d1 x.1 (link_to l)) as (d2 & E2 & G2 & B2 & O2); [done|lia|destruct O1; lia|lia|].
  destruct (put2byte_ok d2 (x.1 + 2) (y.1 + y.2 - x.1)) as (d3 & E3 & G3 & B3 & O3);
    [done|lia|destruct O1, O2; lia|lia|].
  assert (zlen d3 = zlen d) as L3 by (destruct O1, O2, O3; congruence).
  assert (forall i, i <> hdr + 7 -> i < x.1 \/ x.1 + 4 <= i -> rd d3 i = rd d i) as Hout.
  { intros i Hi Hx. destruct O1 as [_ O1], O2 as [_ O2], O3 as [_ O3].
    rewrite O3, O2, O1 by lia. done. }
  assert (forall i, hdr + 8 <= i -> x.1 + 4 <= i -> get2byte d3 i = get2byte d i) as Hget.
  { intros i Hi Hi'. apply get2byte_eq; apply Hout; lia. }
  exists d1, d2, d3. split; [done|].
  rewrite (get2byte_frame _ _ _ _ _ O1) by lia. split; [by apply chain_link|].
  split; [done|].
  rewrite (get2byte_frame _ _ _ _ _ O2), (get2byte_frame _ _ _ _ _ O1) by lia. split; [done|].
  split; [done|]. split; [unfold page_bytes; rewrite L3; by split_and!|]. split; [done|].
  split_and!; [| |done].
  - destruct O2 as [_ O2], O3 as [_ O3]. rewrite O3, O2, (rd_wr _ _ _ _ _ E1), Z.eqb_refl by lia.
    f_equal. apply u8_id. unfold is_byte. lia.
  - cbn. split_and!.
    + rewrite <- Ca. apply get2byte_eq; apply Hout; lia.
    + done.
    + apply (chain_move d _ _ y.1); [|eapply Forall_impl; [exact Hyl|]|done].
      * by rewrite (get2byte_frame _ _ _ _ _ O3), G2 by lia.
      * intros z Hz. cbn in Hz. unfold spares. rewrite !Hget by lia. done.
Qed.

(** The loop that joins free blocks, at the link [a] with the blocks [l] to
    come and the other regions [O]. *)
Lemma free_coalesce_ok fuel : forall d a O l f, page_bytes d ->
  hdr + 1 <= a -> a <> hdr + 6 -> a <> hdr + 7 ->
  chain d a l -> asc (a + 2) l -> content top usable (O ++ l) f -> top <= usable ->
  rd d (hdr + 7) = Some f -> (length l < fuel)%nat ->
  exists d' f', free_coalesce pBt fuel d hdr a = Ret d' /\ page_bytes d' /\ zlen d' = zlen d /\
    chain d' a (joined l) /\ content top usable (O ++ joined l) f' /\ rd d' (hdr + 7) = Some f' /\
    (forall i, i <> hdr + 7 -> Forall (fun x => i < x.1 \/ x.1 + 4 <= i) l -> rd d' i = rd d i).
Proof.
  induction fuel as [|fuel IH]; intros d a O l f Hd Ha Ha6 Ha7 Hc Hasc Hcon Htu Hf Hl; [lia|].
  cbn [free_coalesce]. rewrite (chain_link _ _ _ Hc). crun.
  destruct l as [|x l]; cbn [link_to].
  { cbn [Z.ltb Z.compare]. exists d, f. by split_and!. }
  pose proof Hc as (Hx1 & Hx2 & Hrest). pose proof Hasc as [Hlo Hasc'].
  pose proof Hcon as (_ & Hin & _). apply Forall_app in Hin as [_ Hin].
  assert (Forall (fun z => 4 <= z.2) (x :: l)) as H4
    by (eapply Forall_impl; [exact Hin|]; unfold in_area; intros; lia).
  destruct (chain_spares a x l (a + 2) Hasc H4 ltac:(lia)) as [Hal Hxl].
  pose proof Hin as [Hix Hinl]%Forall_cons. unfold in_area in Hix.
  pose proof Hd as (_ & _ & _ & Hh & Ht).
  rewrite (proj2 (Z.ltb_lt 0 x.1)) by lia.
  rewrite (proj2 (Z.ltb_lt a x.1)), (proj2 (Z.leb_le x.1 (usable - 4))) by lia. crun.
  rewrite (chain_link _ _ _ Hrest), Hx2. crun.
  (* the next round starts at [x] *)
  assert (joined (x :: l) = x :: joined l -> exists d' f',
    free_coalesce pBt fuel d hdr x.1 = Ret d' /\ page_bytes d' /\ zlen d' = zlen d /\
    chain d' a (joined (x :: l)) /\ content top usable (O ++ joined (x :: l)) f' /\
    rd d' (hdr + 7) = Some f' /\
    (forall i, i <> hdr + 7 -> Forall (fun x => i < x.1 \/ x.1 + 4 <= i) (x :: l) -> rd d' i = rd d i)) as Hmove.
  { intros Ej. destruct (IH d x.1 (O ++ [x]) l f) as (d' & f' & -> & H1 & H2 & H3 & H4' & H5 & H6);
      try done; try lia; [eapply asc_mono; [|done]; lia|by rewrite <- app_assoc|cbn in Hl; lia|].
    exists d', f'. rewrite Ej. split_and!; try done.
    - cbn. rewrite <- Hx1, <- Hx2. split_and!; [| |done]; apply get2byte_eq; apply H6; try lia;
        (eapply Forall_impl; [exact Hxl|]; cbn; intros; lia).
    - by rewrite <- app_assoc in H4'.
    - intros i Hi [_ Hil]%Forall_cons. by apply H6. }
  destruct l as [|y l]; cbn [link_to] in *.
  { rewrite andb_false_r. by apply Hmove. }
  pose proof Hasc' as [Hxy _]. pose proof Hinl as [Hiy Hinl']%Forall_cons. unfold in_area in Hiy.
  rewrite (proj2 (Z.ltb_lt 0 y.1)) by lia. rewrite andb_true_r.
  destruct (Z.leb_spec y.1 (x.1 + x.2 + 3)) as [Hle|Hgt].
  2:{ apply Hmove. cbn. by rewrite (proj2 (Z.leb_gt _ _) Hgt). }
  clear Hmove. pose proof (content_join _ _ _ _ _ _ _ Hcon Hxy Hle) as Hcon'.
  pose proof (content_frag _ _ _ _ Htu Hcon').
  destruct (join_step d a x y l f (y.1 - (x.1 + x.2))) as
    (d1 & d2 & d3 & E1 & E1' & E2 & E2' & E3 & Hd3 & L3 & Hf3 & Hc3 & Hout); try done; [lia|].
  rewrite Hf. crun. rewrite (proj2 (Z.leb_le _ f)) by lia. crun. rewrite E1. crun. rewrite E1'. crun.
  rewrite E2. crun. rewrite E2'. crun. rewrite E3. crun.
  destruct (IH d3 a O ((x.1, y.1 + y.2 - x.1) :: l) (f - (y.1 - (x.1 + x.2)))) as
    (d' & f' & -> & H1 & H2 & H3 & H4' & H5 & H6); try done; [| |].
  { cbn. split; [done|]. destruct Hasc' as [_ Hasc'']. eapply asc_mono; [|done]. lia. }
  { cbn in Hl |- *. lia. }
  exists d', f'. cbn [joined joined_from]. rewrite (proj2 (Z.leb_le _ _) Hle).
  split_and!; try done; [congruence|].
  intros i Hi Hil. apply Forall_cons in Hil as [Hix' Hil]. apply Forall_cons in Hil as [Hiy' Hil].
  rewrite H6, Hout; [done|done|done|done|]. by constructor.
Qed.

End coalesce.

(** ** Finding and linking in a block *)

Lemma link_of_cases a l : (l = [] /\ link_of a l = a) \/ exists l' x, l = l' ++ [x] /\ link_of a l = x.1.
Proof.
  revert a. induction l as [|x l IH]; intros a; [by left|right]. cbn.
  destruct (IH x.1) as [[-> ->]|(l' & y & -> & ->)]; [by exists [], x|by exists (x :: l'), y].
Qed.

Section find.
Context (pBt : BtShared).
Notation usable := (usableSize pBt).

Lemma free_find_ok fuel : forall d start a l, chain d a l -> asc (a + 2) l ->
  Forall (fun x => 0 < x.1 /\ 4 <= x.2 /\ x.1 + x.2 <= usable) l -> (length l < fuel)%nat ->
  exists l1 l2, l = l1 ++ l2 /\ free_find pBt fuel d start a = Ret (link_of a l1, link_to l2) /\
    Forall (fun x => x.1 < start) l1 /\ (l2 = [] \/ start <= link_to l2).
Proof.
  induction fuel as [|fuel IH]; intros d start a l Hc Hasc Hin Hl; [lia|].
  cbn [free_find]. rewrite (chain_link _ _ _ Hc). crun.
  destruct l as [|x l]; cbn [link_to].
  { rewrite andb_false_r. exists [], []. split_and!; [done..|constructor|by left]. }
  destruct Hc as (_ & _ & Hc). destruct Hasc as [Hlo Hasc]. apply Forall_cons in Hin as [Hx Hin].
  destruct (Z.ltb_spec x.1 start) as [Hlt|Hge]; cbn [andb].
  2:{ exists [], (x :: l). split_and!; [done..|constructor|by right]. }
  rewrite (proj2 (Z.ltb_lt 0 x.1)), (proj2 (Z.leb_le x.1 (usable - 4))), (proj2 (Z.ltb_lt a x.1)) by lia. crun.
  destruct (IH d start x.1 l Hc) as (l1 & l2 & -> & E & H1 & H2); [eapply asc_mono; [|done]; lia|done|cbn in Hl; lia|].
  exists (x :: l1), l2. split_and!; [done|done|by constructor|done].
Qed.

End find.

Lemma asc_insert lo start size l1 l2 : asc lo (l1 ++ l2) -> lo <= start -> 4 <= size ->
  Forall (fun x => x.1 + x.2 <= start) l1 -> (l2 = [] \/ start + size <= link_to l2) ->
  asc lo (l1 ++ (start, size) :: l2).
Proof.
  revert lo. induction l1 as [|x l1 IH]; intros lo Ha Hlo Hs H1 H2; cbn in *.
  - split; [done|]. destruct H2 as [->|H2]; [done|]. destruct l2 as [|y l2]; [done|]. cbn in *.
    split; [done|]. apply Ha.
  - apply Forall_cons in H1 as [Hx H1]. destruct Ha as [? Ha]. split; [done|]. by apply IH.
Qed.

(** Where a region lies between the free blocks of a list. *)
Lemma insert_place start size l1 l2 : 4 <= size -> Forall (apart (start, size)) (l1 ++ l2) ->
  Forall (fun x => 4 <= x.2) (l1 ++ l2) -> Forall (fun x => x.1 < start) l1 -> (l2 = [] \/ start <= link_to l2) ->
  Forall (fun x => x.1 + x.2 <= start) l1 /\ (l2 = [] \/ start + size <= link_to l2).
Proof.
  intros Hs Hap H4 H1 H2. apply Forall_app in Hap as [Ha1 Ha2]. apply Forall_app in H4 as [H41 H42].
  unfold apart in *. cbn in *. split.
  - rewrite Forall_forall in Ha1, H1 |- *. intros x Hx. specialize (Ha1 x Hx). specialize (H1 x Hx). cbn in *. lia.
  - destruct H2 as [|H2]; [by left|]. destruct l2 as [|y l2]; [by left|right]. cbn in *.
    apply Forall_cons in Ha2 as [Hy _]. apply Forall_cons in H42 as [Hy4 _]. lia.
Qed.

Section insert.
Context (pBt : BtShared) (top hdr : Z).
Notation usable := (usableSize pBt).
Notation page_bytes := (page_bytes pBt top hdr).

(** The three writes that link in a block. *)
Lemma chain_insert d l1 l2 start size : page_bytes d ->
  chain d (hdr + 1) (l1 ++ l2) -> asc top (l1 ++ (start, size) :: l2) ->
  Forall (in_area top usable) (l1 ++ (start, size) :: l2) ->
  exists d1 d2 d3, put2byte d (link_of (hdr + 1) l1) start = Ret d1 /\
    put2byte d1 start (link_to l2) = Ret d2 /\ put2byte d2 (start + 2) size = Ret d3 /\
    page_bytes d3 /\ zlen d3 = zlen d /\ chain d3 (hdr + 1) (l1 ++ (start, size) :: l2) /\
    (forall i, (i < hdr + 1 \/ hdr + 3 <= i) ->
       Forall (fun x => i < x.1 \/ x.1 + 4 <= i) (l1 ++ (start, size) :: l2) -> rd d3 i = rd d i).
Proof.
  intros (Hd & Hu & Hu' & Hh & Ht) Hc Hasc Hin. set (addr := link_of (hdr + 1) l1).
  assert (Forall (fun z => 4 <= z.2) (l1 ++ (start, size) :: l2)) as H4
    by (eapply Forall_impl; [exact Hin|]; unfold in_area; intros; lia).
  destruct (asc_app _ _ _ _ Hasc H4) as (Hl1 & Hl2 & Hlo). cbn in Hl1, Hl2, Hlo.
  pose proof H4 as [H41 [_ H42]%Forall_cons]%Forall_app.
  pose proof Hin as [Hin1 [His Hin2]%Forall_cons]%Forall_app. unfold in_area in His. cbn in His.
  assert (Forall (fun z => start + size <= z.1) l2) as Hl2' by by apply asc_Forall.
  assert (addr = hdr + 1 \/ top <= addr /\ addr + 4 <= start) as Haddr.
  { unfold addr. destruct (link_of_cases (hdr + 1) l1) as [[_ ->]|(l' & x & -> & ->)]; [by left|right].
    apply Forall_app in Hl1 as [_ [Hx _]%Forall_cons]. apply Forall_app in H41 as [_ [Hx4 _]%Forall_cons].
    apply Forall_app in Hin1 as [_ [[? _] _]%Forall_cons]. cbn in *. lia. }
  assert (0 <= link_to l2 <= usable) as Hlink.
  { destruct l2 as [|z l2]; cbn; [lia|]. apply Forall_cons in Hin2 as [[? ?] _]. lia. }
  destruct (put2byte_ok d addr start) as (d1 & E1 & G1 & B1 & O1); [done|lia|lia|lia|].
  destruct (put2byte_ok d1 start (link_to l2)) as (d2 & E2 & G2 & B2 & O2); [done|lia|destruct O1; lia|lia|].
  destruct (put2byte_ok d2 (start + 2) size) as (d3 & E3 & G3 & B3 & O3);
    [done|lia|destruct O1, O2; lia|lia|].
  assert (zlen d3 = zlen d) as L3 by (destruct O1, O2, O3; congruence).
  assert (forall i, i < addr \/ addr + 2 <= i -> i < start \/ start + 4 <= i -> rd d3 i = rd d i) as Hout.
  { intros i Hi Hx. destruct O1 as [_ O1], O2 as [_ O2], O3 as [_ O3]. rewrite O3, O2, O1 by lia. done. }
  assert (forall i, i + 2 <= addr \/ addr + 2 <= i -> i + 2 <= start \/ start + 4 <= i ->
    get2byte d3 i = get2byte d i) as Hget by (intros i Hi Hi'; apply get2byte_eq; apply Hout; lia).
  assert (Forall (fun x => x.1 = addr \/ x.1 + 4 <= addr) l1) as Hpos.
  { unfold addr. destruct (link_of_cases (hdr + 1) l1) as [[-> _]|(l' & y & -> & ->)]; [constructor|].
    rewrite <- app_assoc in Hasc, H4. cbn [app] in Hasc, H4.
    destruct (asc_app _ _ _ _ Hasc H4) as (Hl' & _). apply Forall_app in H4 as [H4 _].
    apply Forall_app. split; [|by constructor; [left|]].
    rewrite Forall_forall in Hl', H4 |- *. intros x Hx. specialize (Hl' x Hx). specialize (H4 x Hx).
    cbn in *. lia. }
  exists d1, d2, d3. split_and!; try done; [unfold page_bytes; rewrite L3; by split_and!| |].
  - apply chain_app in Hc as [Hlk Hch]. apply chain_app. split.
    + (* the blocks in front *)
      apply (links_frame d); [| | | |done|done].
      * destruct (link_of_cases (hdr + 1) l1) as [[Enil _]|(l' & x & E & Elast)]; [by right|left].
        fold addr in Elast. apply Hget; rewrite ?Elast; try lia.
        subst l1.
        apply Forall_app in Hin1 as [_ [[? _] _]%Forall_cons]. lia.
      * rewrite Forall_forall in Hpos, Hl1, H41 |- *. intros x Hx.
        specialize (Hpos x Hx). specialize (Hl1 x Hx). specialize (H41 x Hx). cbn in *. apply Hget; lia.
      * rewrite Forall_forall in Hpos, Hl1, H41 |- *. intros x Hx. fold addr.
        specialize (Hpos x Hx). specialize (Hl1 x Hx). specialize (H41 x Hx). cbn in *.
        destruct Hpos as [->|Hpos]; [by left|right]. apply Hget; lia.
      * apply asc_mono with top; [lia|].
        clear -Hasc. revert Hasc. generalize top. induction l1 as [|x l1 IH]; intros lo; cbn; [done|].
        intros [? ?]. split; [done|]. by apply IH.
    + (* the block and those behind *)
      fold addr. cbn. split_and!.
      * rewrite (get2byte_frame _ _ _ _ _ O3), (get2byte_frame _ _ _ _ _ O2) by lia. done.
      * done.
      * apply (chain_move d _ _ addr); [|eapply Forall_impl; [exact Hl2'|]|done].
        -- by rewrite (get2byte_frame _ _ _ _ _ O3) by lia.
        -- intros z Hz. cbn in Hz. unfold spares. rewrite !Hget by lia. done.
  - intros i Hi Hall. apply Forall_app in Hall as [Hall1 [His' _]%Forall_cons]. cbn in His'.
    apply Hout; [|lia]. unfold addr.
    destruct (link_of_cases (hdr + 1) l1) as [[_ ->]|(l' & x & -> & ->)]; [lia|].
    apply Forall_app in Hall1 as [_ [Hx _]%Forall_cons]. lia.
Qed.

End insert.

(** ** The invariant *)

Definition geometry (pBt : BtShared) (p : MemPage) : Prop :=
  (hdrOffset p = 0 \/ hdrOffset p = 100) /\ cellOffset p = hdrOffset p + 12 - 4 * b2z (leaf p) /\
  bytes_ok (aData p) /\ usableSize pBt <= zlen (aData p) /\ usableSize pBt <= 32768 /\ aOvfl p = [].

(** A page with [k] cell pointers, whose content area from [top] on holds the
    regions [used] and the free blocks [free]. *)
Record layout (pBt : BtShared) (p : MemPage) (k : Z) (used free : list region) (top : Z) : Prop := {
  l_geo : geometry pBt p;
  l_count : 0 <= k;
  l_top : get2byte (aData p) (hdrOffset p + 5) = Ret top;
  l_gap : cellOffset p + 2 * k <= top <= usableSize pBt;
  l_chain : chain (aData p) (hdrOffset p + 1) free;
  l_asc : asc top free;
  l_spaced : spaced free;
  l_content : exists f, content top (usableSize pBt) (used ++ free) f /\ rd (aData p) (hdrOffset p + 7) = Some f;
  l_nFree : nFree p = usableSize pBt - (cellOffset p + 2 * k) - sizes used;
}.

(** The bytes that the operations on space do not touch: the flags and the
    count of the header, the bytes up to [top], and the regions in use. *)
Definition untouched (p : MemPage) (top : Z) (used : list region) (i : Z) : Prop :=
  i <= hdrOffset p \/ hdrOffset p + 3 <= i < hdrOffset p + 5 \/ hdrOffset p + 8 <= i < top \/
  exists x, x ∈ used /\ x.1 <= i < x.1 + x.2.

(** All but the bytes and [nFree]. *)
Definition same_fields (p p' : MemPage) : Prop :=
  set_data [] (set_nFree 0 p') = set_data [] (set_nFree 0 p).

Lemma geometry_hdr pBt p : geometry pBt p ->
  0 <= hdrOffset p /\ hdrOffset p + 8 <= cellOffset p <= hdrOffset p + 12.
Proof. intros (H & -> & _). unfold b2z. case_match; lia. Qed.

Lemma content_drop_top top usable used s l f : content top usable (used ++ (top, s) :: l) f ->
  content (top + s) usable (used ++ l) f.
Proof.
  intros H. apply (content_perm _ _ _ ((top, s) :: used ++ l)) in H;
    [|symmetry; apply Permutation_middle].
  destruct H as ([Hap Hd] & [Hs Hin]%Forall_cons & ->). split_and!; [done| |].
  - rewrite Forall_forall in Hap, Hin |- *. intros x Hx. specialize (Hap x Hx). specialize (Hin x Hx).
    unfold apart, in_area in *. cbn in *. lia.
  - unfold sizes. cbn. lia.
Qed.

Section free.
Context (pBt : BtShared).
Notation usable := (usableSize pBt).

(** A block at the start of the content area goes over to the gap. *)
Lemma free_top_ok d hdr top used l f : page_bytes pBt top hdr d -> top <= usable ->
  get2byte d (hdr + 5) = Ret top -> chain d (hdr + 1) l -> asc top l -> spaced l ->
  content top usable (used ++ l) f -> rd d (hdr + 7) = Some f ->
  exists d' top' l', free_top d hdr = Ret d' /\
    page_bytes pBt top' hdr d' /\ zlen d' = zlen d /\ top <= top' <= usable /\
    get2byte d' (hdr + 5) = Ret top' /\ chain d' (hdr + 1) l' /\ asc top' l' /\ spaced l' /\
    content top' usable (used ++ l') f /\ rd d' (hdr + 7) = Some f /\
    (forall i, i < hdr + 1 \/ hdr + 3 <= i -> i < hdr + 5 \/ hdr + 7 <= i -> rd d' i = rd d i).
Proof.
  intros Hd Htu Htop Hc Hasc Hsp Hcon Hf. pose proof Hd as (Hb & Hu & Hu' & Hh & Ht).
  destruct (rd_lt d (hdr + 1)) as [h1 E1]; [lia|]. destruct (rd_lt d (hdr + 1 + 1)) as [h2 E2]; [lia|].
  destruct (rd_lt d (hdr + 5)) as [h5 E5]; [lia|]. destruct (rd_lt d (hdr + 5 + 1)) as [h6 E6]; [lia|].
  pose proof (rd_Forall _ _ _ _ Hb E2) as B2. pose proof (rd_Forall _ _ _ _ Hb E6) as B6.
  pose proof (get2byte_val _ _ _ _ E1 E2 B2) as G1. pose proof (get2byte_val _ _ _ _ E5 E6 B6) as G5.
  rewrite (chain_link _ _ _ Hc) in G1. rewrite Htop in G5. injection G1 as G1. injection G5 as G5.
  unfold free_top. replace (hdr + 2) with (hdr + 1 + 1) by lia. replace (hdr + 6) with (hdr + 5 + 1) by lia.
  rewrite E1, E2, E5, E6. crun. unfold is_byte in B2, B6.
  destruct ((h1 =? h5) && (h2 =? h6)) eqn:Eq.
  2:{ exists d, top, l. by split_and!. }
  assert (link_to l = top) as El by lia. destruct l as [|x l]; cbn in El; [lia|].
  destruct x as [o s]. cbn in El. subst o.
  pose proof Hc as (Hc1 & Hc2 & Hc3). cbn in Hc1, Hc2, Hc3.
  pose proof Hcon as (_ & Hin & _). apply Forall_app in Hin as [_ Hin].
  pose proof Hin as [[Hx1 [Hx2 Hx3]] Hin']%Forall_cons. cbn in Hx1, Hx2, Hx3.
  assert (Forall (fun z => 4 <= z.2) l) as H4 by (eapply Forall_impl; [exact Hin'|]; unfold in_area; intros; lia).
  destruct Hasc as [_ Hasc]. cbn in Hasc.
  pose proof (asc_Forall _ _ Hasc H4) as Hgt.
  rewrite Hc1. crun.
  destruct (bytes_at_ok d top 2) as (b & Eb & Lb & Hholds); [lia..|]. rewrite Eb. crun.
  assert (bytes_ok b) as Bb.
  { unfold bytes_at in Eb. case_decide; [|done]. injection Eb as <-. by apply Forall_take, Forall_drop. }
  destruct (copy_to_ok b d (hdr + 1)) as (d1 & Ed1 & Hh1 & Bd1 & O1); [done|done|lia|lia|].
  rewrite Lb in O1. rewrite Ed1. crun.
  rewrite (get2byte_frame _ _ _ _ (hdr + 5) O1), Htop by lia. crun.
  rewrite (get2byte_frame _ _ _ _ (top + 2) O1), Hc2 by lia. crun.
  destruct (put2byte_ok d1 (hdr + 5) (top + s)) as (d2 & Ed2 & Gd2 & Bd2 & O2); [done|lia|destruct O1; lia|lia|].
  rewrite Ed2. exists d2, (top + s), l.
  assert (zlen d2 = zlen d) as L2 by (destruct O1, O2; congruence).
  assert (forall i, i < hdr + 1 \/ hdr + 3 <= i -> i < hdr + 5 \/ hdr + 7 <= i -> rd d2 i = rd d i) as Hout.
  { intros i Hi Hi'. destruct O1 as [_ O1], O2 as [_ O2]. rewrite O2, O1 by lia. done. }
  split_and!; try done; try lia.
  - unfold page_bytes. rewrite L2. split_and!; try done; lia.
  - apply (chain_move d _ _ top); [|eapply Forall_impl; [exact Hgt|]|done].
    + rewrite (get2byte_frame _ _ _ _ _ O2) by lia. rewrite <- (chain_link _ _ _ Hc3).
      by apply (holds_get2byte d d1 top (hdr + 1) b).
    + intros z Hz. cbn in Hz. unfold spares.
      split; apply get2byte_eq; apply Hout; lia.
  - destruct l as [|y l]; [done|]. destruct Hsp as [_ Hsp]. done.
  - by apply (content_drop_top top usable used s l f).
  - rewrite Hout by lia. done.
Qed.

(** [freeSpace] turns a region in use into free space. *)
Lemma freeSpace_ok p k start size used free top :
  layout pBt p k ((start, size) :: used) free top ->
  exists p' top' free', freeSpace pBt p start size = Ret p' /\ layout pBt p' k used free' top' /\
    same_fields p p' /\ top <= top' /\ zlen (aData p') = zlen (aData p) /\
    forall i, untouched p top used i -> rd (aData p') i = rd (aData p) i.
Proof.
  intros [Hgeo Hk Htop Hgap Hc Hasc Hsp (f & Hcon & Hf) HnF].
  pose proof (geometry_hdr _ _ Hgeo) as [Hh Hco].
  pose proof Hgeo as (_ & Ecell & Hb & Hu & Hu' & Hov). set (d := aData p) in *. set (hdr := hdrOffset p) in *.
  assert (page_bytes pBt top hdr d) as Hd by (unfold page_bytes; split_and!; try done; lia).
  (* the region among the free blocks *)
  assert (forall l1 l2, free = l1 ++ l2 -> content top usable (used ++ l1 ++ (start, size) :: l2) f) as Hcon'.
  { intros l1 l2 ->. eapply content_perm; [|exact Hcon]. cbn [app].
    rewrite (app_assoc used), (app_assoc used). apply Permutation_middle. }
  pose proof Hcon as ([Hap Hdisj] & [Hreg Hin]%Forall_cons & _). unfold in_area in Hreg. cbn in Hreg.
  apply Forall_app in Hap as [Hapu Hapf]. apply Forall_app in Hin as [Hinu Hinf].
  assert (Forall (fun x => 4 <= x.2) free) as H4 by (eapply Forall_impl; [exact Hinf|]; unfold in_area; intros; lia).
  pose proof (content_length top usable _ f ltac:(lia) Hcon) as Hlen. cbn [app] in Hlen. rewrite zlen_cons, zlen_app in Hlen.
  pose proof (zlen_nonneg used).
  unfold freeSpace. fold d hdr.
  rewrite (proj2 (Z.leb_le _ start)) by (unfold b2z in Ecell; destruct (leaf p); lia).
  rewrite (proj2 (Z.leb_le (start + size) _)) by lia. crun.
  rewrite (proj2 (Z.ltb_ge size 4)) by lia.
  destruct (free_find_ok pBt (S (length d)) d start (hdr + 1) free Hc) as (l1 & l2 & E & -> & Hl1 & Hl2);
    [eapply asc_mono; [|done]; lia|eapply Forall_impl; [exact Hinf|]; unfold in_area; intros; lia
    |unfold zlen in *; lia|].
  crun. specialize (Hcon' l1 l2 E). rewrite E in Hasc, Hapf, Hinf, H4, Hc.
  destruct (insert_place start size l1 l2) as [Hl1' Hl2']; try done; [lia|].
  pose proof (asc_insert top start size l1 l2 Hasc ltac:(lia) ltac:(lia) Hl1' Hl2') as Hasc'.
  assert (Forall (in_area top usable) (l1 ++ (start, size) :: l2)) as Hin'.
  { apply Forall_app in Hinf as [? ?]. apply Forall_app. split; [done|]. by constructor. }
  destruct (chain_insert pBt top hdr d l1 l2 start size Hd Hc Hasc' Hin')
    as (d1 & d2 & d3 & E1 & E2 & E3 & Hd3 & L3 & Hc3 & O3).
  assert (link_to l2 <= usable - 4 /\ (link_of (hdr + 1) l1 < link_to l2 \/ link_to l2 = 0)) as [Hk1 Hk2].
  { destruct l2 as [|y l2]; [cbn; lia|]. apply Forall_app in Hinf as [Hi1 [Hy _]%Forall_cons].
    destruct Hl2 as [|Hl2]; [done|]. cbn in Hl2 |- *. unfold in_area in Hy. split; [lia|left].
    destruct (link_of_cases (hdr + 1) l1) as [[_ ->]|(l' & x & -> & ->)]; [lia|].
    apply Forall_app in Hl1 as [_ [Hx _]%Forall_cons]. lia. }
  rewrite (proj2 (Z.leb_le _ _) Hk1). crun.
  assert ((link_of (hdr + 1) l1 <? link_to l2) || (link_to l2 =? 0) = true) as -> by lia. crun.
  rewrite E1. crun. rewrite E2. crun. rewrite E3. crun.
  (* joining and the top of the area *)
  assert (rd d3 (hdr + 7) = Some f) as Hf3.
  { rewrite O3; [done|lia|]. eapply Forall_impl; [exact Hin'|]. unfold in_area. cbn. intros; lia. }
  destruct (free_coalesce_ok pBt top hdr (S (length d3)) d3 (hdr + 1) used (l1 ++ (start, size) :: l2) f)
    as (d4 & f4 & -> & Hd4 & L4 & Hc4 & Hcon4 & Hf4 & O4); try done; try lia.
  { eapply asc_mono; [|done]. lia. }
  { rewrite E, zlen_app in Hlen. rewrite length_app. cbn. unfold zlen in *. lia. }
  crun.
  assert (exists x m, l1 ++ (start, size) :: l2 = x :: m) as (x & m & Exm)
    by (destruct l1; cbn; eauto).
  rewrite Exm in *. cbn [joined] in *.
  assert (get2byte d4 (hdr + 5) = Ret top) as Htop4.
  { rewrite <- Htop. apply get2byte_eq.
    all: rewrite O4, O3; [done|lia| |lia|].
    all: eapply Forall_impl; [exact Hin'|]; unfold in_area; cbn; intros; lia. }
  assert (Forall (fun z => 4 <= z.2) (x :: m)) as H4' by (eapply Forall_impl; [exact Hin'|]; unfold in_area; intros; lia).
  pose proof H4' as [_ H4m]%Forall_cons. destruct Hasc' as [Hxlo Hascm].
  destruct (free_top_ok d4 hdr top used (joined_from x m) f4 Hd4 ltac:(lia) Htop4 Hc4
    ltac:(by apply joined_asc) ltac:(apply joined_spaced) Hcon4 Hf4)
    as (d5 & top' & l' & -> & Hd5 & L5 & Htop' & Hg5 & Hc5 & Hasc5 & Hsp5 & Hcon5 & Hf5 & O5).
  crun. eexists _, top', l'. split; [done|].
  assert (zlen d5 = zlen d) as L by congruence.
  split_and!; [|done|lia|done|].
  - pose proof (content_frag top usable _ f ltac:(lia) Hcon) as Hf0.
    destruct Hcon as (_ & _ & Ef). unfold sizes in Ef, HnF. cbn in Ef, HnF. fold (sizes used) in HnF.
    assert (0 <= sizes used) by (eapply inside_sizes_nonneg, in_area_inside, Hinu).
    assert (sizes used + size <= usable - top).
    { change (foldr (fun x n => x.2 + n) 0 (used ++ free)) with (sizes (used ++ free)) in Ef.
      rewrite sizes_app in Ef. rewrite E in Ef.
      pose proof (inside_sizes_nonneg _ _ _ (in_area_inside _ _ _ Hinf)). lia. }
    constructor; try done; cbn.
    + destruct Hd5 as (? & ? & _). by split_and!; try apply Hgeo; try done.
    + lia.
    + by exists f4.
    + rewrite HnF. unfold u16. rewrite Z.mod_small; lia.
  - intros i Hi. cbn. fold d.
    assert (i <> hdr + 7 /\ (i < hdr + 1 \/ hdr + 3 <= i) /\ (i < hdr + 5 \/ hdr + 7 <= i) /\
            Forall (fun z => i < z.1 \/ z.1 + 4 <= i) (x :: m)) as (Hi1 & Hi2 & Hi3 & Hi4).
    { destruct Hi as [Hi|[Hi|[Hi|(z & Hz & Hi)]]]; fold hdr in Hi; try (split_and!; try lia;
        eapply Forall_impl; [exact Hin'|]; unfold in_area; cbn; intros; lia).
      rewrite Forall_forall in Hinu. pose proof (Hinu z Hz) as Hza. unfold in_area in Hza.
      split_and!; try lia. rewrite Forall_forall. intros w Hw.
      assert (apart z w) as Hapz.
      { destruct Hcon' as (Hdis & _ & _). apply disj_app in Hdis as (_ & _ & Hx). by apply Hx. }
      rewrite Forall_forall in Hin'. pose proof (Hin' w Hw) as Hwa. unfold in_area, apart in *. lia. }
    rewrite O5, O4, O3; done.
Qed.

End free.

(** ** Taking space from the free blocks *)

Lemma content_shrink top usable x l f n : content top usable (x :: l) f -> 4 <= n <= x.2 ->
  content top usable ((x.1, n) :: l) (f + x.2 - n).
Proof.
  intros ([Hap Hd] & [Hx Hin]%Forall_cons & ->) Hn. split_and!.
  - split; [|done]. eapply Forall_impl; [exact Hap|]. unfold apart. cbn. intros; lia.
  - constructor; [|done]. unfold in_area in *. cbn. lia.
  - unfold sizes. cbn. lia.
Qed.

Lemma content_divide top usable x l f n : content top usable (x :: l) f -> 4 <= n -> 4 <= x.2 - n ->
  content top usable ((x.1 + x.2 - n, n) :: (x.1, x.2 - n) :: l) f.
Proof.
  intros ([Hap Hd] & [Hx Hin]%Forall_cons & ->) Hn Hm. split_and!.
  - split.
    + constructor; [unfold apart; cbn; lia|]. eapply Forall_impl; [exact Hap|]. unfold apart. cbn. intros; lia.
    + split; [|done]. eapply Forall_impl; [exact Hap|]. unfold apart. cbn. intros; lia.
  - unfold in_area in Hx. repeat constructor; cbn; try lia. done.
  - unfold sizes. cbn. lia.
Qed.

Section allocate.
Context (pBt : BtShared) (top hdr : Z).
Notation usable := (usableSize pBt).
Notation page_bytes := (page_bytes pBt top hdr).

(** What the search leaves behind when it found room at [addr]. *)
Definition found (d : list Z) (a lo : Z) (O l : list region) (nByte addr : Z) (d' : list Z) : Prop :=
  exists l' f', page_bytes d' /\ zlen d' = zlen d /\ chain d' a l' /\ asc lo l' /\ spaced l' /\
    (forall y, spaced (y :: l) -> spaced (y :: l')) /\
    content top usable ((addr, nByte) :: O ++ l') f' /\ rd d' (hdr + 7) = Some f' /\
    forall i, i <> hdr + 7 -> i < a \/ a + 2 <= i -> Forall (fun x => i < x.1 \/ x.1 + 4 <= i) l -> rd d' i = rd d i.

(** The block [x] is used up, save for up to three bytes. *)
Lemma take_whole_ok d a lo O x l f nByte : page_bytes d -> chain d a (x :: l) -> asc lo (x :: l) ->
  a + 2 <= lo -> hdr + 1 <= a -> a + 2 <= hdr + 7 \/ hdr + 8 <= a -> spaced (x :: l) ->
  content top usable (O ++ x :: l) f -> rd d (hdr + 7) = Some f -> 0 <= f < 60 ->
  4 <= nByte <= x.2 -> x.2 < nByte + 4 ->
  exists b d1 d2, bytes_at d x.1 2 = Ret b /\ copy_to d a b = Ret d1 /\
    wr d1 (hdr + 7) (u8 (f + x.2 - nByte)) = Some d2 /\ found d a lo O (x :: l) nByte x.1 d2.
Proof.
  intros (Hb & Hu & Hu' & Hh & Ht) (Ca & C2 & Cl) [Hlo Hasc] Halo Ha Ha7 [Hsp1 Hsp] Hcon Hf Hfb Hn Hm.
  pose proof Hcon as (_ & Hin & _). apply Forall_app in Hin as [_ [Hx Hin]%Forall_cons]. unfold in_area in Hx.
  assert (Forall (fun z => 4 <= z.2) l) as H4 by (eapply Forall_impl; [exact Hin|]; unfold in_area; intros; lia).
  pose proof (asc_Forall _ _ Hasc H4) as Hgt.
  destruct (bytes_at_ok d x.1 2) as (b & Eb & Lb & Hholds); [lia..|].
  assert (bytes_ok b) as Bb.
  { unfold bytes_at in Eb. case_decide; [|done]. injection Eb as <-. by apply Forall_take, Forall_drop. }
  destruct (copy_to_ok b d a) as (d1 & E1 & Hh1 & B1 & O1); [done|done|lia|lia|]. rewrite Lb in O1.
  pose proof O1 as [L1 O1'].
  destruct (wr_ok d1 (hdr + 7) (u8 (f + x.2 - nByte))) as [d2 E2]; [lia|].
  exists b, d1, d2. split_and!; [done..|].
  pose proof (wr_outside _ _ _ _ E2) as O2. pose proof O2 as [L2 O2'].
  assert (forall i, i <> hdr + 7 -> i < a \/ a + 2 <= i -> rd d2 i = rd d i) as Hout.
  { intros i Hi Hi'. rewrite O2', O1' by lia. done. }
  exists l, (f + x.2 - nByte). split_and!.
  - split_and!; try done; [by eapply bytes_ok_wr|lia].
  - congruence.
  - apply (chain_move d _ _ x.1); [|eapply Forall_impl; [exact Hgt|]|done].
    + rewrite (get2byte_frame _ _ _ _ _ O2) by lia. rewrite <- (chain_link _ _ _ Cl).
      by apply (holds_get2byte d d1 x.1 a b).
    + intros z Hz. cbn in Hz. unfold spares. split; apply get2byte_eq; apply Hout; lia.
  - eapply asc_mono; [|done]. lia.
  - done.
  - intros y [Hy _]. split; [|done]. destruct l as [|z l]; [done|]. lia.
  - apply (content_perm _ _ ((x.1, nByte) :: O ++ l)); [done|].
    apply content_shrink; [|lia]. eapply content_perm; [|exact Hcon]. symmetry. apply Permutation_middle.
  - rewrite (rd_wr _ _ _ _ _ E2), Z.eqb_refl. f_equal. apply u8_id. unfold is_byte. lia.
  - intros i Hi Hi' _. by apply Hout.
Qed.

(** The end of the block [x] is used. *)
Lemma take_end_ok d a lo O x l f nByte : page_bytes d -> chain d a (x :: l) -> asc lo (x :: l) ->
  a + 2 <= lo -> hdr + 1 <= a -> spaced (x :: l) ->
  content top usable (O ++ x :: l) f -> rd d (hdr + 7) = Some f ->
  4 <= nByte -> nByte + 4 <= x.2 ->
  exists d', put2byte d (x.1 + 2) (x.2 - nByte) = Ret d' /\
    found d a lo O (x :: l) nByte (x.1 + x.2 - nByte) d'.
Proof.
  intros (Hb & Hu & Hu' & Hh & Ht) (Ca & C2 & Cl) [Hlo Hasc] Halo Ha [Hsp1 Hsp] Hcon Hf Hn Hm.
  pose proof Hcon as (_ & Hin & _). apply Forall_app in Hin as [_ [Hx Hin]%Forall_cons]. unfold in_area in Hx.
  assert (Forall (fun z => 4 <= z.2) l) as H4 by (eapply Forall_impl; [exact Hin|]; unfold in_area; intros; lia).
  pose proof (asc_Forall _ _ Hasc H4) as Hgt.
  destruct (put2byte_ok d (x.1 + 2) (x.2 - nByte)) as (d' & E & G & B & O'); [done|lia|lia|lia|].
  pose proof O' as [L O''].
  exists d'. split; [done|]. exists ((x.1, x.2 - nByte) :: l), f. split_and!.
  - split_and!; done || lia.
  - done.
  - cbn. split_and!; [by rewrite (get2byte_frame _ _ _ _ _ O') by lia|done|].
    apply (chain_frame d); [by apply (get2byte_frame _ _ _ _ _ O'); lia|eapply Forall_impl; [exact Hgt|]|done].
    intros z Hz. cbn in Hz. unfold spares. rewrite !(get2byte_frame _ _ _ _ _ O') by lia. done.
  - cbn. split; [done|]. eapply asc_mono; [|done]. lia.
  - cbn. split; [|done]. destruct l as [|z l]; [done|]. lia.
  - intros y [Hy _]. cbn in *. split; [done|]. split; [|done]. destruct l as [|z l]; [done|]. lia.
  - apply (content_perm _ _ ((x.1 + x.2 - nByte, nByte) :: (x.1, x.2 - nByte) :: O ++ l)).
    { apply perm_skip, Permutation_middle. }
    apply content_divide; [|lia..]. eapply content_perm; [|exact Hcon]. symmetry. apply Permutation_middle.
  - rewrite O'' by lia. done.
  - intros i Hi Hi' [Hix _]%Forall_cons. apply O''. lia.
Qed.

Lemma alloc_search_ok fuel nByte : forall d a lo O l f, page_bytes d -> chain d a l -> asc lo l ->
  a + 2 <= lo -> hdr + 1 <= a -> a + 2 <= hdr + 7 \/ hdr + 8 <= a -> spaced l ->
  content top usable (O ++ l) f -> top <= usable -> rd d (hdr + 7) = Some f -> f < 60 -> 4 <= nByte ->
  (length l < fuel)%nat ->
  alloc_search fuel d hdr f a nByte = Ret None \/
  exists addr d', alloc_search fuel d hdr f a nByte = Ret (Some (addr, d')) /\ found d a lo O l nByte addr d'.
Proof.
  induction fuel as [|fuel IH]; intros d a lo O l f Hd Hc Hasc Halo Ha Ha7 Hsp Hcon Htu Hf Hf60 Hn Hl; [lia|].
  cbn [alloc_search]. rewrite (chain_link _ _ _ Hc). crun.
  destruct l as [|x l]; cbn [link_to]; [by left|].
  pose proof (content_frag top usable _ f Htu Hcon) as Hf0.
  pose proof Hd as (_ & _ & _ & Hh & Ht). pose proof Hc as (Ca & C2 & Cl).
  pose proof Hcon as (_ & Hin & _). apply Forall_app in Hin as [_ [Hx Hin]%Forall_cons]. unfold in_area in Hx.
  rewrite (proj2 (Z.ltb_lt 0 x.1)), C2 by lia. crun.
  destruct (Z.leb_spec nByte x.2) as [Hle|Hgt]; [destruct (Z.ltb_spec x.2 (nByte + 4)) as [Hlt|Hge]|].
  - right. destruct (take_whole_ok d a lo O x l f nByte) as (b & d1 & d2 & E1 & E2 & E3 & Hfound); try done.
    rewrite E1. crun. rewrite E2. crun. rewrite E3. crun. by exists x.1, d2.
  - right. destruct (take_end_ok d a lo O x l f nByte) as (d' & E & Hfound); try done.
    rewrite E. crun. by exists (x.1 + x.2 - nByte), d'.
  - assert (Forall (fun z => 4 <= z.2) l) as H4 by (eapply Forall_impl; [exact Hin|]; unfold in_area; intros; lia).
    destruct Hasc as [Hlo Hasc]. pose proof (asc_Forall _ _ Hasc H4) as Hgt'.
    destruct (IH d x.1 (x.1 + x.2) (O ++ [x]) l f) as [E|(addr & d' & E & l' & f' & H1 & H2 & H3 & H4' & H5 & H6 & H7 & H8 & H9)];
      try done; try lia; [by destruct Hsp|by rewrite <- app_assoc|cbn in Hl; lia|by left|].
    right. exists addr, d'. split; [done|]. exists (x :: l'), f'. split_and!; try done.
    + cbn. rewrite <- Ca, <- C2. split_and!; [| |done]; apply get2byte_eq; apply H9; try lia;
        (eapply Forall_impl; [exact Hgt'|]; cbn; intros; lia).
    + by apply H6.
    + intros y [Hy _]. split; [done|]. by apply H6.
    + by rewrite <- app_assoc in H7.
    + intros i Hi Hi' [Hix Hil]%Forall_cons. apply H9; [done|lia|done].
Qed.

End allocate.
