(* ===== verification/BtreeCells.v ===== *)
(** * The cells of a b-tree page

    A page holds a list of cells: the pointer array says where each lies, and
    the regions of the cells are the regions in use ([page_holds]).  The file
    shows that [defragmentPage], [allocateSpace], [insertCell], [dropCell] and
    [zeroPage] work on this list, that [sqlite3BtreeInitPage] reads the bytes
    of a page back, and that it looks at any bytes without harm. *)

From S2P Require Import Prelude Varint PageBytes BtreePage BtreeSpace.

(** ** Changing the bytes outside of the content area *)

Lemma layout_perm pBt p k used used' free top : used ≡ₚ used' ->
  layout pBt p k used free top -> layout pBt p k used' free top.
Proof.
  intros Hp [Hgeo Hk Htop Hgap Hc Hasc Hsp (f & Hcon & Hf) HnF].
  constructor; try done; [|by rewrite <- Hp].
  exists f. split; [|done]. eapply content_perm; [|done]. by rewrite Hp.
Qed.

Lemma layout_free pBt p k used free top : layout pBt p k used free top ->
  Forall (in_area top (usableSize pBt)) used /\ Forall (in_area top (usableSize pBt)) free.
Proof. intros [_ _ _ _ _ _ _ (f & (_ & Hin & _) & _) _]. by apply Forall_app. Qed.

Lemma layout_nFree pBt p k used free top : layout pBt p k used free top ->
  top - (cellOffset p + 2 * k) <= nFree p <= usableSize pBt - (cellOffset p + 2 * k).
Proof.
  intros Hlay. pose proof (layout_free _ _ _ _ _ _ Hlay) as [Hu Hf].
  destruct Hlay as [Hgeo Hk _ Hgap _ _ _ (f & Hcon & _) HnF]. pose proof (geometry_hdr _ _ Hgeo).
  pose proof (content_frag top _ _ f (proj2 Hgap) Hcon) as Hf0. destruct Hcon as (_ & _ & ->).
  rewrite sizes_app in Hf0. pose proof (inside_sizes_nonneg _ _ _ (in_area_inside _ _ _ Hu)).
  pose proof (inside_sizes_nonneg _ _ _ (in_area_inside _ _ _ Hf)). lia.
Qed.

(** The bytes that the layout speaks of. *)
Definition layout_byte (hdr : Z) (free : list region) (i : Z) : Prop :=
  hdr + 1 <= i < hdr + 3 \/ hdr + 5 <= i < hdr + 8 \/ exists x, x ∈ free /\ x.1 <= i < x.1 + 4.

(** The number of pointers may change with [nFree], and any byte but those. *)
Lemma layout_change pBt p p' k k' used free top :
  layout pBt p k used free top -> geometry pBt p' -> hdrOffset p' = hdrOffset p -> cellOffset p' = cellOffset p ->
  (forall i, layout_byte (hdrOffset p) free i -> rd (aData p') i = rd (aData p) i) ->
  0 <= k' -> cellOffset p + 2 * k' <= top -> nFree p' = nFree p + 2 * (k - k') ->
  layout pBt p' k' used free top.
Proof.
  intros Hlay Hgeo' Eh Ec Hd Hk' Hgap' HnF'.
  destruct Hlay as [Hgeo Hk Htop Hgap Hc Hasc Hsp (f & Hcon & Hf) HnF].
  assert (forall i, layout_byte (hdrOffset p) free i -> layout_byte (hdrOffset p) free (i + 1) ->
    get2byte (aData p') i = get2byte (aData p) i) as Hget by (intros; apply get2byte_eq; by apply Hd).
  constructor; try done; rewrite ?Eh, ?Ec.
  - rewrite Hget; [done|unfold layout_byte; lia..].
  - lia.
  - apply (chain_frame (aData p)); [apply Hget; unfold layout_byte; lia| |done].
    rewrite Forall_forall. intros x Hx.
    split; apply Hget; right; right; exists x; (split; [done|lia]).
  - exists f. split; [done|]. rewrite Hd; [done|]. unfold layout_byte. lia.
  - lia.
Qed.

(** ** The pointer array *)

(** The pointers [ptrs] lie from [a] on. *)
Definition pointers (d : list Z) (a : Z) (ptrs : list Z) : Prop :=
  forall j pc, ptrs !! j = Some pc -> get2byte d (a + 2 * Z.of_nat j) = Ret pc.

Lemma pointers_nil d a : pointers d a [].
Proof. intros j pc H. by destruct j. Qed.

Lemma pointers_cons d a pc ptrs :
  pointers d a (pc :: ptrs) <-> get2byte d a = Ret pc /\ pointers d (a + 2) ptrs.
Proof.
  split.
  - intros H. split; [rewrite <- (Z.add_0_r a); by apply (H 0%nat)|].
    intros j x Hj. rewrite <- (H (S j) x Hj). f_equal. lia.
  - intros [H0 H] [|j] x Hj; [injection Hj as <-; by rewrite Z.mul_0_r, Z.add_0_r|].
    rewrite <- (H j x Hj). f_equal. lia.
Qed.

Lemma pointers_app d a l1 l2 :
  pointers d a (l1 ++ l2) <-> pointers d a l1 /\ pointers d (a + 2 * zlen l1) l2.
Proof.
  revert a. induction l1 as [|x l1 IH]; intros a.
  - cbn [app]. change (zlen []) with 0. rewrite Z.mul_0_r, Z.add_0_r. split; [|tauto].
    intros; split; [apply pointers_nil|done].
  - cbn [app]. rewrite !pointers_cons, IH, zlen_cons.
    replace (a + 2 * (zlen l1 + 1)) with (a + 2 + 2 * zlen l1) by lia. tauto.
Qed.

(** Bytes moved by [s] places carry the pointers with them. *)
Lemma pointers_shift d d' a s ptrs :
  (forall i, a <= i < a + 2 * zlen ptrs -> rd d' (i + s) = rd d i) ->
  pointers d a ptrs -> pointers d' (a + s) ptrs.
Proof.
  intros H Hp j pc Hj. rewrite <- (Hp j pc Hj). apply lookup_lt_Some in Hj.
  unfold get2byte, zlen in *.
  replace (a + s + 2 * Z.of_nat j) with (a + 2 * Z.of_nat j + s) by lia.
  replace (a + 2 * Z.of_nat j + s + 1) with (a + 2 * Z.of_nat j + 1 + s) by lia.
  by rewrite !H by lia.
Qed.

Lemma pointers_same d d' a ptrs :
  (forall i, a <= i < a + 2 * zlen ptrs -> rd d' i = rd d i) -> pointers d a ptrs -> pointers d' a ptrs.
Proof.
  intros H Hp. rewrite <- (Z.add_0_r a). apply (pointers_shift d); [|done].
  intros i Hi. rewrite Z.add_0_r. by apply H.
Qed.

Lemma drop_ptrs_ok n : forall d ptr, bytes_ok d -> 0 <= ptr -> ptr + 2 * Z.of_nat n + 2 <= zlen d ->
  exists d', drop_ptrs n d ptr = Ret d' /\ bytes_ok d' /\ same_outside d d' ptr (ptr + 2 * Z.of_nat n) /\
    forall i, ptr <= i < ptr + 2 * Z.of_nat n -> rd d' i = rd d (i + 2).
Proof.
  induction n as [|n IH]; intros d ptr Hd Hp Hl.
  - exists d. split_and!; [done..|]. intros; lia.
  - cbn [drop_ptrs]. destruct (rd_lt d (ptr + 2)) as [x Ex]; [lia|]. rewrite Ex. crun.
    destruct (wr_ok d ptr x) as [d1 E1]; [lia|]. rewrite E1. crun.
    pose proof (wr_zlen _ _ _ _ E1) as L1. pose proof (wr_outside _ _ _ _ E1) as O1.
    destruct (rd_lt d1 (ptr + 3)) as [y Ey]; [lia|]. rewrite Ey. crun.
    destruct (wr_ok d1 (ptr + 1) y) as [d2 E2]; [lia|]. rewrite E2. crun.
    pose proof (wr_zlen _ _ _ _ E2) as L2. pose proof (wr_outside _ _ _ _ E2) as O2.
    pose proof (bytes_ok_wr _ _ _ _ Hd (rd_Forall _ _ _ _ Hd Ex) E1) as B1.
    pose proof (bytes_ok_wr _ _ _ _ B1 (rd_Forall _ _ _ _ B1 Ey) E2) as B2.
    destruct (IH d2 (ptr + 2)) as (d' & -> & B' & [L' O'] & H'); [done|lia|lia|].
    exists d'. destruct O1 as [_ O1], O2 as [_ O2]. split_and!; [done|done| |].
    + split; [congruence|]. intros i Hi. rewrite O', O2, O1 by lia. done.
    + intros i Hi. destruct (decide (ptr + 2 <= i)).
      * rewrite H', O2, O1 by lia. done.
      * rewrite O' by lia. assert (i = ptr \/ i = ptr + 1) as [-> | ->] by lia.
        -- rewrite O2, (rd_wr _ _ _ _ _ E1), Z.eqb_refl by lia. done.
        -- rewrite (rd_wr _ _ _ _ _ E2), Z.eqb_refl. rewrite <- Ey, O1 by lia. f_equal. lia.
Qed.

Lemma insert_ptrs_ok n : forall fuel d ins, bytes_ok d -> 0 <= ins -> ins + 2 * Z.of_nat n + 2 <= zlen d ->
  (n < fuel)%nat ->
  exists d', insert_ptrs fuel d (ins + 2 * Z.of_nat n) ins = Ret d' /\ bytes_ok d' /\
    same_outside d d' (ins + 2) (ins + 2 * Z.of_nat n + 2) /\
    forall i, ins <= i < ins + 2 * Z.of_nat n -> rd d' (i + 2) = rd d i.
Proof.
  induction n as [|n IH]; intros fuel d ins Hd Hp Hl Hf; (destruct fuel as [|fuel]; [lia|]); cbn [insert_ptrs].
  - rewrite (proj2 (Z.ltb_ge ins _)) by lia. exists d. split_and!; [done..|]. intros; lia.
  - set (j := ins + 2 * Z.of_nat (S n)). rewrite (proj2 (Z.ltb_lt ins j)) by lia.
    destruct (rd_lt d (j - 2)) as [x Ex]; [lia|]. rewrite Ex. crun.
    destruct (wr_ok d j x) as [d1 E1]; [lia|]. rewrite E1. crun.
    pose proof (wr_zlen _ _ _ _ E1) as L1. pose proof (wr_outside _ _ _ _ E1) as O1.
    destruct (rd_lt d1 (j - 1)) as [y Ey]; [lia|]. rewrite Ey. crun.
    destruct (wr_ok d1 (j + 1) y) as [d2 E2]; [lia|]. rewrite E2. crun.
    pose proof (wr_zlen _ _ _ _ E2) as L2. pose proof (wr_outside _ _ _ _ E2) as O2.
    pose proof (bytes_ok_wr _ _ _ _ Hd (rd_Forall _ _ _ _ Hd Ex) E1) as B1.
    pose proof (bytes_ok_wr _ _ _ _ B1 (rd_Forall _ _ _ _ B1 Ey) E2) as B2.
    replace (j - 2) with (ins + 2 * Z.of_nat n) by lia.
    destruct (IH fuel d2 ins) as (d' & -> & B' & [L' O'] & H'); [done|lia|lia|lia|].
    exists d'. destruct O1 as [_ O1], O2 as [_ O2]. split_and!; [done|done| |].
    + split; [congruence|]. intros i Hi. rewrite O', O2, O1 by lia. done.
    + intros i Hi. destruct (decide (i < ins + 2 * Z.of_nat n)).
      * rewrite H', O2, O1 by lia. done.
      * rewrite O' by lia. assert (i = j - 2 \/ i = j - 1) as [-> | ->] by lia.
        -- replace (j - 2 + 2) with j by lia.
           rewrite O2, (rd_wr _ _ _ _ _ E1), Z.eqb_refl by lia. done.
        -- replace (j - 1 + 2) with (j + 1) by lia.
           rewrite (rd_wr _ _ _ _ _ E2), Z.eqb_refl. rewrite <- Ey, O1 by lia. done.
Qed.

Lemma pointers_insert d a l1 l2 pc fuel : bytes_ok d -> pointers d a (l1 ++ l2) -> 0 <= a ->
  a + 2 * (zlen (l1 ++ l2) + 1) <= zlen d -> 0 <= pc < 65536 -> (length l2 < fuel)%nat ->
  exists d1 d2, insert_ptrs fuel d (a + 2 * zlen (l1 ++ l2)) (a + 2 * zlen l1) = Ret d1 /\
    put2byte d1 (a + 2 * zlen l1) pc = Ret d2 /\ bytes_ok d2 /\ pointers d2 a (l1 ++ pc :: l2) /\
    same_outside d d2 a (a + 2 * (zlen (l1 ++ l2) + 1)).
Proof.
  intros Hd [Hp1 Hp2]%pointers_app Ha Hl Hpc Hf. rewrite zlen_app in *.
  pose proof (zlen_nonneg l1). pose proof (zlen_nonneg l2). set (ins := a + 2 * zlen l1).
  destruct (insert_ptrs_ok (length l2) fuel d ins) as (d1 & E1 & B1 & [L1 O1] & H1);
    [done|unfold ins; lia|unfold ins, zlen in *; lia|done|].
  replace (a + 2 * (zlen l1 + zlen l2)) with (ins + 2 * Z.of_nat (length l2)) by (unfold ins, zlen; lia).
  destruct (put2byte_ok d1 ins pc) as (d2 & E2 & G2 & B2 & [L2 O2]); [done|unfold ins; lia|unfold ins; lia|done|].
  fold (zlen l2) in O1, H1. exists d1, d2. split_and!; [done..| |].
  - apply pointers_app. fold ins. split; [|apply pointers_cons; split; [done|]].
    + apply (pointers_same d); [|done]. intros i Hi. rewrite O2, O1 by (unfold ins; lia). done.
    + apply (pointers_shift d); [|done]. fold ins. intros i Hi. rewrite O2 by lia. apply H1. lia.
  - split; [congruence|]. intros i Hi. rewrite O2, O1 by (unfold ins; lia). done.
Qed.

Lemma pointers_delete d a l1 pc l2 : bytes_ok d -> pointers d a (l1 ++ pc :: l2) -> 0 <= a ->
  a + 2 * (zlen l1 + zlen l2 + 1) <= zlen d ->
  exists d1, drop_ptrs (length l2) d (a + 2 * zlen l1) = Ret d1 /\ bytes_ok d1 /\ pointers d1 a (l1 ++ l2) /\
    same_outside d d1 a (a + 2 * (zlen l1 + zlen l2)).
Proof.
  intros Hd [Hp1 [_ Hp2]%pointers_cons]%pointers_app Ha Hl.
  pose proof (zlen_nonneg l1). pose proof (zlen_nonneg l2).
  destruct (drop_ptrs_ok (length l2) d (a + 2 * zlen l1)) as (d1 & E1 & B1 & [L1 O1] & H1);
    [done|lia|unfold zlen in *; lia|].
  fold (zlen l2) in O1, H1. exists d1. split_and!; [done..| |].
  - apply pointers_app. split.
    + apply (pointers_same d); [|done]. intros i Hi. apply O1. lia.
    + replace (a + 2 * zlen l1) with (a + 2 * zlen l1 + 2 + -2) by lia.
      apply (pointers_shift d); [|done]. intros i Hi. rewrite H1 by lia. f_equal. lia.
  - split; [done|]. intros i Hi. apply O1. lia.
Qed.

(** ** Cells *)

Notation regions_of := (zip_with (fun (pc : Z) (c : list Z) => (pc, zlen c))).

Lemma regions_insert q1 q2 pc (c1 c2 : list (list Z)) c : length q1 = length c1 ->
  regions_of (q1 ++ pc :: q2) (c1 ++ c :: c2) ≡ₚ (pc, zlen c) :: regions_of (q1 ++ q2) (c1 ++ c2).
Proof. intros H. rewrite !zip_with_app by done. cbn. symmetry. apply Permutation_middle. Qed.

Lemma sizes_regions ptrs (cells : list (list Z)) : length ptrs = length cells ->
  sizes (regions_of ptrs cells) = foldr (fun c n => zlen c + n) 0 cells.
Proof.
  revert cells. unfold sizes. induction ptrs as [|pc ptrs IH]; intros [|c cells] Hl; try done.
  cbn. rewrite IH; [done|]. by injection Hl.
Qed.

Lemma regions_size ptrs (cells : list (list Z)) : Forall (fun c => 4 <= zlen c) cells ->
  Forall (fun x => 4 <= x.2) (regions_of ptrs cells).
Proof.
  intros H. revert ptrs. induction H as [|c cells Hc _ IH]; intros [|pc ptrs]; cbn; constructor; auto.
Qed.

Section cells.
Context (pBt : BtShared).
Notation usable := (usableSize pBt).

(** A cell that its size can be read from, on the page [p]. *)
Definition wf_cell (p : MemPage) (c : list Z) : Prop :=
  bytes_ok c /\ 4 <= zlen c < 65536 /\ forall rest, bytes_ok rest -> cellSizePtr pBt p (c ++ rest) = Ret (zlen c).

(** The flags in the header are those that the page was decoded with. *)
Definition flagged (p : MemPage) : Prop :=
  exists f, rd (aData p) (hdrOffset p) = Some f /\ decodeFlags pBt p f = p.

Definition cells_at (p : MemPage) (ptrs : list Z) (cells : list (list Z)) : Prop :=
  length ptrs = length cells /\ pointers (aData p) (cellOffset p) ptrs /\
  Forall2 (holds (aData p)) ptrs cells /\ Forall (wf_cell p) cells /\
  get2byte (aData p) (hdrOffset p + 3) = Ret (zlen cells) /\ nCell p = zlen cells /\ flagged p.

(** The page [p] holds the list [cells]. *)
Definition page_holds (p : MemPage) (cells : list (list Z)) : Prop :=
  exists ptrs free top, layout pBt p (zlen cells) (regions_of ptrs cells) free top /\ cells_at p ptrs cells.

(** What says how the cells of a page are read. *)
Definition same_kind (p p' : MemPage) : Prop :=
  set_ovfl [] (set_idxShift false (set_nCell 0 (set_data [] (set_nFree 0 p')))) =
  set_ovfl [] (set_idxShift false (set_nCell 0 (set_data [] (set_nFree 0 p)))).

Lemma same_fields_kind p p' : same_fields p p' -> same_kind p p'.
Proof. unfold same_fields, same_kind. by intros ->. Qed.

Lemma same_kind_trans p1 p2 p3 : same_kind p1 p2 -> same_kind p2 p3 -> same_kind p1 p3.
Proof. unfold same_kind. congruence. Qed.

Lemma same_kind_eqs p p' : same_kind p p' ->
  hdrOffset p' = hdrOffset p /\ cellOffset p' = cellOffset p /\ leaf p' = leaf p /\ pgno p' = pgno p.
Proof. unfold same_kind. by intros [=]. Qed.

Lemma same_kind_size p p' c : same_kind p p' -> cellSizePtr pBt p' c = cellSizePtr pBt p c.
Proof.
  intros H. change (cellSizePtr pBt p' c) with
    (cellSizePtr pBt (set_ovfl [] (set_idxShift false (set_nCell 0 (set_data [] (set_nFree 0 p'))))) c).
  by rewrite H.
Qed.

Lemma same_kind_wf p p' c : same_kind p p' -> wf_cell p c -> wf_cell p' c.
Proof.
  intros H (? & ? & Hs). split_and!; try done; [lia..|]. intros rest Hr. rewrite (same_kind_size p) by done. by apply Hs.
Qed.

Lemma flagged_kind p p' : same_kind p p' -> flagged p ->
  rd (aData p') (hdrOffset p) = rd (aData p) (hdrOffset p) -> flagged p'.
Proof.
  intros H (f & Hf & Hdec) Hrd. exists f. rewrite (proj1 (same_kind_eqs _ _ H)), Hrd. split; [done|].
  destruct p, p'. unfold same_kind in H. unfold decodeFlags in *. cbn in *. injection H as ->. injection Hdec as ->. subst.
  done.
Qed.

Lemma same_fields_eqs p p' : same_fields p p' ->
  hdrOffset p' = hdrOffset p /\ cellOffset p' = cellOffset p /\ leaf p' = leaf p /\ nCell p' = nCell p /\
  aOvfl p' = aOvfl p /\ pgno p' = pgno p.
Proof. unfold same_fields, set_data, set_nFree. intros [=]. done. Qed.

Lemma same_fields_trans p1 p2 p3 : same_fields p1 p2 -> same_fields p2 p3 -> same_fields p1 p3.
Proof. unfold same_fields. congruence. Qed.

(** The size of a cell that lies among other bytes. *)
Lemma wf_cell_size p c d pc : wf_cell p c -> bytes_ok d -> holds d pc c ->
  cellSizePtr pBt p (drop (Z.to_nat pc) d) = Ret (zlen c).
Proof.
  intros (_ & _ & Hs) Hd Hpc. destruct (holds_drop _ _ _ Hpc) as [rest E]. rewrite E. apply Hs.
  apply (Forall_drop _ (Z.to_nat pc)) in Hd. rewrite E in Hd. by apply Forall_app in Hd as [_ ?].
Qed.

Lemma wf_cell_self p c : wf_cell p c -> cellSizePtr pBt p c = Ret (zlen c).
Proof. intros (_ & _ & Hs). rewrite <- (app_nil_r c) at 1. apply Hs. constructor. Qed.

(** ** Defragmenting *)

(** Where the cells go, one below the other from [brk] down. *)
Fixpoint packed (brk : Z) (cells : list (list Z)) : list Z :=
  match cells with
  | [] => []
  | c :: cells => (brk - zlen c) :: packed (brk - zlen c) cells
  end.

Definition total (cells : list (list Z)) : Z := foldr (fun c n => zlen c + n) 0 cells.

Lemma total_nonneg cells : 0 <= total cells.
Proof. unfold total. induction cells as [|c cells IH]; cbn; [lia|]. pose proof (zlen_nonneg c). lia. Qed.

Lemma packed_length brk cells : length (packed brk cells) = length cells.
Proof. revert brk. induction cells as [|c cells IH]; intros brk; cbn; [done|]. by rewrite IH. Qed.

Lemma packed_below brk cells :
  Forall (fun x => x.1 + x.2 <= brk /\ brk - total cells <= x.1) (regions_of (packed brk cells) cells).
Proof.
  revert brk. induction cells as [|c cells IH]; intros brk; cbn; [constructor|].
  pose proof (total_nonneg cells). unfold total in *. constructor; [cbn; lia|].
  eapply Forall_impl; [apply IH|]. cbn. pose proof (zlen_nonneg c). intros; lia.
Qed.

Lemma packed_content cells : Forall (fun c => 4 <= zlen c) cells ->
  content (usable - total cells) usable (regions_of (packed usable cells) cells) 0.
Proof.
  intros H4. split_and!.
  - generalize usable. induction H4 as [|c cells Hc _ IH]; intros brk; cbn; [done|]. split; [|apply IH].
    eapply Forall_impl; [apply packed_below|]. unfold apart. cbn. intros; lia.
  - pose proof (packed_below usable cells) as Hb. pose proof (regions_size (packed usable cells) cells H4) as Hs.
    rewrite Forall_forall in Hb, Hs |- *. intros x Hx. specialize (Hb x Hx). specialize (Hs x Hx).
    unfold in_area. cbn in Hb, Hs. lia.
  - rewrite sizes_regions by apply packed_length. unfold total. lia.
Qed.

(** Moving the cells one after the other out of [temp]. *)
Lemma defrag_loop_ok p temp : forall cells ptrs i data brk,
  bytes_ok data -> bytes_ok temp -> 0 <= i -> usable <= zlen data -> brk <= usable -> usable <= 32768 ->
  0 <= cellOffset p -> cellOffset p + 2 * (i + zlen cells) <= brk - total cells ->
  pointers data (cellOffset p + i * 2) ptrs ->
  Forall2 (fun pc c => holds temp pc c /\ pc < usable) ptrs cells -> Forall (wf_cell p) cells ->
  exists data', defrag_loop pBt (length cells) i p temp data brk = Ret (data', brk - total cells) /\
    bytes_ok data' /\ zlen data' = zlen data /\
    pointers data' (cellOffset p + i * 2) (packed brk cells) /\
    Forall2 (holds data') (packed brk cells) cells /\
    (forall j, j < cellOffset p + i * 2 \/ cellOffset p + 2 * (i + zlen cells) <= j < brk - total cells \/ brk <= j ->
       rd data' j = rd data j).
Proof.
  induction cells as [|c cells IH]; intros ptrs i data brk Hd Ht Hi Hu Hbrk Hu' Hco Hroom Hp Hc Hwf.
  { cbn. rewrite Z.sub_0_r. exists data. split_and!; try done; apply pointers_nil. }
  apply Forall2_cons_inv_r in Hc as (pc & ptrs' & [Hpc Hlt] & Hc & ->).
  apply Forall_cons in Hwf as [Hwc Hwf]. pose proof Hwc as (Hcb & Hc4 & _). apply pointers_cons in Hp as [Hp0 Hp].
  rewrite zlen_cons in *. cbn [total foldr] in Hroom |- *. fold (total cells) in *.
  pose proof (total_nonneg cells). pose proof (zlen_nonneg cells).
  cbn [length defrag_loop]. rewrite Hp0. crun. rewrite (proj2 (Z.ltb_lt pc usable)) by done. crun.
  rewrite (wf_cell_size p c temp pc) by done. crun.
  rewrite (holds_bytes_at temp pc c) by done. crun.
  destruct (copy_to_ok c data (brk - zlen c)) as (d1 & -> & Hh1 & B1 & O1); [done|done|lia|lia|]. crun.
  pose proof O1 as [L1 O1'].
  destruct (put2byte_ok d1 (cellOffset p + i * 2) (brk - zlen c)) as (d2 & -> & G2 & B2 & O2); [done|lia|lia|lia|].
  crun. pose proof O2 as [L2 O2'].
  destruct (IH ptrs' (i + 1) d2 (brk - zlen c)) as (d' & -> & B' & L' & Hp' & Hc' & O'); try done; try lia.
  { replace (cellOffset p + (i + 1) * 2) with (cellOffset p + i * 2 + 2) by lia.
    apply (pointers_same data); [|done]. intros j Hj. rewrite O2', O1'; [done| |lia].
    apply Forall2_length in Hc. unfold zlen in *. lia. }
  exists d'. split_and!; [f_equal; f_equal; lia|done|congruence| | |].
  - cbn [packed]. apply pointers_cons. split.
    + rewrite <- G2. apply get2byte_eq; apply O'; lia.
    + by replace (cellOffset p + i * 2 + 2) with (cellOffset p + (i + 1) * 2) by lia.
  - cbn [packed]. constructor; [|done].
    apply (holds_frame d2 _ 0 (brk - zlen c)); [split; [done|]; intros j Hj|right; lia|].
    + destruct (decide (brk - zlen c <= j)); [apply O'; lia|].
      unfold rd. by rewrite !decide_False by lia.
    + apply (holds_frame d1 _ _ _ _ _ O2); [right; lia|done].
  - intros j Hj. rewrite O', O2', O1' by lia. done.
Qed.

(** The cells take no more room than the content area has. *)
Lemma total_fits p ptrs cells free top : length ptrs = length cells ->
  layout pBt p (zlen cells) (regions_of ptrs cells) free top -> total cells <= usable - top.
Proof.
  intros Hlen [_ _ _ Hgap _ _ _ (f & Hcon & _) _].
  pose proof (content_frag top usable _ f ltac:(lia) Hcon) as Hf. destruct Hcon as (_ & Hin & ->).
  apply Forall_app in Hin as [_ Hin]. rewrite sizes_app, sizes_regions in Hf by done. fold (total cells) in Hf.
  pose proof (inside_sizes_nonneg _ _ _ (in_area_inside _ _ _ Hin)). lia.
Qed.

(** A copy of the content area has the cells as well. *)
Lemma cells_copied d t top b ptrs cells : Forall2 (holds d) ptrs cells ->
  Forall (in_area top usable) (regions_of ptrs cells) ->
  holds d top b -> holds t top b -> zlen b = usable - top ->
  Forall2 (fun pc c => holds t pc c /\ pc < usable) ptrs cells.
Proof.
  intros Hcells Hin Hd Ht Lb. revert Hin.
  induction Hcells as [|pc c ptrs cells Hpc _ IH]; intros Hin; [constructor|].
  cbn in Hin. apply Forall_cons in Hin as [Hx Hin].
  unfold in_area in Hx. cbn in Hx. constructor; [|by apply IH].
  split; [|lia]. apply (holds_inside d t top b pc c); done || lia.
Qed.

(** The same for cells that lie from [lo] on. *)
Lemma cells_kept d d' lo ptrs cells : Forall2 (holds d) ptrs cells ->
  Forall (fun pc => lo <= pc) ptrs -> zlen d' = zlen d -> (forall i, lo <= i -> rd d' i = rd d i) ->
  Forall2 (holds d') ptrs cells.
Proof.
  intros Hcells Hlo L H. revert Hlo. induction Hcells as [|pc c ptrs cells (Hp & Hl & Hc) _ IH]; intros Hlo; [constructor|].
  apply Forall_cons in Hlo as [Hpc Hlo]. constructor; [|by apply IH].
  split_and!; [done|by rewrite L|]. intros i Hi. rewrite H by lia. by apply Hc.
Qed.

Lemma packed_lo brk cells : Forall (fun pc => brk - total cells <= pc) (packed brk cells).
Proof.
  revert brk. induction cells as [|c cells IH]; intros brk; cbn; [constructor|].
  pose proof (total_nonneg cells). unfold total in *. constructor; [lia|].
  eapply Forall_impl; [apply IH|]. cbn. pose proof (zlen_nonneg c). intros; lia.
Qed.

Lemma defrag_finish_ok d hdr addr brk : bytes_ok d -> 0 <= hdr -> hdr + 8 <= addr <= brk -> brk <= zlen d ->
  brk < 65536 ->
  exists d', defrag_finish d hdr addr brk = Ret d' /\ bytes_ok d' /\ zlen d' = zlen d /\
    get2byte d' (hdr + 5) = Ret brk /\ get2byte d' (hdr + 1) = Ret 0 /\ rd d' (hdr + 7) = Some 0 /\
    forall i, i <= hdr \/ hdr + 3 <= i < hdr + 5 \/ hdr + 8 <= i < addr \/ brk <= i -> rd d' i = rd d i.
Proof.
  intros Hd Hh Haddr Hbrk Hlt. unfold defrag_finish. rewrite (proj2 (Z.leb_le addr brk)) by lia. crun.
  destruct (put2byte_ok d (hdr + 5) brk) as (d2 & -> & G2 & B2 & [L2 O2]); [done|lia|lia|lia|]. crun.
  destruct (wr_ok d2 (hdr + 1) 0) as [d3 E3]; [lia|]. rewrite E3. crun.
  pose proof (wr_outside _ _ _ _ E3) as [L3 O3].
  destruct (wr_ok d3 (hdr + 2) 0) as [d4 E4]; [lia|]. rewrite E4. crun.
  pose proof (wr_outside _ _ _ _ E4) as [L4 O4].
  destruct (wr_ok d4 (hdr + 7) 0) as [d5 E5]; [lia|]. rewrite E5. crun.
  pose proof (wr_outside _ _ _ _ E5) as [L5 O5].
  assert (is_byte 0) as Hb0 by (unfold is_byte; lia).
  assert (bytes_ok d5) as B5.
  { eapply bytes_ok_wr; [|done|exact E5]. eapply bytes_ok_wr; [|done|exact E4]. by eapply bytes_ok_wr. }
  rewrite (proj2 (Z.ltb_ge (brk - addr) 0)) by lia. crun.
  set (gap := replicate _ 0).
  assert (zlen gap = brk - addr) as Lgap by (unfold gap; rewrite zlen_replicate; lia).
  destruct (copy_to_ok gap d5 addr) as (d6 & -> & _ & B6 & [L6 O6]);
    [done|by apply Forall_replicate|lia|lia|].
  exists d6. split_and!; [done|done|congruence| | | |].
  - rewrite <- G2. apply get2byte_eq; rewrite O6, O5, O4, O3 by lia; done.
  - apply (get2byte_val d6 (hdr + 1) 0 0); [| |done].
    + by rewrite O6, O5, O4, (rd_wr _ _ _ _ _ E3), Z.eqb_refl by lia.
    + rewrite O6, O5 by lia. replace (hdr + 1 + 1) with (hdr + 2) by lia.
      by rewrite (rd_wr _ _ _ _ _ E4), Z.eqb_refl.
  - by rewrite O6, (rd_wr _ _ _ _ _ E5), Z.eqb_refl by lia.
  - intros i Hi. rewrite O6, O5, O4, O3, O2 by lia. done.
Qed.

(** [defragmentPage] keeps the list of cells and leaves one gap. *)
Lemma defragment_ok p temp ptrs cells free top :
  layout pBt p (zlen cells) (regions_of ptrs cells) free top -> cells_at p ptrs cells ->
  bytes_ok temp -> usable <= zlen temp ->
  exists p', defragmentPage pBt temp p = Ret p' /\
    layout pBt p' (zlen cells) (regions_of (packed usable cells) cells) [] (usable - total cells) /\
    cells_at p' (packed usable cells) cells /\ same_fields p p' /\ nFree p' = nFree p.
Proof.
  intros Hlay (Hlen & Hptrs & Hcells & Hwf & Hk & HnC & Hflag) Htb Htl.
  pose proof (layout_free _ _ _ _ _ _ Hlay) as [Hinu _]. pose proof (total_fits _ _ _ _ _ Hlen Hlay) as Htop'.
  pose proof Hlay as [Hgeo Hkk Htop Hgap _ _ _ _ HnF]. pose proof (geometry_hdr _ _ Hgeo) as [Hh Hco].
  pose proof Hgeo as (Hhdr & Ecell & Hb & Hu & Hu' & Hov).
  set (d := aData p) in *. set (hdr := hdrOffset p) in *. pose proof (total_nonneg cells) as Htot.
  unfold defragmentPage. fold d hdr. unfold nOverflow. rewrite Hov. change (zlen [] =? 0) with true. crun.
  rewrite Hk. crun. rewrite HnC, Z.eqb_refl. crun. rewrite Htop. crun.
  destruct (bytes_at_ok d top (usable - top)) as (b & -> & Lb & Hhb); [lia..|]. crun.
  destruct (copy_to_ok b temp top) as (temp1 & -> & Hht & Bt1 & Ot1);
    [done|by eapply holds_bytes_ok|lia|lia|]. crun.
  pose proof (cells_copied d temp1 top b ptrs cells Hcells Hinu Hhb Hht Lb) as Hcells'.
  destruct (defrag_loop_ok p temp1 cells ptrs 0 d usable) as (d1 & E1 & B1 & L1 & Hp1 & Hc1 & O1);
    try done; try lia; [by rewrite Z.mul_0_l, Z.add_0_r|].
  replace (Z.to_nat (zlen cells)) with (length cells) by (unfold zlen; lia).
  rewrite E1. crun. rewrite Z.mul_0_l, Z.add_0_r in Hp1. rewrite Z.mul_0_l, Z.add_0_r, Z.add_0_l in O1.
  destruct (defrag_finish_ok d1 hdr (cellOffset p + 2 * zlen cells) (usable - total cells))
    as (d6 & -> & B6 & L6 & H5 & H1 & H7 & Hout); [done|lia..|]. crun.
  eexists. split; [done|]. split_and!; [| |done|done].
  - constructor; cbn; fold hdr; try done.
    + unfold geometry. cbn. split_and!; try done. lia.
    + lia.
    + exists 0. rewrite app_nil_r. split; [|done].
      apply packed_content. eapply Forall_impl; [exact Hwf|]. intros x (_ & ? & _). lia.
    + rewrite HnF. rewrite !sizes_regions by (done || apply packed_length). done.
  - unfold cells_at. cbn. fold hdr. split_and!; try done.
    + apply packed_length.
    + apply (pointers_same d1); [|done]. intros i Hi. apply Hout.
      assert (zlen (packed usable cells) = zlen cells) by (unfold zlen; by rewrite packed_length). lia.
    + apply (cells_kept d1 _ (usable - total cells)); try done; [apply packed_lo|]. intros i Hi. apply Hout. lia.
    + rewrite <- Hk. apply get2byte_eq; rewrite Hout, O1 by lia; done.
    + apply (flagged_kind p); [done|done|]. cbn. rewrite Hout, O1 by lia. done.
Qed.

(** ** Frames *)

Lemma holds_all_frame d d' ptrs cells : zlen d' = zlen d ->
  (forall x i, x ∈ regions_of ptrs cells -> x.1 <= i < x.1 + x.2 -> rd d' i = rd d i) ->
  Forall2 (holds d) ptrs cells -> Forall2 (holds d') ptrs cells.
Proof.
  intros L H Hc. induction Hc as [|pc c ptrs cells (Hp & Hl & Hc) _ IH]; constructor.
  - split_and!; [done|by rewrite L|]. intros i Hi. rewrite (H (pc, zlen c)); [by apply Hc|left|cbn; lia].
  - apply IH. intros x i Hx. apply H. by right.
Qed.

Lemma cells_at_frame p p' k ptrs cells free top : layout pBt p k (regions_of ptrs cells) free top ->
  zlen cells <= k -> cells_at p ptrs cells -> same_fields p p' -> zlen (aData p') = zlen (aData p) ->
  (forall i, untouched p top (regions_of ptrs cells) i -> rd (aData p') i = rd (aData p) i) ->
  cells_at p' ptrs cells.
Proof.
  intros Hlay Hk (Hlen & Hptrs & Hcells & Hwf & H3 & HnC & Hflag) Hs L H.
  destruct (same_fields_eqs _ _ Hs) as (Eh & Ec & _ & En & _).
  pose proof Hlay as [Hgeo _ _ Hgap _ _ _ _ _]. pose proof (geometry_hdr _ _ Hgeo).
  unfold cells_at. rewrite Eh, Ec, En. split_and!; try done.
  - apply (pointers_same (aData p)); [|done]. intros i Hi. apply H. unfold untouched.
    assert (zlen ptrs = zlen cells) by (unfold zlen; by rewrite Hlen). lia.
  - apply (holds_all_frame (aData p)); [done| |done]. intros x i Hx Hi. apply H. do 3 right. eauto.
  - eapply Forall_impl; [exact Hwf|]. intros c. by apply same_kind_wf, same_fields_kind.
  - rewrite <- H3. apply get2byte_eq; apply H; unfold untouched; lia.
  - apply (flagged_kind p); [by apply same_fields_kind|done|]. apply H. unfold untouched. lia.
Qed.

(** What is not touched is not in the first bytes of a free block. *)
Lemma untouched_free p k used free top i : layout pBt p k used free top -> untouched p top used i ->
  i <> hdrOffset p + 7 /\ (i < hdrOffset p + 1 \/ hdrOffset p + 3 <= i) /\
  (i < hdrOffset p + 5 \/ hdrOffset p + 7 <= i) /\ Forall (fun x => i < x.1 \/ x.1 + 4 <= i) free.
Proof.
  intros Hlay Hi. pose proof (layout_free _ _ _ _ _ _ Hlay) as [Hu Hf].
  destruct Hlay as [Hgeo Hk _ Hgap _ _ _ (f & (Hdis & _) & _) _]. pose proof (geometry_hdr _ _ Hgeo).
  destruct Hi as [Hi|[Hi|[Hi|(z & Hz & Hi)]]]; try (split_and!; try lia;
    eapply Forall_impl; [exact Hf|]; unfold in_area; cbn; intros; lia).
  rewrite Forall_forall in Hu. pose proof (Hu z Hz) as Hza. unfold in_area in Hza.
  split_and!; try lia. rewrite Forall_forall in Hf |- *. intros w Hw. pose proof (Hf w Hw) as Hwa.
  apply disj_app in Hdis as (_ & _ & Hx). specialize (Hx z w Hz Hw). unfold in_area, apart in *. lia.
Qed.

(** ** Taking space *)

Lemma defrag_loop_nFree n k : forall i p temp data brk,
  defrag_loop pBt k i (set_nFree n p) temp data brk = defrag_loop pBt k i p temp data brk.
Proof.
  induction k as [|k IH]; intros i p temp data brk; [done|]. cbn [defrag_loop].
  change (cellOffset (set_nFree n p)) with (cellOffset p).
  change (cellSizePtr pBt (set_nFree n p)) with (cellSizePtr pBt p).
  apply bind_ext. intros pc. apply bind_ext. intros []. apply bind_ext. intros size.
  apply bind_ext. intros c. apply bind_ext. intros data1. apply bind_ext. intros data2. apply IH.
Qed.

Lemma defragment_nFree temp n p p' : defragmentPage pBt temp p = Ret p' ->
  defragmentPage pBt temp (set_nFree n p) = Ret (set_nFree n p').
Proof.
  intros H. unfold defragmentPage in *.
  change (nOverflow (set_nFree n p)) with (nOverflow p). change (aData (set_nFree n p)) with (aData p).
  change (hdrOffset (set_nFree n p)) with (hdrOffset p). change (nCell (set_nFree n p)) with (nCell p).
  change (cellOffset (set_nFree n p)) with (cellOffset p).
  apply bind_Ret_inv in H as ([] & -> & H). crun. apply bind_Ret_inv in H as (k & -> & H). crun.
  apply bind_Ret_inv in H as ([] & -> & H). crun. apply bind_Ret_inv in H as (brk & -> & H). crun.
  apply bind_Ret_inv in H as (b & -> & H). crun. apply bind_Ret_inv in H as (t & -> & H). crun.
  rewrite defrag_loop_nFree. apply bind_Ret_inv in H as ([d1 brk1] & -> & H). crun.
  apply bind_Ret_inv in H as (d2 & -> & H). crun. by injection H as <-.
Qed.

Lemma content_grow top l f n : content top usable l f -> 4 <= n -> top <= usable ->
  content (top - n) usable ((top - n, n) :: l) f.
Proof.
  intros (Hd & Hin & ->) Hn Ht. split_and!.
  - split; [|done]. eapply Forall_impl; [exact Hin|]. unfold in_area, apart. cbn. intros; lia.
  - constructor; [unfold in_area; cbn; lia|]. eapply Forall_impl; [exact Hin|]. unfold in_area. intros; lia.
  - unfold sizes. cbn. lia.
Qed.

Lemma sizes_cons x l : sizes (x :: l) = x.2 + sizes l.
Proof. done. Qed.

(** The space comes out of the gap. *)
Lemma take_gap_ok p ptrs cells free top n :
  layout pBt p (zlen cells) (regions_of ptrs cells) free top -> cells_at p ptrs cells ->
  4 <= n -> cellOffset p + 2 * zlen cells <= top - n ->
  exists d', put2byte (aData p) (hdrOffset p + 5) (top - n) = Ret d' /\
    let p' := set_data d' (set_nFree (nFree p - n) p) in
    layout pBt p' (zlen cells) ((top - n, n) :: regions_of ptrs cells) free (top - n) /\
    cells_at p' ptrs cells.
Proof.
  intros Hlay Hcells Hn Hroom. pose proof (layout_free _ _ _ _ _ _ Hlay) as [Hu Hf].
  pose proof Hlay as [Hgeo Hk Htop Hgap Hc Hasc Hsp (f & Hcon & Hf7) HnF].
  pose proof (geometry_hdr _ _ Hgeo) as [Hh Hco]. pose proof Hgeo as (Hhdr & Ecell & Hb & Hub & Hu' & Hov).
  pose proof Hcells as (Hlen & _).
  pose proof (sizes_regions ptrs cells Hlen) as Hsz. fold (total cells) in Hsz.
  pose proof (total_fits _ _ _ _ _ Hlen Hlay). pose proof (total_nonneg cells).
  destruct (put2byte_ok (aData p) (hdrOffset p + 5) (top - n)) as (d' & -> & G & B & [L O]); [done|lia|lia|lia|].
  exists d'. split; [done|]. cbv zeta. split.
  - constructor; cbn; try done.
    + unfold geometry. cbn. rewrite L. done.
    + lia.
    + apply (chain_frame (aData p)); [apply get2byte_eq; apply O; lia|eapply Forall_impl; [exact Hf|]|done].
      unfold in_area, spares. intros x Hx. split; apply get2byte_eq; apply O; lia.
    + eapply asc_mono; [|done]. lia.
    + exists f. split; [apply content_grow; (done || lia)|]. rewrite O; [done|lia].
    + change (u16 (nFree p - n) = usable - (cellOffset p + 2 * zlen cells) - (n + sizes (regions_of ptrs cells))).
      unfold u16. rewrite Z.mod_small; lia.
  - apply (cells_at_frame p _ (zlen cells) ptrs cells free top); try done.
    intros i Hi. cbn. apply O. destruct (untouched_free _ _ _ _ _ _ Hlay Hi) as (_ & _ & ? & _). lia.
Qed.

(** The space comes out of a free block. *)
Lemma take_block_ok p ptrs cells free top n addr d' :
  layout pBt p (zlen cells) (regions_of ptrs cells) free top -> cells_at p ptrs cells -> 4 <= n <= nFree p ->
  found pBt top (hdrOffset p) (aData p) (hdrOffset p + 1) top (regions_of ptrs cells) free n addr d' ->
  exists free', let p' := set_data d' (set_nFree (nFree p - n) p) in
    layout pBt p' (zlen cells) ((addr, n) :: regions_of ptrs cells) free' top /\ cells_at p' ptrs cells.
Proof.
  intros Hlay Hcells Hn (l' & f' & Hd' & L & Hc' & Hasc' & Hsp' & _ & Hcon' & Hf' & O).
  pose proof Hlay as [Hgeo Hk Htop Hgap Hc Hasc Hsp (f & Hcon & Hf7) HnF].
  pose proof (geometry_hdr _ _ Hgeo) as [Hh Hco]. pose proof Hgeo as (Hhdr & Ecell & Hb & Hub & Hu' & Hov).
  pose proof Hcells as (Hlen & _).
  assert (forall i, untouched p top (regions_of ptrs cells) i -> rd d' i = rd (aData p) i) as Hun.
  { intros i Hi. destruct (untouched_free _ _ _ _ _ _ Hlay Hi) as (? & ? & _ & ?). apply O; [done|lia|done]. }
  exists l'. cbv zeta. split; [|by apply (cells_at_frame p _ (zlen cells) ptrs cells free top)].
  pose proof (layout_free _ _ _ _ _ _ Hlay) as [_ Hf].
  constructor; cbn; try done.
  - unfold geometry. cbn. rewrite L. destruct Hd' as (? & _). done.
  - rewrite <- Htop. apply get2byte_eq; apply O; try lia; (eapply Forall_impl; [exact Hf|]; unfold in_area; intros; lia).
  - by exists f'.
  - change (u16 (nFree p - n) = usable - (cellOffset p + 2 * zlen cells) - (n + sizes (regions_of ptrs cells))).
    unfold u16. rewrite Z.mod_small; [lia|]. rewrite sizes_regions in HnF by done. fold (total cells) in HnF.
    pose proof (total_nonneg cells). lia.
Qed.

(** [allocateSpace] on a page with room in the gap. *)
Lemma allocateSpace_ok p temp ptrs cells free top n :
  layout pBt p (zlen cells) (regions_of ptrs cells) free top -> cells_at p ptrs cells ->
  bytes_ok temp -> usable <= zlen temp -> 4 <= n -> cellOffset p + 2 * (zlen cells + 1) <= top - n ->
  exists addr p' ptrs' free' top', allocateSpace pBt temp p n = Ret (addr, p') /\ 0 < addr /\
    layout pBt p' (zlen cells) ((addr, n) :: regions_of ptrs' cells) free' top' /\ cells_at p' ptrs' cells /\
    same_fields p p' /\ cellOffset p + 2 * (zlen cells + 1) <= top'.
Proof.
  intros Hlay Hcells Htb Htl Hn Hroom.
  pose proof Hlay as [Hgeo Hk Htop Hgap Hc Hasc Hsp (f & Hcon & Hf7) HnF].
  pose proof (geometry_hdr _ _ Hgeo) as [Hh Hco]. pose proof Hgeo as (Hhdr & Ecell & Hb & Hub & Hu' & Hov).
  pose proof Hcells as (Hlen & _ & _ & _ & H3 & HnC & _).
  pose proof (sizes_regions ptrs cells Hlen) as Hsz. fold (total cells) in Hsz.
  pose proof (total_fits _ _ _ _ _ Hlen Hlay) as Htot.
  unfold allocateSpace. rewrite (proj2 (Z.ltb_ge n 4)) by lia. unfold nOverflow. rewrite Hov.
  rewrite (proj2 (Z.ltb_ge (nFree p) n)) by lia. change (false || (0 <? zlen [])) with false. cbv iota.
  change (hdrOffset (set_nFree (nFree p - n) p)) with (hdrOffset p).
  change (aData (set_nFree (nFree p - n) p)) with (aData p).
  change (cellOffset (set_nFree (nFree p - n) p)) with (cellOffset p). rewrite Hf7. crun.
  assert (exists r, (if f <? 60 then alloc_search (S (length (aData p))) (aData p) (hdrOffset p) f (hdrOffset p + 1) n
                     else Ret None) = Ret r /\
    (r = None \/ exists addr d', r = Some (addr, d') /\
       found pBt top (hdrOffset p) (aData p) (hdrOffset p + 1) top (regions_of ptrs cells) free n addr d'))
    as (r & -> & Hr).
  { destruct (Z.ltb_spec f 60); [|by exists None; eauto].
    pose proof (content_length top usable _ f ltac:(lia) Hcon) as Hl. rewrite zlen_app in Hl.
    pose proof (zlen_nonneg (regions_of ptrs cells)).
    destruct (alloc_search_ok pBt top (hdrOffset p) (S (length (aData p))) n (aData p) (hdrOffset p + 1) top
      (regions_of ptrs cells) free f) as [-> | (addr & d' & -> & Hfound)];
      [unfold page_bytes; split_and!; done || lia|done|done|lia|lia|lia|done|done|lia|done|lia|lia
      |unfold zlen in *; lia|by eauto|]. by exists (Some (addr, d')); eauto 6. }
  crun. destruct Hr as [-> | (addr & d' & -> & Hfound)].
  - rewrite Htop, H3. crun. destruct (Z.leb_spec 60 f); cbn [orb].
    + destruct (defragment_ok p temp ptrs cells free top) as (p' & E & Hlay' & Hcells' & Hs & HnF'); [done..|].
      rewrite (defragment_nFree _ _ _ _ E). crun. destruct (same_fields_eqs _ _ Hs) as (Eh & Ec & _ & _ & _).
      change (get2byte (aData (set_nFree (nFree p - n) p'))) with (get2byte (aData p')).
      rewrite <- Eh, (l_top _ _ _ _ _ _ Hlay'). crun. rewrite <- Ec. rewrite (proj2 (Z.leb_le _ _)) by lia. crun.
      destruct (take_gap_ok p' (packed usable cells) cells [] (usable - total cells) n) as (d' & E' & Hlay2 & Hcells2);
        [done..|lia|].
      change (aData (set_nFree (nFree p - n) p')) with (aData p'). rewrite E'. crun.
      rewrite HnF' in Hlay2, Hcells2.
      eexists _, _, _, _, _. split_and!; [done|lia|done|done| |lia]. unfold same_fields in *.
      by rewrite <- Hs.
    + rewrite (proj2 (Z.ltb_ge (top - n) _)) by lia. crun. rewrite (proj2 (Z.leb_le _ _)) by lia. crun.
      destruct (take_gap_ok p ptrs cells free top n) as (d' & E & Hlay2 & Hcells2); [done..|lia|].
      change (aData (set_nFree (nFree p - n) p)) with (aData p). rewrite E. crun.
      eexists _, _, _, _, _. split_and!; [done|lia|done|done|done|lia].
  - destruct (take_block_ok p ptrs cells free top n addr d') as (free' & Hlay2 & Hcells2); [done..|lia|done|].
    eexists _, _, _, _, _. split_and!; [done| |done|done|done|lia].
    pose proof (layout_free _ _ _ _ _ _ Hlay2) as [[Hx _]%Forall_cons _]. unfold in_area in Hx. cbn in Hx. lia.
Qed.
End cells.
