(* ===== verification/BtreeEdit.v ===== *)
(** * A b-tree page refines a list of cells

    [insertCell], [dropCell] and [zeroPage] on the list of cells that a page
    holds, and runs of them: as long as the cells and their pointers fit, the
    page holds the list on which the same insertions and removals were made,
    and the first cell that does not fit is kept beside the page. *)

From S2P Require Import Prelude Varint PageBytes BtreePage BtreeParse BtreeSpace BtreeCells.

Section edit.
Context (pBt : BtShared).
Notation usable := (usableSize pBt).
Notation layout := (layout pBt).
Notation wf_cell := (wf_cell pBt).
Notation cells_at := (cells_at pBt).
Notation page_holds := (page_holds pBt).

(** ** A cell goes into the space that was found *)

Lemma place_cell_ok p q1 q2 c1 c2 c free top addr : length q1 = length c1 -> length q2 = length c2 ->
  layout p (zlen (c1 ++ c2)) ((addr, zlen c) :: regions_of (q1 ++ q2) (c1 ++ c2)) free top ->
  cells_at p (q1 ++ q2) (c1 ++ c2) -> wf_cell p c ->
  cellOffset p + 2 * (zlen (c1 ++ c2) + 1) <= top ->
  let k := zlen (c1 ++ c2) in
  let ins := cellOffset p + 2 * zlen c1 in
  exists d1 d2 d3 d4, copy_to (aData p) addr c = Ret d1 /\
    insert_ptrs (S (length d1)) d1 (cellOffset p + 2 * k) ins = Ret d2 /\
    put2byte d2 ins addr = Ret d3 /\ put2byte d3 (hdrOffset p + 3) (k + 1) = Ret d4 /\
    let p' := set_idxShift true (set_data d4 (set_nFree (nFree p - 2) (set_nCell (k + 1) p))) in
    layout p' (k + 1) (regions_of (q1 ++ addr :: q2) (c1 ++ c :: c2)) free top /\
    cells_at p' (q1 ++ addr :: q2) (c1 ++ c :: c2).
Proof.
  intros Hl1 Hl2 Hlay (Hlen & Hptrs & Hcells & Hwf & H3 & HnC & Hflag) (Hcb & Hc4 & Hcs) Hroom k ins.
  pose proof (layout_free _ _ _ _ _ _ Hlay) as [[Ha Hu]%Forall_cons Hf]. unfold in_area in Ha. cbn in Ha.
  pose proof (layout_nFree _ _ _ _ _ _ Hlay) as Hnf. pose proof Hlay as [Hgeo Hk Htop Hgap _ _ _ (f & (Hdis & _) & _) HnF]. cbn in Hdis.
  pose proof (geometry_hdr _ _ Hgeo) as [Hh Hco]. pose proof Hgeo as (Hhdr & Ecell & Hb & Hub & Hu' & Hov).
  assert (zlen (q1 ++ q2) = k) as Eq by (unfold zlen, k; by rewrite Hlen).
  assert (zlen q1 = zlen c1) as Eq1 by (unfold zlen; by rewrite Hl1).
  destruct (copy_to_ok c (aData p) addr) as (d1 & E1 & Hh1 & B1 & O1); [done|done|lia|lia|]. pose proof O1 as [L1 O1'].
  destruct (pointers_insert d1 (cellOffset p) q1 q2 addr (S (length d1)))
    as (d2 & d3 & E2 & E3 & B3 & P3 & [L3 O3]);
    [done| |lia|lia|lia|rewrite length_app in Hlen; unfold zlen in *; rewrite length_app in *; lia|].
  { apply (pointers_same (aData p)); [|done]. intros i Hi. apply O1'. lia. }
  rewrite Eq, Eq1 in *.
  destruct (put2byte_ok d3 (hdrOffset p + 3) (k + 1)) as (d4 & E4 & G4 & B4 & [L4 O4]); [done|lia|lia|lia|].
  exists d1, d2, d3, d4. split_and!; [done..|]. cbv zeta.
  assert (forall i, cellOffset p + 2 * (k + 1) <= i -> (i < addr \/ addr + zlen c <= i) -> rd d4 i = rd (aData p) i)
    as Hout by (intros i Hi Hi'; rewrite O4, O3, O1' by lia; done).
  assert (forall i, i < hdrOffset p + 3 \/ hdrOffset p + 5 <= i < cellOffset p -> rd d4 i = rd (aData p) i)
    as Hout' by (intros i Hi; rewrite O4, O3, O1' by lia; done).
  assert (same_kind p (set_idxShift true (set_data d4 (set_nFree (nFree p - 2) (set_nCell (k + 1) p))))) as Hkind
    by (destruct p; done).
  destruct Hdis as [Hap Hdis]. rewrite Forall_app in Hap. destruct Hap as [Hapu Hapf].
  split.
  - apply (layout_perm _ _ _ _ _ _ _ (symmetry (regions_insert q1 q2 addr c1 c2 c Hl1))).
    eapply layout_change; [exact Hlay| |done|done| |lia|done|].
    + unfold geometry. cbn. split_and!; try done. lia.
    + cbn. intros i [Hi|[Hi|(x & Hx & Hi)]]; [apply Hout'; lia..|].
      rewrite Forall_forall in Hapf, Hf. specialize (Hapf x Hx). specialize (Hf x Hx).
      unfold apart, in_area in *. cbn in Hapf. apply Hout; lia.
    + cbn. unfold u16. rewrite Z.mod_small; lia.
  - destruct (same_kind_eqs _ _ Hkind) as (Eh & Ec & _ & _).
    unfold BtreeCells.cells_at. rewrite Eh, Ec. cbn [aData nCell set_idxShift set_data set_nFree set_nCell].
    rewrite !length_app, !zlen_app, zlen_cons. unfold k in *. rewrite zlen_app in *. split_and!.
    + cbn. lia.
    + apply (pointers_same d3); [|done]. intros i Hi. apply O4. lia.
    + apply (holds_all_frame d1); [congruence| |].
      * intros x i Hx Hi. rewrite (regions_insert q1 q2 addr c1 c2 c Hl1) in Hx.
        assert (in_area top usable x) as Hxa.
        { apply elem_of_cons in Hx as [->|Hx]; [done|]. rewrite Forall_forall in Hu. by apply Hu. }
        unfold in_area in Hxa. rewrite O4, O3 by lia. done.
      * apply Forall2_app_inv in Hcells as [Hx1 Hx2]; [|done].
        assert (forall q c', Forall2 (holds (aData p)) q c' ->
          (forall x, x ∈ regions_of q c' -> x ∈ regions_of (q1 ++ q2) (c1 ++ c2)) -> Forall2 (holds d1) q c') as Hfr.
        { intros q c' Hq Hsub. apply (holds_all_frame (aData p)); [congruence| |done].
          intros x i Hx Hi. apply O1'. rewrite Forall_forall in Hapu. specialize (Hapu x (Hsub x Hx)).
          unfold apart in Hapu. cbn in Hapu. lia. }
        rewrite zip_with_app in Hfr by done.
        apply Forall2_app; [|constructor]; [|done|]; apply Hfr; try done; intros x Hx; apply elem_of_app; auto.
    + rewrite Forall_app in Hwf. destruct Hwf as [Hw1 Hw2]. apply Forall_app; split; [|constructor].
      all: try (eapply Forall_impl; [eassumption|]; intros ?). all: by apply (same_kind_wf pBt p).
    + rewrite G4. f_equal. lia.
    + unfold u16. rewrite Z.mod_small; lia.
    + apply (flagged_kind pBt p); [done|done|]. apply Hout'. lia.
Qed.

(** ** Insertion *)

Lemma ptrs_split (ptrs : list Z) (c1 c2 : list (list Z)) : length ptrs = length (c1 ++ c2) ->
  exists q1 q2, ptrs = q1 ++ q2 /\ length q1 = length c1 /\ length q2 = length c2.
Proof.
  rewrite length_app. intros H. exists (take (length c1) ptrs), (drop (length c1) ptrs).
  split_and!; [by rewrite take_drop|rewrite length_take; lia|rewrite length_drop; lia].
Qed.

(** There is room in the gap, perhaps after the cells were moved. *)
Lemma make_room_ok p temp ptrs cells free top n : layout p (zlen cells) (regions_of ptrs cells) free top ->
  cells_at p ptrs cells -> bytes_ok temp -> usable <= zlen temp -> n + 2 <= nFree p ->
  let end_ := cellOffset p + 2 * zlen cells + 2 in
  exists p' ptrs' free' top',
    (if top - n <? end_ then
       pPage ← defragmentPage pBt temp p;
       top ← get2byte (aData pPage) (hdrOffset p + 5); c_assert (end_ + n <=? top);; Ret pPage
     else Ret p) = Ret p' /\
    layout p' (zlen cells) (regions_of ptrs' cells) free' top' /\ cells_at p' ptrs' cells /\
    same_fields p p' /\ end_ <= top' - n.
Proof.
  intros Hlay Hcells Htb Htl Hn end_. destruct (Z.ltb_spec (top - n) end_).
  - destruct (defragment_ok pBt p temp ptrs cells free top) as (p' & -> & Hlay' & Hcells' & Hs & HnF); [done..|]. crun.
    pose proof (l_nFree _ _ _ _ _ _ Hlay) as HnF0. rewrite sizes_regions in HnF0 by apply Hcells.
    fold (total cells) in HnF0. destruct (same_fields_eqs _ _ Hs) as (<- & _).
    rewrite (l_top _ _ _ _ _ _ Hlay'). crun. rewrite (proj2 (Z.leb_le _ _)) by lia. crun.
    eexists _, _, _, _. split_and!; [done..|lia].
  - exists p, ptrs, free, top. split_and!; try done.
Qed.

Context {St : Type} (ptrmapPut : St -> Z -> Z -> Z -> res (Z * St)).
Notation insertCell := (insertCell pBt ptrmapPut SQLITE_OK).
Hypothesis no_autoVacuum : autoVacuum pBt = false.

Lemma insertCell_ok p temp st c1 c2 c pTemp : page_holds p (c1 ++ c2) -> wf_cell p c ->
  bytes_ok temp -> usable <= zlen temp -> zlen c + 2 <= nFree p ->
  exists p', insertCell temp st p (zlen c1) c (zlen c) pTemp 0 = Ret (SQLITE_OK, p', st) /\
    page_holds p' (c1 ++ c :: c2) /\ same_kind p p'.
Proof.
  intros (ptrs & free & top & Hlay & Hcells) Hc Htb Htl Hn.
  pose proof Hcells as (_ & _ & _ & _ & _ & HnC & _). pose proof Hlay as [Hgeo _ Htop _ _ _ _ _ _].
  pose proof Hgeo as (_ & _ & _ & _ & _ & Hov). pose proof Hc as (_ & Hc4 & _).
  unfold BtreePage.insertCell. unfold nOverflow. rewrite Hov. change (zlen []) with 0.
  pose proof (zlen_nonneg c1). pose proof (zlen_nonneg c2).
  assert ((0 <=? zlen c1) && (zlen c1 <=? nCell p + 0) = true) as -> by (rewrite HnC, zlen_app; lia). crun.
  rewrite (wf_cell_self _ _ _ Hc). crun. rewrite (Z.eqb_refl (zlen c)). crun.
  rewrite (proj2 (Z.ltb_ge (nFree p) _)) by lia. change (negb (0 =? 0) || false) with false. cbv iota.
  change (negb (SQLITE_OK =? SQLITE_OK)) with false. cbv iota. rewrite Htop. crun.
  rewrite HnC.
  destruct (make_room_ok p temp ptrs (c1 ++ c2) free top (zlen c)) as (p1 & ptrs1 & free1 & top1 & -> & Hlay1 & Hcells1 & Hs1 & Hroom);
    [done..|]. crun.
  destruct (same_fields_eqs _ _ Hs1) as (Eh1 & Ec1 & _).
  destruct (allocateSpace_ok pBt p1 temp ptrs1 (c1 ++ c2) free1 top1 (zlen c))
    as (addr & p2 & ptrs2 & free2 & top2 & -> & Haddr & Hlay2 & Hcells2 & Hs2 & Hroom2); [done..|lia|lia|]. crun.
  destruct (same_fields_eqs _ _ Hs2) as (Eh2 & Ec2 & _). rewrite (proj2 (Z.ltb_lt 0 addr)) by done. crun.
  rewrite <- Eh1, <- Eh2, (l_top _ _ _ _ _ _ Hlay2). crun. rewrite (proj2 (Z.leb_le _ top2)) by lia. crun.
  pose proof Hcells2 as (Hlen2 & _ & _ & _ & _ & HnC2 & _). rewrite HnC2.
  set (k := zlen (c1 ++ c2)) in *. pose proof Hlay2 as [Hgeo2 Hk2 _ Hgap2 _ _ _ _ _].
  pose proof (geometry_hdr _ _ Hgeo2). pose proof Hgeo2 as (_ & _ & _ & _ & Hu2 & _).
  change (nCell (set_nFree _ (set_nCell (k + 1) p2))) with (u16 (k + 1)).
  replace (u16 (k + 1)) with (k + 1) by (unfold u16; rewrite Z.mod_small; [done|lia]).
  change (nFree (set_nCell (k + 1) p2)) with (nFree p2).
  change (aData (set_nFree _ (set_nCell (k + 1) p2))) with (aData p2).
  rewrite (holds_bytes_at c 0 c _ (holds_self c)) by lia. crun. rewrite Z.add_0_r.
  destruct (ptrs_split ptrs2 c1 c2 Hlen2) as (q1 & q2 & -> & Hq1 & Hq2).
  destruct (place_cell_ok p2 q1 q2 c1 c2 c free2 top2 addr)
    as (d1 & d2 & d3 & d4 & -> & E2 & E3 & E4 & Hlay4 & Hcells4);
    [done..|by apply (same_kind_wf pBt p); [|done]; apply same_fields_kind; eapply same_fields_trans|fold k; lia|].
  crun. fold k in E2, E3, E4, Hlay4. rewrite Ec2, Ec1 in E2, E3.
  replace (cellOffset p + 2 * k + 2 - 2) with (cellOffset p + 2 * k) by lia.
  rewrite E2. crun. rewrite E3. crun. rewrite E4. crun. rewrite no_autoVacuum.
  eexists. split; [done|]. split.
  - eexists _, _, _. split; [|done].
    replace (zlen (c1 ++ c :: c2)) with (k + 1); [done|]. unfold k. rewrite !zlen_app, zlen_cons. lia.
  - eapply same_kind_trans; [apply same_fields_kind; eapply same_fields_trans; [exact Hs1|exact Hs2]|]. by destruct p2.
Qed.

(** A cell that does not fit, or that follows one that did not, is kept beside
    the page. *)
Lemma insertCell_overflow temp st p i c : wf_cell p c -> 0 <= i <= nCell p + nOverflow p -> nOverflow p < 5 ->
  nOverflow p <> 0 \/ nFree p < zlen c + 2 ->
  insertCell temp st p i c (zlen c) None 0 = Ret (SQLITE_OK, set_nFree 0 (set_ovfl (aOvfl p ++ [(c, u16 i)]) p), st).
Proof.
  intros Hc Hi H5 Hfit. unfold BtreePage.insertCell.
  assert ((0 <=? i) && (i <=? nCell p + nOverflow p) = true) as -> by lia. crun.
  rewrite (wf_cell_self _ _ _ Hc). crun. rewrite (Z.eqb_refl (zlen c)). crun.
  assert (negb (nOverflow p =? 0) || (nFree p <? zlen c + 2) = true) as -> by lia. crun.
  by rewrite (proj2 (Z.ltb_lt _ 5)) by done.
Qed.

(** ** Removal *)

(** Where the cell [c] of a page lies and how long it is. *)
Lemma find_cell_ok p c1 c c2 : page_holds p (c1 ++ c :: c2) ->
  exists pc, findCell p (zlen c1) = Ret pc /\ cellSizePtr pBt p (drop (Z.to_nat pc) (aData p)) = Ret (zlen c) /\
    holds (aData p) pc c.
Proof.
  intros (ptrs & free & top & Hlay & Hlen & Hp & Hc & Hwf & _).
  destruct (ptrs_split ptrs c1 (c :: c2) Hlen) as (q1 & qr & -> & Hq1 & Hq2). destruct qr as [|pc q2]; [done|].
  apply pointers_app in Hp as [_ [Hpc _]%pointers_cons]. apply Forall2_app_inv in Hc as [_ [Hc _]%Forall2_cons]; [|done].
  apply Forall_app in Hwf as [_ [Hw _]%Forall_cons].
  exists pc. split_and!; [|by apply wf_cell_size; [|apply (l_geo _ _ _ _ _ _ Hlay)|]|done].
  unfold findCell. rewrite <- Hpc. f_equal. unfold zlen. by rewrite Hq1.
Qed.

Lemma dropCell_ok p c1 c c2 : page_holds p (c1 ++ c :: c2) ->
  exists p', dropCell pBt p (zlen c1) (zlen c) = Ret p' /\ page_holds p' (c1 ++ c2) /\ same_kind p p'.
Proof.
  intros Hp. assert (cellSize pBt p (zlen c1) = Ret (zlen c)) as Hsz.
  { destruct (find_cell_ok _ _ _ _ Hp) as (pc & E1 & E2 & _). unfold cellSize. rewrite E1. exact E2. }
  revert Hp. intros (ptrs & free & top & Hlay & Hlen & Hptrs & Hcells & Hwf & H3 & HnC & Hflag).
  pose proof Hlay as [Hgeo _ Htop Hgap _ _ _ _ _]. pose proof (geometry_hdr _ _ Hgeo) as [Hh Hco].
  pose proof Hgeo as (_ & _ & Hb & Hub & Hu' & _). pose proof (zlen_nonneg c1). pose proof (zlen_nonneg c2).
  rewrite zlen_app, zlen_cons in *.
  destruct (ptrs_split ptrs c1 (c :: c2) Hlen) as (q1 & qr & -> & Hq1 & Hq2). destruct qr as [|pc q2]; [done|].
  injection Hq2 as Hq2. assert (zlen q1 = zlen c1) as Eq1 by (unfold zlen; by rewrite Hq1).
  assert (zlen q2 = zlen c2) as Eq2 by (unfold zlen; by rewrite Hq2).
  apply (layout_perm _ _ _ _ _ _ _ (regions_insert q1 q2 pc c1 c2 c Hq1)) in Hlay.
  pose proof (layout_free _ _ _ _ _ _ Hlay) as [[Hpc _]%Forall_cons _]. unfold in_area in Hpc. cbn in Hpc.
  unfold dropCell. rewrite HnC. assert ((0 <=? zlen c1) && (zlen c1 <? zlen c1 + (zlen c2 + 1)) = true) as -> by lia. crun.
  rewrite Hsz. crun. rewrite (Z.eqb_refl (zlen c)). crun.
  assert (get2byte (aData p) (cellOffset p + 2 * zlen c1) = Ret pc) as ->.
  { apply pointers_app in Hptrs as [_ [Hpc' _]%pointers_cons]. by rewrite Eq1 in Hpc'. }
  crun. rewrite (proj2 (Z.leb_le (pc + zlen c) _)) by lia. crun.
  destruct (freeSpace_ok pBt p _ pc (zlen c) _ _ _ Hlay) as (p1 & top1 & free1 & -> & Hlay1 & Hs1 & Htop1 & L & O1). crun.
  destruct (same_fields_eqs _ _ Hs1) as (Eh1 & Ec1 & _ & En1 & _).
  rewrite En1, HnC. pose proof Hlay1 as [Hgeo1 _ _ _ _ _ _ _ HnF1]. pose proof (layout_nFree _ _ _ _ _ _ Hlay1) as Hnf1.
  pose proof Hgeo1 as (_ & _ & Hb1 & Hub1 & _ & Hov1). pose proof (layout_free _ _ _ _ _ _ Hlay1) as [Hu1 Hf1].
  replace (Z.to_nat (zlen c1 + (zlen c2 + 1) - (zlen c1 + 1))) with (length q2) by (unfold zlen; lia).
  assert (pointers (aData p1) (cellOffset p) (q1 ++ pc :: q2)) as Hp1.
  { apply (pointers_same (aData p)); [|done]. rewrite zlen_app, zlen_cons. intros i Hi. apply O1. unfold untouched. lia. }
  rewrite <- Eq1.
  destruct (pointers_delete (aData p1) (cellOffset p) q1 pc q2) as (d1 & -> & B1 & P1 & [L1 O1']); [done..|lia|lia|]. crun.
  set (k := zlen c1 + zlen c2). replace (zlen q1 + (zlen c2 + 1) - 1) with k by (unfold k; lia).
  change (nCell (set_nCell k p1)) with (u16 k). change (hdrOffset (set_nCell k p1)) with (hdrOffset p1).
  change (nFree (set_nCell k p1)) with (nFree p1).
  assert (u16 k = k) as Ek by (unfold u16, k; rewrite Z.mod_small; lia). rewrite Ek, Eh1.
  destruct (put2byte_ok d1 (hdrOffset p + 3) k) as (d2 & -> & G2 & B2 & [L2 O2]); [done|unfold k; lia..|]. crun.
  set (p' := set_idxShift true _).
  assert (same_kind p p') as Hkind by (eapply same_kind_trans; [apply same_fields_kind, Hs1|by destruct p1]).
  eexists. split; [done|]. split; [|done].
  assert (forall i, cellOffset p + 2 * k <= i \/ i < hdrOffset p + 3 \/ hdrOffset p + 5 <= i < cellOffset p ->
    rd d2 i = rd (aData p1) i) as Hout by (intros i Hi; rewrite O2, O1' by (unfold k in *; lia); done).
  exists (q1 ++ q2), free1, top1. rewrite zlen_app. fold k. split.
  - eapply layout_change; [exact Hlay1| |done|done| |unfold k; lia|rewrite Ec1; unfold k; lia|].
    + unfold geometry. cbn. split_and!; try apply Hgeo1; try done. lia.
    + cbn. rewrite Eh1. intros i Hi. apply Hout. destruct Hi as [Hi|[Hi|(x & Hx & Hi)]]; [lia..|].
      rewrite Forall_forall in Hf1. specialize (Hf1 x Hx). unfold in_area in Hf1. unfold k. lia.
    + cbn. rewrite Ec1 in Hnf1. unfold u16. rewrite Z.mod_small; unfold k in *; lia.
  - destruct (same_kind_eqs _ _ Hkind) as (Eh & Ec & _ & _).
    unfold BtreeCells.cells_at. rewrite Eh, Ec. cbn [p' aData nCell set_idxShift set_data set_nFree set_nCell].
    rewrite Ek, !length_app, zlen_app. fold k. split_and!; try done; try lia.
    + apply (pointers_same d1); [|done]. rewrite zlen_app. intros i Hi. apply O2. lia.
    + apply Forall2_app_inv in Hcells as [Hx1 [_ Hx2]%Forall2_cons]; [|done].
      assert (Forall2 (holds (aData p)) (q1 ++ q2) (c1 ++ c2)) as Hx by by apply Forall2_app.
      apply (holds_all_frame (aData p)); [by rewrite L2, L1| |done].
      intros x i Hx' Hi. rewrite Hout, O1; [done|do 3 right; eauto|]. left.
      rewrite Forall_forall in Hu1. specialize (Hu1 x Hx'). unfold in_area in Hu1. unfold k. lia.
    + apply Forall_app in Hwf as [Hw1 [_ Hw2]%Forall_cons]. apply Forall_app; split.
      all: eapply Forall_impl; [eassumption|]; intros ?; by apply (same_kind_wf pBt p).
    + apply (flagged_kind pBt p); [done|done|]. cbn. rewrite Hout, O1; [done|unfold untouched; lia|lia].
Qed.

(** ** Cells as [fillInCell] makes them *)

Lemma cell_wf p pre nKey nData body : sane pBt p -> cell_args p nKey nData -> zlen pre = childPtrSize p ->
  bytes_ok pre -> bytes_ok body -> 
  let n := payload p nKey nData in
  zlen body = (if n <=? maxLocal p then n else local_size pBt p n + 4) ->
  let c := pre ++ header_bytes p nKey nData ++ body in 4 <= zlen c -> wf_cell p c.
Proof.
  intros Hs Ha Hpre Hbp Hbb n Hlen c H4. pose proof (header_bytes_ok _ _ _ Ha) as [Hhb Hhl].
  pose proof Hs as (Hc & Hm & Hu & Hu'). unfold b2z in Hc.
  assert (0 <= n) as Hn by (destruct Ha as (Hd & Hk & _); unfold n, payload in *; destruct (hasData p), (intKey p); lia).
  pose proof (local_size_bounds pBt p n Hs Hn) as [Hlb _].
  assert (zlen c = zlen pre + zlen (header_bytes p nKey nData) + zlen body) as Lc by (unfold c; rewrite !zlen_app; lia).
  split_and!; [|done| |].
  - unfold c, bytes_ok in *. rewrite !Forall_app. done.
  - destruct (Z.leb_spec n (maxLocal p)), (leaf p); lia.
  - intros rest Hr. rewrite Lc. unfold cellSizePtr, c. rewrite <- !app_assoc.
    rewrite parse_cell_ok; [|done..|by apply Forall_app]. crun. unfold cell_info. cbn [nSize]. fold n.
    f_equal. destruct (Z.leb_spec n (maxLocal p)); lia.
Qed.

(** A cell of a table leaf with all of its data. *)
Lemma table_cell_wf p c nKey body : sane pBt p -> childPtrSize p = 0 -> hasData p = true -> intKey p = true ->
  c = varint_encode (zlen body) ++ varint_encode (u64 nKey) ++ body -> bytes_ok body -> 4 <= zlen c ->
  zlen body <= maxLocal p -> - 2 ^ 63 <= nKey < 2 ^ 63 -> wf_cell p c.
Proof.
  intros Hs Hc Hd Hi -> Hb H4 Hn Hk. pose proof (zlen_nonneg body). pose proof Hs as (_ & _ & Hu).
  pose proof (cell_wf p [] nKey (zlen body) body Hs) as Hw. unfold cell_args, payload, header_bytes in Hw.
  rewrite Hd, Hi, Hc, Z.add_0_r, (proj2 (Z.leb_le _ (maxLocal p)) Hn), <- app_assoc in Hw.
  apply Hw; try done; [lia|constructor].
Qed.

(** ** An empty page *)

(** A page that [zeroPage] can work on. *)
Definition raw_page (p : MemPage) : Prop :=
  (hdrOffset p = 0 \/ hdrOffset p = 100) /\ bytes_ok (aData p) /\ hdrOffset p + 12 <= usable <= zlen (aData p) /\
  usable <= 32768.

Lemma zeroPage_ok p flags : raw_page p -> is_byte flags ->
  exists p', zeroPage pBt p flags = Ret p' /\ page_holds p' [] /\ hdrOffset p' = hdrOffset p.
Proof.
  intros (Hh & Hb & Hu & Hu') Hfl. unfold zeroPage.
  rewrite (proj2 (Z.ltb_ge (usable - hdrOffset p) 0)) by lia. crun.
  set (z := replicate _ 0). assert (zlen z = usable - hdrOffset p) as Lz by (unfold z; rewrite zlen_replicate; lia).
  assert (is_byte 0) as B0 by (unfold is_byte; lia).
  destruct (copy_to_ok z (aData p) (hdrOffset p)) as (d1 & -> & Hz & B1 & [L1 O1]);
    [done|by apply Forall_replicate|lia|lia|]. crun.
  rewrite (u8_id flags) by done. destruct (wr_ok d1 (hdrOffset p) flags) as [d2 E2]; [lia|]. rewrite E2. crun.
  pose proof (wr_outside _ _ _ _ E2) as [L2 O2]. pose proof (bytes_ok_wr _ _ _ _ B1 Hfl E2) as B2.
  destruct (copy_to_ok [0; 0; 0; 0] d2 (hdrOffset p + 1)) as (d3 & -> & H3 & B3 & [L3 O3]);
    [done|by repeat constructor|lia|change (zlen [0; 0; 0; 0]) with 4; lia|]. crun.
  change (zlen [0; 0; 0; 0]) with 4 in O3.
  destruct (wr_ok d3 (hdrOffset p + 7) 0) as [d4 E4]; [lia|]. rewrite E4. crun.
  pose proof (wr_outside _ _ _ _ E4) as [L4 O4]. pose proof (bytes_ok_wr _ _ _ _ B3 B0 E4) as B4.
  destruct (put2byte_ok d4 (hdrOffset p + 5) usable) as (d5 & -> & G5 & B5 & [L5 O5]); [done|lia|lia|lia|]. crun.
  eexists. split; [done|]. split; [|done]. destruct H3 as (_ & _ & H3).
  assert (forall i, 0 <= i < 4 -> rd d5 (hdrOffset p + 1 + i) = Some 0) as H0.
  { intros i Hi. rewrite O5, O4, H3 by (change (zlen [0; 0; 0; 0]) with 4; lia).
    assert (i = 0 \/ i = 1 \/ i = 2 \/ i = 3) as [->|[->|[->| ->]]] by lia; done. }
  set (lf := Z.land flags PTF_LEAF =? 0).
  assert (u16 (hdrOffset p + 8 + 4 * b2z lf) = hdrOffset p + 8 + 4 * b2z lf /\
    u16 (usable - (hdrOffset p + 8 + 4 * b2z lf)) = usable - (hdrOffset p + 8 + 4 * b2z lf) /\ 0 <= b2z lf <= 1) as (E16 & E16' & Hb2)
    by (unfold u16, b2z; destruct lf; rewrite !Z.mod_small; lia).
  assert (b2z lf = 1 - b2z (negb lf)) as Elf by (by destruct lf).
  exists [], [], usable. rewrite (@zlen_nil (list Z)). split.
  - constructor; cbn [decodeFlags aData hdrOffset cellOffset leaf nFree aOvfl]; fold lf; rewrite ?E16, ?E16'; try done; try lia.
    + unfold geometry. cbn [aData hdrOffset cellOffset leaf nFree aOvfl]. fold lf. rewrite ?E16. split_and!; try done; lia.
    + cbn. apply (get2byte_val _ _ 0 0); [|by apply H0|done].
      by rewrite <- (Z.add_0_r (hdrOffset p + 1)), H0 by lia.
    + exists 0. split; [|by rewrite O5, (rd_wr _ _ _ _ _ E4), Z.eqb_refl by lia].
      split_and!; [done|constructor|cbn; lia].
    + cbn. lia.
  - unfold BtreeCells.cells_at, flagged. cbn [aData hdrOffset cellOffset nCell]. split_and!; try done; try constructor.
    + replace (hdrOffset p + 3) with (hdrOffset p + 1 + 2) by lia.
      apply (get2byte_val _ _ 0 0); [by apply H0| |done].
      replace (hdrOffset p + 1 + 2 + 1) with (hdrOffset p + 1 + 3) by lia. by apply H0.
    + exists flags. split; [|done]. by rewrite O5, O4, O3, (rd_wr _ _ _ _ _ E2), Z.eqb_refl by lia.
Qed.

(** ** Runs *)

(** The cells of a page, read through the pointers. *)
Fixpoint read_cells (n : nat) (i : Z) (p : MemPage) : res (list (list Z)) :=
  match n with
  | O => Ret []
  | S n =>
      pc ← findCell p i;
      sz ← cellSizePtr pBt p (drop (Z.to_nat pc) (aData p));
      c ← bytes_at (aData p) pc sz;
      l ← read_cells n (i + 1) p; Ret (c :: l)
  end.

Definition page_cells (p : MemPage) : res (list (list Z)) := read_cells (Z.to_nat (nCell p)) 0 p.

Inductive page_op :=
  | Insert (i : nat) (c : list Z)
  | Drop (i : nat).

Definition page_step (temp : list Z) (st : St) (p : MemPage) (o : page_op) : res (MemPage * St) :=
  match o with
  | Insert i c =>
      '(_, p, st) ← insertCell temp st p (Z.of_nat i) c (zlen c) None 0; Ret (p, st)
  | Drop i =>
      pc ← findCell p (Z.of_nat i);
      sz ← cellSizePtr pBt p (drop (Z.to_nat pc) (aData p));
      p ← dropCell pBt p (Z.of_nat i) sz; Ret (p, st)
  end.

Fixpoint page_run (temp : list Z) (st : St) (p : MemPage) (ops : list page_op) : res (MemPage * St) :=
  match ops with
  | [] => Ret (p, st)
  | o :: ops => '(p, st) ← page_step temp st p o; page_run temp st p ops
  end.

(** The same on the list of cells and the list of those that did not fit; a
    page has [room] for cells and two bytes of pointer for each. *)
Definition need (cells : list (list Z)) : Z := total cells + 2 * zlen cells.

Definition spec_step (room : Z) (s : list (list Z) * list (list Z * Z)) (o : page_op)
    : option (list (list Z) * list (list Z * Z)) :=
  let '(cells, over) := s in
  match o with
  | Insert i c =>
      if decide (i <= length cells + length over /\ length over < 5)%nat then
        if decide (over = []) then
          if need cells + zlen c + 2 <=? room then Some (take i cells ++ c :: drop i cells, [])
          else Some (cells, [(c, Z.of_nat i)])
        else Some (cells, over ++ [(c, Z.of_nat i)])
      else None
  | Drop i => if decide (i < length cells /\ over = [])%nat then Some (delete i cells, []) else None
  end.

Fixpoint spec_run (room : Z) (s : list (list Z) * list (list Z * Z)) (ops : list page_op)
    : option (list (list Z) * list (list Z * Z)) :=
  match ops with
  | [] => Some s
  | o :: ops => s ← spec_step room s o; spec_run room s ops
  end.

Definition op_wf (p : MemPage) (o : page_op) : Prop :=
  match o with Insert _ c => wf_cell p c | Drop _ => True end.

(** A page and what it stands for. *)
Definition stands_for (p : MemPage) (s : list (list Z) * list (list Z * Z)) : Prop :=
  match s.2 with
  | [] => page_holds p s.1
  | over => exists p1, page_holds p1 s.1 /\ p = set_nFree 0 (set_ovfl over p1)
  end.

Lemma read_cells_ok p ptrs cells : bytes_ok (aData p) -> forall i, pointers (aData p) (cellOffset p + 2 * i) ptrs ->
  Forall2 (holds (aData p)) ptrs cells -> Forall (wf_cell p) cells -> read_cells (length cells) i p = Ret cells.
Proof.
  intros Hb i Hp Hc. revert i Hp. induction Hc as [|pc c ptrs cells Hpc _ IH]; intros i Hp Hwf; [done|].
  apply Forall_cons in Hwf as [Hw Hwf]. apply pointers_cons in Hp as [Hp0 Hp].
  cbn [length read_cells]. unfold findCell. rewrite Hp0. crun. rewrite (wf_cell_size pBt p c _ pc) by done. crun. rewrite (holds_bytes_at _ pc c) by done. crun. rewrite IH; [by crun| |done].
  by replace (cellOffset p + 2 * (i + 1)) with (cellOffset p + 2 * i + 2) by lia.
Qed.

Lemma page_cells_ok p cells : page_holds p cells -> page_cells p = Ret cells.
Proof.
  intros (ptrs & free & top & Hlay & _ & Hp & Hc & Hwf & _ & HnC & _). unfold page_cells. rewrite HnC.
  replace (Z.to_nat (zlen cells)) with (length cells) by (unfold zlen; lia).
  apply (read_cells_ok p ptrs); [apply (l_geo _ _ _ _ _ _ Hlay)| |done..]. by rewrite Z.mul_0_r, Z.add_0_r.
Qed.

Lemma read_cells_overflow over p n : forall i,
  read_cells n i (set_nFree 0 (set_ovfl over p)) = read_cells n i p.
Proof.
  induction n as [|n IH]; intros i; [done|]. cbn [read_cells]. apply bind_ext. intros pc.
  apply bind_ext. intros sz. apply bind_ext. intros c. by rewrite IH.
Qed.

Lemma page_holds_nFree p cells : page_holds p cells -> nFree p = usable - cellOffset p - need cells.
Proof.
  intros (ptrs & free & top & Hlay & Hlen & _). rewrite (l_nFree _ _ _ _ _ _ Hlay), sizes_regions by done.
  unfold need, total. lia.
Qed.

Lemma page_holds_count p cells : page_holds p cells -> nCell p = zlen cells /\ aOvfl p = [] /\ zlen cells <= 16384.
Proof.
  intros (ptrs & free & top & Hlay & _ & _ & _ & _ & _ & HnC & _). pose proof (l_gap _ _ _ _ _ _ Hlay).
  destruct (l_geo _ _ _ _ _ _ Hlay) as (Hh & Ec & _ & _ & Hu & Hov).
  split_and!; [done..|]. assert (0 <= 4 * b2z (leaf p) <= 4) by (unfold b2z; destruct (leaf p); lia). lia.
Qed.

Lemma zlen_take_le (i : nat) (cells : list (list Z)) : (i <= length cells)%nat -> zlen (take i cells) = Z.of_nat i.
Proof. intros H. unfold zlen. rewrite length_take. lia. Qed.

Lemma stands_for_overflow p1 cells over x : page_holds p1 cells ->
  stands_for (set_nFree 0 (set_ovfl (over ++ [x]) p1)) (cells, over ++ [x]).
Proof. intros H. unfold stands_for. cbn. destruct (over ++ [x]) eqn:E; [by destruct over|]. eauto. Qed.

Lemma page_insert_ok p p0 temp st cells over i c s' : bytes_ok temp -> usable <= zlen temp ->
  stands_for p (cells, over) -> same_kind p0 p -> wf_cell p0 c ->
  spec_step (usable - cellOffset p0) (cells, over) (Insert i c) = Some s' ->
  exists p', page_step temp st p (Insert i c) = Ret (p', st) /\ stands_for p' s' /\ same_kind p0 p'.
Proof.
  intros Htb Htl Hp Hk Hc Hs. cbn [page_step]. cbn in Hs. case_decide as Hi; [|done].
  destruct (same_kind_eqs _ _ Hk) as (_ & Ec & _).
  case_decide as Ho; [destruct (Z.leb_spec (need cells + zlen c + 2) (usable - cellOffset p0)) as [Hfit|Hfit]|];
    injection Hs as <-.
  - subst over. cbn in Hp. pose proof (page_holds_nFree _ _ Hp). cbn in Hi.
    destruct (insertCell_ok p temp st (take i cells) (drop i cells) c None) as (p' & E & Hp' & Hk');
      [by rewrite take_drop|by apply (same_kind_wf pBt p0)|done|done|lia|].
    rewrite zlen_take_le in E by lia. rewrite E. crun. exists p'. split_and!; [done..|by eapply same_kind_trans].
  - subst over. cbn in Hp, Hi. destruct (page_holds_count _ _ Hp) as (HnC & Hov & Hmax). pose proof (page_holds_nFree _ _ Hp).
    unfold zlen in HnC, Hmax. assert (nOverflow p = 0) as E0 by (unfold nOverflow; by rewrite Hov).
    rewrite insertCell_overflow by (by apply (same_kind_wf pBt p0)) || lia. crun. rewrite Hov, app_nil_l. unfold u16. rewrite Z.mod_small by lia.
    eexists. split_and!; [done| |eapply same_kind_trans; [exact Hk|by destruct p]].
    by apply (stands_for_overflow p cells []).
  - destruct over as [|x over]; [done|]. destruct Hp as (p1 & Hp1 & ->). cbn in Hp1.
    destruct (page_holds_count _ _ Hp1) as (HnC & Hov & Hmax). unfold zlen in HnC, Hmax.
    assert (nOverflow (set_nFree 0 (set_ovfl (x :: over) p1)) = zlen (x :: over)) as E0 by done.
    rewrite zlen_cons in E0. pose proof (zlen_nonneg over). cbn in Hi.
    rewrite insertCell_overflow; [|by apply (same_kind_wf pBt p0)|cbn; rewrite ?HnC; unfold nOverflow, zlen in *; cbn in *; lia..].
    crun. unfold u16. rewrite Z.mod_small by lia.
    eexists. split_and!; [done| |eapply same_kind_trans; [exact Hk|by destruct p1]].
    replace (set_nFree 0 _) with (set_nFree 0 (set_ovfl ((x :: over) ++ [(c, Z.of_nat i)]) p1)) by by destruct p1.
    by apply stands_for_overflow.
Qed.

Lemma page_drop_ok p p0 temp st cells over i s' : stands_for p (cells, over) -> same_kind p0 p ->
  spec_step (usable - cellOffset p0) (cells, over) (Drop i) = Some s' ->
  exists p', page_step temp st p (Drop i) = Ret (p', st) /\ stands_for p' s' /\ same_kind p0 p'.
Proof.
  intros Hp Hk Hs. cbn in Hs. case_decide as Hi; [|done]. injection Hs as <-. destruct Hi as [Hi ->]. cbn in Hp.
  destruct (lookup_lt_is_Some_2 cells i Hi) as [c Hc].
  rewrite <- (take_drop_middle _ _ _ Hc) in Hp. destruct (find_cell_ok _ _ _ _ Hp) as (pc & E1 & E2 & _).
  destruct (dropCell_ok _ _ _ _ Hp) as (p' & E3 & Hp' & Hk').
  rewrite zlen_take_le in E1, E3 by lia. cbn [page_step]. rewrite E1. crun. rewrite E2. crun. rewrite E3. crun.
  exists p'. rewrite delete_take_drop. split_and!; [done..|by eapply same_kind_trans].
Qed.

Lemma page_run_ok temp st ops : bytes_ok temp -> usable <= zlen temp -> forall p p0 s s',
  stands_for p s -> same_kind p0 p -> Forall (op_wf p0) ops -> spec_run (usable - cellOffset p0) s ops = Some s' ->
  exists p', page_run temp st p ops = Ret (p', st) /\ stands_for p' s' /\ same_kind p0 p'.
Proof.
  intros Htb Htl. induction ops as [|o ops IH]; intros p p0 s s' Hp Hk Hwf Hs.
  - injection Hs as <-. eauto.
  - apply Forall_cons in Hwf as [Ho Hwf]. cbn [spec_run] in Hs.
    destruct (spec_step _ s o) as [s1|] eqn:E; [|done]. cbn in Hs. destruct s as [cells over].
    assert (exists p1, page_step temp st p o = Ret (p1, st) /\ stands_for p1 s1 /\ same_kind p0 p1) as (p1 & E1 & Hp1 & Hk1).
    { destruct o as [i c|i]; [by eapply page_insert_ok|by eapply page_drop_ok]. }
    cbn [page_run]. rewrite E1. crun. by apply (IH p1 p0 s1).
Qed.
End edit.

(** C2: from a page that [zeroPage] made, every run of [insertCell] and
    [dropCell] acts on the list of the cells of the page as insertion into and
    removal from the list.  A cell goes onto the page exactly when it and its
    pointer fit into the room that is left, however the free space is
    scattered; else it is kept, with its index, beside the page, whose cells
    stay as they are.  [nFree] is the room that is left, or zero once a cell
    did not fit. *)
Theorem btree_page_refines_list pBt {St} (ptrmapPut : St -> Z -> Z -> Z -> res (Z * St)) temp st p flags :
  autoVacuum pBt = false -> raw_page pBt p -> is_byte flags -> bytes_ok temp -> usableSize pBt <= zlen temp ->
  exists p0, zeroPage pBt p flags = Ret p0 /\
    forall ops cells over, Forall (op_wf pBt p0) ops ->
      spec_run (usableSize pBt - cellOffset p0) ([], []) ops = Some (cells, over) ->
      exists p', page_run pBt ptrmapPut temp st p0 ops = Ret (p', st) /\
        page_cells pBt p' = Ret cells /\ nCell p' = zlen cells /\ aOvfl p' = over /\
        nFree p' = if decide (over = []) then usableSize pBt - cellOffset p0 - need cells else 0.
Proof.
  intros Hav Hraw Hfl Htb Htl. destruct (zeroPage_ok pBt p flags Hraw Hfl) as (p0 & E0 & Hp0 & _).
  exists p0. split; [done|]. intros ops cells over Hwf Hs.
  destruct (page_run_ok pBt ptrmapPut Hav temp st ops Htb Htl p0 p0 ([], []) (cells, over)) as (p' & E & Hp' & Hk); [done..|].
  exists p'. split; [done|]. destruct (same_kind_eqs _ _ Hk) as (_ & Ec & _).
  destruct over as [|x over]; cbn in Hp'.
  - destruct (page_holds_count _ _ _ Hp') as (? & ? & _). rewrite decide_True, <- Ec by done.
    split_and!; [by apply page_cells_ok|done..|by apply page_holds_nFree].
  - destruct Hp' as (p1 & Hp1 & ->). destruct (page_holds_count _ _ _ Hp1) as (? & ? & _).
    rewrite decide_False by done. split_and!; [|done..]. rewrite <- (page_cells_ok _ _ _ Hp1). apply read_cells_overflow.
Qed.

(** A page of 512 bytes of a table leaf: two cells, one between them, the
    first dropped, and one that does not fit. *)
Definition ex_ptrmapPut (st : unit) (_ _ _ : Z) : res (Z * unit) := Ret (0, st).
Definition ex_ops : list page_op :=
  [Insert 0 [2; 1; 7; 7]; Insert 1 [2; 3; 9; 9]; Insert 1 [3; 2; 8; 8; 8]; Drop 0;
   Insert 1 ([129; 122; 4] ++ replicate 250 5); Insert 3 ([129; 122; 5] ++ replicate 250 6);
   Insert 2 [2; 6; 1; 1]].

Lemma btree_page_refines_list_witness : exists p',
  (p0 ← zeroPage ex_bt ex_raw 13; page_run ex_bt ex_ptrmapPut (replicate 512 0) tt p0 ex_ops) = Ret (p', tt) /\
  page_cells ex_bt p' = Ret [[3; 2; 8; 8; 8]; [129; 122; 4] ++ replicate 250 5; [2; 3; 9; 9]] /\ nFree p' = 0.
Proof.
  destruct (btree_page_refines_list ex_bt ex_ptrmapPut (replicate 512 0) tt ex_raw 13) as (p0 & E & H).
  - reflexivity.
  - unfold raw_page. split_and!; [by left|apply Forall_replicate; unfold is_byte; lia|done..].
  - unfold is_byte. lia.
  - apply Forall_replicate. unfold is_byte. lia.
  - done.
  - rewrite E. assert (Forall (op_wf ex_bt p0) ex_ops) as Hwf.
    { assert (sane ex_bt p0 /\ childPtrSize p0 = 0 /\ hasData p0 = true /\ intKey p0 = true /\ maxLocal p0 = 477)
        as (Hs & Hc & Hd & Hi & Hm) by (vm_compute in E; injection E as <-; repeat split; vm_compute; congruence).
      clear E H. assert (forall c k body, c = varint_encode (zlen body) ++ varint_encode (u64 k) ++ body -> bytes_ok body ->
        4 <= zlen c -> zlen body <= 477 -> 0 <= k < 100 -> wf_cell ex_bt p0 c) as Hwf.
      { intros. apply (table_cell_wf ex_bt p0 c k body); try done; lia. }
      unfold ex_ops. rewrite !Forall_cons. cbn [op_wf]. split_and!; [| | |done| | | |constructor].
      - apply (Hwf _ 1 [7; 7]); try done. repeat (constructor; [unfold is_byte; lia|]). constructor.
      - apply (Hwf _ 3 [9; 9]); try done. repeat (constructor; [unfold is_byte; lia|]). constructor.
      - apply (Hwf _ 2 [8; 8; 8]); try done. repeat (constructor; [unfold is_byte; lia|]). constructor.
      - apply (Hwf _ 4 (replicate 250 5)); try done. apply Forall_replicate. unfold is_byte. lia.
      - apply (Hwf _ 5 (replicate 250 6)); try done. apply Forall_replicate. unfold is_byte. lia.
      - apply (Hwf _ 6 [1; 1]); try done. repeat (constructor; [unfold is_byte; lia|]). constructor. }
    assert (cellOffset p0 = 8) as Ec by (vm_compute in E; by injection E as <-).
    destruct (H ex_ops _ _ Hwf ltac:(rewrite Ec; vm_compute; reflexivity)) as (p' & Hr & Hc & _ & _ & Hn).
    exists p'. rewrite bind_ret_l, Hr, Hc, Hn. split_and!; reflexivity.
Defined.

(** The bound [pc>10] in an assertion of [dropCell] that the model leaves out
    does not hold: after the cells that left fragments between the gap and the
    free block are gone, the gap of an empty page is smaller than the page and
    its free block does not take the next cell, which goes to offset 10, right
    behind its pointer. *)
Definition ex_cell (n k : Z) : list Z := varint_encode n ++ [k] ++ replicate (Z.to_nat n) 5.

Lemma drop_cell_at_ten : exists p0 p, zeroPage ex_bt ex_raw 13 = Ret p0 /\
  page_run ex_bt ex_ptrmapPut (replicate 512 0) tt p0
    [Insert 0 (ex_cell 244 1); Insert 1 (ex_cell 5 2); Insert 2 (ex_cell 2 3); Drop 1; Insert 1 (ex_cell 2 2);
     Drop 2; Drop 1; Drop 0; Insert 0 (ex_cell 249 4)] = Ret (p, tt) /\
  page_cells ex_bt p = Ret [ex_cell 249 4] /\ findCell p 0 = Ret 10.
Proof.
  destruct (zeroPage ex_bt ex_raw 13) as [p0| | |] eqn:E; [|vm_compute in E; discriminate E..]. exists p0. vm_compute in E. injection E as <-.
  eexists. split; [done|]. split; [vm_compute; reflexivity|]. by split; vm_compute.
Qed.
