(* ===== verification/BtreeInit.v ===== *)
(** * Reading a b-tree page

    [sqlite3BtreeInitPage] on any bytes: it ends, stays on the page, and what
    it accepts has the shape that it checks; and on the bytes of a page that
    [insertCell] and [dropCell] made it finds that page again. *)

From S2P Require Import Prelude Varint PageBytes BtreePage BtreeParse BtreeSpace BtreeCells BtreeEdit.

Section init.
Context (pBt : BtShared).
Notation usable := (usableSize pBt).

(** ** The list of free blocks *)

(** The free blocks that the loop accepts: each on the page, each more than
    three bytes behind the end of the one before. *)
Fixpoint accepted (l : list region) : Prop :=
  match l with
  | [] => True
  | x :: l => 0 < x.1 <= usable - 4 /\ 0 <= x.2 < 65536 /\
      match l with [] => True | y :: _ => x.1 + x.2 + 3 < y.1 end /\ accepted l
  end.

Lemma init_free_total fuel : forall d pc nFree, bytes_ok d -> usable <= zlen d -> 0 <= pc ->
  usable - pc < Z.of_nat fuel \/ pc = 0 -> (0 < fuel)%nat ->
  init_free pBt fuel d pc nFree = Ret None \/
  exists l, init_free pBt fuel d pc nFree = Ret (Some (nFree + sizes l)) /\ accepted l /\ link_to l = pc /\
    forall a, get2byte d a = Ret pc -> chain d a l.
Proof.
  induction fuel as [|fuel IH]; intros d pc nFree Hd Hu Hpc Hf H0; [lia|cbn [init_free]].
  destruct (Z.ltb_spec 0 pc) as [Hlt|Hge].
  - destruct (Z.ltb_spec (usable - 4) pc); [by left|].
    destruct (get2byte_ok d pc Hd) as (next & En & Hn); [lia..|]. rewrite En. crun.
    destruct (get2byte_ok d (pc + 2) Hd) as (size & Es & Hs); [lia..|]. rewrite Es. crun.
    destruct ((0 <? next) && (next <=? pc + size + 3)) eqn:E; [by left|].
    destruct (IH d next (nFree + size) Hd Hu ltac:(lia) ltac:(lia) ltac:(lia)) as [E'|(l & E' & Hl & El & Hch)];
      [by left|right].
    exists ((pc, size) :: l). split; [rewrite E', sizes_cons; cbn; do 2 f_equal; lia|].
    split; [|split; [done|intros a Ha; cbn; auto]].
    cbn. split_and!; try lia; [|done]. destruct l as [|y l]; [done|]. cbn in El |- *. destruct Hl as (Hy & _). lia.
  - right. exists []. cbn. split_and!; [do 2 f_equal; lia|done|lia|]. intros a Ha. rewrite Ha. f_equal. lia.
Qed.

(** What the loop does on the free blocks of a page. *)
Lemma init_free_ok fuel : forall d a top l nFree, chain d a l -> asc top l -> spaced l -> 0 < top ->
  Forall (in_area top usable) l -> (length l < fuel)%nat ->
  init_free pBt fuel d (link_to l) nFree = Ret (Some (nFree + sizes l)).
Proof.
  induction fuel as [|fuel IH]; intros d a top l nFree Hc Ha Hsp Ht Hin Hf; [lia|]. cbn [init_free].
  destruct l as [|x l]; [cbn; by rewrite Z.add_0_r|]. destruct Hc as (_ & Hs & Hc). destruct Ha as [Hlo Ha].
  apply Forall_cons in Hin as [Hx Hin]. unfold in_area in Hx. cbn [link_to] in *.
  rewrite (proj2 (Z.ltb_lt 0 x.1)) by lia. rewrite (proj2 (Z.ltb_ge (usable - 4) x.1)) by lia.
  rewrite (chain_link _ _ _ Hc). crun. rewrite Hs. crun. destruct Hsp as [Hsp1 Hsp].
  assert ((0 <? link_to l) && (link_to l <=? x.1 + x.2 + 3) = false) as ->.
  { destruct l as [|y l]; [done|]. cbn in *. lia. }
  rewrite sizes_cons, Z.add_assoc. apply (IH d x.1 top l); try done; [|cbn in Hf; lia].
  eapply asc_mono; [|done]. lia.
Qed.

(** ** Any page *)

(** A page whose bytes are there. *)
Definition in_memory (q : MemPage) : Prop :=
  (hdrOffset q = 0 \/ hdrOffset q = 100) /\ bytes_ok (aData q) /\ hdrOffset q + 12 <= usable <= zlen (aData q).

(** What [sqlite3BtreeInitPage] checked and noted down. *)
Definition read_page (q q' : MemPage) (parent : option Z) : Prop :=
  isInit q' = true /\ flagged pBt q' /\ hdrOffset q' = hdrOffset q /\ aData q' = aData q /\ aOvfl q' = [] /\
  cellOffset q' = hdrOffset q + 12 - 4 * b2z (leaf q') /\
  get2byte (aData q) (hdrOffset q + 3) = Ret (nCell q') /\ nCell q' <= MX_CELL pBt /\
  (nCell q' = 0 -> parent = None \/ parent = Some 1) /\
  exists l nFrag top, chain (aData q) (hdrOffset q + 1) l /\ accepted l /\
    rd (aData q) (hdrOffset q + 7) = Some nFrag /\ get2byte (aData q) (hdrOffset q + 5) = Ret top /\
    let n := nFrag + top + sizes l - (cellOffset q' + 2 * nCell q') in n < usable /\ nFree q' = u16 n.

Lemma decodeFlags_again p f : decodeFlags pBt (decodeFlags pBt p f) f = decodeFlags pBt p f.
Proof. done. Qed.

Lemma init_page_ok q parent : in_memory q -> isInit q = false -> pParent q = None \/ pParent q = parent ->
  exists q', sqlite3BtreeInitPage pBt q parent = Ret (SQLITE_CORRUPT, q') /\ isInit q' = false /\ aData q' = aData q \/
    sqlite3BtreeInitPage pBt q parent = Ret (SQLITE_OK, q') /\ read_page q q' parent.
Proof.
  intros (Hh & Hb & Hu) Hinit Hpar. unfold sqlite3BtreeInitPage. rewrite Hinit.
  assert (negb (bool_decide (pParent q = parent)) && (negb (bool_decide (pParent q = None)) || false) = false) as ->.
  { destruct Hpar as [->|Hp]; [|by rewrite (bool_decide_eq_true_2 _ Hp)].
    rewrite (bool_decide_eq_true_2 (None = None)) by done. cbn. apply andb_false_r. }
  cbv zeta. destruct (rd_lt (aData q) (hdrOffset q)) as [f Ef]; [lia|]. rewrite Ef. crun.
  destruct (get2byte_ok (aData q) (hdrOffset q + 5) Hb) as (top & Et & Ht); [lia..|]. rewrite Et. crun.
  destruct (get2byte_ok (aData q) (hdrOffset q + 3) Hb) as (k & Ek & Hk); [lia..|]. rewrite Ek. crun.
  destruct (Z.ltb_spec (MX_CELL pBt) k); [eexists; left; split; [done|done]|].
  set (np := (k =? 0) && _). destruct np eqn:Enp; [eexists; left; split; [done|done]|].
  destruct (get2byte_ok (aData q) (hdrOffset q + 1) Hb) as (pc & Ep & Hp); [lia..|]. rewrite Ep. crun.
  destruct (rd_lt (aData q) (hdrOffset q + 7)) as [nFrag Ef7]; [lia|]. rewrite Ef7. crun.
  set (n0 := nFrag + top - _).
  destruct (init_free_total (S (length (aData q))) (aData q) pc n0 Hb) as [-> | (l & -> & Hl & El & Hc)];
    [lia|lia|unfold zlen in *; lia|lia|crun; eexists; left; split; [done|done]|].
  crun. destruct (Z.leb_spec usable (n0 + sizes l)); [eexists; left; split; [done|done]|].
  eexists. right. split; [done|]. unfold read_page. cbn [isInit hdrOffset aData aOvfl cellOffset nCell nFree leaf].
  split_and!; try done.
  - exists f. done.
  - intros ->. unfold np in Enp. destruct parent as [pg|]; [|by left]. cbn in Enp. right. f_equal.
    destruct (Z.eqb_spec pg 1); [done|]. done.
  - exists l, nFrag, top. split_and!; try done; [by apply Hc|unfold n0 in *; lia|].
    f_equal. unfold n0. lia.
Qed.

(** ** A page that holds cells *)

Lemma wf_cell_decoded p q f c : decodeFlags pBt p f = p -> decodeFlags pBt q f = q ->
  wf_cell pBt p c -> wf_cell pBt q c.
Proof. intros <- <- H. exact H. Qed.

Lemma cells_4 p cells : Forall (wf_cell pBt p) cells -> 4 * zlen cells <= total cells.
Proof.
  unfold total. induction 1 as [|c cells (_ & Hc & _) _ IH]; [done|]. rewrite zlen_cons. cbn [foldr]. lia.
Qed.

Lemma init_page_reads p q cells parent : page_holds pBt p cells -> usable <= pageSize pBt ->
  hdrOffset q = hdrOffset p -> aData q = aData p -> isInit q = false -> pParent q = None ->
  cells <> [] \/ parent = None \/ parent = Some 1 ->
  exists q', sqlite3BtreeInitPage pBt q parent = Ret (SQLITE_OK, q') /\ page_holds pBt q' cells /\ nFree q' = nFree p /\
    isInit q' = true.
Proof.
  intros (ptrs & free & top & Hlay & Hlen & Hptrs & Hcells & Hwf & Hk & HnC & f & Hf & Hdec) Hps Eh Ed Ei Ep Hne.
  pose proof (layout_nFree _ _ _ _ _ _ Hlay) as Hnf. pose proof (layout_free _ _ _ _ _ _ Hlay) as [Hu Hfr].
  pose proof (total_fits pBt p ptrs cells free top Hlen Hlay) as Htot. pose proof (cells_4 p cells Hwf) as H4.
  destruct Hlay as [Hgeo Hk0 Htop Hgap Hc Hasc Hsp (fr & Hcon & Hf7) HnF]. pose proof (geometry_hdr _ _ Hgeo) as [Hh Hco].
  destruct Hgeo as (Hhdr & Ecell & Hb & Hub & Hu' & Hov).
  assert (leaf p = negb (Z.land f PTF_LEAF =? 0)) as El by (by rewrite <- Hdec).
  assert (cellOffset p = hdrOffset p + 12 - 4 * b2z (negb (Z.land f PTF_LEAF =? 0))) as Ecell' by (by rewrite <- El).
  unfold sqlite3BtreeInitPage. rewrite Ep, Ei. rewrite (bool_decide_eq_true_2 (None = None)) by done. cbn [negb orb].
  rewrite andb_false_r. cbv zeta. rewrite Eh, Ed, Hf. crun. rewrite Htop. crun. rewrite Hk. crun.
  change (leaf (decodeFlags pBt q f)) with (negb (Z.land f PTF_LEAF =? 0)).
  rewrite <- Ecell'.
  assert (zlen cells <= MX_CELL pBt) as Hmx by (unfold MX_CELL; Z.to_euclidean_division_equations; lia).
  rewrite (proj2 (Z.ltb_ge (MX_CELL pBt) _)) by done.
  assert ((zlen cells =? 0) && match parent with Some pg => negb (pg =? 1) | None => false end = false) as ->.
  { destruct Hne as [Hne|[-> | ->]]; [|apply andb_false_r..]. destruct cells; [done|]. rewrite zlen_cons.
    pose proof (zlen_nonneg cells). by rewrite (proj2 (Z.eqb_neq _ 0)) by lia. }
  rewrite (chain_link _ _ _ Hc). crun. rewrite Hf7. crun.
  pose proof (content_length top usable _ fr ltac:(lia) Hcon) as Hl. rewrite zlen_app in Hl. pose proof (zlen_nonneg (regions_of ptrs cells)).
  rewrite (init_free_ok _ (aData p) (hdrOffset p + 1) top) by (done || lia || (unfold zlen in *; lia)). crun.
  pose proof Hcon as (_ & _ & Efr). rewrite sizes_app in Efr.
  set (n := fr + top - _ + _). assert (n = nFree p) as -> by (unfold n; lia). rewrite (proj2 (Z.leb_gt usable _)) by lia.
  rewrite u16_id by lia. eexists. split; [done|]. split; [|done].
  exists ptrs, free, top. split.
  - constructor; cbn [aData hdrOffset cellOffset nFree leaf aOvfl]; try done. by exists fr.
  - unfold cells_at, flagged. cbn [aData hdrOffset cellOffset nCell]. split_and!; try done; [|by exists f].
    eapply Forall_impl; [exact Hwf|]. intros c. by apply (wf_cell_decoded p _ f).
Qed.
End init.

(** C40: [sqlite3BtreeInitPage] on a page with any bytes whatever ends without
    an access outside of the page.  It answers that the page is corrupt, or it
    accepts it; then the flags are decoded, the number of cells is that of the
    header and not more than a page can have, only a root may be empty, and
    the free blocks form a list in ascending order, each on the page and more
    than three bytes behind the one before, whose sizes with the gap and the
    fragments are less than a page.  That sum may be negative; [nFree] is the
    sum cut to 16 bits.  A page that was read before is left alone, unless it
    has another parent now. *)
Theorem init_page_total pBt q parent : in_memory pBt q ->
  exists rc q', sqlite3BtreeInitPage pBt q parent = Ret (rc, q') /\ aData q' = aData q /\
    (rc = SQLITE_CORRUPT \/
     rc = SQLITE_OK /\ if isInit q then q' = q /\ pParent q = parent else read_page pBt q q' parent).
Proof.
  intros Hq. destruct (decide (pParent q = parent \/ pParent q = None /\ isInit q = false)) as [Hp|Hp].
  - destruct (isInit q) eqn:Ei.
    + destruct Hp as [Hp|[_ Hp]]; [|done]. exists SQLITE_OK, q. unfold sqlite3BtreeInitPage.
      rewrite (bool_decide_eq_true_2 _ Hp), Ei. split; [done|]. auto.
    + destruct (init_page_ok pBt q parent Hq Ei) as (q' & [(E & _ & Hd)|(E & Hr)]); [tauto| |].
      * exists SQLITE_CORRUPT, q'. auto.
      * exists SQLITE_OK, q'. split; [done|]. split; [apply Hr|auto].
  - exists SQLITE_CORRUPT, q. unfold sqlite3BtreeInitPage.
    rewrite (bool_decide_eq_false_2 (pParent q = parent)) by tauto. cbn [negb andb].
    assert (negb (bool_decide (pParent q = None)) || isInit q = true) as ->; [|auto].
    destruct (isInit q); [apply orb_true_r|]. rewrite bool_decide_eq_false_2 by tauto. done.
Qed.

(** A table leaf of zero bytes but for the flags: the content area starts in
    front of the pointers, the sum is -8, and [nFree] is 65528. *)
Definition zeros_page : MemPage :=
  mkPage false false false false false false false 0 0 0 0 0 0 0 [] 2 None (13 :: replicate 511 0).

Lemma zeros_in_memory : in_memory ex_bt zeros_page.
Proof.
  unfold in_memory. split_and!; [by left| |done..]. constructor; [|apply Forall_replicate]; unfold is_byte; lia.
Qed.

Lemma init_page_total_witness : exists rc q', sqlite3BtreeInitPage ex_bt zeros_page None = Ret (rc, q') /\
  rc = SQLITE_OK /\ read_page ex_bt zeros_page q' None /\ usableSize ex_bt < nFree q'.
Proof.
  destruct (init_page_total ex_bt zeros_page None zeros_in_memory) as (rc & q' & E & _ & Hr).
  exists rc, q'. split; [exact E|].
  assert (rc = SQLITE_OK /\ nFree q' = 65528) as [-> Hn] by (clear Hr; vm_compute in E; injection E as <- <-; by split).
  destruct Hr as [Hr|[_ Hr]]; [done|]. split; [done|]. split; [exact Hr|]. rewrite Hn. done.
Defined.

(** Such a page lets more cells in than fit: for the second cell of 477 bytes
    the assertion of [insertCell] that the gap has room after the cells were
    moved fails; where assertions are compiled out, the cell is copied to an
    offset in front of the page. *)
Lemma zeros_page_overrun :
  ('(_, q) ← sqlite3BtreeInitPage ex_bt zeros_page None;
   '(q, _) ← page_run ex_bt ex_ptrmapPut (replicate 512 0) tt q
     [Insert 0 ([131; 93; 1] ++ replicate 477 5); Insert 1 ([131; 93; 2] ++ replicate 477 6)]; Ret (nCell q)) = Prelude.Abort.
Proof. vm_compute. reflexivity. Qed.

(** C13: whatever [insertCell] and [dropCell] did to a page that [zeroPage]
    made, as long as every cell fitted, [sqlite3BtreeInitPage] reads from its
    bytes the same cells in the same order and the same [nFree], also when the
    page is not the root but has a cell. *)
Theorem init_page_reads_back pBt {St} (ptrmapPut : St -> Z -> Z -> Z -> res (Z * St)) temp st p p0 flags ops cells q parent :
  autoVacuum pBt = false -> raw_page pBt p -> is_byte flags -> bytes_ok temp -> usableSize pBt <= zlen temp ->
  usableSize pBt <= pageSize pBt -> zeroPage pBt p flags = Ret p0 -> Forall (op_wf pBt p0) ops ->
  spec_run (usableSize pBt - cellOffset p0) ([], []) ops = Some (cells, []) ->
  cells <> [] \/ parent = None \/ parent = Some 1 -> isInit q = false -> pParent q = None -> hdrOffset q = hdrOffset p ->
  exists p', page_run pBt ptrmapPut temp st p0 ops = Ret (p', st) /\
    (aData q = aData p' -> exists q', sqlite3BtreeInitPage pBt q parent = Ret (SQLITE_OK, q') /\
       isInit q' = true /\ page_cells pBt q' = Ret cells /\ nCell q' = zlen cells /\ nFree q' = nFree p').
Proof.
  intros Hav Hraw Hfl Htb Htl Hps E0 Hwf Hs Hne Ei Ep Eh.
  destruct (zeroPage_ok pBt p flags Hraw Hfl) as (p0' & E0' & Hp0 & Eh0). rewrite E0 in E0'. injection E0' as <-.
  destruct (page_run_ok pBt ptrmapPut Hav temp st ops Htb Htl p0 p0 ([], []) (cells, [])) as (p' & E & Hp' & Hk); [done..|].
  exists p'. split; [done|]. intros Ed. destruct (same_kind_eqs _ _ Hk) as (Eh' & _).
  destruct (init_page_reads pBt p' q cells parent Hp') as (q' & Eq & Hq & Hn & Hi); [done|congruence|done..|].
  exists q'. split; [done|]. destruct (page_holds_count _ _ _ Hq) as (? & _ & _).
  split_and!; [done|by apply page_cells_ok|done..].
Qed.

Definition ex_edits : list page_op := [Insert 0 [2; 1; 7; 7]; Insert 0 [2; 3; 9; 9]; Drop 1].

Lemma init_page_reads_back_witness : exists p0 p' q', zeroPage ex_bt ex_raw 13 = Ret p0 /\
  page_run ex_bt ex_ptrmapPut (replicate 512 0) tt p0 ex_edits = Ret (p', tt) /\
  sqlite3BtreeInitPage ex_bt (set_data (aData p') ex_raw) (Some 5) = Ret (SQLITE_OK, q') /\
  page_cells ex_bt q' = Ret [[2; 3; 9; 9]] /\ nFree q' = 498.
Proof.
  destruct (zeroPage ex_bt ex_raw 13) as [p0| | |] eqn:E; [|vm_compute in E; discriminate E..]. exists p0.
  assert (Forall (op_wf ex_bt p0) ex_edits /\ cellOffset p0 = 8) as [Hwf Ec].
  { assert (sane ex_bt p0 /\ childPtrSize p0 = 0 /\ hasData p0 = true /\ intKey p0 = true /\ maxLocal p0 = 477 /\ cellOffset p0 = 8)
      as (Hs & Hc & Hd & Hi & Hm & ?) by (vm_compute in E; injection E as <-; repeat split; vm_compute; congruence).
    clear E. split; [|done]. unfold ex_edits. rewrite !Forall_cons. cbn [op_wf].
    split_and!; [apply (table_cell_wf ex_bt p0 _ 1 [7; 7])|apply (table_cell_wf ex_bt p0 _ 3 [9; 9])|done|constructor];
      try done; try (rewrite Hm; vm_compute; congruence); repeat (constructor; [unfold is_byte; lia|]); constructor. }
  destruct (init_page_reads_back ex_bt ex_ptrmapPut (replicate 512 0) tt ex_raw p0 13 ex_edits [[2; 3; 9; 9]]
    (set_data (match page_run ex_bt ex_ptrmapPut (replicate 512 0) tt p0 ex_edits with
               Ret (p', _) => aData p' | _ => [] end) ex_raw) (Some 5)) as (p' & Er & H);
    [reflexivity| |unfold is_byte; lia|apply Forall_replicate; unfold is_byte; lia|vm_compute; congruence|vm_compute; congruence|exact E|exact Hwf
    |rewrite Ec; vm_compute; reflexivity|by left|reflexivity|reflexivity|reflexivity|].
  - unfold raw_page. split_and!; [by left|apply Forall_replicate; unfold is_byte; lia|vm_compute; congruence..].
  - rewrite Er in H. destruct (H eq_refl) as (q' & Eq & _ & Hc & _ & Hn). exists p', q'. split_and!; try assumption; [reflexivity|].
    rewrite Hn. clear - E Er. vm_compute in E. injection E as <-. vm_compute in Er. injection Er as <-. reflexivity.
Defined.
