(* ===== verification/BtreeStore.v ===== *)
(** * The pages of a database, and the pointer map

    A [Store] is what a transaction sees of the file: the images of its pages,
    their number ([dbSize] of the pager) and [nTrunc] of the [BtShared].  The
    calls of the pager that [btree.c] makes are operations on it.  They fail
    with the result codes [rcGet] and [rcWrite]; a page that is asked for
    without its content has the bytes [stale].  References to pages are not
    counted, and what the journal keeps is not modelled.

    On it, the pointer map of [btree.c]: [ptrmapPageno], [ptrmapPut] and
    [ptrmapGet], which stand for a map from pages to their types and
    parents. *)

From S2P Require Import Prelude Varint PageBytes BtreePage.

Record Store := mkStore {
  pages : gmap Z (list Z);
  dbSize : Z;
  nTrunc : Z;
}.

(** A computation on the store that returns a value or a result code other
    than [SQLITE_OK]. *)
Definition BM (A : Type) : Type := Store -> res (Store * (Z + A)).

#[export] Instance BM_ret : MRet BM := fun A a st => Ret (st, inr a).
#[export] Instance BM_bind : MBind BM := fun A B f m st =>
  match m st with
  | Ret (st, inr a) => f a st
  | Ret (st, inl rc) => Ret (st, inl rc)
  | Abort => Abort | UB => UB | NoFuel => NoFuel
  end.

Definition throw {A} (rc : Z) : BM A := fun st => Ret (st, inl rc).
Definition lift {A} (m : res A) : BM A := fun st => a ← m; Ret (st, inr a).
Definition ask : BM Store := fun st => Ret (st, inr st).

(** ** Four-byte integers in a page *)

Definition get4byte (d : list Z) (a : Z) : res Z :=
  if decide (0 <= a) then sqlite3Get4byte (drop (Z.to_nat a) d) else UB.

Definition put4byte (d : list Z) (a v : Z) : res (list Z) := copy_to d a (sqlite3Put4byte v).

Lemma put4byte_bytes v : bytes_ok (sqlite3Put4byte v) /\ zlen (sqlite3Put4byte v) = 4.
Proof. split; [|done]. repeat constructor; apply u8_byte. Qed.

Lemma get4byte_ext d d' a : (forall i, a <= i < a + 4 -> rd d' i = rd d i) -> get4byte d' a = get4byte d a.
Proof.
  intros H. unfold get4byte. case_decide; [|done]. unfold sqlite3Get4byte. rewrite !rd_drop by lia. by rewrite !H by lia.
Qed.

Lemma get4byte_frame d d' a b x : same_outside d d' a b -> x + 4 <= a \/ b <= x -> get4byte d' x = get4byte d x.
Proof. intros [_ H] Hx. apply get4byte_ext. intros i Hi. apply H. lia. Qed.

Lemma get4byte_ok d a : 0 <= a -> a + 4 <= zlen d -> exists v, get4byte d a = Ret v /\ is_u32 v.
Proof.
  intros Ha Hl. unfold get4byte. rewrite decide_True by done. unfold sqlite3Get4byte. rewrite !rd_drop by lia.
  destruct (rd_lt d (a + 0)) as [x0 ->]; [lia|]. destruct (rd_lt d (a + 1)) as [x1 ->]; [lia|].
  destruct (rd_lt d (a + 2)) as [x2 ->]; [lia|]. destruct (rd_lt d (a + 3)) as [x3 ->]; [lia|]. crun.
  eexists. split; [done|]. unfold is_u32, u32. apply Z.mod_pos_bound. lia.
Qed.

Lemma holds_get4byte d a v : is_u32 v -> holds d a (sqlite3Put4byte v) -> get4byte d a = Ret v.
Proof.
  intros Hv H. destruct (holds_drop _ _ _ H) as [rest E]. destruct H as (Ha & _). unfold get4byte.
  rewrite decide_True, E by done. apply (four_byte_roundtrip v 0 0 0 0); [done|]. repeat constructor; unfold is_byte; lia.
Qed.

Lemma holds_get4byte_same d d' a a' b : zlen b = 4 -> holds d a b -> holds d' a' b -> get4byte d' a' = get4byte d a.
Proof.
  intros Lb (Ha & _ & H) (Ha' & _ & H'). unfold get4byte. rewrite !decide_True by done.
  unfold sqlite3Get4byte. rewrite !rd_drop by lia. by rewrite !H, !H' by lia.
Qed.

Lemma put4byte_ok d a v : bytes_ok d -> 0 <= a -> a + 4 <= zlen d -> is_u32 v ->
  exists d', put4byte d a v = Ret d' /\ get4byte d' a = Ret v /\ bytes_ok d' /\ same_outside d d' a (a + 4).
Proof.
  intros Hd Ha Hl Hv. destruct (put4byte_bytes v) as [Hb L].
  destruct (copy_to_ok (sqlite3Put4byte v) d a) as (d' & E & H & B & O); [done..|lia|].
  rewrite L in O. exists d'. split_and!; [done|by apply holds_get4byte|done|apply O..].
Qed.

(** ** The pager *)

Section store.
Context (pBt : BtShared).

Definition PENDING_BYTE_PAGE : Z := PENDING_BYTE / pageSize pBt + 1.
Definition PAGER_MAX_PGNO : Z := 2147483647.

(** A page that was never written is zero. *)
Definition image (st : Store) (pgno : Z) : list Z :=
  default (replicate (Z.to_nat (pageSize pBt)) 0) (pages st !! pgno).

Definition set_image (pgno : Z) (d : list Z) (st : Store) : Store :=
  mkStore (<[pgno := d]> (pages st)) (dbSize st) (nTrunc st).

Definition sqlite3PagerPagecount (st : Store) : Z :=
  if dbSize st =? PENDING_BYTE / pageSize pBt then dbSize st + 1 else dbSize st.

(** ** The pointer map *)

Definition PTRMAP_ROOTPAGE : Z := 1.
Definition PTRMAP_FREEPAGE : Z := 2.
Definition PTRMAP_OVERFLOW2 : Z := 4.
Definition PTRMAP_BTREE : Z := 5.

Definition ptrmapPageno (pgno : Z) : Z :=
  let nPagesPerMapPage := usableSize pBt / 5 + 1 in
  let iPtrMap := s32 (u32 (pgno - 2) / nPagesPerMapPage) in
  let ret := s32 (iPtrMap * nPagesPerMapPage + 2) in
  u32 (if ret =? PENDING_BYTE_PAGE then ret + 1 else ret).

Definition PTRMAP_PTROFFSET (pgno : Z) : Z := s32 (u32 (5 * (pgno - ptrmapPageno pgno - 1))).
Definition PTRMAP_ISPAGE (pgno : Z) : bool := ptrmapPageno pgno =? pgno.

(** ** Stores *)

(** Sizes of pages that occur, and pages of one size. *)
Definition config_ok : Prop := 480 <= usableSize pBt <= pageSize pBt /\ pageSize pBt <= 32768.

Definition store_ok (st : Store) : Prop :=
  map_Forall (fun _ d => bytes_ok d /\ zlen d = pageSize pBt) (pages st).

Lemma image_ok st pgno : store_ok st -> config_ok -> bytes_ok (image st pgno) /\ zlen (image st pgno) = pageSize pBt.
Proof.
  intros Hst Hc. unfold image. destruct (pages st !! pgno) as [d|] eqn:E; [by apply (Hst pgno)|].
  unfold config_ok in Hc. split; [apply Forall_replicate; unfold is_byte; lia|]. cbn. rewrite zlen_replicate. lia.
Qed.

Lemma image_set st pgno pgno' d : image (set_image pgno d st) pgno' = if pgno' =? pgno then d else image st pgno'.
Proof.
  unfold image, set_image. cbn. destruct (Z.eqb_spec pgno' pgno) as [->|Hne].
  - by rewrite lookup_insert_eq.
  - by rewrite lookup_insert_ne.
Qed.

Lemma store_ok_set st pgno d : store_ok st -> bytes_ok d -> zlen d = pageSize pBt -> store_ok (set_image pgno d st).
Proof. intros Hst Hd L. by apply map_Forall_insert_2. Qed.

Lemma PENDING_big : config_ok -> 32769 <= PENDING_BYTE_PAGE <= 2 ^ 30 / 480 + 1.
Proof.
  intros [Hu Hp]. unfold PENDING_BYTE_PAGE, PENDING_BYTE. change 1073741824 with (2 ^ 30).
  pose proof (Z.div_le_mono (32768 * pageSize pBt) (2 ^ 30) (pageSize pBt) ltac:(lia) ltac:(lia)) as H1.
  rewrite Z.div_mul in H1 by lia. pose proof (Z.div_le_compat_l (2 ^ 30) 480 (pageSize pBt) ltac:(lia) ltac:(lia)). lia.
Qed.

Definition pgno_ok (pgno : Z) : Prop := 0 < pgno <= PAGER_MAX_PGNO /\ pgno <> PENDING_BYTE_PAGE.

(** ** Where the entries of the pointer map lie *)

(** The pages with an entry: not the first two, not the map itself. *)
Definition mapped_page (key : Z) : Prop := pgno_ok key /\ 2 < key /\ ptrmapPageno key <> key.

Lemma ptrmapPageno_eq key : config_ok -> 2 <= key <= PAGER_MAX_PGNO ->
  let n := usableSize pBt / 5 + 1 in
  let g := (key - 2) / n * n + 2 in
  ptrmapPageno key = if g =? PENDING_BYTE_PAGE then g + 1 else g.
Proof.
  intros Hc Hk n g. pose proof (PENDING_big Hc) as HP. unfold PAGER_MAX_PGNO in Hk. destruct Hc as [Hu Hp].
  assert (97 <= n <= 6555) as Hn by (unfold n; Z.to_euclidean_division_equations; lia).
  assert (0 <= (key - 2) / n <= key - 2 /\ (key - 2) / n * n <= key - 2) as Hq by (Z.to_euclidean_division_equations; nia).
  unfold ptrmapPageno. fold n. rewrite (u32_id (key - 2)) by (unfold is_u32; lia).
  replace (s32 ((key - 2) / n)) with ((key - 2) / n) by (unfold s32; rewrite Z.mod_small; lia).
  replace (s32 ((key - 2) / n * n + 2)) with g by (unfold g, s32; rewrite Z.mod_small; lia).
  apply u32_id. unfold is_u32. assert (2 <= g <= key) by (unfold g; lia). destruct (g =? PENDING_BYTE_PAGE); lia.
Qed.

Lemma ptrmap_slot key : config_ok -> mapped_page key ->
  pgno_ok (ptrmapPageno key) /\ 2 <= ptrmapPageno key < key /\
  PTRMAP_PTROFFSET key = 5 * (key - ptrmapPageno key - 1) /\
  0 <= PTRMAP_PTROFFSET key /\ PTRMAP_PTROFFSET key + 5 <= usableSize pBt.
Proof.
  intros Hc ([Hk Hne] & Hk2 & Hself). pose proof (ptrmapPageno_eq key Hc ltac:(lia)) as E. cbv zeta in E.
  pose proof (PENDING_big Hc) as HP. pose proof Hc as [Hu Hp].
  set (n := usableSize pBt / 5 + 1) in *. assert (5 * (n - 1) <= usableSize pBt) by (unfold n; Z.to_euclidean_division_equations; lia).
  assert (97 <= n) as Hn by (unfold n; Z.to_euclidean_division_equations; lia).
  assert ((key - 2) / n * n <= key - 2 < (key - 2) / n * n + n /\ 0 <= (key - 2) / n * n) as Hq.
  { pose proof (Z.div_mod (key - 2) n ltac:(lia)). pose proof (Z.mod_pos_bound (key - 2) n ltac:(lia)).
    pose proof (Z.div_pos (key - 2) n ltac:(lia) ltac:(lia)). nia. }
  set (g := (key - 2) / n * n + 2) in *. assert (g <= key < g + n /\ 2 <= g) as Hg by (unfold g; lia). clearbody g. clear Hq.
  set (p := ptrmapPageno key) in *. unfold PAGER_MAX_PGNO in *.
  assert (2 <= p < key /\ p <> PENDING_BYTE_PAGE /\ 5 * (key - p - 1) + 5 <= usableSize pBt) as (H1 & H2 & H3)
    by (destruct (Z.eqb_spec g PENDING_BYTE_PAGE); lia).
  unfold PTRMAP_PTROFFSET. fold p. unfold pgno_ok, PAGER_MAX_PGNO.
  assert (s32 (u32 (5 * (key - p - 1))) = 5 * (key - p - 1)) as ->.
  { rewrite u32_id by (unfold is_u32; lia). unfold s32. rewrite Z.mod_small; lia. }
  split_and!; lia.
Qed.

(** For page 1 the product in [ptrmapPageno] is not an [int]. *)
Lemma ptrmapPageno_one : config_ok ->
  let n := usableSize pBt / 5 + 1 in
  let iPtrMap := u32 (1 - 2) / n in
  s32 iPtrMap = iPtrMap /\ 2 ^ 31 <= iPtrMap * n < 2 ^ 32.
Proof.
  intros [Hu Hp] n iPtrMap. assert (97 <= n <= 6555) as Hn by (unfold n; Z.to_euclidean_division_equations; lia).
  unfold iPtrMap. change (u32 (1 - 2)) with (2 ^ 32 - 1).
  pose proof (Z.div_mod (2 ^ 32 - 1) n ltac:(lia)) as H. pose proof (Z.mod_pos_bound (2 ^ 32 - 1) n ltac:(lia)).
  assert (0 <= (2 ^ 32 - 1) / n < 2 ^ 31) by (split; [apply Z.div_pos; lia|apply Z.div_lt_upper_bound; lia]).
  split; [by apply s32_id; lia|]. lia.
Qed.

(** The pages of the map are where the map says. *)
Lemma map_page_self key : config_ok -> mapped_page key -> ptrmapPageno (ptrmapPageno key) = ptrmapPageno key.
Proof.
  intros Hc Hm. destruct (ptrmap_slot key Hc Hm) as (_ & Hlt & _). destruct Hm as ([Hk Hne] & Hk2 & _).
  pose proof (ptrmapPageno_eq key Hc ltac:(lia)) as E. pose proof (ptrmapPageno_eq (ptrmapPageno key) Hc ltac:(lia)) as E'.
  cbv zeta in E, E'. destruct Hc as [Hu _].
  set (n := usableSize pBt / 5 + 1) in *. assert (97 <= n) as Hn by (unfold n; Z.to_euclidean_division_equations; lia).
  set (i := (key - 2) / n) in *.
  assert ((ptrmapPageno key - 2) / n = i) as Hi.
  { rewrite E. symmetry. destruct (i * n + 2 =? PENDING_BYTE_PAGE).
    - apply (Z.div_unique _ _ _ 1); lia.
    - apply (Z.div_unique _ _ _ 0); lia. }
  rewrite Hi in E'. by rewrite E', E at 1.
Qed.

(** ** The pointer map is a map *)

(** The bytes of the entry of [key]. *)
Definition entry_at (st : Store) (key : Z) (t p : Z) : Prop :=
  rd (image st (ptrmapPageno key)) (PTRMAP_PTROFFSET key) = Some t /\
  get4byte (image st (ptrmapPageno key)) (PTRMAP_PTROFFSET key + 1) = Ret p.

Lemma entry_exists st key : config_ok -> store_ok st -> mapped_page key -> exists t p, entry_at st key t p.
Proof.
  intros Hc Hst Hk. destruct (ptrmap_slot key Hc Hk) as (_ & _ & _ & H0 & H1).
  destruct (image_ok st (ptrmapPageno key) Hst Hc) as [Hb L]. destruct Hc as [Hu _].
  destruct (rd_lt (image st (ptrmapPageno key)) (PTRMAP_PTROFFSET key)) as [t Et]; [lia|].
  destruct (get4byte_ok (image st (ptrmapPageno key)) (PTRMAP_PTROFFSET key + 1)) as (p & Ep & _); [lia..|].
  by exists t, p.
Qed.

(** ** The calls of the pager *)

Context (rcGet rcWrite : Store -> Z -> Z) (stale : Store -> Z -> list Z).

(** [sqlite3BtreeGetPage] and [sqlite3PagerGet], which ask for the content. *)
Definition sqlite3BtreeGetPage (pgno : Z) (noContent : bool) : BM (list Z) := fun st =>
  if (PAGER_MAX_PGNO <? pgno) || (pgno =? 0) || (pgno =? PENDING_BYTE_PAGE) then Ret (st, inl SQLITE_CORRUPT) else
  if negb (rcGet st pgno =? SQLITE_OK) then Ret (st, inl (rcGet st pgno)) else
  Ret (st, inr (if noContent then stale st pgno else image st pgno)).

(** [sqlite3PagerWrite] on the page with the bytes [d]. *)
Definition sqlite3PagerWrite (pgno : Z) (d : list Z) : BM unit := fun st =>
  if negb (rcWrite st pgno =? SQLITE_OK) then Ret (st, inl (rcWrite st pgno)) else
  let n := if dbSize st <? pgno then
             (if pgno =? PENDING_BYTE / pageSize pBt then pgno + 1 else pgno)
           else dbSize st in
  Ret (mkStore (<[pgno := d]> (pages st)) n (nTrunc st), inr tt).

(** A change to the bytes of a page in memory. *)
Definition modify (pgno : Z) (f : list Z -> res (list Z)) : BM unit := fun st =>
  d ← f (image st pgno); Ret (set_image pgno d st, inr tt).

(** ** Reading and writing the pointer map *)

Definition ptrmapPut (key eType parent : Z) : BM unit :=
  if key =? 0 then throw SQLITE_CORRUPT else
  let iPtrmap := ptrmapPageno key in
  pPtrmap ← sqlite3BtreeGetPage iPtrmap false;
  let offset := PTRMAP_PTROFFSET key in
  t ← lift (of_opt (rd pPtrmap offset));
  p ← lift (get4byte pPtrmap (offset + 1));
  if negb (eType =? t) || negb (p =? parent) then
    sqlite3PagerWrite iPtrmap pPtrmap;;
    modify iPtrmap (fun d => d ← of_opt (wr d offset eType); put4byte d (offset + 1) parent)
  else mret tt.

(** The type and the parent. *)
Definition ptrmapGet (key : Z) : BM (Z * Z) :=
  let iPtrmap := ptrmapPageno key in
  pPtrmap ← sqlite3BtreeGetPage iPtrmap false;
  let offset := PTRMAP_PTROFFSET key in
  t ← lift (of_opt (rd pPtrmap offset));
  p ← lift (get4byte pPtrmap (offset + 1));
  if (t <? 1) || (5 <? t) then throw SQLITE_CORRUPT else mret (t, p).


(** Nothing fails. *)
Context (no_fail : forall st pgno, rcGet st pgno = SQLITE_OK /\ rcWrite st pgno = SQLITE_OK).

Lemma getPage_ok st pgno nc : pgno_ok pgno ->
  sqlite3BtreeGetPage pgno nc st = Ret (st, inr (if nc then stale st pgno else image st pgno)).
Proof.
  intros [Hp Hne]. unfold sqlite3BtreeGetPage. rewrite (proj1 (no_fail st pgno)).
  rewrite (proj2 (Z.ltb_ge _ _)), (proj2 (Z.eqb_neq pgno 0)), (proj2 (Z.eqb_neq _ _) Hne) by lia. done.
Qed.

(** The number of pages after a write to the page [pgno]. *)
Definition grown (n pgno : Z) : Z :=
  if n <? pgno then (if pgno =? PENDING_BYTE / pageSize pBt then pgno + 1 else pgno) else n.

Definition set_size (n : Z) (st : Store) : Store := mkStore (pages st) n (nTrunc st).

Lemma pagerWrite_ok st pgno d :
  sqlite3PagerWrite pgno d st = Ret (set_image pgno d (set_size (grown (dbSize st) pgno) st), inr tt).
Proof. unfold sqlite3PagerWrite. by rewrite (proj2 (no_fail st pgno)). Qed.

Lemma ptrmapGet_entry st key t p : config_ok -> mapped_page key -> entry_at st key t p ->
  ptrmapGet key st = Ret (st, if (t <? 1) || (5 <? t) then inl SQLITE_CORRUPT else inr (t, p)).
Proof.
  intros Hc Hk [Et Ep]. destruct (ptrmap_slot key Hc Hk) as (Hpg & _).
  unfold ptrmapGet, mbind, BM_bind. rewrite getPage_ok by done. unfold lift. rewrite Et, Ep. crun.
  by destruct ((t <? 1) || (5 <? t)).
Qed.

Lemma ptrmapPut_ok st key t p : config_ok -> store_ok st -> mapped_page key -> is_byte t -> is_u32 p ->
  exists st', ptrmapPut key t p st = Ret (st', inr tt) /\ store_ok st' /\ entry_at st' key t p /\
    (forall key' t' p', key' <> key -> mapped_page key' -> entry_at st key' t' p' -> entry_at st' key' t' p') /\
    (forall pg, pg <> ptrmapPageno key -> image st' pg = image st pg) /\
    (ptrmapPageno key <= dbSize st -> dbSize st' = dbSize st) /\ nTrunc st' = nTrunc st.
Proof.
  intros Hc Hst Hk Ht Hp. destruct (ptrmap_slot key Hc Hk) as (Hpg & Hlt & Hoff & H0 & H1).
  destruct (entry_exists st key Hc Hst Hk) as (t0 & p0 & Et & Ep).
  destruct (image_ok st (ptrmapPageno key) Hst Hc) as [Hb L]. pose proof Hc as [Hu _].
  unfold ptrmapPut. destruct Hk as ([Hk _] & _). rewrite (proj2 (Z.eqb_neq key 0)) by lia.
  unfold mbind, BM_bind. rewrite getPage_ok by done. unfold lift. rewrite Et, Ep. crun.
  set (pg := ptrmapPageno key) in *. set (off := PTRMAP_PTROFFSET key) in *.
  destruct (negb (t =? t0) || negb (p0 =? p)) eqn:E.
  - rewrite pagerWrite_ok. unfold modify. set (st1 := set_image pg _ _).
    assert (image st1 pg = image st pg) as E1 by (unfold st1; by rewrite image_set, Z.eqb_refl). rewrite E1.
    destruct (wr_ok (image st pg) off t) as [d1 W1]; [lia|]. rewrite W1. crun.
    pose proof (wr_outside _ _ _ _ W1) as O1. pose proof (bytes_ok_wr _ _ _ _ Hb Ht W1) as B1. pose proof O1 as [L1 O1'].
    destruct (put4byte_ok d1 (off + 1) p) as (d2 & -> & G2 & B2 & [L2 O2]); [done|lia|lia|done|]. crun.
    assert (rd d2 off = Some t) as R2 by (by rewrite O2, (rd_wr _ _ _ _ _ W1), Z.eqb_refl by lia).
    eexists. split; [done|]. split_and!.
    + apply store_ok_set; [apply store_ok_set; done|done|congruence].
    + unfold entry_at. fold pg off. by rewrite !image_set, Z.eqb_refl.
    + intros key' t' p' Hne Hk' [Et' Ep']. destruct (ptrmap_slot key' Hc Hk') as (_ & _ & Hoff' & _).
      unfold entry_at. rewrite image_set. destruct (Z.eqb_spec (ptrmapPageno key') pg) as [E'|E'].
      * rewrite E' in *. split; [rewrite O2, O1' by lia; done|]. rewrite <- Ep'. apply get4byte_ext.
        intros i Hi. rewrite O2, O1' by lia. done.
      * unfold st1. rewrite image_set, (proj2 (Z.eqb_neq _ _) E'). done.
    + intros pg' Hne. unfold st1. by rewrite !image_set, !(proj2 (Z.eqb_neq _ _) Hne).
    + intros Hsz. cbn. unfold grown. by rewrite (proj2 (Z.ltb_ge _ pg)) by lia.
    + done.
  - assert (t0 = t /\ p0 = p) as [-> ->] by lia. exists st. by split_and!.
Qed.

(** ** Runs *)

Fixpoint ptrmap_puts (l : list (Z * (Z * Z))) : BM unit :=
  match l with
  | [] => mret tt
  | (key, (t, p)) :: l => ptrmapPut key t p;; ptrmap_puts l
  end.

Definition entry_ok (x : Z * (Z * Z)) : Prop := mapped_page x.1 /\ 1 <= x.2.1 <= 5 /\ is_u32 x.2.2.

(** What [ptrmapGet] answers. *)
Definition answer (st : Store) (key : Z) : option (Z + (Z * Z)) :=
  match ptrmapGet key st with Ret (_, a) => Some a | _ => None end.

(** The map [m] says what was put since [st0]. *)
Definition describes (st0 st : Store) (m : gmap Z (Z * Z)) : Prop := forall key, mapped_page key ->
  match m !! key with
  | Some (t, p) => 1 <= t <= 5 /\ entry_at st key t p
  | None => forall t p, entry_at st0 key t p -> entry_at st key t p
  end.

Lemma describes_put st0 st st1 m key t p : describes st0 st m -> 1 <= t <= 5 -> entry_at st1 key t p ->
  (forall key' t' p', key' <> key -> mapped_page key' -> entry_at st key' t' p' -> entry_at st1 key' t' p') ->
  describes st0 st1 (<[key := (t, p)]> m).
Proof.
  intros Hm Ht He Ho key' Hk'. destruct (decide (key' = key)) as [->|Hne]; [by rewrite lookup_insert_eq|].
  rewrite lookup_insert_ne by done. specialize (Hm key' Hk'). destruct (m !! key') as [[t' p']|].
  - destruct Hm as [? Hm]. split; [done|]. by apply Ho.
  - intros t' p' H'. by apply Ho, Hm.
Qed.

Lemma ptrmap_puts_ok st0 l : forall st m, config_ok -> store_ok st -> describes st0 st m -> Forall entry_ok l ->
  exists st', ptrmap_puts l st = Ret (st', inr tt) /\
    describes st0 st' (foldl (fun m x => <[x.1 := x.2]> m) m l) /\
    (forall pg, (forall x, x ∈ l -> ptrmapPageno x.1 <> pg) -> image st' pg = image st pg) /\
    (Forall (fun x => x.1 <= dbSize st) l -> dbSize st' = dbSize st).
Proof.
  induction l as [|[key [t p]] l IH]; intros st m Hc Hst Hm Hl; [by exists st|].
  apply Forall_cons in Hl as [(Hk & Ht & Hp) Hl]. cbn [fst snd] in Hk, Ht, Hp. cbn [ptrmap_puts foldl].
  destruct (ptrmapPut_ok st key t p Hc Hst Hk ltac:(unfold is_byte; lia) Hp)
    as (st1 & E1 & Hst1 & Hent & Hoth & Himg & Hsz & _).
  destruct (IH st1 (<[key := (t, p)]> m) Hc Hst1) as (st' & E' & Hm' & Himg' & Hsz'); [by eapply describes_put|done|].
  unfold mbind at 1, BM_bind. rewrite E1, E'. exists st'. split_and!; [done|done| |].
  - intros pg Hpg. rewrite Himg', Himg; [done| |].
    + intros ->. apply (Hpg (key, (t, p))); [left|done].
    + intros x Hx. apply Hpg. by right.
  - intros Hle. apply Forall_cons in Hle as [Hle Hl']. destruct (ptrmap_slot key Hc Hk) as (_ & Hlt & _). cbn in Hle.
    rewrite Hsz', Hsz by (try rewrite Hsz by lia; done || lia). done.
Qed.

End store.

(** C20: the pointer map is a map.  After any sequence of [ptrmapPut] on pages
    that have an entry, [ptrmapGet] answers for each such page the type and
    the parent that were put last, or what it answered before; the calls do
    not leave the pages of the map, no other page changes, and the file does
    not grow when the pages are part of it.  No entry lies on the page of the
    pending byte or outside of the usable bytes, for all page sizes and also
    behind the gap that the pending byte makes. *)
Theorem ptrmap_refines_map pBt rcGet rcWrite stale st l :
  (forall st pgno, rcGet st pgno = SQLITE_OK /\ rcWrite st pgno = SQLITE_OK) ->
  config_ok pBt -> store_ok pBt st -> Forall (entry_ok pBt) l ->
  exists st', ptrmap_puts pBt rcGet rcWrite stale l st = Ret (st', inr tt) /\
    (forall key, mapped_page pBt key -> exists a,
       ptrmapGet pBt rcGet stale key st = Ret (st, a) /\
       ptrmapGet pBt rcGet stale key st' =
         Ret (st', match (foldl (fun m x => <[x.1 := x.2]> m) ∅ l : gmap Z (Z * Z)) !! key with
                   | Some e => inr e | None => a end)) /\
    (forall pg, (forall x, x ∈ l -> ptrmapPageno pBt x.1 <> pg) -> image pBt st' pg = image pBt st pg) /\
    (Forall (fun x => x.1 <= dbSize st) l -> dbSize st' = dbSize st).
Proof.
  intros Hnf Hc Hst Hl.
  destruct (ptrmap_puts_ok pBt rcGet rcWrite stale Hnf st l st ∅ Hc Hst) as (st' & E & Hm & Himg & Hsz); [|done|].
  { intros key _. by rewrite lookup_empty. }
  exists st'. split_and!; [done| |done|done].
  intros key Hk. specialize (Hm key Hk). destruct (entry_exists pBt st key Hc Hst Hk) as (t & p & He).
  eexists. split; [by apply (ptrmapGet_entry _ _ _ _ Hnf st key t p)|].
  destruct (foldl _ _ _ !! key) as [[t' p']|].
  - destruct Hm as [Ht He']. rewrite (ptrmapGet_entry _ _ _ _ Hnf st' key t' p') by done.
    by rewrite (proj2 (Z.ltb_ge t' 1)), (proj2 (Z.ltb_ge 5 t')) by lia.
  - by rewrite (ptrmapGet_entry _ _ _ _ Hnf st' key t p) by auto.
Qed.

Definition ex_auto : BtShared := mkBt 512 512 102 39 477 39 true.

Lemma ptrmap_refines_map_witness : exists st',
  ptrmap_puts ex_auto (fun _ _ => 0) (fun _ _ => 0) (fun _ _ => []) [(3, (1, 0)); (4, (5, 3)); (3, (5, 9))]
    (mkStore ∅ 10 0) = Ret (st', inr tt) /\
  ptrmapGet ex_auto (fun _ _ => 0) (fun _ _ => []) 3 st' = Ret (st', inr (5, 9)) /\ dbSize st' = 10.
Proof.
  destruct (ptrmap_refines_map ex_auto (fun _ _ => 0) (fun _ _ => 0) (fun _ _ => []) (mkStore ∅ 10 0)
    [(3, (1, 0)); (4, (5, 3)); (3, (5, 9))]) as (st' & E & H & _ & Hsz).
  - done.
  - split; vm_compute; repeat split; congruence.
  - apply map_Forall_empty.
  - repeat constructor; vm_compute; congruence.
  - exists st'. destruct (H 3) as (a & _ & E3); [split_and!; vm_compute; repeat split; congruence|].
    split_and!; [exact E|exact E3|]. apply Hsz. repeat constructor; vm_compute; congruence.
Defined.
