(* ===== verification/BtreeFree.v ===== *)
(** * The list of free pages

    [allocateBtreePage] and [freePage] of [btree.c] on a [Store].  A page is
    given by its number; its image is in the store.  The free pages form a
    chain of trunk pages, each with the numbers of leaf pages, that starts at
    byte 32 of page 1, and byte 36 holds their number.  The file shows that
    they refine a set: what is handed out is a page that nobody uses, and no
    page is lost. *)

From S2P Require Import Prelude Varint PageBytes BtreePage BtreeStore.

Section free.
Context (pBt : BtShared).
Context (rcGet rcWrite : Store -> Z -> Z) (stale : Store -> Z -> list Z).
Notation usable := (usableSize pBt).
Notation image := (image pBt).
Notation PagerWrite := (sqlite3PagerWrite pBt rcWrite).
Notation GetPage := (sqlite3BtreeGetPage pBt rcGet stale).
Notation modify := (modify pBt).

(** The bytes of a page that the caller has a reference to. *)
Definition aData_of (pgno : Z) : BM (list Z) := fun st => Ret (st, inr (image st pgno)).

(** [sqlite3PagerWrite] on such a page. *)
Definition write_page (pgno : Z) : BM unit := d ← aData_of pgno; PagerWrite pgno d.

(** [int dist = ...; if( dist<0 ) dist = -dist;] *)
Definition distance (a nearby : Z) : res Z :=
  let dist := s32 (u32 (a - nearby)) in
  if dist <? 0 then (if dist =? - 2 ^ 31 then UB else Ret (- dist)) else Ret dist.

(** [for(i=1; i<k; i++){ ... }] *)
Fixpoint closest_loop (n : nat) (i : Z) (aData : list Z) (nearby closest dist : Z) : res Z :=
  match n with
  | O => Ret closest
  | S n =>
      x ← get4byte aData (8 + i * 4);
      d2 ← distance x nearby;
      if d2 <? dist then closest_loop n (i + 1) aData nearby i d2
      else closest_loop n (i + 1) aData nearby closest dist
  end.

Definition find_closest (aData : list Z) (k nearby : Z) : res Z :=
  if 0 <? nearby then
    x ← get4byte aData 8; dist ← distance x nearby;
    closest_loop (Z.to_nat (k - 1)) 1 aData nearby 0 dist
  else Ret 0.

(** The trunk page that is asked for is taken out; its first leaf becomes a
    trunk. *)
Definition take_trunk (iTrunk k : Z) (pPrevTrunk : option Z) : BM Z :=
  write_page iTrunk;;
  pTrunk ← aData_of iTrunk;
  (if k =? 0 then
     match pPrevTrunk with
     | None => modify 1 (fun d => b ← bytes_at pTrunk 0 4; copy_to d 32 b)
     | Some prev => modify prev (fun d => b ← bytes_at pTrunk 0 4; copy_to d 0 b)
     end
   else
     iNewTrunk ← lift (get4byte pTrunk 8);
     pNewTrunk ← GetPage iNewTrunk false;
     PagerWrite iNewTrunk pNewTrunk;;
     modify iNewTrunk (fun d =>
       b ← bytes_at pTrunk 0 4; d ← copy_to d 0 b; d ← put4byte d 4 (k - 1);
       b ← bytes_at pTrunk 12 ((k - 1) * 4); copy_to d 8 b);;
     match pPrevTrunk with
     | None => modify 1 (fun d => put4byte d 32 iNewTrunk)
     | Some prev => write_page prev;; modify prev (fun d => put4byte d 0 iNewTrunk)
     end);;
  mret iTrunk.

(** The leaf number [closest] of a trunk is taken out. *)
Definition take_leaf (iTrunk k closest iPage : Z) : BM Z :=
  st ← ask;
  if sqlite3PagerPagecount pBt st <? iPage then throw SQLITE_CORRUPT else
  modify iTrunk (fun d =>
    d ← (if closest <? k - 1 then b ← bytes_at d (4 + k * 4) 4; copy_to d (8 + closest * 4) b else Ret d);
    put4byte d 4 (k - 1));;
  img ← GetPage iPage true;
  PagerWrite iPage img;;
  mret iPage.

(** [do{ ... }while( searchList )] *)
Fixpoint alloc_loop (fuel : nat) (searchList : bool) (nearby : Z) (pPrevTrunk : option Z) : BM Z :=
  match fuel with
  | O => fun _ => NoFuel
  | S fuel =>
      d ← aData_of (default 1 pPrevTrunk);
      iTrunk ← lift (get4byte d (match pPrevTrunk with Some _ => 0 | None => 32 end));
      pTrunk ← GetPage iTrunk false;
      k ← lift (s32 <$> get4byte pTrunk 4);
      if (k =? 0) && negb searchList then
        lift (c_assert (bool_decide (pPrevTrunk = None)));;
        PagerWrite iTrunk pTrunk;;
        modify 1 (fun d => b ← bytes_at pTrunk 0 4; copy_to d 32 b);;
        mret iTrunk
      else if usable / 4 - 8 <? k then throw SQLITE_CORRUPT
      else if searchList && (nearby =? iTrunk) then take_trunk iTrunk k pPrevTrunk
      else
        PagerWrite iTrunk pTrunk;;
        closest ← lift (find_closest pTrunk k nearby);
        iPage ← lift (get4byte pTrunk (8 + closest * 4));
        if negb searchList || (iPage =? nearby) then take_leaf iTrunk k closest iPage
        else alloc_loop fuel searchList nearby (Some iTrunk)
  end.

(** A page behind the end of the file. *)
Definition next_pgno (st : Store) : Z :=
  let pgno := sqlite3PagerPagecount pBt st + 1 in
  let pgno := if negb (nTrunc st =? 0) then
                (if nTrunc st + 1 =? PENDING_BYTE_PAGE pBt then nTrunc st + 2 else nTrunc st + 1)
              else pgno in
  if autoVacuum pBt && PTRMAP_ISPAGE pBt pgno then
    if pgno + 1 =? PENDING_BYTE_PAGE pBt then pgno + 2 else pgno + 1
  else pgno.

Definition set_nTrunc (n : Z) : BM unit := fun st => Ret (mkStore (pages st) (dbSize st) n, inr tt).

(** The number of the new page. *)
Definition allocateBtreePage (fuel : nat) (nearby : Z) (exact : bool) : BM Z :=
  page1 ← aData_of 1;
  n ← lift (s32 <$> get4byte page1 36);
  if 0 <? n then
    st ← ask;
    searchList ← (if exact && (nearby <=? sqlite3PagerPagecount pBt st) then
                    '(eType, _) ← ptrmapGet pBt rcGet stale nearby; mret (eType =? PTRMAP_FREEPAGE)
                  else mret false);
    write_page 1;;
    modify 1 (fun d => put4byte d 36 (n - 1));;
    alloc_loop fuel searchList nearby None
  else
    st ← ask;
    let pgno := next_pgno st in
    (if negb (nTrunc st =? 0) then set_nTrunc pgno else mret tt);;
    lift (c_assert (negb (pgno =? PENDING_BYTE_PAGE pBt)));;
    img ← GetPage pgno false;
    PagerWrite pgno img;;
    mret pgno.

(** Where the freed page goes. *)
Definition link_page (pgno n : Z) : BM unit :=
  if n =? 0 then
    write_page pgno;;
    modify pgno (fun d => copy_to d 0 (replicate 8 0));;
    modify 1 (fun d => put4byte d 32 pgno)
  else
    page1 ← aData_of 1;
    iTrunk ← lift (get4byte page1 32);
    pTrunk ← GetPage iTrunk false;
    k ← lift (s32 <$> get4byte pTrunk 4);
    if usable / 4 - 8 <=? k then
      write_page pgno;;
      modify pgno (fun d => d ← put4byte d 0 iTrunk; put4byte d 4 0);;
      modify 1 (fun d => put4byte d 32 pgno)
    else if k <? 0 then throw SQLITE_CORRUPT
    else
      PagerWrite iTrunk pTrunk;;
      modify iTrunk (fun d => d ← put4byte d 4 (k + 1); put4byte d (8 + k * 4) pgno).

Definition freePage (pgno : Z) : BM unit :=
  lift (c_assert (1 <? pgno));;
  write_page 1;;
  page1 ← aData_of 1;
  n ← lift (s32 <$> get4byte page1 36);
  modify 1 (fun d => put4byte d 36 (n + 1));;
  (if autoVacuum pBt then ptrmapPut pBt rcGet rcWrite stale pgno PTRMAP_FREEPAGE 0 else mret tt);;
  link_page pgno n.

(** ** Steps on the store *)

Lemma bm_bind {A B} (m : BM A) (f : A -> BM B) st st' a : m st = Ret (st', inr a) -> (m ≫= f) st = f a st'.
Proof. intros E. unfold mbind, BM_bind. by rewrite E. Qed.

Lemma bm_lift {A B} (m : res A) (f : A -> BM B) st a : m = Ret a -> (lift m ≫= f) st = f a st.
Proof. intros ->. done. Qed.

Context (no_fail : forall st pgno, rcGet st pgno = SQLITE_OK /\ rcWrite st pgno = SQLITE_OK).
Context (stale_ok : forall st pgno, bytes_ok (stale st pgno) /\ zlen (stale st pgno) = pageSize pBt).
Context (config : config_ok pBt).
Notation store_ok := (store_ok pBt).

(** The page [p] has the bytes [d] now, all else is as it was. *)
Definition upd (st st' : Store) (p : Z) (d : list Z) : Prop :=
  (forall q, image st' q = if q =? p then d else image st q) /\
  dbSize st' = dbSize st /\ nTrunc st' = nTrunc st /\ store_ok st'.

Definition same_store (st st' : Store) : Prop :=
  (forall q, image st' q = image st q) /\ dbSize st' = dbSize st /\ nTrunc st' = nTrunc st /\ store_ok st'.

Lemma upd_same st st' p : upd st st' p (image st p) -> same_store st st'.
Proof. intros (H & ?). split; [|done]. intros q. rewrite H. by destruct (Z.eqb_spec q p) as [->|]. Qed.

Lemma upd_same_trans st st1 st' p d : same_store st st1 -> upd st1 st' p d -> upd st st' p d.
Proof.
  intros (H1 & E1 & T1 & _) (H2 & E2 & T2 & ?). split; [|by rewrite E2, T2].
  intros q. by rewrite H2, H1.
Qed.

Lemma modify_ok st p f d : store_ok st -> f (image st p) = Ret d -> bytes_ok d -> zlen d = pageSize pBt ->
  exists st', modify p f st = Ret (st', inr tt) /\ upd st st' p d.
Proof.
  intros Hst E Hd L. eexists. unfold BtreeStore.modify. rewrite E. split; [done|]. split_and!; [|done..|by apply store_ok_set].
  intros q. apply image_set.
Qed.

Lemma PagerWrite_ok st p d : store_ok st -> p <= dbSize st -> bytes_ok d -> zlen d = pageSize pBt ->
  exists st', PagerWrite p d st = Ret (st', inr tt) /\ upd st st' p d.
Proof.
  intros Hst Hp Hd L. eexists. split; [apply (pagerWrite_ok pBt rcGet rcWrite no_fail)|].
  unfold grown. rewrite (proj2 (Z.ltb_ge _ p)) by done. split_and!; [|done..|by apply store_ok_set].
  intros q. by rewrite image_set.
Qed.

Lemma write_page_ok st p : store_ok st -> p <= dbSize st ->
  exists st', write_page p st = Ret (st', inr tt) /\ same_store st st'.
Proof.
  intros Hst Hp. destruct (image_ok pBt st p Hst config) as [Hb L].
  destruct (PagerWrite_ok st p (image st p)) as (st' & E & Hu); [done..|]. exists st'. split; [exact E|by eapply upd_same].
Qed.

Lemma GetPage_ok st p : pgno_ok pBt p -> GetPage p false st = Ret (st, inr (image st p)).
Proof. intros. by rewrite (getPage_ok pBt rcGet rcWrite stale no_fail). Qed.

(** ** The list *)

Definition free_pages (fl : list (Z * list Z)) : list Z := concat ((fun x => x.1 :: x.2) <$> fl).

Definition head_of (fl : list (Z * list Z)) : Z := match fl with [] => 0 | x :: _ => x.1 end.

(** The bytes [d] of a trunk with the leaves [ls] and the next trunk. *)
Definition trunk_ok (d : list Z) (next : Z) (ls : list Z) : Prop :=
  get4byte d 0 = Ret next /\ get4byte d 4 = Ret (zlen ls) /\ zlen ls <= usable / 4 - 8 /\
  forall i p, ls !! i = Some p -> get4byte d (8 + Z.of_nat i * 4) = Ret p.

Fixpoint trunks (st : Store) (fl : list (Z * list Z)) : Prop :=
  match fl with
  | [] => True
  | x :: fl => trunk_ok (image st x.1) (head_of fl) x.2 /\ trunks st fl
  end.

(** A page that may be used or free: not page 1, not the page of the pending
    byte, and no page of the pointer map where there is one. *)
Definition plain_page (p : Z) : Prop := pgno_ok pBt p /\ 1 < p /\ (autoVacuum pBt = true -> mapped_page pBt p).

Record free_ok (st : Store) (fl : list (Z * list Z)) : Prop := {
  f_count : get4byte (image st 1) 36 = Ret (zlen (free_pages fl));
  f_head : fl <> [] -> get4byte (image st 1) 32 = Ret (head_of fl);
  f_trunks : trunks st fl;
  f_nodup : NoDup (free_pages fl);
  f_pages : Forall (fun p => plain_page p /\ p <= dbSize st) (free_pages fl);
}.

Lemma free_pages_cons t ls fl : free_pages ((t, ls) :: fl) = t :: ls ++ free_pages fl.
Proof. done. Qed.

Lemma trunks_frame st st' fl : (forall p, p ∈ free_pages fl -> image st' p = image st p) -> trunks st fl -> trunks st' fl.
Proof.
  induction fl as [|[t ls] fl IH]; [done|]. intros H [Ht Hfl]. rewrite free_pages_cons in H. cbn in *. split.
  - rewrite H; [done|left].
  - apply IH; [|done]. intros p Hp. apply H. right. apply elem_of_app. by right.
Qed.

Lemma free_count st fl : free_ok st fl -> 0 <= zlen (free_pages fl) < 2 ^ 31.
Proof.
  intros [_ _ _ Hnd Hp].
  assert (free_pages fl ⊆+ seqZ 2 PAGER_MAX_PGNO) as Hs.
  { apply NoDup_submseteq; [done|]. intros p Hin. rewrite Forall_forall in Hp.
    destruct (Hp p Hin) as [([Hr _] & H1 & _) _]. apply elem_of_seqZ. lia. }
  apply submseteq_length in Hs. rewrite length_seqZ in Hs. unfold zlen, PAGER_MAX_PGNO in *. lia.
Qed.

(** ** The closest leaf *)

Lemma distance_ok a b : 0 <= a < 2 ^ 31 -> 0 <= b < 2 ^ 31 -> distance a b = Ret (Z.abs (a - b)).
Proof.
  intros Ha Hb. unfold distance. replace (s32 (u32 (a - b))) with (a - b) by (unfold s32, u32; Z.to_euclidean_division_equations; lia).
  destruct (Z.ltb_spec (a - b) 0); [|f_equal; lia]. rewrite (proj2 (Z.eqb_neq _ _)) by lia. f_equal. lia.
Qed.

(** The only number of which the distance overflows the int, in [-dist]. *)
Lemma distance_returns a b : is_u32 a -> 0 <= b < 2 ^ 31 -> a <> b + 2 ^ 31 -> exists d, distance a b = Ret d.
Proof.
  unfold is_u32. intros Ha Hb Hne. unfold distance. destruct (s32 (u32 (a - b)) <? 0); [|by eexists].
  rewrite (proj2 (Z.eqb_neq _ _)); [by eexists|]. unfold s32, u32. Z.to_euclidean_division_equations; lia.
Qed.

Lemma distance_overflows b : 0 <= b < 2 ^ 31 -> distance (b + 2 ^ 31) b = UB.
Proof. intros Hb. unfold distance. by replace (b + 2 ^ 31 - b) with (2 ^ 31) by lia. Qed.

(** The page [closest] is as near as any other of the first [i]. *)
Definition nearest (d : list Z) (nearby closest i : Z) : Prop := exists x, get4byte d (8 + closest * 4) = Ret x /\
  forall j y, 0 <= j < i -> get4byte d (8 + j * 4) = Ret y -> Z.abs (x - nearby) <= Z.abs (y - nearby).

Lemma closest_loop_ok n : forall i d nearby closest x, 0 <= closest < i -> 0 <= nearby < 2 ^ 31 ->
  (forall j, 0 <= j < i + Z.of_nat n -> exists x, get4byte d (8 + j * 4) = Ret x /\ 0 <= x < 2 ^ 31) ->
  get4byte d (8 + closest * 4) = Ret x -> nearest d nearby closest i ->
  exists c, closest_loop n i d nearby closest (Z.abs (x - nearby)) = Ret c /\ 0 <= c < i + Z.of_nat n /\
    nearest d nearby c (i + Z.of_nat n).
Proof.
  induction n as [|n IH]; intros i d nearby closest x Hc Hn Hd Hx (x' & Hx' & Hmin); cbn [closest_loop].
  { exists closest. split; [done|]. split; [lia|]. exists x'. split; [done|]. intros j y Hj. apply Hmin. lia. }
  rewrite Hx in Hx'. injection Hx' as <-. destruct (Hd i) as (y & Ey & Hy); [lia|]. rewrite Ey. crun.
  rewrite distance_ok by done. crun.
  destruct (Z.ltb_spec (Z.abs (y - nearby)) (Z.abs (x - nearby))).
  - destruct (IH (i + 1) d nearby i y) as (c & -> & Hr & Hm); [lia|done|intros j Hj; apply Hd; lia|done| |].
    { exists y. split; [done|]. intros j z Hj Ez. destruct (decide (j = i)) as [->|]; [rewrite Ey in Ez; injection Ez as <-; lia|].
      specialize (Hmin j z ltac:(lia) Ez). lia. }
    exists c. split; [done|]. replace (i + Z.of_nat (S n)) with (i + 1 + Z.of_nat n) by lia. split; [lia|done].
  - destruct (IH (i + 1) d nearby closest x) as (c & -> & Hr & Hm); [lia|done|intros j Hj; apply Hd; lia|done| |].
    { exists x. split; [done|]. intros j z Hj Ez. destruct (decide (j = i)) as [->|]; [rewrite Ey in Ez; injection Ez as <-; lia|].
      apply (Hmin j z); [lia|done]. }
    exists c. split; [done|]. replace (i + Z.of_nat (S n)) with (i + 1 + Z.of_nat n) by lia. split; [lia|done].
Qed.

(** Some leaf is chosen; it is the page [nearby] when that is a leaf. *)
Lemma find_closest_ok d next ls nearby : trunk_ok d next ls -> ls <> [] -> Forall (fun p => 0 <= p < 2 ^ 31) ls ->
  0 <= nearby < 2 ^ 31 ->
  exists c, find_closest d (zlen ls) nearby = Ret (Z.of_nat c) /\ (c < length ls)%nat /\
    (0 < nearby -> nearby ∈ ls -> ls !! c = Some nearby).
Proof.
  intros (_ & _ & _ & Hl) Hne Hp Hn. assert (0 < zlen ls) as Hpos by (destruct ls; [done|]; rewrite zlen_cons; pose proof (zlen_nonneg ls); lia).
  assert (forall j, 0 <= j < zlen ls -> exists x, get4byte d (8 + j * 4) = Ret x /\ 0 <= x < 2 ^ 31) as Hd.
  { intros j Hj. destruct (lookup_lt_is_Some_2 ls (Z.to_nat j)) as [x Hx]; [unfold zlen in *; lia|].
    exists x. rewrite <- (Hl _ _ Hx). split; [do 2 f_equal; lia|]. rewrite Forall_lookup in Hp. by apply (Hp _ _ Hx). }
  unfold find_closest. destruct (Z.ltb_spec 0 nearby); [|exists 0%nat; split; [done|split; [unfold zlen in *; lia|lia]]].
  destruct (Hd 0) as (x & Ex & Hx); [lia|]. pose proof Ex as Ex0. rewrite Z.mul_0_l, Z.add_0_r in Ex. rewrite Ex. crun.
  rewrite distance_ok by done. crun.
  destruct (closest_loop_ok (Z.to_nat (zlen ls - 1)) 1 d nearby 0 x) as (c & -> & Hc & y & Ey & Hm); [lia|done|intros j Hj; apply Hd; lia|done| |].
  { exists x. split; [done|]. intros j z Hj Ez. replace j with 0 in Ez by lia. rewrite Ex0 in Ez. injection Ez as <-. lia. }
  exists (Z.to_nat c). split; [f_equal; lia|]. split; [unfold zlen in *; lia|]. intros _ Hin.
  apply list_elem_of_lookup in Hin as [j Hj]. pose proof (lookup_lt_Some _ _ _ Hj).
  specialize (Hm (Z.of_nat j) nearby ltac:(unfold zlen in *; lia) (Hl _ _ Hj)).
  destruct (lookup_lt_is_Some_2 ls (Z.to_nat c)) as [z Hz]; [unfold zlen in *; lia|]. rewrite Hz. f_equal.
  specialize (Hl _ _ Hz). rewrite Z2Nat.id, Ey in Hl by lia. injection Hl as <-. lia.
Qed.

(** ** Trunks *)

Lemma trunk_fits (ls : list Z) : zlen ls <= usable / 4 - 8 -> 8 + zlen ls * 4 <= pageSize pBt - 24.
Proof. pose proof config as [Hu _]. intros H. Z.to_euclidean_division_equations; lia. Qed.

Lemma trunk_new d next : bytes_ok d -> zlen d = pageSize pBt -> is_u32 next ->
  exists d1 d2, put4byte d 0 next = Ret d1 /\ put4byte d1 4 0 = Ret d2 /\ bytes_ok d2 /\ zlen d2 = pageSize pBt /\
    trunk_ok d2 next [].
Proof.
  intros Hd L Hn. pose proof config as [Hu _].
  destruct (put4byte_ok d 0 next) as (d1 & E1 & G1 & B1 & [L1 O1]); [done|lia|lia|done|].
  destruct (put4byte_ok d1 4 0) as (d2 & E2 & G2 & B2 & O2); [done|lia|lia|unfold is_u32; lia|]. pose proof O2 as [L2 _].
  exists d1, d2. split_and!; [done..|congruence|]. split_and!; [|done| |by intros i p H; destruct i].
  - by rewrite (get4byte_frame _ _ _ _ _ O2) by lia.
  - change (zlen (@nil Z)) with 0. Z.to_euclidean_division_equations; lia.
Qed.

Lemma trunk_append d next ls p : bytes_ok d -> zlen d = pageSize pBt -> trunk_ok d next ls ->
  zlen ls < usable / 4 - 8 -> is_u32 p ->
  exists d1 d2, put4byte d 4 (zlen ls + 1) = Ret d1 /\ put4byte d1 (8 + zlen ls * 4) p = Ret d2 /\
    bytes_ok d2 /\ zlen d2 = pageSize pBt /\ trunk_ok d2 next (ls ++ [p]).
Proof.
  intros Hd L (G0 & G4 & Hk & Hl) Hlt Hp. pose proof (trunk_fits ls Hk). pose proof (zlen_nonneg ls). pose proof config as [Hu Hps].
  destruct (put4byte_ok d 4 (zlen ls + 1)) as (d1 & E1 & G1 & B1 & O1); [done|lia|lia|unfold is_u32; lia|]. pose proof O1 as [L1 _].
  destruct (put4byte_ok d1 (8 + zlen ls * 4) p) as (d2 & E2 & G2 & B2 & O2); [done|lia|lia|done|]. pose proof O2 as [L2 _].
  exists d1, d2. split_and!; [done..|congruence|]. split_and!.
  - by rewrite (get4byte_frame _ _ _ _ _ O2), (get4byte_frame _ _ _ _ _ O1) by lia.
  - rewrite (get4byte_frame _ _ _ _ _ O2) by lia. by rewrite zlen_app.
  - rewrite zlen_app. change (zlen [p]) with 1. lia.
  - intros i q Hq. apply lookup_app_Some in Hq as [Hq|[Hge Hq]].
    + pose proof (lookup_lt_Some _ _ _ Hq). rewrite (get4byte_frame _ _ _ _ _ O2), (get4byte_frame _ _ _ _ _ O1) by (unfold zlen; lia).
      by apply Hl.
    + destruct (i - length ls)%nat as [|m] eqn:E; [|by destruct m]. injection Hq as <-.
      replace (8 + Z.of_nat i * 4) with (8 + zlen ls * 4) by (unfold zlen; lia). done.
Qed.

(** The leaf [p] is taken out; the last one takes its place. *)
Lemma trunk_remove d next ls c p : bytes_ok d -> zlen d = pageSize pBt -> trunk_ok d next ls -> ls !! c = Some p ->
  Forall is_u32 ls ->
  exists d' ls', (d ← (if Z.of_nat c <? zlen ls - 1 then b ← bytes_at d (4 + zlen ls * 4) 4; copy_to d (8 + Z.of_nat c * 4) b else Ret d);
      put4byte d 4 (zlen ls - 1)) = Ret d' /\
    bytes_ok d' /\ zlen d' = pageSize pBt /\ trunk_ok d' next ls' /\ ls ≡ₚ p :: ls'.
Proof.
  intros Hd L (G0 & G4 & Hk & Hl) Hc Hu32. pose proof (trunk_fits ls Hk). pose proof config as [Hu Hps].
  pose proof (lookup_lt_Some _ _ _ Hc) as Hlt. pose proof (take_drop_middle _ _ _ Hc) as Els.
  set (l1 := take c ls) in *. set (l2 := drop (S c) ls) in *. assert (length l1 = c) as Hl1 by (unfold l1; rewrite length_take; lia).
  assert (zlen ls = Z.of_nat (length ls)) as Ez by done.
  assert (length ls = c + S (length l2))%nat as El by (rewrite <- Els, length_app; cbn; lia). clearbody l1 l2.
  destruct (Z.ltb_spec (Z.of_nat c) (zlen ls - 1)) as [Hlast|Hlast].
  - destruct l2 as [|y m _] using rev_ind; [cbn in El; lia|]. rewrite length_app in El. cbn in El.
    assert (ls !! (length ls - 1)%nat = Some y) as Hy.
    { replace (length ls - 1)%nat with (c + S (length m))%nat by lia. rewrite <- Els, <- Hl1, lookup_app_r by lia.
      replace (length l1 + S (length m) - length l1)%nat with (S (length m)) by lia.
      change ((m ++ [y]) !! length m = Some y). by apply list_lookup_middle. }
    destruct (bytes_at_ok d (4 + zlen ls * 4) 4) as (b & -> & Lb & Hb); [lia..|]. crun.
    destruct (copy_to_ok b d (8 + Z.of_nat c * 4)) as (d1 & -> & Hb1 & B1 & O1); [done|by eapply holds_bytes_ok|lia|lia|]. crun.
    rewrite Lb in O1. pose proof O1 as [L1 O1'].
    destruct (put4byte_ok d1 4 (zlen ls - 1)) as (d2 & -> & G2 & B2 & O2); [done|lia|lia|unfold is_u32; lia|]. pose proof O2 as [L2 O2'].
    exists d2, (l1 ++ y :: m). split_and!; [done|done|congruence| |].
    + assert (zlen (l1 ++ y :: m) = zlen ls - 1) as Ez' by (unfold zlen; rewrite !length_app; cbn; lia).
      split_and!; [by rewrite (get4byte_frame _ _ _ _ _ O2), (get4byte_frame _ _ _ _ _ O1) by lia|by rewrite Ez'|lia|].
      intros i q Hq. rewrite (get4byte_frame _ _ _ _ _ O2) by lia. destruct (decide (i = c)) as [->|Hne].
      * rewrite lookup_app_r, Hl1, Nat.sub_diag in Hq by lia. injection Hq as <-. rewrite <- (Hl _ _ Hy).
        apply (holds_get4byte_same _ _ _ _ b); [done| |done].
        by replace (8 + Z.of_nat (length ls - 1) * 4) with (4 + zlen ls * 4) by lia.
      * rewrite (get4byte_frame _ _ _ _ _ O1) by lia. apply Hl. rewrite <- Els.
        apply lookup_app_Some in Hq as [Hq|[Hge Hq]]; [by apply lookup_app_l_Some|].
        rewrite lookup_app_r by done. rewrite Hl1 in *. destruct (i - c)%nat as [|j] eqn:Ej; [lia|]. cbn in Hq |- *.
        by apply lookup_app_l_Some.
    + rewrite <- Els at 1. rewrite <- (Permutation_middle l1 (m ++ [y]) p). apply perm_skip, Permutation_app_head.
      symmetry. apply Permutation_cons_append.
  - destruct l2 as [|y m]; [|cbn in El; lia]. crun.
    destruct (put4byte_ok d 4 (zlen ls - 1)) as (d2 & -> & G2 & B2 & O2); [done|lia|lia|unfold is_u32; lia|]. pose proof O2 as [L2 O2'].
    exists d2, l1. assert (zlen l1 = zlen ls - 1) as Ez' by (unfold zlen; lia). split_and!; [done|done|congruence| |].
    + split_and!; [by rewrite (get4byte_frame _ _ _ _ _ O2) by lia|by rewrite Ez'|lia|].
      intros i q Hq. rewrite (get4byte_frame _ _ _ _ _ O2) by lia. apply Hl. rewrite <- Els. by apply lookup_app_l_Some.
    + rewrite <- Els at 1. by rewrite <- Permutation_middle, app_nil_r.
Qed.


(** ** Freeing a page *)

(** Of the pages [C] only [F] differ, and in page 1 the list of free pages. *)
Definition keeps (C : Z -> Prop) (st st' : Store) (F : list Z) : Prop :=
  (forall q, C q -> q ∉ F -> image st' q = image st q) /\
  same_outside (image st 1) (image st' 1) 32 40 /\ store_ok st' /\ nTrunc st' = nTrunc st.

(** No page of the pointer map can hold data. *)
Lemma map_not_plain key : autoVacuum pBt = true -> mapped_page pBt key ->
  ptrmapPageno pBt key <> 1 /\ ~ plain_page (ptrmapPageno pBt key).
Proof.
  intros Ha Hm. destruct (ptrmap_slot pBt key config Hm) as (_ & Hlt & _). split; [lia|].
  intros (_ & _ & Hp). destruct (Hp Ha) as (_ & _ & Hself). by rewrite (map_page_self pBt key config Hm) in Hself.
Qed.

Lemma entry_ext st st' key t q : image st' (ptrmapPageno pBt key) = image st (ptrmapPageno pBt key) ->
  entry_at pBt st key t q -> entry_at pBt st' key t q.
Proof. unfold entry_at. by intros ->. Qed.

(** The entries of the other pages are as they were. *)
Definition entries_but (p : Z) (st st' : Store) : Prop := forall key t q,
  key <> p -> mapped_page pBt key -> entry_at pBt st key t q -> entry_at pBt st' key t q.

(** The page is marked as free in the pointer map. *)
Definition marked (p : Z) (st st' : Store) : Prop := autoVacuum pBt = true ->
  entry_at pBt st' p PTRMAP_FREEPAGE 0 /\ entries_but p st st'.

Lemma free_mark_ok st p : store_ok st -> plain_page p -> p <= dbSize st ->
  exists st', (if autoVacuum pBt then ptrmapPut pBt rcGet rcWrite stale p PTRMAP_FREEPAGE 0 else mret tt) st = Ret (st', inr tt) /\
    (forall q, plain_page q \/ q = 1 -> image st' q = image st q) /\ dbSize st' = dbSize st /\ nTrunc st' = nTrunc st /\
    store_ok st' /\ marked p st st'.
Proof.
  intros Hst (Hpg & H1 & Hm) Hle. unfold marked. destruct (autoVacuum pBt) eqn:Ea; [|by exists st].
  specialize (Hm eq_refl). destruct (ptrmap_slot pBt p config Hm) as (_ & Hlt & _).
  destruct (ptrmapPut_ok pBt rcGet rcWrite stale no_fail st p PTRMAP_FREEPAGE 0 config Hst Hm)
    as (st' & E & Hst' & Hent & Hoth & Hi & Hsz & Ht); [unfold is_byte, PTRMAP_FREEPAGE; lia|unfold is_u32; lia|].
  exists st'. split_and!; [done| |apply Hsz; lia|done|done|intros _; split; [done|intros ???; by apply Hoth]].
  intros q Hq. apply Hi. intros ->. destruct (map_not_plain p Ea Hm). by destruct Hq.
Qed.

Lemma put_page1_ok st a v : store_ok st -> 0 <= a <= 100 -> is_u32 v ->
  exists st' d, modify 1 (fun d => put4byte d a v) st = Ret (st', inr tt) /\ upd st st' 1 d /\
    get4byte d a = Ret v /\ same_outside (image st 1) d a (a + 4).
Proof.
  intros Hst Ha Hv. destruct (image_ok pBt st 1 Hst config) as [Hb L]. pose proof config as [Hu _].
  destruct (put4byte_ok (image st 1) a v) as (d & E & G & B & O); [done|lia|lia|done|].
  destruct (modify_ok st 1 (fun d => put4byte d a v) d) as (st' & E' & Hupd); [done..|destruct O; lia|].
  by exists st', d.
Qed.

Lemma plain_ne_1 p : plain_page p -> p <> 1.
Proof. intros (_ & ? & _). lia. Qed.

Lemma plain_u32 p : plain_page p -> is_u32 p.
Proof. intros ([Hp _] & _). unfold is_u32, PAGER_MAX_PGNO in *. lia. Qed.

Lemma upd_other st st' p d q : upd st st' p d -> q <> p -> image st' q = image st q.
Proof. intros [H _] Hne. rewrite H. by rewrite (proj2 (Z.eqb_neq q p)) by done. Qed.

Lemma upd_self st st' p d : upd st st' p d -> image st' p = d.
Proof. intros [H _]. by rewrite H, Z.eqb_refl. Qed.

(** A new trunk without leaves in front of the list. *)
Lemma new_trunk_ok st p fl d : store_ok st -> plain_page p -> p <= dbSize st -> trunks st fl -> p ∉ free_pages fl ->
  Forall plain_page (free_pages fl) ->
  bytes_ok d -> zlen d = pageSize pBt -> trunk_ok d (head_of fl) [] ->
  forall f, f (image st p) = Ret d ->
  exists st', (write_page p;; modify p f;; modify 1 (fun d => put4byte d 32 p)) st = Ret (st', inr tt) /\
    trunks st' ((p, []) :: fl) /\ get4byte (image st' 1) 32 = Ret p /\ same_outside (image st 1) (image st' 1) 32 36 /\
    (forall q, q <> 1 -> q <> p -> image st' q = image st q) /\ dbSize st' = dbSize st /\ nTrunc st' = nTrunc st /\ store_ok st'.
Proof.
  intros Hst Hp Hle Htr Hnin Hpl Bd Ld Htd f Ef. pose proof (plain_ne_1 _ Hp) as Hp1.
  destruct (write_page_ok st p Hst Hle) as (st1 & E1 & H1 & S1 & T1 & K1).
  rewrite <- H1 in Ef. destruct (modify_ok st1 p f d K1 Ef Bd Ld) as (st2 & E2 & U2).
  pose proof U2 as (_ & S2 & T2 & K2).
  destruct (put_page1_ok st2 32 p K2 ltac:(lia) (plain_u32 _ Hp)) as (st3 & d3 & E3 & U3 & G3 & O3).
  exists st3. rewrite (bm_bind _ _ _ _ _ E1), (bm_bind _ _ _ _ _ E2). split; [exact E3|].
  assert (forall q, q <> 1 -> q <> p -> image st3 q = image st q) as Hother.
  { intros q Hq1 Hqp. by rewrite (upd_other _ _ _ _ _ U3), (upd_other _ _ _ _ _ U2), H1 by done. }
  pose proof U3 as (_ & S3 & T3 & K3). split_and!; [| | | |congruence|congruence|done].
  - split; [cbn; by rewrite (upd_other _ _ _ _ _ U3), (upd_self _ _ _ _ U2) by done|].
    apply (trunks_frame st); [|done]. intros q Hq. rewrite Forall_forall in Hpl.
    apply Hother; [by apply plain_ne_1, Hpl|by intros ->].
  - by rewrite (upd_self _ _ _ _ U3).
  - by rewrite (upd_self _ _ _ _ U3), <- (H1 1), <- (upd_other _ _ _ _ 1 U2) by done.
  - done.
Qed.


Lemma free_pages_nil fl : zlen (free_pages fl) = 0 <-> fl = [].
Proof.
  split; [|by intros ->]. destruct fl as [|[t ls] fl]; [done|]. rewrite free_pages_cons, zlen_cons.
  pose proof (zlen_nonneg (ls ++ free_pages fl)). lia.
Qed.

Lemma trunk_leaves d next ls : trunk_ok d next ls -> zlen ls <= 8192 - 8.
Proof. intros (_ & _ & H & _). pose proof config as [Hu Hp]. Z.to_euclidean_division_equations; lia. Qed.

Lemma link_page_ok st p fl : store_ok st -> plain_page p -> p <= dbSize st -> trunks st fl -> NoDup (free_pages fl) -> p ∉ free_pages fl ->
  (fl <> [] -> get4byte (image st 1) 32 = Ret (head_of fl)) ->
  Forall (fun q => plain_page q /\ q <= dbSize st) (free_pages fl) ->
  exists st' fl', link_page p (zlen (free_pages fl)) st = Ret (st', inr tt) /\
    trunks st' fl' /\ fl' <> [] /\ get4byte (image st' 1) 32 = Ret (head_of fl') /\
    free_pages fl' ≡ₚ p :: free_pages fl /\ same_outside (image st 1) (image st' 1) 32 36 /\
    (forall q, q <> 1 -> q ∉ p :: free_pages fl -> image st' q = image st q) /\
    dbSize st' = dbSize st /\ nTrunc st' = nTrunc st /\ store_ok st'.
Proof.
  intros Hst Hp Hle Htr Hnd Hnin Hhead Hpl. assert (Forall plain_page (free_pages fl)) as Hpl' by (eapply Forall_impl; [exact Hpl|]; by intros ? []).
  destruct (image_ok pBt st p Hst config) as [Hb L]. pose proof config as [Hu Hps]. unfold link_page.
  destruct fl as [|[t ls] fl].
  - change (zlen (free_pages []) =? 0) with true. cbv iota.
    destruct (copy_to_ok (replicate 8 0) (image st p) 0) as (d & Ed & Hz & Bd & Od);
      [done|apply Forall_replicate; unfold is_byte; lia|lia|change (zlen (replicate 8 0)) with 8; lia|].
    destruct (new_trunk_ok st p [] d) with (f := fun d : list Z => copy_to d 0 (replicate 8 0))
      as (st' & E & Ht & Hh & Ho & Hq & HS & HT & HK); try done; [destruct Od; lia| |].
    { assert (holds d 0 (sqlite3Put4byte 0) /\ holds d 4 (sqlite3Put4byte 0)) as [H0 H4].
      { destruct Hz as (_ & Hl & Hz). change (zlen (replicate 8 0)) with 8 in *.
        split; (split_and!; [lia|change (zlen (sqlite3Put4byte 0)) with 4; lia|]); intros i Hi;
          change (zlen (sqlite3Put4byte 0)) with 4 in Hi.
        - rewrite Hz by lia. assert (i = 0 \/ i = 1 \/ i = 2 \/ i = 3) as [->|[->|[->| ->]]] by lia; done.
        - replace (4 + i) with (0 + (4 + i)) by lia. rewrite Hz by lia.
          assert (i = 0 \/ i = 1 \/ i = 2 \/ i = 3) as [->|[->|[->| ->]]] by lia; done. }
      split_and!; [by apply holds_get4byte; [split; done|]..|change (zlen (@nil Z)) with 0; Z.to_euclidean_division_equations; lia|].
      intros i x Hx. by destruct i. }
    exists st', [(p, [])]. split_and!; try done.
    intros q Hq1 Hqin. apply Hq; [done|]. intros ->. apply Hqin. left.
  - rewrite free_pages_cons in *. set (n := zlen (t :: ls ++ free_pages fl)).
    assert (n =? 0 = false) as -> by (unfold n; rewrite zlen_cons; pose proof (zlen_nonneg (ls ++ free_pages fl)); lia).
    destruct Htr as [Htk Htr]. cbn [fst snd] in Htk. pose proof Htk as (G0 & G4 & Hk & Hls). pose proof (trunk_leaves _ _ _ Htk) as Hk'.
    apply Forall_cons in Hpl as [[Hpt Hlet] Hpl]. pose proof (zlen_nonneg ls).
    rewrite (bm_bind _ _ st st (image st 1)) by done. rewrite (bm_lift _ _ _ _ (Hhead ltac:(done))). cbn [head_of fst].
    rewrite (bm_bind _ _ _ _ _ (GetPage_ok st t (proj1 Hpt))).
    rewrite (bm_lift _ _ _ (zlen ls)) by (rewrite G4; cbn; by rewrite s32_id by lia).
    destruct (Z.leb_spec (usable / 4 - 8) (zlen ls)) as [Hfull|Hroom].
    + destruct (trunk_new (image st p) t) as (d1 & d2 & E1 & E2 & B2 & L2 & Ht2); [done|done|by apply plain_u32|].
      destruct (new_trunk_ok st p ((t, ls) :: fl) d2) with (f := fun d => d ← put4byte d 0 t; put4byte d 4 0)
        as (st' & E & Ht & Hh & Ho & Hq & HS & HT & HK); try done; [by rewrite E1; cbn|].
      exists st', ((p, []) :: (t, ls) :: fl). split_and!; try done.
      intros q Hq1 Hqin. apply Hq; [done|]. intros ->. apply Hqin. left.
    + rewrite (proj2 (Z.ltb_ge (zlen ls) 0)) by lia. destruct (image_ok pBt st t Hst config) as [Hbt Lt].
      destruct (PagerWrite_ok st t (image st t)) as (st1 & E1 & U1); [done..|]. apply upd_same in U1 as (H1 & S1 & T1 & K1).
      destruct (trunk_append (image st t) (head_of fl) ls p) as (d1 & d2 & Ea & Eb & B2 & L2 & Ht2); [done..|by apply plain_u32|].
      destruct (modify_ok st1 t (fun d => d ← put4byte d 4 (zlen ls + 1); put4byte d (8 + zlen ls * 4) p) d2)
        as (st2 & E2 & U2); [done|by rewrite H1, Ea; cbn|done|done|].
      rewrite (bm_bind _ _ _ _ _ E1). exists st2, ((t, ls ++ [p]) :: fl). pose proof U2 as (_ & S2 & T2 & K2).
      assert (forall q, q <> t -> image st2 q = image st q) as Hq by (intros q Hq; by rewrite (upd_other _ _ _ _ _ U2), H1).
      pose proof (plain_ne_1 _ Hpt).
      split_and!; [exact E2| |done| | | | |congruence|congruence|done].
      * split; [cbn; by rewrite (upd_self _ _ _ _ U2)|]. apply (trunks_frame st); [|done]. intros q Hin. apply Hq.
        intros ->. apply NoDup_cons in Hnd as [Hnt _]. apply Hnt, elem_of_app. by right.
      * cbn. rewrite Hq by done. by apply Hhead.
      * rewrite free_pages_cons, <- app_assoc. cbn [app]. rewrite <- Permutation_middle. apply perm_swap.
      * by rewrite Hq by done.
      * intros q Hq1 Hqin. apply Hq. intros ->. apply Hqin. right. left.
Qed.


Lemma freePage_ok st fl p : store_ok st -> 1 <= dbSize st -> free_ok st fl -> plain_page p -> p <= dbSize st ->
  p ∉ free_pages fl ->
  exists st' fl', freePage p st = Ret (st', inr tt) /\ free_ok st' fl' /\ free_pages fl' ≡ₚ p :: free_pages fl /\
    keeps plain_page st st' (p :: free_pages fl) /\ dbSize st' = dbSize st /\ marked p st st'.
Proof.
  intros Hst Hsz Hfl Hp Hle Hnin. pose proof (free_count st fl Hfl) as Hn. destruct Hfl as [Hcnt Hhead Htr Hnd Hpl].
  unfold freePage.
  rewrite (bm_lift _ _ st tt) by (rewrite (proj2 (Z.ltb_lt 1 p)) by apply Hp; done).
  destruct (write_page_ok st 1 Hst Hsz) as (st1 & E1 & H1 & S1 & T1 & K1). rewrite (bm_bind _ _ _ _ _ E1).
  rewrite (bm_bind _ _ st1 st1 (image st1 1)) by done. rewrite (bm_lift _ _ _ (zlen (free_pages fl))) by (rewrite H1, Hcnt; cbn; by rewrite s32_id by lia).
  destruct (put_page1_ok st1 36 (zlen (free_pages fl) + 1) K1) as (st2 & d2 & E2 & U2 & G2 & O2); [lia|unfold is_u32; lia|].
  rewrite (bm_bind _ _ _ _ _ E2). pose proof U2 as (_ & S2 & T2 & K2). rewrite H1 in O2.
  destruct (free_mark_ok st2 p K2 Hp) as (st3 & E3 & H3 & S3 & T3 & K3 & M3); [lia|]. rewrite (bm_bind _ _ _ _ _ E3).
  assert (image st3 1 = d2) as I1 by (rewrite H3 by auto; by apply (upd_self _ _ _ _ U2)).
  assert (forall q, plain_page q -> image st3 q = image st q) as Iq.
  { intros q Hq. rewrite H3, (upd_other _ _ _ _ _ U2), H1 by (auto; by apply plain_ne_1). done. }
  assert (forall q, q ∈ free_pages fl -> plain_page q) as Hpq by (intros q Hq; rewrite Forall_forall in Hpl; by apply Hpl).
  destruct (link_page_ok st3 p fl K3 Hp) as (st' & fl' & E' & Htr' & Hne & Hh' & Hperm & O' & I' & S' & T' & K');
    [lia| |done|done| | |].
  { apply (trunks_frame st); [|done]. intros q Hq. by apply Iq, Hpq. }
  { intros Hne. rewrite I1, (get4byte_frame _ _ _ _ _ O2) by lia. by apply Hhead. }
  { eapply Forall_impl; [exact Hpl|]. intros q [? ?]. split; [done|lia]. }
  exists st', fl'. assert (dbSize st' = dbSize st) as HS by lia. split_and!; [exact E'| |done| |done|].
  - constructor; try done.
    + rewrite (get4byte_frame _ _ _ _ _ O') by lia. rewrite I1, G2. do 2 f_equal. unfold zlen. rewrite Hperm. cbn. lia.
    + rewrite Hperm. by constructor.
    + rewrite Hperm, HS. by constructor.
  - split_and!; [| |done|congruence].
    + intros q Hq Hqin. rewrite I', Iq by (done || by apply plain_ne_1). done.
    + rewrite I1 in O'. eapply same_outside_trans; [eapply same_outside_mono; [exact O2|lia..]|].
      eapply same_outside_mono; [exact O'|lia..].
  - intros Ha. destruct (M3 Ha) as [Hent Hoth].
    assert (forall key, mapped_page pBt key -> image st' (ptrmapPageno pBt key) = image st3 (ptrmapPageno pBt key)) as Im.
    { intros key Hk. destruct (map_not_plain key Ha Hk) as [Hk1 Hk2]. apply I'; [done|].
      intros [Ex|?]%elem_of_cons; [by apply Hk2; rewrite Ex|]. by apply Hk2, Hpq. }
    split; [apply (entry_ext st3); [by apply Im, Hp|done]|].
    intros key t q Hkp Hk Hent'. apply (entry_ext st3); [by apply Im|]. apply Hoth; [done..|].
    destruct (map_not_plain key Ha Hk) as [Hk1 Hk2]. apply (entry_ext st); [|done]. by rewrite (upd_other _ _ _ _ _ U2), H1.
Qed.

(** ** Allocating a page *)

Lemma pagecount_eq st : dbSize st <> PENDING_BYTE / pageSize pBt -> sqlite3PagerPagecount pBt st = dbSize st.
Proof. intros H. unfold sqlite3PagerPagecount. by rewrite (proj2 (Z.eqb_neq _ _) H). Qed.

Lemma take_leaf_ok st t next ls c p : store_ok st -> dbSize st <> PENDING_BYTE / pageSize pBt ->
  trunk_ok (image st t) next ls -> ls !! c = Some p -> plain_page p -> p <= dbSize st -> p <> t -> Forall plain_page ls ->
  exists st' ls', take_leaf t (zlen ls) (Z.of_nat c) p st = Ret (st', inr p) /\ trunk_ok (image st' t) next ls' /\
    ls ≡ₚ p :: ls' /\ (forall q, q <> t -> q <> p -> image st' q = image st q) /\
    dbSize st' = dbSize st /\ nTrunc st' = nTrunc st /\ store_ok st'.
Proof.
  intros Hst Hpc Htk Hc Hp Hle Hpt Hls. destruct (image_ok pBt st t Hst config) as [Hb L].
  assert (Forall is_u32 ls) as Hu by (eapply Forall_impl; [exact Hls|]; apply plain_u32).
  destruct (trunk_remove (image st t) next ls c p Hb L Htk Hc Hu) as (d' & ls' & Ed & Bd & Ld & Htk' & Hperm).
  destruct (modify_ok st t (fun d =>
    d ← (if Z.of_nat c <? zlen ls - 1 then b ← bytes_at d (4 + zlen ls * 4) 4; copy_to d (8 + Z.of_nat c * 4) b else Ret d);
    put4byte d 4 (zlen ls - 1)) d' Hst Ed Bd Ld) as (st1 & E1 & U1). pose proof U1 as (_ & S1 & T1 & K1).
  destruct (stale_ok st1 p) as [Bs Ls].
  destruct (PagerWrite_ok st1 p (stale st1 p) K1) as (st2 & E2 & U2); [lia|done..|]. pose proof U2 as (_ & S2 & T2 & K2).
  exists st2, ls'. unfold take_leaf. rewrite (bm_bind _ _ st st st) by done. rewrite pagecount_eq by done.
  rewrite (proj2 (Z.ltb_ge _ p)) by done. rewrite (bm_bind _ _ _ _ _ E1).
  rewrite (bm_bind _ _ st1 st1 (stale st1 p)) by (exact (getPage_ok pBt rcGet rcWrite stale no_fail st1 p true (proj1 Hp))).
  rewrite (bm_bind _ _ _ _ _ E2). split_and!; [done| |done| |congruence|congruence|done].
  - by rewrite (upd_other _ _ _ _ _ U2), (upd_self _ _ _ _ U1) by done.
  - intros q Hq1 Hq2. by rewrite (upd_other _ _ _ _ _ U2), (upd_other _ _ _ _ _ U1).
Qed.

(** A page of the list is handed out. *)
Lemma alloc_free_ok st fl nearby fuel : store_ok st -> 1 <= dbSize st -> dbSize st <= PAGER_MAX_PGNO -> free_ok st fl -> fl <> [] ->
  dbSize st <> PENDING_BYTE / pageSize pBt -> 0 <= nearby < 2 ^ 31 ->
  exists st' fl' p, allocateBtreePage (S fuel) nearby false st = Ret (st', inr p) /\ free_ok st' fl' /\
    free_pages fl ≡ₚ p :: free_pages fl' /\ keeps (fun q => q <> 1) st st' (free_pages fl) /\ dbSize st' = dbSize st.
Proof.
  intros Hst Hsz Hmax Hfl Hne Hpc Hnear. pose proof (free_count st fl Hfl) as Hn. destruct Hfl as [Hcnt Hhead Htr Hnd Hpl].
  assert (0 < zlen (free_pages fl)) as Hpos by (destruct (decide (zlen (free_pages fl) = 0)) as [E|]; [by apply free_pages_nil in E|lia]).
  unfold allocateBtreePage. rewrite (bm_bind _ _ st st (image st 1)) by done.
  rewrite (bm_lift _ _ _ (zlen (free_pages fl))) by (rewrite Hcnt; cbn; by rewrite s32_id by lia).
  rewrite (proj2 (Z.ltb_lt 0 _)) by done. rewrite (bm_bind _ _ st st st) by done. cbn [andb].
  rewrite (bm_bind _ _ st st false) by done.
  destruct (write_page_ok st 1 Hst Hsz) as (st1 & E1 & H1 & S1 & T1 & K1). rewrite (bm_bind _ _ _ _ _ E1).
  destruct (put_page1_ok st1 36 (zlen (free_pages fl) - 1) K1) as (st2 & d2 & E2 & U2 & G2 & O2); [lia|unfold is_u32; lia|].
  rewrite (bm_bind _ _ _ _ _ E2). pose proof U2 as (_ & S2 & T2 & K2). rewrite H1 in O2.
  assert (image st2 1 = d2) as I1 by (by apply (upd_self _ _ _ _ U2)).
  assert (forall q, q <> 1 -> image st2 q = image st q) as Iq by (intros q Hq; by rewrite (upd_other _ _ _ _ _ U2), H1).
  destruct fl as [|[t ls] fl]; [done|]. clear Hne. specialize (Hhead ltac:(done)). cbn [head_of fst] in Hhead.
  rewrite free_pages_cons in *. apply Forall_cons in Hpl as [[Hpt Hlet] Hpl]. pose proof (plain_ne_1 _ Hpt) as Ht1.
  destruct Htr as [Htk Htr]. cbn [fst snd] in Htk. pose proof Htk as (G0 & G4 & Hk & Hls). pose proof (trunk_leaves _ _ _ Htk) as Hk'.
  cbn [alloc_loop default]. rewrite (bm_bind _ _ st2 st2 (image st2 1)) by done.
  rewrite (bm_lift _ _ _ t) by (by rewrite I1, (get4byte_frame _ _ _ _ _ O2) by lia).
  rewrite (bm_bind _ _ _ _ _ (GetPage_ok st2 t (proj1 Hpt))). rewrite Iq by done. pose proof (zlen_nonneg ls).
  rewrite (bm_lift _ _ _ (zlen ls)) by (rewrite G4; cbn; by rewrite s32_id by lia).
  destruct (decide (ls = [])) as [->|Hne].
  - change ((zlen [] =? 0) && negb false) with true. cbv iota. rewrite (bm_lift _ _ _ tt) by done.
    destruct (image_ok pBt st t Hst config) as [Hbt Lt].
    destruct (PagerWrite_ok st2 t (image st t) K2) as (st3 & E3 & U3); [lia|done..|]. rewrite (bm_bind _ _ _ _ _ E3).
    rewrite <- (Iq t) in U3 by done. apply upd_same in U3 as (H3 & S3 & T3 & K3).
    destruct (image_ok pBt st2 1 K2 config) as [Hb2 L2]. pose proof config as [Hu _].
    destruct (bytes_at_ok (image st t) 0 4) as (b & Eb & Lb & Hb); [lia..|].
    destruct (copy_to_ok b (image st2 1) 32) as (d4 & Ed & Hb4 & B4 & O4); [done|exact (holds_bytes_ok _ _ _ Hbt Hb)|lia|lia|]. rewrite Lb in O4.
    destruct (modify_ok st3 1 (fun d => b ← bytes_at (image st t) 0 4; copy_to d 32 b) d4) as (st4 & E4 & U4);
      [done|by rewrite Eb, H3; cbn|done|destruct O4; lia|]. rewrite (bm_bind _ _ _ _ _ E4).
    pose proof U4 as (_ & S4 & T4 & K4). rewrite I1 in O4.
    assert (image st4 1 = d4) as I4 by (by apply (upd_self _ _ _ _ U4)).
    assert (forall q, q <> 1 -> image st4 q = image st q) as Iq4
      by (intros q Hq; by rewrite (upd_other _ _ _ _ _ U4), H3, Iq).
    apply NoDup_cons in Hnd as [Htn Hnd]. cbn [app] in *. rewrite zlen_cons in G2.
    assert (dbSize st4 = dbSize st) as HS by lia.
    exists st4, fl, t. split_and!; [done| |done| |done].
    + constructor; [| | |done|by rewrite HS].
      * rewrite I4, (get4byte_frame _ _ _ _ _ O4), G2 by lia. do 2 f_equal. lia.
      * intros _. rewrite I4, <- G0. by apply (holds_get4byte_same _ _ _ _ b).
      * apply (trunks_frame st); [|done]. intros q Hq. apply Iq4. rewrite Forall_forall in Hpl. by apply plain_ne_1, Hpl.
    + split_and!; [| |done|congruence].
      * intros q Hq _. by apply Iq4.
      * rewrite I4. eapply same_outside_trans;
          [eapply same_outside_mono; [exact O2|lia..]|eapply same_outside_mono; [exact O4|lia..]].
  - assert (0 < zlen ls) as Hpos' by (destruct ls; [done|]; rewrite zlen_cons; pose proof (zlen_nonneg ls); lia).
    assert (zlen ls =? 0 = false) as -> by lia. cbn [andb]. rewrite (proj2 (Z.ltb_ge (usable / 4 - 8) _)) by done. cbn [andb].
    apply Forall_app in Hpl as [Hpls Hpl].
    assert (Forall plain_page ls) as Hpls' by (eapply Forall_impl; [exact Hpls|]; by intros ? []).
    destruct (image_ok pBt st t Hst config) as [Hbt Lt].
    destruct (PagerWrite_ok st2 t (image st t) K2) as (st3 & E3 & U3); [lia|done..|]. rewrite (bm_bind _ _ _ _ _ E3).
    rewrite <- (Iq t) in U3 by done. apply upd_same in U3 as (H3 & S3 & T3 & K3).
    destruct (find_closest_ok (image st t) (head_of fl) ls nearby Htk Hne) as (c & Ec & Hc & _); [|done|].
    { eapply Forall_impl; [exact Hpls'|]. intros q ([Hq _] & _). unfold PAGER_MAX_PGNO in Hq. lia. }
    rewrite (bm_lift _ _ _ _ Ec). destruct (lookup_lt_is_Some_2 ls c Hc) as [p Hp].
    rewrite (bm_lift _ _ _ _ (Hls _ _ Hp)). cbn [negb orb].
    rewrite Forall_lookup in Hpls. destruct (Hpls _ _ Hp) as [Hpp Hple]. apply NoDup_cons in Hnd as [Htn Hnd].
    assert (p ∈ ls) as Hpin by (by eapply list_elem_of_lookup_2).
    destruct (take_leaf_ok st3 t (head_of fl) ls c p K3) as (st4 & ls' & E4 & Htk4 & Hperm & Iq4 & S4 & T4 & K4);
      [lia|by rewrite H3, Iq|done|done|lia|intros ->; apply Htn, elem_of_app; by left|done|].
    exists st4, ((t, ls') :: fl), p. assert (dbSize st4 = dbSize st) as HS by lia.
    assert (t :: ls ++ free_pages fl ≡ₚ p :: free_pages ((t, ls') :: fl)) as Hperm'.
    { rewrite free_pages_cons, Hperm. cbn [app]. apply perm_swap. }
    assert (NoDup (p :: free_pages ((t, ls') :: fl))) as Hnd' by (rewrite <- Hperm'; by constructor).
    apply NoDup_cons in Hnd' as [Hpn Hnd'].
    assert (forall q, q <> 1 -> q <> t -> q <> p -> image st4 q = image st q) as I4 by (intros; by rewrite Iq4, H3, Iq).
    assert (image st4 1 = d2) as I41 by (rewrite Iq4, H3; [done|congruence|intros <-; by apply (plain_ne_1 1)]).
    split_and!; [exact E4| |done| |done].
    + constructor; [| | |done|].
      * rewrite I41, G2. do 2 f_equal. unfold zlen. rewrite Hperm'. cbn. lia.
      * intros _. by rewrite I41, (get4byte_frame _ _ _ _ _ O2) by lia.
      * split; [done|]. apply (trunks_frame st); [|done]. intros q Hq. rewrite Forall_forall in Hpl.
        apply I4; [by apply plain_ne_1, Hpl|intros ->; apply Htn, elem_of_app; by right|].
        intros ->. apply Hpn. rewrite free_pages_cons. right. apply elem_of_app. by right.
      * rewrite HS. apply (Forall_cons_1 _ p). rewrite <- Hperm'. constructor; [done|]. apply Forall_app. split; [|done].
        by apply Forall_lookup.
    + split_and!; [| |done|congruence].
      * intros q Hq Hqin. apply I4; [done|intros ->; apply Hqin; left|].
        intros ->. apply Hqin. right. apply elem_of_app. by left.
      * rewrite I41. eapply same_outside_mono; [exact O2|lia..].
Qed.


(** ** Pages behind the end of the file *)

Notation P := (PENDING_BYTE_PAGE pBt).

Lemma ispage_cases key : 2 <= key <= PAGER_MAX_PGNO -> exists g n, 97 <= n /\ g <= key < g + n /\
  forall k, 2 <= k <= PAGER_MAX_PGNO -> g <= k < g + n -> ptrmapPageno pBt k = if g =? P then g + 1 else g.
Proof.
  intros Hk. set (n := usable / 5 + 1). assert (97 <= n) as Hn by (pose proof config as [Hu _]; unfold n; Z.to_euclidean_division_equations; lia).
  exists ((key - 2) / n * n + 2), n. pose proof (Z.div_mod (key - 2) n ltac:(lia)) as Hdm. pose proof (Z.mod_pos_bound (key - 2) n ltac:(lia)).
  split_and!; [done|lia|lia|]. intros k Hk' Hr. rewrite (ptrmapPageno_eq pBt k config Hk'). fold n.
  assert ((k - 2) / n = (key - 2) / n) as ->; [|done]. symmetry. apply (Z.div_unique _ _ _ (k - 2 - n * ((key - 2) / n))); lia.
Qed.

Definition size_ok (st : Store) : Prop := 1 <= dbSize st <= PAGER_MAX_PGNO /\ dbSize st <> P - 1.

(** The next page is plain and those that are skipped are not. *)
Lemma next_pgno_ok st : size_ok st -> dbSize st + 3 <= PAGER_MAX_PGNO -> nTrunc st = 0 ->
  dbSize st < next_pgno st <= dbSize st + 3 /\ plain_page (next_pgno st) /\
  (forall q, dbSize st < q < next_pgno st -> ~ plain_page q).
Proof.
  intros [Hsz Hne] Hmax Ht. pose proof (PENDING_big pBt config) as HP. unfold next_pgno. rewrite Ht. cbn [negb Z.eqb].
  rewrite pagecount_eq by (unfold PENDING_BYTE_PAGE in Hne; lia). set (m := dbSize st + 1).
  destruct (autoVacuum pBt) eqn:Ea; cbn [andb].
  - destruct (ispage_cases m) as (g & n & Hn & Hg & Hpg); [unfold m; lia|]. unfold PTRMAP_ISPAGE.
    assert (forall k, 2 <= k <= PAGER_MAX_PGNO -> g <= k < g + n -> k <> P -> k <> (if g =? P then g + 1 else g) -> plain_page k) as Hpl.
    { intros k Hk Hr Hk1 Hk2. unfold plain_page, mapped_page, pgno_ok. rewrite (Hpg k Hk Hr).
      assert (2 < k); [|split_and!; lia].
      destruct (Z.eqb_spec g P); [lia|]. destruct (decide (k = 2)) as [->|]; [|lia].
      exfalso. pose proof (Hpg 2 ltac:(unfold PAGER_MAX_PGNO; lia) Hr) as H2.
      rewrite (ptrmapPageno_eq pBt 2 config) in H2 by (unfold PAGER_MAX_PGNO; lia).
      change ((2 - 2) / (usable / 5 + 1) * (usable / 5 + 1) + 2) with 2 in H2. rewrite !(proj2 (Z.eqb_neq _ _)) in H2 by lia. lia. }
    assert (forall k, plain_page k -> ptrmapPageno pBt k <> k) as Hnp by (intros k (_ & _ & H); by apply H).
    rewrite (Hpg m) by (unfold m; lia). unfold m in *.
    destruct (Z.eqb_spec (if g =? P then g + 1 else g) (dbSize st + 1)) as [E|E].
    + assert (ptrmapPageno pBt (dbSize st + 1) = dbSize st + 1) as Hm by (rewrite Hpg; lia).
      destruct (Z.eqb_spec (dbSize st + 1 + 1) P) as [EP|EP].
      * split; [lia|]. split; [apply Hpl; destruct (Z.eqb_spec g P); lia|].
        intros q Hq Hplain. assert (q = dbSize st + 1 \/ q = P) as [->| ->] by lia; [by apply (Hnp _ Hplain)|].
        by destruct Hplain as ([_ ?] & _).
      * split; [lia|]. split; [apply Hpl; destruct (Z.eqb_spec g P); lia|].
        intros q Hq Hplain. assert (q = dbSize st + 1) as -> by lia. by apply (Hnp _ Hplain).
    + split; [lia|]. split; [apply Hpl; lia|]. intros; lia.
  - unfold m. split; [lia|]. split; [|intros; lia]. unfold plain_page, pgno_ok. rewrite Ea. split_and!; try lia.
Qed.

Lemma alloc_end_ok st nearby fuel : store_ok st -> size_ok st -> dbSize st + 3 <= PAGER_MAX_PGNO -> nTrunc st = 0 ->
  free_ok st [] ->
  exists st' p, allocateBtreePage fuel nearby false st = Ret (st', inr p) /\ plain_page p /\ dbSize st < p <= dbSize st' /\
    free_ok st' [] /\ keeps (fun q => q <> 1) st st' [p] /\ dbSize st' <= dbSize st + 4 /\ size_ok st' /\ (forall q, dbSize st < q <= dbSize st' -> q <> p -> ~ plain_page q).
Proof.
  intros Hst Hsz Hmax Ht [Hcnt _ _ _ _]. destruct (next_pgno_ok st Hsz Hmax Ht) as (Hr & Hp & Hskip).
  unfold allocateBtreePage. rewrite (bm_bind _ _ st st (image st 1)) by done.
  rewrite (bm_lift _ _ _ 0) by (rewrite Hcnt; done). cbn [Z.ltb Z.compare]. rewrite (bm_bind _ _ st st st) by done.
  cbv zeta. rewrite Ht. cbn [negb Z.eqb]. rewrite (bm_bind _ _ st st tt) by done. set (p := next_pgno st) in *.
  assert (p <> P) as HpP by (by destruct Hp as ([_ ?] & _)). rewrite (bm_lift _ _ _ tt) by (by rewrite (proj2 (Z.eqb_neq _ _) HpP)).
  rewrite (bm_bind _ _ _ _ _ (GetPage_ok st p (proj1 Hp))).
  pose proof (pagerWrite_ok pBt rcGet rcWrite no_fail st p (image st p)) as E. rewrite (bm_bind _ _ _ _ _ E).
  destruct (image_ok pBt st p Hst config) as [Hb L]. set (st' := set_image p _ _).
  assert (forall q, image st' q = image st q) as I.
  { intros q. unfold st'. rewrite image_set. by destruct (Z.eqb_spec q p) as [->|]. }
  assert (dbSize st' = (if p =? P - 1 then p + 1 else p)) as HS.
  { cbn. unfold grown. rewrite (proj2 (Z.ltb_lt _ p)) by lia. unfold PENDING_BYTE_PAGE. by rewrite Z.add_simpl_r. }
  exists st', p. split; [done|]. split; [done|]. split; [destruct (p =? P - 1); lia|]. split_and!.
  - constructor; [by rewrite I|done|done|constructor|constructor].
  - split_and!; [by intros; rewrite I|by rewrite I|by apply store_ok_set|done].
  - destruct (p =? P - 1); lia.
  - pose proof (PENDING_big pBt config) as HP. unfold size_ok, PAGER_MAX_PGNO in *. rewrite HS.
    change (2 ^ 30 / 480 + 1) with 2236963 in HP. clearbody p. destruct (Z.eqb_spec p (P - 1)); lia.
  - intros q Hq Hne Hplain. destruct (Z.eqb_spec p (P - 1)) as [E1|E1]; [|by apply (Hskip q); [lia|]].
    destruct (decide (q < p)); [by apply (Hskip q); [lia|]|]. assert (q = P) as -> by lia. by destruct Hplain as ([_ ?] & _).
Qed.

End free.
