(* ===== verification/BtreeFreeList.v ===== *)
(** * What the list of free pages promises

    A transition system over [allocateBtreePage], [freePage] and the writes
    of their callers ([BtreeFree]), and the abstract view of it: every page
    that can hold data is either in use or free, the free ones are handed out
    before the file grows, and nobody is given a page that is in use.  The
    exact search of [allocateBtreePage] ([exact = 1]) is not a step of the
    system: see [BtreeExact]. *)

From S2P Require Import Prelude Varint PageBytes BtreePage BtreeStore BtreeFree.

Section reach.
Context (pBt : BtShared).
Context (rcGet rcWrite : Store -> Z -> Z) (stale : Store -> Z -> list Z).
Notation image := (image pBt).
Notation plain := (plain_page pBt).
Notation alloc := (allocateBtreePage pBt rcGet rcWrite stale).
Notation free := (freePage pBt rcGet rcWrite stale).

(** The bytes that a caller may give to a page: those of the pages in use
    and of the pointer map are its own; in page 1 it leaves the list alone. *)
Definition may_write (st : Store) (used : gset Z) (p : Z) (d : list Z) : Prop :=
  p ∈ used \/ (p <> 1 /\ ~ plain p) \/
  (p = 1 /\ get4byte d 32 = get4byte (image st 1) 32 /\ get4byte d 36 = get4byte (image st 1) 36).

(** The store and the pages in use. *)
Inductive db_step : Store * gset Z -> Store * gset Z -> Prop :=
  | step_alloc st used nearby fuel st' p :
      0 <= nearby < 2 ^ 31 -> dbSize st + 3 <= PAGER_MAX_PGNO ->
      alloc (S fuel) nearby false st = Ret (st', inr p) ->
      db_step (st, used) (st', {[p]} ∪ used)
  | step_free st used p st' :
      p ∈ used -> free p st = Ret (st', inr tt) ->
      db_step (st, used) (st', used ∖ {[p]})
  | step_write st used p d st' :
      may_write st used p d -> p <= dbSize st -> bytes_ok d -> zlen d = pageSize pBt ->
      sqlite3PagerWrite pBt rcWrite p d st = Ret (st', inr tt) ->
      db_step (st, used) (st', used).

(** A file without free pages. *)
Definition db_start (s : Store * gset Z) : Prop :=
  store_ok pBt s.1 /\ size_ok pBt s.1 /\ nTrunc s.1 = 0 /\ get4byte (image s.1 1) 36 = Ret 0 /\
  forall p, p ∈ s.2 <-> plain p /\ p <= dbSize s.1.

(** The pages that can hold data and are not in use are the free ones. *)
Definition db_inv (s : Store * gset Z) (fl : list (Z * list Z)) : Prop :=
  store_ok pBt s.1 /\ size_ok pBt s.1 /\ nTrunc s.1 = 0 /\ free_ok pBt s.1 fl /\
  (forall p, p ∈ s.2 -> plain p /\ p <= dbSize s.1) /\
  forall p, p ∈ free_pages fl <-> plain p /\ p <= dbSize s.1 /\ p ∉ s.2.

Lemma db_start_inv s : db_start s -> db_inv s [].
Proof.
  intros (Hst & Hsz & Ht & H0 & Hu). split_and!; [done..| |by intros; apply Hu|].
  - constructor; [done|done|done|constructor|constructor].
  - intros p. split; [by intros ?%elem_of_nil|]. intros (Hp & Hle & Hn). by destruct Hn; apply Hu.
Qed.

Context (no_fail : forall st pgno, rcGet st pgno = SQLITE_OK /\ rcWrite st pgno = SQLITE_OK).
Context (stale_ok : forall st pgno, bytes_ok (stale st pgno) /\ zlen (stale st pgno) = pageSize pBt).
Context (config : config_ok pBt).

Lemma db_alloc st used fl nearby fuel : db_inv (st, used) fl -> 0 <= nearby < 2 ^ 31 -> dbSize st + 3 <= PAGER_MAX_PGNO ->
  exists st' p fl', alloc (S fuel) nearby false st = Ret (st', inr p) /\ db_inv (st', {[p]} ∪ used) fl' /\
    plain p /\ p ∉ used /\ (forall q, q ∈ used -> image st' q = image st q) /\
    same_outside (image st 1) (image st' 1) 32 40 /\
    (forall q, q <> 1 -> ~ plain q -> image st' q = image st q) /\
    dbSize st <= dbSize st' <= dbSize st + 4 /\ (forall q, plain q -> q <= dbSize st' -> q = p \/ q <= dbSize st) /\
    (if decide (fl = []) then dbSize st < p else p ∈ free_pages fl /\ dbSize st' = dbSize st).
Proof.
  intros (Hst & Hsz & Ht & Hfl & Hu & Hf) Hn Hmax. cbn [fst snd] in *. destruct (decide (fl = [])) as [->|Hne].
  - destruct (alloc_end_ok pBt rcGet rcWrite stale no_fail config st nearby (S fuel) Hst Hsz Hmax Ht Hfl)
      as (st' & p & E & Hp & Hr & Hfl' & (Iq & I1 & K & T) & H4 & Hsz' & Hskip).
    assert (p ∉ used) as Hpu by (intros Hin; apply Hu in Hin; lia).
    exists st', p, []. unfold db_inv. cbn [fst snd]. split_and!; try done; [congruence| | | | |lia| |lia].
    + intros q [->%elem_of_singleton|Hq]%elem_of_union; [by split; [|cbn; lia]|]. apply Hu in Hq as [? ?]. split; [done|cbn; lia].
    + intros q. split; [by intros ?%elem_of_nil|]. cbn. intros (Hq & Hle & Hnq).
      apply not_elem_of_union in Hnq as [Hqp Hnq]. rewrite elem_of_singleton in Hqp.
      destruct (decide (q <= dbSize st)); [by apply Hf|]. by destruct (Hskip q); [lia|done|done].
    + intros q Hq. apply Iq; [by apply (plain_ne_1 pBt), Hu|]. intros ->%list_elem_of_singleton. done.
    + intros q Hq1 Hq. apply Iq; [done|]. by intros ->%list_elem_of_singleton.
    + intros q Hq Hle. destruct (decide (q = p)) as [->|]; [by left|]. right.
      destruct (decide (q <= dbSize st)); [done|]. by destruct (Hskip q); [lia|..].
  - destruct (alloc_free_ok pBt rcGet rcWrite stale no_fail stale_ok config st fl nearby fuel Hst (proj1 (proj1 Hsz))
      (proj2 (proj1 Hsz)) Hfl Hne) as (st' & fl' & p & E & Hfl' & Hperm & (Iq & I1 & K & T) & S); [|done|].
    { destruct Hsz as [_ Hsz]. unfold PENDING_BYTE_PAGE in Hsz. lia. }
    assert (p ∈ free_pages fl) as Hpin by (rewrite Hperm; left). pose proof (proj1 (Hf p) Hpin) as (Hp & Hple & Hpu).
    pose proof (f_nodup _ _ _ Hfl) as Hnd. rewrite Hperm in Hnd. apply NoDup_cons in Hnd as [Hpn _].
    exists st', p, fl'. unfold db_inv. cbn [fst snd]. split_and!; try done; [|congruence| | | | |lia|lia|].
    + unfold size_ok in *. by rewrite S.
    + intros q [->%elem_of_singleton|Hq]%elem_of_union; cbn; rewrite S; [done|by apply Hu].
    + intros q. cbn. rewrite S. assert (q ∈ free_pages fl <-> q = p \/ q ∈ free_pages fl') as Hq by (by rewrite Hperm, elem_of_cons).
      rewrite not_elem_of_union, elem_of_singleton. split.
      * intros Hin. destruct (proj1 (Hf q)) as (? & ? & ?); [by apply Hq; right|]. split_and!; try done. by intros ->.
      * intros (? & ? & ? & ?). destruct (proj1 Hq) as [?|?]; [by apply Hf|done|done].
    + intros q Hq. apply Iq; [by apply (plain_ne_1 pBt), Hu|]. intros Hin. by apply Hf in Hin as (_ & _ & ?).
    + intros q Hq1 Hq. apply Iq; [done|]. intros Hin. by apply Hf in Hin as (? & _).
    + intros q _ Hle. right. lia.
Qed.

Lemma db_free st used fl p : db_inv (st, used) fl -> p ∈ used ->
  exists st' fl', free p st = Ret (st', inr tt) /\ db_inv (st', used ∖ {[p]}) fl' /\
    (forall q, q ∈ used -> q <> p -> image st' q = image st q) /\
    same_outside (image st 1) (image st' 1) 32 40 /\ dbSize st' = dbSize st /\ marked pBt p st st'.
Proof.
  intros (Hst & Hsz & Ht & Hfl & Hu & Hf) Hp. cbn [fst snd] in *. pose proof (Hu p Hp) as [Hpl Hle].
  assert (p ∉ free_pages fl) as Hnin by (intros Hin; by apply Hf in Hin as (_ & _ & ?)).
  destruct (freePage_ok pBt rcGet rcWrite stale no_fail config st fl p Hst (proj1 (proj1 Hsz)) Hfl Hpl Hle Hnin)
    as (st' & fl' & E & Hfl' & Hperm & (Iq & I1 & K & T) & S & M).
  exists st', fl'. unfold db_inv. cbn [fst snd]. split_and!; try done; [|congruence| | |].
  - unfold size_ok in *. by rewrite S.
  - intros q [Hq _]%elem_of_difference. cbn. rewrite S. by apply Hu.
  - intros q. cbn. rewrite S, Hperm, elem_of_cons, Hf. rewrite elem_of_difference, elem_of_singleton.
    destruct (decide (q = p)) as [->|]; [|destruct (decide (q ∈ used))]; tauto.
  - intros q Hq Hne. apply Iq; [by apply Hu|]. intros [?|Hin]%elem_of_cons; [done|]. by apply Hf in Hin as (_ & _ & ?).
Qed.

(** What the list does not depend on. *)
Lemma db_inv_frame st st' used fl : db_inv (st, used) fl -> store_ok pBt st' -> dbSize st' = dbSize st -> nTrunc st' = nTrunc st ->
  (forall q, q ∈ free_pages fl -> image st' q = image st q) ->
  get4byte (image st' 1) 32 = get4byte (image st 1) 32 -> get4byte (image st' 1) 36 = get4byte (image st 1) 36 ->
  db_inv (st', used) fl.
Proof.
  intros (Hst & Hsz & Ht & [Hc Hh Htr Hnd Hpl] & Hu & Hf) K S T Ifl I1 I2. cbn [fst snd] in *. unfold db_inv. cbn [fst snd].
  split_and!; [done|by unfold size_ok in *; rewrite S|congruence| |by rewrite S|by rewrite S].
  constructor; [by rewrite I2|intros Hne; rewrite I1; by apply Hh|by apply (trunks_frame pBt st)|done|by rewrite S].
Qed.

(** Writing to a page as [may_write] says. *)
Lemma db_upd st used fl p d st' : db_inv (st, used) fl -> may_write st used p d -> upd pBt st st' p d -> db_inv (st', used) fl.
Proof.
  intros Hi Hw (Hup & S & T & K). pose proof Hi as (_ & _ & _ & _ & Hu & Hf). cbn [fst snd] in *.
  assert (get4byte (image st' 1) 32 = get4byte (image st 1) 32 /\ get4byte (image st' 1) 36 = get4byte (image st 1) 36) as [I1 I2].
  { rewrite Hup. destruct (Z.eqb_spec 1 p) as [<-|]; [|done].
    destruct Hw as [Hin|[[? _]|[_ ?]]]; [|done|done]. apply Hu in Hin as [H1 _]. by destruct (plain_ne_1 pBt 1 H1). }
  apply (db_inv_frame st); try done. intros q Hq. rewrite Hup. destruct (Z.eqb_spec q p) as [->|]; [|done].
  apply Hf in Hq as (Hq & _ & Hnq). destruct Hw as [?|[[_ ?]|[-> _]]]; [done|done|]. by destruct (plain_ne_1 pBt 1 Hq).
Qed.

Lemma db_write st used fl p d st' : db_inv (st, used) fl -> may_write st used p d -> p <= dbSize st ->
  bytes_ok d -> zlen d = pageSize pBt ->
  sqlite3PagerWrite pBt rcWrite p d st = Ret (st', inr tt) -> db_inv (st', used) fl.
Proof.
  intros Hi Hw Hle Hd L E. destruct (PagerWrite_ok pBt rcGet rcWrite no_fail st p d (proj1 Hi) Hle Hd L) as (st1 & E1 & Hup).
  rewrite E in E1. injection E1 as <-. by eapply db_upd.
Qed.

Lemma db_reach_inv s s' fl : rtc db_step s s' -> db_inv s fl -> exists fl', db_inv s' fl'.
Proof.
  intros H. revert fl. induction H as [s|s s1 s' Hs _ IH]; intros fl Hi; [by exists fl|].
  destruct Hs as [st used nearby fuel st' p Hn Hmax E|st used p st' Hp E|st used p d st' Hw Hle Hd L E].
  - destruct (db_alloc st used fl nearby fuel Hi Hn Hmax) as (st1 & p1 & fl1 & E1 & Hi1 & _).
    rewrite E in E1. injection E1 as <- <-. by apply (IH fl1).
  - destruct (db_free st used fl p Hi Hp) as (st1 & fl1 & E1 & Hi1 & _). rewrite E in E1. injection E1 as <-. by apply (IH fl1).
  - apply (IH fl). by eapply db_write.
Qed.

End reach.

(** C7: the list of free pages refines a set.  Start from a file without free
    pages, and let the callers allocate pages, free pages that are in use and
    write to pages in use, to the pages of the pointer map and to page 1
    outside of the list.  Then the pages that can hold data are those in use
    and those of a duplicate-free list, whose length is at byte 36 of page 1.
    [allocateBtreePage] does not fail: it returns a page that can hold data
    and that nobody uses, one of the list where it is not empty, and the file
    grows only when it is empty.  [freePage] does not fail either.  Neither
    changes a page in use (but for the freed one), nor page 1 outside of the
    bytes 32 to 39.  The allocations are without the exact search ([BtreeExact]
    has that), and the file is not truncated on the way. *)
Theorem freelist_refines_set pBt rcGet rcWrite stale s0 st used :
  (forall st pgno, rcGet st pgno = SQLITE_OK /\ rcWrite st pgno = SQLITE_OK) ->
  (forall st pgno, bytes_ok (stale st pgno) /\ zlen (stale st pgno) = pageSize pBt) ->
  config_ok pBt -> db_start pBt s0 -> rtc (db_step pBt rcGet rcWrite stale) s0 (st, used) ->
  (forall p, p ∈ used -> plain_page pBt p /\ p <= dbSize st) /\
  exists free, NoDup free /\ get4byte (image pBt st 1) 36 = Ret (zlen free) /\
    (forall p, p ∈ free <-> plain_page pBt p /\ p <= dbSize st /\ p ∉ used) /\
    (forall nearby fuel, 0 <= nearby < 2 ^ 31 -> dbSize st + 3 <= PAGER_MAX_PGNO ->
       exists st' p, allocateBtreePage pBt rcGet rcWrite stale (S fuel) nearby false st = Ret (st', inr p) /\
         plain_page pBt p /\ p ∉ used /\ (forall q, q ∈ used -> image pBt st' q = image pBt st q) /\
         same_outside (image pBt st 1) (image pBt st' 1) 32 40 /\
         (if decide (free = []) then dbSize st < p <= dbSize st' else p ∈ free /\ dbSize st' = dbSize st)) /\
    (forall p, p ∈ used ->
       exists st', freePage pBt rcGet rcWrite stale p st = Ret (st', inr tt) /\
         (forall q, q ∈ used -> q <> p -> image pBt st' q = image pBt st q) /\
         same_outside (image pBt st 1) (image pBt st' 1) 32 40 /\ dbSize st' = dbSize st).
Proof.
  intros Hnf Hso Hc H0 Hr.
  destruct (db_reach_inv pBt rcGet rcWrite stale Hnf Hso Hc _ _ [] Hr (db_start_inv pBt _ H0)) as [fl Hi].
  pose proof Hi as (_ & _ & _ & Hfl & Hu & Hf). cbn [fst snd] in Hu, Hf. split; [done|]. exists (free_pages fl).
  split_and!; [by eapply f_nodup|by eapply f_count|done| |].
  - intros nearby fuel Hn Hmax.
    destruct (db_alloc pBt rcGet rcWrite stale Hnf Hso Hc st used fl nearby fuel Hi Hn Hmax)
      as (st' & p & fl' & E & Hi' & Hp & Hpu & Iq & I1 & _ & Hge & _ & Hcase).
    exists st', p. split_and!; try done. destruct Hi' as (_ & _ & _ & _ & Hu' & _).
    destruct (Hu' p) as [_ Hple]; [set_solver|]. cbn in Hple.
    destruct (decide (fl = [])) as [->|Hne]; [done|]. rewrite decide_False; [done|].
    rewrite <- free_pages_nil in Hne. intros E0. by rewrite E0 in Hne.
  - intros p Hp. destruct (db_free pBt rcGet rcWrite stale Hnf Hc st used fl p Hi Hp) as (st' & fl' & E & _ & Iq & I1 & S & _). by exists st'.
Qed.

Definition ex_free_bt : BtShared := mkBt 512 512 102 39 477 39 false.
Definition ex_zeros : list Z := replicate 512 0.
Definition ex_start : Store := mkStore ∅ 3 0.

(** Three pages; page 3 was freed. *)
Definition ex_freed : Store :=
  match freePage ex_free_bt (fun _ _ => 0) (fun _ _ => 0) (fun _ _ => ex_zeros) 3 ex_start with
  | Ret (st, _) => st
  | _ => ex_start
  end.

Lemma freelist_refines_set_witness : exists free st' p,
  get4byte (image ex_free_bt ex_freed 1) 36 = Ret (zlen free) /\ (forall q, q ∈ free <-> q = 3) /\
  allocateBtreePage ex_free_bt (fun _ _ => 0) (fun _ _ => 0) (fun _ _ => ex_zeros) 1 7 false ex_freed = Ret (st', inr p) /\
  p = 3 /\ dbSize st' = 3.
Proof.
  assert (PENDING_BYTE_PAGE ex_free_bt = 2097153) as HP by reflexivity.
  assert (forall p, plain_page ex_free_bt p <-> 1 < p <= PAGER_MAX_PGNO /\ p <> 2097153) as Hpl.
  { intros p. unfold plain_page, pgno_ok. rewrite HP. cbn [autoVacuum ex_free_bt]. unfold PAGER_MAX_PGNO. intuition (lia || done). }
  destruct (freelist_refines_set ex_free_bt (fun _ _ => 0) (fun _ _ => 0) (fun _ _ => ex_zeros) (ex_start, {[2; 3]})
    ex_freed ({[2; 3]} ∖ {[3]})) as (_ & free & _ & Hc & Hf & Ha & _).
  - done.
  - intros _ _. split; [apply Forall_replicate; unfold is_byte; lia|reflexivity].
  - unfold config_ok. cbn. lia.
  - unfold db_start, size_ok. rewrite HP. cbn [fst snd dbSize nTrunc ex_start]. split_and!; try lia; try done.
    intros p. rewrite Hpl. unfold PAGER_MAX_PGNO. rewrite elem_of_union, !elem_of_singleton. lia.
  - apply rtc_once, step_free; [set_solver|vm_compute; reflexivity].
  - assert (dbSize ex_freed = 3) as HS by reflexivity.
    assert (forall q, q ∈ free <-> q = 3) as Hf3.
    { intros q. rewrite Hf, Hpl, HS, elem_of_difference, elem_of_union, !elem_of_singleton. unfold PAGER_MAX_PGNO. lia. }
    destruct (Ha 7 0%nat) as (st' & p & E & _ & _ & _ & _ & Hcase); [lia|rewrite HS; unfold PAGER_MAX_PGNO; lia|].
    exists free, st', p. rewrite decide_False in Hcase; [|intros ->; by apply (elem_of_nil 3), Hf3].
    destruct Hcase as [Hin Hs]. split_and!; [exact Hc|exact Hf3|exact E|by apply Hf3|by rewrite Hs].
Defined.
