(* ===== verification/BtreeExact.v ===== *)
(** * The exact search of [allocateBtreePage]

    With [exact = 1] the list of free pages is searched for the page
    [nearby].  Where no trunk without leaves has that number (or that number
    plus 2^31) in the bytes behind its header, the page is found and taken out of the list.  Where one
    has, the page is handed out but stays in the list: the last theorem shows
    an ordinary run that hands out one page twice. *)

From S2P Require Import Prelude Varint PageBytes BtreePage BtreeParse BtreeStore BtreeFree BtreeFreeList.

Lemma holds_get4byte_sub d d' a a' b o : holds d a b -> holds d' a' b -> 0 <= o -> o + 4 <= zlen b ->
  get4byte d' (a' + o) = get4byte d (a + o).
Proof.
  intros (Ha & _ & H) (Ha' & _ & H') Ho Hl. unfold get4byte. rewrite !decide_True by lia. unfold sqlite3Get4byte.
  rewrite !rd_drop by lia. rewrite <- !Z.add_assoc. by rewrite !H, !H' by lia.
Qed.

Lemma trunk_in_list t ls fl : (t, ls) ∈ fl -> t ∈ free_pages fl.
Proof.
  induction fl as [|[t' ls'] fl IH]; [by intros ?%elem_of_nil|]. rewrite free_pages_cons. intros [[= <- <-]|H]%elem_of_cons; [left|].
  right. apply elem_of_app. right. by apply IH.
Qed.

Section exact.
Context (pBt : BtShared).
Context (rcGet rcWrite : Store -> Z -> Z) (stale : Store -> Z -> list Z).
Notation usable := (usableSize pBt).
Notation image := (image pBt).
Notation plain := (plain_page pBt).
Context (no_fail : forall st pgno, rcGet st pgno = SQLITE_OK /\ rcWrite st pgno = SQLITE_OK).
Context (config : config_ok pBt).

(** The number of the first trunk, or of the one behind [prev], lies there. *)
Definition link_page_of (prev : option Z) : Z := default 1 prev.
Definition link_off (prev : option Z) : Z := match prev with Some _ => 0 | None => 32 end.

(** The page [p] differs in its link alone, of the others only [F] differ. *)
Record relinked (st st' : Store) (prev : option Z) (F : list Z) : Prop := {
  rl_link : same_outside (image st (link_page_of prev)) (image st' (link_page_of prev)) (link_off prev) (link_off prev + 4);
  rl_other : forall q, q <> link_page_of prev -> q ∉ F -> image st' q = image st q;
  rl_size : dbSize st' = dbSize st;
  rl_trunc : nTrunc st' = nTrunc st;
  rl_ok : store_ok pBt st';
}.

(** A leaf becomes a trunk. *)
Lemma new_trunk_bytes d dt next i0 ls : bytes_ok d -> zlen d = pageSize pBt -> bytes_ok dt -> zlen dt = pageSize pBt ->
  trunk_ok pBt dt next (i0 :: ls) ->
  exists d', (b ← bytes_at dt 0 4; d ← copy_to d 0 b; d ← put4byte d 4 (zlen (i0 :: ls) - 1);
      b ← bytes_at dt 12 ((zlen (i0 :: ls) - 1) * 4); copy_to d 8 b) = Ret d' /\
    bytes_ok d' /\ zlen d' = pageSize pBt /\ trunk_ok pBt d' next ls.
Proof.
  intros Bd Ld Bt Lt Htk. pose proof (trunk_leaves pBt config _ _ _ Htk) as Hk'. destruct Htk as (G0 & G4 & Hk & Hl).
  pose proof (trunk_fits pBt config _ Hk) as Hfit. rewrite zlen_cons in *. replace (zlen ls + 1 - 1) with (zlen ls) by lia.
  pose proof (zlen_nonneg ls). pose proof config as [Hu Hps].
  destruct (bytes_at_ok dt 0 4) as (b & -> & Lb & Hb); [lia..|]. crun.
  destruct (copy_to_ok b d 0) as (d1 & -> & H1 & B1 & O1); [done|exact (holds_bytes_ok _ _ _ Bt Hb)|lia|lia|]. crun. rewrite Lb in O1. pose proof O1 as [L1 _].
  destruct (put4byte_ok d1 4 (zlen ls)) as (d2 & -> & G2 & B2 & O2); [done|lia|lia|unfold is_u32; lia|]. crun. pose proof O2 as [L2 _].
  destruct (bytes_at_ok dt 12 (zlen ls * 4)) as (c & -> & Lc & Hc); [lia..|]. crun.
  destruct (copy_to_ok c d2 8) as (d3 & -> & H3 & B3 & O3); [done|exact (holds_bytes_ok _ _ _ Bt Hc)|lia|lia|]. pose proof O3 as [L3 _]. rewrite Lc in O3.
  exists d3. split_and!; [done|done|lia|]. split_and!; [| |lia|].
  - rewrite (get4byte_frame _ _ _ _ _ O3), (get4byte_frame _ _ _ _ _ O2) by lia. rewrite <- G0.
    by apply (holds_get4byte_same _ _ _ _ b).
  - by rewrite (get4byte_frame _ _ _ _ _ O3) by lia.
  - intros i q Hq. pose proof (lookup_lt_Some _ _ _ Hq).
    rewrite (holds_get4byte_sub dt d3 12 8 c (Z.of_nat i * 4)) by (done || unfold zlen in *; lia).
    replace (12 + Z.of_nat i * 4) with (8 + Z.of_nat (S i) * 4) by lia. by apply Hl.
Qed.

Lemma modify_link_ok st prev f d v : store_ok pBt st -> f (image st (link_page_of prev)) = Ret d -> bytes_ok d ->
  same_outside (image st (link_page_of prev)) d (link_off prev) (link_off prev + 4) -> get4byte d (link_off prev) = Ret v ->
  exists st', modify pBt (link_page_of prev) f st = Ret (st', inr tt) /\ relinked st st' prev [] /\
    get4byte (image st' (link_page_of prev)) (link_off prev) = Ret v.
Proof.
  intros Hst Ef Bd Od Gd. destruct (image_ok pBt st (link_page_of prev) Hst config) as [_ L].
  destruct (modify_ok pBt st (link_page_of prev) f d Hst Ef Bd) as (st' & E & U); [destruct Od; lia|].
  exists st'. split; [done|]. rewrite (upd_self _ _ _ _ _ U). split; [|done]. split.
  - by rewrite (upd_self _ _ _ _ _ U).
  - intros q Hq _. by apply (upd_other _ _ _ _ _ _ U).
  - by destruct U as (_ & ? & _).
  - by destruct U as (_ & _ & ? & _).
  - by destruct U as (_ & _ & _ & ?).
Qed.

Lemma relinked_same st st1 st' prev F : same_store pBt st st1 -> relinked st1 st' prev F -> relinked st st' prev F.
Proof.
  intros (I & S & T & _) [R1 R2 R3 R4 R5]. split; [by rewrite I in R1| |congruence|congruence|done].
  intros q Hq Hn. by rewrite R2, I.
Qed.

Lemma put_link_ok st prev v : store_ok pBt st -> is_u32 v ->
  exists st', modify pBt (link_page_of prev) (fun d => put4byte d (link_off prev) v) st = Ret (st', inr tt) /\ relinked st st' prev [] /\
    get4byte (image st' (link_page_of prev)) (link_off prev) = Ret v.
Proof.
  intros Hst Hv. destruct (image_ok pBt st (link_page_of prev) Hst config) as [Hb L]. pose proof config as [Hu _].
  destruct (put4byte_ok (image st (link_page_of prev)) (link_off prev) v) as (d & E & G & B & O);
    [done|rewrite ?L; destruct prev; cbn; lia..|done|]. by apply (modify_link_ok st prev _ d).
Qed.

Lemma copy_link_ok st prev dt next : store_ok pBt st -> bytes_ok dt -> zlen dt = pageSize pBt -> get4byte dt 0 = Ret next ->
  exists st', modify pBt (link_page_of prev) (fun d => b ← bytes_at dt 0 4; copy_to d (link_off prev) b) st = Ret (st', inr tt) /\
    relinked st st' prev [] /\ get4byte (image st' (link_page_of prev)) (link_off prev) = Ret next.
Proof.
  intros Hst Bt Lt G. destruct (image_ok pBt st (link_page_of prev) Hst config) as [Hb L]. pose proof config as [Hu _].
  destruct (bytes_at_ok dt 0 4) as (b & Eb & Lb & Hhb); [lia..|].
  destruct (copy_to_ok b (image st (link_page_of prev)) (link_off prev)) as (d & E & H & B & O);
    [done|exact (holds_bytes_ok _ _ _ Bt Hhb)|rewrite ?L; destruct prev; cbn; lia..|]. rewrite Lb in O.
  apply (modify_link_ok st prev _ d); [done|by rewrite Eb|done|done|]. rewrite <- G. by apply (holds_get4byte_same _ _ _ _ b).
Qed.

(** The list behind [prev], of which [prev] is no part. *)
Record list_at (st : Store) (prev : option Z) (fl : list (Z * list Z)) : Prop := {
  la_link : get4byte (image st (link_page_of prev)) (link_off prev) = Ret (head_of fl);
  la_trunks : trunks pBt st fl;
  la_prev : link_page_of prev ∉ free_pages fl;
  la_file : link_page_of prev <= dbSize st;
  la_ok : store_ok pBt st;
  la_nodup : NoDup (free_pages fl);
  la_pages : Forall (fun q => plain q /\ q <= dbSize st) (free_pages fl);
}.

(** The page [x] was taken out. *)
Definition taken (st st' : Store) (prev : option Z) (fl : list (Z * list Z)) (x : Z) : Prop :=
  exists fl', list_at st' prev fl' /\ free_pages fl ≡ₚ x :: free_pages fl' /\ relinked st st' prev (free_pages fl).

Lemma list_at_new st st' prev fl fl' x : list_at st prev fl -> free_pages fl ≡ₚ x :: free_pages fl' ->
  relinked st st' prev (free_pages fl) -> get4byte (image st' (link_page_of prev)) (link_off prev) = Ret (head_of fl') ->
  trunks pBt st' fl' -> taken st st' prev fl x.
Proof.
  intros [A1 A2 A3 A4 A5 A6 A7] Hp Hr Hl Ht. exists fl'. split; [|done]. rewrite Hp in A3, A6, A7.
  apply NoDup_cons in A6 as [_ A6]. apply Forall_cons in A7 as [_ A7]. apply not_elem_of_cons in A3 as [_ A3].
  pose proof (rl_size _ _ _ _ Hr) as S. split; try done; [by rewrite S|by destruct Hr|by rewrite S].
Qed.

Lemma relinked_mono st st' prev F F' : relinked st st' prev F -> (forall q, q ∈ F -> q ∈ F') -> relinked st st' prev F'.
Proof. intros [R1 R2 R3 R4 R5] H. split; try done. intros q Hq Hn. apply R2; [done|]. intros Hin. by apply Hn, H. Qed.

Lemma relinked_upd st st1 st' prev p d F : upd pBt st st1 p d -> p <> link_page_of prev -> relinked st1 st' prev F ->
  relinked st st' prev (p :: F).
Proof.
  intros U Hne [R1 R2 R3 R4 R5]. pose proof U as (_ & S & T & _). split; [|intros q Hq Hn|congruence|congruence|done].
  - by rewrite (upd_other _ _ _ _ _ _ U) in R1 by done.
  - apply not_elem_of_cons in Hn as [Hqp Hn]. by rewrite R2, (upd_other _ _ _ _ _ _ U).
Qed.

(** The trunks from the first on, after a change to the link and to [F]. *)
Lemma trunks_relinked st st' prev fl F : relinked st st' prev F -> link_page_of prev ∉ free_pages fl ->
  (forall q, q ∈ free_pages fl -> q ∉ F) -> trunks pBt st fl -> trunks pBt st' fl.
Proof.
  intros Hr Hp HF. apply trunks_frame. intros q Hq. apply (rl_other _ _ _ _ Hr); [by intros ->|by apply HF].
Qed.

Lemma put_link_write st prev v : store_ok pBt st -> link_page_of prev <= dbSize st -> is_u32 v ->
  exists st', (match prev with
      | None => modify pBt 1 (fun d => put4byte d 32 v)
      | Some prev => write_page pBt rcWrite prev;; modify pBt prev (fun d => put4byte d 0 v)
      end) st = Ret (st', inr tt) /\ relinked st st' prev [] /\
    get4byte (image st' (link_page_of prev)) (link_off prev) = Ret v.
Proof.
  intros Hst Hle Hv. destruct prev as [q|]; [|by apply (put_link_ok st None)].
  destruct (write_page_ok pBt rcGet rcWrite no_fail config st q Hst Hle) as (st1 & E1 & Same).
  destruct (put_link_ok st1 (Some q) v) as (st' & E & Hr & G); [by destruct Same as (_ & _ & _ & ?)|done|].
  exists st'. split; [by rewrite (bm_bind _ _ _ _ _ E1)|]. split; [by eapply relinked_same|done].
Qed.

Lemma take_trunk_ok st prev t ls fl : list_at st prev ((t, ls) :: fl) ->
  exists st', take_trunk pBt rcGet rcWrite stale t (zlen ls) prev st = Ret (st', inr t) /\ taken st st' prev ((t, ls) :: fl) t.
Proof.
  intros Hat. pose proof Hat as [A1 [A2 A2'] A3 A4 A5 A6 A7]. cbn [fst snd] in A2. rewrite free_pages_cons in A3, A6, A7.
  apply Forall_cons in A7 as [[Hpt Hlet] A7]. apply NoDup_cons in A6 as [Htn A6]. apply not_elem_of_cons in A3 as [Hpt' A3].
  destruct (image_ok pBt st t A5 config) as [Bt Lt].
  destruct (write_page_ok pBt rcGet rcWrite no_fail config st t A5 Hlet) as (st1 & E1 & Same). pose proof Same as (I1 & S1 & T1 & K1).
  unfold take_trunk. rewrite (bm_bind _ _ _ _ _ E1), (bm_bind _ _ st1 st1 (image st t)) by (unfold aData_of; by rewrite I1).
  destruct ls as [|i0 ls].
  - change (zlen (@nil Z) =? 0) with true. cbv iota.
    destruct (copy_link_ok st1 prev (image st t) (head_of fl) K1 Bt Lt) as (st2 & E2 & R2 & G2); [by destruct A2|].
    exists st2. split; [rewrite (bm_bind _ _ st1 st2 tt); [done|destruct prev; exact E2]|].
    pose proof (relinked_same _ _ _ _ _ Same R2) as R. apply (list_at_new st st2 prev _ fl t Hat); [done| |done|].
    + eapply relinked_mono; [done|]. by intros q ?%elem_of_nil.
    + apply (trunks_relinked st st2 prev fl [] R); [done|by intros q _ ?%elem_of_nil|done].
  - assert (zlen (i0 :: ls) =? 0 = false) as -> by (rewrite zlen_cons; pose proof (zlen_nonneg ls); lia).
    cbn [app] in *. apply not_elem_of_cons in A3 as [Hp0 A3]. apply NoDup_cons in A6 as [H0n A6].
    apply Forall_cons in A7 as [[Hp0' Hle0] A7]. destruct (image_ok pBt st i0 A5 config) as [B0 L0].
    pose proof A2 as (_ & _ & _ & Hl).
    pose proof (GetPage_ok pBt rcGet rcWrite stale no_fail st1 i0 (proj1 Hp0')) as Eg. rewrite I1 in Eg.
    destruct (PagerWrite_ok pBt rcGet rcWrite no_fail st1 i0 (image st i0) K1) as (st2 & E2 & U2); [lia|done..|].
    rewrite <- (I1 i0) in U2. apply upd_same in U2 as (I2 & S2 & T2 & K2).
    assert (same_store pBt st st2) as Same2 by (split_and!; [intros q; by rewrite I2, I1|congruence|congruence|done]).
    destruct (new_trunk_bytes (image st i0) (image st t) (head_of fl) i0 ls B0 L0 Bt Lt A2) as (d' & Ed & Bd & Ld & Htk).
    destruct (modify_ok pBt st2 i0 (fun d => b ← bytes_at (image st t) 0 4; d ← copy_to d 0 b; d ← put4byte d 4 (zlen (i0 :: ls) - 1);
      b ← bytes_at (image st t) 12 ((zlen (i0 :: ls) - 1) * 4); copy_to d 8 b) d' K2 ltac:(rewrite I2, I1; exact Ed) Bd Ld) as (st3 & E3 & U3).
    pose proof U3 as (_ & S3 & T3 & K3).
    destruct (put_link_write st3 prev i0 K3) as (st4 & E4 & R4 & G4); [lia|by apply (plain_u32 pBt)|].
    exists st4. split.
    { rewrite (bm_bind _ _ st1 st4 tt); [done|]. rewrite (bm_lift _ _ _ i0) by exact (Hl 0%nat i0 eq_refl).
      by rewrite (bm_bind _ _ _ _ _ Eg), (bm_bind _ _ _ _ _ E2), (bm_bind _ _ _ _ _ E3). }
    pose proof (relinked_same _ _ _ _ _ Same2 (relinked_upd _ _ _ _ _ _ _ U3 (not_eq_sym Hp0) R4)) as R.
    apply (list_at_new st st4 prev _ ((i0, ls) :: fl) t Hat); [done| |done|].
    + eapply relinked_mono; [done|]. intros q ->%list_elem_of_singleton. rewrite free_pages_cons. right. left.
    + split; [cbn; by rewrite (rl_other _ _ _ _ R4), (upd_self _ _ _ _ _ U3) by (congruence || by intros ?%elem_of_nil)|].
      apply (trunks_relinked st st4 prev fl [i0] R); [|intros q Hq ->%list_elem_of_singleton; apply H0n, elem_of_app; by right|done].
      intros Hin. apply A3, elem_of_app. by right.
Qed.

(** ** The search *)

(** The trunks without leaves do not have, by chance, where their first leaf
    would be, the number of the page, or the number of which the distance to
    the page overflows the int ([distance_overflows]). *)
Definition unconfused (st : Store) (fl : list (Z * list Z)) (nearby : Z) : Prop := forall t, (t, []) ∈ fl -> t <> nearby ->
  exists x, get4byte (image st t) 8 = Ret x /\ x <> nearby /\ x <> nearby + 2 ^ 31.

Context (stale_ok : forall st pgno, bytes_ok (stale st pgno) /\ zlen (stale st pgno) = pageSize pBt).

(** A trunk of which the page is no leaf is passed over. *)
Lemma search_passes st t next ls nearby : trunk_ok pBt (image st t) next ls -> store_ok pBt st ->
  Forall (fun q => plain q /\ q <= dbSize st) ls -> 0 < nearby < 2 ^ 31 -> nearby ∉ ls ->
  (ls = [] -> exists x, get4byte (image st t) 8 = Ret x /\ x <> nearby /\ x <> nearby + 2 ^ 31) ->
  exists closest x, find_closest (image st t) (zlen ls) nearby = Ret closest /\
    get4byte (image st t) (8 + closest * 4) = Ret x /\ x <> nearby.
Proof.
  intros Ht Hst Hp Hn Hnin Hempty. destruct (decide (ls = [])) as [->|Hne].
  - destruct (Hempty eq_refl) as (x & Ex & Hxn & Hx). destruct (image_ok pBt st t Hst config) as [Hb L]. pose proof config as [Hu _].
    destruct (get4byte_ok (image st t) 8) as (x' & Ex' & Hx'); [lia..|]. rewrite Ex in Ex'. injection Ex' as <-.
    exists 0, x. split_and!; [|done|done]. unfold find_closest. rewrite (proj2 (Z.ltb_lt 0 nearby)), Ex by lia. crun.
    destruct (distance_returns x nearby Hx') as (d & ->); [lia|done|]. done.
  - destruct (find_closest_ok pBt (image st t) next ls nearby Ht Hne) as (c & Ec & Hc & _); [|lia|].
    { eapply Forall_impl; [exact Hp|]. intros q [([Hq _] & _) _]. unfold PAGER_MAX_PGNO in Hq. lia. }
    destruct (lookup_lt_is_Some_2 ls c Hc) as [x Hx]. exists (Z.of_nat c), x. split_and!; [done|by apply Ht|].
    intros ->. apply Hnin. by eapply list_elem_of_lookup_2.
Qed.

Lemma search_leaf_ok st prev t ls fl nearby : list_at st prev ((t, ls) :: fl) -> size_ok pBt st -> nearby ∈ ls -> 0 < nearby < 2 ^ 31 ->
  exists c st', find_closest (image st t) (zlen ls) nearby = Ret c /\ get4byte (image st t) (8 + c * 4) = Ret nearby /\
    take_leaf pBt rcGet rcWrite stale t (zlen ls) c nearby st = Ret (st', inr nearby) /\ taken st st' prev ((t, ls) :: fl) nearby.
Proof.
  intros Hat Hsz Hin Hn. pose proof Hat as [A1 [A2 A2'] A3 A4 A5 A6 A7]. cbn [fst snd] in A2. rewrite free_pages_cons in A3, A6, A7.
  apply Forall_cons in A7 as [[Hpt Hlet] A7]. apply NoDup_cons in A6 as [Htn A6]. apply not_elem_of_cons in A3 as [Hpt' A3].
  apply Forall_app in A7 as [A7 A7'].
  assert (ls <> []) as Hne by (intros ->; by apply elem_of_nil in Hin).
  destruct (find_closest_ok pBt (image st t) (head_of fl) ls nearby A2 Hne) as (c & Ec & Hc & Hmin); [|lia|].
  { eapply Forall_impl; [exact A7|]. intros q [([Hq _] & _) _]. unfold PAGER_MAX_PGNO in Hq. lia. }
  specialize (Hmin ltac:(lia) Hin). rewrite Forall_forall in A7. destruct (A7 nearby Hin) as [Hpn Hlen].
  assert (nearby <> t) as Hnt by (intros ->; apply Htn, elem_of_app; by left).
  destruct (take_leaf_ok pBt rcGet rcWrite stale no_fail stale_ok config st t (head_of fl) ls c nearby A5)
    as (st' & ls' & E & Htk & Hperm & Iq & S & T & K); try done.
  { destruct Hsz as [_ Hsz]. unfold PENDING_BYTE_PAGE in Hsz. lia. }
  { apply Forall_forall. intros q Hq. by apply A7. }
  exists (Z.of_nat c), st'. split_and!; [done|by apply A2|done|].
  assert (relinked st st' prev (free_pages ((t, ls) :: fl))) as R.
  { split; [|intros q Hq Hqn|done|done|done].
    - rewrite Iq; [done|done|]. intros E0. apply A3, elem_of_app. left. by rewrite E0.
    - rewrite free_pages_cons in Hqn. apply Iq; [intros ->; apply Hqn; left|intros ->; apply Hqn; right; apply elem_of_app; by left]. }
  apply (list_at_new st st' prev _ ((t, ls') :: fl) nearby Hat); [|done| |].
  - rewrite !free_pages_cons, Hperm. apply perm_swap.
  - rewrite Iq; [exact A1|done|]. intros E0. apply A3, elem_of_app. left. by rewrite E0.
  - split; [done|]. apply (trunks_frame pBt st); [|done]. intros q Hq. apply Iq.
    + intros ->. apply Htn, elem_of_app. by right.
    + intros ->. apply NoDup_app in A6 as (_ & A6 & _). by apply (A6 nearby).
Qed.

Lemma list_at_next st st1 prev t ls fl : same_store pBt st st1 -> list_at st prev ((t, ls) :: fl) -> list_at st1 (Some t) fl.
Proof.
  intros (I & S & T & K) [A1 [A2 A2'] A3 A4 A5 A6 A7]. cbn [fst snd] in A2. rewrite free_pages_cons in A3, A6, A7.
  apply Forall_cons in A7 as [[Hpt Hlet] A7]. apply NoDup_cons in A6 as [Htn A6]. apply Forall_app in A7 as [_ A7].
  split; [cbn; rewrite I; by destruct A2|apply (trunks_frame pBt st); [intros; apply I|done]| |cbn; lia|done| |by rewrite S].
  - intros Hin. apply Htn, elem_of_app. by right.
  - by apply NoDup_app in A6 as (_ & _ & ?).
Qed.

(** Taken out behind a trunk is taken out of the list. *)
Lemma taken_next st st1 st' prev t ls fl x : same_store pBt st st1 -> list_at st prev ((t, ls) :: fl) ->
  taken st1 st' (Some t) fl x -> taken st st' prev ((t, ls) :: fl) x.
Proof.
  intros Same Hat (fl' & Hat' & Hperm & R). pose proof (relinked_same _ _ _ _ _ Same R) as [R1 R2 R3 R4 R5]. cbn [link_page_of link_off default] in *.
  pose proof Hat as [A1 [A2 A2'] A3 A4 A5 A6 A7]. cbn [fst snd] in A2. rewrite free_pages_cons in A3, A6, A7.
  apply not_elem_of_cons in A3 as [Hpt' A3]. apply not_elem_of_app in A3 as [_ A3]. apply NoDup_cons in A6 as [Htn A6].
  assert (link_page_of prev ∉ ls ++ free_pages fl) as Hpn by (intros Hin; apply (la_prev _ _ _ Hat); rewrite free_pages_cons; by right).
  assert (image st' (link_page_of prev) = image st (link_page_of prev)) as Ip by (by apply R2).
  apply (list_at_new st st' prev _ ((t, ls) :: fl') x Hat).
  - rewrite !free_pages_cons, Hperm. rewrite <- Permutation_middle. apply perm_swap.
  - split; [by rewrite Ip|intros q Hq Hn|done..]. rewrite free_pages_cons in Hn. apply not_elem_of_cons in Hn as [Hqt Hn].
    apply not_elem_of_app in Hn as [_ Hn]. by apply R2.
  - by rewrite Ip.
  - split; [|by apply Hat']. cbn. destruct A2 as (_ & G4 & Hk & Hl). split_and!; [apply (la_link _ _ _ Hat')| |done|].
    + by rewrite (get4byte_frame _ _ _ _ _ R1) by lia.
    + intros i p Hp. rewrite (get4byte_frame _ _ _ _ _ R1) by lia. by apply Hl.
Qed.

Lemma search_ok nearby fl : forall st prev fuel, list_at st prev fl -> size_ok pBt st -> unconfused st fl nearby ->
  nearby ∈ free_pages fl -> 0 < nearby < 2 ^ 31 -> (length fl <= fuel)%nat ->
  exists st', alloc_loop pBt rcGet rcWrite stale fuel true nearby prev st = Ret (st', inr nearby) /\ taken st st' prev fl nearby.
Proof.
  induction fl as [|[t ls] fl IH]; intros st prev fuel Hat Hsz Hun Hin Hn Hfuel; [by apply elem_of_nil in Hin|].
  destruct fuel as [|fuel]; [cbn in Hfuel; lia|]. cbn [alloc_loop].
  pose proof Hat as [A1 [A2 A2'] A3 A4 A5 A6 A7]. cbn [fst snd] in A2. rewrite free_pages_cons in A6, A7, Hin.
  apply Forall_cons in A7 as [[Hpt Hlet] A7]. apply Forall_app in A7 as [A7 _]. pose proof (trunk_leaves pBt config _ _ _ A2) as Hk'.
  pose proof (zlen_nonneg ls). destruct A2 as (G0 & G4 & Hk & Hl).
  rewrite (bm_bind _ _ st st (image st (link_page_of prev))) by done. rewrite (bm_lift _ _ _ _ A1). cbn [head_of fst].
  rewrite (bm_bind _ _ _ _ _ (GetPage_ok pBt rcGet rcWrite stale no_fail st t (proj1 Hpt))).
  rewrite (bm_lift _ _ _ (zlen ls)) by (rewrite G4; cbn; by rewrite s32_id by lia).
  rewrite andb_false_r. rewrite (proj2 (Z.ltb_ge (usable / 4 - 8) _)) by done. cbn [andb].
  destruct (Z.eqb_spec nearby t) as [->|Hnt]; [by apply take_trunk_ok|].
  destruct (image_ok pBt st t A5 config) as [Bt Lt].
  destruct (PagerWrite_ok pBt rcGet rcWrite no_fail st t (image st t) A5) as (st1 & E1 & U1); [done..|].
  apply upd_same in U1 as Same. pose proof Same as (I1 & S1 & T1 & K1). rewrite (bm_bind _ _ _ _ _ E1).
  assert (list_at st1 prev ((t, ls) :: fl)) as Hat1.
  { destruct Hat as [? ? ? ? ? ? ?]. split; try done; [by rewrite I1|apply (trunks_frame pBt st); [intros; apply I1|done]|by rewrite S1|by rewrite S1]. }
  assert (size_ok pBt st1) as Hsz1 by (unfold size_ok in *; by rewrite S1).
  destruct (decide (nearby ∈ ls)) as [Hleaf|Hleaf].
  - destruct (search_leaf_ok st1 prev t ls fl nearby Hat1 Hsz1 Hleaf Hn) as (c & st' & Ec & Eg & E & fl' & H1 & H2 & H3). rewrite I1 in Ec, Eg.
    rewrite (bm_lift _ _ _ _ Ec), (bm_lift _ _ _ _ Eg). rewrite Z.eqb_refl, orb_true_r. exists st'. split; [done|].
    exists fl'. split_and!; [done..|]. by eapply relinked_same.
  - destruct (search_passes st t (head_of fl) ls nearby) as (c & x & Ec & Ex & Hx); [by split_and!|done..| |].
    { intros ->. apply Hun; [left|congruence]. }
    rewrite (bm_lift _ _ _ _ Ec), (bm_lift _ _ _ _ Ex). rewrite (proj2 (Z.eqb_neq x nearby)) by done. cbn [negb orb].
    destruct (IH st1 (Some t) fuel) as (st' & E & Ht); [by eapply list_at_next|done| | |done|cbn in Hfuel; lia|].
    { intros t' Ht' Hne. rewrite I1. apply Hun; [by right|done]. }
    { apply elem_of_cons in Hin as [?|Hin]; [done|]. by apply elem_of_app in Hin as [?|?]. }
    exists st'. split; [done|]. by eapply taken_next.
Qed.

(** Page 1 with one page less in the list. *)
Lemma count_down_ok st used fl : db_inv pBt (st, used) fl -> fl <> [] ->
  exists st1 st2, write_page pBt rcWrite 1 st = Ret (st1, inr tt) /\
    modify pBt 1 (fun d => put4byte d 36 (zlen (free_pages fl) - 1)) st1 = Ret (st2, inr tt) /\
    list_at st2 None fl /\ (forall q, q <> 1 -> image st2 q = image st q) /\
    same_outside (image st 1) (image st2 1) 36 40 /\ get4byte (image st2 1) 36 = Ret (zlen (free_pages fl) - 1) /\
    dbSize st2 = dbSize st /\ nTrunc st2 = nTrunc st.
Proof.
  intros (Hst & Hsz & Ht & Hfl & Hu & Hf) Hne. cbn [fst snd] in *. pose proof (free_count pBt st fl Hfl) as Hn.
  pose proof Hfl as [Hcnt Hhead Htr Hnd Hpl].
  assert (0 < zlen (free_pages fl)) as Hpos by (destruct (decide (zlen (free_pages fl) = 0)) as [E|]; [by apply free_pages_nil in E|lia]).
  destruct (write_page_ok pBt rcGet rcWrite no_fail config st 1 Hst (proj1 (proj1 Hsz))) as (st1 & E1 & I1 & S1 & T1 & K1).
  destruct (put_page1_ok pBt config st1 36 (zlen (free_pages fl) - 1) K1) as (st2 & d2 & E2 & U2 & G2 & O2); [lia|unfold is_u32; lia|].
  pose proof U2 as (_ & S2 & T2 & K2). pose proof (upd_self _ _ _ _ _ U2) as I2.
  assert (forall q, q <> 1 -> image st2 q = image st q) as Iq by (intros q Hq; by rewrite (upd_other _ _ _ _ _ _ U2), I1).
  assert (forall q, q ∈ free_pages fl -> q <> 1) as Hq1 by (intros q Hq; rewrite Forall_forall in Hpl; by apply (plain_ne_1 pBt), Hpl).
  rewrite I1 in O2. exists st1, st2. split_and!; [done|done| |done|by rewrite I2|by rewrite I2|congruence|congruence].
  split; cbn [link_page_of link_off default]; [|by apply (trunks_frame pBt st); [intros q Hq; by apply Iq, Hq1|]| | |done|done|].
  - rewrite I2, (get4byte_frame _ _ _ _ _ O2) by lia. by apply Hhead.
  - intros Hin. by apply (Hq1 1).
  - destruct Hsz as [Hsz _]. change (1 <= dbSize st2). lia.
  - by rewrite S2, S1.
Qed.

Lemma alloc_exact_ok st used fl nearby q fuel : (length fl <= fuel)%nat -> db_inv pBt (st, used) fl -> autoVacuum pBt = true -> nearby ∈ free_pages fl ->
  entry_at pBt st nearby PTRMAP_FREEPAGE q -> unconfused st fl nearby ->
  exists st' fl', allocateBtreePage pBt rcGet rcWrite stale fuel nearby true st = Ret (st', inr nearby) /\
    db_inv pBt (st', {[nearby]} ∪ used) fl' /\ (forall q, q ∈ used -> image st' q = image st q) /\
    same_outside (image st 1) (image st' 1) 32 40 /\ dbSize st' = dbSize st.
Proof.
  intros Hfuel Hi Ha Hin He Hun. assert (fl <> []) as Hne by (intros ->; by apply elem_of_nil in Hin).
  destruct (count_down_ok st used fl Hi Hne) as (st1 & st2 & E1 & E2 & Hat & Iq & O2 & G2 & S2 & T2).
  destruct Hi as (Hst & Hsz & Ht & Hfl & Hu & Hf). cbn [fst snd] in *. pose proof (free_count pBt st fl Hfl) as Hn.
  destruct (proj1 (Hf nearby) Hin) as (Hpl & Hle & Hnu). pose proof Hpl as ([Hr _] & H1 & Hm). specialize (Hm Ha).
  assert (forall q, q ∈ free_pages fl -> q <> 1) as Hq1 by (intros r Hr'; by apply (plain_ne_1 pBt), Hf).
  destruct (search_ok nearby fl st2 None fuel Hat) as (st' & E & fl' & Hat' & Hperm & R);
    [by unfold size_ok in *; rewrite S2| |done|unfold PAGER_MAX_PGNO in Hr; lia|done|].
  { intros t Ht' Hnt. rewrite Iq; [by apply Hun|]. by apply Hq1, (trunk_in_list t []). }
  pose proof R as [R1 R2 R3 R4 R5]. cbn [link_page_of link_off default] in R1, R2. destruct Hat' as [B1 B2 B3 B4 B5 B6 B7].
  assert (zlen (free_pages fl) = zlen (free_pages fl') + 1) as Hz by (unfold zlen; rewrite Hperm; cbn; lia).
  assert (forall r, r ∈ free_pages fl <-> r = nearby \/ r ∈ free_pages fl') as Hmem by (intros r; by rewrite Hperm, elem_of_cons).
  assert (nearby ∉ free_pages fl') as Hnn.
  { pose proof (f_nodup _ _ _ Hfl) as Hnd. rewrite Hperm in Hnd. by apply NoDup_cons in Hnd as [? _]. }
  exists st', fl'. split; [|split; [|split; [|split; [|lia]]]].
  - unfold allocateBtreePage. rewrite (bm_bind _ _ st st (image st 1)) by done.
    rewrite (bm_lift _ _ _ (zlen (free_pages fl))) by (rewrite (f_count _ _ _ Hfl); cbn; by rewrite s32_id by lia).
    rewrite (proj2 (Z.ltb_lt 0 _)) by (pose proof (zlen_nonneg (free_pages fl')); lia). rewrite (bm_bind _ _ st st st) by done.
    cbn [andb]. rewrite pagecount_eq by (destruct Hsz as [_ Hsz]; unfold PENDING_BYTE_PAGE in Hsz; lia). rewrite (proj2 (Z.leb_le _ _)) by done.
    rewrite (bm_bind _ _ st st true); [by rewrite (bm_bind _ _ _ _ _ E1), (bm_bind _ _ _ _ _ E2)|].
    rewrite (bm_bind _ _ st st (PTRMAP_FREEPAGE, q)); [done|].
    by rewrite (ptrmapGet_entry pBt rcGet rcWrite stale no_fail st nearby _ _ config Hm He).
  - unfold db_inv. cbn [fst snd]. split_and!; [done|unfold size_ok in *; by rewrite R3, S2|congruence| | |].
    + constructor; [|by intros _|done|done|done]. rewrite (get4byte_frame _ _ _ _ _ R1), G2 by lia. do 2 f_equal. lia.
    + intros r [->%elem_of_singleton|Hr']%elem_of_union; rewrite R3, S2; [done|by apply Hu].
    + intros r. rewrite R3, S2, not_elem_of_union, elem_of_singleton. split.
      * intros Hr'. destruct (proj1 (Hf r)) as (? & ? & ?); [apply Hmem; by right|]. split_and!; try done. by intros ->.
      * intros (Hr1 & Hr2 & Hr3 & Hr4). destruct (proj1 (Hmem r)) as [?|?]; [by apply Hf|done|done].
  - intros r Hr'. assert (r <> 1) by (by apply (plain_ne_1 pBt), Hu). rewrite R2, Iq; [done|done|done|].
    intros Hin'. by apply Hf in Hin' as (_ & _ & ?).
  - eapply same_outside_trans; [eapply same_outside_mono; [exact O2|lia..]|eapply same_outside_mono; [exact R1|lia..]].
Qed.
End exact.

(** C10: [allocateBtreePage] with [exact = 1] returns the page that is asked
    for when it is free, and takes it out of the list, be it a trunk with or
    without leaves or a leaf: afterwards exactly the pages in use and this one
    are in use, and they have the bytes that they had.  The hypothesis is
    that no other trunk without leaves has the number of the page, or that
    number plus 2^31, in the four bytes behind its header, where its first
    leaf would be: the loop takes the first for a leaf ([exact_search_twice]),
    and the distance to the second overflows the int, which is undefined
    ([distance_overflows]). *)
Theorem exact_search_finds pBt rcGet rcWrite stale st used fl nearby q fuel :
  (forall st pgno, rcGet st pgno = SQLITE_OK /\ rcWrite st pgno = SQLITE_OK) ->
  (forall st pgno, bytes_ok (stale st pgno) /\ zlen (stale st pgno) = pageSize pBt) ->
  config_ok pBt -> autoVacuum pBt = true -> db_inv pBt (st, used) fl -> nearby ∈ free_pages fl ->
  entry_at pBt st nearby PTRMAP_FREEPAGE q -> unconfused pBt st fl nearby -> (length fl <= fuel)%nat ->
  exists st' fl', allocateBtreePage pBt rcGet rcWrite stale fuel nearby true st = Ret (st', inr nearby) /\
    db_inv pBt (st', {[nearby]} ∪ used) fl' /\ (forall r, r ∈ used -> image pBt st' r = image pBt st r) /\
    same_outside (image pBt st 1) (image pBt st' 1) 32 40 /\ dbSize st' = dbSize st.
Proof. intros Hnf Hso Hc Ha Hi Hin He Hun Hfuel. by apply (alloc_exact_ok pBt rcGet rcWrite stale Hnf Hc Hso st used fl nearby q fuel). Qed.

(** ** A page that is handed out twice *)

(** An auto-vacuum file of 130 pages, of which page 125 is an interior page of
    a table whose right child is page 124. *)
Definition ex_interior : list Z := [5; 0; 0; 0; 0; 2; 0; 0; 0; 0; 0; 124] ++ replicate 500 0.
Definition ex_big : Store := mkStore {[125 := ex_interior]} 130 0.
Definition ex_used : list Z := seqZ 3 102 ++ seqZ 106 25.

(** The pages that are freed: 120 leaves fill the trunk 3, the last one is
    124; then its parent becomes a trunk. *)
Definition ex_gone : list Z := seqZ 3 102 ++ seqZ 106 20.

Definition rc_ok : Store -> Z -> Z := fun _ _ => 0.
Definition zeros : Store -> Z -> list Z := fun _ _ => ex_zeros.

Fixpoint free_all (l : list Z) : BM unit :=
  match l with
  | [] => mret tt
  | p :: l => freePage ex_auto rc_ok rc_ok zeros p;; free_all l
  end.

(** The store after a run, and whether the run ended as [r]. *)
Definition store_of {A} (m : res (Store * (Z + A))) : Store := match m with Ret (st, _) => st | _ => ex_big end.
Definition ends {A} (tst : Z + A -> bool) (m : res (Store * (Z + A))) : bool := match m with Ret (_, a) => tst a | _ => false end.

Lemma ends_eq {A} (tst : Z + A -> bool) (r : Z + A) m : (forall a, tst a = true -> a = r) -> ends tst m = true -> m = Ret (store_of m, r).
Proof. intros H. destruct m as [[st a]| | |]; cbn; [|done..]. by intros ->%H. Qed.

Definition is_ok (a : Z + unit) : bool := match a with inr _ => true | _ => false end.
Definition is_error (n : Z) (a : Z + unit) : bool := match a with inl c => c =? n | _ => false end.
Definition is_page (n : Z) (a : Z + Z) : bool := match a with inr p => p =? n | _ => false end.

Lemma is_ok_eq a : is_ok a = true -> a = inr tt.
Proof. by destruct a as [|[]]. Qed.
Lemma is_error_eq n a : is_error n a = true -> a = inl n.
Proof. destruct a; [|done]. by intros ->%Z.eqb_eq. Qed.
Lemma is_page_eq n a : is_page n a = true -> a = inr n.
Proof. destruct a; [done|]. by intros ->%Z.eqb_eq. Qed.

Definition ex_now : Store := store_of (free_all ex_gone ex_big).

Lemma free_all_reach l : forall st used st', NoDup l -> (forall p, p ∈ l -> p ∈ used) -> free_all l st = Ret (st', inr tt) ->
  rtc (db_step ex_auto rc_ok rc_ok zeros) (st, used) (st', used ∖ list_to_set l).
Proof.
  induction l as [|p l IH]; intros st used st' Hnd Hu E.
  - injection E as <-. by rewrite list_to_set_nil, difference_empty_L.
  - apply NoDup_cons in Hnd as [Hn Hnd]. cbn [free_all] in E. unfold mbind at 1, BM_bind in E.
    destruct (freePage ex_auto rc_ok rc_ok zeros p st) as [[st1 [rc|[]]]| | |] eqn:E1; try done.
    eapply rtc_l; [apply (step_free _ _ _ _ st used p st1); [apply Hu; left|done]|].
    rewrite list_to_set_cons, <- difference_difference_l_L. apply IH; [done| |done].
    intros q Hq. apply elem_of_difference. split; [apply Hu; by right|]. intros ->%elem_of_singleton. done.
Qed.

Lemma ex_map p : 2 <= p <= 130 -> ptrmapPageno ex_auto p = (p - 2) / 103 * 103 + 2.
Proof.
  intros Hp. rewrite ptrmapPageno_eq by (unfold config_ok, PAGER_MAX_PGNO; cbn; lia). cbv zeta.
  change (usableSize ex_auto / 5 + 1) with 103. change (PENDING_BYTE_PAGE ex_auto) with 2097153.
  rewrite (proj2 (Z.eqb_neq _ 2097153)); [done|]. Z.to_euclidean_division_equations; lia.
Qed.

Lemma ex_big_start : db_start ex_auto (ex_big, list_to_set ex_used).
Proof.
  split_and!; [|split; [vm_compute; split; congruence|vm_compute; congruence]|done|reflexivity|].
  - apply map_Forall_singleton. split; [|reflexivity]. apply Forall_app. split; [|apply Forall_replicate; unfold is_byte; lia].
    repeat constructor; unfold is_byte; lia.
  - intros p. cbn [fst snd dbSize ex_big]. rewrite elem_of_list_to_set. unfold ex_used. rewrite elem_of_app, !elem_of_seqZ.
    unfold plain_page, mapped_page, pgno_ok. change (autoVacuum ex_auto) with true. change (PENDING_BYTE_PAGE ex_auto) with 2097153.
    unfold PAGER_MAX_PGNO. split.
    + intros Hp. rewrite ex_map by lia. split_and!; try lia.
    + intros (([Hp1 Hp2] & Hp3 & Hm) & Hle). destruct (Hm eq_refl) as (_ & Hp4 & Hself). rewrite ex_map in Hself by lia.
      assert (p <> 105) by (intros ->; by apply Hself). lia.
Qed.

(** Of five pages 3 and 4 were freed: a trunk and its leaf. *)
Definition ex_small : Store := store_of (free_all [3; 4] (mkStore ∅ 5 0)).

Lemma ex_plain p : 3 <= p <= 5 -> plain_page ex_auto p.
Proof.
  intros Hp. unfold plain_page, mapped_page, pgno_ok. rewrite ex_map by lia.
  change (PENDING_BYTE_PAGE ex_auto) with 2097153. unfold PAGER_MAX_PGNO. split_and!; try lia.
Qed.

Lemma ex_zeros_bytes : bytes_ok ex_zeros.
Proof. apply Forall_replicate. unfold is_byte. lia. Qed.

Lemma ex_small_inv : db_inv ex_auto (ex_small, {[5]}) [(3, [4])].
Proof.
  assert (forall p, plain_page ex_auto p /\ p <= 5 <-> 3 <= p <= 5) as Hpl.
  { intros p. split; [|intros; split; [by apply ex_plain|lia]]. intros [(_ & _ & Hm) Hle]. destruct (Hm eq_refl) as (_ & ? & _). lia. }
  assert (dbSize ex_small = 5) as HS by reflexivity.
  split_and!; cbn [fst snd]; [|split; [rewrite HS; unfold PAGER_MAX_PGNO; lia|rewrite HS; vm_compute; congruence]|reflexivity| | |].
  - assert (rtc (db_step ex_auto rc_ok rc_ok zeros) (mkStore ∅ 5 0, {[3; 4; 5]}) (ex_small, {[3; 4; 5]} ∖ list_to_set [3; 4])) as Hr.
    { apply free_all_reach; [by apply (bool_decide_unpack _); vm_compute|set_solver+|].
      apply (ends_eq is_ok); [apply is_ok_eq|vm_compute; reflexivity]. }
    destruct (db_reach_inv ex_auto rc_ok rc_ok zeros (fun _ _ => conj eq_refl eq_refl)
      (fun _ _ => conj ex_zeros_bytes eq_refl) ltac:(unfold config_ok; cbn; lia) _ _ [] Hr) as [fl Hi]; [|by destruct Hi].
    apply db_start_inv. split_and!; [apply map_Forall_empty|split; [cbn; unfold PAGER_MAX_PGNO; lia|vm_compute; congruence]|done|reflexivity|].
    intros p. cbn [fst snd dbSize]. rewrite Hpl, !elem_of_union, !elem_of_singleton. lia.
  - constructor; [reflexivity|reflexivity| | |].
    + split; [|done]. split_and!; [reflexivity|reflexivity|vm_compute; congruence|]. intros [|i] p Hp; [injection Hp as <-; reflexivity|by destruct i].
    + cbn. apply NoDup_cons. split; [by intros ?%list_elem_of_singleton|apply NoDup_singleton].
    + change (free_pages [(3, [4])]) with [3; 4]. apply Forall_forall. intros p Hp. rewrite HS.
      assert (p = 3 \/ p = 4) as [->| ->] by (rewrite !elem_of_cons, elem_of_nil in Hp; tauto); (split; [apply ex_plain|]; lia).
  - intros p ->%elem_of_singleton. rewrite HS. clear. split; [apply ex_plain|]; lia.
  - intros p. rewrite HS. clear HS. change (free_pages [(3, [4])]) with [3; 4]. rewrite !elem_of_cons, elem_of_nil, elem_of_singleton.
    specialize (Hpl p). tauto || (split; [intros [->|[->|[]]]; split_and!; try apply ex_plain; lia|intros (H1 & H2 & H3); destruct Hpl as [Hpl _]; specialize (Hpl (conj H1 H2)); lia]).
Qed.

Lemma exact_search_finds_witness : exists st' fl',
  allocateBtreePage ex_auto rc_ok rc_ok zeros 1 4 true ex_small = Ret (st', inr 4) /\
  db_inv ex_auto (st', {[4]} ∪ {[5]}) fl' /\ dbSize st' = 5.
Proof.
  destruct (exact_search_finds ex_auto rc_ok rc_ok zeros ex_small {[5]} [(3, [4])] 4 0 1) as (st' & fl' & E & Hi & _ & _ & HS).
  - done.
  - intros ? ?. split; [apply ex_zeros_bytes|reflexivity].
  - unfold config_ok. cbn. lia.
  - done.
  - apply ex_small_inv.
  - cbn. right. left.
  - split; vm_compute; reflexivity.
  - intros t [=]%list_elem_of_singleton.
  - cbn. lia.
  - exists st', fl'. split_and!; [exact E|exact Hi|exact HS].
Defined.

(** C11: the exact search of 3.5.9 can hand out a page twice.  In an
    auto-vacuum file the right child 124 of the interior page 125 is freed as
    the last leaf of a full trunk, and then page 125, which becomes a trunk
    without leaves and still has 124 in the bytes 8 to 11.  The exact search
    for 124 takes that for a leaf: it returns 124, leaves it in the list and
    makes the number of leaves of page 125 -1.  The next allocation returns
    124 again, and [freePage] fails then. *)
Theorem exact_search_twice : exists s0 st used st1 st2 st3,
  db_start ex_auto s0 /\ rtc (db_step ex_auto rc_ok rc_ok zeros) s0 (st, used) /\ 124 ∉ used /\ 126 ∈ used /\
  ptrmapGet ex_auto rc_ok zeros 124 st = Ret (st, inr (PTRMAP_FREEPAGE, 0)) /\
  allocateBtreePage ex_auto rc_ok rc_ok zeros 2 124 true st = Ret (st1, inr 124) /\
  allocateBtreePage ex_auto rc_ok rc_ok zeros 1 0 false st1 = Ret (st2, inr 124) /\
  freePage ex_auto rc_ok rc_ok zeros 126 st2 = Ret (st3, inl SQLITE_CORRUPT).
Proof.
  set (now := list_to_set ex_used ∖ list_to_set ex_gone : gset Z).
  assert (124 ∉ now /\ 126 ∈ now) as [H124 H126].
  { unfold now. rewrite !elem_of_difference, !elem_of_list_to_set. unfold ex_gone, ex_used. rewrite !elem_of_app, !elem_of_seqZ. lia. }
  set (m1 := allocateBtreePage ex_auto rc_ok rc_ok zeros 2 124 true ex_now).
  set (m2 := allocateBtreePage ex_auto rc_ok rc_ok zeros 1 0 false (store_of m1)).
  exists (ex_big, list_to_set ex_used), ex_now, now, (store_of m1), (store_of m2), (store_of (freePage ex_auto rc_ok rc_ok zeros 126 (store_of m2))).
  split; [apply ex_big_start|]. split.
  { apply free_all_reach; [|intros p; rewrite elem_of_list_to_set; unfold ex_gone, ex_used; rewrite !elem_of_app, !elem_of_seqZ; lia|].
    - apply NoDup_app. split_and!; [apply NoDup_seqZ|intros p; rewrite !elem_of_seqZ; lia|apply NoDup_seqZ].
    - apply (ends_eq is_ok); [apply is_ok_eq|vm_compute; reflexivity]. }
  split; [exact H124|]. split; [exact H126|]. clear H124 H126. split_and!.
  - apply (ptrmapGet_entry ex_auto rc_ok rc_ok zeros (fun _ _ => conj eq_refl eq_refl) ex_now 124 2 0); [unfold config_ok; cbn; lia|split_and!; vm_compute; repeat split; congruence|].
    split; vm_compute; reflexivity.
  - apply (ends_eq (is_page 124)); [apply is_page_eq|vm_compute; reflexivity].
  - apply (ends_eq (is_page 124)); [apply is_page_eq|vm_compute; reflexivity].
  - apply (ends_eq (is_error SQLITE_CORRUPT)); [apply is_error_eq|vm_compute; reflexivity].
Qed.
