(* ===== verification/BtreePayload.v ===== *)
(** * The payload of a cell: overflow pages

    What of a payload does not fit onto the b-tree page is kept in a chain of
    overflow pages.  [fillInCell] writes a cell and its chain, with pages from
    [allocateBtreePage]; [accessPayload] reads a part of a payload;
    [clearCell] frees the chain; [getOverflowPage] finds the next page of a
    chain, in an auto-vacuum file by a guess that the pointer map confirms.

    A cell is given by its bytes and those behind it.  [accessPayload] is
    called to read only ([eOp = 0]), as in every build without incremental
    blobs, and appends what it copies to a buffer of its own. *)

From S2P Require Import Prelude Varint PageBytes BtreePage BtreeParse BtreeStore BtreeFree BtreeFreeList.


Section payload.
Context (pBt : BtShared).
Context (rcGet rcWrite : Store -> Z -> Z) (stale : Store -> Z -> list Z).
Notation usable := (usableSize pBt).
Notation GetPage := (sqlite3BtreeGetPage pBt rcGet stale).
Notation modify := (modify pBt).

(** [while( PTRMAP_ISPAGE(pBt, pgno) || pgno==PENDING_BYTE_PAGE(pBt) ) pgno++;].
    No more than two pages in a row are skipped. *)
Fixpoint skip_map (fuel : nat) (pgno : Z) : res Z :=
  match fuel with
  | O => NoFuel
  | S fuel =>
      if PTRMAP_ISPAGE pBt pgno || (pgno =? PENDING_BYTE_PAGE pBt) then skip_map fuel (u32 (pgno + 1))
      else Ret pgno
  end.

(** The next page of the chain, guessed from the pointer map; 0 when the
    guess is wrong. *)
Definition guess_next (ovfl : Z) : BM Z :=
  iGuess ← lift (skip_map 4 (u32 (ovfl + 1)));
  st ← ask;
  if iGuess <=? sqlite3PagerPagecount pBt st then
    '(eType, pgno) ← ptrmapGet pBt rcGet stale iGuess;
    mret (if (eType =? PTRMAP_OVERFLOW2) && (pgno =? ovfl) then iGuess else 0)
  else mret 0.

(** Which of the two results the caller asks for is told by the flags. *)
Definition getOverflowPage (ovfl : Z) (ppPage pPgnoNext : bool) : BM (option (list Z) * option Z) :=
  lift (c_assert (ppPage || pPgnoNext));;
  if negb pPgnoNext then
    pPage ← GetPage ovfl true; mret (Some pPage, None)
  else
    next ← (if autoVacuum pBt then guess_next ovfl else mret 0);
    if (next =? 0) || ppPage then
      pPage ← GetPage ovfl (negb (next =? 0));
      next ← (if next =? 0 then lift (get4byte pPage 0) else mret next);
      mret (if ppPage then Some pPage else None, Some next)
    else mret (None, Some next).

(** ** Reading *)

(** [copyPayload] with [eOp = 0]. *)
Definition copyPayload (pPayload : list Z) (at_ nByte : Z) : res (list Z) := bytes_at pPayload at_ nByte.

(** [for( ; rc==SQLITE_OK && amt>0 && nextPage; iIdx++){ ... }].  Every round
    makes [offset + amt] smaller. *)
Fixpoint access_loop (fuel : nat) (offset amt nextPage : Z) (pBuf : list Z) : BM (list Z * Z) :=
  match fuel with
  | O => fun _ => NoFuel
  | S fuel =>
      if (0 <? amt) && negb (nextPage =? 0) then
        let ovflSize := usable - 4 in
        if ovflSize <=? offset then
          '(_, next) ← getOverflowPage nextPage false true;
          access_loop fuel (offset - ovflSize) amt (default 0 next) pBuf
        else
          aPayload ← GetPage nextPage false;
          nextPage ← lift (get4byte aPayload 0);
          let a := if ovflSize <? amt + offset then ovflSize - offset else amt in
          b ← lift (copyPayload aPayload (offset + 4) a);
          access_loop fuel 0 (amt - a) nextPage (pBuf ++ b)
      else mret (pBuf, amt)
  end.

(** The bytes that are copied to the buffer. *)
Definition accessPayload (pPage : MemPage) (pCell : list Z) (offset amt : Z) (skipKey : bool) : BM (list Z) :=
  info ← lift (sqlite3BtreeParseCellPtr pBt pPage pCell);
  let aPayload := nHeader info in
  let nKey := if intKey pPage then 0 else u32 (nKey info) in
  let offset := if skipKey then s32 (u32 (offset + nKey)) else offset in
  if 2 ^ 31 <=? offset + amt then (lift UB) else
  if u32 (nKey + nData info) <? u32 (offset + amt) then throw SQLITE_ERROR else
  '(pBuf, offset, amt) ←
    (if offset <? nLocal info then
       let a := if nLocal info <? amt + offset then nLocal info - offset else amt in
       b ← lift (copyPayload pCell (aPayload + offset) a);
       mret (b, 0, amt - a)
     else mret ([], offset - nLocal info, amt));
  '(pBuf, amt) ←
    (if 0 <? amt then
       nextPage ← lift (get4byte pCell (aPayload + nLocal info));
       access_loop (S (Z.to_nat (offset + amt))) offset amt nextPage pBuf
     else mret (pBuf, amt));
  if 0 <? amt then throw SQLITE_CORRUPT else mret pBuf.

(** ** Freeing *)

(** [while( nOvfl-- ){ ... }] *)
Fixpoint clear_chain (nOvfl : nat) (ovflPgno : Z) : BM unit :=
  match nOvfl with
  | O => mret tt
  | S nOvfl =>
      st ← ask;
      if (ovflPgno =? 0) || (sqlite3PagerPagecount pBt st <? ovflPgno) then throw SQLITE_CORRUPT else
      '(_, next) ← getOverflowPage ovflPgno true (negb (bool_decide (nOvfl = O)));
      freePage pBt rcGet rcWrite stale ovflPgno;;
      clear_chain nOvfl (default ovflPgno next)
  end.

Definition clearCell (pPage : MemPage) (pCell : list Z) : BM unit :=
  info ← lift (sqlite3BtreeParseCellPtr pBt pPage pCell);
  if iOverflow info =? 0 then mret tt else
  ovflPgno ← lift (get4byte pCell (iOverflow info));
  let ovflPageSize := usable - 4 in
  if ovflPageSize =? 0 then (lift UB) else
  let nOvfl := s32 (u32 (nPayload info - nLocal info + ovflPageSize - 1) / u32 ovflPageSize) in
  lift (c_assert ((ovflPgno =? 0) || (0 <? nOvfl)));;
  clear_chain (Z.to_nat nOvfl) ovflPgno.

(** ** Writing *)

(** The next piece of the payload: its bytes, what is left of the source and
    [nSrc]. *)
Definition fill_copy (n : Z) (pSrc : list Z) (nSrc : Z) (pData : list Z) (nData : Z) :
    res (Z * list Z * list Z * Z) :=
  '(n, b) ← (if 0 <? nSrc then
               let n := if nSrc <? n then nSrc else n in
               b ← bytes_at pSrc 0 n; Ret (n, b)
             else Ret (n, replicate (Z.to_nat n) 0));
  if nSrc - n =? 0 then Ret (n, b, pData, nData) else Ret (n, b, drop (Z.to_nat n) pSrc, nSrc - n).

(** A new overflow page behind [pgnoOvfl], which is 0 for the first. *)
Definition fill_alloc (pgnoOvfl : Z) : BM Z :=
  let pgnoPtrmap := pgnoOvfl in
  nearby ← (if autoVacuum pBt then lift (skip_map 4 (u32 (pgnoOvfl + 1))) else mret pgnoOvfl);
  p ← allocateBtreePage pBt rcGet rcWrite stale 1 nearby false;
  (if autoVacuum pBt then
     ptrmapPut pBt rcGet rcWrite stale p
       (if negb (pgnoPtrmap =? 0) then PTRMAP_OVERFLOW2 else PTRMAP_OVERFLOW1) pgnoPtrmap
   else mret tt);;
  mret p.

(** [pPayload] points into the buffer [pCell] or into an overflow page; so
    does [pPrior], to [iOverflow] and to 0. *)
Definition write_at (cur : option Z) (pCell : list Z) (a : Z) (b : list Z) : BM (list Z) :=
  match cur with
  | None => lift (copy_to pCell a b)
  | Some p => modify p (fun d => copy_to d a b);; mret pCell
  end.

(** [while( nPayload>0 ){ ... }] *)
Fixpoint fill_loop (fuel : nat) (iOverflow : Z) (pCell : list Z) (cur : option Z) (pos spaceLeft nPayload : Z)
    (pSrc : list Z) (nSrc : Z) (pData : list Z) (nData : Z) (pgnoOvfl : Z) : BM (list Z) :=
  match fuel with
  | O => fun _ => NoFuel
  | S fuel =>
      if 0 <? nPayload then
        '(pCell, cur, pos, spaceLeft, pgnoOvfl) ←
          (if spaceLeft =? 0 then
             p ← fill_alloc pgnoOvfl;
             pCell ← write_at cur pCell (match cur with None => iOverflow | Some _ => 0 end) (sqlite3Put4byte p);
             modify p (fun d => put4byte d 0 0);;
             mret (pCell, Some p, 4, usable - 4, p)
           else mret (pCell, cur, pos, spaceLeft, pgnoOvfl));
        let n := if spaceLeft <? nPayload then spaceLeft else nPayload in
        '(n, b, pSrc, nSrc) ← lift (fill_copy n pSrc nSrc pData nData);
        pCell ← write_at cur pCell pos b;
        fill_loop fuel iOverflow pCell cur (pos + n) (spaceLeft - n) (nPayload - n) pSrc nSrc pData nData pgnoOvfl
      else mret pCell
  end.

(** The cell in the buffer [pCell], and its size. *)
Definition fillInCell (pPage : MemPage) (pCell pKey : list Z) (k : Z) (pData : list Z) (d nZero : Z) : BM (list Z * Z) :=
  '(pCell, h) ← lift (fill_header pPage pCell k d nZero);
  let '(d, nZero) := if hasData pPage then (d, nZero) else (0, 0) in
  info ← lift (sqlite3BtreeParseCellPtr pBt pPage pCell);
  lift (c_assert ((nHeader info =? h) && (nKey info =? k) && (nData info =? d + nZero)));;
  let n := d + nZero in
  let '(pSrc, nSrc, d, n) := if intKey pPage then (pData, d, 0, n) else (pKey, s32 k, d, s32 (n + k)) in
  pCell ← fill_loop (S (Z.to_nat n)) (iOverflow info) pCell None h (nLocal info) n pSrc nSrc pData d 0;
  mret (pCell, nSize info).

End payload.
