(* ===== verification/BtreeChain.v ===== *)
(** * Chains of overflow pages: reading and freeing them

    What the pages of a chain hold ([chain]), what the pointer map says about
    the pages of the file ([ptr_ok]), and that under both [getOverflowPage]
    finds the next page by either of its ways, [accessPayload] reads what the
    chain holds and [clearCell] gives exactly its pages back. *)

From S2P Require Import Prelude Varint PageBytes BtreePage BtreeParse BtreeStore BtreeFree BtreeFreeList BtreePayload.

Section chain.
Context (pBt : BtShared).
Notation usable := (usableSize pBt).
Notation image := (image pBt).
Notation plain := (plain_page pBt).

(** ** What the pointer map says *)

(** The entries of the pages of the file are valid, and the page before an
    overflow page is in use. *)
Definition ptr_ok (st : Store) (used : gset Z) : Prop := autoVacuum pBt = true ->
  forall g, mapped_page pBt g -> g <= dbSize st -> exists t q, entry_at pBt st g t q /\ 1 <= t <= 5 /\
    (t = PTRMAP_OVERFLOW2 -> q ∈ used).

(** Only [next] may be marked as the page behind [p]. *)
Definition linked (st : Store) (p next : Z) : Prop := autoVacuum pBt = true ->
  forall g, mapped_page pBt g -> g <= dbSize st -> entry_at pBt st g PTRMAP_OVERFLOW2 p -> g = next.

Definition next_of (ps : list Z) : Z := default 0 (head ps).

(** The chain [ps] holds the bytes [b]. *)
Fixpoint chain (st : Store) (ps : list Z) (b : list Z) : Prop :=
  match ps with
  | [] => b = []
  | p :: ps => b <> [] /\ plain p /\ get4byte (image st p) 0 = Ret (next_of ps) /\ linked st p (next_of ps) /\
      holds (image st p) 4 (take (Z.to_nat (usable - 4)) b) /\ chain st ps (drop (Z.to_nat (usable - 4)) b)
  end.

(** The store, with the pages in use. *)
Definition db_good (st : Store) (used : gset Z) : Prop :=
  (exists fl, db_inv pBt (st, used) fl) /\ ptr_ok st used /\ dbSize st + 3 <= PAGER_MAX_PGNO.

Lemma entry_unique st g t q t' q' : entry_at pBt st g t q -> entry_at pBt st g t' q' -> t = t' /\ q = q'.
Proof. intros [E1 E2] [E1' E2']. rewrite E1 in E1'. rewrite E2 in E2'. split; congruence. Qed.

Context (rcGet rcWrite : Store -> Z -> Z) (stale : Store -> Z -> list Z).
Notation GetPage := (sqlite3BtreeGetPage pBt rcGet stale).
Context (no_fail : forall st pgno, rcGet st pgno = SQLITE_OK /\ rcWrite st pgno = SQLITE_OK).
Context (config : config_ok pBt).

(** ** Skipping the pages of the pointer map *)

Definition skipped (k : Z) : Prop := PTRMAP_ISPAGE pBt k = true \/ k = PENDING_BYTE_PAGE pBt.

Lemma ispage_apart k : 2 <= k -> k + 2 <= PAGER_MAX_PGNO -> PTRMAP_ISPAGE pBt k = true ->
  PTRMAP_ISPAGE pBt (k + 1) = false /\ PTRMAP_ISPAGE pBt (k + 2) = false.
Proof.
  intros Hk Hm H. unfold PTRMAP_ISPAGE in *. apply Z.eqb_eq in H.
  destruct (ispage_cases pBt config k) as (g & n & Hn & Hr & Hp); [lia|]. rewrite Hp in H by lia.
  destruct (g =? PENDING_BYTE_PAGE pBt); rewrite !Hp by lia; split; apply Z.eqb_neq; lia.
Qed.

Lemma skip_step n k : is_u32 k -> skip_map pBt (S n) k =
  if PTRMAP_ISPAGE pBt k || (k =? PENDING_BYTE_PAGE pBt) then skip_map pBt n (u32 (k + 1)) else Ret k.
Proof. done. Qed.

Lemma skip_map_ok n k : (2 < n)%nat -> 2 <= k -> k + 2 <= PAGER_MAX_PGNO ->
  exists g, skip_map pBt n k = Ret g /\ k <= g <= k + 2 /\ PTRMAP_ISPAGE pBt g = false /\ g <> PENDING_BYTE_PAGE pBt.
Proof.
  intros Hn Hk Hm. destruct n as [|[|[|n]]]; [lia..|]. unfold PAGER_MAX_PGNO in Hm.
  pose proof (ispage_apart k Hk Hm) as H0. set (P := PENDING_BYTE_PAGE pBt).
  assert (PTRMAP_ISPAGE pBt (k + 1) = true -> PTRMAP_ISPAGE pBt (k + 2) = false) as H1.
  { intros H. destruct (decide (PTRMAP_ISPAGE pBt (k + 2) = false)) as [|H2]; [done|]. apply not_false_is_true in H2.
    unfold PTRMAP_ISPAGE in *. apply Z.eqb_eq in H, H2.
    destruct (ispage_cases pBt config (k + 1)) as (g & n' & Hn' & Hr & Hp); [unfold PAGER_MAX_PGNO; lia|].
    unfold PAGER_MAX_PGNO in Hp. rewrite Hp in H by lia. destruct (g =? PENDING_BYTE_PAGE pBt); rewrite Hp in H2 by lia; lia. }
  cbn [skip_map]. fold P. rewrite !(u32_id (k + 1)) by (unfold is_u32; lia).
  rewrite !(u32_id (k + 1 + 1)) by (unfold is_u32; lia).
  destruct (PTRMAP_ISPAGE pBt k || (k =? P)) eqn:E0; [|exists k; apply orb_false_iff in E0 as [? ?]; split_and!; lia || done].
  destruct (PTRMAP_ISPAGE pBt (k + 1) || (k + 1 =? P)) eqn:E1;
    [|exists (k + 1); apply orb_false_iff in E1 as [? ?]; split_and!; lia || done].
  replace (k + 1 + 1) with (k + 2) by lia.
  assert (PTRMAP_ISPAGE pBt (k + 2) = false /\ k + 2 <> P) as [E2 E2'].
  { destruct (PTRMAP_ISPAGE pBt k) eqn:Ek; cbn in E0.
    - destruct (H0 eq_refl) as [E1a E1b]. rewrite E1a in E1. cbn in E1. split; [done|lia].
    - assert (k + 1 =? P = false) as EP by lia. rewrite EP, orb_false_r in E1. split; [by apply H1|lia]. }
  rewrite E2. rewrite (proj2 (Z.eqb_neq _ P)) by done. exists (k + 2). split_and!; lia || done.
Qed.

(** Also from page 1, where [ptrmapPageno] makes no sense. *)
Lemma skip_map_first : exists g, skip_map pBt 4 1 = Ret g /\ 1 <= g <= 4.
Proof.
  rewrite skip_step by (unfold is_u32; lia). change (u32 (1 + 1)) with 2.
  destruct (PTRMAP_ISPAGE pBt 1 || (1 =? PENDING_BYTE_PAGE pBt)); [|exists 1; split; [done|lia]].
  destruct (skip_map_ok 3 2) as (g & E & Hg & _); [lia|lia|unfold PAGER_MAX_PGNO; lia|]. exists g. split; [exact E|lia].
Qed.

(** ** The next page *)

Definition ptr_valid (st : Store) : Prop := autoVacuum pBt = true ->
  forall g, mapped_page pBt g -> g <= dbSize st -> exists t q, entry_at pBt st g t q /\ 1 <= t <= 5.

Definition sizes_ok (st : Store) : Prop := store_ok pBt st /\ size_ok pBt st /\ dbSize st + 3 <= PAGER_MAX_PGNO.

Lemma db_pagecount st : size_ok pBt st -> sqlite3PagerPagecount pBt st = dbSize st.
Proof. intros [_ H]. apply pagecount_eq. unfold PENDING_BYTE_PAGE in H. lia. Qed.

Lemma guess_next_ok st p next : sizes_ok st -> autoVacuum pBt = true -> ptr_valid st -> plain p -> p <= dbSize st ->
  linked st p next ->
  exists x, guess_next pBt rcGet stale p st = Ret (st, inr x) /\ (x = 0 \/ x = next).
Proof.
  intros (Hst & Hsz & Hmax) Ha Hv Hp Hle Hl. pose proof (plain_u32 pBt p Hp). destruct Hp as ([Hpr _] & Hp1 & _).
  destruct (skip_map_ok 4 (p + 1)) as (g & Eg & Hg & Hng & HgP); [lia..|].
  unfold guess_next. rewrite (u32_id (p + 1)) by (unfold is_u32, PAGER_MAX_PGNO in *; lia).
  rewrite (bm_lift _ _ _ _ Eg), (bm_bind _ _ st st st) by done. rewrite db_pagecount by done.
  destruct (Z.leb_spec g (dbSize st)); [|by exists 0; split; [|left]].
  assert (mapped_page pBt g) as Hm.
  { split_and!; [split; lia|lia|]. intros Hself. unfold PTRMAP_ISPAGE in Hng. by rewrite Hself, Z.eqb_refl in Hng. }
  destruct (Hv Ha g Hm ltac:(done)) as (t & q & He & Ht).
  rewrite (bm_bind _ _ st st (t, q)).
  - destruct (Z.eqb_spec t PTRMAP_OVERFLOW2) as [->|]; [|by exists 0; split; [|left]].
    destruct (Z.eqb_spec q p) as [->|]; [|by exists 0; split; [|left]].
    exists g. split; [done|]. right. by apply Hl.
  - rewrite (ptrmapGet_entry pBt rcGet rcWrite stale no_fail st g t q config Hm He).
    by rewrite (proj2 (Z.ltb_ge t 1)), (proj2 (Z.ltb_ge 5 t)) by lia.
Qed.

Lemma getOverflowPage_ok st p next pp : sizes_ok st -> ptr_valid st -> plain p -> p <= dbSize st ->
  linked st p next -> get4byte (image st p) 0 = Ret next ->
  exists d, getOverflowPage pBt rcGet stale p pp true st = Ret (st, inr (d, Some next)).
Proof.
  intros Hs Hv Hp Hle Hl Hn. unfold getOverflowPage. rewrite (bm_lift _ _ _ tt) by (by rewrite orb_true_r). cbn [negb].
  assert (exists x, (if autoVacuum pBt then guess_next pBt rcGet stale p else mret 0) st = Ret (st, inr x) /\ (x = 0 \/ x = next)) as (x & E & Hx).
  { destruct (autoVacuum pBt) eqn:Ha; [by apply guess_next_ok|]. by exists 0; split; [|left]. }
  rewrite (bm_bind _ _ _ _ _ E).
  pose proof (getPage_ok pBt rcGet rcWrite stale no_fail st p (negb (x =? 0)) (proj1 Hp)) as Eg.
  destruct (Z.eqb_spec x 0) as [->|Hx0]; cbn [negb orb] in *.
  - rewrite (bm_bind _ _ _ _ _ Eg), (bm_lift _ _ _ _ Hn). by eexists.
  - destruct Hx as [?| ->]; [done|]. destruct pp; [|by eexists]. rewrite (bm_bind _ _ _ _ _ Eg). by eexists.
Qed.

Lemma ptr_ok_valid st used : ptr_ok st used -> ptr_valid st.
Proof. intros H Ha g Hm Hg. destruct (H Ha g Hm Hg) as (t & q & ? & ? & _). by exists t, q. Qed.

(** ** Reading *)

Lemma take_drop_chunk (b : list Z) n o a : 0 <= o -> o < n -> 0 <= a -> o + a <= zlen b ->
  take (Z.to_nat a) (drop (Z.to_nat o) b) =
  take (Z.to_nat (if n <? a + o then n - o else a)) (drop (Z.to_nat o) (take (Z.to_nat n) b)) ++
  take (Z.to_nat (a - (if n <? a + o then n - o else a))) (drop (Z.to_nat n) b).
Proof.
  intros Ho Hn Ha Hl. unfold zlen in Hl. destruct (Z.ltb_spec n (a + o)).
  - rewrite (take_ge (drop _ (take _ _))) by (rewrite length_drop, length_take; lia).
    rewrite <- (take_drop (Z.to_nat n) b) at 1. rewrite drop_app_le by (rewrite length_take; lia).
    rewrite take_app_ge by (rewrite length_drop, length_take; lia). f_equal. f_equal. rewrite length_drop, length_take. lia.
  - replace (a - a) with 0 by lia. rewrite take_0, app_nil_r. apply list_eq. intros i.
    destruct (decide (i < Z.to_nat a)%nat); [|by rewrite !lookup_take_ge by lia].
    by rewrite !lookup_take_lt, !lookup_drop, lookup_take_lt by lia.
Qed.

Lemma holds_bytes_sub d p c o a : holds d p c -> 0 <= o -> 0 <= a -> o + a <= zlen c ->
  bytes_at d (p + o) a = Ret (take (Z.to_nat a) (drop (Z.to_nat o) c)).
Proof.
  intros (Hp & Hl & Hc) Ho Ha Hoa. destruct (bytes_at_ok d (p + o) a) as (b & -> & Lb & (_ & _ & Hb)); [lia..|].
  f_equal. apply rd_ext; [unfold zlen in *; rewrite length_take, length_drop; lia|].
  rewrite Lb in *. intros i Hi. rewrite <- Hb, rd_take, rd_drop by lia. rewrite <- Z.add_assoc. apply Hc. lia.
Qed.

(** What a chain does not depend on. *)
Lemma chain_pages_le st ps : forall b, chain st ps b -> Forall plain ps.
Proof. induction ps as [|p ps IH]; intros b H; constructor; [apply H|]. destruct H as (_ & _ & _ & _ & _ & H). by eapply IH. Qed.

Lemma next_of_plain st p ps b : chain st (p :: ps) b -> next_of (p :: ps) <> 0.
Proof. intros (_ & Hp & _). destruct Hp as (_ & ? & _). cbn. lia. Qed.

Lemma access_loop_ok st fuel : forall ps b offset amt buf, sizes_ok st -> ptr_valid st ->
  chain st ps b -> Forall (fun p => p <= dbSize st) ps ->
  0 <= offset -> 0 <= amt -> offset + amt <= zlen b -> (Z.to_nat (offset + amt) < fuel)%nat ->
  access_loop pBt rcGet stale fuel offset amt (next_of ps) buf st =
    Ret (st, inr (buf ++ take (Z.to_nat amt) (drop (Z.to_nat offset) b), 0)).
Proof.
  pose proof config as [Hu _].
  induction fuel as [|fuel IH]; intros ps b offset amt buf Hs Hv Hc Hle Ho Ha Hl Hf; [lia|]. cbn [access_loop].
  destruct (Z.ltb_spec 0 amt); cbn [andb]; [|by replace amt with 0 by lia; rewrite take_0, app_nil_r].
  destruct ps as [|p ps]; [cbn in Hc; subst b; change (zlen (@nil Z)) with 0 in Hl; lia|].
  rewrite (proj2 (Z.eqb_neq _ 0)) by (by eapply next_of_plain). cbn [negb next_of head default].
  destruct Hc as (Hne & Hp & Hn & Hlk & Hh & Hc). apply Forall_cons in Hle as [Hlep Hle]. set (sz := usable - 4) in *. cbv zeta. fold sz.
  pose proof (zlen_nonneg b).
  assert (zlen (take (Z.to_nat sz) b) = Z.min sz (zlen b) /\ zlen (drop (Z.to_nat sz) b) = Z.max 0 (zlen b - sz)) as [L1 L2]
    by (unfold zlen; rewrite length_take, length_drop; unfold sz; lia).
  destruct (Z.leb_spec sz offset).
  - destruct (getOverflowPage_ok st p (next_of ps) false Hs Hv Hp Hlep Hlk Hn) as [d E].
    rewrite (bm_bind _ _ _ _ _ E). cbn [default]. rewrite (IH ps (drop (Z.to_nat sz) b)) by (done || lia).
    rewrite drop_drop. by replace (Z.to_nat sz + Z.to_nat (offset - sz))%nat with (Z.to_nat offset) by lia.
  - rewrite (bm_bind _ _ _ _ _ (GetPage_ok pBt rcGet rcWrite stale no_fail st p (proj1 Hp))), (bm_lift _ _ _ _ Hn).
    set (a := if sz <? amt + offset then sz - offset else amt).
    assert (0 < a /\ a <= amt /\ offset + a <= Z.min sz (zlen b) /\ (a < amt -> offset + a = sz)) as (Ha0 & Ha1 & Ha2 & Ha3)
      by (unfold a; destruct (Z.ltb_spec sz (amt + offset)); lia).
    unfold copyPayload. rewrite (bm_lift _ _ _ (take (Z.to_nat a) (drop (Z.to_nat offset) (take (Z.to_nat sz) b))))
      by (rewrite Z.add_comm; by apply holds_bytes_sub; [done|lia..|rewrite L1; lia]).
    rewrite (IH ps (drop (Z.to_nat sz) b)) by (done || lia). rewrite drop_0, <- app_assoc.
    rewrite (take_drop_chunk b sz offset amt) by lia. by fold a.
Qed.

(** ** A cell with its payload *)

(** The cell [pCell], for a page like [p], has the key (or its size) [k], data
    of size [d] and the payload [b], which lies in the cell from [h] on and
    in the chain [ps]. *)
Record cell_holds (st : Store) (p : MemPage) (pCell : list Z) (k d h : Z) (ps b : list Z) : Prop := {
  ch_sane : sane pBt p;
  ch_args : cell_args p k d;
  ch_info : sqlite3BtreeParseCellPtr pBt p pCell = Ret (cell_info pBt p k d h);
  ch_head : 1 <= h;
  ch_size : zlen b = payload p k d;
  ch_local : holds pCell h (take (Z.to_nat (local_size pBt p (zlen b))) b);
  ch_chain : chain st ps (drop (Z.to_nat (local_size pBt p (zlen b))) b);
  ch_link : ps <> [] -> get4byte pCell (h + local_size pBt p (zlen b)) = Ret (next_of ps);
  ch_nodup : NoDup ps;
  ch_file : Forall (fun q => q <= dbSize st) ps;
}.

(** The part of the payload from [offset] on, of the key or of the data. *)
Definition payload_from (p : MemPage) (k offset : Z) (skipKey : bool) : Z :=
  if skipKey then offset + (if intKey p then 0 else k) else offset.

(** The arguments of [accessPayload] behind the header: the offset in the
    payload and its end. *)
Lemma access_args p k d offset skipKey : cell_args p k d -> 0 <= offset ->
  let o := payload_from p k offset skipKey in o < 2 ^ 31 ->
  (if skipKey then s32 (u32 (offset + (if intKey p then 0 else u32 k))) else offset) = o /\ 0 <= o /\
  u32 ((if intKey p then 0 else u32 k) + d) = payload p k d.
Proof.
  intros (Hd & Hk & Hn) Ho o Hl. assert (0 <= d) by (destruct (hasData p); lia). unfold o, payload_from, payload in *.
  assert ((if intKey p then 0 else u32 k) = if intKey p then 0 else k) as -> by (destruct (intKey p); [done|apply u32_id; unfold is_u32; lia]).
  assert (0 <= (if intKey p then 0 else k)) by (destruct (intKey p); lia).
  split_and!; [|destruct skipKey; lia|rewrite u32_id by (unfold is_u32; lia); lia].
  destruct skipKey; [|done]. by rewrite u32_id, s32_id by (unfold is_u32; lia).
Qed.

Lemma accessPayload_ok st p pCell k d h ps b offset amt skipKey : sizes_ok st -> ptr_valid st ->
  cell_holds st p pCell k d h ps b -> 0 <= offset -> 0 <= amt ->
  let o := payload_from p k offset skipKey in
  o + amt <= zlen b ->
  accessPayload pBt rcGet stale p pCell offset amt skipKey st = Ret (st, inr (take (Z.to_nat amt) (drop (Z.to_nat o) b))).
Proof.
  intros Hs Hv [Hsane Hargs Hinfo _ Hsz Hloc Hch Hlink _ Hle] Ho Ha o Hl. pose proof Hargs as (Hd & Hk & Hn).
  assert (0 <= d) as Hd0 by (destruct (hasData p); lia).
  assert (0 <= payload p k d) as Hn0 by (pose proof (zlen_nonneg b); lia).
  destruct (local_size_bounds pBt p (zlen b) Hsane) as [Hlb _]; [lia|].
  set (l := local_size pBt p (zlen b)) in *. destruct Hsane as (_ & Hm & _).
  unfold accessPayload. rewrite (bm_lift _ _ _ _ Hinfo). cbv zeta. unfold cell_info. rewrite <- Hsz.
  cbn [nHeader nKey nData nLocal]. fold l.
  destruct (access_args p k d offset skipKey Hargs Ho) as (Eo & Ho' & Ep); [fold o; lia|]. fold o in Eo, Ho'. rewrite Eo.
  rewrite (proj2 (Z.leb_gt _ (o + amt))) by lia.
  rewrite Ep, <- Hsz.
  rewrite (u32_id (o + amt)) by (unfold is_u32; lia). rewrite (proj2 (Z.ltb_ge _ _)) by lia.
  assert (zlen (take (Z.to_nat l) b) = l /\ zlen (drop (Z.to_nat l) b) = zlen b - l) as [L1 L2]
    by (unfold zlen in *; rewrite length_take, length_drop; lia).
  assert (forall offset amt buf, 0 <= offset -> 0 <= amt -> offset + amt <= zlen b - l ->
    (if 0 <? amt then nextPage ← lift (get4byte pCell (h + l));
       access_loop pBt rcGet stale (S (Z.to_nat (offset + amt))) offset amt nextPage buf else mret (buf, amt)) st =
    Ret (st, inr (buf ++ take (Z.to_nat amt) (drop (Z.to_nat offset) (drop (Z.to_nat l) b)), 0))) as Hrest.
  { intros offset' amt' buf Ho1 Ha1 Hl1. destruct (Z.ltb_spec 0 amt'); [|by replace amt' with 0 by lia; rewrite take_0, app_nil_r].
    assert (ps <> []) as Hne by (intros ->; cbn in Hch; rewrite Hch in L2; change (zlen (@nil Z)) with 0 in L2; lia).
    rewrite (bm_lift _ _ _ _ (Hlink Hne)). apply access_loop_ok; done || lia. }
  destruct (Z.ltb_spec o l).
  - set (a := if l <? amt + o then l - o else amt).
    assert (0 <= a /\ a <= amt /\ o + a <= l /\ (a < amt -> o + a = l)) as (Ha0 & Ha1 & Ha2 & Ha3)
      by (unfold a; destruct (Z.ltb_spec l (amt + o)); lia).
    unfold copyPayload. rewrite (bm_bind _ _ st st (take (Z.to_nat a) (drop (Z.to_nat o) (take (Z.to_nat l) b)), 0, amt - a)).
    + rewrite (bm_bind _ _ _ _ _ (Hrest 0 (amt - a) _ ltac:(lia) ltac:(lia) ltac:(lia))). cbn [Z.ltb Z.compare].
      rewrite drop_0. unfold a. by rewrite <- take_drop_chunk by lia.
    + rewrite (bm_lift _ _ _ (take (Z.to_nat a) (drop (Z.to_nat o) (take (Z.to_nat l) b)))); [done|].
      apply holds_bytes_sub; [done|lia..].
  - rewrite (bm_bind _ _ st st ([], o - l, amt)) by done.
    rewrite (bm_bind _ _ _ _ _ (Hrest (o - l) amt [] ltac:(lia) ltac:(lia) ltac:(lia))). cbn [Z.ltb Z.compare app].
    rewrite drop_drop. by replace (Z.to_nat l + Z.to_nat (o - l))%nat with (Z.to_nat o) by lia.
Qed.

(** Past the end of the payload nothing is read. *)
Lemma accessPayload_end st p pCell k d h ps b offset amt skipKey :
  cell_holds st p pCell k d h ps b -> 0 <= offset -> 0 <= amt ->
  zlen b < payload_from p k offset skipKey + amt < 2 ^ 31 ->
  accessPayload pBt rcGet stale p pCell offset amt skipKey st = Ret (st, inl SQLITE_ERROR).
Proof.
  intros [_ Hargs Hinfo _ Hsz _ _ _ _ _] Ho Ha Hl.
  destruct (access_args p k d offset skipKey Hargs Ho) as (Eo & Ho' & Ep); [lia|].
  unfold accessPayload. rewrite (bm_lift _ _ _ _ Hinfo). cbv zeta. unfold cell_info. cbn [nKey nData].
  rewrite Eo, Ep, <- Hsz. rewrite (proj2 (Z.leb_gt _ _)), (u32_id (_ + amt)), (proj2 (Z.ltb_lt _ _)) by (unfold is_u32; lia). done.
Qed.

(** ** Freeing *)

Fixpoint links (st : Store) (ps : list Z) : Prop :=
  match ps with
  | [] => True
  | p :: ps => plain p /\ get4byte (image st p) 0 = Ret (next_of ps) /\ linked st p (next_of ps) /\ links st ps
  end.

Lemma chain_links st ps : forall b, chain st ps b -> links st ps.
Proof. induction ps as [|p ps IH]; intros b; [done|]. intros (_ & ? & ? & ? & _ & H). split_and!; [done..|by eapply IH]. Qed.

(** An entry that is there now was there before the page was marked. *)
Lemma marked_inv st st' p g t q : store_ok pBt st -> marked pBt p st st' -> autoVacuum pBt = true -> mapped_page pBt g ->
  entry_at pBt st' g t q -> (g = p /\ t = PTRMAP_FREEPAGE /\ q = 0) \/ (g <> p /\ entry_at pBt st g t q).
Proof.
  intros Hst M Ha Hg He. destruct (M Ha) as [Hp Ho]. destruct (decide (g = p)) as [->|Hne].
  - left. by destruct (entry_unique _ _ _ _ _ _ He Hp) as [-> ->].
  - right. split; [done|]. destruct (entry_exists pBt st g config Hst Hg) as (t' & q' & He').
    destruct (entry_unique _ _ _ _ _ _ He (Ho g t' q' Hne Hg He')) as [-> ->]. done.
Qed.

Lemma links_marked st st' p ps : store_ok pBt st -> marked pBt p st st' -> dbSize st' = dbSize st ->
  (forall q, q ∈ ps -> image st' q = image st q) -> links st ps -> links st' ps.
Proof.
  intros Hst M HS. induction ps as [|q ps IH]; [done|]. intros Hi (Hq & Hn & Hl & H). split_and!; [done| | |].
  - by rewrite Hi by left.
  - intros Ha g Hg Hle He. destruct (marked_inv _ _ _ _ _ _ Hst M Ha Hg He) as [(_ & ? & _)|[_ He']]; [done|].
    apply Hl; [done..|lia|done].
  - apply IH; [|done]. intros r Hr. apply Hi. by right.
Qed.

Lemma ptr_valid_marked st st' p : store_ok pBt st -> marked pBt p st st' -> dbSize st' = dbSize st -> ptr_valid st -> ptr_valid st'.
Proof.
  intros Hst M HS Hv Ha g Hg Hle. destruct (M Ha) as [Hp Ho]. destruct (decide (g = p)) as [->|Hne].
  - exists PTRMAP_FREEPAGE, 0. split; [done|unfold PTRMAP_FREEPAGE; lia].
  - rewrite HS in Hle. destruct (Hv Ha g Hg Hle) as (t & q & He & Ht). exists t, q. split; [by apply Ho|done].
Qed.

(** What freeing the pages [ps] does. *)
Record freed (st st' : Store) (used : gset Z) (ps : list Z) : Prop := {
  fr_size : dbSize st' = dbSize st;
  fr_used : forall q, q ∈ used -> q ∉ ps -> image st' q = image st q;
  fr_page1 : same_outside (image st 1) (image st' 1) 32 40;
  fr_free : autoVacuum pBt = true -> forall q, q ∈ ps -> entry_at pBt st' q PTRMAP_FREEPAGE 0;
  fr_other : autoVacuum pBt = true -> forall g t q, g ∉ ps -> mapped_page pBt g -> entry_at pBt st g t q -> entry_at pBt st' g t q;
}.

Lemma clear_chain_ok ps : forall st used fl, db_inv pBt (st, used) fl -> ptr_valid st -> dbSize st + 3 <= PAGER_MAX_PGNO ->
  links st ps -> NoDup ps -> Forall (fun p => p ∈ used) ps ->
  exists st' fl', clear_chain pBt rcGet rcWrite stale (length ps) (next_of ps) st = Ret (st', inr tt) /\
    db_inv pBt (st', used ∖ list_to_set ps) fl' /\ freed st st' used ps.
Proof.
  induction ps as [|p ps IH]; intros st used fl Hi Hv Hmax Hl Hnd Hus.
  { exists st, fl. split; [done|]. split; [by rewrite list_to_set_nil, difference_empty_L|]. split; try done.
    intros _ q Hq. by apply not_elem_of_nil in Hq. }
  destruct Hl as (Hp & Hn & Hlk & Hl). apply NoDup_cons in Hnd as [Hpn Hnd]. apply Forall_cons in Hus as [Hpu Hus].
  pose proof Hi as (Hst & Hsz & _ & _ & Hu & _). cbn [fst snd] in Hst, Hsz, Hu. destruct (Hu p Hpu) as [_ Hle].
  change (next_of (p :: ps)) with p. cbn [length clear_chain]. rewrite (bm_bind _ _ st st st) by done. rewrite db_pagecount by done.
  rewrite (proj2 (Z.eqb_neq p 0)), (proj2 (Z.ltb_ge _ p)) by (destruct Hp as (_ & ? & _); lia). cbn [orb].
  destruct (db_free pBt rcGet rcWrite stale no_fail config st used fl p Hi Hpu) as (st1 & fl1 & E1 & Hi1 & Iq & I1 & S1 & M1).
  pose proof (links_marked st st1 p ps Hst M1 S1) as Hl1.
  destruct (IH st1 (used ∖ {[p]}) fl1) as (st' & fl' & E' & Hi' & F'); [done| | | |done| |].
  { by apply (ptr_valid_marked st st1 p). }
  { by rewrite S1. }
  { apply Hl1; [|done]. intros q Hq. rewrite Forall_forall in Hus. apply Iq; [by apply Hus|]. by intros ->. }
  { rewrite Forall_forall in *. intros q Hq. apply elem_of_difference. split; [by apply Hus|].
    rewrite elem_of_singleton. by intros ->. }
  exists st', fl'. split; [|split].
  - assert (exists d x, getOverflowPage pBt rcGet stale p true (negb (bool_decide (length ps = 0%nat))) st = Ret (st, inr (d, x)) /\
      (ps <> [] -> x = Some (next_of ps))) as (d & x & E & Hx).
    { destruct ps as [|q ps].
      - cbn [length]. rewrite bool_decide_true by done. cbn [negb]. unfold getOverflowPage. rewrite (bm_lift _ _ _ tt) by done. cbn [negb].
        rewrite (bm_bind _ _ _ _ _ (getPage_ok pBt rcGet rcWrite stale no_fail st p true (proj1 Hp))). by eexists _, _.
      - rewrite bool_decide_false by done. cbn [negb].
        destruct (getOverflowPage_ok st p (next_of (q :: ps)) true) as [d E]; [by split_and!|done..|]. by exists d, (Some (next_of (q :: ps))). }
    rewrite (bm_bind _ _ _ _ _ E), (bm_bind _ _ _ _ _ E1). destruct ps as [|q ps]; [by cbn in E' |- *|].
    rewrite Hx by done. exact E'.
  - rewrite list_to_set_cons. by replace (used ∖ ({[p]} ∪ list_to_set ps)) with (used ∖ {[p]} ∖ list_to_set ps) by set_solver.
  - destruct F' as [FS FU F1 FF FO]. split.
    + congruence.
    + intros q Hq Hqn. apply not_elem_of_cons in Hqn as [Hqp Hqn]. rewrite FU by set_solver. by apply Iq.
    + by eapply same_outside_trans.
    + intros Ha q [->|Hq]%elem_of_cons; [|by apply FF]. apply FO; [done|done|by apply Hp|exact (proj1 (M1 Ha))].
    + intros Ha g t q Hg Hgm He. apply not_elem_of_cons in Hg as [Hgp Hg]. apply FO; [done..|]. by apply (M1 Ha).
Qed.

Lemma links_next st ps q : links st ps -> q ∈ ps -> exists next, linked st q next /\ (next = 0 \/ next ∈ ps).
Proof.
  induction ps as [|p ps IH]; [by intros _ ?%elem_of_nil|]. intros (_ & _ & Hl & H) [->|Hq]%elem_of_cons.
  - exists (next_of ps). split; [done|]. destruct ps; [by left|]. right. right. left.
  - destruct (IH H Hq) as (next & ? & [?|?]); exists next; (split; [done|]); [by left|by right; right].
Qed.

Lemma freed_ptr_ok st st' used ps : store_ok pBt st -> ptr_ok st used -> links st ps -> freed st st' used ps ->
  ptr_ok st' (used ∖ list_to_set ps).
Proof.
  intros Hst Hp Hl [FS FU F1 FF FO] Ha g Hg Hle. destruct (decide (g ∈ ps)) as [Hin|Hnin].
  - exists PTRMAP_FREEPAGE, 0. split; [by apply FF|]. unfold PTRMAP_FREEPAGE, PTRMAP_OVERFLOW2. lia.
  - rewrite FS in Hle. destruct (Hp Ha g Hg Hle) as (t & q & He & Ht & Hq). exists t, q. split; [by apply FO|]. split; [done|].
    intros ->. specialize (Hq eq_refl). apply elem_of_difference. split; [done|]. intros Hqp%elem_of_list_to_set.
    destruct (links_next st ps q Hl Hqp) as (next & Hn & Hnext). pose proof (Hn Ha g Hg Hle He) as ->.
    destruct Hnext as [->|?]; [|done]. destruct Hg as ([? _] & _). lia.
Qed.

Lemma chain_length st ps : forall b, chain st ps b -> Z.of_nat (length ps) = (zlen b + (usable - 4) - 1) / (usable - 4).
Proof.
  pose proof config as [Hu _]. set (sz := usable - 4). induction ps as [|p ps IH]; intros b; cbn [chain length].
  - intros ->. change (zlen (@nil Z)) with 0. rewrite Z.div_small; lia.
  - intros (Hne & _ & _ & _ & _ & H). fold sz in H. apply IH in H.
    assert (0 < zlen b) as Hb by (destruct b; [done|]; rewrite zlen_cons; pose proof (zlen_nonneg b); lia).
    assert (zlen (drop (Z.to_nat sz) b) = Z.max 0 (zlen b - sz)) as L by (unfold zlen; rewrite length_drop; unfold sz; lia).
    rewrite L in H. rewrite Nat2Z.inj_succ, H. destruct (Z.max_spec 0 (zlen b - sz)) as [[? ->]|[? ->]].
    + replace (zlen b + sz - 1) with (zlen b - sz + sz - 1 + 1 * sz) by lia. rewrite Z.div_add by lia. done.
    + rewrite (Z.div_small (0 + sz - 1)) by lia. apply Z.div_unique with (zlen b - 1); lia.
Qed.

Lemma clearCell_ok st used p pCell k d h ps b : db_good st used -> cell_holds st p pCell k d h ps b -> Forall (fun q => q ∈ used) ps ->
  exists st', clearCell pBt rcGet rcWrite stale p pCell st = Ret (st', inr tt) /\ db_good st' (used ∖ list_to_set ps) /\
    freed st st' used ps.
Proof.
  intros ((fl & Hi) & Hptr & Hmax) [Hsane Hargs Hinfo Hh Hsz Hloc Hch Hlink Hnd Hle] Hus. pose proof config as [Hu Hps].
  pose proof (chain_length _ _ _ Hch) as Hlen. pose proof (zlen_nonneg b) as Hb0.
  destruct (local_size_bounds pBt p (zlen b) Hsane) as [Hlb _]; [lia|]. set (l := local_size pBt p (zlen b)) in *.
  pose proof Hsane as (_ & Hm & _).
  assert (zlen (drop (Z.to_nat l) b) = zlen b - l) as L by (unfold zlen; rewrite length_drop; unfold zlen in *; lia).
  rewrite L in Hlen. pose proof Hargs as (_ & _ & Hn). rewrite <- Hsz in Hn.
  destruct (clear_chain_ok ps st used fl Hi (ptr_ok_valid _ _ Hptr) Hmax (chain_links _ _ _ Hch) Hnd Hus) as (st' & fl' & E & Hi' & F).
  exists st'. split; [|split; [|done]].
  - unfold clearCell. rewrite (bm_lift _ _ _ _ Hinfo). unfold cell_info. rewrite <- Hsz. cbn [iOverflow nPayload nLocal].
    fold l. destruct (Z.leb_spec (zlen b) (maxLocal p)) as [Hfit|Hbig].
    + assert (l = zlen b) as El by (unfold l, local_size; by rewrite (proj2 (Z.leb_le _ _))).
      rewrite El, Z.sub_diag, Z.div_small in Hlen by lia. destruct ps; [done|cbn in Hlen; lia].
    + destruct ps as [|q ps]; [exfalso; cbn in Hch; rewrite Hch in L; change (zlen (@nil Z)) with 0 in L; lia|].
      rewrite (proj2 (Z.eqb_neq (h + l) 0)) by lia.
      rewrite (bm_lift _ _ _ _ (Hlink ltac:(done))). rewrite (proj2 (Z.eqb_neq _ 0)) by lia.
      assert (s32 (u32 (zlen b - l + (usable - 4) - 1) / u32 (usable - 4)) = Z.of_nat (length (q :: ps))) as ->.
      { rewrite !u32_id by (unfold is_u32; lia). rewrite <- Hlen. apply s32_id.
        assert (Z.of_nat (length (q :: ps)) <= 2 ^ 30) by (rewrite Hlen; apply Z.div_le_upper_bound; lia). lia. }
      rewrite (bm_lift _ _ _ tt) by (rewrite (proj2 (Z.ltb_lt 0 _)) by (cbn; lia); by rewrite orb_true_r).
      by rewrite Nat2Z.id.
  - split; [by exists fl'|]. destruct F as [FS FU F1 FF FO]. split; [|by rewrite FS].
    apply (freed_ptr_ok st); [by destruct Hi|done|by eapply chain_links|done].
Qed.

End chain.
