(* ===== verification/BtreeFill.v ===== *)
(** * Chains of overflow pages: writing them

    [fillInCell] writes the header of a cell, the local part of its payload
    and as many overflow pages as the rest needs, and the cell then holds the
    payload ([cell_holds]).  Together with [BtreeChain]: what is written is
    read back, and freeing the chain leaves the file with the pages in use
    that it had. *)

From S2P Require Import Prelude Varint PageBytes BtreePage BtreeParse BtreeStore BtreeFree BtreeFreeList BtreePayload BtreeChain.

Section fill.
Context (pBt : BtShared).
Notation usable := (usableSize pBt).
Notation image := (image pBt).
Notation plain := (plain_page pBt).
Notation entry_at := (entry_at pBt).
Notation mapped_page := (mapped_page pBt).
Context (rcGet rcWrite : Store -> Z -> Z) (stale : Store -> Z -> list Z).
Context (no_fail : forall st pgno, rcGet st pgno = SQLITE_OK /\ rcWrite st pgno = SQLITE_OK).
Context (stale_ok : forall st pgno, bytes_ok (stale st pgno) /\ zlen (stale st pgno) = pageSize pBt).
Context (config : config_ok pBt).

(** ** The source *)

(** [rest] is still to be written: what is left of the source, and zeros. *)
Definition src_left (pSrc : list Z) (nSrc : Z) (rest : list Z) : Prop :=
  (0 < nSrc /\ nSrc = zlen pSrc /\ exists nz, rest = pSrc ++ replicate nz 0) \/
  (nSrc <= 0 /\ exists nz, rest = replicate nz 0).

Lemma fill_copy_ok n pSrc nSrc pData rest : 0 < n -> n <= zlen rest -> src_left pSrc nSrc rest ->
  exists m pSrc' nSrc', fill_copy n pSrc nSrc pData 0 = Ret (m, take (Z.to_nat m) rest, pSrc', nSrc') /\ 0 < m <= n /\
    src_left pSrc' nSrc' (drop (Z.to_nat m) rest).
Proof.
  intros Hn Hl [(Hs & -> & nz & ->)|(Hs & nz & ->)]; unfold fill_copy.
  - rewrite (proj2 (Z.ltb_lt 0 _)) by done. set (m := if zlen pSrc <? n then zlen pSrc else n).
    assert (0 < m /\ m <= n /\ m <= zlen pSrc) as (Hm0 & Hm1 & Hm2) by (unfold m; destruct (Z.ltb_spec (zlen pSrc) n); lia).
    change (bytes_at pSrc 0 m) with (bytes_at pSrc (0 + 0) m).
    rewrite (holds_bytes_sub pSrc 0 pSrc 0 m) by (lia || apply holds_self). crun. rewrite drop_0.
    assert (take (Z.to_nat m) (pSrc ++ replicate nz 0) = take (Z.to_nat m) pSrc) as Et by (apply take_app_le; unfold zlen in *; lia).
    assert (drop (Z.to_nat m) (pSrc ++ replicate nz 0) = drop (Z.to_nat m) pSrc ++ replicate nz 0) as Ed
      by (apply drop_app_le; unfold zlen in *; lia).
    destruct (Z.eqb_spec (zlen pSrc - m) 0).
    + exists m, pData, 0. rewrite Et, Ed. split_and!; [done|lia..|]. right. split; [done|]. exists nz.
      by rewrite drop_ge by (unfold zlen in *; lia).
    + exists m, (drop (Z.to_nat m) pSrc), (zlen pSrc - m). rewrite Et, Ed. split_and!; [done|lia..|]. left.
      split_and!; [lia|unfold zlen in *; rewrite length_drop; lia|by exists nz].
  - rewrite (proj2 (Z.ltb_ge 0 nSrc)) by done. crun. rewrite (proj2 (Z.eqb_neq _ 0)) by lia.
    rewrite zlen_replicate in Hl. exists n, (drop (Z.to_nat n) pSrc), (nSrc - n). rewrite take_replicate, drop_replicate.
    rewrite Nat.min_l by lia. split_and!; [done|lia..|]. right. split; [lia|]. by eexists.
Qed.

(** ** A new page *)

Lemma in_new (used : gset Z) (p : Z) : p ∈ {[p]} ∪ used.
Proof. apply elem_of_union. left. by apply elem_of_singleton. Qed.

Lemma in_old (used : gset Z) (p q : Z) : q ∈ used -> q ∈ {[p]} ∪ used.
Proof. intros. apply elem_of_union. by right. Qed.

Record alloced (st st' : Store) (used : gset Z) (prev p : Z) : Prop := {
  al_plain : plain p;
  al_new : p ∉ used;
  al_file : p <= dbSize st';
  al_size : dbSize st <= dbSize st' <= dbSize st + 4;
  al_used : forall q, q ∈ used -> image st' q = image st q;
  al_page1 : same_outside (image st 1) (image st' 1) 32 40;
  al_ptr : ptr_ok pBt st' ({[p]} ∪ used);
  al_entry : autoVacuum pBt = true -> exists t, entry_at st' p t prev;
  al_inv : autoVacuum pBt = true -> forall g t q, mapped_page g -> g <= dbSize st' -> g <> p -> entry_at st' g t q ->
    g <= dbSize st /\ entry_at st g t q;
}.

Lemma nearby_ok st prev : (prev = 0 \/ (plain prev /\ prev <= dbSize st)) -> dbSize st + 3 <= PAGER_MAX_PGNO ->
  exists nearby, (if autoVacuum pBt then lift (skip_map pBt 4 (u32 (prev + 1))) else mret prev) st = Ret (st, inr nearby) /\
    0 <= nearby < 2 ^ 31.
Proof.
  intros Hp Hmax. unfold PAGER_MAX_PGNO in Hmax.
  assert (0 <= prev < 2 ^ 31) as Hpr by (destruct Hp as [->|[(_ & ? & _) ?]]; lia).
  destruct (autoVacuum pBt); [|by exists prev]. destruct Hp as [->|[(_ & Hp & _) Hle]].
  - destruct (skip_map_first pBt config) as (g & E & Hg). exists g. split; [|lia].
    change (u32 (0 + 1)) with 1. unfold lift. by rewrite E.
  - destruct (skip_map_ok pBt config 4 (prev + 1)) as (g & E & Hg & _); [lia|lia|unfold PAGER_MAX_PGNO; lia|].
    exists g. split; [|lia]. unfold lift. by rewrite u32_id, E by (unfold is_u32; lia).
Qed.

(** An entry that is there after [ptrmapPut] and another. *)
Lemma entry_back st st' p g t q : store_ok pBt st -> entries_but pBt p st st' -> mapped_page g -> g <> p ->
  entry_at st' g t q -> entry_at st g t q.
Proof.
  intros Hst Ho Hg Hne He. destruct (entry_exists pBt st g config Hst Hg) as (t' & q' & He').
  by destruct (entry_unique _ _ _ _ _ _ _ He (Ho g t' q' Hne Hg He')) as [-> ->].
Qed.

Lemma fill_alloc_ok st used fl prev : db_inv pBt (st, used) fl -> ptr_ok pBt st used -> dbSize st + 3 <= PAGER_MAX_PGNO ->
  (prev = 0 \/ prev ∈ used) ->
  exists st' p fl', fill_alloc pBt rcGet rcWrite stale prev st = Ret (st', inr p) /\
    db_inv pBt (st', {[p]} ∪ used) fl' /\ alloced st st' used prev p.
Proof.
  intros Hi Hptr Hmax Hprev. pose proof Hi as (Hst & Hsz & _ & _ & Hu & Hf). cbn [fst snd] in Hst, Hsz, Hu, Hf.
  destruct (nearby_ok st prev) as (nearby & En & Hn); [destruct Hprev; [by left|right; by apply Hu]|done|].
  destruct (db_alloc pBt rcGet rcWrite stale no_fail stale_ok config st used fl nearby 0 Hi Hn Hmax)
    as (st1 & p & fl1 & E1 & Hi1 & Hp & Hpu & Iq & I1 & Im & HS & Hnew & _).
  pose proof Hi1 as (Hst1 & _ & _ & _ & Hu1 & Hf1). cbn [fst snd] in Hst1, Hu1, Hf1.
  assert (p <= dbSize st1) as Hple by apply Hu1, in_new.
  assert (autoVacuum pBt = true -> forall g t q, mapped_page g -> entry_at st1 g t q <-> entry_at st g t q) as He1.
  { intros Ha g t q Hg. destruct (map_not_plain pBt config g Ha Hg). split; apply entry_ext; [symmetry|]; by apply Im. }
  unfold fill_alloc. cbv zeta. rewrite (bm_bind _ _ _ _ _ En), (bm_bind _ _ _ _ _ E1).
  destruct (autoVacuum pBt) eqn:Ha.
  - assert (mapped_page p) as Hm by (by apply Hp). destruct (ptrmap_slot pBt p config Hm) as (_ & Hlt & _).
    set (t := if negb (prev =? 0) then PTRMAP_OVERFLOW2 else PTRMAP_OVERFLOW1).
    assert (3 <= t <= 4 /\ (t = PTRMAP_OVERFLOW2 -> prev <> 0)) as [Ht Ht0]
      by (unfold t, PTRMAP_OVERFLOW1, PTRMAP_OVERFLOW2; destruct (Z.eqb_spec prev 0); cbn; lia).
    destruct (ptrmapPut_ok pBt rcGet rcWrite stale no_fail st1 p t prev config Hst1 Hm)
      as (st2 & E2 & Hst2 & Hent & Hoth & Hi2 & Hsz2 & HT2).
    { unfold is_byte. lia. }
    { destruct Hprev as [->|?]; [unfold is_u32; lia|by apply (plain_u32 pBt), Hu]. }
    rewrite (bm_bind _ _ _ _ _ E2). specialize (Hsz2 ltac:(lia)).
    assert (forall q, plain q \/ q = 1 -> image st2 q = image st1 q) as Iq2.
    { intros q Hq. apply Hi2. intros ->. destruct (map_not_plain pBt config p Ha Hm). by destruct Hq. }
    exists st2, p, fl1. split; [done|]. split.
    { apply (db_inv_frame pBt st1); try done; [|by rewrite Iq2 by auto..]. intros q Hq. apply Iq2. left. by apply Hf1. }
    split; try done; [by rewrite Hsz2|by rewrite Hsz2| | | |by intros _; exists t|].
    + intros q Hq. rewrite Iq2; [by apply Iq|]. left. by apply Hu.
    + by rewrite Iq2 by auto.
    + intros _ g Hg Hle. rewrite Hsz2 in Hle. destruct (decide (g = p)) as [->|Hne].
      * exists t, prev. split; [done|]. split; [lia|]. intros Et%Ht0. destruct Hprev as [?|?]; [done|by apply in_old].
      * destruct (Hnew g) as [?|Hle']; [split_and!; [apply Hg|destruct Hg; lia|done]|done|done|].
        destruct (Hptr Ha g Hg Hle') as (t' & q & He & Hr & Hq). exists t', q. split; [apply Hoth; [done..|by apply He1]|].
        split; [done|]. intros Et. by apply in_old, Hq.
    + intros _ g t' q Hg Hle Hne He. rewrite Hsz2 in Hle.
      destruct (Hnew g) as [?|Hle']; [split_and!; [apply Hg|destruct Hg; lia|done]|done|done|]. split; [done|].
      apply He1; [done..|]. apply (entry_back st1 st2 p); done.
  - rewrite (bm_bind _ _ st1 st1 tt) by done. exists st1, p, fl1. split; [done|]. split; [done|].
    split; try done; unfold ptr_ok; rewrite Ha; done.
Qed.

(** ** Writing into the cell or into a page *)

(** The bytes that [pPayload] points into. *)
Definition area (st : Store) (cell : list Z) (cur : option Z) : list Z :=
  match cur with None => cell | Some p => image st p end.

Definition cur_ok (st : Store) (used : gset Z) (cell : list Z) (cur : option Z) : Prop :=
  bytes_ok (area st cell cur) /\ forall p, cur = Some p -> p ∈ used.

Record touched (st st' : Store) (cell cell' : list Z) (cur : option Z) : Prop := {
  to_pages : forall q, cur <> Some q -> image st' q = image st q;
  to_cell : cur <> None -> cell' = cell;
  to_size : dbSize st' = dbSize st;
}.

Lemma modify_used_ok st used fl p a b : db_inv pBt (st, used) fl -> p ∈ used -> bytes_ok b -> 0 <= a -> a + zlen b <= pageSize pBt ->
  exists st', modify pBt p (fun d => copy_to d a b) st = Ret (st', inr tt) /\ db_inv pBt (st', used) fl /\
    (forall q, q <> p -> image st' q = image st q) /\ dbSize st' = dbSize st /\
    holds (image st' p) a b /\ same_outside (image st p) (image st' p) a (a + zlen b).
Proof.
  intros Hi Hp Hb Ha Hl. pose proof Hi as (Hst & _). cbn in Hst. destruct (image_ok pBt st p Hst config) as [Hd Ld].
  destruct (copy_to_ok b (image st p) a) as (d & Ed & Hh & Bd & Od); [done..|lia|].
  destruct (modify_ok pBt st p (fun d => copy_to d a b) d Hst Ed Bd) as (st' & E & U); [destruct Od; lia|].
  exists st'. split; [done|]. split; [eapply db_upd; [done| |exact U]; by left|].
  rewrite (upd_self _ _ _ _ _ U). split_and!; [|by destruct U as (_ & ? & _)|done..].
  intros q Hq. by apply (upd_other _ _ _ _ _ _ U).
Qed.

Lemma area_ok st used fl cell cur : db_inv pBt (st, used) fl -> cur_ok st used cell cur ->
  cur <> None -> bytes_ok (area st cell cur) /\ zlen (area st cell cur) = pageSize pBt.
Proof. intros (Hst & _) _ Hc. destruct cur; [|done]. by apply image_ok. Qed.

Lemma write_at_ok st used fl cell cur a b : db_inv pBt (st, used) fl -> cur_ok st used cell cur -> bytes_ok b ->
  0 <= a -> a + zlen b <= zlen (area st cell cur) ->
  exists st' cell', write_at pBt cur cell a b st = Ret (st', inr cell') /\ db_inv pBt (st', used) fl /\
    touched st st' cell cell' cur /\ cur_ok st' used cell' cur /\ holds (area st' cell' cur) a b /\
    same_outside (area st cell cur) (area st' cell' cur) a (a + zlen b).
Proof.
  intros Hi [Hd Hc] Hb Ha Hl. destruct cur as [p|]; cbn [area write_at] in *.
  - destruct (image_ok pBt st p (proj1 Hi) config) as [_ L]. rewrite L in Hl.
    destruct (modify_used_ok st used fl p a b Hi (Hc p eq_refl) Hb Ha Hl) as (st' & E & Hi' & Iq & S & Hh & O).
    exists st', cell. rewrite (bm_bind _ _ _ _ _ E). split_and!; try done.
    + split; [|done|done]. intros q Hq. apply Iq. congruence.
    + split; [|done]. by apply image_ok, config; destruct Hi'.
  - destruct (copy_to_ok b cell a) as (d & Ed & Hh & Bd & Od); [done..|]. exists st, d.
    unfold lift. rewrite Ed. split_and!; done.
Qed.

(** The pointer map is as it was. *)
Lemma touched_entry st st' used fl cell cell' cur g t q : db_inv pBt (st, used) fl -> cur_ok st used cell cur ->
  touched st st' cell cell' cur -> autoVacuum pBt = true -> mapped_page g -> entry_at st' g t q <-> entry_at st g t q.
Proof.
  intros (_ & _ & _ & _ & Hu & _) [_ Hc] [Ip _ _] Ha Hg. cbn in Hu. destruct (map_not_plain pBt config g Ha Hg) as [_ Hn].
  assert (image st' (ptrmapPageno pBt g) = image st (ptrmapPageno pBt g)) as E.
  { apply Ip. intros Ec. by apply Hn, Hu, Hc. }
  split; by apply entry_ext.
Qed.

Lemma touched_ptr_ok st st' used fl cell cell' cur : db_inv pBt (st, used) fl -> cur_ok st used cell cur ->
  touched st st' cell cell' cur -> ptr_ok pBt st used -> ptr_ok pBt st' used.
Proof.
  intros Hi Hc Ht Hp Ha g Hg Hle. rewrite (to_size _ _ _ _ _ Ht) in Hle. destruct (Hp Ha g Hg Hle) as (t & q & He & H).
  exists t, q. split; [|done]. by apply (touched_entry st st' used fl cell cell' cur).
Qed.

(** ** The loop *)

Definition link_at (iOverflow : Z) (cur : option Z) : Z := match cur with None => iOverflow | Some _ => 0 end.

(** The overflow pages that [n] bytes need. *)
Definition npages (n : Z) : Z := (Z.max 0 n + (usable - 4) - 1) / (usable - 4).

Lemma npages_step n : 0 < n -> npages n = npages (n - (usable - 4)) + 1.
Proof.
  intros Hn. pose proof config as [Hu _]. unfold npages. rewrite Z.max_r by lia.
  destruct (Z.max_spec 0 (n - (usable - 4))) as [[? ->]|[? ->]].
  - replace (n + (usable - 4) - 1) with (n - (usable - 4) + (usable - 4) - 1 + 1 * (usable - 4)) by lia. by rewrite Z.div_add by lia.
  - rewrite (Z.div_small (0 + (usable - 4) - 1)) by lia. symmetry. apply Z.div_unique with (n - 1); lia.
Qed.

Lemma npages_nonneg n : 0 <= npages n.
Proof. pose proof config as [Hu _]. apply Z.div_pos; lia. Qed.

(** The bytes [rest] are to be written from [pos] on, where [space] bytes are
    free. *)
Record ready (st : Store) (used : gset Z) (cell : list Z) (cur : option Z) (pos space iO : Z) (rest : list Z) : Prop := {
  re_ptr : ptr_ok pBt st used;
  re_cur : cur_ok st used cell cur;
  re_pos : 0 <= pos /\ 0 <= space /\ pos + space <= zlen (area st cell cur);
  re_link : space < zlen rest -> let a := link_at iO cur in
    0 <= a /\ a + 4 <= zlen (area st cell cur) /\ (a + 4 <= pos \/ pos + space <= a);
  re_fresh : forall p, cur = Some p -> autoVacuum pBt = true -> forall g, mapped_page g -> g <= dbSize st ->
    entry_at st g PTRMAP_OVERFLOW2 p -> False;
  re_room : dbSize st + 4 * npages (zlen rest - space) + 3 <= PAGER_MAX_PGNO;
  re_bytes : bytes_ok rest;
}.

(** They were written, with the new pages [ps]. *)
Record filled (st st' : Store) (used : gset Z) (cell cell' : list Z) (cur : option Z) (pos space iO : Z) (rest ps : list Z) : Prop := {
  fi_ptr : ptr_ok pBt st' (list_to_set ps ∪ used);
  fi_nodup : NoDup ps;
  fi_new : forall q, q ∈ ps -> q ∉ used;
  fi_cur : cur_ok st' used cell' cur;
  fi_len : zlen (area st' cell' cur) = zlen (area st cell cur);
  fi_holds : holds (area st' cell' cur) pos (take (Z.to_nat space) rest);
  fi_frame : forall i, i < pos \/ pos + space <= i -> ps = [] \/ i < link_at iO cur \/ link_at iO cur + 4 <= i ->
    rd (area st' cell' cur) i = rd (area st cell cur) i;
  fi_link : ps <> [] -> get4byte (area st' cell' cur) (link_at iO cur) = Ret (next_of ps);
  fi_chain : chain pBt st' ps (drop (Z.to_nat space) rest);
  fi_used : forall q, q ∈ used -> cur <> Some q -> image st' q = image st q;
  fi_cell : cur <> None -> cell' = cell;
  fi_page1 : same_outside (image st 1) (image st' 1) 32 40;
  fi_linked : forall p, cur = Some p -> linked pBt st' p (next_of ps);
  fi_inv : autoVacuum pBt = true -> forall q, q ∈ used -> cur <> Some q -> forall g, mapped_page g -> g <= dbSize st' ->
    entry_at st' g PTRMAP_OVERFLOW2 q -> g <= dbSize st /\ entry_at st g PTRMAP_OVERFLOW2 q;
  fi_size : dbSize st <= dbSize st' <= dbSize st + 4 * npages (zlen rest - space);
  fi_file : Forall (fun p => p <= dbSize st') ps;
}.

Lemma filled_done st used cell cur pos space iO : ready st used cell cur pos space iO [] ->
  filled st st used cell cell cur pos space iO [] [].
Proof.
  intros [Hptr Hc Hp _ Hf _ _]. split; try done.
  - by rewrite list_to_set_nil, union_empty_l_L.
  - constructor.
  - by intros q ?%elem_of_nil.
  - rewrite take_nil. split_and!; [lia|change (zlen (@nil Z)) with 0; lia|]. change (zlen (@nil Z)) with 0. lia.
  - cbn. by rewrite drop_nil.
  - intros p Ep Ha g Hg Hle He. by destruct (Hf p Ep Ha g Hg Hle He).
  - pose proof (npages_nonneg (zlen (@nil Z) - space)). lia.
Qed.

(** A piece of [m] bytes is written. *)
Lemma write_ready st used fl cell cur pos space iO rest m : db_inv pBt (st, used) fl ->
  ready st used cell cur pos space iO rest -> 0 < m -> m <= space -> m <= zlen rest ->
  exists st1 cell1, write_at pBt cur cell pos (take (Z.to_nat m) rest) st = Ret (st1, inr cell1) /\
    db_inv pBt (st1, used) fl /\ ready st1 used cell1 cur (pos + m) (space - m) iO (drop (Z.to_nat m) rest) /\
    forall st' cell' ps, filled st1 st' used cell1 cell' cur (pos + m) (space - m) iO (drop (Z.to_nat m) rest) ps ->
      filled st st' used cell cell' cur pos space iO rest ps.
Proof.
  intros Hi [Hptr Hc Hp Hl Hf Hr Hb] Hm0 Hm1 Hm2.
  assert (zlen (take (Z.to_nat m) rest) = m /\ zlen (drop (Z.to_nat m) rest) = zlen rest - m) as [L1 L2]
    by (unfold zlen in *; rewrite length_take, length_drop; lia).
  destruct (write_at_ok st used fl cell cur pos (take (Z.to_nat m) rest) Hi Hc) as (st1 & cell1 & E & Hi1 & Ht & Hc1 & Hh & O);
    [by apply Forall_take|lia|rewrite L1; lia|].
  pose proof (touched_entry st st1 used fl cell cell1 cur) as Te. rewrite L1 in O. pose proof O as [LA OA].
  exists st1, cell1. split; [done|]. split; [done|]. split.
  - split; [exact (touched_ptr_ok st st1 used fl cell cell1 cur Hi Hc Ht Hptr)|done|lia| | | |by apply Forall_drop].
    + rewrite L2, LA. cbv zeta in Hl |- *. intros Hlt. specialize (Hl ltac:(lia)). lia.
    + intros p Ep Ha g Hg Hle He. rewrite (to_size _ _ _ _ _ Ht) in Hle.
      apply (Hf p Ep Ha g Hg Hle). by apply (Te g PTRMAP_OVERFLOW2 p Hi Hc Ht Ha Hg).
    + rewrite L2, (to_size _ _ _ _ _ Ht). by replace (zlen rest - m - (space - m)) with (zlen rest - space) by lia.
  - intros st' cell' ps [Gptr Gnd Gnew Gcur Glen Gholds Gframe Glink Gchain Gused Gcell Gp1 Glinked Ginv Gsize Gfile].
    rewrite drop_drop in Gchain. replace (Z.to_nat m + Z.to_nat (space - m))%nat with (Z.to_nat space) in Gchain by lia.
    assert (ps <> [] -> space < zlen rest) as Hps.
    { intros Hne. destruct ps as [|q ps]; [done|]. destruct Gchain as (Hne' & _).
      destruct (decide (space < zlen rest)); [done|]. destruct Hne'. apply drop_ge. unfold zlen in *. lia. }
    assert (forall i, pos <= i < pos + m -> ps = [] \/ i < link_at iO cur \/ link_at iO cur + 4 <= i) as Hlk.
    { intros i Hi'. destruct ps; [by left|]. right. specialize (Hl (Hps ltac:(done))). cbv zeta in Hl. lia. }
    split; try done; [lia| | | | | | |].
    + rewrite <- (take_drop (Z.to_nat m) rest), take_app_ge by (unfold zlen in *; lia).
      apply holds_app.
      * split_and!; [lia|rewrite Glen; lia|]. rewrite L1. intros i Hi'. rewrite Gframe by (lia || apply Hlk; lia).
        destruct Hh as (_ & _ & Hh). apply Hh. lia.
      * rewrite L1. replace (Z.to_nat space - length (take (Z.to_nat m) rest))%nat with (Z.to_nat (space - m)) by (unfold zlen in *; lia). done.
    + intros i Hi1' Hi2. rewrite Gframe by (lia || done). apply OA. lia.
    + intros q Hq Hne. rewrite Gused by done. by apply (to_pages _ _ _ _ _ Ht).
    + intros Hne. rewrite Gcell by done. by apply (to_cell _ _ _ _ _ Ht).
    + destruct (decide (cur = Some 1)) as [->|Hne].
      * destruct Hc as [_ Hc]. pose proof Hi as (_ & _ & _ & _ & Hu & _). destruct (Hu 1 (Hc 1 eq_refl)) as [H1 _].
        by destruct (plain_ne_1 pBt 1 H1).
      * by rewrite <- (to_pages _ _ _ _ _ Ht 1 Hne).
    + intros Ha q Hq Hne g Hg Hle He. rewrite <- (to_size _ _ _ _ _ Ht).
      destruct (Ginv Ha q Hq Hne g Hg Hle He) as [? He']. split; [done|]. by apply (Te g PTRMAP_OVERFLOW2 q Hi Hc Ht Ha Hg).
    + rewrite (to_size _ _ _ _ _ Ht), L2 in Gsize. by replace (zlen rest - m - (space - m)) with (zlen rest - space) in Gsize by lia.
Qed.

(** *** A page is appended *)

Definition cur_pgno (cur : option Z) : Z := default 0 cur.

(** The store after the allocation, the link and the zero: [st1], [st3]. *)
Record appended (st st1 st3 : Store) (used : gset Z) (cell cell2 : list Z) (cur : option Z) (iO p : Z) : Prop := {
  ap_alloc : alloced st st1 used (cur_pgno cur) p;
  ap_area : same_outside (area st cell cur) (area st3 cell2 cur) (link_at iO cur) (link_at iO cur + 4);
  ap_cur : cur_ok st3 used cell2 cur;
  ap_link : get4byte (area st3 cell2 cur) (link_at iO cur) = Ret p;
  ap_zero : get4byte (image st3 p) 0 = Ret 0;
  ap_used : forall q, q ∈ used -> cur <> Some q -> image st3 q = image st q;
  ap_cell : cur <> None -> cell2 = cell;
  ap_page1 : same_outside (image st 1) (image st3 1) 32 40;
  ap_size : dbSize st3 = dbSize st1;
  ap_ptr : ptr_ok pBt st3 ({[p]} ∪ used);
  ap_entry : autoVacuum pBt = true -> forall g t q, mapped_page g -> entry_at st3 g t q <-> entry_at st1 g t q;
}.

Lemma area_alloced st st1 used cell cur prev p : alloced st st1 used prev p -> cur_ok st used cell cur ->
  area st1 cell cur = area st cell cur.
Proof. intros Ha [_ Hc]. destruct cur as [c|]; [|done]. by apply (al_used _ _ _ _ _ Ha), Hc. Qed.

Lemma append_ok st used fl cell cur pos iO rest : db_inv pBt (st, used) fl -> ready st used cell cur pos 0 iO rest -> 0 < zlen rest ->
  exists st1 st2 st3 fl3 cell2 p, fill_alloc pBt rcGet rcWrite stale (cur_pgno cur) st = Ret (st1, inr p) /\
    write_at pBt cur cell (link_at iO cur) (sqlite3Put4byte p) st1 = Ret (st2, inr cell2) /\
    modify pBt p (fun d => put4byte d 0 0) st2 = Ret (st3, inr tt) /\
    db_inv pBt (st3, {[p]} ∪ used) fl3 /\ appended st st1 st3 used cell cell2 cur iO p.
Proof.
  intros Hi [Hptr Hc Hp Hl Hf Hr Hb] Hne. pose proof Hi as (_ & _ & _ & _ & Hu & _). cbn in Hu. pose proof config as [Hu' _].
  destruct (fill_alloc_ok st used fl (cur_pgno cur) Hi Hptr) as (st1 & p & fl1 & E1 & Hi1 & Al).
  { pose proof (npages_nonneg (zlen rest - 0)). lia. }
  { destruct cur as [c|]; [right; by apply Hc|by left]. }
  pose proof (area_alloced _ _ _ _ _ _ _ Al Hc) as EA. pose proof (al_plain _ _ _ _ _ Al) as Hpp.
  assert (cur_ok st1 ({[p]} ∪ used) cell cur) as Hc1 by (split; [rewrite EA; apply Hc|intros c Ec; by apply in_old, Hc]).
  destruct (put4byte_bytes p) as [Bp Lp]. destruct (put4byte_bytes 0) as [B0 L0]. specialize (Hl ltac:(lia)). cbv zeta in Hl.
  destruct (write_at_ok st1 ({[p]} ∪ used) fl1 cell cur (link_at iO cur) (sqlite3Put4byte p) Hi1 Hc1 Bp)
    as (st2 & cell2 & E2 & Hi2 & T2 & Hc2 & H2 & O2); [lia|rewrite Lp, EA; lia|]. rewrite Lp, EA in O2.
  destruct (modify_used_ok st2 ({[p]} ∪ used) fl1 p 0 (sqlite3Put4byte 0) Hi2) as (st3 & E3 & Hi3 & I3 & S3 & H3 & O3);
    [apply in_new|done|lia|rewrite L0; lia|].
  assert (cur <> Some p) as Hcp by (intros ->; apply (al_new _ _ _ _ _ Al); by apply Hc).
  assert (area st3 cell2 cur = area st2 cell2 cur) as EA3 by (destruct cur; [|done]; cbn; apply I3; congruence).
  assert (cur_ok st2 ({[p]} ∪ used) cell2 (Some p)) as Hcp2.
  { split; [by apply image_ok; [destruct Hi2|]|]. intros ? [= <-]. apply in_new. }
  assert (touched st2 st3 cell2 cell2 (Some p)) as T3 by (split; [intros q Hq; apply I3; congruence|done..]).
  assert (cur <> Some 1) as Hc1'.
  { intros ->. destruct (Hu 1) as [H1 _]; [by apply Hc|]. by destruct (plain_ne_1 pBt 1 H1). }
  exists st1, st2, st3, fl1, cell2, p. split_and!; [done..|]. split; try done.
  - by rewrite EA3.
  - split; [rewrite EA3; apply Hc2|apply Hc].
  - rewrite EA3. apply holds_get4byte; [by apply (plain_u32 pBt)|done].
  - apply holds_get4byte; [unfold is_u32; lia|done].
  - intros q Hq Hcq. rewrite I3, (to_pages _ _ _ _ _ T2) by (done || by intros ->; apply (al_new _ _ _ _ _ Al)).
    by apply (al_used _ _ _ _ _ Al).
  - by apply (to_cell _ _ _ _ _ T2).
  - rewrite I3, (to_pages _ _ _ _ _ T2) by (done || intros <-; by apply (plain_ne_1 pBt 1)). by apply (al_page1 _ _ _ _ _ Al).
  - by rewrite S3, (to_size _ _ _ _ _ T2).
  - apply (touched_ptr_ok st2 st3 _ fl1 cell2 cell2 (Some p) Hi2 Hcp2 T3), (touched_ptr_ok st1 st2 _ fl1 cell cell2 cur Hi1 Hc1 T2), Al.
  - intros Ha g t q Hg. rewrite (touched_entry st2 st3 _ fl1 cell2 cell2 (Some p) g t q Hi2 Hcp2 T3 Ha Hg).
    by apply (touched_entry st1 st2 _ fl1 cell cell2 cur g t q Hi1 Hc1 T2).
Qed.

(** An entry that is there now is the new page's, or was there. *)
Lemma appended_inv st st1 st3 used cell cell2 cur iO p g q : appended st st1 st3 used cell cell2 cur iO p -> autoVacuum pBt = true ->
  mapped_page g -> g <= dbSize st3 -> entry_at st3 g PTRMAP_OVERFLOW2 q ->
  (g = p /\ q = cur_pgno cur) \/ (g <= dbSize st /\ entry_at st g PTRMAP_OVERFLOW2 q).
Proof.
  intros Ap Ha Hg Hle He. pose proof (ap_alloc _ _ _ _ _ _ _ _ _ Ap) as Al. apply (ap_entry _ _ _ _ _ _ _ _ _ Ap Ha) in He; [|done].
  rewrite (ap_size _ _ _ _ _ _ _ _ _ Ap) in Hle. destruct (decide (g = p)) as [->|Hne].
  - left. split; [done|]. destruct (al_entry _ _ _ _ _ Al Ha) as [t He']. by destruct (entry_unique _ _ _ _ _ _ _ He He').
  - right. by apply (al_inv _ _ _ _ _ Al).
Qed.

Lemma append_ready st st1 st3 used fl fl3 cell cell2 cur pos iO rest p : db_inv pBt (st, used) fl ->
  ready st used cell cur pos 0 iO rest -> 0 < zlen rest ->
  db_inv pBt (st3, {[p]} ∪ used) fl3 -> appended st st1 st3 used cell cell2 cur iO p ->
  ready st3 ({[p]} ∪ used) cell2 (Some p) 4 (usable - 4) iO rest.
Proof.
  intros Hi [Hptr Hc Hp Hl Hf Hr Hb] Hne Hi3 Ap. pose proof config as [Hu Hps]. pose proof Hi as (_ & _ & _ & _ & Hused & _). cbn in Hused.
  destruct (image_ok pBt st3 p (proj1 Hi3) config) as [Bp Lp]. pose proof (ap_alloc _ _ _ _ _ _ _ _ _ Ap) as Al.
  split; [by apply Ap|split; [done|intros ? [= <-]; apply in_new]|cbn; lia|intros _; cbn; lia| | |done].
  - intros q [= <-] Ha g Hg Hle He. destruct (appended_inv _ _ _ _ _ _ _ _ _ _ _ Ap Ha Hg Hle He) as [[_ Ep]|[Hle' He']].
    + destruct cur as [c|]; cbn in Ep; [subst c; apply (al_new _ _ _ _ _ Al); by apply Hc|].
      destruct (al_plain _ _ _ _ _ Al) as (_ & ? & _). lia.
    + destruct (Hptr Ha g Hg Hle') as (t & q & He'' & _ & Hq). destruct (entry_unique _ _ _ _ _ _ _ He' He'') as [<- <-].
      by apply (al_new _ _ _ _ _ Al), Hq.
  - rewrite (ap_size _ _ _ _ _ _ _ _ _ Ap). pose proof (al_size _ _ _ _ _ Al).
    rewrite Z.sub_0_r, npages_step in Hr by done. lia.
Qed.

Lemma append_filled st st1 st3 st' used fl cell cell2 cell' cur pos iO rest p ps : db_inv pBt (st, used) fl ->
  ready st used cell cur pos 0 iO rest -> 0 < zlen rest ->
  appended st st1 st3 used cell cell2 cur iO p ->
  filled st3 st' ({[p]} ∪ used) cell2 cell' (Some p) 4 (usable - 4) iO rest ps ->
  filled st st' used cell cell' cur pos 0 iO rest (p :: ps).
Proof.
  intros Hi [Hptr Hc Hp Hl Hf Hr Hb] Hne Ap [Gptr Gnd Gnew Gcur Glen Gholds Gframe Glink Gchain Gused Gcell Gp1 Glinked Ginv Gsize Gfile].
  pose proof Hi as (_ & _ & _ & _ & Hused & _). cbn in Hused. pose proof (ap_alloc _ _ _ _ _ _ _ _ _ Ap) as Al.
  pose proof (al_new _ _ _ _ _ Al) as Hnew. specialize (Gcell ltac:(done)). subst cell'.
  assert (area st' cell2 cur = area st3 cell2 cur) as EA.
  { destruct cur as [c|]; [|done]. apply Gused; [by apply in_old, Hc|]. intros [= ->]. by apply Hnew, Hc. }
  pose proof (ap_area _ _ _ _ _ _ _ _ _ Ap) as [LA OA]. cbn [area] in *.
  assert (forall q, q ∈ used -> q ∈ {[p]} ∪ used /\ Some p <> Some q) as Hold.
  { intros q Hq. split; [by apply in_old|]. by intros [= ->]. }
  split.
  - by replace (list_to_set (p :: ps) ∪ used) with (list_to_set ps ∪ ({[p]} ∪ used)) by (rewrite list_to_set_cons; set_solver+).
  - constructor; [|done]. intros Hin. apply (Gnew p Hin), in_new.
  - intros q [->|Hq]%elem_of_cons; [done|]. intros Hqu. by apply (Gnew q Hq), in_old.
  - split; [rewrite EA; apply (ap_cur _ _ _ _ _ _ _ _ _ Ap)|apply Hc].
  - by rewrite EA.
  - rewrite take_0, EA. split_and!; [lia|change (zlen (@nil Z)) with 0; lia|]. change (zlen (@nil Z)) with 0. lia.
  - intros i _ [?|Hi2]; [done|]. rewrite EA. by apply OA.
  - intros _. rewrite EA. apply (ap_link _ _ _ _ _ _ _ _ _ Ap).
  - rewrite drop_0. split_and!; [by intros ->|apply Al| |by apply Glinked|done|done].
    destruct ps as [|q ps]; [|by apply Glink]. change (next_of []) with 0.
    rewrite <- (ap_zero _ _ _ _ _ _ _ _ _ Ap). apply get4byte_ext. intros i Hi'. apply Gframe; [lia|by left].
  - intros q Hq Hcq. destruct (Hold q Hq). rewrite Gused by done. by apply (ap_used _ _ _ _ _ _ _ _ _ Ap).
  - apply (ap_cell _ _ _ _ _ _ _ _ _ Ap).
  - eapply same_outside_trans; [apply (ap_page1 _ _ _ _ _ _ _ _ _ Ap)|done].
  - intros c -> Ha g Hg Hle He. assert (c ∈ used) as Hcu by (by apply Hc). destruct (Hold c Hcu).
    destruct (Ginv Ha c ltac:(done) ltac:(done) g Hg Hle He) as [Hle3 He3].
    destruct (appended_inv _ _ _ _ _ _ _ _ _ _ _ Ap Ha Hg Hle3 He3) as [[-> _]|[Hle0 He0]]; [done|].
    by destruct (Hf c eq_refl Ha g Hg Hle0 He0).
  - intros Ha q Hq Hcq g Hg Hle He. destruct (Hold q Hq).
    destruct (Ginv Ha q ltac:(done) ltac:(done) g Hg Hle He) as [Hle3 He3].
    destruct (appended_inv _ _ _ _ _ _ _ _ _ _ _ Ap Ha Hg Hle3 He3) as [[_ Eq]|[Hle0 He0]]; [|done].
    destruct cur as [c|]; cbn in Eq; [congruence|]. subst q. destruct (Hused 0 Hq) as [(_ & ? & _) _]. lia.
  - rewrite (ap_size _ _ _ _ _ _ _ _ _ Ap) in Gsize. pose proof (al_size _ _ _ _ _ Al).
    rewrite Z.sub_0_r, npages_step by done. lia.
  - constructor; [|done]. pose proof (al_file _ _ _ _ _ Al). rewrite (ap_size _ _ _ _ _ _ _ _ _ Ap) in Gsize. lia.
Qed.

Lemma fill_loop_ok iO pData fuel : forall st used fl cell cur pos space rest pSrc nSrc,
  db_inv pBt (st, used) fl -> ready st used cell cur pos space iO rest -> src_left pSrc nSrc rest -> (length rest < fuel)%nat ->
  exists st' cell' ps fl', fill_loop pBt rcGet rcWrite stale fuel iO cell cur pos space (zlen rest) pSrc nSrc pData 0 (cur_pgno cur) st =
      Ret (st', inr cell') /\ db_inv pBt (st', list_to_set ps ∪ used) fl' /\ filled st st' used cell cell' cur pos space iO rest ps.
Proof.
  pose proof config as [Hu _].
  induction fuel as [|fuel IH]; intros st used fl cell cur pos space rest pSrc nSrc Hi Hr Hs Hf; [lia|]. cbn [fill_loop].
  destruct (Z.ltb_spec 0 (zlen rest)) as [Hne|Hne].
  2:{ destruct rest as [|x rest]; [|rewrite zlen_cons in Hne; pose proof (zlen_nonneg rest); lia].
      exists st, cell, [], fl. split; [done|]. split; [by rewrite list_to_set_nil, union_empty_l_L|by apply filled_done]. }
  assert (forall st used fl cell cur pos space, db_inv pBt (st, used) fl -> ready st used cell cur pos space iO rest -> 0 < space ->
    exists st' cell' ps fl', (let n := if space <? zlen rest then space else zlen rest in
        '(n, b, pSrc, nSrc) ← lift (fill_copy n pSrc nSrc pData 0);
        pCell ← write_at pBt cur cell pos b;
        fill_loop pBt rcGet rcWrite stale fuel iO pCell cur (pos + n) (space - n) (zlen rest - n) pSrc nSrc pData 0 (cur_pgno cur)) st =
      Ret (st', inr cell') /\ db_inv pBt (st', list_to_set ps ∪ used) fl' /\ filled st st' used cell cell' cur pos space iO rest ps) as Hbody.
  { clear st used fl cell cur pos space Hi Hr. intros st used fl cell cur pos space Hi Hr Hsp. cbv zeta.
    destruct (fill_copy_ok (if space <? zlen rest then space else zlen rest) pSrc nSrc pData rest) as (m & pSrc' & nSrc' & Ec & Hm & Hs');
      [destruct (Z.ltb_spec space (zlen rest)); lia..|done|].
    assert (m <= space /\ m <= zlen rest) as [Hm1 Hm2] by (destruct (Z.ltb_spec space (zlen rest)); lia).
    rewrite (bm_lift _ _ _ _ Ec).
    destruct (write_ready st used fl cell cur pos space iO rest m Hi Hr) as (st1 & cell1 & E1 & Hi1 & Hr1 & Hcomp); [lia..|].
    rewrite (bm_bind _ _ _ _ _ E1).
    assert (zlen (drop (Z.to_nat m) rest) = zlen rest - m) as L2 by (unfold zlen in *; rewrite length_drop; lia).
    destruct (IH st1 used fl cell1 cur (pos + m) (space - m) (drop (Z.to_nat m) rest) pSrc' nSrc' Hi1 Hr1 Hs')
      as (st' & cell' & ps & fl' & E' & Hi' & F); [rewrite length_drop; unfold zlen in Hne; lia|].
    rewrite L2 in E'. exists st', cell', ps, fl'. split; [exact E'|]. split; [done|]. by apply Hcomp. }
  destruct (Z.eqb_spec space 0) as [->|Hsp].
  - destruct (append_ok st used fl cell cur pos iO rest Hi Hr Hne) as (st1 & st2 & st3 & fl3 & cell2 & p & E1 & E2 & E3 & Hi3 & Ap).
    destruct (Hbody st3 ({[p]} ∪ used) fl3 cell2 (Some p) 4 (usable - 4) Hi3) as (st' & cell' & ps & fl' & E' & Hi' & F);
      [by eapply append_ready|lia|].
    exists st', cell', (p :: ps), fl'. split; [|split].
    + rewrite (bm_bind _ _ st st3 (cell2, Some p, 4, usable - 4, p)); [exact E'|].
      rewrite (bm_bind _ _ _ _ _ E1). fold (link_at iO cur). rewrite (bm_bind _ _ _ _ _ E2). by rewrite (bm_bind _ _ _ _ _ E3).
    + by replace (list_to_set (p :: ps) ∪ used) with (list_to_set ps ∪ ({[p]} ∪ used)) by (rewrite list_to_set_cons; set_solver+).
    + by eapply append_filled.
  - rewrite (bm_bind _ _ st st (cell, cur, pos, space, cur_pgno cur)) by done.
    apply (Hbody st used fl cell cur pos space Hi Hr). pose proof (re_pos _ _ _ _ _ _ _ _ Hr). lia.
Qed.

(** ** The whole cell *)

(** The payload that the arguments of [fillInCell] stand for. *)
Definition payload_bytes (p : MemPage) (pKey pData : list Z) (nZero : Z) : list Z :=
  if intKey p then (if hasData p then pData ++ replicate (Z.to_nat nZero) 0 else []) else pKey.

Definition data_size (p : MemPage) (pData : list Z) (nZero : Z) : Z := if hasData p then zlen pData + nZero else 0.

(** Tables have integer keys and may have data, indices have no data. *)
Record fill_args (p : MemPage) (pCell pKey : list Z) (k : Z) (pData : list Z) (nZero : Z) : Prop := {
  fa_sane : sane pBt p;
  fa_kind : intKey p = true \/ hasData p = false;
  fa_args : cell_args p k (data_size p pData nZero);
  fa_key : intKey p = false -> k = zlen pKey;
  fa_zero : 0 <= nZero;
  fa_bytes : bytes_ok pCell /\ bytes_ok pKey /\ bytes_ok pData;
  fa_room : maxLocal p + 26 <= zlen pCell;
}.

Lemma payload_bytes_ok p pCell pKey k pData nZero : fill_args p pCell pKey k pData nZero ->
  bytes_ok (payload_bytes p pKey pData nZero) /\
  zlen (payload_bytes p pKey pData nZero) = payload p k (data_size p pData nZero).
Proof.
  intros [_ Hk _ Hkey Hz (_ & Bk & Bd) _]. unfold payload_bytes, payload, data_size. destruct (intKey p).
  - destruct (hasData p); [|by split; [constructor|]]. split.
    + apply Forall_app. split; [done|]. apply Forall_replicate. unfold is_byte. lia.
    + rewrite zlen_app, zlen_replicate. lia.
  - destruct Hk as [?|Hk]; [done|]. rewrite Hk. split; [done|]. rewrite Hkey by done. lia.
Qed.

(** The source as the loop finds it. *)
Lemma fill_source p pCell pKey k pData nZero : fill_args p pCell pKey k pData nZero ->
  let '(d, z) := if hasData p then (zlen pData, nZero) else (0, 0) in
  exists src nSrc, (if intKey p then (pData, d, 0, d + z) else (pKey, s32 k, d, s32 (d + z + k))) =
      (src, nSrc, 0, zlen (payload_bytes p pKey pData nZero)) /\
    src_left src nSrc (payload_bytes p pKey pData nZero) /\ d + z = data_size p pData nZero.
Proof.
  intros Hf. destruct (payload_bytes_ok _ _ _ _ _ _ Hf) as [_ Hl]. destruct Hf as [_ Hk Ha Hkey Hz _ _].
  unfold cell_args, payload, payload_bytes, data_size, src_left in *. pose proof (zlen_nonneg pData).
  destruct (intKey p).
  - destruct (hasData p); eexists pData, _; (split; [by rewrite Hl, Z.add_0_r|]); (split; [|done]).
    + destruct (decide (zlen pData = 0)) as [E|E].
      * right. split; [lia|]. exists (Z.to_nat nZero). destruct pData; [done|]. rewrite zlen_cons in E. pose proof (zlen_nonneg pData). lia.
      * left. split; [lia|]. split; [done|]. by eexists.
    + right. split; [lia|]. by exists 0%nat.
  - destruct Hk as [?|Hk]; [done|]. rewrite Hk in *. exists pKey, k. specialize (Hkey eq_refl). pose proof (zlen_nonneg pKey).
    rewrite !s32_id by lia. split; [do 2 f_equal; lia|]. split; [|done]. destruct (decide (k = 0)).
    + right. split; [lia|]. exists 0%nat. destruct pKey; [done|]. rewrite zlen_cons in Hkey. pose proof (zlen_nonneg pKey). lia.
    + left. split; [lia|]. split; [done|]. exists 0%nat. by rewrite app_nil_r.
Qed.

(** What [fillInCell] did to the file. *)
Record filled_in (st st' : Store) (used : gset Z) (ps : list Z) : Prop := {
  fl_good : db_good pBt st' (list_to_set ps ∪ used);
  fl_new : forall q, q ∈ ps -> q ∉ used;
  fl_used : forall q, q ∈ used -> image st' q = image st q;
  fl_page1 : same_outside (image st 1) (image st' 1) 32 40;
}.

Lemma fillInCell_ok st used p pCell pKey k pData nZero : db_good pBt st used -> fill_args p pCell pKey k pData nZero ->
  let b := payload_bytes p pKey pData nZero in
  dbSize st + 4 * npages (zlen b) + 3 <= PAGER_MAX_PGNO ->
  exists st' pCell' n h ps, fillInCell pBt rcGet rcWrite stale p pCell pKey k pData (zlen pData) nZero st = Ret (st', inr (pCell', n)) /\
    cellSizePtr pBt p pCell' = Ret n /\ filled_in st st' used ps /\
    cell_holds pBt st' p pCell' k (data_size p pData nZero) h ps b.
Proof.
  intros ((fl & Hi) & Hptr & Hmax) Hf b Hroom. pose proof (fill_source _ _ _ _ _ _ Hf) as Hsrc. fold b in Hsrc.
  destruct (payload_bytes_ok _ _ _ _ _ _ Hf) as [Hbb Hbl]. fold b in Hbb, Hbl.
  destruct Hf as [Hsane _ Hargs _ Hz (Bc & _ & _) Hcell]. pose proof (zlen_nonneg b) as Hb0.
  pose proof Hsane as (Hcp & Hm & Hu & Hu'). unfold fillInCell.
  set (dd := data_size p pData nZero) in *. set (hb := header_bytes p k dd) in *. set (c := childPtrSize p) in *.
  destruct (fill_header_ok pBt p pCell k (zlen pData) nZero Hsane Hargs Bc) as (cell1 & E1 & B1 & H1 & [L1 O1]); [lia|].
  fold (data_size p pData nZero) dd hb c in E1, H1, O1. pose proof (header_bytes_ok _ _ _ Hargs) as [_ Hhl]. fold hb in Hhl.
  assert (0 <= c <= 4) as Hc4 by (rewrite Hcp; unfold b2z; destruct (leaf p); lia). set (h := c + zlen hb) in *.
  rewrite (bm_lift _ _ _ _ E1).
  assert (forall cell, bytes_ok cell -> holds cell c hb -> sqlite3BtreeParseCellPtr pBt p cell = Ret (cell_info pBt p k dd h)) as Hparse.
  { intros cell Bcell Hh. destruct (holds_split _ _ _ Bcell Hh) as (pre & rest & -> & Hpre & Hr). unfold h. rewrite <- Hpre.
    by apply parse_cell_ok. }
  destruct (if hasData p then (zlen pData, nZero) else (0, 0)) as [d z]. destruct Hsrc as (src & nSrc & Es & Hsl & Edd).
  rewrite (bm_lift _ _ _ _ (Hparse cell1 B1 H1)). unfold cell_info at 1 2 3. cbn [nHeader nKey nData].
  rewrite (bm_lift _ _ _ tt) by (by rewrite Edd, !Z.eqb_refl). cbv zeta. rewrite Es.
  unfold cell_info. cbn [iOverflow nLocal nSize]. rewrite <- Hbl.
  destruct (local_size_bounds pBt p (zlen b) Hsane) as [Hlb _]; [lia|]. set (l := local_size pBt p (zlen b)) in *.
  set (iO := if zlen b <=? maxLocal p then 0 else h + l).
  assert (l < zlen b -> iO = h + l) as HiO.
  { intros Hlt. unfold iO. destruct (Z.leb_spec (zlen b) (maxLocal p)) as [Hle|]; [|done].
    unfold l, local_size in Hlt. rewrite (proj2 (Z.leb_le _ _) Hle) in Hlt. lia. }
  assert (ready st used cell1 None h l iO b) as Hready.
  { split; [done|split; [done|done]|cbn; lia|intros Hlt; cbn; rewrite HiO by done; lia|done| |done].
    assert (npages (zlen b - l) <= npages (zlen b)) by (unfold npages; apply Z.div_le_mono; lia). lia. }
  destruct (fill_loop_ok iO pData (S (Z.to_nat (zlen b))) st used fl cell1 None h l b src nSrc Hi Hready Hsl)
    as (st' & cell' & ps & fl' & E' & Hi' & F); [unfold zlen; lia|].
  change (cur_pgno None) with 0 in E'. rewrite (bm_bind _ _ _ _ _ E').
  destruct F as [Gptr Gnd Gnew [Gcb _] Glen Gholds Gframe Glink Gchain Gused _ Gp1 _ _ Gsize Gfile]. cbn [area link_at] in *.
  assert (ps <> [] -> l < zlen b) as Hps.
  { intros Hne. destruct ps as [|q ps]; [done|]. destruct Gchain as (Hne' & _). destruct (decide (l < zlen b)); [done|].
    destruct Hne'. apply drop_ge. unfold zlen in *. lia. }
  assert (holds cell' c hb) as Hhead.
  { destruct H1 as (Hc0 & Hcl & H1). split_and!; [done|lia|]. intros i Hi2. rewrite Gframe; [by apply H1|lia|].
    destruct ps; [by left|]. right. rewrite HiO by (by apply Hps). lia. }
  pose proof (Hparse cell' Gcb Hhead) as Hinfo. eexists st', cell', _, h, ps. split; [done|]. split; [|split].
  - unfold cellSizePtr. rewrite Hinfo. unfold cell_info. rewrite <- Hbl. fold l. done.
  - split; [split; [by exists fl'|split; [done|]]|done|intros q Hq; by apply Gused|done].
    assert (npages (zlen b - l) <= npages (zlen b)) by (unfold npages; apply Z.div_le_mono; lia). lia.
  - split; try done; [lia|]. intros Hne. fold l. rewrite <- HiO by (by apply Hps). by apply Glink.
Qed.
End fill.

(** C6: what [fillInCell] writes is what [accessPayload] reads.  In a good
    file (every page that can hold data is in use or free, the pointer map is
    right) [fillInCell] makes a cell out of any key and data, followed by
    zeros, with overflow pages that nobody used, and [cellSizePtr] finds the
    size that it returns.  Then [accessPayload] reads every part of the
    payload from the cell and its chain, in files with a pointer map and
    without, and refuses to read past the end.  The file stays good, the pages
    in use keep their bytes, and page 1 changes in its list of free pages
    alone. *)
Theorem payload_roundtrip pBt rcGet rcWrite stale st used p pCell pKey k pData nZero :
  (forall st pgno, rcGet st pgno = SQLITE_OK /\ rcWrite st pgno = SQLITE_OK) ->
  (forall st pgno, bytes_ok (stale st pgno) /\ zlen (stale st pgno) = pageSize pBt) ->
  config_ok pBt -> db_good pBt st used -> fill_args pBt p pCell pKey k pData nZero ->
  let b := payload_bytes p pKey pData nZero in
  dbSize st + 4 * npages pBt (zlen b) + 3 <= PAGER_MAX_PGNO ->
  exists st' pCell' n ps, fillInCell pBt rcGet rcWrite stale p pCell pKey k pData (zlen pData) nZero st = Ret (st', inr (pCell', n)) /\
    cellSizePtr pBt p pCell' = Ret n /\ filled_in pBt st st' used ps /\
    forall offset amt skipKey, 0 <= offset -> 0 <= amt -> payload_from p k offset skipKey + amt < 2 ^ 31 ->
      accessPayload pBt rcGet stale p pCell' offset amt skipKey st' = Ret (st',
        if payload_from p k offset skipKey + amt <=? zlen b
        then inr (take (Z.to_nat amt) (drop (Z.to_nat (payload_from p k offset skipKey)) b))
        else inl SQLITE_ERROR).
Proof.
  intros Hnf Hso Hc Hg Hf b Hroom.
  destruct (fillInCell_ok pBt rcGet rcWrite stale Hnf Hso Hc st used p pCell pKey k pData nZero Hg Hf Hroom)
    as (st' & pCell' & n & h & ps & E & Hn & Hfi & Hch).
  exists st', pCell', n, ps. split_and!; [done..|]. intros offset amt skipKey Ho Ha Hl.
  destruct (fl_good _ _ _ _ _ Hfi) as ((fl & Hi) & Hptr & Hmax). destruct (Z.leb_spec (payload_from p k offset skipKey + amt) (zlen b)).
  - eapply (accessPayload_ok pBt rcGet rcWrite stale Hnf Hc st' p pCell'); [|by eapply ptr_ok_valid|exact Hch|done..].
    split_and!; [by destruct Hi|by destruct Hi as (_ & ? & _)|done].
  - by eapply (accessPayload_end pBt rcGet stale st' p pCell').
Qed.

(** An auto-vacuum file with page 1 and a page of the pointer map; a row of a
    table with 600 bytes and 200 zeros, which need two overflow pages. *)
Definition ex_two : Store := mkStore ∅ 2 0.
Definition ex_leaf : MemPage := decodeFlags ex_auto ex_raw 13.
Definition ex_row : list Z := replicate 300 5 ++ replicate 300 6.

Lemma ex_two_good : db_good ex_auto ex_two ∅.
Proof.
  assert (forall g, mapped_page ex_auto g -> 2 < g) as Hm by (intros g (_ & ? & _); done).
  split; [|split; [|vm_compute; congruence]].
  - exists []. apply db_start_inv. split_and!; [apply map_Forall_empty|split; [vm_compute; split; congruence|vm_compute; congruence]|done|reflexivity|].
    intros q. split; [by intros ?%elem_of_empty|]. intros [(_ & _ & Hp) Hle]. specialize (Hm q (Hp eq_refl)). cbn in Hle. lia.
  - intros _ g Hg Hle. specialize (Hm g Hg). cbn in Hle. lia.
Qed.

Lemma ex_row_args : fill_args ex_auto ex_leaf (replicate 600 0) [] 77 ex_row 200.
Proof.
  assert (forall n b, is_byte b -> bytes_ok (replicate n b)) as Hr by (intros; by apply Forall_replicate).
  split; [split_and!; vm_compute; congruence|by left|repeat split; vm_compute; congruence|vm_compute; congruence|done| |vm_compute; congruence].
  split_and!; [apply Hr|constructor|apply Forall_app; split; apply Hr]; unfold is_byte; lia.
Qed.

Lemma payload_roundtrip_witness : exists st' pCell' n,
  fillInCell ex_auto (fun _ _ => 0) (fun _ _ => 0) (fun _ _ => ex_zeros) ex_leaf (replicate 600 0) [] 77 ex_row 600 200 ex_two =
    Ret (st', inr (pCell', n)) /\
  accessPayload ex_auto (fun _ _ => 0) (fun _ _ => ex_zeros) ex_leaf pCell' 299 302 true st' =
    Ret (st', inr (5 :: replicate 300 6 ++ [0])) /\
  accessPayload ex_auto (fun _ _ => 0) (fun _ _ => ex_zeros) ex_leaf pCell' 299 502 true st' = Ret (st', inl SQLITE_ERROR).
Proof.
  destruct (payload_roundtrip ex_auto (fun _ _ => 0) (fun _ _ => 0) (fun _ _ => ex_zeros) ex_two ∅ ex_leaf (replicate 600 0) [] 77 ex_row 200)
    as (st' & pCell' & n & ps & E & _ & _ & H).
  - done.
  - intros _ _. split; [apply Forall_replicate; unfold is_byte; lia|reflexivity].
  - unfold config_ok. cbn. lia.
  - apply ex_two_good.
  - apply ex_row_args.
  - vm_compute. congruence.
  - exists st', pCell', n. split; [exact E|]. split.
    + rewrite H by (vm_compute; congruence). vm_compute. reflexivity.
    + rewrite H by (vm_compute; congruence). vm_compute. reflexivity.
Defined.

(** C9: [clearCell] gives back exactly the overflow pages that [fillInCell]
    took: it does not fail, and afterwards the file is good with the pages in
    use that it had before the cell was made.  The pages in use keep their
    bytes, page 1 changes in its list of free pages alone, and the file keeps
    its size. *)
Theorem clear_cell_frees pBt rcGet rcWrite stale st used p pCell pKey k pData nZero :
  (forall st pgno, rcGet st pgno = SQLITE_OK /\ rcWrite st pgno = SQLITE_OK) ->
  (forall st pgno, bytes_ok (stale st pgno) /\ zlen (stale st pgno) = pageSize pBt) ->
  config_ok pBt -> db_good pBt st used -> fill_args pBt p pCell pKey k pData nZero ->
  dbSize st + 4 * npages pBt (zlen (payload_bytes p pKey pData nZero)) + 3 <= PAGER_MAX_PGNO ->
  exists st' pCell' n st'', fillInCell pBt rcGet rcWrite stale p pCell pKey k pData (zlen pData) nZero st = Ret (st', inr (pCell', n)) /\
    clearCell pBt rcGet rcWrite stale p pCell' st' = Ret (st'', inr tt) /\ db_good pBt st'' used /\
    (forall q, q ∈ used -> image pBt st'' q = image pBt st q) /\
    same_outside (image pBt st 1) (image pBt st'' 1) 32 40 /\ dbSize st'' = dbSize st'.
Proof.
  intros Hnf Hso Hc Hg Hf Hroom.
  destruct (fillInCell_ok pBt rcGet rcWrite stale Hnf Hso Hc st used p pCell pKey k pData nZero Hg Hf Hroom)
    as (st' & pCell' & n & h & ps & E & Hn & [Fg Fnew Fused Fp1] & Hch).
  destruct (clearCell_ok pBt rcGet rcWrite stale Hnf Hc st' (list_to_set ps ∪ used) p pCell' _ _ _ _ _ Fg Hch) as (st'' & E' & Hg' & [FS FU F1 _ _]).
  { apply Forall_forall. intros q Hq. apply elem_of_union. left. by apply elem_of_list_to_set. }
  assert ((list_to_set ps ∪ used) ∖ list_to_set ps = used) as Eu.
  { apply set_eq. intros q. rewrite elem_of_difference, elem_of_union, elem_of_list_to_set. specialize (Fnew q).
    destruct (decide (q ∈ ps)); [specialize (Fnew ltac:(done))|]; tauto. }
  rewrite Eu in Hg'. exists st', pCell', n, st''. split_and!; [done..| | |done].
  - intros q Hq. rewrite FU, Fused; [done|done|apply elem_of_union; by right|intros Hin; by apply (Fnew q)].
  - by eapply same_outside_trans.
Qed.

Lemma clear_cell_frees_witness : exists st' pCell' n st'',
  fillInCell ex_auto (fun _ _ => 0) (fun _ _ => 0) (fun _ _ => ex_zeros) ex_leaf (replicate 600 0) [] 77 ex_row 600 200 ex_two =
    Ret (st', inr (pCell', n)) /\
  clearCell ex_auto (fun _ _ => 0) (fun _ _ => 0) (fun _ _ => ex_zeros) ex_leaf pCell' st' = Ret (st'', inr tt) /\
  dbSize st'' = dbSize st'.
Proof.
  destruct (clear_cell_frees ex_auto (fun _ _ => 0) (fun _ _ => 0) (fun _ _ => ex_zeros) ex_two ∅ ex_leaf (replicate 600 0) [] 77 ex_row 200)
    as (st' & pCell' & n & st'' & E & E' & _ & _ & _ & Hs).
  - done.
  - intros _ _. split; [apply Forall_replicate; unfold is_byte; lia|reflexivity].
  - unfold config_ok. cbn. lia.
  - apply ex_two_good.
  - apply ex_row_args.
  - vm_compute. congruence.
  - exists st', pCell', n, st''. split_and!; [exact E|exact E'|exact Hs].
Defined.
