(* ===== verification/BtreeCursor.v ===== *)
(** * Cursors: moving in a b-tree

    [moveToRoot], [moveToChild], [sqlite3BtreeFirst], [sqlite3BtreeLast],
    [sqlite3BtreeNext], [sqlite3BtreePrevious], [sqlite3BtreeMoveto] and the
    reading of keys and data of [btree.c], and the saving and restoring of
    positions.

    The store does not change while a cursor moves.  A page is read and
    initialised whenever the code asks for it; [pParent] and [idxParent] of
    the pages between the root and the cursor are kept in the cursor
    ([parents], the nearest first).  In a tree, where a page has one place, the
    pages that the code finds in its cache are the same; reference counts are
    not modelled.  The calls return their result code in the monad [CM]; what
    they changed in the cursor stays when they fail, and then [*pRes] is not
    told. *)

From S2P Require Import Prelude Varint Mem Record PageBytes BtreePage BtreeParse BtreeStore BtreeFree BtreePayload.

Definition CURSOR_INVALID : Z := 0.
Definition CURSOR_VALID : Z := 1.
Definition CURSOR_REQUIRESEEK : Z := 2.
Definition CURSOR_FAULT : Z := 3.

Record BtCursor := mkCursor {
  pgnoRoot : Z;
  cPage : option MemPage;             (** [pPage] *)
  parents : list (MemPage * Z);
  idx : Z;
  info : CellInfo;
  infoCell : list Z;                  (** [info.pCell] *)
  atLast : bool;
  validNKey : bool;
  eState : Z;
  cKey : option (list Z);             (** [pKey] *)
  cnKey : Z;                          (** [nKey] *)
  skip : Z;
}.

Definition set_place (p : option MemPage) (ps : list (MemPage * Z)) (i : Z) (c : BtCursor) : BtCursor :=
  mkCursor (pgnoRoot c) p ps i (info c) (infoCell c) (atLast c) (validNKey c) (eState c) (cKey c) (cnKey c) (skip c).
Definition set_idx (i : Z) (c : BtCursor) : BtCursor := set_place (cPage c) (parents c) i c.
Definition set_info (x : CellInfo) (valid : bool) (c : BtCursor) : BtCursor :=
  mkCursor (pgnoRoot c) (cPage c) (parents c) (idx c) x (infoCell c) (atLast c) valid (eState c) (cKey c) (cnKey c) (skip c).
Definition set_infoCell (l : list Z) (c : BtCursor) : BtCursor :=
  mkCursor (pgnoRoot c) (cPage c) (parents c) (idx c) (info c) l (atLast c) (validNKey c) (eState c) (cKey c) (cnKey c) (skip c).
Definition set_atLast (b : bool) (c : BtCursor) : BtCursor :=
  mkCursor (pgnoRoot c) (cPage c) (parents c) (idx c) (info c) (infoCell c) b (validNKey c) (eState c) (cKey c) (cnKey c) (skip c).
Definition set_eState (s : Z) (c : BtCursor) : BtCursor :=
  mkCursor (pgnoRoot c) (cPage c) (parents c) (idx c) (info c) (infoCell c) (atLast c) (validNKey c) s (cKey c) (cnKey c) (skip c).
Definition set_key (k : option (list Z)) (n : Z) (c : BtCursor) : BtCursor :=
  mkCursor (pgnoRoot c) (cPage c) (parents c) (idx c) (info c) (infoCell c) (atLast c) (validNKey c) (eState c) k n (skip c).
Definition set_skip (n : Z) (c : BtCursor) : BtCursor :=
  mkCursor (pgnoRoot c) (cPage c) (parents c) (idx c) (info c) (infoCell c) (atLast c) (validNKey c) (eState c) (cKey c) (cnKey c) n.

(** [info.nSize = 0] and [info.nKey = k] *)
Definition no_size (x : CellInfo) : CellInfo :=
  mkInfo (nKey x) (nData x) (nPayload x) (nHeader x) (nLocal x) (iOverflow x) 0.
Definition with_key (k : Z) (x : CellInfo) : CellInfo :=
  mkInfo k (nData x) (nPayload x) (nHeader x) (nLocal x) (iOverflow x) (nSize x).

Definition CM (A : Type) : Type := BtCursor -> res (BtCursor * (Z + A)).

#[export] Instance CM_ret : MRet CM := fun A a c => Ret (c, inr a).
#[export] Instance CM_bind : MBind CM := fun A B f m c =>
  match m c with
  | Ret (c, inr a) => f a c
  | Ret (c, inl rc) => Ret (c, inl rc)
  | Abort => Abort | UB => UB | NoFuel => NoFuel
  end.

Definition fail {A} (rc : Z) : CM A := fun c => Ret (c, inl rc).
Definition pure {A} (m : res A) : CM A := fun c => a ← m; Ret (c, inr a).
Definition cur : CM BtCursor := fun c => Ret (c, inr c).
Definition change (f : BtCursor -> BtCursor) : CM unit := fun c => Ret (f c, inr tt).

(** A call whose result code is looked at later. *)
Definition code {A} (m : CM A) : CM Z := fun c =>
  match m c with
  | Ret (c, inr _) => Ret (c, inr SQLITE_OK)
  | Ret (c, inl rc) => Ret (c, inr rc)
  | Abort => Abort | UB => UB | NoFuel => NoFuel
  end.

Section cursor.
Context (pBt : BtShared) (rcGet : Store -> Z -> Z) (stale : Store -> Z -> list Z) (st : Store).

(** What the keys of an index need: the target of the compiler, the garbage
    in fresh cells, the order of the columns and which allocations succeed. *)
Context (tg : target) (junk : Mem) (pKeyInfo : KeyInfo) (mallocs : list bool) (malloc_ok : Z -> bool).

(** A page from the pager: its bytes and its number. *)
Definition raw_page (pgno : Z) (d : list Z) : MemPage :=
  mkPage false false false false false false false (if pgno =? 1 then 100 else 0) 0 0 0 0 0 0 [] pgno None d.

(** A computation on the store that does not change it. *)
Definition reading {A} (m : BM A) : res (Z + A) :=
  match m st with Ret (_, r) => Ret r | Abort => Abort | UB => UB | NoFuel => NoFuel end.

Definition fetch {A} (m : res (Z + A)) : CM A := fun c => r ← m; Ret (c, r).

Definition getAndInitPage (pgno : Z) (pParent : option Z) : res (Z + MemPage) :=
  if pgno =? 0 then Ret (inl SQLITE_CORRUPT) else
  r ← reading (sqlite3BtreeGetPage pBt rcGet stale pgno false);
  match r with
  | inl rc => Ret (inl rc)
  | inr d =>
      '(rc, p) ← sqlite3BtreeInitPage pBt (raw_page pgno d) pParent;
      Ret (if rc =? SQLITE_OK then inr p else inl rc)
  end.

(** [pCur->pPage], which is not null. *)
Definition the_page : CM MemPage := c ← cur; pure (of_opt (cPage c)).

(** The cell of the page, with what is behind it. *)
Definition cell_at (pPage : MemPage) (i : Z) : res (list Z) :=
  pc ← findCell pPage i; Ret (drop (Z.to_nat pc) (aData pPage)).

Definition getCellInfo : CM unit :=
  c ← cur;
  if nSize (info c) =? 0 then
    pPage ← the_page;
    pCell ← pure (cell_at pPage (idx c));
    x ← pure (sqlite3BtreeParseCellPtr pBt pPage pCell);
    change (fun c => set_infoCell pCell (set_info x true c))
  else mret tt.

Definition reset_info : CM unit := change (fun c => set_info (no_size (info c)) false c).

(** ** Down and up *)

Definition moveToChild (newPgno : Z) : CM unit :=
  c ← cur;
  pure (c_assert (eState c =? CURSOR_VALID));;
  pOldPage ← the_page;
  pNewPage ← fetch (getAndInitPage newPgno (Some (pgno pOldPage)));
  change (fun c => set_place (Some pNewPage) ((set_idxShift false pOldPage, idx c) :: parents c) 0 c);;
  reset_info;;
  if nCell pNewPage <? 1 then fail SQLITE_CORRUPT else mret tt.

(** Of the page that the cursor is on. *)
Definition sqlite3BtreeIsRootPage (ps : list (MemPage * Z)) : res bool :=
  match ps with
  | [] => Ret true
  | (pParent, _) :: _ =>
      if 1 <? pgno pParent then Ret false else
      n ← get2byte (aData pParent) (hdrOffset pParent + 3); Ret (n =? 0)
  end.

Definition sqlite3BtreeMoveToParent : CM unit :=
  c ← cur;
  pure (c_assert (eState c =? CURSOR_VALID));;
  root ← pure (sqlite3BtreeIsRootPage (parents c));
  pure (c_assert (negb root));;
  match parents c with
  | [] => pure UB
  | (pParent, idxParent) :: ps =>
      pure (c_assert (negb (idxShift pParent)));;
      change (set_place (Some pParent) ps idxParent);; reset_info
  end.

Definition clearCursorPosition : CM unit := change (fun c => set_eState CURSOR_INVALID (set_key None (cnKey c) c)).

(** [get4byte(&pPage->aData[pPage->hdrOffset+8])] *)
Definition right_child (pPage : MemPage) : res Z := get4byte (aData pPage) (hdrOffset pPage + 8).

(** The root page, when the cursor is not on it. *)
Definition load_root : CM unit :=
  c ← cur;
  r ← pure (getAndInitPage (pgnoRoot c) None);
  match r with
  | inr pRoot => change (set_place (Some pRoot) [] (idx c))
  | inl rc => change (set_eState CURSOR_INVALID);; fail rc
  end.

Definition moveToRoot : CM unit :=
  c ← cur;
  (if CURSOR_REQUIRESEEK <=? eState c then
     if eState c =? CURSOR_FAULT then fail (skip c) else clearCursorPosition
   else mret tt);;
  c ← cur;
  (match cPage c with
   | Some pRoot => if pgno pRoot =? pgnoRoot c then pure (c_assert (isInit pRoot)) else load_root
   | None => load_root
   end);;
  pRoot ← the_page;
  change (set_idx 0);; change (fun c => set_atLast false (set_info (no_size (info c)) false c));;
  rc ← (if (nCell pRoot =? 0) && negb (leaf pRoot) then
          pure (c_assert (pgno pRoot =? 1));;
          subpage ← pure (right_child pRoot);
          pure (c_assert (0 <? subpage));;
          change (set_eState CURSOR_VALID);;
          code (moveToChild subpage)
        else mret SQLITE_OK);
  p ← the_page;
  change (set_eState (if 0 <? nCell p then CURSOR_VALID else CURSOR_INVALID));;
  if rc =? SQLITE_OK then mret tt else fail rc.

(** [depth] bounds the loops that go down or up, a page at a time. *)
Context (depth : nat).

Fixpoint leftmost_loop (fuel : nat) : CM unit :=
  match fuel with
  | O => pure NoFuel
  | S fuel =>
      pPage ← the_page;
      if leaf pPage then mret tt else
      c ← cur;
      pure (c_assert ((0 <=? idx c) && (idx c <? nCell pPage)));;
      pgno ← pure (pc ← findCell pPage (idx c); get4byte (aData pPage) pc);
      moveToChild pgno;; leftmost_loop fuel
  end.

Definition moveToLeftmost : CM unit :=
  c ← cur; pure (c_assert (eState c =? CURSOR_VALID));; leftmost_loop depth.

Fixpoint rightmost_loop (fuel : nat) : CM unit :=
  match fuel with
  | O => pure NoFuel
  | S fuel =>
      pPage ← the_page;
      if leaf pPage then mret tt else
      pgno ← pure (right_child pPage);
      change (set_idx (nCell pPage));;
      moveToChild pgno;; rightmost_loop fuel
  end.

(** The code returns [SQLITE_OK] whatever [rc] is. *)
Definition moveToRightmost : CM unit :=
  c ← cur; pure (c_assert (eState c =? CURSOR_VALID));;
  rc ← code (rightmost_loop depth);
  if rc =? SQLITE_OK then
    pPage ← the_page; change (set_idx (nCell pPage - 1));; reset_info
  else mret tt.

(** The first and the last entry: [*pRes]. *)
Definition sqlite3BtreeFirst : CM Z :=
  moveToRoot;;
  c ← cur; pPage ← the_page;
  if eState c =? CURSOR_INVALID then pure (c_assert (nCell pPage =? 0));; mret 1
  else pure (c_assert (0 <? nCell pPage));; moveToLeftmost;; mret 0.

Definition sqlite3BtreeLast : CM Z :=
  moveToRoot;;
  c ← cur; pPage ← the_page;
  if eState c =? CURSOR_INVALID then pure (c_assert (nCell pPage =? 0));; mret 1
  else
    pure (c_assert (eState c =? CURSOR_VALID));;
    rc ← code moveToRightmost;
    getCellInfo;;
    change (set_atLast (rc =? SQLITE_OK));;
    if rc =? SQLITE_OK then mret 0 else fail rc.

(** ** The key of an entry *)

Definition on_entry : CM MemPage :=
  c ← cur;
  pure (c_assert (eState c =? CURSOR_VALID));;
  pPage ← the_page;
  pure (c_assert ((0 <=? idx c) && (idx c <? nCell pPage)));;
  mret pPage.

(** The bytes from the pointer on, and [*pAmt]. *)
Definition fetchPayload (skipKey : bool) : CM (list Z * Z) :=
  pPage ← on_entry;
  getCellInfo;;
  c ← cur;
  let aPayload := drop (Z.to_nat (nHeader (info c))) (infoCell c) in
  let nKey := if intKey pPage then 0 else u32 (nKey (info c)) in
  if skipKey then mret (drop (Z.to_nat nKey) aPayload, s32 (u32 (nLocal (info c) - nKey)))
  else mret (aPayload, if nKey <? nLocal (info c) then s32 nKey else nLocal (info c)).

(** [sqlite3BtreeKey] and [sqlite3BtreeData] behind the restoring of the
    cursor, which a valid cursor does not need. *)
Definition read_key (offset amt : Z) : CM (list Z) :=
  c ← cur;
  pure (c_assert (eState c =? CURSOR_VALID));;
  pPage ← the_page;
  if intKey pPage then fail SQLITE_CORRUPT else
  pPage ← on_entry;
  getCellInfo;; c ← cur;
  fetch (reading (accessPayload pBt rcGet stale pPage (infoCell c) offset amt false)).

Definition read_data (offset amt : Z) : CM (list Z) :=
  pPage ← on_entry;
  getCellInfo;; c ← cur;
  fetch (reading (accessPayload pBt rcGet stale pPage (infoCell c) offset amt true)).

(** ** Searching *)

(** The rowid in a cell of a table. *)
Definition rowid_at (pPage : MemPage) (pCell : list Z) : res Z :=
  let pCell := drop (Z.to_nat (childPtrSize pPage)) pCell in
  pCell ← (if hasData pPage then '(k, _) ← getVarint32 pCell; Ret (drop (Z.to_nat k) pCell) else Ret pCell);
  '(_, v) ← sqlite3GetVarint pCell; Ret (s64 v).

(** How the current cell compares to the key, and its own key. *)
Definition compare_rowid (pPage : MemPage) (nKey : Z) : CM (Z * Z) :=
  c ← cur;
  nCellKey ← pure (pCell ← cell_at pPage (idx c); rowid_at pPage pCell);
  mret (if nCellKey =? nKey then 0 else if nCellKey <? nKey then -1 else 1, nCellKey).

(** What a buffer holds after the reading of a key into it failed. *)
Context (torn : list Z).

Definition compare_record (pUnKey : UnpackedRecord) : CM (Z * Z) :=
  '(pCellKey, available) ← fetchPayload false;
  c ← cur;
  let nCellKey := nKey (info c) in
  if nCellKey <=? available then
    r ← pure (sqlite3VdbeRecordCompare junk (s32 nCellKey) pCellKey pUnKey); mret (r, nCellKey)
  else if negb (malloc_ok (s32 nCellKey)) then fail SQLITE_NOMEM
  else
    r ← (fun c => match read_key 0 (u32 nCellKey) c with
                  | Ret (c, inr k) => Ret (c, inr (inr k))
                  | Ret (c, inl rc) => Ret (c, inr (inl rc))
                  | Abort => Abort | UB => UB | NoFuel => NoFuel
                  end);
    match r with
    | inr pCellKey =>
        r ← pure (sqlite3VdbeRecordCompare junk (s32 nCellKey) pCellKey pUnKey); mret (r, nCellKey)
    | inl rc =>
        pure (sqlite3VdbeRecordCompare junk (s32 nCellKey) torn pUnKey);; fail rc
    end.

(** The loop on one page: whether the entry was found here, [lwr] and [c]. *)
Fixpoint moveto_page (fuel : nat) (pPage : MemPage) (pUnKey : option UnpackedRecord) (nKey lwr upr : Z)
    : CM (bool * Z * Z) :=
  match fuel with
  | O => pure NoFuel
  | S fuel =>
      change (fun c => set_info (no_size (info c)) true c);;
      '(r, nCellKey) ← (if intKey pPage then compare_rowid pPage nKey
                        else match pUnKey with Some p2 => compare_record p2 | None => pure UB end);
      c ← cur;
      if r =? 0 then
        change (fun c => set_info (with_key nCellKey (info c)) (validNKey c) c);;
        mret (negb (leafData pPage && negb (leaf pPage)), idx c, r)
      else
        let lwr := if r <? 0 then idx c + 1 else lwr in
        let upr := if r <? 0 then upr else idx c - 1 in
        if upr <? lwr then
          change (fun c => set_info (with_key nCellKey (info c)) (validNKey c) c);; mret (false, lwr, r)
        else change (set_idx (Z.quot (lwr + upr) 2));; moveto_page fuel pPage pUnKey nKey lwr upr
  end.

(** The loop over the pages: [*pRes]. *)
Fixpoint moveto_loop (fuel : nat) (pUnKey : option UnpackedRecord) (nKey : Z) (biasRight : bool) : CM Z :=
  match fuel with
  | O => pure NoFuel
  | S fuel =>
      pPage ← the_page;
      let upr := nCell pPage - 1 in
      if negb (intKey pPage) && bool_decide (pUnKey = None) then fail SQLITE_CORRUPT else
      change (set_idx (if biasRight then upr else Z.quot upr 2));;
      '(found, lwr, r) ← (if 0 <=? upr then moveto_page (Z.to_nat (nCell pPage)) pPage pUnKey nKey 0 upr
                          else mret (false, 0, -1));
      if found : bool then mret 0 else
      pure (c_assert (isInit pPage));;
      chldPg ← (if leaf pPage then mret 0
                else if nCell pPage <=? lwr then pure (right_child pPage)
                else pure (pc ← findCell pPage lwr; get4byte (aData pPage) pc));
      if chldPg =? 0 then
        c ← cur; pure (c_assert ((0 <=? idx c) && (idx c <? nCell pPage)));; mret r
      else
        change (set_idx lwr);; reset_info;; moveToChild chldPg;; moveto_loop fuel pUnKey nKey biasRight
  end.

Definition sqlite3BtreeMoveto (pKey : option (list Z)) (pUnKey : option UnpackedRecord) (nKey : Z) (biasRight : bool) : CM Z :=
  c ← cur;
  fast ← (if (eState c =? CURSOR_VALID) && validNKey c then
            pPage ← the_page;
            mret (if negb (intKey pPage) then None
                  else if BtreePage.nKey (info c) =? nKey then Some 0
                  else if atLast c && (BtreePage.nKey (info c) <? nKey) then Some (-1) else None)
          else mret None);
  match fast with
  | Some r => mret r
  | None =>
      moveToRoot;;
      pPage ← the_page;
      pure (c_assert (isInit pPage));;
      c ← cur;
      if eState c =? CURSOR_INVALID then pure (c_assert (nCell pPage =? 0));; mret (-1) else
      pUnKey ← (if intKey pPage then
                  pure (c_assert (bool_decide (pUnKey = None) && bool_decide (pKey = None)));; mret pUnKey
                else match pUnKey with
                     | None =>
                         k ← pure (match pKey with Some k => Ret k | None => Abort end);
                         '(u, _) ← pure (sqlite3VdbeRecordUnpack tg junk pKeyInfo (s32 nKey) k 200 mallocs);
                         match u with Some u => mret (Some u) | None => fail SQLITE_NOMEM end
                     | Some _ => pure (c_assert (bool_decide (pKey = None)));; mret pUnKey
                     end);
      moveto_loop depth pUnKey nKey biasRight
  end.

(** Nothing when the cursor is not on an entry. *)
Definition sqlite3BtreeKeyFetch : CM (option (list Z * Z)) :=
  c ← cur; if eState c =? CURSOR_VALID then x ← fetchPayload false; mret (Some x) else mret None.
Definition sqlite3BtreeDataFetch : CM (option (list Z * Z)) :=
  c ← cur; if eState c =? CURSOR_VALID then x ← fetchPayload true; mret (Some x) else mret None.

(** ** Saving and restoring a position *)

(** The saved key is gone when the search succeeds. *)
Definition sqlite3BtreeRestoreOrClearCursorPosition : CM unit :=
  c ← cur;
  pure (c_assert (CURSOR_REQUIRESEEK <=? eState c));;
  if eState c =? CURSOR_FAULT then fail (skip c) else
  change (set_eState CURSOR_INVALID);;
  r ← sqlite3BtreeMoveto (cKey c) None (cnKey c) false;
  change (fun c => set_key None (cnKey c) (set_skip r c));;
  c ← cur;
  pure (c_assert ((eState c =? CURSOR_VALID) || (eState c =? CURSOR_INVALID))).

Definition restoreOrClearCursorPosition : CM unit :=
  c ← cur;
  if CURSOR_REQUIRESEEK <=? eState c then sqlite3BtreeRestoreOrClearCursorPosition else mret tt.

Definition sqlite3BtreeKeySize : CM Z :=
  restoreOrClearCursorPosition;;
  c ← cur;
  pure (c_assert ((eState c =? CURSOR_INVALID) || (eState c =? CURSOR_VALID)));;
  if eState c =? CURSOR_INVALID then mret 0 else
  getCellInfo;; c ← cur; mret (nKey (info c)).

Definition sqlite3BtreeDataSize : CM Z :=
  restoreOrClearCursorPosition;;
  c ← cur;
  pure (c_assert ((eState c =? CURSOR_INVALID) || (eState c =? CURSOR_VALID)));;
  if eState c =? CURSOR_INVALID then mret 0 else
  getCellInfo;; c ← cur; mret (nData (info c)).

Definition sqlite3BtreeKey (offset amt : Z) : CM (list Z) := restoreOrClearCursorPosition;; read_key offset amt.
Definition sqlite3BtreeData (offset amt : Z) : CM (list Z) := restoreOrClearCursorPosition;; read_data offset amt.

Definition saveCursorPosition : CM unit :=
  c ← cur;
  pure (c_assert ((eState c =? CURSOR_VALID) && bool_decide (cKey c = None)));;
  n ← sqlite3BtreeKeySize;
  change (fun c => set_key (cKey c) n c);;
  pPage ← the_page;
  (if intKey pPage then mret tt
   else if malloc_ok (s32 n) then
     k ← sqlite3BtreeKey 0 (u32 n); change (set_key (Some k) n)
   else fail SQLITE_NOMEM);;
  change (fun c => set_eState CURSOR_REQUIRESEEK (set_place None (parents c) (idx c) c)).

(** The cursors of the database, with the one that is left alone. *)
Fixpoint saveAllCursors (cursors : list BtCursor) (iRoot : Z) (pExcept : option nat) : res (list BtCursor * Z) :=
  match cursors with
  | [] => Ret ([], SQLITE_OK)
  | p :: cursors =>
      let next := match pExcept with Some (S n) => Some n | _ => None end in
      if negb (bool_decide (pExcept = Some O)) && ((iRoot =? 0) || (pgnoRoot p =? iRoot)) && (eState p =? CURSOR_VALID)
      then
        '(p, r) ← saveCursorPosition p;
        match r with
        | inl rc => Ret (p :: cursors, rc)
        | inr _ => '(cursors, rc) ← saveAllCursors cursors iRoot next; Ret (p :: cursors, rc)
        end
      else '(cursors, rc) ← saveAllCursors cursors iRoot next; Ret (p :: cursors, rc)
  end.

(** ** The next entry and the one before *)

Definition sqlite3BtreeEof (c : BtCursor) : bool := negb (CURSOR_VALID =? eState c).

(** [do{ ... }while( pCur->idx>=pPage->nCell )]: whether the root was left. *)
Fixpoint next_up (fuel : nat) : CM bool :=
  match fuel with
  | O => pure NoFuel
  | S fuel =>
      c ← cur;
      root ← pure (sqlite3BtreeIsRootPage (parents c));
      if root : bool then change (set_eState CURSOR_INVALID);; mret true else
      sqlite3BtreeMoveToParent;;
      pPage ← the_page; c ← cur;
      if nCell pPage <=? idx c then next_up fuel else mret false
  end.

(** [*pRes].  [calls] bounds the recursion: the call on an interior page of a
    table goes down to a leaf. *)
Fixpoint sqlite3BtreeNext (calls : nat) : CM Z :=
  match calls with
  | O => pure NoFuel
  | S calls =>
      restoreOrClearCursorPosition;;
      c ← cur;
      if eState c =? CURSOR_INVALID then mret 1 else
      if 0 <? skip c then change (set_skip 0);; mret 0 else
      change (set_skip 0);;
      pPage ← the_page;
      pure (c_assert (isInit pPage && (idx c <? nCell pPage)));;
      change (set_idx (idx c + 1));; reset_info;;
      if nCell pPage <=? idx c + 1 then
        if negb (leaf pPage) then
          pgno ← pure (right_child pPage); moveToChild pgno;; moveToLeftmost;; mret 0
        else
          eof ← next_up depth;
          if eof : bool then mret 1 else
          pPage ← the_page;
          if leafData pPage then sqlite3BtreeNext calls else mret 0
      else if leaf pPage then mret 0
      else moveToLeftmost;; mret 0
  end.

(** [while( pCur->idx==0 ){ ... }]: whether the root was left. *)
Fixpoint previous_up (fuel : nat) : CM bool :=
  match fuel with
  | O => pure NoFuel
  | S fuel =>
      c ← cur;
      if idx c =? 0 then
        root ← pure (sqlite3BtreeIsRootPage (parents c));
        if root : bool then change (set_eState CURSOR_INVALID);; mret true else
        sqlite3BtreeMoveToParent;; previous_up fuel
      else mret false
  end.

Fixpoint sqlite3BtreePrevious (calls : nat) : CM Z :=
  match calls with
  | O => pure NoFuel
  | S calls =>
      restoreOrClearCursorPosition;;
      change (set_atLast false);;
      c ← cur;
      if eState c =? CURSOR_INVALID then mret 1 else
      if skip c <? 0 then change (set_skip 0);; mret 0 else
      change (set_skip 0);;
      pPage ← the_page;
      pure (c_assert (isInit pPage && (0 <=? idx c)));;
      if negb (leaf pPage) then
        pgno ← pure (pc ← findCell pPage (idx c); get4byte (aData pPage) pc);
        moveToChild pgno;; moveToRightmost;; mret 0
      else
        eof ← previous_up depth;
        if eof : bool then mret 1 else
        c ← cur; change (set_idx (idx c - 1));; reset_info;;
        pPage ← the_page;
        (if leafData pPage && negb (leaf pPage) then _ ← sqlite3BtreePrevious calls; mret tt else mret tt);;
        mret 0
  end.

End cursor.
