(* ===== verification/BtreeWalk.v ===== *)
(** * Walking through a b-tree

    A [btree] is a tree of pages as the store holds it; [entries] are its
    entries in order.  [sqlite3BtreeFirst] and [sqlite3BtreeNext] visit them
    from the first to the last, [sqlite3BtreeLast] and [sqlite3BtreePrevious]
    from the last to the first.  A position is a zipper: the pages on the way
    from the root, each with its children and the child that was taken. *)

From S2P Require Import Prelude Varint PageBytes BtreePage BtreeStore Record Mem BtreeCursor.

(** ** Computing in the monad of cursors *)

Lemma bind_run {A B} (m : CM A) (f : A -> CM B) c c' a : m c = Ret (c', inr a) -> (m ≫= f) c = f a c'.
Proof. intros E. unfold mbind, CM_bind. by rewrite E. Qed.

Lemma bind_fails {A B} (m : CM A) (f : A -> CM B) c c' rc : m c = Ret (c', inl rc) -> (m ≫= f) c = Ret (c', inl rc).
Proof. intros E. unfold mbind, CM_bind. by rewrite E. Qed.

Lemma bind_ret {A B} (a : A) (f : A -> CM B) c : ((mret a : CM A) ≫= f) c = f a c.
Proof. done. Qed.

Lemma bind_cur {B} (f : BtCursor -> CM B) c : (cur ≫= f) c = f c c.
Proof. done. Qed.

Lemma bind_change {B} g (f : unit -> CM B) c : (change g ≫= f) c = f tt (g c).
Proof. done. Qed.

Lemma bind_pure {A B} (m : res A) (f : A -> CM B) c a : m = Ret a -> (pure m ≫= f) c = f a c.
Proof. by intros ->. Qed.

Lemma bind_assert {B} b (f : unit -> CM B) c : b = true -> (pure (c_assert b) ≫= f) c = f tt c.
Proof. by intros ->. Qed.

Lemma bind_page {B} (f : MemPage -> CM B) c p : cPage c = Some p -> (the_page ≫= f) c = f p c.
Proof. intros E. unfold the_page, mbind, CM_bind. cbn. by rewrite E. Qed.

Lemma bind_code {A B} (m : CM A) (f : Z -> CM B) c c' a : m c = Ret (c', inr a) -> (code m ≫= f) c = f SQLITE_OK c'.
Proof. intros E. unfold code, mbind, CM_bind. by rewrite E. Qed.

Lemma bind_assoc {A B C} (m : CM A) (f : A -> CM B) (g : B -> CM C) c : ((m ≫= f) ≫= g) c = (m ≫= fun a => f a ≫= g) c.
Proof. unfold mbind, CM_bind. destruct (m c) as [[c' [rc|a]]| | |]; done. Qed.

(** The steps that cannot fail. *)
Ltac crun_cm := repeat first [rewrite bind_cur | rewrite bind_change | rewrite bind_ret].

(** ** Places *)

(** The cursor at an entry, with nothing known about its cell. *)
Definition moved (p : MemPage) (ps : list (MemPage * Z)) (i : Z) (c : BtCursor) : BtCursor :=
  set_info (no_size (info c)) false (set_place (Some p) ps i c).

Lemma moved_moved p ps i p' ps' i' c : moved p ps i (moved p' ps' i' c) = moved p ps i c.
Proof. done. Qed.

Lemma set_idx_moved p ps i i' c : set_idx i' (moved p ps i c) = moved p ps i' c.
Proof. done. Qed.

(** ** Trees of pages *)

Inductive btree := Node (p : MemPage) (kids : list btree).

Definition tree_page (t : btree) : MemPage := match t with Node p _ => p end.

(** The cells of a leaf; the cell of an interior page, when it is an entry. *)
Definition cells (p : MemPage) : list (MemPage * Z) := (fun i => (p, Z.of_nat i)) <$> seq 0 (Z.to_nat (nCell p)).
Definition own (p : MemPage) (i : Z) : list (MemPage * Z) := if leafData p then [] else [(p, i)].

Lemma cells_take_drop p i x : (x ∈ take i (cells p) -> x.1 = p /\ 0 <= x.2 < Z.of_nat i) /\
  (x ∈ drop i (cells p) -> x.1 = p /\ Z.of_nat i <= x.2 < nCell p).
Proof.
  split; intros [n Hx]%list_elem_of_lookup.
  - apply lookup_take_Some in Hx as [Hx Hn]. unfold cells in Hx. rewrite list_lookup_fmap in Hx. apply fmap_Some in Hx as (m & Hm & ->).
    apply lookup_seq in Hm. cbn. split; [done|lia].
  - rewrite lookup_drop in Hx. unfold cells in Hx. rewrite list_lookup_fmap in Hx. apply fmap_Some in Hx as (m & Hm & ->).
    apply lookup_seq in Hm. cbn. split; [done|lia].
Qed.

(** The entries behind the child [i]; [ks] are the children after it. *)
Fixpoint after (E : btree -> list (MemPage * Z)) (p : MemPage) (i : Z) (ks : list btree) : list (MemPage * Z) :=
  match ks with
  | [] => []
  | k :: ks => own p i ++ E k ++ after E p (i + 1) ks
  end.

Fixpoint entries (t : btree) : list (MemPage * Z) :=
  match t with
  | Node p [] => cells p
  | Node p (k :: ks) => entries k ++ after entries p 0 ks
  end.

Section tree.
Context (pBt : BtShared) (rcGet : Store -> Z -> Z) (stale : Store -> Z -> list Z) (st : Store).
Notation load := (getAndInitPage pBt rcGet stale st).

(** The number of the child [i] of a page. *)
Definition child (p : MemPage) (i : Z) : res Z :=
  if nCell p <=? i then right_child p else pc ← findCell p i; get4byte (aData p) pc.

(** The tree on the page [pgno (tree_page t)] of the store, all leaves [h]
    levels below. [root] is the page that it hangs on. *)
Fixpoint shape (root : Z) (h : nat) (par : option Z) (t : btree) : Prop :=
  let '(Node p kids) := t in
  load (pgno p) par = Ret (inr p) /\
  match h with
  | O => leaf p = true /\ kids = []
  | S h =>
      leaf p = false /\ zlen kids = nCell p + 1 /\
      forall i k, kids !! i = Some k ->
        child p (Z.of_nat i) = Ret (pgno (tree_page k)) /\ 1 <= nCell (tree_page k) /\ pgno (tree_page k) <> root /\
        shape root h (Some (pgno p)) k
  end.

Lemma shape_load root h par t : shape root h par t -> load (pgno (tree_page t)) par = Ret (inr (tree_page t)).
Proof. destruct t, h; apply proj1. Qed.

(** A whole tree.  Only page 1 may have a single child. *)
Record tree_ok (root : Z) (h : nat) (t : btree) : Prop := {
  tree_shape : shape root h None t;
  tree_root : pgno (tree_page t) = root;
  tree_cells : 0 <= nCell (tree_page t);
  tree_single : leaf (tree_page t) = true \/ 1 <= nCell (tree_page t) \/ root = 1;
}.

(** ** What is known of a page that was read *)

Lemma getVarint32_width d n v : getVarint32 d = Ret (n, v) -> 0 <= n.
Proof.
  unfold getVarint32, sqlite3GetVarint32. intros E.
  repeat match type of E with
    | (_ ≫= _) = Ret _ => apply bind_Ret_inv in E as (? & ? & E)
    | (if ?b then _ else _) = Ret _ => destruct b
    | Ret _ = Ret _ => injection E as <- <-; try lia
    | (let '(_, _) := ?x in _) = Ret _ => destruct x
    end.
  match goal with H : c_assert ((5 <? ?n) && _) = Ret _ |- _ => destruct (Z.ltb_spec 5 n); [lia|discriminate H] end.
Qed.

Lemma init_page_fields q par p : isInit q = false -> sqlite3BtreeInitPage pBt q par = Ret (SQLITE_OK, p) ->
  isInit p = true /\ idxShift p = false /\ pgno p = pgno q /\ get2byte (aData p) (hdrOffset p + 3) = Ret (nCell p).
Proof.
  intros Hq E. unfold sqlite3BtreeInitPage in E. rewrite Hq in E.
  destruct (_ && _); [discriminate|]. cbv zeta in E.
  apply bind_Ret_inv in E as (h0 & _ & E).
  apply bind_Ret_inv in E as (top & _ & E). apply bind_Ret_inv in E as (k & Hk & E).
  destruct (MX_CELL pBt <? k); [discriminate|]. destruct (_ && _) in E; [discriminate|].
  apply bind_Ret_inv in E as (pc & _ & E). apply bind_Ret_inv in E as (nFrag & _ & E).
  apply bind_Ret_inv in E as ([nFree|] & _ & E); [|discriminate].
  destruct (usableSize pBt <=? nFree); [discriminate|]. injection E as <-. done.
Qed.

Lemma load_page n par p : load n par = Ret (inr p) ->
  isInit p = true /\ idxShift p = false /\ pgno p = n /\ n <> 0 /\ get2byte (aData p) (hdrOffset p + 3) = Ret (nCell p).
Proof.
  unfold getAndInitPage. destruct (Z.eqb_spec n 0) as [|Hn]; [discriminate|]. intros E.
  apply bind_Ret_inv in E as ([rc|d] & _ & E); [discriminate|].
  apply bind_Ret_inv in E as ([rc q] & E & Eq). destruct (Z.eqb_spec rc SQLITE_OK) as [->|]; [|discriminate].
  injection Eq as ->. apply init_page_fields in E; [|done]. cbn in E. naive_solver.
Qed.

Lemma get4byte_nonneg d a v : get4byte d a = Ret v -> 0 <= v.
Proof.
  unfold get4byte. case_decide; [|discriminate]. unfold sqlite3Get4byte. intros E.
  repeat (apply bind_Ret_inv in E as (? & _ & E)). injection E as <-. apply Z.mod_pos_bound. lia.
Qed.

Lemma child_nonneg p i n : child p i = Ret n -> 0 <= n.
Proof.
  unfold child, right_child. destruct (_ <=? _); intros E; [by apply get4byte_nonneg in E|].
  apply bind_Ret_inv in E as (pc & _ & E). by apply get4byte_nonneg in E.
Qed.

Lemma parse_rowid p pCell x : intKey p = true -> sqlite3BtreeParseCellPtr pBt p pCell = Ret x -> rowid_at p pCell = Ret (nKey x).
Proof.
  intros Hk E. unfold sqlite3BtreeParseCellPtr in E. apply bind_Ret_inv in E as ([] & Hcp & E). rewrite Hk in E.
  unfold c_assert in Hcp. destruct (Z.eqb_spec (childPtrSize p) (4 - 4 * b2z (leaf p))) as [Hcs|]; [|discriminate].
  assert (0 <= childPtrSize p) as H0 by (rewrite Hcs; destruct (leaf p); cbn; lia).
  apply bind_Ret_inv in E as ([n v] & E1 & E). apply bind_Ret_inv in E as ([[n2 k] v2] & E2 & E).
  apply bind_Ret_inv in E2 as ([j w] & E2 & [= <- <- <-]). unfold rowid_at.
  assert (nKey x = s64 w) as ->.
  { destruct (_ <=? _); [by injection E as <-|]. apply bind_Ret_inv in E as (? & _ & [= <-]). done. }
  destruct (hasData p).
  - apply bind_Ret_inv in E1 as ([i v3] & E1 & [= <- <-]). rewrite E1. cbn.
    rewrite Z2Nat.inj_add, <- drop_drop in E2; [by rewrite E2|done|]. by eapply getVarint32_width.
  - injection E1 as <- <-. cbn. by rewrite E2.
Qed.

(** ** Positions *)

Context (root : Z) (height : nat) (tree : btree).
Context (ok : tree_ok root height tree).

(** The pages above, the nearest first, with the child that was taken. *)
Notation zipper := (list (MemPage * list btree * nat)).

Definition frames (z : zipper) : list (MemPage * Z) := (fun '(p, _, i) => (p, Z.of_nat i)) <$> z.
Definition parent_of (z : zipper) : option Z := match z with [] => None | (p, _, _) :: _ => Some (pgno p) end.

Fixpoint path (z : zipper) (h : nat) (t : btree) : Prop :=
  match z with
  | [] => h = height /\ t = tree
  | (p, kids, i) :: z => kids !! i = Some t /\ path z (S h) (Node p kids)
  end.

(** The entries behind the subtree at the end of a path. *)
Fixpoint up (z : zipper) : list (MemPage * Z) :=
  match z with
  | [] => []
  | (p, kids, i) :: z => after entries p (Z.of_nat i) (drop (S i) kids) ++ up z
  end.

(** The entry the cursor is on and those behind it. *)
Definition todo (z : zipper) (p : MemPage) (kids : list btree) (i : nat) : list (MemPage * Z) :=
  match kids with
  | [] => drop i (cells p) ++ up z
  | _ => after entries p (Z.of_nat i) (drop (S i) kids) ++ up z
  end.

Lemma path_shape z : forall h t, path z h t -> shape root h (parent_of z) t.
Proof.
  induction z as [|[[p kids] i] z IH]; intros h t; cbn.
  - intros [-> ->]. apply ok.
  - intros [Hk Hp]. apply IH in Hp as (Hl & _ & _ & H). cbn in *. by apply (H i t).
Qed.

Lemma path_below fr z h t : path (fr :: z) h t -> 1 <= nCell (tree_page t) /\ pgno (tree_page t) <> root.
Proof.
  destruct fr as [[p kids] i]. cbn. intros [Hk Hp]. apply path_shape in Hp as (_ & _ & _ & H).
  destruct (H i t Hk) as (_ & ? & ? & _). done.
Qed.

Lemma path_height z : forall h t, path z h t -> (length z + h = height)%nat.
Proof.
  induction z as [|[[p kids] i] z IH]; intros h t; cbn; [lia|]. intros [_ Hp]. apply IH in Hp. lia.
Qed.

(** What a page on a path is. *)
Lemma path_page z h p kids : path z h (Node p kids) ->
  load (pgno p) (parent_of z) = Ret (inr p) /\ isInit p = true /\ set_idxShift false p = p /\
  get2byte (aData p) (hdrOffset p + 3) = Ret (nCell p) /\ 0 <= nCell p /\
  leaf p = bool_decide (h = O) /\ (h = O <-> kids = []) /\ (h <> O -> zlen kids = nCell p + 1).
Proof.
  intros Hp. pose proof (path_shape _ _ _ Hp) as Hs. pose proof (shape_load _ _ _ _ Hs) as Hl. cbn [tree_page] in Hl.
  pose proof (load_page _ _ _ Hl) as (Hi & Hx & _ & _ & Hn). split; [done|]. split; [done|].
  split; [destruct p; cbn in *; by subst|]. split; [done|].
  assert (0 <= nCell p) as H0.
  { destruct z as [|fr z]; [|apply path_below in Hp; cbn in Hp; lia].
    destruct Hp as [-> Ht]. destruct ok as [_ _ Hc _]. by rewrite <- Ht in Hc. }
  split; [done|]. destruct h as [|h].
  - destruct Hs as (_ & -> & ->). done.
  - destruct Hs as (_ & -> & Hz & _). split; [done|]. split; [|done]. split; [done|].
    intros ->. rewrite zlen_nil in Hz. lia.
Qed.

Lemma path_child z h p kids i : path z (S h) (Node p kids) -> 0 <= i <= nCell p ->
  exists k, kids !! Z.to_nat i = Some k /\ child p i = Ret (pgno (tree_page k)) /\
    1 <= nCell (tree_page k) /\ load (pgno (tree_page k)) (Some (pgno p)) = Ret (inr (tree_page k)).
Proof.
  intros Hp Hi. pose proof (path_shape _ _ _ Hp) as (_ & _ & Hz & H).
  destruct (rd_lt kids i) as [k Hk]; [lia|]. apply rd_Some in Hk as [_ Hk]. exists k. split; [done|].
  destruct (H _ _ Hk) as (Hc & Hn & _ & Hs). rewrite Z2Nat.id in Hc by lia. split_and!; [done..|]. by apply shape_load in Hs.
Qed.

(** The root page has no place but at the top. *)
Definition at_home (p : MemPage) (ps : list (MemPage * Z)) : Prop := pgno p = root -> p = tree_page tree /\ ps = [].

Lemma path_home z h t : path z h t -> at_home (tree_page t) (frames z).
Proof. intros Hp Hr. destruct z as [|fr z]; [by destruct Hp as [_ ->]|]. by apply path_below in Hp as [_ []]. Qed.

(** A cursor that may be moved. *)
Record ready (c : BtCursor) : Prop := {
  ready_root : pgnoRoot c = root;
  ready_state : eState c <> CURSOR_FAULT;
  ready_home : forall p, cPage c = Some p -> at_home p (parents c);
}.

Lemma moved_ready z h t i c : path z h t -> pgnoRoot c = root -> eState c <> CURSOR_FAULT -> ready (moved (tree_page t) (frames z) i c).
Proof. intros Hp Hr Hs. split; [done|done|]. intros p [= <-]. exact (path_home _ _ _ Hp). Qed.

Lemma moved_eq p ps i c : cPage c = Some p -> parents c = ps ->
  set_info (no_size (info (set_idx i c))) false (set_idx i c) = moved p ps i c.
Proof. destruct c. cbn. by intros -> ->. Qed.

(** ** One page down *)

Lemma bind_fetch {A B} (m : res (Z + A)) (f : A -> CM B) c a : m = Ret (inr a) -> (fetch m ≫= f) c = f a c.
Proof. by intros ->. Qed.

Notation moveToChild := (moveToChild pBt rcGet stale st).

Lemma moveToChild_at z h p kids i k c : path z (S h) (Node p kids) -> kids !! i = Some k -> eState c = CURSOR_VALID ->
  cPage c = Some p -> parents c = frames z -> idx c = Z.of_nat i ->
  moveToChild (pgno (tree_page k)) c = Ret (moved (tree_page k) (frames ((p, kids, i) :: z)) 0 c, inr tt) /\
  path ((p, kids, i) :: z) h k.
Proof.
  intros Hp Hk Hs Hc Hps Hi. pose proof (path_shape _ _ _ Hp) as (_ & _ & Hz & H).
  destruct (H _ _ Hk) as (_ & Hn & _ & Hl%shape_load). pose proof (path_page _ _ _ _ Hp) as (_ & _ & Hx & _).
  split; [|done]. unfold BtreeCursor.moveToChild. crun_cm. rewrite bind_assert by (by rewrite Hs).
  rewrite (bind_page _ _ p), (bind_fetch _ _ _ _ Hl) by done. crun_cm. unfold reset_info. crun_cm.
  rewrite (proj2 (Z.ltb_ge _ _)) by lia. rewrite Hx, Hi, Hps. done.
Qed.

Lemma moveToChild_ok z h p kids i k c : path z (S h) (Node p kids) -> kids !! i = Some k -> eState c = CURSOR_VALID ->
  moveToChild (pgno (tree_page k)) (moved p (frames z) (Z.of_nat i) c) =
    Ret (moved (tree_page k) (frames ((p, kids, i) :: z)) 0 c, inr tt) /\ path ((p, kids, i) :: z) h k.
Proof. intros Hp Hk Hs. exact (moveToChild_at _ _ _ _ _ _ (moved p (frames z) (Z.of_nat i) c) Hp Hk Hs eq_refl eq_refl eq_refl). Qed.

(** ** The leftmost leaf *)

(** The entries from the child or the cell [i] on. *)
Definition below (z : zipper) (p : MemPage) (kids : list btree) (i : nat) : list (MemPage * Z) :=
  match kids with
  | [] => drop i (cells p)
  | _ => match drop i kids with [] => [] | k :: ks => entries k ++ after entries p (Z.of_nat i) ks end
  end ++ up z.

Lemma below_entries z p kids : below z p kids 0 = entries (Node p kids) ++ up z.
Proof. by destruct kids. Qed.

Lemma below_child z p kids i k : kids !! i = Some k -> below z p kids i = entries k ++ up ((p, kids, i) :: z).
Proof.
  intros Hk. unfold below. rewrite (drop_S _ _ _ Hk). destruct kids; [done|]. cbn [up]. by rewrite app_assoc.
Qed.

Lemma cells_drop p i : (i < Z.to_nat (nCell p))%nat -> drop i (cells p) = (p, Z.of_nat i) :: drop (S i) (cells p).
Proof. intros Hi. apply drop_S. unfold cells. by rewrite list_lookup_fmap, lookup_seq_lt. Qed.

Lemma todo_leaf z p i : Z.of_nat i < nCell p -> todo z p [] i = (p, Z.of_nat i) :: below z p [] (S i).
Proof. intros Hi. unfold todo, below. rewrite cells_drop by lia. done. Qed.

Lemma todo_interior z p kids i : zlen kids = nCell p + 1 -> Z.of_nat i < nCell p ->
  todo z p kids i = own p (Z.of_nat i) ++ below z p kids (S i).
Proof.
  intros Hz Hi. destruct (rd_lt kids (Z.of_nat (S i))) as [k Hk]; [lia|]. rewrite rd_nat in Hk.
  rewrite (below_child _ _ _ _ _ Hk). unfold todo. rewrite (drop_S _ _ _ Hk).
  destruct kids; [done|]. cbn [after up]. rewrite <- !app_assoc. do 3 f_equal. f_equal. lia.
Qed.

Lemma below_cons h : forall z p kids i, path z h (Node p kids) -> Z.of_nat i < nCell p -> below z p kids i <> [].
Proof.
  induction h as [|h IH]; intros z p kids i Hp Hi; pose proof (path_page _ _ _ _ Hp) as (_ & _ & _ & _ & _ & _ & Hk & _).
  - rewrite (proj1 Hk eq_refl). unfold below. by rewrite cells_drop by lia.
  - destruct (path_child _ _ _ _ (Z.of_nat i) Hp ltac:(lia)) as ([pk kk] & Hki & _ & Hn & _). rewrite Nat2Z.id in Hki.
    rewrite (below_child _ _ _ _ _ Hki), <- below_entries. apply IH; [by split|]. cbn in Hn. lia.
Qed.

Lemma below_behind z h p kids i : path z (S h) (Node p kids) -> Z.of_nat i < nCell p -> below z p kids (S i) <> [].
Proof.
  intros Hp Hi. destruct (path_child _ _ _ _ (Z.of_nat (S i)) Hp ltac:(lia)) as ([pk kk] & Hki & _ & Hn & _). rewrite Nat2Z.id in Hki.
  rewrite (below_child _ _ _ _ _ Hki), <- below_entries. apply (below_cons h); [by split|]. cbn in Hn. lia.
Qed.

Notation leftmost_loop := (leftmost_loop pBt rcGet stale st).

Lemma leftmost_ok fuel : forall h z p kids i c, path z h (Node p kids) -> Z.of_nat i < nCell p -> (h < fuel)%nat ->
  eState c = CURSOR_VALID ->
  exists z' p' i', leftmost_loop fuel (moved p (frames z) (Z.of_nat i) c) = Ret (moved p' (frames z') (Z.of_nat i') c, inr tt) /\
    path z' 0 (Node p' []) /\ Z.of_nat i' < nCell p' /\ todo z' p' [] i' = below z p kids i.
Proof.
  induction fuel as [|fuel IH]; intros h z p kids i c Hp Hi Hf Hs; [lia|]. cbn [BtreeCursor.leftmost_loop].
  rewrite (bind_page _ _ p) by done. pose proof (path_page _ _ _ _ Hp) as (_ & _ & _ & _ & _ & Hl & Hk & Hz). rewrite Hl.
  destruct h as [|h].
  - exists z, p, i. rewrite (proj1 Hk eq_refl) in *. rewrite bool_decide_eq_true_2 by done. done.
  - rewrite bool_decide_eq_false_2 by done. crun_cm. rewrite bind_assert by (cbn; apply andb_true_iff; lia).
    destruct (path_child _ _ _ _ (Z.of_nat i) Hp ltac:(lia)) as (k & Hki & Hc & Hn & _). rewrite Nat2Z.id in Hki.
    unfold child in Hc. rewrite (proj2 (Z.leb_gt _ _)) in Hc by lia. rewrite (bind_pure _ _ _ _ Hc).
    destruct (moveToChild_ok _ _ _ _ _ _ c Hp Hki Hs) as [E Hp']. rewrite (bind_run _ _ _ _ _ E).
    destruct k as [pk kk]. destruct (IH h _ pk kk 0%nat c Hp' ltac:(cbn in *; lia) ltac:(lia) Hs) as (z' & p' & i' & E' & ? & ? & Ht).
    exists z', p', i'. split; [exact E'|]. split; [done|]. split; [done|].
    by rewrite Ht, below_entries, (below_child _ _ _ _ _ Hki).
Qed.

(** ** The rightmost leaf *)

Notation rightmost_loop := (rightmost_loop pBt rcGet stale st).

(** The loop leaves the cursor on the first cell of the leaf. *)
Lemma rightmost_ok fuel : forall h z p kids i c, path z h (Node p kids) -> 1 <= nCell p -> (h < fuel)%nat ->
  eState c = CURSOR_VALID ->
  exists z' p' i', rightmost_loop fuel (moved p (frames z) i c) = Ret (moved p' (frames z') i' c, inr tt) /\
    path z' 0 (Node p' []) /\ 1 <= nCell p' /\
    todo z' p' [] (Z.to_nat (nCell p' - 1)) = (p', nCell p' - 1) :: up z.
Proof.
  induction fuel as [|fuel IH]; intros h z p kids i c Hp Hn Hf Hs; [lia|]. cbn [BtreeCursor.rightmost_loop].
  rewrite (bind_page _ _ p) by done. pose proof (path_page _ _ _ _ Hp) as (_ & _ & _ & _ & _ & Hl & Hk & Hz). rewrite Hl.
  destruct h as [|h].
  - exists z, p, i. rewrite (proj1 Hk eq_refl) in *. rewrite bool_decide_eq_true_2 by done. split_and!; try done.
    rewrite todo_leaf, Z2Nat.id by lia. f_equal. unfold below. rewrite drop_ge; [done|].
    unfold cells. rewrite length_fmap, length_seq. lia.
  - rewrite bool_decide_eq_false_2 by done.
    destruct (path_child _ _ _ _ (nCell p) Hp ltac:(lia)) as (k & Hki & Hc & Hnk & _).
    unfold child in Hc. rewrite Z.leb_refl in Hc. rewrite (bind_pure _ _ _ _ Hc). crun_cm.
    destruct (moveToChild_ok _ _ _ _ _ _ c Hp Hki Hs) as [E Hp']. rewrite Z2Nat.id in E by lia. rewrite (bind_run _ _ _ _ _ E).
    destruct k as [pk kk]. destruct (IH h _ pk kk 0 c Hp' Hnk ltac:(lia) Hs) as (z' & p' & i' & E' & ? & ? & Ht).
    exists z', p', i'. split; [exact E'|]. split; [done|]. split; [done|]. rewrite Ht. f_equal. cbn [up].
    rewrite drop_ge; [done|]. unfold zlen in Hz. lia.
Qed.

(** ** One page up *)

(** The root of the walk: the root page, or the only child of page 1. *)
Lemma isRootPage_ok z h t : path z h t ->
  sqlite3BtreeIsRootPage (frames z) = Ret (match z with [] => true | (p, _, _) :: _ => nCell p =? 0 end).
Proof.
  destruct z as [|[[p kids] i] z]; [done|]. cbn. intros [Hk Hp].
  pose proof (path_page _ _ _ _ Hp) as (_ & _ & _ & Hn & _ & Hl & _). rewrite bool_decide_eq_false_2 in Hl by done.
  destruct (Z.ltb_spec 1 (pgno p)) as [H1|_]; [|by rewrite Hn].
  rewrite (proj2 (Z.eqb_neq _ _)); [done|]. destruct z as [|fr z].
  - destruct Hp as [_ E]. destruct ok as [_ Hr _ Hs]. rewrite <- E in Hr, Hs. cbn in Hr, Hs. rewrite Hl in Hs. destruct Hs as [?|[?|?]]; [done|lia..].
  - apply path_below in Hp. cbn in Hp. lia.
Qed.

Lemma single_child z p kids i h t : path ((p, kids, i) :: z) h t -> nCell p = 0 ->
  z = [] /\ i = O /\ up ((p, kids, i) :: z) = [] /\ entries t = entries tree.
Proof.
  cbn. intros [Hk Hp] H0. pose proof (path_page _ _ _ _ Hp) as (_ & _ & _ & _ & _ & _ & _ & Hz). specialize (Hz ltac:(lia)).
  destruct z as [|fr z]; [|apply path_below in Hp; cbn in Hp; lia]. destruct Hp as [_ <-]. split; [done|].
  destruct kids as [|k [|]]; [done| |unfold zlen in Hz; cbn in Hz; lia].
  destruct i as [|i]; [|done]. injection Hk as ->. cbn. rewrite app_nil_r. done.
Qed.

Lemma moveToParent_ok z p kids i h t c : path ((p, kids, i) :: z) h t -> nCell p <> 0 -> eState c = CURSOR_VALID ->
  parents c = frames ((p, kids, i) :: z) -> sqlite3BtreeMoveToParent c = Ret (moved p (frames z) (Z.of_nat i) c, inr tt).
Proof.
  intros Hp Hn Hs Hps. unfold sqlite3BtreeMoveToParent. crun_cm. rewrite bind_assert by (cbn; by rewrite Hs).
  rewrite Hps. rewrite (bind_pure _ _ _ false) by (rewrite (isRootPage_ok _ _ _ Hp); f_equal; lia). rewrite bind_assert by done.
  cbn [frames fmap list_fmap]. pose proof Hp as [_ Hp']. pose proof (path_page _ _ _ _ Hp') as (_ & _ & Hx & _).
  rewrite bind_assert by (by rewrite <- Hx). crun_cm. done.
Qed.

(** Up to a page with a cell behind the child: to an entry, or to a cell of an
    interior page of a table. *)
Lemma next_up_ok z : forall h t j c fuel, path z h t -> (length z < fuel)%nat -> eState c = CURSOR_VALID ->
  (up z = [] /\ exists p' ps' j', at_home p' ps' /\
     next_up fuel (moved (tree_page t) (frames z) j c) = Ret (set_eState CURSOR_INVALID (moved p' ps' j' c), inr true)) \/
  exists z' h' p' kids' i', next_up fuel (moved (tree_page t) (frames z) j c) = Ret (moved p' (frames z') (Z.of_nat i') c, inr false) /\
    path z' (S h') (Node p' kids') /\ Z.of_nat i' < nCell p' /\ up z = todo z' p' kids' i'.
Proof.
  induction z as [|[[p kids] i] z IH]; intros h t j c [|fuel] Hp Hf Hs; try (cbn in Hf; lia); cbn [next_up]; crun_cm;
    rewrite (bind_pure _ _ _ _ (isRootPage_ok _ _ _ Hp)).
  - left. split; [done|]. exists (tree_page t), [], j. split; [exact (path_home _ _ _ Hp)|done].
  - destruct (Z.eqb_spec (nCell p) 0) as [H0|H0].
    + left. destruct (single_child _ _ _ _ _ _ Hp H0) as (_ & _ & -> & _). split; [done|].
      eexists _, _, j. split; [exact (path_home _ _ _ Hp)|done].
    + rewrite (bind_run _ _ _ _ _ (moveToParent_ok _ _ _ _ _ _ (moved (tree_page t) _ j c) Hp H0 Hs eq_refl)), moved_moved.
      rewrite (bind_page _ _ p) by done. crun_cm. cbn [idx moved set_info set_place].
      pose proof Hp as [Hk Hp']. pose proof (path_page _ _ _ _ Hp') as (_ & _ & _ & _ & Hn & _ & _ & Hz). specialize (Hz ltac:(lia)).
      destruct (Z.leb_spec (nCell p) (Z.of_nat i)).
      * apply lookup_lt_Some in Hk. cbn [up]. rewrite drop_ge by (unfold zlen in Hz; lia). cbn [after app].
        apply (IH _ (Node p kids) (Z.of_nat i) c fuel Hp'); [cbn in Hf; lia|done].
      * right. exists z, h, p, kids, i. split_and!; try done. destruct kids; [done|]. done.
Qed.

(** Up over first children; the caller goes one cell back. *)
Lemma previous_up_ok z : forall h p kids i c fuel, path z h (Node p kids) -> (length z < fuel)%nat -> eState c = CURSOR_VALID ->
  pgnoRoot c = root -> cPage c = Some p -> parents c = frames z -> idx c = Z.of_nat i ->
  (below z p kids i = entries tree /\ exists c', previous_up fuel c = Ret (set_eState CURSOR_INVALID c', inr true) /\
     ready (set_eState CURSOR_INVALID c') /\ skip c' = skip c) \/
  exists c' z' h' p' kids' i', previous_up fuel c = Ret (c', inr false) /\ idx c' = Z.of_nat (S i') /\
    (forall j, moved p' (frames z') j c' = moved p' (frames z') j c) /\ cPage c' = Some p' /\ parents c' = frames z' /\
    path z' h' (Node p' kids') /\ (i = O -> h' <> O) /\ (i <> O -> z' = z /\ p' = p /\ kids' = kids /\ S i' = i) /\
    (i = O -> (S i' < length kids')%nat) /\ below z p kids i = below z' p' kids' (S i').
Proof.
  induction z as [|[[q qs] k] z IH]; intros h p kids i c [|fuel] Hp Hf Hs Hr Hc Hps Hi; try (cbn in Hf; lia); cbn [previous_up]; crun_cm;
    rewrite Hi; (destruct (Z.eqb_spec (Z.of_nat i) 0) as [H|H];
      [replace i with O in * by lia; clear H|right; destruct i as [|i]; [done|]; exists c; eexists _, h, p, kids, i; by split_and!]);
    rewrite Hps, (bind_pure _ _ _ _ (isRootPage_ok _ _ _ Hp)).
  - left. rewrite below_entries. cbn [up]. rewrite app_nil_r. split; [by destruct Hp as [_ ->]|].
    exists c. split; [done|]. split; [|done]. split; [done|done|]. cbn. rewrite Hc, Hps. intros ? [= <-]. exact (path_home _ _ _ Hp).
  - destruct (Z.eqb_spec (nCell q) 0) as [H0|H0].
    + left. destruct (single_child _ _ _ _ _ _ Hp H0) as (_ & _ & Hu & He). rewrite below_entries, Hu, app_nil_r. split; [done|].
      exists c. split; [done|]. split; [|done]. split; [done|done|]. cbn. rewrite Hc, Hps. intros ? [= <-]. exact (path_home _ _ _ Hp).
    + rewrite (bind_run _ _ _ _ _ (moveToParent_ok _ _ _ _ _ _ _ Hp H0 Hs Hps)). pose proof Hp as [Hk Hp'].
      rewrite below_entries, <- (below_child _ _ _ _ _ Hk).
      destruct (IH _ _ _ k (moved q (frames z) (Z.of_nat k) c) fuel Hp' ltac:(cbn in Hf; lia) Hs Hr eq_refl eq_refl eq_refl)
        as [H|(c' & z' & h' & p' & kids' & i' & E & Hx & Hm & Hc' & Hps' & Hp2 & H1 & H2 & H3 & Hb)]; [by left|].
      right. exists c', z', h', p', kids', i'. split_and!; try done.
      * intros _. destruct k as [|k]; [by apply H1|]. destruct (H2 ltac:(done)) as (-> & -> & -> & _).
        pose proof (path_height _ _ _ Hp'). pose proof (path_height _ _ _ Hp2). lia.
      * intros _. destruct k as [|k]; [by apply H3|]. destruct (H2 ltac:(done)) as (-> & -> & -> & ->). by apply lookup_lt_Some in Hk.
Qed.

(** ** To the root *)

(** A saved position is forgotten. *)
Definition unsaved (c : BtCursor) : BtCursor :=
  if CURSOR_REQUIRESEEK <=? eState c then set_eState CURSOR_INVALID (set_key None (cnKey c) c) else c.

Lemma unsaved_fields c : cPage (unsaved c) = cPage c /\ parents (unsaved c) = parents c /\ pgnoRoot (unsaved c) = pgnoRoot c /\
  skip (unsaved c) = skip c.
Proof. unfold unsaved. by case_match. Qed.

Lemma tree_load : load root None = Ret (inr (tree_page tree)) /\ isInit (tree_page tree) = true.
Proof.
  destruct ok as [Hs Hr _ _]. apply shape_load in Hs. rewrite Hr in Hs. split; [done|]. by apply load_page in Hs as [? _].
Qed.

Notation moveToRoot := (moveToRoot pBt rcGet stale st).

(** Where the search for a key or for the first entry starts. *)
Lemma moveToRoot_ok c : ready c -> exists z h p kids,
  path z h (Node p kids) /\ entries tree = below z p kids 0 /\ (nCell p = 0 -> h = O /\ entries tree = []) /\ up z = [] /\
  moveToRoot c = Ret (set_eState (if 0 <? nCell p then CURSOR_VALID else CURSOR_INVALID)
                       (moved p (frames z) 0 (set_atLast false (unsaved c))), inr tt).
Proof.
  intros [Hr Hs Hh]. destruct tree_load as [Hload Hinit]. destruct (unsaved_fields c) as (U1 & U2 & U3 & _).
  unfold BtreeCursor.moveToRoot. crun_cm.
  rewrite (bind_run _ _ _ (unsaved c) tt).
  2:{ unfold unsaved. destruct (_ <=? _); [|done]. by rewrite (proj2 (Z.eqb_neq _ _) Hs). }
  set (c1 := unsaved c) in *. crun_cm. rewrite (bind_run _ _ c1 (set_place (Some (tree_page tree)) [] (idx c1) c1) tt).
  2:{ assert (load_root pBt rcGet stale st c1 = Ret (set_place (Some (tree_page tree)) [] (idx c1) c1, inr tt)) as El.
      { unfold load_root. crun_cm. rewrite U3, Hr, (bind_pure _ _ _ _ Hload). done. }
      destruct (cPage c1) as [p|] eqn:E; [|exact El]. rewrite U3, Hr. destruct (Z.eqb_spec (pgno p) root) as [Hp|]; [|exact El].
      destruct (Hh p (eq_sym U1) Hp) as [-> Hps]. rewrite <- U2 in Hps. rewrite Hinit.
      destruct c1. cbn in *. subst. by rewrite Hps. }
  rewrite (bind_page _ _ (tree_page tree)) by done. crun_cm.
  assert (exists p kids, tree = Node p kids) as (p & kids & Et) by (destruct tree; eauto).
  assert (path [] height (Node p kids)) as Hp by (by rewrite <- Et).
  pose proof ok as [_ Hrt Hn Hsingle]. rewrite Et in Hn, Hsingle, Hrt. replace (tree_page tree) with p by (by rewrite Et).
  clear Hload Hinit. cbn [tree_page] in *.
  pose proof (path_page _ _ _ _ Hp) as (_ & _ & _ & _ & _ & Hl & Hk & Hz).
  destruct ((nCell p =? 0) && negb (leaf p)) eqn:Ev.
  - apply andb_true_iff in Ev as [H0%Z.eqb_eq Hlf%negb_true_iff]. rewrite Hlf in *.
    assert (exists h, height = S h) as [h Eh] by (destruct height; [done|eauto]). rewrite Eh in Hp. destruct Hsingle as [?|[?|H1]]; [done|lia|].
    destruct (path_child _ _ _ _ 0 Hp ltac:(lia)) as (k & Hki & Hc & Hnk & Hlk).
    pose proof (child_nonneg _ _ _ Hc). pose proof (load_page _ _ _ Hlk) as (_ & _ & _ & Hne & _).
    unfold child in Hc. rewrite H0 in Hc. cbn in Hc.
    rewrite (bind_run _ _ _ (moved (tree_page k) (frames [(p, kids, 0%nat)]) 0 (set_eState CURSOR_VALID (set_atLast false c1))) SQLITE_OK).
    2:{ rewrite bind_assert by (apply Z.eqb_eq; lia). rewrite (bind_pure _ _ _ _ Hc).
        rewrite bind_assert by (apply Z.ltb_lt; lia). crun_cm. unfold code.
        destruct (moveToChild_ok [] h p kids 0 k (set_eState CURSOR_VALID (set_atLast false c1)) Hp Hki eq_refl) as [E _].
        replace (set_eState _ (set_atLast _ _)) with (moved p (frames []) (Z.of_nat 0) (set_eState CURSOR_VALID (set_atLast false c1))) by done.
        by rewrite E. }
    rewrite (bind_page _ _ (tree_page k)) by done. crun_cm. destruct k as [pk kk].
    exists [(p, kids, 0%nat)], h, pk, kk. split; [by split|]. split; [by rewrite below_entries, <- (below_child _ _ _ _ _ Hki), below_entries, app_nil_r, Et|].
    split; [cbn in Hnk; lia|].
    split; [|done]. by apply (single_child [] p kids 0 h (Node pk kk)); [split|].
  - crun_cm. rewrite (bind_page _ _ p) by done. crun_cm. exists [], height, p, kids. split; [done|].
    split; [by rewrite below_entries, app_nil_r, Et|]. split; [|done]. intros H0. rewrite H0 in Ev. cbn in Ev.
    apply negb_false_iff in Ev. rewrite Ev in Hl. symmetry in Hl. apply bool_decide_eq_true in Hl. split; [done|].
    rewrite Et, (proj1 Hk Hl). cbn. unfold cells. by rewrite H0.
Qed.

(** ** Where the cursor stands *)

(** On an entry, with [l] from there on. *)
Definition on (c : BtCursor) (l : list (MemPage * Z)) : Prop := exists z h p kids i,
  path z h (Node p kids) /\ Z.of_nat i < nCell p /\ (h = O \/ leafData p = false) /\ l = todo z p kids i /\
  cPage c = Some p /\ parents c = frames z /\ idx c = Z.of_nat i /\ eState c = CURSOR_VALID /\ pgnoRoot c = root.

(** What the cursor remembers of its cell is right. *)
Definition cached (c : BtCursor) : Prop := forall p, cPage c = Some p ->
  (nSize (info c) <> 0 -> cell_at p (idx c) = Ret (infoCell c) /\ sqlite3BtreeParseCellPtr pBt p (infoCell c) = Ret (info c)) /\
  (validNKey c = true -> intKey p = true -> (pCell ← cell_at p (idx c); rowid_at p pCell) = Ret (nKey (info c))).

(** [l] are the entries that are left; a cursor behind the last entry, and one
    in an empty table, has none. *)
Definition stands (c : BtCursor) (l : list (MemPage * Z)) : Prop :=
  match l with
  | [] => ready c /\ eState c = CURSOR_INVALID
  | _ => on c l /\ cached c /\ (atLast c = true -> length l = 1%nat)
  end.

Lemma todo_head z h p kids i : path z h (Node p kids) -> Z.of_nat i < nCell p -> h = O \/ leafData p = false ->
  exists l, todo z p kids i = (p, Z.of_nat i) :: l /\ l = below z p kids (S i).
Proof.
  intros Hp Hi Hl. pose proof (path_page _ _ _ _ Hp) as (_ & _ & _ & _ & _ & _ & Hk & Hz).
  destruct (decide (h = O)) as [Hh|Hh].
  - rewrite (proj1 Hk Hh). rewrite todo_leaf by done. eauto.
  - destruct Hl as [?|Hl]; [done|]. rewrite todo_interior by auto. unfold own. rewrite Hl. eauto.
Qed.

Lemma on_ready c l : on c l -> ready c.
Proof.
  intros (z & h & p & kids & i & Hp & _ & _ & _ & Hc & Hps & _ & Hs & Hr). split; [done|by rewrite Hs|].
  intros q Hq. rewrite Hq in Hc. injection Hc as ->. rewrite Hps. exact (path_home _ _ _ Hp).
Qed.

Lemma stands_ready c l : stands c l -> ready c.
Proof. destruct l; [by intros []|]. intros [H _]. by eapply on_ready. Qed.

Lemma stands_at z h p kids i c : path z h (Node p kids) -> Z.of_nat i < nCell p -> h = O \/ leafData p = false ->
  cPage c = Some p -> parents c = frames z -> idx c = Z.of_nat i -> eState c = CURSOR_VALID -> pgnoRoot c = root -> cached c ->
  (atLast c = true -> length (todo z p kids i) = 1%nat) -> stands c (todo z p kids i).
Proof.
  intros Hp Hi Hl Hc Hps Hx Hs Hr Hca Ha. destruct (todo_head _ _ _ _ _ Hp Hi Hl) as (l & E & _). rewrite E in *. cbn [stands].
  split; [|by split]. exists z, h, p, kids, i. by split_and!.
Qed.

(** The cursor at a new place. *)
Lemma stands_moved z h p kids i c : path z h (Node p kids) -> Z.of_nat i < nCell p -> h = O \/ leafData p = false ->
  eState c = CURSOR_VALID -> pgnoRoot c = root -> (atLast c = true -> length (todo z p kids i) = 1%nat) ->
  stands (moved p (frames z) (Z.of_nat i) c) (todo z p kids i).
Proof. intros. by apply (stands_at z h). Qed.

(** ** First *)

Context (depth : nat) (deep : (height < depth)%nat).

Notation moveToLeftmost := (moveToLeftmost pBt rcGet stale st depth).

Lemma moveToLeftmost_ok h z p kids i c : path z h (Node p kids) -> Z.of_nat i < nCell p -> eState c = CURSOR_VALID ->
  pgnoRoot c = root -> (atLast c = true -> length (below z p kids i) = 1%nat) ->
  exists z' p' i', moveToLeftmost (moved p (frames z) (Z.of_nat i) c) = Ret (moved p' (frames z') (Z.of_nat i') c, inr tt) /\
    stands (moved p' (frames z') (Z.of_nat i') c) (below z p kids i) /\ below z p kids i <> [].
Proof.
  intros Hp Hi Hs Hr Ha. unfold BtreeCursor.moveToLeftmost. crun_cm. rewrite bind_assert by (cbn; by rewrite Hs).
  pose proof (path_height _ _ _ Hp).
  destruct (leftmost_ok depth _ _ _ _ _ c Hp Hi ltac:(lia) Hs) as (z' & p' & i' & E & Hp' & Hi' & Ht).
  exists z', p', i'. split; [done|]. rewrite <- Ht in *. split; [by eapply stands_moved; eauto|].
  destruct (todo_head _ _ _ _ _ Hp' Hi' ltac:(by left)) as (l & -> & _). done.
Qed.

Notation First := (sqlite3BtreeFirst pBt rcGet stale st depth).

Definition is_nil {A} (l : list A) : Z := match l with [] => 1 | _ => 0 end.

Lemma first_ok c : ready c -> exists c', First c = Ret (c', inr (is_nil (entries tree))) /\ stands c' (entries tree) /\
  skip c' = skip c.
Proof.
  intros Hc. destruct (moveToRoot_ok c Hc) as (z & h & p & kids & Hp & He & H0 & _ & E). unfold sqlite3BtreeFirst.
  rewrite (bind_run _ _ _ _ _ E). crun_cm. rewrite (bind_page _ _ p) by done. destruct (unsaved_fields c) as (_ & _ & U & Us).
  pose proof (path_page _ _ _ _ Hp) as (_ & _ & _ & _ & Hn & _). rewrite <- Us. destruct Hc as [Hr Hs Hh].
  destruct (Z.ltb_spec 0 (nCell p)) as [Hlt|Hge].
  - cbn [eState set_eState]. change (CURSOR_VALID =? CURSOR_INVALID) with false. cbv match. rewrite bind_assert by done.
    rewrite He. destruct (moveToLeftmost_ok h z p kids 0 (set_eState CURSOR_VALID (set_atLast false (unsaved c))) Hp ltac:(lia) eq_refl
      ltac:(cbn; congruence) ltac:(done)) as (z' & p' & i' & El & Hst & Hne).
    rewrite (bind_run _ _ _ _ _ El). eexists. split; [|by split]. unfold is_nil. by destruct (below z p kids 0).
  - cbn [eState set_eState]. change (CURSOR_INVALID =? CURSOR_INVALID) with true. cbv match.
    destruct (H0 ltac:(lia)) as [_ ->]. rewrite bind_assert by (apply Z.eqb_eq; lia). eexists. split; [done|]. split; [|done].
    split; [|done]. apply (moved_ready z h (Node p kids) 0 (set_eState CURSOR_INVALID (set_atLast false (unsaved c))) Hp); [cbn; congruence|done].
Qed.

(** ** Next *)

Context (tg : target) (junk : Mem) (pKeyInfo : KeyInfo) (mallocs : list bool) (malloc_ok : Z -> bool) (torn : list Z).

Notation restore := (restoreOrClearCursorPosition pBt rcGet stale st tg junk pKeyInfo mallocs malloc_ok depth torn).
Notation Next := (sqlite3BtreeNext pBt rcGet stale st tg junk pKeyInfo mallocs malloc_ok depth torn).

Lemma restore_valid c : eState c < CURSOR_REQUIRESEEK -> restore c = Ret (c, inr tt).
Proof. intros H. unfold restoreOrClearCursorPosition. crun_cm. by rewrite (proj2 (Z.leb_gt _ _)). Qed.

(** The body of [Next] up to the loop that goes up. *)
Lemma next_start calls c p : eState c = CURSOR_VALID -> skip c <= 0 -> cPage c = Some p -> isInit p = true -> idx c < nCell p ->
  Next (S calls) c =
    (if nCell p <=? idx c + 1 then
       if negb (leaf p) then
         pgno ← pure (right_child p); moveToChild pgno;; moveToLeftmost;; mret 0
       else
         eof ← next_up depth;
         if eof : bool then mret 1 else
         pPage ← the_page;
         if leafData pPage then Next calls else mret 0
     else if leaf p then mret 0
     else moveToLeftmost;; mret 0) (moved p (parents c) (idx c + 1) (set_skip 0 c)).
Proof.
  intros Hs Hk Hc Hi Hx. cbn [sqlite3BtreeNext]. rewrite (bind_run _ _ _ _ _ (restore_valid c ltac:(by rewrite Hs))).
  crun_cm. rewrite Hs. change (CURSOR_VALID =? CURSOR_INVALID) with false. cbv match.
  rewrite (proj2 (Z.ltb_ge _ _)) by done. crun_cm. rewrite (bind_page _ _ p) by done.
  rewrite bind_assert by (rewrite Hi; cbn; by apply Z.ltb_lt). crun_cm. unfold reset_info. crun_cm. cbv beta.
  rewrite <- (moved_eq p (parents c) (idx c + 1) (set_skip 0 c)) by done. done.
Qed.

(** From an interior page into the child behind the cell. *)
Lemma next_interior calls z h p kids i c : path z (S h) (Node p kids) -> Z.of_nat i < nCell p -> eState c = CURSOR_VALID ->
  skip c <= 0 -> pgnoRoot c = root -> cPage c = Some p -> parents c = frames z -> idx c = Z.of_nat i ->
  atLast c = false ->
  exists c', Next (S calls) c = Ret (c', inr 0) /\ stands c' (below z p kids (S i)) /\ below z p kids (S i) <> [] /\ skip c' = 0.
Proof.
  intros Hp Hi Hs Hsk Hr Hc Hps Hx Ha. pose proof (path_page _ _ _ _ Hp) as (_ & Hin & _ & _ & _ & Hl & _).
  rewrite (next_start _ _ p), Hl, Hps, Hx by (done || lia). rewrite bool_decide_eq_false_2 by done. cbn [negb].
  replace (Z.of_nat i + 1) with (Z.of_nat (S i)) by lia.
  destruct (Z.leb_spec (nCell p) (Z.of_nat (S i))) as [Hge|Hlt].
  - destruct (path_child _ _ _ _ (nCell p) Hp ltac:(lia)) as (k & Hki & Hch & Hn & _).
    unfold child in Hch. rewrite Z.leb_refl in Hch. rewrite (bind_pure _ _ _ _ Hch).
    replace (nCell p) with (Z.of_nat (S i)) in Hki by lia. rewrite Nat2Z.id in Hki.
    destruct (moveToChild_ok _ _ _ _ _ _ (set_skip 0 c) Hp Hki Hs) as [E Hp']. rewrite (bind_run _ _ _ _ _ E).
    destruct k as [pk kk]. rewrite (below_child _ _ _ _ _ Hki), <- below_entries in *.
    destruct (moveToLeftmost_ok _ _ _ _ 0 (set_skip 0 c) Hp' ltac:(cbn in *; lia) Hs Hr ltac:(cbn; congruence)) as (z' & p' & i' & El & Hst & Hne).
    change (moved (tree_page (Node pk kk)) (frames ((p, kids, S i) :: z)) 0 (set_skip 0 c)) with
      (moved pk (frames ((p, kids, S i) :: z)) (Z.of_nat 0) (set_skip 0 c)).
    rewrite (bind_run _ _ _ _ _ El). eauto.
  - destruct (moveToLeftmost_ok _ _ _ _ (S i) (set_skip 0 c) Hp Hlt Hs Hr ltac:(cbn; congruence)) as (z' & p' & i' & El & Hst & Hne).
    rewrite (bind_run _ _ _ _ _ El). eauto.
Qed.

Lemma next_ok c l : stands c l -> skip c <= 0 ->
  exists c', Next 2 c = Ret (c', inr (is_nil (tail l))) /\ stands c' (tail l) /\ skip c' <= 0.
Proof.
  destruct l as [|e l].
  { intros [Hc Hs] Hk. exists c. split; [|done]. cbn [sqlite3BtreeNext].
    rewrite (bind_run _ _ _ _ _ (restore_valid c ltac:(by rewrite Hs))). crun_cm. by rewrite Hs. }
  intros [(z & h & p & kids & i & Hp & Hi & Hl & E & Hc & Hps & Hx & Hs & Hr) [_ Ha]] Hk.
  destruct (todo_head _ _ _ _ _ Hp Hi Hl) as (l' & E' & Hb). rewrite E' in E. injection E as -> ->. cbn [tail].
  assert (atLast c = true -> below z p kids (S i) = []) as Ha' by (rewrite <- Hb; intros ?%Ha; by destruct l'). subst l'. clear Ha E'.
  pose proof (path_page _ _ _ _ Hp) as (_ & Hin & _ & _ & Hn & Hlf & Hkn & Hz). pose proof (path_height _ _ _ Hp).
  destruct h as [|h].
  - rewrite (next_start _ _ p), Hlf, Hx, Hps by (done || lia). rewrite bool_decide_eq_true_2 by done. cbn [negb].
    rewrite (proj1 Hkn eq_refl) in *. replace (Z.of_nat i + 1) with (Z.of_nat (S i)) by lia.
    destruct (Z.leb_spec (nCell p) (Z.of_nat (S i))) as [Hge|Hlt].
    + assert (below z p [] (S i) = up z) as Eb.
      { unfold below. rewrite drop_ge; [done|]. unfold cells. rewrite length_fmap, length_seq. lia. }
      rewrite Eb in *. destruct (next_up_ok z 0 (Node p []) (Z.of_nat (S i)) (set_skip 0 c) depth Hp ltac:(lia) Hs)
        as [(Eu & p' & ps' & j' & Hh & E)|(z' & h' & p' & kids' & i' & E & Hp' & Hi' & Eu)]; cbn [tree_page] in E; rewrite (bind_run _ _ _ _ _ E).
      * rewrite Eu. eexists. split; [done|]. split; [|done]. split; [|done]. split; [done|done|]. by intros ? [= <-].
      * rewrite (bind_page _ _ p') by done. destruct (leafData p') eqn:Eld.
        -- pose proof (path_page _ _ _ _ Hp') as (_ & _ & _ & _ & _ & _ & _ & Hz').
           rewrite Eu, (todo_interior _ _ _ _ (Hz' ltac:(done)) Hi') in *. unfold own in *. rewrite Eld in *. cbn [app] in *.
           destruct (next_interior 0 _ _ _ _ _ (moved p' (frames z') (Z.of_nat i') (set_skip 0 c)) Hp' Hi' Hs ltac:(done) Hr eq_refl eq_refl eq_refl)
             as (c' & En & Hst & Hne & Hsk); [cbn; by apply not_true_is_false; intros Hal; apply (below_behind _ _ _ _ _ Hp' Hi'), Ha'|].
           exists c'. split; [rewrite En|]. { unfold is_nil. by destruct (below _ _ _ _). } split; [done|lia].
        -- destruct (todo_head _ _ _ _ _ Hp' Hi' (or_intror Eld)) as (l2 & E2 & _). rewrite Eu in *.
           eexists. split; [by rewrite E2|]. split; [|done]. eapply stands_moved; eauto. intros Hal. specialize (Ha' Hal). by rewrite E2 in Ha'.
    + destruct (todo_head z 0 p [] (S i) Hp Hlt ltac:(by left)) as (l2 & E2 & _).
      change (below z p [] (S i)) with (todo z p [] (S i)) in *. eexists. split; [by rewrite E2|]. split; [|done].
      eapply stands_moved; eauto. intros Hal. specialize (Ha' Hal). by rewrite E2 in Ha'.
  - destruct (next_interior 1 _ _ _ _ _ c Hp Hi Hs Hk Hr Hc Hps Hx) as (c' & En & Hst & Hne & Hsk).
    { apply not_true_is_false. intros Hal. by apply (below_behind _ _ _ _ _ Hp Hi), Ha'. }
    exists c'. split; [rewrite En|]. { unfold is_nil. by destruct (below _ _ _ _). } split; [done|lia].
Qed.

(** ** Previous *)

Lemma after_split p ks : forall j i k, ks !! i = Some k ->
  exists b, after entries p j ks = b ++ entries k ++ after entries p (j + 1 + Z.of_nat i) (drop (S i) ks).
Proof.
  clear deep. induction ks as [|k0 ks IH]; intros j i k Hk; [done|]. destruct i as [|i].
  - injection Hk as ->. exists (own p j). cbn. by rewrite Z.add_0_r.
  - destruct (IH (j + 1) i k Hk) as [b E]. exists (own p j ++ entries k0 ++ b). cbn [after]. rewrite E, <- !app_assoc.
    do 4 f_equal. cbn. f_equal. lia.
Qed.

Lemma kid_suffix p kids i k : kids !! i = Some k ->
  exists b, entries (Node p kids) = b ++ entries k ++ after entries p (Z.of_nat i) (drop (S i) kids).
Proof.
  clear deep. destruct kids as [|k0 ks]; [done|]. destruct i as [|i]; [intros [= ->]; by exists []|]. cbn [lookup list_lookup]. intros Hk.
  destruct (after_split p ks 0 i k Hk) as [b E]. exists (entries k0 ++ b). cbn [entries]. rewrite E, <- app_assoc. cbn [drop].
  do 3 f_equal. f_equal. lia.
Qed.

Lemma path_suffix z : forall h t, path z h t -> exists b, entries tree = b ++ entries t ++ up z.
Proof.
  clear deep. induction z as [|[[p kids] i] z IH]; intros h t.
  - intros [_ ->]. exists []. by rewrite app_nil_r.
  - intros [Hk Hp]. destruct (IH _ _ Hp) as [b E]. destruct (kid_suffix p _ _ _ Hk) as [b' E'].
    exists (b ++ b'). rewrite E, E'. cbn [up]. by rewrite <- !app_assoc.
Qed.

Lemma todo_suffix z h p kids i : path z h (Node p kids) -> Z.of_nat i < nCell p -> exists b, entries tree = b ++ todo z p kids i.
Proof.
  clear deep. intros Hp Hi. destruct (path_suffix _ _ _ Hp) as [b E].
  pose proof (path_page _ _ _ _ Hp) as (_ & _ & _ & _ & _ & _ & Hk & Hz). destruct (decide (h = O)) as [Hh|Hh].
  - rewrite (proj1 Hk Hh) in *. exists (b ++ take i (cells p)). rewrite E. unfold todo. rewrite <- app_assoc. f_equal.
    by rewrite app_assoc, take_drop.
  - destruct (rd_lt kids (Z.of_nat i)) as [k Hki]; [specialize (Hz Hh); lia|]. rewrite rd_nat in Hki.
    destruct (kid_suffix p _ _ _ Hki) as [b' E']. exists (b ++ b' ++ entries k). rewrite E, E'. unfold todo.
    destruct kids; [done|]. by rewrite <- !app_assoc.
Qed.

Lemma on_suffix c l : on c l -> exists b, entries tree = b ++ l.
Proof. intros (z & h & p & kids & i & Hp & Hi & _ & -> & _). by apply (todo_suffix _ _ _ _ _ Hp). Qed.

Notation moveToRightmost := (moveToRightmost pBt rcGet stale st depth).

Lemma moveToRightmost_ok h z p kids i c : path z h (Node p kids) -> 1 <= nCell p -> eState c = CURSOR_VALID ->
  pgnoRoot c = root -> atLast c = false ->
  exists z' p', let n := Z.to_nat (nCell p' - 1) in
    moveToRightmost (moved p (frames z) i c) = Ret (moved p' (frames z') (Z.of_nat n) c, inr tt) /\
    path z' 0 (Node p' []) /\ Z.of_nat n < nCell p' /\ todo z' p' [] n = (p', Z.of_nat n) :: up z.
Proof.
  intros Hp Hi Hs Hr Ha. unfold BtreeCursor.moveToRightmost. crun_cm. rewrite bind_assert by (cbn; by rewrite Hs).
  pose proof (path_height _ _ _ Hp).
  destruct (rightmost_ok depth _ _ _ _ i c Hp Hi ltac:(lia) Hs) as (z' & p' & i' & E & Hp' & Hn & Ht).
  rewrite (bind_code _ _ _ _ _ E). exists z', p'. cbv zeta. rewrite Z2Nat.id by lia. split; [|split; [done|split; [lia|done]]].
  change (SQLITE_OK =? SQLITE_OK) with true. cbv match. rewrite (bind_page _ _ p') by done. done.
Qed.

Notation Previous := (sqlite3BtreePrevious pBt rcGet stale st tg junk pKeyInfo mallocs malloc_ok depth torn).

Lemma previous_start calls c p : eState c = CURSOR_VALID -> 0 <= skip c -> cPage c = Some p -> isInit p = true -> 0 <= idx c ->
  Previous (S calls) c =
    (if negb (leaf p) then
       pgno ← pure (pc ← findCell p (idx c); get4byte (aData p) pc);
       moveToChild pgno;; moveToRightmost;; mret 0
     else
       eof ← previous_up depth;
       if eof : bool then mret 1 else
       c ← cur; change (set_idx (idx c - 1));; reset_info;;
       pPage ← the_page;
       (if leafData pPage && negb (leaf pPage) then _ ← Previous calls; mret tt else mret tt);;
       mret 0) (set_skip 0 (set_atLast false c)).
Proof.
  intros Hs Hk Hc Hi Hx. cbn [sqlite3BtreePrevious]. rewrite (bind_run _ _ _ _ _ (restore_valid c ltac:(by rewrite Hs))).
  crun_cm. cbn [eState skip set_atLast]. rewrite Hs. change (CURSOR_VALID =? CURSOR_INVALID) with false. cbv match.
  rewrite (proj2 (Z.ltb_ge _ _)) by done. crun_cm. rewrite (bind_page _ _ p) by done.
  rewrite bind_assert by (rewrite Hi; cbn; by apply Z.leb_le). done.
Qed.

(** From an interior page into the child before the cell. *)
Lemma previous_interior calls z h p kids i c : path z (S h) (Node p kids) -> Z.of_nat i < nCell p -> eState c = CURSOR_VALID ->
  0 <= skip c -> pgnoRoot c = root -> cPage c = Some p -> parents c = frames z -> idx c = Z.of_nat i ->
  exists c' e, Previous (S calls) c = Ret (c', inr 0) /\ on c' (e :: todo z p kids i) /\ cached c' /\ atLast c' = false /\ skip c' = 0.
Proof.
  intros Hp Hi Hs Hsk Hr Hc Hps Hx. pose proof (path_page _ _ _ _ Hp) as (_ & Hin & _ & _ & _ & Hl & Hkn & _).
  rewrite previous_start with (p := p) by (done || lia). rewrite Hl, bool_decide_eq_false_2 by done. cbn [negb].
  destruct (path_child _ _ _ _ (Z.of_nat i) Hp ltac:(lia)) as (k & Hki & Hch & Hn & _). rewrite Nat2Z.id in Hki.
  unfold child in Hch. rewrite (proj2 (Z.leb_gt _ _)) in Hch by lia. rewrite Hx, (bind_pure _ _ _ _ Hch).
  destruct (moveToChild_at _ _ _ _ _ _ (set_skip 0 (set_atLast false c)) Hp Hki Hs Hc Hps Hx) as [E Hp']. rewrite (bind_run _ _ _ _ _ E).
  destruct k as [pk kk].
  destruct (moveToRightmost_ok _ _ _ _ 0 (set_skip 0 (set_atLast false c)) Hp' ltac:(done) Hs Hr eq_refl) as (z' & p' & Em & Hp2 & Hn' & Ht).
  cbv zeta in *. rewrite (bind_run _ _ _ _ _ Em). eexists _, _. split; [done|]. split; [|done].
  replace (todo z p kids i) with (up ((p, kids, i) :: z)) by (by destruct kids).
  rewrite <- Ht. exists z', 0%nat, p', [], (Z.to_nat (nCell p' - 1)). split_and!; try done. by left.
Qed.

Lemma previous_ok c b l : stands c l -> entries tree = reverse b ++ l -> 0 <= skip c -> exists c',
  Previous 2 c = Ret (c', inr (match l with [] => 1 | _ => is_nil b end)) /\
  stands c' (match l, b with _ :: _, e :: _ => e :: l | _, _ => [] end) /\ 0 <= skip c'.
Proof.
  destruct l as [|e l].
  { intros [[Hr Hf Hh] Hs] _ Hk. exists (set_atLast false c). split; [|by split]. cbn [sqlite3BtreePrevious].
    rewrite (bind_run _ _ _ _ _ (restore_valid c ltac:(by rewrite Hs))). crun_cm. cbn [eState set_atLast]. by rewrite Hs. }
  intros [Hon _] Hb Hk. set (l0 := e :: l) in *.
  assert (forall e' c', on c' (e' :: l0) -> exists b', b = e' :: b') as Hbe.
  { intros e' c' [b2 E]%on_suffix. rewrite Hb in E. rewrite (cons_middle e' b2 l0), app_assoc in E.
    apply app_inv_tail in E. destruct b as [|x b]; [by destruct b2|]. rewrite reverse_cons in E. apply app_inj_tail in E as [_ ->]. eauto. }
  destruct Hon as (z & h & p & kids & i & Hp & Hi & Hl & E & Hc & Hps & Hx & Hs & Hr).
  pose proof (path_page _ _ _ _ Hp) as (_ & Hin & _ & _ & Hn & Hlf & Hkn & Hz). pose proof (path_height _ _ _ Hp).
  destruct h as [|h].
  - rewrite (previous_start 1 c p), Hlf by (done || lia). rewrite bool_decide_eq_true_2 by done. cbn [negb].
    rewrite (proj1 Hkn eq_refl) in *. set (c1 := set_skip 0 (set_atLast false c)).
    destruct (previous_up_ok z 0 p [] i c1 depth Hp ltac:(lia) Hs Hr Hc Hps Hx)
      as [(Ee & c' & Eu & Hrd & Hsk)|(c' & z' & h' & p' & kids' & i' & Eu & Hx' & Hm & Hc' & Hps' & Hp' & Hh & Hsame & Hlt & Hbl)];
      rewrite (bind_run _ _ _ _ _ Eu).
    + change (below z p [] i) with (todo z p [] i) in Ee. rewrite <- E, Hb in Ee.
      assert (reverse b = []) as Er by (apply (app_inv_tail l0); done). apply (f_equal reverse) in Er. rewrite reverse_involutive in Er.
      rewrite Er. eexists. split; [done|]. split; [by split|]. cbn. rewrite Hsk. done.
    + crun_cm. unfold reset_info. crun_cm. cbv beta. rewrite (moved_eq p' (frames z')) by done. rewrite Hm, Hx'.
      replace (Z.of_nat (S i') - 1) with (Z.of_nat i') by lia. rewrite (bind_page _ _ p') by done.
      pose proof (path_page _ _ _ _ Hp') as (_ & _ & _ & _ & _ & Hlf' & Hkn' & Hz').
      change (below z p [] i) with (todo z p [] i) in Hbl. rewrite <- E in Hbl.
      assert (Z.of_nat i' < nCell p') as Hi'.
      { destruct (decide (i = O)) as [H0|H0]; [|destruct (Hsame H0) as (_ & -> & _); lia].
        specialize (Hz' (Hh H0)). specialize (Hlt H0). unfold zlen in Hz'. lia. }
      destruct (leafData p' && negb (leaf p')) eqn:Eld.
      * apply andb_true_iff in Eld as [Eld Elf%negb_true_iff]. rewrite Elf in Hlf'. symmetry in Hlf'. apply bool_decide_eq_false in Hlf'.
        destruct h' as [|h']; [done|].
        destruct (previous_interior 0 _ _ _ _ _ (moved p' (frames z') (Z.of_nat i') c1) Hp' Hi' Hs ltac:(done) Hr eq_refl eq_refl eq_refl)
          as (c2 & e' & Ep & Hon & Hca & Ha & Hsk).
        rewrite bind_assoc, (bind_run _ _ _ _ _ Ep). rewrite (todo_interior _ _ _ _ (Hz' Hlf') Hi') in Hon. unfold own in Hon. rewrite Eld in Hon.
        cbn [app] in Hon. rewrite <- Hbl in Hon. destruct (Hbe _ _ Hon) as [b' ->]. exists c2. split; [done|]. split; [|lia].
        split; [done|]. split; [done|]. by rewrite Ha.
      * crun_cm. assert (h' = O \/ leafData p' = false) as Hrest.
        { destruct (leafData p'); [|by right]. left. cbn in Eld. apply negb_false_iff in Eld. rewrite Eld in Hlf'. symmetry in Hlf'. by apply bool_decide_eq_true in Hlf'. }
        destruct (todo_head _ _ _ _ _ Hp' Hi' Hrest) as (l' & Et & ->). rewrite <- Hbl in Et.
        pose proof (stands_moved _ _ _ _ _ c1 Hp' Hi' Hrest Hs Hr ltac:(done)) as Hst. rewrite Et in Hst.
        destruct (Hbe _ _ (proj1 Hst)) as [b' ->]. eexists. split; [done|]. by split.
  - destruct (previous_interior 1 _ _ _ _ _ c Hp Hi Hs Hk Hr Hc Hps Hx) as (c' & e' & Ep & Hon & Hca & Ha & Hsk).
    rewrite <- E in Hon. destruct (Hbe _ _ Hon) as [b' ->]. exists c'. split; [done|]. split; [|lia]. split; [done|]. split; [done|].
    by rewrite Ha.
Qed.

(** ** Last *)

(** The entries can be decoded. *)
Definition readable : Prop := Forall (fun e => exists pCell x,
  cell_at e.1 e.2 = Ret pCell /\ sqlite3BtreeParseCellPtr pBt e.1 pCell = Ret x) (entries tree).

Notation getCellInfo := (getCellInfo pBt).

Lemma getCellInfo_ok c p pCell x : cPage c = Some p -> cell_at p (idx c) = Ret pCell ->
  sqlite3BtreeParseCellPtr pBt p pCell = Ret x -> nSize (info c) = 0 ->
  getCellInfo c = Ret (set_infoCell pCell (set_info x true c), inr tt).
Proof.
  intros Hc E1 E2 H0. unfold BtreeCursor.getCellInfo. crun_cm. rewrite H0. change (0 =? 0) with true. cbv match.
  rewrite (bind_page _ _ p), (bind_pure _ _ _ _ E1), (bind_pure _ _ _ _ E2) by done. done.
Qed.

Notation Last := (sqlite3BtreeLast pBt rcGet stale st depth).

Lemma last_ok c b : ready c -> readable -> entries tree = reverse b -> exists c',
  Last c = Ret (c', inr (is_nil b)) /\ stands c' (match b with [] => [] | e :: _ => [e] end) /\ skip c' = skip c.
Proof.
  intros Hc Hread Hb. destruct (moveToRoot_ok c Hc) as (z & h & p & kids & Hp & He & H0 & Hu & E). unfold sqlite3BtreeLast.
  rewrite (bind_run _ _ _ _ _ E). crun_cm. rewrite (bind_page _ _ p) by done. destruct (unsaved_fields c) as (_ & _ & U & Us).
  pose proof (path_page _ _ _ _ Hp) as (_ & _ & _ & _ & Hn & _). rewrite <- Us. destruct Hc as [Hr Hs Hh].
  destruct (Z.ltb_spec 0 (nCell p)) as [Hlt|Hge].
  - cbn [eState set_eState]. change (CURSOR_VALID =? CURSOR_INVALID) with false. cbv match. rewrite bind_assert by done.
    set (c1 := set_eState CURSOR_VALID (set_atLast false (unsaved c))).
    destruct (moveToRightmost_ok h z p kids 0 c1 Hp ltac:(lia) eq_refl ltac:(cbn; congruence) eq_refl)
      as (z' & p' & Em & Hp' & Hi' & Ht); cbv zeta in *. set (n := Z.to_nat (nCell p' - 1)) in *.
    rewrite (bind_code _ _ _ _ _ Em). rewrite Hu in Ht.
    pose proof (stands_moved _ _ _ _ _ c1 Hp' Hi' ltac:(by left) eq_refl ltac:(cbn; congruence) ltac:(done)) as Hst. rewrite Ht in Hst.
    assert (exists b', b = (p', Z.of_nat n) :: b') as [b' ->].
    { destruct (on_suffix _ _ (proj1 Hst)) as [b2 E2]. rewrite Hb in E2. apply (f_equal reverse) in E2.
      rewrite reverse_involutive, reverse_app in E2. exists (reverse b2). by rewrite E2. }
    rewrite reverse_cons in Hb. pose proof Hread as Hread'. unfold readable in Hread'. rewrite Hb in Hread'.
    apply Forall_app in Hread' as [_ Hc2]. apply Forall_singleton in Hc2 as (pCell & x & E1 & E2). cbn [fst snd] in E1, E2.
    rewrite (bind_run _ _ _ _ _ (getCellInfo_ok (moved p' (frames z') (Z.of_nat n) c1) p' pCell x eq_refl E1 E2 eq_refl)).
    crun_cm. eexists. split; [done|]. split; [|done]. destruct Hst as ((zz & hh & pp & kk & ii & Hon) & _ & _).
    split; [exists zz, hh, pp, kk, ii; exact Hon|]. split; [|done]. intros q Hq. injection Hq as <-. split; [by intros _|].
    intros _ Hik. cbn. rewrite E1. cbn. by apply parse_rowid.
  - cbn [eState set_eState]. change (CURSOR_INVALID =? CURSOR_INVALID) with true. cbv match.
    destruct (H0 ltac:(lia)) as [_ He0]. rewrite bind_assert by (apply Z.eqb_eq; lia).
    assert (b = []) as -> by (rewrite He0 in Hb; apply (f_equal reverse) in Hb; by rewrite reverse_involutive in Hb).
    eexists. split; [done|]. split; [|done].
    split; [|done]. apply (moved_ready z h (Node p kids) 0 (set_eState CURSOR_INVALID (set_atLast false (unsaved c))) Hp); [cbn; congruence|done].
Qed.

End tree.
