(* ===== verification/BtreeScan.v ===== *)
(** * Scans of a b-tree

    What a cursor sees that goes through a whole tree, in both directions, and
    a run for each of two defects: [sqlite3BtreeLast] does not report that it
    could not read a page ([last_hides_error]), and [sqlite3BtreeFirst] does
    not forget a restored position ([first_keeps_skip]). *)

From S2P Require Import Prelude PageBytes BtreePage BtreeParse BtreeStore Record Mem BtreeCursor BtreeWalk.

(** The entries from the current one on, until [step] says that there is none. *)
Fixpoint walk (step : CM Z) (n : nat) : CM (list (MemPage * Z)) :=
  match n with
  | O => mret []
  | S n =>
      c ← cur; p ← the_page;
      r ← step;
      if r =? 0 then l ← walk step n; mret ((p, idx c) :: l) else mret [(p, idx c)]
  end.

Definition scan (start step : CM Z) (n : nat) : CM (list (MemPage * Z)) :=
  r ← start; if r =? 0 then walk step n else mret [].

Section scan.
Context (pBt : BtShared) (rcGet : Store -> Z -> Z) (stale : Store -> Z -> list Z) (st : Store).
Context (tg : target) (junk : Mem) (pKeyInfo : KeyInfo) (mallocs : list bool) (malloc_ok : Z -> bool) (torn : list Z).
Context (root : Z) (height : nat) (tree : btree) (ok : tree_ok pBt rcGet stale st root height tree).
Context (depth : nat) (deep : (height < depth)%nat).
Notation First := (sqlite3BtreeFirst pBt rcGet stale st depth).
Notation Last := (sqlite3BtreeLast pBt rcGet stale st depth).
Notation Next := (sqlite3BtreeNext pBt rcGet stale st tg junk pKeyInfo mallocs malloc_ok depth torn).
Notation Previous := (sqlite3BtreePrevious pBt rcGet stale st tg junk pKeyInfo mallocs malloc_ok depth torn).
Notation on := (on root height tree).
Notation stands := (stands pBt root height tree).

Lemma on_head c e l : on c (e :: l) -> cPage c = Some e.1 /\ idx c = e.2.
Proof.
  intros (z & h & p & kids & i & Hp & Hi & Hl & E & Hc & _ & Hx & _).
  destruct (todo_head _ _ _ _ _ _ _ ok _ _ _ _ _ Hp Hi Hl) as (l' & E' & _). rewrite E' in E. by injection E as -> _.
Qed.

Lemma walk_next l : forall e c, stands c (e :: l) -> skip c <= 0 ->
  exists c', walk (Next 2) (S (length l)) c = Ret (c', inr (e :: l)) /\ eState c' = CURSOR_INVALID.
Proof.
  induction l as [|e2 l IH]; intros e c Hst Hk.
  all: destruct (next_ok _ _ _ _ _ _ _ ok depth deep tg junk pKeyInfo mallocs malloc_ok torn c _ Hst Hk) as (c' & E & Hst' & Hk').
  all: destruct (on_head _ _ _ (proj1 Hst)) as [Hc Hx]; cbn [walk]; crun_cm; rewrite (bind_page _ _ _ Hc), (bind_run _ _ _ _ _ E), Hx;
    cbn [is_nil tail] in *.
  - exists c'. destruct e. by destruct Hst' as [_ ?].
  - destruct (IH _ _ Hst' Hk') as (c2 & E2 & H2). exists c2. cbn [length] in *. change (0 =? 0) with true. cbv match.
    rewrite (bind_run _ _ _ _ _ E2). by destruct e.
Qed.

Lemma walk_previous b : forall e l c, stands c (e :: l) -> entries tree = reverse b ++ e :: l -> 0 <= skip c ->
  exists c', walk (Previous 2) (S (length b)) c = Ret (c', inr (e :: b)) /\ eState c' = CURSOR_INVALID.
Proof.
  induction b as [|e2 b IH]; intros e l c Hst Hb Hk.
  all: destruct (previous_ok _ _ _ _ _ _ _ ok depth deep tg junk pKeyInfo mallocs malloc_ok torn c _ _ Hst Hb Hk) as (c' & E & Hst' & Hk').
  all: destruct (on_head _ _ _ (proj1 Hst)) as [Hc Hx]; cbn [walk]; crun_cm; rewrite (bind_page _ _ _ Hc), (bind_run _ _ _ _ _ E), Hx;
    cbn [is_nil] in *.
  - exists c'. destruct e. by destruct Hst' as [_ ?].
  - rewrite reverse_cons, <- app_assoc in Hb. destruct (IH _ _ _ Hst' Hb Hk') as (c2 & E2 & H2). exists c2. cbn [length] in *.
    change (0 =? 0) with true. cbv match. rewrite (bind_run _ _ _ _ _ E2). by destruct e.
Qed.

End scan.

(** C3: in every well-formed tree, of any height, a scan that begins with
    [sqlite3BtreeFirst] and goes on with [sqlite3BtreeNext] visits all entries
    in order and ends after the last one; with [sqlite3BtreeLast] and
    [sqlite3BtreePrevious] it visits them in the reverse order.  A depth above
    the height of the tree is enough fuel, and no call fails.  The cursor must
    not be left from a restored position ([skip] is 0; [first_keeps_skip] shows
    the other case). *)
Theorem cursor_scans pBt rcGet stale st tg junk pKeyInfo mallocs malloc_ok torn root height tree depth c :
  tree_ok pBt rcGet stale st root height tree -> (height < depth)%nat -> readable pBt tree -> ready root tree c -> skip c = 0 ->
  let n := length (entries tree) in
  (exists c', scan (sqlite3BtreeFirst pBt rcGet stale st depth)
                (sqlite3BtreeNext pBt rcGet stale st tg junk pKeyInfo mallocs malloc_ok depth torn 2) n c =
              Ret (c', inr (entries tree)) /\ eState c' = CURSOR_INVALID) /\
  (exists c', scan (sqlite3BtreeLast pBt rcGet stale st depth)
                (sqlite3BtreePrevious pBt rcGet stale st tg junk pKeyInfo mallocs malloc_ok depth torn 2) n c =
              Ret (c', inr (reverse (entries tree))) /\ eState c' = CURSOR_INVALID).
Proof.
  intros ok deep Hread Hc Hk n. subst n. split.
  - destruct (first_ok _ _ _ _ _ _ _ ok depth deep c Hc) as (c1 & E & Hst & Hs). unfold scan. rewrite (bind_run _ _ _ _ _ E).
    destruct (entries tree) as [|e l]; [exists c1; by destruct Hst|]. change (is_nil (e :: l) =? 0) with true. cbv match.
    eapply walk_next; eauto; lia.
  - set (b := reverse (entries tree)).
    assert (entries tree = reverse b) as Hb by (unfold b; by rewrite reverse_involutive). clearbody b. rewrite Hb, length_reverse.
    destruct (last_ok _ _ _ _ _ _ _ ok depth deep c b Hc Hread Hb) as (c1 & E & Hst & Hs). unfold scan. rewrite (bind_run _ _ _ _ _ E).
    destruct b as [|e b]; [exists c1; by destruct Hst|]. change (is_nil (e :: b) =? 0) with true. cbv match.
    rewrite reverse_cons in Hb. eapply walk_previous; eauto; lia.
Qed.

(** ** A table of two leaves *)

Definition leaf_image (keys : list Z) : list Z :=
  let n := zlen keys in
  let top := 512 - 4 * n in
  [13; 0; 0; 0; n; top / 256; top mod 256; 0] ++
  concat ((fun i => let a := top + 4 * Z.of_nat i in [a / 256; a mod 256]) <$> seq 0 (length keys)) ++
  replicate (Z.to_nat (top - 8 - 2 * n)) 0 ++ concat ((fun k => [2; k; 7; 7]) <$> keys).

(** Page 2 with the leaves 3 and 4. *)
Definition ex_store (keys3 keys4 : list Z) : Store :=
  mkStore (<[2 := [5; 0; 0; 0; 1; 1; 251; 0; 0; 0; 0; 4; 1; 251] ++ replicate 493 0 ++ [0; 0; 0; 3; 2]]>
          (<[3 := leaf_image keys3]> (<[4 := leaf_image keys4]> empty))) 4 0.

Definition ex_stale (st : Store) (pgno : Z) : list Z := [].
Definition ex_get (st : Store) (pgno : Z) : Z := SQLITE_OK.

Definition ex_page (st : Store) (n : Z) (par : option Z) : MemPage :=
  match getAndInitPage ex_bt ex_get ex_stale st n par with Ret (inr p) => p | _ => ex_raw end.

Definition ex_tree (st : Store) : btree := Node (ex_page st 2 None) [Node (ex_page st 3 (Some 2)) []; Node (ex_page st 4 (Some 2)) []].

Definition tree1 : btree := Eval vm_compute in ex_tree (ex_store [1; 2] [5; 9]).

Definition new_cursor (root : Z) : BtCursor :=
  mkCursor root None [] 0 (mkInfo 0 0 0 0 0 0 0) [] false false CURSOR_INVALID None 0 0.

(** A page with two leaves. *)
Lemma two_leaves st P p3 p4 : getAndInitPage ex_bt ex_get ex_stale st 2 None = Ret (inr P) ->
  getAndInitPage ex_bt ex_get ex_stale st 3 (Some 2) = Ret (inr p3) -> getAndInitPage ex_bt ex_get ex_stale st 4 (Some 2) = Ret (inr p4) ->
  leaf P = false -> nCell P = 1 -> child P 0 = Ret 3 -> child P 1 = Ret 4 -> leaf p3 = true -> leaf p4 = true -> 1 <= nCell p3 -> 1 <= nCell p4 ->
  tree_ok ex_bt ex_get ex_stale st 2 1 (Node P [Node p3 []; Node p4 []]).
Proof.
  intros H2 H3 H4 Hl Hn C3 C4 L3 L4 N3 N4. destruct (load_page _ _ _ _ _ _ _ H2) as (_ & _ & E2 & _).
  destruct (load_page _ _ _ _ _ _ _ H3) as (_ & _ & E3 & _). destruct (load_page _ _ _ _ _ _ _ H4) as (_ & _ & E4 & _).
  split; cbn [tree_page]; [|done|lia|by right; left; lia]. cbn [shape]. rewrite E2. split; [done|]. split; [done|]. split; [by rewrite Hn|].
  intros [|[|i]] k Hk; [injection Hk as <-|injection Hk as <-|done]; cbn [tree_page]; rewrite ?E3, ?E4; done.
Qed.

Lemma tree1_ok : tree_ok ex_bt ex_get ex_stale (ex_store [1; 2] [5; 9]) 2 1 tree1.
Proof. by apply two_leaves; vm_compute. Qed.

Lemma readable_check pBt tree : forallb (fun e => match (c ← cell_at e.1 e.2; sqlite3BtreeParseCellPtr pBt e.1 c) with Ret _ => true | _ => false end)
  (entries tree) = true -> readable pBt tree.
Proof.
  intros H. apply Forall_forall. intros e He. rewrite forallb_forall in H. specialize (H e (proj1 (list_elem_of_In _ _) He)).
  destruct (cell_at e.1 e.2) as [c| | |]; try discriminate. cbn in H.
  destruct (sqlite3BtreeParseCellPtr pBt e.1 c) as [x| | |] eqn:E; try discriminate. eauto.
Qed.

Lemma tree1_readable : readable ex_bt tree1.
Proof. apply readable_check. vm_compute. reflexivity. Qed.

Lemma new_ready root tree : ready root tree (new_cursor root).
Proof. split; done. Qed.

Definition ex_key : KeyInfo := mkKeyInfo 1 false false 1 None [None].
Definition ex_mem : Mem := mkMem 0 0 [] 0 MEM_Null 1.
Definition ex_malloc (n : Z) : bool := true.

Lemma cursor_scans_witness :
  ((fun e => (pgno e.1, e.2)) <$> entries tree1 = [(3, 0); (3, 1); (4, 0); (4, 1)]) /\
  (exists c', scan (sqlite3BtreeFirst ex_bt ex_get ex_stale (ex_store [1; 2] [5; 9]) 3)
     (sqlite3BtreeNext ex_bt ex_get ex_stale (ex_store [1; 2] [5; 9]) LP64 ex_mem ex_key [] ex_malloc 3 [] 2) 4 (new_cursor 2) =
     Ret (c', inr (entries tree1)) /\ eState c' = CURSOR_INVALID).
Proof.
  split; [vm_compute; reflexivity|].
  refine (proj1 (cursor_scans ex_bt ex_get ex_stale (ex_store [1; 2] [5; 9]) LP64 ex_mem ex_key [] ex_malloc [] 2 1 tree1 3 (new_cursor 2)
    tree1_ok _ tree1_readable (new_ready 2 tree1) eq_refl)). lia.
Defined.

(** ** Errors on the way *)

(** The cursor that a call leaves. *)
Definition cursor_of {A} (m : res (BtCursor * (Z + A))) : BtCursor := match m with Ret (c, _) => c | _ => new_cursor 0 end.

(** Page 4 cannot be read. *)
Definition ex_get_fails (st : Store) (pgno : Z) : Z := if pgno =? 4 then SQLITE_IOERR else SQLITE_OK.

(** [moveToRightmost] drops the error: the cursor stays on the interior page,
    behind its last cell, and [sqlite3BtreeLast] reports success. *)
Lemma last_hides_error : exists c, sqlite3BtreeLast ex_bt ex_get_fails ex_stale (ex_store [1; 2] [5; 9]) 3 (new_cursor 2) = Ret (c, inr 0) /\
  atLast c = true /\ pgno <$> cPage c = Some 2 /\ nCell <$> cPage c = Some (idx c).
Proof.
  exists (cursor_of (sqlite3BtreeLast ex_bt ex_get_fails ex_stale (ex_store [1; 2] [5; 9]) 3 (new_cursor 2))). vm_compute. done.
Qed.

Notation after_delete := (ex_store [1; 2] [9]).
Notation before_delete := (ex_store [1; 2] [5; 9]).

(** The rowid of the entry that the cursor is on. *)
Definition at_rowid (c : BtCursor) : option Z :=
  match cPage c with
  | Some p => match (pCell ← cell_at p (idx c); rowid_at p pCell) with Ret k => Some k | _ => None end
  | None => None
  end.

(** A run: a cursor is on row 5 of a table when its position is saved and the row
    is deleted.  [sqlite3BtreeDataSize] restores it to row 9 and leaves
    [skip = 1].  A scan that is then begun with [sqlite3BtreeFirst] visits
    row 1 twice, since the first [sqlite3BtreeNext] does not move. *)
Lemma first_keeps_skip : exists c1 c1' c2 c3 c4 c5 c6,
  sqlite3BtreeFirst ex_bt ex_get ex_stale before_delete 3 (new_cursor 2) = Ret (c1, inr 0) /\
  sqlite3BtreeNext ex_bt ex_get ex_stale before_delete LP64 ex_mem ex_key [] ex_malloc 3 [] 2 c1 = Ret (c1', inr 0) /\
  sqlite3BtreeNext ex_bt ex_get ex_stale before_delete LP64 ex_mem ex_key [] ex_malloc 3 [] 2 c1' = Ret (c2, inr 0) /\ at_rowid c2 = Some 5 /\
  saveCursorPosition ex_bt ex_get ex_stale before_delete LP64 ex_mem ex_key [] ex_malloc 3 [] c2 = Ret (c3, inr tt) /\
  sqlite3BtreeDataSize ex_bt ex_get ex_stale after_delete LP64 ex_mem ex_key [] ex_malloc 3 [] c3 = Ret (c4, inr 2) /\ at_rowid c4 = Some 9 /\
  sqlite3BtreeFirst ex_bt ex_get ex_stale after_delete 3 c4 = Ret (c5, inr 0) /\ at_rowid c5 = Some 1 /\
  sqlite3BtreeNext ex_bt ex_get ex_stale after_delete LP64 ex_mem ex_key [] ex_malloc 3 [] 2 c5 = Ret (c6, inr 0) /\ at_rowid c6 = Some 1.
Proof.
  set (next st := sqlite3BtreeNext ex_bt ex_get ex_stale st LP64 ex_mem ex_key [] ex_malloc 3 [] 2).
  set (c1 := cursor_of (sqlite3BtreeFirst ex_bt ex_get ex_stale before_delete 3 (new_cursor 2))).
  set (c1' := cursor_of (next before_delete c1)). set (c2 := cursor_of (next before_delete c1')).
  set (c3 := cursor_of (saveCursorPosition ex_bt ex_get ex_stale before_delete LP64 ex_mem ex_key [] ex_malloc 3 [] c2)).
  set (c4 := cursor_of (sqlite3BtreeDataSize ex_bt ex_get ex_stale after_delete LP64 ex_mem ex_key [] ex_malloc 3 [] c3)).
  set (c5 := cursor_of (sqlite3BtreeFirst ex_bt ex_get ex_stale after_delete 3 c4)).
  exists c1, c1', c2, c3, c4, c5, (cursor_of (next after_delete c5)). split_and!; vm_compute; reflexivity.
Qed.
