(* ===== verification/BtreeSeek.v ===== *)
(** * Searching a b-tree

    [sqlite3BtreeMoveto] in an ordered tree: it ends on the entry with the key
    or next to the place where the key belongs.  The order is given by what the
    comparison of each cell with the key says.  [saveCursorPosition] and the
    restoring of a position are searches. *)

From Stdlib Require Import Sorting.Sorted.
From S2P Require Import Prelude Varint PageBytes BtreePage BtreeStore BtreePayload Record Mem BtreeCursor BtreeWalk.

Section seek.
Context (pBt : BtShared) (rcGet : Store -> Z -> Z) (stale : Store -> Z -> list Z) (st : Store).
Context (tg : target) (junk : Mem) (pKeyInfo : KeyInfo) (mallocs : list bool) (malloc_ok : Z -> bool) (torn : list Z).
Notation compare_record := (compare_record pBt rcGet stale st junk malloc_ok torn).
Notation moveto_page := (moveto_page pBt rcGet stale st junk malloc_ok torn).
Notation cached := (cached pBt).

(** ** How a cell compares with the key *)

(** In an index: the key is in the page, or it is put together first. *)
Definition index_sign (p : MemPage) (pCell : list Z) (x : CellInfo) (p2 : UnpackedRecord) : res (Z + Z) :=
  let n := nKey x in
  let available := if u32 n <? nLocal x then s32 (u32 n) else nLocal x in
  if n <=? available then r ← sqlite3VdbeRecordCompare junk (s32 n) (drop (Z.to_nat (nHeader x)) pCell) p2; Ret (inr r)
  else if negb (malloc_ok (s32 n)) then Ret (inl SQLITE_NOMEM)
  else
    k ← reading st (accessPayload pBt rcGet stale p pCell 0 (u32 n) false);
    match k with
    | inl rc => Ret (inl rc)
    | inr k => r ← sqlite3VdbeRecordCompare junk (s32 n) k p2; Ret (inr r)
    end.

(** A table is searched for a rowid, an index for an unpacked record. *)
Definition compares (p : MemPage) (i : Z) (u : option UnpackedRecord) (key : Z) (r : Z) : Prop :=
  exists pCell, cell_at p i = Ret pCell /\
    if intKey p then exists k, rowid_at p pCell = Ret k /\ r = if k =? key then 0 else if k <? key then -1 else 1
    else exists x p2, sqlite3BtreeParseCellPtr pBt p pCell = Ret x /\ u = Some p2 /\ index_sign p pCell x p2 = Ret (inr r).

(** What the comparison leaves as it is. *)
Record kept (c c' : BtCursor) : Prop := {
  kept_page : cPage c' = cPage c;
  kept_parents : parents c' = parents c;
  kept_state : eState c' = eState c;
  kept_root : pgnoRoot c' = pgnoRoot c;
  kept_last : atLast c' = atLast c;
  kept_skip : skip c' = skip c;
}.

Lemma kept_trans c1 c2 c3 : kept c1 c2 -> kept c2 c3 -> kept c1 c3.
Proof. intros [] []. split; congruence. Qed.

Definition compare_cell (p : MemPage) (u : option UnpackedRecord) (key : Z) : CM (Z * Z) :=
  if intKey p then compare_rowid p key else match u with Some p2 => compare_record p2 | None => pure UB end.

Lemma getCellInfo_again c p pCell x : cPage c = Some p -> cell_at p (idx c) = Ret pCell ->
  sqlite3BtreeParseCellPtr pBt p pCell = Ret x -> info c = x -> infoCell c = pCell -> validNKey c = true ->
  getCellInfo pBt c = Ret (c, inr tt).
Proof.
  intros Hc E1 E2 Hi Hic Hv. destruct (Z.eqb_spec (nSize (info c)) 0) as [H0|H0].
  - rewrite (getCellInfo_ok _ _ _ _ _ Hc E1 E2 H0). destruct c. cbn in *. by subst.
  - unfold getCellInfo. crun_cm. by rewrite (proj2 (Z.eqb_neq _ _) H0).
Qed.

Lemma on_entry_ok c p : cPage c = Some p -> eState c = CURSOR_VALID -> 0 <= idx c < nCell p -> on_entry c = Ret (c, inr p).
Proof.
  intros Hc Hs Hi. unfold on_entry. crun_cm. rewrite bind_assert by (by rewrite Hs). rewrite (bind_page _ _ p) by done.
  rewrite bind_assert by (apply andb_true_iff; lia). done.
Qed.

Lemma compare_cell_ok p u key r c : compares p (idx c) u key r -> cPage c = Some p -> eState c = CURSOR_VALID ->
  0 <= idx c < nCell p -> nSize (info c) = 0 -> validNKey c = true ->
  exists c' k, compare_cell p u key c = Ret (c', inr (r, k)) /\ kept c c' /\ idx c' = idx c /\
    cached (set_info (with_key k (info c')) (validNKey c') c') /\ validNKey c' = true.
Proof.
  intros (pCell & Ec & H) Hc Hs Hi H0 Hv. unfold compare_cell. destruct (intKey p) eqn:Hk.
  - destruct H as (k & Er & ->). exists c, k. unfold compare_rowid. crun_cm.
    rewrite (bind_pure _ _ _ k) by (rewrite Ec; cbn; done). split; [done|]. split; [by split|]. split; [done|]. split; [|done].
    intros q Hq. cbn in Hq. rewrite Hc in Hq. injection Hq as <-. split; [cbn; by rewrite H0|]. intros _ _. cbn. by rewrite Ec.
  - destruct H as (x & p2 & Ex & -> & Er). set (c1 := set_infoCell pCell (set_info x true c)).
    assert (fetchPayload pBt false c = Ret (c1, inr (drop (Z.to_nat (nHeader x)) pCell,
      if u32 (nKey x) <? nLocal x then s32 (u32 (nKey x)) else nLocal x))) as Ef.
    { unfold fetchPayload. rewrite (bind_run _ _ _ _ _ (on_entry_ok c p Hc Hs Hi)), (bind_run _ _ _ _ _ (getCellInfo_ok _ _ _ _ _ Hc Ec Ex H0)).
      crun_cm. by rewrite Hk. }
    exists c1, (nKey x). split; [|split; [by split|split; [done|split; [|done]]]].
    + unfold BtreeCursor.compare_record. rewrite (bind_run _ _ _ _ _ Ef). crun_cm. cbn [info c1 set_infoCell set_info].
      unfold index_sign in Er. destruct (nKey x <=? _).
      * apply bind_Ret_inv in Er as (r' & Er & [= ->]). rewrite (bind_pure _ _ _ _ Er). done.
      * destruct (negb _); [discriminate|]. apply bind_Ret_inv in Er as ([rc|kk] & Ea & Er); [discriminate|].
        apply bind_Ret_inv in Er as (r' & Er & [= ->]). rewrite (bind_run _ _ _ c1 (inr kk)).
        { rewrite (bind_pure _ _ _ _ Er). done. }
        assert (read_key pBt rcGet stale st 0 (u32 (nKey x)) c1 = Ret (c1, inr kk)) as ->; [|done].
        unfold read_key. crun_cm. rewrite bind_assert by (cbn; by rewrite Hs). rewrite (bind_page _ _ p) by done. rewrite Hk.
        rewrite (bind_run _ _ _ _ _ (on_entry_ok c1 p Hc Hs Hi)).
        rewrite (bind_run _ _ _ _ _ (getCellInfo_again c1 p pCell x Hc Ec Ex eq_refl eq_refl eq_refl)). crun_cm.
        unfold fetch. cbn [infoCell c1 set_infoCell]. by rewrite Ea.
    + intros q Hq. cbn in Hq. rewrite Hc in Hq. injection Hq as <-. cbn. split; [|by rewrite Hk].
      intros _. split; [done|]. rewrite Ex. by destruct x.
Qed.

(** ** On one page *)

(** The loop narrows [lwr..upr] around the first cell that is not before the key. *)
Lemma moveto_page_ok p u key s fuel : forall lwr upr c,
  (forall i, 0 <= i < nCell p -> compares p i u key (s i)) ->
  (forall i j, 0 <= i < j -> j < nCell p -> (0 < s i -> 0 < s j) /\ (s j < 0 -> s i < 0)) ->
  cPage c = Some p -> eState c = CURSOR_VALID -> 0 <= lwr -> lwr <= idx c <= upr -> upr < nCell p -> upr - lwr < Z.of_nat fuel ->
  (forall j, 0 <= j < lwr -> s j < 0) -> (forall j, upr < j < nCell p -> 0 < s j) ->
  exists c' found l r, moveto_page fuel p u key lwr upr c = Ret (c', inr (found, l, r)) /\ kept c c' /\ cached c' /\
    0 <= idx c' < nCell p /\ r = s (idx c') /\
    if r =? 0 then found = negb (leafData p && negb (leaf p)) /\ l = idx c' else
    found = false /\ l = (if r <? 0 then idx c' + 1 else idx c') /\
    (forall j, 0 <= j < l -> s j < 0) /\ (forall j, l <= j < nCell p -> 0 < s j).
Proof.
  induction fuel as [|fuel IH]; intros lwr upr c Hcmp Hmono Hc Hs Hl Hi Hu Hf Hlo Hhi; [lia|].
  cbn [BtreeCursor.moveto_page]. crun_cm.
  destruct (compare_cell_ok p u key (s (idx c)) (set_info (no_size (info c)) true c)) as (c1 & k & E & [K1 K2 K3 K4 K5 K6] & Hx & Hca & Hv);
    try done; [apply Hcmp; lia|cbn; lia|].
  rewrite (bind_run _ _ _ _ _ E). crun_cm. cbn [idx set_info cPage parents eState pgnoRoot atLast skip] in *. rewrite Hx.
  destruct (Z.eqb_spec (s (idx c)) 0) as [H0|H0].
  - crun_cm. eexists _, _, _, _. split; [done|]. split; [by split|]. split; [done|]. cbn [idx set_info]. rewrite Hx. split; [lia|].
    rewrite H0. done.
  - destruct (Z.ltb_spec (s (idx c)) 0) as [Hneg|Hpos].
    + assert (forall j, 0 <= j < idx c + 1 -> s j < 0) as Hlo'.
      { intros j Hj. destruct (decide (j = idx c)) as [->|]; [done|]. apply (Hmono j (idx c)); lia. }
      destruct (Z.ltb_spec upr (idx c + 1)) as [Hend|Hgo].
      * crun_cm. eexists _, _, _, _. split; [done|]. split; [by split|]. split; [done|]. cbn [idx set_info]. rewrite Hx. split; [lia|].
        split; [done|]. rewrite (proj2 (Z.eqb_neq _ _)), (proj2 (Z.ltb_lt _ _)) by done. split_and!; [done|done|done|].
        intros j Hj. apply Hhi. lia.
      * crun_cm. assert (idx c + 1 <= (idx c + 1 + upr) ÷ 2 <= upr) as Hq by (rewrite Z.quot_div_nonneg by lia; Z.to_euclidean_division_equations; lia).
        destruct (IH (idx c + 1) upr (set_idx ((idx c + 1 + upr) ÷ 2) c1)) as (c2 & fd & l & r & E2 & Hk2 & H2); try done; try lia; [cbn; congruence|cbn; congruence|].
        exists c2, fd, l, r. split; [done|]. split; [|done]. eapply kept_trans; [|exact Hk2]. by split.
    + assert (forall j, idx c - 1 < j < nCell p -> 0 < s j) as Hhi'.
      { intros j Hj. destruct (decide (j = idx c)) as [->|]; [lia|]. apply (Hmono (idx c) j); lia. }
      destruct (Z.ltb_spec (idx c - 1) lwr) as [Hend|Hgo].
      * crun_cm. eexists _, _, _, _. split; [done|]. split; [by split|]. split; [done|]. cbn [idx set_info]. rewrite Hx. split; [lia|].
        split; [done|]. rewrite (proj2 (Z.eqb_neq _ _)), (proj2 (Z.ltb_ge _ _)) by (done || lia). split_and!; [done|lia|intros j Hj; apply Hlo; lia|].
        intros j Hj. apply Hhi'. lia.
      * crun_cm. assert (lwr <= (lwr + (idx c - 1)) ÷ 2 <= idx c - 1) as Hq by (rewrite Z.quot_div_nonneg by lia; Z.to_euclidean_division_equations; lia).
        destruct (IH lwr (idx c - 1) (set_idx ((lwr + (idx c - 1)) ÷ 2) c1)) as (c2 & fd & l & r & E2 & Hk2 & H2); try done; try lia; [cbn; congruence|cbn; congruence|].
        exists c2, fd, l, r. split; [done|]. split; [|done]. eapply kept_trans; [|exact Hk2]. by split.
Qed.

(** ** In a tree *)

Context (root : Z) (height : nat) (tree : btree) (ok : tree_ok pBt rcGet stale st root height tree).
Notation path := (path height tree).
Notation on := (on root height tree).
Notation stands := (stands pBt root height tree).

(** What is known of an entry is known of those before or behind it. *)
Definition before (sgn : MemPage -> Z -> Z) (x y : MemPage * Z) : Prop :=
  (0 < sgn x.1 x.2 -> 0 < sgn y.1 y.2) /\ (sgn y.1 y.2 < 0 -> sgn x.1 x.2 < 0).

(** The entries are in order; the cells of the interior pages of a table are
    not smaller than what is below them and smaller than what follows. *)
Record ordered (sgn : MemPage -> Z -> Z) : Prop := {
  ordered_entries : StronglySorted (before sgn) (entries tree);
  ordered_left : forall z h p kids i k e, path z (S h) (Node p kids) -> leafData p = true -> kids !! i = Some k ->
    Z.of_nat i < nCell p -> e ∈ entries k -> before sgn e (p, Z.of_nat i);
  ordered_right : forall z h p kids i k e, path z (S h) (Node p kids) -> leafData p = true -> kids !! S i = Some k ->
    Z.of_nat i < nCell p -> e ∈ entries k -> 0 <= sgn p (Z.of_nat i) -> 0 < sgn e.1 e.2;
}.

Context (table : bool) (u : option UnpackedRecord) (key : Z) (sgn : MemPage -> Z -> Z).
Context (kind : forall z h p kids, path z h (Node p kids) -> intKey p = table) (unpacked : table = false -> u <> None).
Context (signs : forall z h p kids i, path z h (Node p kids) -> 0 <= i < nCell p -> compares p i u key (sgn p i)).
Context (sorted : ordered sgn).

Notation neg := (Forall (fun e : MemPage * Z => sgn e.1 e.2 < 0)).
Notation pos := (Forall (fun e : MemPage * Z => 0 < sgn e.1 e.2)).

Lemma sorted_neg l1 y l2 : entries tree = l1 ++ y :: l2 -> sgn y.1 y.2 < 0 -> neg l1.
Proof.
  intros E Hy. pose proof (ordered_entries _ sorted) as Hs. rewrite E in Hs. clear E. induction l1 as [|x l1 IH]; [done|].
  apply StronglySorted_inv in Hs as [Hs Hx]. constructor; [|by apply IH].
  rewrite Forall_forall in Hx. apply (Hx y); [set_solver+|done].
Qed.

Lemma sorted_pos l1 y l2 : entries tree = l1 ++ y :: l2 -> 0 < sgn y.1 y.2 -> pos (y :: l2).
Proof.
  intros E Hy. pose proof (ordered_entries _ sorted) as Hs. rewrite E in Hs. clear E. induction l1 as [|x l1 IH].
  - apply StronglySorted_inv in Hs as [_ Hx]. constructor; [done|]. eapply Forall_impl; [exact Hx|]. intros a Ha. by apply Ha.
  - apply StronglySorted_inv in Hs as [Hs _]. by apply IH.
Qed.

Lemma entries_ne h : forall z t, path z h t -> 1 <= nCell (tree_page t) -> entries t <> [].
Proof.
  induction h as [|h IH]; intros z [p kids] Hp Hn; cbn [tree_page] in Hn;
    pose proof (path_page _ _ _ _ _ _ _ ok _ _ _ _ Hp) as (_ & _ & _ & _ & _ & _ & Hk & _).
  - rewrite (proj1 Hk eq_refl). cbn. rewrite <- (drop_0 (cells p)), cells_drop by lia. done.
  - destruct (path_child _ _ _ _ _ _ _ ok _ _ _ _ 0 Hp ltac:(lia)) as (k & Hki & _ & Hnk & _).
    destruct kids as [|k0 ks]; [done|]. injection Hki as ->. cbn [entries]. intros [H _]%app_eq_nil.
    by apply (IH ((p, k :: ks, 0%nat) :: z) k).
Qed.

(** A cell and the cells behind it on its page. *)
Lemma below_suffix z h p kids : path z h (Node p kids) -> forall n i, Z.of_nat (i + n) < nCell p ->
  exists b, below z p kids i = b ++ todo z p kids (i + n).
Proof.
  intros Hp. pose proof (path_page _ _ _ _ _ _ _ ok _ _ _ _ Hp) as (_ & _ & _ & _ & _ & _ & Hk & Hz).
  assert (forall i, Z.of_nat i < nCell p -> (exists b, below z p kids i = b ++ todo z p kids i) /\
    (exists b, todo z p kids i = b ++ below z p kids (S i))) as H.
  { intros i Hi. destruct (decide (h = O)) as [H0|H0].
    - rewrite (proj1 Hk H0). split; [by exists []|]. exists [(p, Z.of_nat i)]. by apply todo_leaf.
    - specialize (Hz H0). destruct (rd_lt kids (Z.of_nat i)) as [k Hki]; [lia|]. rewrite rd_nat in Hki. split.
      + exists (entries k). rewrite (below_child _ _ _ _ _ Hki). f_equal. by destruct kids.
      + exists (own p (Z.of_nat i)). by apply todo_interior. }
  induction n as [|n IH]; intros i Hi.
  - rewrite Nat.add_0_r in *. by apply H.
  - destruct (H i ltac:(lia)) as [[b1 ->] [b2 ->]]. destruct (IH (S i) ltac:(lia)) as [b3 ->].
    exists (b1 ++ b2 ++ b3). rewrite <- !app_assoc. do 4 f_equal. lia.
Qed.

Lemma separator_step z h p kids n : path z (S h) (Node p kids) -> leafData p = true -> Z.of_nat (S n) < nCell p ->
  0 <= sgn p (Z.of_nat n) -> 0 < sgn p (Z.of_nat (S n)).
Proof.
  intros Hp Eld Hn Hs.
  destruct (path_child _ _ _ _ _ _ _ ok _ _ _ _ (Z.of_nat (S n)) Hp ltac:(lia)) as (k & Hki & _ & Hnk & _). rewrite Nat2Z.id in Hki.
  pose proof (entries_ne h ((p, kids, S n) :: z) k ltac:(by split) Hnk) as Hne. destruct (entries k) as [|e l] eqn:Ek; [done|].
  assert (e ∈ entries k) as He by (rewrite Ek; set_solver+).
  pose proof (ordered_right _ sorted _ _ _ _ _ _ _ Hp Eld Hki ltac:(lia) He Hs).
  by apply (ordered_left _ sorted _ _ _ _ _ _ _ Hp Eld Hki Hn He).
Qed.

Lemma page_mono z h p kids i j : path z h (Node p kids) -> 0 <= i < j -> j < nCell p ->
  (0 < sgn p i -> 0 < sgn p j) /\ (sgn p j < 0 -> sgn p i < 0).
Proof.
  intros Hp Hi Hj. pose proof (path_page _ _ _ _ _ _ _ ok _ _ _ _ Hp) as (_ & _ & _ & _ & _ & _ & Hk & Hz).
  destruct (decide (h = O \/ leafData p = false)) as [Hl|Hl].
  - destruct (todo_head _ _ _ _ _ _ _ ok z h p kids (Z.to_nat i) Hp ltac:(lia) Hl) as (l & E & ->). rewrite Z2Nat.id in E by lia.
    destruct (below_suffix _ _ _ _ Hp (Z.to_nat (j - i - 1)) (S (Z.to_nat i)) ltac:(lia)) as [b Eb].
    replace (S (Z.to_nat i) + Z.to_nat (j - i - 1))%nat with (Z.to_nat j) in Eb by lia.
    destruct (todo_head _ _ _ _ _ _ _ ok z h p kids (Z.to_nat j) Hp ltac:(lia) Hl) as (l2 & E2 & _). rewrite Z2Nat.id in E2 by lia.
    destruct (todo_suffix _ _ _ _ _ _ _ ok z h p kids (Z.to_nat i) Hp ltac:(lia)) as [b0 E0]. rewrite E, Eb, E2 in E0. split.
    + intros H. pose proof (sorted_pos _ _ _ E0 H) as HF. apply Forall_cons in HF as [_ HF]. apply Forall_app in HF as [_ HF].
      by apply Forall_cons in HF as [HF _].
    + intros H. rewrite app_comm_cons, app_assoc in E0. pose proof (sorted_neg _ _ _ E0 H) as HF.
      apply Forall_app in HF as [_ HF]. by apply Forall_cons in HF as [HF _].
  - destruct (leafData p) eqn:Eld; [|tauto]. assert (h <> O) as Hh by tauto. destruct h as [|h]; [done|].
    pose proof (fun n => separator_step _ _ _ _ n Hp Eld) as Hstep.
    assert (forall n m, Z.of_nat (m + S n) < nCell p -> 0 <= sgn p (Z.of_nat m) -> 0 < sgn p (Z.of_nat (m + S n))) as Hall.
    { induction n as [|n IH]; intros m Hm Hs.
      - rewrite Nat.add_1_r in *. by apply Hstep.
      - replace (m + S (S n))%nat with (S (m + S n)) in * by lia. apply Hstep; [done|]. specialize (IH m ltac:(lia) Hs). lia. }
    specialize (Hall (Z.to_nat (j - i - 1)) (Z.to_nat i) ltac:(lia)). rewrite Z2Nat.id in Hall by lia.
    replace (Z.of_nat (Z.to_nat i + S (Z.to_nat (j - i - 1)))) with j in Hall by lia. lia.
Qed.

(** ** Down the tree *)

Lemma kid_split p kids l k : kids !! S l = Some k -> exists b k', kids !! l = Some k' /\
  entries (Node p kids) = (b ++ entries k' ++ own p (Z.of_nat l)) ++ entries k ++ after entries p (Z.of_nat (S l)) (drop (S (S l)) kids).
Proof.
  intros Hk. destruct (kids !! l) as [k'|] eqn:Hk'; [|apply lookup_ge_None in Hk'; apply lookup_lt_Some in Hk; lia].
  destruct (kid_suffix p _ _ _ Hk') as [b E]. exists b, k'. split; [done|]. rewrite E, (drop_S _ _ _ Hk). cbn [after].
  rewrite <- !app_assoc. do 4 f_equal. f_equal. lia.
Qed.

(** What is before the child that the search goes into, and what is behind it. *)
Lemma child_bounds z h p kids l k pre : path z (S h) (Node p kids) -> kids !! l = Some k ->
  entries tree = pre ++ entries (Node p kids) ++ up z -> neg pre -> pos (up z) ->
  (forall i, l = S i -> sgn p (Z.of_nat i) < 0) ->
  (Z.of_nat l < nCell p -> 0 < sgn p (Z.of_nat l) \/ leafData p = true /\ 0 <= sgn p (Z.of_nat l)) ->
  exists b, entries tree = (pre ++ b) ++ entries k ++ up ((p, kids, l) :: z) /\ neg (pre ++ b) /\ pos (up ((p, kids, l) :: z)).
Proof.
  intros Hp Hk E Hpre Hup Hlt Hge. pose proof (path_page _ _ _ _ _ _ _ ok _ _ _ _ Hp) as (_ & _ & _ & _ & _ & _ & _ & Hz).
  specialize (Hz ltac:(done)).
  assert (exists b, entries (Node p kids) = b ++ entries k ++ after entries p (Z.of_nat l) (drop (S l) kids) /\ neg (pre ++ b)) as (b & Eb & Hb).
  { destruct l as [|l].
    - exists []. rewrite app_nil_r. split; [|done]. destruct kids; [done|]. by injection Hk as ->.
    - destruct (kid_split p _ _ _ Hk) as (b & k' & Hk' & Eb). exists (b ++ entries k' ++ own p (Z.of_nat l)). split; [done|].
      specialize (Hlt l eq_refl). pose proof (lookup_lt_Some _ _ _ Hk) as Hll. unfold zlen in Hz.
      destruct (path_child _ _ _ _ _ _ _ ok _ _ _ _ (Z.of_nat l) Hp ltac:(lia)) as (k2 & Hk2 & _ & Hn & _).
      rewrite Nat2Z.id, Hk' in Hk2. injection Hk2 as <-.
      destruct (leafData p) eqn:Eld.
      + assert (neg (entries k')) as Hn'.
        { apply Forall_forall. intros e He. by apply (ordered_left _ sorted _ _ _ _ _ _ _ Hp Eld Hk' ltac:(lia) He). }
        unfold own in *. rewrite Eld in *. rewrite app_nil_r in *.
        destruct (entries k') as [|e l'] eqn:Ek; [by apply (entries_ne h ((p, kids, l) :: z) k') in Ek; [|split|]|].
        rewrite app_assoc. apply Forall_app. split; [|done]. apply Forall_cons in Hn' as [He _].
        eapply sorted_neg; [|exact He]. rewrite E, Eb, <- !app_assoc. done.
      + unfold own in *. rewrite Eld in *. rewrite !app_assoc. apply Forall_app. split; [|by constructor].
        eapply (sorted_neg _ (p, Z.of_nat l)); [|done]. rewrite E, Eb, <- !app_assoc. done. }
  exists b. split; [|split; [done|]].
  { rewrite E, Eb. cbn [up]. by rewrite <- !app_assoc. }
  destruct (decide (Z.of_nat l < nCell p)) as [Hl|Hl].
  - destruct (rd_lt kids (Z.of_nat (S l))) as [k2 Hk2]; [lia|]. rewrite rd_nat in Hk2.
    replace (up ((p, kids, l) :: z)) with (todo z p kids l) by (by destruct kids).
    destruct (todo_suffix _ _ _ _ _ _ _ ok z (S h) p kids l Hp Hl) as [b0 E0]. rewrite todo_interior in * by done.
    destruct (leafData p) eqn:Eld.
    + assert (0 <= sgn p (Z.of_nat l)) as Hs by (destruct (Hge Hl) as [?|[_ ?]]; lia).
      unfold own in *. rewrite Eld in *. cbn [app] in *. rewrite (below_child _ _ _ _ _ Hk2) in *.
      destruct (entries k2) as [|e l'] eqn:Ek.
      { destruct (path_child _ _ _ _ _ _ _ ok _ _ _ _ (Z.of_nat (S l)) Hp ltac:(lia)) as (k3 & Hk3 & _ & Hn & _).
        rewrite Nat2Z.id, Hk2 in Hk3. injection Hk3 as <-. by apply (entries_ne h ((p, kids, S l) :: z) k2) in Ek; [|split|]. }
      assert (e ∈ entries k2) as He by (rewrite Ek; set_solver+).
      pose proof (ordered_right _ sorted _ _ _ _ _ _ _ Hp Eld Hk2 Hl He Hs) as Hpos.
      exact (sorted_pos _ _ _ E0 Hpos).
    + unfold own in *. rewrite Eld in *. destruct (Hge Hl) as [Hpos|[? _]]; [|done]. exact (sorted_pos _ _ _ E0 Hpos).
  - cbn [up]. rewrite drop_ge; [done|]. unfold zlen in Hz. lia.
Qed.

(** Where the search ends: on an entry next to the key. *)
Definition lands (c' : BtCursor) (r : Z) : Prop := exists l1 e l2,
  entries tree = l1 ++ e :: l2 /\ stands c' (e :: l2) /\ r = sgn e.1 e.2 /\ (r < 0 -> pos l2) /\ (0 < r -> neg l1).

Notation moveto_loop := (moveto_loop pBt rcGet stale st junk malloc_ok torn).

Lemma moveto_loop_ok bias fuel : forall h z p kids c pre, path z h (Node p kids) -> 1 <= nCell p -> (h < fuel)%nat ->
  cPage c = Some p -> parents c = frames z -> eState c = CURSOR_VALID -> pgnoRoot c = root -> atLast c = false ->
  entries tree = pre ++ entries (Node p kids) ++ up z -> neg pre -> pos (up z) ->
  exists c' r, moveto_loop fuel u key bias c = Ret (c', inr r) /\ lands c' r /\ skip c' = skip c.
Proof.
  induction fuel as [|fuel IH]; intros h z p kids c pre Hp Hn Hf Hc Hps Hs Hr Ha E Hpre Hup; [lia|].
  pose proof (path_page _ _ _ _ _ _ _ ok _ _ _ _ Hp) as (_ & Hin & _ & _ & _ & Hlf & Hk & Hz).
  cbn [BtreeCursor.moveto_loop]. rewrite (bind_page _ _ p) by done.
  replace (negb (intKey p) && bool_decide (u = None)) with false.
  2:{ rewrite (kind _ _ _ _ Hp). destruct table; [done|]. by rewrite bool_decide_eq_false_2 by (by apply unpacked). }
  crun_cm. set (i0 := if bias then nCell p - 1 else (nCell p - 1) ÷ 2).
  assert (0 <= i0 <= nCell p - 1) as Hi0.
  { unfold i0. destruct bias; [lia|]. rewrite Z.quot_div_nonneg by lia. Z.to_euclidean_division_equations; lia. }
  rewrite (proj2 (Z.leb_le 0 (nCell p - 1))) by lia.
  destruct (moveto_page_ok p u key (sgn p) (Z.to_nat (nCell p)) 0 (nCell p - 1) (set_idx i0 c)) as
    (c1 & found & l & r & Em & [K1 K2 K3 K4 K5 K6] & Hca & Hi & -> & Hres); try done; try lia;
    [intros i; by apply (signs _ _ _ _ _ Hp)|intros i j; by apply (page_mono _ _ _ _ _ _ Hp)|].
  cbn [cPage parents eState pgnoRoot atLast skip set_idx set_place] in *. rewrite Hc in K1. rewrite Hps in K2. rewrite Hs in K3. rewrite Hr in K4. rewrite Ha in K5.
  rewrite (bind_run _ _ _ _ _ Em). set (i := Z.to_nat (idx c1)). assert (idx c1 = Z.of_nat i) as Hx by lia. rewrite Hx in *.
  (* the cursor on this page, where it may stay *)
  assert (h = O \/ leafData p = false -> stands c1 (todo z p kids i)) as Hstay.
  { intros Hl. apply (stands_at _ _ _ _ _ _ _ ok z h); try done; [lia|by rewrite K5]. }
  (* the descent *)
  assert (forall n, l = Z.of_nat n -> h <> O -> found = false -> Z.of_nat n <= nCell p -> (forall j, n = S j -> sgn p (Z.of_nat j) < 0) ->
    (Z.of_nat n < nCell p -> 0 < sgn p (Z.of_nat n) \/ leafData p = true /\ 0 <= sgn p (Z.of_nat n)) -> exists c' r',
    (if found : bool then mret 0 else pure (c_assert (isInit p));;
      chldPg ← (if leaf p then mret 0 else if nCell p <=? l then pure (right_child p) else pure (pc ← findCell p l; get4byte (aData p) pc));
      if chldPg =? 0 then c ← cur; pure (c_assert ((0 <=? idx c) && (idx c <? nCell p)));; mret (sgn p (Z.of_nat i))
      else change (set_idx l);; reset_info;; moveToChild pBt rcGet stale st chldPg;; moveto_loop fuel u key bias) c1 = Ret (c', inr r') /\
    lands c' r' /\ skip c' = skip c) as Hdown.
  { intros n -> Hh -> Hn1 Hlt Hge. destruct h as [|h]; [done|]. rewrite Hlf, bool_decide_eq_false_2 by done.
    rewrite Hin. rewrite bind_assert by done.
    destruct (path_child _ _ _ _ _ _ _ ok _ _ _ _ (Z.of_nat n) Hp ltac:(lia)) as (k & Hki & Hch & Hnk & Hlk). rewrite Nat2Z.id in Hki.
    rewrite (bind_run _ _ c1 c1 (pgno (tree_page k))) by (unfold child in Hch; destruct (_ <=? _); by rewrite Hch).
    rewrite (proj2 (Z.eqb_neq _ _)) by (by apply load_page in Hlk as (_ & _ & _ & ? & _)).
    crun_cm. unfold reset_info. rewrite bind_change.
    set (c2 := set_info (no_size (info (set_idx (Z.of_nat n) c1))) false (set_idx (Z.of_nat n) c1)).
    destruct (moveToChild_at _ _ _ _ _ _ _ ok z h p kids n k c2 Hp Hki K3 K1 K2 eq_refl) as [Ec Hp']. rewrite (bind_run _ _ _ _ _ Ec).
    destruct (child_bounds _ _ _ _ _ _ _ Hp Hki E Hpre Hup Hlt Hge) as (b & E' & Hb & Hu). destruct k as [pk kk].
    destruct (IH h _ pk kk (moved pk (frames ((p, kids, n) :: z)) 0 c2) (pre ++ b) Hp' Hnk ltac:(lia) eq_refl eq_refl K3 K4 K5 E' Hb Hu)
      as (c' & r' & El & Hlands & Hsk). exists c', r'. split; [exact El|]. split; [done|]. by rewrite Hsk. }
  destruct (Z.eqb_spec (sgn p (Z.of_nat i)) 0) as [H0|H0].
  - destruct Hres as [Hfound Hl]. destruct (decide (h = O \/ leafData p = false)) as [Hrest|Hrest].
    + pose proof (Hstay Hrest) as Hst. destruct (todo_head _ _ _ _ _ _ _ ok z h p kids i Hp ltac:(lia) Hrest) as (l2 & Et & _). rewrite Et in Hst. destruct (on_suffix _ _ _ _ _ _ _ ok _ _ (proj1 Hst)) as [l1 E1].
      assert (found = true) as -> by (rewrite Hfound, Hlf; destruct Hrest as [->| ->]; [rewrite bool_decide_eq_true_2 by done; by rewrite andb_false_r|done]).
      exists c1, 0. split; [done|]. split; [|done]. exists l1, (p, Z.of_nat i), l2. split_and!; try done; cbn; lia.
    + destruct (leafData p) eqn:Eld; [|tauto]. assert (h <> O) as Hh by tauto.
      apply (Hdown i); [done|done|by rewrite Hfound, Hlf, bool_decide_eq_false_2|lia| |intros _; right; split; [done|lia]].
      intros j Ej. destruct (Z_lt_le_dec (sgn p (Z.of_nat j)) 0) as [?|Hj]; [done|]. exfalso.
      destruct h as [|h]; [done|]. pose proof (separator_step _ _ _ _ j Hp Eld ltac:(lia) Hj) as Hj2. rewrite <- Ej in Hj2. lia.
  - destruct Hres as (-> & Hl & Hlo & Hhi). destruct (decide (h = O)) as [Hh|Hh].
    + clear Hdown. pose proof (Hstay (or_introl Hh)) as Hst.
      destruct (todo_head _ _ _ _ _ _ _ ok z h p kids i Hp ltac:(lia) ltac:(by left)) as (l2 & Et & Hl2). rewrite Et in Hst.
      rewrite Hin, Hlf, bool_decide_eq_true_2 by done. rewrite bind_assert by done. crun_cm. change (0 =? 0) with true. cbv match.
      crun_cm. rewrite bind_assert by (apply andb_true_iff; lia). exists c1, (sgn p (Z.of_nat i)). split; [done|]. split; [|done].
      rewrite (proj1 Hk Hh) in *. exists (pre ++ take i (cells p)), (p, Z.of_nat i), l2.
      split_and!; try done.
      * rewrite E, <- Et. unfold todo. cbn [entries]. rewrite <- app_assoc. f_equal. by rewrite app_assoc, take_drop.
      * intros Hneg. rewrite Hl2. unfold below. apply Forall_app. split; [|done]. rewrite (proj2 (Z.ltb_lt _ _)) in Hl by done.
        apply Forall_forall. intros [q j] Hj. destruct (proj2 (cells_take_drop p (S i) _) Hj) as [Hq Hj2]. cbn in Hq, Hj2 |- *. subst q. apply Hhi. lia.
      * intros Hpos. apply Forall_app. split; [done|]. rewrite (proj2 (Z.ltb_ge _ _)) in Hl by lia.
        apply Forall_forall. intros [q j] Hj. destruct (proj1 (cells_take_drop p i _) Hj) as [Hq Hj2]. cbn in Hq, Hj2 |- *. subst q. apply Hlo. lia.
    + destruct (Z.ltb_spec (sgn p (Z.of_nat i)) 0).
      * apply (Hdown (S i)); [lia|done|done|lia|by intros j [= <-]|]. intros Hlt. left. apply Hhi. lia.
      * apply (Hdown i); [lia|done|done|lia| |intros _; left; lia]. intros j Ej. apply Hlo. lia.
Qed.

(** ** The whole search *)

(** A cursor as the calls leave it. *)
Definition sound (c : BtCursor) : Prop := ready root tree c /\ (eState c = CURSOR_VALID -> exists e l, stands c (e :: l)).

Lemma stands_sound c l : stands c l -> sound c.
Proof.
  intros H. pose proof (stands_ready _ _ _ _ _ _ _ ok _ _ H) as Hr. split; [done|]. intros Hs. destruct l; [by destruct H as [_ H]; rewrite Hs in H|eauto].
Qed.

(** The arguments that stand for the key. *)
Definition searched (pKey : option (list Z)) (pUnKey : option UnpackedRecord) : Prop :=
  if table then pKey = None /\ pUnKey = None /\ u = None else
  exists p2, u = Some p2 /\ (pKey = None /\ pUnKey = Some p2 \/
    pUnKey = None /\ exists k o, pKey = Some k /\ sqlite3VdbeRecordUnpack tg junk pKeyInfo (s32 key) k 200 mallocs = Ret (Some p2, o)).

Context (depth : nat) (deep : (height < depth)%nat).
Notation Moveto := (sqlite3BtreeMoveto pBt rcGet stale st tg junk pKeyInfo mallocs malloc_ok depth torn).

(** The cursor is on an entry of a table and remembers its rowid. *)
Lemma moveto_remembered c e l : stands c (e :: l) -> validNKey c = true -> table = true ->
  exists p, cPage c = Some p /\ intKey p = true /\
    (nKey (info c) = key -> lands c 0) /\ (atLast c = true -> nKey (info c) < key -> lands c (-1)).
Proof.
  intros (Hon & Hca & Ha) Hv Ht. pose proof (on_suffix _ _ _ _ _ _ _ ok _ _ Hon) as [l1 E1]. pose proof Hon as Hst.
  destruct Hon as (z & h & p & kids & i & Hp & Hi & Hl & Et & Hc & Hps & Hx & Hs & Hr).
  destruct (todo_head _ _ _ _ _ _ _ ok _ _ _ _ _ Hp Hi Hl) as (l' & Et' & _). rewrite Et' in Et. injection Et as -> ->.
  exists p. split; [done|]. pose proof (kind _ _ _ _ Hp) as Hk. rewrite Ht in Hk. split; [done|].
  destruct (Hca p Hc) as [_ Hrow]. specialize (Hrow Hv Hk). destruct (signs _ _ _ _ (Z.of_nat i) Hp ltac:(lia)) as (pCell & Ec & Hcmp).
  rewrite Hk in Hcmp. destruct Hcmp as (k & Erow & Hsg). rewrite Hx, Ec in Hrow. cbn in Hrow. rewrite Erow in Hrow. injection Hrow as ->.
  split; [intros He|intros Hal Hlt]; exists l1, (p, Z.of_nat i), l'; (split; [done|]; split; [done|]); cbn [fst snd]; rewrite Hsg.
  - rewrite He, Z.eqb_refl. split_and!; [done|lia|lia].
  - rewrite (proj2 (Z.eqb_neq _ _)), (proj2 (Z.ltb_lt _ _)) by lia. split_and!; [done| |lia]. intros _. specialize (Ha Hal). by destruct l'.
Qed.

Lemma moveto_ok pKey pUnKey bias c : sound c -> searched pKey pUnKey -> exists c' r,
  Moveto pKey pUnKey key bias c = Ret (c', inr r) /\ skip c' = skip c /\
  match entries tree with [] => r = -1 /\ stands c' [] | _ => lands c' r end.
Proof.
  intros [Hrd Hval] Hkey. unfold sqlite3BtreeMoveto. crun_cm.
  assert (exists o, (if (eState c =? CURSOR_VALID) && validNKey c then
            pPage ← the_page;
            mret (if negb (intKey pPage) then None
                  else if nKey (info c) =? key then Some 0
                  else if atLast c && (nKey (info c) <? key) then Some (-1) else None)
          else mret None) c = Ret (c, inr o) /\ forall r, o = Some r -> lands c r /\ exists e l, stands c (e :: l)) as (o & Eo & Ho).
  { destruct (Z.eqb_spec (eState c) CURSOR_VALID) as [Hs|Hs]; [|by exists None]. destruct (validNKey c) eqn:Hv; [|by exists None]. cbn [andb].
    destruct (Hval Hs) as (e & l & Hst). assert (table = true \/ table = false) as [Ht|Ht] by (destruct table; auto).
    - destruct (moveto_remembered c e l Hst Hv Ht) as (p & Hc & Hk & H1 & H2). rewrite (bind_page _ _ p Hc), Hk. eexists. split; [done|].
      intros r. cbn [negb]. destruct (Z.eqb_spec (nKey (info c)) key) as [He|He]; [intros [= <-]; eauto|].
      destruct (atLast c) eqn:Hal; [|done]. cbn [andb]. destruct (Z.ltb_spec (nKey (info c)) key); [intros [= <-]; eauto|done].
    - destruct (proj1 Hst) as (z & h & p & kids & i & Hp & _ & _ & _ & Hc & _). rewrite (bind_page _ _ p Hc), (kind _ _ _ _ Hp), Ht.
      exists None. done. }
  rewrite (bind_run _ _ _ _ _ Eo). destruct o as [r|].
  { destruct (Ho r eq_refl) as [Hlands (e & l & Hst)]. exists c, r. split; [done|]. split; [done|].
    destruct Hlands as (l1 & e1 & l2 & E & Hrest). rewrite E. destruct (l1 ++ e1 :: l2) eqn:El; [by destruct l1|].
    exists l1, e1, l2. rewrite E, El in *. done. }
  clear Ho Eo. destruct (moveToRoot_ok _ _ _ _ _ _ _ ok c Hrd) as (z & h & p & kids & Hp & He & H0 & Hu & E).
  rewrite (bind_run _ _ _ _ _ E), (bind_page _ _ p) by done. destruct (unsaved_fields c) as (_ & _ & U & Us).
  pose proof (path_page _ _ _ _ _ _ _ ok _ _ _ _ Hp) as (_ & Hin & _ & _ & Hn & _). rewrite Hin, bind_assert by done. crun_cm.
  destruct Hrd as [Hr Hs Hh].
  destruct (Z.ltb_spec 0 (nCell p)) as [Hlt|Hge]; cbn [eState set_eState].
  - change (CURSOR_VALID =? CURSOR_INVALID) with false. cbv match. set (c1 := set_eState _ _).
    rewrite (bind_run _ _ c1 c1 u).
    2:{ rewrite (kind _ _ _ _ Hp). unfold searched in Hkey. destruct table.
        - destruct Hkey as (-> & -> & ->). done.
        - destruct Hkey as (p2 & -> & [[-> ->]|(-> & k & o & -> & Eu)]); [done|].
          rewrite (bind_pure _ _ _ k) by done. by rewrite (bind_pure _ _ _ _ Eu). }
    pose proof (path_height _ _ _ _ _ Hp).
    destruct (moveto_loop_ok bias depth h z p kids c1 [] Hp ltac:(lia) ltac:(lia) eq_refl eq_refl eq_refl ltac:(cbn; congruence) eq_refl) as
      (c' & r & El & Hlands & Hsk).
    { rewrite He, below_entries. done. } { done. } { by rewrite Hu. }
    exists c', r. split; [done|]. split; [by rewrite Hsk|]. destruct Hlands as (l1 & e1 & l2 & E1 & Hrest).
    destruct (entries tree) eqn:Ee; [by destruct l1|]. exists l1, e1, l2. rewrite Ee. done.
  - change (CURSOR_INVALID =? CURSOR_INVALID) with true. cbv match. rewrite bind_assert by (apply Z.eqb_eq; lia).
    destruct (H0 ltac:(lia)) as [_ ->]. eexists _, _. split; [done|]. split; [done|]. split; [done|]. split; [|done].
    apply (moved_ready _ _ _ _ _ _ _ ok z h (Node p kids) 0 (set_eState CURSOR_INVALID (set_atLast false (unsaved c))) Hp); [cbn; congruence|done].
Qed.

End seek.
