(* ===== verification/BtreeResume.v ===== *)
(** * Tables: rowids, and scans that are interrupted

    A table is a tree whose rowids are in order.  [sqlite3BtreeMoveto] finds a
    rowid in it.  A scan goes on behind the rowid it was at when its position
    was saved, whatever became of the table in between. *)

From Stdlib Require Import Sorting.Sorted.
From S2P Require Import Prelude Varint PageBytes BtreePage BtreeParse BtreeStore Record Mem BtreeCursor BtreeWalk BtreeScan BtreeSeek.

(** The rowid in a cell, 0 when there is none. *)
Definition rowid (e : MemPage * Z) : Z :=
  match (pCell ← cell_at e.1 e.2; rowid_at e.1 pCell) with Ret k => k | _ => 0 end.

Definition has_rowid (e : MemPage * Z) : Prop := exists pCell, cell_at e.1 e.2 = Ret pCell /\ rowid_at e.1 pCell = Ret (rowid e).

(** The rowids are in order; the separators are not smaller than what is below
    them and smaller than what follows. *)
Record table_ok (height : nat) (tree : btree) : Prop := {
  table_int : forall z h p kids, path height tree z h (Node p kids) -> intKey p = true;
  table_rowids : forall z h p kids i, path height tree z h (Node p kids) -> 0 <= i < nCell p -> has_rowid (p, i);
  table_sorted : StronglySorted (fun x y => rowid x < rowid y) (entries tree);
  table_left : forall z h p kids i k e, path height tree z (S h) (Node p kids) -> leafData p = true -> kids !! i = Some k ->
    Z.of_nat i < nCell p -> e ∈ entries k -> rowid e <= rowid (p, Z.of_nat i);
  table_right : forall z h p kids i k e, path height tree z (S h) (Node p kids) -> leafData p = true -> kids !! S i = Some k ->
    Z.of_nat i < nCell p -> e ∈ entries k -> rowid (p, Z.of_nat i) < rowid e;
}.

(** How a rowid compares with the one that is searched for. *)
Definition sign (key : Z) (p : MemPage) (i : Z) : Z :=
  if rowid (p, i) =? key then 0 else if rowid (p, i) <? key then -1 else 1.

Lemma sign_cases key p i : sign key p i = 0 /\ rowid (p, i) = key \/ sign key p i = -1 /\ rowid (p, i) < key \/ sign key p i = 1 /\ key < rowid (p, i).
Proof. unfold sign. destruct (Z.eqb_spec (rowid (p, i)) key), (Z.ltb_spec (rowid (p, i)) key); lia. Qed.

Section table.
Context (pBt : BtShared) (rcGet : Store -> Z -> Z) (stale : Store -> Z -> list Z) (st : Store).
Context (tg : target) (junk : Mem) (pKeyInfo : KeyInfo) (mallocs : list bool) (malloc_ok : Z -> bool) (torn : list Z).
Context (root : Z) (height : nat) (tree : btree) (ok : tree_ok pBt rcGet stale st root height tree) (tok : table_ok height tree).
Notation stands := (stands pBt root height tree).

Lemma table_ordered key : ordered height tree (sign key).
Proof.
  assert (forall x y, rowid x < rowid y -> before (sign key) x y) as Hb.
  { intros [p i] [q j] H. unfold before. cbn [fst snd]. destruct (sign_cases key p i), (sign_cases key q j); lia. }
  destruct tok as [_ _ Hs Hl Hr]. split.
  - clear - Hs Hb. induction Hs as [|x l _ IH Hx]; constructor; [done|]. eapply Forall_impl; [exact Hx|]. intros y. apply Hb.
  - intros z h p kids i k [q j] Hp Hld Hk Hi He. specialize (Hl _ _ _ _ _ _ _ Hp Hld Hk Hi He). unfold before. cbn [fst snd].
    destruct (sign_cases key p (Z.of_nat i)), (sign_cases key q j); lia.
  - intros z h p kids i k [q j] Hp Hld Hk Hi He. specialize (Hr _ _ _ _ _ _ _ Hp Hld Hk Hi He). cbn [fst snd].
    destruct (sign_cases key p (Z.of_nat i)), (sign_cases key q j); lia.
Qed.

(** The entries in front of the one the search ends on, and those behind. *)
Lemma table_split l1 e l2 : entries tree = l1 ++ e :: l2 ->
  Forall (fun x => rowid x < rowid e) l1 /\ Forall (fun x => rowid e < rowid x) l2.
Proof.
  destruct tok as [_ _ Hs _ _]. intros E. rewrite E in Hs. clear - Hs. induction l1 as [|x l1 IH].
  - apply StronglySorted_inv in Hs as [_ Hs]. by split.
  - apply StronglySorted_inv in Hs as [Hs Hx]. destruct (IH Hs) as [H1 H2]. split; [|done]. constructor; [|done].
    rewrite Forall_forall in Hx. apply Hx. set_solver+.
Qed.

Context (depth : nat) (deep : (height < depth)%nat).
Notation Moveto := (sqlite3BtreeMoveto pBt rcGet stale st tg junk pKeyInfo mallocs malloc_ok depth torn).

Lemma moveto_table key bias c : sound pBt root height tree c -> exists c' r,
  Moveto None None key bias c = Ret (c', inr r) /\ skip c' = skip c /\
  match entries tree with
  | [] => r = -1 /\ stands c' []
  | _ => exists l1 e l2, entries tree = l1 ++ e :: l2 /\ stands c' (e :: l2) /\ r = sign key e.1 e.2 /\
      Forall (fun x => rowid x < key) l1 /\ Forall (fun x => key < rowid x) l2
  end.
Proof.
  intros Hc. destruct (moveto_ok pBt rcGet stale st tg junk pKeyInfo mallocs malloc_ok torn root height tree ok true None key (sign key)) with
    (depth := depth) (pKey := @None (list Z)) (pUnKey := @None UnpackedRecord) (bias := bias) (c := c) as (c' & r & E & Hsk & H); try done.
  - apply tok.
  - intros z h p kids i Hp Hi. destruct (table_rowids _ _ tok _ _ _ _ _ Hp Hi) as (pCell & E1 & E2). exists pCell. split; [done|].
    rewrite (table_int _ _ tok _ _ _ _ Hp). exists (rowid (p, i)). done.
  - apply table_ordered.
  - exists c', r. split; [done|]. split; [done|]. destruct (entries tree) as [|e0 l0] eqn:Ee; [done|]. rewrite <- Ee in *.
    destruct H as (l1 & e & l2 & E1 & Hst & Hr & H2 & H1). exists l1, e, l2. split; [done|]. split; [done|]. split; [done|].
    destruct (table_split l1 e l2 E1) as [S1 S2]. destruct e as [p i]. cbn [fst snd] in *.
    split.
    + destruct (sign_cases key p i) as [[Hs Hk]|[[Hs Hk]|[Hs Hk]]].
      * by rewrite <- Hk.
      * eapply Forall_impl; [exact S1|]. intros x Hx. cbn in Hx. lia.
      * specialize (H1 ltac:(lia)). eapply Forall_impl; [exact H1|]. intros [q j] Hx. cbn in Hx. destruct (sign_cases key q j); lia.
    + destruct (sign_cases key p i) as [[Hs Hk]|[[Hs Hk]|[Hs Hk]]].
      * by rewrite <- Hk.
      * specialize (H2 ltac:(lia)). eapply Forall_impl; [exact H2|]. intros [q j] Hx. cbn in Hx. destruct (sign_cases key q j); lia.
      * eapply Forall_impl; [exact S2|]. intros x Hx. cbn in Hx. lia.
Qed.

(** ** Saving *)

Notation save := (saveCursorPosition pBt rcGet stale st tg junk pKeyInfo mallocs malloc_ok depth torn).
Notation restore := (restoreOrClearCursorPosition pBt rcGet stale st tg junk pKeyInfo mallocs malloc_ok depth torn).
Notation Next := (sqlite3BtreeNext pBt rcGet stale st tg junk pKeyInfo mallocs malloc_ok depth torn).
Notation Previous := (sqlite3BtreePrevious pBt rcGet stale st tg junk pKeyInfo mallocs malloc_ok depth torn).

Lemma bind_assert_last b c : b = true -> pure (c_assert b) c = Ret (c, inr tt).
Proof. by intros ->. Qed.

(** A cursor whose position in a table is saved. *)
Record saved (c : BtCursor) (key : Z) : Prop := {
  saved_state : eState c = CURSOR_REQUIRESEEK;
  saved_page : cPage c = None;
  saved_key : cKey c = None;
  saved_rowid : cnKey c = key;
  saved_root : pgnoRoot c = root;
}.

Lemma getCellInfo_key c e l : stands c (e :: l) -> readable pBt tree ->
  exists c', getCellInfo pBt c = Ret (c', inr tt) /\ kept c c' /\ cKey c' = cKey c /\ nKey (info c') = rowid e.
Proof.
  intros (Hon & Hca & _) Hread. destruct (on_head _ _ _ _ _ _ _ ok _ _ _ Hon) as [Hc Hx].
  destruct (on_suffix _ _ _ _ _ _ _ ok _ _ Hon) as [b Eb]. unfold readable in Hread. rewrite Eb in Hread.
  apply Forall_app in Hread as [_ Hread]. apply Forall_cons in Hread as [(pCell & x & E1 & E2) _].
  assert (intKey e.1 = true /\ rowid_at e.1 pCell = Ret (rowid e)) as [Hk Hrow].
  { destruct Hon as (z & h & p & kids & i & Hp & Hi & Hl & Et & Hc' & _ & Hx' & _). assert (e = (p, Z.of_nat i)) as -> by (destruct e; cbn in *; congruence). cbn [fst snd] in *.
    split; [by apply (table_int _ _ tok _ _ _ _ Hp)|]. destruct (table_rowids _ _ tok _ _ _ _ (Z.of_nat i) Hp ltac:(lia)) as (pc & E3 & E4).
    cbn [fst snd] in *. rewrite E3 in E1. by injection E1 as ->. }
  pose proof (parse_rowid _ _ _ _ Hk E2) as Hp. rewrite Hp in Hrow. injection Hrow as Hn.
  destruct (Hca e.1 Hc) as [Hi _]. rewrite Hx in Hi.
  destruct (Z.eqb_spec (nSize (info c)) 0) as [H0|H0].
  - rewrite <- Hx in E1. rewrite (getCellInfo_ok _ _ _ _ _ Hc E1 E2 H0). eexists. split; [done|]. split; [by split|]. split; [done|]. by rewrite <- Hn.
  - exists c. split; [unfold getCellInfo; crun_cm; by rewrite (proj2 (Z.eqb_neq _ _) H0)|]. split; [by split|]. split; [done|].
    destruct (Hi H0) as [E3 E4]. rewrite E1 in E3. injection E3 as E3. rewrite <- E3, E2 in E4. injection E4 as <-. done.
Qed.

Lemma save_ok c e l : stands c (e :: l) -> cKey c = None -> readable pBt tree ->
  exists c', save c = Ret (c', inr tt) /\ saved c' (rowid e).
Proof.
  intros Hst Hk Hread. destruct (getCellInfo_key c e l Hst Hread) as (c1 & Eg & [K1 K2 K3 K4 K5 K6] & Kk & Hn).
  pose proof (proj1 Hst) as (z & h & p & kids & i & Hp & _ & _ & _ & Hc & _ & _ & Hs & Hr).
  unfold saveCursorPosition. crun_cm. rewrite Hs, Hk, bind_assert by done.
  rewrite (bind_run _ _ c c1 (rowid e)).
  2:{ unfold sqlite3BtreeKeySize. rewrite (bind_run _ _ _ _ _ (restore_valid _ _ _ _ _ _ _ _ _ _ _ c ltac:(by rewrite Hs))). crun_cm.
      rewrite Hs, bind_assert by done. change (CURSOR_VALID =? CURSOR_INVALID) with false. cbv match. rewrite (bind_run _ _ _ _ _ Eg). crun_cm. by rewrite Hn. }
  crun_cm. rewrite (bind_page _ _ p) by (cbn; congruence). rewrite (table_int _ _ tok _ _ _ _ Hp). crun_cm.
  eexists. split; [done|]. split; cbn; congruence.
Qed.

(** ** Restoring *)

Lemma restore_ok c key : saved c key -> exists c', restore c = Ret (c', inr tt) /\ eState c' < CURSOR_REQUIRESEEK /\
  match entries tree with
  | [] => skip c' = -1 /\ stands c' []
  | _ => exists l1 e l2, entries tree = l1 ++ e :: l2 /\ stands c' (e :: l2) /\ skip c' = sign key e.1 e.2 /\
      Forall (fun x => rowid x < key) l1 /\ Forall (fun x => key < rowid x) l2
  end.
Proof.
  intros [Hs Hc Hk Hn Hr]. unfold restoreOrClearCursorPosition. crun_cm. rewrite Hs. change (CURSOR_REQUIRESEEK <=? CURSOR_REQUIRESEEK) with true.
  cbv match. unfold sqlite3BtreeRestoreOrClearCursorPosition. crun_cm. rewrite Hs, bind_assert by done.
  change (CURSOR_REQUIRESEEK =? CURSOR_FAULT) with false. cbv match. crun_cm. rewrite Hk, Hn.
  destruct (moveto_table key false (set_eState CURSOR_INVALID c)) as (c' & r & E & _ & H).
  { split; [split; [done|done|cbn; by rewrite Hc]|done]. }
  rewrite (bind_run _ _ _ _ _ E). crun_cm. set (c2 := set_key None _ _).
  assert (stands c' [] -> stands c2 []) as S0 by (intros [[? ? ?] ?]; done).
  assert (forall e l, stands c' (e :: l) -> stands c2 (e :: l)) as S1 by done.
  destruct (entries tree) as [|e0 l0].
  - destruct H as [-> Hst]. pose proof Hst as [_ Hi]. exists c2. split; [by rewrite bind_assert_last by (cbn; by rewrite Hi)|].
    split; [cbn; by rewrite Hi|]. split; [done|]. by apply S0.
  - destruct H as (l1 & e & l2 & E1 & Hst & -> & H1 & H2). pose proof (proj1 Hst) as (z & h & p & kids & i & _ & _ & _ & _ & _ & _ & _ & Hi & _).
    exists c2. split; [by rewrite bind_assert_last by (cbn; by rewrite Hi)|]. split; [cbn; by rewrite Hi|].
    exists l1, e, l2. by split_and!.
Qed.

Lemma after_restore calls c c' : restore c = Ret (c', inr tt) -> eState c' < CURSOR_REQUIRESEEK ->
  Next (S calls) c = Next (S calls) c' /\ Previous (S calls) c = Previous (S calls) c'.
Proof.
  intros E H. pose proof (restore_valid pBt rcGet stale st depth tg junk pKeyInfo mallocs malloc_ok torn c' H) as E'.
  cbn [sqlite3BtreeNext sqlite3BtreePrevious]. by rewrite !(bind_run _ _ _ _ _ E), !(bind_run _ _ _ _ _ E').
Qed.

Lemma filter_behind key l : Forall (fun x => key < rowid x) l -> filter (fun x => key < rowid x) l = l /\ filter (fun x => rowid x < key) l = [].
Proof.
  induction 1 as [|x l Hx _ [IH1 IH2]]; [done|]. rewrite !filter_cons, decide_True by done. rewrite decide_False by lia. by rewrite IH1, IH2.
Qed.

Lemma filter_ahead key l : Forall (fun x => rowid x < key) l -> filter (fun x => key < rowid x) l = [] /\ filter (fun x => rowid x < key) l = l.
Proof.
  induction 1 as [|x l Hx _ [IH1 IH2]]; [done|]. rewrite !filter_cons, (decide_True _ _ Hx). rewrite decide_False by lia. by rewrite IH1, IH2.
Qed.

(** The step after a restored position: to the first entry behind the key. *)
Lemma resume_next c key : saved c key -> let l := filter (fun x => key < rowid x) (entries tree) in
  exists c', Next 2 c = Ret (c', inr (is_nil l)) /\ stands c' l.
Proof.
  intros Hsv l. destruct (restore_ok c key Hsv) as (c1 & E & Hv & H). destruct (after_restore 1 _ _ E Hv) as [-> _]. subst l.
  destruct (entries tree) as [|e0 l0] eqn:Ee.
  - destruct H as [Hsk Hst]. destruct (next_ok _ _ _ _ _ _ _ ok depth deep tg junk pKeyInfo mallocs malloc_ok torn c1 [] Hst ltac:(lia)) as (c2 & E2 & Hst2 & _). eauto.
  - rewrite <- Ee in *. destruct H as (l1 & [p i] & l2 & E1 & Hst & Hsk & H1 & H2). cbn [fst snd] in Hsk.
    rewrite E1, filter_app, (proj1 (filter_ahead _ _ H1)), filter_cons, (proj1 (filter_behind _ _ H2)). cbn [app].
    destruct (sign_cases key p i) as [[Hs Hk]|[[Hs Hk]|[Hs Hk]]]; rewrite Hs in Hsk.
    1,2: rewrite decide_False by lia;
      destruct (next_ok _ _ _ _ _ _ _ ok depth deep tg junk pKeyInfo mallocs malloc_ok torn c1 _ Hst ltac:(lia)) as (c2 & E2 & Hst2 & _); eauto.
    rewrite decide_True by done. exists (set_skip 0 c1). split; [|done].
    pose proof (proj1 Hst) as (z & h & q & kids & j & _ & _ & _ & _ & _ & _ & _ & Hvs & _).
    cbn [sqlite3BtreeNext]. rewrite (bind_run _ _ c1 c1 tt) by (by apply restore_valid). crun_cm. rewrite Hvs, Hsk. done.
Qed.

(** The step back after a restored position: to the last entry before the key. *)
Lemma resume_previous c key b : saved c key -> filter (fun x => rowid x < key) (entries tree) = reverse b ->
  exists c', Previous 2 c = Ret (c', inr (is_nil b)) /\
    match b with [] => stands c' [] | e :: _ => exists l, stands c' (e :: l) end.
Proof.
  intros Hsv Hb. destruct (restore_ok c key Hsv) as (c1 & E & Hv & H). destruct (after_restore 1 _ _ E Hv) as [_ ->].
  destruct (entries tree) as [|e0 l0] eqn:Ee.
  - destruct H as [Hsk [Hrd Hi]]. assert (b = []) as -> by (apply (f_equal reverse) in Hb; by rewrite reverse_involutive in Hb).
    exists (set_atLast false c1). cbn [sqlite3BtreePrevious]. rewrite (bind_run _ _ c1 c1 tt) by (by apply restore_valid). crun_cm.
    cbn [eState set_atLast]. rewrite Hi. destruct Hrd. done.
  - rewrite <- Ee in *. destruct H as (l1 & [p i] & l2 & E1 & Hst & Hsk & H1 & H2). cbn [fst snd] in Hsk.
    rewrite E1, filter_app, (proj2 (filter_ahead _ _ H1)), filter_cons, (proj2 (filter_behind _ _ H2)) in Hb.
    destruct (decide (rowid (p, i) < key)) as [Hlt|Hge].
    + assert (b = (p, i) :: reverse l1) as -> by (apply (f_equal reverse) in Hb; rewrite reverse_involutive, reverse_app in Hb; done).
      destruct (sign_cases key p i) as [?|[[Hs _]|?]]; [lia| |lia]. rewrite Hs in Hsk.
      exists (set_skip 0 (set_atLast false c1)). pose proof (proj1 Hst) as (z & h & q & kids & j & _ & _ & _ & _ & _ & _ & _ & Hvs & _).
      split.
      * cbn [sqlite3BtreePrevious]. rewrite (bind_run _ _ c1 c1 tt) by (by apply restore_valid). crun_cm. cbn [eState skip set_atLast].
        rewrite Hvs, Hsk. done.
      * exists l2. destruct Hst as (Hon & Hca & _). done.
    + rewrite app_nil_r in Hb. subst l1.
      destruct (previous_ok _ _ _ _ _ _ _ ok depth deep tg junk pKeyInfo mallocs malloc_ok torn c1 b _ Hst E1) as (c2 & E2 & Hst2 & _).
      { destruct (sign_cases key p i) as [[Hs _]|[?|[Hs _]]]; lia. }
      exists c2. split; [done|]. destruct b; [done|]. eauto.
Qed.

End table.

(** C8: a scan of a table is interrupted at the entry [e]: its position is
    saved, and the table may change.  The next [sqlite3BtreeNext] goes to the
    first entry with a greater rowid, the next [sqlite3BtreePrevious] to the
    last one with a smaller rowid, and they answer 1 when there is none. *)
Theorem interrupted_scan pBt rcGet stale st1 st2 tg junk pKeyInfo mallocs malloc_ok torn root height1 height2 tree1 tree2 depth c e l :
  tree_ok pBt rcGet stale st1 root height1 tree1 -> table_ok height1 tree1 -> readable pBt tree1 ->
  stands pBt root height1 tree1 c (e :: l) -> cKey c = None ->
  tree_ok pBt rcGet stale st2 root height2 tree2 -> table_ok height2 tree2 -> (height1 < depth)%nat -> (height2 < depth)%nat ->
  exists c1, saveCursorPosition pBt rcGet stale st1 tg junk pKeyInfo mallocs malloc_ok depth torn c = Ret (c1, inr tt) /\
    (let behind := filter (fun x => rowid e < rowid x) (entries tree2) in
     exists c2, sqlite3BtreeNext pBt rcGet stale st2 tg junk pKeyInfo mallocs malloc_ok depth torn 2 c1 = Ret (c2, inr (is_nil behind)) /\
       stands pBt root height2 tree2 c2 behind) /\
    (forall before, filter (fun x => rowid x < rowid e) (entries tree2) = reverse before ->
     exists c2, sqlite3BtreePrevious pBt rcGet stale st2 tg junk pKeyInfo mallocs malloc_ok depth torn 2 c1 = Ret (c2, inr (is_nil before)) /\
       match before with
       | [] => stands pBt root height2 tree2 c2 []
       | e' :: _ => exists l', stands pBt root height2 tree2 c2 (e' :: l')
       end).
Proof.
  intros ok1 tok1 Hread Hst Hk ok2 tok2 D1 D2.
  destruct (save_ok pBt rcGet stale st1 tg junk pKeyInfo mallocs malloc_ok torn root height1 tree1 ok1 tok1 depth D1 c e l Hst Hk Hread) as (c1 & E & Hsv).
  exists c1. split; [done|]. split.
  - by apply resume_next.
  - intros b Hb. by apply (resume_previous _ _ _ _ _ _ _ _ _ _ root height2 tree2 ok2 tok2 depth D2 c1 (rowid e) b).
Qed.

(** ** The example, before and after a row is deleted *)

Lemma path_two P ks z h t : path 1 (Node P ks) z h t ->
  (z = [] /\ h = 1%nat /\ t = Node P ks) \/ exists i, z = [(P, ks, i)] /\ h = O /\ ks !! i = Some t.
Proof.
  destruct z as [|[[p kids] i] z]; [intros [-> ->]; by left|]. intros [Hk Hp]. pose proof (path_height _ _ _ _ _ Hp).
  destruct z as [|fr z]; [|cbn in *; lia]. destruct Hp as [[= ->] [= -> ->]]. right. by exists i.
Qed.

Definition cells_have_rowids (p : MemPage) : bool :=
  forallb (fun e => match cell_at e.1 e.2 with Ret c => match rowid_at e.1 c with Ret _ => true | _ => false end | _ => false end) (cells p).

Lemma cells_have_rowids_ok p i : cells_have_rowids p = true -> 0 <= i < nCell p -> has_rowid (p, i).
Proof.
  intros H Hi. unfold cells_have_rowids in H. rewrite forallb_forall in H. specialize (H (p, i)).
  assert (In (p, i) (cells p)) as Hin.
  { apply list_elem_of_In. apply list_elem_of_lookup. exists (Z.to_nat i). unfold cells. rewrite list_lookup_fmap, lookup_seq_lt by lia. cbn. do 2 f_equal. lia. }
  specialize (H Hin). unfold has_rowid, rowid. cbn [fst snd] in *.
  destruct (cell_at p i) as [pc| | |]; try discriminate. exists pc. split; [done|]. cbn. by destruct (rowid_at p pc).
Qed.

Fixpoint ascending (l : list Z) : bool :=
  match l with [] => true | x :: l' => match l' with [] => true | y :: _ => (x <? y) && ascending l' end end.

Lemma ascending_sorted l : ascending l = true -> Sorted Z.lt l.
Proof.
  induction l as [|x l IH]; [done|]. cbn. intros H. destruct l as [|y l]; [by repeat constructor|].
  apply andb_true_iff in H as [H1%Z.ltb_lt H2]. constructor; [by apply IH|by constructor].
Qed.

(** A table of two leaves. *)
Lemma table_two P p3 p4 : intKey P = true -> intKey p3 = true -> intKey p4 = true -> nCell P = 1 ->
  forallb cells_have_rowids [P; p3; p4] = true ->
  ascending (rowid <$> (cells p3 ++ cells p4)) = true -> forallb (fun e => rowid e <=? rowid (P, 0)) (cells p3) = true ->
  forallb (fun e => rowid (P, 0) <? rowid e) (cells p4) = true -> leafData P = true ->
  table_ok 1 (Node P [Node p3 []; Node p4 []]).
Proof.
  intros K K3 K4 Hn Hc Hs%ascending_sorted H3 H4 Hld. rewrite forallb_forall in H3, H4. cbn [forallb] in Hc. repeat rewrite andb_true_iff in Hc. destruct Hc as (C & C3 & C4 & _).
  assert (forall z h p kids, path 1 (Node P [Node p3 []; Node p4 []]) z h (Node p kids) -> p = P \/ p = p3 \/ p = p4) as Hp.
  { intros z h p kids [(_ & _ & [= -> _])|(i & _ & _ & Hk)]%path_two; [by left|].
    destruct i as [|[|i]]; [injection Hk as <- <-; tauto|injection Hk as <- <-; tauto|done]. }
  assert (forall z h p kids i, path 1 (Node P [Node p3 []; Node p4 []]) z (S h) (Node p kids) -> Z.of_nat i < nCell p ->
    p = P /\ kids = [Node p3 []; Node p4 []] /\ i = O) as Hin.
  { intros z h p kids i [(_ & _ & [= -> ->])|(j & _ & ? & _)]%path_two Hi; [|done]. split_and!; [done|done|lia]. }
  split.
  - intros z h p kids [->|[->| ->]]%Hp; done.
  - intros z h p kids i Hpp Hi. apply cells_have_rowids_ok; [|done]. by destruct (Hp _ _ _ _ Hpp) as [->|[->| ->]].
  - cbn [entries after own]. unfold own. rewrite Hld. cbn [app]. rewrite app_nil_r. apply Sorted_StronglySorted; [intros ???; cbn; lia|].
    revert Hs. generalize (cells p3 ++ cells p4). intros l. induction l as [|x l IH]; [done|]. cbn. intros [Hs Hx]%Sorted_inv.
    constructor; [by apply IH|]. destruct l; [done|]. cbn in Hx. apply HdRel_inv in Hx. by constructor.
  - intros z h p kids i k e Hpp _ Hk Hi He. destruct (Hin _ _ _ _ _ Hpp Hi) as (-> & -> & ->). injection Hk as <-. by apply Z.leb_le, H3, list_elem_of_In.
  - intros z h p kids i k e Hpp _ Hk Hi He. destruct (Hin _ _ _ _ _ Hpp Hi) as (-> & -> & ->). injection Hk as <-. by apply Z.ltb_lt, H4, list_elem_of_In.
Qed.

Notation whole := (ex_store [1; 2] [5; 9]).
Notation without_5 := (ex_store [1; 2] [9]).
Definition tree2 : btree := Eval vm_compute in ex_tree without_5.

Lemma tree2_ok : tree_ok ex_bt ex_get ex_stale without_5 2 1 tree2.
Proof. by apply two_leaves; vm_compute. Qed.

Lemma tree1_table : table_ok 1 tree1.
Proof. apply table_two; vm_compute; reflexivity. Qed.

Lemma tree2_table : table_ok 1 tree2.
Proof. apply table_two; vm_compute; reflexivity. Qed.

Notation next_in st := (sqlite3BtreeNext ex_bt ex_get ex_stale st LP64 ex_mem ex_key [] ex_malloc 3 [] 2).

(** The cursor on row 5. *)
Definition on_row_5 : BtCursor :=
  cursor_of (next_in whole (cursor_of (next_in whole (cursor_of (sqlite3BtreeFirst ex_bt ex_get ex_stale whole 3 (new_cursor 2)))))).

Lemma on_row_5_stands : stands ex_bt 2 1 tree1 on_row_5 (drop 2 (entries tree1)).
Proof.
  destruct (first_ok _ _ _ _ _ _ _ tree1_ok 3 ltac:(lia) (new_cursor 2) (new_ready 2 tree1)) as (c1 & E1 & S1 & K1).
  destruct (next_ok _ _ _ _ _ _ _ tree1_ok 3 ltac:(lia) LP64 ex_mem ex_key [] ex_malloc [] c1 _ S1 ltac:(rewrite K1; done)) as (c2 & E2 & S2 & K2).
  destruct (next_ok _ _ _ _ _ _ _ tree1_ok 3 ltac:(lia) LP64 ex_mem ex_key [] ex_malloc [] c2 _ S2 K2) as (c3 & E3 & S3 & _).
  unfold on_row_5. rewrite E1. cbn [cursor_of]. rewrite E2. cbn [cursor_of]. rewrite E3. exact S3.
Qed.

Lemma interrupted_scan_witness : exists e l c1 c2, drop 2 (entries tree1) = e :: l /\ rowid e = 5 /\
  saveCursorPosition ex_bt ex_get ex_stale whole LP64 ex_mem ex_key [] ex_malloc 3 [] on_row_5 = Ret (c1, inr tt) /\
  next_in without_5 c1 = Ret (c2, inr 0) /\ (rowid <$> filter (fun x => 5 < rowid x) (entries tree2) = [9]).
Proof.
  destruct (drop 2 (entries tree1)) as [|e l] eqn:E; [vm_compute in E; discriminate|].
  assert (rowid e = 5) as Hr by (vm_compute in E; injection E as <- _; vm_compute; reflexivity).
  pose proof on_row_5_stands as Hst. rewrite E in Hst.
  destruct (interrupted_scan ex_bt ex_get ex_stale whole without_5 LP64 ex_mem ex_key [] ex_malloc [] 2 1 1 tree1 tree2 3 on_row_5 e l
    tree1_ok tree1_table tree1_readable Hst ltac:(vm_compute; reflexivity) tree2_ok tree2_table ltac:(lia) ltac:(lia)) as (c1 & E1 & (c2 & E2 & _) & _).
  exists e, l, c1, c2. split; [done|]. split; [done|]. split; [done|]. rewrite Hr in E2. split; [|vm_compute; reflexivity].
  rewrite E2. vm_compute. reflexivity.
Defined.
