(* ===== verification/BtreeIndex.v ===== *)
(** * Searching tables and indexes

    [sqlite3BtreeMoveto] for both kinds of trees, and an index of integers as
    the example. *)

From Stdlib Require Import Sorting.Sorted.
From S2P Require Import Prelude Varint PageBytes BtreePage BtreeParse BtreeStore Record Mem BtreeCursor BtreeWalk BtreeScan BtreeSeek BtreeResume.

(** C5: in an ordered tree [sqlite3BtreeMoveto] ends on an entry, for every
    table and every index, every key and either bias.  [*pRes] is how that
    entry compares with the key: 0 on an entry that matches; when it is
    negative everything behind the entry is greater than the key, when it is
    positive everything before it is smaller.  In an empty tree the answer is
    -1. *)
Theorem moveto_lands pBt rcGet stale st tg junk pKeyInfo mallocs malloc_ok torn root height tree table u key sgn depth pKey pUnKey bias c :
  tree_ok pBt rcGet stale st root height tree -> (height < depth)%nat ->
  (forall z h p kids, path height tree z h (Node p kids) -> intKey p = table) ->
  (forall z h p kids i, path height tree z h (Node p kids) -> 0 <= i < nCell p ->
     compares pBt rcGet stale st junk malloc_ok p i u key (sgn p i)) ->
  ordered height tree sgn -> searched tg junk pKeyInfo mallocs table u key pKey pUnKey -> sound pBt root height tree c ->
  exists c' r, sqlite3BtreeMoveto pBt rcGet stale st tg junk pKeyInfo mallocs malloc_ok depth torn pKey pUnKey key bias c = Ret (c', inr r) /\
    match entries tree with
    | [] => r = -1 /\ eState c' = CURSOR_INVALID
    | _ => exists l1 e l2, entries tree = l1 ++ e :: l2 /\ stands pBt root height tree c' (e :: l2) /\ r = sgn e.1 e.2 /\
        (r < 0 -> Forall (fun x => 0 < sgn x.1 x.2) l2) /\ (0 < r -> Forall (fun x => sgn x.1 x.2 < 0) l1)
    end.
Proof.
  intros ok deep kind signs sorted Hkey Hc. assert (table = false -> u <> None) as Hu.
  { intros ->. by destruct Hkey as (p2 & -> & _). }
  destruct (moveto_ok pBt rcGet stale st tg junk pKeyInfo mallocs malloc_ok torn root height tree ok table u key sgn kind Hu signs sorted depth deep
    pKey pUnKey bias c Hc Hkey) as (c' & r & E & _ & H).
  exists c', r. split; [done|]. destruct (entries tree) eqn:Ee; [|rewrite <- Ee in *; exact H]. by destruct H as [-> [_ ?]].
Qed.

(** ** An index of integers *)

Definition int_record (k : Z) : list Z := [2; 1; k].

Definition index_image (keys : list Z) : list Z :=
  let n := zlen keys in
  let top := 512 - 4 * n in
  [10; 0; 0; 0; n; top / 256; top mod 256; 0] ++
  concat ((fun i => let a := top + 4 * Z.of_nat i in [a / 256; a mod 256]) <$> seq 0 (length keys)) ++
  replicate (Z.to_nat (top - 8 - 2 * n)) 0 ++ concat ((fun k => 3 :: int_record k) <$> keys).

(** 1 and 3 in page 3, 5 in page 2, 7 and 9 in page 4. *)
Definition index_store : Store :=
  mkStore (<[2 := [2; 0; 0; 0; 1; 1; 248; 0; 0; 0; 0; 4; 1; 248] ++ replicate 490 0 ++ [0; 0; 0; 3; 3] ++ int_record 5]>
          (<[3 := index_image [1; 3]]> (<[4 := index_image [7; 9]]> empty))) 4 0.

Definition index_tree : btree := Eval vm_compute in ex_tree index_store.

Lemma index_tree_ok : tree_ok ex_bt ex_get ex_stale index_store 2 1 index_tree.
Proof. by apply two_leaves; vm_compute. Qed.

(** The key 4, unpacked, and what the comparison of a cell with it says. *)
Definition key_4 : option UnpackedRecord :=
  match sqlite3VdbeRecordUnpack LP64 ex_mem ex_key 3 (int_record 4) 200 [] with Ret (u, _) => u | _ => None end.

Lemma key_4_unpacked p2 : key_4 = Some p2 -> exists o, sqlite3VdbeRecordUnpack LP64 ex_mem ex_key 3 (int_record 4) 200 [] = Ret (Some p2, o).
Proof. unfold key_4. destruct (sqlite3VdbeRecordUnpack _ _ _ _ _ _ _) as [[v o]| | |]; [|done..]. intros ->. eauto. Qed.

Definition sign_4 (p : MemPage) (i : Z) : Z :=
  match key_4, (pCell ← cell_at p i; x ← sqlite3BtreeParseCellPtr ex_bt p pCell; Ret (pCell, x)) with
  | Some p2, Ret (pCell, x) =>
      match index_sign ex_bt ex_get ex_stale index_store ex_mem ex_malloc p pCell x p2 with Ret (inr r) => r | _ => 0 end
  | _, _ => 0
  end.

Definition signs_defined (p : MemPage) : bool :=
  forallb (fun e => match key_4, (pCell ← cell_at e.1 e.2; x ← sqlite3BtreeParseCellPtr ex_bt e.1 pCell; Ret (pCell, x)) with
    | Some p2, Ret (pCell, x) =>
        match index_sign ex_bt ex_get ex_stale index_store ex_mem ex_malloc e.1 pCell x p2 with Ret (inr r) => true | _ => false end
    | _, _ => false
    end) (cells p).

Lemma cells_lookup p i : 0 <= i < nCell p -> In (p, i) (cells p).
Proof.
  intros Hi. apply list_elem_of_In, list_elem_of_lookup. exists (Z.to_nat i). unfold cells.
  rewrite list_lookup_fmap, lookup_seq_lt by lia. cbn. do 2 f_equal. lia.
Qed.

Lemma signs_defined_ok p i : intKey p = false -> signs_defined p = true -> 0 <= i < nCell p ->
  compares ex_bt ex_get ex_stale index_store ex_mem ex_malloc p i key_4 3 (sign_4 p i).
Proof.
  intros Hk H Hi. unfold signs_defined in H. rewrite forallb_forall in H. specialize (H _ (cells_lookup p i Hi)). cbn [fst snd] in H.
  unfold compares, sign_4. rewrite Hk. destruct key_4 as [p2|]; [|done]. destruct (cell_at p i) as [pc| | |]; try done. cbn in *.
  destruct (sqlite3BtreeParseCellPtr ex_bt p pc) as [x| | |] eqn:Ex; try done. cbn in *. exists pc. split; [done|]. exists x, p2. split; [done|].
  split; [done|]. by destruct (index_sign _ _ _ _ _ _ _ _ _ _) as [[rc|r]| | |].
Qed.

Fixpoint rising (l : list Z) : bool :=
  match l with [] => true | x :: l' => forallb (fun y => x <=? y) l' && rising l' end.

Lemma rising_ordered sgn l : rising ((fun e : MemPage * Z => sgn e.1 e.2) <$> l) = true -> StronglySorted (before sgn) l.
Proof.
  induction l as [|x l IH]; [constructor|]. cbn. intros [H1 H2]%andb_true_iff. constructor; [by apply IH|].
  rewrite forallb_forall in H1. apply Forall_forall. intros y Hy.
  assert (sgn x.1 x.2 <= sgn y.1 y.2) by (apply Z.leb_le, H1, list_elem_of_In, list_elem_of_fmap; by exists y). unfold before. lia.
Qed.

Lemma index_pages z h p kids : path 1 index_tree z h (Node p kids) -> intKey p = false /\ leafData p = false /\ signs_defined p = true.
Proof.
  intros [(_ & _ & [= -> _])|(i & _ & _ & Hk)]%path_two; [vm_compute; done|].
  destruct i as [|[|i]]; [injection Hk as <- <-; vm_compute; done|injection Hk as <- <-; vm_compute; done|done].
Qed.

Lemma moveto_lands_witness : exists c' r,
  sqlite3BtreeMoveto ex_bt ex_get ex_stale index_store LP64 ex_mem ex_key [] ex_malloc 3 [] (Some (int_record 4)) None 3 false (new_cursor 2) =
    Ret (c', inr r) /\ (r = -1 /\ idx c' = 1 \/ r = 1).
Proof.
  destruct (moveto_lands ex_bt ex_get ex_stale index_store LP64 ex_mem ex_key [] ex_malloc [] 2 1 index_tree false key_4 3 sign_4 3
    (Some (int_record 4)) None false (new_cursor 2)) as (c' & r & E & H).
  - exact index_tree_ok.
  - lia.
  - intros z h p kids Hp. by apply index_pages in Hp as [? _].
  - intros z h p kids i Hp Hi. apply index_pages in Hp as (Hk & _ & Hd). by apply signs_defined_ok.
  - split.
    + apply rising_ordered. vm_compute. reflexivity.
    + intros z h p kids i k e Hp Hl. apply index_pages in Hp as (_ & Hl' & _). congruence.
    + intros z h p kids i k e Hp Hl. apply index_pages in Hp as (_ & Hl' & _). congruence.
  - destruct key_4 as [p2|] eqn:Ek; [|vm_compute in Ek; discriminate]. exists p2. split; [done|]. right. split; [done|].
    destruct (key_4_unpacked p2 Ek) as [o Eo]. by exists (int_record 4), o.
  - split; [apply new_ready|]. intros Hs. discriminate Hs.
  - clear H. exists c', r. split; [exact E|]. revert E. vm_compute. intros [= <- <-]. by left.
Defined.
