(* ===== verification/UnixOs.v ===== *)
(** * Calls to a Unix kernel, and what a process knows about its locks

    The locking code of misc/sqlite/os_unix.c runs between system calls; other
    processes run there too. A piece of such code is a [prog]: a tree whose
    nodes are the system calls, each carrying the memory of the process at
    that moment. The kernel is the interface [Kernel]: a transition relation
    with the documented behaviour of POSIX record locks as its laws.
    [posix_kernel] is an implementation. [wp] is the reasoning principle: a
    condition at every call, whatever the kernel answers, and a condition on
    the result. *)

From S2P Require Import Prelude.

(** ** System calls *)

Inductive lock_type := F_RDLCK | F_WRLCK | F_UNLCK.

#[export] Instance lock_type_eq_dec : EqDecision lock_type.
Proof. solve_decision. Defined.

(** [struct flock] with [l_whence = SEEK_SET]; [l_len = 0] reaches to the end
    of every file. *)
Record flock := mkFlock {
  l_type : lock_type;
  l_start : Z;
  l_len : Z;
}.

Inductive syscall :=
| sys_setlk (fd : Z) (l : flock)      (* fcntl(fd, F_SETLK, &l) *)
| sys_getlk (fd : Z) (l : flock)      (* fcntl(fd, F_GETLK, &l) *)
| sys_close (fd : Z)
| sys_fstat (fd : Z)
| sys_dup (fd : Z)
| sys_malloc                          (* 0: out of memory *)
| sys_sched.                          (* which of two threads runs first *)

(** What comes back: the value, [errno], the [l_type] that F_GETLK stores and
    the device and inode that fstat stores. *)
Record answer := mkAnswer {
  a_ret : Z;
  a_errno : Z;
  a_type : lock_type;
  a_dev : Z;
  a_ino : Z;
}.

Notation inode := (Z * Z)%type.

(** ** Programs *)

Inductive prog (M A : Type) : Type :=
| Done (a : A) (m : M)
| Call (m : M) (r : syscall) (k : answer -> prog M A)
| Failed                              (* an assertion failed *)
| Undefined.                          (* undefined behaviour *)
Arguments Done {M A} _ _.
Arguments Call {M A} _ _ _.
Arguments Failed {M A}.
Arguments Undefined {M A}.

Definition os (M A : Type) : Type := M -> prog M A.

Fixpoint prog_bind {M A B} (p : prog M A) (f : A -> os M B) : prog M B :=
  match p with
  | Done a m => f a m
  | Call m r k => Call m r (fun a => prog_bind (k a) f)
  | Failed => Failed
  | Undefined => Undefined
  end.

#[export] Instance os_ret {M} : MRet (os M) := fun A a m => Done a m.
#[export] Instance os_bind {M} : MBind (os M) := fun A B f c m => prog_bind (c m) f.

Definition os_call {M} (r : syscall) : os M answer := fun m => Call m r (fun a => Done a m).
Definition os_assert {M} (b : bool) : os M unit :=
  fun m => if b then Done tt m else Failed.
Definition os_get {M A} (f : M -> option A) : os M A :=
  fun m => match f m with Some a => Done a m | None => Undefined end.
Definition os_put {M} (f : M -> M) : os M unit := fun m => Done tt (f m).

(** ** What a process sees of the kernel

    Its open descriptors, and for every byte of every file the lock it holds
    there. *)
Record view := mkView {
  v_fd : Z -> option inode;
  v_lock : inode -> Z -> option lock_type;
}.

Definition covers (l : flock) (b : Z) : bool :=
  (l_start l <=? b) && ((l_len l =? 0) || (b <? l_start l + l_len l)).

Definition held (t : lock_type) : option lock_type :=
  match t with F_UNLCK => None | t => Some t end.

Definition set_lock (i : inode) (l : flock) (v : view) : view :=
  mkView (v_fd v)
    (fun j b => if decide (i = j) then if covers l b then held (l_type l) else v_lock v j b
                else v_lock v j b).

(** Closing any descriptor of a file drops all locks of the process on it. *)
Definition close_fd (fd : Z) (v : view) : view :=
  mkView (fun d => if decide (d = fd) then None else v_fd v d)
    (fun j b => match v_fd v fd with
                | Some i => if decide (i = j) then None else v_lock v j b
                | None => v_lock v j b
                end).

Definition open_fd (fd : Z) (i : inode) (v : view) : view :=
  mkView (fun d => if decide (d = fd) then Some i else v_fd v d) (v_lock v).

(** The answers to a call, and the view after it. The kernel may refuse any
    request about locks, also one that gives a lock up (ENOLCK), and fstat and
    dup may fail. *)
Inductive answered (v : view) : syscall -> answer -> view -> Prop :=
| ans_setlk_ok fd i l a :
    v_fd v fd = Some i -> a_ret a = 0 -> answered v (sys_setlk fd l) a (set_lock i l v)
| ans_setlk_no fd l a : a_ret a = -1 -> answered v (sys_setlk fd l) a v
| ans_getlk fd l a : answered v (sys_getlk fd l) a v
| ans_close fd a : answered v (sys_close fd) a (close_fd fd v)
| ans_fstat fd i a :
    v_fd v fd = Some i -> a_ret a = 0 -> (a_dev a, a_ino a) = i ->
    answered v (sys_fstat fd) a v
| ans_fstat_no fd a : a_ret a = -1 -> answered v (sys_fstat fd) a v
| ans_dup fd i a :
    v_fd v fd = Some i -> v_fd v (a_ret a) = None -> 0 <= a_ret a ->
    answered v (sys_dup fd) a (open_fd (a_ret a) i v)
| ans_dup_no fd a : a_ret a = -1 -> answered v (sys_dup fd) a v
| ans_malloc a : answered v sys_malloc a v
| ans_sched a : answered v sys_sched a v.

Lemma answered_setlk_fd v fd l a v' : answered v (sys_setlk fd l) a v' -> v_fd v' = v_fd v.
Proof. intros Ha. by inversion Ha. Qed.

(** The kernel did not do what it was asked for. *)
Definition refused (r : syscall) (a : answer) : bool :=
  match r with
  | sys_setlk _ _ | sys_fstat _ | sys_dup _ => a_ret a =? -1
  | _ => false
  end.

(** ** The kernel *)

Definition views := Z -> view.

(** No two processes hold conflicting locks. *)
Definition no_conflict (vs : views) : Prop :=
  forall p q i b, p <> q ->
    v_lock (vs p) i b = Some F_WRLCK -> v_lock (vs q) i b = None.

(** A request that another process's lock stands against. *)
Definition blocked (vs : views) (p : Z) (i : inode) (l : flock) : Prop :=
  exists q b t, q <> p /\ covers l b = true /\ v_lock (vs q) i b = Some t /\
    l_type l <> F_UNLCK /\ (l_type l = F_WRLCK \/ t = F_WRLCK).

Class Kernel (K : Type) := {
  k_views : K -> views;
  k_step : K -> Z -> syscall -> answer -> K -> Prop;
  k_open : K -> Z -> Z -> inode -> K -> Prop;
  k_step_own k p r a k' :
    k_step k p r a k' -> answered (k_views k p) r a (k_views k' p);
  k_step_other k p r a k' q :
    k_step k p r a k' -> q <> p -> k_views k' q = k_views k q;
  k_step_excl k p r a k' :
    k_step k p r a k' -> no_conflict (k_views k) -> no_conflict (k_views k');
  k_getlk k p fd i l a k' :
    k_step k p (sys_getlk fd l) a k' -> v_fd (k_views k p) fd = Some i -> a_ret a <> -1 ->
    a_type a <> F_UNLCK <-> blocked (k_views k) p i l;
  k_open_own k p fd i k' :
    k_open k p fd i k' ->
    v_fd (k_views k p) fd = None /\ 0 < fd /\ k_views k' p = open_fd fd i (k_views k p);
  k_open_other k p fd i k' q :
    k_open k p fd i k' -> q <> p -> k_views k' q = k_views k q;
}.

(** A kernel that answers every call and refuses locks for conflicts only. *)
Class FaultFree (K : Type) `{Kernel K} := {
  ff_grants k p fd i l a k' :
    k_step k p (sys_setlk fd l) a k' -> v_fd (k_views k p) fd = Some i ->
    ~ blocked (k_views k) p i l -> a_ret a = 0;
  ff_answers k p fd i l :
    v_fd (k_views k p) fd = Some i -> ~ blocked (k_views k) p i l ->
    exists a k', k_step k p (sys_setlk fd l) a k';
}.

(** ** Reasoning about programs

    [V] is what the answers depend on: the view of a process, or a whole
    kernel. [J] holds of memory and [V] at every call. *)
Class Answers (V : Type) := answers : V -> syscall -> answer -> V -> Prop.

(** Which answers are looked at: all of them, or ([sure]) those in which no
    request was refused. *)
Class Sure := sure : bool.

#[export] Instance view_answers `{Sure} : Answers view := fun v r a v' =>
  answered v r a v' /\ (sure = true -> refused r a = false).

Lemma view_answered `{Sure} v r a v' : answers v r a v' -> answered v r a v'.
Proof. by intros [? _]. Qed.

Section wp.
Context {M V : Type} `{!Answers V}.
Implicit Types J : M -> V -> syscall -> Prop.

Fixpoint wp {A} J (p : prog M A) (v : V) (Q : A -> M -> V -> Prop) : Prop :=
  match p with
  | Done a m => Q a m v
  | Call m r k => J m v r /\ forall a v', answers v r a v' -> wp J (k a) v' Q
  | Failed => False
  | Undefined => False
  end.

(** The runs of a program. *)
Inductive exec {A} : V -> prog M A -> A -> M -> V -> Prop :=
| exec_done v a m : exec v (Done a m) a m v
| exec_call v m r k a v1 b m2 v2 :
    answers v r a v1 -> exec v1 (k a) b m2 v2 -> exec v (Call m r k) b m2 v2.

Lemma wp_exec {A} J (p : prog M A) v Q a m v' :
  wp J p v Q -> exec v p a m v' -> Q a m v'.
Proof. intros Hp Hx. revert Hp. induction Hx; simpl; [done|]. intros [_ Hk]. eauto. Qed.

Lemma wp_mono {A} J (p : prog M A) v (Q Q' : A -> M -> V -> Prop) :
  wp J p v Q -> (forall a m v, Q a m v -> Q' a m v) -> wp J p v Q'.
Proof.
  intros Hp HQ. revert v Hp.
  induction p as [a m | m r k IH | |]; simpl; [eauto | | done..].
  intros v [HJ Hk]. split; [done | eauto].
Qed.

Lemma wp_bind {A B} J (c : os M A) (f : A -> os M B) m v Q :
  wp J (c m) v (fun a m v => wp J (f a m) v Q) -> wp J ((c ≫= f) m) v Q.
Proof.
  unfold mbind, os_bind. generalize (c m) as p. intros p. revert v.
  induction p as [a m' | m' r k IH | |]; simpl; [done | | done..].
  intros v [HJ Hk]. split; [done | eauto].
Qed.

Lemma wp_ret {A} J (a : A) (m : M) v (Q : A -> M -> V -> Prop) :
  Q a m v -> wp J ((mret a : os M A) m) v Q.
Proof. done. Qed.

Lemma wp_call J (r : syscall) (m : M) v Q :
  J m v r -> (forall a v', answers v r a v' -> Q a m v') -> wp J (os_call r m) v Q.
Proof. done. Qed.

Lemma wp_assert J b (m : M) v Q : b = true -> Q tt m v -> wp J (os_assert b m) v Q.
Proof. by intros ->. Qed.

Lemma wp_get {A} J (f : M -> option A) a (m : M) v Q :
  f m = Some a -> Q a m v -> wp J (os_get f m) v Q.
Proof. unfold os_get. by intros ->. Qed.

Lemma wp_put J f (m : M) v Q : Q tt (f m) v -> wp J (os_put f m) v Q.
Proof. done. Qed.
End wp.

#[global] Arguments wp : simpl never.

(** ** An implementation *)

Definition upd_view (p : Z) (v : view) (vs : views) : views :=
  fun q => if decide (q = p) then v else vs q.

Inductive posix_step (vs : views) (p : Z) : syscall -> answer -> views -> Prop :=
| ps_grant fd i l a :
    v_fd (vs p) fd = Some i -> ~ blocked vs p i l -> a_ret a = 0 ->
    posix_step vs p (sys_setlk fd l) a (upd_view p (set_lock i l (vs p)) vs)
| ps_refuse fd i l a :
    v_fd (vs p) fd = Some i -> blocked vs p i l -> a_ret a = -1 ->
    posix_step vs p (sys_setlk fd l) a vs
| ps_badfd fd l a :
    v_fd (vs p) fd = None -> a_ret a = -1 -> posix_step vs p (sys_setlk fd l) a vs
| ps_getlk fd i l a :
    v_fd (vs p) fd = Some i -> (a_type a <> F_UNLCK <-> blocked vs p i l) ->
    posix_step vs p (sys_getlk fd l) a vs
| ps_getlk_badfd fd l a :
    v_fd (vs p) fd = None -> posix_step vs p (sys_getlk fd l) a vs
| ps_other r a v' :
    (forall fd l, r <> sys_setlk fd l /\ r <> sys_getlk fd l) -> answered (vs p) r a v' ->
    posix_step vs p r a (upd_view p v' vs).

Definition posix_open (vs : views) (p : Z) (fd : Z) (i : inode) (vs' : views) : Prop :=
  v_fd (vs p) fd = None /\ 0 < fd /\ vs' = upd_view p (open_fd fd i (vs p)) vs.

Lemma upd_view_eq p v vs : upd_view p v vs p = v.
Proof. unfold upd_view. by rewrite decide_True. Qed.

Lemma upd_view_ne p v vs q : q <> p -> upd_view p v vs q = vs q.
Proof. intros. unfold upd_view. by rewrite decide_False. Qed.

(** Only a lock request adds locks. *)
Lemma answered_keeps v r a v' i b t :
  answered v r a v' -> (forall fd l, r <> sys_setlk fd l) ->
  v_lock v' i b = Some t -> v_lock v i b = Some t.
Proof.
  intros Ha Hr. destruct Ha; try done; try by (exfalso; eapply Hr).
  simpl. destruct (v_fd v fd) as [j|]; [|done]. by case_decide.
Qed.

Lemma no_conflict_upd vs p v :
  no_conflict vs ->
  (forall q i b t, q <> p -> v_lock v i b = Some t -> v_lock (vs p) i b <> Some t ->
     v_lock (vs q) i b = None \/ (t = F_RDLCK /\ v_lock (vs q) i b <> Some F_WRLCK)) ->
  no_conflict (upd_view p v vs).
Proof.
  intros Hn Hv p1 q i b Hne. unfold upd_view.
  destruct (decide (p1 = p)) as [->|H1], (decide (q = p)) as [->|H2]; [done| | |by apply Hn].
  - intros Hw. destruct (decide (v_lock (vs p) i b = Some F_WRLCK)) as [E|E]; [by eapply Hn|].
    destruct (Hv q i b _ H2 Hw E) as [|[? ?]]; done.
  - intros Hw. destruct (v_lock v i b) as [t|] eqn:Et; [|done].
    destruct (decide (v_lock (vs p) i b = Some t)) as [E|E].
    { pose proof (Hn p1 p i b H1 Hw). congruence. }
    destruct (Hv p1 i b t H1 Et E) as [|[? ?]]; congruence.
Qed.

Lemma posix_excl vs p r a vs' :
  posix_step vs p r a vs' -> no_conflict vs -> no_conflict vs'.
Proof.
  intros Hs Hn. destruct Hs as [fd i l a Hfd Hb _ | | | | | r a v' Hr Ha]; try done;
    apply no_conflict_upd; try done; intros q j b t Hq Ht Hne.
  - simpl in Ht. case_decide; [subst j | done].
    destruct (covers l b) eqn:Hc; [|done].
    destruct (v_lock (vs q) i b) as [u|] eqn:Eu; [|by left].
    assert (l_type l <> F_UNLCK) as Hl by (intros E; by rewrite E in Ht).
    right. split.
    + destruct t; [done | | by destruct (l_type l)].
      destruct Hb. exists q, b, u. repeat split; try done.
      left. by destruct (l_type l); simplify_eq/=.
    + intros E. simplify_eq. destruct Hb. exists q, b, F_WRLCK.
      repeat split; try done. by right.
  - destruct Hne. eapply answered_keeps; [done | | done]. intros. apply Hr.
Qed.

#[export] Program Instance posix_kernel : Kernel views := {|
  k_views vs := vs;
  k_step := posix_step;
  k_open := posix_open;
|}.
Next Obligation.
  intros vs p r a vs' Hs.
  destruct Hs; rewrite ?upd_view_eq; try done.
  - by constructor.
  - by apply ans_setlk_no.
  - by apply ans_setlk_no.
  - constructor.
  - constructor.
Qed.
Next Obligation.
  intros vs p r a vs' q Hs Hq. destruct Hs; by rewrite ?upd_view_ne.
Qed.
Next Obligation. intros. by eapply posix_excl. Qed.
Next Obligation.
  intros vs p fd i l a vs' Hs Hfd. inversion Hs as [| | |??????|????| r' a' v' Hr]; simplify_eq; [done|].
  by destruct (Hr fd l).
Qed.
Next Obligation. intros vs p fd i vs' (H1 & H2 & ->). by rewrite upd_view_eq. Qed.
Next Obligation. intros vs p fd i vs' q (_ & _ & ->) ?. by rewrite upd_view_ne. Qed.

#[export] Instance posix_fault_free : FaultFree views.
Proof.
  split; simpl.
  - intros vs p fd i l a vs' Hs Hfd Hb.
    inversion Hs as [| | | | | r' a' v' Hr]; simplify_eq; try done.
    by destruct (Hr fd l).
  - intros vs p fd i l Hfd Hb. exists (mkAnswer 0 0 F_UNLCK 0 0). eexists. by eapply ps_grant.
Qed.
