(* ===== verification/UnixLock.v ===== *)
(** * File locks of the Unix port

    Model of the locking part of misc/sqlite/os_unix.c: the records that all
    handles of one inode share, [findLockInfo] and the release functions, and
    the POSIX methods [unixLock], [unixUnlock], [unixCheckReservedLock] and
    [unixClose]. The functions run in the [os] monad over the memory of one
    process; the global mutex makes one of them at a time run in a process,
    so that only the other processes move between its system calls. *)

From S2P Require Import Prelude UnixOs.
From Stdlib Require Import String.

(** ** Constants of os.h and sqlite3.h *)

Definition NO_LOCK : Z := 0.
Definition SHARED_LOCK : Z := 1.
Definition RESERVED_LOCK : Z := 2.
Definition PENDING_LOCK : Z := 3.
Definition EXCLUSIVE_LOCK : Z := 4.

Definition RESERVED_BYTE : Z := PENDING_BYTE + 1.
Definition SHARED_FIRST : Z := PENDING_BYTE + 2.
Definition SHARED_SIZE : Z := 510.

Definition SQLITE_IOERR_UNLOCK : Z := Z.lor SQLITE_IOERR (Z.shiftl 8 8).
Definition SQLITE_IOERR_RDLOCK : Z := Z.lor SQLITE_IOERR (Z.shiftl 9 8).

(** [EINVAL] and [EOVERFLOW] of <errno.h>. *)
Definition EINVAL : Z := 22.
Definition EOVERFLOW : Z := 84.

(** ** Records *)

Record lockKey := mkLockKey { lk_dev : Z; lk_ino : Z; lk_tid : Z }.
Record openKey := mkOpenKey { ok_dev : Z; ok_ino : Z }.

#[export] Instance lockKey_eq_dec : EqDecision lockKey.
Proof. solve_decision. Defined.
#[export] Instance openKey_eq_dec : EqDecision openKey.
Proof. solve_decision. Defined.
#[export] Program Instance lockKey_countable : Countable lockKey :=
  inj_countable' (fun k => (lk_dev k, lk_ino k, lk_tid k))
    (fun '(d, i, t) => mkLockKey d i t) _.
Next Obligation. by intros []. Qed.
#[export] Program Instance openKey_countable : Countable openKey :=
  inj_countable' (fun k => (ok_dev k, ok_ino k)) (fun '(d, i) => mkOpenKey d i) _.
Next Obligation. by intros []. Qed.

Record lockInfo := mkLockInfo {
  li_key : lockKey;
  li_cnt : Z;
  li_locktype : Z;
  li_nRef : Z;
}.

(** [aPending] with its [nPending] entries. *)
Record openCnt := mkOpenCnt {
  oc_key : openKey;
  oc_nRef : Z;
  oc_nLock : Z;
  oc_aPending : list Z;
}.

Inductive sqlite3LockingStyle :=
| posixLockingStyle | afpLockingStyle | flockLockingStyle
| dotlockLockingStyle | noLockingStyle | unsupportedLockingStyle.

(** The method tables that [pMethod] can point to. *)
Inductive sqlite3_io_methods :=
| sqlite3UnixIoMethod | sqlite3AFPLockingUnixIoMethod
| sqlite3FlockLockingUnixIoMethod | sqlite3DotlockLockingUnixIoMethod
| sqlite3NolockLockingUnixIoMethod.

(** What [lockingContext] points to: memory of this handle alone. *)
Inductive lockingContext :=
| afpLockingContext (sharedLockByte : Z) (filePath : list Z)
| dotlockLockingContext (lockPath : list Z).

Record unixFile := mkUnixFile {
  f_pMethod : option sqlite3_io_methods;
  f_pOpen : option nat;
  f_pLock : option nat;
  f_context : option lockingContext;
  f_h : Z;
  f_locktype : Z;
  f_dirfd : Z;
  f_tid : Z;
}.

(** [memset(pFile, 0, sizeof(unixFile))] *)
Definition zero_file : unixFile := mkUnixFile None None None None 0 0 0 0.

(** The memory of a process: the handles, the allocated records with the hash
    tables over them, and the variable [threadsOverrideEachOthersLocks]. *)
Record pmem := mkPmem {
  files : gmap Z unixFile;
  lockInfos : gmap nat lockInfo;
  openCnts : gmap nat openCnt;
  lockHash : gmap lockKey nat;
  openHash : gmap openKey nat;
  threadsOverrideEachOthersLocks : Z;
}.

Definition set_files (x : gmap Z unixFile) (m : pmem) : pmem :=
  mkPmem x (lockInfos m) (openCnts m) (lockHash m) (openHash m) (threadsOverrideEachOthersLocks m).
Definition set_lockInfos (x : gmap nat lockInfo) (m : pmem) : pmem :=
  mkPmem (files m) x (openCnts m) (lockHash m) (openHash m) (threadsOverrideEachOthersLocks m).
Definition set_openCnts (x : gmap nat openCnt) (m : pmem) : pmem :=
  mkPmem (files m) (lockInfos m) x (lockHash m) (openHash m) (threadsOverrideEachOthersLocks m).
Definition set_lockHash (x : gmap lockKey nat) (m : pmem) : pmem :=
  mkPmem (files m) (lockInfos m) (openCnts m) x (openHash m) (threadsOverrideEachOthersLocks m).
Definition set_openHash (x : gmap openKey nat) (m : pmem) : pmem :=
  mkPmem (files m) (lockInfos m) (openCnts m) (lockHash m) x (threadsOverrideEachOthersLocks m).
Definition set_override (x : Z) (m : pmem) : pmem :=
  mkPmem (files m) (lockInfos m) (openCnts m) (lockHash m) (openHash m) x.

Notation M := (os pmem).

Definition get_file (id : Z) : M unixFile := os_get (fun m => files m !! id).
Definition put_file (id : Z) (f : unixFile) : M unit :=
  os_put (fun m => set_files (<[id := f]> (files m)) m).

Definition lock_ptr (f : unixFile) : M nat := os_get (fun _ => f_pLock f).
Definition open_ptr (f : unixFile) : M nat := os_get (fun _ => f_pOpen f).
Definition get_lock (l : nat) : M lockInfo := os_get (fun m => lockInfos m !! l).
Definition put_lock (l : nat) (x : lockInfo) : M unit :=
  os_put (fun m => set_lockInfos (<[l := x]> (lockInfos m)) m).
Definition get_open (o : nat) : M openCnt := os_get (fun m => openCnts m !! o).
Definition put_open (o : nat) (x : openCnt) : M unit :=
  os_put (fun m => set_openCnts (<[o := x]> (openCnts m)) m).

Definition with_locktype (t : Z) (f : unixFile) : unixFile :=
  mkUnixFile (f_pMethod f) (f_pOpen f) (f_pLock f) (f_context f) (f_h f) t (f_dirfd f) (f_tid f).
Definition with_tid (t : Z) (f : unixFile) : unixFile :=
  mkUnixFile (f_pMethod f) (f_pOpen f) (f_pLock f) (f_context f) (f_h f) (f_locktype f) (f_dirfd f) t.
Definition with_pLock (l : option nat) (f : unixFile) : unixFile :=
  mkUnixFile (f_pMethod f) (f_pOpen f) l (f_context f) (f_h f) (f_locktype f) (f_dirfd f) (f_tid f).
Definition with_pOpen (o : option nat) (f : unixFile) : unixFile :=
  mkUnixFile (f_pMethod f) o (f_pLock f) (f_context f) (f_h f) (f_locktype f) (f_dirfd f) (f_tid f).
Definition with_dirfd (d : Z) (f : unixFile) : unixFile :=
  mkUnixFile (f_pMethod f) (f_pOpen f) (f_pLock f) (f_context f) (f_h f) (f_locktype f) d (f_tid f).
Definition with_methods (x : sqlite3_io_methods) (c : option lockingContext) (f : unixFile) : unixFile :=
  mkUnixFile (Some x) (f_pOpen f) (f_pLock f) c (f_h f) (f_locktype f) (f_dirfd f) (f_tid f).
Definition with_fds (h dirfd tid : Z) (f : unixFile) : unixFile :=
  mkUnixFile (f_pMethod f) (f_pOpen f) (f_pLock f) (f_context f) h (f_locktype f) dirfd tid.

Definition with_cnt (c : Z) (x : lockInfo) : lockInfo :=
  mkLockInfo (li_key x) c (li_locktype x) (li_nRef x).
Definition with_ltype (t : Z) (x : lockInfo) : lockInfo :=
  mkLockInfo (li_key x) (li_cnt x) t (li_nRef x).
Definition with_lref (n : Z) (x : lockInfo) : lockInfo :=
  mkLockInfo (li_key x) (li_cnt x) (li_locktype x) n.
Definition with_oref (n : Z) (x : openCnt) : openCnt :=
  mkOpenCnt (oc_key x) n (oc_nLock x) (oc_aPending x).
Definition with_nLock (n : Z) (x : openCnt) : openCnt :=
  mkOpenCnt (oc_key x) (oc_nRef x) n (oc_aPending x).
Definition with_pending (l : list Z) (x : openCnt) : openCnt :=
  mkOpenCnt (oc_key x) (oc_nRef x) (oc_nLock x) l.

(** ** System calls of this file *)

(** [s = fcntl(h, F_SETLK, &lock)], with [errno]. *)
Definition fcntl_setlk (h : Z) (t : lock_type) (start len : Z) : M (Z * Z) :=
  a ← os_call (sys_setlk h (mkFlock t start len)); mret (a_ret a, a_errno a).

#[global] Arguments fcntl_setlk : simpl never.

Definition c_close (fd : Z) : M unit := os_call (sys_close fd);; mret tt.

Definition c_malloc : M bool := a ← os_call sys_malloc; mret (negb (a_ret a =? 0)).

(** ** Shared records *)

(** [sqlite3HashInsert(&lockHash, &pLock->key, sizeof(key), data)], with what
    it returns; 0 for [data] removes the entry. *)
Definition lockHash_insert (k : lockKey) (data : option nat) : M (option nat) :=
  old ← os_get (fun m => Some (lockHash m !! k));
  match data, old with
  | None, _ => os_put (fun m => set_lockHash (delete k (lockHash m)) m);; mret old
  | Some l, Some _ => os_put (fun m => set_lockHash (<[k := l]> (lockHash m)) m);; mret old
  | Some l, None =>
      b ← c_malloc;
      if (b : bool) then os_put (fun m => set_lockHash (<[k := l]> (lockHash m)) m);; mret None
      else mret data
  end.

Definition openHash_insert (k : openKey) (data : option nat) : M (option nat) :=
  old ← os_get (fun m => Some (openHash m !! k));
  match data, old with
  | None, _ => os_put (fun m => set_openHash (delete k (openHash m)) m);; mret old
  | Some l, Some _ => os_put (fun m => set_openHash (<[k := l]> (openHash m)) m);; mret old
  | Some l, None =>
      b ← c_malloc;
      if (b : bool) then os_put (fun m => set_openHash (<[k := l]> (openHash m)) m);; mret None
      else mret data
  end.

Definition free_lock (l : nat) : M unit :=
  get_lock l;; os_put (fun m => set_lockInfos (delete l (lockInfos m)) m).
Definition free_open (o : nat) : M unit :=
  get_open o;; os_put (fun m => set_openCnts (delete o (openCnts m)) m).

Definition releaseLockInfo (pLock : option nat) : M unit :=
  match pLock with
  | None => mret tt
  | Some l =>
      x ← get_lock l;
      let x := with_lref (li_nRef x - 1) x in
      put_lock l x;;
      if li_nRef x =? 0 then
        lockHash_insert (li_key x) None;;
        free_lock l
      else mret tt
  end.

Definition releaseOpenCnt (pOpen : option nat) : M unit :=
  match pOpen with
  | None => mret tt
  | Some o =>
      x ← get_open o;
      let x := with_oref (oc_nRef x - 1) x in
      put_open o x;;
      if oc_nRef x =? 0 then
        openHash_insert (oc_key x) None;;
        free_open o
      else mret tt
  end.

#[global] Arguments releaseLockInfo : simpl never.
#[global] Arguments releaseOpenCnt : simpl never.

(** The two threads lock one byte through one descriptor, the first for
    reading, the second for writing; either may run first. *)
Definition testThreadLockingBehavior (fd_orig : Z) : M unit :=
  a ← os_call (sys_dup fd_orig);
  let fd := a_ret a in
  if fd <? 0 then mret tt else
  a ← os_call sys_sched;
  let first_rd := a_ret a =? 0 in
  '(s1, _) ← fcntl_setlk fd (if first_rd then F_RDLCK else F_WRLCK) 0 1;
  '(s2, _) ← fcntl_setlk fd (if first_rd then F_WRLCK else F_RDLCK) 0 1;
  c_close fd;;
  os_put (set_override (if (s1 =? 0) && (s2 =? 0) then 1 else 0)).

(** [malloc] of a record, and its initial contents. *)
Definition new_lock (x : lockInfo) : M (option nat) :=
  b ← c_malloc;
  if (b : bool) then
    l ← os_get (fun m => Some (fresh (dom (lockInfos m))));
    put_lock l x;; mret (Some l)
  else mret None.

Definition new_open (x : openCnt) : M (option nat) :=
  b ← c_malloc;
  if (b : bool) then
    o ← os_get (fun m => Some (fresh (dom (openCnts m))));
    put_open o x;; mret (Some o)
  else mret None.

(** The part of [findLockInfo] for the [lockInfo]: it gives the code and the
    value of [pLock]. *)
Definition find_lock (key1 : lockKey) : M (Z * option nat) :=
  pLock ← os_get (fun m => Some (lockHash m !! key1));
  match pLock with
  | None =>
      pLock ← new_lock (mkLockInfo key1 0 0 1);
      match pLock with
      | None => mret (SQLITE_NOMEM, None)
      | Some l =>
          pOld ← lockHash_insert key1 (Some l);
          match pOld with
          | Some o =>
              os_assert (bool_decide (o = l));;
              free_lock l;; mret (SQLITE_NOMEM, None)
          | None => mret (SQLITE_OK, Some l)
          end
      end
  | Some l =>
      x ← get_lock l;
      put_lock l (with_lref (li_nRef x + 1) x);;
      mret (SQLITE_OK, Some l)
  end.

(** The part for the [openCnt], after [pLock] was found. *)
Definition find_open (key2 : openKey) (pLock : option nat) : M (Z * option nat) :=
  pOpen ← os_get (fun m => Some (openHash m !! key2));
  match pOpen with
  | None =>
      pOpen ← new_open (mkOpenCnt key2 1 0 []);
      match pOpen with
      | None => releaseLockInfo pLock;; mret (SQLITE_NOMEM, None)
      | Some o =>
          pOld ← openHash_insert key2 (Some o);
          match pOld with
          | Some old =>
              os_assert (bool_decide (old = o));;
              free_open o;; releaseLockInfo pLock;; mret (SQLITE_NOMEM, None)
          | None => mret (SQLITE_OK, Some o)
          end
      end
  | Some o =>
      x ← get_open o;
      put_open o (with_oref (oc_nRef x + 1) x);;
      mret (SQLITE_OK, Some o)
  end.

(** [findLockInfo(fd, &pLock, &pOpen)]; the caller's variables are stored by
    [store_lock] and [store_open], the latter [None] for a null [ppOpen]. *)
Definition findLockInfo (self fd : Z) (store_lock : option nat -> M unit)
    (store_open : option (option nat -> M unit)) : M Z :=
  st ← os_call (sys_fstat fd);
  if negb (a_ret st =? 0) then
    mret (if a_errno st =? EOVERFLOW then SQLITE_NOLFS else SQLITE_IOERR)
  else
  t ← os_get (fun m => Some (threadsOverrideEachOthersLocks m));
  (if t <? 0 then testThreadLockingBehavior fd else mret tt);;
  t ← os_get (fun m => Some (threadsOverrideEachOthersLocks m));
  let key1 := mkLockKey (a_dev st) (a_ino st) (if negb (t =? 0) then 0 else self) in
  let key2 := mkOpenKey (a_dev st) (a_ino st) in
  '(rc, pLock) ← find_lock key1;
  if negb (rc =? SQLITE_OK) then mret rc else
  store_lock pLock;;
  match store_open with
  | None => mret rc
  | Some store_open =>
      '(rc, pOpen) ← find_open key2 pLock;
      if negb (rc =? SQLITE_OK) then mret rc else
      store_open pOpen;; mret rc
  end.

Definition store_pLock (id : Z) (l : option nat) : M unit :=
  f ← get_file id; put_file id (with_pLock l f).
Definition store_pOpen (id : Z) (o : option nat) : M unit :=
  f ← get_file id; put_file id (with_pOpen o f).
Definition store_locktype (id t : Z) : M unit :=
  f ← get_file id; put_file id (with_locktype t f).

Definition transferOwnership (self id : Z) : M Z :=
  t ← os_get (fun m => Some (threadsOverrideEachOthersLocks m));
  if negb (t =? 0) then mret SQLITE_OK else
  pFile ← get_file id;
  if f_tid pFile =? self then mret SQLITE_OK else
  if negb (f_locktype pFile =? NO_LOCK) then mret SQLITE_MISUSE else
  put_file id (with_tid self pFile);;
  match f_pLock pFile with
  | Some _ =>
      releaseLockInfo (f_pLock pFile);;
      findLockInfo self (f_h pFile) (store_pLock id) None
  | None => mret SQLITE_OK
  end.

(** ** The POSIX locking methods *)

Definition unixCheckReservedLock (id : Z) : M Z :=
  pFile ← get_file id;
  l ← lock_ptr pFile;
  pLock ← get_lock l;
  if li_locktype pLock >? SHARED_LOCK then mret 1 else
  a ← os_call (sys_getlk (f_h pFile) (mkFlock F_WRLCK RESERVED_BYTE 1));
  mret (if decide (a_type a = F_UNLCK) then 0 else 1).

(** The request for a SHARED lock when this process holds none: a read-lock
    on the pending byte, then on the shared range. *)
Definition lock_shared (id : Z) (l o : nat) : M Z :=
  pFile ← get_file id;
  pLock ← get_lock l;
  os_assert (li_cnt pLock =? 0);;
  os_assert (li_locktype pLock =? 0);;
  '(s, errno) ← fcntl_setlk (f_h pFile) F_RDLCK SHARED_FIRST SHARED_SIZE;
  '(u, _) ← fcntl_setlk (f_h pFile) F_UNLCK PENDING_BYTE 1;
  if negb (u =? 0) then mret SQLITE_IOERR_UNLOCK else
  if s =? -1 then mret (if errno =? EINVAL then SQLITE_NOLFS else SQLITE_BUSY)
  else
    put_file id (with_locktype SHARED_LOCK pFile);;
    oc ← get_open o;
    put_open o (with_nLock (oc_nLock oc + 1) oc);;
    put_lock l (with_cnt 1 pLock);;
    mret SQLITE_OK.

(** The write-lock for a RESERVED or EXCLUSIVE lock. *)
Definition lock_write (id locktype : Z) : M Z :=
  pFile ← get_file id;
  os_assert (negb (0 =? f_locktype pFile));;
  os_assert ((locktype =? RESERVED_LOCK) || (locktype =? EXCLUSIVE_LOCK));;
  '(s, errno) ← (if locktype =? RESERVED_LOCK
                 then fcntl_setlk (f_h pFile) F_WRLCK RESERVED_BYTE 1
                 else fcntl_setlk (f_h pFile) F_WRLCK SHARED_FIRST SHARED_SIZE);
  mret (if s =? -1 then if errno =? EINVAL then SQLITE_NOLFS else SQLITE_BUSY
        else SQLITE_OK).

(** Recording the outcome, at the end of [unixLock]. *)
Definition lock_record (id locktype : Z) (l : nat) (rc : Z) : M Z :=
  pLock ← get_lock l;
  (if rc =? SQLITE_OK then
     store_locktype id locktype;; put_lock l (with_ltype locktype pLock)
   else if locktype =? EXCLUSIVE_LOCK then
     store_locktype id PENDING_LOCK;; put_lock l (with_ltype PENDING_LOCK pLock)
   else mret tt);;
  mret rc.

Definition unixLock (self id locktype : Z) : M Z :=
  pFile ← get_file id;
  if f_locktype pFile >=? locktype then mret SQLITE_OK else
  os_assert (negb (f_locktype pFile =? NO_LOCK) || (locktype =? SHARED_LOCK));;
  os_assert (negb (locktype =? PENDING_LOCK));;
  os_assert (negb (locktype =? RESERVED_LOCK) || (f_locktype pFile =? SHARED_LOCK));;
  rc ← transferOwnership self id;
  if negb (rc =? SQLITE_OK) then mret rc else
  pFile ← get_file id;
  l ← lock_ptr pFile;
  pLock ← get_lock l;
  if negb (f_locktype pFile =? li_locktype pLock)
     && ((li_locktype pLock >=? PENDING_LOCK) || (locktype >? SHARED_LOCK))
  then mret SQLITE_BUSY else
  o ← open_ptr pFile;
  if (locktype =? SHARED_LOCK)
     && ((li_locktype pLock =? SHARED_LOCK) || (li_locktype pLock =? RESERVED_LOCK))
  then
    os_assert (f_locktype pFile =? 0);;
    os_assert (li_cnt pLock >? 0);;
    put_file id (with_locktype SHARED_LOCK pFile);;
    put_lock l (with_cnt (li_cnt pLock + 1) pLock);;
    oc ← get_open o;
    put_open o (with_nLock (oc_nLock oc + 1) oc);;
    mret SQLITE_OK
  else
  '(s, errno) ←
     (if (locktype =? SHARED_LOCK)
         || ((locktype =? EXCLUSIVE_LOCK) && (f_locktype pFile <? PENDING_LOCK))
      then fcntl_setlk (f_h pFile) (if locktype =? SHARED_LOCK then F_RDLCK else F_WRLCK)
             PENDING_BYTE 1
      else mret (0, 0));
  if s =? -1 then mret (if errno =? EINVAL then SQLITE_NOLFS else SQLITE_BUSY) else
  if locktype =? SHARED_LOCK then
    rc ← lock_shared id l o;
    if rc =? SQLITE_IOERR_UNLOCK then mret rc else lock_record id locktype l rc
  else if (locktype =? EXCLUSIVE_LOCK) && (li_cnt pLock >? 1) then
    lock_record id locktype l SQLITE_BUSY
  else
    rc ← lock_write id locktype;
    lock_record id locktype l rc.

(** [close(pOpen->aPending[i])] for all of them. *)
Fixpoint close_all (fds : list Z) : M unit :=
  match fds with
  | [] => mret tt
  | fd :: fds => c_close fd;; close_all fds
  end.

(** Lowering a lock above SHARED, with the code so far. *)
Definition unlock_high (h locktype : Z) (l : nat) : M Z :=
  rc ← (if locktype =? SHARED_LOCK then
          '(s, _) ← fcntl_setlk h F_RDLCK SHARED_FIRST SHARED_SIZE;
          mret (if s =? -1 then SQLITE_IOERR_RDLOCK else SQLITE_OK)
        else mret SQLITE_OK);
  '(s, _) ← fcntl_setlk h F_UNLCK PENDING_BYTE 2;
  if negb (s =? -1) then
    pLock ← get_lock l;
    put_lock l (with_ltype SHARED_LOCK pLock);; mret rc
  else mret SQLITE_IOERR_UNLOCK.

(** Giving up the last lock of this handle. *)
Definition unlock_none (h : Z) (l o : nat) (rc : Z) : M Z :=
  pLock ← get_lock l;
  put_lock l (with_cnt (li_cnt pLock - 1) pLock);;
  pLock ← get_lock l;
  rc ← (if li_cnt pLock =? 0 then
          '(s, _) ← fcntl_setlk h F_UNLCK 0 0;
          if negb (s =? -1) then put_lock l (with_ltype NO_LOCK pLock);; mret rc
          else put_lock l (with_cnt 1 pLock);; mret SQLITE_IOERR_UNLOCK
        else mret rc);
  (if rc =? SQLITE_OK then
     oc ← get_open o;
     let oc := with_nLock (oc_nLock oc - 1) oc in
     put_open o oc;;
     os_assert (oc_nLock oc >=? 0);;
     if (oc_nLock oc =? 0) && (zlen (oc_aPending oc) >? 0) then
       close_all (oc_aPending oc);;
       put_open o (with_pending [] oc)
     else mret tt
   else mret tt);;
  mret rc.

(** [CHECK_THREADID] *)
Definition check_threadid (self : Z) (pFile : unixFile) : M bool :=
  t ← os_get (fun m => Some (threadsOverrideEachOthersLocks m));
  mret ((t =? 0) && negb (f_tid pFile =? self)).

Definition unixUnlock (self id locktype : Z) : M Z :=
  pFile ← get_file id;
  os_assert (locktype <=? SHARED_LOCK);;
  if f_locktype pFile <=? locktype then mret SQLITE_OK else
  bad ← check_threadid self pFile;
  if (bad : bool) then mret SQLITE_MISUSE else
  let h := f_h pFile in
  l ← lock_ptr pFile;
  pLock ← get_lock l;
  os_assert (negb (li_cnt pLock =? 0));;
  rc ← (if f_locktype pFile >? SHARED_LOCK then
          os_assert (li_locktype pLock =? f_locktype pFile);;
          unlock_high h locktype l
        else mret SQLITE_OK);
  rc ← (if locktype =? NO_LOCK then
          o ← open_ptr pFile;
          unlock_none h l o rc
        else mret rc);
  (if rc =? SQLITE_OK then store_locktype id locktype else mret tt);;
  mret rc.

Definition unixClose (self id : Z) : M Z :=
  unixUnlock self id NO_LOCK;;
  pFile ← get_file id;
  (if f_dirfd pFile >=? 0 then c_close (f_dirfd pFile) else mret tt);;
  put_file id (with_dirfd (-1) pFile);;
  o ← open_ptr pFile;
  oc ← get_open o;
  (if negb (oc_nLock oc =? 0) then
     b ← c_malloc;
     if (b : bool) then put_open o (with_pending (oc_aPending oc ++ [f_h pFile]) oc)
     else mret tt
   else c_close (f_h pFile));;
  releaseLockInfo (f_pLock pFile);;
  releaseOpenCnt (f_pOpen pFile);;
  put_file id zero_file;;
  mret SQLITE_OK.

(** ** Opening a file *)

(** [f_flags & MNT_RDONLY] and [f_fstypename] of [struct statfs]. *)
Record statfs := mkStatfs { fs_rdonly : bool; fs_typename : string }.

Definition sqlite3TestLockingStyle (fd : Z) : M sqlite3LockingStyle :=
  a ← os_call (sys_getlk fd (mkFlock F_RDLCK 0 1));
  mret (if negb (a_ret a =? -1) then posixLockingStyle else dotlockLockingStyle).

(** [fsInfo] is what statfs() stores, [None] when it fails. *)
Definition sqlite3DetectLockingStyle (fsInfo : option statfs) (fd : Z) : M sqlite3LockingStyle :=
  match fsInfo with
  | None => sqlite3TestLockingStyle fd
  | Some fsInfo =>
      if fs_rdonly fsInfo then mret noLockingStyle else
      let named s := String.eqb (fs_typename fsInfo) s in
      if named "hfs"%string || named "ufs"%string then mret posixLockingStyle else
      if named "afpfs"%string then mret afpLockingStyle else
      if named "nfs"%string then sqlite3TestLockingStyle fd else
      if named "smbfs"%string then mret flockLockingStyle else
      if named "msdos"%string then mret dotlockLockingStyle else
      if named "webdav"%string then mret unsupportedLockingStyle else
      sqlite3TestLockingStyle fd
  end.

(** A file system on which POSIX locks are used. *)
Definition posix_fs (fsInfo : option statfs) : Prop :=
  exists name, fsInfo = Some (mkStatfs false name) /\ (name = "hfs" \/ name = "ufs")%string.

(** [sqlite3_snprintf(n, buf, "%s.lock", zFilename)]: at most [n-1] bytes and
    the NUL. *)
Definition dotlock_path (zFilename : list Z) : list Z :=
  let nFilename := zlen zFilename in
  if nFilename <=? 0 then []
  else take (Z.to_nat (nFilename - 1)) (zFilename ++ [46; 108; 111; 99; 107]).

(** The method table and the context for a style, or no memory. *)
Definition style_methods (style : sqlite3LockingStyle) (zFilename : list Z)
    : M (option (sqlite3_io_methods * option lockingContext)) :=
  match style with
  | afpLockingStyle =>
      b ← c_malloc;
      mret (if (b : bool) then
              Some (sqlite3AFPLockingUnixIoMethod, Some (afpLockingContext 0 zFilename))
            else None)
  | flockLockingStyle => mret (Some (sqlite3FlockLockingUnixIoMethod, None))
  | dotlockLockingStyle =>
      b ← c_malloc;
      mret (if (b : bool) then
              Some (sqlite3DotlockLockingUnixIoMethod,
                    Some (dotlockLockingContext (dotlock_path zFilename)))
            else None)
  | posixLockingStyle => mret (Some (sqlite3UnixIoMethod, None))
  | noLockingStyle | unsupportedLockingStyle =>
      mret (Some (sqlite3NolockLockingUnixIoMethod, None))
  end.

Definition fillInUnixFile (self h dirfd id : Z) (zFilename : list Z)
    (fsInfo : option statfs) : M Z :=
  style ← sqlite3DetectLockingStyle fsInfo h;
  rc ← (match style with
        | posixLockingStyle =>
            rc ← findLockInfo self h (store_pLock id) (Some (store_pOpen id));
            if negb (rc =? 0) then
              (if dirfd >=? 0 then c_close dirfd else mret tt);;
              c_close h;; mret rc
            else mret rc
        | _ => store_pLock id None;; store_pOpen id None;; mret SQLITE_OK
        end);
  if negb (rc =? 0) then mret rc else
  f ← get_file id;
  put_file id (with_fds h dirfd self f);;
  x ← style_methods style zFilename;
  match x with
  | None =>
      c_close h;;
      (if dirfd >=? 0 then c_close dirfd else mret tt);;
      mret SQLITE_NOMEM
  | Some (methods, context) =>
      f ← get_file id;
      put_file id (with_methods methods context f);;
      mret SQLITE_OK
  end.
