(* ===== verification/UnixLockInv.v ===== *)
(** * What the lock records of a process mean

    The invariant of misc/sqlite/os_unix.c inside one process: the hash tables
    and reference counts agree with the open handles, every level that a
    handle records is backed by locks of the process in the kernel, and the
    handles of one inode exclude each other. It is the invariant of a process
    in which threads override each other's locks, as POSIX has it, and of a
    process that has not found that out yet and has no file open. *)

From S2P Require Import Prelude UnixOs UnixLock.

(** ** Counting handles *)

#[export] Instance zlen_proper {A} : Proper ((≡ₚ) ==> (=)) (@zlen A).
Proof. intros l l' H. unfold zlen. by rewrite H. Qed.

Definition countf (P : unixFile -> bool) (fs : gmap Z unixFile) : Z :=
  zlen (filter (fun f => P f = true) (map_to_list fs).*2).

Lemma countf_take P fs i x :
  fs !! i = Some x -> countf P fs = Z.b2z (P x) + countf P (delete i fs).
Proof.
  intros Hi. unfold countf.
  rewrite <- (map_to_list_delete fs i x Hi). simpl. rewrite filter_cons.
  destruct (P x); simpl; rewrite ?zlen_cons; unfold fmap; lia.
Qed.

Lemma countf_insert P fs i x y :
  fs !! i = Some x ->
  countf P (<[i := y]> fs) = countf P fs - Z.b2z (P x) + Z.b2z (P y).
Proof.
  intros Hi. rewrite (countf_take P fs i x Hi).
  rewrite (countf_take P (<[i := y]> fs) i y) by apply lookup_insert_eq.
  rewrite delete_insert_eq. lia.
Qed.

Lemma countf_new P fs i y :
  fs !! i = None -> countf P (<[i := y]> fs) = Z.b2z (P y) + countf P fs.
Proof.
  intros Hi. rewrite (countf_take P (<[i := y]> fs) i y) by apply lookup_insert_eq.
  by rewrite delete_insert_id.
Qed.

Lemma countf_nonneg P fs : 0 <= countf P fs.
Proof. apply zlen_nonneg. Qed.

Lemma countf_pos P fs i x : fs !! i = Some x -> P x = true -> 0 < countf P fs.
Proof.
  intros Hi Hx. rewrite (countf_take P fs i x Hi), Hx.
  pose proof (countf_nonneg P (delete i fs)). simpl. lia.
Qed.

Lemma countf_two P fs i j x y :
  fs !! i = Some x -> fs !! j = Some y -> i <> j -> P x = true -> P y = true ->
  2 <= countf P fs.
Proof.
  intros Hi Hj Hne Hx Hy. rewrite (countf_take P fs i x Hi), Hx.
  rewrite (countf_take P (delete i fs) j y), Hy by (by rewrite lookup_delete_ne).
  pose proof (countf_nonneg P (delete j (delete i fs))). simpl. lia.
Qed.

Lemma countf_some P fs : 0 < countf P fs -> exists i x, fs !! i = Some x /\ P x = true.
Proof.
  unfold countf. destruct (filter _ _) as [|x l] eqn:E; [size|]. intros _.
  assert (x ∈ filter (fun f => P f = true) (map_to_list fs).*2) as H by (rewrite E; left).
  apply list_elem_of_filter in H as [HP H].
  apply list_elem_of_fmap in H as ([i y] & -> & H). apply elem_of_map_to_list in H.
  by exists i, y.
Qed.

Lemma countf_ext P P' fs :
  (forall i x, fs !! i = Some x -> P x = P' x) -> countf P fs = countf P' fs.
Proof.
  induction fs as [|i x fs Hi IH] using map_ind; intros H; [done|].
  rewrite !(countf_take _ (<[i := x]> fs) i x) by apply lookup_insert_eq.
  rewrite delete_insert_id by done. rewrite (H i x) by apply lookup_insert_eq.
  f_equal. apply IH. intros j y Hj. apply (H j). rewrite lookup_insert_ne; congruence.
Qed.

(** ** The invariant *)

Definition is_open (f : unixFile) : bool :=
  match f_pMethod f with Some sqlite3UnixIoMethod => true | _ => false end.

Definition on_lock (l : nat) (f : unixFile) : bool :=
  is_open f && bool_decide (f_pLock f = Some l).
Definition on_open (o : nat) (f : unixFile) : bool :=
  is_open f && bool_decide (f_pOpen f = Some o).
Definition locked (f : unixFile) : bool := negb (f_locktype f =? NO_LOCK).

Definition key_inode (k : lockKey) : inode := (lk_dev k, lk_ino k).
Definition okey_inode (k : openKey) : inode := (ok_dev k, ok_ino k).

Definition in_shared (b : Z) : Prop := SHARED_FIRST <= b < SHARED_FIRST + SHARED_SIZE.

(** The kernel locks behind a level. *)
Record claim (v : view) (i : inode) (level : Z) : Prop := {
  cl_shared b : SHARED_LOCK <= level -> in_shared b -> v_lock v i b <> None;
  cl_reserved : level = RESERVED_LOCK -> v_lock v i RESERVED_BYTE = Some F_WRLCK;
  cl_pending : PENDING_LOCK <= level -> v_lock v i PENDING_BYTE = Some F_WRLCK;
  cl_excl b : level = EXCLUSIVE_LOCK -> in_shared b -> v_lock v i b = Some F_WRLCK;
}.

(** The handle at [id] is open on inode [i] with level [t]. *)
Definition handle (m : pmem) (id : Z) (i : inode) (t : Z) : Prop :=
  exists f l x, files m !! id = Some f /\ is_open f = true /\ f_pLock f = Some l /\
    lockInfos m !! l = Some x /\ key_inode (li_key x) = i /\ f_locktype f = t.

(** Every handle's level is backed; [lvl] says which level counts while an
    operation runs. *)
Definition Backed (lvl : Z -> Z -> Z) (m : pmem) (v : view) : Prop :=
  forall id i t, handle m id i t -> claim v i (lvl id t).

(** Two handles of one process on one inode. *)
Definition excludes (t1 t2 : Z) : Prop :=
  (t1 = EXCLUSIVE_LOCK -> t2 <= NO_LOCK) /\ (SHARED_LOCK < t1 -> t2 <= SHARED_LOCK).
Definition Excl (lvl : Z -> Z -> Z) (m : pmem) : Prop :=
  forall id1 id2 i t1 t2, id1 <> id2 -> handle m id1 i t1 -> handle m id2 i t2 ->
    excludes (lvl id1 t1) (lvl id2 t2).

Definition Claims (lvl : Z -> Z -> Z) (m : pmem) (v : view) : Prop :=
  Backed lvl m v /\ Excl lvl m.

Definition own_level : Z -> Z -> Z := fun _ t => t.
(** Handle [x] is being lowered to level [t]. *)
Definition lowered (x t : Z) : Z -> Z -> Z := fun id s => if id =? x then Z.min s t else s.

(** The claims as a condition on every system call. *)
Definition At (lvl : Z -> Z -> Z) : pmem -> view -> syscall -> Prop := fun m v _ => Claims lvl m v.

(** The record of a handle. *)
Record file_ok (m : pmem) (fds : Z -> option inode) (f : unixFile) (l o : nat)
    (x : lockInfo) (oc : openCnt) : Prop := {
  fo_lock : f_pLock f = Some l;
  fo_open : f_pOpen f = Some o;
  fo_info : lockInfos m !! l = Some x;
  fo_cnt : openCnts m !! o = Some oc;
  fo_same : key_inode (li_key x) = okey_inode (oc_key oc);
  fo_fd : fds (f_h f) = Some (okey_inode (oc_key oc));
  fo_level : NO_LOCK <= f_locktype f <= EXCLUSIVE_LOCK;
  fo_dirfd : f_dirfd f < 0;
}.

(** The [lockInfo] at [l]. *)
Record info_ok (m : pmem) (l : nat) (x : lockInfo) : Prop := {
  io_hash : lockHash m !! li_key x = Some l;
  io_tid : lk_tid (li_key x) = 0;
  io_ref : li_nRef x = countf (on_lock l) (files m);
  io_refpos : 0 < li_nRef x;
  io_cnt : li_cnt x = countf (fun f => on_lock l f && locked f) (files m);
  io_range : NO_LOCK <= li_locktype x <= EXCLUSIVE_LOCK;
  io_none : li_locktype x = NO_LOCK <-> li_cnt x = 0;
  io_excl : li_locktype x = EXCLUSIVE_LOCK -> li_cnt x = 1;
  io_level id f : files m !! id = Some f -> on_lock l f = true ->
    f_locktype f <= SHARED_LOCK \/ f_locktype f = li_locktype x;
  io_one id1 id2 f1 f2 :
    files m !! id1 = Some f1 -> files m !! id2 = Some f2 ->
    on_lock l f1 = true -> on_lock l f2 = true ->
    SHARED_LOCK < f_locktype f1 -> SHARED_LOCK < f_locktype f2 -> id1 = id2;
  io_some : SHARED_LOCK < li_locktype x ->
    exists id f, files m !! id = Some f /\ on_lock l f = true /\ f_locktype f = li_locktype x;
}.

(** The [openCnt] at [o]. *)
Record cnt_ok (m : pmem) (fds : Z -> option inode) (o : nat) (oc : openCnt) : Prop := {
  co_hash : openHash m !! oc_key oc = Some o;
  co_ref : oc_nRef oc = countf (on_open o) (files m);
  co_refpos : 0 < oc_nRef oc;
  co_nlock : oc_nLock oc = countf (fun f => on_open o f && locked f) (files m);
  co_nodup : NoDup (oc_aPending oc);
  co_fds fd : fd ∈ oc_aPending oc -> fds fd = Some (okey_inode (oc_key oc));
  co_apart fd id f : fd ∈ oc_aPending oc -> files m !! id = Some f -> is_open f = true ->
    f_h f <> fd;
  co_empty : oc_nLock oc = 0 -> oc_aPending oc = [];
}.

Record Str (m : pmem) (fds : Z -> option inode) : Prop := {
  st_override : threadsOverrideEachOthersLocks m = 1 \/
    (threadsOverrideEachOthersLocks m = -1 /\
     forall id f, files m !! id = Some f -> is_open f = false);
  st_file id f : files m !! id = Some f -> is_open f = true ->
    exists l o x oc, file_ok m fds f l o x oc;
  st_info l x : lockInfos m !! l = Some x -> info_ok m l x;
  st_cnt o oc : openCnts m !! o = Some oc -> cnt_ok m fds o oc;
  st_lhash k l : lockHash m !! k = Some l -> exists x, lockInfos m !! l = Some x /\ li_key x = k;
  st_ohash k o : openHash m !! k = Some o -> exists oc, openCnts m !! o = Some oc /\ oc_key oc = k;
  st_fds id1 id2 f1 f2 :
    files m !! id1 = Some f1 -> files m !! id2 = Some f2 ->
    is_open f1 = true -> is_open f2 = true -> f_h f1 = f_h f2 -> id1 = id2;
}.

Definition Inv (m : pmem) (v : view) : Prop := Str m (v_fd v) /\ Claims own_level m v.

(** ** Handles of one inode *)

Lemma on_lock_spec l f : on_lock l f = true <-> is_open f = true /\ f_pLock f = Some l.
Proof. unfold on_lock. rewrite andb_true_iff, bool_decide_eq_true. done. Qed.

Lemma on_open_spec o f : on_open o f = true <-> is_open f = true /\ f_pOpen f = Some o.
Proof. unfold on_open. rewrite andb_true_iff, bool_decide_eq_true. done. Qed.

Lemma locked_spec f : locked f = true <-> f_locktype f <> NO_LOCK.
Proof. unfold locked. rewrite negb_true_iff, Z.eqb_neq. done. Qed.

Section str.
Context (m : pmem) (fds : Z -> option inode) (HS : Str m fds).

(** With a file open the threads have been tested. *)
Lemma mode_open id f :
  files m !! id = Some f -> is_open f = true -> threadsOverrideEachOthersLocks m = 1.
Proof. intros Hf Ho. destruct (st_override _ _ HS) as [|[_ Hno]]; [done|]. by rewrite (Hno _ _ Hf) in Ho. Qed.

Lemma lock_of_inode l1 l2 x1 x2 :
  lockInfos m !! l1 = Some x1 -> lockInfos m !! l2 = Some x2 ->
  key_inode (li_key x1) = key_inode (li_key x2) -> l1 = l2.
Proof.
  intros H1 H2 Hk. pose proof (st_info _ _ HS _ _ H1) as I1.
  pose proof (st_info _ _ HS _ _ H2) as I2.
  pose proof (io_hash _ _ _ I1) as E1. pose proof (io_hash _ _ _ I2) as E2.
  pose proof (io_tid _ _ _ I1). pose proof (io_tid _ _ _ I2).
  destruct (li_key x1), (li_key x2). unfold key_inode in Hk. simplify_eq/=. congruence.
Qed.

Lemma open_of_inode o1 o2 c1 c2 :
  openCnts m !! o1 = Some c1 -> openCnts m !! o2 = Some c2 ->
  okey_inode (oc_key c1) = okey_inode (oc_key c2) -> o1 = o2.
Proof.
  intros H1 H2 Hk. pose proof (co_hash _ _ _ _ (st_cnt _ _ HS _ _ H1)) as E1.
  pose proof (co_hash _ _ _ _ (st_cnt _ _ HS _ _ H2)) as E2.
  destruct (oc_key c1), (oc_key c2). unfold okey_inode in Hk. simplify_eq/=. congruence.
Qed.

(** The handles of the inode of [l] are those that point to [l]. *)
Lemma handle_on l x id i t :
  lockInfos m !! l = Some x -> key_inode (li_key x) = i -> handle m id i t ->
  exists f, files m !! id = Some f /\ on_lock l f = true /\ f_locktype f = t.
Proof.
  intros Hx Hi (f & l' & x' & Hf & Ho & Hl & Hx' & Hi' & Ht).
  exists f. split; [done|]. split; [|done]. apply on_lock_spec. split; [done|].
  rewrite Hl. f_equal. eapply lock_of_inode; [done..|]. congruence.
Qed.

(** Two handles share the one record exactly when they share the other. *)
Lemma on_lock_open f l o x oc id f' :
  file_ok m fds f l o x oc -> files m !! id = Some f' ->
  on_lock l f' = on_open o f'.
Proof.
  intros Hf Hf'. destruct (is_open f') eqn:Ho; [|unfold on_lock, on_open; by rewrite Ho].
  destruct (st_file _ _ HS _ _ Hf' Ho) as (l' & o' & x' & oc' & F).
  apply eq_iff_eq_true. rewrite on_lock_spec, on_open_spec, Ho.
  rewrite (fo_lock _ _ _ _ _ _ _ F), (fo_open _ _ _ _ _ _ _ F).
  pose proof (fo_same _ _ _ _ _ _ _ F). pose proof (fo_same _ _ _ _ _ _ _ Hf).
  pose proof (fo_info _ _ _ _ _ _ _ F). pose proof (fo_info _ _ _ _ _ _ _ Hf).
  pose proof (fo_cnt _ _ _ _ _ _ _ F). pose proof (fo_cnt _ _ _ _ _ _ _ Hf).
  split; intros [_ E]; split; [done| |done|]; f_equal; injection E as ->.
  - eapply open_of_inode; [done..|]. congruence.
  - eapply lock_of_inode; [done..|]. congruence.
Qed.

(** So the number of locks of an inode is counted twice. *)
Lemma nLock_cnt f l o x oc : file_ok m fds f l o x oc -> oc_nLock oc = li_cnt x.
Proof.
  intros F. rewrite (co_nlock _ _ _ _ (st_cnt _ _ HS _ _ (fo_cnt _ _ _ _ _ _ _ F))).
  rewrite (io_cnt _ _ _ (st_info _ _ HS _ _ (fo_info _ _ _ _ _ _ _ F))).
  apply countf_ext. intros id f' Hf'. by rewrite (on_lock_open _ _ _ _ _ _ _ F Hf').
Qed.
End str.

(** Inside a process the records keep the handles apart. *)
Lemma Str_excl m fds : Str m fds -> Excl own_level m.
Proof.
  intros HS id1 id2 i t1 t2 Hne (f1 & l1 & x1 & H1 & O1 & L1 & X1 & K1 & T1) Hh2.
  eapply (handle_on m fds HS l1 x1) in Hh2 as (f2 & H2 & On2 & T2); [|done..].
  assert (on_lock l1 f1 = true) as On1 by by apply on_lock_spec.
  destruct (st_info _ _ HS _ _ X1) as [I1 I2 I3 I4 I5 I6 I7 I8 I9 I10 I11].
  pose proof (I9 _ _ H1 On1) as J1. pose proof (I9 _ _ H2 On2) as J2.
  destruct (st_file _ _ HS _ _ H2 (proj1 (proj1 (on_lock_spec _ _) On2))) as (? & ? & ? & ? & F2).
  pose proof (fo_level _ _ _ _ _ _ _ F2) as R2.
  assert (SHARED_LOCK < f_locktype f1 -> f_locktype f2 <= SHARED_LOCK) as Hhi.
  { intros Hgt. destruct (decide (f_locktype f2 <= SHARED_LOCK)) as [|Hgt2]; [done|].
    destruct Hne. eapply I10; eauto. lia. }
  unfold own_level, excludes. rewrite <- T1, <- T2. split; [|done]. intros E.
  destruct (decide (f_locktype f2 = NO_LOCK)) as [->|E2]; [done|]. exfalso.
  assert (2 <= li_cnt x1).
  { rewrite I5. eapply (countf_two _ _ id1 id2); try done.
    - rewrite On1. apply locked_spec. by rewrite E.
    - rewrite On2. by apply locked_spec. }
  destruct J1 as [J1|J1]; [by rewrite E in J1|]. rewrite E in J1. symmetry in J1. apply I8 in J1. lia.
Qed.

Lemma Inv_intro m v : Str m (v_fd v) -> Backed own_level m v -> Inv m v.
Proof. intros HS HB. split; [done|]. split; [done|]. by eapply Str_excl. Qed.

Lemma Claims_sub lvl m m' v :
  (forall id i t, handle m' id i t -> handle m id i t) -> Claims lvl m v -> Claims lvl m' v.
Proof. intros Hh [HB HE]. split; repeat intro; [by apply HB, Hh | eapply HE; eauto]. Qed.

(** ** Changing the level of one handle *)

Definition put3 (id : Z) (f : unixFile) (l : nat) (x : lockInfo) (o : nat) (oc : openCnt)
    (m : pmem) : pmem :=
  mkPmem (<[id := f]> (files m)) (<[l := x]> (lockInfos m)) (<[o := oc]> (openCnts m))
    (lockHash m) (openHash m) (threadsOverrideEachOthersLocks m).

Definition lockb (t : Z) : Z := Z.b2z (negb (t =? NO_LOCK)).

(** What a [lockInfo] with count [c] and level [lt] asks of the other handles
    when one handle of it has level [t]. *)
Record level_ok (m : pmem) (id : Z) (l : nat) (t c lt : Z) : Prop := {
  lo_t : NO_LOCK <= t <= EXCLUSIVE_LOCK;
  lo_range : NO_LOCK <= lt <= EXCLUSIVE_LOCK;
  lo_none : lt = NO_LOCK <-> c = 0;
  lo_excl : lt = EXCLUSIVE_LOCK -> c = 1;
  lo_self : t <= SHARED_LOCK \/ t = lt;
  lo_other id2 f2 : id2 <> id -> files m !! id2 = Some f2 -> on_lock l f2 = true ->
    f_locktype f2 <= SHARED_LOCK \/ (f_locktype f2 = lt /\ t <= SHARED_LOCK);
  lo_some : SHARED_LOCK < lt -> t = lt \/
    exists id2 f2, id2 <> id /\ files m !! id2 = Some f2 /\ on_lock l f2 = true /\ f_locktype f2 = lt;
}.

Section upd.
Context (m : pmem) (fds : Z -> option inode) (HS : Str m fds).
Context (id : Z) (f : unixFile) (l o : nat) (x : lockInfo) (oc : openCnt).
Context (Hf : files m !! id = Some f) (Hopen : is_open f = true)
        (HF : file_ok m fds f l o x oc).
Context (t c lt n : Z) (pend : list Z).
Context (HL : level_ok m id l t c lt)
        (Hc : c = li_cnt x - lockb (f_locktype f) + lockb t)
        (Hn : n = oc_nLock oc - lockb (f_locktype f) + lockb t)
        (Hp : pend = oc_aPending oc \/ pend = [])
        (Hp0 : n = 0 -> pend = []).

Let f' := with_locktype t f.
Let x' := mkLockInfo (li_key x) c lt (li_nRef x).
Let oc' := mkOpenCnt (oc_key oc) (oc_nRef oc) n pend.
Let m' := put3 id f' l x' o oc' m.

Lemma upd_on_lock : on_lock l f = true.
Proof. apply on_lock_spec. split; [done|]. apply (fo_lock _ _ _ _ _ _ _ HF). Qed.

Lemma upd_files id2 f2 :
  files m' !! id2 = Some f2 ->
  (id2 = id /\ f2 = f') \/ (id2 <> id /\ files m !! id2 = Some f2).
Proof.
  simpl. destruct (decide (id2 = id)) as [->|Hne].
  - rewrite lookup_insert_eq. naive_solver.
  - rewrite lookup_insert_ne by done. naive_solver.
Qed.

(** A handle before, with all but its level. *)
Lemma upd_old id2 f2 :
  files m' !! id2 = Some f2 ->
  exists f0, files m !! id2 = Some f0 /\ is_open f0 = is_open f2 /\ f_pLock f0 = f_pLock f2 /\
    f_pOpen f0 = f_pOpen f2 /\ f_h f0 = f_h f2 /\ f_dirfd f0 = f_dirfd f2 /\
    (forall l, on_lock l f0 = on_lock l f2) /\ (f_locktype f2 = f_locktype f0 \/ f_locktype f2 = t).
Proof.
  intros [[-> ->]|[Hne H2]]%upd_files.
  - exists f. repeat split; try done. by right.
  - exists f2. repeat split; try done. by left.
Qed.

Lemma upd_count P :
  (forall t, P (with_locktype t f) = P f) -> countf P (files m') = countf P (files m).
Proof. intros HP. simpl. rewrite (countf_insert P _ _ _ _ Hf). unfold f'. rewrite HP. lia. Qed.

Lemma upd_count_locked P :
  (forall t, P (with_locktype t f) = P f) -> 
  countf (fun g => P g && locked g) (files m')
  = countf (fun g => P g && locked g) (files m)
    - (if P f then lockb (f_locktype f) else 0) + (if P f then lockb t else 0).
Proof.
  intros HP. simpl. rewrite (countf_insert _ _ _ _ _ Hf). unfold f'. rewrite HP.
  unfold locked, lockb. simpl. by destruct (P f).
Qed.

Lemma upd_file_ok id2 f2 :
  files m' !! id2 = Some f2 -> is_open f2 = true ->
  exists l2 o2 x2 oc2, file_ok m' fds f2 l2 o2 x2 oc2.
Proof.
  intros H2 Ho2. destruct (upd_old _ _ H2) as (f0 & H0 & E1 & E2 & E3 & E4 & E5 & _ & Ht).
  rewrite Ho2 in E1. destruct (st_file _ _ HS _ _ H0 E1) as (l2 & o2 & x2 & oc2 & F2).
  exists l2, o2, (if decide (l2 = l) then x' else x2), (if decide (o2 = o) then oc' else oc2).
  destruct F2 as [F21 F22 F23 F24 F25 F26 F27 F28].
  destruct HF as [F1 F2 F3 F4 F5 F6 F7 F8]. destruct HL as [Lt _ _ _ _ _ _].
  assert (key_inode (li_key (if decide (l2 = l) then x' else x2)) = key_inode (li_key x2)) as K1.
  { destruct (decide (l2 = l)) as [->|]; [|done]. simpl. congruence. }
  assert (okey_inode (oc_key (if decide (o2 = o) then oc' else oc2)) = okey_inode (oc_key oc2)) as K2.
  { destruct (decide (o2 = o)) as [->|]; [|done]. simpl. congruence. }
  constructor; rewrite ?K1, ?K2; try congruence.
  - simpl. destruct (decide (l2 = l)) as [->|]; [by rewrite lookup_insert_eq | by rewrite lookup_insert_ne].
  - simpl. destruct (decide (o2 = o)) as [->|]; [by rewrite lookup_insert_eq | by rewrite lookup_insert_ne].
  - destruct Ht as [E | E]; rewrite E; done.
Qed.

Lemma upd_info_self : info_ok m' l x'.
Proof.
  destruct (st_info _ _ HS _ _ (fo_info _ _ _ _ _ _ _ HF)) as [I1 I2 I3 I4 I5 I6 I7 I8 I9 I10 I11].
  destruct HL as [L1 L2 L3 L4 L5 L6 L7]. pose proof upd_on_lock as Hon.
  constructor; simpl; try done.
  - rewrite I3. symmetry. by apply upd_count.
  - pose proof (upd_count_locked (on_lock l)) as E. simpl in E. rewrite E by done.
    rewrite Hon, Hc, I5. done.
  - intros id2 f2 H2 Ho. destruct (upd_files id2 f2 H2) as [[-> ->]|[Hne H0]]; [done|].
    destruct (L6 _ _ Hne H0 Ho) as [|[? ?]]; auto.
  - intros id1 id2 f1 f2 H1 H2 O1 O2 T1 T2.
    destruct (upd_files id1 f1 H1) as [[-> ->]|[N1 G1]], (upd_files id2 f2 H2) as [[-> ->]|[N2 G2]];
      simpl in *; [done| | |by eapply I10].
    + destruct (L6 _ _ N2 G2 O2) as [|[? ?]]; lia.
    + destruct (L6 _ _ N1 G1 O1) as [|[? ?]]; lia.
  - intros Hlt. destruct (L7 Hlt) as [-> | (id2 & f2 & N & H2 & O2 & T2)].
    + exists id, f'. by rewrite lookup_insert_eq.
    + exists id2, f2. by rewrite lookup_insert_ne.
Qed.

Lemma upd_info_other l2 x2 : l2 <> l -> lockInfos m !! l2 = Some x2 -> info_ok m' l2 x2.
Proof.
  intros Hne H2. destruct (st_info _ _ HS _ _ H2) as [I1 I2 I3 I4 I5 I6 I7 I8 I9 I10 I11].
  assert (on_lock l2 f = false) as Hoff.
  { apply not_true_is_false. rewrite on_lock_spec, (fo_lock _ _ _ _ _ _ _ HF). intros [_ E]. congruence. }
  assert (forall id1 f1, files m' !! id1 = Some f1 -> on_lock l2 f1 = true ->
            files m !! id1 = Some f1) as Hback.
  { intros id1 f1 [[-> ->]|[_ H]]%upd_files O1; [|done].
    change (on_lock l2 f') with (on_lock l2 f) in O1. congruence. }
  constructor; try done.
  - rewrite I3. symmetry. by apply upd_count.
  - rewrite I5. rewrite (upd_count_locked (on_lock l2)) by done. rewrite Hoff. lia.
  - eauto.
  - intros. eapply I10; eauto.
  - intros Hlt. destruct (I11 Hlt) as (id1 & f1 & H1 & O1 & T1).
    exists id1, f1. simpl. rewrite lookup_insert_ne; [done|]. intros ->. congruence.
Qed.

Lemma upd_cnt o2 oc2 : openCnts m' !! o2 = Some oc2 -> cnt_ok m' fds o2 oc2.
Proof.
  simpl. intros H2.
  assert (exists c0, openCnts m !! o2 = Some c0 /\ oc_key c0 = oc_key oc2 /\ oc_nRef c0 = oc_nRef oc2
            /\ (oc_aPending oc2 = oc_aPending c0 \/ oc_aPending oc2 = [])
            /\ (oc_nLock oc2 = 0 -> oc_aPending oc2 = [])
            /\ oc_nLock oc2 = countf (fun g => on_open o2 g && locked g) (files m'))
    as (c0 & H0 & K & R & P & P0 & N).
  { rewrite (upd_count_locked (on_open o2)) by done.
    destruct (decide (o2 = o)) as [->|Hne].
    - rewrite lookup_insert_eq in H2. injection H2 as <-.
      destruct HF as [F1 F2 F3 F4 F5 F6 F7 F8]. exists oc. repeat split; try done.
      rewrite (proj2 (on_open_spec o f)) by done. simpl. rewrite Hn.
      by rewrite <- (co_nlock _ _ _ _ (st_cnt _ _ HS _ _ F4)).
    - rewrite lookup_insert_ne in H2 by done. exists oc2.
      pose proof (st_cnt _ _ HS _ _ H2) as C2. repeat split; try done; [by left| |].
      + by apply (co_empty _ _ _ _ C2).
      + assert (on_open o2 f = false) as ->.
        { apply not_true_is_false. rewrite on_open_spec, (fo_open _ _ _ _ _ _ _ HF). intros [_ E]. congruence. }
        rewrite (co_nlock _ _ _ _ C2). lia. }
  destruct (st_cnt _ _ HS _ _ H0) as [C1 C2 C3 C4 C5 C6 C7 C8].
  constructor; rewrite <- ?K, <- ?R; try done.
  - rewrite C2. symmetry. by apply upd_count.
  - destruct P as [-> | ->]; [done | constructor].
  - intros fd Hfd. apply C6. destruct P as [E|E]; rewrite E in Hfd; [done | by apply not_elem_of_nil in Hfd].
  - intros fd id2 f2 Hfd H Ho2. destruct (upd_old _ _ H) as (f0 & G & E1 & _ & _ & E4 & _).
    rewrite <- E4. eapply C7; [|done|congruence].
    destruct P as [E|E]; rewrite E in Hfd; [done | by apply not_elem_of_nil in Hfd].
Qed.

Lemma Str_upd : Str m' fds.
Proof.
  pose proof (fo_info _ _ _ _ _ _ _ HF) as Hl. pose proof (fo_cnt _ _ _ _ _ _ _ HF) as Ho.
  constructor.
  - left. by apply (mode_open m fds HS id f).
  - apply upd_file_ok.
  - intros l2 x2 H2. simpl in H2. destruct (decide (l2 = l)) as [->|Hne].
    + rewrite lookup_insert_eq in H2. injection H2 as <-. apply upd_info_self.
    + rewrite lookup_insert_ne in H2 by done. by apply upd_info_other.
  - apply upd_cnt.
  - intros k l2 H2. destruct (st_lhash _ _ HS _ _ H2) as (x2 & E & K). simpl.
    destruct (decide (l2 = l)) as [->|Hne]; [|rewrite lookup_insert_ne by done; eauto].
    exists x'. rewrite lookup_insert_eq. simpl. split; [done|]. congruence.
  - intros k o2 H2. destruct (st_ohash _ _ HS _ _ H2) as (x2 & E & K). simpl.
    destruct (decide (o2 = o)) as [->|Hne]; [|rewrite lookup_insert_ne by done; eauto].
    exists oc'. rewrite lookup_insert_eq. simpl. split; [done|]. congruence.
  - intros id1 id2 f1 f2 H1 H2 O1 O2 E.
    destruct (upd_old _ _ H1) as (g1 & G1 & A1 & _ & _ & B1 & _).
    destruct (upd_old _ _ H2) as (g2 & G2 & A2 & _ & _ & B2 & _).
    eapply (st_fds _ _ HS); [exact G1 | exact G2 | congruence..].
Qed.

(** The handles after the change. *)
Lemma upd_handle id2 i2 t2 :
  handle m' id2 i2 t2 ->
  (id2 = id /\ t2 = t /\ i2 = key_inode (li_key x)) \/ (id2 <> id /\ handle m id2 i2 t2).
Proof.
  intros (f2 & l2 & x2 & H2 & O2 & L2 & X2 & K2 & T2). simpl in X2.
  destruct (upd_files _ _ H2) as [[-> ->]|[Hne H0]].
  - left. simpl in *. rewrite (fo_lock _ _ _ _ _ _ _ HF) in L2. injection L2 as <-.
    rewrite lookup_insert_eq in X2. injection X2 as <-. done.
  - right. split; [done|].
    destruct (decide (l2 = l)) as [->|Hl].
    + rewrite lookup_insert_eq in X2. injection X2 as <-.
      exists f2, l, x. repeat split; try done. apply (fo_info _ _ _ _ _ _ _ HF).
    + rewrite lookup_insert_ne in X2 by done. exists f2, l2, x2. done.
Qed.
End upd.
