(* ===== verification/UnixLockWp.v ===== *)
(** * The lock operations of one process and its invariant

    Each function of UnixLock.v is run against every answer of the kernel:
    at each of its system calls the levels that the handles rely on are
    backed by locks. unixLock ends with the invariant and with the level that
    its result code tells. unixUnlock does so too unless the kernel refuses
    to give a lock up; what is left then is listed. *)

From S2P Require Import Prelude UnixOs UnixLock UnixLockInv.

Ltac lconst := unfold NO_LOCK, SHARED_LOCK, RESERVED_LOCK, PENDING_LOCK, EXCLUSIVE_LOCK,
  in_shared, SHARED_FIRST, SHARED_SIZE, RESERVED_BYTE, PENDING_BYTE, SQLITE_OK, SQLITE_BUSY,
  SQLITE_NOLFS in *.

(** ** Claims and lock requests *)

Lemma claim_none v i t : t <= NO_LOCK -> claim v i t.
Proof. intros. constructor; lconst; lia. Qed.

Lemma set_lock_other v i k j b : i <> j -> v_lock (set_lock i k v) j b = v_lock v j b.
Proof. intros. simpl. by rewrite decide_False. Qed.

Lemma set_lock_eq v i k b :
  v_lock (set_lock i k v) i b = if covers k b then held (l_type k) else v_lock v i b.
Proof. simpl. by rewrite decide_True. Qed.

Lemma covers_shared t b : in_shared b -> covers (mkFlock t SHARED_FIRST SHARED_SIZE) b = true.
Proof. intros Hb. unfold covers; simpl. lconst. apply andb_true_iff. lia. Qed.

Lemma covers_low t n b :
  0 < n <= 2 -> in_shared b -> covers (mkFlock t PENDING_BYTE n) b = false.
Proof. intros Hn Hb. unfold covers; simpl. lconst. apply andb_false_iff. lia. Qed.

Lemma claim_wr v i k j t :
  l_type k = F_WRLCK -> claim v j t -> claim (set_lock i k v) j t.
Proof.
  intros Hk [C1 C2 C3 C4]. destruct (decide (i = j)) as [->|Hne].
  - constructor; intros; rewrite set_lock_eq, Hk; destruct (covers _ _); simpl; auto.
  - constructor; intros; rewrite set_lock_other by done; auto.
Qed.

Lemma claim_low v i k t :
  t <= SHARED_LOCK -> l_type k <> F_UNLCK \/ (forall b, in_shared b -> covers k b = false) ->
  claim v i t -> claim (set_lock i k v) i t.
Proof.
  intros Ht Hk [C1 C2 C3 C4]. constructor; intros; try (lconst; lia).
  rewrite set_lock_eq. destruct (covers k b) eqn:E; [|auto].
  destruct Hk as [Hk|Hk]; [by destruct (l_type k)|]. rewrite Hk in E; done.
Qed.

Lemma claim_other v i k j t : i <> j -> claim v j t -> claim (set_lock i k v) j t.
Proof. intros Hne [C1 C2 C3 C4]. constructor; intros; rewrite set_lock_other by done; auto. Qed.

(** A read-lock or a removal on an inode whose handles have low levels. *)
Lemma Claims_low lvl m v i k :
  Claims lvl m v ->
  (forall id t, handle m id i t -> lvl id t <= SHARED_LOCK) ->
  l_type k <> F_UNLCK \/ (forall b, in_shared b -> covers k b = false) ->
  Claims lvl m (set_lock i k v).
Proof.
  intros [HC HE] Hlow Hk. split; [|done]. intros id j t Hh. destruct (decide (i = j)) as [->|Hne].
  - apply claim_low; eauto.
  - apply claim_other; eauto.
Qed.

Lemma Claims_none lvl m v i k :
  Claims lvl m v -> (forall id t, handle m id i t -> lvl id t <= NO_LOCK) ->
  Claims lvl m (set_lock i k v).
Proof.
  intros [HC HE] Hlow. split; [|done]. intros id j t Hh. destruct (decide (i = j)) as [->|Hne].
  - apply claim_none; eauto.
  - apply claim_other; eauto.
Qed.

Lemma Claims_wr lvl m v i k :
  l_type k = F_WRLCK -> Claims lvl m v -> Claims lvl m (set_lock i k v).
Proof. intros Hk [HC HE]. split; [|done]. intros id j t Hh. apply claim_wr; auto. Qed.

Lemma claim_le v i t t' : t <= SHARED_LOCK -> t <= t' -> claim v i t' -> claim v i t.
Proof. intros Ht Hle [C1 C2 C3 C4]. constructor; intros; try (lconst; lia). apply C1; lconst; lia. Qed.

Lemma Claims_lowered m v x t :
  t <= SHARED_LOCK -> Claims own_level m v -> Claims (lowered x t) m v.
Proof.
  intros Ht [HC HE]. split.
  2:{ intros id1 id2 i t1 t2 Hne H1 H2. destruct (HE _ _ _ _ _ Hne H1 H2) as [E1 E2].
      destruct (HE _ _ _ _ _ (not_eq_sym Hne) H2 H1) as [E3 E4].
      unfold own_level, lowered, excludes in *. lconst.
      destruct (id1 =? x) eqn:?, (id2 =? x) eqn:?; lia. }
  intros id i s Hh. unfold lowered. destruct (id =? x); [|apply (HC _ _ _ Hh)].
  apply HC in Hh. unfold own_level in Hh.
  destruct (Z.min_spec s t) as [[? ->]|[? ->]]; [done|]. by apply (claim_le _ _ t s).
Qed.

(** ** Steps of a program *)

Section calls.
Context `{Hsure : Sure}.

(** A lock is granted, or refused when refusals are looked at. *)
Lemma wp_setlk lvl m v fd i t s n (Q : Z * Z -> pmem -> view -> Prop) :
  Claims lvl m v -> v_fd v fd = Some i ->
  (forall e, Q (0, e) m (set_lock i (mkFlock t s n) v)) ->
  (sure = false -> forall e, Q (-1, e) m v) ->
  wp (At lvl) (fcntl_setlk fd t s n m) v Q.
Proof.
  intros HJ Hfd Hok Hno. unfold fcntl_setlk. apply wp_bind, wp_call; [done|].
  intros a v' [Ha Hs]. apply wp_ret. inversion Ha as [? i' ? ? E R|? ? ? R| | | | | | | |]; subst.
  - rewrite R. rewrite Hfd in E. injection E as <-. apply Hok.
  - rewrite R. apply Hno. destruct sure; [|done].
    specialize (Hs eq_refl). simpl in Hs. by rewrite R in Hs.
Qed.

Lemma wp_malloc lvl m v (Q : bool -> pmem -> view -> Prop) :
  Claims lvl m v -> (forall b, Q b m v) -> wp (At lvl) (c_malloc m) v Q.
Proof.
  intros HJ HQ. unfold c_malloc. apply wp_bind, wp_call; [done|].
  intros a v' [Ha _]. inversion Ha; subst. apply wp_ret, HQ.
Qed.

Lemma wp_close lvl m v fd (Q : unit -> pmem -> view -> Prop) :
  Claims lvl m v -> Q tt m (close_fd fd v) -> wp (At lvl) (c_close fd m) v Q.
Proof.
  intros HJ HQ. unfold c_close. apply wp_bind, wp_call; [done|].
  intros a v' [Ha _]. inversion Ha; subst. by apply wp_ret.
Qed.
End calls.

(** Run the parts that make no call. *)
Ltac wget := simpl; rewrite ?lookup_insert_eq; first [eassumption | reflexivity].
Ltac wstep :=
  match goal with
  | |- wp _ ((_ ≫= _) _) _ _ => apply wp_bind
  | |- wp _ (mret _ _) _ _ => apply wp_ret; cbv beta iota
  | |- wp _ (os_get _ _) _ _ => eapply wp_get; [wget | cbv beta iota]
  | |- wp _ (get_file _ _) _ _ => eapply wp_get; [wget | cbv beta iota]
  | |- wp _ (get_lock _ _) _ _ => eapply wp_get; [wget | cbv beta iota]
  | |- wp _ (get_open _ _) _ _ => eapply wp_get; [wget | cbv beta iota]
  | |- wp _ (lock_ptr _ _) _ _ => eapply wp_get; [wget | cbv beta iota]
  | |- wp _ (open_ptr _ _) _ _ => eapply wp_get; [wget | cbv beta iota]
  | |- wp _ (put_file _ _ _) _ _ => apply wp_put; cbv beta iota
  | |- wp _ (put_lock _ _ _) _ _ => apply wp_put; cbv beta iota
  | |- wp _ (put_open _ _ _) _ _ => apply wp_put; cbv beta iota
  | |- wp _ (os_put _ _) _ _ => apply wp_put; cbv beta iota
  end.
Ltac wsteps := repeat wstep.

(** The memory after some stores, as one record. *)
Ltac wmem :=
  unfold set_files, set_lockInfos, set_openCnts, set_lockHash, set_openHash;
  cbn [files lockInfos openCnts lockHash openHash threadsOverrideEachOthersLocks];
  rewrite ?insert_insert_eq.

(** ** unixLock *)

(** The handle at [id] after a call: only its level may have changed. *)
Definition keys_kept (m m' : pmem) : Prop :=
  forall l x, lockInfos m !! l = Some x ->
    exists x', lockInfos m' !! l = Some x' /\ li_key x' = li_key x.

Lemma keys_kept_put m m' l x x' :
  lockInfos m !! l = Some x -> lockInfos m' = <[l := x']> (lockInfos m) ->
  li_key x' = li_key x -> keys_kept m m'.
Proof.
  intros Hx E Hk l2 x2 H2. rewrite E. destruct (decide (l2 = l)) as [->|Hne].
  - exists x'. rewrite lookup_insert_eq. split; [done | congruence].
  - exists x2. by rewrite lookup_insert_ne.
Qed.

(** The code of unixLock and the level [t'] of the handle after it. *)
Definition lock_code (f : unixFile) (t rc t' : Z) : Prop :=
  (rc = SQLITE_OK /\ t' = Z.max t (f_locktype f)) \/
  ((rc = SQLITE_BUSY \/ rc = SQLITE_NOLFS) /\
   (t' = f_locktype f \/ (t = EXCLUSIVE_LOCK /\ t' = PENDING_LOCK /\ f_locktype f <= t'))) \/
  (rc = SQLITE_IOERR_UNLOCK /\ t = SHARED_LOCK /\ t' = f_locktype f).

Definition lock_outcome (id t : Z) (m : pmem) (f : unixFile) (rc : Z) (m' : pmem) (v' : view)
    : Prop :=
  Inv m' v' /\ keys_kept m m' /\
  exists t', files m' = <[id := with_locktype t' f]> (files m) /\
    lock_code f t rc t'.

Lemma with_locktype_id f : with_locktype (f_locktype f) f = f.
Proof. by destruct f. Qed.

Lemma outcome_same id t m v f rc :
  Inv m v -> files m !! id = Some f ->
  (rc = SQLITE_OK /\ t <= f_locktype f) \/ rc = SQLITE_BUSY \/ rc = SQLITE_NOLFS \/
    (rc = SQLITE_IOERR_UNLOCK /\ t = SHARED_LOCK) ->
  lock_outcome id t m f rc m v.
Proof.
  intros HI Hf Hrc. split; [done|]. split; [intros l x Hx; by exists x|]. exists (f_locktype f).
  rewrite with_locktype_id, insert_id by done. split; [done|].
  unfold lock_code. destruct Hrc as [[-> ?]|[->|[->|[-> ?]]]]; [left; split; [done|lia] | auto 6..].
Qed.

Section lock.
Context (m : pmem) (v : view) (id : Z) (f : unixFile) (l o : nat) (x : lockInfo) (oc : openCnt).
Context (HS : Str m (v_fd v)) (HC : Claims own_level m v).
Context (Hf : files m !! id = Some f) (Hopen : is_open f = true)
        (HF : file_ok m (v_fd v) f l o x oc).
Local Notation i := (okey_inode (oc_key oc)).

Let Hlock : lockInfos m !! l = Some x := fo_info _ _ _ _ _ _ _ HF.
Let Hcnt : openCnts m !! o = Some oc := fo_cnt _ _ _ _ _ _ _ HF.
Let HlockP : f_pLock f = Some l := fo_lock _ _ _ _ _ _ _ HF.
Let HopenP : f_pOpen f = Some o := fo_open _ _ _ _ _ _ _ HF.
Let Hinfo : info_ok m l x := st_info _ _ HS _ _ Hlock.
Let Hfd : v_fd v (f_h f) = Some i := fo_fd _ _ _ _ _ _ _ HF.

Lemma lk_inode : key_inode (li_key x) = i.
Proof. apply (fo_same _ _ _ _ _ _ _ HF). Qed.

Lemma lk_on : on_lock l f = true.
Proof. by apply on_lock_spec. Qed.

Lemma lk_self_handle : handle m id i (f_locktype f).
Proof. exists f, l, x. repeat split; try done. apply lk_inode. Qed.

Lemma lk_self_claim : claim v i (f_locktype f).
Proof. apply (proj1 HC _ _ _ lk_self_handle). Qed.

(** The levels of the handles of this inode. *)
Lemma lk_handle id2 t2 :
  handle m id2 i t2 -> exists f2, files m !! id2 = Some f2 /\ on_lock l f2 = true /\ f_locktype f2 = t2.
Proof. apply (handle_on _ _ HS l x); [done | apply lk_inode]. Qed.

Lemma lk_level_range : NO_LOCK <= f_locktype f <= EXCLUSIVE_LOCK.
Proof. apply (fo_level _ _ _ _ _ _ _ HF). Qed.

Lemma lk_cnt_pos : f_locktype f <> NO_LOCK -> 0 < li_cnt x.
Proof.
  intros Ht. rewrite (io_cnt _ _ _ Hinfo). eapply countf_pos; [done|].
  rewrite lk_on. by apply locked_spec.
Qed.

Lemma lk_cnt_zero id2 f2 :
  li_cnt x = 0 -> files m !! id2 = Some f2 -> on_lock l f2 = true -> f_locktype f2 = NO_LOCK.
Proof.
  intros H0 H2 O2. destruct (decide (f_locktype f2 = NO_LOCK)) as [|Hne]; [done|].
  assert (0 < li_cnt x); [|lia]. rewrite (io_cnt _ _ _ Hinfo).
  eapply countf_pos; [done|]. rewrite O2. by apply locked_spec.
Qed.

(** When this handle has the highest level, the others have at most SHARED. *)
Lemma lk_others_low id2 f2 :
  f_locktype f = li_locktype x -> id2 <> id -> files m !! id2 = Some f2 ->
  on_lock l f2 = true -> f_locktype f2 <= SHARED_LOCK.
Proof.
  intros Ht Hne H2 O2. destruct (io_level _ _ _ Hinfo _ _ H2 O2) as [|E]; [done|].
  destruct (decide (f_locktype f2 <= SHARED_LOCK)) as [|Hgt]; [done|].
  destruct Hne. symmetry.
  apply (io_one _ _ _ Hinfo id id2 f f2); auto using lk_on; lia.
Qed.

(** Alone with count one, the others have none. *)
Lemma lk_others_none id2 f2 :
  li_cnt x <= 1 -> f_locktype f <> NO_LOCK -> id2 <> id -> files m !! id2 = Some f2 ->
  on_lock l f2 = true -> f_locktype f2 = NO_LOCK.
Proof.
  intros H1 Ht Hne H2 O2. destruct (decide (f_locktype f2 = NO_LOCK)) as [|E]; [done|].
  assert (2 <= li_cnt x); [|lia]. rewrite (io_cnt _ _ _ Hinfo).
  eapply (countf_two _ _ id id2); try done.
  - rewrite lk_on. by apply locked_spec.
  - rewrite O2. by apply locked_spec.
Qed.

(** The new level of this handle, with what backs it in the kernel. *)
Lemma lock_level_inv t c lt n v' :
  v_fd v' = v_fd v ->
  level_ok m id l t c lt ->
  c = li_cnt x - lockb (f_locktype f) + lockb t ->
  n = oc_nLock oc - lockb (f_locktype f) + lockb t ->
  n <> 0 ->
  claim v' i t ->
  (forall id2 j t2, id2 <> id -> handle m id2 j t2 -> claim v' j t2) ->
  Inv (put3 id (with_locktype t f) l (mkLockInfo (li_key x) c lt (li_nRef x)) o
         (mkOpenCnt (oc_key oc) (oc_nRef oc) n (oc_aPending oc)) m) v'.
Proof.
  intros Hv HL Hc Hn Hn0 Hself Hoth. apply Inv_intro.
  - rewrite Hv. eapply Str_upd; eauto. lia.
  - intros id2 j t2 Hh. unfold own_level.
    eapply (upd_handle m (v_fd v) id f l o x oc HF t c lt n) in Hh;
      [|done|done|done|by left|lia].
    destruct Hh as [(-> & -> & ->)|[Hne Hh]]; [by rewrite lk_inode | eauto].
Qed.

(** All handles of the inode are unlocked. *)
Lemma lk_all_none : li_cnt x = 0 -> forall id2 t2, handle m id2 i t2 -> own_level id2 t2 <= NO_LOCK.
Proof.
  intros H0 id2 t2 (f2 & H2 & O2 & <-)%lk_handle. unfold own_level.
  rewrite (lk_cnt_zero _ _ H0 H2 O2). lia.
Qed.

Lemma lk_cnt_none : li_locktype x = NO_LOCK -> li_cnt x = 0.
Proof. apply (io_none _ _ _ Hinfo). Qed.

(** Another handle of this process has a lock that this one can share. *)
Lemma lk_shared_claim : 0 < li_cnt x -> claim v i SHARED_LOCK.
Proof.
  intros Hc. rewrite (io_cnt _ _ _ Hinfo) in Hc. apply countf_some in Hc as (id2 & f2 & H2 & P2).
  apply andb_true_iff in P2 as [O2 L2]. apply locked_spec in L2.
  apply on_lock_spec in O2 as [Op2 Lk2].
  destruct (st_file _ _ HS _ _ H2 Op2) as (l2 & o2 & x2 & oc2 & F2).
  apply (claim_le _ _ _ (f_locktype f2)); [done | pose proof (fo_level _ _ _ _ _ _ _ F2); lconst; lia |].
  apply (proj1 HC id2 i (f_locktype f2)). exists f2, l, x. repeat split; try done. apply lk_inode.
Qed.

Lemma lk_other_claim id2 j t2 : id2 <> id -> handle m id2 j t2 -> claim v j t2.
Proof. intros _ Hh. apply (proj1 HC _ _ _ Hh). Qed.

(** Joining a SHARED or RESERVED lock of the process. *)
Lemma share_inv :
  f_locktype f = NO_LOCK -> 0 < li_cnt x ->
  li_locktype x = SHARED_LOCK \/ li_locktype x = RESERVED_LOCK ->
  Inv (put3 id (with_locktype SHARED_LOCK f) l
         (mkLockInfo (li_key x) (li_cnt x + 1) (li_locktype x) (li_nRef x)) o
         (mkOpenCnt (oc_key oc) (oc_nRef oc) (oc_nLock oc + 1) (oc_aPending oc)) m) v.
Proof.
  intros Hno Hc Hlt. pose proof (nLock_cnt _ _ HS _ _ _ _ _ HF) as En.
  apply lock_level_inv; try (rewrite Hno; unfold lockb; simpl; lconst; lia); try done; try lia.
  - constructor; try (lconst; lia).
    + intros id2 f2 Hne H2 O2. destruct (io_level _ _ _ Hinfo _ _ H2 O2); auto.
      right. split; [done | lconst; lia].
    + intros Hgt. right. destruct (io_some _ _ _ Hinfo Hgt) as (id2 & f2 & H2 & O2 & T2).
      exists id2, f2. repeat split; try done. intros ->. assert (f2 = f) by congruence. subst. lconst; lia.
  - by apply lk_shared_claim.
  - apply lk_other_claim.
Qed.

(** The first SHARED lock of the process. *)
Lemma first_shared_inv v' :
  v_fd v' = v_fd v -> li_cnt x = 0 -> f_locktype f = NO_LOCK ->
  claim v' i SHARED_LOCK ->
  (forall id2 j t2, j <> i -> handle m id2 j t2 -> claim v' j t2) ->
  Inv (put3 id (with_locktype SHARED_LOCK f) l
         (mkLockInfo (li_key x) 1 SHARED_LOCK (li_nRef x)) o
         (mkOpenCnt (oc_key oc) (oc_nRef oc) (oc_nLock oc + 1) (oc_aPending oc)) m) v'.
Proof.
  intros Hv Hc Hno Hcl Hoth. pose proof (nLock_cnt _ _ HS _ _ _ _ _ HF) as En.
  apply lock_level_inv; try (rewrite Hno; unfold lockb; simpl; lconst; lia); try done; try lia.
  - constructor; try (lconst; lia).
    + intros id2 f2 Hne H2 O2. rewrite (lk_cnt_zero _ _ Hc H2 O2). left. lconst; lia.
  - intros id2 j t2 Hne Hh. destruct (decide (j = i)) as [->|Hj]; [|eauto].
    apply claim_none. apply lk_handle in Hh as (f2 & H2 & O2 & <-).
    rewrite (lk_cnt_zero _ _ Hc H2 O2). done.
Qed.

(** Raising the only handle above SHARED. *)
Lemma raise_inv t v' :
  v_fd v' = v_fd v -> SHARED_LOCK < t <= EXCLUSIVE_LOCK -> f_locktype f <> NO_LOCK ->
  f_locktype f = li_locktype x -> (t = EXCLUSIVE_LOCK -> li_cnt x <= 1) ->
  claim v' i t -> (forall id2 j t2, id2 <> id -> handle m id2 j t2 -> claim v' j t2) ->
  Inv (put3 id (with_locktype t f) l
         (mkLockInfo (li_key x) (li_cnt x) t (li_nRef x)) o
         (mkOpenCnt (oc_key oc) (oc_nRef oc) (oc_nLock oc) (oc_aPending oc)) m) v'.
Proof.
  intros Hv Ht Hno Heq H1 Hcl Hoth. pose proof (nLock_cnt _ _ HS _ _ _ _ _ HF) as En.
  pose proof (lk_cnt_pos Hno) as Hpos.
  assert (lockb (f_locktype f) = 1) as L1.
  { unfold lockb. rewrite (proj2 (Z.eqb_neq _ _) Hno). done. }
  assert (lockb t = 1) as L2.
  { unfold lockb. rewrite (proj2 (Z.eqb_neq t NO_LOCK)); [done | lconst; lia]. }
  apply lock_level_inv; try done; try lia.
  constructor; try (lconst; lia).
  intros id2 f2 Hne H2 O2. left. by eapply lk_others_low.
Qed.

Lemma outcome_put3 t t' rc x' oc' v' :
  Inv (put3 id (with_locktype t' f) l x' o oc' m) v' -> li_key x' = li_key x ->
  lock_code f t rc t' ->
  lock_outcome id t m f rc (put3 id (with_locktype t' f) l x' o oc' m) v'.
Proof.
  intros HI Hk Hrc. split; [done|]. split; [by eapply keys_kept_put|]. exists t'. done.
Qed.
End lock.

(** Reading a piece of a decided condition. *)
Ltac bsplit :=
  repeat match goal with
  | H : _ && _ = true |- _ => apply andb_true_iff in H as [? ?]
  | H : _ || _ = false |- _ => apply orb_false_iff in H as [? ?]
  | H : negb _ = true |- _ => apply negb_true_iff in H
  | H : negb _ = false |- _ => apply negb_false_iff in H
  end.

Section request.
Context `{Hsure : Sure}.
Context (m : pmem) (v : view) (id : Z) (f : unixFile) (l o : nat) (x : lockInfo) (oc : openCnt).
Context (HS : Str m (v_fd v)) (HC : Claims own_level m v).
Context (Hf : files m !! id = Some f) (Hopen : is_open f = true)
        (HF : file_ok m (v_fd v) f l o x oc).
Local Notation i := (okey_inode (oc_key oc)).

Let Hlock : lockInfos m !! l = Some x := fo_info _ _ _ _ _ _ _ HF.
Let Hcnt : openCnts m !! o = Some oc := fo_cnt _ _ _ _ _ _ _ HF.
Let Hfd : v_fd v (f_h f) = Some i := fo_fd _ _ _ _ _ _ _ HF.

Lemma lock_shared_wp v0 t0 :
  (* a read-lock on the pending byte was granted *)
  v = set_lock i (mkFlock F_RDLCK PENDING_BYTE 1) v0 ->
  Claims own_level m v0 -> li_cnt x = 0 -> li_locktype x = NO_LOCK -> f_locktype f = NO_LOCK ->
  t0 = SHARED_LOCK ->
  wp (At own_level)
    ((rc ← lock_shared id l o;
      if rc =? SQLITE_IOERR_UNLOCK then mret rc else lock_record id t0 l rc) m) v
    (lock_outcome id t0 m f).
Proof.
  intros Hv0 HC0 Hc Hlt Hno ->.
  assert (forall k w, Claims own_level m w -> Claims own_level m (set_lock i k w)) as Hnone.
  { intros. apply Claims_none; [done|]. by eapply lk_all_none. }
  assert (forall w, v_fd w = v_fd v -> Claims own_level m w ->
    lock_outcome id SHARED_LOCK m f SQLITE_IOERR_UNLOCK m w) as Hio.
  { intros w Hw HCw. apply (outcome_same _ _ _ _ f); [|done | auto]. split; [by rewrite Hw | done]. }
  unfold lock_shared. apply wp_bind. wsteps.
  apply wp_assert; [by rewrite Hc|]. wsteps. apply wp_assert; [by rewrite Hlt|]. wsteps.
  eapply wp_setlk; [done | exact Hfd | |].
  - intros e. cbv beta iota. wsteps.
    eapply wp_setlk; [by apply Hnone | exact Hfd | | intros _ e'; simpl; wsteps; by apply Hio, Hnone].
    intros e'. cbv beta iota. simpl. wsteps. unfold lock_record, store_locktype. simpl. wsteps.
    wmem.
    match goal with |- lock_outcome _ _ _ _ _ ?m1 ?v1 =>
      assert (Inv m1 v1) as HI end.
    { eapply (first_shared_inv m v id f l o x oc); try done.
      - constructor; try (lconst; lia). intros b _ Hb.
        by rewrite set_lock_eq, covers_low, set_lock_eq, covers_shared.
      - intros id2 j t2 Hj Hh. apply claim_other; [done|]. apply claim_other; [done|].
        apply (proj1 HC _ _ _ Hh). }
    split; [exact HI|]. split; [by eapply keys_kept_put|]. exists SHARED_LOCK. split; [done|]. left. rewrite Hno. done.
  - intros _ e. cbv beta iota. wsteps.
    eapply wp_setlk; [done | exact Hfd | | intros _ e'; simpl; wsteps; by apply Hio].
    intros e'. cbv beta iota. simpl. wsteps.
    assert (forall rc, rc = SQLITE_NOLFS \/ rc = SQLITE_BUSY ->
      wp (At own_level)
        ((if rc =? SQLITE_IOERR_UNLOCK then mret rc else lock_record id SHARED_LOCK l rc) m)
        (set_lock i (mkFlock F_UNLCK PENDING_BYTE 1) v) (lock_outcome id SHARED_LOCK m f)) as Hrec.
    { intros rc Hrc.
      assert (lock_outcome id SHARED_LOCK m f rc m (set_lock i (mkFlock F_UNLCK PENDING_BYTE 1) v)).
      { apply (outcome_same _ _ _ _ f); [|done | destruct Hrc; auto].
        split; [done | by apply Hnone]. }
      unfold lock_record. destruct Hrc as [-> | ->]; simpl; wsteps; done. }
    apply Hrec. destruct (e =? EINVAL); auto.
Qed.

(** The end of an EXCLUSIVE request that got the pending byte only. *)
Lemma record_pending_wp v' rc :
  v_fd v' = v_fd v -> Claims own_level m v' -> f_locktype f <> NO_LOCK ->
  f_locktype f = li_locktype x -> f_locktype f <= PENDING_LOCK ->
  v_lock v' i PENDING_BYTE = Some F_WRLCK ->
  rc = SQLITE_BUSY \/ rc = SQLITE_NOLFS ->
  wp (At own_level) (lock_record id EXCLUSIVE_LOCK l rc m) v'
    (lock_outcome id EXCLUSIVE_LOCK m f).
Proof.
  intros Hv HC' Hno Heq Hle Hpend Hrc.
  assert (file_ok m (v_fd v') f l o x oc) as HF' by (by rewrite Hv).
  pose proof (lk_level_range m v f l o x oc HF) as Hr. unfold lock_record, store_locktype.
  assert (lock_outcome id EXCLUSIVE_LOCK m f rc
    (put3 id (with_locktype PENDING_LOCK f) l (mkLockInfo (li_key x) (li_cnt x) PENDING_LOCK (li_nRef x)) o oc m) v') as HI.
  { split; [|split; [by eapply keys_kept_put|]; exists PENDING_LOCK; split; [done|]; right; left; auto].
    assert (oc = mkOpenCnt (oc_key oc) (oc_nRef oc) (oc_nLock oc) (oc_aPending oc)) as Eoc by by destruct oc.
    rewrite Eoc at 1. eapply (raise_inv m v id f l o x oc); try done.
    - constructor; try (lconst; lia); [|done]. intros b _ Hb.
      apply (cl_shared _ _ _ (lk_self_claim m v' id f l o x oc HC' Hf Hopen HF')); [lconst; lia | done].
    - intros id2 j t2 _ Hh. apply (proj1 HC' _ _ _ Hh). }
  assert (put3 id (with_locktype PENDING_LOCK f) l (mkLockInfo (li_key x) (li_cnt x) PENDING_LOCK (li_nRef x)) o oc m
    = mkPmem (<[id := with_locktype PENDING_LOCK f]> (files m)) (<[l := with_ltype PENDING_LOCK x]> (lockInfos m))
        (openCnts m) (lockHash m) (openHash m) (threadsOverrideEachOthersLocks m)) as E.
  { unfold put3. by rewrite (insert_id (openCnts m)). }
  rewrite E in HI. destruct Hrc as [-> | ->]; simpl; wsteps; wmem; exact HI.
Qed.

(** The end of a RESERVED or EXCLUSIVE request. *)
Lemma lock_write_wp t v' :
  v_fd v' = v_fd v -> Claims own_level m v' -> f_locktype f <> NO_LOCK ->
  f_locktype f = li_locktype x -> f_locktype f < t ->
  (t = RESERVED_LOCK \/
   (t = EXCLUSIVE_LOCK /\ li_cnt x <= 1 /\ v_lock v' i PENDING_BYTE = Some F_WRLCK)) ->
  wp (At own_level) ((rc ← lock_write id t; lock_record id t l rc) m) v'
    (lock_outcome id t m f).
Proof.
  intros Hv HC' Hno Heq Hlt Ht.
  assert (file_ok m (v_fd v') f l o x oc) as HF' by (by rewrite Hv).
  pose proof (lk_level_range m v f l o x oc HF) as Hr.
  unfold lock_write. apply wp_bind. wsteps.
  apply wp_assert. { rewrite Z.eqb_sym. apply negb_true_iff, Z.eqb_neq, Hno. }
  wsteps. apply wp_assert. { destruct Ht as [-> | (-> & _)]; done. }
  wsteps.
  assert (forall w, v_fd w = v_fd v -> Claims own_level m w -> claim w i t ->
    wp (At own_level) (lock_record id t l SQLITE_OK m) w (lock_outcome id t m f)) as Hgot.
  { intros w Hw HCw Hcl. unfold lock_record, store_locktype. simpl. wsteps. wmem.
    assert (oc = mkOpenCnt (oc_key oc) (oc_nRef oc) (oc_nLock oc) (oc_aPending oc)) as Eoc by by destruct oc.
    split; [|split; [by eapply keys_kept_put|]; exists t; split; [done|]; left; split; [done|]; lia].
    replace (openCnts m) with (<[o := oc]> (openCnts m)) by (by apply insert_id).
    rewrite Eoc at 1. eapply (raise_inv m v id f l o x oc); try done.
    - lconst. destruct Ht as [-> | (-> & _)]; lia.
    - intros ->. destruct Ht as [Hx | (_ & ? & _)]; [done|lia].
    - intros id2 j t2 _ Hh. apply (proj1 HCw _ _ _ Hh). }
  assert (v_fd v' (f_h f) = Some i) as Hfd' by by rewrite Hv.
  destruct Ht as [-> | (-> & Hc1 & Hpend)]; simpl.
  - eapply wp_setlk; [done | exact Hfd' | |]; cbv beta iota.
    + intros e. wsteps. simpl. apply Hgot; [done | by apply Claims_wr |].
      pose proof (lk_self_claim m v' id f l o x oc HC' Hf Hopen HF') as Hs.
      constructor; try (lconst; lia).
      * intros b _ Hb. rewrite set_lock_eq. destruct (covers _ b); [done|].
        apply (cl_shared _ _ _ Hs); [lconst; lia | done].
      * intros _. by rewrite set_lock_eq.
    + intros _ e. wsteps.
      assert (lock_outcome id RESERVED_LOCK m f SQLITE_BUSY m v' /\
              lock_outcome id RESERVED_LOCK m f SQLITE_NOLFS m v') as [H1 H2].
      { split; (apply (outcome_same _ _ _ _ f); [|done|auto]); (split; [by rewrite Hv | done]). }
      unfold lock_record. destruct (e =? EINVAL); simpl; wsteps; done.
  - eapply wp_setlk; [done | exact Hfd' | |]; cbv beta iota.
    + intros e. wsteps. simpl. apply Hgot; [done | by apply Claims_wr |].
      constructor; try (lconst; lia); intros; rewrite set_lock_eq.
      * by rewrite covers_shared.
      * by destruct (covers _ _).
      * by rewrite covers_shared.
    + intros _ e. wsteps. apply record_pending_wp; try done; [lconst; lia|].
      destruct (e =? EINVAL); auto.
Qed.
End request.

(** The calls of [unixLock] that its users may make. *)
Definition lock_request (f : unixFile) (t : Z) : Prop :=
  t = SHARED_LOCK \/ ((t = RESERVED_LOCK \/ t = EXCLUSIVE_LOCK) /\ f_locktype f <> NO_LOCK).

Lemma unixLock_wp `{Hsure : Sure} self id t m v f :
  Inv m v -> files m !! id = Some f -> is_open f = true -> lock_request f t ->
  wp (At own_level) (unixLock self id t m) v (lock_outcome id t m f).
Proof.
  intros [HS HC] Hf Hopen Hreq.
  destruct (st_file _ _ HS _ _ Hf Hopen) as (l & o & x & oc & HF).
  pose proof (fo_info _ _ _ _ _ _ _ HF) as Hlock. pose proof (fo_cnt _ _ _ _ _ _ _ HF) as Hcnt.
  pose proof (fo_lock _ _ _ _ _ _ _ HF) as HlP. pose proof (fo_open _ _ _ _ _ _ _ HF) as HoP.
  pose proof (fo_fd _ _ _ _ _ _ _ HF) as Hfd. pose proof (fo_level _ _ _ _ _ _ _ HF) as Hr.
  pose proof (st_info _ _ HS _ _ Hlock) as Hinfo. pose proof (io_range _ _ _ Hinfo) as Hlr.
  pose proof (io_none _ _ _ Hinfo) as Hnone.
  assert (0 <= li_cnt x) as Hc0 by (rewrite (io_cnt _ _ _ Hinfo); apply countf_nonneg).
  unfold unixLock. wsteps.
  rewrite Z.geb_leb. destruct (Z.leb_spec t (f_locktype f)) as [Hle|Hlt].
  { wsteps. eapply outcome_same; [by split | done | by left]. }
  assert (f_locktype f = NO_LOCK -> t = SHARED_LOCK) as Hseq.
  { intros E. destruct Hreq as [|[_ ?]]; done. }
  wsteps. apply wp_assert.
  { destruct (Z.eqb_spec (f_locktype f) NO_LOCK) as [E|]; [|done]. by rewrite (Hseq E). }
  wsteps. apply wp_assert. { by destruct Hreq as [->|[[-> | ->] _]]. }
  wsteps. apply wp_assert.
  { destruct Hreq as [->|[[-> | ->] Hne]]; try done. simpl. apply Z.eqb_eq. lconst; lia. }
  wsteps. unfold transferOwnership. wsteps. rewrite (mode_open _ _ HS _ _ Hf Hopen). simpl. wsteps. simpl. wsteps.
  assert (forall rc, rc = SQLITE_BUSY \/ rc = SQLITE_NOLFS -> lock_outcome id t m f rc m v) as Hsame.
  { intros rc Hrc. eapply outcome_same; [by split | done | tauto]. }
  destruct (negb _ && _) eqn:Ebusy; [wsteps; auto|].
  wsteps.
  destruct ((t =? SHARED_LOCK) && _) eqn:Eshare.
  { bsplit. apply Z.eqb_eq in H as ->.
    assert (f_locktype f = NO_LOCK) as Hno by (lconst; lia).
    assert (li_locktype x = SHARED_LOCK \/ li_locktype x = RESERVED_LOCK) as Hlt2.
    { apply orb_true_iff in H0 as [E%Z.eqb_eq|E%Z.eqb_eq]; auto. }
    assert (0 < li_cnt x) as Hpos. { destruct (decide (li_cnt x = 0)) as [E|]; [|lia]. apply Hnone in E. lconst; lia. }
    wsteps. apply wp_assert; [by rewrite Hno|]. wsteps.
    apply wp_assert; [rewrite Z.gtb_ltb; by apply Z.ltb_lt|]. wsteps. wmem.
    eapply (outcome_put3 m v id f l o x oc); [done|by eapply (share_inv m v id f l o x oc)|done|].
    left. rewrite Hno. done. }
  assert (f_locktype f = li_locktype x \/ t = SHARED_LOCK) as Hcase.
  { destruct (Z.eqb_spec (f_locktype f) (li_locktype x)); [by left|]. simpl in Ebusy. bsplit.
    right. destruct Hreq as [|[[-> | ->] _]]; done. }
  destruct (decide (t = SHARED_LOCK)) as [->|Ht].
  { assert (f_locktype f = NO_LOCK) as Hno by (lconst; lia).
    assert (li_locktype x = NO_LOCK) as Hlt0.
    { rewrite Hno in Ebusy. simpl in Eshare. bsplit. apply Z.eqb_neq in H, H0.
      destruct (Z.eqb_spec NO_LOCK (li_locktype x)) as [E|E]; [done|]. simpl in Ebusy. bsplit.
      rewrite Z.geb_leb in H1. apply Z.leb_gt in H1. lconst; lia. }
    apply Hnone in Hlt0 as Hc.
    simpl. wsteps. eapply wp_setlk; [done | exact Hfd | |].
    - intros e. cbv beta iota. simpl.
      eapply (lock_shared_wp m _ id f l o x oc); try done.
      apply Claims_none; [done|]. by apply (lk_all_none m v f l o x oc).
    - intros _ e. cbv beta iota. simpl. wsteps. apply Hsame. destruct (e =? EINVAL); auto. }
  destruct Hcase as [Heq|]; [|done].
  destruct Hreq as [|[Hre Hno]]; [done|].
  rewrite (proj2 (Z.eqb_neq t SHARED_LOCK)) by done. simpl.
  destruct Hre as [-> | ->]; simpl.
  { wsteps. simpl. eapply (lock_write_wp m v id f l o x oc); try done. by left. }
  assert (forall w, v_fd w = v_fd v -> Claims own_level m w -> v_lock w (okey_inode (oc_key oc)) PENDING_BYTE = Some F_WRLCK ->
    wp (At own_level)
      ((if li_cnt x >? 1 then lock_record id EXCLUSIVE_LOCK l SQLITE_BUSY
        else rc ← lock_write id EXCLUSIVE_LOCK; lock_record id EXCLUSIVE_LOCK l rc) m) w
      (lock_outcome id EXCLUSIVE_LOCK m f)) as Hrest.
  { intros w Hw HCw Hpend. rewrite Z.gtb_ltb. destruct (Z.ltb_spec 1 (li_cnt x)).
    - eapply (record_pending_wp m v id f l o x oc); try done; [lconst; lia | by left].
    - eapply (lock_write_wp m v id f l o x oc); try done. right. done. }
  wsteps. destruct (Z.ltb_spec (f_locktype f) PENDING_LOCK).
  - eapply wp_setlk; [done | exact Hfd | |].
    + intros e. cbv beta iota. simpl. apply Hrest; [done | by apply Claims_wr | by rewrite set_lock_eq].
    + intros _ e. cbv beta iota. simpl. wsteps. apply Hsame. destruct (e =? EINVAL); auto.
  - wsteps. simpl. apply Hrest; [done..|].
    apply (cl_pending _ _ _ (lk_self_claim m v id f l o x oc HC Hf Hopen HF)). done.
Qed.

(** ** unixUnlock *)

(** Claims depend on the handles and the keys only. *)
Lemma Claims_keys lvl m m' v :
  files m' = files m ->
  (forall l x, lockInfos m' !! l = Some x ->
     exists x0, lockInfos m !! l = Some x0 /\ li_key x0 = li_key x) ->
  Claims lvl m v -> Claims lvl m' v.
Proof.
  intros Hfs Hls. apply Claims_sub. intros id i t (f & l & x & Hf & Ho & Hl & Hx & Hi & Ht).
  destruct (Hls _ _ Hx) as (x0 & Hx0 & Hk).
  exists f, l, x0. rewrite Hk, <- Hfs. done.
Qed.

Lemma Claims_put_lock lvl m m' v l x x0 :
  files m' = files m -> lockInfos m' = <[l := x]> (lockInfos m) ->
  lockInfos m !! l = Some x0 -> li_key x0 = li_key x ->
  Claims lvl m v -> Claims lvl m' v.
Proof.
  intros Hfs Hls H0 Hk. apply Claims_keys; [done|]. intros l2 x2 H2. rewrite Hls in H2.
  destruct (decide (l2 = l)) as [->|Hne].
  - rewrite lookup_insert_eq in H2. naive_solver.
  - rewrite lookup_insert_ne in H2 by done. eauto.
Qed.

(** Closing a descriptor of an inode without locked handles. *)
Lemma Claims_close lvl m v fd :
  Claims lvl m v ->
  (forall i id t, v_fd v fd = Some i -> handle m id i t -> lvl id t <= NO_LOCK) ->
  Claims lvl m (close_fd fd v).
Proof.
  intros [HC HE] Hno. split; [|done]. intros id i t Hh. pose proof (HC _ _ _ Hh) as [C1 C2 C3 C4].
  destruct (v_fd v fd) as [j|] eqn:Efd.
  - destruct (decide (j = i)) as [->|Hne].
    + apply claim_none. eauto.
    + assert (forall b, v_lock (close_fd fd v) i b = v_lock v i b) as E.
      { intros b. simpl. by rewrite Efd, decide_False. }
      constructor; intros; rewrite E; auto.
  - assert (forall b, v_lock (close_fd fd v) i b = v_lock v i b) as E.
    { intros b. simpl. by rewrite Efd. }
    constructor; intros; rewrite E; auto.
Qed.

Lemma close_fd_other fd v d : d <> fd -> v_fd (close_fd fd v) d = v_fd v d.
Proof. intros. simpl. by rewrite decide_False. Qed.

Lemma close_all_wp `{Hsure : Sure} lvl m v i (fds : list Z) (Q : unit -> pmem -> view -> Prop) :
  Claims lvl m v -> NoDup fds -> (forall fd, fd ∈ fds -> v_fd v fd = Some i) ->
  (forall id t, handle m id i t -> lvl id t <= NO_LOCK) ->
  (forall v', Claims lvl m v' -> (forall fd, fd ∉ fds -> v_fd v' fd = v_fd v fd) -> Q tt m v') ->
  wp (At lvl) (close_all fds m) v Q.
Proof.
  intros HC Hnd Hfds Hno HQ. revert v HC Hfds HQ.
  induction Hnd as [|fd fds Hni Hnd IH]; intros v HC Hfds HQ; cbn [close_all].
  { apply wp_ret. by apply HQ. }
  apply wp_bind, wp_close; [done|]. apply IH.
  - apply Claims_close; [done|]. intros j id t Hj. rewrite (Hfds fd) in Hj by left.
    injection Hj as <-. apply Hno.
  - intros d Hd. rewrite close_fd_other; [apply Hfds; by right|]. by intros ->.
  - intros v' HC' Hv'. apply HQ; [done|]. intros d Hd.
    apply not_elem_of_cons in Hd as [H1 H2]. rewrite Hv' by done. by apply close_fd_other.
Qed.

(** The invariant only asks where the descriptors in use lead. *)
Lemma Str_fds m fds fds' :
  Str m fds ->
  (forall id f, files m !! id = Some f -> is_open f = true -> fds' (f_h f) = fds (f_h f)) ->
  (forall o oc fd, openCnts m !! o = Some oc -> fd ∈ oc_aPending oc -> fds' fd = fds fd) ->
  Str m fds'.
Proof.
  intros [S1 S2 S3 S4 S5 S6 S7] Hf Hp. constructor; try done.
  - intros id f H Ho. destruct (S2 _ _ H Ho) as (l & o & x & oc & [F1 F2 F3 F4 F5 F6 F7 F8]).
    exists l, o, x, oc. constructor; try done. by rewrite (Hf id).
  - intros o oc H. destruct (S4 _ _ H) as [C1 C2 C3 C4 C5 C6 C7 C8].
    constructor; try done. intros fd Hfd. rewrite (Hp _ _ _ H Hfd). by apply C6.
Qed.

Section unlock.
Context `{Hsure : Sure}.
Context (m : pmem) (v : view) (id : Z) (f : unixFile) (l o : nat) (x : lockInfo) (oc : openCnt).
Context (HS : Str m (v_fd v)) (HC : Claims own_level m v).
Context (Hf : files m !! id = Some f) (Hopen : is_open f = true)
        (HF : file_ok m (v_fd v) f l o x oc).
Context (t : Z) (Ht : t = NO_LOCK \/ t = SHARED_LOCK) (Hgt : t < f_locktype f).
Local Notation i := (okey_inode (oc_key oc)).

Let Hlock : lockInfos m !! l = Some x := fo_info _ _ _ _ _ _ _ HF.
Let Hcnt : openCnts m !! o = Some oc := fo_cnt _ _ _ _ _ _ _ HF.
Let Hfd : v_fd v (f_h f) = Some i := fo_fd _ _ _ _ _ _ _ HF.
Let Hinfo : info_ok m l x := st_info _ _ HS _ _ Hlock.

Lemma un_pos : 0 < li_cnt x.
Proof. eapply (lk_cnt_pos m v id f l o x oc); try done. destruct Ht as [-> | ->]; lconst; lia. Qed.

(** A handle above SHARED has the level of the record. *)
Lemma un_top : SHARED_LOCK < f_locktype f -> f_locktype f = li_locktype x.
Proof.
  intros Hhi. pose proof (lk_on m v f l o x oc Hopen HF) as Hon.
  destruct (io_level _ _ _ Hinfo _ _ Hf Hon); [lia | done].
Qed.

(** While a handle above SHARED goes down, every handle counts as low. *)
Lemma un_low : SHARED_LOCK < f_locktype f ->
  forall id2 t2, handle m id2 i t2 -> lowered id t id2 t2 <= SHARED_LOCK.
Proof.
  intros Hhi id2 t2 Hh. apply (lk_handle m v f l o x oc HS HF) in Hh as (f2 & H2 & O2 & <-).
  unfold lowered. destruct (Z.eqb_spec id2 id) as [->|Hne].
  - destruct Ht as [-> | ->]; lconst; lia.
  - eapply (lk_others_low m v id f l o x oc); try done. by apply un_top.
Qed.

Lemma unlock_high_wp (Q : Z -> pmem -> view -> Prop) :
  SHARED_LOCK < f_locktype f ->
  (forall rc v', v_fd v' = v_fd v -> Claims (lowered id t) m v' ->
     rc = SQLITE_OK \/ (sure = false /\ t = SHARED_LOCK /\ rc = SQLITE_IOERR_RDLOCK) ->
     Q rc (set_lockInfos (<[l := with_ltype SHARED_LOCK x]> (lockInfos m)) m) v') ->
  (forall v', v_fd v' = v_fd v -> Claims (lowered id t) m v' -> sure = false ->
     Q SQLITE_IOERR_UNLOCK m v') ->
  wp (At (lowered id t)) (unlock_high (f_h f) t l m) v Q.
Proof.
  intros Hhi HQ HQno. unfold unlock_high.
  assert (Claims (lowered id t) m v) as HC0.
  { apply Claims_lowered; [destruct Ht as [-> | ->]; lconst; lia | done]. }
  pose proof (un_low Hhi) as Hlow.
  assert (forall rc w, v_fd w = v_fd v -> Claims (lowered id t) m w ->
    rc = SQLITE_OK \/ (sure = false /\ t = SHARED_LOCK /\ rc = SQLITE_IOERR_RDLOCK) ->
    wp (At (lowered id t))
      (('(s, _) ← fcntl_setlk (f_h f) F_UNLCK PENDING_BYTE 2;
        if negb (s =? -1) then
          pLock ← get_lock l; put_lock l (with_ltype SHARED_LOCK pLock);; mret rc
        else mret SQLITE_IOERR_UNLOCK) m) w Q) as Hrest.
  { intros rc w Hw HCw Hrc. wsteps. eapply wp_setlk; [done | by rewrite Hw | |].
    - intros e. cbv beta iota. simpl. wsteps. apply HQ; [done | | done].
      apply Claims_low; [done | done |]. right. intros b Hb. by apply covers_low.
    - intros Hs e. cbv beta iota. simpl. wsteps. by apply HQno. }
  apply wp_bind. destruct (Z.eqb_spec t SHARED_LOCK) as [E|E].
  - apply wp_bind. eapply wp_setlk; [done | exact Hfd | |].
    + intros e. cbv beta iota. apply wp_ret, Hrest; [done| |by left].
      apply Claims_low; [done|done|]. by left.
    + intros Hs e. cbv beta iota. apply wp_ret, Hrest; [done|done|by right].
  - apply wp_ret, Hrest; [done..|by left].
Qed.

Definition un_info (x1 : lockInfo) : lockInfo :=
  mkLockInfo (li_key x1) (li_cnt x1 - 1)
    (if li_cnt x1 - 1 =? 0 then NO_LOCK else li_locktype x1) (li_nRef x1).
Definition un_cnt : openCnt :=
  mkOpenCnt (oc_key oc) (oc_nRef oc) (oc_nLock oc - 1)
    (if oc_nLock oc - 1 =? 0 then [] else oc_aPending oc).

Lemma un_all_none : t = NO_LOCK -> li_cnt x - 1 = 0 ->
  forall id2 t2, handle m id2 i t2 -> lowered id t id2 t2 <= NO_LOCK.
Proof.
  intros E H1 id2 t2 Hh. apply (lk_handle m v f l o x oc HS HF) in Hh as (f2 & H2 & O2 & <-).
  unfold lowered. destruct (Z.eqb_spec id2 id) as [->|Hne].
  - rewrite E. lconst; lia.
  - rewrite (lk_others_none m v id f l o x oc HS Hf Hopen HF id2 f2); try done; lconst; lia.
Qed.

(** The count of the record is 1 less, then its descriptors may be closed;
    [rc0] is the code so far. *)
Lemma unlock_none_wp x1 v1 rc0 (Q : Z -> pmem -> view -> Prop) :
  t = NO_LOCK -> li_key x1 = li_key x -> li_cnt x1 = li_cnt x ->
  v_fd v1 = v_fd v -> Claims (lowered id t) m v1 ->
  (rc0 = SQLITE_OK -> forall v',
     (forall fd, fd ∉ oc_aPending oc \/ oc_nLock oc - 1 <> 0 -> v_fd v' fd = v_fd v fd) ->
     Claims (lowered id t) m v' ->
     Q SQLITE_OK (mkPmem (files m) (<[l := un_info x1]> (lockInfos m)) (<[o := un_cnt]> (openCnts m))
                    (lockHash m) (openHash m) (threadsOverrideEachOthersLocks m)) v') ->
  (rc0 <> SQLITE_OK -> forall v', Claims (lowered id t) m v' ->
     Q rc0 (set_lockInfos (<[l := un_info x1]> (lockInfos m)) m) v') ->
  (sure = false -> li_cnt x = 1 -> forall v', Claims (lowered id t) m v' ->
     Q SQLITE_IOERR_UNLOCK (set_lockInfos (<[l := with_cnt 1 x1]> (lockInfos m)) m) v') ->
  wp (At (lowered id t))
    (unlock_none (f_h f) l o rc0 (set_lockInfos (<[l := x1]> (lockInfos m)) m)) v1 Q.
Proof.
  intros E Hk Hc Hv1 HC1 HQ HQio HQno.
  pose proof (nLock_cnt _ _ HS _ _ _ _ _ HF) as En. pose proof un_pos as Hpos.
  pose proof (st_cnt _ _ HS _ _ Hcnt) as Co.
  set (m2 := mkPmem (files m) (<[l := un_info x1]> (lockInfos m)) (openCnts m)
               (lockHash m) (openHash m) (threadsOverrideEachOthersLocks m)).
  assert (forall y w, li_key y = li_key x -> Claims (lowered id t) m w ->
            Claims (lowered id t) (set_lockInfos (<[l := y]> (lockInfos m)) m) w) as Hput.
  { intros y w Hy. apply (Claims_put_lock _ _ _ _ l y x); done. }
  assert (forall w, v_fd w = v_fd v -> Claims (lowered id t) m w ->
    wp (At (lowered id t))
      (((if rc0 =? SQLITE_OK then
           oc ← get_open o;
           let oc := with_nLock (oc_nLock oc - 1) oc in
           put_open o oc;;
           os_assert (oc_nLock oc >=? 0);;
           if (oc_nLock oc =? 0) && (zlen (oc_aPending oc) >? 0) then
             close_all (oc_aPending oc);;
             put_open o (with_pending [] oc)
           else mret tt
         else mret tt);; mret rc0) m2) w Q) as Hrest.
  { intros w Hw HCw. destruct (Z.eqb_spec rc0 SQLITE_OK) as [->|Hrc0].
    2:{ wsteps. by apply HQio. }
    specialize (HQ eq_refl). simpl. wsteps. apply wp_assert.
    { simpl. rewrite Z.geb_leb. apply Z.leb_le. lia. }
    destruct (_ && _) eqn:Eb; simpl in Eb.
    - apply andb_true_iff in Eb as [E0%Z.eqb_eq E1].
      wsteps. wmem. simpl.
      apply (close_all_wp _ _ _ i).
      + by apply (Hput (un_info x1)).
      + apply (co_nodup _ _ _ _ Co).
      + intros fd Hfd2. rewrite Hw. by apply (co_fds _ _ _ _ Co).
      + intros id2 t2 Hh. apply un_all_none; [done|lia|].
        destruct Hh as (f2 & l2 & x2 & H2 & O2 & L2 & X2 & K2 & T2). simpl in X2.
        exists f2, l2. destruct (decide (l2 = l)) as [->|Hne].
        * rewrite lookup_insert_eq in X2. injection X2 as <-. exists x. repeat split; try done.
          rewrite <- K2. simpl. by rewrite Hk.
        * rewrite lookup_insert_ne in X2 by done. by exists x2.
      + intros v' HCv Hfds. wsteps. wmem.
        replace (with_pending [] (with_nLock (oc_nLock oc - 1) oc)) with un_cnt
          by (unfold un_cnt; by rewrite E0).
        apply HQ.
        * intros fd [Hni|?]; [|done]. rewrite Hfds, Hw; done.
        * revert HCv. apply Claims_keys; [done|]. simpl. intros l2 x2 H2.
          destruct (decide (l2 = l)) as [->|Hne].
          -- exists (un_info x1). rewrite lookup_insert_eq. split; [done|]. simpl. congruence.
          -- exists x2. by rewrite lookup_insert_ne.
    - wsteps. wmem.
      replace (with_nLock (oc_nLock oc - 1) oc) with un_cnt.
      + apply HQ; [intros; by rewrite Hw | done].
      + unfold un_cnt, with_nLock. f_equal. destruct (oc_nLock oc - 1 =? 0); [|done].
        simpl in Eb. rewrite Z.gtb_ltb in Eb. apply Z.ltb_ge in Eb.
        destruct (oc_aPending oc); [done|]. size. }
  unfold unlock_none. do 7 wstep. cbn [li_cnt with_cnt].
  destruct (Z.eqb_spec (li_cnt x1 - 1) 0) as [E1|E1].
  - apply wp_bind. eapply wp_setlk; [ | by rewrite Hv1 | |].
    + wmem. by apply (Hput (with_cnt (li_cnt x1 - 1) x1)).
    + intros e. cbv beta iota. simpl. wstep. wstep. wstep. wmem.
      replace (with_ltype NO_LOCK (with_cnt (li_cnt x1 - 1) x1)) with (un_info x1)
        by (unfold un_info; by rewrite E1).
      apply Hrest; [done|]. apply Claims_none; [done|]. apply un_all_none; [done|lia].
    + intros Hs e. cbv beta iota. simpl. wsteps. wmem. apply HQno; [done|lia|done].
  - wstep. wmem.
    replace (with_cnt (li_cnt x1 - 1) x1) with (un_info x1)
      by (unfold un_info, with_cnt; by rewrite (proj2 (Z.eqb_neq _ _) E1)).
    by apply Hrest.
Qed.

(** The record while the handle goes down: SHARED if it was above. *)
Definition un_mid : lockInfo :=
  if f_locktype f >? SHARED_LOCK then with_ltype SHARED_LOCK x else x.

Lemma un_mid_key : li_key un_mid = li_key x.
Proof. unfold un_mid. by destruct (_ >? _). Qed.
Lemma un_mid_cnt : li_cnt un_mid = li_cnt x.
Proof. unfold un_mid. by destruct (_ >? _). Qed.
Lemma un_mid_ref : li_nRef un_mid = li_nRef x.
Proof. unfold un_mid. by destruct (_ >? _). Qed.

Lemma un_mid_level : NO_LOCK < li_locktype un_mid <= li_locktype x.
Proof.
  pose proof un_pos as Hpos. pose proof (io_none _ _ _ Hinfo). pose proof (io_range _ _ _ Hinfo).
  pose proof (lk_level_range m v f l o x oc HF).
  unfold un_mid. rewrite Z.gtb_ltb. destruct (Z.ltb_spec SHARED_LOCK (f_locktype f)) as [Hhi|]; simpl.
  - pose proof (un_top Hhi). lconst; lia.
  - lconst; lia.
Qed.

(** The levels of the inode after the call. *)
Lemma un_level_ok c lt :
  c = li_cnt x - lockb (f_locktype f) + lockb t ->
  lt = (if c =? 0 then NO_LOCK else li_locktype un_mid) ->
  level_ok m id l t c lt.
Proof.
  intros Hc ->. pose proof un_pos as Hpos. pose proof un_mid_level as Hm.
  pose proof (io_range _ _ _ Hinfo). pose proof (lk_level_range m v f l o x oc HF).
  pose proof (lk_on m v f l o x oc Hopen HF) as Hon.
  assert (lockb (f_locktype f) = 1) as L1.
  { unfold lockb. rewrite (proj2 (Z.eqb_neq _ _)); [done|]. destruct Ht as [-> | ->]; lconst; lia. }
  assert (li_locktype un_mid = EXCLUSIVE_LOCK -> c = 0) as Hex.
  { unfold un_mid. rewrite Z.gtb_ltb.
    destruct (Z.ltb_spec SHARED_LOCK (f_locktype f)) as [Hhi|Hlo]; simpl; [done|].
    intros E. pose proof (io_excl _ _ _ Hinfo E). destruct Ht as [-> | ->]; [|lconst; lia].
    rewrite L1 in Hc. unfold lockb in Hc. simpl in Hc. lia. }
  constructor.
  - destruct Ht as [-> | ->]; lconst; lia.
  - destruct (c =? 0); lconst; lia.
  - destruct (Z.eqb_spec c 0); split; try done. lia.
  - destruct (Z.eqb_spec c 0); [done|]. intros E. by apply Hex in E.
  - left. destruct Ht as [-> | ->]; done.
  - intros id2 f2 Hne H2 O2. destruct (decide (f_locktype f2 <= SHARED_LOCK)) as [|Hf2]; [by left|].
    right. split; [|destruct Ht as [-> | ->]; done].
    assert (f_locktype f2 = li_locktype x) as E2 by (destruct (io_level _ _ _ Hinfo _ _ H2 O2); lia).
    assert (~ SHARED_LOCK < f_locktype f) as Hlo.
    { intros Hhi. pose proof (un_top Hhi). destruct Hne. symmetry.
      eapply (io_one _ _ _ Hinfo); eauto. lia. }
    assert (c <> 0) as Hc0.
    { assert (2 <= li_cnt x); [|destruct Ht as [-> | ->]; unfold lockb in *; simpl in *; lia].
      rewrite (io_cnt _ _ _ Hinfo). eapply (countf_two _ _ id id2); try done.
      - rewrite Hon. apply locked_spec. destruct Ht as [-> | ->]; lconst; lia.
      - rewrite O2. apply locked_spec. lconst; lia. }
    rewrite (proj2 (Z.eqb_neq _ _) Hc0). unfold un_mid. rewrite Z.gtb_ltb.
    by rewrite (proj2 (Z.ltb_ge _ _)) by lia.
  - intros Hgt1. right. destruct (Z.eqb_spec c 0); [done|].
    unfold un_mid in *. rewrite Z.gtb_ltb in *.
    destruct (Z.ltb_spec SHARED_LOCK (f_locktype f)) as [Hhi|Hlo]; simpl in *; [done|].
    destruct (io_some _ _ _ Hinfo Hgt1) as (id2 & f2 & H2 & O2 & T2).
    exists id2, f2. repeat split; try done. intros ->. assert (f2 = f) by congruence. subst. lconst; lia.
Qed.

(** The memory at the end satisfies the invariant. *)
Lemma un_inv c lt n pend v' :
  c = li_cnt x - lockb (f_locktype f) + lockb t ->
  n = oc_nLock oc - lockb (f_locktype f) + lockb t ->
  lt = (if c =? 0 then NO_LOCK else li_locktype un_mid) ->
  (pend = if n =? 0 then [] else oc_aPending oc) ->
  (forall fd, fd ∉ oc_aPending oc \/ n <> 0 -> v_fd v' fd = v_fd v fd) ->
  Claims (lowered id t) m v' ->
  Inv (put3 id (with_locktype t f) l (mkLockInfo (li_key x) c lt (li_nRef x)) o
         (mkOpenCnt (oc_key oc) (oc_nRef oc) n pend) m) v'.
Proof.
  intros Hc Hn Hlt Hp Hfds HCl.
  pose proof (nLock_cnt _ _ HS _ _ _ _ _ HF) as En.
  pose proof (st_cnt _ _ HS _ _ Hcnt) as Co.
  assert (level_ok m id l t c lt) as HL by by apply un_level_ok.
  assert (pend = oc_aPending oc \/ pend = []) as Hp1 by (rewrite Hp; destruct (n =? 0); auto).
  assert (n = 0 -> pend = []) as Hp0 by (rewrite Hp; by intros ->).
  apply Inv_intro.
  - apply (Str_fds _ (v_fd v)).
    + eapply Str_upd; eauto.
    + intros id2 f2 H2 O2. apply Hfds. left. intros Hin.
      eapply upd_old in H2 as (f0 & H0 & E1 & _ & _ & E4 & _);
        [|exact Hf|exact HL|exact Hc|exact Hn|exact Hp1|exact Hp0].
      eapply (co_apart _ _ _ _ Co _ id2 f0 Hin); [done | congruence | done].
    + intros o2 oc2 fd H2 Hin. apply Hfds. simpl in H2.
      destruct (decide (o2 = o)) as [->|Hne].
      * rewrite lookup_insert_eq in H2. injection H2 as <-. simpl in Hin.
        rewrite Hp in Hin. destruct (Z.eqb_spec n 0); [by apply not_elem_of_nil in Hin | by right].
      * rewrite lookup_insert_ne in H2 by done. left. intros Hin2.
        pose proof (co_fds _ _ _ _ Co _ Hin2) as E1.
        pose proof (co_fds _ _ _ _ (st_cnt _ _ HS _ _ H2) _ Hin) as E2.
        destruct Hne. eapply (open_of_inode m _ HS); [done..|]. congruence.
  - intros id2 j t2 Hh. unfold own_level.
    eapply (upd_handle m (v_fd v) id f l o x oc HF t c lt n pend) in Hh; try done.
    destruct Hh as [(-> & -> & ->)|[Hne Hh]].
    + rewrite (lk_inode m v f l o x oc HF).
      pose proof (proj1 HCl _ _ _ (lk_self_handle m v id f l o x oc Hf Hopen HF)) as Hs.
      unfold lowered in Hs. rewrite Z.eqb_refl, Z.min_r in Hs by lia. done.
    + apply (proj1 HCl) in Hh. unfold lowered in Hh. by rewrite (proj2 (Z.eqb_neq _ _) Hne) in Hh.
Qed.
End unlock.

(** What a failing unixUnlock from a record [x] leaves: its code, the count
    and the level of the record. The handle keeps its level. *)
Inductive unlock_failed (t : Z) (f : unixFile) (x : lockInfo) : Z -> Z -> Z -> Prop :=
| uf_rdlock :   (* the read-lock was refused, the other locks are gone *)
    t = SHARED_LOCK -> SHARED_LOCK < f_locktype f ->
    unlock_failed t f x SQLITE_IOERR_RDLOCK (li_cnt x) SHARED_LOCK
| uf_pending :
    t = SHARED_LOCK -> SHARED_LOCK < f_locktype f ->
    unlock_failed t f x SQLITE_IOERR_UNLOCK (li_cnt x) (li_locktype x)
| uf_shared :   (* other handles have SHARED locks *)
    t = NO_LOCK -> SHARED_LOCK < f_locktype f -> 1 < li_cnt x ->
    unlock_failed t f x SQLITE_IOERR_UNLOCK (li_cnt x - 1) (li_locktype x)
| uf_dropped :  (* all locks are gone in the end *)
    t = NO_LOCK -> SHARED_LOCK < f_locktype f -> li_cnt x = 1 ->
    unlock_failed t f x SQLITE_IOERR_UNLOCK 0 NO_LOCK
| uf_last lt :
    t = NO_LOCK -> li_cnt x = 1 ->
    lt = li_locktype x \/ (lt = SHARED_LOCK /\ SHARED_LOCK < f_locktype f) ->
    unlock_failed t f x SQLITE_IOERR_UNLOCK 1 lt.

Section unlock_code.
Context `{Hsure : Sure}.

Definition unlock_outcome (id t : Z) (m : pmem) (f : unixFile) (rc : Z) (m' : pmem) (v' : view)
    : Prop :=
  keys_kept m m' /\ Claims (lowered id t) m v' /\
  ((rc = SQLITE_OK /\ Inv m' v' /\
    files m' = <[id := with_locktype (Z.min t (f_locktype f)) f]> (files m)) \/
   (sure = false /\ exists l x c lt,
      f_pLock f = Some l /\ lockInfos m !! l = Some x /\ unlock_failed t f x rc c lt /\
      m' = set_lockInfos (<[l := mkLockInfo (li_key x) c lt (li_nRef x)]> (lockInfos m)) m)).

Lemma set_lockInfos_id m l x : lockInfos m !! l = Some x -> set_lockInfos (<[l := x]> (lockInfos m)) m = m.
Proof. intros. unfold set_lockInfos. rewrite insert_id by done. by destruct m. Qed.

Lemma outcome_failed id t m f l x rc c lt y v' :
  sure = false -> f_pLock f = Some l -> lockInfos m !! l = Some x ->
  unlock_failed t f x rc c lt -> y = mkLockInfo (li_key x) c lt (li_nRef x) ->
  Claims (lowered id t) m v' ->
  unlock_outcome id t m f rc (set_lockInfos (<[l := y]> (lockInfos m)) m) v'.
Proof.
  intros Hs Hl Hx Hf -> HC. split; [by eapply keys_kept_put|]. split; [done|]. right.
  split; [done|]. by exists l, x, c, lt.
Qed.

Section handle.
Context (m : pmem) (v : view) (id : Z) (f : unixFile) (l o : nat) (x : lockInfo) (oc : openCnt).
Context (HS : Str m (v_fd v)) (HC : Claims own_level m v).
Context (Hf : files m !! id = Some f) (Hopen : is_open f = true)
        (HF : file_ok m (v_fd v) f l o x oc).
Context (t : Z) (Ht : t = NO_LOCK \/ t = SHARED_LOCK) (Hgt : t < f_locktype f).

Let Hlock : lockInfos m !! l = Some x := fo_info _ _ _ _ _ _ _ HF.
Let Hcnt : openCnts m !! o = Some oc := fo_cnt _ _ _ _ _ _ _ HF.
Let HlP : f_pLock f = Some l := fo_lock _ _ _ _ _ _ _ HF.
Let HoP : f_pOpen f = Some o := fo_open _ _ _ _ _ _ _ HF.

(** The rest of unixUnlock behind the part for the levels above SHARED. *)
Definition unlock_rest (rc : Z) : M Z :=
  rc ← (if t =? NO_LOCK then o ← open_ptr f; unlock_none (f_h f) l o rc else mret rc);
  (if rc =? SQLITE_OK then store_locktype id t else mret tt);; mret rc.

Lemma un_locked : lockb (f_locktype f) = 1.
Proof.
  unfold lockb. rewrite (proj2 (Z.eqb_neq _ _)); [done|]. destruct Ht as [-> | ->]; lconst; lia.
Qed.

Lemma unlock_rest_ok w :
  v_fd w = v_fd v -> Claims (lowered id t) m w ->
  wp (At (lowered id t)) (unlock_rest SQLITE_OK (set_lockInfos (<[l := un_mid f x]> (lockInfos m)) m))
    w (unlock_outcome id t m f).
Proof.
  intros Hw HCw. pose proof un_locked as L1.
  pose proof (un_pos m v id f l o x oc HS Hf Hopen HF t Ht Hgt) as Hpos.
  pose proof (un_mid_key f x) as Mk. pose proof (un_mid_cnt f x) as Mc. pose proof (un_mid_ref f x) as Mr.
  unfold unlock_rest, store_locktype. wsteps. destruct (Z.eqb_spec t NO_LOCK) as [E|E].
  - wsteps. eapply (unlock_none_wp m v id f l o x oc HS Hf Hopen HF t Ht Hgt); try done.
    + intros _ v' Hfds HCv. simpl. wsteps. wmem.
      assert (lockb t = 0) as L0 by by rewrite E.
      split; [by eapply keys_kept_put|]. split; [done|]. left.
      split; [done|]. split; [|by rewrite Z.min_l by lia].
      unfold un_info, un_cnt. rewrite Mk, Mc, Mr.
      eapply (un_inv m v id f l o x oc HS Hf Hopen HF t Ht Hgt); try done; lia.
    + intros Hs H1 v' HCv. simpl. wsteps.
      eapply (outcome_failed _ _ _ _ _ x _ 1 (li_locktype (un_mid f x))); try done.
      * apply uf_last; [done..|]. unfold un_mid. rewrite Z.gtb_ltb.
        destruct (Z.ltb_spec SHARED_LOCK (f_locktype f)); auto.
      * unfold with_cnt. by rewrite Mk, Mr.
  - assert (t = SHARED_LOCK) as Et by (destruct Ht; done).
    wsteps. simpl. wsteps. wmem.
    split; [by eapply keys_kept_put|]. split; [done|]. left.
    split; [done|]. split; [|by rewrite Z.min_l by lia].
    assert (f_locktype f >? SHARED_LOCK = true) as Hhi by (rewrite Z.gtb_ltb; apply Z.ltb_lt; lia).
    pose proof (nLock_cnt _ _ HS _ _ _ _ _ HF) as En.
    assert (lockb t = 1) as L0 by by rewrite Et.
    assert (Inv (put3 id (with_locktype t f) l
             (mkLockInfo (li_key x) (li_cnt x) (li_locktype (un_mid f x)) (li_nRef x)) o
             (mkOpenCnt (oc_key oc) (oc_nRef oc) (oc_nLock oc) (oc_aPending oc)) m) w) as HI.
    { eapply (un_inv m v id f l o x oc HS Hf Hopen HF t Ht Hgt); try done; try lia.
      - by rewrite (proj2 (Z.eqb_neq (li_cnt x) 0)) by lia.
      - by rewrite (proj2 (Z.eqb_neq (oc_nLock oc) 0)) by lia.
      - intros. by rewrite Hw. }
    unfold un_mid in *. rewrite Hhi in *. unfold put3 in HI. simpl in HI.
    rewrite (insert_id (openCnts m)) in HI by (rewrite Hcnt; by destruct oc). exact HI.
Qed.

(** After a refusal in the part for the levels above SHARED. *)
Lemma unlock_rest_no w :
  sure = false -> SHARED_LOCK < f_locktype f -> v_fd w = v_fd v -> Claims (lowered id t) m w ->
  wp (At (lowered id t)) (unlock_rest SQLITE_IOERR_UNLOCK m) w (unlock_outcome id t m f).
Proof.
  intros Hs Hhi Hw HCw. pose proof (un_pos m v id f l o x oc HS Hf Hopen HF t Ht Hgt) as Hpos.
  rewrite <- (set_lockInfos_id m l x) at 1 by done.
  unfold unlock_rest. wsteps. destruct (Z.eqb_spec t NO_LOCK) as [E|E].
  - wsteps. eapply (unlock_none_wp m v id f l o x oc HS Hf Hopen HF t Ht Hgt); try done.
    + intros _ v' HCv. simpl. wsteps. unfold un_info. destruct (Z.eqb_spec (li_cnt x - 1) 0).
      * replace (li_cnt x - 1) with 0 by lia.
        eapply (outcome_failed _ _ _ _ _ x); try done. apply uf_dropped; [done..|lia].
      * eapply (outcome_failed _ _ _ _ _ x); try done. apply uf_shared; [done..|lia].
    + intros _ H1 v' HCv. simpl. wsteps.
      eapply (outcome_failed _ _ _ _ _ x); try done. apply uf_last; [done..|by left].
  - wsteps. simpl. wsteps. eapply (outcome_failed _ _ _ _ _ x); try done.
    + apply uf_pending; [by destruct Ht | done].
    + by destruct x.
Qed.
End handle.

Lemma unixUnlock_wp self id t m v f :
  Inv m v -> files m !! id = Some f -> is_open f = true -> t = NO_LOCK \/ t = SHARED_LOCK ->
  wp (At (lowered id t)) (unixUnlock self id t m) v (unlock_outcome id t m f).
Proof.
  intros [HS HC] Hf Hopen Ht.
  destruct (st_file _ _ HS _ _ Hf Hopen) as (l & o & x & oc & HF).
  pose proof (fo_info _ _ _ _ _ _ _ HF) as Hlock. pose proof (fo_lock _ _ _ _ _ _ _ HF) as HlP.
  unfold unixUnlock. wsteps. apply wp_assert; [by destruct Ht as [-> | ->]|]. wsteps.
  assert (Claims (lowered id t) m v) as HC0.
  { apply Claims_lowered; [destruct Ht as [-> | ->]; done | done]. }
  destruct (Z.leb_spec (f_locktype f) t) as [Hle|Hgt].
  { wsteps. split; [intros l2 x2 H2; by exists x2|]. split; [done|]. left. split; [done|].
    split; [by split|]. by rewrite Z.min_r, with_locktype_id, insert_id by done. }
  wsteps. unfold check_threadid. wsteps. rewrite (mode_open _ _ HS _ _ Hf Hopen). simpl. wsteps.
  pose proof (un_pos m v id f l o x oc HS Hf Hopen HF t Ht Hgt) as Hpos.
  apply wp_assert; [apply negb_true_iff, Z.eqb_neq; lia|]. wstep.
  pose proof (un_top m v id f l o x oc HS Hf Hopen HF) as Htop.
  assert (forall rc, (rc ← (if t =? NO_LOCK then o ← open_ptr f; unlock_none (f_h f) l o rc else mret rc);
    (if rc =? SQLITE_OK then store_locktype id t else mret tt);; mret rc) = unlock_rest id f l t rc) as Erest by done.
  rewrite Z.gtb_ltb. destruct (Z.ltb_spec SHARED_LOCK (f_locktype f)) as [Hhi|Hlo].
  - wstep. apply wp_assert; [by apply Z.eqb_eq; rewrite Htop|].
    eapply (unlock_high_wp m v id f l o x oc); try done.
    + intros rc w Hw HCw Hrc.
      pose proof (unlock_rest_ok m v id f l o x oc HS Hf Hopen HF t Ht Hgt w Hw HCw) as Hok.
      unfold un_mid in Hok. rewrite Z.gtb_ltb, (proj2 (Z.ltb_lt _ _) Hhi) in Hok.
      destruct Hrc as [-> | (Hs & -> & ->)]; [exact Hok|].
      wsteps. simpl. wsteps. eapply (outcome_failed _ _ _ _ _ x); try done. by apply uf_rdlock.
    + intros w Hw HCw Hs. by apply (unlock_rest_no m v id f l o x oc HS Hf Hopen HF t Ht Hgt w).
  - wstep. pose proof (unlock_rest_ok m v id f l o x oc HS Hf Hopen HF t Ht Hgt v eq_refl HC0) as Hok.
    unfold un_mid in Hok. rewrite Z.gtb_ltb, (proj2 (Z.ltb_ge _ _) Hlo) in Hok.
    rewrite set_lockInfos_id in Hok by done. exact Hok.
Qed.
End unlock_code.
