(* ===== verification/UnixLockOpen.v ===== *)
(** * Opening and closing handles and the invariant of a process

    [unixClose] and [fillInUnixFile] against the answers of the kernel and of
    the allocator: reference counts and hash tables follow, and no descriptor
    is closed while a handle of its inode holds a lock. unixClose is followed
    through refusals too; fillInUnixFile, with the test of thread locks that
    the first call makes, where the kernel refuses nothing. *)

From S2P Require Import Prelude UnixOs UnixLock UnixLockInv UnixLockWp.

(** ** Taking one handle away *)

Section drop.
Context (m : pmem) (fds : Z -> option inode) (HS : Str m fds).
Context (id : Z) (f : unixFile) (l o : nat) (x : lockInfo) (oc : openCnt).
Context (Hf : files m !! id = Some f) (Hopen : is_open f = true)
        (HF : file_ok m fds f l o x oc) (Hnone : f_locktype f = NO_LOCK).
Context (pend : list Z)
        (Hp : pend = oc_aPending oc \/ pend = oc_aPending oc ++ [f_h f])
        (Hp0 : oc_nLock oc = 0 -> pend = []).

Let x' := with_lref (li_nRef x - 1) x.
Let oc' := mkOpenCnt (oc_key oc) (oc_nRef oc - 1) (oc_nLock oc) pend.

Definition drop_mem : pmem :=
  mkPmem (<[id := zero_file]> (files m))
    (if li_nRef x - 1 =? 0 then delete l (lockInfos m) else <[l := x']> (lockInfos m))
    (if oc_nRef oc - 1 =? 0 then delete o (openCnts m) else <[o := oc']> (openCnts m))
    (if li_nRef x - 1 =? 0 then delete (li_key x) (lockHash m) else lockHash m)
    (if oc_nRef oc - 1 =? 0 then delete (oc_key oc) (openHash m) else openHash m)
    (threadsOverrideEachOthersLocks m).

Lemma drop_file id2 f2 :
  files drop_mem !! id2 = Some f2 -> is_open f2 = true -> id2 <> id /\ files m !! id2 = Some f2.
Proof.
  simpl. destruct (decide (id2 = id)) as [->|Hne].
  - rewrite lookup_insert_eq. by intros [= <-].
  - by rewrite lookup_insert_ne.
Qed.

Lemma drop_count P : P zero_file = false ->
  countf P (files drop_mem) = countf P (files m) - Z.b2z (P f).
Proof. intros HP. simpl. rewrite (countf_insert P _ _ _ _ Hf), HP. simpl. lia. Qed.

Lemma drop_on_lock l2 : on_lock l2 f = bool_decide (l2 = l).
Proof.
  apply eq_iff_eq_true. rewrite on_lock_spec, bool_decide_eq_true, (fo_lock _ _ _ _ _ _ _ HF).
  naive_solver.
Qed.

Lemma drop_on_open o2 : on_open o2 f = bool_decide (o2 = o).
Proof.
  apply eq_iff_eq_true. rewrite on_open_spec, bool_decide_eq_true, (fo_open _ _ _ _ _ _ _ HF).
  naive_solver.
Qed.

Lemma drop_unlocked P : (P f && locked f) = false.
Proof. unfold locked. rewrite Hnone. apply andb_false_r. Qed.

(** A lock record after the change. *)
Lemma drop_info_lookup l2 x2 :
  lockInfos drop_mem !! l2 = Some x2 ->
  (l2 = l /\ x2 = x' /\ li_nRef x - 1 <> 0) \/ (l2 <> l /\ lockInfos m !! l2 = Some x2).
Proof.
  simpl. destruct (Z.eqb_spec (li_nRef x - 1) 0) as [E|E];
    destruct (decide (l2 = l)) as [->|Hne].
  - rewrite lookup_delete_eq. done.
  - rewrite lookup_delete_ne by done. auto.
  - rewrite lookup_insert_eq. intros [= <-]. auto.
  - rewrite lookup_insert_ne by done. auto.
Qed.

Lemma drop_cnt_lookup o2 c2 :
  openCnts drop_mem !! o2 = Some c2 ->
  (o2 = o /\ c2 = oc' /\ oc_nRef oc - 1 <> 0) \/ (o2 <> o /\ openCnts m !! o2 = Some c2).
Proof.
  simpl. destruct (Z.eqb_spec (oc_nRef oc - 1) 0) as [E|E];
    destruct (decide (o2 = o)) as [->|Hne].
  - rewrite lookup_delete_eq. done.
  - rewrite lookup_delete_ne by done. auto.
  - rewrite lookup_insert_eq. intros [= <-]. auto.
  - rewrite lookup_insert_ne by done. auto.
Qed.

Lemma drop_hash_keep l2 x2 :
  l2 <> l -> lockInfos m !! l2 = Some x2 -> lockHash drop_mem !! li_key x2 = Some l2.
Proof.
  intros Hne H2. pose proof (io_hash _ _ _ (st_info _ _ HS _ _ H2)) as E2. simpl.
  destruct (_ =? 0); [|done]. rewrite lookup_delete_ne; [done|].
  intros Ek. pose proof (io_hash _ _ _ (st_info _ _ HS _ _ (fo_info _ _ _ _ _ _ _ HF))). congruence.
Qed.

Lemma drop_ohash_keep o2 c2 :
  o2 <> o -> openCnts m !! o2 = Some c2 -> openHash drop_mem !! oc_key c2 = Some o2.
Proof.
  intros Hne H2. pose proof (co_hash _ _ _ _ (st_cnt _ _ HS _ _ H2)) as E2. simpl.
  destruct (_ =? 0); [|done]. rewrite lookup_delete_ne; [done|].
  intros Ek. pose proof (co_hash _ _ _ _ (st_cnt _ _ HS _ _ (fo_cnt _ _ _ _ _ _ _ HF))). congruence.
Qed.

Lemma drop_info l2 x2 : lockInfos drop_mem !! l2 = Some x2 -> info_ok drop_mem l2 x2.
Proof.
  intros H2. assert (exists y, lockInfos m !! l2 = Some y /\ li_key x2 = li_key y /\
    li_cnt x2 = li_cnt y /\ li_locktype x2 = li_locktype y /\
    li_nRef x2 = li_nRef y - Z.b2z (on_lock l2 f) /\ (0 <= li_nRef x2 -> 0 < li_nRef x2) /\
    lockHash drop_mem !! li_key y = Some l2)
    as (y & Hy & K & C & T & R & P & Hh).
  { rewrite drop_on_lock. apply drop_info_lookup in H2 as [(-> & -> & Hr)|[Hne H2]].
    - exists x. pose proof (fo_info _ _ _ _ _ _ _ HF) as Hl. repeat split; try done.
      + rewrite bool_decide_true by done. simpl. lia.
      + simpl. lia.
      + simpl. rewrite (proj2 (Z.eqb_neq _ _) Hr). apply (io_hash _ _ _ (st_info _ _ HS _ _ Hl)).
    - exists x2. rewrite bool_decide_false by done. repeat split; try done; simpl; try lia.
      + intros _. apply (io_refpos _ _ _ (st_info _ _ HS _ _ H2)).
      + by apply drop_hash_keep. }
  destruct (st_info _ _ HS _ _ Hy) as [I1 I2 I3 I4 I5 I6 I7 I8 I9 I10 I11].
  assert (li_nRef x2 = countf (on_lock l2) (files drop_mem)) as HR.
  { rewrite drop_count by done. rewrite R, I3. done. }
  constructor; rewrite ?K, ?C, ?T; try done.
  - apply P. rewrite HR. apply countf_nonneg.
  - rewrite I5. rewrite drop_count by done. rewrite drop_unlocked. simpl. lia.
  - intros id2 f2 Hf2 O2. pose proof O2 as [Op _]%on_lock_spec.
    destruct (drop_file _ _ Hf2 Op). eauto.
  - intros id1 id2 f1 f2 Hf1 Hf2 O1 O2. pose proof O1 as [Op1 _]%on_lock_spec.
    pose proof O2 as [Op2 _]%on_lock_spec.
    destruct (drop_file _ _ Hf1 Op1), (drop_file _ _ Hf2 Op2). eauto.
  - intros Hgt. destruct (I11 Hgt) as (id2 & f2 & Hf2 & O2 & T2). exists id2, f2.
    split; [|done]. simpl. rewrite lookup_insert_ne; [done|]. intros ->.
    assert (f2 = f) by congruence. subst. lconst; lia.
Qed.

Lemma drop_cnt o2 c2 : openCnts drop_mem !! o2 = Some c2 -> cnt_ok drop_mem fds o2 c2.
Proof.
  intros H2. assert (exists y, openCnts m !! o2 = Some y /\ oc_key c2 = oc_key y /\
    oc_nLock c2 = oc_nLock y /\ oc_nRef c2 = oc_nRef y - Z.b2z (on_open o2 f) /\
    (0 <= oc_nRef c2 -> 0 < oc_nRef c2) /\ openHash drop_mem !! oc_key y = Some o2 /\
    (oc_nLock y = 0 -> oc_aPending c2 = []) /\
    (oc_aPending c2 = oc_aPending y \/ (o2 = o /\ oc_aPending c2 = oc_aPending y ++ [f_h f])))
    as (y & Hy & K & N & R & P & Hh & E0 & Ep).
  { rewrite drop_on_open. apply drop_cnt_lookup in H2 as [(-> & -> & Hr)|[Hne H2]].
    - exists oc. pose proof (fo_cnt _ _ _ _ _ _ _ HF) as Ho. repeat split; try done.
      + rewrite bool_decide_true by done. simpl. lia.
      + simpl. lia.
      + simpl. rewrite (proj2 (Z.eqb_neq _ _) Hr). apply (co_hash _ _ _ _ (st_cnt _ _ HS _ _ Ho)).
      + simpl. destruct Hp; auto.
    - exists c2. pose proof (st_cnt _ _ HS _ _ H2) as C2.
      rewrite bool_decide_false by done. repeat split; try done; simpl; try lia.
      + intros _. apply (co_refpos _ _ _ _ C2).
      + by apply drop_ohash_keep.
      + apply (co_empty _ _ _ _ C2).
      + by left. }
  destruct (st_cnt _ _ HS _ _ Hy) as [C1 C2 C3 C4 C5 C6 C7 C8].
  assert (oc_nRef c2 = countf (on_open o2) (files drop_mem)) as HR.
  { rewrite drop_count by done. rewrite R, C2. done. }
  assert (forall fd, fd ∈ oc_aPending c2 -> fd ∈ oc_aPending y \/ (o2 = o /\ fd = f_h f)) as Hin.
  { intros fd Hfd. destruct Ep as [E|[-> E]]; rewrite E in Hfd; [by left|].
    apply elem_of_app in Hfd as [?|Hfd]; [by left|]. right. apply list_elem_of_singleton in Hfd. done. }
  constructor; rewrite ?K, ?N; try done.
  - apply P. rewrite HR. apply countf_nonneg.
  - rewrite C4. rewrite drop_count by done. rewrite drop_unlocked. simpl. lia.
  - destruct Ep as [-> | [-> ->]]; [done|]. apply NoDup_app. split; [done|]. split.
    + intros fd Hfd ->%list_elem_of_singleton. by eapply C7.
    + apply NoDup_singleton.
  - intros fd [?|[-> ->]]%Hin; [auto|].
    rewrite (fo_fd _ _ _ _ _ _ _ HF). pose proof (fo_cnt _ _ _ _ _ _ _ HF). congruence.
  - intros fd id2 f2 Hfd Hf2 O2. destruct (drop_file _ _ Hf2 O2) as [Hne H0].
    apply Hin in Hfd as [Hfd|[-> ->]]; [by eapply C7|].
    intros E. destruct Hne. by eapply (st_fds _ _ HS).
Qed.

Lemma Str_drop : Str drop_mem fds.
Proof.
  constructor.
  - left. by apply (mode_open m fds HS id f).
  - intros id2 f2 H2 Op2. destruct (drop_file _ _ H2 Op2) as [Hne H0].
    destruct (st_file _ _ HS _ _ H0 Op2) as (l2 & o2 & x2 & oc2 & F).
    destruct F as [F1 F2 F3 F4 F5 F6 F7 F8].
    assert (exists y, lockInfos drop_mem !! l2 = Some y /\ li_key y = li_key x2) as (y & Hy & Ky).
    { simpl. destruct (decide (l2 = l)) as [->|Hl].
      - assert (2 <= li_nRef x).
        { rewrite (io_ref _ _ _ (st_info _ _ HS _ _ (fo_info _ _ _ _ _ _ _ HF))).
          eapply (countf_two _ _ id id2); try done.
          - rewrite drop_on_lock. by apply bool_decide_eq_true.
          - by apply on_lock_spec. }
        rewrite (proj2 (Z.eqb_neq (li_nRef x - 1) 0)) by lia.
        exists x'. rewrite lookup_insert_eq. split; [done|]. simpl.
        pose proof (fo_info _ _ _ _ _ _ _ HF). congruence.
      - destruct (_ =? 0); [rewrite lookup_delete_ne by done | rewrite lookup_insert_ne by done]; eauto. }
    assert (exists y, openCnts drop_mem !! o2 = Some y /\ oc_key y = oc_key oc2) as (c & Hc & Kc).
    { simpl. destruct (decide (o2 = o)) as [->|Hl].
      - assert (2 <= oc_nRef oc).
        { rewrite (co_ref _ _ _ _ (st_cnt _ _ HS _ _ (fo_cnt _ _ _ _ _ _ _ HF))).
          eapply (countf_two _ _ id id2); try done.
          - rewrite drop_on_open. by apply bool_decide_eq_true.
          - by apply on_open_spec. }
        rewrite (proj2 (Z.eqb_neq (oc_nRef oc - 1) 0)) by lia.
        exists oc'. rewrite lookup_insert_eq. split; [done|]. simpl.
        pose proof (fo_cnt _ _ _ _ _ _ _ HF). congruence.
      - destruct (_ =? 0); [rewrite lookup_delete_ne by done | rewrite lookup_insert_ne by done]; eauto. }
    exists l2, o2, y, c. constructor; try done; rewrite ?Ky, ?Kc; done.
  - apply drop_info.
  - apply drop_cnt.
  - intros k l2 H2. assert (lockHash m !! k = Some l2 /\ (l2 = l -> li_nRef x - 1 <> 0)) as [H0 Hl].
    { simpl in H2. destruct (Z.eqb_spec (li_nRef x - 1) 0); [|done].
      apply lookup_delete_Some in H2 as [Hk H2]. split; [done|]. intros ->.
      destruct (st_lhash _ _ HS _ _ H2) as (y & Hy & <-).
      pose proof (fo_info _ _ _ _ _ _ _ HF). congruence. }
    destruct (st_lhash _ _ HS _ _ H0) as (y & Hy & Hk). simpl.
    destruct (decide (l2 = l)) as [->|Hne].
    + rewrite (proj2 (Z.eqb_neq _ _) (Hl eq_refl)). exists x'. rewrite lookup_insert_eq.
      pose proof (fo_info _ _ _ _ _ _ _ HF). split; [done|]. simpl. congruence.
    + exists y. destruct (_ =? 0); [rewrite lookup_delete_ne by done | rewrite lookup_insert_ne by done]; done.
  - intros k o2 H2. assert (openHash m !! k = Some o2 /\ (o2 = o -> oc_nRef oc - 1 <> 0)) as [H0 Hl].
    { simpl in H2. destruct (Z.eqb_spec (oc_nRef oc - 1) 0); [|done].
      apply lookup_delete_Some in H2 as [Hk H2]. split; [done|]. intros ->.
      destruct (st_ohash _ _ HS _ _ H2) as (y & Hy & <-).
      pose proof (fo_cnt _ _ _ _ _ _ _ HF). congruence. }
    destruct (st_ohash _ _ HS _ _ H0) as (y & Hy & Hk). simpl.
    destruct (decide (o2 = o)) as [->|Hne].
    + rewrite (proj2 (Z.eqb_neq _ _) (Hl eq_refl)). exists oc'. rewrite lookup_insert_eq.
      pose proof (fo_cnt _ _ _ _ _ _ _ HF). split; [done|]. simpl. congruence.
    + exists y. destruct (_ =? 0); [rewrite lookup_delete_ne by done | rewrite lookup_insert_ne by done]; done.
  - intros id1 id2 f1 f2 H1 H2 O1 O2 E.
    destruct (drop_file _ _ H1 O1) as [N1 G1], (drop_file _ _ H2 O2) as [N2 G2].
    by eapply (st_fds _ _ HS).
Qed.

(** The handles that are left. *)
Lemma drop_handle id2 i2 t2 : handle drop_mem id2 i2 t2 -> id2 <> id /\ handle m id2 i2 t2.
Proof.
  intros (f2 & l2 & x2 & H2 & O2 & L2 & X2 & K2 & T2).
  destruct (drop_file _ _ H2 O2) as [Hne H0]. split; [done|].
  apply drop_info_lookup in X2 as [(-> & -> & _)|[_ X2]].
  - exists f2, l, x. repeat split; try done. apply (fo_info _ _ _ _ _ _ _ HF).
  - by exists f2, l2, x2.
Qed.
End drop.

(** ** unixClose *)

Section close.
Context `{Hsure : Sure}.

Lemma releaseLockInfo_wp J m v l x (Q : unit -> pmem -> view -> Prop) :
  lockInfos m !! l = Some x ->
  Q tt (mkPmem (files m)
          (if li_nRef x - 1 =? 0 then delete l (lockInfos m)
           else <[l := with_lref (li_nRef x - 1) x]> (lockInfos m))
          (openCnts m)
          (if li_nRef x - 1 =? 0 then delete (li_key x) (lockHash m) else lockHash m)
          (openHash m) (threadsOverrideEachOthersLocks m)) v ->
  wp J (releaseLockInfo (Some l) m) v Q.
Proof.
  intros Hx HQ. unfold releaseLockInfo. wsteps. cbn [li_nRef with_lref li_key].
  destruct (li_nRef x - 1 =? 0).
  - unfold lockHash_insert, free_lock. wsteps. wmem. by rewrite delete_insert_eq.
  - wsteps. done.
Qed.

Lemma releaseOpenCnt_wp J m v o c (Q : unit -> pmem -> view -> Prop) :
  openCnts m !! o = Some c ->
  Q tt (mkPmem (files m) (lockInfos m)
          (if oc_nRef c - 1 =? 0 then delete o (openCnts m)
           else <[o := with_oref (oc_nRef c - 1) c]> (openCnts m))
          (lockHash m)
          (if oc_nRef c - 1 =? 0 then delete (oc_key c) (openHash m) else openHash m)
          (threadsOverrideEachOthersLocks m)) v ->
  wp J (releaseOpenCnt (Some o) m) v Q.
Proof.
  intros Hx HQ. unfold releaseOpenCnt. wsteps. cbn [oc_nRef with_oref oc_key].
  destruct (oc_nRef c - 1 =? 0).
  - unfold openHash_insert, free_open. wsteps. wmem. by rewrite delete_insert_eq.
  - wsteps. done.
Qed.

Lemma handle_put_same m id f f' id2 i t :
  files m !! id = Some f -> is_open f' = is_open f -> f_pLock f' = f_pLock f ->
  f_locktype f' = f_locktype f ->
  handle (set_files (<[id := f']> (files m)) m) id2 i t -> handle m id2 i t.
Proof.
  intros Hf E1 E2 E3 (f2 & l2 & x2 & H2 & O2 & L2 & X2 & K2 & T2). simpl in *.
  destruct (decide (id2 = id)) as [->|Hne].
  - rewrite lookup_insert_eq in H2. injection H2 as <-. exists f, l2, x2. by rewrite <- E1, <- E2, <- E3.
  - rewrite lookup_insert_ne in H2 by done. by exists f2, l2, x2.
Qed.

(** What is left once the descriptor is closed or queued. *)
Lemma close_tail_wp J m m2 v w id f l o x oc pend (Q : Z -> pmem -> view -> Prop) :
  file_ok m (v_fd v) f l o x oc ->
  lockInfos m2 = lockInfos m -> lockHash m2 = lockHash m -> openHash m2 = openHash m ->
  threadsOverrideEachOthersLocks m2 = threadsOverrideEachOthersLocks m ->
  (exists f2, files m2 = <[id := f2]> (files m)) ->
  openCnts m2 = <[o := mkOpenCnt (oc_key oc) (oc_nRef oc) (oc_nLock oc) pend]> (openCnts m) ->
  Q SQLITE_OK (drop_mem m id l o x oc pend) w ->
  wp J ((releaseLockInfo (f_pLock f);; releaseOpenCnt (f_pOpen f);;
    put_file id zero_file;; mret SQLITE_OK) m2) w Q.
Proof.
  intros HF E1 E2 E3 E4 [f2 E5] E6 HQ.
  rewrite (fo_lock _ _ _ _ _ _ _ HF), (fo_open _ _ _ _ _ _ _ HF).
  apply wp_bind. eapply releaseLockInfo_wp.
  { rewrite E1. apply (fo_info _ _ _ _ _ _ _ HF). }
  apply wp_bind. eapply releaseOpenCnt_wp.
  { cbn [openCnts]. rewrite E6. apply lookup_insert_eq. }
  wsteps. wmem. cbn [oc_nRef oc_key with_oref].
  rewrite E1, E2, E3, E4, E5, E6, !insert_insert_eq, delete_insert_eq. apply HQ.
Qed.

(** The other handles keep the locks behind their levels in any case. *)
Definition close_outcome (id : Z) (m : pmem) (rc : Z) (m' : pmem) (v' : view) : Prop :=
  rc = SQLITE_OK /\ files m' = <[id := zero_file]> (files m) /\
  (Inv m' v' \/ sure = false) /\
  (forall id2 i t2, id2 <> id -> handle m id2 i t2 -> claim v' i t2).

Lemma handle_fwd m m1 id f1 id2 i t :
  files m1 = <[id := f1]> (files m) -> keys_kept m m1 -> id2 <> id ->
  handle m id2 i t -> handle m1 id2 i t.
Proof.
  intros E Hk Hne (f2 & l2 & x2 & H2 & O2 & L2 & X2 & K2 & T2).
  destruct (Hk _ _ X2) as (x' & Hx' & Ek). exists f2, l2, x'.
  by rewrite E, lookup_insert_ne, Ek by done.
Qed.

(** unixClose behind its call of unixUnlock. *)
Definition close_rest (id : Z) : M Z :=
  pFile ← get_file id;
  (if f_dirfd pFile >=? 0 then c_close (f_dirfd pFile) else mret tt);;
  put_file id (with_dirfd (-1) pFile);;
  o ← open_ptr pFile;
  oc ← get_open o;
  (if negb (oc_nLock oc =? 0) then
     b ← c_malloc;
     if (b : bool) then put_open o (with_pending (oc_aPending oc ++ [f_h pFile]) oc)
     else mret tt
   else c_close (f_h pFile));;
  releaseLockInfo (f_pLock pFile);;
  releaseOpenCnt (f_pOpen pFile);;
  put_file id zero_file;;
  mret SQLITE_OK.

(** A descriptor whose unlock was refused is never closed. *)
Lemma close_rest_failed id m v f l o x oc y w :
  Str m (v_fd v) -> files m !! id = Some f -> is_open f = true -> file_ok m (v_fd v) f l o x oc ->
  li_key y = li_key x -> oc_nLock oc <> 0 -> sure = false ->
  Claims (lowered id NO_LOCK) m w ->
  wp (At (lowered id NO_LOCK)) (close_rest id (set_lockInfos (<[l := y]> (lockInfos m)) m)) w
    (close_outcome id m).
Proof.
  intros HS Hf Hopen HF Hy Hn Hs HC.
  pose proof (fo_cnt _ _ _ _ _ _ _ HF) as Hcnt. pose proof (fo_open _ _ _ _ _ _ _ HF) as HoP.
  pose proof (fo_lock _ _ _ _ _ _ _ HF) as HlP. pose proof (fo_dirfd _ _ _ _ _ _ _ HF) as Hd.
  pose proof (fo_info _ _ _ _ _ _ _ HF) as Hx.
  assert (forall m', files m' = <[id := zero_file]> (files m) -> close_outcome id m SQLITE_OK m' w) as Hout.
  { intros m' E. split; [done|]. split; [done|]. split; [by right|].
    intros id2 i t2 Hne Hh. apply (proj1 HC) in Hh. unfold lowered in Hh.
    by rewrite (proj2 (Z.eqb_neq _ _) Hne) in Hh. }
  unfold close_rest. wsteps. rewrite Z.geb_leb, (proj2 (Z.leb_gt _ _)) by lia. wsteps.
  rewrite (proj2 (Z.eqb_neq _ _) Hn). cbn [negb]. wsteps. apply wp_malloc.
  { eapply (Claims_sub _ (set_lockInfos (<[l := y]> (lockInfos m)) m)).
    - intros id2 i2 t2 Hh. by eapply handle_put_same in Hh.
    - by eapply (Claims_put_lock _ m _ w l y x). }
  assert (forall m', files m' = <[id := with_dirfd (-1) f]> (files m) ->
    lockInfos m' = <[l := y]> (lockInfos m) -> is_Some (openCnts m' !! o) ->
    wp (At (lowered id NO_LOCK)) ((releaseLockInfo (f_pLock f);; releaseOpenCnt (f_pOpen f);;
      put_file id zero_file;; mret SQLITE_OK) m') w (close_outcome id m)) as Hrest.
  { intros m' E1 E2 [c Hc]. rewrite HlP, HoP. apply wp_bind.
    eapply releaseLockInfo_wp; [rewrite E2; apply lookup_insert_eq|].
    apply wp_bind. eapply releaseOpenCnt_wp; [exact Hc|]. wsteps. apply Hout.
    simpl. by rewrite E1, insert_insert_eq. }
  intros [|]; wstep; apply Hrest; simpl; rewrite ?lookup_insert_eq; eauto.
Qed.

Lemma drop_inv m v v' id f l o x oc pend :
  Str m (v_fd v) -> Claims own_level m v' ->
  files m !! id = Some f -> is_open f = true -> file_ok m (v_fd v) f l o x oc ->
  f_locktype f = NO_LOCK ->
  pend = oc_aPending oc \/ pend = oc_aPending oc ++ [f_h f] ->
  (oc_nLock oc = 0 -> pend = []) ->
  (forall fd, fd <> f_h f -> v_fd v' fd = v_fd v fd) ->
  (f_h f ∈ pend -> v_fd v' (f_h f) = v_fd v (f_h f)) ->
  Inv (drop_mem m id l o x oc pend) v'.
Proof.
  intros HS HC Hf Ho HF Hn Hp Hp0 Hfds Hh. apply Inv_intro.
  - apply (Str_fds _ (v_fd v)).
    + by eapply Str_drop.
    + intros id2 f2 H2 O2. apply drop_file in H2 as [Hne H2]; [|done]. apply Hfds.
      intros E. destruct Hne. by eapply (st_fds _ _ HS).
    + intros o2 c2 fd H2 Hfd. destruct (decide (fd = f_h f)) as [->|Hne]; [|by apply Hfds].
      apply drop_cnt_lookup in H2 as [(-> & -> & _)|[Hne H2]]; [by apply Hh|].
      exfalso. by eapply (co_apart _ _ _ _ (st_cnt _ _ HS _ _ H2)).
  - intros id2 i2 t2 Hh2. eapply drop_handle in Hh2 as [_ Hh2]; [|done]. apply (proj1 HC _ _ _ Hh2).
Qed.

(** Behind an unlock that returned SQLITE_OK. *)
Lemma close_rest_wp id m v f :
  Inv m v -> files m !! id = Some f -> is_open f = true -> f_locktype f = NO_LOCK ->
  wp (At (lowered id NO_LOCK)) (close_rest id m) v
    (fun rc m' v' => rc = SQLITE_OK /\ files m' = <[id := zero_file]> (files m) /\
       Inv m' v' /\ Claims own_level m v').
Proof.
  intros [HS HC] Hf Hopen Hnone.
  destruct (st_file _ _ HS _ _ Hf Hopen) as (l & o & x & oc & HF).
  pose proof (fo_cnt _ _ _ _ _ _ _ HF) as Hcnt. pose proof (fo_open _ _ _ _ _ _ _ HF) as HoP.
  pose proof (fo_lock _ _ _ _ _ _ _ HF) as HlP. pose proof (fo_dirfd _ _ _ _ _ _ _ HF) as Hd.
  pose proof (fo_fd _ _ _ _ _ _ _ HF) as Hfd. pose proof (st_cnt _ _ HS _ _ Hcnt) as Co.
  pose proof (nLock_cnt _ _ HS _ _ _ _ _ HF) as En.
  set (m2 := set_files (<[id := with_dirfd (-1) f]> (files m)) m).
  assert (Claims (lowered id NO_LOCK) m2 v) as HC2.
  { eapply (Claims_sub _ m); [|by apply Claims_lowered].
    intros id2 i2 t2 Hh. by eapply handle_put_same in Hh. }
  unfold close_rest. wsteps. rewrite Z.geb_leb, (proj2 (Z.leb_gt _ _)) by lia. wsteps. fold m2.
  destruct (Z.eqb_spec (oc_nLock oc) 0) as [E0|E0]; cbn [negb].
  - apply wp_close; [done|].
    assert (Claims own_level m (close_fd (f_h f) v)) as HCc.
    { apply Claims_close; [done|]. intros i id2 t2 Hi Hh. rewrite Hfd in Hi. injection Hi as <-.
      by apply (lk_all_none m v f l o x oc HS HF ltac:(lia) id2). }
    eapply (close_tail_wp _ m m2 v); try done.
    + by exists (with_dirfd (-1) f).
    + instantiate (1 := oc_aPending oc). simpl. rewrite insert_id; [done|]. rewrite Hcnt. by destruct oc.
    + split; [done|]. split; [done|]. split; [|done].
      eapply (drop_inv m v); try done; [by left | by apply (co_empty _ _ _ _ Co) | |].
      * intros fd Hne. by apply close_fd_other.
      * rewrite (co_empty _ _ _ _ Co E0). by intros ?%not_elem_of_nil.
  - apply wp_bind, wp_malloc; [done|]. intros [|].
    + wstep. eapply (close_tail_wp _ m _ v); try done.
      * by exists (with_dirfd (-1) f).
      * split; [done|]. split; [done|]. split; [|done]. eapply (drop_inv m v); try done. by right.
    + wstep. eapply (close_tail_wp _ m m2 v); try done.
      * by exists (with_dirfd (-1) f).
      * instantiate (1 := oc_aPending oc). simpl. rewrite insert_id; [done|]. rewrite Hcnt. by destruct oc.
      * split; [done|]. split; [done|]. split; [|done]. eapply (drop_inv m v); try done. by left.
Qed.

Lemma unixClose_wp self id m v f :
  Inv m v -> files m !! id = Some f -> is_open f = true ->
  wp (At (lowered id NO_LOCK)) (unixClose self id m) v (close_outcome id m).
Proof.
  intros HI Hf Hopen. change (unixClose self id) with (unixUnlock self id NO_LOCK;; close_rest id).
  apply wp_bind. eapply wp_mono; [apply (unixUnlock_wp self id NO_LOCK m v f); auto|].
  pose proof (proj1 HI) as HS.
  destruct (st_file _ _ HS _ _ Hf Hopen) as (l & o & x & oc & HF).
  intros rc m1 v1 (Hkeys & HC & [(-> & HI1 & Hfs) | (Hs & l' & x' & c & lt & Hl & Hx & Hfail & ->)]).
  - pose proof (fo_level _ _ _ _ _ _ _ HF) as Hr. rewrite Z.min_l in Hfs by lia.
    set (f1 := with_locktype NO_LOCK f) in *.
    assert (files m1 !! id = Some f1) as Hf1 by (rewrite Hfs; apply lookup_insert_eq).
    eapply wp_mono; [by eapply (close_rest_wp id m1 v1 f1)|].
    intros rc m' v' (-> & E & HI' & HC'). split; [done|].
    split; [by rewrite E, Hfs, insert_insert_eq|]. split; [by left|].
    intros id2 i t2 Hne Hh. apply (proj1 HC' id2). by eapply handle_fwd.
  - assert (l' = l) as -> by (pose proof (fo_lock _ _ _ _ _ _ _ HF); congruence).
    assert (x' = x) as -> by (pose proof (fo_info _ _ _ _ _ _ _ HF); congruence).
    eapply (close_rest_failed id m v f l o x oc); try done.
    rewrite (nLock_cnt _ _ HS _ _ _ _ _ HF).
    by destruct Hfail; lconst; lia.
Qed.
End close.

(** ** Adding a handle *)

(** The record found at [l], or the blank one made for [key]. *)
Definition info_base (m : pmem) (key : lockKey) (l : nat) (x : lockInfo) : Prop :=
  (lockInfos m !! l = Some x /\ lockHash m !! key = Some l /\ li_key x = key) \/
  (lockInfos m !! l = None /\ lockHash m !! key = None /\ x = mkLockInfo key 0 NO_LOCK 0).
Definition cnt_base (m : pmem) (key : openKey) (o : nat) (oc : openCnt) : Prop :=
  (openCnts m !! o = Some oc /\ openHash m !! key = Some o /\ oc_key oc = key) \/
  (openCnts m !! o = None /\ openHash m !! key = None /\ oc = mkOpenCnt key 0 0 []).

Section add.
Context (m : pmem) (fds : Z -> option inode) (HS : Str m fds).
Context (i : inode) (id : Z) (f0 f : unixFile) (l o : nat) (x : lockInfo) (oc : openCnt).
Local Notation key1 := (mkLockKey i.1 i.2 0).
Local Notation key2 := (mkOpenKey i.1 i.2).
Context (Hf0 : files m !! id = Some f0) (Hcl : is_open f0 = false)
        (Hopen : is_open f = true) (HlP : f_pLock f = Some l) (HoP : f_pOpen f = Some o)
        (Hlev : f_locktype f = NO_LOCK) (Hdir : f_dirfd f < 0) (Hfd : fds (f_h f) = Some i)
        (Hx : info_base m key1 l x) (Hoc : cnt_base m key2 o oc).
Context (Hnew : forall id2 f2, files m !! id2 = Some f2 -> is_open f2 = true -> f_h f2 <> f_h f)
        (Hpend : forall o2 c2, openCnts m !! o2 = Some c2 -> f_h f ∉ oc_aPending c2)
        (Hmode : threadsOverrideEachOthersLocks m = 1).

Definition add_mem : pmem :=
  mkPmem (<[id := f]> (files m)) (<[l := with_lref (li_nRef x + 1) x]> (lockInfos m))
    (<[o := with_oref (oc_nRef oc + 1) oc]> (openCnts m))
    (<[key1 := l]> (lockHash m)) (<[key2 := o]> (openHash m))
    (threadsOverrideEachOthersLocks m).

Lemma add_key : li_key x = key1.
Proof. by destruct Hx as [(_ & _ & ?) | (_ & _ & ->)]. Qed.
Lemma add_okey : oc_key oc = key2.
Proof. by destruct Hoc as [(_ & _ & ?) | (_ & _ & ->)]. Qed.

Lemma add_file id2 f2 :
  files add_mem !! id2 = Some f2 ->
  (id2 = id /\ f2 = f) \/ (id2 <> id /\ files m !! id2 = Some f2).
Proof.
  simpl. destruct (decide (id2 = id)) as [->|Hne].
  - rewrite lookup_insert_eq. naive_solver.
  - rewrite lookup_insert_ne by done. naive_solver.
Qed.

Lemma add_count P : P f0 = false -> countf P (files add_mem) = countf P (files m) + Z.b2z (P f).
Proof. intros HP. simpl. rewrite (countf_insert P _ _ _ _ Hf0), HP. simpl. lia. Qed.

Lemma add_off_lock l2 : on_lock l2 f0 = false.
Proof. unfold on_lock. by rewrite Hcl. Qed.
Lemma add_off_open o2 : on_open o2 f0 = false.
Proof. unfold on_open. by rewrite Hcl. Qed.
Lemma add_on_lock l2 : on_lock l2 f = bool_decide (l2 = l).
Proof. apply eq_iff_eq_true. rewrite on_lock_spec, bool_decide_eq_true, HlP. naive_solver. Qed.
Lemma add_on_open o2 : on_open o2 f = bool_decide (o2 = o).
Proof. apply eq_iff_eq_true. rewrite on_open_spec, bool_decide_eq_true, HoP. naive_solver. Qed.
Lemma add_unlocked b : (b && locked f) = false.
Proof. unfold locked. rewrite Hlev. apply andb_false_r. Qed.

(** Nothing counts towards a record that is not there. *)
Lemma count_absent_lock l2 P : lockInfos m !! l2 = None -> countf (fun g => on_lock l2 g && P g) (files m) = 0.
Proof.
  intros Hn. pose proof (countf_nonneg (fun g => on_lock l2 g && P g) (files m)).
  destruct (decide (0 < countf (fun g => on_lock l2 g && P g) (files m))) as [H0|]; [|lia].
  apply countf_some in H0 as (id2 & f2 & H2 & [[Op L2]%on_lock_spec _]%andb_true_iff).
  destruct (st_file _ _ HS _ _ H2 Op) as (l3 & ? & ? & ? & F).
  pose proof (fo_lock _ _ _ _ _ _ _ F). pose proof (fo_info _ _ _ _ _ _ _ F). congruence.
Qed.

Lemma count_absent_open o2 P : openCnts m !! o2 = None -> countf (fun g => on_open o2 g && P g) (files m) = 0.
Proof.
  intros Hn. pose proof (countf_nonneg (fun g => on_open o2 g && P g) (files m)).
  destruct (decide (0 < countf (fun g => on_open o2 g && P g) (files m))) as [H0|]; [|lia].
  apply countf_some in H0 as (id2 & f2 & H2 & [[Op L2]%on_open_spec _]%andb_true_iff).
  destruct (st_file _ _ HS _ _ H2 Op) as (? & o3 & ? & ? & F).
  pose proof (fo_open _ _ _ _ _ _ _ F). pose proof (fo_cnt _ _ _ _ _ _ _ F). congruence.
Qed.

Lemma count_absent_ref l2 : lockInfos m !! l2 = None -> countf (on_lock l2) (files m) = 0.
Proof.
  intros Hn. rewrite <- (count_absent_lock l2 (fun _ => true) Hn). apply countf_ext.
  intros. by rewrite andb_true_r.
Qed.

Lemma count_absent_oref o2 : openCnts m !! o2 = None -> countf (on_open o2) (files m) = 0.
Proof.
  intros Hn. rewrite <- (count_absent_open o2 (fun _ => true) Hn). apply countf_ext.
  intros. by rewrite andb_true_r.
Qed.

Lemma add_info_self : info_ok add_mem l (with_lref (li_nRef x + 1) x).
Proof.
  assert (li_nRef x = countf (on_lock l) (files m) /\
          li_cnt x = countf (fun g => on_lock l g && locked g) (files m)) as [R C].
  { destruct Hx as [(H & _ & _) | (H & _ & E)].
    - pose proof (st_info _ _ HS _ _ H) as I. split; [apply (io_ref _ _ _ I) | apply (io_cnt _ _ _ I)].
    - rewrite E. by rewrite count_absent_ref, count_absent_lock. }
  assert (forall id2 f2, files add_mem !! id2 = Some f2 -> on_lock l f2 = true ->
            (id2 = id /\ f2 = f) \/ (id2 <> id /\ files m !! id2 = Some f2 /\ lockInfos m !! l = Some x)) as Hon.
  { intros id2 f2 [[-> ->]|[Hne H2]]%add_file O2; [by left|]. right.
    split; [done|]. split; [done|]. destruct Hx as [(H & _ & _) | (H & _ & _)]; [done|].
    apply on_lock_spec in O2 as [Op L2]. destruct (st_file _ _ HS _ _ H2 Op) as (l3 & ? & ? & ? & F).
    pose proof (fo_lock _ _ _ _ _ _ _ F). pose proof (fo_info _ _ _ _ _ _ _ F). congruence. }
  constructor; simpl.
  - rewrite add_key. apply lookup_insert_eq.
  - by rewrite add_key.
  - pose proof (add_count (on_lock l) (add_off_lock l)) as E. simpl in E. rewrite E, add_on_lock, R.
    by rewrite bool_decide_true.
  - rewrite R. pose proof (countf_nonneg (on_lock l) (files m)). lia.
  - pose proof (add_count (fun g => on_lock l g && locked g)) as E. simpl in E. rewrite E.
    + rewrite add_unlocked, C. simpl. lia.
    + by rewrite add_off_lock.
  - destruct Hx as [(H & _ & _) | (_ & _ & ->)]; [apply (io_range _ _ _ (st_info _ _ HS _ _ H)) | done].
  - destruct Hx as [(H & _ & _) | (_ & _ & ->)]; [apply (io_none _ _ _ (st_info _ _ HS _ _ H)) | done].
  - destruct Hx as [(H & _ & _) | (_ & _ & ->)]; [apply (io_excl _ _ _ (st_info _ _ HS _ _ H)) | done].
  - intros id2 f2 H2 O2. destruct (Hon id2 f2 H2 O2) as [[-> ->]|(_ & H & Hl)].
    + left. rewrite Hlev. done.
    + by eapply (io_level _ _ _ (st_info _ _ HS _ _ Hl)).
  - intros id1 id2 f1 f2 H1 H2 O1 O2 T1 T2.
    destruct (Hon id1 f1 H1 O1) as [[-> ->]|(_ & G1 & Hl)]; [rewrite Hlev in T1; done|].
    destruct (Hon id2 f2 H2 O2) as [[-> ->]|(_ & G2 & _)]; [rewrite Hlev in T2; done|].
    by eapply (io_one _ _ _ (st_info _ _ HS _ _ Hl)).
  - intros Hgt. destruct Hx as [(H & _ & _) | (_ & _ & E)]; [|by rewrite E in Hgt].
    destruct (io_some _ _ _ (st_info _ _ HS _ _ H) Hgt) as (id2 & f2 & H2 & O2 & T2).
    exists id2, f2. rewrite lookup_insert_ne; [done|]. intros ->.
    rewrite Hf0 in H2. injection H2 as <-. by rewrite add_off_lock in O2.
Qed.

Lemma add_info_other l2 x2 : l2 <> l -> lockInfos m !! l2 = Some x2 -> info_ok add_mem l2 x2.
Proof.
  intros Hne H2. destruct (st_info _ _ HS _ _ H2) as [I1 I2 I3 I4 I5 I6 I7 I8 I9 I10 I11].
  assert (on_lock l2 f = false) as Hoff by (rewrite add_on_lock; by apply bool_decide_eq_false).
  assert (forall id1 f1, files add_mem !! id1 = Some f1 -> on_lock l2 f1 = true -> files m !! id1 = Some f1) as Hback.
  { intros id1 f1 [[-> ->]|[_ H]]%add_file O1; [congruence|done]. }
  constructor; try done.
  - simpl. rewrite lookup_insert_ne; [done|]. intros E.
    destruct Hx as [(H & Hh & _) | (_ & Hh & _)]; congruence.
  - rewrite add_count by apply add_off_lock. rewrite Hoff, I3. simpl. lia.
  - rewrite add_count by (by rewrite add_off_lock). rewrite Hoff, I5. simpl. lia.
  - eauto.
  - intros. eapply I10; eauto.
  - intros Hlt. destruct (I11 Hlt) as (id1 & f1 & H1 & O1 & T1).
    exists id1, f1. simpl. rewrite lookup_insert_ne; [done|]. intros ->.
    rewrite Hf0 in H1. injection H1 as <-. by rewrite add_off_lock in O1.
Qed.

Lemma add_cnt o2 c2 : openCnts add_mem !! o2 = Some c2 -> cnt_ok add_mem fds o2 c2.
Proof.
  simpl. intros H2.
  assert (oc_key c2 = oc_key c2 /\ openHash add_mem !! oc_key c2 = Some o2 /\
    oc_nRef c2 = countf (on_open o2) (files m) + Z.b2z (on_open o2 f) /\ 0 < oc_nRef c2 /\
    oc_nLock c2 = countf (fun g => on_open o2 g && locked g) (files m) /\
    ((oc_aPending c2 = [] /\ o2 = o) \/
     exists y, openCnts m !! o2 = Some y /\ oc_aPending y = oc_aPending c2 /\ oc_key y = oc_key c2
       /\ oc_nLock y = oc_nLock c2)) as (_ & Hh & R & R0 & N & P).
  { rewrite add_on_open. destruct (decide (o2 = o)) as [->|Hne].
    - rewrite lookup_insert_eq in H2. injection H2 as <-. simpl. rewrite bool_decide_true by done.
      rewrite add_okey, lookup_insert_eq.
      destruct Hoc as [(H & _ & Hk) | (H & _ & ->)]; simpl.
      + pose proof (st_cnt _ _ HS _ _ H) as C. pose proof (co_refpos _ _ _ _ C).
        rewrite <- (co_ref _ _ _ _ C), <- (co_nlock _ _ _ _ C).
        repeat split; try done; [lia|]. right. by exists oc.
      + rewrite count_absent_oref, count_absent_open by done. repeat split; try done. by left.
    - rewrite lookup_insert_ne in H2 by done. rewrite bool_decide_false by done.
      pose proof (st_cnt _ _ HS _ _ H2) as C.
      rewrite <- (co_ref _ _ _ _ C), <- (co_nlock _ _ _ _ C).
      repeat split; try done.
      + simpl. rewrite lookup_insert_ne; [apply (co_hash _ _ _ _ C)|]. intros E.
        pose proof (co_hash _ _ _ _ C).
        destruct Hoc as [(_ & Hh & _) | (_ & Hh & _)]; congruence.
      + simpl. lia.
      + apply (co_refpos _ _ _ _ C).
      + right. by exists c2. }
  constructor; try done.
  - rewrite add_count by apply add_off_open. done.
  - rewrite add_count by (by rewrite add_off_open). rewrite add_unlocked. simpl. lia.
  - destruct P as [[-> _] | (y & Hy & <- & _)]; [constructor | apply (co_nodup _ _ _ _ (st_cnt _ _ HS _ _ Hy))].
  - intros fd Hfd2. destruct P as [[E _] | (y & Hy & E & K & _)].
    + rewrite E in Hfd2. by apply not_elem_of_nil in Hfd2.
    + rewrite <- K. apply (co_fds _ _ _ _ (st_cnt _ _ HS _ _ Hy)). by rewrite E.
  - intros fd id2 f2 Hfd2 Hg O2 Eh. destruct P as [[E _] | (y & Hy & E & K & _)].
    + rewrite E in Hfd2. by apply not_elem_of_nil in Hfd2.
    + rewrite <- E in Hfd2. apply add_file in Hg as [[-> ->]|[_ Hg]].
      * rewrite <- Eh in Hfd2. by eapply Hpend.
      * by eapply (co_apart _ _ _ _ (st_cnt _ _ HS _ _ Hy)).
  - intros E0. destruct P as [[E _] | (y & Hy & E & K & N2)]; [done|].
    rewrite <- E. apply (co_empty _ _ _ _ (st_cnt _ _ HS _ _ Hy)). congruence.
Qed.

Lemma Str_add : Str add_mem fds.
Proof.
  pose proof add_key as Ek1. pose proof add_okey as Ek2. constructor.
  - by left.
  - intros id2 f2 H2 O2. apply add_file in H2 as [[-> ->]|[Hne H2]].
    + exists l, o, (with_lref (li_nRef x + 1) x), (with_oref (oc_nRef oc + 1) oc).
      constructor; simpl; rewrite ?add_key, ?add_okey, ?lookup_insert_eq; try done.
      * by rewrite Hfd; destruct i.
      * by rewrite Hlev.
    + destruct (st_file _ _ HS _ _ H2 O2) as (l2 & o2 & x2 & c2 & [F1 F2 F3 F4 F5 F6 F7 F8]).
      assert (exists y, lockInfos add_mem !! l2 = Some y /\ li_key y = li_key x2) as (y & Hy & Ky).
      { simpl. destruct (decide (l2 = l)) as [->|]; [|rewrite lookup_insert_ne by done; eauto].
        rewrite lookup_insert_eq. eexists. split; [done|]. simpl.
        destruct Hx as [(H & _) | (H & _)]; congruence. }
      assert (exists y, openCnts add_mem !! o2 = Some y /\ oc_key y = oc_key c2) as (c & Hc & Kc).
      { simpl. destruct (decide (o2 = o)) as [->|]; [|rewrite lookup_insert_ne by done; eauto].
        rewrite lookup_insert_eq. eexists. split; [done|]. simpl.
        destruct Hoc as [(H & _) | (H & _)]; congruence. }
      exists l2, o2, y, c. constructor; try done; rewrite ?Ky, ?Kc; done.
  - intros l2 x2 H2. simpl in H2. destruct (decide (l2 = l)) as [->|Hne].
    + rewrite lookup_insert_eq in H2. injection H2 as <-. apply add_info_self.
    + rewrite lookup_insert_ne in H2 by done. by apply add_info_other.
  - apply add_cnt.
  - intros k l2 H2. simpl in *. destruct (decide (k = key1)) as [->|Hk].
    + rewrite lookup_insert_eq in H2. injection H2 as <-.
      exists (with_lref (li_nRef x + 1) x). rewrite lookup_insert_eq. split; [done | apply add_key].
    + rewrite lookup_insert_ne in H2 by done. destruct (st_lhash _ _ HS _ _ H2) as (y & Hy & <-).
      exists y. rewrite lookup_insert_ne; [done|]. intros ->.
      destruct Hx as [(? & _) | (? & _)]; congruence.
  - intros k o2 H2. simpl in *. destruct (decide (k = key2)) as [->|Hk].
    + rewrite lookup_insert_eq in H2. injection H2 as <-.
      exists (with_oref (oc_nRef oc + 1) oc). rewrite lookup_insert_eq. split; [done | apply add_okey].
    + rewrite lookup_insert_ne in H2 by done. destruct (st_ohash _ _ HS _ _ H2) as (y & Hy & <-).
      exists y. rewrite lookup_insert_ne; [done|]. intros ->.
      destruct Hoc as [(? & _) | (? & _)]; congruence.
  - intros id1 id2 f1 f2 H1 H2 O1 O2 E.
    apply add_file in H1 as [[-> ->]|[N1 G1]], H2 as [[-> ->]|[N2 G2]]; try done.
    + exfalso. by eapply (Hnew id2).
    + exfalso. by eapply (Hnew id1).
    + by eapply (st_fds _ _ HS).
Qed.

Lemma add_handle id2 i2 t2 :
  handle add_mem id2 i2 t2 -> (id2 = id /\ t2 = NO_LOCK) \/ handle m id2 i2 t2.
Proof.
  intros (f2 & l2 & x2 & H2 & O2 & L2 & X2 & K2 & T2).
  apply add_file in H2 as [[-> ->]|[Hne H2]]; [left; by rewrite <- T2|]. right.
  simpl in X2. destruct (decide (l2 = l)) as [->|Hl].
  - rewrite lookup_insert_eq in X2. injection X2 as <-. simpl in K2.
    destruct (st_file _ _ HS _ _ H2 O2) as (l3 & ? & ? & ? & F).
    pose proof (fo_lock _ _ _ _ _ _ _ F). pose proof (fo_info _ _ _ _ _ _ _ F).
    destruct Hx as [(G & _) | (G & _)]; [|congruence]. by exists f2, l, x.
  - rewrite lookup_insert_ne in X2 by done. by exists f2, l2, x2.
Qed.
End add.

(** ** fillInUnixFile *)

(** Claims while records are made for a handle that is not open yet. *)
Lemma Claims_grow fds lvl m m' v :
  Str m fds ->
  (forall id f, files m' !! id = Some f -> is_open f = true -> files m !! id = Some f) ->
  (forall l x x0, lockInfos m' !! l = Some x -> lockInfos m !! l = Some x0 -> li_key x = li_key x0) ->
  Claims lvl m v -> Claims lvl m' v.
Proof.
  intros HS Hfs Hls. apply Claims_sub. intros id i t (f & l & x & Hf & Ho & Hl & Hx & Hi & Ht).
  specialize (Hfs _ _ Hf Ho). destruct (st_file _ _ HS _ _ Hfs Ho) as (l2 & ? & x2 & ? & F).
  pose proof (fo_info _ _ _ _ _ _ _ F) as Hx2. pose proof (fo_lock _ _ _ _ _ _ _ F).
  assert (l2 = l) as -> by congruence.
  exists f, l, x2. rewrite <- (Hls _ _ _ Hx Hx2). done.
Qed.

Section find.
Context `{Hsure : Sure}.
Context (m : pmem) (v : view) (HS : Str m (v_fd v)) (HC : Claims own_level m v).
Context (id : Z) (i : inode) (f0 : unixFile).
Context (Hf0 : files m !! id = Some f0) (Hcl : is_open f0 = false).
Local Notation key1 := (mkLockKey i.1 i.2 0).
Local Notation key2 := (mkOpenKey i.1 i.2).

(** An inode has one record exactly when it has the other. *)
Lemma hash_both : lockHash m !! key1 = None -> openHash m !! key2 = None.
Proof.
  intros Hn. destruct (openHash m !! key2) as [o|] eqn:Eo; [|done]. exfalso.
  destruct (st_ohash _ _ HS _ _ Eo) as (c & Hc & Hk). pose proof (st_cnt _ _ HS _ _ Hc) as C.
  pose proof (co_refpos _ _ _ _ C) as Hpos. rewrite (co_ref _ _ _ _ C) in Hpos.
  apply countf_some in Hpos as (id2 & f2 & H2 & [O2 P2]%on_open_spec).
  destruct (st_file _ _ HS _ _ H2 O2) as (l2 & o2 & x2 & c2 & F).
  pose proof (st_info _ _ HS _ _ (fo_info _ _ _ _ _ _ _ F)) as I.
  pose proof (io_hash _ _ _ I) as Hh. pose proof (io_tid _ _ _ I) as Ht.
  pose proof (fo_same _ _ _ _ _ _ _ F) as Es.
  assert (c2 = c) as ->.
  { pose proof (fo_open _ _ _ _ _ _ _ F). pose proof (fo_cnt _ _ _ _ _ _ _ F). congruence. }
  rewrite Hk in Es. unfold key_inode, okey_inode in Es. simpl in Es.
  destruct (li_key x2) as [d n tid]. simpl in *. congruence.
Qed.

Lemma hash_both_open l : lockHash m !! key1 = Some l -> is_Some (openHash m !! key2).
Proof.
  intros Hl. destruct (st_lhash _ _ HS _ _ Hl) as (x & Hx & Hk). pose proof (st_info _ _ HS _ _ Hx) as I.
  pose proof (io_refpos _ _ _ I) as Hpos. rewrite (io_ref _ _ _ I) in Hpos.
  apply countf_some in Hpos as (id2 & f2 & H2 & [O2 P2]%on_lock_spec).
  destruct (st_file _ _ HS _ _ H2 O2) as (l2 & o2 & x2 & c2 & F).
  pose proof (co_hash _ _ _ _ (st_cnt _ _ HS _ _ (fo_cnt _ _ _ _ _ _ _ F))) as Hh.
  pose proof (fo_same _ _ _ _ _ _ _ F) as Es.
  assert (x2 = x) as ->.
  { pose proof (fo_lock _ _ _ _ _ _ _ F). pose proof (fo_info _ _ _ _ _ _ _ F). congruence. }
  rewrite Hk in Es. unfold key_inode, okey_inode in Es. simpl in Es.
  destruct (oc_key c2) as [d n]. simpl in *. injection Es as -> ->. by exists o2.
Qed.

(** No handle of the inode is open when it has no record. *)
Lemma no_handle : lockHash m !! key1 = None -> forall id2 t, ~ handle m id2 i t.
Proof.
  intros Hn id2 t (f2 & l2 & x2 & H2 & O2 & L2 & X2 & K2 & T2).
  pose proof (st_info _ _ HS _ _ X2) as I. pose proof (io_hash _ _ _ I). pose proof (io_tid _ _ _ I).
  destruct (li_key x2). unfold key_inode in K2. simpl in *. subst i. simpl in *. congruence.
Qed.

Definition found (rc : Z) (m' : pmem) (v' : view) : Prop :=
  v' = v /\
  ((rc = SQLITE_OK /\ exists l o x oc, info_base m key1 l x /\ cnt_base m key2 o oc /\
     m' = add_mem m i id (with_pOpen (Some o) (with_pLock (Some l) f0)) l o x oc) \/
   (rc <> SQLITE_OK /\ (forall id2 t, ~ handle m id2 i t) /\
    exists f', is_open f' = false /\ m' = set_files (<[id := f']> (files m)) m)).

Lemma find_not_found rc : rc <> SQLITE_OK -> lockHash m !! key1 = None -> found rc m v.
Proof.
  intros Hrc Hn. split; [done|]. right. split; [done|]. split; [by apply no_handle|].
  exists f0. split; [done|]. unfold set_files. rewrite insert_id by done. by destruct m.
Qed.

Lemma find_claims m' :
  (exists f', is_open f' = false /\ files m' = <[id := f']> (files m)) ->
  (forall l x x0, lockInfos m' !! l = Some x -> lockInfos m !! l = Some x0 -> li_key x = li_key x0) ->
  Claims own_level m' v.
Proof.
  intros (f' & Hcl' & E) Hls. eapply Claims_grow; [exact HS | | exact Hls | done].
  intros id2 f2. rewrite E. destruct (decide (id2 = id)) as [->|Hne].
  - rewrite lookup_insert_eq. intros [= <-] ?. congruence.
  - by rewrite lookup_insert_ne.
Qed.

(** [findLockInfo] once the keys are known. *)
Definition find_rest : M Z :=
  '(rc, pLock) ← find_lock key1;
  if negb (rc =? SQLITE_OK) then mret rc else
  store_pLock id pLock;;
  '(rc, pOpen) ← find_open key2 pLock;
  if negb (rc =? SQLITE_OK) then mret rc else
  store_pOpen id pOpen;; mret rc.

Lemma find_rest_wp : wp (At own_level) (find_rest m) v found.
Proof.
  unfold find_rest.
  wstep. unfold find_lock. wstep. wstep.
  destruct (lockHash m !! key1) as [l|] eqn:El.
  - (* both records are there *)
    destruct (st_lhash _ _ HS _ _ El) as (x & Hx & Hxk).
    destruct (hash_both_open l El) as [o Eo].
    destruct (st_ohash _ _ HS _ _ Eo) as (c & Hc & Hck).
    wsteps. cbn [Z.eqb negb SQLITE_OK]. unfold store_pLock, store_pOpen, find_open. simpl.
    wsteps. rewrite Eo. wsteps. simpl. wsteps.
    split; [done|]. left. split; [done|]. exists l, o, x, c.
    split; [by left|]. split; [by left|]. wmem. unfold add_mem.
    by rewrite (insert_id (lockHash m)), (insert_id (openHash m)).
  - pose proof (hash_both El) as Eo.
    set (l := fresh (dom (lockInfos m))).
    assert (lockInfos m !! l = None) as Hl by apply not_elem_of_dom, is_fresh.
    unfold new_lock. apply wp_bind, wp_bind, wp_malloc; [done|]. intros [|]; cbv beta iota.
    2:{ wsteps. simpl. wsteps. by apply find_not_found. }
    wsteps. fold l. unfold lockHash_insert. wsteps. simpl. rewrite El. wsteps.
    apply wp_malloc.
    { apply find_claims; [exists f0; split; [done|]; simpl; by rewrite insert_id|].
      simpl. intros l2 y y0 H2 H0. rewrite lookup_insert_ne in H2; congruence. }
    intros [|]; cbv beta iota.
    2:{ wsteps. apply wp_assert; [by apply bool_decide_eq_true|]. wsteps. unfold free_lock. wsteps.
        simpl. wsteps. wmem. rewrite delete_insert_id by done.
        assert (m = mkPmem (files m) (lockInfos m) (openCnts m) (lockHash m) (openHash m)
                      (threadsOverrideEachOthersLocks m)) as <- by (by destruct m).
        by apply find_not_found. }
    wsteps. simpl. unfold store_pLock, find_open. wsteps. simpl. rewrite Eo.
    set (o := fresh (dom (openCnts m))).
    assert (openCnts m !! o = None) as Ho by apply not_elem_of_dom, is_fresh.
    assert (forall m', (exists f', is_open f' = false /\ files m' = <[id := f']> (files m)) ->
      lockInfos m' = <[l := mkLockInfo key1 0 0 1]> (lockInfos m) -> Claims own_level m' v) as Hcls.
    { intros m' Hf' E. apply find_claims; [done|]. rewrite E. intros l2 y y0 H2 H0.
      rewrite lookup_insert_ne in H2; congruence. }
    assert (forall f' m', files m' = <[id := f']> (files m) -> is_open f' = false ->
      lockInfos m' = <[l := mkLockInfo key1 0 0 1]> (lockInfos m) ->
      lockHash m' = <[key1 := l]> (lockHash m) -> openCnts m' = openCnts m ->
      openHash m' = openHash m ->
      threadsOverrideEachOthersLocks m' = threadsOverrideEachOthersLocks m ->
      forall Q, (forall m2, found SQLITE_NOMEM m2 v -> Q tt m2 v) ->
      wp (At own_level) (releaseLockInfo (Some l) m') v Q) as Hrel.
    { intros f' m' A1 A0 A2 A3 A4 A5 A6 Q HQ. eapply releaseLockInfo_wp.
      { rewrite A2. apply lookup_insert_eq. }
      cbn [li_nRef li_key]. simpl. rewrite A1, A2, A3, A4, A5, A6.
      rewrite !delete_insert_id by done. apply HQ. split; [done|]. right.
      split; [done|]. split; [by apply no_handle|]. by exists f'. }
    unfold new_open. apply wp_bind, wp_bind, wp_malloc.
    { apply Hcls; [|done]. by exists (with_pLock (Some l) f0). }
    intros [|]; cbv beta iota.
    2:{ wsteps. by eapply (Hrel (with_pLock (Some l) f0)). }
    wsteps. simpl. fold o. unfold openHash_insert. wsteps. simpl. rewrite Eo. wsteps. apply wp_malloc.
    { apply Hcls; [|done]. by exists (with_pLock (Some l) f0). }
    intros [|]; cbv beta iota.
    2:{ wsteps. apply wp_assert; [by apply bool_decide_eq_true|]. wsteps. unfold free_open. wsteps.
        eapply (Hrel (with_pLock (Some l) f0)); try done. simpl.
        by rewrite delete_insert_id. }
    wsteps. simpl. unfold store_pOpen. wsteps. wmem. split; [done|]. left. split; [done|].
    exists l, o, (mkLockInfo key1 0 NO_LOCK 0), (mkOpenCnt key2 0 0 []).
    split; [by right|]. split; [by right|]. done.
Qed.
End find.

(** A process without an open handle relies on no lock. *)
Lemma Claims_closed lvl m v :
  (forall id f, files m !! id = Some f -> is_open f = false) -> Claims lvl m v.
Proof.
  intros Hcl. assert (forall id i t, ~ handle m id i t) as Hno.
  { intros id i t (f & l & x & Hf & Ho & _). by rewrite (Hcl _ _ Hf) in Ho. }
  split; repeat intro; exfalso; by eapply Hno.
Qed.

(** The test of thread locks when the kernel refuses nothing: the threads
    override each other's locks, and the second descriptor is closed again. *)
Lemma testThreadLockingBehavior_wp `{Hsure : Sure} m v fd i :
  sure = true -> (forall id f, files m !! id = Some f -> is_open f = false) ->
  v_fd v fd = Some i ->
  wp (At own_level) (testThreadLockingBehavior fd m) v
    (fun _ m' v' => m' = set_override 1 m /\ forall d, v_fd v' d = v_fd v d).
Proof.
  intros Hs Hcl Hfd. assert (forall w, Claims own_level m w) as HC by (intros; by apply Claims_closed).
  unfold testThreadLockingBehavior. apply wp_bind, wp_call; [apply HC|].
  intros a v' [Ha Hr]. specialize (Hr Hs). simpl in Hr.
  inversion Ha as [| | | | | |? j ? E1 E2 E3|? ? E1| |]; subst; [|by rewrite E1 in Hr].
  rewrite Hfd in E1. injection E1 as <-. rewrite (proj2 (Z.ltb_ge _ 0)) by done.
  apply wp_bind, wp_call; [apply HC|]. intros b v2 [Hb _]. inversion Hb; subst.
  apply wp_bind. eapply (wp_setlk _ _ _ _ i); [apply HC | simpl; by rewrite decide_True | | by rewrite Hs].
  intros e1. cbv beta iota. apply wp_bind.
  eapply (wp_setlk _ _ _ _ i); [apply HC | simpl; by rewrite decide_True | | by rewrite Hs].
  intros e2. cbv beta iota. apply wp_bind, wp_close; [apply HC|]. wsteps. split; [done|].
  intros d. simpl. by case_decide; subst.
Qed.

(** The contents of a handle that is not open do not matter. *)
Lemma Str_closed m fds id f' :
  Str m fds -> (forall f, files m !! id = Some f -> is_open f = false) -> is_open f' = false ->
  Str (set_files (<[id := f']> (files m)) m) fds.
Proof.
  intros HS Hcl Hcl'. set (m' := set_files _ m).
  assert (forall id2 f2, files m' !! id2 = Some f2 -> is_open f2 = true -> files m !! id2 = Some f2) as Hback.
  { intros id2 f2. simpl. destruct (decide (id2 = id)) as [->|Hne].
    - rewrite lookup_insert_eq. intros [= <-] ?. congruence.
    - by rewrite lookup_insert_ne. }
  assert (forall id2 f2, files m !! id2 = Some f2 -> is_open f2 = true -> files m' !! id2 = Some f2) as Hfwd.
  { intros id2 f2 H2 O2. simpl. rewrite lookup_insert_ne; [done|]. intros ->.
    rewrite (Hcl _ H2) in O2. done. }
  assert (forall P, (forall g, is_open g = false -> P g = false) -> countf P (files m') = countf P (files m)) as Hcount.
  { intros P HP. simpl. destruct (files m !! id) as [f|] eqn:Ef.
    - rewrite (countf_insert P _ _ _ _ Ef), !HP by auto. simpl. lia.
    - by rewrite (countf_new P _ _ _ Ef), HP. }
  assert (forall l g, is_open g = false -> on_lock l g = false /\ on_open l g = false) as Hoff.
  { intros l g E. unfold on_lock, on_open. by rewrite E. }
  assert (forall l g b, is_open g = false -> (on_lock l g && b) = false /\ (on_open l g && b) = false) as Hoff2.
  { intros l g b E. unfold on_lock, on_open. by rewrite E. }
  destruct HS as [S1 S2 S3 S4 S5 S6 S7]. constructor; try done.
  - destruct S1 as [|[E Hno]]; [by left|]. right. split; [done|]. intros id2 f2 H2.
    destruct (is_open f2) eqn:O2; [|done]. by rewrite (Hno _ _ (Hback _ _ H2 O2)) in O2.
  - intros id2 f2 H2 O2. destruct (S2 _ _ (Hback _ _ H2 O2) O2) as (l & o & x & oc & [F1 F2 F3 F4 F5 F6 F7 F8]).
    exists l, o, x, oc. by constructor.
  - intros l x Hl. destruct (S3 _ _ Hl) as [I1 I2 I3 I4 I5 I6 I7 I8 I9 I10 I11]. constructor; try done.
    + rewrite Hcount; [done|]. intros g E. apply (Hoff _ _ E).
    + rewrite Hcount; [done|]. intros g E. apply (Hoff2 _ _ _ E).
    + intros id2 f2 H2 O2. pose proof (proj1 (proj1 (on_lock_spec _ _) O2)). eauto.
    + intros id1 id2 f1 f2 H1 H2 O1 O2. pose proof (proj1 (proj1 (on_lock_spec _ _) O1)).
      pose proof (proj1 (proj1 (on_lock_spec _ _) O2)). eauto.
    + intros Hgt. destruct (I11 Hgt) as (id2 & f2 & H2 & O2 & T2).
      pose proof (proj1 (proj1 (on_lock_spec _ _) O2)). exists id2, f2. auto.
  - intros o oc Ho. destruct (S4 _ _ Ho) as [C1 C2 C3 C4 C5 C6 C7 C8]. constructor; try done.
    + rewrite Hcount; [done|]. intros g E. apply (Hoff _ _ E).
    + rewrite Hcount; [done|]. intros g E. apply (Hoff2 _ _ _ E).
    + intros fd id2 f2 Hfd H2 O2. eauto.
  - intros id1 id2 f1 f2 H1 H2 O1 O2. eauto.
Qed.

(** What [findLockInfo] does for a handle to be opened. *)
Definition found_from (m : pmem) (i : inode) (id : Z) (f0 : unixFile) (rc : Z) (m' : pmem) (v' : view)
    : Prop :=
  exists m1, m1 = set_override 1 m /\ Str m1 (v_fd v') /\ Claims own_level m1 v' /\
    found m1 v' id i f0 rc m' v'.

Lemma findLockInfo_wp `{Hsure : Sure} self fd id i f0 m v :
  sure = true -> Str m (v_fd v) -> Claims own_level m v -> v_fd v fd = Some i ->
  files m !! id = Some f0 -> is_open f0 = false ->
  wp (At own_level) (findLockInfo self fd (store_pLock id) (Some (store_pOpen id)) m) v
    (fun rc m' v' => v_fd v' fd = Some i /\ found_from m i id f0 rc m' v').
Proof.
  intros Hs HS HC Hfd Hf0 Hcl. unfold findLockInfo. apply wp_bind, wp_call; [done|].
  intros st v' [Ha Hr]. specialize (Hr Hs). simpl in Hr.
  inversion Ha as [| | | |? j ? E1 E2 E3|? ? E1| | | |]; subst; [|by rewrite E1 in Hr].
  rewrite Hfd in E1. injection E1 as Ei.
  rewrite E2. cbn [Z.eqb negb]. wstep. wstep.
  set (m1 := set_override 1 m).
  assert (forall w, (forall d, v_fd w d = v_fd v' d) -> Str m1 (v_fd w)) as HS1.
  { intros w Hw. apply (Str_fds _ (v_fd v')); [|by intros..].
    destruct HS as [S1 S2 S3 S4 S5 S6 S7]. constructor; simpl; try done; [by left| | |].
    - intros id2 f2 H2 O2. destruct (S2 _ _ H2 O2) as (l & o & x & oc & []). by exists l, o, x, oc.
    - intros l x Hx. by destruct (S3 _ _ Hx).
    - intros o oc Ho. by destruct (S4 _ _ Ho). }
  assert (forall w, (forall d, v_fd w d = v_fd v' d) -> Claims own_level m1 w ->
    wp (At own_level)
      ((t ← os_get (fun m => Some (threadsOverrideEachOthersLocks m));
        let key1 := mkLockKey (a_dev st) (a_ino st) (if negb (t =? 0) then 0 else self) in
        let key2 := mkOpenKey (a_dev st) (a_ino st) in
        '(rc, pLock) ← find_lock key1;
        if negb (rc =? SQLITE_OK) then mret rc else
        store_pLock id pLock;;
        '(rc, pOpen) ← find_open key2 pLock;
        if negb (rc =? SQLITE_OK) then mret rc else
        store_pOpen id pOpen;; mret rc) m1) w
      (fun rc m' v' => v_fd v' fd = Some i /\ found_from m i id f0 rc m' v')) as Hrest.
  { intros w Hw HCw. wstep. wstep. simpl.
    replace (mkLockKey (a_dev st) (a_ino st) 0) with (mkLockKey i.1 i.2 0) by (by rewrite Ei).
    replace (mkOpenKey (a_dev st) (a_ino st)) with (mkOpenKey i.1 i.2) by (by rewrite Ei).
    eapply wp_mono; [by apply (find_rest_wp m1 w (HS1 w Hw) HCw id i f0)|].
    intros rc m' v2 [-> HF]. split; [by rewrite Hw|]. exists m1.
    split; [done|]. split; [by apply HS1|]. by split. }
  apply wp_bind. destruct (st_override _ _ HS) as [E|[E Hno]]; rewrite E.
  - cbn [Z.ltb Z.compare Pos.compare]. wstep.
    assert (m1 = m) as Em by (unfold m1, set_override; rewrite <- E; by destruct m).
    rewrite Em in Hrest. by apply Hrest.
  - cbn [Z.ltb Z.compare Pos.compare].
    eapply wp_mono; [by eapply (testThreadLockingBehavior_wp m v' fd i)|].
    intros _ m2 w [-> Hw]. apply Hrest; [done|]. apply Claims_closed. exact Hno.
Qed.

Definition open_outcome (id h : Z) (m : pmem) (rc : Z) (m' : pmem) (v' : view) : Prop :=
  Inv m' v' /\ exists f, files m' = <[id := f]> (files m) /\
    ((rc = SQLITE_OK /\ is_open f = true /\ f_h f = h /\ f_locktype f = NO_LOCK) \/
     (rc <> SQLITE_OK /\ is_open f = false)).

Lemma fillInUnixFile_wp `{Hsure : Sure} self h dirfd id zFilename fsInfo m v i :
  sure = true -> Inv m v -> posix_fs fsInfo -> dirfd < 0 -> files m !! id = Some zero_file ->
  v_fd v h = Some i ->
  (forall id2 f2, files m !! id2 = Some f2 -> is_open f2 = true -> f_h f2 <> h) ->
  (forall o2 c2, openCnts m !! o2 = Some c2 -> h ∉ oc_aPending c2) ->
  wp (At own_level) (fillInUnixFile self h dirfd id zFilename fsInfo m) v
    (open_outcome id h m).
Proof.
  intros Hs [HS0 HC0] (name & -> & Hname) Hdir Hf0 Hh0 Hnew Hpend. unfold fillInUnixFile.
  assert (sqlite3DetectLockingStyle (Some (mkStatfs false name)) h = mret posixLockingStyle) as ->
    by (by destruct Hname as [-> | ->]).
  wstep. wstep. apply wp_bind, wp_bind.
  eapply wp_mono; [by eapply (findLockInfo_wp self h id i zero_file m v)|].
  intros rc m2 v1 (Hh & m1 & Em & HS & HC & _ & Hfound).
  assert (files m1 = files m /\ openCnts m1 = openCnts m /\ threadsOverrideEachOthersLocks m1 = 1)
    as (Ef & Eo & Hmode) by by rewrite Em.
  clear Em. rewrite <- Ef in *. rewrite <- Eo in Hpend. unfold open_outcome. rewrite <- Ef.
  destruct Hfound as [(-> & l & o & x & oc & Hx & Hoc & ->) | (Hrc & Hno & f' & Hcl & ->)].
  - cbn [Z.eqb negb SQLITE_OK]. wstep. cbv beta. wsteps. cbn [Z.eqb negb SQLITE_OK style_methods].
    wsteps. unfold add_mem. wmem.
    set (f := with_methods sqlite3UnixIoMethod None _).
    assert (Inv (add_mem m1 i id f l o x oc) v1) as HI.
    { apply Inv_intro; [by eapply Str_add|]. intros id2 i2 t2 Hh2.
      eapply add_handle in Hh2 as [[_ ->]|Hh2]; [by apply claim_none | apply (proj1 HC _ _ _ Hh2) | done..]. }
    split; [exact HI|]. exists f. split; [done|]. by left.
  - rewrite (proj2 (Z.eqb_neq rc 0) Hrc). cbn [negb].
    rewrite Z.geb_leb, (proj2 (Z.leb_gt 0 dirfd)) by lia. wsteps.
    assert (Claims own_level (set_files (<[id := f']> (files m1)) m1) v1) as HC1.
    { eapply Claims_grow; [exact HS | | |done].
      - intros id2 f2. simpl. destruct (decide (id2 = id)) as [->|Hne].
        + rewrite lookup_insert_eq. intros [= <-] ?. congruence.
        + by rewrite lookup_insert_ne.
      - simpl. congruence. }
    assert (forall id2 i2 t2, handle (set_files (<[id := f']> (files m1)) m1) id2 i2 t2 -> handle m1 id2 i2 t2) as Hback.
    { intros id2 i2 t2 (f2 & l2 & x2 & H2 & O2 & R2). simpl in *.
      destruct (decide (id2 = id)) as [->|Hne].
      - rewrite lookup_insert_eq in H2. injection H2 as <-. congruence.
      - rewrite lookup_insert_ne in H2 by done. by exists f2, l2, x2. }
    apply wp_close; [done|]. wsteps. rewrite (proj2 (Z.eqb_neq rc 0) Hrc). cbn [negb]. wsteps.
    split; [split|].
    + apply (Str_fds _ (v_fd v1)).
      * apply Str_closed; [done| |done]. intros g Hg. rewrite Hf0 in Hg. by injection Hg as <-.
      * intros id2 f2 H2 O2. apply close_fd_other. simpl in H2.
        destruct (decide (id2 = id)) as [->|Hne].
        -- rewrite lookup_insert_eq in H2. injection H2 as <-. congruence.
        -- rewrite lookup_insert_ne in H2 by done. eauto.
      * intros o2 c2 fd H2 Hfd. apply close_fd_other. intros ->. by eapply Hpend.
    + apply Claims_close; [done|]. intros j id2 t2 Hj Hh2. rewrite Hh in Hj. injection Hj as <-.
      exfalso. eapply Hno. by eapply Hback.
    + exists f'. split; [done|]. by right.
Qed.
