(* ===== verification/UnixLockWorld.v ===== *)
(** * Processes that lock the same files

    The lock functions of UnixLock.v run by any number of processes over one
    kernel, interleaved at every system call. The step relation takes the
    kernel as the interface [Kernel]; the theorems are about every state that
    can be reached. A process starts without knowing whether its threads
    override each other's locks and finds out when it opens its first file.
    The world keeps which processes the kernel has refused something that the
    locking protocol relies on ([w_refused]): the guarantees are those of the
    other processes. What such a refusal can do is shown at the end. *)

From Stdlib Require Import String.
From S2P Require Import Prelude UnixOs UnixLock UnixLockInv UnixLockWp UnixLockOpen.

(** ** The functions called by the pager *)

Inductive op :=
| op_lock (id t : Z)
| op_unlock (id t : Z)
| op_check (id : Z)
| op_close (id : Z)
| op_open (id h dirfd : Z) (zFilename : list Z) (fsInfo : option statfs).

Definition run_op (self : Z) (o : op) : M Z :=
  match o with
  | op_lock id t => unixLock self id t
  | op_unlock id t => unixUnlock self id t
  | op_check id => unixCheckReservedLock id
  | op_close id => unixClose self id
  | op_open id h dirfd z fs => fillInUnixFile self h dirfd id z fs
  end.

(** What the caller of a function promises. *)
Definition allowed (m : pmem) (o : op) : Prop :=
  match o with
  | op_lock id t => exists f, files m !! id = Some f /\ is_open f = true /\ lock_request f t
  | op_unlock id t => exists f, files m !! id = Some f /\ is_open f = true /\
      (t = NO_LOCK \/ t = SHARED_LOCK)
  | op_check id | op_close id => exists f, files m !! id = Some f /\ is_open f = true
  | op_open _ _ _ _ _ => False
  end.

(** The levels that count during a call: a handle that is being lowered has
    given its level up already. *)
Definition op_level (o : op) : Z -> Z -> Z :=
  match o with
  | op_unlock id t => lowered id t
  | op_close id => lowered id NO_LOCK
  | _ => own_level
  end.

(** The calls in which a refusal is not part of the protocol: giving locks up,
    and fstat, dup and the two locks of the thread test when a file is opened.
    A lock that [unixLock] asks for may be refused, and so may the release of
    the pending byte in it. *)
Definition careful (o : op) : bool :=
  match o with
  | op_lock _ _ | op_check _ => false
  | op_unlock _ _ | op_close _ | op_open _ _ _ _ _ => true
  end.

Definition note_refusal (p : Z) (o : op) (r : syscall) (a : answer) (s : gset Z) : gset Z :=
  if careful o && refused r a then {[p]} ∪ s else s.

Inductive proc := Idle (m : pmem) | Running (o : op) (p : prog pmem Z).

Section world.
Context {K : Type} `{!Kernel K}.

(** [w_refused] is history: the code does not know it. *)
Record world := mkWorld { w_kern : K; w_procs : gmap Z proc; w_refused : gset Z }.

Definition set_proc (p : Z) (s : proc) (w : world) : world :=
  mkWorld (w_kern w) (<[p := s]> (w_procs w)) (w_refused w).

Inductive step (w : world) : world -> Prop :=
| step_call p m self o :
    w_procs w !! p = Some (Idle m) -> allowed m o ->
    step w (set_proc p (Running o (run_op self o m)) w)
| step_open p m self id h i k' dirfd z fs :
    w_procs w !! p = Some (Idle m) ->
    (forall f, files m !! id = Some f -> is_open f = false) ->
    dirfd < 0 -> posix_fs fs -> k_open (w_kern w) p h i k' ->
    step w (mkWorld k' (<[p := Running (op_open id h dirfd z fs)
      (run_op self (op_open id h dirfd z fs) (set_files (<[id := zero_file]> (files m)) m))]> (w_procs w)) (w_refused w))
| step_sys p o m r k a k' :
    w_procs w !! p = Some (Running o (Call m r k)) -> k_step (w_kern w) p r a k' ->
    step w (mkWorld k' (<[p := Running o (k a)]> (w_procs w)) (note_refusal p o r a (w_refused w)))
| step_return p o rc m :
    w_procs w !! p = Some (Running o (Done rc m)) ->
    step w (set_proc p (Idle m) w).

(** A process that has not used the library yet:
    [SQLITE_THREAD_OVERRIDE_LOCK] is -1. *)
Definition fresh_mem : pmem := mkPmem ∅ ∅ ∅ ∅ ∅ (-1).

Definition init (w : world) : Prop :=
  no_conflict (k_views (w_kern w)) /\ w_refused w = ∅ /\
  forall p s, w_procs w !! p = Some s -> s = Idle fresh_mem.

Definition reachable (w : world) : Prop := exists w0, init w0 /\ rtc step w0 w.

(** The level that the handle [id] of process [p] may rely on. *)
Definition holds (w : world) (p id : Z) (i : inode) (t : Z) : Prop :=
  match w_procs w !! p with
  | Some (Idle m) | Some (Running _ (Done _ m)) => handle m id i t
  | Some (Running o (Call m _ _)) => exists t0, handle m id i t0 /\ t = op_level o id t0
  | _ => False
  end.

(** ** The invariant of a process in the middle of a call *)

Definition proc_ok (s : proc) (v : view) : Prop :=
  match s with
  | Idle m => Inv m v
  | Running o p => wp (Answers0 := @view_answers (careful o)) (At (op_level o)) p v (fun _ m v => Inv m v)
  end.

Definition world_ok (w : world) : Prop :=
  no_conflict (k_views (w_kern w)) /\
  forall p s, p ∉ w_refused w -> w_procs w !! p = Some s -> proc_ok s (k_views (w_kern w) p).

Lemma unixCheckReservedLock_wp `{Hsure : Sure} id m v f :
  Inv m v -> files m !! id = Some f -> is_open f = true ->
  wp (At own_level) (unixCheckReservedLock id m) v (fun _ m' v' => Inv m' v').
Proof.
  intros [HS HC] Hf Hopen. destruct (st_file _ _ HS _ _ Hf Hopen) as (l & o & x & oc & HF).
  pose proof (fo_info _ _ _ _ _ _ _ HF) as Hlock. pose proof (fo_lock _ _ _ _ _ _ _ HF) as HlP.
  unfold unixCheckReservedLock. wsteps. destruct (_ >? _); [by wsteps|].
  apply wp_bind, wp_call; [done|]. intros a v' [Ha _]. inversion Ha; subst. by wsteps.
Qed.

Lemma run_op_ok self o m v :
  Inv m v -> allowed m o ->
  wp (Answers0 := @view_answers (careful o)) (At (op_level o)) (run_op self o m) v
    (fun _ m v => Inv m v).
Proof.
  intros HI Hal. destruct o as [id t|id t|id|id|]; simpl in *; [.. | done].
  - destruct Hal as (f & Hf & Ho & Hr). eapply wp_mono; [by eapply unixLock_wp|].
    by intros ? ? ? [? _].
  - destruct Hal as (f & Hf & Ho & Hr). eapply wp_mono; [by eapply unixUnlock_wp|].
    by intros ? ? ? (_ & _ & [(_ & ? & _)|[? _]]).
  - destruct Hal as (f & Hf & Ho). by eapply unixCheckReservedLock_wp.
  - destruct Hal as (f & Hf & Ho). eapply wp_mono; [by eapply unixClose_wp|].
    by intros ? ? ? (_ & _ & [?|?] & _).
Qed.

Lemma fresh_mem_inv v : Inv fresh_mem v.
Proof.
  apply Inv_intro.
  - constructor; simpl; try (intros *; by rewrite lookup_empty).
    right. split; [done|]. intros id f. by rewrite lookup_empty.
  - intros id i t (f & l & x & Hf & _). simpl in Hf. by rewrite lookup_empty in Hf.
Qed.

(** Opening a descriptor that was not in use. *)
Lemma Inv_open_fd m v h i :
  Inv m v -> v_fd v h = None ->
  Inv m (open_fd h i v) /\
  (forall id2 f2, files m !! id2 = Some f2 -> is_open f2 = true -> f_h f2 <> h) /\
  (forall o2 c2, openCnts m !! o2 = Some c2 -> h ∉ oc_aPending c2).
Proof.
  intros [HS HC] Hh.
  assert (forall id2 f2, files m !! id2 = Some f2 -> is_open f2 = true -> f_h f2 <> h) as H1.
  { intros id2 f2 H2 O2 E. destruct (st_file _ _ HS _ _ H2 O2) as (? & ? & ? & ? & F).
    pose proof (fo_fd _ _ _ _ _ _ _ F). congruence. }
  assert (forall o2 c2, openCnts m !! o2 = Some c2 -> h ∉ oc_aPending c2) as H2.
  { intros o2 c2 H2 Hin. pose proof (co_fds _ _ _ _ (st_cnt _ _ HS _ _ H2) _ Hin). congruence. }
  split; [|done]. apply Inv_intro.
  2:{ intros id j t Hh2. destruct (proj1 HC _ _ _ Hh2). by constructor. }
  eapply Str_fds; [exact HS| |].
  - intros id2 f2 G O. simpl. rewrite decide_False; [done|]. by eapply H1.
  - intros o2 c2 fd G Hin. simpl. rewrite decide_False; [done|]. intros ->. by eapply H2.
Qed.

(** The memory of a handle is cleared before it is filled in. *)
Lemma Inv_zero m v id :
  Inv m v -> (forall f, files m !! id = Some f -> is_open f = false) ->
  Inv (set_files (<[id := zero_file]> (files m)) m) v.
Proof.
  intros [HS [HB HE]] Hcl.
  assert (forall id2 i t, handle (set_files (<[id := zero_file]> (files m)) m) id2 i t -> handle m id2 i t) as Hh.
  { intros id2 i t (f2 & l2 & x2 & H2 & O2 & R2). simpl in *.
    destruct (decide (id2 = id)) as [->|Hne].
    - rewrite lookup_insert_eq in H2. by injection H2 as <-.
    - rewrite lookup_insert_ne in H2 by done. by exists f2, l2, x2. }
  apply Inv_intro; [|intros id2 i t H2; by apply HB, Hh].
  by apply Str_closed.
Qed.

Lemma world_ok_set w p s k' R :
  world_ok w -> no_conflict (k_views k') -> w_refused w ⊆ R ->
  (forall q, q <> p -> k_views k' q = k_views (w_kern w) q) ->
  (p ∉ R -> proc_ok s (k_views k' p)) ->
  world_ok (mkWorld k' (<[p := s]> (w_procs w)) R).
Proof.
  intros [_ Hp] Hn HR Hoth Hs. split; [done|]. simpl. intros q s2 Hr Hq.
  destruct (decide (q = p)) as [->|Hne].
  - rewrite lookup_insert_eq in Hq. injection Hq as <-. by apply Hs.
  - rewrite lookup_insert_ne in Hq by done. rewrite Hoth by done. apply Hp; [set_solver | done].
Qed.

(** An [open] changes the descriptors only. *)
Lemma no_conflict_open k p h i k' :
  k_open k p h i k' -> no_conflict (k_views k) -> no_conflict (k_views k').
Proof.
  intros Ho Hn p1 q j b Hne. destruct (k_open_own _ _ _ _ _ Ho) as (_ & _ & E).
  assert (forall r c, v_lock (k_views k' r) j c = v_lock (k_views k r) j c) as El.
  { intros r c. destruct (decide (r = p)) as [->|Hr]; [by rewrite E|].
    by rewrite (k_open_other _ _ _ _ _ r Ho Hr). }
  rewrite !El. by apply Hn.
Qed.

Lemma step_ok w w' : step w w' -> world_ok w -> world_ok w'.
Proof.
  intros Hs HW. pose proof HW as [Hn Hp].
  destruct Hs as [p m self o Hm Hal | p m self id h i k' dirfd z fs Hm Hcl Hd Hfs Hop
                 | p o m r k a k' Hm Hk | p o rc m Hm].
  - apply world_ok_set; try done. intros Hr. apply run_op_ok; [by apply (Hp _ _ Hr Hm) | done].
  - destruct (k_open_own _ _ _ _ _ Hop) as (Hh & _ & E).
    apply world_ok_set; [done | by eapply no_conflict_open | done | intros; by eapply k_open_other |].
    intros Hr. rewrite E. cbn [proc_ok op_level run_op careful].
    assert (Inv (set_files (<[id := zero_file]> (files m)) m) (k_views (w_kern w) p)) as HI.
    { apply Inv_zero; [apply (Hp _ _ Hr Hm) | done]. }
    destruct (Inv_open_fd _ _ h i HI Hh) as (HI' & H1 & H2).
    eapply wp_mono; [eapply (fillInUnixFile_wp self h dirfd id z fs _ _ i); try done|].
    + simpl. apply lookup_insert_eq.
    + simpl. by rewrite decide_True.
    + by intros ? ? ? [? _].
  - unfold note_refusal.
    apply world_ok_set; [done | by eapply k_step_excl | | intros; by eapply k_step_other |].
    { destruct (_ && _); set_solver. }
    intros Hr. destruct (careful o && refused r a) eqn:Ec; [set_solver|].
    destruct (Hp _ _ Hr Hm) as [_ Hwp]. apply Hwp. split; [by apply k_step_own|].
    intros Hs. unfold sure in Hs. by rewrite Hs in Ec.
  - apply world_ok_set; try done. intros Hr. apply (Hp _ _ Hr Hm).
Qed.

Lemma reachable_ok w : reachable w -> world_ok w.
Proof.
  intros (w0 & (Hn & _ & Hi) & Hst). revert w Hst. apply rtc_ind_r.
  - split; [done|]. intros p s _ Hs. rewrite (Hi _ _ Hs). apply fresh_mem_inv.
  - intros w1 w2 _ H12 IH. by eapply step_ok.
Qed.

(** Levels are backed by locks, and the handles of one process exclude each
    other. *)
Lemma holds_claim w p id i t :
  world_ok w -> p ∉ w_refused w -> holds w p id i t -> claim (k_views (w_kern w) p) i t.
Proof.
  intros [_ Hp] Hr Hh. unfold holds in Hh. destruct (w_procs w !! p) as [s|] eqn:Es; [|done].
  specialize (Hp _ _ Hr Es). destruct s as [m|o [rc m|m r k| |]]; try done.
  - apply (proj1 (proj2 Hp) _ _ _ Hh).
  - apply (proj1 (proj2 Hp) _ _ _ Hh).
  - destruct Hh as (t0 & Hh & ->). destruct Hp as [[HB _] _]. apply (HB _ _ _ Hh).
Qed.

Lemma holds_excludes w p id1 id2 i t1 t2 :
  world_ok w -> p ∉ w_refused w -> id1 <> id2 -> holds w p id1 i t1 -> holds w p id2 i t2 ->
  excludes t1 t2.
Proof.
  intros [_ Hp] Hr Hne H1 H2. unfold holds in *. destruct (w_procs w !! p) as [s|] eqn:Es; [|done].
  specialize (Hp _ _ Hr Es). destruct s as [m|o [rc m|m r k| |]]; try done.
  - apply (proj2 (proj2 Hp) _ _ _ _ _ Hne H1 H2).
  - apply (proj2 (proj2 Hp) _ _ _ _ _ Hne H1 H2).
  - destruct H1 as (s1 & H1 & ->), H2 as (s2 & H2 & ->). destruct Hp as [[_ HE] _].
    apply (HE _ _ _ _ _ Hne H1 H2).
Qed.

Lemma shared_first : in_shared SHARED_FIRST.
Proof. lconst. lia. Qed.

(** C12: In every state that processes can reach by opening, locking,
    unlocking and closing files, interleaved at every system call, from a
    start in which no process knows how its threads' locks behave (on file
    systems that get POSIX locks, the handles without a descriptor of a
    directory), the following holds of the handles of processes to which the kernel has not
    refused to give up a lock in unixUnlock or unixClose, nor fstat, dup or
    the two test locks when they opened a file ([w_refused] holds the others,
    which do as they like): a handle with an EXCLUSIVE lock is the only handle
    of its file, in any such process, that has a lock at all; at most one
    handle has a RESERVED lock; and at most one has a PENDING or EXCLUSIVE
    lock. *)
Theorem unix_lock_exclusion w p1 id1 p2 id2 i t1 t2 :
  reachable w -> p1 ∉ w_refused w -> p2 ∉ w_refused w -> (p1, id1) <> (p2, id2) ->
  holds w p1 id1 i t1 -> holds w p2 id2 i t2 ->
  (t1 = EXCLUSIVE_LOCK -> t2 <= NO_LOCK) /\
  ~ (t1 = RESERVED_LOCK /\ t2 = RESERVED_LOCK) /\
  ~ (PENDING_LOCK <= t1 /\ PENDING_LOCK <= t2).
Proof.
  intros HW%reachable_ok R1 R2 Hne H1 H2. destruct (decide (p1 = p2)) as [->|Hp].
  { assert (id1 <> id2) as Hid by congruence.
    destruct (holds_excludes _ _ _ _ _ _ _ HW R1 Hid H1 H2) as [E1 E2].
    split; [done|]. lconst. lia. }
  pose proof (holds_claim _ _ _ _ _ HW R1 H1) as [A1 A2 A3 A4].
  pose proof (holds_claim _ _ _ _ _ HW R2 H2) as [B1 B2 B3 B4].
  destruct HW as [Hn _]. pose proof (fun b => Hn p1 p2 i b Hp) as Hx.
  split; [|split].
  - intros E. destruct (decide (t2 <= NO_LOCK)) as [|Ht]; [done|]. exfalso.
    apply (B1 SHARED_FIRST); [lconst; lia | apply shared_first |].
    apply Hx, A4; [done | apply shared_first].
  - intros [E1 E2]. specialize (Hx RESERVED_BYTE (A2 E1)). rewrite (B2 E2) in Hx. done.
  - intros [E1 E2]. specialize (Hx PENDING_BYTE (A3 E1)). rewrite (B3 E2) in Hx. done.
Qed.

(** C14: In every reachable state the records of an idle process to which the
    kernel has not refused to give up a lock (nor fstat, dup or the test
    locks of an open: [w_refused]) describe its open handles exactly: each
    lockInfo and openCnt is found in its hash
    table under the inode's key, its reference count is the number of open
    handles that point to it and is positive, its lock count is the number
    of those handles with a lock, and no handle points to a freed record. Such
    a process in the middle of a call has not failed an assertion or used a
    dangling pointer. *)
Theorem unix_lock_records w p s :
  reachable w -> p ∉ w_refused w -> w_procs w !! p = Some s ->
  match s with
  | Idle m =>
      (forall l x, lockInfos m !! l = Some x ->
         lockHash m !! li_key x = Some l /\ 0 < li_nRef x /\
         li_nRef x = countf (on_lock l) (files m) /\
         li_cnt x = countf (fun f => on_lock l f && locked f) (files m)) /\
      (forall o c, openCnts m !! o = Some c ->
         openHash m !! oc_key c = Some o /\ 0 < oc_nRef c /\
         oc_nRef c = countf (on_open o) (files m) /\
         oc_nLock c = countf (fun f => on_open o f && locked f) (files m) /\
         (oc_nLock c = 0 -> oc_aPending c = [])) /\
      (forall id f, files m !! id = Some f -> is_open f = true ->
         exists l o x c, f_pLock f = Some l /\ f_pOpen f = Some o /\
           lockInfos m !! l = Some x /\ openCnts m !! o = Some c /\
           key_inode (li_key x) = okey_inode (oc_key c))
  | Running _ p => p <> Failed /\ p <> Undefined
  end.
Proof.
  intros [_ Hp]%reachable_ok Hr Hs. specialize (Hp _ _ Hr Hs).
  destruct s as [m|o [rc m|m r k| |]]; try done. destruct Hp as [HS _]. split_and!.
  - intros l x Hx. destruct (st_info _ _ HS _ _ Hx). done.
  - intros o c Hc. destruct (st_cnt _ _ HS _ _ Hc). done.
  - intros id f Hf Ho. destruct (st_file _ _ HS _ _ Hf Ho) as (l & o & x & c & []).
    by exists l, o, x, c.
Qed.
End world.

(** ** A request that nothing stands against is granted *)

(** Process [p] runs alone; [s] tells whether it is refused nothing. *)
Definition kernel_answers {K} `{!Kernel K} (p : Z) (s : Sure) : Answers K := fun k r a k' =>
  k_step k p r a k' /\ (s = true -> refused r a = false).

(** A run of the process by itself is a run of the world. *)
Lemma exec_steps {K} `{!Kernel K} p (w : world) o c rc m' k k' ps R :
  w = mkWorld k (<[p := Running o c]> ps) R ->
  exec (Answers0 := kernel_answers p (careful o)) k c rc m' k' ->
  rtc step w (mkWorld k' (<[p := Idle m']> ps) R).
Proof.
  intros -> Hx. induction Hx as [k a m|k m r kont a k1 b m2 k2 [Ha Hs] Hx IH].
  - apply rtc_once.
    replace (<[p := Idle m]> ps) with (<[p := Idle m]> (<[p := Running o (Done a m)]> ps))
      by apply insert_insert_eq.
    pose proof (step_return (mkWorld k (<[p := Running o (Done a m)]> ps) R) p o a m) as Hs.
    unfold set_proc in Hs. cbn [w_kern w_procs w_refused] in Hs. apply Hs, lookup_insert_eq.
  - eapply rtc_l; [|exact IH].
    replace (<[p := Running o (kont a)]> ps)
      with (<[p := Running o (kont a)]> (<[p := Running o (Call m r kont)]> ps))
      by apply insert_insert_eq.
    pose proof (step_sys (mkWorld k (<[p := Running o (Call m r kont)]> ps) R) p o m r kont a k1) as Hst.
    cbn [w_kern w_procs w_refused] in Hst. unfold note_refusal in Hst.
    assert (careful o && refused r a = false) as E by (destruct (careful o); auto).
    rewrite E in Hst. apply Hst; [apply lookup_insert_eq | exact Ha].
Qed.

Lemma exec_local {K} `{!Kernel K} p (s : Sure) {A} k (c : prog pmem A) rc m' k' :
  exec (Answers0 := kernel_answers p s) k c rc m' k' ->
  exec (Answers0 := @view_answers s) (k_views k p) c rc m' (k_views k' p) /\
  (forall q, q <> p -> k_views k' q = k_views k q).
Proof.
  induction 1 as [k a m|k m r kont a k1 b m2 k2 [Ha Hs] Hx [IH1 IH2]].
  - split; [constructor | done].
  - split.
    + econstructor; [|done]. by split; [apply k_step_own|].
    + intros q Hq. rewrite IH2 by done. by eapply k_step_other.
Qed.

Section grant.
Context {K : Type} `{!Kernel K} `{!FaultFree K} (p : Z).

Local Instance alone : Answers K := kernel_answers p false.
Local Definition answerable (m : pmem) (k : K) (r : syscall) : Prop :=
  exists a k', answers k r a k'.

(** No other process has a lock on the file. *)
Definition quiet (k : K) (i : inode) : Prop :=
  forall q b, q <> p -> v_lock (k_views k q) i b = None.

Lemma answerable_runs {A} (c : prog pmem A) k Q :
  wp answerable c k Q -> exists a m k', exec k c a m k'.
Proof.
  revert k. induction c as [a m|m r kont IH| |]; intros k; [|intros [(a & k' & Hk) Hn] |done..].
  - intros _. exists a, m, k. constructor.
  - destruct (IH a k' (Hn a k' Hk)) as (b & m2 & k2 & Hx).
    exists b, m2, k2. by econstructor.
Qed.

Lemma quiet_setlk m k i fd t s n (Q : Z * Z -> pmem -> K -> Prop) :
  quiet k i -> v_fd (k_views k p) fd = Some i ->
  (forall e k', quiet k' i -> v_fd (k_views k' p) fd = Some i -> Q (0, e) m k') ->
  wp answerable (fcntl_setlk fd t s n m) k Q.
Proof.
  intros Hq Hfd HQ. set (l := mkFlock t s n).
  assert (~ blocked (k_views k) p i l) as Hb.
  { intros (q & b & u & Hne & _ & Hl & _). rewrite Hq in Hl by done. done. }
  unfold fcntl_setlk. apply wp_bind, wp_call.
  { destruct (ff_answers _ _ _ _ _ Hfd Hb) as (a & k' & Hk). by exists a, k'. }
  intros a k' [Hk _]. apply wp_ret. rewrite (ff_grants _ _ _ _ _ _ _ Hk Hfd Hb). apply HQ.
  - intros q b Hne. rewrite (k_step_other _ _ _ _ _ q Hk Hne). by apply Hq.
  - pose proof (k_step_own _ _ _ _ _ Hk) as Ha. by rewrite (answered_setlk_fd _ _ _ _ _ Ha).
Qed.

Lemma unixLock_granted self id t m k f i :
  Inv m (k_views k p) -> files m !! id = Some f -> is_open f = true -> lock_request f t ->
  handle m id i (f_locktype f) -> quiet k i ->
  (forall id2 t2, id2 <> id -> handle m id2 i t2 -> t2 = NO_LOCK) ->
  wp answerable (unixLock self id t m) k (fun rc _ _ => rc = SQLITE_OK).
Proof.
  intros [HS HC] Hf Hopen Hreq Hh Hq Hoth.
  destruct (st_file _ _ HS _ _ Hf Hopen) as (l & o & x & oc & HF).
  pose proof (fo_info _ _ _ _ _ _ _ HF) as Hlock. pose proof (fo_cnt _ _ _ _ _ _ _ HF) as Hcnt.
  pose proof (fo_lock _ _ _ _ _ _ _ HF) as HlP. pose proof (fo_open _ _ _ _ _ _ _ HF) as HoP.
  pose proof (fo_fd _ _ _ _ _ _ _ HF) as Hfd. pose proof (fo_level _ _ _ _ _ _ _ HF) as Hr.
  pose proof (st_info _ _ HS _ _ Hlock) as Hinfo. pose proof (io_range _ _ _ Hinfo) as Hlr.
  pose proof (lk_on _ _ _ _ _ _ _ Hopen HF) as Hon.
  assert (i = okey_inode (oc_key oc)) as ->.
  { destruct Hh as (f2 & l2 & x2 & H2 & _ & L2 & X2 & K2 & _).
    assert (f2 = f) as -> by congruence. assert (l2 = l) as -> by congruence.
    assert (x2 = x) as -> by congruence. rewrite <- K2. apply (fo_same _ _ _ _ _ _ _ HF). }
  assert (forall id2 f2, id2 <> id -> files m !! id2 = Some f2 -> on_lock l f2 = true ->
            f_locktype f2 = NO_LOCK) as Hnone.
  { intros id2 f2 Hne H2 O2. apply (Hoth id2); [done|]. apply on_lock_spec in O2 as [Op2 L2].
    exists f2, l, x. repeat split; try done. apply (fo_same _ _ _ _ _ _ _ HF). }
  assert (li_cnt x <= 1 /\ (f_locktype f = NO_LOCK -> li_cnt x = 0)) as [Hc1 Hc0].
  { rewrite (io_cnt _ _ _ Hinfo), (countf_take _ _ _ _ Hf).
    assert (countf (fun g => on_lock l g && locked g) (delete id (files m)) = 0) as ->.
    { pose proof (countf_nonneg (fun g => on_lock l g && locked g) (delete id (files m))).
      destruct (decide (0 < countf (fun g => on_lock l g && locked g) (delete id (files m)))) as [Hp|]; [|lia].
      apply countf_some in Hp as (id2 & f2 & [Hne H2]%lookup_delete_Some & [O2 L2]%andb_true_iff).
      apply locked_spec in L2. destruct L2. by apply (Hnone id2). }
    unfold locked. split; [destruct (_ && _); simpl; lia|]. intros ->. rewrite andb_false_r. done. }
  assert (f_locktype f = li_locktype x) as Heq.
  { destruct (io_level _ _ _ Hinfo _ _ Hf Hon) as [Hlow|]; [|done].
    destruct (decide (li_locktype x <= SHARED_LOCK)) as [Hle|Hgt].
    - pose proof (io_none _ _ _ Hinfo) as Hn.
      destruct (decide (f_locktype f = NO_LOCK)) as [E|E].
      + rewrite E. symmetry. apply Hn. auto.
      + pose proof (lk_cnt_pos _ _ _ _ _ _ _ _ HS Hf Hopen HF E).
        assert (li_locktype x <> NO_LOCK) by (intros E2; apply Hn in E2; lia). lconst. lia.
    - destruct (io_some _ _ _ Hinfo ltac:(lia)) as (id2 & f2 & H2 & O2 & T2).
      destruct (decide (id2 = id)) as [->|Hne]; [congruence|].
      rewrite (Hnone _ _ Hne H2 O2) in T2. lconst. lia. }
  unfold unixLock. wsteps. rewrite Z.geb_leb. destruct (Z.leb_spec t (f_locktype f)); [by wsteps|].
  assert (f_locktype f = NO_LOCK -> t = SHARED_LOCK) as Hseq.
  { intros E. destruct Hreq as [|[_ ?]]; done. }
  wsteps. apply wp_assert.
  { destruct (Z.eqb_spec (f_locktype f) NO_LOCK) as [E|]; [|done]. by rewrite (Hseq E). }
  wsteps. apply wp_assert. { by destruct Hreq as [->|[[-> | ->] _]]. }
  wsteps. apply wp_assert.
  { destruct Hreq as [->|[[-> | ->] Hne]]; try done. simpl. apply Z.eqb_eq. lconst; lia. }
  wsteps. unfold transferOwnership. wsteps. rewrite (mode_open _ _ HS _ _ Hf Hopen). simpl. wsteps. simpl. wsteps.
  rewrite <- Heq, Z.eqb_refl. cbn [negb andb]. wsteps.
  destruct (decide (t = SHARED_LOCK)) as [->|Ht].
  - assert (f_locktype f = NO_LOCK) as E by (lconst; lia). rewrite E. simpl.
    wsteps. eapply quiet_setlk; [done..|]. intros e1 k1 Hq1 Hf1. cbv beta iota. simpl.
    unfold lock_shared. wsteps. apply wp_assert; [by rewrite Hc0|]. wsteps.
    apply wp_assert; [by rewrite <- Heq, E|]. wsteps.
    eapply quiet_setlk; [done..|]. intros e2 k2 Hq2 Hf2. cbv beta iota. wsteps.
    eapply quiet_setlk; [done..|]. intros e3 k3 Hq3 Hf3. cbv beta iota. simpl. wsteps.
    unfold lock_record, store_locktype. simpl. wsteps. done.
  - rewrite (proj2 (Z.eqb_neq t SHARED_LOCK)) by done. cbn [andb orb].
    destruct Hreq as [|[Hre Hno]]; [done|].
    assert (forall k', quiet k' (okey_inode (oc_key oc)) -> v_fd (k_views k' p) (f_h f) = Some (okey_inode (oc_key oc)) ->
      wp answerable ((rc ← lock_write id t; lock_record id t l rc) m) k' (fun rc _ _ => rc = SQLITE_OK)) as Hw.
    { intros k' Hq' Hfd'. unfold lock_write. wsteps.
      apply wp_assert. { rewrite Z.eqb_sym. apply negb_true_iff, Z.eqb_neq, Hno. }
      wsteps. apply wp_assert; [by destruct Hre as [-> | ->]|]. wsteps.
      destruct (t =? RESERVED_LOCK); (eapply quiet_setlk; [done..|]);
        intros; cbv beta iota; simpl; wsteps; simpl; unfold lock_record, store_locktype; simpl; wsteps; done. }
    assert (forall k', quiet k' (okey_inode (oc_key oc)) -> v_fd (k_views k' p) (f_h f) = Some (okey_inode (oc_key oc)) ->
      wp answerable ((if (t =? EXCLUSIVE_LOCK) && (li_cnt x >? 1) then lock_record id t l SQLITE_BUSY
        else rc ← lock_write id t; lock_record id t l rc) m) k' (fun rc _ _ => rc = SQLITE_OK)) as Hw2.
    { intros k' Hq' Hfd'. rewrite Z.gtb_ltb, (proj2 (Z.ltb_ge 1 (li_cnt x))) by lia. rewrite andb_false_r.
      by apply Hw. }
    wsteps. destruct ((t =? EXCLUSIVE_LOCK) && (f_locktype f <? PENDING_LOCK)).
    + eapply quiet_setlk; [done..|]. intros e1 k1 Hq1 Hf1. cbv beta iota. simpl. by apply Hw2.
    + wsteps. simpl. by apply Hw2.
Qed.

(** The lock is granted to a process that runs alone. *)
Lemma lock_alone w m self id f t i :
  world_ok w -> p ∉ w_refused w -> w_procs w !! p = Some (Idle m) ->
  files m !! id = Some f -> is_open f = true -> lock_request f t ->
  handle m id i (f_locktype f) -> quiet (w_kern w) i ->
  (forall id2 t2, id2 <> id -> handle m id2 i t2 -> t2 = NO_LOCK) ->
  (forall rc m' k', exec (w_kern w) (unixLock self id t m) rc m' k' -> rc = SQLITE_OK) /\
  exists m' k', exec (w_kern w) (unixLock self id t m) SQLITE_OK m' k' /\
    rtc step w (mkWorld k' (<[p := Idle m']> (w_procs w)) (w_refused w)) /\
    files m' = <[id := with_locktype (Z.max t (f_locktype f)) f]> (files m) /\
    keys_kept m m' /\ (forall q, q <> p -> k_views k' q = k_views (w_kern w) q).
Proof.
  intros [_ HW] Hr Hm Hf Hopen Hreq Hh Hq Hoth. pose proof (HW _ _ Hr Hm) as HI.
  pose proof (unixLock_granted self id t m (w_kern w) f i HI Hf Hopen Hreq Hh Hq Hoth) as Hg.
  split; [intros rc m' k' Hx; by eapply (wp_exec _ _ _ _ _ _ _ Hg)|].
  destruct (answerable_runs _ _ _ Hg) as (rc & m' & k' & Hx).
  pose proof (wp_exec _ _ _ _ _ _ _ Hg Hx) as E. simpl in E. subst rc.
  destruct (exec_local p false _ _ _ _ _ Hx) as [Hxl Hoq].
  pose proof (unixLock_wp (Hsure := false) self id t m _ f HI Hf Hopen Hreq) as Hwp.
  pose proof (wp_exec _ _ _ _ _ _ _ Hwp Hxl) as (_ & Hkeys & t' & Hfs & Ht').
  exists m', k'. split; [done|]. split; [|split; [|done]].
  - eapply rtc_l.
    + apply (step_call _ p m self (op_lock id t) Hm). exists f. done.
    + destruct w as [k0 ps R]. eapply (exec_steps p _ (op_lock id t)); [reflexivity | done].
  - by destruct Ht' as [[_ ->]|[[[E|E] _]|[E _]]].
Qed.

(** C25: From every reachable state in which a process is idle, was not
    refused anything by the kernel that the protocol relies on ([w_refused]),
    and neither another process nor another handle of this process has a lock
    on the file, a request of its handle succeeds on a kernel that refuses
    locks for conflicts only: every run of unixLock by itself returns
    SQLITE_OK, and there is a run, after which the handle holds the requested
    level. *)
Theorem unix_lock_granted w m self id f t i :
  reachable w -> p ∉ w_refused w -> w_procs w !! p = Some (Idle m) ->
  files m !! id = Some f -> is_open f = true -> lock_request f t ->
  handle m id i (f_locktype f) -> quiet (w_kern w) i ->
  (forall id2 t2, id2 <> id -> handle m id2 i t2 -> t2 = NO_LOCK) ->
  (forall rc m' k', exec (w_kern w) (unixLock self id t m) rc m' k' -> rc = SQLITE_OK) /\
  exists w', rtc step w w' /\ holds w' p id i (Z.max t (f_locktype f)).
Proof.
  intros HW%reachable_ok Hr Hm Hf Hopen Hreq Hh Hq Hoth.
  destruct (lock_alone w m self id f t i HW Hr Hm Hf Hopen Hreq Hh Hq Hoth)
    as (Hall & m' & k' & Hx & Hst & Hfs & Hkeys & _).
  split; [done|]. eexists. split; [exact Hst|]. unfold holds. simpl. rewrite lookup_insert_eq.
  destruct Hh as (f2 & l & x & H2 & _ & L2 & X2 & K2 & _). assert (f2 = f) as -> by congruence.
  destruct (Hkeys _ _ X2) as (x' & Hx' & Hk).
  exists (with_locktype (Z.max t (f_locktype f)) f), l, x'.
  rewrite Hfs, lookup_insert_eq, Hk. done.
Qed.
End grant.

(** ** Results of the calls *)

(** A run of [c] by a process from view [v]: the kernel may refuse anything,
    or ([s]) refuses nothing. *)
Definition runs (s : bool) {A} (v : view) (c : prog pmem A) (rc : A) (m' : pmem) (v' : view) : Prop :=
  exec (Answers0 := @view_answers s) v c rc m' v'.

(** C27: Whatever the kernel answers, a permitted call of unixLock from a state
    with the records in order, in a process whose threads override each
    other's locks (Inv says so), returns SQLITE_OK with the handle at the
    requested level (or the higher one it had), or SQLITE_BUSY or SQLITE_NOLFS
    with the handle at its old level - or at PENDING, for an EXCLUSIVE request
    that got no further -, or, when the kernel refuses to release the pending
    byte, SQLITE_IOERR_UNLOCK for a SHARED request with the handle at its old
    level. No other handle changes, and the records and the claims of the
    process are in order again. *)
Theorem unix_lock_result self id t m v f rc m' v' :
  Inv m v -> files m !! id = Some f -> is_open f = true -> lock_request f t ->
  runs false v (unixLock self id t m) rc m' v' ->
  Inv m' v' /\
  exists t', files m' = <[id := with_locktype t' f]> (files m) /\
    ((rc = SQLITE_OK /\ t' = Z.max t (f_locktype f)) \/
     ((rc = SQLITE_BUSY \/ rc = SQLITE_NOLFS) /\
      (t' = f_locktype f \/ (t = EXCLUSIVE_LOCK /\ t' = PENDING_LOCK /\ f_locktype f <= t'))) \/
     (rc = SQLITE_IOERR_UNLOCK /\ t = SHARED_LOCK /\ t' = f_locktype f)).
Proof.
  intros HI Hf Ho Hr Hx.
  by destruct (wp_exec _ _ _ _ _ _ _ (unixLock_wp self id t m v f HI Hf Ho Hr) Hx) as (? & _ & ?).
Qed.

(** The levels of the other handles are backed after the call. *)
Definition others_backed (m : pmem) (id : Z) (v' : view) : Prop :=
  forall id2 i t2, id2 <> id -> handle m id2 i t2 -> claim v' i t2.

(** C26: Whatever the kernel answers, from a state with the records in order,
    in a process whose threads override each other's locks (Inv says so),
    unixUnlock to NONE or SHARED either returns SQLITE_OK, lowers the handle
    to that level and leaves the records in order, or - only if the kernel
    refused to give a lock up - returns SQLITE_IOERR_RDLOCK or
    SQLITE_IOERR_UNLOCK and leaves every handle as it was and the shared
    record with one of the listed counts and levels, which need not agree with
    the handle. unixClose returns SQLITE_OK and clears the handle in any case,
    with the records in order if nothing was refused. Both leave every other
    handle of the process with the locks behind its level, so that closing a
    descriptor never takes the locks of another handle of the file away. *)
Theorem unix_unlock_close_result self id m v f :
  Inv m v -> files m !! id = Some f -> is_open f = true ->
  (forall t rc m' v', t = NO_LOCK \/ t = SHARED_LOCK ->
     runs false v (unixUnlock self id t m) rc m' v' ->
     others_backed m id v' /\
     ((rc = SQLITE_OK /\ Inv m' v' /\
       files m' = <[id := with_locktype (Z.min t (f_locktype f)) f]> (files m)) \/
      exists l x c lt, f_pLock f = Some l /\ lockInfos m !! l = Some x /\
        unlock_failed t f x rc c lt /\
        m' = set_lockInfos (<[l := mkLockInfo (li_key x) c lt (li_nRef x)]> (lockInfos m)) m)) /\
  (forall t rc m' v', t = NO_LOCK \/ t = SHARED_LOCK ->
     runs true v (unixUnlock self id t m) rc m' v' -> rc = SQLITE_OK) /\
  (forall rc m' v', runs false v (unixClose self id m) rc m' v' ->
     rc = SQLITE_OK /\ files m' = <[id := zero_file]> (files m) /\ others_backed m id v') /\
  (forall rc m' v', runs true v (unixClose self id m) rc m' v' -> Inv m' v').
Proof.
  intros HI Hf Ho. split_and!.
  - intros t rc m' v' Ht Hx.
    destruct (wp_exec _ _ _ _ _ _ _ (unixUnlock_wp self id t m v f HI Hf Ho Ht) Hx) as (_ & HC & Hout).
    split; [|by destruct Hout as [|[_ ?]]; [left|right]].
    intros id2 i t2 Hne Hh. apply (proj1 HC) in Hh. unfold lowered in Hh.
    by rewrite (proj2 (Z.eqb_neq _ _) Hne) in Hh.
  - intros t rc m' v' Ht Hx.
    by destruct (wp_exec _ _ _ _ _ _ _ (unixUnlock_wp self id t m v f HI Hf Ho Ht) Hx)
      as (_ & _ & [(? & _)|[? _]]).
  - intros rc m' v' Hx.
    by destruct (wp_exec _ _ _ _ _ _ _ (unixClose_wp self id m v f HI Hf Ho) Hx) as (? & ? & _ & ?).
  - intros rc m' v' Hx.
    by destruct (wp_exec _ _ _ _ _ _ _ (unixClose_wp self id m v f HI Hf Ho) Hx) as (_ & _ & [?|?] & _).
Qed.

(** Running the parts that make no call. *)
Lemma get_run {A B} (g : pmem -> option A) (k : A -> M B) a m :
  g m = Some a -> (os_get g ≫= k) m = k a m.
Proof. intros E. unfold mbind, os_bind, os_get. by rewrite E. Qed.

Lemma assert_run {B} b (k : unit -> M B) m : b = true -> (os_assert b ≫= k) m = k tt m.
Proof. by intros ->. Qed.

Lemma transferOwnership_misuse self id m f :
  threadsOverrideEachOthersLocks m = 0 -> files m !! id = Some f -> f_tid f <> self ->
  f_locktype f <> NO_LOCK -> transferOwnership self id m = Done SQLITE_MISUSE m.
Proof.
  intros Hm Hf Ht Hl. unfold transferOwnership. erewrite get_run by done. cbv beta.
  rewrite Hm. cbn [Z.eqb negb]. unfold get_file. erewrite get_run by done.
  by rewrite (proj2 (Z.eqb_neq _ _) Ht), (proj2 (Z.eqb_neq _ _) Hl).
Qed.

(** C36: Where threads do not override each other's locks (the variable is 0),
    a handle with a lock belongs to the thread that owns it: unixLock for a
    RESERVED or EXCLUSIVE lock that it does not have, and unixUnlock to a
    lower level, called by another thread, return SQLITE_MISUSE, make no
    system call and change nothing. *)
Theorem unix_other_thread self id m f :
  threadsOverrideEachOthersLocks m = 0 -> files m !! id = Some f -> f_tid f <> self ->
  NO_LOCK < f_locktype f ->
  (forall t, f_locktype f < t -> t = RESERVED_LOCK \/ t = EXCLUSIVE_LOCK ->
     unixLock self id t m = Done SQLITE_MISUSE m) /\
  (forall t, t <= SHARED_LOCK -> t < f_locktype f ->
     unixUnlock self id t m = Done SQLITE_MISUSE m).
Proof.
  intros Hm Hf Ht Hl. split.
  - intros t Hlt Hreq. unfold unixLock, get_file. erewrite get_run by done.
    rewrite Z.geb_leb, (proj2 (Z.leb_gt _ _)) by done.
    rewrite assert_run by (rewrite (proj2 (Z.eqb_neq (f_locktype f) NO_LOCK)) by lia; done).
    rewrite assert_run by by destruct Hreq as [-> | ->].
    rewrite assert_run.
    2:{ destruct Hreq as [-> | ->]; [|done]. apply Z.eqb_eq. lconst. lia. }
    unfold mbind at 1, os_bind at 1.
    rewrite (transferOwnership_misuse self id m f) by (done || lia). done.
  - intros t Hs Hlt. unfold unixUnlock, get_file. erewrite get_run by done.
    rewrite assert_run by by apply Z.leb_le.
    rewrite (proj2 (Z.leb_gt _ _)) by done. unfold check_threadid, mbind at 1, os_bind at 1.
    erewrite get_run by done. cbn [prog_bind mret os_ret]. rewrite Hm.
    by rewrite (proj2 (Z.eqb_neq _ _) Ht).
Qed.

(** ** Concrete runs *)

(** A run on given answers. *)
Fixpoint scripted {A} (p : prog pmem A) (script : list answer) : option (A * pmem) :=
  match p, script with
  | Done a m, [] => Some (a, m)
  | Call _ _ k, a :: script => scripted (k a) script
  | _, _ => None
  end.

Definition yes : answer := mkAnswer 0 0 F_UNLCK 0 7.
Definition no : answer := mkAnswer (-1) 11 F_UNLCK 0 7.
Definition got : answer := mkAnswer 1 0 F_UNLCK 0 7.

Definition hfs : option statfs := Some (mkStatfs false "hfs"%string).

(** Handle [id] is opened on descriptor [h]. *)
Definition open_at (id h : Z) (m : pmem) : prog pmem Z :=
  fillInUnixFile 0 h (-1) id [] hfs (set_files (<[id := zero_file]> (files m)) m).

Definition after (r : option (Z * pmem)) : pmem := match r with Some (_, m) => m | None => fresh_mem end.

(** The answers to the first open of a process: fstat, dup to descriptor 5,
    which thread is first, its two locks, close, and four times memory. *)
Definition dup5 : answer := mkAnswer 5 0 F_UNLCK 0 7.
Definition opened : pmem :=
  after (scripted (open_at 1 3 fresh_mem) [yes; dup5; yes; yes; yes; yes; got; got; got; got]).

Lemma opened_handle : handle opened 1 (0, 7) NO_LOCK.
Proof.
  eexists _, 0%nat, _. repeat split; vm_compute; reflexivity.
Qed.

(** ** What refusals can do *)

(** A refused downgrade: when the kernel refuses the read-lock with which
    unixUnlock goes down from EXCLUSIVE to SHARED, the handle keeps the level
    EXCLUSIVE while the shared record drops to SHARED, and the next request of
    another handle of the process for a SHARED lock is granted. *)
Lemma unix_unlock_refused :
  let m1 := opened in
  let m2 := after (scripted (open_at 2 4 m1) [yes]) in
  let m3 := after (scripted (unixLock 0 1 SHARED_LOCK m2) [yes; yes; yes]) in
  let m4 := after (scripted (unixLock 0 1 EXCLUSIVE_LOCK m3) [yes; yes]) in
  match scripted (unixUnlock 0 1 SHARED_LOCK m4) [no; yes] with
  | Some (rc, m5) =>
      rc = SQLITE_IOERR_RDLOCK /\
      match scripted (unixLock 0 2 SHARED_LOCK m5) [] with
      | Some (rc, m6) =>
          rc = SQLITE_OK /\ f_locktype <$> (files m6 !! 1) = Some EXCLUSIVE_LOCK /\
          f_locktype <$> (files m6 !! 2) = Some SHARED_LOCK
      | None => False
      end
  | None => False
  end.
Proof. vm_compute. auto. Qed.

(** Handle [id] is opened on descriptor [h] by thread [self]. *)
Definition open_by (self id h : Z) (m : pmem) : prog pmem Z :=
  fillInUnixFile self h (-1) id [] hfs (set_files (<[id := zero_file]> (files m)) m).

(** A refused test lock: byte 0 is write-locked by another process that runs
    the same test, say. The process concludes that its threads cannot override
    each other's locks, its two threads get a record each, and both handles
    reach EXCLUSIVE, as the kernel grants a process what it holds already. *)
Lemma unix_test_refused :
  let m1 := after (scripted (open_by 1 1 3 fresh_mem) [yes; dup5; yes; no; yes; yes; got; got; got; got]) in
  let m2 := after (scripted (open_by 2 2 4 m1) [yes; got; got]) in
  let m3 := after (scripted (unixLock 1 1 SHARED_LOCK m2) [yes; yes; yes]) in
  let m4 := after (scripted (unixLock 1 1 EXCLUSIVE_LOCK m3) [yes; yes]) in
  let m5 := after (scripted (unixLock 2 2 SHARED_LOCK m4) [yes; yes; yes]) in
  let m6 := after (scripted (unixLock 2 2 EXCLUSIVE_LOCK m5) [yes; yes]) in
  threadsOverrideEachOthersLocks m1 = 0 /\
  f_locktype <$> (files m6 !! 1) = Some EXCLUSIVE_LOCK /\
  f_locktype <$> (files m6 !! 2) = Some EXCLUSIVE_LOCK.
Proof. vm_compute. auto. Qed.

(** A failed dup: the variable stays at -1 and the test is made again when the
    second handle of the file is opened; by then the first has a SHARED lock,
    which the close in the test takes away. Here are the calls. *)
Fixpoint calls {A} (p : prog pmem A) (script : list answer) : list syscall :=
  match p, script with
  | Call _ r k, a :: script => r :: calls (k a) script
  | _, _ => []
  end.

Lemma unix_dup_failed :
  let m1 := after (scripted (open_at 1 3 fresh_mem) [yes; no; got; got; got; got]) in
  let m2 := after (scripted (unixLock 0 1 SHARED_LOCK m1) [yes; yes; yes]) in
  threadsOverrideEachOthersLocks m2 = -1 /\
  f_locktype <$> (files m2 !! 1) = Some SHARED_LOCK /\
  calls (open_at 2 4 m2) [yes; dup5; yes; yes; yes; yes] =
    [sys_fstat 4; sys_dup 4; sys_sched; sys_setlk 5 (mkFlock F_RDLCK 0 1);
     sys_setlk 5 (mkFlock F_WRLCK 0 1); sys_close 5].
Proof. vm_compute. auto. Qed.

(** A failed fstat: the descriptor of the handle that could not be opened is
    closed, and with it go the locks of the other handles of the file. *)
Lemma unix_fstat_failed :
  let m1 := after (scripted (unixLock 0 1 SHARED_LOCK opened) [yes; yes; yes]) in
  f_locktype <$> (files m1 !! 1) = Some SHARED_LOCK /\
  calls (open_at 2 4 m1) [no; yes] = [sys_fstat 4; sys_close 4].
Proof. vm_compute. auto. Qed.

(** No memory while a handle changes its owner: the record of the old owner is
    freed, none is made for the new one, and the handle keeps the pointer to
    the freed record; the next call goes through it. *)
Lemma unix_transfer_no_memory :
  let m1 := after (scripted (open_by 1 1 3 fresh_mem) [yes; dup5; yes; no; yes; yes; got; got; got; got]) in
  match scripted (unixLock 2 1 SHARED_LOCK m1) [yes; yes] with
  | Some (rc, m2) => rc = SQLITE_NOMEM /\ unixLock 2 1 SHARED_LOCK m2 = Undefined
  | None => False
  end.
Proof. vm_compute. auto. Qed.

(** The name of a dot-lock file never ends in ".lock": it is the name of the
    database without its last character, which other databases may share. *)
Lemma dotlock_path_cut z : 0 < zlen z -> dotlock_path z = take (Z.to_nat (zlen z - 1)) z.
Proof.
  intros Hz. unfold dotlock_path. rewrite (proj2 (Z.leb_gt _ _)) by done.
  apply take_app_le. unfold zlen. lia.
Qed.

(** ** Two processes on one file *)

Definition no_view : view := mkView (fun _ => None) (fun _ _ => None).
Definition start : world (K := views) :=
  mkWorld (fun _ : Z => no_view) {[1 := Idle fresh_mem; 2 := Idle fresh_mem]} ∅.

(** A kernel that grants everything, with 5 as the next free descriptor. *)
Definition serve (v : view) (r : syscall) : option (answer * view) :=
  match r with
  | sys_malloc | sys_sched => Some (got, v)
  | sys_close fd => Some (yes, close_fd fd v)
  | sys_fstat fd => i ← v_fd v fd; Some (mkAnswer 0 0 F_UNLCK i.1 i.2, v)
  | sys_dup fd =>
      i ← v_fd v fd;
      match v_fd v 5 with Some _ => None | None => Some (dup5, open_fd 5 i v) end
  | sys_setlk fd l => i ← v_fd v fd; Some (yes, set_lock i l v)
  | sys_getlk _ _ => None
  end.

Fixpoint drive {A} (v : view) (p : prog pmem A) : option (A * pmem * view) :=
  match p with
  | Done a m => Some (a, m, v)
  | Call _ r k => match serve v r with Some (a, v') => drive v' (k a) | None => None end
  | _ => None
  end.

Lemma serve_step p (vs : views) r a v' :
  serve (vs p) r = Some (a, v') -> (forall q j b, q <> p -> v_lock (vs q) j b = None) ->
  posix_step vs p r a (upd_view p v' vs) /\ refused r a = false.
Proof.
  assert (forall v0, (forall fd l, r <> sys_setlk fd l /\ r <> sys_getlk fd l) -> answered (vs p) r a v0 ->
            posix_step vs p r a (upd_view p v0 vs)) as Hother by (intros; by apply ps_other).
  intros Hs Hq. destruct r as [fd l|fd l|fd|fd|fd| |]; simpl in Hs.
  - destruct (v_fd (vs p) fd) as [i|] eqn:Ei; [|done]. simplify_eq/=. split; [|done].
    apply (ps_grant vs p fd); try done.
    intros (q & b & t & Hne & _ & Hl & _). by rewrite Hq in Hl.
  - done.
  - simplify_eq/=. split; [|done]. apply Hother; [by intros; split|]. constructor.
  - destruct (v_fd (vs p) fd) as [i|] eqn:Ei; [|done]. simplify_eq/=. split; [|done].
    apply Hother; [by intros; split|]. eapply ans_fstat; [done | done | by destruct i].
  - destruct (v_fd (vs p) fd) as [i|] eqn:Ei; [|done]. simpl in Hs.
    destruct (v_fd (vs p) 5) eqn:E5; [done|]. simplify_eq/=. split; [|done].
    apply Hother; [by intros; split|]. by apply (ans_dup _ fd i dup5).
  - simplify_eq/=. split; [|done]. apply Hother; [by intros; split|]. constructor.
  - simplify_eq/=. split; [|done]. apply Hother; [by intros; split|]. constructor.
Qed.

Lemma drive_exec {A} p (s : Sure) v (c : prog pmem A) a m v' (vs : views) :
  drive v c = Some (a, m, v') -> vs p = v -> (forall q j b, q <> p -> v_lock (vs q) j b = None) ->
  exists vs', exec (Answers0 := kernel_answers p s) vs c a m vs' /\ vs' p = v' /\
    (forall q, q <> p -> vs' q = vs q).
Proof.
  revert v vs. induction c as [b m1|m1 r k IH| |]; intros v vs Hd Hv Hq; simpl in Hd; simplify_eq.
  - exists vs. split; [constructor | done].
  - destruct (serve (vs p) r) as [[b v1]|] eqn:Es; [|done].
    destruct (serve_step p vs r b v1 Es Hq) as [Hs Hr].
    destruct (IH b v1 (upd_view p v1 vs) Hd) as (vs' & Hx & E & Hoth).
    + apply upd_view_eq.
    + intros q j c Hne. rewrite upd_view_ne by done. by apply Hq.
    + exists vs'. split; [|split; [done|]].
      * econstructor; [|exact Hx]. by split.
      * intros q Hne. rewrite Hoth by done. by apply upd_view_ne.
Qed.

Lemma open_drive : exists v',
  drive (open_fd 3 (0, 7) no_view) (open_at 1 3 fresh_mem) = Some (SQLITE_OK, opened, v') /\
  forall j b, v_lock v' j b = None.
Proof.
  exists (close_fd 5 (set_lock (0, 7) (mkFlock F_RDLCK 0 1)
    (set_lock (0, 7) (mkFlock F_WRLCK 0 1) (open_fd 5 (0, 7) (open_fd 3 (0, 7) no_view))))).
  split; [vm_compute; reflexivity|]. intros j b. simpl. by case_decide.
Qed.

(** Process [p] opens the file (0, 7) as its first handle. *)
Lemma open_alone p (vs : views) ps :
  ps !! p = Some (Idle fresh_mem) -> vs p = no_view -> (forall q j b, v_lock (vs q) j b = None) ->
  exists vs', rtc step (mkWorld vs ps ∅) (mkWorld vs' (<[p := Idle opened]> ps) ∅) /\
    (forall q, q <> p -> vs' q = vs q) /\ (forall q j b, v_lock (vs' q) j b = None).
Proof.
  intros Hp Hv Hno. set (vs1 := upd_view p (open_fd 3 (0, 7) (vs p)) vs).
  destruct open_drive as (v' & Hd & Hl).
  destruct (drive_exec p true _ (open_at 1 3 fresh_mem) SQLITE_OK opened v' vs1 Hd) as (vs' & Hx & E & Hoth).
  - unfold vs1. by rewrite upd_view_eq, Hv.
  - intros q j b Hne. unfold vs1. by rewrite upd_view_ne.
  - exists vs'. split; [|split].
    + eapply rtc_l.
      * apply (step_open (mkWorld vs ps ∅) p fresh_mem 0 1 3 (0, 7) vs1 (-1) [] hfs); try done.
        -- by exists "hfs"%string; auto.
        -- split; [simpl; by rewrite Hv | done].
      * by eapply (exec_steps p _ (op_open 1 3 (-1) [] hfs)); [|exact Hx].
    + intros q Hq. rewrite Hoth by done. by apply upd_view_ne.
    + intros q j b. destruct (decide (q = p)) as [->|Hne]; [by rewrite E|].
      rewrite Hoth by done. unfold vs1. by rewrite upd_view_ne.
Qed.

Definition both_opened : gmap Z proc :=
  <[1 := Idle opened]> (<[2 := Idle opened]> (w_procs start)).

(** Both processes have the file open, and nobody has a lock. *)
Lemma opened_world :
  exists vs : views, reachable (mkWorld vs both_opened ∅) /\
    forall q b, v_lock (vs q) (0, 7) b = None.
Proof.
  destruct (open_alone 2 (w_kern start) (w_procs start)) as (vs2 & S2 & O2 & L2); [done..|].
  destruct (open_alone 1 vs2 (<[2 := Idle opened]> (w_procs start))) as (vs1 & S1 & O1 & L1);
    [done | by rewrite O2 | done |].
  exists vs1. split.
  - exists start. split; [|by etrans]. split; [by intros ? ? ? ? ? ?|]. split; [done|].
    intros p s Hs. simpl in Hs. apply lookup_insert_Some in Hs as [[_ <-]|[_ Hs]]; [done|].
    by apply lookup_singleton_Some in Hs as [_ <-].
  - intros q b. apply L1.
Qed.

(** The handle at 1 is the only one. *)
Lemma only_handle m t id2 t2 f :
  files opened !! 1 = Some f -> files m = <[1 := with_locktype t f]> (files opened) ->
  id2 <> 1 -> handle m id2 (0, 7) t2 -> t2 = NO_LOCK.
Proof.
  intros H1 E Hne (g & l & x & Hg & _). exfalso. rewrite E, lookup_insert_ne in Hg by done.
  replace (files opened) with ({[1 := default zero_file (files opened !! 1)]} : gmap Z unixFile) in Hg
    by (vm_compute; reflexivity).
  by apply lookup_singleton_Some in Hg as [? _].
Qed.

(** The first process takes a SHARED lock by itself. *)
Lemma shared_world :
  exists (vs vs' : views) m' f, reachable (mkWorld vs both_opened ∅) /\
    files opened !! 1 = Some f /\ is_open f = true /\ f_locktype f = NO_LOCK /\
    handle opened 1 (0, 7) (f_locktype f) /\ quiet 1 vs (0, 7) /\
    (forall id2 t2, id2 <> 1 -> handle opened id2 (0, 7) t2 -> t2 = NO_LOCK) /\
    exec (Answers0 := kernel_answers 1 false) vs (unixLock 0 1 SHARED_LOCK opened) SQLITE_OK m' vs' /\
    reachable (mkWorld vs' (<[1 := Idle m']> both_opened) ∅) /\
    files m' = <[1 := with_locktype SHARED_LOCK f]> (files opened) /\
    handle m' 1 (0, 7) SHARED_LOCK /\ quiet 1 vs' (0, 7).
Proof.
  destruct opened_world as (vs & R & Q).
  destruct opened_handle as (f & l & x & Hf & Ho & Hl & Hx & Hi & Ht).
  assert (handle opened 1 (0, 7) (f_locktype f)) as Hh by by exists f, l, x.
  assert (forall id2 t2, id2 <> 1 -> handle opened id2 (0, 7) t2 -> t2 = NO_LOCK) as Hoth.
  { intros id2 t2. apply (only_handle opened (f_locktype f) id2 t2 f Hf).
    by rewrite with_locktype_id, insert_id. }
  assert (quiet 1 vs (0, 7)) as Hq by (intros q b _; apply Q).
  destruct (lock_alone 1 (mkWorld vs both_opened ∅) opened 0 1 f SHARED_LOCK (0, 7))
    as (_ & m' & vs' & Hx' & S & F & Kp & O); try done; [by apply reachable_ok | by left |].
  rewrite Ht in F. destruct (Kp _ _ Hx) as (x' & Hx'' & Hk).
  exists vs, vs', m', f. repeat (split; [done|]). split; [|split; [done|split]].
  - destruct R as (w0 & ? & ?). exists w0. split; [done | by etrans].
  - eexists _, l, x'. rewrite F, lookup_insert_eq, Hk. done.
  - intros q b Hne. simpl in *. rewrite O by done. apply Q.
Qed.

(** Then an EXCLUSIVE one. *)
Lemma exclusive_world :
  exists w : world (K := views), reachable w /\ w_refused w = ∅ /\ w_procs w !! 2 = Some (Idle opened) /\
    holds w 1 1 (0, 7) EXCLUSIVE_LOCK /\ holds w 2 1 (0, 7) NO_LOCK.
Proof.
  destruct shared_world as (vs & vs3 & m3 & f & _ & Hf & Ho & _ & _ & _ & _ & _ & R3 & F3 & H3 & Q3).
  set (f3 := with_locktype SHARED_LOCK f) in *.
  assert (files m3 !! 1 = Some f3) as Hf3 by (rewrite F3; apply lookup_insert_eq).
  destruct (lock_alone 1 (mkWorld vs3 (<[1 := Idle m3]> both_opened) ∅) m3 0 1 f3 EXCLUSIVE_LOCK (0, 7))
    as (_ & m4 & vs4 & _ & S4 & F4 & K4 & O4); try done.
  { by apply reachable_ok. }
  { right. split; [by right | done]. }
  { intros id2 t2. by apply (only_handle m3 SHARED_LOCK id2 t2 f Hf). }
  destruct H3 as (f3' & l & x3 & Hf3' & _ & Hl & Hx3 & Hi & _).
  assert (f3' = f3) as -> by congruence. destruct (K4 _ _ Hx3) as (x4 & Hx4 & Hk4).
  exists (mkWorld vs4 (<[1 := Idle m4]> (<[1 := Idle m3]> both_opened)) ∅).
  split; [|split; [|split; [|split]]].
  - destruct R3 as (w0 & ? & ?). exists w0. split; [done | by etrans].
  - done.
  - done.
  - unfold holds. simpl. rewrite lookup_insert_eq. eexists _, l, x4. rewrite F4, lookup_insert_eq, Hk4.
    done.
  - unfold holds. simpl. rewrite lookup_insert_ne, lookup_insert_ne by done. apply opened_handle.
Qed.

Lemma unix_lock_exclusion_witness :
  exists w : world (K := views), reachable w /\ w_refused w = ∅ /\
    holds w 1 1 (0, 7) EXCLUSIVE_LOCK /\
    holds w 2 1 (0, 7) NO_LOCK /\ (EXCLUSIVE_LOCK = EXCLUSIVE_LOCK -> NO_LOCK <= NO_LOCK).
Proof.
  destruct exclusive_world as (w & R & E & _ & H1 & H2). exists w. split; [done|]. split; [done|].
  split; [done|]. split; [done|].
  assert (forall p, p ∉ w_refused w) as Hr by (rewrite E; set_solver).
  apply (unix_lock_exclusion w 1 1 2 1 (0, 7) EXCLUSIVE_LOCK NO_LOCK R (Hr 1) (Hr 2) ltac:(done) H1 H2).
Defined.

Lemma unix_lock_records_witness :
  exists w : world (K := views), reachable w /\ w_refused w = ∅ /\
    w_procs w !! 2 = Some (Idle opened) /\
    forall l x, lockInfos opened !! l = Some x -> li_nRef x = countf (on_lock l) (files opened).
Proof.
  destruct exclusive_world as (w & R & E & Hs & _). exists w. split; [done|]. split; [done|].
  split; [done|]. assert (2 ∉ w_refused w) as Hr by (rewrite E; set_solver).
  intros l x Hx. apply (proj1 (unix_lock_records w 2 (Idle opened) R Hr Hs) l x Hx).
Defined.

Lemma unix_lock_granted_witness :
  exists w w' : world (K := views), reachable w /\ rtc step w w' /\ holds w' 1 1 (0, 7) SHARED_LOCK.
Proof.
  destruct shared_world as (vs & vs' & m' & f & R & Hf & Ho & Ht & Hh & Hq & Hoth & _).
  destruct (unix_lock_granted 1 (mkWorld vs both_opened ∅) opened 0 1 f SHARED_LOCK (0, 7)
    R (not_elem_of_empty _) eq_refl Hf Ho (or_introl eq_refl) Hh Hq Hoth) as (_ & w' & S & Hw).
  rewrite Ht in Hw. by exists (mkWorld vs both_opened ∅), w'.
Defined.

(** The process is in order and runs to SHARED. *)
Lemma shared_run :
  exists v m' v' f, Inv opened v /\ files opened !! 1 = Some f /\ is_open f = true /\
    f_locktype f = NO_LOCK /\ runs false v (unixLock 0 1 SHARED_LOCK opened) SQLITE_OK m' v'.
Proof.
  destruct shared_world as (vs & vs' & m' & f & R & Hf & Ho & Ht & _ & _ & _ & Hx & _).
  exists (vs 1), m', (vs' 1), f. split; [|by destruct (exec_local 1 false _ _ _ _ _ Hx)].
  apply (proj2 (reachable_ok _ R) 1 (Idle opened)); [apply not_elem_of_empty | reflexivity].
Qed.

Lemma unix_lock_result_witness :
  exists v m' v' f, Inv opened v /\ runs false v (unixLock 0 1 SHARED_LOCK opened) SQLITE_OK m' v' /\
    Inv m' v' /\ exists t', files m' = <[1 := with_locktype t' f]> (files opened).
Proof.
  destruct shared_run as (v & m' & v' & f & HI & Hf & Ho & _ & Hx).
  exists v, m', v', f. split; [done|]. split; [done|].
  destruct (unix_lock_result 0 1 SHARED_LOCK opened v f SQLITE_OK m' v' HI Hf Ho
    (or_introl eq_refl) Hx) as (HI' & t' & E & _).
  split; [done|]. by exists t'.
Defined.

Lemma unix_unlock_close_result_witness :
  exists v, Inv opened v /\
    forall rc m' v', runs false v (unixClose 0 1 opened) rc m' v' -> rc = SQLITE_OK.
Proof.
  destruct shared_run as (v & m' & v' & f & HI & Hf & Ho & _).
  exists v. split; [done|]. intros rc m2 v2 Hx.
  pose proof (unix_unlock_close_result 0 1 opened v f HI Hf Ho) as (_ & _ & Hc & _).
  by destruct (Hc rc m2 v2 Hx).
Defined.

(** A handle of thread 1 with a SHARED lock where threads cannot override each
    other's locks. *)
Definition owned : pmem :=
  after (scripted (unixLock 1 1 SHARED_LOCK
    (after (scripted (open_by 1 1 3 fresh_mem) [yes; dup5; yes; no; yes; yes; got; got; got; got])))
    [yes; yes; yes]).

Lemma unix_other_thread_witness :
  threadsOverrideEachOthersLocks owned = 0 /\
  unixLock 2 1 RESERVED_LOCK owned = Done SQLITE_MISUSE owned.
Proof.
  split; [vm_compute; reflexivity|].
  apply (unix_other_thread 2 1 owned (default zero_file (files owned !! 1)));
    solve [vm_compute; reflexivity | vm_compute; discriminate | by left].
Defined.
