(* ===== verification/DiskFile.v ===== *)
(** * Files on a disk, and what a crash leaves of them

    A file is the list of its bytes; reads and writes are by offset, and a
    write behind the end fills the gap with zeros.  What a process wrote is
    only sure to be on the disk after a sync, so a [dfile] keeps all versions
    of the file since its last sync.  A crash leaves a mixture of them: as many
    bytes as some version had, and of each sector of the last synced content
    one of the versions ([atomic_crash]), or, where the sectors may be torn,
    anything in every sector that was not left alone ([torn_crash]).  Behind
    the last synced content there may be anything. *)

From S2P Require Import Prelude PageBytes.

(** ** Bytes at an offset *)

(** The [n] bytes at [off], fewer at the end of the file. *)
Definition fsub (f : list Z) (off n : Z) : list Z := take (Z.to_nat n) (drop (Z.to_nat off) f).

Definition fwrite (f : list Z) (off : Z) (bs : list Z) : list Z :=
  take (Z.to_nat off) (f ++ replicate (Z.to_nat (off - zlen f)) 0)
  ++ bs ++ drop (Z.to_nat (off + zlen bs)) f.

(** [ftruncate] *)
Definition ftrunc (f : list Z) (n : Z) : list Z :=
  take (Z.to_nat n) f ++ replicate (Z.to_nat (n - zlen f)) 0.

Lemma fsub_lookup f off n i : 0 <= off -> 0 <= i < n -> rd (fsub f off n) i = rd f (off + i).
Proof.
  intros Ho Hi. unfold fsub, rd. rewrite !decide_True by lia.
  rewrite lookup_take_lt by lia. rewrite lookup_drop. f_equal. lia.
Qed.

Lemma fsub_zlen f off n : 0 <= off -> 0 <= n -> off + n <= zlen f -> zlen (fsub f off n) = n.
Proof. intros. unfold fsub. size. Qed.

Lemma fsub_zlen_le f off n : 0 <= n -> zlen (fsub f off n) <= n.
Proof. intros. unfold fsub. size. Qed.

Lemma fsub_zlen_eq f off n : 0 <= off -> 0 < n -> zlen (fsub f off n) = n -> off + n <= zlen f.
Proof. unfold fsub. intros. size. Qed.

(** Two files with the same bytes in a region. *)
Lemma fsub_ext f g off n : 0 <= off -> 0 <= n -> off + n <= zlen f -> off + n <= zlen g ->
  (forall i, off <= i < off + n -> rd f i = rd g i) -> fsub f off n = fsub g off n.
Proof.
  intros Ho Hn Hf Hg H. apply rd_ext; [by rewrite !fsub_zlen|].
  rewrite fsub_zlen by done. intros i Hi. rewrite !fsub_lookup by lia. apply H. lia.
Qed.

Lemma fsub_eq_rd f g off n i : 0 <= off -> fsub f off n = fsub g off n -> off <= i < off + n -> rd f i = rd g i.
Proof.
  intros Ho H Hi. replace i with (off + (i - off)) by lia. rewrite <- !(fsub_lookup _ off n) by lia. by rewrite H.
Qed.

(** A part of an equal region is equal. *)
Lemma fsub_fsub f off n a m : 0 <= off -> 0 <= a -> 0 <= m -> a + m <= n -> fsub (fsub f off n) a m = fsub f (off + a) m.
Proof.
  intros. unfold fsub. rewrite skipn_firstn_comm, drop_drop, take_take. f_equal; [lia|]. f_equal. lia.
Qed.

Lemma fsub_sub f g off n a m : 0 <= off -> off <= a -> 0 <= m -> a + m <= off + n ->
  fsub f off n = fsub g off n -> fsub f a m = fsub g a m.
Proof.
  intros ? ? ? ? H. replace a with (off + (a - off)) by lia.
  rewrite <- !(fsub_fsub _ off n) by lia. by rewrite H.
Qed.

Lemma fsub_app f off n m : 0 <= off -> 0 <= n -> 0 <= m -> fsub f off (n + m) = fsub f off n ++ fsub f (off + n) m.
Proof.
  intros. unfold fsub. rewrite !Z2Nat.inj_add by lia. rewrite <- drop_drop.
  by rewrite take_take_drop.
Qed.

Lemma fsub_app_inv f off a b : 0 <= off -> fsub f off (zlen a + zlen b) = a ++ b ->
  fsub f off (zlen a) = a /\ fsub f (off + zlen a) (zlen b) = b.
Proof.
  intros Ho H. pose proof (zlen_nonneg a). pose proof (zlen_nonneg b). rewrite fsub_app in H by lia.
  pose proof (f_equal zlen H) as L. rewrite !zlen_app in L.
  pose proof (fsub_zlen_le f off (zlen a)). pose proof (fsub_zlen_le f (off + zlen a) (zlen b)).
  apply app_inj_1 in H; [done|]. unfold zlen in *. lia.
Qed.

Lemma fsub_all f : fsub f 0 (zlen f) = f.
Proof. unfold fsub, zlen. rewrite Nat2Z.id. cbn. apply take_ge. lia. Qed.

Lemma fsub_past f off n : zlen f <= off -> fsub f off n = [].
Proof. intros. unfold fsub. rewrite drop_ge by size. by rewrite take_nil. Qed.

(** ** Writing *)

Lemma fwrite_zlen f off bs : 0 <= off -> zlen (fwrite f off bs) = Z.max (zlen f) (off + zlen bs).
Proof. intros. unfold fwrite. size. Qed.

Lemma fwrite_in f off bs i : 0 <= off -> off <= i < off + zlen bs -> rd (fwrite f off bs) i = rd bs (i - off).
Proof.
  intros Ho Hi. unfold fwrite. set (a := take _ _).
  assert (La : zlen a = off) by (subst a; size).
  replace i with (zlen a + (i - off)) at 1 by lia. rewrite rd_app_r by lia. apply rd_app_l. lia.
Qed.

Lemma fwrite_out f off bs i : 0 <= off -> i < zlen f -> i < off \/ off + zlen bs <= i -> rd (fwrite f off bs) i = rd f i.
Proof.
  intros Ho Hi Hr. unfold rd. case_decide; [|done]. unfold fwrite. set (a := take _ _).
  assert (La : zlen a = off) by (subst a; size). unfold zlen in *. destruct Hr as [Hr|Hr].
  - rewrite lookup_app_l by lia. subst a. rewrite lookup_take_lt by lia. rewrite lookup_app_l; [done|lia].
  - rewrite lookup_app_r by lia. rewrite lookup_app_r by lia. rewrite lookup_drop. f_equal. lia.
Qed.

Lemma fsub_fwrite_same f off bs : 0 <= off -> fsub (fwrite f off bs) off (zlen bs) = bs.
Proof.
  intros Ho. pose proof (zlen_nonneg bs). pose proof (fwrite_zlen f off bs Ho).
  apply rd_ext; [rewrite fsub_zlen; lia|]. rewrite fsub_zlen by lia. intros i Hi.
  rewrite fsub_lookup by lia. rewrite fwrite_in by lia. f_equal. lia.
Qed.

Lemma fsub_fwrite_other f off bs a n : 0 <= off -> 0 <= a -> 0 <= n -> a + n <= zlen f ->
  a + n <= off \/ off + zlen bs <= a -> fsub (fwrite f off bs) a n = fsub f a n.
Proof.
  intros. pose proof (fwrite_zlen f off bs). apply fsub_ext; [lia..|]. intros i Hi. apply fwrite_out; lia.
Qed.

(** Writing at the end. *)
Lemma fwrite_append f bs : fwrite f (zlen f) bs = f ++ bs.
Proof.
  unfold fwrite. rewrite Z.sub_diag. cbn. rewrite app_nil_r. unfold zlen at 1. rewrite Nat2Z.id, take_ge by lia.
  rewrite drop_ge by size. by rewrite app_nil_r.
Qed.

(** Two writes one behind the other. *)
Lemma fwrite_app f off b1 b2 : 0 <= off -> fwrite (fwrite f off b1) (off + zlen b1) b2 = fwrite f off (b1 ++ b2).
Proof.
  intros Ho. pose proof (zlen_nonneg b1). pose proof (zlen_nonneg b2).
  apply rd_ext; [rewrite !fwrite_zlen, zlen_app by lia; lia|].
  rewrite !fwrite_zlen by lia. intros i Hi.
  destruct (decide (off + zlen b1 <= i < off + zlen b1 + zlen b2)).
  { rewrite !fwrite_in by (rewrite ?zlen_app; lia). replace (i - off) with (zlen b1 + (i - (off + zlen b1))) by lia.
    by rewrite rd_app_r by lia. }
  rewrite fwrite_out by (rewrite ?fwrite_zlen; lia).
  destruct (decide (off <= i < off + zlen b1)).
  { rewrite !fwrite_in by (rewrite ?zlen_app; lia). by rewrite rd_app_l by lia. }
  destruct (decide (i < zlen f)).
  { rewrite !fwrite_out by (rewrite ?zlen_app; lia). done. }
  (* the gap *)
  assert (Hg : forall bs, i < off -> rd (fwrite f off bs) i = Some 0).
  { intros bs Hio. unfold fwrite. rewrite rd_app_l by size. unfold rd. rewrite decide_True by lia.
    rewrite lookup_take_lt by lia. rewrite lookup_app_r by size. apply lookup_replicate. split; [done|size]. }
  rewrite !Hg by lia. done.
Qed.

Lemma bytes_ok_fwrite f off bs : bytes_ok f -> bytes_ok bs -> bytes_ok (fwrite f off bs).
Proof.
  intros Hf Hb. unfold bytes_ok, fwrite. apply Forall_app. split; [|apply Forall_app; split; [done|by apply Forall_drop]].
  apply Forall_take, Forall_app. split; [done|]. apply Forall_replicate. unfold is_byte. lia.
Qed.

Lemma bytes_ok_fsub f off n : bytes_ok f -> bytes_ok (fsub f off n).
Proof. intros. by apply Forall_take, Forall_drop. Qed.

Lemma ftrunc_zlen f n : 0 <= n -> zlen (ftrunc f n) = n.
Proof. intros. unfold ftrunc. size. Qed.

Lemma ftrunc_in f n i : i < n -> i < zlen f -> rd (ftrunc f n) i = rd f i.
Proof.
  intros. unfold ftrunc. rewrite rd_app_l by size. unfold rd. case_decide; [|done].
  by rewrite lookup_take_lt by lia.
Qed.

Lemma fsub_ftrunc f n a m : 0 <= a -> 0 <= m -> a + m <= n -> a + m <= zlen f -> fsub (ftrunc f n) a m = fsub f a m.
Proof.
  intros. pose proof (ftrunc_zlen f n). apply fsub_ext; [lia..|]. intros i Hi. apply ftrunc_in; lia.
Qed.

(** Writing within the file, a byte after the other. *)
Lemma copy_to_fwrite bs f off : 0 <= off -> off + zlen bs <= zlen f -> copy_to f off bs = Ret (fwrite f off bs).
Proof.
  revert f off. induction bs as [|b bs IH]; intros f off Ho Hl; cbn [copy_to].
  - change (zlen (@nil Z)) with 0 in Hl. f_equal. symmetry. apply rd_ext.
    { rewrite fwrite_zlen by lia. change (zlen (@nil Z)) with 0. lia. }
    rewrite fwrite_zlen by lia. change (zlen (@nil Z)) with 0. intros i Hi. apply fwrite_out; [lia..|].
    change (zlen (@nil Z)) with 0. lia.
  - pose proof (zlen_nonneg bs). rewrite zlen_cons in Hl.
    destruct (wr_ok f off b) as [g Eg]; [lia|]. rewrite Eg. cbn [of_opt mbind res_bind].
    pose proof (wr_zlen _ _ _ _ Eg).
    assert (Hg : g = fwrite f off [b]).
    { apply rd_ext; [rewrite fwrite_zlen by lia; change (zlen [b]) with 1; lia|].
      intros i Hi. rewrite (rd_wr _ _ _ _ i Eg). destruct (Z.eqb_spec i off) as [->|Hne].
      - rewrite fwrite_in by (change (zlen [b]) with 1; lia). by rewrite Z.sub_diag.
      - by rewrite fwrite_out by (change (zlen [b]) with 1; lia). }
    change (copy_to g (off + 1) bs = Ret (fwrite f off (b :: bs))).
    rewrite IH by lia. subst g. f_equal. change (off + 1) with (off + zlen [b]). by rewrite fwrite_app.
Qed.

(** ** Versions and crashes *)

(** The size of the sectors of the disk. *)
Definition SECTOR : Z := 512.

Record dfile := mkDfile { now : list Z; before : list (list Z) }.

Definition versions (d : dfile) : list (list Z) := now d :: before d.

(** The content that was synced last. *)
Definition synced (d : dfile) : list Z := List.last (before d) (now d).

Definition modified (f : list Z) (d : dfile) : dfile := mkDfile f (now d :: before d).
Definition flushed (d : dfile) : dfile := mkDfile (now d) [].

(** What a call did to a file, all of it or a part. *)
Definition crash_length (d : dfile) (f : list Z) : Prop :=
  exists v v', v ∈ versions d /\ v' ∈ versions d /\ zlen v <= zlen f <= zlen v'.

Definition sector (f : list Z) (s : Z) : list Z := fsub f (s * SECTOR) SECTOR.

Definition atomic_crash (d : dfile) (f : list Z) : Prop :=
  crash_length d f /\
  forall s, 0 <= s -> exists v, v ∈ versions d /\
    forall i, s * SECTOR <= i < (s + 1) * SECTOR -> i < zlen (synced d) -> i < zlen f -> rd f i = rd v i.

Definition torn_crash (d : dfile) (f : list Z) : Prop :=
  crash_length d f /\
  forall s c, 0 <= s -> (forall v, v ∈ versions d -> sector v s = c) -> sector f s = c.

(** A sector that begins with [magic] was written that way: nothing else that
    a crash leaves behind the synced content looks like it. *)
Definition unforged (magic : list Z) (d : dfile) (f : list Z) : Prop :=
  forall s, 0 <= s -> fsub f (s * SECTOR) (zlen magic) = magic -> (s + 1) * SECTOR <= zlen f ->
    exists v, v ∈ versions d /\ sector v s = sector f s.

Lemma synced_version d : synced d ∈ versions d.
Proof.
  unfold synced, versions. destruct (before d) as [|x l] eqn:E using rev_ind; [constructor|].
  rewrite List.last_last. apply elem_of_cons. right. apply elem_of_app. right. constructor.
Qed.

Lemma now_version d : now d ∈ versions d.
Proof. constructor. Qed.

Lemma versions_modified f d v : v ∈ versions (modified f d) <-> v = f \/ v ∈ versions d.
Proof. unfold versions, modified. cbn. by rewrite elem_of_cons. Qed.

Lemma synced_modified f d : synced (modified f d) = synced d.
Proof.
  unfold synced, modified. change (List.last (now d :: before d) f = List.last (before d) (now d)).
  destruct (before d) as [|x l] eqn:E using rev_ind; [done|].
  rewrite app_comm_cons, !List.last_last. done.
Qed.

Lemma versions_flushed d v : v ∈ versions (flushed d) <-> v = now d.
Proof. unfold versions, flushed. cbn. by rewrite list_elem_of_singleton. Qed.

(** A synced file survives. *)
Lemma atomic_crash_sync v f : atomic_crash (mkDfile v []) f -> f = v.
Proof.
  unfold atomic_crash, crash_length, versions, synced. cbn.
  intros [(v1 & v2 & H1%list_elem_of_singleton & H2%list_elem_of_singleton & L) H]. subst.
  apply rd_ext; [lia|]. intros i Hi. unfold SECTOR in H.
  destruct (H (i / 512)) as (w & Hw%list_elem_of_singleton & E); [apply Z.div_pos; lia|]. subst w.
  pose proof (Z.div_mod i 512). pose proof (Z.mod_pos_bound i 512). apply E; lia.
Qed.

Lemma torn_crash_sync v f : torn_crash (mkDfile v []) f -> f = v.
Proof.
  unfold torn_crash, crash_length, versions. cbn.
  intros [(v1 & v2 & H1%list_elem_of_singleton & H2%list_elem_of_singleton & L) H]. subst.
  apply rd_ext; [lia|]. intros i Hi.
  pose proof (Z.div_mod i 512). pose proof (Z.mod_pos_bound i 512).
  assert (Hs : 0 <= i / 512) by (apply Z.div_pos; lia).
  specialize (H (i / 512) (sector v (i / 512)) Hs). unfold sector, SECTOR in H.
  apply (fsub_eq_rd f v (i / 512 * 512) 512); [lia| |lia]. apply H. by intros w ->%list_elem_of_singleton.
Qed.
