(* ===== verification/RecordUpdate.v ===== *)
(** * Updating one field of a record

    [r <| f := v |>] is [r] with [v] in the field [f], and [r <| f ::= g |>]
    with [g] applied to it.  A record type declares its fields by an instance
    of [Settable], the record taken apart and put together again; [mk_setter]
    makes the instance for a field from it. *)

From S2P Require Import Prelude.

Class Settable (R : Type) := settable : R -> R.
Class Setter {R T : Type} (f : R -> T) := set_field : (T -> T) -> R -> R.
Arguments set_field {R T} f {_} _ _.

Ltac mk_setter :=
  match goal with
  | |- @Setter ?R ?T ?f =>
      let e := constr:(_ : Settable R) in
      let e := eval hnf in e in
      exact (fun (g : T -> T) (r : R) => ltac:(
        let b := eval cbv beta in (e r) in
        match eval pattern (f r) in b with
        | ?F _ => let t := eval cbv beta in (F (g (f r))) in exact t
        end))
  end.

Notation "r <| f := v |>" := (set_field f (fun _ => v) r)
  (at level 12, f at next level, left associativity, format "r  <| f  :=  v |>").
Notation "r <| f ::= g |>" := (set_field f g r)
  (at level 12, f at next level, left associativity, format "r  <| f  ::=  g |>").
