(* ===== verification/Pager.v ===== *)
(** * The pager: its state and its calls to the operating system

    The state of a pager ([Pager]) over a database file that is open, its page
    cache ([PgHdr]) and the world that it runs in: the database, the journal
    and the statement journal, with the versions of the first two that a crash
    can bring back, and all pairs of files that there were before ([past]).

    Model of the structures of misc/sqlite/pager.c for a database that is
    neither temporary nor in memory (tempFile = 0, MEMDB = 0, no codec).  A
    page of the cache is given by its number; the hash table is the map
    [pAll], the LRU list and the list of dirty pages are lists of numbers, a
    [Bitvec] is a set (see Bitvec.v), in which a number may fail to be noted
    for lack of memory.  The callbacks of the b-tree layer (xDestructor,
    xReiniter) are left out.

    Every call to the operating system takes its result code from [io], with
    the number of bytes that a failed write still wrote, and succeeds when
    there is none left; allocations and random numbers likewise. *)

From S2P Require Import Prelude Varint PageBytes RecordUpdate DiskFile.

Record PgHdr := mkPgHdr {
  pData : list Z;
  inJournal : bool;
  dirty : bool;
  pg_needSync : bool;
  pg_alwaysRollback : bool;
  needRead : bool;
  pg_nRef : Z;
}.

#[export] Instance PgHdr_eta : Settable PgHdr := fun r =>
  mkPgHdr (pData r) (inJournal r) (dirty r) (pg_needSync r) (pg_alwaysRollback r) (needRead r) (pg_nRef r).
#[export] Instance set_pData : Setter pData := ltac:(mk_setter).
#[export] Instance set_inJournal : Setter inJournal := ltac:(mk_setter).
#[export] Instance set_dirty : Setter dirty := ltac:(mk_setter).
#[export] Instance set_pg_needSync : Setter pg_needSync := ltac:(mk_setter).
#[export] Instance set_pg_alwaysRollback : Setter pg_alwaysRollback := ltac:(mk_setter).
#[export] Instance set_needRead : Setter needRead := ltac:(mk_setter).
#[export] Instance set_pg_nRef : Setter pg_nRef := ltac:(mk_setter).

Record Pager := mkPager {
  useJournal : bool;
  noSync : bool;
  fullSync : bool;
  readOnly : bool;
  exclusiveMode : bool;
  journalMode : Z;
  mxPage : Z;
  mxPgno : Z;
  state : Z;
  errCode : Z;
  dbSize : Z;
  origDbSize : Z;
  pageSize : Z;
  sectorSize : Z;
  pTmpSpace : list Z;
  journalOpen : bool;
  journalStarted : bool;
  needSync : bool;
  dirtyCache : bool;
  alwaysRollback : bool;
  setMaster : bool;
  doNotSync : bool;
  dbModified : bool;
  changeCountDone : bool;
  nRec : Z;
  cksumInit : Z;
  journalOff : Z;
  journalHdr : Z;
  pInJournal : option (gset Z);
  stmtOpen : bool;
  stmtInUse : bool;
  stmtAutoopen : bool;
  stmtSize : Z;
  stmtNRec : Z;
  stmtHdrOff : Z;
  stmtJSize : Z;
  stmtCksum : Z;
  pInStmt : option (gset Z);
  nRef : Z;
  nPage : Z;
  pAll : gmap Z PgHdr;
  lru : list Z;
  pFirstSynced : option Z;
  pDirty : list Z;
  dbFileVers : list Z;
}.

#[export] Instance Pager_eta : Settable Pager := fun r =>
  mkPager (useJournal r) (noSync r) (fullSync r) (readOnly r) (exclusiveMode r) (journalMode r) (mxPage r)
    (mxPgno r) (state r) (errCode r) (dbSize r) (origDbSize r) (pageSize r) (sectorSize r)
    (pTmpSpace r) (journalOpen r) (journalStarted r) (needSync r) (dirtyCache r) (alwaysRollback r)
    (setMaster r) (doNotSync r) (dbModified r) (changeCountDone r) (nRec r) (cksumInit r)
    (journalOff r) (journalHdr r) (pInJournal r) (stmtOpen r) (stmtInUse r) (stmtAutoopen r)
    (stmtSize r) (stmtNRec r) (stmtHdrOff r) (stmtJSize r) (stmtCksum r) (pInStmt r) (nRef r) (nPage r)
    (pAll r) (lru r) (pFirstSynced r) (pDirty r) (dbFileVers r).
#[export] Instance set_useJournal : Setter useJournal := ltac:(mk_setter).
#[export] Instance set_noSync : Setter noSync := ltac:(mk_setter).
#[export] Instance set_fullSync : Setter fullSync := ltac:(mk_setter).
#[export] Instance set_readOnly : Setter readOnly := ltac:(mk_setter).
#[export] Instance set_exclusiveMode : Setter exclusiveMode := ltac:(mk_setter).
#[export] Instance set_journalMode : Setter journalMode := ltac:(mk_setter).
#[export] Instance set_mxPage : Setter mxPage := ltac:(mk_setter).
#[export] Instance set_mxPgno : Setter mxPgno := ltac:(mk_setter).
#[export] Instance set_state : Setter state := ltac:(mk_setter).
#[export] Instance set_errCode : Setter errCode := ltac:(mk_setter).
#[export] Instance set_dbSize : Setter dbSize := ltac:(mk_setter).
#[export] Instance set_origDbSize : Setter origDbSize := ltac:(mk_setter).
#[export] Instance set_pageSize : Setter pageSize := ltac:(mk_setter).
#[export] Instance set_sectorSize : Setter sectorSize := ltac:(mk_setter).
#[export] Instance set_pTmpSpace : Setter pTmpSpace := ltac:(mk_setter).
#[export] Instance set_journalOpen : Setter journalOpen := ltac:(mk_setter).
#[export] Instance set_journalStarted : Setter journalStarted := ltac:(mk_setter).
#[export] Instance set_needSync : Setter needSync := ltac:(mk_setter).
#[export] Instance set_dirtyCache : Setter dirtyCache := ltac:(mk_setter).
#[export] Instance set_alwaysRollback : Setter alwaysRollback := ltac:(mk_setter).
#[export] Instance set_setMaster : Setter setMaster := ltac:(mk_setter).
#[export] Instance set_doNotSync : Setter doNotSync := ltac:(mk_setter).
#[export] Instance set_dbModified : Setter dbModified := ltac:(mk_setter).
#[export] Instance set_changeCountDone : Setter changeCountDone := ltac:(mk_setter).
#[export] Instance set_nRec : Setter nRec := ltac:(mk_setter).
#[export] Instance set_cksumInit : Setter cksumInit := ltac:(mk_setter).
#[export] Instance set_journalOff : Setter journalOff := ltac:(mk_setter).
#[export] Instance set_journalHdr : Setter journalHdr := ltac:(mk_setter).
#[export] Instance set_pInJournal : Setter pInJournal := ltac:(mk_setter).
#[export] Instance set_stmtOpen : Setter stmtOpen := ltac:(mk_setter).
#[export] Instance set_stmtInUse : Setter stmtInUse := ltac:(mk_setter).
#[export] Instance set_stmtAutoopen : Setter stmtAutoopen := ltac:(mk_setter).
#[export] Instance set_stmtSize : Setter stmtSize := ltac:(mk_setter).
#[export] Instance set_stmtNRec : Setter stmtNRec := ltac:(mk_setter).
#[export] Instance set_stmtHdrOff : Setter stmtHdrOff := ltac:(mk_setter).
#[export] Instance set_stmtJSize : Setter stmtJSize := ltac:(mk_setter).
#[export] Instance set_stmtCksum : Setter stmtCksum := ltac:(mk_setter).
#[export] Instance set_pInStmt : Setter pInStmt := ltac:(mk_setter).
#[export] Instance set_nRef : Setter nRef := ltac:(mk_setter).
#[export] Instance set_nPage : Setter nPage := ltac:(mk_setter).
#[export] Instance set_pAll : Setter pAll := ltac:(mk_setter).
#[export] Instance set_lru : Setter lru := ltac:(mk_setter).
#[export] Instance set_pFirstSynced : Setter pFirstSynced := ltac:(mk_setter).
#[export] Instance set_pDirty : Setter pDirty := ltac:(mk_setter).
#[export] Instance set_dbFileVers : Setter dbFileVers := ltac:(mk_setter).

(** The journal of the database: there is none, or it is there, with its
    entry in the directory synced or not, or it was deleted. *)
Inductive jfile :=
| JNone
| JLive (f : dfile) (named : bool)
| JGone (f : dfile).

Record world := mkWorld {
  pgr : Pager;
  dbf : dfile;
  jrn : jfile;
  past : list (dfile * jfile);
  stj : list Z;
  others : gmap (list Z) (list Z);
  io : list (Z * Z);
  mem : list bool;
  rnd : list Z;
}.

#[export] Instance world_eta : Settable world := fun r =>
  mkWorld (pgr r) (dbf r) (jrn r) (past r) (stj r) (others r) (io r) (mem r) (rnd r).
#[export] Instance set_pgr : Setter pgr := ltac:(mk_setter).
#[export] Instance set_dbf : Setter dbf := ltac:(mk_setter).
#[export] Instance set_jrn : Setter jrn := ltac:(mk_setter).
#[export] Instance set_past : Setter past := ltac:(mk_setter).
#[export] Instance set_stj : Setter stj := ltac:(mk_setter).
#[export] Instance set_others : Setter others := ltac:(mk_setter).
#[export] Instance set_io : Setter io := ltac:(mk_setter).
#[export] Instance set_mem : Setter mem := ltac:(mk_setter).
#[export] Instance set_rnd : Setter rnd := ltac:(mk_setter).

Definition SQLITE_PERM : Z := 3.
Definition SQLITE_CANTOPEN : Z := 14.
Definition SQLITE_DONE : Z := 101.
Definition SQLITE_IOERR_READ : Z := Z.lor SQLITE_IOERR (Z.shiftl 1 8).
Definition SQLITE_IOERR_SHORT_READ : Z := Z.lor SQLITE_IOERR (Z.shiftl 2 8).
Definition SQLITE_IOERR_WRITE : Z := Z.lor SQLITE_IOERR (Z.shiftl 3 8).
Definition SQLITE_IOERR_FSYNC : Z := Z.lor SQLITE_IOERR (Z.shiftl 4 8).
Definition SQLITE_IOERR_TRUNCATE : Z := Z.lor SQLITE_IOERR (Z.shiftl 6 8).
Definition SQLITE_IOERR_FSTAT : Z := Z.lor SQLITE_IOERR (Z.shiftl 7 8).
Definition SQLITE_IOERR_UNLOCK : Z := Z.lor SQLITE_IOERR (Z.shiftl 8 8).
Definition SQLITE_IOERR_BLOCKED : Z := Z.lor SQLITE_IOERR (Z.shiftl 11 8).
Definition SQLITE_IOERR_NOMEM : Z := Z.lor SQLITE_IOERR (Z.shiftl 12 8).

Definition PAGER_UNLOCK : Z := 0.
Definition PAGER_SHARED : Z := 1.
Definition PAGER_RESERVED : Z := 2.
Definition PAGER_EXCLUSIVE : Z := 4.
Definition PAGER_SYNCED : Z := 5.

Definition NO_LOCK : Z := 0.
Definition SHARED_LOCK : Z := 1.
Definition RESERVED_LOCK : Z := 2.
Definition EXCLUSIVE_LOCK : Z := 4.

Definition PAGER_JOURNALMODE_DELETE : Z := 0.
Definition PAGER_JOURNALMODE_PERSIST : Z := 1.
Definition PAGER_JOURNALMODE_OFF : Z := 2.

Definition PAGER_MAX_PGNO : Z := 2147483647.
Definition SQLITE_MAX_PAGE_SIZE : Z := 32768.

(** [unixSectorSize] and [unixDeviceCharacteristics] *)
Definition unixSectorSize : Z := 512.
Definition unixDeviceCharacteristics : Z := 0.
Definition SQLITE_IOCAP_SAFE_APPEND : Z := 0x200.
Definition SQLITE_IOCAP_SEQUENTIAL : Z := 0x400.

(** [mxPathname] of the Unix port *)
Definition MAX_PATHNAME : Z := 512.

Definition JOURNAL_PG_SZ (p : Pager) : Z := pageSize p + 8.
Definition JOURNAL_HDR_SZ (p : Pager) : Z := sectorSize p.
Definition PAGER_MJ_PGNO (p : Pager) : Z := PENDING_BYTE / pageSize p + 1.

Definition aJournalMagic : list Z := [0xd9; 0xd5; 0x05; 0xf9; 0x20; 0xa1; 0x63; 0xd7].

(** ** Computations of the pager *)

(** A computation that returns a value or a result code other than
    [SQLITE_OK]; what it did to the world stays. *)
Definition M (A : Type) : Type := world -> res (world * (Z + A)).

#[export] Instance M_ret : MRet M := fun A a w => Ret (w, inr a).
#[export] Instance M_bind : MBind M := fun A B f m w =>
  match m w with
  | Ret (w, inr a) => f a w
  | Ret (w, inl rc) => Ret (w, inl rc)
  | Abort => Abort | UB => UB | NoFuel => NoFuel
  end.

Definition throw {A} (rc : Z) : M A := fun w => Ret (w, inl rc).
Definition lift {A} (m : res A) : M A := fun w => a ← m; Ret (w, inr a).
Definition asserts (b : bool) : M unit := lift (c_assert b).
Definition get : M world := fun w => Ret (w, inr w).
Definition pager : M Pager := fun w => Ret (w, inr (pgr w)).
Definition upd_world (f : world -> world) : M unit := fun w => Ret (f w, inr tt).
Definition upd (f : Pager -> Pager) : M unit := fun w => Ret (w <| pgr ::= f |>, inr tt).

(** The result as a value, [inl] for a code. *)
Definition attempt {A} (m : M A) : M (Z + A) := fun w =>
  match m w with
  | Ret (w, r) => Ret (w, inr r)
  | Abort => Abort | UB => UB | NoFuel => NoFuel
  end.

(** The result code of a call. *)
Definition code {A} (m : M A) : M Z := r ← attempt m; mret (match r with inl rc => rc | inr _ => SQLITE_OK end).

(** [if( rc!=SQLITE_OK ) return rc;] *)
Definition check (rc : Z) : M unit := if rc =? SQLITE_OK then mret tt else throw rc.

Definition when (b : bool) (m : M unit) : M unit := if b then m else mret tt.

(** Runs a call and, whatever became of it, another one; the first error
    wins. *)
Definition finally {A} (m : M A) (m2 : M unit) : M A :=
  r ← attempt m; m2;; match r with inl rc => throw rc | inr a => mret a end.

(** ** The operating system *)

Definition os : M (Z * Z) := fun w =>
  match io w with
  | [] => Ret (w, inr (SQLITE_OK, 0))
  | x :: rest => Ret (w <| io := rest |>, inr x)
  end.

Definition malloc_ok : M bool := fun w =>
  let '(b, rest) := next_alloc (mem w) in Ret (w <| mem := rest |>, inr b).

Definition sqlite3_randomness : M Z := fun w =>
  match rnd w with
  | [] => Ret (w, inr 0)
  | x :: rest => Ret (w <| rnd := rest |>, inr (u32 x))
  end.

(** The files of a pager: [fd], [jfd] and [stfd], and any other file, which is
    only read. *)
Inductive handle := HDb | HJ | HSt | HFile (bytes : list Z).

Definition content (h : handle) : M (list Z) := fun w =>
  match h, jrn w with
  | HDb, _ => Ret (w, inr (now (dbf w)))
  | HJ, JLive f _ => Ret (w, inr (now f))
  | HJ, _ => UB
  | HSt, _ => Ret (w, inr (stj w))
  | HFile bytes, _ => Ret (w, inr bytes)
  end.

(** The files are changed; [past] keeps what they were. *)
Definition new_files (d : dfile) (j : jfile) : M unit := fun w =>
  Ret (w <| past ::= cons (dbf w, jrn w) |> <| dbf := d |> <| jrn := j |>, inr tt).

Definition set_content (h : handle) (f : list Z) : M unit := fun w =>
  match h, jrn w with
  | HDb, j => new_files (modified f (dbf w)) j w
  | HJ, JLive d named => new_files (dbf w) (JLive (modified f d) named) w
  | HJ, _ => UB
  | HSt, _ => Ret (w <| stj := f |>, inr tt)
  | HFile _, _ => UB
  end.

(** A call that the system refuses. *)
Definition refused : M (bool * Z * Z) := '(rc, n) ← os; mret (negb (rc =? SQLITE_OK), rc, n).

(** [unixRead]: what is behind the end of the file reads as zeros, with a
    code of its own.  An error comes without bytes. *)
Definition sqlite3OsRead (h : handle) (amt off : Z) : M (Z * list Z) :=
  '(no, _, _) ← refused;
  if no || (off <? 0) then mret (SQLITE_IOERR_READ, []) else
  f ← content h;
  let bs := fsub f off amt in
  if zlen bs =? amt then mret (SQLITE_OK, bs)
  else mret (SQLITE_IOERR_SHORT_READ, bs ++ replicate (Z.to_nat (amt - zlen bs)) 0).

(** Callers that give up on every code. *)
Definition os_read (h : handle) (amt off : Z) : M (list Z) :=
  '(rc, bs) ← sqlite3OsRead h amt off; check rc;; mret bs.

(** [unixWrite]: all bytes, or the first ones and an error. *)
Definition sqlite3OsWrite (h : handle) (bs : list Z) (off : Z) : M unit :=
  asserts (0 <? zlen bs);;
  '(no, rc, n) ← refused;
  if off <? 0 then throw SQLITE_IOERR_WRITE else
  f ← content h;
  if no : bool then
    set_content h (fwrite f off (take (Z.to_nat n) bs));;
    throw (if rc =? SQLITE_FULL then SQLITE_FULL else SQLITE_IOERR_WRITE)
  else set_content h (fwrite f off bs).

(** [unixTruncate] and [unixFileSize] *)
Definition sqlite3OsTruncate (h : handle) (n : Z) : M unit :=
  '(no, _, _) ← refused;
  if (no : bool) || (n <? 0) then throw SQLITE_IOERR_TRUNCATE else
  f ← content h; set_content h (ftrunc f n).

Definition sqlite3OsFileSize (h : handle) : M Z :=
  '(no, _, _) ← refused;
  if no : bool then throw SQLITE_IOERR_FSTAT else
  f ← content h; mret (zlen f).

(** [unixSync]; the first sync of a journal syncs its directory, which is
    taken to work, since [unixSync] would ignore an error. *)
Definition sqlite3OsSync (h : handle) : M unit :=
  '(no, _, _) ← refused;
  if no : bool then throw SQLITE_IOERR_FSYNC else
  w ← get;
  match h, jrn w with
  | HDb, j => new_files (flushed (dbf w)) j
  | HJ, JLive d _ => new_files (dbf w) (JLive (flushed d) true)
  | HJ, _ => lift UB
  | HSt, _ | HFile _, _ => mret tt
  end.

Definition sqlite3OsLock (locktype : Z) : M unit := '(rc, _) ← os; check rc.
Definition sqlite3OsUnlock (locktype : Z) : M unit := '(rc, _) ← os; check rc.

(** [unixOpen] of the journal: creating it, where an error may come after the
    file was made, and opening the one that is there. *)
Definition create_journal : M unit :=
  '(no, rc, n) ← refused;
  w ← get;
  match jrn w with
  | JLive _ _ => throw SQLITE_CANTOPEN
  | _ =>
      if (no : bool) && (n =? 0) then throw rc else
      new_files (dbf w) (JLive (mkDfile [] []) false);;
      if no : bool then throw rc else mret tt
  end.

Definition open_journal : M unit :=
  '(no, _, _) ← refused;
  w ← get;
  match jrn w with
  | JLive _ _ => if no : bool then throw SQLITE_CANTOPEN else mret tt
  | _ => throw SQLITE_CANTOPEN
  end.

(** [unixDelete] does not look at what [unlink] returns. *)
Definition delete_journal : M unit :=
  '(no, _, _) ← refused;
  w ← get;
  match jrn w with
  | JLive f _ => if no : bool then mret tt else new_files (dbf w) (JGone f)
  | _ => mret tt
  end.

Definition journal_exists : M bool :=
  w ← get; mret (match jrn w with JLive _ _ => true | _ => false end).

(** ** Integers and bytes *)

Definition read32bits (h : handle) (offset : Z) : M Z :=
  ac ← os_read h 4 offset; lift (sqlite3Get4byte ac).

Definition write32bits (h : handle) (offset val : Z) : M unit :=
  sqlite3OsWrite h (sqlite3Put4byte val) offset.

(** The pager's own buffer: bytes at an offset are overwritten. *)
Definition put_tmp (off : Z) (bs : list Z) : M unit :=
  p ← pager; t ← lift (copy_to (pTmpSpace p) off bs); upd (fun p => p <| pTmpSpace := t |>).

(** The characters up to the first NUL. *)
Fixpoint c_string (z : list Z) : list Z :=
  match z with [] => [] | c :: z => if c =? 0 then [] else c :: c_string z end.

(** ** A pager that was just opened *)

Definition SQLITE_MAX_PAGE_COUNT : Z := 1073741823.

(** What [sqlite3PagerOpen] leaves of a file that may be written, with a
    journal, when [nDefaultPage] is the page size. *)
Definition pager_opened (nDefaultPage : Z) : Pager := {|
  useJournal := true; noSync := false; fullSync := true; readOnly := false; exclusiveMode := false;
  journalMode := PAGER_JOURNALMODE_DELETE; mxPage := 100; mxPgno := SQLITE_MAX_PAGE_COUNT;
  state := PAGER_UNLOCK; errCode := SQLITE_OK; dbSize := -1; origDbSize := 0;
  pageSize := nDefaultPage; sectorSize := if unixSectorSize <? 512 then 512 else unixSectorSize;
  pTmpSpace := replicate (Z.to_nat nDefaultPage) 0;
  journalOpen := false; journalStarted := false; needSync := false; dirtyCache := false; alwaysRollback := false;
  setMaster := false; doNotSync := false; dbModified := false; changeCountDone := false;
  nRec := 0; cksumInit := 0; journalOff := 0; journalHdr := 0; pInJournal := None;
  stmtOpen := false; stmtInUse := false; stmtAutoopen := false; stmtSize := 0; stmtNRec := 0; stmtHdrOff := 0;
  stmtJSize := 0; stmtCksum := 0; pInStmt := None;
  nRef := 0; nPage := 0; pAll := ∅; lru := []; pFirstSynced := None; pDirty := [];
  dbFileVers := replicate 16 0;
|}.
