(* ===== verification/PagerJournal.v ===== *)
(** * The rollback journal: its format, and playing it back

    Model of the first half of misc/sqlite/pager.c: the header and the records
    of a journal, the name of a master journal at its end, the end of a
    transaction, and [pager_playback], which brings the pages of a journal
    back into the database file and into the cache. *)

From S2P Require Import Prelude Varint PageBytes RecordUpdate DiskFile Pager.

Section journal.

(** What fresh memory of a size holds. *)
Context (junk : Z -> list Z).

(** The name of the journal file. *)
Context (zJournal : list Z).

(** ** The cache *)

Definition pager_lookup (p : Pager) (pgno : Z) : option PgHdr := pAll p !! pgno.

Definition set_page (pgno : Z) (f : PgHdr -> PgHdr) (p : Pager) : Pager := p <| pAll ::= alter f pgno |>.

(** The pages of a list that need no sync of the journal. *)
Definition is_synced (p : Pager) (pgno : Z) : bool :=
  match pAll p !! pgno with Some pPg => negb (pg_needSync pPg) | None => false end.

Definition lruListAdd (pgno : Z) (p : Pager) : Pager :=
  let p := p <| lru ::= fun l => l ++ [pgno] |> in
  match pFirstSynced p with
  | None => if is_synced p pgno then p <| pFirstSynced := Some pgno |> else p
  | Some _ => p
  end.

Fixpoint behind (pgno : Z) (l : list Z) : list Z :=
  match l with [] => [] | x :: l => if x =? pgno then l else behind pgno l end.

Definition lruListRemove (pgno : Z) (p : Pager) : Pager :=
  let first :=
    if decide (pFirstSynced p = Some pgno) then List.find (is_synced p) (behind pgno (lru p))
    else pFirstSynced p in
  p <| lru ::= List.filter (fun x => negb (x =? pgno)) |> <| pFirstSynced := first |>.

Definition lruListSetFirstSynced (p : Pager) : Pager := p <| pFirstSynced := head (lru p) |>.

Definition makeDirty (pgno : Z) (p : Pager) : Pager :=
  match pAll p !! pgno with
  | Some pPg =>
      if dirty pPg then p
      else set_page pgno (fun pPg => pPg <| dirty := true |>) p <| pDirty ::= cons pgno |>
  | None => p
  end.

Definition makeClean (pgno : Z) (p : Pager) : Pager :=
  match pAll p !! pgno with
  | Some pPg =>
      if dirty pPg then
        set_page pgno (fun pPg => pPg <| dirty := false |>) p
          <| pDirty ::= List.filter (fun x => negb (x =? pgno)) |>
      else p
  | None => p
  end.

(** The number of a page leaves the hash table, and so the model. *)
Definition unlinkPage (pgno : Z) (p : Pager) : Pager := lruListRemove pgno p <| pAll ::= delete pgno |>.

(** Pages behind the end of the file leave the cache; those in use become
    zero. *)
Definition pager_truncate_cache (p : Pager) : Pager :=
  foldr (fun '(pgno, pPg) p =>
    if pgno <=? u32 (dbSize p) then p
    else if 0 <? pg_nRef pPg then
      set_page pgno (fun pPg => pPg <| pData := replicate (Z.to_nat (pageSize p)) 0 |>) p
    else unlinkPage pgno (makeClean pgno p) <| nPage ::= Z.pred |>)
    p (map_to_list (pAll p)).

Definition pager_reset : M unit :=
  p ← pager;
  if negb (errCode p =? SQLITE_OK) then mret tt else
  let l := List.filter (fun x => negb (bool_decide (is_Some (pAll p !! x)))) (lru p) in
  asserts (match l with [] => true | _ => false end);;
  upd (fun p => p <| lru := [] |> <| pFirstSynced := None |> <| pAll := ∅ |> <| pDirty := [] |>
                  <| nPage := 0 |> <| nRef := 0 |>).

Definition setSectorSize : M unit :=
  upd (fun p => p <| sectorSize := if unixSectorSize <? 512 then 512 else unixSectorSize |>).

Definition sqlite3PagerSetPagesize (pageSize_ : Z) : M unit :=
  p ← pager;
  asserts ((pageSize_ =? 0) || ((512 <=? pageSize_) && (pageSize_ <=? SQLITE_MAX_PAGE_SIZE)));;
  if negb (pageSize_ =? 0) && negb (pageSize_ =? pageSize p) && (nRef p =? 0) then
    b ← malloc_ok;
    if negb b then throw SQLITE_NOMEM else
    pager_reset;;
    upd (fun p => p <| pageSize := pageSize_ |>);;
    setSectorSize;;
    upd (fun p => p <| pTmpSpace := junk pageSize_ |>)
  else mret tt.

(** ** Headers *)

(** [a / b] in C. *)
Definition c_div (a b : Z) : res Z := if b =? 0 then UB else Ret (Z.quot a b).

Definition seekJournalHdr : M unit :=
  p ← pager;
  let c := journalOff p in
  offset ← (if c =? 0 then mret 0
            else q ← lift (c_div (c - 1) (JOURNAL_HDR_SZ p)); mret ((q + 1) * JOURNAL_HDR_SZ p));
  (if sectorSize p =? 0 then lift UB else asserts (Z.rem offset (JOURNAL_HDR_SZ p) =? 0));;
  asserts (c <=? offset);;
  asserts (offset - c <? JOURNAL_HDR_SZ p);;
  upd (fun p => p <| journalOff := offset |>).

Definition zeroJournalHdr (doTruncate : bool) : M unit :=
  p ← pager;
  if journalOff p =? 0 then mret tt else
  (if doTruncate then sqlite3OsTruncate HJ 0
   else sqlite3OsWrite HJ (replicate 28 0) 0);;
  sqlite3OsSync HJ.

(** The copies of the header that fill the header sector; [journalOff]
    advances even if a write fails. *)
Fixpoint write_headers (fuel : nat) (nWrite nHeader : Z) (zHeader : list Z) : M unit :=
  match fuel with
  | O => lift NoFuel
  | S fuel =>
      p ← pager;
      if JOURNAL_HDR_SZ p <=? nWrite then mret tt else
      rc ← code (sqlite3OsWrite HJ zHeader (journalOff p));
      upd (fun p => p <| journalOff ::= Z.add nHeader |>);;
      check rc;;
      write_headers fuel (nWrite + nHeader) nHeader zHeader
  end.

Definition writeJournalHdr : M unit :=
  p ← pager;
  let nHeader := if JOURNAL_HDR_SZ p <? pageSize p then JOURNAL_HDR_SZ p else pageSize p in
  when (stmtHdrOff p =? 0) (upd (fun p => p <| stmtHdrOff := journalOff p |>));;
  seekJournalHdr;;
  upd (fun p => p <| journalHdr := journalOff p |>);;
  put_tmp 0 aJournalMagic;;
  (if noSync p || negb (Z.land unixDeviceCharacteristics SQLITE_IOCAP_SAFE_APPEND =? 0)
   then put_tmp 8 (sqlite3Put4byte 0xffffffff) else put_tmp 8 (sqlite3Put4byte 0));;
  ck ← sqlite3_randomness;
  upd (fun p => p <| cksumInit := ck |>);;
  put_tmp 12 (sqlite3Put4byte ck);;
  put_tmp 16 (sqlite3Put4byte (u32 (dbSize p)));;
  put_tmp 20 (sqlite3Put4byte (u32 (sectorSize p)));;
  p ← pager;
  when (journalHdr p =? 0) (put_tmp 24 (sqlite3Put4byte (u32 (pageSize p))));;
  p ← pager;
  write_headers (S (Z.to_nat (JOURNAL_HDR_SZ p))) 0 nHeader (take (Z.to_nat nHeader) (pTmpSpace p)).

(** [iPageSize] is a page size that may be set. *)
Definition page_size_ok (n : Z) : bool :=
  (512 <=? n) && (n <=? SQLITE_MAX_PAGE_SIZE) && (Z.land (n - 1) n =? 0).

(** The values of [*pNRec] and [*pDbSize]. *)
Definition readJournalHdr (journalSize : Z) : M (Z * Z) :=
  seekJournalHdr;;
  p ← pager;
  if journalSize <? journalOff p + JOURNAL_HDR_SZ p then throw SQLITE_DONE else
  let jrnlOff := journalOff p in
  aMagic ← os_read HJ 8 jrnlOff;
  let jrnlOff := jrnlOff + 8 in
  if negb (bool_decide (aMagic = aJournalMagic)) then throw SQLITE_DONE else
  nRec ← read32bits HJ jrnlOff;
  ck ← read32bits HJ (jrnlOff + 4);
  upd (fun p => p <| cksumInit := ck |>);;
  dbSize ← read32bits HJ (jrnlOff + 8);
  iPageSize ← read32bits HJ (jrnlOff + 16);
  let iPageSize := s32 iPageSize in
  when (page_size_ok iPageSize) (sqlite3PagerSetPagesize (u16 iPageSize));;
  ss ← read32bits HJ (jrnlOff + 12);
  upd (fun p => p <| sectorSize := s32 ss |>);;
  upd (fun p => p <| journalOff ::= Z.add (JOURNAL_HDR_SZ p) |>);;
  mret (nRec, dbSize).

(** ** Master journals *)

Definition sum_chars (z : list Z) : Z := u32 (foldr (fun c n => schar c + n) 0 z).

(** The name goes into the buffer [zMaster]; the result is the buffer, with
    the code. *)
Definition readMasterJournal (pJrnl : handle) (zMaster : list Z) (nMaster : Z) : M (Z * list Z) :=
  zMaster ← lift (copy_to zMaster 0 [0]);
  rz ← attempt (sqlite3OsFileSize pJrnl);
  match rz with
  | inl rc => mret (rc, zMaster)
  | inr szJ =>
      if szJ <? 16 then mret (SQLITE_OK, zMaster) else
      rl ← attempt (read32bits pJrnl (szJ - 16));
      match rl with
      | inl rc => mret (rc, zMaster)
      | inr len =>
          if nMaster <=? len then mret (SQLITE_OK, zMaster) else
          rk ← attempt (read32bits pJrnl (szJ - 12));
          match rk with
          | inl rc => mret (rc, zMaster)
          | inr cksum =>
              rm ← attempt (os_read pJrnl 8 (szJ - 8));
              match rm with
              | inl rc => mret (rc, zMaster)
              | inr aMagic =>
                  if negb (bool_decide (aMagic = aJournalMagic)) then mret (SQLITE_OK, zMaster) else
                  '(rc, name) ← sqlite3OsRead pJrnl len (szJ - 16 - len);
                  zMaster ← lift (copy_to zMaster 0 name);
                  if negb (rc =? SQLITE_OK) then mret (rc, zMaster) else
                  zMaster ← lift (copy_to zMaster len [0]);
                  if u32 (cksum - sum_chars name) =? 0 then mret (SQLITE_OK, zMaster)
                  else zMaster ← lift (copy_to zMaster 0 [0]); mret (SQLITE_OK, zMaster)
              end
          end
      end
  end.

(** [zMaster], a string or a null pointer, at the end of the journal. *)
Definition writeMasterJournal (zMaster : option (list Z)) : M unit :=
  p ← pager;
  match zMaster with
  | None => mret tt
  | Some z =>
      if setMaster p then mret tt else
      upd (fun p => p <| setMaster := true |>);;
      len ← lift (strlen z);
      let name := take (Z.to_nat len) z in
      let cksum := sum_chars name in
      when (fullSync p) seekJournalHdr;;
      p ← pager;
      let jrnlOff := journalOff p in
      upd (fun p => p <| journalOff ::= Z.add (len + 20) |>);;
      write32bits HJ jrnlOff (PAGER_MJ_PGNO p);;
      let jrnlOff := jrnlOff + 4 in
      sqlite3OsWrite HJ name jrnlOff;;
      let jrnlOff := jrnlOff + len in
      rc ← code (sqlite3OsWrite HJ (sqlite3Put4byte len ++ sqlite3Put4byte cksum ++ aJournalMagic) jrnlOff);
      let jrnlOff := jrnlOff + 16 in
      upd (fun p => p <| needSync := negb (noSync p) |>);;
      check rc;;
      jrnlSize ← sqlite3OsFileSize HJ;
      if jrnlOff <? jrnlSize then sqlite3OsTruncate HJ jrnlOff else mret tt
  end.

(** [unixAccess]: 1 if a file of that name is found, else 0. *)
Definition sqlite3OsAccess (name : list Z) : M Z :=
  '(no, _, _) ← refused;
  w ← get;
  b ← (if bool_decide (name = zJournal) then journal_exists
       else mret (bool_decide (is_Some (others w !! name))));
  mret (if negb no && b then 1 else 0).

(** The children of the master journal from [z] on; [zPtr] is the memory
    behind them.  [true] when one of them still refers to the master. *)
Fixpoint delmaster_children (fuel : nat) (z zPtr : list Z) (zMaster : list Z) : M bool :=
  match fuel with
  | O => lift NoFuel
  | S fuel =>
      match z with
      | [] => mret false
      | _ =>
          len ← lift (strlen (z ++ zPtr));
          let name := take (Z.to_nat len) (z ++ zPtr) in
          rc ← sqlite3OsAccess name;
          if negb (rc =? 0) && negb (rc =? 1) then throw SQLITE_IOERR_NOMEM else
          '(c, zPtr) ← (if rc =? 1 then
                  '(rc, _) ← os; check rc;;
                  w ← get;
                  bytes ← (if bool_decide (name = zJournal) then content HJ
                           else mret (default [] (others w !! name)));
                  '(rc, zPtr) ← readMasterJournal (HFile bytes) zPtr (MAX_PATHNAME + 1);
                  check rc;;
                  mret (bool_decide (c_string zPtr <> []) && bool_decide (c_string zPtr = c_string zMaster), zPtr)
                else mret (false, zPtr));
          if (c : bool) then mret true
          else delmaster_children fuel (drop (Z.to_nat (len + 1)) z) zPtr zMaster
      end
  end.

Definition pager_delmaster (zMaster : list Z) : M unit :=
  b ← malloc_ok;
  if negb b then throw SQLITE_NOMEM else
  '(rc, _) ← os; check rc;;
  w ← get;
  match others w !! c_string zMaster with
  | None => throw SQLITE_CANTOPEN
  | Some z =>
      '(rc, _) ← os; check rc;;
      c ← (if 0 <? zlen z then
             b ← malloc_ok;
             if negb b then throw SQLITE_NOMEM else
             '(rc, _) ← os; check rc;;
             delmaster_children (S (length z)) z (junk (MAX_PATHNAME + 1)) zMaster
           else mret false);
      if (c : bool) then mret tt else
      '(rc, _) ← os; check rc;;
      upd_world (fun w => w <| others ::= delete (c_string zMaster) |>)
  end.

(** ** Errors, and the end of a transaction *)

Definition pager_unlock : M unit :=
  p ← pager;
  if exclusiveMode p then mret tt else
  rc ← code (sqlite3OsUnlock NO_LOCK);
  when (negb (rc =? SQLITE_OK)) (upd (fun p => p <| errCode := rc |>));;
  upd (fun p => p <| dbSize := -1 |>);;
  when (journalOpen p) (upd (fun p => p <| journalOpen := false |> <| pInJournal := None |>));;
  p ← pager;
  when (negb (errCode p =? SQLITE_OK))
    (when (rc =? SQLITE_OK) (upd (fun p => p <| errCode := SQLITE_OK |>));;
     pager_reset;;
     when (stmtOpen p) (upd (fun p => p <| pInStmt := None |>));;
     upd (fun p => p <| stmtOpen := false |> <| stmtInUse := false |> <| journalOff := 0 |>
                     <| journalStarted := false |> <| stmtAutoopen := false |> <| origDbSize := 0 |>));;
  upd (fun p => p <| state := PAGER_UNLOCK |> <| changeCountDone := false |>).

(** The code that it returns is its argument. *)
Definition pager_error (rc : Z) : M unit :=
  p ← pager;
  asserts ((errCode p =? SQLITE_FULL) || (errCode p =? SQLITE_OK) || (Z.land (errCode p) 0xff =? SQLITE_IOERR));;
  let rc2 := Z.land rc 0xff in
  when ((rc2 =? SQLITE_FULL) || (rc2 =? SQLITE_IOERR) || (rc2 =? SQLITE_CORRUPT))
    (upd (fun p => p <| errCode := rc |>);;
     when ((state p =? PAGER_UNLOCK) && (nRef p =? 0)) pager_unlock).

Definition sqlite3PagerStmtCommit : M unit :=
  p ← pager;
  when (stmtInUse p) (upd (fun p => p <| pInStmt := None |> <| stmtNRec := 0 |> <| stmtInUse := false |>));;
  upd (fun p => p <| stmtAutoopen := false |>).

Definition clean_page (pPg : PgHdr) : PgHdr :=
  pPg <| inJournal := false |> <| dirty := false |> <| pg_needSync := false |> <| pg_alwaysRollback := false |>.

Definition pager_end_transaction (hasMaster : bool) : M unit :=
  p ← pager;
  if state p <? PAGER_RESERVED then mret tt else
  sqlite3PagerStmtCommit;;
  when (stmtOpen p && negb (exclusiveMode p)) (upd (fun p => p <| stmtOpen := false |>));;
  rc ← (if journalOpen p then
          rc ← (if exclusiveMode p || (journalMode p =? PAGER_JOURNALMODE_PERSIST) then
                  rc ← code (zeroJournalHdr hasMaster);
                  pager_error rc;;
                  upd (fun p => p <| journalOff := 0 |> <| journalStarted := false |>);;
                  mret rc
                else
                  upd (fun p => p <| journalOpen := false |>);;
                  code delete_journal);
          upd (fun p => p <| pInJournal := None |> <| pAll ::= fmap clean_page |> <| pDirty := [] |>
                          <| dirtyCache := false |> <| nRec := 0 |>);;
          mret rc
        else asserts (bool_decide (pInJournal p = None));; mret SQLITE_OK);
  p ← pager;
  rc2 ← (if negb (exclusiveMode p) then
           rc2 ← code (sqlite3OsUnlock SHARED_LOCK);
           upd (fun p => p <| state := PAGER_SHARED |>);;
           mret rc2
         else
           when (state p =? PAGER_SYNCED) (upd (fun p => p <| state := PAGER_EXCLUSIVE |>));;
           mret SQLITE_OK);
  upd (fun p => p <| origDbSize := 0 |> <| setMaster := false |> <| needSync := false |>);;
  upd lruListSetFirstSynced;;
  upd (fun p => p <| dbSize := -1 |> <| dbModified := false |>);;
  check (if rc =? SQLITE_OK then rc2 else rc).

(** ** Playing a journal back *)

Fixpoint cksum_loop (fuel : nat) (i : Z) (aData : list Z) (cksum : Z) : res Z :=
  match fuel with
  | O => NoFuel
  | S fuel =>
      if 0 <? i then b ← of_opt (rd aData i); cksum_loop fuel (i - 200) aData (u32 (cksum + b))
      else Ret cksum
  end.

Definition pager_cksum (p : Pager) (aData : list Z) : res Z :=
  cksum_loop (S (Z.to_nat (pageSize p))) (pageSize p - 200) aData (cksumInit p).

Definition pager_playback_one_page (jfd : handle) (offset : Z) (useCksum : bool) : M unit :=
  p ← pager;
  asserts (match jfd with HJ => useCksum | HSt => negb useCksum | _ => false end);;
  pgno ← read32bits jfd offset;
  '(rc, aData) ← sqlite3OsRead jfd (pageSize p) (offset + 4);
  put_tmp 0 aData;;
  check rc;;
  upd (fun p => p <| journalOff ::= Z.add (pageSize p + 4) |>);;
  if (pgno =? 0) || (pgno =? PAGER_MJ_PGNO p) then throw SQLITE_DONE else
  if u32 (dbSize p) <? pgno then mret tt else
  when useCksum
    (cksum ← read32bits jfd (offset + pageSize p + 4);
     upd (fun p => p <| journalOff ::= Z.add 4 |>);;
     ck ← lift (pager_cksum p aData);
     when (negb (ck =? cksum)) (throw SQLITE_DONE));;
  asserts ((state p =? PAGER_RESERVED) || (PAGER_EXCLUSIVE <=? state p));;
  let pPg := pager_lookup p pgno in
  rc ← (if (PAGER_EXCLUSIVE <=? state p)
           && match pPg with Some pPg => negb (pg_needSync pPg) | None => true end
        then rc ← code (sqlite3OsWrite HDb aData ((pgno - 1) * pageSize p));
             upd (makeClean pgno);; mret rc
        else mret SQLITE_OK);
  when (bool_decide (is_Some pPg))
    (upd (set_page pgno (fun pPg => pPg <| pData := aData |>));;
     when (pgno =? 1) (upd (fun p => p <| dbFileVers := fsub aData 24 16 |>)));;
  check rc.

Definition pager_truncate (nPage_ : Z) : M unit :=
  p ← pager;
  when (PAGER_EXCLUSIVE <=? state p)
    (currentSize ← sqlite3OsFileSize HDb;
     let newSize := pageSize p * nPage_ in
     if currentSize =? newSize then mret tt
     else if newSize <? currentSize then sqlite3OsTruncate HDb newSize
     else sqlite3OsWrite HDb [0] (newSize - 1));;
  upd (fun p => p <| dbSize := nPage_ |>);;
  upd pager_truncate_cache.

(** [for(i=0; i<nRec; i++)] of [pager_playback]. *)
Fixpoint playback_records (fuel : nat) (i nRec_ szJ : Z) : M unit :=
  match fuel with
  | O => lift NoFuel
  | S fuel =>
      if nRec_ <=? i then mret tt else
      p ← pager;
      rc ← code (pager_playback_one_page HJ (journalOff p) true);
      if rc =? SQLITE_OK then playback_records fuel (i + 1) nRec_ szJ
      else if rc =? SQLITE_DONE then upd (fun p => p <| journalOff := szJ |>)
      else throw rc
  end.

(** [while( 1 )] of [pager_playback], a header each time. *)
Fixpoint playback_headers (fuel : nat) (isHot : bool) (szJ : Z) : M unit :=
  match fuel with
  | O => lift NoFuel
  | S fuel =>
      r ← attempt (readJournalHdr szJ);
      match r with
      | inl rc => if rc =? SQLITE_DONE then mret tt else throw rc
      | inr (nRec_, mxPg) =>
          p ← pager;
          nRec_ ← (if nRec_ =? 0xffffffff then
                     asserts (journalOff p =? JOURNAL_HDR_SZ p);;
                     mret (u32 (Z.quot (szJ - JOURNAL_HDR_SZ p) (JOURNAL_PG_SZ p)))
                   else mret nRec_);
          let nRec_ :=
            if (nRec_ =? 0) && negb isHot && (journalHdr p + JOURNAL_HDR_SZ p =? journalOff p)
            then u32 (Z.quot (szJ - journalOff p) (JOURNAL_PG_SZ p)) else nRec_ in
          when (journalOff p =? JOURNAL_HDR_SZ p) (pager_truncate (s32 mxPg));;
          playback_records (S (Z.to_nat szJ)) 0 nRec_ szJ;;
          playback_headers fuel isHot szJ
      end
  end.

(** The master journal's name is read into [pTmpSpace]. *)
Definition read_master : M unit :=
  p ← pager;
  '(rc, zMaster) ← readMasterJournal HJ (pTmpSpace p) (MAX_PATHNAME + 1);
  upd (fun p => p <| pTmpSpace := zMaster |>);;
  check rc.

Definition master_name : M (list Z) := p ← pager; mret (c_string (pTmpSpace p)).

(** What [pager_playback] does before [end_playback]. *)
Definition playback_body (isHot : bool) : M unit :=
  szJ ← sqlite3OsFileSize HJ;
  if szJ =? 0 then mret tt else
  read_master;;
  zMaster ← master_name;
  res ← (if bool_decide (zMaster = []) then mret 1 else sqlite3OsAccess zMaster);
  if res =? 0 then mret tt else
  if res <? 0 then throw SQLITE_IOERR_NOMEM else
  upd (fun p => p <| journalOff := 0 |>);;
  playback_headers (S (Z.to_nat szJ)) isHot szJ.

Definition pager_playback (isHot : bool) : M unit :=
  p ← pager;
  asserts (journalOpen p);;
  rc ← code (playback_body isHot;;
             read_master;;
             zMaster ← master_name;
             pager_end_transaction (negb (bool_decide (zMaster = [])));;
             if bool_decide (zMaster = []) then mret tt else pager_delmaster zMaster);
  setSectorSize;;
  check rc.

(** ** Statement journals *)

Fixpoint stmt_records (fuel : nat) (i nRec_ : Z) : M unit :=
  match fuel with
  | O => lift NoFuel
  | S fuel =>
      if nRec_ <=? i then mret tt else
      p ← pager;
      offset ← lift (sint (i * (4 + pageSize p)));
      rc ← code (pager_playback_one_page HSt offset false);
      asserts (negb (rc =? SQLITE_DONE));;
      check rc;;
      stmt_records fuel (i + 1) nRec_
  end.

(** Records of the transaction journal up to [hdrOff], at most [n] of them. *)
Fixpoint stmt_transaction_records (fuel : nat) (n : option Z) (hdrOff : Z) : M unit :=
  match fuel with
  | O => lift NoFuel
  | S fuel =>
      p ← pager;
      if (hdrOff <=? journalOff p) || match n with Some n => n <=? 0 | None => false end then mret tt else
      rc ← code (pager_playback_one_page HJ (journalOff p) true);
      asserts (negb (rc =? SQLITE_DONE));;
      check rc;;
      stmt_transaction_records fuel (Z.pred <$> n) hdrOff
  end.

Fixpoint stmt_headers (fuel : nat) (szJ : Z) : M unit :=
  match fuel with
  | O => lift NoFuel
  | S fuel =>
      p ← pager;
      if szJ <=? journalOff p then mret tt else
      r ← attempt (readJournalHdr szJ);
      match r with
      | inl rc => asserts (negb (rc =? SQLITE_DONE));; throw rc
      | inr (nJRec, _) =>
          p ← pager;
          let nJRec := if nJRec =? 0 then u32 (Z.quot (szJ - journalOff p) (pageSize p + 8)) else nJRec in
          stmt_transaction_records (S (Z.to_nat szJ)) (Some (s32 nJRec)) szJ;;
          stmt_headers fuel szJ
      end
  end.

(** [pager_truncate] may fail without stopping the rest. *)
Definition pager_stmt_playback : M unit :=
  p ← pager;
  let szJ := journalOff p in
  asserts (fullSync p || (stmtHdrOff p =? 0));;
  let hdrOff := if stmtHdrOff p =? 0 then szJ else stmtHdrOff p in
  rc0 ← code (pager_truncate (stmtSize p));
  asserts (PAGER_SHARED <=? state p);;
  asserts (stmtInUse p && journalOpen p);;
  let more := (0 <? stmtNRec p) || (stmtJSize p <? szJ) in
  stmt_records (S (Z.to_nat (stmtNRec p))) 0 (stmtNRec p);;
  upd (fun p => p <| journalOff := stmtJSize p |> <| cksumInit := u32 (stmtCksum p) |>);;
  stmt_transaction_records (S (Z.to_nat szJ)) None hdrOff;;
  stmt_headers (S (Z.to_nat szJ)) szJ;;
  upd (fun p => p <| journalOff := szJ |>);;
  check (if more then SQLITE_OK else rc0).

Definition sqlite3PagerStmtRollback : M unit :=
  p ← pager;
  rc ← (if stmtInUse p then
          rc ← code pager_stmt_playback; sqlite3PagerStmtCommit;; mret rc
        else mret SQLITE_OK);
  upd (fun p => p <| stmtAutoopen := false |>);;
  check rc.

(** Opening the statement journal's file empties it. *)
Definition sqlite3PagerStmtBegin : M unit :=
  p ← pager;
  asserts (negb (stmtInUse p));;
  asserts (PAGER_SHARED <=? state p);;
  asserts (0 <=? dbSize p);;
  if negb (journalOpen p) then upd (fun p => p <| stmtAutoopen := true |>) else
  asserts (bool_decide (pInStmt p = None));;
  b ← malloc_ok;
  if negb b then throw SQLITE_NOMEM else
  upd (fun p => p <| pInStmt := Some ∅ |> <| stmtJSize := journalOff p |> <| stmtSize := dbSize p |>
                  <| stmtHdrOff := 0 |> <| stmtCksum := cksumInit p |>);;
  when (negb (stmtOpen p))
    (rc ← code ('(rc, _) ← os; check rc);
     when (negb (rc =? SQLITE_OK)) (upd (fun p => p <| pInStmt := None |>));;
     check rc;;
     upd_world (fun w => w <| stj := [] |>);;
     upd (fun p => p <| stmtOpen := true |> <| stmtNRec := 0 |>));;
  upd (fun p => p <| stmtInUse := true |>).

(** ** Rolling back *)

Definition sqlite3PagerPagecount : M Z :=
  p ← pager;
  if negb (errCode p =? SQLITE_OK) then mret (-1) else
  r ← (if 0 <=? dbSize p then mret (inr (dbSize p)) else
       r ← attempt (sqlite3OsFileSize HDb);
       match r with
       | inl rc =>
           upd (fun p => p <| nRef ::= Z.succ |>);;
           pager_error rc;;
           upd (fun p => p <| nRef ::= Z.pred |>);;
           mret (inl rc)
       | inr n =>
           let n := if (0 <? n) && (n <? pageSize p) then 1 else Z.quot n (pageSize p) in
           when (negb (state p =? PAGER_UNLOCK)) (upd (fun p => p <| dbSize := n |>));;
           mret (inr n)
       end);
  match r with
  | inl _ => mret (-1)
  | inr n =>
      let n := if n =? PENDING_BYTE / pageSize p then n + 1 else n in
      when (mxPgno p <? n) (upd (fun p => p <| mxPgno := n |>));;
      mret n
  end.

Definition sqlite3PagerRollback : M unit :=
  p ← pager;
  if negb (dirtyCache p) || negb (journalOpen p) then pager_end_transaction (setMaster p) else
  if negb (errCode p =? SQLITE_OK) && negb (errCode p =? SQLITE_FULL) then
    when (PAGER_EXCLUSIVE <=? state p) (_ ← code (pager_playback false); mret tt);;
    p ← pager; check (errCode p)
  else
  rc ← (if state p =? PAGER_RESERVED then
          rc ← code (pager_playback false);
          p ← pager;
          rc2 ← code (pager_end_transaction (setMaster p));
          mret (if rc =? SQLITE_OK then rc2 else rc)
        else code (pager_playback false));
  upd (fun p => p <| dbSize := -1 |>);;
  pager_error rc;;
  check rc.

Definition pagerUnlockAndRollback : M unit :=
  p ← pager;
  when ((errCode p =? SQLITE_OK) && (PAGER_RESERVED <=? state p)) (_ ← code sqlite3PagerRollback; mret tt);;
  pager_unlock.

(** A reference to a page is given back. *)
Definition sqlite3PagerUnref (pgno : Z) : M unit :=
  p ← pager;
  match pAll p !! pgno with
  | None => lift UB
  | Some pPg =>
      asserts (0 <? pg_nRef pPg);;
      upd (set_page pgno (fun pPg => pPg <| pg_nRef ::= Z.pred |>));;
      if pg_nRef pPg - 1 =? 0 then
        upd (lruListAdd pgno);;
        upd (fun p => p <| nRef ::= Z.pred |>);;
        p ← pager;
        asserts (0 <=? nRef p);;
        when ((nRef p =? 0) && (negb (exclusiveMode p) || (0 <? journalOff p))) pagerUnlockAndRollback
      else mret tt
  end.

End journal.
