(* ===== verification/PagerCache.v ===== *)
(** * The page cache: getting, writing and committing pages

    Model of the second half of misc/sqlite/pager.c: acquiring pages and
    recycling them, [pager_write], which journals a page before it changes,
    [syncJournal], [pager_write_pagelist], the two phases of a commit, and
    [pagerSharedLock], which plays a hot journal back. *)

From S2P Require Import Prelude Varint PageBytes RecordUpdate DiskFile Pager PagerJournal.

Section cache.
Context (junk : Z -> list Z) (zJournal : list Z).

(** The busy handler, given how often it was called before. *)
Context (busy : nat -> bool).

Notation pager_playback := (pager_playback junk zJournal) (only parsing).
Notation sqlite3PagerUnref := (sqlite3PagerUnref junk zJournal) (only parsing).

(** ** Locks *)

Fixpoint lock_loop (fuel : nat) (nBusy : nat) (locktype : Z) : M unit :=
  match fuel with
  | O => lift NoFuel
  | S fuel =>
      rc ← code (sqlite3OsLock locktype);
      if (rc =? SQLITE_BUSY) && busy nBusy then lock_loop fuel (S nBusy) locktype
      else check rc
  end.

Definition pager_wait_on_lock (locktype : Z) : M unit :=
  w ← get;
  let p := pgr w in
  asserts ((PAGER_SHARED <=? state p) || (dbSize p <? 0));;
  if locktype <=? state p then mret tt else
  lock_loop (S (length (io w))) 0 locktype;;
  upd (fun p => p <| state := locktype |>).

(** ** Syncing the journal *)

Definition syncJournal : M unit :=
  p ← pager;
  if needSync p then
    let iDc := unixDeviceCharacteristics in
    asserts (journalOpen p);;
    when (Z.land iDc SQLITE_IOCAP_SAFE_APPEND =? 0)
      (when (fullSync p && (Z.land iDc SQLITE_IOCAP_SEQUENTIAL =? 0)) (sqlite3OsSync HJ);;
       write32bits HJ (journalHdr p + 8) (u32 (nRec p)));;
    when (Z.land iDc SQLITE_IOCAP_SEQUENTIAL =? 0) (sqlite3OsSync HJ);;
    upd (fun p => p <| journalStarted := true |>);;
    upd (fun p => p <| needSync := false |> <| pAll ::= fmap (fun pPg => pPg <| pg_needSync := false |>) |>);;
    upd lruListSetFirstSynced
  else
    asserts (bool_decide (map_Forall (fun _ pPg => pg_needSync pPg = false) (pAll p)));;
    asserts (bool_decide (pFirstSynced p = head (lru p))).

(** ** Dirty pages in order *)

Fixpoint merge_pagelist (pA : list Z) : list Z -> list Z :=
  match pA with
  | [] => fun pB => pB
  | a :: pA' =>
      fix merge pB :=
        match pB with
        | [] => a :: pA'
        | b :: pB' => if a <? b then a :: merge_pagelist pA' pB else b :: merge pB'
        end
  end.

Definition N_SORT_BUCKET : nat := 25.

(** [p] goes into the first bucket that is empty; the full ones before it
    are merged into it, and the last bucket takes any number. *)
Fixpoint put_bucket (a : list (list Z)) (p : list Z) : list (list Z) :=
  match a with
  | [] => []
  | [x] => [merge_pagelist x p]
  | x :: a => match x with [] => p :: a | _ => [] :: put_bucket a (merge_pagelist x p) end
  end.

Definition sort_pagelist (pIn : list Z) : list Z :=
  let a := foldl (fun a pgno => put_bucket a [pgno]) (replicate N_SORT_BUCKET []) pIn in
  match a with [] => [] | p :: a => foldl merge_pagelist p a end.

Fixpoint write_pages (pList : list Z) : M unit :=
  match pList with
  | [] => mret tt
  | pgno :: pList =>
      p ← pager;
      pPg ← lift (of_opt (pAll p !! pgno));
      when (pgno <=? u32 (dbSize p))
        (rc ← code (sqlite3OsWrite HDb (pData pPg) ((pgno - 1) * pageSize p));
         when (pgno =? 1) (upd (fun p => p <| dbFileVers := fsub (pData pPg) 24 16 |>));;
         check rc);;
      write_pages pList
  end.

Definition pager_write_pagelist (pList : list Z) : M unit :=
  match pList with
  | [] => mret tt
  | _ =>
      pager_wait_on_lock EXCLUSIVE_LOCK;;
      p ← pager;
      let pList := sort_pagelist pList in
      asserts (forallb (fun pgno => match pAll p !! pgno with Some pPg => dirty pPg | None => false end) pList);;
      upd (fun p => foldr (fun pgno => set_page pgno (fun pPg => pPg <| dirty := false |>)) p pList);;
      write_pages pList
  end.

Definition pager_get_all_dirty_pages : M (list Z) :=
  p ← pager;
  asserts (Nat.eqb (length (List.filter (fun '(_, pPg) => dirty pPg) (map_to_list (pAll p)))) (length (pDirty p)));;
  mret (pDirty p).

(** ** Pages and their memory *)

(** The number of the page whose memory is taken. *)
Definition pager_recycle : M unit :=
  p ← pager;
  asserts (match lru p with [] => false | _ => true end);;
  pgno ← match pFirstSynced p with
         | Some pgno => mret pgno
         | None =>
             let iDc := unixDeviceCharacteristics in
             syncJournal;;
             p ← pager;
             when (fullSync p && (Z.land iDc SQLITE_IOCAP_SAFE_APPEND =? 0))
               (upd (fun p => p <| nRec := 0 |>);;
                asserts (0 <? journalOff p);;
                asserts (negb (doNotSync p));;
                writeJournalHdr);;
             p ← pager; lift (of_opt (head (lru p)))
         end;
  p ← pager;
  pPg ← lift (of_opt (pAll p !! pgno));
  asserts (pg_nRef pPg =? 0);;
  when (dirty pPg)
    (asserts (negb (pg_needSync pPg));;
     upd (makeClean pgno);;
     upd (set_page pgno (fun pPg => pPg <| dirty := true |>));;
     rc ← code (pager_write_pagelist [pgno]);
     upd (set_page pgno (fun pPg => pPg <| dirty := false |>));;
     check rc);;
  p ← pager;
  pPg ← lift (of_opt (pAll p !! pgno));
  asserts (negb (dirty pPg));;
  when (pg_alwaysRollback pPg) (upd (fun p => p <| alwaysRollback := true |>));;
  upd (unlinkPage pgno).

(** Memory for one more page; [BUSY] becomes [IOERR_BLOCKED]. *)
Definition pagerAllocatePage : M unit :=
  p ← pager;
  if (nPage p <? mxPage p) || match lru p with [] => true | _ => false end
     || (match pFirstSynced p with None => true | Some _ => false end && doNotSync p) then
    b ← malloc_ok;
    if negb b then throw SQLITE_NOMEM else
    upd (fun p => p <| nPage ::= Z.succ |>)
  else
    rc ← code pager_recycle;
    check (if rc =? SQLITE_BUSY then SQLITE_IOERR_BLOCKED else rc);;
    p ← pager;
    asserts (SHARED_LOCK <=? state p).

(** The content of a page in the file, with the code; none with a code other
    than that of a short read. *)
Definition readDbPage (pgno : Z) : M (Z * list Z) :=
  p ← pager;
  '(rc, bs) ← sqlite3OsRead HDb (pageSize p) ((pgno - 1) * pageSize p);
  when ((pgno =? 1) && negb (bool_decide (bs = []))) (upd (fun p => p <| dbFileVers := fsub bs 24 16 |>));;
  mret (rc, bs).

Definition pager_get_content (pgno : Z) : M unit :=
  p ← pager;
  pPg ← lift (of_opt (pAll p !! pgno));
  if needRead pPg then
    '(rc, bs) ← readDbPage pgno;
    upd (set_page pgno (fun pPg => pPg <| pData ::= fun d => bs ++ drop (length bs) d |>));;
    check rc;;
    upd (set_page pgno (fun pPg => pPg <| needRead := false |>))
  else mret tt.

(** ** Hot journals *)

Definition hasHotJournal : M Z :=
  p ← pager;
  if negb (useJournal p) then mret 0 else
  rc ← sqlite3OsAccess zJournal zJournal;
  if rc <=? 0 then mret rc else
  '(reserved, _) ← os;
  if negb (reserved =? 0) then mret 0 else
  n ← sqlite3PagerPagecount;
  if n =? 0 then _ ← code delete_journal; mret 0
  else mret 1.

(** Opening the journal that was found.  [rc]: what the variable holds when it
    need not be opened. *)
Definition open_hot_journal (rc : Z) (isHot : bool) : M unit :=
  p ← pager;
  rc ← (if negb isHot && negb (journalOpen p) then
          code (res ← sqlite3OsAccess zJournal zJournal;
                if res =? 1 then open_journal
                else if res =? 0 then throw SQLITE_BUSY
                else throw SQLITE_IOERR_NOMEM)
        else mret rc);
  check (if negb (rc =? SQLITE_OK) && negb (rc =? SQLITE_NOMEM) && negb (rc =? SQLITE_IOERR_UNLOCK)
            && negb (rc =? SQLITE_IOERR_NOMEM) then SQLITE_BUSY else rc).

(** [rc]: the answer of [hasHotJournal], which stays in the variable when the
    lock is held already. *)
Definition play_hot_journal (rc : Z) (isHot : bool) : M unit :=
  p ← pager;
  rc ← (if state p <? EXCLUSIVE_LOCK then
          rc ← code (sqlite3OsLock EXCLUSIVE_LOCK);
          when (negb (rc =? SQLITE_OK)) (pager_error rc);;
          check rc;;
          upd (fun p => p <| state := PAGER_EXCLUSIVE |>);;
          mret rc
        else mret rc);
  open_hot_journal rc isHot;;
  upd (fun p => p <| journalOpen := true |> <| journalStarted := false |> <| journalOff := 0 |>
                  <| setMaster := false |> <| journalHdr := 0 |>);;
  rc ← code (pager_playback true);
  when (negb (rc =? SQLITE_OK)) (pager_error rc);;
  check rc;;
  p ← pager;
  asserts ((state p =? PAGER_SHARED) || (exclusiveMode p && (PAGER_SHARED <? state p))).

(** Throws the cache away when the file was changed by another process. *)
Definition check_version : M unit :=
  _ ← sqlite3PagerPagecount;
  p ← pager;
  check (errCode p);;
  vers ← (if 0 <? dbSize p then os_read HDb 16 24 else mret (replicate 16 0));
  p ← pager;
  when (negb (bool_decide (dbFileVers p = vers))) pager_reset.

Definition pagerSharedLock : M unit :=
  p ← pager;
  let clear := exclusiveMode p && (nRef p =? 0) && negb (errCode p =? SQLITE_OK) in
  let isHot := clear && journalOpen p in
  when clear (upd (fun p => p <| errCode := SQLITE_OK |>);; pager_reset);;
  p ← pager;
  if negb (errCode p =? SQLITE_OK) && negb (errCode p =? SQLITE_FULL) then throw (errCode p) else
  if (state p =? PAGER_UNLOCK) || isHot then
    asserts (nRef p =? 0);;
    rc ← code (pager_wait_on_lock SHARED_LOCK);
    if negb (rc =? SQLITE_OK) then
      p ← pager; asserts (state p =? PAGER_UNLOCK);; pager_error rc;; throw rc
    else
    p ← pager; asserts (SHARED_LOCK <=? state p);;
    rc ← code (
      hot ← hasHotJournal;
      when (hot <? 0) (throw SQLITE_IOERR_NOMEM);;
      when ((hot =? 1) || isHot) (play_hot_journal hot isHot);;
      p ← pager;
      when (negb (bool_decide (pAll p = ∅))) check_version;;
      p ← pager;
      asserts (exclusiveMode p || (state p <=? PAGER_SHARED));;
      when (state p =? PAGER_UNLOCK) (upd (fun p => p <| state := PAGER_SHARED |>)));
    when (negb (rc =? SQLITE_OK)) pager_unlock;;
    check rc
  else mret tt.

(** ** Acquiring a page *)

Definition new_page (inJ : bool) (nr : bool) (data : list Z) : PgHdr := mkPgHdr data inJ false false false nr 1.

(** The page is in use afterwards.  When its content cannot be had, the
    reference is given back and no number leads to its memory, which is not
    represented any more. *)
Definition pagerAcquire (pgno : Z) (noContent : bool) : M unit :=
  p ← pager;
  asserts ((state p =? PAGER_UNLOCK) || (0 <? nRef p) || (pgno =? 1));;
  if (PAGER_MAX_PGNO <? pgno) || (pgno =? 0) || (pgno =? PAGER_MJ_PGNO p) then throw SQLITE_CORRUPT else
  pagerSharedLock;;
  p ← pager;
  asserts (negb (state p =? PAGER_UNLOCK));;
  match pager_lookup p pgno with
  | None =>
      pagerAllocatePage;;
      p ← pager;
      let inJ := match pInJournal p with Some s => bool_decide (pgno ∈ s) | None => false end in
      let add (data : list Z) (nr : bool) := upd (fun p => p <| pAll ::= insert pgno (new_page inJ nr data) |>) in
      let undo (rc : Z) := add [] false;; sqlite3PagerUnref pgno;; upd (unlinkPage pgno);; (throw rc : M unit) in
      upd (fun p => p <| nRef ::= Z.succ |>);;
      nMax ← sqlite3PagerPagecount;
      p ← pager;
      if negb (errCode p =? SQLITE_OK) then undo (errCode p) else
      if (nMax <? pgno) || (noContent && negb (alwaysRollback p)) then
        if mxPgno p <? pgno then undo SQLITE_FULL else
        add (replicate (Z.to_nat (pageSize p)) 0) (noContent && negb (alwaysRollback p))
      else
        '(rc, bs) ← readDbPage pgno;
        if negb (rc =? SQLITE_OK) && negb (rc =? SQLITE_IOERR_SHORT_READ) then undo rc
        else add bs false
  | Some pPg =>
      asserts ((0 <? nRef p) || (pgno =? 1));;
      when (negb noContent) (pager_get_content pgno);;
      when (pg_nRef pPg =? 0) (upd (lruListRemove pgno);; upd (fun p => p <| nRef ::= Z.succ |>));;
      upd (set_page pgno (fun pPg => pPg <| pg_nRef ::= Z.succ |>))
  end.

Definition sqlite3PagerGet (pgno : Z) : M unit := pagerAcquire pgno false.

(** ** Writing a page *)

Definition pageInStatement (p : Pager) (pgno : Z) : bool :=
  match pInStmt p with Some s => bool_decide (pgno ∈ s) | None => false end.

(** [sqlite3BitvecSet] may fail; its callers do not look at the code. *)
Definition bitvec_set (pgno : Z) (s : option (gset Z)) : M (option (gset Z)) :=
  b ← malloc_ok; mret (if (b : bool) then (fun s : gset Z => {[pgno]} ∪ s) <$> s else s).

Definition pager_open_journal : M unit :=
  p ← pager;
  asserts (PAGER_RESERVED <=? state p);;
  asserts (useJournal p);;
  asserts (bool_decide (pInJournal p = None));;
  _ ← sqlite3PagerPagecount;
  let failed (rc : Z) := upd (fun p => p <| pInJournal := None |>);; (throw rc : M unit) in
  b ← malloc_ok;
  if negb b then failed SQLITE_NOMEM else
  upd (fun p => p <| pInJournal := Some ∅ |>);;
  rc ← (if journalOpen p then mret SQLITE_OK else
        rc ← code create_journal;
        upd (fun p => p <| journalOff := 0 |> <| setMaster := false |> <| journalHdr := 0 |>);;
        when (rc =? SQLITE_NOMEM) (_ ← code delete_journal; mret tt);;
        mret rc);
  if negb (rc =? SQLITE_OK) then failed rc else
  upd (fun p => p <| journalOpen := true |> <| journalStarted := false |> <| needSync := false |>
                  <| alwaysRollback := false |> <| nRec := 0 |>);;
  p ← pager;
  if negb (errCode p =? SQLITE_OK) then failed (errCode p) else
  upd (fun p => p <| origDbSize := dbSize p |>);;
  rc ← code (writeJournalHdr;; p ← pager; when (stmtAutoopen p) sqlite3PagerStmtBegin);
  if negb (rc =? SQLITE_OK) && negb (rc =? SQLITE_NOMEM) && negb (rc =? SQLITE_IOERR_NOMEM) then
    rc ← code (pager_end_transaction false);
    throw (if rc =? SQLITE_OK then SQLITE_FULL else rc)
  else check rc.

Definition sqlite3PagerBegin (pgno : Z) (exFlag : bool) : M unit :=
  p ← pager;
  asserts (match pAll p !! pgno with Some pPg => 0 <? pg_nRef pPg | None => false end);;
  asserts (negb (state p =? PAGER_UNLOCK));;
  rc ← (if state p =? PAGER_SHARED then
          asserts (bool_decide (pInJournal p = None));;
          sqlite3OsLock RESERVED_LOCK;;
          upd (fun p => p <| state := PAGER_RESERVED |>);;
          when exFlag (pager_wait_on_lock EXCLUSIVE_LOCK);;
          upd (fun p => p <| dirtyCache := false |>);;
          if useJournal p && negb (journalMode p =? PAGER_JOURNALMODE_OFF) then code pager_open_journal
          else mret SQLITE_OK
        else if journalOpen p && (journalOff p =? 0) then
          asserts (nRec p =? 0);;
          asserts (origDbSize p =? 0);;
          asserts (bool_decide (pInJournal p = None));;
          _ ← sqlite3PagerPagecount;
          b ← malloc_ok;
          if negb b then mret SQLITE_NOMEM else
          upd (fun p => p <| pInJournal := Some ∅ |>);;
          upd (fun p => p <| origDbSize := dbSize p |>);;
          code writeJournalHdr
        else mret SQLITE_OK);
  p ← pager;
  asserts (negb (journalOpen p) || (0 <? journalOff p) || negb (rc =? SQLITE_OK));;
  check rc.

(** The record of a page in the journal. *)
Definition journal_page (pgno : Z) (data : list Z) : M unit :=
  p ← pager;
  asserts (negb (pgno =? PAGER_MJ_PGNO p));;
  cksum ← lift (pager_cksum p data);
  write32bits HJ (journalOff p) pgno;;
  rc ← code (sqlite3OsWrite HJ data (journalOff p + 4));
  upd (fun p => p <| journalOff ::= Z.add (pageSize p + 4) |>);;
  check rc;;
  p ← pager;
  rc ← code (write32bits HJ (journalOff p) cksum);
  upd (fun p => p <| journalOff ::= Z.add 4 |>);;
  check rc;;
  upd (fun p => p <| nRec ::= Z.succ |>);;
  p ← pager;
  asserts (bool_decide (is_Some (pInJournal p)));;
  s ← bitvec_set pgno (pInJournal p);
  upd (fun p => p <| pInJournal := s |>);;
  upd (set_page pgno (fun pPg => pPg <| pg_needSync := negb (noSync p) |>));;
  when (stmtInUse p) (s ← bitvec_set pgno (pInStmt p); upd (fun p => p <| pInStmt := s |>)).

(** The record of a page in the statement journal. *)
Definition stmt_journal_page (pgno : Z) (data : list Z) : M unit :=
  p ← pager;
  offset ← lift (sint (stmtNRec p * (4 + pageSize p)));
  write32bits HSt offset pgno;;
  sqlite3OsWrite HSt data (offset + 4);;
  upd (fun p => p <| stmtNRec ::= Z.succ |>);;
  p ← pager;
  asserts (bool_decide (is_Some (pInStmt p)));;
  s ← bitvec_set pgno (pInStmt p);
  upd (fun p => p <| pInStmt := s |>).

Definition find_page (pgno : Z) : M PgHdr := p ← pager; lift (of_opt (pAll p !! pgno)).

Definition pager_write (pgno : Z) : M unit :=
  p ← pager;
  if negb (errCode p =? SQLITE_OK) then throw (errCode p) else
  if readOnly p then throw SQLITE_PERM else
  asserts (negb (setMaster p));;
  pager_get_content pgno;;
  upd (makeDirty pgno);;
  p ← pager;
  pPg ← find_page pgno;
  (if inJournal pPg && (pageInStatement p pgno || negb (stmtInUse p)) then
     upd (fun p => p <| dirtyCache := true |> <| dbModified := true |>)
   else
     asserts (negb (state p =? PAGER_UNLOCK));;
     sqlite3PagerBegin pgno false;;
     p ← pager;
     asserts (PAGER_RESERVED <=? state p);;
     when (negb (journalOpen p) && useJournal p && negb (journalMode p =? PAGER_JOURNALMODE_OFF)) pager_open_journal;;
     upd (fun p => p <| dirtyCache := true |> <| dbModified := true |>);;
     p ← pager;
     pPg ← find_page pgno;
     when (negb (inJournal pPg) && journalOpen p)
       ((if pgno <=? origDbSize p then journal_page pgno (pData pPg)
         else upd (set_page pgno (fun pPg => pPg <| pg_needSync := negb (journalStarted p) && negb (noSync p) |>)));;
        pPg ← find_page pgno;
        when (pg_needSync pPg) (upd (fun p => p <| needSync := true |>));;
        upd (set_page pgno (fun pPg => pPg <| inJournal := true |>)));;
     p ← pager;
     pPg ← find_page pgno;
     when (stmtInUse p && negb (pageInStatement p pgno) && (pgno <=? stmtSize p))
       (asserts (inJournal pPg || (origDbSize p <? pgno));;
        stmt_journal_page pgno (pData pPg)));;
  p ← pager;
  asserts (PAGER_SHARED <=? state p);;
  when (dbSize p <? pgno)
    (upd (fun p => p <| dbSize := if pgno =? PENDING_BYTE / pageSize p then pgno + 1 else pgno |>)).

(** The pages of one sector, from [pg] on: the code, and whether one of them
    needs a sync. *)
Fixpoint write_sector (n : nat) (pg pgno : Z) : M (Z * bool) :=
  match n with
  | O => mret (SQLITE_OK, false)
  | S n =>
      p ← pager;
      '(rc, b) ← (if (pg =? pgno) || negb (match pInJournal p with Some s => bool_decide (pg ∈ s) | None => false end) then
             if pg =? PAGER_MJ_PGNO p then mret (SQLITE_OK, false) else
             rc ← code (sqlite3PagerGet pg);
             if negb (rc =? SQLITE_OK) then mret (rc, false) else
             rc ← code (pager_write pg);
             pPage ← find_page pg;
             sqlite3PagerUnref pg;;
             mret (rc, pg_needSync pPage)
           else mret (SQLITE_OK, match pAll p !! pg with Some pPage => pg_needSync pPage | None => false end));
      if negb (rc =? SQLITE_OK) then mret (rc, b) else
      '(rc, b') ← write_sector n (pg + 1) pgno;
      mret (rc, b || b')
  end.

Definition sqlite3PagerWrite (pgno : Z) : M unit :=
  p ← pager;
  let nPagePerSector := Z.quot (sectorSize p) (pageSize p) in
  if 1 <? nPagePerSector then
    asserts (negb (doNotSync p));;
    upd (fun p => p <| doNotSync := true |>);;
    let pg1 := Z.land (pgno - 1) (Z.lnot (nPagePerSector - 1)) + 1 in
    nPageCount ← sqlite3PagerPagecount;
    let nPage_ :=
      if nPageCount <? pgno then pgno - pg1 + 1
      else if nPageCount <? pg1 + nPagePerSector - 1 then nPageCount + 1 - pg1
      else nPagePerSector in
    asserts ((0 <? nPage_) && (pg1 <=? pgno) && (pgno <? pg1 + nPage_));;
    '(rc, needSync_) ← write_sector (Z.to_nat nPage_) pg1 pgno;
    when needSync_
      (upd (fun p => foldr (fun ii => set_page (pg1 + ii) (fun pPage => pPage <| pg_needSync := true |>)) p
                       (seqZ 0 nPage_));;
       p ← pager; asserts (needSync p));;
    p ← pager; asserts (doNotSync p);;
    upd (fun p => p <| doNotSync := false |>);;
    check rc
  else pager_write pgno.

(** ** Committing *)

Definition pager_incr_changecounter (isDirect : bool) : M unit :=
  p ← pager;
  if changeCountDone p then mret tt else
  sqlite3PagerGet 1;;
  rc ← (if isDirect then mret SQLITE_OK else code (sqlite3PagerWrite 1));
  when (negb (rc =? SQLITE_OK)) (sqlite3PagerUnref 1);;
  check rc;;
  p ← pager;
  change_counter ← lift (sqlite3Get4byte (dbFileVers p));
  pPg ← find_page 1;
  d ← lift (copy_to (pData pPg) 24 (sqlite3Put4byte (u32 (change_counter + 1))));
  upd (set_page 1 (fun pPg => pPg <| pData := d |>));;
  rc ← (if isDirect then code (sqlite3OsWrite HDb d 0) else mret SQLITE_OK);
  sqlite3PagerUnref 1;;
  upd (fun p => p <| changeCountDone := true |>);;
  check rc.

Definition sqlite3PagerTruncate (nPage_ : Z) : M unit :=
  p ← pager;
  asserts (PAGER_SHARED <=? state p);;
  _ ← sqlite3PagerPagecount;
  p ← pager;
  check (errCode p);;
  if u32 (dbSize p) <=? nPage_ then mret tt else
  syncJournal;;
  pager_wait_on_lock EXCLUSIVE_LOCK;;
  pager_truncate nPage_.

(** The pages behind [nTrunc] go into the journal, [i] the next one. *)
Fixpoint journal_truncated (n : nat) (i : Z) : M unit :=
  match n with
  | O => mret tt
  | S n =>
      p ← pager;
      when (negb (match pInJournal p with Some s => bool_decide (i ∈ s) | None => false end)
            && negb (i =? PAGER_MJ_PGNO p))
        (sqlite3PagerGet i;;
         rc ← code (sqlite3PagerWrite i);
         sqlite3PagerUnref i;;
         check rc);;
      journal_truncated n (i + 1)
  end.

Definition sqlite3PagerCommitPhaseOne (zMaster : option (list Z)) (nTrunc : Z) (noSync_ : bool) : M unit :=
  p ← pager;
  if negb (dbModified p) && (negb (journalMode p =? PAGER_JOURNALMODE_DELETE) || exclusiveMode p) then
    asserts (negb (dirtyCache p) || negb (journalOpen p))
  else
  rc ← code (
    if negb (state p =? PAGER_SYNCED) && dirtyCache p then
      when (negb (setMaster p))
        (pager_incr_changecounter false;;
         when (negb (nTrunc =? 0))
           (p ← pager; journal_truncated (Z.to_nat (u32 (origDbSize p) - nTrunc)) (nTrunc + 1));;
         writeMasterJournal zMaster;;
         syncJournal);;
      when (negb (nTrunc =? 0)) (sqlite3PagerTruncate nTrunc);;
      pList ← pager_get_all_dirty_pages;
      rc ← code (pager_write_pagelist pList);
      asserts ((rc =? SQLITE_OK) || negb (rc =? SQLITE_IOERR_BLOCKED));;
      check rc;;
      upd (fun p => p <| pDirty := [] |>);;
      p ← pager;
      rc ← code (when (negb (noSync p) && negb noSync_) (sqlite3OsSync HDb));
      upd (fun p => p <| state := PAGER_SYNCED |>);;
      check rc
    else mret tt);
  check (if rc =? SQLITE_IOERR_BLOCKED then SQLITE_BUSY else rc).

Definition sqlite3PagerCommitPhaseTwo : M unit :=
  p ← pager;
  check (errCode p);;
  if state p <? PAGER_RESERVED then throw SQLITE_ERROR else
  if negb (dbModified p) && (negb (journalMode p =? PAGER_JOURNALMODE_DELETE) || exclusiveMode p) then
    asserts (negb (dirtyCache p) || negb (journalOpen p))
  else
  asserts ((state p =? PAGER_SYNCED) || negb (dirtyCache p));;
  rc ← code (pager_end_transaction (setMaster p));
  pager_error rc;;
  check rc.

End cache.
