(* ===== verification/PagerWp.v ===== *)
(** * Reasoning about computations of the pager

    [wp m Q E w]: [m] returns from the world [w], with a value and a world
    for which [Q] holds, or with a code and a world for which [E] holds; no
    assertion fails and nothing undefined happens. *)

From S2P Require Import Prelude Varint PageBytes RecordUpdate DiskFile Pager.

Definition wp {A} (m : M A) (Q : A -> world -> Prop) (E : Z -> world -> Prop) (w : world) : Prop :=
  match m w with
  | Ret (w, inr a) => Q a w
  | Ret (w, inl rc) => E rc w
  | _ => False
  end.

(** The world of a goal gets a name. *)
Ltac name_world w := match goal with |- wp _ _ _ ?x => set (w := x) end.

(** The world of a goal is written as a record again, its fields as few
    updates as they are. *)
Ltac flatten t :=
  eval cbn [
      set_field pgr dbf jrn past stj others io mem rnd set_pgr set_dbf set_jrn set_past set_stj set_others
      set_io set_mem set_rnd useJournal noSync fullSync readOnly exclusiveMode journalMode mxPage mxPgno state
      errCode dbSize origDbSize pageSize sectorSize pTmpSpace journalOpen journalStarted needSync dirtyCache
      alwaysRollback setMaster doNotSync dbModified changeCountDone nRec cksumInit journalOff journalHdr
      pInJournal stmtOpen stmtInUse stmtAutoopen stmtSize stmtNRec stmtHdrOff stmtJSize stmtCksum pInStmt nRef
      nPage pAll lru pFirstSynced pDirty dbFileVers set_useJournal set_noSync set_fullSync set_readOnly
      set_exclusiveMode set_journalMode set_mxPage set_mxPgno set_state set_errCode set_dbSize set_origDbSize
      set_pageSize set_sectorSize set_pTmpSpace set_journalOpen set_journalStarted set_needSync set_dirtyCache
      set_alwaysRollback set_setMaster set_doNotSync set_dbModified set_changeCountDone set_nRec set_cksumInit
      set_journalOff set_journalHdr set_pInJournal set_stmtOpen set_stmtInUse set_stmtAutoopen set_stmtSize
      set_stmtNRec set_stmtHdrOff set_stmtJSize set_stmtCksum set_pInStmt set_nRef set_nPage set_pAll set_lru
      set_pFirstSynced set_pDirty set_dbFileVers
    ] in t.

Ltac flat := match goal with |- wp ?m ?Q ?E ?w => let w' := flatten w in change (wp m Q E w') end.

Section rules.
Context {A B : Type}.
Implicit Types (Q : A -> world -> Prop) (R : B -> world -> Prop) (E : Z -> world -> Prop) (w : world).

Lemma pwp_bind (m : M A) (f : A -> M B) R E w : wp m (fun a => wp (f a) R E) E w -> wp (m ≫= f) R E w.
Proof. unfold wp, mbind, M_bind. by destruct (m w) as [[w' [rc|a]]| | |]. Qed.

Lemma pwp_mono (m : M A) Q Q' E E' w : wp m Q E w -> (forall a w', Q a w' -> Q' a w') ->
  (forall rc w', E rc w' -> E' rc w') -> wp m Q' E' w.
Proof. unfold wp. destruct (m w) as [[w' [rc|a]]| | |]; auto. Qed.

Lemma pwp_ret (a : A) Q E w : Q a w -> wp (mret a) Q E w.
Proof. done. Qed.

Lemma wp_throw rc Q E w : E rc w -> wp (throw rc) Q E w.
Proof. done. Qed.

Lemma wp_lift (m : res A) a Q E w : m = Ret a -> Q a w -> wp (lift m) Q E w.
Proof. intros -> H. exact H. Qed.

Lemma wp_attempt (m : M A) (Q : Z + A -> world -> Prop) E w :
  wp m (fun a => Q (inr a)) (fun rc => Q (inl rc)) w -> wp (attempt m) Q E w.
Proof. unfold wp, attempt. by destruct (m w) as [[w' [rc|a]]| | |]. Qed.

Lemma wp_code (m : M A) (Q : Z -> world -> Prop) E w :
  wp m (fun _ => Q SQLITE_OK) Q w -> wp (code m) Q E w.
Proof.
  intros H. unfold code. unfold wp, attempt, mbind, M_bind in *. by destruct (m w) as [[w' [rc|a]]| | |].
Qed.

Lemma wp_res (m : M A) Q E w : wp m Q E w ->
  (exists w' a, m w = Ret (w', inr a) /\ Q a w') \/ (exists w' rc, m w = Ret (w', inl rc) /\ E rc w').
Proof. unfold wp. destruct (m w) as [[w' [rc|a]]| | |]; [eauto 10..|done|done|done]. Qed.
End rules.

Implicit Types (E : Z -> world -> Prop) (w : world).

Lemma pwp_get (Q : world -> world -> Prop) E w : Q w w -> wp get Q E w.
Proof. done. Qed.

Lemma wp_pager (Q : Pager -> world -> Prop) E w : Q (pgr w) w -> wp pager Q E w.
Proof. done. Qed.

Lemma wp_upd f (Q : unit -> world -> Prop) E w : Q tt (w <| pgr ::= f |>) -> wp (upd f) Q E w.
Proof. done. Qed.

Lemma wp_upd_world f (Q : unit -> world -> Prop) E w : Q tt (f w) -> wp (upd_world f) Q E w.
Proof. done. Qed.

Lemma wp_asserts b (Q : unit -> world -> Prop) E w : b = true -> Q tt w -> wp (asserts b) Q E w.
Proof. intros ->. done. Qed.

Lemma wp_when b m (Q : unit -> world -> Prop) E w :
  (b = true -> wp m Q E w) -> (b = false -> Q tt w) -> wp (when b m) Q E w.
Proof. intros H1 H2. destruct b; cbn; [by apply H1|by apply pwp_ret, H2]. Qed.

Lemma wp_when_upd (b : bool) (g : Pager -> Pager) (Q : unit -> world -> Prop) E w :
  Q tt (if b then w <| pgr ::= g |> else w) -> wp (when b (upd g)) Q E w.
Proof. by destruct b. Qed.

Lemma wp_check rc (Q : unit -> world -> Prop) E w :
  (rc = SQLITE_OK -> Q tt w) -> (rc <> SQLITE_OK -> E rc w) -> wp (check rc) Q E w.
Proof.
  intros H1 H2. unfold check. destruct (Z.eqb_spec rc SQLITE_OK); [by apply pwp_ret, H1|by apply wp_throw, H2].
Qed.

Lemma wp_check_ok (Q : unit -> world -> Prop) E w : Q tt w -> wp (check SQLITE_OK) Q E w.
Proof. done. Qed.

Lemma world_io_eta w : w <| io := io w |> = w.
Proof. by destruct w. Qed.

Lemma world_mem_eta w : w <| mem := mem w |> = w.
Proof. by destruct w. Qed.

(** The answer of the system; [io] is the only thing that changes. *)
Lemma wp_os (Q : Z * Z -> world -> Prop) E w :
  (forall n, Q (SQLITE_OK, n) (w <| io ::= tail |>)) ->
  (io w <> [] -> forall rc n, rc <> SQLITE_OK -> Q (rc, n) (w <| io ::= tail |>)) ->
  wp os Q E w.
Proof.
  intros H1 H2. unfold wp, os. destruct (io w) as [|[rc n] l] eqn:Eio; cbn.
  - specialize (H1 0). replace (w <| io ::= tail |>) with w in H1; [exact H1|].
    destruct w; cbn in *. by subst.
  - replace (w <| io := l |>) with (w <| io ::= tail |>) by (destruct w; cbn in *; by subst).
    destruct (Z.eq_dec rc SQLITE_OK) as [->|Hne]; [apply H1|by apply H2].
Qed.

(** The same, and the answer is the next one. *)
Lemma wp_os_io (Q : Z * Z -> world -> Prop) E w :
  (forall n, Q (SQLITE_OK, n) (w <| io ::= tail |>)) ->
  (forall rc n, rc <> SQLITE_OK -> (rc, n) ∈ io w -> Q (rc, n) (w <| io ::= tail |>)) ->
  wp os Q E w.
Proof.
  intros H1 H2. unfold wp, os. destruct (io w) as [|[rc n] l] eqn:Eio; cbn.
  - specialize (H1 0). replace (w <| io ::= tail |>) with w in H1; [exact H1|].
    destruct w; cbn in *. by subst.
  - replace (w <| io := l |>) with (w <| io ::= tail |>) by (destruct w; cbn in *; by subst).
    destruct (Z.eq_dec rc SQLITE_OK) as [->|Hne]; [apply H1|]. apply H2; [done|by left].
Qed.

Lemma wp_refused (Q : bool * Z * Z -> world -> Prop) E w :
  (forall n, Q (false, SQLITE_OK, n) (w <| io ::= tail |>)) ->
  (io w <> [] -> forall rc n, rc <> SQLITE_OK -> Q (true, rc, n) (w <| io ::= tail |>)) ->
  wp refused Q E w.
Proof.
  intros H1 H2. unfold refused. apply pwp_bind, wp_os.
  - intros n. apply pwp_ret, H1.
  - intros Hio rc n Hrc. apply pwp_ret. destruct (Z.eqb_spec rc SQLITE_OK); [done|]. cbn. by apply H2.
Qed.

Lemma wp_malloc_ok (Q : bool -> world -> Prop) E w : mem w = [] -> Q true w -> wp malloc_ok Q E w.
Proof.
  intros Hm H. unfold wp, malloc_ok. rewrite Hm. cbn. rewrite <- Hm, world_mem_eta. exact H.
Qed.

(** ** Files *)

Definition file_of (w : world) (h : handle) : option (list Z) :=
  match h, jrn w with
  | HDb, _ => Some (now (dbf w))
  | HJ, JLive f _ => Some (now f)
  | HJ, _ => None
  | HSt, _ => Some (stj w)
  | HFile bytes, _ => Some bytes
  end.

Definition with_files (d : dfile) (j : jfile) (w : world) : world :=
  w <| past ::= cons (dbf w, jrn w) |> <| dbf := d |> <| jrn := j |>.

(** The world in which a file has a new content. *)
Definition with_content (h : handle) (f : list Z) (w : world) : world :=
  match h, jrn w with
  | HDb, j => with_files (modified f (dbf w)) j w
  | HJ, JLive d named => with_files (dbf w) (JLive (modified f d) named) w
  | HSt, _ => w <| stj := f |>
  | _, _ => w
  end.

(** The world after a call of the system. *)
Definition called (w : world) : world := w <| io ::= tail |>.

Lemma file_of_called w h : file_of (called w) h = file_of w h.
Proof. done. Qed.

Lemma wp_content h f (Q : list Z -> world -> Prop) E w : file_of w h = Some f -> Q f w -> wp (content h) Q E w.
Proof. unfold file_of, content, wp. destruct h; [intros [= ->]|destruct (jrn w); intros [= ->]|intros [= ->]..]; done. Qed.

Lemma wp_set_content h f g (Q : unit -> world -> Prop) E w : h = HDb \/ h = HJ \/ h = HSt -> file_of w h = Some g ->
  Q tt (with_content h f w) -> wp (set_content h f) Q E w.
Proof.
  unfold file_of, set_content, with_content, with_files, wp, new_files.
  intros [ -> | [ -> | -> ]]; destruct (jrn w) eqn:Ej; cbn; intros Hf; try discriminate Hf; rewrite ?Ej; auto.
Qed.

Lemma wp_OsRead h f amt off (Q : Z * list Z -> world -> Prop) E w : file_of w h = Some f -> 0 <= off -> 0 < amt ->
  (off + amt <= zlen f -> Q (SQLITE_OK, fsub f off amt) (called w)) ->
  (zlen f < off + amt -> Q (SQLITE_IOERR_SHORT_READ,
     fsub f off amt ++ replicate (Z.to_nat (amt - zlen (fsub f off amt))) 0) (called w)) ->
  (io w <> [] -> Q (SQLITE_IOERR_READ, []) (called w)) ->
  wp (sqlite3OsRead h amt off) Q E w.
Proof.
  intros Hf Ho Ha H1 H2 H3. unfold sqlite3OsRead. apply pwp_bind, wp_refused.
  - intros n. rewrite (proj2 (Z.ltb_ge off 0)) by done. cbn [orb]. eapply pwp_bind, wp_content; [done|].
    cbn zeta. destruct (Z.eqb_spec (zlen (fsub f off amt)) amt) as [E1|E1]; apply pwp_ret.
    + apply H1. by apply fsub_zlen_eq in E1; [|lia..].
    + apply H2. destruct (decide (off + amt <= zlen f)); [|lia]. by rewrite fsub_zlen in E1 by lia.
  - intros Hio rc n Hrc. apply pwp_ret, H3, Hio.
Qed.

Lemma wp_os_read h f amt off (Q : list Z -> world -> Prop) E w : file_of w h = Some f -> 0 <= off -> 0 < amt ->
  (off + amt <= zlen f -> Q (fsub f off amt) (called w)) ->
  (zlen f < off + amt \/ io w <> [] -> forall rc, rc <> SQLITE_OK -> rc <> SQLITE_DONE -> E rc (called w)) ->
  wp (os_read h amt off) Q E w.
Proof.
  intros Hf Ho Ha H1 H2. unfold os_read. eapply pwp_bind, wp_OsRead; [done..| | |].
  - intros Hl. apply pwp_bind, wp_check; [|done]. intros _. by apply pwp_ret, H1.
  - intros Hl. apply pwp_bind, wp_check; [done|]. intros _. apply H2; [by left|done..].
  - intros Hio. apply pwp_bind, wp_check; [done|]. intros _. apply H2; [by right|done..].
Qed.

Lemma get4_put4 v : is_u32 v -> sqlite3Get4byte (sqlite3Put4byte v) = Ret v.
Proof.
  intros Hv. pose proof (proj1 (four_byte_roundtrip v 0 0 0 0 [] Hv ltac:(repeat constructor; unfold is_byte; lia))) as H.
  by rewrite app_nil_r in H.
Qed.

Lemma get4_total bs : zlen bs = 4 -> exists v, sqlite3Get4byte bs = Ret v /\ is_u32 v.
Proof.
  intros L. unfold sqlite3Get4byte.
  destruct (rd_lt bs 0) as [x0 ->]; [lia|]. destruct (rd_lt bs 1) as [x1 ->]; [lia|].
  destruct (rd_lt bs 2) as [x2 ->]; [lia|]. destruct (rd_lt bs 3) as [x3 ->]; [lia|]. crun.
  eexists. split; [done|]. apply u32_range.
Qed.

(** Reading an integer: one that is known, or any. *)
Lemma wp_read32_any h f off (Q : Z -> world -> Prop) E w : file_of w h = Some f -> 0 <= off ->
  (off + 4 <= zlen f -> forall v, sqlite3Get4byte (fsub f off 4) = Ret v -> is_u32 v -> Q v (called w)) ->
  (zlen f < off + 4 \/ io w <> [] -> forall rc, rc <> SQLITE_OK -> rc <> SQLITE_DONE -> E rc (called w)) ->
  wp (read32bits h off) Q E w.
Proof.
  intros Hf Ho H1 H2. unfold read32bits. eapply pwp_bind, wp_os_read; [done..|lia| |done].
  intros Hl. destruct (get4_total (fsub f off 4)) as (v & Ev & Hv); [by rewrite fsub_zlen by lia|].
  eapply wp_lift; [done|]. by apply H1.
Qed.

Lemma wp_OsWrite h f bs off (Q : unit -> world -> Prop) E w : h = HDb \/ h = HJ \/ h = HSt -> file_of w h = Some f ->
  0 <= off -> 0 < zlen bs ->
  Q tt (with_content h (fwrite f off bs) (called w)) ->
  (io w <> [] -> forall rc n, rc <> SQLITE_OK -> E rc (with_content h (fwrite f off (take (Z.to_nat n) bs)) (called w))) ->
  wp (sqlite3OsWrite h bs off) Q E w.
Proof.
  intros Hh Hf Ho Hl H1 H2. unfold sqlite3OsWrite. apply pwp_bind, wp_asserts; [by apply Z.ltb_lt|]. apply pwp_bind, wp_refused.
  - intros n. rewrite (proj2 (Z.ltb_ge off 0)) by done. eapply pwp_bind, wp_content; [done|].
    by eapply wp_set_content.
  - intros Hio rc n Hrc. rewrite (proj2 (Z.ltb_ge off 0)) by done. eapply pwp_bind, wp_content; [done|].
    eapply pwp_bind, wp_set_content; [done..|]. apply wp_throw, H2; [done|].
    by destruct (rc =? SQLITE_FULL).
Qed.
