(* ===== verification/PagerPlayback.v ===== *)
(** * What a journal says, and that playing it back does it

    [plays]: the records that [pager_playback] takes out of a journal from a
    header on.  A hot journal with the original pages of all those that may
    have changed ([recoverable]) brings the database back to what it was. *)

From S2P Require Import Prelude Varint PageBytes RecordUpdate DiskFile Pager PagerJournal PagerCache PagerWp.

(** The next place for a header. *)
Definition roundup (c : Z) : Z := if c =? 0 then 0 else ((c - 1) / 512 + 1) * 512.

Lemma roundup_bounds c : 0 <= c -> c <= roundup c < c + 512 /\ (512 | roundup c).
Proof.
  intros Hc. unfold roundup. destruct (Z.eqb_spec c 0) as [->|Hne]; [split; [lia|by exists 0]|].
  pose proof (Z.div_mod (c - 1) 512). pose proof (Z.mod_pos_bound (c - 1) 512). split; [lia|by eexists].
Qed.

Lemma roundup_aligned c : 0 <= c -> (512 | c) -> roundup c = c.
Proof.
  intros Hc [k ->]. destruct (roundup_bounds (k * 512) Hc) as [Hb [j E]]. lia.
Qed.

(** ** Checksums, records and headers *)

Definition page_cksum (ck ps : Z) (data : list Z) : Z :=
  match cksum_loop (S (Z.to_nat ps)) (ps - 200) data ck with Ret c => c | _ => 0 end.

Lemma cksum_loop_ok fuel i data ck : is_u32 ck -> i < zlen data -> i < Z.of_nat fuel -> (0 < fuel)%nat ->
  exists c, cksum_loop fuel i data ck = Ret c /\ is_u32 c.
Proof.
  revert i ck. induction fuel as [|fuel IH]; intros i ck Hck Hi Hf Hp; [lia|]. cbn.
  destruct (Z.ltb_spec 0 i); [|eauto]. destruct (rd_lt data i) as [b ->]; [lia|]. cbn.
  destruct fuel; [lia|]. apply IH; [apply u32_range|lia|lia|lia].
Qed.

Lemma pager_cksum_ok p data : is_u32 (cksumInit p) -> zlen data = pageSize p -> 
  pager_cksum p data = Ret (page_cksum (cksumInit p) (pageSize p) data) /\
  is_u32 (page_cksum (cksumInit p) (pageSize p) data).
Proof.
  intros Hck L. unfold pager_cksum, page_cksum. pose proof (zlen_nonneg data).
  destruct (cksum_loop_ok (S (Z.to_nat (pageSize p))) (pageSize p - 200) data (cksumInit p)) as (c & -> & Hc);
    [done|lia|lia|lia|]. done.
Qed.

Definition record_bytes (ck ps : Z) (r : Z * list Z) : list Z :=
  sqlite3Put4byte r.1 ++ r.2 ++ sqlite3Put4byte (page_cksum ck ps r.2).

Definition records_bytes (ck ps : Z) (recs : list (Z * list Z)) : list Z :=
  concat (record_bytes ck ps <$> recs).

(** The first 28 bytes of a header; [pz] is where the page size belongs. *)
Definition header_bytes (n ck mx : Z) (pz : list Z) : list Z :=
  aJournalMagic ++ sqlite3Put4byte n ++ sqlite3Put4byte ck ++ sqlite3Put4byte mx ++ sqlite3Put4byte 512 ++ pz.

Lemma zlen_put4 v : zlen (sqlite3Put4byte v) = 4.
Proof. done. Qed.

Lemma zlen_record ck ps r : zlen r.2 = ps -> zlen (record_bytes ck ps r) = ps + 8.
Proof. intros L. unfold record_bytes. rewrite !zlen_app, !zlen_put4. lia. Qed.

Definition record_ok (ps N : Z) (r : Z * list Z) : Prop :=
  1 <= r.1 <= N /\ r.1 <> PENDING_BYTE / ps + 1 /\ zlen r.2 = ps.

Lemma records_bytes_cons ck ps r recs : records_bytes ck ps (r :: recs) = record_bytes ck ps r ++ records_bytes ck ps recs.
Proof. done. Qed.

Lemma records_bytes_app ck ps recs recs' :
  records_bytes ck ps (recs ++ recs') = records_bytes ck ps recs ++ records_bytes ck ps recs'.
Proof. unfold records_bytes. by rewrite fmap_app, concat_app. Qed.

Lemma zlen_records ck ps N recs : Forall (record_ok ps N) recs -> zlen (records_bytes ck ps recs) = zlen recs * (ps + 8).
Proof.
  induction 1 as [|r recs (_ & _ & Hr) _ IH]; [done|].
  rewrite records_bytes_cons, zlen_app, IH, zlen_cons, (zlen_record ck ps) by done. lia.
Qed.

(** Bytes at the page size that leave the page size [ps] alone. *)
Definition harmless (ps : Z) (pz : list Z) : Prop :=
  exists v, sqlite3Get4byte pz = Ret v /\ (page_size_ok (s32 v) = false \/ v = ps).

(** ** What a journal says from a header on *)

Inductive plays (f : list Z) (ps N : Z) : Z -> list (Z * list Z) -> Prop :=
| plays_end off :
    zlen f < off + 512 \/ fsub f off 8 <> aJournalMagic -> plays f ps N off []
| plays_segment off ck mx pz recs rest :
    off + 512 + zlen recs * (ps + 8) <= zlen f ->
    fsub f off 28 = header_bytes (zlen recs) ck mx pz ->
    is_u32 ck -> is_u32 mx -> zlen pz = 4 -> harmless ps pz -> zlen recs < 2 ^ 32 - 1 ->
    Forall (record_ok ps N) recs ->
    fsub f (off + 512) (zlen recs * (ps + 8)) = records_bytes ck ps recs ->
    plays f ps N (roundup (off + 512 + zlen recs * (ps + 8))) rest ->
    plays f ps N off (recs ++ rest).

(** A whole journal of a database of [N] pages: the first header has the page
    size and the number of pages. *)
Definition journal_of (f : list Z) (ps N : Z) (recs : list (Z * list Z)) : Prop :=
  exists ck recs1 rest,
    recs = recs1 ++ rest /\
    512 + zlen recs1 * (ps + 8) <= zlen f /\
    fsub f 0 28 = header_bytes (zlen recs1) ck N (sqlite3Put4byte ps) /\
    is_u32 ck /\ zlen recs1 < 2 ^ 32 - 1 /\
    Forall (record_ok ps N) recs1 /\
    fsub f 512 (zlen recs1 * (ps + 8)) = records_bytes ck ps recs1 /\
    plays f ps N (roundup (512 + zlen recs1 * (ps + 8))) rest.

Lemma plays_ok f ps N off recs : plays f ps N off recs -> Forall (record_ok ps N) recs.
Proof. induction 1; [constructor|]. by apply Forall_app. Qed.

Lemma journal_of_ok f ps N recs : journal_of f ps N recs -> Forall (record_ok ps N) recs.
Proof. intros (ck & recs1 & rest & -> & _ & _ & _ & _ & H & _ & Hp). apply Forall_app. split; [done|by eapply plays_ok]. Qed.

(** The page of a number in a file. *)
Definition page_at (ps : Z) (d : list Z) (pg : Z) : list Z := fsub d ((pg - 1) * ps) ps.

(** [d] has the pages of [D0] but for those in [recs], and is not empty if
    [D0] is not. *)
Definition kept (ps N : Z) (D0 : list Z) (recs : list (Z * list Z)) (d : list Z) : Prop :=
  (0 < N -> 0 < zlen d) /\ forall pg, 1 <= pg <= N -> pg ∉ recs.*1 -> pg * ps <= zlen d /\ page_at ps d pg = page_at ps D0 pg.

Definition originals (ps : Z) (D0 : list Z) (recs : list (Z * list Z)) : Prop :=
  forall r, r ∈ recs -> r.2 = page_at ps D0 r.1.

(** Nothing that looks like the name of a master journal is at the end. *)
Definition no_master (f : list Z) : Prop := fsub f (zlen f - 8) 8 <> aJournalMagic.

(** From the files [d] and [jo] (no journal, or one) the database [D0] comes
    back. *)
Definition recoverable (ps : Z) (D0 d : list Z) (jo : option (list Z)) : Prop :=
  match jo with
  | None => d = D0
  | Some f =>
      no_master f /\
      ((d = D0 /\ (zlen f < 512 \/ fsub f 0 8 <> aJournalMagic)) \/
       exists N recs, zlen D0 = N * ps /\ journal_of f ps N recs /\ originals ps D0 recs /\ kept ps N D0 recs d)
  end.

(** ** Pages of a file *)

Lemma page_fwrite ps d pg data pg' : 0 < ps -> zlen data = ps -> 1 <= pg -> 1 <= pg' -> pg' * ps <= zlen d ->
  page_at ps (fwrite d ((pg - 1) * ps) data) pg' = if pg' =? pg then data else page_at ps d pg'.
Proof.
  intros Hps L H1 H2 Hl. unfold page_at. destruct (Z.eqb_spec pg' pg) as [->|Hne].
  - rewrite <- L. apply fsub_fwrite_same. nia.
  - apply fsub_fwrite_other; [nia..|]. destruct (decide (pg' < pg)); [left|right]; nia.
Qed.

(** A file is known by its pages. *)
Lemma pages_eq ps N d d' : 0 < ps -> zlen d = N * ps -> zlen d' = N * ps ->
  (forall pg, 1 <= pg <= N -> page_at ps d pg = page_at ps d' pg) -> d = d'.
Proof.
  intros Hps L L' H. apply rd_ext; [lia|]. intros i Hi.
  pose proof (Z.div_mod i ps). pose proof (Z.mod_pos_bound i ps).
  assert (0 <= i / ps) by (apply Z.div_pos; lia). assert (i / ps < N) by (apply Z.div_lt_upper_bound; nia).
  apply (fsub_eq_rd d d' ((i / ps + 1 - 1) * ps) ps); [nia|apply H; lia|nia].
Qed.

Definition put_records (ps : Z) (d : list Z) (recs : list (Z * list Z)) : list Z :=
  foldl (fun d r => fwrite d ((r.1 - 1) * ps) r.2) d recs.

Lemma put_records_pages ps N D0 recs d : 0 < ps -> zlen d = N * ps -> Forall (record_ok ps N) recs ->
  originals ps D0 recs ->
  zlen (put_records ps d recs) = N * ps /\
  forall pg, 1 <= pg <= N -> page_at ps (put_records ps d recs) pg =
    if decide (pg ∈ recs.*1) then page_at ps D0 pg else page_at ps d pg.
Proof.
  intros Hps. revert d. induction recs as [|[p data] recs IH]; intros d L Hr Ho; [done|].
  inversion_clear Hr as [|? ? [Hp1 [Hp2 Hp3]] Hr']. cbn in *.
  assert (Hd : data = page_at ps D0 p) by (apply (Ho (p, data)); left).
  destruct (IH (fwrite d ((p - 1) * ps) data)) as [L' H'].
  { rewrite fwrite_zlen by nia. nia. }
  { done. }
  { intros r Hin. apply Ho. by right. }
  split; [done|]. intros pg Hpg. rewrite H' by done. rewrite page_fwrite by (lia || nia).
  destruct (Z.eqb_spec pg p) as [->|Hne].
  - rewrite (decide_True (P := p ∈ p :: recs.*1)) by left. by case_decide.
  - case_decide as H1; case_decide as H2; [done| | |done].
    + destruct H2. by right.
    + by apply elem_of_cons in H2 as [->|?].
Qed.

Lemma kept_fwrite ps N D0 recs d pg data : 0 < ps -> zlen data = ps -> 1 <= pg -> pg ∈ recs.*1 ->
  kept ps N D0 recs d -> kept ps N D0 recs (fwrite d ((pg - 1) * ps) data).
Proof.
  intros Hps L Hpg Hin [K0 K]. split; [rewrite fwrite_zlen by nia; nia|]. intros q Hq Hnin. destruct (K q Hq Hnin) as [Hl E].
  rewrite fwrite_zlen by nia. split; [lia|]. rewrite page_fwrite by (done || lia).
  destruct (Z.eqb_spec q pg) as [->|]; done.
Qed.

Lemma kept_ftrunc ps N D0 recs d : 0 < ps -> 0 <= N -> kept ps N D0 recs d -> kept ps N D0 recs (ftrunc d (N * ps)).
Proof.
  intros Hps HN [K0 K]. split; [rewrite ftrunc_zlen by nia; nia|]. intros q Hq Hnin. destruct (K q Hq Hnin) as [Hl E]. rewrite ftrunc_zlen by nia. split; [nia|].
  rewrite <- E. apply fsub_ftrunc; nia.
Qed.

Lemma kept_extend ps N D0 recs d : 0 < ps -> zlen d < N * ps -> kept ps N D0 recs d ->
  kept ps N D0 recs (fwrite d (N * ps - 1) [0]).
Proof.
  intros Hps HN [K0 K]. pose proof (zlen_nonneg d). split; [rewrite fwrite_zlen by nia; nia|].
  intros q Hq Hnin. destruct (K q Hq Hnin) as [Hl E].
  rewrite fwrite_zlen by nia. split; [lia|]. rewrite <- E. apply fsub_fwrite_other; nia.
Qed.

(** With the pages of the records put back, the file is the old one. *)
Lemma put_records_restores ps N D0 recs d : 0 < ps -> zlen D0 = N * ps -> zlen d = N * ps ->
  Forall (record_ok ps N) recs -> originals ps D0 recs -> kept ps N D0 recs d -> put_records ps d recs = D0.
Proof.
  intros Hps L0 L Hr Ho K. destruct (put_records_pages ps N D0 recs d) as [L' H']; [done..|].
  apply (pages_eq ps N); [done..|]. intros pg Hpg. rewrite H' by done. case_decide; [done|]. by apply K.
Qed.

(** ** The end of a transaction when journals are deleted *)

(** What the end of a transaction leaves: the files but for the journal, which
    is gone unless the system refused to delete it. *)
Definition ended (w : world) (jf : dfile) (w' : world) : Prop :=
  dbf w' = dbf w /\
  (jrn w' = JGone jf /\ past w' = (dbf w, jrn w) :: past w \/ io w <> [] /\ jrn w' = jrn w /\ past w' = past w) /\
  (io w = [] -> io w' = []) /\
  state (pgr w') = PAGER_SHARED /\ journalOpen (pgr w') = false /\ pAll (pgr w') = clean_page <$> pAll (pgr w) /\
  errCode (pgr w') = errCode (pgr w) /\ exclusiveMode (pgr w') = exclusiveMode (pgr w).

Lemma wp_end_delete b w jf nm (Q : unit -> world -> Prop) (E : Z -> world -> Prop) :
  PAGER_RESERVED <= state (pgr w) -> journalOpen (pgr w) = true -> exclusiveMode (pgr w) = false ->
  journalMode (pgr w) = PAGER_JOURNALMODE_DELETE -> stmtInUse (pgr w) = false -> jrn w = JLive jf nm ->
  (forall w', ended w jf w' -> Q tt w') ->
  (io w <> [] -> forall w' rc, ended w jf w' -> rc <> SQLITE_OK -> E rc w') ->
  wp (pager_end_transaction b) Q E w.
Proof.
  intros Hst Hop Hex Hmo Hstm Hj HQ HE. unfold pager_end_transaction. apply pwp_bind, wp_pager.
  rewrite (proj2 (Z.ltb_ge _ _) Hst). unfold sqlite3PagerStmtCommit. apply pwp_bind, pwp_bind, wp_pager. rewrite Hstm.
  cbn [when]. apply pwp_bind, pwp_ret, wp_upd. rewrite Hop, Hex, Hmo. cbn [orb negb].
  apply pwp_bind, wp_when_upd. match goal with |- wp _ _ _ ?x => set (w1 := x) end.
  assert (E1 : dbf w1 = dbf w /\ jrn w1 = jrn w /\ past w1 = past w /\ io w1 = io w /\ state (pgr w1) = state (pgr w) /\
    pAll (pgr w1) = pAll (pgr w) /\ errCode (pgr w1) = errCode (pgr w) /\ exclusiveMode (pgr w1) = exclusiveMode (pgr w))
    by (subst w1; by destruct (stmtOpen (pgr w) && true)).
  clearbody w1. destruct E1 as (Ed & Ej & Ep & Eio & _ & Ea & Ee & Ex).
  change (PAGER_JOURNALMODE_DELETE =? PAGER_JOURNALMODE_PERSIST) with false. cbn iota.
  apply pwp_bind, pwp_bind, pwp_bind, wp_upd, wp_code. unfold delete_journal. apply pwp_bind.
  assert (Hend : forall w2 (E' : Z -> world -> Prop),
    dbf w2 = dbf w -> (jrn w2 = JGone jf /\ past w2 = (dbf w, jrn w) :: past w \/ io w <> [] /\ jrn w2 = jrn w /\ past w2 = past w) ->
    (io w = [] -> io w2 = []) -> pAll (pgr w2) = pAll (pgr w) -> errCode (pgr w2) = errCode (pgr w) ->
    exclusiveMode (pgr w2) = exclusiveMode (pgr w) -> journalOpen (pgr w2) = false ->
    (forall w' rc, ended w jf w' -> io w <> [] -> rc <> SQLITE_OK -> E' rc w') ->
    wp (upd (fun p => p <| pInJournal := None |> <| pAll ::= fmap clean_page |> <| pDirty := [] |>
                        <| dirtyCache := false |> <| nRec := 0 |>);; mret SQLITE_OK)
      (fun rc => wp (
        p ← pager;
        rc2 ← (if negb (exclusiveMode p) then
           rc2 ← code (sqlite3OsUnlock SHARED_LOCK);
           upd (fun p => p <| state := PAGER_SHARED |>);;
           mret rc2
         else
           when (state p =? PAGER_SYNCED) (upd (fun p => p <| state := PAGER_EXCLUSIVE |>));;
           mret SQLITE_OK);
        upd (fun p => p <| origDbSize := 0 |> <| setMaster := false |> <| needSync := false |>);;
        upd lruListSetFirstSynced;;
        upd (fun p => p <| dbSize := -1 |> <| dbModified := false |>);;
        check (if rc =? SQLITE_OK then rc2 else rc)) Q E') E' w2).
  { intros w2 E' Ed2 Ej2 Eio2 Ea2 Ee2 Ex2 Eo2 HE'. apply pwp_bind, wp_upd, pwp_ret.
    apply pwp_bind, wp_pager. cbn. rewrite Ex2, Hex. cbn [negb].
    apply pwp_bind, pwp_bind, wp_code. unfold sqlite3OsUnlock. apply pwp_bind, wp_os.
    - intros _. apply wp_check_ok. apply pwp_bind, wp_upd, pwp_ret.
      apply pwp_bind, wp_upd. apply pwp_bind, wp_upd. apply pwp_bind, wp_upd. apply wp_check_ok. apply HQ.
      unfold ended. cbn. rewrite Ed2, Ea2, Ee2, Ex2. split_and!; try done. intros Hio. by rewrite Eio2.
    - intros Hio rc _ Hrc. apply wp_check; [done|]. intros _. apply pwp_bind, wp_upd, pwp_ret.
      apply pwp_bind, wp_upd. apply pwp_bind, wp_upd. apply pwp_bind, wp_upd.
      apply wp_check; [intros ->; done|]. intros Hrc2.
      assert (Hio0 : io w <> []) by (intros E0; apply Hio; cbn; by apply Eio2).
      apply HE'; [|done|done].
      unfold ended. cbn. rewrite Ed2, Ea2, Ee2, Ex2. split_and!; try done. }
  apply wp_refused.
  - intros _. apply pwp_bind, pwp_get. cbn. rewrite Ej, Hj. cbn. apply Hend; cbn; try done.
    + left. by rewrite Ed, Ep, Ej, Hj.
    + intros Hio. by rewrite Eio, Hio.
    + intros w' rc H1 H2 H3. by apply HE.
  - cbn. rewrite Eio. intros Hio rc n Hrc. apply pwp_bind, pwp_get. cbn. rewrite Ej, Hj. apply pwp_ret. apply Hend; cbn; try done.
    + right. by rewrite Ej, Ep.
    + intros w' rc' H1 H2 H3. by apply HE.
Qed.

(** ** Playing back *)

(** The header sector of a segment in the middle of a journal of 512-byte
    sectors is read at the next multiple of 512. *)
Lemma wp_seek (Q : unit -> world -> Prop) E w : sectorSize (pgr w) = 512 -> 0 <= journalOff (pgr w) ->
  Q tt (w <| pgr ::= fun p => p <| journalOff := roundup (journalOff p) |> |>) -> wp seekJournalHdr Q E w.
Proof.
  intros Hss Hc H. destruct (roundup_bounds _ Hc) as [Hb Hdiv]. unfold seekJournalHdr, JOURNAL_HDR_SZ.
  apply pwp_bind, wp_pager. rewrite Hss.
  assert (Hoff : forall (Q : Z -> world -> Prop),
    Q (roundup (journalOff (pgr w))) w ->
    wp (if journalOff (pgr w) =? 0 then mret 0
        else q ← lift (c_div (journalOff (pgr w) - 1) 512); mret ((q + 1) * 512)) Q E w).
  { intros Q' HQ. unfold roundup in HQ. destruct (Z.eqb_spec (journalOff (pgr w)) 0); [by apply pwp_ret|].
    eapply pwp_bind, wp_lift; [done|]. apply pwp_ret. rewrite Z.quot_div_nonneg by lia. done. }
  apply pwp_bind, Hoff. cbn [Z.eqb].
  assert (Z.rem (roundup (journalOff (pgr w))) 512 = 0) by (apply Z.rem_divide; [lia|done]).
  apply pwp_bind, wp_asserts; [by apply Z.eqb_eq|]. apply pwp_bind, wp_asserts; [apply Z.leb_le; lia|].
  apply pwp_bind, wp_asserts; [apply Z.ltb_lt; lia|]. apply wp_upd. exact H.
Qed.

(** A process that plays back the hot journal [J] with the bytes [f]: its
    cache is empty and no call fails.  [K] is what all versions of the
    database satisfy. *)
Record hot (J : jfile) (f : list Z) (K : list Z -> Prop) (d : list Z) (ps : Z) (w : world) : Prop := {
  hot_io : io w = [];
  hot_mem : mem w = [];
  hot_jrn : jrn w = J;
  hot_file : file_of w HJ = Some f;
  hot_db : now (dbf w) = d;
  hot_versions : forall v, v ∈ versions (dbf w) -> K v;
  hot_past : Forall (fun s => s.2 = J /\ forall v, v ∈ versions s.1 -> K v) (past w);
  hot_ps : pageSize (pgr w) = ps;
  hot_ss : sectorSize (pgr w) = 512;
  hot_all : pAll (pgr w) = ∅;
  hot_lru : lru (pgr w) = [];
  hot_nref : nRef (pgr w) = 0;
  hot_err : errCode (pgr w) = 0;
  hot_state : state (pgr w) = PAGER_EXCLUSIVE;
  hot_open : journalOpen (pgr w) = true;
  hot_excl : exclusiveMode (pgr w) = false;
  hot_mode : journalMode (pgr w) = PAGER_JOURNALMODE_DELETE;
  hot_stmt : stmtInUse (pgr w) = false;
  hot_tmp : zlen (pTmpSpace (pgr w)) = ps;
}.

(** What is left after a rollback: the journal is gone.  [P] is what the
    database satisfied all along. *)
Record rolled (J : jfile) (P : dfile -> Prop) (d : list Z) (w : world) : Prop := {
  rolled_jrn : exists jf, jrn w = JGone jf;
  rolled_db : now (dbf w) = d;
  rolled_io : io w = [];
  rolled_past : Forall (fun s => s.2 = J /\ P s.1) (past w);
  rolled_state : state (pgr w) = PAGER_SHARED;
  rolled_err : errCode (pgr w) = 0;
  rolled_excl : exclusiveMode (pgr w) = false;
  rolled_all : pAll (pgr w) = ∅;
}.

Ltac hot_solve H := destruct H; constructor; cbn; auto.

Section hot.
Context (junk : Z -> list Z) (zJournal : list Z) (J : jfile) (f : list Z) (K : list Z -> Prop).
Context (recs_pages : list Z) (junk_ok : forall n, 0 <= n -> zlen (junk n) = n).

Implicit Types (d : list Z) (ps : Z).

Lemma hot_called d ps w : hot J f K d ps w -> hot J f K d ps (called w).
Proof. intros H. hot_solve H. by rewrite hot_io0. Qed.

Lemma hot_no_io d ps w : hot J f K d ps w -> ~ io w <> [].
Proof. intros H Hn. by destruct Hn, H. Qed.

Lemma hot_write d ps w g : hot J f K d ps w -> K g -> hot J f K g ps (with_content HDb g w).
Proof.
  intros H Hg. hot_solve H. intros v [->|Hv]%versions_modified; auto.
Qed.

(** A change of the fields that [hot] does not mention. *)
Lemma hot_upd d ps w (g : Pager -> Pager) :
  (forall p, pageSize (g p) = pageSize p /\ sectorSize (g p) = sectorSize p /\ pAll (g p) = pAll p /\ lru (g p) = lru p /\
     nRef (g p) = nRef p /\ errCode (g p) = errCode p /\ state (g p) = state p /\ journalOpen (g p) = journalOpen p /\
     exclusiveMode (g p) = exclusiveMode p /\ journalMode (g p) = journalMode p /\ stmtInUse (g p) = stmtInUse p /\
     pTmpSpace (g p) = pTmpSpace p) ->
  hot J f K d ps w -> hot J f K d ps (w <| pgr ::= g |>).
Proof. intros Hg H. destruct (Hg (pgr w)) as (?&?&?&?&?&?&?&?&?&?&?&?). destruct H; constructor; cbn; first [done|congruence]. Qed.

Lemma put_tmp_ok (t bs : list Z) off : 0 <= off -> off + zlen bs <= zlen t ->
  exists t', copy_to t off bs = Ret t' /\ zlen t' = zlen t.
Proof.
  revert t off. induction bs as [|b bs IH]; intros t off Ho Hl; [eauto|].
  pose proof (zlen_nonneg bs). rewrite zlen_cons in Hl. cbn.
  destruct (wr_ok t off b) as [t1 E1]; [lia|]. rewrite E1. cbn. pose proof (wr_zlen _ _ _ _ E1).
  destruct (IH t1 (off + 1)) as (t' & -> & L); [lia..|]. eexists; split; [done|lia].
Qed.

Lemma wp_put_tmp d ps w off bs (Q : unit -> world -> Prop) E : hot J f K d ps w -> 0 <= off -> off + zlen bs <= ps ->
  (forall t, zlen t = ps -> Q tt (w <| pgr ::= fun p => p <| pTmpSpace := t |> |>)) -> wp (put_tmp off bs) Q E w.
Proof.
  intros H Ho Hl HQ. unfold put_tmp. apply pwp_bind, wp_pager.
  destruct (put_tmp_ok (pTmpSpace (pgr w)) bs off) as (t & Et & Lt); [done|by rewrite (hot_tmp _ _ _ _ _ _ H)|].
  eapply pwp_bind, wp_lift; [done|]. apply wp_upd, HQ. by rewrite Lt, (hot_tmp _ _ _ _ _ _ H).
Qed.

Lemma hot_tmp_upd d ps w t : zlen t = ps -> hot J f K d ps w ->
  hot J f K d ps (w <| pgr ::= fun p => p <| pTmpSpace := t |> |>).
Proof. intros Ht H. hot_solve H. Qed.

(** The four bytes at [off] are the integer [v]. *)
Lemma wp_read32 d ps w off v (Q : Z -> world -> Prop) E : hot J f K d ps w -> 0 <= off -> off + 4 <= zlen f ->
  sqlite3Get4byte (fsub f off 4) = Ret v -> Q v (called w) -> wp (read32bits HJ off) Q E w.
Proof.
  intros H Ho Hl Hv HQ. eapply wp_read32_any; [apply H|done| |].
  - intros _ v' Hv' _. rewrite Hv in Hv'. by injection Hv' as <-.
  - intros [?|Hio]; [lia|]. by apply (hot_no_io d ps) in Hio.
Qed.

Lemma header_fields g off n ck mx pz : 0 <= off -> zlen pz = 4 -> fsub g off 28 = header_bytes n ck mx pz ->
  fsub g off 8 = aJournalMagic /\ fsub g (off + 8) 4 = sqlite3Put4byte n /\ fsub g (off + 12) 4 = sqlite3Put4byte ck /\
  fsub g (off + 16) 4 = sqlite3Put4byte mx /\ fsub g (off + 20) 4 = sqlite3Put4byte 512 /\ fsub g (off + 24) 4 = pz.
Proof.
  intros Ho Hp H.
  assert (Hs : forall a m, 0 <= a -> 0 <= m -> a + m <= 28 -> fsub g (off + a) m = fsub (header_bytes n ck mx pz) a m).
  { intros a m ? ? ?. rewrite <- H. symmetry. by apply fsub_fsub. }
  destruct pz as [|z0 [|z1 [|z2 [|z3 [|]]]]]; try (unfold zlen in Hp; cbn in Hp; lia).
  rewrite <- (Z.add_0_r off) at 1. rewrite !Hs by lia. done.
Qed.

(** The page size that a header asks for. *)
Definition new_page_size (ps : Z) (pz : list Z) (ps' : Z) : Prop :=
  exists v, sqlite3Get4byte pz = Ret v /\
    (page_size_ok (s32 v) = false /\ ps' = ps \/ page_size_ok (s32 v) = true /\ ps' = v /\ 512 <= v <= 32768).

Lemma wp_set_pagesize d ps w v (Q : unit -> world -> Prop) E : hot J f K d ps w -> 512 <= v <= 32768 ->
  (forall w', hot J f K d v w' -> journalOff (pgr w') = journalOff (pgr w) -> cksumInit (pgr w') = cksumInit (pgr w) ->
     dbSize (pgr w') = dbSize (pgr w) -> Q tt w') ->
  wp (sqlite3PagerSetPagesize junk v) Q E w.
Proof.
  intros H Hv HQ. unfold sqlite3PagerSetPagesize. apply pwp_bind, wp_pager. apply pwp_bind, wp_asserts.
  { apply orb_true_iff. right. apply andb_true_iff. unfold SQLITE_MAX_PAGE_SIZE. split; apply Z.leb_le; lia. }
  pose proof (hot_nref _ _ _ _ _ _ H) as Hn. rewrite Hn. pose proof (hot_ps _ _ _ _ _ _ H) as Hps. rewrite Hps.
  destruct (Z.eqb_spec v 0); [lia|]. destruct (Z.eqb_spec v ps) as [->|Hne]; cbn [andb negb Z.eqb]; [apply pwp_ret, HQ; done|].
  apply pwp_bind, wp_malloc_ok; [apply H|]. cbn.
  apply pwp_bind. unfold pager_reset. apply pwp_bind, wp_pager. rewrite (hot_err _ _ _ _ _ _ H). cbn.
  rewrite (hot_lru _ _ _ _ _ _ H). cbn. apply pwp_bind, wp_asserts; [done|]. apply wp_upd.
  apply pwp_bind, wp_upd. apply pwp_bind. unfold setSectorSize. apply wp_upd. apply wp_upd. apply HQ; [|done..].
  hot_solve H. apply junk_ok. lia.
Qed.

Lemma wp_read_header d ps w n ck mx pz ps' (Q : Z * Z -> world -> Prop) E : hot J f K d ps w ->
  0 <= journalOff (pgr w) -> let off := roundup (journalOff (pgr w)) in
  off + 512 <= zlen f -> fsub f off 28 = header_bytes n ck mx pz -> zlen pz = 4 -> is_u32 n -> is_u32 ck -> is_u32 mx ->
  new_page_size ps pz ps' ->
  (forall w', hot J f K d ps' w' -> journalOff (pgr w') = off + 512 -> cksumInit (pgr w') = ck ->
     dbSize (pgr w') = dbSize (pgr w) -> Q (n, mx) w') ->
  wp (readJournalHdr junk (zlen f)) Q E w.
Proof.
  intros H Hj off Hl Hh Hpz Hn Hck Hmx (v & Ev & Hv) HQ. destruct (roundup_bounds _ Hj) as [Hb _]. fold off in Hb.
  destruct (header_fields f off n ck mx pz) as (F0 & F1 & F2 & F3 & F4 & F5); [lia|done..|].
  unfold readJournalHdr. apply pwp_bind, wp_seek; [apply H|done|]. apply pwp_bind, wp_pager. cbn. fold off.
  unfold JOURNAL_HDR_SZ. cbn. rewrite (hot_ss _ _ _ _ _ _ H). rewrite (proj2 (Z.ltb_ge (zlen f) (off + 512))) by lia.
  set (w1 := w <| pgr ::= _ |>).
  assert (H1 : hot J f K d ps w1) by (apply hot_upd; [done|exact H]).
  eapply pwp_bind, wp_os_read; [apply H1|lia..| |].
  2: { intros [?|Hio]; [lia|]. by apply (hot_no_io _ _ _ H1) in Hio. }
  intros _. rewrite F0, bool_decide_true by done. cbn [negb].
  apply hot_called in H1. set (w2 := called w1) in *.
  eapply pwp_bind, wp_read32; [exact H1|lia..|by rewrite F1; apply get4_put4|]. apply hot_called in H1.
  eapply pwp_bind, wp_read32; [exact H1|lia..|replace (off + 8 + 4) with (off + 12) by lia; rewrite F2; by apply get4_put4|]. apply hot_called in H1.
  apply pwp_bind, wp_upd. set (w3 := called (called w2) <| pgr ::= _ |>).
  assert (H3 : hot J f K d ps w3) by (apply hot_upd; [done|exact H1]).
  eapply pwp_bind, wp_read32; [exact H3|lia..|replace (off + 8 + 8) with (off + 16) by lia; rewrite F3; by apply get4_put4|]. apply hot_called in H3.
  eapply pwp_bind, wp_read32; [exact H3|lia..|replace (off + 8 + 16) with (off + 24) by lia; by rewrite F5|]. apply hot_called in H3.
  set (w4 := called (called w3)) in *.
  assert (Hk : forall w5 E', hot J f K d ps' w5 -> journalOff (pgr w5) = off -> cksumInit (pgr w5) = ck ->
    dbSize (pgr w5) = dbSize (pgr w) ->
    wp (ss ← read32bits HJ (off + 8 + 12); upd (fun p => p <| sectorSize := s32 ss |>);;
        upd (fun p => p <| journalOff ::= Z.add (JOURNAL_HDR_SZ p) |>);; mret (n, mx)) Q E' w5).
  { intros w5 E' H5 Hj5 Hck5 Hd5.
    eapply pwp_bind, wp_read32; [exact H5|lia..|replace (off + 8 + 12) with (off + 20) by lia; rewrite F4; by apply get4_put4|].
    apply hot_called in H5. apply pwp_bind, wp_upd. apply pwp_bind, wp_upd. apply pwp_ret. apply HQ.
    - hot_solve H5.
    - cbn. unfold JOURNAL_HDR_SZ. cbn. change (s32 512) with 512. lia.
    - done.
    - done. }
  destruct Hv as [[Hv ->]|(Hv & -> & Hr)].
  - rewrite Hv. cbn [when]. apply pwp_bind, pwp_ret. by apply Hk.
  - rewrite Hv. cbn [when]. assert (s32 v = v) as -> by (unfold s32; rewrite Z.mod_small; lia).
    assert (u16 v = v) as -> by (unfold u16; apply Z.mod_small; lia).
    eapply pwp_bind, wp_set_pagesize; [exact H3|done|]. intros w5 H5 E1 E2 E3. apply Hk; [done|by rewrite E1|by rewrite E2|by rewrite E3].
Qed.

Lemma wp_no_header d ps w (Q : Z * Z -> world -> Prop) (E : Z -> world -> Prop) : hot J f K d ps w ->
  0 <= journalOff (pgr w) -> let off := roundup (journalOff (pgr w)) in
  zlen f < off + 512 \/ fsub f off 8 <> aJournalMagic ->
  (forall w', hot J f K d ps w' -> E SQLITE_DONE w') ->
  wp (readJournalHdr junk (zlen f)) Q E w.
Proof.
  intros H Hj off Hf HE. destruct (roundup_bounds _ Hj) as [Hb _]. fold off in Hb.
  unfold readJournalHdr. apply pwp_bind, wp_seek; [apply H|done|]. apply pwp_bind, wp_pager. cbn. fold off.
  unfold JOURNAL_HDR_SZ. cbn. rewrite (hot_ss _ _ _ _ _ _ H).
  set (w1 := w <| pgr ::= _ |>).
  assert (H1 : hot J f K d ps w1) by (apply hot_upd; [done|exact H]).
  destruct (Z.ltb_spec (zlen f) (off + 512)); [apply wp_throw, HE, H1|].
  destruct Hf as [Hf|Hf]; [lia|].
  eapply pwp_bind, wp_os_read; [apply H1|lia..| |].
  2: { intros [?|Hio]; [lia|]. by apply (hot_no_io _ _ _ H1) in Hio. }
  intros _. rewrite bool_decide_false by done. cbn [negb]. apply wp_throw, HE. by apply hot_called.
Qed.

Context (ps N : Z) (ps_range : 512 <= ps <= 32768) (N_range : 0 <= N < 2 ^ 31).
Context (K_page : forall d pg data, zlen data = ps -> 1 <= pg -> K d -> pg ∈ recs_pages -> K (fwrite d ((pg - 1) * ps) data)).

Lemma record_parts g off ck r : 0 <= off -> zlen r.2 = ps -> fsub g off (ps + 8) = record_bytes ck ps r ->
  fsub g off 4 = sqlite3Put4byte r.1 /\ fsub g (off + 4) ps = r.2 /\
  fsub g (off + ps + 4) 4 = sqlite3Put4byte (page_cksum ck ps r.2).
Proof.
  intros Ho L H. unfold record_bytes in H.
  assert (E1 : ps + 8 = zlen (sqlite3Put4byte r.1) + zlen (r.2 ++ sqlite3Put4byte (page_cksum ck ps r.2)))
    by (rewrite zlen_app, !zlen_put4; lia).
  rewrite E1 in H. apply fsub_app_inv in H as [H1 H2]; [|done]. rewrite zlen_app in H2.
  apply fsub_app_inv in H2 as [H2 H3]; [|rewrite zlen_put4; lia]. rewrite zlen_put4 in *. rewrite L in *.
  split; [done|]. split; [done|]. replace (off + ps + 4) with (off + 4 + ps) by lia. done.
Qed.

Lemma wp_one_page d w off ck r (Q : unit -> world -> Prop) E : hot J f K d ps w ->
  0 <= off -> off + (ps + 8) <= zlen f -> fsub f off (ps + 8) = record_bytes ck ps r ->
  record_ok ps N r -> r.1 ∈ recs_pages -> is_u32 ck -> cksumInit (pgr w) = ck -> dbSize (pgr w) = N -> K d ->
  journalOff (pgr w) = off ->
  (forall w', hot J f K (fwrite d ((r.1 - 1) * ps) r.2) ps w' -> journalOff (pgr w') = off + (ps + 8) ->
     cksumInit (pgr w') = ck -> dbSize (pgr w') = N -> Q tt w') ->
  wp (pager_playback_one_page HJ off true) Q E w.
Proof.
  intros H Ho Hl Hrec (Hr1 & Hr2 & Hr3) Hin Hck Eck Ed HK Ej HQ.
  destruct (record_parts f off ck r) as (F1 & F2 & F3); [done..|].
  unfold pager_playback_one_page. apply pwp_bind, wp_pager. apply pwp_bind, wp_asserts; [done|]. pose proof (hot_ps _ _ _ _ _ _ H) as Eps.
  eapply pwp_bind, wp_read32; [exact H|done|lia|rewrite F1; apply get4_put4; unfold is_u32; lia|].
  apply hot_called in H as H1. rewrite Eps.
  eapply pwp_bind, wp_OsRead; [apply H1|lia|lia| | |].
  2: { intros ?. lia. }
  2: { intros Hio. by apply (hot_no_io _ _ _ H1) in Hio. }
  intros _. rewrite F2. apply hot_called in H1.
  eapply pwp_bind, wp_put_tmp; [exact H1|lia|lia|]. intros t Ht. apply hot_tmp_upd with (t := t) in H1; [|done].
  apply pwp_bind, wp_check_ok. apply pwp_bind, wp_upd. set (w2 := _ <| pgr ::= _ |> <| pgr ::= _ |>).
  assert (H2 : hot J f K d ps w2) by (apply hot_upd; [done|exact H1]).
  destruct (Z.eqb_spec r.1 0); [lia|]. unfold PAGER_MJ_PGNO. rewrite Eps.
  destruct (Z.eqb_spec r.1 (PENDING_BYTE / ps + 1)); [done|]. cbn [orb]. rewrite Ed.
  assert (u32 N = N) as -> by (apply u32_id; unfold is_u32; lia). rewrite (proj2 (Z.ltb_ge N r.1)) by lia.
  cbn [when]. apply pwp_bind, pwp_bind.
  assert (Hc : pager_cksum (pgr w) r.2 = Ret (page_cksum ck ps r.2) /\ is_u32 (page_cksum ck ps r.2)).
  { rewrite <- Eck, <- Eps. apply pager_cksum_ok; congruence. }
  destruct Hc as [Hc Hcr].
  eapply wp_read32; [exact H2|lia|lia|rewrite F3; by apply get4_put4|]. apply hot_called in H2.
  apply pwp_bind, wp_upd. set (w3 := _ <| pgr ::= _ |>).
  assert (H3 : hot J f K d ps w3) by (apply hot_upd; [done|exact H2]).
  eapply pwp_bind, wp_lift; [exact Hc|]. rewrite Z.eqb_refl. cbn [negb when]. apply pwp_ret.
  pose proof (hot_state _ _ _ _ _ _ H) as Hst. rewrite Hst. apply pwp_bind, wp_asserts; [done|].
  unfold pager_lookup. rewrite (hot_all _ _ _ _ _ _ H), lookup_empty. cbn [andb].
  change (PAGER_EXCLUSIVE <=? PAGER_EXCLUSIVE) with true. cbn [andb].
  apply pwp_bind, pwp_bind, wp_code. eapply wp_OsWrite; [by left|done|nia|lia| |].
  2: { intros Hio. by apply (hot_no_io _ _ _ H3) in Hio. }
  assert (H4 := hot_called _ _ _ H3).
  apply hot_write with (g := fwrite d ((r.1 - 1) * ps) r.2) in H4; [|apply K_page; [done|lia|done|done]].
  rewrite (hot_db _ _ _ _ _ _ H3). set (w4 := with_content _ _ _) in *.
  apply pwp_bind, wp_upd, pwp_ret. apply pwp_bind. rewrite bool_decide_false by (by intros [? ?]).
  cbn [when]. apply pwp_ret, wp_check_ok.
  assert (E5 : w4 <| pgr ::= makeClean r.1 |> = w4).
  { unfold makeClean. pose proof (hot_all _ _ _ _ _ _ H4) as E4. destruct w4. cbn in *. unfold set_field, set_pgr. cbn.
    by rewrite E4, lookup_empty. }
  rewrite E5. apply HQ; [done|..]; cbn; lia.
Qed.

Lemma wp_records fuel d w off ck recs i n (Q : unit -> world -> Prop) E : hot J f K d ps w ->
  0 <= off -> off + zlen recs * (ps + 8) <= zlen f -> fsub f off (zlen recs * (ps + 8)) = records_bytes ck ps recs ->
  Forall (record_ok ps N) recs -> recs.*1 ⊆ recs_pages -> is_u32 ck -> cksumInit (pgr w) = ck -> dbSize (pgr w) = N ->
  K d -> journalOff (pgr w) = off -> i + zlen recs = n -> zlen recs < Z.of_nat fuel ->
  (forall w', hot J f K (put_records ps d recs) ps w' -> K (put_records ps d recs) ->
     journalOff (pgr w') = off + zlen recs * (ps + 8) -> dbSize (pgr w') = N -> Q tt w') ->
  wp (playback_records fuel i n (zlen f)) Q E w.
Proof.
  revert d w off i fuel. induction recs as [|r recs IH]; intros d w off i fuel H Ho Hl Hrec Hok Hin Hck Eck Ed HK Ej Hn Hf HQ;
    (destruct fuel as [|fuel]; [match type of Hf with zlen ?l < _ => pose proof (zlen_nonneg l) end; lia|]).
  - rewrite zlen_nil in *. cbn [playback_records]. rewrite (proj2 (Z.leb_le n i)) by lia.
    apply pwp_ret, HQ; [done|done| |done]. lia.
  - pose proof (zlen_nonneg recs). rewrite zlen_cons in *. inversion_clear Hok as [|? ? Hr Hok'].
    assert (Lr : zlen r.2 = ps) by apply Hr.
    cbn [playback_records]. rewrite (proj2 (Z.leb_gt n i)) by lia. apply pwp_bind, wp_pager. rewrite Ej.
    rewrite records_bytes_cons in Hrec.
    replace ((zlen recs + 1) * (ps + 8)) with (zlen (record_bytes ck ps r) + zlen (records_bytes ck ps recs)) in Hrec
      by (rewrite (zlen_record ck ps), (zlen_records ck ps N) by done; lia).
    apply fsub_app_inv in Hrec as [H1 H2]; [|done].
    rewrite (zlen_record ck ps) in H1, H2 by done. rewrite (zlen_records ck ps N) in H2 by done.
    apply pwp_bind, wp_code. eapply wp_one_page; [exact H|done|nia|exact H1|done| |done..|].
    { apply Hin. by left. }
    intros w' H' E1 E2 E3. cbn [Z.eqb]. change (SQLITE_OK =? SQLITE_OK) with true. cbn iota.
    apply (IH (fwrite d ((r.1 - 1) * ps) r.2) w' (off + (ps + 8)) (i + 1) fuel); [exact H'|lia|nia|exact H2|done| |done|done|done| |done|lia|lia|].
    { intros x Hx. apply Hin. by right. }
    { apply K_page; [done|apply Hr|done|]. apply Hin. by left. }
    intros w2 HH HK2 Ej2 Ed2. apply HQ; [done|done| |done]. lia.
Qed.

Lemma quot_records a : 0 <= a -> 0 <= Z.quot a (ps + 8) <= a.
Proof. intros Ha. rewrite Z.quot_div_nonneg by lia. split; [apply Z.div_pos; lia|]. apply Z.div_le_upper_bound; nia. Qed.

(** One segment, once its header is read and the file has its size. *)
Lemma wp_segment fuel d w off n mx ck recs (Q : unit -> world -> Prop) E : hot J f K d ps w ->
  0 <= off -> journalOff (pgr w) = off + 512 -> n = zlen recs -> off + 512 + zlen recs * (ps + 8) <= zlen f ->
  fsub f (off + 512) (zlen recs * (ps + 8)) = records_bytes ck ps recs ->
  Forall (record_ok ps N) recs -> recs.*1 ⊆ recs_pages -> is_u32 ck -> cksumInit (pgr w) = ck -> dbSize (pgr w) = N -> K d ->
  zlen recs < 2 ^ 32 - 1 -> 0 < off ->
  (forall w', hot J f K (put_records ps d recs) ps w' -> K (put_records ps d recs) ->
     journalOff (pgr w') = off + 512 + zlen recs * (ps + 8) -> dbSize (pgr w') = N ->
     wp (playback_headers junk fuel true (zlen f)) Q E w') ->
  wp (p ← pager;
      nRec_ ← (if n =? 0xffffffff then
                 asserts (journalOff p =? JOURNAL_HDR_SZ p);;
                 mret (u32 (Z.quot (zlen f - JOURNAL_HDR_SZ p) (JOURNAL_PG_SZ p)))
               else mret n);
      let nRec_ := if (nRec_ =? 0) && negb true && (journalHdr p + JOURNAL_HDR_SZ p =? journalOff p)
                   then u32 (Z.quot (zlen f - journalOff p) (JOURNAL_PG_SZ p)) else nRec_ in
      when (journalOff p =? JOURNAL_HDR_SZ p) (pager_truncate (s32 mx));;
      playback_records (S (Z.to_nat (zlen f))) 0 nRec_ (zlen f);;
      playback_headers junk fuel true (zlen f)) Q E w.
Proof.
  intros H Ho Ej -> Hl Hrec Hok Hin Hck Eck Ed HK Hn Hpos HQ. pose proof (zlen_nonneg recs).
  apply pwp_bind, wp_pager. destruct (Z.eqb_spec (zlen recs) 4294967295); [lia|].
  apply pwp_bind, pwp_ret. cbn zeta. cbn [negb]. rewrite andb_false_r, andb_false_l.
  unfold JOURNAL_HDR_SZ. rewrite (hot_ss _ _ _ _ _ _ H), Ej.
  destruct (Z.eqb_spec (off + 512) 512); [lia|]. cbn [when]. apply pwp_bind, pwp_ret.
  eapply pwp_bind, wp_records; [exact H| |exact Hl|exact Hrec|done|done|done|done|done|done|done|lia|nia|]; [lia|].
  intros w' H' HK' Ej' Ed'. by apply HQ.
Qed.

Lemma wp_headers off recs : plays f ps N off recs -> 0 < off -> forall fuel d w (Q : unit -> world -> Prop) E,
  hot J f K d ps w -> 0 <= journalOff (pgr w) -> roundup (journalOff (pgr w)) = off ->
  recs.*1 ⊆ recs_pages -> dbSize (pgr w) = N -> K d -> zlen f < off + Z.of_nat fuel -> (0 < fuel)%nat ->
  (forall w', hot J f K (put_records ps d recs) ps w' -> Q tt w') ->
  wp (playback_headers junk fuel true (zlen f)) Q E w.
Proof.
  induction 1 as [off Hend|off ck mx pz recs rest Hl Hh Hck Hmx Hpz (v & Ev & Hv) Hn Hok Hrec Hp IH];
    intros Hpos fuel d w Q E H Hj Eoff Hin Ed HK Hf Hf0 HQ; (destruct fuel as [|fuel]; [lia|]); cbn [playback_headers].
  - eapply pwp_bind, wp_attempt, wp_no_header; [exact H|done|by rewrite Eoff|]. intros w' H'.
    change (SQLITE_DONE =? SQLITE_DONE) with true. cbn iota. by apply pwp_ret, HQ.
  - pose proof (zlen_nonneg recs). assert (0 <= zlen recs * (ps + 8)) by nia.
    eapply pwp_bind, wp_attempt, wp_read_header with (ps' := ps);
      [exact H|done|rewrite Eoff; lia|by rewrite Eoff|done|unfold is_u32; lia|done|done| |].
    { exists v. split; [done|]. destruct Hv as [Hv| ->]; [by left|]. destruct (page_size_ok (s32 ps)); [right|left]; done. }
    rewrite Eoff. intros w' H' Ej' Eck' Ed'. rewrite fmap_app in Hin.
    destruct (roundup_bounds (off + 512 + zlen recs * (ps + 8))) as [Hb _]; [lia|].
    eapply (wp_segment fuel d w' off); [exact H'|lia|done|done|done|done|done| |done|done|congruence|done|done|done|].
    { intros x Hx. apply Hin, elem_of_app. by left. }
    intros w2 H2 HK2 Ej2 Ed2. eapply IH; [lia|exact H2|lia|by rewrite Ej2| |done|done|lia|lia|].
    { intros x Hx. apply Hin, elem_of_app. by right. }
    intros w3 H3. apply HQ. unfold put_records in *. by rewrite foldl_app.
Qed.

Context (K_trunc : forall d, K d -> K (ftrunc d (N * ps))).
Context (K_extend : forall d, zlen d < N * ps -> K d -> K (fwrite d (N * ps - 1) [0])).

Lemma wp_truncate d w (Q : unit -> world -> Prop) E : hot J f K d ps w -> K d ->
  (forall d' w', hot J f K d' ps w' -> K d' -> zlen d' = N * ps -> dbSize (pgr w') = N ->
     journalOff (pgr w') = journalOff (pgr w) -> cksumInit (pgr w') = cksumInit (pgr w) -> Q tt w') ->
  wp (pager_truncate N) Q E w.
Proof.
  intros H HK HQ. unfold pager_truncate. apply pwp_bind, wp_pager. rewrite (hot_state _ _ _ _ _ _ H).
  change (PAGER_EXCLUSIVE <=? PAGER_EXCLUSIVE) with true. cbn [when]. rewrite (hot_ps _ _ _ _ _ _ H).
  assert (Hend : forall d' w' E', hot J f K d' ps w' -> K d' -> zlen d' = N * ps -> pgr w' = pgr w ->
    wp (upd (fun p => p <| dbSize := N |>);; upd pager_truncate_cache) Q E' w').
  { intros d' w' E' H' HK' L' Ep. apply pwp_bind, wp_upd, wp_upd.
    assert (Hc : forall p, pAll p = ∅ -> pager_truncate_cache p = p).
    { intros p Hp. unfold pager_truncate_cache. by rewrite Hp, map_to_list_empty. }
    set (w2 := w' <| pgr ::= _ |>). assert (H2 : hot J f K d' ps w2) by (apply hot_upd; [done|exact H']).
    assert (E2 : w2 <| pgr ::= pager_truncate_cache |> = w2).
    { pose proof (hot_all _ _ _ _ _ _ H2) as E4. destruct w2. cbn in *. unfold set_field, set_pgr. cbn. by rewrite Hc. }
    rewrite E2. apply (HQ d' w2); [done..| |]; cbn; by rewrite Ep. }
  apply pwp_bind, pwp_bind. unfold sqlite3OsFileSize. apply pwp_bind, wp_refused.
  2: { intros Hio. by apply (hot_no_io _ _ _ H) in Hio. }
  intros _. apply hot_called in H as H1. set (w1 := w <| io ::= tail |>) in *. change (called w) with w1 in H1.
  eapply pwp_bind, wp_content; [reflexivity|]. apply pwp_ret. rewrite (hot_db _ _ _ _ _ _ H1).
  destruct (Z.eqb_spec (zlen d) (N * ps)) as [El|Hne].
  { rewrite (Z.mul_comm ps N), (proj2 (Z.eqb_eq _ _) El). apply pwp_ret. by apply (Hend d). }
  rewrite (Z.mul_comm ps N), (proj2 (Z.eqb_neq _ _) Hne). pose proof (zlen_nonneg d).
  destruct (Z.ltb_spec (N * ps) (zlen d)) as [Hlt|Hlt].
  - unfold sqlite3OsTruncate. apply pwp_bind, wp_refused.
    2: { intros Hio. by apply (hot_no_io _ _ _ H1) in Hio. }
    intros _. cbn [orb]. rewrite (proj2 (Z.ltb_ge (N * ps) 0)) by nia.
    apply hot_called in H1 as H2. set (w2 := w1 <| io ::= tail |>) in *. change (called w1) with w2 in H2.
    eapply pwp_bind, wp_content; [reflexivity|]. eapply wp_set_content; [by left|reflexivity|].
    rewrite (hot_db _ _ _ _ _ _ H2). apply (Hend (ftrunc d (N * ps))); [|by apply K_trunc| |done].
    + apply hot_write with (d := d); [done|by apply K_trunc].
    + apply ftrunc_zlen. nia.
  - eapply wp_OsWrite; [by left|reflexivity|nia|done| |].
    2: { intros Hio. by apply (hot_no_io _ _ _ H1) in Hio. }
    rewrite (hot_db _ _ _ _ _ _ H1). apply hot_called in H1.
    assert (HK' : K (fwrite d (N * ps - 1) [0])) by (apply K_extend; [lia|done]).
    apply (Hend (fwrite d (N * ps - 1) [0])); [|done| |done].
    + by apply hot_write with (d := d).
    + rewrite fwrite_zlen by nia. change (zlen [0]) with 1. lia.
Qed.

Lemma put4_get4 v : is_u32 v -> sqlite3Get4byte (sqlite3Put4byte v) = Ret v.
Proof. apply get4_put4. Qed.

(** The whole journal, from a process that may have another page size. *)
Lemma wp_journal d ps0 w recs (Q : unit -> world -> Prop) E : journal_of f ps N recs -> page_size_ok ps = true ->
  hot J f K d ps0 w -> 512 <= ps0 <= 32768 -> journalOff (pgr w) = 0 -> recs.*1 ⊆ recs_pages -> K d ->
  (forall d' w', hot J f K (put_records ps d' recs) ps w' -> K d' -> zlen d' = N * ps -> Q tt w') ->
  wp (playback_headers junk (S (Z.to_nat (zlen f))) true (zlen f)) Q E w.
Proof.
  intros (ck & recs1 & rest & -> & Hl & Hh & Hck & Hn & Hok & Hrec & Hp) Hpsok H Hps0 Ej Hin HK HQ.
  pose proof (zlen_nonneg recs1) as Hz. assert (Hz2 : 0 <= zlen recs1 * (ps + 8)) by nia. cbn [playback_headers].
  eapply pwp_bind, wp_attempt, wp_read_header with (ps' := ps); [exact H|lia|by rewrite Ej; cbn; lia|by rewrite Ej|done| | | | |].
  { unfold is_u32. lia. }
  { done. }
  { unfold is_u32. lia. }
  { exists ps. split; [apply get4_put4; unfold is_u32; lia|]. right.
    assert (s32 ps = ps) as -> by (unfold s32; rewrite Z.mod_small; lia). done. }
  intros w1 H1 Ej1 Eck1 _. rewrite Ej in Ej1. change (roundup 0 + 512) with 512 in Ej1. rewrite fmap_app in Hin.
  apply pwp_bind, wp_pager. destruct (Z.eqb_spec (zlen recs1) 4294967295); [lia|].
  apply pwp_bind, pwp_ret. cbn zeta. cbn [negb]. rewrite andb_false_r, andb_false_l.
  unfold JOURNAL_HDR_SZ. rewrite (hot_ss _ _ _ _ _ _ H1), Ej1. cbn [Z.eqb Pos.eqb when].
  assert (s32 N = N) as -> by (unfold s32; rewrite Z.mod_small; lia).
  eapply pwp_bind, wp_truncate; [exact H1|done|]. intros d' w2 H2 HK2 L2 Ed2 Ej2 Eck2.
  eapply pwp_bind, (wp_records _ d' w2 512 ck recs1); [exact H2|lia|lia|exact Hrec|done| |exact Hck|congruence|done|done|congruence|lia|nia|].
  { intros x Hx. apply Hin, elem_of_app. by left. }
  intros w3 H3 HK3 Ej3 Ed3. destruct (roundup_bounds (512 + zlen recs1 * (ps + 8))) as [Hb _]; [lia|].
  eapply wp_headers; [exact Hp|lia|exact H3|lia|by rewrite Ej3| |done|done|lia| |].
  { intros x Hx. apply Hin, elem_of_app. by right. }
  { destruct (Z.to_nat (zlen f)) eqn:Ef; [|lia]. lia. }
  intros w4 H4. apply (HQ d'); [|done..]. unfold put_records in *. by rewrite foldl_app.
Qed.

(** ** The end of a rollback *)

Lemma c_string_nul t t' : 0 < zlen t -> copy_to t 0 [0] = Ret t' -> c_string t' = [].
Proof.
  intros L. destruct t as [|x t]; [unfold zlen in L; cbn in L; lia|]. unfold copy_to, wr. rewrite decide_True by (unfold zlen in L; cbn in *; lia).
  cbn. intros [= <-]. done.
Qed.

Lemma wp_read_master d ps0 w (Q : unit -> world -> Prop) E : no_master f -> hot J f K d ps0 w -> 0 < ps0 ->
  (forall w', hot J f K d ps0 w' -> c_string (pTmpSpace (pgr w')) = [] -> journalOff (pgr w') = journalOff (pgr w) -> Q tt w') ->
  wp read_master Q E w.
Proof.
  intros Hm H Hps0 HQ. unfold read_master. apply pwp_bind, wp_pager.
  destruct (put_tmp_ok (pTmpSpace (pgr w)) [0] 0) as (t & Et & Lt); [lia|rewrite (hot_tmp _ _ _ _ _ _ H); change (zlen [0]) with 1; lia|].
  assert (Hc : c_string t = []) by (eapply c_string_nul; [|exact Et]; rewrite (hot_tmp _ _ _ _ _ _ H); lia).
  rewrite (hot_tmp _ _ _ _ _ _ H) in Lt.
  assert (Hend : forall w' (E' : Z -> world -> Prop), hot J f K d ps0 w' -> journalOff (pgr w') = journalOff (pgr w) ->
    wp (upd (fun p => p <| pTmpSpace := t |>);; check SQLITE_OK) Q E' w').
  { intros w' E' H' Ej. apply pwp_bind, wp_upd, wp_check_ok. apply HQ; [by apply hot_tmp_upd|done|done]. }
  unfold readMasterJournal. apply pwp_bind, pwp_bind. eapply wp_lift; [exact Et|].
  apply pwp_bind, wp_attempt. unfold sqlite3OsFileSize. apply pwp_bind, wp_refused.
  2: { intros Hio. by apply (hot_no_io _ _ _ H) in Hio. }
  intros _. apply hot_called in H as H1. set (w1 := w <| io ::= tail |>) in *. change (called w) with w1 in H1.
  eapply pwp_bind, wp_content; [apply H1|]. apply pwp_ret.
  destruct (Z.ltb_spec (zlen f) 16); [apply pwp_ret; by apply Hend|].
  apply pwp_bind, wp_attempt. eapply wp_read32_any; [apply H1|lia| |].
  2: { intros [?|Hio]; [lia|]. by apply (hot_no_io _ _ _ H1) in Hio. }
  intros _ len _ _. apply hot_called in H1. destruct (_ <=? len); [apply pwp_ret; by apply Hend|].
  apply pwp_bind, wp_attempt. eapply wp_read32_any; [apply H1|lia| |].
  2: { intros [?|Hio]; [lia|]. by apply (hot_no_io _ _ _ H1) in Hio. }
  intros _ cksum _ _. apply hot_called in H1.
  apply pwp_bind, wp_attempt. eapply wp_os_read; [apply H1|lia|lia| |].
  2: { intros [?|Hio]; [lia|]. by apply (hot_no_io _ _ _ H1) in Hio. }
  intros _. apply hot_called in H1. rewrite bool_decide_false by done. cbn [negb]. apply pwp_ret. by apply Hend.
Qed.

Lemma wp_end_transaction d ps0 w jf nm (Q : unit -> world -> Prop) E : J = JLive jf nm -> hot J f K d ps0 w ->
  (forall w', rolled J (fun df => forall v, v ∈ versions df -> K v) d w' -> Q tt w') -> wp (pager_end_transaction false) Q E w.
Proof.
  intros HJ H HQ. assert (Hs : PAGER_RESERVED <= state (pgr w)) by (by rewrite (hot_state _ _ _ _ _ _ H)).
  eapply wp_end_delete; [exact Hs|apply H|apply H|apply H|apply H|rewrite (hot_jrn _ _ _ _ _ _ H); exact HJ| |].
  2: { intros Hio. by apply (hot_no_io _ _ _ H) in Hio. }
  intros w' (Ed & Ej & Eio & Est & Eo & Ea & Ee & Ex).
  destruct Ej as [[Ej Ep]|[Hio _]]; [|by apply (hot_no_io _ _ _ H) in Hio].
  apply HQ. destruct H. constructor; [by eexists|by rewrite Ed|by apply Eio| |done|by rewrite Ee|by rewrite Ex|].
  - rewrite Ep. by constructor.
  - by rewrite Ea, hot_all0, fmap_empty.
Qed.

End hot.
