(* ===== verification/PagerRecovery.v ===== *)
(** * Recovery: a process that finds a hot journal

    [pagerSharedLock] of a process that comes after a crash: it finds the
    journal, plays it back and deletes it, and the database is what it was
    before the transaction ([pagerSharedLock_recovers]), from every state that
    a crash in the middle of a recovery leaves as well. *)

From S2P Require Import Prelude Varint PageBytes RecordUpdate DiskFile Pager PagerJournal PagerCache PagerWp.
From S2P Require Import PagerPlayback.

Section playback.
Context (junk : Z -> list Z) (zJournal : list Z) (J : jfile) (f : list Z) (K : list Z -> Prop).
Context (jf : dfile) (nm : bool) (J_live : J = JLive jf nm) (f_no_master : no_master f).

(** All of [pager_playback], given what the records do. *)
Lemma wp_playback d ps0 D w (Q : unit -> world -> Prop) E : hot J f K d ps0 w -> 0 < ps0 ->
  (zlen f = 0 -> D = d) ->
  (forall w1 (Q1 : unit -> world -> Prop) E1, hot J f K d ps0 w1 -> journalOff (pgr w1) = 0 ->
     (forall w2 ps, hot J f K D ps w2 -> 0 < ps -> Q1 tt w2) ->
     wp (playback_headers junk (S (Z.to_nat (zlen f))) true (zlen f)) Q1 E1 w1) ->
  (forall w', rolled J (fun df => forall v, v ∈ versions df -> K v) D w' -> Q tt w') -> wp (pager_playback junk zJournal true) Q E w.
Proof.
  intros H Hps Hf0 Hplay HQ. unfold pager_playback. apply pwp_bind, wp_pager.
  apply pwp_bind, wp_asserts; [apply H|]. apply pwp_bind, wp_code.
  assert (Hend : forall w1 ps1 (E1 : Z -> world -> Prop), hot J f K D ps1 w1 -> 0 < ps1 ->
    wp (read_master;; zMaster ← master_name; pager_end_transaction (negb (bool_decide (zMaster = [])));;
        if bool_decide (zMaster = []) then mret tt else pager_delmaster junk zJournal zMaster)
       (fun _ => wp (setSectorSize;; check SQLITE_OK) Q E) E1 w1).
  { intros w1 ps1 E1 H1 Hps1. eapply pwp_bind, wp_read_master; [done|exact H1|done|]. intros w2 H2 Hc _.
    apply pwp_bind. unfold master_name. apply pwp_bind, wp_pager, pwp_ret. rewrite Hc, bool_decide_true by done. cbn [negb].
    eapply pwp_bind, wp_end_transaction; [exact J_live|exact H2|]. intros w3 H3. apply pwp_ret.
    apply pwp_bind. unfold setSectorSize. apply wp_upd, wp_check_ok. apply HQ. destruct H3. by constructor. }
  apply pwp_bind. unfold playback_body. apply pwp_bind. unfold sqlite3OsFileSize. apply pwp_bind, wp_refused.
  2: { intros Hio. by apply (hot_no_io _ _ _ _ _ _ H) in Hio. }
  intros _. apply hot_called in H as H1. set (w1 := w <| io ::= tail |>) in *. change (called w) with w1 in H1.
  eapply pwp_bind, wp_content; [apply H1|]. apply pwp_ret.
  destruct (Z.eqb_spec (zlen f) 0) as [E0|E0].
  { apply pwp_ret. eapply Hend; [|exact Hps]. by rewrite Hf0. }
  eapply pwp_bind, wp_read_master; [done|exact H1|done|]. intros w2 H2 Hc _.
  apply pwp_bind. unfold master_name. apply pwp_bind, wp_pager, pwp_ret. rewrite Hc, bool_decide_true by done.
  apply pwp_bind, pwp_ret. cbn [Z.eqb Z.ltb Z.compare]. apply pwp_bind, wp_upd. eapply Hplay.
  - apply hot_upd; [done|exact H2].
  - done.
  - intros w4 ps4 H4 Hp4. by eapply Hend.
Qed.

End playback.

(** ** Playing back what brings the database back *)

Definition page_size (ps : Z) : Prop := page_size_ok ps = true.

Lemma page_size_range ps : page_size ps -> 512 <= ps <= 32768.
Proof.
  unfold page_size, page_size_ok, SQLITE_MAX_PAGE_SIZE. rewrite !andb_true_iff, !Z.leb_le. lia.
Qed.

Lemma rolled_mono J (P P' : dfile -> Prop) d w : (forall v, P v -> P' v) -> rolled J P d w -> rolled J P' d w.
Proof.
  intros HK H. destruct H; constructor; auto. eapply Forall_impl; [done|]. intros s [Hs Hv]. split; auto.
Qed.

(** A page that no version has touched is still there. *)
Lemma page_torn ps df d' D0 pg : 0 < ps -> (512 | ps) -> 1 <= pg -> torn_crash df d' ->
  (forall v, v ∈ versions df -> pg * ps <= zlen v /\ page_at ps v pg = page_at ps D0 pg) ->
  pg * ps <= zlen d' /\ page_at ps d' pg = page_at ps D0 pg.
Proof.
  intros Hps [k Hk] Hpg [(v & v' & Hv & Hv' & Hl) Hs] H.
  assert (L : pg * ps <= zlen d') by (pose proof (H v Hv); lia). split; [done|].
  destruct (H v Hv) as [Lv Ev]. rewrite <- Ev. apply fsub_ext; [nia..|]. intros i Hi.
  assert (0 <= (pg - 1) * ps) by nia. assert (0 <= i / 512) by (apply Z.div_pos; lia). pose proof (Z.div_mod i 512). pose proof (Z.mod_pos_bound i 512).
  assert (Hb : (pg - 1) * ps <= i / 512 * 512 /\ i / 512 * 512 + 512 <= (pg - 1) * ps + ps).
  { subst ps. assert ((pg - 1) * k <= i / 512) by (apply Z.div_le_lower_bound; lia).
    assert (i / 512 < (pg - 1) * k + k) by (apply Z.div_lt_upper_bound; lia). lia. }
  apply (fsub_eq_rd d' v (i / 512 * 512) 512); [lia| |lia].
  apply (Hs (i / 512) (sector v (i / 512))); [done|]. intros u Hu. destruct (H u Hu) as [Lu Eu].
  unfold sector, SECTOR. apply (fsub_sub u v ((pg - 1) * ps) ps); [nia..|]. unfold page_at in *. congruence.
Qed.

(** Nothing happens to a file that is always the same. *)
Lemma versions_torn df d d' : (forall v, v ∈ versions df -> v = d) -> torn_crash df d' -> d' = d.
Proof.
  intros H [(v & v' & Hv%H & Hv'%H & Hl) Hs]. subst v v'. apply (torn_crash_sync d d'). split.
  - exists d, d. split_and!; [by apply list_elem_of_singleton..|lia|lia].
  - intros s c Hs0 Hc. apply Hs; [done|]. intros v ->%H. apply Hc. by apply list_elem_of_singleton.
Qed.

Lemma kept_torn ps N D0 recs df d' : 0 < ps -> (512 | ps) -> torn_crash df d' ->
  (forall v, v ∈ versions df -> kept ps N D0 recs v) -> kept ps N D0 recs d'.
Proof.
  intros Hps Hd Ht H. split.
  - intros HN. destruct Ht as [(v & v' & Hv & _ & Hl) _]. destruct (H v Hv) as [K0 _]. specialize (K0 HN). lia.
  - intros pg Hpg Hnin. apply (page_torn ps df); [done|done|lia|done|]. intros v Hv. by apply (H v Hv).
Qed.

Lemma page_size_sectors ps : page_size ps -> (512 | ps).
Proof.
  intros H. pose proof (page_size_range ps H) as Hr. unfold page_size, page_size_ok in H.
  rewrite !andb_true_iff in H. destruct H as [_ H%Z.eqb_eq].
  destruct (Z.log2_spec ps) as [Hl Hu]; [lia|]. pose proof (Z.log2_nonneg ps).
  assert (Hb : 9 <= Z.log2 ps) by (apply Z.log2_le_pow2; lia).
  destruct (decide (ps = 2 ^ Z.log2 ps)) as [->|Hne].
  { exists (2 ^ (Z.log2 ps - 9)). change 512 with (2 ^ 9). rewrite <- Z.pow_add_r by lia. f_equal. lia. }
  exfalso. assert (El : Z.log2 (ps - 1) = Z.log2 ps) by (apply Z.log2_unique; lia).
  assert (Hbit : Z.testbit (Z.land (ps - 1) ps) (Z.log2 ps) = true); [|by rewrite H, Z.bits_0 in Hbit].
  rewrite Z.land_spec, <- El at 1. rewrite Z.bit_log2 by lia. by rewrite Z.bit_log2 by lia.
Qed.

Section recover.
Context (junk : Z -> list Z) (zJournal : list Z) (junk_ok : forall n, 0 <= n -> zlen (junk n) = n).
Context (ps : Z) (D0 f : list Z) (jf : dfile) (nm : bool) (ps_ok : page_size ps) (D0_size : zlen D0 < 2 ^ 31 * ps).

Local Notation J := (JLive jf nm).
Local Notation P := (fun df => forall v, torn_crash df v -> recoverable ps D0 v (Some f)).

Lemma wp_playback_recovers d ps0 w (Q : unit -> world -> Prop) E : recoverable ps D0 d (Some f) ->
  (forall K : list Z -> Prop, K d -> hot J f K d ps0 w) -> 512 <= ps0 <= 32768 ->
  (forall w', rolled J P D0 w' -> Q tt w') ->
  wp (pager_playback junk zJournal true) Q E w.
Proof.
  pose proof (page_size_range ps ps_ok) as Hps. pose proof (zlen_nonneg f) as Lf.
  intros [Hm [[-> Hno]|(N & recs & L0 & Hj & Ho & Hk)]] H Hps0 HQ.
  - apply (wp_playback junk zJournal J f (fun v => v = D0) jf nm eq_refl Hm D0 ps0 D0); [by apply H|lia|done| |].
    + intros w1 Q1 E1 H1 Ej HQ1. cbn [playback_headers]. eapply pwp_bind, wp_attempt, wp_no_header; [exact H1|lia| |].
      { rewrite Ej. cbn. exact Hno. }
      intros w2 H2. change (SQLITE_DONE =? SQLITE_DONE) with true. cbn iota. apply pwp_ret. eapply HQ1; [exact H2|lia].
    + intros w' H'. apply HQ. eapply rolled_mono; [|exact H']. intros df Hv v Ht. split; [done|]. left. split; [|done]. eapply versions_torn; [exact Hv|exact Ht].
  - assert (HN : 0 <= N < 2 ^ 31) by (pose proof (zlen_nonneg D0); nia).
    apply (wp_playback junk zJournal J f (kept ps N D0 recs) jf nm eq_refl Hm d ps0 D0); [by apply H|lia| | |].
    + destruct Hj as (ck & recs1 & rest & _ & Hl & _). pose proof (zlen_nonneg recs1). nia.
    + intros w1 Q1 E1 H1 Ej HQ1.
      eapply (wp_journal junk J f (kept ps N D0 recs) recs.*1 junk_ok ps N Hps HN); [..|exact Hj|done|exact H1|done|done|done|done|].
      * intros d1 pg data Ld Hpg HK Hin. apply kept_fwrite; [lia|done..].
      * intros d1 HK. apply kept_ftrunc; [lia..|done].
      * intros d1 Hl HK. apply kept_extend; [lia|done..].
      * intros d' w2 H2 HK L'. apply (HQ1 _ ps); [|lia].
        assert (put_records ps d' recs = D0) as <-; [|done].
        eapply (put_records_restores ps N); [lia|done|done| |done..]. by eapply journal_of_ok.
    + intros w' H'. apply HQ. eapply rolled_mono; [|exact H']. intros df Hv v Ht. split; [done|]. right. exists N, recs. split_and!; try done.
      eapply kept_torn; [lia|by apply page_size_sectors|done|done].
Qed.

End recover.

(** ** Crashes *)

(** What a crash makes of the database and of the journal.  The database may
    be torn; the sectors of the journal are written in one piece, none is left
    that looks like a header and is not, and the last bytes do not look like
    those behind the name of a master journal.  A journal whose entry in the
    directory was not synced may be gone, one that was deleted may be back. *)
Definition journal_crash (jf : dfile) (f : list Z) : Prop :=
  atomic_crash jf f /\ unforged aJournalMagic jf f /\ no_master f.

Inductive crashed : dfile * jfile -> list Z -> option (list Z) -> Prop :=
| crashed_none d d' : torn_crash d d' -> crashed (d, JNone) d' None
| crashed_live d d' jf nm f : torn_crash d d' -> journal_crash jf f -> crashed (d, JLive jf nm) d' (Some f)
| crashed_unnamed d d' jf : torn_crash d d' -> crashed (d, JLive jf false) d' None
| crashed_gone d d' jf : torn_crash d d' -> crashed (d, JGone jf) d' None
| crashed_back d d' jf f : torn_crash d d' -> journal_crash jf f -> crashed (d, JGone jf) d' (Some f).

(** Every crash leaves files that [D0] comes back from. *)
Definition survives (ps : Z) (D0 : list Z) (s : dfile * jfile) : Prop :=
  forall d jo, crashed s d jo -> recoverable ps D0 d jo.


(** ** Finding a hot journal *)

(** A process that has the database open and no lock on it. *)
Record idle (ps0 : Z) (p : Pager) : Prop := {
  idle_journal : useJournal p = true;
  idle_mode : journalMode p = PAGER_JOURNALMODE_DELETE;
  idle_excl : exclusiveMode p = false;
  idle_state : state p = PAGER_UNLOCK;
  idle_err : errCode p = SQLITE_OK;
  idle_size : dbSize p = -1;
  idle_ps : pageSize p = ps0;
  idle_ss : sectorSize p = 512;
  idle_tmp : zlen (pTmpSpace p) = ps0;
  idle_open : journalOpen p = false;
  idle_stmt : stmtInUse p = false;
  idle_all : pAll p = ∅;
  idle_lru : lru p = [];
  idle_nref : nRef p = 0;
}.

(** The system is restarted: the files are what the crash left. *)
Definition journal_found (jo : option (list Z)) : jfile :=
  match jo with Some f => JLive (mkDfile f []) true | None => JNone end.

Record restarted (d : list Z) (jo : option (list Z)) (w : world) : Prop := {
  restarted_db : dbf w = mkDfile d [];
  restarted_jrn : jrn w = journal_found jo;
  restarted_io : io w = [];
  restarted_mem : mem w = [];
  restarted_past : past w = [];
}.

Lemma rolled_upd J K d w (g : Pager -> Pager) :
  (forall p, state (g p) = state p /\ errCode (g p) = errCode p /\ exclusiveMode (g p) = exclusiveMode p /\ pAll (g p) = pAll p) ->
  rolled J K d w -> rolled J K d (w <| pgr ::= g |>).
Proof. intros Hg H. destruct (Hg (pgr w)) as (?&?&?&?). destruct H; constructor; cbn; first [done|congruence]. Qed.

Lemma wp_lock lk w (Q : unit -> world -> Prop) E : io w = [] -> Q tt (called w) -> wp (sqlite3OsLock lk) Q E w.
Proof.
  intros Hio H. unfold sqlite3OsLock. apply pwp_bind, wp_os; [|done]. intros _. by apply wp_check_ok.
Qed.

Lemma wp_wait_on_lock busy lk w (Q : unit -> world -> Prop) E : io w = [] ->
  (PAGER_SHARED <=? state (pgr w)) || (dbSize (pgr w) <? 0) = true -> state (pgr w) < lk ->
  Q tt (called w <| pgr ::= fun p => p <| state := lk |> |>) -> wp (pager_wait_on_lock busy lk) Q E w.
Proof.
  intros Hio Ha Hlk H. unfold pager_wait_on_lock. apply pwp_bind, pwp_get. apply pwp_bind, wp_asserts; [done|].
  rewrite (proj2 (Z.leb_gt _ _) Hlk), Hio. cbn [length lock_loop]. apply pwp_bind, pwp_bind, wp_code, wp_lock; [done|].
  change (SQLITE_OK =? SQLITE_BUSY) with false. cbn [andb]. apply wp_check_ok. by apply wp_upd.
Qed.

Section shared_lock.
Context (junk : Z -> list Z) (zJournal : list Z) (busy : nat -> bool) (junk_ok : forall n, 0 <= n -> zlen (junk n) = n).
Context (ps ps0 : Z) (D0 d f : list Z) (ps_ok : page_size ps) (ps0_range : 512 <= ps0 <= 32768).
Context (D0_size : zlen D0 < 2 ^ 31 * ps).

Local Notation J := (JLive (mkDfile f []) true).
Local Notation P := (fun df => forall v, torn_crash df v -> recoverable ps D0 v (Some f)).

(** The number of pages, in a process that does not know it. *)
Lemma wp_pagecount w (Q : Z -> world -> Prop) E : errCode (pgr w) = SQLITE_OK -> dbSize (pgr w) = -1 -> io w = [] ->
  state (pgr w) = PAGER_SHARED -> pageSize (pgr w) = ps0 ->
  (forall n m mx, (n = 0 <-> zlen (now (dbf w)) = 0) ->
     Q n (called w <| pgr ::= fun p => p <| dbSize := m |> <| mxPgno := mx |> |>)) ->
  wp sqlite3PagerPagecount Q E w.
Proof.
  intros He Hd Hio Hst Hp HQ. unfold sqlite3PagerPagecount. apply pwp_bind, wp_pager. rewrite He, Hd.
  cbn [negb Z.eqb Z.leb Z.compare SQLITE_OK]. unfold SQLITE_OK in *. cbn [negb Z.eqb].
  apply pwp_bind, pwp_bind, wp_attempt. unfold sqlite3OsFileSize. apply pwp_bind, wp_refused; [|done].
  intros _. eapply pwp_bind, wp_content; [done|]. apply pwp_ret. cbn zeta.
  set (L := zlen (now (dbf w))). pose proof (zlen_nonneg (now (dbf w))).
  set (n := if (0 <? L) && (L <? pageSize (pgr w)) then 1 else Z.quot L (pageSize (pgr w))).
  assert (Hn : 0 <= n /\ (n = 0 <-> L = 0)).
  { subst n. rewrite Hp. destruct (Z.ltb_spec 0 L), (Z.ltb_spec L ps0); cbn [andb]; rewrite ?Z.quot_div_nonneg by lia.
    - lia.
    - pose proof (Z.div_le_lower_bound L ps0 1). lia.
    - replace L with 0 by lia. done.
    - lia. }
  change (now (dbf (called w))) with (now (dbf w)). fold L n. rewrite Hst. cbn [negb when Z.eqb].
  change (negb (PAGER_SHARED =? PAGER_UNLOCK)) with true. cbn [when].
  apply pwp_bind, wp_upd, pwp_ret. cbn [mret].
  set (n' := if n =? PENDING_BYTE / pageSize (pgr w) then n + 1 else n).
  assert (Hn' : n' = 0 <-> L = 0).
  { subst n'. destruct (Z.eqb_spec n (PENDING_BYTE / pageSize (pgr w))) as [E1|]; [|lia].
    rewrite Hp in E1. assert (0 < PENDING_BYTE / ps0) by (apply Z.div_str_pos; unfold PENDING_BYTE; lia). lia. }
  apply pwp_bind, wp_when_upd. apply pwp_ret.
  specialize (HQ n' n (if mxPgno (pgr w) <? n' then n' else mxPgno (pgr w)) Hn').
  change (mxPgno _) with (mxPgno (pgr w)). change (zlen (now (dbf (w <| io ::= tail |>)))) with L.
  fold n n'. revert HQ. clear. destruct w as [p]. destruct p. cbn. by destruct (_ <? n').
Qed.

Lemma hot_ready K0 w : idle ps0 (pgr w) -> restarted d (Some f) w -> K0 d ->
  forall (w1 : world) m mx, pgr w1 = pgr w <| dbSize := m |> <| mxPgno := mx |> <| state := PAGER_EXCLUSIVE |>
    <| journalOpen := true |> <| journalStarted := false |> <| journalOff := 0 |> <| setMaster := false |> <| journalHdr := 0 |> ->
  dbf w1 = dbf w -> jrn w1 = jrn w -> past w1 = past w -> io w1 = [] -> mem w1 = [] -> hot J f K0 d ps0 w1.
Proof.
  intros Hi Hr HK w1 m mx Ep Ed Ej Epast Eio Em. destruct Hi, Hr. constructor; rewrite ?Ep; cbn; try done.
  - by rewrite Ej.
  - unfold file_of. by rewrite Ej, restarted_jrn0.
  - by rewrite Ed, restarted_db0.
  - rewrite Ed, restarted_db0. by intros v ->%list_elem_of_singleton.
  - by rewrite Epast, restarted_past0.
Qed.

Lemma wp_hot_journal w (Q : Z -> world -> Prop) E : pgr w = pgr w -> useJournal (pgr w) = true ->
  errCode (pgr w) = SQLITE_OK -> dbSize (pgr w) = -1 -> io w = [] -> state (pgr w) = PAGER_SHARED -> pageSize (pgr w) = ps0 ->
  dbf w = mkDfile d [] -> jrn w = J ->
  (zlen d <> 0 -> forall m mx, Q 1 (w <| io := [] |> <| pgr ::= fun p => p <| dbSize := m |> <| mxPgno := mx |> |>)) ->
  (zlen d = 0 -> forall m mx, Q 0 (w <| io := [] |> <| pgr ::= fun p => p <| dbSize := m |> <| mxPgno := mx |> |>
      <| past ::= cons (dbf w, jrn w) |> <| jrn := JGone (mkDfile f []) |>)) ->
  wp (hasHotJournal zJournal) Q E w.
Proof.
  intros _ Hu He Hd Hio Hst Hp Edb Ej HQ1 HQ0. unfold hasHotJournal. apply pwp_bind, wp_pager. rewrite Hu. cbn [negb].
  apply pwp_bind. unfold sqlite3OsAccess. apply pwp_bind, wp_refused; [|done]. intros _.
  apply pwp_bind, pwp_get. rewrite bool_decide_true by done. apply pwp_bind. unfold journal_exists. apply pwp_bind, pwp_get, pwp_ret.
  set (w1 := w <| io ::= tail |>). assert (E1 : w1 = w <| io := [] |>) by (subst w1; destruct w; cbn in *; by subst).
  change (jrn w1) with (jrn w). rewrite Ej. cbn [negb andb]. apply pwp_ret. cbn [Z.leb Z.compare].
  assert (Hio1 : io w1 = []) by (by rewrite E1). rewrite E1 in *. clear w1 E1.
  apply pwp_bind, wp_os; [|done]. intros _. rewrite Z.eqb_refl. cbn [negb].
  change (w <| io := [] |> <| io ::= tail |>) with (w <| io := [] |>).
  apply pwp_bind, wp_pagecount; [done..|]. intros n m mx Hn. change (dbf (w <| io := [] |>)) with (dbf w) in Hn.
  rewrite Edb in Hn. cbn [now] in Hn. change (called (w <| io := [] |>)) with (w <| io := [] |>).
  destruct (Z.eqb_spec n 0) as [E0|E0].
  - apply pwp_bind, wp_code. unfold delete_journal. apply pwp_bind, wp_refused; [|done]. intros _.
    apply pwp_bind, pwp_get. cbn. rewrite Ej. apply pwp_ret. exact (HQ0 (proj1 Hn E0) m mx).
  - apply pwp_ret. apply HQ1. lia.
Qed.

Lemma wp_pagerSharedLock w (Q : unit -> world -> Prop) E : idle ps0 (pgr w) -> restarted d (Some f) w ->
  recoverable ps D0 d (Some f) -> (forall w', rolled J P D0 w' -> Q tt w') ->
  wp (pagerSharedLock junk zJournal busy) Q E w.
Proof.
  intros Hi Hr Hrec HQ. pose proof (restarted_io _ _ _ Hr) as Hio.
  unfold pagerSharedLock. apply pwp_bind, wp_pager. rewrite (idle_excl _ _ Hi). cbn [andb when].
  apply pwp_bind, pwp_ret. apply pwp_bind, wp_pager. rewrite (idle_err _ _ Hi), (idle_state _ _ Hi).
  cbn [negb andb orb Z.eqb]. change (SQLITE_OK =? SQLITE_OK) with true. change (PAGER_UNLOCK =? PAGER_UNLOCK) with true.
  cbn [negb andb orb]. apply pwp_bind, wp_asserts; [by rewrite (idle_nref _ _ Hi)|].
  apply pwp_bind, wp_code, wp_wait_on_lock; [done|by rewrite (idle_size _ _ Hi), orb_true_r|by rewrite (idle_state _ _ Hi)|].
  change (SQLITE_OK =? SQLITE_OK) with true. cbn [negb].
  name_world w1. apply pwp_bind, wp_pager. apply pwp_bind, wp_asserts; [done|]. apply pwp_bind, wp_code.
  apply pwp_bind, wp_hot_journal; try (destruct Hi, Hr; cbn; first [done|by rewrite restarted_io0]).
  - intros _ m mx. cbn [Z.ltb Z.compare when]. apply pwp_bind, pwp_ret. cbn [Z.eqb Pos.eqb orb when].
    name_world w2. apply pwp_bind. unfold play_hot_journal. apply pwp_bind, wp_pager.
    change (state (pgr w2) <? EXCLUSIVE_LOCK) with true. cbn iota.
    apply pwp_bind. apply pwp_bind, wp_code, wp_lock; [done|].
    change (SQLITE_OK =? SQLITE_OK) with true. cbn [negb when]. apply pwp_bind, pwp_ret. apply pwp_bind, wp_check_ok. apply pwp_bind, wp_upd, pwp_ret.
    name_world w3.
    apply pwp_bind. unfold open_hot_journal. apply pwp_bind, wp_pager.
    assert (E3 : journalOpen (pgr w3) = false) by apply Hi. rewrite E3. cbn [negb andb].
    apply pwp_bind. apply wp_code, pwp_bind. unfold sqlite3OsAccess. apply pwp_bind, wp_refused; [|done]. intros _.
    apply pwp_bind, pwp_get. rewrite bool_decide_true by done. apply pwp_bind. unfold journal_exists. apply pwp_bind, pwp_get, pwp_ret.
    change (w3 <| io ::= tail |>) with w3. assert (Ej3 : jrn w3 = J) by apply Hr. rewrite Ej3. cbn [negb andb].
    apply pwp_ret. cbn [Z.eqb Pos.eqb]. unfold open_journal. apply pwp_bind, wp_refused; [|done]. intros _.
    change (w3 <| io ::= tail |>) with w3. apply pwp_bind, pwp_get. rewrite Ej3. apply pwp_ret. cbn [negb Z.eqb].
    change (SQLITE_OK =? SQLITE_OK) with true. cbn [negb andb]. apply wp_check_ok.
    apply pwp_bind, wp_upd. name_world w4.
    apply pwp_bind, wp_code. eapply (wp_playback_recovers junk zJournal junk_ok ps D0 f (mkDfile f []) true ps_ok D0_size d ps0);
      [exact Hrec| |exact ps0_range|].
    { intros K0 HK0. apply (hot_ready K0 w Hi Hr HK0 w4 m mx); try reflexivity. apply Hr. }
    intros w5 H5. change (SQLITE_OK =? SQLITE_OK) with true. cbn [negb when]. apply pwp_bind, pwp_ret. apply pwp_bind, wp_check_ok.
    apply pwp_bind, wp_pager. apply wp_asserts; [by rewrite (rolled_state _ _ _ _ H5)|].
    apply pwp_bind, wp_pager. rewrite bool_decide_true by apply H5. cbn [negb when]. apply pwp_bind, pwp_ret.
    apply pwp_bind, wp_pager. apply pwp_bind, wp_asserts; [by rewrite (rolled_excl _ _ _ _ H5), (rolled_state _ _ _ _ H5)|].
    rewrite (rolled_state _ _ _ _ H5). change (PAGER_SHARED =? PAGER_UNLOCK) with false. cbn [when]. apply pwp_ret.
    change (SQLITE_OK =? SQLITE_OK) with true. cbn [negb when]. apply pwp_bind, pwp_ret, wp_check_ok. by apply HQ.
  - intros Hd0 m mx. cbn [Z.ltb Z.compare when]. apply pwp_bind, pwp_ret. cbn [Z.eqb orb when]. apply pwp_bind, pwp_ret.
    name_world w2.
    assert (H2 : forall w3, w3 = w2 <| pgr ::= fun p => p <| state := PAGER_SHARED |> |> -> rolled J P D0 w3).
    { intros w3 ->. assert (Ed : d = []) by (destruct d; [done|unfold zlen in Hd0; cbn in Hd0; lia]).
      assert (E0 : D0 = []).
      { destruct Hrec as [_ [[E0 _]|(N & recs & L0 & _ & _ & [Hk _])]]; [congruence|].
        pose proof (page_size_range ps ps_ok). pose proof (zlen_nonneg D0).
        assert (N = 0) as -> by nia. destruct D0; [done|]. rewrite zlen_cons in *. pose proof (zlen_nonneg l). lia. }
      destruct Hi, Hr. constructor; cbn; try done.
      - by eexists.
      - rewrite restarted_db0. cbn. congruence.
      - rewrite restarted_past0, restarted_db0, restarted_jrn0. constructor; [|done]. split; [done|].
        intros v ->%torn_crash_sync. done. }
    apply pwp_bind, wp_pager. rewrite bool_decide_true by apply Hi. cbn [negb when]. apply pwp_bind, pwp_ret.
    apply pwp_bind, wp_pager. change (state (pgr w2)) with PAGER_SHARED.
    assert (Ex : exclusiveMode (pgr w2) = false) by apply Hi. rewrite Ex. apply pwp_bind, wp_asserts; [done|].
    change (PAGER_SHARED =? PAGER_UNLOCK) with false. cbn [when]. apply pwp_ret.
    change (SQLITE_OK =? SQLITE_OK) with true. cbn [negb when]. apply pwp_bind, pwp_ret, wp_check_ok. apply HQ, H2.
    subst w2. by destruct w.
Qed.
End shared_lock.

(** A process that finds no journal. *)
Lemma wp_sharedLock_no_journal junk zJournal busy ps0 d w (Q : unit -> world -> Prop) E : idle ps0 (pgr w) -> restarted d None w ->
  (forall w', dbf w' = dbf w -> jrn w' = JNone -> past w' = past w -> state (pgr w') = PAGER_SHARED -> Q tt w') ->
  wp (pagerSharedLock junk zJournal busy) Q E w.
Proof.
  intros Hi Hr HQ. pose proof (restarted_io _ _ _ Hr) as Hio. pose proof (restarted_jrn _ _ _ Hr) as Hj. cbn in Hj.
  unfold pagerSharedLock. apply pwp_bind, wp_pager. rewrite (idle_excl _ _ Hi). cbn [andb when].
  apply pwp_bind, pwp_ret. apply pwp_bind, wp_pager. rewrite (idle_err _ _ Hi), (idle_state _ _ Hi).
  change (SQLITE_OK =? SQLITE_OK) with true. change (PAGER_UNLOCK =? PAGER_UNLOCK) with true.
  cbn [negb andb orb]. apply pwp_bind, wp_asserts; [by rewrite (idle_nref _ _ Hi)|].
  apply pwp_bind, wp_code, wp_wait_on_lock; [done|by rewrite (idle_size _ _ Hi), orb_true_r|by rewrite (idle_state _ _ Hi)|].
  change (SQLITE_OK =? SQLITE_OK) with true. cbn [negb]. name_world w1.
  apply pwp_bind, wp_pager. apply pwp_bind, wp_asserts; [done|]. apply pwp_bind, wp_code, pwp_bind. unfold hasHotJournal. apply pwp_bind, wp_pager.
  assert (Eu : useJournal (pgr w1) = true) by apply Hi. rewrite Eu. cbn [negb].
  apply pwp_bind. unfold sqlite3OsAccess. apply pwp_bind, wp_refused; [|by cbn; rewrite Hio].
  intros _. apply pwp_bind, pwp_get. rewrite bool_decide_true by done. apply pwp_bind. unfold journal_exists. apply pwp_bind, pwp_get, pwp_ret.
  change (jrn (w1 <| io ::= tail |>)) with (jrn w). rewrite Hj. cbn [negb andb]. apply pwp_ret. cbn [Z.leb Z.compare]. apply pwp_ret.
  cbn [Z.ltb Z.compare Z.eqb orb when]. apply pwp_bind, pwp_ret, pwp_bind, pwp_ret, pwp_bind, wp_pager.
  rewrite bool_decide_true by apply Hi. cbn [negb when]. apply pwp_bind, pwp_ret, pwp_bind, wp_pager.
  apply pwp_bind, wp_asserts; [by apply orb_true_r|]. apply pwp_ret. change (SQLITE_OK =? SQLITE_OK) with true. cbn [negb when].
  apply pwp_bind, pwp_ret, wp_check_ok. by apply HQ.
Qed.

(** Both. *)
Lemma sharedLock_restores junk zJournal busy ps ps0 D0 d jo w : (forall n, 0 <= n -> zlen (junk n) = n) ->
  page_size ps -> 512 <= ps0 <= 32768 -> zlen D0 < 2 ^ 31 * ps -> idle ps0 (pgr w) -> restarted d jo w -> recoverable ps D0 d jo ->
  wp (pagerSharedLock junk zJournal busy)
    (fun _ w' => now (dbf w') = D0 /\ state (pgr w') = PAGER_SHARED /\ (jrn w' = JNone \/ exists jf, jrn w' = JGone jf) /\
       Forall (survives ps D0) (past w')) (fun _ _ => False) w.
Proof.
  intros Hjunk Hps Hps0 HD Hi Hr Hrec. destruct jo as [f|].
  - eapply (wp_pagerSharedLock junk zJournal busy Hjunk ps ps0 D0 d f); [done..|]. intros w' H. destruct H.
    split_and!; [done|done|by right|]. eapply Forall_impl; [done|].
    intros [d1 j1] [Ej Hv] d2 jo Hc. cbn in *. subst j1. inversion Hc; subst.
    match goal with H : journal_crash _ _ |- _ => destruct H as [->%atomic_crash_sync _] end. by apply Hv.
  - eapply wp_sharedLock_no_journal; [done..|]. intros w' Ed Ej Ep Es. rewrite Ed, Ep, (restarted_past _ _ _ Hr), (restarted_db _ _ _ Hr).
    split_and!; [exact Hrec|done|by left|done].
Qed.

(** C4: A process that takes the shared lock after a crash has the database as
    it was before the transaction: pagerSharedLock finds the hot journal if
    there is one, plays all its segments back, restores the size of the file
    and deletes the journal.  It does so without an error from all files that
    recoverable describes, whatever page size the process had assumed; and
    should the system crash again while it writes, the files can still be
    recovered from, at every step before the journal is gone. *)
Theorem pagerSharedLock_recovers junk zJournal busy ps ps0 D0 d jo w : (forall n, 0 <= n -> zlen (junk n) = n) ->
  page_size ps -> 512 <= ps0 <= 32768 -> zlen D0 < 2 ^ 31 * ps ->
  idle ps0 (pgr w) -> restarted d jo w -> recoverable ps D0 d jo ->
  exists w', pagerSharedLock junk zJournal busy w = Ret (w', inr tt) /\
    now (dbf w') = D0 /\ state (pgr w') = PAGER_SHARED /\ (jrn w' = JNone \/ exists jf, jrn w' = JGone jf) /\
    Forall (survives ps D0) (past w').
Proof.
  intros Hjunk Hps Hps0 HD Hi Hr Hrec.
  destruct (wp_res _ _ _ _ (sharedLock_restores junk zJournal busy ps ps0 D0 d jo w Hjunk Hps Hps0 HD Hi Hr Hrec))
    as [(w' & [] & E & H)|(? & ? & _ & [])].
  by exists w'.
Qed.

(** ** A crash and what follows *)

Lemma idle_opened ps0 : 0 <= ps0 -> idle ps0 (pager_opened ps0).
Proof. intros H. constructor; try done. unfold pager_opened, zlen. cbn. rewrite length_replicate. lia. Qed.

(** A process that has just opened the files. *)
Definition opened_world (ps : Z) (d : list Z) (jo : option (list Z)) (io : list (Z * Z)) : world :=
  mkWorld (pager_opened ps) (mkDfile d []) (journal_found jo) [] [] ∅ io [] [7; 9; 11].

(** A database of three pages; the second was changed, the third is gone, when
    the system crashed.  The journal has both. *)
Definition crash_page (b : Z) : list Z := replicate 512 b.
Definition crash_original : list Z := crash_page 1 ++ crash_page 2 ++ crash_page 3.
Definition crash_database : list Z := crash_page 1 ++ crash_page 22.
Definition crash_records : list (Z * list Z) := [(3, crash_page 3); (2, crash_page 2)].
Definition crash_journal : list Z :=
  header_bytes 2 77 3 (sqlite3Put4byte 512) ++ replicate 484 0 ++ records_bytes 77 512 crash_records.

Lemma pagerSharedLock_recovers_witness : exists w',
  pagerSharedLock (fun n => replicate (Z.to_nat n) 170) [106] (fun _ => false) (opened_world 1024 crash_database (Some crash_journal) []) =
    Ret (w', inr tt) /\
  now (dbf w') = crash_original /\ state (pgr w') = PAGER_SHARED /\ (jrn w' = JNone \/ exists jf, jrn w' = JGone jf) /\
  Forall (survives 512 crash_original) (past w').
Proof.
  apply (pagerSharedLock_recovers _ _ _ 512 1024 crash_original crash_database (Some crash_journal)).
  - intros n Hn. unfold zlen. rewrite length_replicate. lia.
  - reflexivity.
  - lia.
  - change (1536 < 2 ^ 31 * 512). lia.
  - apply idle_opened. lia.
  - by constructor.
  - split; [intros E; vm_compute in E; discriminate E|]. right. exists 3, crash_records. split_and!.
    + reflexivity.
    + exists 77, crash_records, []. split_and!; try reflexivity; try (vm_compute; congruence).
      * split; [lia|reflexivity].
      * unfold crash_records. repeat constructor; cbn; try lia; try reflexivity; vm_compute; congruence.
      * apply plays_end. left. reflexivity.
    + unfold originals, crash_records. intros r [->|[->|[]%elem_of_nil]%elem_of_cons]%elem_of_cons; reflexivity.
    + split; [intros _; reflexivity|]. intros pg Hpg Hnin. assert (pg = 1) as ->.
      { unfold crash_records in Hnin. cbn in Hnin. rewrite !not_elem_of_cons in Hnin. lia. }
      split; [vm_compute; congruence|reflexivity].
Defined.
