(* ===== verification/PagerLog.v ===== *)
(** * The journal while a transaction runs

    What can be said at any moment of the journal that a transaction writes:
    a part that was synced and counted ([sealed]), and behind it a segment
    whose header still counts no records ([tail_ok]).  Whatever a crash makes
    of the two files, the database comes back ([files_ok_survives]). *)

From S2P Require Import Prelude Varint PageBytes RecordUpdate DiskFile Pager PagerJournal PagerCache PagerWp.
From S2P Require Import PagerPlayback PagerRecovery.

Section log.
Context (ps N0 : Z) (D0 : list Z) (ps_ok : page_size ps) (N0_range : 0 <= N0 < 2 ^ 31) (D0_size : zlen D0 = N0 * ps).

(** The header of the segment behind [b]. *)
Definition open_header (b v : list Z) (ck : Z) : Prop :=
  exists mx pz, fsub v (roundup (zlen b)) 28 = header_bytes 0 ck mx pz /\ is_u32 ck /\ is_u32 mx /\ zlen pz = 4 /\
    harmless ps pz /\ (b = [] -> mx = N0 /\ pz = sqlite3Put4byte ps).

(** [b] is a journal that says [closed] and goes on with what follows it. *)
Definition sealed (b : list Z) (closed : list (Z * list Z)) : Prop :=
  (b = [] /\ closed = []) \/
  (b <> [] /\ forall f rest, fsub f 0 (zlen b) = b -> plays f ps N0 (roundup (zlen b)) rest -> journal_of f ps N0 (closed ++ rest)).

Definition tail_ok (b v : list Z) : Prop :=
  let H := roundup (zlen b) in
  fsub v 0 (zlen b) = b /\
  (H + 512 <= zlen v -> fsub v H 8 = aJournalMagic -> exists ck, open_header b v ck) /\
  rd v (H + 512) <> Some 0xd9.

Definition jlog (jd : dfile) (b : list Z) (closed : list (Z * list Z)) : Prop :=
  sealed b closed /\ zlen b <= zlen (synced jd) /\ forall v, v ∈ versions jd -> tail_ok b v.

Lemma magic_first f off : 0 <= off -> fsub f off 8 = aJournalMagic -> rd f off = Some 0xd9.
Proof.
  intros Ho H. rewrite <- (Z.add_0_r off), <- (fsub_lookup f off 8 0) by lia. by rewrite H.
Qed.

Lemma header_magic n ck mx pz : fsub (header_bytes n ck mx pz) 0 8 = aJournalMagic.
Proof. done. Qed.

Lemma open_header_magic b v ck : open_header b v ck -> fsub v (roundup (zlen b)) 8 = aJournalMagic.
Proof.
  intros (mx & pz & E & _ & _ & Hz & _). pose proof (zlen_nonneg b). destruct (roundup_bounds (zlen b)) as [Hb _]; [lia|].
  rewrite <- (Z.add_0_r (roundup (zlen b))). rewrite <- (fsub_fsub _ _ 28) by lia. by rewrite E.
Qed.

Lemma fsub_length_le f a n b : 0 <= a -> 0 <= n -> fsub f a n = b -> zlen b = n -> a + n <= zlen f \/ n = 0.
Proof.
  intros Ha Hn <- L. destruct (decide (n = 0)); [by right|]. left. apply fsub_zlen_eq; [done|lia|done].
Qed.

Lemma tail_ok_length b v : tail_ok b v -> zlen b <= zlen v.
Proof.
  intros [H _]. pose proof (zlen_nonneg v). destruct (fsub_length_le v 0 (zlen b) b) as [?|?]; [lia|apply zlen_nonneg|done..|lia|lia].
Qed.

(** What plays behind [b] in a file that is like one of the versions there. *)
Lemma tail_plays b f : (512 | roundup (zlen b)) -> 0 <= roundup (zlen b) ->
  (zlen f < roundup (zlen b) + 512 \/ fsub f (roundup (zlen b)) 8 <> aJournalMagic \/
   ((exists ck, open_header b f ck) /\
    (zlen f < roundup (zlen b) + 1024 \/ fsub f (roundup (zlen b) + 512) 8 <> aJournalMagic))) ->
  plays f ps N0 (roundup (zlen b)) [].
Proof.
  intros Hd Hpos [H|[H|[(ck & mx & pz & Eh & Hck & Hmx & Hz & Hh & _) H]]]; [apply plays_end; by left|apply plays_end; by right|].
  assert (Hps : 0 < ps) by (pose proof (page_size_range ps ps_ok); lia).
  destruct (decide (zlen f < roundup (zlen b) + 512)); [apply plays_end; by left|].
  change (@nil (Z * list Z)) with (@nil (Z * list Z) ++ []).
  apply (plays_segment f ps N0 _ ck mx pz [] []); change (zlen (@nil (Z * list Z))) with 0; rewrite ?Z.mul_0_l, ?Z.add_0_r; try done; try lia.
  rewrite roundup_aligned; [apply plays_end; destruct H; [left; lia|by right]|lia|].
  apply Z.divide_add_r; [done|]. by exists 1.
Qed.

Lemma crash_prefix jd b f : zlen b <= zlen (synced jd) -> (forall v, v ∈ versions jd -> tail_ok b v) -> atomic_crash jd f ->
  fsub f 0 (zlen b) = b.
Proof.
  intros Hl Hv [(v & _ & Hvin & _ & Hvl & _) Hs]. pose proof (zlen_nonneg b). pose proof (tail_ok_length b v (Hv v Hvin)).
  apply rd_ext; [by rewrite fsub_zlen by lia|]. rewrite fsub_zlen by lia. intros i Hi.
  rewrite fsub_lookup by lia. cbn [Z.add]. pose proof (Z.div_mod i 512). pose proof (Z.mod_pos_bound i 512).
  destruct (Hs (i / 512)) as (u & Hu & Eu); [apply Z.div_pos; lia|]. rewrite Eu by (unfold SECTOR; lia).
  destruct (Hv u Hu) as [Ep _]. rewrite <- Ep. rewrite fsub_lookup by lia. done.
Qed.

(** A sector of the journal that looks like a header is one of some version. *)
Lemma crash_header magic jd f off : (512 | off) -> 0 <= off -> zlen magic <= 512 -> unforged magic jd f ->
  fsub f off (zlen magic) = magic -> off + 512 <= zlen f ->
  exists v, v ∈ versions jd /\ fsub v off 512 = fsub f off 512 /\ off + 512 <= zlen v.
Proof.
  intros [s ->] Hs Hm Hu H Hl. destruct (Hu s) as (v & Hv & E); [lia|done|unfold SECTOR; lia|].
  unfold sector, SECTOR in E. exists v. split_and!; [done|done|]. apply fsub_zlen_eq; [lia|lia|].
  rewrite E. apply fsub_zlen; lia.
Qed.

Lemma jlog_crash jd b closed f : jlog jd b closed -> journal_crash jd f ->
  (b = [] /\ (zlen f < 512 \/ fsub f 0 8 <> aJournalMagic)) \/ journal_of f ps N0 closed.
Proof.
  intros (Hse & Hl & Hv) (Ha & Hu & _). pose proof (zlen_nonneg b). destruct (roundup_bounds (zlen b)) as [Hb Hd]; [lia|].
  set (H0 := roundup (zlen b)) in *. pose proof (crash_prefix jd b f Hl Hv Ha) as Hpre.
  assert (Hhdr : zlen f < H0 + 512 \/ fsub f H0 8 <> aJournalMagic \/
     ((exists ck, open_header b f ck) /\ (zlen f < H0 + 1024 \/ fsub f (H0 + 512) 8 <> aJournalMagic))).
  { destruct (decide (zlen f < H0 + 512)) as [|Hf]; [by left|]. right.
    destruct (decide (fsub f H0 8 = aJournalMagic)) as [Em|]; [|by left]. right. split.
    - destruct (crash_header aJournalMagic jd f H0) as (v & Hvin & Ev & Lv); [done|lia|done|done|done|lia|].
      destruct (Hv v Hvin) as (_ & Hh & _). destruct Hh as (ck & mx & pz & Eh & Hr); [done| |].
      { rewrite <- Em. eapply (fsub_sub _ _ H0 512); [lia..|done]. }
      exists ck, mx, pz. split; [|done]. rewrite <- Eh. fold H0. eapply (fsub_sub _ _ H0 512); [lia..|done].
    - destruct (decide (zlen f < H0 + 1024)) as [|Hf2]; [by left|]. right. intros Em2.
      destruct (crash_header aJournalMagic jd f (H0 + 512)) as (v & Hvin & Ev & Lv);
        [by apply Z.divide_add_r; [|exists 1]|lia|done|done|done|lia|].
      destruct (Hv v Hvin) as (_ & _ & Hno). apply Hno. fold H0. apply magic_first; [lia|].
      rewrite <- Em2. eapply (fsub_sub _ _ (H0 + 512) 512); [lia..|done]. }
  pose proof (tail_plays b f Hd ltac:(lia) Hhdr) as Hplay.
  destruct Hse as [[-> ->]|[Hne Hse]].
  - destruct (decide (zlen f < 512 \/ fsub f 0 8 <> aJournalMagic)) as [|Hno]; [by left|]. right.
    apply Decidable.not_or in Hno as [Hno1 Hno2]. subst H0. change (roundup (zlen [])) with 0 in *.
    destruct Hhdr as [?|[?|[(ck & mx & pz & Eh & Hck & Hmx & Hz & Hh & Hb0) Hend]]]; [lia|done|].
    destruct Hb0 as [-> ->]; [done|]. exists ck, [], []. change (zlen (@nil (Z * list Z))) with 0.
    rewrite Z.mul_0_l. split_and!; try done; [lia|]. change (roundup (512 + 0)) with 512. apply plays_end.
    destruct Hend; [left; lia|by right].
  - right. rewrite <- (app_nil_r closed). by apply Hse.
Qed.

(** ** Both files *)

Definition untouched (df : dfile) : Prop := forall v, v ∈ versions df -> v = D0.

Definition kept_all (closed : list (Z * list Z)) (df : dfile) : Prop :=
  forall v, v ∈ versions df -> kept ps N0 D0 closed v.

Definition files_ok (df jd : dfile) (nm : bool) (b : list Z) (closed : list (Z * list Z)) : Prop :=
  jlog jd b closed /\ Forall (record_ok ps N0) closed /\ originals ps D0 closed /\ kept_all closed df /\
  (b = [] \/ nm = false -> untouched df).

Lemma untouched_torn df d : untouched df -> torn_crash df d -> d = D0.
Proof. apply versions_torn. Qed.

Lemma kept_all_torn closed df d : kept_all closed df -> torn_crash df d -> kept ps N0 D0 closed d.
Proof.
  intros Hk Ht. pose proof (page_size_range ps ps_ok). eapply kept_torn; [lia|by apply page_size_sectors|exact Ht|done].
Qed.

(** What the journal has to say of itself after a crash. *)
Definition log_ok (df jd : dfile) : Prop := forall f, journal_crash jd f ->
  (untouched df /\ (zlen f < 512 \/ fsub f 0 8 <> aJournalMagic)) \/
  exists recs, journal_of f ps N0 recs /\ originals ps D0 recs /\ kept_all recs df.

Lemma log_ok_recoverable df jd d f : log_ok df jd -> torn_crash df d -> journal_crash jd f -> recoverable ps D0 d (Some f).
Proof.
  intros Hl Ht Hj. split; [apply Hj|]. destruct (Hl f Hj) as [[Hu Hno]|(recs & H1 & H2 & H3)].
  - left. split; [by eapply untouched_torn|done].
  - right. exists N0, recs. split_and!; [done..|by eapply kept_all_torn].
Qed.

Lemma log_ok_survives df jd nm : log_ok df jd -> (nm = false -> untouched df) -> survives ps D0 (df, JLive jd nm).
Proof.
  intros Hl Hn d jo Hc. inversion Hc; subst; [by eapply log_ok_recoverable|]. by eapply untouched_torn; [apply Hn|].
Qed.

Lemma files_ok_log df jd nm b closed : files_ok df jd nm b closed -> log_ok df jd.
Proof.
  intros (Hj & Hr & Ho & Hk & Hu) f Hf. destruct (jlog_crash jd b closed f Hj Hf) as [[Hb Hno]|Hjo].
  - left. split; [apply Hu; by left|done].
  - right. by exists closed.
Qed.

Lemma files_ok_survives df jd nm b closed : files_ok df jd nm b closed -> survives ps D0 (df, JLive jd nm).
Proof.
  intros H. apply log_ok_survives; [by eapply files_ok_log|]. intros Hn. apply H. by right.
Qed.

Lemma untouched_gone df jd : log_ok df jd -> untouched df -> survives ps D0 (df, JGone jd).
Proof.
  intros Hl Hu d jo Hc. inversion Hc; subst; [by eapply untouched_torn|by eapply log_ok_recoverable].
Qed.

Lemma untouched_none df : untouched df -> survives ps D0 (df, JNone).
Proof. intros Hu d jo Hc. inversion Hc; subst. by eapply untouched_torn. Qed.

(** ** Counting the records of the last segment *)

(** The last segment of the journal [F]. *)
Definition open_segment (b F : list Z) (ck : Z) (opened : list (Z * list Z)) : Prop :=
  let H := roundup (zlen b) in
  fsub F 0 (zlen b) = b /\ open_header b F ck /\ zlen F = H + 512 + zlen opened * (ps + 8) /\
  fsub F (H + 512) (zlen opened * (ps + 8)) = records_bytes ck ps opened.

Definition counted (b F : list Z) (opened : list (Z * list Z)) : list Z :=
  fwrite F (roundup (zlen b) + 8) (sqlite3Put4byte (zlen opened)).

Lemma counted_header F ck n mx pz o : 0 <= o -> o + 28 <= zlen F ->
  fsub F o 28 = header_bytes 0 ck mx pz -> zlen pz = 4 ->
  fsub (fwrite F (o + 8) (sqlite3Put4byte n)) o 28 = header_bytes n ck mx pz.
Proof.
  intros Ho Hl H Hz. destruct (header_fields F o 0 ck mx pz Ho Hz H) as (F0 & F1 & F2 & F3 & F4 & F5).
  set (G := fwrite _ _ _). assert (Hf : forall a m, 0 <= a -> 0 <= m -> a + m <= zlen F -> a + m <= o + 8 \/ o + 12 <= a ->
    fsub G a m = fsub F a m).
  { intros. apply fsub_fwrite_other; [lia..|]. rewrite zlen_put4. lia. }
  replace 28 with (8 + (4 + (4 + (4 + (4 + 4))))) by lia. rewrite !fsub_app by lia.
  unfold header_bytes. f_equal; [rewrite Hf by lia; done|]. f_equal.
  { exact (fsub_fwrite_same F (o + 8) (sqlite3Put4byte n) ltac:(lia)). }
  rewrite !Hf by lia.
  replace (o + 8 + 4) with (o + 12) by lia. replace (o + 12 + 4) with (o + 16) by lia.
  replace (o + 16 + 4) with (o + 20) by lia. replace (o + 20 + 4) with (o + 24) by lia. by rewrite F2, F3, F4, F5.
Qed.

Lemma counted_zlen b F ck opened : open_segment b F ck opened -> zlen (counted b F opened) = zlen F.
Proof.
  intros (_ & _ & L & _). pose proof (zlen_nonneg b). destruct (roundup_bounds (zlen b)) as [Hb _]; [lia|].
  pose proof (zlen_nonneg opened). pose proof (page_size_range ps ps_ok).
  unfold counted. rewrite fwrite_zlen by lia. rewrite zlen_put4. nia.
Qed.

Lemma counted_sealed b F ck opened closed : sealed b closed -> open_segment b F ck opened ->
  Forall (record_ok ps N0) opened -> zlen opened < 2 ^ 32 - 1 ->
  sealed (counted b F opened) (closed ++ opened).
Proof.
  intros Hse Hseg Hok Hn. pose proof (counted_zlen b F ck opened Hseg) as LG.
  destruct Hseg as (Hpre & (mx & pz & Eh & Hck & Hmx & Hz & Hh & Hb0) & L & Hrec).
  pose proof (zlen_nonneg b). destruct (roundup_bounds (zlen b)) as [Hb Hd]; [lia|].
  pose proof (page_size_range ps ps_ok). pose proof (zlen_nonneg opened).
  assert (Hz2 : 0 <= zlen opened * (ps + 8)) by nia.
  set (G := counted b F opened) in *. set (o := roundup (zlen b)) in *. right.
  split; [intros E0; rewrite E0 in LG; change (zlen (@nil Z)) with 0 in LG; lia|].
  intros f rest Hf Hplay.
  assert (Lf : zlen F <= zlen f). { destruct (fsub_length_le f 0 (zlen G) G) as [?|?]; [lia|lia|done|done|lia|lia]. }
  assert (Hsub : forall a m, 0 <= a -> 0 <= m -> a + m <= zlen F -> fsub f a m = fsub G a m).
  { intros a m Ha Hm Hl. rewrite <- Hf. rewrite LG. rewrite fsub_fsub by lia. done. }
  assert (Eh' : fsub f o 28 = header_bytes (zlen opened) ck mx pz).
  { rewrite Hsub by lia. apply counted_header; [lia|lia|exact Eh|done]. }
  assert (Hrec' : fsub f (o + 512) (zlen opened * (ps + 8)) = records_bytes ck ps opened).
  { rewrite Hsub by lia. rewrite <- Hrec. apply fsub_fwrite_other; [lia..|]. rewrite zlen_put4. fold o. lia. }
  rewrite LG, L in Hplay.
  rewrite <- app_assoc. destruct Hse as [[-> ->]|[Hne Hse]].
  - destruct Hb0 as [-> ->]; [done|]. exists ck, opened, rest. subst o. change (roundup (zlen [])) with 0 in *.
    split_and!; try done. lia.
  - apply Hse.
    + rewrite Hsub by lia. rewrite <- Hpre at 2. apply fsub_fwrite_other; [lia..|]. fold o. lia.
    + eapply plays_segment; [lia|exact Eh'|done..].
Qed.

(** ** The steps of a transaction *)

Lemma jlog_modified jd b closed v : jlog jd b closed -> tail_ok b v -> jlog (modified v jd) b closed.
Proof.
  intros (H1 & H2 & H3) Hv. split_and!; [done|by rewrite synced_modified|]. intros u [->|Hu]%versions_modified; auto.
Qed.

Lemma jlog_flushed jd b closed : jlog jd b closed -> jlog (flushed jd) b closed.
Proof.
  intros (H1 & H2 & H3). pose proof (H3 (now jd) (now_version jd)) as Hn. split_and!; [done|by apply tail_ok_length|].
  by intros u ->%versions_flushed.
Qed.

Lemma tail_ok_self b : tail_ok b b.
Proof.
  pose proof (zlen_nonneg b). destruct (roundup_bounds (zlen b)) as [Hb Hd]; [lia|]. split_and!; [apply fsub_all|lia|].
  rewrite rd_ge by lia. done.
Qed.

Lemma tail_ok_append b v bs : tail_ok b v -> roundup (zlen b) + 512 <= zlen v ->
  (zlen v = roundup (zlen b) + 512 -> rd bs 0 <> Some 0xd9) -> tail_ok b (fwrite v (zlen v) bs).
Proof.
  clear D0 D0_size.
  intros Ht Hl Hbs. pose proof (tail_ok_length b v Ht). destruct Ht as (H1 & H2 & H3). pose proof (zlen_nonneg b). pose proof (zlen_nonneg bs).
  destruct (roundup_bounds (zlen b)) as [Hb Hd]; [lia|]. rewrite fwrite_append. split_and!.
  - rewrite <- H1 at 2. apply fsub_ext; [lia..|size|lia|]. intros i Hi. apply rd_app_l. lia.
  - intros _ Hm. assert (E : forall m, 0 <= m <= 512 -> fsub (v ++ bs) (roundup (zlen b)) m = fsub v (roundup (zlen b)) m).
    { intros m Hm'. apply fsub_ext; [lia..|size|lia|]. intros i Hi. apply rd_app_l. lia. }
    rewrite E in Hm by lia. destruct H2 as (ck & mx & pz & Eh & Hr); [done|done|]. exists ck, mx, pz. by rewrite E by lia.
  - destruct (decide (zlen v = roundup (zlen b) + 512)) as [Ev|Hne].
    + rewrite <- Ev. rewrite <- (Z.add_0_r (zlen v)). rewrite rd_app_r by lia. by apply Hbs.
    + rewrite rd_app_l by lia. done.
Qed.

(** The header sector, or what was written of it. *)
Lemma tail_ok_header b hdr n ck mx pz : zlen hdr = 512 -> fsub hdr 0 28 = header_bytes 0 ck mx pz -> is_u32 ck -> is_u32 mx ->
  zlen pz = 4 -> harmless ps pz -> (b = [] -> mx = N0 /\ pz = sqlite3Put4byte ps) ->
  tail_ok b (fwrite b (roundup (zlen b)) (take n hdr)).
Proof.
  clear D0 D0_size.
  intros Lh Eh Hck Hmx Hz Hh Hb0. pose proof (zlen_nonneg b). destruct (roundup_bounds (zlen b)) as [Hb Hd]; [lia|].
  assert (Lt : zlen (take n hdr) <= 512) by size. set (v := fwrite _ _ _).
  assert (Lv : zlen v = Z.max (zlen b) (roundup (zlen b) + zlen (take n hdr))) by (apply fwrite_zlen; lia). split_and!.
  - rewrite <- (fsub_all b) at 2. apply fsub_fwrite_other; lia.
  - intros Hl _. assert (Ht : take n hdr = hdr) by (apply take_ge; unfold zlen in *; rewrite length_take in *; lia).
    exists ck, mx, pz. split; [|done]. rewrite <- Eh. subst v. rewrite Ht in *.
    rewrite <- (fsub_fwrite_same b (roundup (zlen b)) hdr) at 2 by lia. rewrite Lh, fsub_fsub by lia. f_equal. lia.
  - rewrite rd_ge by lia. done.
Qed.

Lemma files_ok_journal df jd nm b closed v : files_ok df jd nm b closed -> tail_ok b v -> files_ok df (modified v jd) nm b closed.
Proof. intros (H1 & H2 & H3 & H4 & H5) Hv. split_and!; [by apply jlog_modified|done..]. Qed.

Lemma files_ok_flush df jd nm b closed : files_ok df jd nm b closed -> files_ok df (flushed jd) true b closed.
Proof.
  intros (H1 & H2 & H3 & H4 & H5). split_and!; [by apply jlog_flushed|done..|]. intros [->|?]; [|done]. apply H5. by left.
Qed.

Lemma files_ok_db_flush df jd nm b closed : files_ok df jd nm b closed -> files_ok (flushed df) jd nm b closed.
Proof.
  intros (H1 & H2 & H3 & H4 & H5). split_and!; [done..| |].
  - intros v ->%versions_flushed. apply H4, now_version.
  - intros Hb v ->%versions_flushed. apply H5; [done|apply now_version].
Qed.

(** A page of the database is written: it is in the journal, or was not there. *)
Lemma files_ok_page df jd b closed pg data n : files_ok df jd true b closed -> b <> [] -> zlen data = ps -> 1 <= pg ->
  (pg <= N0 -> pg ∈ closed.*1) ->
  files_ok (modified (fwrite (now df) ((pg - 1) * ps) (take n data)) df) jd true b closed.
Proof.
  intros (H1 & H2 & H3 & H4 & H5) Hb L Hpg Hin. split_and!; [done..| |by intros [?|?]].
  pose proof (page_size_range ps ps_ok). assert (zlen (take n data) <= ps) by size. pose proof (zlen_nonneg (take n data)).
  intros v [->|Hv]%versions_modified; [|by apply H4]. destruct (H4 (now df) (now_version df)) as [K0 K].
  split; [rewrite fwrite_zlen by nia; nia|]. intros q Hq Hnin. destruct (K q Hq Hnin) as [Lq Eq].
  rewrite fwrite_zlen by nia. split; [lia|]. rewrite <- Eq. apply fsub_fwrite_other; [nia..|].
  assert (q <> pg) by (intros ->; apply Hnin, Hin; lia). destruct (decide (q < pg)); [left|right]; nia.
Qed.

(** The record count is written to a journal that is synced: it counts, or it
    does not. *)
Lemma counted_crash b F ck opened f : open_segment b F ck opened -> atomic_crash (mkDfile (counted b F opened) [F]) f ->
  f = F \/ f = counted b F opened.
Proof.
  intros Hseg [(v & v' & Hv & Hv' & Hl) Hs]. pose proof (counted_zlen b F ck opened Hseg) as LG.
  destruct Hseg as (_ & _ & L & _). pose proof (zlen_nonneg b). destruct (roundup_bounds (zlen b)) as [Hb [k Hd]]; [lia|].
  pose proof (page_size_range ps ps_ok). pose proof (zlen_nonneg opened). assert (0 <= zlen opened * (ps + 8)) by nia.
  set (G := counted b F opened) in *. assert (Hvs : forall u, u ∈ versions (mkDfile G [F]) -> u = G \/ u = F).
  { unfold versions. cbn. intros u [->|Hu]%elem_of_cons; [by left|]. apply list_elem_of_singleton in Hu. by right. }
  assert (Lf : zlen f = zlen F) by (destruct (Hvs v Hv) as [->| ->], (Hvs v' Hv') as [->| ->]; lia).
  assert (Hout : forall i, 0 <= i < zlen F -> i / 512 <> k -> rd G i = rd F i).
  { intros i Hi Hk. unfold G, counted. apply fwrite_out; [lia..|]. rewrite zlen_put4.
    pose proof (Z.div_mod i 512). pose proof (Z.mod_pos_bound i 512).
    destruct (decide (i / 512 < k)); [left; lia|]. right. nia. }
  assert (Hsec : forall s, 0 <= s -> exists u, (u = G \/ u = F) /\ forall i, 0 <= i < zlen F -> i / 512 = s -> rd f i = rd u i).
  { intros s Hs0. destruct (Hs s Hs0) as (u & Hu & Eu). exists u. split; [by apply Hvs|]. intros i Hi Es.
    pose proof (Z.div_mod i 512). pose proof (Z.mod_pos_bound i 512). apply Eu; [unfold SECTOR; lia|cbn; lia|lia]. }
  destruct (Hsec k) as (u & Hu & Eu); [nia|].
  assert (E : f = u); [|destruct Hu as [->| ->]; subst; auto].
  apply rd_ext; [destruct Hu as [->| ->]; lia|]. rewrite Lf. intros i Hi.
  destruct (decide (i / 512 = k)) as [Ek|Ek]; [by apply Eu|].
  destruct (Hsec (i / 512)) as (u' & Hu' & Eu'); [apply Z.div_pos; lia|]. rewrite (Eu' i Hi eq_refl).
  pose proof (Hout i Hi Ek). destruct Hu as [->| ->], Hu' as [->| ->]; congruence.
Qed.

Lemma originals_app recs recs' : originals ps D0 recs -> originals ps D0 recs' -> originals ps D0 (recs ++ recs').
Proof. intros H H' r [?|?]%elem_of_app; auto. Qed.

Lemma kept_all_app closed opened df : kept_all closed df -> kept_all (closed ++ opened) df.
Proof.
  intros H v Hv. destruct (H v Hv) as [K0 K]. split; [done|]. intros pg Hpg Hnin. apply K; [done|].
  rewrite fmap_app in Hnin. intros Hin. apply Hnin, elem_of_app. by left.
Qed.

Section count.
Context (df jd : dfile) (b F : list Z) (closed opened : list (Z * list Z)) (ck : Z).
Context (Hfiles : files_ok df (mkDfile F []) true b closed) (Hseg : open_segment b F ck opened).
Context (Hok : Forall (record_ok ps N0) opened) (Hn : zlen opened < 2 ^ 32 - 1) (Ho : originals ps D0 opened).

Lemma counted_files : files_ok df (mkDfile (counted b F opened) []) true (counted b F opened) (closed ++ opened).
Proof.
  destruct Hfiles as (H1 & H2 & H3 & H4 & H5). split_and!.
  - split_and!; [eapply counted_sealed; [apply H1|done..]|done|].
    unfold versions. cbn. intros v ->%list_elem_of_singleton. apply tail_ok_self.
  - by apply Forall_app.
  - by apply originals_app.
  - by apply kept_all_app.
  - intros [E|?]; [|done]. destruct (counted_sealed b F ck opened closed) as [[_ E2]|[Hne _]]; [apply H1|done..| |done].
    apply app_eq_nil in E2 as [-> ->]. destruct (proj1 Hseg). pose proof (counted_zlen b F ck [] Hseg) as L.
    destruct Hseg as (_ & _ & L2 & _). pose proof (zlen_nonneg b). destruct (roundup_bounds (zlen b)) as [Hb _]; [lia|].
    rewrite E in L. change (zlen (@nil (Z * list Z))) with 0 in L2. change (zlen (@nil Z)) with 0 in L. lia.
Qed.

Lemma counted_log : log_ok df (mkDfile (counted b F opened) [F]).
Proof.
  intros f (Ha & Hu & Hm). destruct (counted_crash b F ck opened f Hseg Ha) as [->| ->].
  - apply (files_ok_log df (mkDfile F []) true b closed Hfiles). split_and!; [|by intros s _ _ _; exists F; split; [left|]|done].
    split; [exists F, F; split_and!; [left|left|done|done]|]. intros s Hs. exists F. split; [left|done].
  - right. exists (closed ++ opened). pose proof counted_files as (Hj & _ & H3 & H4 & _). split_and!; [|done..].
    destruct (jlog_crash _ _ _ (counted b F opened) Hj) as [[E _]|?]; [| |done].
    + split_and!; [|by intros s _ _ _; exists (counted b F opened); split; [left|]|done].
      split; [exists (counted b F opened), (counted b F opened); split_and!; [left|left|done|done]|].
      intros s Hs. exists (counted b F opened). split; [left|done].
    + exfalso. pose proof (counted_zlen b F ck opened Hseg) as L. destruct Hseg as (_ & _ & L2 & _). pose proof (zlen_nonneg b).
      destruct (roundup_bounds (zlen b)) as [Hb _]; [lia|]. pose proof (zlen_nonneg opened). pose proof (page_size_range ps ps_ok).
      rewrite E in L. change (zlen (@nil Z)) with 0 in L. nia.
Qed.
End count.

End log.
