(* ===== verification/PagerPages.v ===== *)
(** * The pages of the cache

    What holds of the cache at any time ([cache]): what each page says ([L]),
    that the file says it too unless the page is dirty, and that the LRU list,
    the list of dirty pages and the count of pages in use are what the pages
    make them. *)

From S2P Require Import Prelude Varint PageBytes RecordUpdate DiskFile Pager PagerJournal PagerCache PagerPlayback.

Section pages.
Context (ps : Z) (ps_pos : 0 < ps).
Implicit Types (L : Z -> list Z) (d : list Z) (p : Pager) (x : PgHdr) (pg : Z).

(** The numbers that a page can have. *)
Definition valid pg : Prop := 1 <= pg <= PAGER_MAX_PGNO /\ pg <> PENDING_BYTE / ps + 1.

(** A page as it is read from a file: zeros behind its end. *)
Definition fpage d pg : list Z := page_at ps d pg ++ replicate (Z.to_nat (ps - zlen (page_at ps d pg))) 0.

Definition page_ok L pg x : Prop :=
  valid pg /\ zlen (pData x) = ps /\ pData x = L pg /\ needRead x = false /\ pg_alwaysRollback x = false /\ 0 <= pg_nRef x.

Definition lru_ok p : Prop :=
  NoDup (lru p) /\ (forall pg, pg ∈ lru p <-> exists x, pAll p !! pg = Some x /\ pg_nRef x = 0) /\
  pFirstSynced p = List.find (is_synced p) (lru p).

Definition dirty_ok p : Prop :=
  NoDup (pDirty p) /\ forall pg, pg ∈ pDirty p <-> exists x, pAll p !! pg = Some x /\ dirty x = true.

Definition refs_ok p : Prop :=
  exists s : gset Z, (forall pg, pg ∈ s <-> exists x, pAll p !! pg = Some x /\ 0 < pg_nRef x) /\ nRef p = Z.of_nat (size s).

Definition cache L d p : Prop :=
  (forall pg x, pAll p !! pg = Some x -> page_ok L pg x) /\
  (forall pg, valid pg -> (forall x, pAll p !! pg = Some x -> dirty x = false) -> L pg = fpage d pg) /\
  lru_ok p /\ dirty_ok p /\ refs_ok p.

Definition held pg p : Prop := exists x, pAll p !! pg = Some x /\ 0 < pg_nRef x.

Lemma fpage_zlen d pg : 1 <= pg -> zlen (fpage d pg) = ps.
Proof.
  intros Hpg. unfold fpage. pose proof (fsub_zlen_le d ((pg - 1) * ps) ps). unfold page_at in *.
  rewrite zlen_app, zlen_replicate. lia.
Qed.

Lemma fpage_in d pg : 1 <= pg -> pg * ps <= zlen d -> fpage d pg = page_at ps d pg.
Proof.
  intros Hpg Hl. unfold fpage. unfold page_at at 2. rewrite fsub_zlen by nia. rewrite Z.sub_diag. cbn. by rewrite app_nil_r.
Qed.

Lemma fpage_past d pg : zlen d <= (pg - 1) * ps -> fpage d pg = replicate (Z.to_nat ps) 0.
Proof.
  intros Hl. unfold fpage, page_at. rewrite fsub_past by lia. rewrite zlen_nil, Z.sub_0_r. done.
Qed.

(** A byte of a page that may lie behind the end. *)
Lemma fpage_rd d pg i : 1 <= pg -> 0 <= i < ps -> rd (fpage d pg) i = Some (default 0 (rd d ((pg - 1) * ps + i))).
Proof.
  intros Hpg Hi. unfold fpage. pose proof (zlen_nonneg d). assert (0 <= (pg - 1) * ps) by nia.
  destruct (decide ((pg - 1) * ps + i < zlen d)) as [Hl|Hl].
  - rewrite rd_app_l by (unfold page_at, fsub; size). unfold page_at. rewrite fsub_lookup by lia.
    destruct (rd_lt d ((pg - 1) * ps + i)) as [b ->]; [lia|done].
  - rewrite (rd_ge d) by lia. cbn. set (a := page_at _ _ _). assert (La : zlen a <= i) by (subst a; unfold page_at, fsub; size).
    replace i with (zlen a + (i - zlen a)) by lia. pose proof (zlen_nonneg a). rewrite rd_app_r by lia.
    unfold rd. rewrite decide_True by lia. apply lookup_replicate. split; [done|]. lia.
Qed.

Lemma fpage_fwrite d pg data pg' : zlen data = ps -> 1 <= pg -> 1 <= pg' ->
  fpage (fwrite d ((pg - 1) * ps) data) pg' = if decide (pg' = pg) then data else fpage d pg'.
Proof.
  intros Ld Hpg Hpg'. apply rd_ext; [case_decide; rewrite ?fpage_zlen; done|]. rewrite fpage_zlen by done. intros i Hi.
  rewrite fpage_rd by done. assert (0 <= (pg - 1) * ps) by nia. assert (0 <= (pg' - 1) * ps) by nia.
  case_decide as E.
  - subst pg'. rewrite fwrite_in by lia. replace ((pg - 1) * ps + i - (pg - 1) * ps) with i by lia.
    destruct (rd_lt data i) as [b ->]; [lia|done].
  - rewrite fpage_rd by done. f_equal. set (j := (pg' - 1) * ps + i).
    assert (Hj : j < (pg - 1) * ps \/ (pg - 1) * ps + zlen data <= j).
    { subst j. rewrite Ld. destruct (decide (pg' < pg)); [left|right]; nia. }
    assert (Hj0 : 0 <= j) by lia. clearbody j.
    destruct (decide (j < zlen d)) as [Hl|Hl]; [by rewrite fwrite_out by lia|]. rewrite (rd_ge d) by lia. cbn.
    destruct Hj as [Hj|Hj].
    + unfold fwrite. rewrite rd_app_l by size. unfold rd. rewrite decide_True by lia.
      rewrite lookup_take_lt by lia. rewrite lookup_app_r by size.
      rewrite lookup_replicate_2 by size. done.
    + rewrite rd_ge; [done|]. rewrite fwrite_zlen by lia. lia.
Qed.

(** ** Lists of page numbers *)

Lemma find_ext {A} (P Q : A -> bool) (l : list A) : (forall a, a ∈ l -> P a = Q a) -> List.find P l = List.find Q l.
Proof.
  induction l as [|a l IH]; intros H; [done|]. cbn. rewrite (H a) by left. destruct (Q a); [done|].
  apply IH. intros b Hb. apply H. by right.
Qed.

Lemma find_head {A} (P : A -> bool) (l : list A) : (forall a, a ∈ l -> P a = true) -> List.find P l = head l.
Proof. destruct l as [|a l]; intros H; [done|]. cbn. by rewrite H by left. Qed.

Lemma find_app {A} (P : A -> bool) (l l' : list A) :
  List.find P (l ++ l') = match List.find P l with Some a => Some a | None => List.find P l' end.
Proof. induction l as [|a l IH]; [done|]. cbn. by destruct (P a). Qed.

Definition without pg (l : list Z) : list Z := List.filter (fun a => negb (a =? pg)) l.

Lemma elem_of_without pg q l : q ∈ without pg l <-> q ∈ l /\ q <> pg.
Proof.
  unfold without. rewrite !list_elem_of_In, filter_In, negb_true_iff. by rewrite Z.eqb_neq.
Qed.

Lemma NoDup_without pg l : NoDup l -> NoDup (without pg l).
Proof. intros H. apply NoDup_ListNoDup, List.NoDup_filter. by apply NoDup_ListNoDup. Qed.

Lemma without_cons pg a l : without pg (a :: l) = if a =? pg then without pg l else a :: without pg l.
Proof. unfold without. cbn. by destruct (a =? pg). Qed.

Lemma without_notin pg l : pg ∉ l -> without pg l = l.
Proof.
  induction l as [|a l IH]; [done|]. intros H. rewrite without_cons. apply not_elem_of_cons in H as [H1 H2].
  destruct (Z.eqb_spec a pg); [congruence|]. f_equal. by apply IH.
Qed.

Lemma without_behind pg l : NoDup l -> forall P : Z -> bool, P pg = true -> List.find P l = Some pg ->
  List.find P (without pg l) = List.find P (behind pg l).
Proof.
  induction 1 as [|a l Ha Hl IH]; intros P Hp Hf; [done|]. rewrite without_cons. cbn in *. destruct (Z.eqb_spec a pg) as [->|Hne]; cbn.
  - by rewrite (without_notin pg l).
  - destruct (P a) eqn:E; [congruence|]. by apply IH.
Qed.

Lemma find_without pg (P : Z -> bool) l : List.find P l <> Some pg -> List.find P (without pg l) = List.find P l.
Proof.
  induction l as [|a l IH]; [done|]. rewrite without_cons. cbn. destruct (P a) eqn:E; destruct (Z.eqb_spec a pg) as [->|Hne]; cbn; rewrite ?E; try done; auto.
Qed.

Lemma find_some_pg (P : Z -> bool) l pg : List.find P l = Some pg -> pg ∈ l /\ P pg = true.
Proof. intros H. apply List.find_some in H as [H1 H2]. split; [by apply list_elem_of_In|done]. Qed.

(** ** Changes of a page *)

Lemma set_page_lookup p pg f q :
  pAll (set_page pg f p) !! q = if decide (q = pg) then f <$> pAll p !! q else pAll p !! q.
Proof.
  unfold set_page. cbn. case_decide as E; [subst; by rewrite lookup_alter_eq|]. by rewrite lookup_alter_ne.
Qed.

Lemma set_page_this p pg x f : pAll p !! pg = Some x -> pAll (set_page pg f p) !! pg = Some (f x).
Proof. intros Hx. rewrite set_page_lookup, decide_True by done. by rewrite Hx. Qed.

Lemma set_page_other p pg f q : q <> pg -> pAll (set_page pg f p) !! q = pAll p !! q.
Proof. intros H. by rewrite set_page_lookup, decide_False. Qed.

Lemma is_synced_ext p p' pg : pAll p' !! pg = pAll p !! pg -> is_synced p' pg = is_synced p pg.
Proof. unfold is_synced. by intros ->. Qed.

(** One page changed, or came, or went. *)
Definition changed pg p p' : Prop := forall q, q <> pg -> pAll p' !! q = pAll p !! q.

Lemma changed_set_page pg f p : changed pg p (set_page pg f p).
Proof. intros q Hq. by apply set_page_other. Qed.

Lemma cache_step L L' d d' p p' pg : cache L d p -> changed pg p p' ->
  (forall q, q <> pg -> valid q -> L' q = L q /\ fpage d' q = fpage d q) ->
  (forall y, pAll p' !! pg = Some y -> page_ok L' pg y) ->
  (valid pg -> (forall y, pAll p' !! pg = Some y -> dirty y = false) -> L' pg = fpage d' pg) ->
  lru_ok p' -> dirty_ok p' -> refs_ok p' -> cache L' d' p'.
Proof.
  intros (H1 & H2 & _) Hch HL Hy Hf H3 H4 H5. split_and!; [| |done..].
  - intros q y Ey. destruct (decide (q = pg)) as [->|Hq]; [by apply Hy|]. rewrite Hch in Ey by done.
    destruct (H1 q y Ey) as (Hv & Hr). destruct (HL q Hq Hv) as [E _]. split; [done|]. by rewrite E.
  - intros q Hv Hq. destruct (decide (q = pg)) as [->|Hne]; [by apply Hf|]. destruct (HL q Hne Hv) as [-> ->].
    apply H2; [done|]. intros x Ex. apply Hq. by rewrite Hch.
Qed.

Lemma others_same pg p p' (P : PgHdr -> Prop) q : changed pg p p' -> q <> pg ->
  (exists y, pAll p' !! q = Some y /\ P y) <-> (exists y, pAll p !! q = Some y /\ P y).
Proof. intros H Hq. by rewrite H. Qed.

Lemma this_page p pg y (P : PgHdr -> Prop) : pAll p !! pg = Some y -> (exists z, pAll p !! pg = Some z /\ P z) <-> P y.
Proof. intros E. rewrite E. naive_solver. Qed.

Lemma no_page p pg (P : PgHdr -> Prop) : pAll p !! pg = None -> (exists z, pAll p !! pg = Some z /\ P z) <-> False.
Proof. intros E. rewrite E. naive_solver. Qed.

(** The lists when the change of a page does not concern them. *)
Section same_lists.
Context (p p' : Pager) (pg : Z) (x y : PgHdr).
Context (Hx : pAll p !! pg = Some x) (Hy : pAll p' !! pg = Some y) (Hch : changed pg p p').

Lemma lru_ok_same : lru p' = lru p -> pFirstSynced p' = pFirstSynced p -> (pg_nRef y = 0 <-> pg_nRef x = 0) ->
  pg_needSync y = pg_needSync x \/ pg_nRef x <> 0 -> lru_ok p -> lru_ok p'.
Proof.
  intros E1 E2 E3 E4 (H1 & H2 & H3). split_and!.
  - by rewrite E1.
  - intros q. rewrite E1, H2. destruct (decide (q = pg)) as [->|Hq]; [|by rewrite (others_same pg p p')].
    by rewrite (this_page p' pg y), (this_page p pg x).
  - rewrite E1, E2, H3. apply find_ext. intros q Hq. destruct (decide (q = pg)) as [->|Hne]; [|by rewrite (is_synced_ext p p') by auto].
    unfold is_synced. rewrite Hx, Hy. destruct E4 as [->|E4]; [done|]. apply H2 in Hq. by rewrite (this_page p pg x) in Hq.
Qed.

Lemma dirty_ok_same : pDirty p' = pDirty p -> dirty y = dirty x -> dirty_ok p -> dirty_ok p'.
Proof.
  intros E1 E2 (H1 & H2). split; [by rewrite E1|]. intros q. rewrite E1, H2.
  destruct (decide (q = pg)) as [->|Hq]; [|by rewrite (others_same pg p p')]. by rewrite (this_page p' pg y), (this_page p pg x), E2.
Qed.

Lemma refs_ok_same : nRef p' = nRef p -> (0 < pg_nRef y <-> 0 < pg_nRef x) -> refs_ok p -> refs_ok p'.
Proof.
  intros E1 E2 (s & H1 & H2). exists s. rewrite E1. split; [|done]. intros q. rewrite H1.
  destruct (decide (q = pg)) as [->|Hq]; [|by rewrite (others_same pg p p')]. by rewrite (this_page p' pg y), (this_page p pg x).
Qed.
End same_lists.

(** A page becomes used, or unused. *)
Lemma refs_ok_gain p p' pg y : changed pg p p' -> pAll p' !! pg = Some y -> 0 < pg_nRef y ->
  (forall x, pAll p !! pg = Some x -> pg_nRef x <= 0) -> nRef p' = nRef p + 1 -> refs_ok p -> refs_ok p'.
Proof.
  intros Hch Hy H0 Hx En (s & H1 & H2). exists ({[pg]} ∪ s). split.
  - intros q. rewrite elem_of_union, elem_of_singleton, H1. destruct (decide (q = pg)) as [->|Hq].
    + rewrite (this_page p' pg y) by done. split; [done|by left].
    + rewrite (others_same pg p p') by done. naive_solver.
  - rewrite size_union, size_singleton; [lia|]. apply disjoint_singleton_l. rewrite H1. intros (x & Ex & H). specialize (Hx x Ex). lia.
Qed.

Lemma refs_ok_lose p p' pg x : changed pg p p' -> pAll p !! pg = Some x -> 0 < pg_nRef x ->
  (forall y, pAll p' !! pg = Some y -> pg_nRef y <= 0) -> nRef p' = nRef p - 1 -> refs_ok p -> refs_ok p'.
Proof.
  intros Hch Hx H0 Hy En (s & H1 & H2). exists (s ∖ {[pg]}). split.
  - intros q. rewrite elem_of_difference, elem_of_singleton, H1. destruct (decide (q = pg)) as [->|Hq].
    + split; [by intros [_ ?]|]. intros (y & Ey & H). specialize (Hy y Ey). lia.
    + rewrite (others_same pg p p') by done. naive_solver.
  - assert (Hin : pg ∈ s) by (apply H1; eauto).
    rewrite size_difference by set_solver. rewrite size_singleton. assert (size s <> 0%nat) by (intros E; apply size_empty_inv in E; set_solver).
    lia.
Qed.

(** A page leaves the LRU list. *)
Lemma lru_ok_remove p p' pg : changed pg p p' -> lru p' = without pg (lru p) -> pFirstSynced p' = pFirstSynced (lruListRemove pg p) ->
  (forall y, pAll p' !! pg = Some y -> pg_nRef y <> 0) -> lru_ok p -> lru_ok p'.
Proof.
  intros Hch E1 E2 Hy (H1 & H2 & H3). split_and!.
  - rewrite E1. by apply NoDup_without.
  - intros q. rewrite E1, elem_of_without, H2. destruct (decide (q = pg)) as [->|Hq].
    + split; [by intros [_ ?]|]. intros (y & Ey & H). by destruct (Hy y Ey).
    + rewrite (others_same pg p p') by done. naive_solver.
  - rewrite E1, E2. rewrite (find_ext (is_synced p') (is_synced p)).
    2: { intros a [_ Ha]%elem_of_without. by apply is_synced_ext, Hch. }
    unfold lruListRemove. cbn. rewrite H3. case_decide as Ed; [|by rewrite find_without].
    apply find_some_pg in Ed as Ed'. symmetry. apply without_behind; [done|apply Ed'|done].
Qed.

(** A page joins it. *)
Lemma lru_ok_add p p' pg y : changed pg p p' -> pAll p' !! pg = Some y -> pg_nRef y = 0 ->
  (forall x, pAll p !! pg = Some x -> pg_nRef x <> 0) -> lru p' = lru p ++ [pg] ->
  pFirstSynced p' = match pFirstSynced p with None => if is_synced p' pg then Some pg else None | Some q => Some q end ->
  lru_ok p -> lru_ok p'.
Proof.
  intros Hch Ey Hy Hx E1 E2 (H1 & H2 & H3).
  assert (Hno : pg ∉ lru p) by (rewrite H2; intros (x & Ex & H); by destruct (Hx x Ex)). split_and!.
  - rewrite E1. apply NoDup_app. split_and!; [done| |apply NoDup_singleton]. intros q Hq ->%list_elem_of_singleton. done.
  - intros q. rewrite E1, elem_of_app, list_elem_of_singleton, H2. destruct (decide (q = pg)) as [->|Hq].
    + rewrite (this_page p' pg y) by done. split; [done|by right].
    + rewrite (others_same pg p p') by done. naive_solver.
  - rewrite E1, E2, find_app, H3. rewrite (find_ext (is_synced p') (is_synced p)).
    2: { intros a Ha. apply is_synced_ext, Hch. intros ->. done. }
    by destruct (List.find _ _).
Qed.

(** ** The operations *)

Lemma lruListAdd_first p q : pFirstSynced (lruListAdd q p) =
  match pFirstSynced p with None => if is_synced p q then Some q else None | Some a => Some a end.
Proof.
  unfold lruListAdd. cbn. destruct (pFirstSynced p) eqn:E; cbn; [by rewrite E|].
  change (is_synced (p <| lru ::= fun l => l ++ [q] |>) q) with (is_synced p q). destruct (is_synced p q); cbn; by rewrite ?E.
Qed.

Lemma lruListAdd_rest p q : exists fs, lruListAdd q p = p <| lru ::= fun l => l ++ [q] |> <| pFirstSynced := fs |>.
Proof.
  unfold lruListAdd. cbn. destruct (pFirstSynced p) eqn:E; [|destruct (is_synced _ q)]; eexists; try done; destruct p; cbn in *; by subst.
Qed.

Section one_page.
Context (L : Z -> list Z) (d : list Z) (p : Pager) (pg : Z) (x : PgHdr).
Context (Hc : cache L d p) (Hx : pAll p !! pg = Some x).

Lemma cache_page : page_ok L pg x.
Proof. by apply Hc. Qed.

Lemma cache_clean : dirty x = false -> L pg = fpage d pg.
Proof.
  intros Hd. apply Hc; [apply cache_page|]. intros y Ey. congruence.
Qed.

(** Changes that keep what the page says. *)
Lemma cache_keep p' y : changed pg p p' -> pAll p' !! pg = Some y ->
  pData y = pData x -> needRead y = needRead x -> pg_alwaysRollback y = pg_alwaysRollback x -> 0 <= pg_nRef y ->
  (dirty y = false -> dirty x = false) -> lru_ok p' -> dirty_ok p' -> refs_ok p' -> cache L d p'.
Proof.
  intros Hch Hy E1 E2 E3 E4 E5. apply (cache_step L L d d p p' pg); [done|done|done| |].
  - intros z Ez. rewrite Hy in Ez. injection Ez as <-. destruct cache_page as (?&?&?&?&?&?).
    unfold page_ok. by rewrite E1, E2, E3.
  - intros Hv Hz. apply cache_clean, E5. by apply Hz.
Qed.

Lemma cache_lru : lru_ok p. Proof. apply Hc. Qed.
Lemma cache_dirty : dirty_ok p. Proof. apply Hc. Qed.
Lemma cache_refs : refs_ok p. Proof. apply Hc. Qed.

(** The flags that only the journal uses. *)
Lemma cache_flags f : pData (f x) = pData x -> needRead (f x) = needRead x -> pg_alwaysRollback (f x) = pg_alwaysRollback x ->
  pg_nRef (f x) = pg_nRef x -> dirty (f x) = dirty x -> pg_needSync (f x) = pg_needSync x \/ 0 < pg_nRef x ->
  cache L d (set_page pg f p).
Proof.
  intros E1 E2 E3 E4 E5 E6. pose proof (set_page_this p pg x f Hx) as Hy. pose proof (changed_set_page pg f p) as Hch.
  apply (cache_keep _ (f x)); try done.
  - rewrite E4. apply cache_page.
  - congruence.
  - eapply (lru_ok_same p _ pg); [exact Hx|exact Hy|done|done|done|by rewrite E4|destruct E6; [by left|right; lia]|apply cache_lru].
  - eapply (dirty_ok_same p _ pg); [exact Hx|exact Hy|done|done|done|apply cache_dirty].
  - eapply (refs_ok_same p _ pg); [exact Hx|exact Hy|done|done|by rewrite E4|apply cache_refs].
Qed.

(** A page that was in the LRU list is in use. *)
Lemma cache_pin : pg_nRef x = 0 ->
  cache L d (set_page pg (fun y => y <| pg_nRef ::= Z.succ |>) (lruListRemove pg p <| nRef ::= Z.succ |>)).
Proof.
  intros Hn. set (p' := set_page _ _ _).
  assert (Hy : pAll p' !! pg = Some (x <| pg_nRef ::= Z.succ |>)) by (by apply set_page_this).
  assert (Hch : changed pg p p') by (intros q Hq; unfold p'; by rewrite set_page_other).
  apply (cache_keep p' _ Hch Hy); try done.
  - cbn. lia.
  - apply (lru_ok_remove p _ pg); [done|done|done| |apply cache_lru]. intros y Ey. rewrite Hy in Ey. injection Ey as <-. cbn. lia.
  - eapply (dirty_ok_same p _ pg); [exact Hx|exact Hy|done|done|done|apply cache_dirty].
  - eapply (refs_ok_gain p _ pg); [done|exact Hy|cbn; lia| |done|apply cache_refs]. intros z Ez. assert (z = x) as -> by congruence. lia.
Qed.

Lemma cache_repin : 0 < pg_nRef x -> cache L d (set_page pg (fun y => y <| pg_nRef ::= Z.succ |>) p).
Proof.
  intros Hn. pose proof (set_page_this p pg x (fun y => y <| pg_nRef ::= Z.succ |>) Hx) as Hy.
  pose proof (changed_set_page pg (fun y => y <| pg_nRef ::= Z.succ |>) p) as Hch.
  apply (cache_keep _ _ Hch Hy); try done.
  - cbn. lia.
  - eapply (lru_ok_same p _ pg); [exact Hx|exact Hy|done|done|done|cbn; lia|by left|apply cache_lru].
  - eapply (dirty_ok_same p _ pg); [exact Hx|exact Hy|done|done|done|apply cache_dirty].
  - eapply (refs_ok_same p _ pg); [exact Hx|exact Hy|done|done|cbn; lia|apply cache_refs].
Qed.

(** A reference is given back. *)
Lemma cache_unref : 1 < pg_nRef x -> cache L d (set_page pg (fun y => y <| pg_nRef ::= Z.pred |>) p).
Proof.
  intros Hn. pose proof (set_page_this p pg x (fun y => y <| pg_nRef ::= Z.pred |>) Hx) as Hy.
  pose proof (changed_set_page pg (fun y => y <| pg_nRef ::= Z.pred |>) p) as Hch.
  apply (cache_keep _ _ Hch Hy); try done.
  - cbn. lia.
  - eapply (lru_ok_same p _ pg); [exact Hx|exact Hy|done|done|done|cbn; lia|by left|apply cache_lru].
  - eapply (dirty_ok_same p _ pg); [exact Hx|exact Hy|done|done|done|apply cache_dirty].
  - eapply (refs_ok_same p _ pg); [exact Hx|exact Hy|done|done|cbn; lia|apply cache_refs].
Qed.

(** The last one. *)
Lemma cache_unpin : pg_nRef x = 1 ->
  cache L d (lruListAdd pg (set_page pg (fun y => y <| pg_nRef ::= Z.pred |>) p) <| nRef ::= Z.pred |>).
Proof.
  intros Hn. set (p1 := set_page _ _ _). destruct (lruListAdd_rest p1 pg) as [fs E1].
  pose proof (lruListAdd_first p1 pg) as Ef. rewrite E1 in *. set (p' := _ <| nRef ::= _ |>).
  assert (Hy : pAll p' !! pg = Some (x <| pg_nRef ::= Z.pred |>)) by (by apply set_page_this).
  assert (Hch : changed pg p p') by (intros q Hq; by apply set_page_other).
  apply (cache_keep p' _ Hch Hy); try done.
  - cbn. lia.
  - eapply (lru_ok_add p p' pg); [done|exact Hy|cbn; lia| |done| |apply cache_lru].
    + intros z Ez. assert (z = x) as -> by congruence. lia.
    + change (pFirstSynced p') with fs. cbn in Ef. rewrite Ef. by rewrite (is_synced_ext p1 p').
  - eapply (dirty_ok_same p _ pg); [exact Hx|exact Hy|done|done|done|apply cache_dirty].
  - eapply (refs_ok_lose p _ pg); [done|exact Hx|lia| |done|apply cache_refs]. intros z Ez. rewrite Hy in Ez. injection Ez as <-. cbn. lia.
Qed.

Lemma cache_makeDirty : cache L d (makeDirty pg p).
Proof.
  unfold makeDirty. rewrite Hx. destruct (dirty x) eqn:Ed; [done|]. set (p' := _ <| pDirty ::= _ |>).
  assert (Hy : pAll p' !! pg = Some (x <| dirty := true |>)) by (by apply (set_page_this p)).
  assert (Hch : changed pg p p') by (intros q Hq; by apply (set_page_other p)).
  apply (cache_keep p' _ Hch Hy); try done.
  - apply cache_page.
  - eapply (lru_ok_same p _ pg); [exact Hx|exact Hy|done|done|done|done|by left|apply cache_lru].
  - destruct cache_dirty as [H1 H2]. assert (El : pDirty p' = pg :: pDirty p) by done. split; rewrite El.
    + constructor; [|done]. rewrite H2, (this_page p pg x) by done. by rewrite Ed.
    + intros q. rewrite elem_of_cons, H2. destruct (decide (q = pg)) as [->|Hq].
      * rewrite (this_page p' pg _ _ Hy). split; [done|by left].
      * rewrite (others_same pg p p') by done. naive_solver.
  - eapply (refs_ok_same p _ pg); [exact Hx|exact Hy|done|done|done|apply cache_refs].
Qed.

(** A page that is dirty gets new content. *)
Lemma cache_data data : dirty x = true -> zlen data = ps ->
  cache (fun q => if decide (q = pg) then data else L q) d (set_page pg (fun y => y <| pData := data |>) p).
Proof.
  intros Hd Ld. pose proof (set_page_this p pg x (fun y => y <| pData := data |>) Hx) as Hy.
  pose proof (changed_set_page pg (fun y => y <| pData := data |>) p) as Hch.
  apply (cache_step L _ d d p _ pg Hc Hch).
  - intros q Hq _. by rewrite decide_False.
  - intros z Ez. rewrite Hy in Ez. injection Ez as <-. destruct cache_page as (?&?&?&?&?&?).
    unfold page_ok. by rewrite decide_True.
  - intros _ H. specialize (H _ Hy). cbn in H. congruence.
  - eapply (lru_ok_same p _ pg); [exact Hx|exact Hy|done|done|done|done|by left|apply cache_lru].
  - eapply (dirty_ok_same p _ pg); [exact Hx|exact Hy|done|done|done|apply cache_dirty].
  - eapply (refs_ok_same p _ pg); [exact Hx|exact Hy|done|done|done|apply cache_refs].
Qed.

(** A page leaves the cache. *)
Lemma cache_evict : pg_nRef x = 0 -> dirty x = false -> cache L d (unlinkPage pg p).
Proof.
  intros Hn Hd. set (p' := unlinkPage pg p).
  assert (Hy : pAll p' !! pg = None) by apply lookup_delete_eq.
  assert (Hch : changed pg p p') by (intros q Hq; by apply lookup_delete_ne).
  apply (cache_step L L d d p p' pg Hc Hch).
  - done.
  - intros y. by rewrite Hy.
  - intros _ _. by apply cache_clean.
  - apply (lru_ok_remove p _ pg); [done|done|done| |apply cache_lru]. intros y. by rewrite Hy.
  - destruct cache_dirty as [H1 H2]. split; [done|]. intros q. change (pDirty p') with (pDirty p). rewrite H2.
    destruct (decide (q = pg)) as [->|Hq]; [|by rewrite (others_same pg p p')].
    rewrite (no_page p' pg _ Hy), (this_page p pg x) by done. by rewrite Hd.
  - destruct cache_refs as (s & H1 & H2). exists s. split; [|done]. intros q. rewrite H1.
    destruct (decide (q = pg)) as [->|Hq]; [|by rewrite (others_same pg p p')].
    rewrite (no_page p' pg _ Hy), (this_page p pg x) by done. lia.
Qed.

(** Dirty pages that were written. *)
Lemma cache_written d' p' : dirty x = true -> changed pg p p' -> pAll p' !! pg = Some (x <| dirty := false |>) ->
  lru p' = lru p -> pFirstSynced p' = pFirstSynced p -> nRef p' = nRef p -> pDirty p' = without pg (pDirty p) ->
  fpage d' pg = pData x -> (forall q, q <> pg -> valid q -> fpage d' q = fpage d q) -> cache L d' p'.
Proof.
  intros Hd Hch Hy E1 E2 E3 E4 Hf Ho. apply (cache_step L L d d' p p' pg Hc Hch).
  - intros q Hq Hv. split; [done|by apply Ho].
  - intros y Ey. rewrite Hy in Ey. injection Ey as <-. apply cache_page.
  - intros _ _. rewrite Hf. symmetry. apply cache_page.
  - eapply (lru_ok_same p _ pg); [exact Hx|exact Hy|done|done|done|done|by left|apply cache_lru].
  - destruct cache_dirty as [H1 H2]. split; [rewrite E4; by apply NoDup_without|]. intros q.
    rewrite E4, elem_of_without, H2. destruct (decide (q = pg)) as [->|Hq].
    + rewrite (this_page p' pg _ _ Hy). cbn. naive_solver.
    + rewrite (others_same pg p p') by done. naive_solver.
  - eapply (refs_ok_same p _ pg); [exact Hx|exact Hy|done|done|done|apply cache_refs].
Qed.

End one_page.

(** A page that was not there is read. *)
Lemma cache_insert L d p pg y : cache L d p -> pAll p !! pg = None -> page_ok L pg y -> dirty y = false ->
  0 < pg_nRef y -> cache L d (p <| nRef ::= Z.succ |> <| pAll ::= insert pg y |>).
Proof.
  intros Hc Hx Hok Hd Hn. set (p' := _ <| pAll ::= _ |>).
  assert (Hy : pAll p' !! pg = Some y) by apply lookup_insert_eq.
  assert (Hch : changed pg p p') by (intros q Hq; by apply lookup_insert_ne).
  apply (cache_step L L d d p p' pg Hc Hch); try done.
  - intros z Ez. by rewrite Hy in Ez; injection Ez as <-.
  - intros Hv _. apply Hc; [done|]. intros z. by rewrite Hx.
  - destruct Hc as (_ & _ & (H1 & H2 & H3) & _). split_and!; [done| |].
    + intros q. change (lru p') with (lru p). rewrite H2. destruct (decide (q = pg)) as [->|Hq]; [|by rewrite (others_same pg p p')].
      rewrite (this_page p' pg _ _ Hy), (no_page p pg _ Hx). lia.
    + change (pFirstSynced p') with (pFirstSynced p). change (lru p') with (lru p). rewrite H3. apply find_ext. intros q Hq.
      symmetry. apply is_synced_ext, Hch. intros ->. apply H2 in Hq. by rewrite (no_page p pg _ Hx) in Hq.
  - destruct Hc as (_ & _ & _ & (H1 & H2) & _). split; [done|]. intros q. change (pDirty p') with (pDirty p). rewrite H2.
    destruct (decide (q = pg)) as [->|Hq]; [|by rewrite (others_same pg p p')].
    rewrite (this_page p' pg _ _ Hy), (no_page p pg _ Hx). by rewrite Hd.
  - eapply (refs_ok_gain p _ pg); [done|exact Hy|done| |done|apply Hc]. intros z. by rewrite Hx.
Qed.

(** The journal was synced: no page waits for it. *)
Lemma cache_synced L d p : cache L d p ->
  cache L d (lruListSetFirstSynced (p <| needSync := false |> <| pAll ::= fmap (fun y => y <| pg_needSync := false |>) |>)).
Proof.
  intros (H1 & H2 & (H3 & H4 & H5) & (H6 & H7) & s & H8 & H9). set (p' := lruListSetFirstSynced _).
  assert (El : forall q, pAll p' !! q = (fun y => y <| pg_needSync := false |>) <$> pAll p !! q) by (intros q; apply lookup_fmap).
  assert (Hs : forall (P : PgHdr -> Prop) q, (forall y, P (y <| pg_needSync := false |>) <-> P y) ->
    (exists y, pAll p' !! q = Some y /\ P y) <-> (exists y, pAll p !! q = Some y /\ P y)).
  { intros P q HP. rewrite El. destruct (pAll p !! q) as [y|]; cbn; [|naive_solver]. split.
    - intros (z & [= <-] & Hz). exists y. split; [done|]. by apply HP.
    - intros (z & [= <-] & Hz). eexists. split; [done|]. by apply HP. }
  split_and!.
  - intros q y Ey. rewrite El in Ey. destruct (pAll p !! q) as [z|] eqn:Ez; [|done]. injection Ey as <-. by apply (H1 q z).
  - intros q Hv Hq. apply H2; [done|]. intros y Ey. specialize (Hq (y <| pg_needSync := false |>)). rewrite El, Ey in Hq. by apply Hq.
  - split_and!; [done| |].
    + intros q. change (lru p') with (lru p). rewrite H4. by rewrite (Hs (fun y => pg_nRef y = 0)).
    + change (pFirstSynced p') with (head (lru p)). change (lru p') with (lru p). symmetry. apply find_head. intros q Hq.
      apply H4 in Hq as (y & Ey & _). unfold is_synced. by rewrite El, Ey.
  - split; [done|]. intros q. change (pDirty p') with (pDirty p). rewrite H7. by rewrite (Hs (fun y => dirty y = true)).
  - exists s. split; [|done]. intros q. rewrite H8. by rewrite (Hs (fun y => 0 < pg_nRef y)).
Qed.

End pages.
