(* ===== verification/PagerTx.v ===== *)
(** * A transaction while it runs

    [tx]: what holds of a process that has begun to write, whatever it did
    since.  Whatever the system answers to its next call, and wherever it
    stops, the files it leaves bring the database back ([safe]). *)

From S2P Require Import Prelude Varint PageBytes RecordUpdate DiskFile Pager PagerJournal PagerCache PagerWp.
From S2P Require Import PagerPlayback PagerRecovery PagerLog PagerPages.

(** What stays the same from the beginning to the end: journals are used,
    synced and deleted, no error has happened. *)
Section conf.
Context (ps : Z).

Definition conf (p : Pager) : Prop :=
  useJournal p = true /\ noSync p = false /\ fullSync p = true /\ readOnly p = false /\
  exclusiveMode p = false /\ journalMode p = PAGER_JOURNALMODE_DELETE /\ errCode p = SQLITE_OK /\ pageSize p = ps /\
  sectorSize p = 512 /\ setMaster p = false /\ doNotSync p = false /\ alwaysRollback p = false /\
  stmtInUse p = false /\ stmtAutoopen p = false /\
  zlen (pTmpSpace p) = ps /\ zlen (dbFileVers p) = 16.

Lemma conf_useJournal p : conf p -> useJournal p = true. Proof. unfold conf. tauto. Qed.
Lemma conf_noSync p : conf p -> noSync p = false. Proof. unfold conf. tauto. Qed.
Lemma conf_fullSync p : conf p -> fullSync p = true. Proof. unfold conf. tauto. Qed.
Lemma conf_readOnly p : conf p -> readOnly p = false. Proof. unfold conf. tauto. Qed.
Lemma conf_exclusiveMode p : conf p -> exclusiveMode p = false. Proof. unfold conf. tauto. Qed.
Lemma conf_journalMode p : conf p -> journalMode p = PAGER_JOURNALMODE_DELETE. Proof. unfold conf. tauto. Qed.
Lemma conf_errCode p : conf p -> errCode p = SQLITE_OK. Proof. unfold conf. tauto. Qed.
Lemma conf_pageSize p : conf p -> pageSize p = ps. Proof. unfold conf. tauto. Qed.
Lemma conf_sectorSize p : conf p -> sectorSize p = 512. Proof. unfold conf. tauto. Qed.
Lemma conf_setMaster p : conf p -> setMaster p = false. Proof. unfold conf. tauto. Qed.
Lemma conf_doNotSync p : conf p -> doNotSync p = false. Proof. unfold conf. tauto. Qed.
Lemma conf_alwaysRollback p : conf p -> alwaysRollback p = false. Proof. unfold conf. tauto. Qed.
Lemma conf_stmtInUse p : conf p -> stmtInUse p = false. Proof. unfold conf. tauto. Qed.
Lemma conf_stmtAutoopen p : conf p -> stmtAutoopen p = false. Proof. unfold conf. tauto. Qed.
Lemma conf_tmp p : conf p -> zlen (pTmpSpace p) = ps. Proof. unfold conf. tauto. Qed.
Lemma conf_vers p : conf p -> zlen (dbFileVers p) = 16. Proof. unfold conf. tauto. Qed.


Lemma conf_tmp_upd p t : conf p -> zlen t = ps -> conf (p <| pTmpSpace := t |>).
Proof. unfold conf. cbn. tauto. Qed.

End conf.

Section tx.
Context (ps N0 : Z) (D0 : list Z) (ps_ok : page_size ps) (N0_range : 0 <= N0 < 2 ^ 31) (D0_size : zlen D0 = N0 * ps).

Local Notation survives := (survives ps D0).
Local Notation files_ok := (files_ok ps N0 D0).
Local Notation cache := (cache ps).

(** ** What holds of the world *)

(** A write of four bytes that fails writes all of them or none, and
    [SQLITE_IOERR_BLOCKED] is a code of the pager's own. *)
Definition io_ok (l : list (Z * Z)) : Prop :=
  Forall (fun c => (c.2 <= 0 \/ 4 <= c.2) /\ c.1 <> SQLITE_IOERR_BLOCKED) l.

(** Every crash, now or at any moment before, can be recovered from. *)
Definition safe (w : world) : Prop := survives (dbf w, jrn w) /\ Forall survives (past w).

Definition env (w : world) : Prop := io_ok (io w) /\ mem w = [] /\ safe w.

Local Notation conf := (conf ps).

(** The first of the files that the process writes next. *)
Definition started (b : list Z) (p : Pager) : Prop := journalStarted p = true <-> b <> [].

(** [e] is a page that is being made ready for writing. *)
Definition running (e : option Z) (p : Pager) : Prop :=
  (state p = PAGER_RESERVED \/ state p = PAGER_EXCLUSIVE) /\ journalOpen p = true /\ origDbSize p = N0 /\
  (e = None -> dirtyCache p = true).

Definition sizes (w : world) : Prop :=
  N0 <= dbSize (pgr w) <= 2 ^ 31 /\ zlen (now (dbf w)) <= dbSize (pgr w) * ps.

(** The journal ends with an open segment. *)
Definition disk (b : list Z) (closed opened : list (Z * list Z)) (w : world) : Prop :=
  exists jd nm ck, jrn w = JLive jd nm /\ files_ok (dbf w) jd nm b closed /\ (b <> [] -> nm = true) /\
    open_segment ps N0 b (now jd) ck opened /\ Forall (record_ok ps N0) opened /\ originals ps D0 opened /\
    journalHdr (pgr w) = roundup (zlen b) /\ journalOff (pgr w) = zlen (now jd) /\ nRec (pgr w) = zlen opened /\
    cksumInit (pgr w) = ck /\ harmless ps (fsub (pTmpSpace (pgr w)) 24 4).

(** All of the journal is synced and counted. *)
Definition disk_sealed (b : list Z) (closed : list (Z * list Z)) (w : world) : Prop :=
  exists jd nm, jrn w = JLive jd nm /\ files_ok (dbf w) jd nm b closed /\ (b <> [] -> nm = true) /\ now jd = b /\
    journalOff (pgr w) = zlen b /\ (b <> [] -> harmless ps (fsub (pTmpSpace (pgr w)) 24 4)).

(** The flags of a page; [e] is one that is being made ready for writing. *)
Definition page_flags (e : option Z) (closed opened : list (Z * list Z)) (p : Pager) (pg : Z) (x : PgHdr) : Prop :=
  (pg_needSync x = true -> needSync p = true) /\
  (inJournal x = true -> (pg <= N0 -> pg ∈ (closed ++ opened).*1) /\ (pg_needSync x = false -> journalStarted p = true)) /\
  (pg ∈ (closed ++ opened).*1 -> inJournal x = true) /\
  (pg ∈ opened.*1 -> pg_needSync x = true) /\
  (e <> Some pg -> dirty x = true -> pg <= dbSize p /\ inJournal x = true /\ dirtyCache p = true).

(** The pages that are in the journal, and the flags that say so. *)
Definition flags (e : option Z) (L : Z -> list Z) (closed opened : list (Z * list Z)) (p : Pager) : Prop :=
  NoDup (closed ++ opened).*1 /\
  (exists s, pInJournal p = Some s /\ forall pg, pg ∈ s <-> pg ∈ (closed ++ opened).*1) /\
  (forall pg x, pAll p !! pg = Some x -> page_flags e closed opened p pg x) /\
  (forall pg, pg ∈ opened.*1 -> is_Some (pAll p !! pg)) /\
  (forall pg, 1 <= pg <= N0 -> pg ∉ (closed ++ opened).*1 -> valid ps pg -> L pg = page_at ps D0 pg).

Definition tx (e : option Z) (b : list Z) (closed opened : list (Z * list Z)) (L : Z -> list Z) (w : world) : Prop :=
  env w /\ conf (pgr w) /\ running e (pgr w) /\ sizes w /\ started b (pgr w) /\ disk b closed opened w /\
  cache L (now (dbf w)) (pgr w) /\ flags e L closed opened (pgr w) /\ held 1 (pgr w).

(** Between two segments. *)
Definition tx_sealed (e : option Z) (b : list Z) (closed : list (Z * list Z)) (L : Z -> list Z) (w : world) : Prop :=
  env w /\ conf (pgr w) /\ running e (pgr w) /\ sizes w /\ started b (pgr w) /\ disk_sealed b closed w /\
  cache L (now (dbf w)) (pgr w) /\ flags e L closed [] (pgr w) /\ held 1 (pgr w).

(** Before the first write. *)
Definition reading (e : option Z) (L : Z -> list Z) (w : world) : Prop :=
  env w /\ conf (pgr w) /\ state (pgr w) = PAGER_SHARED /\ journalOpen (pgr w) = false /\ pInJournal (pgr w) = None /\
  (needSync (pgr w) = false /\ dirtyCache (pgr w) = false) /\ jrn w = JNone /\ dbf w = mkDfile D0 [] /\ (dbSize (pgr w) = -1 \/ dbSize (pgr w) = N0) /\
  cache L D0 (pgr w) /\ (forall pg, valid ps pg -> L pg = fpage ps D0 pg) /\
  (forall pg x, pAll (pgr w) !! pg = Some x -> (e <> Some pg -> dirty x = false) /\ pg_needSync x = false /\ inJournal x = false) /\
  held 1 (pgr w).

(** What the journal's own steps leave alone. *)
Definition same_pages (w w' : world) : Prop :=
  pAll (pgr w') = pAll (pgr w) /\ lru (pgr w') = lru (pgr w) /\ pFirstSynced (pgr w') = pFirstSynced (pgr w) /\
  pDirty (pgr w') = pDirty (pgr w) /\ dbSize (pgr w') = dbSize (pgr w) /\ dirtyCache (pgr w') = dirtyCache (pgr w) /\
  dbFileVers (pgr w') = dbFileVers (pgr w) /\ changeCountDone (pgr w') = changeCountDone (pgr w) /\
  state (pgr w') = state (pgr w) /\ nPage (pgr w') = nPage (pgr w) /\ dbf w' = dbf w.

(** ** Changes of the files *)

Lemma safe_files d j w w' : safe w -> survives (d, j) -> dbf w' = d -> jrn w' = j -> past w' = (dbf w, jrn w) :: past w -> safe w'.
Proof. intros [H1 H2] H E1 E2 E3. split; [by rewrite E1, E2|]. rewrite E3. by constructor. Qed.

Lemma io_ok_tail l : io_ok l -> io_ok (tail l).
Proof. destruct 1; [constructor|done]. Qed.

Lemma env_called w : env w -> env (called w).
Proof. intros (H1 & H2 & H3). refine (conj _ (conj _ _)); [by apply io_ok_tail|done|done]. Qed.

(** The files are written through [new_files]. *)
Lemma env_files w d j : env w -> survives (d, j) -> env (with_files d j w).
Proof. intros (H1 & H2 & H3) H. refine (conj _ (conj _ _)); [done|done|]. by eapply safe_files. Qed.

(** The locks. *)
Lemma wp_os_lock lk w (Q : unit -> world -> Prop) (E : Z -> world -> Prop) : io_ok (io w) ->
  Q tt (w <| io := tail (io w) |>) ->
  (io w <> [] -> forall rc, rc <> SQLITE_OK -> rc <> SQLITE_IOERR_BLOCKED -> E rc (w <| io := tail (io w) |>)) ->
  wp (sqlite3OsLock lk) Q E w.
Proof.
  intros Hio HQ HE. unfold wp, sqlite3OsLock, os, mbind, M_bind. destruct (io w) as [|[rc n] l] eqn:Eio; cbn.
  - cbn in HQ. by replace (w <| io := [] |>) with w in HQ by (destruct w; cbn in *; by subst).
  - unfold check. destruct (Z.eqb_spec rc SQLITE_OK); [exact HQ|]. apply HE; [done..|]. inversion Hio as [|? ? [_ Hb] _]; by subst.
Qed.

Lemma wp_lock_loop busy lk fuel n w (Q : unit -> world -> Prop) (E : Z -> world -> Prop) :
  (length (io w) < fuel)%nat -> io_ok (io w) ->
  (forall l, io_ok l -> Q tt (w <| io := l |>)) ->
  (forall l rc, io_ok l -> rc <> SQLITE_OK -> rc <> SQLITE_IOERR_BLOCKED -> E rc (w <| io := l |>)) ->
  wp (lock_loop busy fuel n lk) Q E w.
Proof.
  revert n w. induction fuel as [|fuel IH]; intros n w Hf Hio HQ HE; [lia|]. cbn [lock_loop].
  apply pwp_bind, wp_code, wp_os_lock; [done|..].
  - change (SQLITE_OK =? SQLITE_BUSY) with false. cbn [andb]. apply wp_check_ok, HQ. by apply io_ok_tail.
  - intros Hne rc Hrc Hb. destruct ((rc =? SQLITE_BUSY) && busy n).
    + apply IH; cbn; [destruct (io w); [done|cbn in *; lia]|by apply io_ok_tail|..].
      * intros l Hl. by apply (HQ l).
      * intros l rc' Hl. by apply (HE l).
    + apply wp_check; [done|]. intros _. apply HE; [by apply io_ok_tail|done..].
Qed.

Lemma wp_wait_excl busy w (Q : unit -> world -> Prop) (E : Z -> world -> Prop) :
  io_ok (io w) -> state (pgr w) = PAGER_SHARED \/ state (pgr w) = PAGER_RESERVED \/ state (pgr w) = PAGER_EXCLUSIVE ->
  (forall l, io_ok l -> Q tt (w <| io := l |> <| pgr ::= fun p => p <| state := PAGER_EXCLUSIVE |> |>)) ->
  (forall l rc, io_ok l -> rc <> SQLITE_OK -> rc <> SQLITE_IOERR_BLOCKED -> E rc (w <| io := l |>)) ->
  wp (pager_wait_on_lock busy EXCLUSIVE_LOCK) Q E w.
Proof.
  intros Hio Hst HQ HE. unfold pager_wait_on_lock. apply pwp_bind, pwp_get. apply pwp_bind, wp_asserts.
  { destruct Hst as [->|[->| ->]]; done. }
  destruct (Z.leb_spec EXCLUSIVE_LOCK (state (pgr w))) as [Hl|Hl].
  - apply pwp_ret. specialize (HQ (io w) Hio).
    assert (Es : state (pgr w) = PAGER_EXCLUSIVE) by (unfold EXCLUSIVE_LOCK, PAGER_SHARED, PAGER_RESERVED, PAGER_EXCLUSIVE in *; lia).
    assert (E1 : w <| io := io w |> <| pgr ::= fun p => p <| state := PAGER_EXCLUSIVE |> |> = w); [|by rewrite E1 in HQ].
    destruct w as [p]. destruct p. cbn in *. by subst.
  - apply pwp_bind, wp_lock_loop; [cbn; lia|done|..|done]. intros l Hl'. by apply wp_upd, HQ.
Qed.

End tx.
