(* ===== verification/PagerTxJournal.v ===== *)
(** * Writing the journal of a transaction

    The header of a segment ([wp_writeJournalHdr]), the record of a page
    ([wp_journal_record]), and the sync that counts the records
    ([wp_syncJournal]). *)

From S2P Require Import Prelude Varint PageBytes RecordUpdate DiskFile Pager PagerJournal PagerCache PagerWp.
From S2P Require Import PagerPlayback PagerRecovery PagerLog PagerPages PagerTx.

Section journal.
Context (ps N0 : Z) (D0 : list Z) (ps_ok : page_size ps) (N0_range : 0 <= N0 < 2 ^ 31) (D0_size : zlen D0 = N0 * ps).

Local Notation survives := (survives ps D0).
Local Notation files_ok := (files_ok ps N0 D0).
Local Notation cache := (cache ps).
Local Notation env := (env ps D0).
Local Notation safe := (safe ps D0).
Local Notation tx := (tx ps N0 D0).
Local Notation tx_sealed := (tx_sealed ps N0 D0).

(** ** Calls of the system *)

Lemma env_safe w : env w -> safe w.
Proof. by intros (_ & _ & H). Qed.

Lemma with_content_journal f w jd nm : jrn w = JLive jd nm ->
  with_content HJ f w = with_files (dbf w) (JLive (modified f jd) nm) w.
Proof. unfold with_content. by intros ->. Qed.

(** The journal is written: a part of the bytes, or all of them. *)
Lemma wp_write_journal w jd nm bs off (Q : unit -> world -> Prop) (E : Z -> world -> Prop) :
  env w -> jrn w = JLive jd nm -> 0 <= off -> 0 < zlen bs ->
  (forall n, (0 <= n)%nat -> (n = length bs \/ n = 0 \/ 4 <= n)%nat ->
     survives (dbf w, JLive (modified (fwrite (now jd) off (take n bs)) jd) nm)) ->
  (forall w', env w' -> pgr w' = pgr w -> dbf w' = dbf w -> jrn w' = JLive (modified (fwrite (now jd) off bs) jd) nm -> Q tt w') ->
  (forall rc w', rc <> SQLITE_OK -> safe w' -> E rc w') ->
  wp (sqlite3OsWrite HJ bs off) Q E w.
Proof.
  intros He Hj Ho Hl Hs HQ HE. unfold sqlite3OsWrite. apply pwp_bind, wp_asserts; [by apply Z.ltb_lt|]. apply pwp_bind. unfold refused. apply pwp_bind, wp_os_io.
  - intros n. apply pwp_ret. change (negb (SQLITE_OK =? SQLITE_OK)) with false. rewrite (proj2 (Z.ltb_ge off 0)) by done.
    eapply pwp_bind, wp_content; [cbn; by rewrite Hj|]. cbn iota.
    eapply wp_set_content; [by right; left|cbn; by rewrite Hj|]. rewrite (with_content_journal _ _ jd nm) by done. apply HQ; [|done..].
    apply env_files; [by apply env_called|]. rewrite <- (firstn_all bs). apply Hs; [lia|by left].
  - intros rc n Hrc Hn. apply pwp_ret. destruct (Z.eqb_spec rc SQLITE_OK); [done|]. cbn [negb].
    rewrite (proj2 (Z.ltb_ge off 0)) by done.
    eapply pwp_bind, wp_content; [cbn; by rewrite Hj|]. cbn iota.
    eapply pwp_bind, wp_set_content; [by right; left|cbn; by rewrite Hj|]. rewrite (with_content_journal _ _ jd nm) by done.
    apply wp_throw, HE; [by destruct (rc =? SQLITE_FULL)|].
    apply env_safe, env_files; [by apply env_called|]. apply Hs; [lia|].
    destruct He as [Hio _]. unfold io_ok in Hio. rewrite Forall_forall in Hio. specialize (Hio _ Hn). cbn in Hio.
    destruct Hio as [[Hio|Hio] _]; [right; left|right; right]; lia.
Qed.

Lemma wp_sync_journal w jd nm (Q : unit -> world -> Prop) (E : Z -> world -> Prop) :
  env w -> jrn w = JLive jd nm -> survives (dbf w, JLive (flushed jd) true) ->
  (forall w', env w' -> pgr w' = pgr w -> dbf w' = dbf w -> jrn w' = JLive (flushed jd) true -> Q tt w') ->
  (forall rc w', rc <> SQLITE_OK -> safe w' -> E rc w') ->
  wp (sqlite3OsSync HJ) Q E w.
Proof.
  intros He Hj Hs HQ HE. unfold sqlite3OsSync. apply pwp_bind, wp_refused.
  - intros n. apply pwp_bind, pwp_get. cbn. rewrite Hj. apply HQ; [|done..]. apply env_files; [by apply env_called|done].
  - intros _ rc n Hrc. apply wp_throw, HE; [done|]. by apply env_safe, env_called.
Qed.

(** Writing to the file that does not spoil the last segment. *)
Lemma wp_write_tail w jd nm b closed bs off (Q : unit -> world -> Prop) (E : Z -> world -> Prop) :
  env w -> jrn w = JLive jd nm -> 0 <= off -> 0 < zlen bs -> files_ok (dbf w) jd nm b closed ->
  (forall n, tail_ok ps N0 b (fwrite (now jd) off (take n bs))) ->
  (forall w', env w' -> pgr w' = pgr w -> dbf w' = dbf w -> jrn w' = JLive (modified (fwrite (now jd) off bs) jd) nm ->
     files_ok (dbf w') (modified (fwrite (now jd) off bs) jd) nm b closed -> Q tt w') ->
  (forall rc w', rc <> SQLITE_OK -> safe w' -> E rc w') ->
  wp (sqlite3OsWrite HJ bs off) Q E w.
Proof.
  intros He Hj Ho Hl Hf Ht HQ HE. apply (wp_write_journal w jd nm); [done..| | |done].
  - intros n _ _. eapply files_ok_survives; [done..|]. by apply files_ok_journal.
  - intros w' He' Ep Ed Ej. apply HQ; [done..|]. rewrite Ed. apply files_ok_journal; [done|]. rewrite <- (firstn_all bs). apply Ht.
Qed.

(** ** The header of a segment *)

(** The buffer with the header in it. *)
Definition header_in (t : list Z) (ck mx : Z) (first : bool) (t' : list Z) : Prop :=
  zlen t' = zlen t /\ fsub t' 24 4 = (if first then sqlite3Put4byte ps else fsub t 24 4) /\
  fsub t' 0 28 = header_bytes 0 ck mx (fsub t' 24 4).

Lemma wp_put_at w off bs (Q : unit -> world -> Prop) E : 0 <= off -> off + zlen bs <= zlen (pTmpSpace (pgr w)) ->
  (forall t, t = fwrite (pTmpSpace (pgr w)) off bs -> Q tt (w <| pgr ::= fun p => p <| pTmpSpace := t |> |>)) -> wp (put_tmp off bs) Q E w.
Proof.
  intros Ho Hl HQ. unfold put_tmp. apply pwp_bind, wp_pager. eapply pwp_bind, wp_lift; [by apply copy_to_fwrite|]. by apply wp_upd, HQ.
Qed.

Lemma header_in_ok t ck mx first : 512 <= zlen t ->
  header_in t ck mx first
    (let t := fwrite (fwrite (fwrite (fwrite (fwrite t 0 aJournalMagic) 8 (sqlite3Put4byte 0)) 12 (sqlite3Put4byte ck)) 16
       (sqlite3Put4byte mx)) 20 (sqlite3Put4byte 512) in
     if first : bool then fwrite t 24 (sqlite3Put4byte ps) else t).
Proof.
  intros Lt. set (hd := aJournalMagic ++ sqlite3Put4byte 0 ++ sqlite3Put4byte ck ++ sqlite3Put4byte mx ++ sqlite3Put4byte 512).
  assert (E : fwrite (fwrite (fwrite (fwrite (fwrite t 0 aJournalMagic) 8 (sqlite3Put4byte 0)) 12 (sqlite3Put4byte ck)) 16
       (sqlite3Put4byte mx)) 20 (sqlite3Put4byte 512) = fwrite t 0 hd).
  { pose proof (fwrite_app t 0 aJournalMagic (sqlite3Put4byte 0) ltac:(lia)) as A. change (0 + zlen aJournalMagic) with 8 in A.
    rewrite A. clear A. set (m := aJournalMagic ++ _). assert (Lm : zlen m = 12) by done.
    pose proof (fwrite_app t 0 m (sqlite3Put4byte ck) ltac:(lia)) as A. rewrite Lm, Z.add_0_l in A. rewrite A. clear A.
    set (m2 := m ++ _). assert (Lm2 : zlen m2 = 16) by done.
    pose proof (fwrite_app t 0 m2 (sqlite3Put4byte mx) ltac:(lia)) as A. rewrite Lm2, Z.add_0_l in A. rewrite A. clear A.
    set (m3 := m2 ++ _). assert (Lm3 : zlen m3 = 20) by done.
    pose proof (fwrite_app t 0 m3 (sqlite3Put4byte 512) ltac:(lia)) as A. rewrite Lm3, Z.add_0_l in A. rewrite A. clear A.
    reflexivity. }
  assert (Lh : zlen hd = 24) by done.
  assert (L1 : zlen (fwrite t 0 hd) = zlen t) by (rewrite fwrite_zlen by lia; lia). cbn zeta. rewrite E.
  set (t' := if first then _ else _). assert (L2 : zlen t' = zlen t).
  { unfold t'. destruct first; [rewrite fwrite_zlen by lia; rewrite zlen_put4; lia|done]. }
  assert (E1 : fsub t' 0 24 = hd).
  { transitivity (fsub (fwrite t 0 hd) 0 24); [|rewrite <- Lh; by apply fsub_fwrite_same]. unfold t'. destruct first; [|done].
    apply fsub_fwrite_other; lia. }
  split_and!; [done| |].
  - unfold t'. destruct first.
    + exact (fsub_fwrite_same (fwrite t 0 hd) 24 (sqlite3Put4byte ps) ltac:(lia)).
    + apply fsub_fwrite_other; lia.
  - change 28 with (24 + 4). rewrite fsub_app by lia. rewrite E1. unfold hd, header_bytes. by rewrite <- !app_assoc.
Qed.

Lemma wp_randomness w (Q : Z -> world -> Prop) E : (forall ck l, is_u32 ck -> Q ck (w <| rnd := l |>)) -> wp sqlite3_randomness Q E w.
Proof.
  intros HQ. unfold wp, sqlite3_randomness. destruct (rnd w) as [|x l] eqn:Er.
  - specialize (HQ 0 [] ltac:(unfold is_u32; lia)). replace (w <| rnd := [] |>) with w in HQ; [done|]. destruct w; cbn in *; by subst.
  - apply HQ, u32_range.
Qed.

(** The header is as long as a sector: it is written at once. *)
Lemma wp_write_headers w b closed jd nm hdr fuel ck mx pz (Q : unit -> world -> Prop) (E : Z -> world -> Prop) :
  env w -> jrn w = JLive jd nm -> files_ok (dbf w) jd nm b closed -> now jd = b -> sectorSize (pgr w) = 512 ->
  journalOff (pgr w) = roundup (zlen b) -> (2 <= fuel)%nat ->
  zlen hdr = 512 -> fsub hdr 0 28 = header_bytes 0 ck mx pz -> is_u32 ck -> is_u32 mx ->
  zlen pz = 4 -> harmless ps pz -> (b = [] -> mx = N0 /\ pz = sqlite3Put4byte ps) ->
  (forall w' jd', pgr w' = pgr w <| journalOff ::= Z.add 512 |> -> dbf w' = dbf w -> env w' -> jrn w' = JLive jd' nm -> now jd' = fwrite b (roundup (zlen b)) hdr -> files_ok (dbf w') jd' nm b closed -> Q tt w') ->
  (forall rc w', rc <> SQLITE_OK -> safe w' -> E rc w') ->
  wp (write_headers fuel 0 512 hdr) Q E w.
Proof.
  intros He Hj Hf Hb Hss Hoff Hfuel Lh Eh Hck Hmx Hz Hh Hb0 HQ HE. destruct fuel as [|[|fuel]]; [lia..|].
  pose proof (zlen_nonneg b). destruct (roundup_bounds (zlen b)) as [Hr _]; [lia|].
  cbn [write_headers]. apply pwp_bind, wp_pager. unfold JOURNAL_HDR_SZ. rewrite Hss. cbn [Z.leb Z.compare Pos.compare].
  apply pwp_bind, wp_code. apply (wp_write_tail w jd nm b closed); [done|done|lia|lia|done| | |].
  - intros n. rewrite Hb, Hoff. by eapply tail_ok_header.
  - intros w1 He1 Ep1 Ed1 Ej1 Hf1. rewrite Hb, Hoff in *. apply pwp_bind, wp_upd, pwp_bind, wp_check_ok. cbn [write_headers].
    apply pwp_bind, wp_pager. name_world w2. assert (Hss2 : sectorSize (pgr w2) = 512) by (cbn; by rewrite Ep1).
    unfold JOURNAL_HDR_SZ. rewrite Hss2. change (512 <=? 0 + 512) with true. apply pwp_ret.
    eapply (HQ w2 _ ltac:(cbn; by rewrite Ep1) Ed1 He1 Ej1); [done|]. exact Hf1.
  - intros rc w1 Hrc Hw1. apply pwp_bind, wp_upd, pwp_bind. apply wp_check; [done|]. intros _. by apply HE.
Qed.

Lemma roundup_zero b : (roundup (zlen b) =? 0) = bool_decide (b = @nil Z).
Proof.
  pose proof (zlen_nonneg b). destruct (roundup_bounds (zlen b)) as [Hr _]; [lia|].
  destruct b as [|x b]; [done|]. rewrite bool_decide_false by done. rewrite zlen_cons in *. pose proof (zlen_nonneg b).
  apply Z.eqb_neq. lia.
Qed.

Lemma harmless_ps : harmless ps (sqlite3Put4byte ps).
Proof.
  pose proof (page_size_range ps ps_ok). exists ps. split; [apply get4_put4; unfold is_u32; lia|by right].
Qed.

Lemma harmless_zlen pz : harmless ps pz -> zlen pz <= 4 -> zlen pz = 4.
Proof.
  intros (v & Hv & _) Hl. unfold sqlite3Get4byte in Hv. destruct pz as [|a [|b [|c [|e [|? pz]]]]]; try done.
  rewrite !zlen_cons in Hl. pose proof (zlen_nonneg pz). lia.
Qed.

(** The header is in the buffer, and goes to the file. *)
Lemma wp_header_written e b closed L ck T mx w jd nm (Q : unit -> world -> Prop) (E : Z -> world -> Prop) :
  env w -> conf ps (pgr w) -> running N0 e (pgr w) -> sizes ps N0 w -> started b (pgr w) ->
  cache L (now (dbf w)) (pgr w) -> flags ps N0 D0 e L closed [] (pgr w) -> held 1 (pgr w) ->
  jrn w = JLive jd nm -> files_ok (dbf w) jd nm b closed -> (b <> [] -> nm = true) -> now jd = b ->
  journalHdr (pgr w) = roundup (zlen b) -> journalOff (pgr w) = roundup (zlen b) -> nRec (pgr w) = 0 ->
  cksumInit (pgr w) = ck -> pTmpSpace (pgr w) = T ->
  zlen T = ps -> fsub T 0 28 = header_bytes 0 ck mx (fsub T 24 4) -> harmless ps (fsub T 24 4) ->
  is_u32 ck -> is_u32 mx -> (b = [] -> mx = N0 /\ fsub T 24 4 = sqlite3Put4byte ps) ->
  (forall w', tx e b closed [] L w' -> same_pages w w' -> Q tt w') ->
  (forall rc w', rc <> SQLITE_OK -> safe w' -> E rc w') ->
  wp (p ← pager; write_headers (S (Z.to_nat (JOURNAL_HDR_SZ p))) 0 (if 512 <? ps then 512 else ps)
       (take (Z.to_nat (if 512 <? ps then 512 else ps)) (pTmpSpace p))) Q E w.
Proof.
  intros He Hc Hrun Hsz Hst Hca Hfl Hh Hj Hf Hnm Hb Hhdr Hoff Hrec Eck ET LT HT2 Hharm Hck Hmx Hmx0 HQ HE.
  pose proof (page_size_range ps ps_ok) as Hps. pose proof (zlen_nonneg b) as Lb.
  destruct (roundup_bounds (zlen b)) as [Hr Hdiv]; [lia|].
  assert (Hz : zlen (fsub T 24 4) = 4) by (apply fsub_zlen; lia).
  assert (Hss : sectorSize (pgr w) = 512) by (by eapply conf_sectorSize).
  apply pwp_bind, wp_pager. unfold JOURNAL_HDR_SZ. rewrite Hss, ET.
  replace (if 512 <? ps then 512 else ps) with 512 by (destruct (Z.ltb_spec 512 ps); lia).
  eapply (wp_write_headers w b closed jd nm (fsub T 0 512) _ ck mx (fsub T 24 4));
    [exact He|exact Hj|exact Hf|exact Hb|exact Hss|exact Hoff|lia|apply fsub_zlen; lia| |exact Hck|exact Hmx|exact Hz|exact Hharm
    |exact Hmx0| |exact HE].
  { rewrite <- HT2. by rewrite fsub_fsub by lia. }
  intros w7 jd' Hpg Hd7 He7 Hj7 Hn7 Hf7.
  assert (Hl7 : zlen (now jd') = roundup (zlen b) + 512).
  { rewrite Hn7, fwrite_zlen by lia. rewrite fsub_zlen by lia. lia. }
  assert (Eh7 : fsub (now jd') (roundup (zlen b)) 28 = header_bytes 0 ck mx (fsub T 24 4)).
  { rewrite Hn7, <- HT2. transitivity (fsub (fsub T 0 512) 0 28); [|by rewrite fsub_fsub by lia].
    rewrite <- (fsub_fwrite_same b (roundup (zlen b)) (fsub T 0 512)) at 2 by lia.
    rewrite fsub_zlen by lia. rewrite fsub_fsub by lia. f_equal. lia. }
  apply HQ.
  - refine (conj He7 _). unfold sizes, started, disk. rewrite Hpg, Hd7. rewrite Hd7 in Hf7.
    refine (conj Hc (conj Hrun (conj Hsz (conj Hst (conj _ (conj Hca (conj Hfl Hh))))))).
    exists jd', nm, ck. refine (conj Hj7 (conj Hf7 (conj Hnm (conj _ _)))).
    + refine (conj _ (conj _ (conj _ _))).
      * destruct Hf7 as ((_ & _ & Hv) & _). apply (Hv (now jd')), now_version.
      * exists mx, (fsub T 24 4). by split_and!.
      * rewrite Hl7. change (zlen (@nil (Z * list Z))) with 0. lia.
      * change (zlen (@nil (Z * list Z))) with 0. rewrite Z.mul_0_l. done.
    + split_and!; [by constructor|by intros r ?%elem_of_nil|exact Hhdr| |exact Hrec|exact Eck|].
      * cbn. rewrite Hl7, Hoff. lia.
      * cbn. by rewrite ET.
  - unfold same_pages. rewrite Hpg, Hd7. done.
Qed.

Lemma wp_writeJournalHdr e b closed L w (Q : unit -> world -> Prop) (E : Z -> world -> Prop) :
  tx_sealed e b closed L w -> nRec (pgr w) = 0 -> (b = [] -> dbSize (pgr w) = N0) ->
  (forall w', tx e b closed [] L w' -> same_pages w w' -> Q tt w') ->
  (forall rc w', rc <> SQLITE_OK -> safe w' -> E rc w') ->
  wp writeJournalHdr Q E w.
Proof.
  intros (He & Hc & Hrun & Hsz & Hst & (jd & nm & Hj & Hf & Hnm & Hb & Hoff & Hharm) & Hca & Hfl & Hh) Hrec Hdb HQ HE.
  pose proof (page_size_range ps ps_ok) as Hps. pose proof (zlen_nonneg b) as Lb.
  destruct (roundup_bounds (zlen b)) as [Hr Hdiv]; [lia|].
  assert (Hss : sectorSize (pgr w) = 512) by (by eapply conf_sectorSize).
  assert (Eps : pageSize (pgr w) = ps) by (by eapply conf_pageSize).
  assert (Lt : zlen (pTmpSpace (pgr w)) = ps) by (by eapply conf_tmp).
  unfold writeJournalHdr. apply pwp_bind, wp_pager. unfold JOURNAL_HDR_SZ. rewrite Hss, Eps.
  apply pwp_bind, wp_when_upd. name_world w1.
  assert (E1 : exists so, w1 = w <| pgr ::= fun p => p <| stmtHdrOff := so |> |>).
  { unfold w1. destruct (stmtHdrOff (pgr w) =? 0); [by eexists|]. exists (stmtHdrOff (pgr w)). destruct w as [p]. by destruct p. }
  destruct E1 as [so E1]. clearbody w1. subst w1.
  apply pwp_bind, wp_seek; [done|cbn; lia|]. apply pwp_bind, wp_upd. flat.
  set (t0 := pTmpSpace (pgr w)) in *.
  apply pwp_bind, wp_put_at; [lia|change (0 + 8 <= zlen t0); lia|]. intros t1 E1. flat. change (t1 = fwrite t0 0 aJournalMagic) in E1.
  assert (L1 : zlen t1 = ps) by (rewrite E1, fwrite_zlen by lia; change (zlen aJournalMagic) with 8; lia).
  assert (Ens : noSync (pgr w) = false) by (by eapply conf_noSync). rewrite Ens.
  change (false || negb (Z.land unixDeviceCharacteristics SQLITE_IOCAP_SAFE_APPEND =? 0)) with false. cbn iota.
  apply pwp_bind, wp_put_at; [lia|change (8 + 4 <= zlen t1); lia|]. intros t2 E2. flat. change (t2 = fwrite t1 8 (sqlite3Put4byte 0)) in E2.
  assert (L2 : zlen t2 = ps) by (rewrite E2, fwrite_zlen by lia; rewrite zlen_put4; lia).
  apply pwp_bind, wp_randomness. intros ck rl Hck. apply pwp_bind, wp_upd. flat.
  apply pwp_bind, wp_put_at; [lia|change (12 + 4 <= zlen t2); lia|]. intros t3 E3. flat. change (t3 = fwrite t2 12 (sqlite3Put4byte ck)) in E3.
  assert (L3 : zlen t3 = ps) by (rewrite E3, fwrite_zlen by lia; rewrite zlen_put4; lia). set (mx := u32 (dbSize (pgr w))).
  apply pwp_bind, wp_put_at; [lia|change (16 + 4 <= zlen t3); lia|]. intros t4 E4. flat. change (t4 = fwrite t3 16 (sqlite3Put4byte mx)) in E4.
  assert (L4 : zlen t4 = ps) by (rewrite E4, fwrite_zlen by lia; rewrite zlen_put4; lia).
  apply pwp_bind, wp_put_at; [lia|change (20 + 4 <= zlen t4); lia|]. intros t5 E5. flat. change (t5 = fwrite t4 20 (sqlite3Put4byte 512)) in E5.
  assert (L5 : zlen t5 = ps) by (rewrite E5, fwrite_zlen by lia; rewrite zlen_put4; lia).
  apply pwp_bind, wp_pager. name_world w5.
  assert (Hk : forall T, header_in t0 ck mx (bool_decide (b = [])) T ->
    wp (p ← pager; write_headers (S (Z.to_nat (sectorSize p))) 0 (if 512 <? ps then 512 else ps)
          (take (Z.to_nat (if 512 <? ps then 512 else ps)) (pTmpSpace p))) Q E
       (w5 <| pgr ::= fun p => p <| pTmpSpace := T |> |>)).
  { intros T (LT & HT & HT2). rewrite Lt in LT. flat.
    eapply (wp_header_written e b closed L ck T mx _ jd nm); [exact He|exact (conf_tmp_upd ps (pgr w) T Hc LT)|exact Hrun|exact Hsz|exact Hst
      |exact Hca|exact Hfl|exact Hh|exact Hj|exact Hf|exact Hnm|exact Hb|by rewrite <- Hoff|by rewrite <- Hoff|exact Hrec|reflexivity|reflexivity
      |exact LT|exact HT2| |exact Hck|apply u32_range| |exact HQ|exact HE].
    - rewrite HT. destruct (bool_decide_reflect (b = [])); [apply harmless_ps|by apply Hharm].
    - intros Hb0. rewrite HT, bool_decide_true by done. split; [|done]. unfold mx. rewrite Hdb by done. apply u32_id. unfold is_u32. lia. }
  assert (Ej5 : (journalHdr (pgr w5) =? 0) = bool_decide (b = [])) by (rewrite <- roundup_zero, <- Hoff; done).
  pose proof (header_in_ok t0 ck mx (bool_decide (b = [])) ltac:(lia)) as Hin. cbn zeta in Hin.
  rewrite <- E1, <- E2, <- E3, <- E4, <- E5, <- Ej5 in Hin. rewrite <- Ej5 in Hk.
  destruct (journalHdr (pgr w5) =? 0); cbn [when].
  - apply pwp_bind, wp_put_at; [lia|change (24 + 4 <= zlen t5); lia|]. intros t6 E6. flat. apply (Hk t6).
    assert (Eu : u32 ps = ps) by (apply u32_id; unfold is_u32; lia). change (t6 = fwrite t5 24 (sqlite3Put4byte (u32 (pageSize (pgr w))))) in E6.
    rewrite Eps, Eu in E6. by subst t6.
  - apply pwp_bind, pwp_ret. by apply (Hk t5).
Qed.

(** ** Syncing the journal *)

Lemma fwrite_nil f off : 0 <= off <= zlen f -> fwrite f off [] = f.
Proof.
  intros H. apply rd_ext; [rewrite fwrite_zlen by lia; change (zlen (@nil Z)) with 0; lia|].
  rewrite fwrite_zlen by lia. change (zlen (@nil Z)) with 0. intros i Hi. apply fwrite_out; [lia..|].
  change (zlen (@nil Z)) with 0. lia.
Qed.

(** No more records than pages. *)
Lemma nodup_bound l : NoDup l -> Forall (fun pg => 1 <= pg <= N0) l -> zlen l <= N0.
Proof.
  intros Hn Hl. unfold zlen. rewrite <- (Z2Nat.id N0) by lia. apply inj_le.
  rewrite <- (length_seqZ 1 N0). apply submseteq_length, NoDup_submseteq; [done|]. intros x Hx.
  rewrite Forall_forall in Hl. apply elem_of_seqZ. specialize (Hl x Hx). lia.
Qed.

Lemma opened_bound L closed opened p e : flags ps N0 D0 e L closed opened p -> Forall (record_ok ps N0) opened ->
  zlen opened < 2 ^ 32 - 1.
Proof.
  intros (Hn & _) Hr. rewrite fmap_app in Hn. apply NoDup_app in Hn as (_ & _ & Hn).
  assert (zlen opened.*1 <= N0).
  { apply nodup_bound; [done|]. apply Forall_fmap. eapply Forall_impl; [exact Hr|]. by intros r [? _]. }
  unfold zlen in *. rewrite length_fmap in *. lia.
Qed.

(** The first sync; then the count is written. *)
Lemma wp_count b closed opened ck w jd nm (Q : unit -> world -> Prop) (E : Z -> world -> Prop) :
  env w -> jrn w = JLive jd nm -> files_ok (dbf w) jd nm b closed -> open_segment ps N0 b (now jd) ck opened ->
  Forall (record_ok ps N0) opened -> originals ps D0 opened -> zlen opened < 2 ^ 32 - 1 ->
  (forall w', env w' -> pgr w' = pgr w -> dbf w' = dbf w -> jrn w' = JLive (mkDfile (counted b (now jd) opened) [now jd]) true ->
     Q tt w') ->
  (forall rc w', rc <> SQLITE_OK -> safe w' -> E rc w') ->
  wp (sqlite3OsSync HJ;; write32bits HJ (roundup (zlen b) + 8) (zlen opened)) Q E w.
Proof.
  intros He Hj Hf Hseg Hok Ho Hn HQ HE. pose proof (zlen_nonneg b) as Lb. destruct (roundup_bounds (zlen b)) as [Hr _]; [lia|].
  pose proof (page_size_range ps ps_ok) as Hps. pose proof (zlen_nonneg opened) as Lo.
  assert (Hl : roundup (zlen b) + 512 <= zlen (now jd)) by (destruct Hseg as (_ & _ & L & _); nia).
  pose proof (files_ok_flush _ _ _ _ _ _ _ _ Hf) as Hf1.
  eapply pwp_bind, wp_sync_journal; [done|exact Hj|by eapply files_ok_survives| |exact HE].
  intros w1 He1 Ep1 Ed1 Ej1. unfold flushed in Ej1, Hf1.
  unfold write32bits. eapply wp_write_journal; [done|exact Ej1|lia|done| | |exact HE].
  { intros n _ Hlen. rewrite Ed1. cbn [now]. apply (log_ok_survives ps N0 D0); [done..| |done].
    assert (Hn4 : take n (sqlite3Put4byte (zlen opened)) = [] \/ take n (sqlite3Put4byte (zlen opened)) = sqlite3Put4byte (zlen opened)).
    { destruct Hlen as [->|[->|Hlen]]; [right; apply firstn_all|by left|right; apply take_ge]. exact Hlen. }
    destruct Hn4 as [->| ->].
    - rewrite fwrite_nil by lia. eapply files_ok_log; [done|]. apply files_ok_journal; [exact Hf1|].
      destruct Hf1 as ((_ & _ & Hv) & _). apply (Hv (now jd)). left.
    - by eapply (counted_log ps N0 D0). }
  intros w2 He2 Ep2 Ed2 Ej2. apply HQ; [done|congruence|congruence|exact Ej2].
Qed.

(** All records are in the counted part afterwards. *)
Lemma flags_synced L closed opened p : flags ps N0 D0 None L closed opened p ->
  flags ps N0 D0 None L (closed ++ opened) []
    (lruListSetFirstSynced (p <| journalStarted := true |> <| needSync := false |> <| pAll ::= fmap (fun y => y <| pg_needSync := false |>) |>)).
Proof.
  intros (H1 & (s & H2 & H3) & H4 & H5 & H6). unfold flags. rewrite app_nil_r. split_and!; [done|by exists s| | |done].
  - intros pg x Hx. cbn in Hx. rewrite lookup_fmap in Hx. destruct (pAll p !! pg) as [y|] eqn:Ey; [|done]. injection Hx as <-.
    destruct (H4 pg y Ey) as (F1 & F2 & F3 & F4 & F5). unfold page_flags. cbn. rewrite app_nil_r. split_and!; [done| |done|by intros ?%elem_of_nil|done].
    intros Hi. by destruct (F2 Hi).
  - by intros pg ?%elem_of_nil.
Qed.

Lemma held_synced p pg : held pg p ->
  held pg (lruListSetFirstSynced (p <| journalStarted := true |> <| needSync := false |> <| pAll ::= fmap (fun y => y <| pg_needSync := false |>) |>)).
Proof. intros (x & Hx & Hn). eexists. cbn. rewrite lookup_fmap, Hx. by split. Qed.

(** What the sync of the journal leaves of the cache. *)
Definition synced_pages (w w' : world) : Prop :=
  pAll (pgr w') = (fun y => y <| pg_needSync := false |>) <$> pAll (pgr w) /\ lru (pgr w') = lru (pgr w) /\
  pFirstSynced (pgr w') = head (lru (pgr w)) /\ pDirty (pgr w') = pDirty (pgr w) /\ dbSize (pgr w') = dbSize (pgr w) /\
  dirtyCache (pgr w') = dirtyCache (pgr w) /\ dbFileVers (pgr w') = dbFileVers (pgr w) /\
  changeCountDone (pgr w') = changeCountDone (pgr w) /\ state (pgr w') = state (pgr w) /\ nPage (pgr w') = nPage (pgr w) /\
  dbf w' = dbf w.

Lemma wp_syncJournal b closed opened L w (Q : unit -> world -> Prop) (E : Z -> world -> Prop) :
  tx None b closed opened L w ->
  (forall w' G, needSync (pgr w) = true -> G <> [] -> tx_sealed None G (closed ++ opened) L w' -> synced_pages w w' -> Q tt w') ->
  (needSync (pgr w) = false -> opened = [] -> (forall pg x, pAll (pgr w) !! pg = Some x -> pg_needSync x = false) -> Q tt w) ->
  (forall rc w', rc <> SQLITE_OK -> safe w' -> E rc w') ->
  wp syncJournal Q E w.
Proof.
  intros (He & Hc & Hrun & Hsz & Hst & (jd & nm & ck & Hj & Hf & Hnm & Hseg & Hok & Ho & Hhdr & Hoff & Hrec & Hck & Hharm) & Hca & Hfl & Hh) HQ1 HQ2 HE.
  unfold syncJournal. apply pwp_bind, wp_pager. destruct (needSync (pgr w)) eqn:En.
  - destruct Hrun as (Hrs & Hro & Hrd). rewrite Hro. apply pwp_bind, wp_asserts; [done|].
    change (Z.land unixDeviceCharacteristics SQLITE_IOCAP_SAFE_APPEND =? 0) with true.
    change (Z.land unixDeviceCharacteristics SQLITE_IOCAP_SEQUENTIAL =? 0) with true.
    assert (Efs : fullSync (pgr w) = true) by (by eapply conf_fullSync). rewrite Efs. cbn [andb when].
    pose proof (opened_bound _ _ _ _ _ Hfl Hok) as Hn. pose proof (zlen_nonneg opened).
    rewrite Hhdr, Hrec. rewrite u32_id by (unfold is_u32; lia).
    apply pwp_bind. eapply wp_count; [done|exact Hj|exact Hf|exact Hseg|done|done|done| |exact HE].
    intros w1 He1 Ep1 Ed1 Ej1. set (G := counted b (now jd) opened) in *.
    pose proof (files_ok_flush _ _ _ _ _ _ _ _ Hf) as Hf1.
    pose proof (counted_files ps N0 D0 ps_ok (dbf w) b (now jd) closed opened ck Hf1 Hseg Hok Hn Ho) as Hf2. fold G in Hf2.
    assert (HG : zlen G = zlen (now jd)) by (by eapply counted_zlen).
    assert (HGn : G <> []).
    { intros E0. destruct Hseg as (_ & _ & L0 & _). pose proof (page_size_range ps ps_ok). pose proof (zlen_nonneg b).
      destruct (roundup_bounds (zlen b)) as [Hr _]; [lia|]. rewrite E0 in HG. change (zlen (@nil Z)) with 0 in HG. nia. }
    eapply pwp_bind, wp_sync_journal; [done|exact Ej1|rewrite Ed1; by eapply files_ok_survives| |exact HE].
    intros w2 He2 Ep2 Ed2 Ej2. rewrite Ep1 in Ep2. rewrite Ed1 in Ed2. clear w1 He1 Ep1 Ed1 Ej1.
    apply pwp_bind, wp_upd. apply pwp_bind, wp_upd. apply wp_upd. apply (HQ1 _ G eq_refl HGn).
    + refine (conj He2 _). unfold sizes, disk_sealed. cbn. rewrite Ep2, Ed2, Ej2.
      refine (conj Hc (conj (conj Hrs (conj Hro Hrd)) (conj Hsz (conj _ (conj _ (conj _ (conj _ _))))))).
      * by split.
      * exists (mkDfile G []), true. split_and!; try done. cbn. by rewrite HG.
      * by apply (cache_synced ps L (now (dbf w)) (pgr w <| journalStarted := true |>)).
      * by apply flags_synced.
      * by apply held_synced.
    + unfold synced_pages. cbn. rewrite Ep2, Ed2. done.
  - destruct Hfl as (F1 & F2 & F3 & F4 & F5).
    assert (Hns : forall pg x, pAll (pgr w) !! pg = Some x -> pg_needSync x = false).
    { intros pg x Hx. destruct (F3 pg x Hx) as (G1 & _). destruct (pg_needSync x); [|done]. by rewrite G1 in En. }
    apply pwp_bind, wp_asserts.
    { apply bool_decide_eq_true_2. intros pg x Hx. by eapply Hns. }
    apply wp_asserts.
    { apply bool_decide_eq_true_2. destruct Hca as (_ & _ & (_ & L2 & L3) & _). rewrite L3. apply find_head. intros pg Hpg.
      apply L2 in Hpg as (x & Hx & _). unfold is_synced. rewrite Hx. by rewrite (Hns pg x Hx). }
    apply HQ2; [done| |done]. destruct opened as [|r opened]; [done|].
    destruct (F4 r.1) as [x Hx]; [left|]. destruct (F3 r.1 x Hx) as (_ & _ & _ & G4 & _).
    rewrite (Hns _ _ Hx) in G4. discriminate G4. left.
Qed.

(** ** The record of a page *)

Lemma open_segment_add b F ck opened r : open_segment ps N0 b F ck opened -> Forall (record_ok ps N0) opened -> zlen r.2 = ps ->
  open_segment ps N0 b (F ++ record_bytes ck ps r) ck (opened ++ [r]).
Proof.
  intros (Hp & (mx & pz & Eh & Hr) & Hl & Hrec) Hok Lr. pose proof (zlen_nonneg b) as Lb. destruct (roundup_bounds (zlen b)) as [Hb _]; [lia|].
  pose proof (page_size_range ps ps_ok) as Hps. pose proof (zlen_nonneg opened) as Lo. assert (0 <= zlen opened * (ps + 8)) by nia.
  pose proof (zlen_record ck ps r Lr) as Lrec.
  assert (Hs : forall a m, 0 <= a -> 0 <= m -> a + m <= zlen F -> fsub (F ++ record_bytes ck ps r) a m = fsub F a m).
  { intros a m Ha Hm Hl'. apply fsub_ext; [lia..|rewrite zlen_app; lia|lia|]. intros i Hi. apply rd_app_l. lia. }
  refine (conj _ (conj _ (conj _ _))).
  - rewrite Hs by lia. done.
  - exists mx, pz. by rewrite Hs by lia.
  - rewrite !zlen_app, Lrec. change (zlen [r]) with 1. lia.
  - rewrite zlen_app. change (zlen [r]) with 1. rewrite Z.mul_add_distr_r, fsub_app by lia. rewrite records_bytes_app.
    rewrite Hs by lia. rewrite Hrec. f_equal. rewrite <- Hl.
    unfold records_bytes. cbn. rewrite app_nil_r. rewrite <- (fwrite_append F), Z.mul_1_l, <- Lrec.
    apply fsub_fwrite_same. apply zlen_nonneg.
Qed.

(** A record begins with a page number: it does not look like a header. *)
Lemma put4_first v n : 0 <= v < 2 ^ 31 -> rd (take n (sqlite3Put4byte v)) 0 <> Some 0xd9.
Proof.
  intros Hv. destruct n; [done|]. cbn. intros [= E]. revert E. unfold u8. rewrite Z.shiftr_div_pow2 by lia.
  assert (v / 2 ^ 24 < 128) by (apply Z.div_lt_upper_bound; lia). assert (0 <= v / 2 ^ 24) by (apply Z.div_pos; lia).
  rewrite Z.mod_small by lia. lia.
Qed.

Lemma rd_take_app_ne {A} (v : A) n (l l' : list A) : l <> [] -> rd l 0 <> Some v -> rd (take n (l ++ l')) 0 <> Some v.
Proof. destruct l as [|a l], n; [done..|]. cbn. done. Qed.

Lemma rd_take_ne (v : Z) n l : rd l 0 <> Some v -> rd (take n l) 0 <> Some v.
Proof. destruct l as [|a l], n; done. Qed.

Lemma wp_append w jd nm b closed bs off (Q : unit -> world -> Prop) (E : Z -> world -> Prop) :
  env w -> jrn w = JLive jd nm -> files_ok (dbf w) jd nm b closed -> off = zlen (now jd) -> 0 < zlen bs ->
  roundup (zlen b) + 512 <= zlen (now jd) -> (zlen (now jd) = roundup (zlen b) + 512 -> rd bs 0 <> Some 0xd9) ->
  (forall w' jd', env w' -> pgr w' = pgr w -> dbf w' = dbf w -> jrn w' = JLive jd' nm -> now jd' = now jd ++ bs ->
     files_ok (dbf w') jd' nm b closed -> Q tt w') ->
  (forall rc w', rc <> SQLITE_OK -> safe w' -> E rc w') ->
  wp (sqlite3OsWrite HJ bs off) Q E w.
Proof.
  intros He Hj Hf -> Hbl Hl Hbs HQ HE. assert (Ht : tail_ok ps N0 b (now jd)) by (destruct Hf as ((_ & _ & Hv) & _); apply Hv, now_version).
  eapply wp_write_tail; [done|exact Hj|apply zlen_nonneg|exact Hbl|exact Hf| | |exact HE].
  - intros n. apply tail_ok_append; [done..|]. intros Hn. by apply rd_take_ne, Hbs.
  - intros w' He' Ep Ed Ej Hf'. eapply HQ; [done|done|done|exact Ej| |exact Hf']. cbn. by rewrite fwrite_append.
Qed.

Lemma wp_bitvec_set pg s w (Q : option (gset Z) -> world -> Prop) E : mem w = [] ->
  Q ((fun s : gset Z => {[pg]} ∪ s) <$> s) w -> wp (bitvec_set pg s) Q E w.
Proof. intros Hm HQ. unfold bitvec_set. apply pwp_bind, wp_malloc_ok; [done|]. by apply pwp_ret. Qed.

Lemma wp_journal_page b closed opened pg data s ck w jd nm (Q : unit -> world -> Prop) (E : Z -> world -> Prop) :
  env w -> conf ps (pgr w) -> jrn w = JLive jd nm -> files_ok (dbf w) jd nm b closed ->
  open_segment ps N0 b (now jd) ck opened -> Forall (record_ok ps N0) opened ->
  journalOff (pgr w) = zlen (now jd) -> cksumInit (pgr w) = ck -> is_u32 ck -> pInJournal (pgr w) = Some s ->
  record_ok ps N0 (pg, data) ->
  (forall w' jd', env w' -> jrn w' = JLive jd' nm -> dbf w' = dbf w -> files_ok (dbf w') jd' nm b closed ->
     open_segment ps N0 b (now jd') ck (opened ++ [(pg, data)]) ->
     pgr w' = set_page pg (fun pPg => pPg <| pg_needSync := true |>)
       (pgr w <| journalOff := zlen (now jd') |> <| nRec ::= Z.succ |> <| pInJournal := Some ({[pg]} ∪ s) |>) -> Q tt w') ->
  (forall rc w', rc <> SQLITE_OK -> safe w' -> E rc w') ->
  wp (journal_page pg data) Q E w.
Proof.
  intros He Hc Hj Hf Hseg Hok Hoff Hck Hcku Hs Hr HQ HE. pose proof (page_size_range ps ps_ok) as Hps.
  pose proof Hr as ((Hp1 & Hp2) & Hp3 & Ld). cbn in Hp1, Hp2, Hp3, Ld.
  assert (Eps : pageSize (pgr w) = ps) by (by eapply conf_pageSize).
  pose proof (zlen_nonneg b) as Lb. destruct (roundup_bounds (zlen b)) as [Hb _]; [lia|]. pose proof (zlen_nonneg opened) as Lo.
  assert (Hl : roundup (zlen b) + 512 <= zlen (now jd)) by (destruct Hseg as (_ & _ & L & _); nia).
  unfold journal_page. apply pwp_bind, wp_pager. unfold PAGER_MJ_PGNO. rewrite Eps, Hoff.
  apply pwp_bind, wp_asserts; [apply negb_true_iff; by apply Z.eqb_neq|].
  assert (Hck1 : pager_cksum (pgr w) data = Ret (page_cksum ck ps data) /\ is_u32 (page_cksum ck ps data)).
  { rewrite <- Hck, <- Eps. apply pager_cksum_ok; [by rewrite Hck|by rewrite Eps]. }
  destruct Hck1 as [Hck1 Hck2]. eapply pwp_bind, wp_lift; [exact Hck1|].
  apply pwp_bind. unfold write32bits. eapply wp_append; [done|exact Hj|exact Hf|done|done|done| | |exact HE].
  { intros _. apply (put4_first pg 4). lia. }
  intros w1 jd1 He1 Ep1 Ed1 Ej1 En1 Hf1. assert (L1 : zlen (now jd1) = zlen (now jd) + 4) by (rewrite En1, zlen_app; done).
  apply pwp_bind, wp_code. eapply wp_append; [done|exact Ej1|exact Hf1|lia|lia|lia|lia| |].
  2: { intros rc w2 Hrc Hw2. apply pwp_bind, wp_upd, pwp_bind, wp_check; [done|]. intros _. by apply HE. }
  intros w2 jd2 He2 Ep2 Ed2 Ej2 En2 Hf2. rewrite Ep1 in Ep2. rewrite Ed1 in Ed2. clear w1 He1 Ep1 Ed1 Ej1 Hf1.
  assert (L2 : zlen (now jd2) = zlen (now jd) + 4 + ps) by (rewrite En2, zlen_app; lia).
  apply pwp_bind, wp_upd, pwp_bind, wp_check_ok, pwp_bind, wp_pager. name_world w3.
  assert (Ep3 : pgr w3 = pgr w <| journalOff ::= Z.add (ps + 4) |>).
  { change (pgr w3) with (pgr w2 <| journalOff ::= Z.add (pageSize (pgr w2) + 4) |>). by rewrite Ep2, Eps. }
  assert (Ed3 : dbf w3 = dbf w) by exact Ed2. assert (Ej3 : jrn w3 = JLive jd2 nm) by exact Ej2.
  assert (Hf3 : files_ok (dbf w3) jd2 nm b closed) by exact Hf2. assert (He3 : env w3) by exact He2.
  clearbody w3. clear w2 He2 Ep2 Ed2 Ej2 Hf2. rewrite Ep3. cbn [journalOff set_field set_journalOff]. rewrite Hoff.
  apply pwp_bind, wp_code. eapply wp_append; [done|exact Ej3|exact Hf3|lia|done|lia|lia| |].
  2: { intros rc w4 Hrc Hw4. apply pwp_bind, wp_upd, pwp_bind, wp_check; [done|]. intros _. by apply HE. }
  intros w4 jd4 He4 Ep4 Ed4 Ej4 En4 Hf4. rewrite Ep3 in Ep4. rewrite Ed3 in Ed4. clear Ep3 Ed3 Ej3 He3 Hf3.
  assert (L4 : zlen (now jd4) = zlen (now jd) + (ps + 8)) by (rewrite En4, zlen_app, zlen_put4; lia).
  assert (En : now jd4 = now jd ++ record_bytes ck ps (pg, data)).
  { rewrite En4, En2, En1. unfold record_bytes. cbn [fst snd]. by rewrite <- !app_assoc. }
  apply pwp_bind, wp_upd, pwp_bind, wp_check_ok. apply pwp_bind, wp_upd. apply pwp_bind, wp_pager. cbn [pgr set_field set_pgr].
  rewrite Ep4. cbn [pInJournal set_field set_nRec set_journalOff]. rewrite Hs.
  apply pwp_bind, wp_asserts; [done|]. apply pwp_bind, wp_bitvec_set; [apply He4|]. apply pwp_bind, wp_upd.
  apply pwp_bind, wp_upd.
  assert (Ens : noSync (pgr w) = false) by (by eapply conf_noSync).
  match goal with |- context [negb (noSync ?p)] => change (noSync p) with (noSync (pgr w)) end. rewrite Ens.
  assert (Est : stmtInUse (pgr w) = false) by (by eapply conf_stmtInUse).
  match goal with |- context [when (stmtInUse ?p) _] => change (stmtInUse p) with (stmtInUse (pgr w)) end.
  rewrite Est. cbn [when negb]. apply pwp_ret.
  eapply (HQ _ jd4); [exact He4|exact Ej4|exact Ed4|exact Hf4| |].
  - rewrite En. by apply open_segment_add.
  - cbn. rewrite Ep4. rewrite L4. unfold set_page. cbn.
    replace (pgr w <| journalOff ::= Z.add (ps + 4) |> <| journalOff ::= Z.add 4 |>)
      with (pgr w <| journalOff := zlen (now jd) + (ps + 8) |>); [done|].
    unfold set_field, set_journalOff. cbn. f_equal. lia.
Qed.

End journal.
