(* ===== verification/PagerTxPage.v ===== *)
(** * Pages come and go

    Getting a page ([wp_sqlite3PagerGet]) and giving it back while a
    transaction runs, with the recycling of memory that this may take: a page
    that is dirty goes to the file, once the journal is synced. *)

From S2P Require Import Prelude Varint PageBytes RecordUpdate DiskFile Pager PagerJournal PagerCache PagerWp.
From S2P Require Import PagerPlayback PagerRecovery PagerLog PagerPages PagerTx PagerTxJournal.

Section page.
Context (ps N0 : Z) (D0 : list Z) (ps_ok : page_size ps) (N0_range : 0 <= N0 < 2 ^ 31) (D0_size : zlen D0 = N0 * ps).
Context (rw : bool).

Local Notation survives := (survives ps D0).
Local Notation files_ok := (files_ok ps N0 D0).
Local Notation cache := (cache ps).
Local Notation env := (env ps D0).
Local Notation safe := (safe ps D0).
Local Notation tx := (tx ps N0 D0).
Local Notation tx_sealed := (tx_sealed ps N0 D0).
Local Notation reading := (reading ps N0 D0).
Local Notation flags := (flags ps N0 D0).
Local Notation page_flags := (page_flags N0).

(** ** Writing pages to the database *)

Lemma with_content_db f w : with_content HDb f w = with_files (modified f (dbf w)) (jrn w) w.
Proof. done. Qed.

Lemma wp_write_db w jd b closed pg data (Q : unit -> world -> Prop) (E : Z -> world -> Prop) :
  env w -> jrn w = JLive jd true -> files_ok (dbf w) jd true b closed -> b <> [] -> zlen data = ps -> 1 <= pg ->
  (pg <= N0 -> pg ∈ closed.*1) ->
  (forall w', env w' -> pgr w' = pgr w -> jrn w' = jrn w -> now (dbf w') = fwrite (now (dbf w)) ((pg - 1) * ps) data ->
     files_ok (dbf w') jd true b closed -> Q tt w') ->
  (forall rc w', rc <> SQLITE_OK -> rc <> SQLITE_IOERR_BLOCKED -> safe w' -> E rc w') ->
  wp (sqlite3OsWrite HDb data ((pg - 1) * ps)) Q E w.
Proof.
  intros He Hj Hf Hb Ld Hpg Hin HQ HE. pose proof (page_size_range ps ps_ok) as Hps. assert (Ho : 0 <= (pg - 1) * ps) by nia.
  assert (Hs : forall n, files_ok (modified (fwrite (now (dbf w)) ((pg - 1) * ps) (take n data)) (dbf w)) jd true b closed).
  { intros n. by apply files_ok_page. }
  unfold sqlite3OsWrite. apply pwp_bind, wp_asserts; [apply Z.ltb_lt; lia|]. apply pwp_bind, wp_refused.
  - intros n. rewrite (proj2 (Z.ltb_ge _ 0)) by done. eapply pwp_bind, wp_content; [done|]. cbn iota.
    eapply wp_set_content; [by left|done|]. specialize (Hs (length data)). rewrite firstn_all in Hs.
    rewrite with_content_db. apply HQ; [|done..|done]. apply env_files; [by apply env_called|].
    change (jrn (w <| io ::= tail |>)) with (jrn w). rewrite Hj. by eapply files_ok_survives.
  - intros _ rc n Hrc. rewrite (proj2 (Z.ltb_ge _ 0)) by done. eapply pwp_bind, wp_content; [done|]. cbn iota.
    eapply pwp_bind, wp_set_content; [by left|done|]. apply wp_throw, HE; [by destruct (rc =? SQLITE_FULL)..|].
    rewrite with_content_db. eapply env_safe, env_files; [by apply env_called|].
    change (jrn (w <| io ::= tail |>)) with (jrn w). rewrite Hj. by eapply files_ok_survives.
Qed.

Definition page_data (p : Pager) (pg : Z) : list Z := match pAll p !! pg with Some x => pData x | None => [] end.

Definition put_pages (p : Pager) (d : list Z) (l : list Z) : list Z :=
  foldl (fun d pg => fwrite d ((pg - 1) * ps) (page_data p pg)) d l.

Lemma wp_write_pages b closed jd l w (Q : unit -> world -> Prop) (E : Z -> world -> Prop) :
  env w -> jrn w = JLive jd true -> files_ok (dbf w) jd true b closed -> b <> [] -> pageSize (pgr w) = ps ->
  dbSize (pgr w) <= 2 ^ 31 ->
  (forall pg, pg ∈ l -> exists x, pAll (pgr w) !! pg = Some x /\ zlen (pData x) = ps /\ 1 <= pg <= dbSize (pgr w) /\
     (pg <= N0 -> pg ∈ closed.*1)) -> zlen (dbFileVers (pgr w)) = 16 ->
  (forall w' dv, env w' -> jrn w' = jrn w -> pgr w' = pgr w <| dbFileVers := dv |> -> zlen dv = 16 ->
     files_ok (dbf w') jd true b closed -> now (dbf w') = put_pages (pgr w) (now (dbf w)) l -> Q tt w') ->
  (forall rc w', rc <> SQLITE_OK -> rc <> SQLITE_IOERR_BLOCKED -> safe w' -> E rc w') ->
  wp (write_pages l) Q E w.
Proof.
  revert w. induction l as [|pg l IH]; intros w He Hj Hf Hb Eps Hsz Hl Hv HQ HE; cbn [write_pages].
  - apply pwp_ret. apply (HQ w (dbFileVers (pgr w))); try done. by destruct (pgr w).
  - pose proof (page_size_range ps ps_ok) as Hps.
    destruct (Hl pg) as (x & Hx & Ld & Hpg & Hin); [left|]. apply pwp_bind, wp_pager. rewrite Hx. eapply pwp_bind, wp_lift; [done|].
    rewrite (u32_id (dbSize (pgr w))), (proj2 (Z.leb_le pg (dbSize (pgr w)))) by (unfold is_u32; lia). cbn [when]. rewrite Eps.
    apply pwp_bind, pwp_bind, wp_code. eapply wp_write_db; [done|exact Hj|exact Hf|done|done|lia|done| |].
    2: { intros rc w1 Hrc Hbl Hw1. apply pwp_bind, wp_when_upd, wp_check; [done|]. intros _. apply HE; [done..|]. by destruct (pg =? 1). }
    intros w1 He1 Ep1 Ej1 En1 Hf1. apply pwp_bind, wp_when_upd, wp_check_ok. name_world w2.
    assert (Hdv : exists dv, zlen dv = 16 /\ pgr w2 = pgr w <| dbFileVers := dv |>).
    { unfold w2. destruct (pg =? 1).
      - exists (fsub (pData x) 24 16). split; [apply fsub_zlen; lia|]. cbn. by rewrite Ep1.
      - exists (dbFileVers (pgr w)). split; [done|]. rewrite Ep1. by destruct (pgr w). }
    assert (Ew : env w2 /\ jrn w2 = jrn w1 /\ dbf w2 = dbf w1) by (unfold w2; by destruct (pg =? 1)).
    destruct Hdv as (dv & Ldv & Ep2). destruct Ew as (He2 & Ej2 & Ed2). clearbody w2.
    apply IH; [done|by rewrite Ej2, Ej1|by rewrite Ed2|done|by rewrite Ep2|by rewrite Ep2| |by rewrite Ep2| |done].
    { intros q Hq. rewrite Ep2. apply Hl. by right. }
    intros w3 dv' He3 Ej3 Ep3 Ldv' Hf3 En3. apply (HQ w3 dv'); [done|congruence| |done|done|].
    { rewrite Ep3, Ep2. done. }
    rewrite En3, Ed2, En1. unfold put_pages at 2. cbn [foldl]. unfold page_data at 2. rewrite Hx.
    rewrite Ep2. done.
Qed.

(** The pages of the file after some were written. *)
Lemma put_pages_ok p d l m : (forall pg, pg ∈ l -> zlen (page_data p pg) = ps /\ 1 <= pg <= m) -> zlen d <= m * ps ->
  zlen (put_pages p d l) <= m * ps /\
  forall q, 1 <= q -> fpage ps (put_pages p d l) q = if decide (q ∈ l) then page_data p q else fpage ps d q.
Proof.
  pose proof (page_size_range ps ps_ok) as Hps. revert d. induction l as [|pg l IH]; intros d Hl Ld; [done|].
  destruct (Hl pg) as [Lp Hpg]; [left|]. cbn [put_pages foldl]. unfold put_pages in *. cbn [foldl].
  destruct (IH (fwrite d ((pg - 1) * ps) (page_data p pg))) as [H1 H2].
  - intros q Hq. apply Hl. by right.
  - rewrite fwrite_zlen by nia. nia.
  - split; [done|]. intros q Hq. rewrite H2 by done. rewrite fpage_fwrite by lia.
    destruct (decide (q ∈ l)) as [Hin|Hin]; [by rewrite decide_True by by right|].
    destruct (decide (q = pg)) as [->|Hne]; [by rewrite decide_True by left|].
    rewrite decide_False; [done|]. by intros [?|?]%elem_of_cons.
Qed.

Lemma merge_pagelist_perm pA pB : merge_pagelist pA pB ≡ₚ pA ++ pB.
Proof.
  revert pB. induction pA as [|a pA IHA]; intros pB; [done|]. induction pB as [|b pB IHB]; [cbn; by rewrite app_nil_r|].
  cbn. destruct (a <? b).
  - by rewrite IHA.
  - rewrite IHB. exact (Permutation_middle (a :: pA) pB b).
Qed.

Lemma put_bucket_perm a l : a <> [] -> put_bucket a l <> [] /\ concat (put_bucket a l) ≡ₚ l ++ concat a.
Proof.
  revert l. induction a as [|x a IH]; intros l Ha; [done|]. destruct a as [|y a].
  - cbn. split; [done|]. rewrite !app_nil_r. rewrite merge_pagelist_perm. by rewrite Permutation_app_comm.
  - destruct x as [|c x].
    + split; [done|]. done.
    + destruct (IH (merge_pagelist (c :: x) l)) as [H1 H2]; [done|]. split; [done|].
      change (concat (put_bucket (y :: a) (merge_pagelist (c :: x) l)) ≡ₚ l ++ (c :: x) ++ concat (y :: a)).
      rewrite H2, merge_pagelist_perm, !app_assoc. apply Permutation_app_tail. by rewrite Permutation_app_comm.
Qed.

Lemma sort_pagelist_perm l : sort_pagelist l ≡ₚ l.
Proof.
  unfold sort_pagelist. set (a0 := replicate N_SORT_BUCKET []).
  assert (H : forall l a, a <> [] -> foldl (fun a pgno => put_bucket a [pgno]) a l <> [] /\
    concat (foldl (fun a pgno => put_bucket a [pgno]) a l) ≡ₚ l ++ concat a).
  { clear. induction l as [|pg l IH]; intros a Ha; [done|]. cbn [foldl]. destruct (put_bucket_perm a [pg] Ha) as [H1 H2].
    destruct (IH _ H1) as [H3 H4]. split; [done|]. rewrite H4, H2. cbn. by rewrite Permutation_middle. }
  destruct (H l a0) as [H1 H2]; [done|]. destruct (foldl _ a0 l) as [|p a]; [done|].
  assert (Hm : forall a p, foldl merge_pagelist p a ≡ₚ p ++ concat a).
  { clear. induction a as [|x a IH]; intros p; cbn; [by rewrite app_nil_r|]. by rewrite IH, merge_pagelist_perm, app_assoc. }
  rewrite Hm. change (p ++ concat a) with (concat (p :: a)). rewrite H2. replace (concat a0) with (@nil Z) by done. by rewrite app_nil_r.
Qed.

(** The pages of a list are not dirty any more. *)
Lemma clean_pages_lookup l p q :
  pAll (foldr (fun pg => set_page pg (fun pPg => pPg <| dirty := false |>)) p l) !! q =
    if decide (q ∈ l) then (fun pPg => pPg <| dirty := false |>) <$> pAll p !! q else pAll p !! q.
Proof.
  induction l as [|pg l IH]; [done|]. cbn [foldr]. rewrite set_page_lookup, IH.
  destruct (decide (q = pg)) as [->|Hq].
  - rewrite (decide_True (P := pg ∈ pg :: l)) by left. case_decide; [|done]. by destruct (pAll p !! pg).
  - case_decide as H1; case_decide as H2; try done.
    + destruct H2. by right.
    + by apply elem_of_cons in H2 as [?|?].
Qed.

Lemma clean_pages_rest l p : exists m, foldr (fun pg => set_page pg (fun pPg => pPg <| dirty := false |>)) p l = p <| pAll := m |>.
Proof.
  induction l as [|pg l [m IH]]; [exists (pAll p); by destruct p|]. cbn [foldr]. rewrite IH. by eexists.
Qed.

Lemma wp_write_pagelist busy b closed jd l w (Q : unit -> world -> Prop) (E : Z -> world -> Prop) :
  env w -> jrn w = JLive jd true -> files_ok (dbf w) jd true b closed -> b <> [] -> conf ps (pgr w) -> dbSize (pgr w) <= 2 ^ 31 ->
  state (pgr w) = PAGER_RESERVED \/ state (pgr w) = PAGER_EXCLUSIVE -> l <> [] ->
  (forall pg, pg ∈ l -> exists x, pAll (pgr w) !! pg = Some x /\ dirty x = true /\ zlen (pData x) = ps /\ 1 <= pg <= dbSize (pgr w) /\
     (pg <= N0 -> pg ∈ closed.*1)) ->
  (forall w' dv m, env w' -> jrn w' = jrn w -> zlen dv = 16 ->
     pgr w' = pgr w <| state := PAGER_EXCLUSIVE |> <| pAll := m |> <| dbFileVers := dv |> ->
     (forall q, m !! q = if decide (q ∈ l) then (fun pPg => pPg <| dirty := false |>) <$> pAll (pgr w) !! q else pAll (pgr w) !! q) ->
     files_ok (dbf w') jd true b closed -> now (dbf w') = put_pages (pgr w) (now (dbf w)) (sort_pagelist l) -> Q tt w') ->
  (forall rc w', rc <> SQLITE_OK -> rc <> SQLITE_IOERR_BLOCKED -> safe w' -> E rc w') ->
  wp (pager_write_pagelist busy l) Q E w.
Proof.
  intros He Hj Hf Hb Hc Hsz Hst Hne Hl HQ HE. destruct l as [|a l']; [done|]. set (l := a :: l') in *. unfold pager_write_pagelist.
  change (wp (pager_wait_on_lock busy EXCLUSIVE_LOCK;; p ← pager; let pList := sort_pagelist l in
     asserts (forallb (fun pgno => match pAll p !! pgno with Some pPg => dirty pPg | None => false end) pList);;
     upd (fun p => foldr (fun pgno => set_page pgno (fun pPg => pPg <| dirty := false |>)) p pList);;
     write_pages pList) Q E w).
  apply pwp_bind, wp_wait_excl; [apply He|by right|..].
  2: { intros io' rc Hio Hrc Hbl. apply HE; [done..|]. apply He. }
  intros io' Hio. apply pwp_bind, wp_pager. cbn zeta.
  assert (Hin : forall q, q ∈ sort_pagelist l <-> q ∈ l) by (intros q; by rewrite sort_pagelist_perm).
  apply pwp_bind, wp_asserts.
  { apply forallb_forall. intros q Hq. apply list_elem_of_In, Hin in Hq. destruct (Hl q Hq) as (x & Hx & Hd & _).
    cbn. by rewrite Hx. }
  apply pwp_bind, wp_upd. cbn [pgr set_field set_pgr]. set (p1 := pgr w <| state := PAGER_EXCLUSIVE |>).
  name_world w2.
  destruct (clean_pages_rest (sort_pagelist l) p1) as [m Em].
  assert (Ep2 : pgr w2 = p1 <| pAll := m |>) by exact Em.
  assert (Hm : forall q, m !! q = if decide (q ∈ l) then (fun pPg => pPg <| dirty := false |>) <$> pAll (pgr w) !! q else pAll (pgr w) !! q).
  { intros q. pose proof (clean_pages_lookup (sort_pagelist l) p1 q) as H. rewrite Em in H. cbn in H. rewrite H.
    destruct (decide (q ∈ sort_pagelist l)) as [H1|H1], (decide (q ∈ l)) as [H2|H2]; try done; exfalso; [by apply H2, Hin|by apply H1, Hin]. }
  assert (He2 : env w2) by (refine (conj Hio (conj _ _)); apply He).
  assert (Ej2 : jrn w2 = jrn w) by done. assert (Ed2 : dbf w2 = dbf w) by done. clearbody w2.
  assert (Hdata : forall d k, (forall q, q ∈ k -> q ∈ l) -> put_pages (pgr w2) d k = put_pages (pgr w) d k).
  { intros d k. revert d. induction k as [|q k IH]; intros d Hk; [done|]. unfold put_pages in *. cbn [foldl].
    rewrite IH by (intros r Hr; apply Hk; by right). f_equal. f_equal. unfold page_data. rewrite Ep2. cbn. rewrite Hm.
    rewrite decide_True by (apply Hk; left). by destruct (pAll (pgr w) !! q). }
  eapply (wp_write_pages b closed jd); [done|by rewrite Ej2|by rewrite Ed2|done| |by rewrite Ep2| | | |exact HE].
  - rewrite Ep2. by eapply conf_pageSize.
  - intros q Hq%Hin. destruct (Hl q Hq) as (x & Hx & Hd & Ld & Hr & Hcl). exists (x <| dirty := false |>).
    rewrite Ep2. cbn. rewrite Hm, decide_True by done. rewrite Hx. done.
  - rewrite Ep2. by eapply conf_vers.
  - intros w3 dv He3 Ej3 Ep3 Ldv Hf3 En3. apply (HQ w3 dv m); [done|congruence|done|by rewrite Ep3, Ep2|done|done|].
    rewrite En3, Ed2. apply Hdata. intros q. apply Hin.
Qed.

(** ** Evicting a page *)

(** A process that holds page 1; [rw] says that it has written. *)
Definition active (e : option Z) (L : Z -> list Z) (w : world) : Prop :=
  (rw = false /\ reading e L w) \/ exists b closed opened, tx e b closed opened L w.

Lemma active_safe e L w : active e L w -> safe w.
Proof. intros [[_ [(_ & _ & H) _]]|(b & closed & opened & (_ & _ & H) & _)]; done. Qed.

Lemma active_conf e L w : active e L w -> conf ps (pgr w).
Proof. intros [(_ & _ & H & _)|(b & closed & opened & _ & H & _)]; done. Qed.

Lemma active_env e L w : active e L w -> env w.
Proof. intros [(_ & H & _)|(b & closed & opened & H & _)]; done. Qed.

Lemma active_cache e L w : active e L w -> cache L (now (dbf w)) (pgr w).
Proof.
  intros [(_ & _ & _ & _ & _ & _ & _ & _ & -> & _ & H & _)|(b & closed & opened & _ & _ & _ & _ & _ & _ & H & _)]; done.
Qed.

Lemma active_held e L w : active e L w -> held 1 (pgr w).
Proof. intros [[_ H]|(b & closed & opened & H)]; apply H. Qed.

Lemma active_state e L w : active e L w -> state (pgr w) = PAGER_SHARED \/ state (pgr w) = PAGER_RESERVED \/ state (pgr w) = PAGER_EXCLUSIVE.
Proof. intros [(_ & _ & _ & H & _)|(b & closed & opened & _ & _ & [[H|H] _] & _)]; auto. Qed.

Lemma active_io e L w l : active e L w -> io_ok l -> active e L (w <| io := l |>).
Proof.
  intros [(Erw & (_ & He2) & H)|(b & closed & opened & (_ & He2) & H)] Hl; [left; split; [done|]|right; exists b, closed, opened];
    by refine (conj (conj _ He2) H).
Qed.

Lemma flags_open L closed opened p e pg x : flags e L closed opened p -> pAll p !! pg = Some x -> pg_needSync x = false -> pg ∉ opened.*1.
Proof. intros (_ & _ & H & _) Hx Hn Hin. destruct (H pg x Hx) as (_ & _ & _ & F & _). by rewrite (F Hin) in Hn. Qed.

(** What is not in the cache cannot be wrong. *)
Lemma flags_unlink L closed opened p e pg : flags e L closed opened p -> pg ∉ opened.*1 -> flags e L closed opened (unlinkPage pg p).
Proof.
  intros (H1 & H2 & H3 & H4 & H5) Hno. split_and!; [done|done| | |done].
  - intros q x Hx. unfold unlinkPage in Hx. cbn in Hx. apply lookup_delete_Some in Hx as [_ Hx]. by apply H3.
  - intros q Hq. unfold unlinkPage. cbn. rewrite lookup_delete_ne; [by apply H4|]. by intros ->.
Qed.

Lemma held_unlink pg q p : held q p -> (forall x, pAll p !! pg = Some x -> pg_nRef x = 0) -> held q (unlinkPage pg p).
Proof.
  intros (x & Hx & Hn) H0. exists x. split; [|done]. unfold unlinkPage. cbn. rewrite lookup_delete_ne; [done|].
  intros ->. specialize (H0 x Hx). lia.
Qed.

Lemma active_evict L w pg x : active None L w -> pAll (pgr w) !! pg = Some x -> pg_nRef x = 0 -> dirty x = false ->
  (pg_needSync x = false) -> active None L (w <| pgr ::= unlinkPage pg |>).
Proof.
  intros H Hx Hn Hd Hs. pose proof (active_cache _ _ _ H) as Hca. pose proof (active_held _ _ _ H) as Hh.
  pose proof (cache_evict ps L (now (dbf w)) (pgr w) pg x Hca Hx Hn Hd) as Hca'.
  assert (Hh' : held 1 (unlinkPage pg (pgr w))) by (apply held_unlink; [done|]; intros y Hy; congruence).
  destruct H as [(Erw & He & Hc & Hst & Hjo & Hpj & Hns & Hj & Hdb & Hsz & _ & HL & Hfl & _)|
    (b & closed & opened & He & Hc & Hrun & Hsz & Hst & Hdk & _ & Hfl & _)].
  - left. split; [exact Erw|]. rewrite Hdb in Hca'. refine (conj He (conj Hc (conj Hst (conj Hjo (conj Hpj (conj Hns (conj Hj (conj Hdb (conj Hsz
      (conj Hca' (conj HL (conj _ Hh')))))))))))). intros q y Hy. apply (Hfl q). cbn in Hy. by apply lookup_delete_Some in Hy as [_ Hy].
  - right. exists b, closed, opened. refine (conj He (conj Hc (conj Hrun (conj Hsz (conj Hst (conj Hdk (conj Hca' (conj _ Hh')))))))).
    apply flags_unlink; [done|]. by eapply flags_open.
Qed.

(** ** A dirty page goes to the file *)

Lemma flags_changed e L closed opened p p' pg y : flags e L closed opened p -> changed pg p p' ->
  pInJournal p' = pInJournal p -> (needSync p = true -> needSync p' = true) -> journalStarted p' = journalStarted p ->
  dbSize p <= dbSize p' -> (dirtyCache p = true -> dirtyCache p' = true) -> pAll p' !! pg = Some y ->
  page_flags e closed opened p' pg y -> flags e L closed opened p'.
Proof.
  intros (H1 & H2 & H3 & H4 & H5) Hch E1 E2 E3 E4 E5 Hy Hf. split_and!; [done|by rewrite E1| | |done].
  - intros q x Hx. destruct (decide (q = pg)) as [->|Hq]; [congruence|]. rewrite Hch in Hx by done.
    destruct (H3 q x Hx) as (F1 & F2 & F3 & F4 & F5). split_and!; [auto| |done|done|].
    + by rewrite E3.
    + intros He Hd. destruct (F5 He Hd) as (?&?&?). split_and!; [lia|done|auto].
  - intros q Hq. destruct (decide (q = pg)) as [->|Hne]; [by eexists|]. rewrite Hch by done. by apply H4.
Qed.

Lemma held_changed pg p p' q x y : held q p -> changed pg p p' -> pAll p !! pg = Some x -> pAll p' !! pg = Some y ->
  pg_nRef y = pg_nRef x -> held q p'.
Proof.
  intros (z & Hz & Hn) Hch Hx Hy E. destruct (decide (q = pg)) as [->|Hq].
  - exists y. split; [done|]. assert (z = x) as -> by congruence. lia.
  - exists z. by rewrite Hch.
Qed.

Lemma disk_named b closed opened w jd nm : b <> [] -> disk ps N0 D0 b closed opened w -> jrn w = JLive jd nm ->
  nm = true /\ files_ok (dbf w) jd true b closed.
Proof. intros Hb (jd' & nm' & ck & Hj & Hf & Hnm & _) E. rewrite Hj in E. injection E as <- <-. specialize (Hnm Hb). by subst. Qed.

(** The database changed, and the pages with it. *)
Lemma disk_db b closed opened w w' jd nm : disk ps N0 D0 b closed opened w -> jrn w = JLive jd nm -> jrn w' = jrn w ->
  files_ok (dbf w') jd nm b closed ->
  journalHdr (pgr w') = journalHdr (pgr w) -> journalOff (pgr w') = journalOff (pgr w) -> nRec (pgr w') = nRec (pgr w) ->
  cksumInit (pgr w') = cksumInit (pgr w) -> pTmpSpace (pgr w') = pTmpSpace (pgr w) -> disk ps N0 D0 b closed opened w'.
Proof.
  intros (jd' & nm' & ck & Hj & Hf & Hnm & Hseg & Hok & Ho & Hhdr & Hoff & Hrec & Hck & Hharm) E Ej Hf' E1 E2 E3 E4 E5.
  rewrite Hj in E. injection E as <- <-. exists jd', nm', ck. split_and!; try done; congruence.
Qed.

Lemma clean_dirty_pages p pg x : pAll p !! pg = Some x -> dirty x = true ->
  exists m, set_page pg (fun pPg => pPg <| dirty := true |>) (makeClean pg p) = p <| pAll := m |> <| pDirty ::= without pg |> /\
    forall q, m !! q = pAll p !! q.
Proof.
  intros Hx Hd. unfold makeClean. rewrite Hx, Hd.
  exists (alter (fun y => y <| dirty := true |>) pg (alter (fun y => y <| dirty := false |>) pg (pAll p))).
  split; [reflexivity|]. intros q.
  destruct (decide (q = pg)) as [->|Hq].
  - rewrite !lookup_alter_eq, Hx. cbn. f_equal. destruct x. cbn in *. by subst.
  - by rewrite !lookup_alter_ne by done.
Qed.

Lemma wp_write_dirty busy b closed opened L w pg x (Q : unit -> world -> Prop) (E : Z -> world -> Prop) :
  tx None b closed opened L w -> pAll (pgr w) !! pg = Some x -> dirty x = true -> pg_needSync x = false ->
  (forall w', tx None b closed opened L w' -> pAll (pgr w') !! pg = Some (x <| dirty := false |>) -> changed pg (pgr w) (pgr w') -> Q tt w') ->
  (forall rc w', rc <> SQLITE_OK -> safe w' -> E rc w') ->
  wp (upd (makeClean pg);; upd (set_page pg (fun pPg => pPg <| dirty := true |>));;
      rc ← code (pager_write_pagelist busy [pg]); upd (set_page pg (fun pPg => pPg <| dirty := false |>));; check rc) Q E w.
Proof.
  intros (He & Hc & Hrun & Hsz & Hst & Hdk & Hca & Hfl & Hh) Hx Hd Hs HQ HE.
  pose proof (page_size_range ps ps_ok) as Hps.
  pose proof (cache_page ps L _ _ _ _ Hca Hx) as ((Hv1 & Hv2) & Ld & EL & _).
  pose proof (flags_open _ _ _ _ _ _ _ Hfl Hx Hs) as Hno.
  assert (Hpf : pg <= dbSize (pgr w) /\ (pg <= N0 -> pg ∈ closed.*1) /\ journalStarted (pgr w) = true).
  { destruct Hfl as (_ & _ & H3 & _). destruct (H3 pg x Hx) as (_ & F2 & _ & _ & F5). destruct (F5 ltac:(done) Hd) as (? & Hi & _).
    destruct (F2 Hi) as [G1 G2]. split_and!; [done| |auto]. intros Hp. specialize (G1 Hp). rewrite fmap_app in G1.
    by apply elem_of_app in G1 as [?|?]. }
  destruct Hpf as (Hpdb & Hpin & Hstart). assert (Hb : b <> []) by (by apply Hst).
  pose proof Hdk as (jd & nm & ck & Hj & _). destruct (disk_named _ _ _ _ _ _ Hb Hdk Hj) as [-> Hf].
  apply pwp_bind, wp_upd. apply pwp_bind, wp_upd. name_world w2.
  destruct (clean_dirty_pages (pgr w) pg x Hx Hd) as (m & Em & Hm).
  assert (Ep2 : pgr w2 = pgr w <| pAll := m |> <| pDirty ::= without pg |>) by exact Em.
  assert (He2 : env w2) by exact He. assert (Ej2 : jrn w2 = JLive jd true) by exact Hj. assert (Ed2 : dbf w2 = dbf w) by done.
  clearbody w2. clear Em.
  apply pwp_bind, wp_code. eapply (wp_write_pagelist busy b closed jd [pg]); [done|done|by rewrite Ed2|done|by rewrite Ep2|rewrite Ep2; apply Hsz| |done| | |].
  { rewrite Ep2. apply Hrun. }
  { intros q ->%list_elem_of_singleton. exists x. rewrite Ep2. cbn. rewrite Hm. split_and!; done || lia. }
  2: { intros rc w3 Hrc _ Hw3. apply pwp_bind, wp_upd, wp_check; [done|]. intros _. by apply HE. }
  intros w3 dv m3 He3 Ej3 Ldv Ep3 Hm3 Hf3 En3. apply pwp_bind, wp_upd, wp_check_ok.
  match goal with |- Q tt ?x => set (w4 := x) end.
  rewrite Ep2 in Ep3. rewrite Ep2, Ed2 in En3. cbn [pAll set_field set_pDirty set_pAll pgr] in Hm3.
  set (p4 := pgr w4). assert (Ep4 : p4 = set_page pg (fun pPg => pPg <| dirty := false |>) (pgr w3)) by done.
  assert (Hch : changed pg (pgr w) p4).
  { intros q Hq. rewrite Ep4, set_page_other by done. rewrite Ep3. cbn. rewrite Hm3, Ep2. cbn.
    rewrite decide_False by (by intros ?%list_elem_of_singleton). apply Hm. }
  assert (Hx4 : pAll p4 !! pg = Some (x <| dirty := false |>)).
  { rewrite Ep4, set_page_lookup, decide_True by done. rewrite Ep3. cbn. rewrite Hm3, Ep2. cbn.
    rewrite decide_True by (by apply list_elem_of_singleton). by rewrite Hm, Hx. }
  assert (Hd4 : now (dbf w4) = fwrite (now (dbf w)) ((pg - 1) * ps) (pData x)).
  { change (dbf w4) with (dbf w3). rewrite En3. change (sort_pagelist [pg]) with [pg]. cbn. unfold page_data. cbn. by rewrite Hm, Hx. }
  assert (He4 : env w4) by exact He3. assert (Ej4 : jrn w4 = jrn w) by (change (jrn w4) with (jrn w3); congruence).
  assert (Hf4 : files_ok (dbf w4) jd true b closed) by exact Hf3.
  assert (Ep : exists m4, p4 = pgr w <| pDirty ::= without pg |> <| state := PAGER_EXCLUSIVE |> <| pAll := m4 |> <| dbFileVers := dv |>).
  { rewrite Ep4, Ep3. by eexists. }
  destruct Ep as [m4 Ep]. clear Ep4. subst p4. clearbody w4. clear w3 He3 Ej3 Ep3 Hf3 En3 Hm3.
  assert (Hpo : forall d q, q <> pg -> valid ps q -> fpage ps (fwrite d ((pg - 1) * ps) (pData x)) q = fpage ps d q).
  { intros d q Hq [Hq1 _]. rewrite fpage_fwrite by lia. by rewrite decide_False. }
  apply HQ; [|exact Hx4|exact Hch].
  refine (conj He4 (conj _ (conj _ (conj _ (conj _ (conj _ (conj _ (conj _ _)))))))).
  - rewrite Ep. unfold conf in *. cbn. tauto.
  - rewrite Ep. destruct Hrun as (_ & Hr). split; [by right|exact Hr].
  - destruct Hsz as [Hs1 Hs2]. unfold sizes. rewrite Hd4, Ep. split; [exact Hs1|]. cbn. rewrite fwrite_zlen by nia. nia.
  - unfold started in *. by rewrite Ep.
  - eapply disk_db; [exact Hdk|exact Hj|exact Ej4|exact Hf4|by rewrite Ep..].
  - rewrite Hd4. eapply (cache_written ps L (now (dbf w)) (pgr w) pg x Hca Hx); try done; try by rewrite Ep.
    + by rewrite fpage_fwrite, decide_True by lia.
    + intros q. apply Hpo.
  - eapply flags_changed; [exact Hfl|exact Hch|by rewrite Ep|by rewrite Ep|by rewrite Ep|rewrite Ep; cbn; lia|by rewrite Ep|exact Hx4|].
    destruct Hfl as (_ & _ & H3 & _). destruct (H3 pg x Hx) as (F1 & F2 & F3 & F4 & F5). rewrite Ep. split_and!; [exact F1|exact F2|exact F3|exact F4|done].
  - eapply held_changed; [exact Hh|exact Hch|exact Hx|exact Hx4|done].
Qed.

(** ** Recycling *)

(** No page came. *)
Definition no_new (w w' : world) : Prop := forall q, pAll (pgr w) !! q = None -> pAll (pgr w') !! q = None.

(** The part of [pager_recycle] that frees a page. *)
Definition recycle_page (busy : nat -> bool) (pgno : Z) : M unit :=
  p ← pager;
  pPg ← lift (of_opt (pAll p !! pgno));
  asserts (pg_nRef pPg =? 0);;
  when (dirty pPg)
    (asserts (negb (pg_needSync pPg));;
     upd (makeClean pgno);;
     upd (set_page pgno (fun pPg => pPg <| dirty := true |>));;
     rc ← code (pager_write_pagelist busy [pgno]);
     upd (set_page pgno (fun pPg => pPg <| dirty := false |>));;
     check rc);;
  p ← pager;
  pPg ← lift (of_opt (pAll p !! pgno));
  asserts (negb (dirty pPg));;
  when (pg_alwaysRollback pPg) (upd (fun p => p <| alwaysRollback := true |>));;
  upd (unlinkPage pgno).

Lemma wp_recycle_page busy L w pg x (Q : unit -> world -> Prop) (E : Z -> world -> Prop) :
  active None L w -> pAll (pgr w) !! pg = Some x -> pg_nRef x = 0 -> pg_needSync x = false ->
  (forall w', active None L w' -> no_new w w' -> Q tt w') ->
  (forall rc w', rc <> SQLITE_OK -> safe w' -> E rc w') ->
  wp (recycle_page busy pg) Q E w.
Proof.
  intros H Hx Hn Hs HQ HE. unfold recycle_page. apply pwp_bind, wp_pager. rewrite Hx. eapply pwp_bind, wp_lift; [done|].
  apply pwp_bind, wp_asserts; [by rewrite Hn|].
  assert (Hend : forall w1 E1, active None L w1 -> pAll (pgr w1) !! pg = Some (x <| dirty := false |>) -> no_new w w1 ->
    wp (p ← pager; pPg ← lift (of_opt (pAll p !! pg)); asserts (negb (dirty pPg));;
        when (pg_alwaysRollback pPg) (upd (fun p => p <| alwaysRollback := true |>));; upd (unlinkPage pg)) Q E1 w1).
  { intros w1 E1 H1 Hx1 Hnn. apply pwp_bind, wp_pager. rewrite Hx1. eapply pwp_bind, wp_lift; [done|].
    apply pwp_bind, wp_asserts; [done|]. pose proof (cache_page ps L _ _ _ _ (active_cache _ _ _ H1) Hx1) as (_ & _ & _ & _ & Ha & _).
    rewrite Ha. cbn [when]. apply pwp_bind, pwp_ret, wp_upd. apply HQ; [by eapply active_evict|].
    intros q Hq. cbn. destruct (decide (q = pg)) as [->|Hne]; [apply lookup_delete_eq|]. rewrite lookup_delete_ne by done. by apply Hnn. }
  destruct (dirty x) eqn:Hd; cbn [when].
  - apply pwp_bind. rewrite Hs. apply pwp_bind, wp_asserts; [done|].
    destruct H as [(_ & _ & _ & _ & _ & _ & _ & _ & _ & _ & _ & _ & Hfl & _)|(b & closed & opened & H)].
    { destruct (Hfl pg x Hx) as [Hf _]. by rewrite Hf in Hd. }
    eapply wp_write_dirty; [exact H|exact Hx|done|done| |exact HE]. intros w1 H1 Hx1 Hch.
    apply Hend; [right; by eexists _, _, _|done|]. intros q Hq. rewrite Hch; [done|]. intros ->. by rewrite Hx in Hq.
  - apply pwp_bind, pwp_ret. apply Hend; [done| |by intros q Hq]. rewrite Hx. f_equal. destruct x. cbn in *. by subst.
Qed.

Lemma pager_recycle_page busy : pager_recycle busy =
  (p ← pager;
   asserts (match lru p with [] => false | _ => true end);;
   pgno ← match pFirstSynced p with
          | Some pgno => mret pgno
          | None =>
             syncJournal;;
             p ← pager;
             when (fullSync p && (Z.land unixDeviceCharacteristics SQLITE_IOCAP_SAFE_APPEND =? 0))
               (upd (fun p => p <| nRec := 0 |>);;
                asserts (0 <? journalOff p);;
                asserts (negb (doNotSync p));;
                writeJournalHdr);;
             p ← pager; lift (of_opt (head (lru p)))
          end;
   recycle_page busy pgno).
Proof. reflexivity. Qed.

Lemma wp_pager_recycle busy L w (Q : unit -> world -> Prop) (E : Z -> world -> Prop) :
  active None L w -> lru (pgr w) <> [] ->
  (forall w', active None L w' -> no_new w w' -> Q tt w') ->
  (forall rc w', rc <> SQLITE_OK -> safe w' -> E rc w') ->
  wp (pager_recycle busy) Q E w.
Proof.
  intros H Hl HQ HE. rewrite pager_recycle_page. apply pwp_bind, wp_pager.
  destruct (active_cache _ _ _ H) as (_ & _ & (L1 & L2 & L3) & _).
  apply pwp_bind, wp_asserts; [by destruct (lru (pgr w))|].
  destruct (pFirstSynced (pgr w)) as [pg|] eqn:Ef.
  - apply pwp_bind, pwp_ret. symmetry in L3. apply find_some_pg in L3 as [Hin Hs]. apply L2 in Hin as (x & Hx & Hn).
    unfold is_synced in Hs. rewrite Hx in Hs. apply negb_true_iff in Hs. by eapply wp_recycle_page.
  - apply pwp_bind. assert (Hhd : exists pg x, pg ∈ lru (pgr w) /\ pAll (pgr w) !! pg = Some x /\ pg_needSync x = true).
    { destruct (lru (pgr w)) as [|pg l] eqn:El; [done|]. assert (Hin : pg ∈ pg :: l) by left.
      apply L2 in Hin as (x & Hx & _). exists pg, x. split_and!; [left|done|]. cbn in L3. unfold is_synced at 1 in L3. rewrite Hx in L3.
      destruct (pg_needSync x); [done|discriminate L3]. }
    destruct Hhd as (pg0 & x0 & Hin0 & Hx0 & Hs0).
    destruct H as [(_ & _ & _ & _ & _ & _ & _ & _ & _ & _ & _ & _ & Hfl & _)|(b & closed & opened & H)].
    { destruct (Hfl pg0 x0 Hx0) as (_ & F & _). by rewrite F in Hs0. }
    apply pwp_bind. eapply wp_syncJournal; [done..|exact H| | |exact HE].
    2: { intros _ _ Hno. by rewrite (Hno _ _ Hx0) in Hs0. }
    intros w1 G _ HG H1 (Ep1 & El1 & _). apply pwp_bind, wp_pager.
    pose proof H1 as (_ & Hc1 & _ & _ & _ & (jd & nm & Hj & Hf & Hnm & Hb & Hoff & Hharm) & _).
    assert (Efs : fullSync (pgr w1) = true) by (by eapply conf_fullSync). rewrite Efs.
    change (Z.land unixDeviceCharacteristics SQLITE_IOCAP_SAFE_APPEND =? 0) with true. cbn [andb when].
    apply pwp_bind. apply pwp_bind, wp_upd. apply pwp_bind, wp_asserts.
    { apply Z.ltb_lt. rewrite Hoff. destruct G; [done|]. rewrite zlen_cons. pose proof (zlen_nonneg G). lia. }
    apply pwp_bind, wp_asserts; [by rewrite (conf_doNotSync _ _ Hc1)|].
    eapply (wp_writeJournalHdr ps N0 D0 ps_ok N0_range D0_size None G (closed ++ opened) L); [exact H1|done|done| |exact HE].
    intros w2 H2 (Ep2 & El2 & _). cbn in Ep2, El2. apply pwp_bind, wp_pager.
    destruct (lru (pgr w)) as [|pg l] eqn:El; [done|]. apply (wp_lift _ pg); [by rewrite El2, El1|].
    assert (Hin : pg ∈ pg :: l) by left. apply L2 in Hin as (x & Hx & Hn).
    eapply (wp_recycle_page busy L w2 pg (x <| pg_needSync := false |>)); [right; by eexists _, _, _| |done|done| |exact HE].
    { rewrite Ep2, Ep1, lookup_fmap, Hx. done. }
    intros w3 H3 Hnn. apply HQ; [done|]. intros q Hq. apply Hnn. rewrite Ep2, Ep1, lookup_fmap, Hq. done.
Qed.

(** ** Getting a page *)

Lemma wp_pager_error rc w (Q : unit -> world -> Prop) E : errCode (pgr w) = SQLITE_OK -> state (pgr w) <> PAGER_UNLOCK ->
  (forall ec, Q tt (w <| pgr ::= fun p => p <| errCode := ec |> |>)) -> wp (pager_error rc) Q E w.
Proof.
  intros He Hst HQ. unfold pager_error. apply pwp_bind, wp_pager. apply pwp_bind, wp_asserts; [by rewrite He, orb_true_r|].
  apply wp_when.
  - intros _. apply pwp_bind, wp_upd. rewrite (proj2 (Z.eqb_neq _ _) Hst). cbn [andb when]. by apply pwp_ret.
  - intros _. specialize (HQ (errCode (pgr w))). destruct w as [p]. by destruct p.
Qed.

Lemma wp_pager_ioerr rc w (Q : unit -> world -> Prop) E : errCode (pgr w) = SQLITE_OK -> state (pgr w) <> PAGER_UNLOCK ->
  Z.land rc 0xff = SQLITE_IOERR -> Q tt (w <| pgr ::= fun p => p <| errCode := rc |> |>) -> wp (pager_error rc) Q E w.
Proof.
  intros He Hst Hrc HQ. unfold pager_error. apply pwp_bind, wp_pager. apply pwp_bind, wp_asserts; [by rewrite He, orb_true_r|].
  rewrite Hrc. change ((SQLITE_IOERR =? SQLITE_FULL) || (SQLITE_IOERR =? SQLITE_IOERR) || (SQLITE_IOERR =? SQLITE_CORRUPT)) with true.
  cbn [when]. apply pwp_bind, wp_upd. rewrite (proj2 (Z.eqb_neq _ _) Hst). cbn [andb when]. by apply pwp_ret.
Qed.

(** The number of pages: [n0], as the process knows or finds out. *)
Lemma wp_Pagecount w n0 (Q : Z -> world -> Prop) E : env w -> conf ps (pgr w) -> state (pgr w) <> PAGER_UNLOCK -> 0 <= n0 ->
  dbSize (pgr w) = n0 \/ dbSize (pgr w) = -1 /\ zlen (now (dbf w)) = n0 * ps ->
  (forall l mx n, io_ok l -> n = n0 \/ n = n0 + 1 /\ n0 = PENDING_BYTE / ps ->
     Q n (w <| io := l |> <| pgr ::= fun p => p <| dbSize := n0 |> <| mxPgno := mx |> |>)) ->
  (forall l ec nr, io_ok l -> ec <> SQLITE_OK -> nr = nRef (pgr w) ->
     Q (-1) (w <| io := l |> <| pgr ::= fun p => p <| nRef := nr |> <| errCode := ec |> |>)) ->
  wp sqlite3PagerPagecount Q E w.
Proof.
  intros He Hc Hst Hn0 Hd HQ1 HQ2. pose proof (page_size_range ps ps_ok) as Hps.
  assert (Hec : errCode (pgr w) = SQLITE_OK) by (by eapply conf_errCode).
  assert (Eps : pageSize (pgr w) = ps) by (by eapply conf_pageSize).
  unfold sqlite3PagerPagecount. apply pwp_bind, wp_pager. rewrite Hec. change (negb (SQLITE_OK =? SQLITE_OK)) with false. cbn iota.
  assert (Hend : forall w1, (exists l, io_ok l /\ w1 = w <| io := l |> <| pgr ::= fun p => p <| dbSize := n0 |> |>) ->
    wp (let n := if n0 =? PENDING_BYTE / ps then n0 + 1 else n0 in
        when (mxPgno (pgr w) <? n) (upd (fun p => p <| mxPgno := n |>));; mret n) Q E w1).
  { intros w1 (l & Hl & ->). cbn zeta. set (n := if n0 =? PENDING_BYTE / ps then n0 + 1 else n0).
    assert (Hn : n = n0 \/ n = n0 + 1 /\ n0 = PENDING_BYTE / ps) by (unfold n; destruct (Z.eqb_spec n0 (PENDING_BYTE / ps)); [right|left]; done).
    specialize (HQ1 l (if mxPgno (pgr w) <? n then n else mxPgno (pgr w)) n Hl Hn). clearbody n.
    apply pwp_bind, wp_when_upd, pwp_ret. revert HQ1. clear. destruct w as [p]. destruct p. cbn. by destruct (_ <? n). }
  destruct (Z.leb_spec 0 (dbSize (pgr w))) as [Hl|Hl].
  - apply pwp_bind, pwp_ret. assert (En : dbSize (pgr w) = n0) by lia. rewrite En, Eps. apply Hend. exists (io w). split; [apply He|].
    rewrite <- En. destruct w as [p]. by destruct p.
  - destruct Hd as [Hd|[Hd HL]]; [lia|]. apply pwp_bind. apply pwp_bind, wp_attempt. unfold sqlite3OsFileSize. apply pwp_bind, wp_refused.
    + intros _. eapply pwp_bind, wp_content; [done|]. apply pwp_ret. cbn zeta. change (now (dbf (w <| io ::= tail |>))) with (now (dbf w)).
      rewrite HL, Eps.
      assert (Eq : (if (0 <? n0 * ps) && (n0 * ps <? ps) then 1 else Z.quot (n0 * ps) ps) = n0).
      { destruct (Z.ltb_spec 0 (n0 * ps)), (Z.ltb_spec (n0 * ps) ps); cbn [andb]; rewrite ?Z.quot_mul by lia; nia. }
      rewrite Eq. rewrite (proj2 (Z.eqb_neq _ _) Hst). cbn [negb when]. apply pwp_bind, wp_upd, pwp_ret.
      apply Hend. exists (tail (io w)). split; [apply io_ok_tail, He|]. by destruct w.
    + intros _ rc n Hrc. apply wp_throw. apply pwp_bind, wp_upd. apply pwp_bind. apply wp_pager_ioerr; [done..|].
      apply pwp_bind, wp_upd, pwp_ret, pwp_ret.
      specialize (HQ2 (tail (io w)) SQLITE_IOERR_FSTAT (Z.pred (Z.succ (nRef (pgr w)))) ltac:(apply io_ok_tail, He) ltac:(done) ltac:(apply Z.pred_succ)).
      revert HQ2. clear. destruct w as [p]. by destruct p.
Qed.

(** ** Giving a page back *)

Lemma nRef_lruListAdd pg p : nRef (lruListAdd pg p) = nRef p.
Proof. destruct (lruListAdd_rest p pg) as [fs ->]. done. Qed.

Lemma wp_Unref_raw junk zJournal pg x w (Q : unit -> world -> Prop) E : pAll (pgr w) !! pg = Some x -> 0 < pg_nRef x ->
  (pg_nRef x = 1 -> 2 <= nRef (pgr w)) ->
  (1 < pg_nRef x -> Q tt (w <| pgr ::= set_page pg (fun pPg => pPg <| pg_nRef ::= Z.pred |>) |>)) ->
  (pg_nRef x = 1 -> Q tt (w <| pgr ::= fun p => lruListAdd pg (set_page pg (fun pPg => pPg <| pg_nRef ::= Z.pred |>) p) <| nRef ::= Z.pred |> |>)) ->
  wp (sqlite3PagerUnref junk zJournal pg) Q E w.
Proof.
  intros Hx Hn H2 HQ1 HQ2. unfold sqlite3PagerUnref. apply pwp_bind, wp_pager. rewrite Hx.
  apply pwp_bind, wp_asserts; [by apply Z.ltb_lt|]. apply pwp_bind, wp_upd.
  destruct (Z.eqb_spec (pg_nRef x - 1) 0) as [E1|E1].
  - apply pwp_bind, wp_upd. apply pwp_bind, wp_upd. apply pwp_bind, wp_pager. name_world w1.
    assert (E2 : nRef (pgr w1) = nRef (pgr w) - 1).
    { change (Z.pred (nRef (lruListAdd pg (set_page pg (fun pPg => pPg <| pg_nRef ::= Z.pred |>) (pgr w)))) = nRef (pgr w) - 1).
      rewrite nRef_lruListAdd. unfold set_page. cbn. lia. }
    apply pwp_bind, wp_asserts; [apply Z.leb_le; lia|]. destruct (Z.eqb_spec (nRef (pgr w1)) 0); [lia|]. cbn [andb when].
    apply pwp_ret, HQ2. lia.
  - apply pwp_ret, HQ1. lia.
Qed.

Lemma held_count p pg : refs_ok p -> held 1 p -> held pg p -> pg <> 1 -> 2 <= nRef p.
Proof.
  intros (s & H1 & ->) Hh1 Hh Hne. assert (Hs : ({[1; pg]} : gset Z) ⊆ s).
  { intros q [->%elem_of_singleton| ->%elem_of_singleton]%elem_of_union; by apply H1. }
  apply subseteq_size in Hs. rewrite size_union, !size_singleton in Hs by set_solver. lia.
Qed.

Lemma held_pos p : refs_ok p -> held 1 p -> 1 <= nRef p.
Proof.
  intros (s & H1 & ->) Hh1. assert (Hs : ({[1]} : gset Z) ⊆ s) by (intros q ->%elem_of_singleton; by apply H1).
  apply subseteq_size in Hs. rewrite size_singleton in Hs. lia.
Qed.

(** A page is used by one more or one less. *)
Lemma active_repage L w p' pg x y : active None L w -> pAll (pgr w) !! pg = Some x -> pAll p' !! pg = Some y ->
  changed pg (pgr w) p' -> dirty y = dirty x -> pg_needSync y = pg_needSync x -> inJournal y = inJournal x ->
  (exists m l f n, p' = pgr w <| pAll := m |> <| lru := l |> <| pFirstSynced := f |> <| nRef := n |>) ->
  cache L (now (dbf w)) p' -> held 1 p' -> active None L (w <| pgr := p' |>).
Proof.
  intros H Hx Hy Hch E1 E2 E3 (m & l & f & n & Ep) Hca Hh.
  destruct H as [(Erw & He & Hc & Hst & Hjo & Hpj & Hns & Hj & Hdb & Hsz & _ & HL & Hfl & _)|
    (b & closed & opened & He & Hc & Hrun & Hsz & Hst & Hdk & _ & Hfl & _)].
  - left. split; [exact Erw|]. rewrite Hdb in Hca. refine (conj He (conj _ (conj _ (conj _ (conj _ (conj _ (conj Hj (conj Hdb (conj _
      (conj Hca (conj HL (conj _ Hh)))))))))))); cbn [pgr set_field set_pgr]; rewrite ?Ep; try done. rewrite <- Ep.
    intros q z Hz. destruct (decide (q = pg)) as [->|Hq].
    + assert (z = y) as -> by congruence. rewrite E1, E2, E3. by apply Hfl.
    + rewrite Hch in Hz by done. by eapply Hfl.
  - right. exists b, closed, opened. refine (conj He (conj _ (conj _ (conj _ (conj _ (conj _ (conj Hca (conj _ Hh)))))))); unfold sizes, disk, started; cbn [pgr dbf jrn set_field set_pgr]; rewrite ?Ep; try done. rewrite <- Ep.
    eapply flags_changed; [exact Hfl|exact Hch|by rewrite Ep|by rewrite Ep|by rewrite Ep|rewrite Ep; cbn; lia|by rewrite Ep|exact Hy|].
    destruct Hfl as (_ & _ & H3 & _). destruct (H3 pg x Hx) as (F1 & F2 & F3 & F4 & F5). unfold page_flags. rewrite E1, E2, E3, Ep. done.
Qed.

Lemma upd_set_pgr w g : w <| pgr ::= g |> = w <| pgr := g (pgr w) |>.
Proof. done. Qed.

Lemma wp_Unref junk zJournal L w pg x (Q : unit -> world -> Prop) E : active None L w -> pAll (pgr w) !! pg = Some x -> 0 < pg_nRef x ->
  (pg <> 1 \/ 1 < pg_nRef x) -> (forall w', active None L w' -> Q tt w') -> wp (sqlite3PagerUnref junk zJournal pg) Q E w.
Proof.
  intros H Hx Hn Hne HQ. pose proof (active_cache _ _ _ H) as Hca. pose proof (active_held _ _ _ H) as Hh.
  assert (Hpg : held pg (pgr w)) by (by exists x).
  eapply wp_Unref_raw; [exact Hx|done| | |].
  - intros E1. eapply held_count; [apply Hca|done|done|lia].
  - intros Hn1. apply HQ. rewrite upd_set_pgr. pose proof (set_page_this _ _ _ (fun pPg => pPg <| pg_nRef ::= Z.pred |>) Hx) as Hy.
    eapply active_repage; [exact H|exact Hx|exact Hy|apply changed_set_page|done|done|done| | |].
    + exists (pAll (set_page pg (fun pPg => pPg <| pg_nRef ::= Z.pred |>) (pgr w))), (lru (pgr w)), (pFirstSynced (pgr w)), (nRef (pgr w)).
      by destruct (pgr w).
    + eapply cache_unref; [exact Hca|exact Hx|done].
    + destruct (decide (pg = 1)) as [->|Hne1]; [eexists; split; [exact Hy|cbn; lia]|].
      destruct Hh as (z & Hz & Hz0). exists z. by rewrite set_page_other by done.
  - intros E1. apply HQ. rewrite upd_set_pgr. set (p1 := set_page pg _ _). assert (Hps0 : 0 < ps) by (pose proof (page_size_range ps ps_ok); lia).
    pose proof (cache_unpin ps Hps0 L _ _ _ _ Hca Hx E1) as Hca'.
    destruct (lruListAdd_rest p1 pg) as [fs Ef]. fold p1 in Hca'. rewrite Ef in *.
    eapply (active_repage L w _ pg x (x <| pg_nRef ::= Z.pred |>)); [exact H|exact Hx| | |done|done|done| |exact Hca'|].
    + by apply set_page_this.
    + intros q Hq. by apply set_page_other.
    + by eexists _, _, _, _.
    + destruct Hh as (z & Hz & Hz0). exists z. split; [|done]. cbn. rewrite lookup_alter_ne; [done|lia].
Qed.

End page.
