(* ===== verification/PagerTxGet.v ===== *)
(** * Getting a page

    [pagerAcquire] while a transaction runs ([wp_Acquire]): the page is in
    the cache afterwards, in use, with the content that it had; and the first
    one of a process that has no lock yet ([wp_first_get]). *)

From S2P Require Import Prelude Varint PageBytes RecordUpdate DiskFile Pager PagerJournal PagerCache PagerWp.
From S2P Require Import PagerPlayback PagerRecovery PagerLog PagerPages PagerTx PagerTxJournal PagerTxPage.

Section get.
Context (ps N0 : Z) (D0 : list Z) (ps_ok : page_size ps) (N0_range : 0 <= N0 < 2 ^ 31) (D0_size : zlen D0 = N0 * ps).
Context (rw : bool).

Local Notation survives := (survives ps D0).
Local Notation cache := (cache ps).
Local Notation env := (env ps D0).
Local Notation safe := (safe ps D0).
Local Notation tx := (tx ps N0 D0).
Local Notation reading := (reading ps N0 D0).
Local Notation flags := (flags ps N0 D0).
Local Notation active := (active ps N0 D0 rw).

Lemma active_mem e L w : active e L w -> mem w = [].
Proof. intros H. by apply active_env in H as (_ & ? & _). Qed.

(** A change of fields that no invariant mentions. *)
Lemma active_nPage e L w n : active e L w -> active e L (w <| pgr ::= fun p => p <| nPage := n |> |>).
Proof. intros [[Erw H]|(b & closed & opened & H)]; [left; split; [exact Erw|]|right; exists b, closed, opened]; exact H. Qed.

Lemma active_locked e L w : active e L w -> (SHARED_LOCK <=? state (pgr w)) = true.
Proof. intros H. destruct (active_state _ _ _ _ _ _ _ H) as [->|[->| ->]]; done. Qed.

Lemma active_unlocked e L w : active e L w -> state (pgr w) <> PAGER_UNLOCK.
Proof. intros H. destruct (active_state _ _ _ _ _ _ _ H) as [->|[->| ->]]; done. Qed.

Lemma wp_allocate busy L w (Q : unit -> world -> Prop) (E : Z -> world -> Prop) :
  active None L w ->
  (forall w', active None L w' -> no_new w w' -> Q tt w') ->
  (forall rc w', rc <> SQLITE_OK -> safe w' -> E rc w') ->
  wp (pagerAllocatePage busy) Q E w.
Proof.
  intros H HQ HE. unfold pagerAllocatePage. apply pwp_bind, wp_pager.
  match goal with |- wp (if ?b then _ else _) _ _ _ => destruct b eqn:Eb end.
  - apply pwp_bind, wp_malloc_ok; [by eapply active_mem|]. cbn [negb]. apply wp_upd. apply HQ; [|by intros q].
    apply (active_nPage None L w (Z.succ (nPage (pgr w)))) in H. by destruct w.
  - apply orb_false_iff in Eb as [[_ El]%orb_false_iff _]. apply pwp_bind, wp_code.
    eapply (wp_pager_recycle ps N0 D0 ps_ok N0_range D0_size); [exact H|by destruct (lru (pgr w))| |].
    + intros w1 H1 Hnn. apply pwp_bind. change (if SQLITE_OK =? SQLITE_BUSY then _ else _) with SQLITE_OK. apply wp_check_ok.
      apply pwp_bind, wp_pager, wp_asserts; [by eapply active_locked|]. by apply HQ.
    + intros rc w1 Hrc Hw1. apply pwp_bind, wp_check.
      * destruct (Z.eqb_spec rc SQLITE_BUSY); done.
      * intros Hrc'. by apply HE.
Qed.

(** A process that has a lock keeps it. *)
Lemma wp_sharedLock_locked junk zJournal busy w (Q : unit -> world -> Prop) E : conf ps (pgr w) -> state (pgr w) <> PAGER_UNLOCK ->
  Q tt w -> wp (pagerSharedLock junk zJournal busy) Q E w.
Proof.
  intros Hc Hst HQ. unfold pagerSharedLock. apply pwp_bind, wp_pager.
  rewrite (conf_exclusiveMode _ _ Hc). cbn [andb when]. apply pwp_bind, pwp_ret. apply pwp_bind, wp_pager.
  rewrite (conf_errCode _ _ Hc). change (SQLITE_OK =? SQLITE_OK) with true. cbn [negb andb].
  rewrite (proj2 (Z.eqb_neq _ _) Hst). cbn [orb]. by apply pwp_ret.
Qed.

(** The file never has more pages than the process thinks. *)
Lemma active_size e L w : active e L w -> exists n0, N0 <= n0 <= 2 ^ 31 /\
  (dbSize (pgr w) = n0 \/ dbSize (pgr w) = -1 /\ zlen (now (dbf w)) = n0 * ps) /\ zlen (now (dbf w)) <= n0 * ps.
Proof.
  intros [(_ & _ & _ & _ & _ & _ & _ & _ & Hdb & Hsz & _)|(b & closed & opened & _ & _ & _ & [Hs1 Hs2] & _)].
  - exists N0. rewrite Hdb. cbn. destruct Hsz; [split_and!; [lia..|by right|lia]|split_and!; [lia..|by left|lia]].
  - exists (dbSize (pgr w)). split_and!; [lia..|by left|done].
Qed.

Lemma active_count e L w : active e L w -> exists n0, N0 <= n0 <= 2 ^ 31 /\
  (dbSize (pgr w) = n0 \/ dbSize (pgr w) = -1 /\ zlen (now (dbf w)) = n0 * ps) /\ zlen (now (dbf w)) <= n0 * ps /\
  forall l mx, io_ok l -> active e L (w <| io := l |> <| pgr ::= fun p => p <| dbSize := n0 |> <| mxPgno := mx |> |>).
Proof.
  intros H. destruct (active_size e L w H) as (n0 & Hn0 & Hd & Hl). exists n0. split_and!; [lia..|done|done|].
  intros l mx Hio. apply (active_io _ _ _ _ _ _ _ l) in H; [|done].
  destruct H as [(Erw & He & Hc & Hst & Hjo & Hpj & Hns & Hj & Hdb & Hsz & Hr)|(b & closed & opened & He & Hc & Hrun & [Hs1 Hs2] & Hr)].
  - left. split; [exact Erw|]. refine (conj He (conj Hc (conj Hst (conj Hjo (conj Hpj (conj Hns (conj Hj (conj Hdb (conj _ Hr))))))))). right. cbn.
    cbn in Hdb, Hsz. rewrite Hdb in Hd. cbn in Hd. destruct Hd as [Hd|[Hd Hz]]; [lia|].
    pose proof (page_size_range ps ps_ok). nia.
  - right. exists b, closed, opened. cbn in Hs1, Hs2. assert (E1 : dbSize (pgr w) = n0) by lia.
    subst n0. refine (conj He (conj Hc (conj Hrun (conj (conj Hs1 Hs2) Hr)))).
Qed.

(** A page that was not there is in the cache. *)
Lemma active_insert L w pg y s : active None L w -> pAll (pgr w) !! pg = None -> page_ok ps L pg y -> dirty y = false ->
  pg_needSync y = false -> pg_nRef y = 1 -> pInJournal (pgr w) = s ->
  inJournal y = match s with Some s => bool_decide (pg ∈ s) | None => false end ->
  active None L (w <| pgr ::= fun p => p <| nRef ::= Z.succ |> <| pAll ::= insert pg y |> |>).
Proof.
  intros H Hx Hok Hd Hs Hn Es Hi. pose proof (active_cache _ _ _ _ _ _ _ H) as Hca. pose proof (active_held _ _ _ _ _ _ _ H) as Hh.
  pose proof (cache_insert ps L _ _ _ _ Hca Hx Hok Hd ltac:(lia)) as Hca'.
  assert (Hh' : held 1 (pgr w <| nRef ::= Z.succ |> <| pAll ::= insert pg y |>)).
  { destruct Hh as (z & Hz & Hz0). exists z. split; [|done]. cbn. rewrite lookup_insert_ne; [done|]. intros ->. congruence. }
  destruct H as [(Erw & He & Hc & Hst & Hjo & Hpj & Hns & Hj & Hdb & Hsz & _ & HL & Hfl & _)|
    (b & closed & opened & He & Hc & Hrun & Hsz & Hst & Hdk & _ & Hfl & _)].
  - left. split; [exact Erw|]. rewrite Hdb in Hca'. rewrite Hpj in Es. subst s.
    refine (conj He (conj Hc (conj Hst (conj Hjo (conj Hpj (conj Hns (conj Hj (conj Hdb (conj Hsz
      (conj Hca' (conj HL (conj _ Hh')))))))))))). intros q x Hq. cbn in Hq. destruct (decide (q = pg)) as [->|Hne].
    + rewrite lookup_insert_eq in Hq. injection Hq as <-. done.
    + rewrite lookup_insert_ne in Hq by done. by eapply Hfl.
  - right. exists b, closed, opened. refine (conj He (conj Hc (conj Hrun (conj Hsz (conj Hst (conj Hdk (conj Hca' (conj _ Hh')))))))).
    eapply (flags_changed ps N0 D0 None L closed opened (pgr w) _ pg y); [exact Hfl| |done|done|done|cbn; lia|done| |].
    + intros q Hq. by apply lookup_insert_ne.
    + apply lookup_insert_eq.
    + destruct Hfl as (_ & (t & Et & Ht) & _ & H4 & _). rewrite Et in Es. subst s.
      assert (Hno : pg ∉ opened.*1) by (intros Hin; destruct (H4 _ Hin) as [z Hz]; congruence).
      split_and!; [by rewrite Hs| | |done|by rewrite Hd].
      * rewrite Hi, bool_decide_eq_true, Ht. intros Hin. split; [done|]. intros _. apply Hst. intros ->.
        destruct Hdk as (jd & nm & ck & _ & ((Hse & _) & _) & _). destruct Hse as [[_ ->]|[Hne _]]; done.
      * rewrite Hi, bool_decide_eq_true. by rewrite Ht.
Qed.

(** ** When the content cannot be had *)

Lemma wp_undo junk zJournal pg inJ rc w (Q : unit -> world -> Prop) (E : Z -> world -> Prop) : rc <> SQLITE_OK -> safe w ->
  2 <= nRef (pgr w) -> (forall rc w', rc <> SQLITE_OK -> safe w' -> E rc w') ->
  wp (upd (fun p => p <| pAll ::= insert pg (new_page inJ false []) |>);; sqlite3PagerUnref junk zJournal pg;;
      upd (unlinkPage pg);; (throw rc : M unit)) Q E w.
Proof.
  clear ps_ok N0_range D0_size. intros Hrc Hw Hn HE. apply pwp_bind, wp_upd. apply pwp_bind.
  eapply wp_Unref_raw; [apply lookup_insert_eq|done|done|intros ?; cbn in *; lia|].
  intros _. apply pwp_bind, wp_upd, wp_throw, HE; [done|exact Hw].
Qed.

(** ** A page that is in the cache *)

(** What a page says does not change when somebody uses it. *)
Definition has (L : Z -> list Z) (pg : Z) (w : world) : Prop := exists x, pAll (pgr w) !! pg = Some x /\ 0 < pg_nRef x /\
  (pg = 1 -> 1 < pg_nRef x) /\ pData x = L pg.

Lemma wp_hit pg L w x (Q : unit -> world -> Prop) (E : Z -> world -> Prop) : active None L w -> pAll (pgr w) !! pg = Some x ->
  (forall w', active None L w' -> has L pg w' -> Q tt w') ->
  wp (when true (pager_get_content pg);;
      when (pg_nRef x =? 0) (upd (lruListRemove pg);; upd (fun p => p <| nRef ::= Z.succ |>));;
      upd (set_page pg (fun pPg => pPg <| pg_nRef ::= Z.succ |>))) Q E w.
Proof.
  intros H Hx HQ. pose proof (page_size_range ps ps_ok) as Hps. pose proof (active_cache _ _ _ _ _ _ _ H) as Hca.
  pose proof (active_held _ _ _ _ _ _ _ H) as Hh.
  pose proof (cache_page ps L _ _ _ _ Hca Hx) as (_ & _ & HL & Hnr & _ & Hn0). cbn [when].
  apply pwp_bind. unfold pager_get_content. apply pwp_bind, wp_pager. rewrite Hx. eapply pwp_bind, wp_lift; [done|]. rewrite Hnr.
  apply pwp_ret.
  assert (Hhas : forall p', pAll p' !! pg = Some (x <| pg_nRef ::= Z.succ |>) -> has L pg (w <| pgr := p' |>)).
  { intros p' Hy. eexists. split; [exact Hy|]. split_and!; [cbn; lia| |done]. intros ->. destruct Hh as (z & Hz & Hz0).
    assert (z = x) as -> by congruence. cbn. lia. }
  destruct (Z.eqb_spec (pg_nRef x) 0) as [E0|E0]; cbn [when].
  - apply pwp_bind, pwp_bind, wp_upd, wp_upd, wp_upd.
    change (Q tt (w <| pgr := set_page pg (fun y => y <| pg_nRef ::= Z.succ |>) (lruListRemove pg (pgr w) <| nRef ::= Z.succ |>) |>)).
    pose proof (cache_pin ps L _ _ _ _ Hca Hx E0) as Hca'. set (p' := set_page _ _ _) in *.
    assert (Hy : pAll p' !! pg = Some (x <| pg_nRef ::= Z.succ |>)) by (by apply set_page_this).
    assert (Hch : changed pg (pgr w) p') by (intros q Hq; unfold p'; by rewrite set_page_other).
    apply HQ; [|by apply Hhas].
    eapply active_repage; [exact H|exact Hx|exact Hy|exact Hch|done|done|done| |exact Hca'|].
    + by eexists _, _, _, _.
    + destruct Hh as (z & Hz & Hz0). exists z. rewrite Hch; [done|]. intros <-. assert (z = x) as -> by congruence. lia.
  - apply pwp_bind, pwp_ret, wp_upd.
    change (Q tt (w <| pgr := set_page pg (fun y => y <| pg_nRef ::= Z.succ |>) (pgr w) |>)).
    pose proof (cache_repin ps L _ _ _ _ Hca Hx ltac:(lia)) as Hca'. set (p' := set_page _ _ _) in *.
    assert (Hy : pAll p' !! pg = Some (x <| pg_nRef ::= Z.succ |>)) by (by apply set_page_this).
    assert (Hch : changed pg (pgr w) p') by (intros q Hq; unfold p'; by rewrite set_page_other).
    apply HQ; [|by apply Hhas].
    eapply active_repage; [exact H|exact Hx|exact Hy|exact Hch|done|done|done| |exact Hca'|].
    + exists (pAll p'), (lru (pgr w)), (pFirstSynced (pgr w)), (nRef (pgr w)). unfold p'. by destruct (pgr w).
    + destruct Hh as (z & Hz & Hz0). destruct (decide (pg = 1)) as [->|Hne].
      * eexists. split; [exact Hy|]. cbn. lia.
      * exists z. by rewrite Hch by done.
Qed.

(** ** A page that is read *)

(** The page as the process will see it. *)
Lemma active_absent L w pg : active None L w -> pAll (pgr w) !! pg = None -> valid ps pg -> L pg = fpage ps (now (dbf w)) pg.
Proof. intros H Hx Hv. apply (active_cache _ _ _ _ _ _ _ H); [done|]. intros x. by rewrite Hx. Qed.

Lemma wp_readDbPage pg w (Q : Z * list Z -> world -> Prop) E : conf ps (pgr w) -> io_ok (io w) -> valid ps pg -> pg <> 1 ->
  (forall l rc, io_ok l -> rc = SQLITE_OK \/ rc = SQLITE_IOERR_SHORT_READ -> Q (rc, fpage ps (now (dbf w)) pg) (w <| io := l |>)) ->
  (forall l rc, io_ok l -> rc <> SQLITE_OK -> rc <> SQLITE_IOERR_SHORT_READ -> Q (rc, []) (w <| io := l |>)) ->
  wp (readDbPage pg) Q E w.
Proof.
  intros Hc Hio [Hv _] Hne HQ1 HQ2. pose proof (page_size_range ps ps_ok) as Hps. unfold readDbPage. apply pwp_bind, wp_pager.
  rewrite (conf_pageSize _ _ Hc). rewrite (proj2 (Z.eqb_neq _ _) Hne). cbn [andb when].
  assert (Ecall : called w = w <| io := tail (io w) |>) by (by destruct w).
  pose proof (io_ok_tail _ Hio) as Hio'.
  assert (Hz : fpage ps (now (dbf w)) pg = fsub (now (dbf w)) ((pg - 1) * ps) ps ++
     replicate (Z.to_nat (ps - zlen (fsub (now (dbf w)) ((pg - 1) * ps) ps))) 0) by done.
  eapply pwp_bind, (wp_OsRead HDb (now (dbf w))); [done|nia|lia|..].
  - intros Hl. rewrite fsub_zlen in Hz by nia. rewrite Z.sub_diag in Hz. cbn in Hz. rewrite app_nil_r in Hz. rewrite <- Hz.
    apply pwp_bind, pwp_ret, pwp_ret. rewrite Ecall. apply HQ1; [done|by left].
  - intros Hl. rewrite <- Hz. apply pwp_bind, pwp_ret, pwp_ret. rewrite Ecall. apply HQ1; [done|by right].
  - intros _. apply pwp_bind, pwp_ret, pwp_ret. rewrite Ecall. by apply HQ2.
Qed.

(** The page is there now. *)
Lemma active_added L w pg s data : active None L w -> pAll (pgr w) !! pg = None -> valid ps pg -> data = L pg ->
  pInJournal (pgr w) = s ->
  let w' := w <| pgr ::= fun p => p <| nRef ::= Z.succ |> <| pAll ::= insert pg
     (new_page (match s with Some s => bool_decide (pg ∈ s) | None => false end) false data) |> |> in
  active None L w' /\ has L pg w'.
Proof.
  intros H Hx Hv -> Es w'. pose proof (page_size_range ps ps_ok) as Hps. split.
  - eapply active_insert; [exact H|exact Hx| |done|done|done|exact Es|done].
    refine (conj Hv (conj _ (conj _ (conj _ (conj _ _))))); cbn; try done.
    rewrite (active_absent L w pg H Hx Hv). apply fpage_zlen; [lia|apply Hv].
  - eexists. split; [apply lookup_insert_eq|]. split_and!; [cbn; lia| |done]. intros ->.
    destruct (active_held _ _ _ _ _ _ _ H) as (z & Hz & _). congruence.
Qed.

Lemma wp_miss junk zJournal pg L w s (Q : unit -> world -> Prop) (E : Z -> world -> Prop) :
  active None L w -> pAll (pgr w) !! pg = None -> valid ps pg -> pInJournal (pgr w) = s ->
  (forall w', active None L w' -> has L pg w' -> Q tt w') ->
  (forall rc w', rc <> SQLITE_OK -> safe w' -> E rc w') ->
  let inJ := match s with Some s => bool_decide (pg ∈ s) | None => false end in
  let add (data : list Z) (nr : bool) := upd (fun p => p <| pAll ::= insert pg (new_page inJ nr data) |>) in
  let undo (rc : Z) := add [] false;; sqlite3PagerUnref junk zJournal pg;; upd (unlinkPage pg);; (throw rc : M unit) in
  wp (upd (fun p => p <| nRef ::= Z.succ |>);;
      nMax ← sqlite3PagerPagecount;
      p ← pager;
      if negb (errCode p =? SQLITE_OK) then undo (errCode p) else
      if (nMax <? pg) || (false && negb (alwaysRollback p)) then
        if mxPgno p <? pg then undo SQLITE_FULL else
        add (replicate (Z.to_nat (pageSize p)) 0) (false && negb (alwaysRollback p))
      else
        '(rc, bs) ← readDbPage pg;
        if negb (rc =? SQLITE_OK) && negb (rc =? SQLITE_IOERR_SHORT_READ) then undo rc
        else add bs false) Q E w.
Proof.
  intros H Hx Hv Es HQ HE inJ add undo. pose proof (page_size_range ps ps_ok) as Hps.
  pose proof (active_conf _ _ _ _ _ _ _ H) as Hc. pose proof (active_env _ _ _ _ _ _ _ H) as He. pose proof (active_held _ _ _ _ _ _ _ H) as Hh.
  pose proof (active_cache _ _ _ _ _ _ _ H) as Hca. pose proof (held_pos _ (cache_refs ps L _ _ Hca) Hh) as Hpos.
  assert (Hne : pg <> 1) by (intros ->; destruct Hh as (z & Hz & _); congruence).
  pose proof (active_absent L w pg H Hx Hv) as EL.
  assert (Hundo : forall rc w' (Q : unit -> world -> Prop) (E : Z -> world -> Prop), rc <> SQLITE_OK -> safe w' ->
    nRef (pgr w') = Z.succ (nRef (pgr w)) -> (forall rc w', rc <> SQLITE_OK -> safe w' -> E rc w') -> wp (undo rc) Q E w').
  { intros rc w' Q' E' Hrc Hw En HE'. apply wp_undo; [done|done|lia|done]. }
  destruct (active_count None L w H) as (n0 & Hn0 & Hd & Hl & Hact).
  apply pwp_bind, wp_upd. name_world w1.
  eapply pwp_bind, (wp_Pagecount ps D0 ps_ok w1 n0); [exact He|exact Hc|exact (active_unlocked _ _ _ H)|lia|exact Hd|..].
  2: { intros l ec nr Hio Hec ->. apply pwp_bind, wp_pager. cbn. rewrite (proj2 (Z.eqb_neq _ _) Hec). cbn [negb].
       apply Hundo; [done|apply He|done|done]. }
  intros l mx n Hio Hn. apply pwp_bind, wp_pager.
  assert (E0 : errCode (pgr w) = SQLITE_OK) by (by eapply conf_errCode). cbn. rewrite E0.
  change (SQLITE_OK =? SQLITE_OK) with true. cbn [negb]. rewrite orb_false_r.
  specialize (Hact l mx Hio). rewrite (conf_pageSize _ _ Hc).
  set (w2 := w <| io := l |> <| pgr ::= fun p => p <| dbSize := n0 |> <| mxPgno := mx |> |>) in *.
  assert (Hadd : forall l' data, io_ok l' -> data = L pg -> wp (add data false) Q E (w1 <| io := l' |> <| pgr ::= fun p => p <| dbSize := n0 |> <| mxPgno := mx |> |>)).
  { intros l' data Hio' Ed. apply wp_upd. pose proof (active_io _ _ _ _ _ _ _ l' Hact Hio') as Hact'.
    destruct (active_added L _ pg s data Hact' Hx Hv Ed Es) as [A1 A2]. apply HQ; [exact A1|exact A2]. }
  destruct (Z.ltb_spec n pg) as [Hlt|Hge].
  - destruct (Z.ltb_spec mx pg) as [Hmx|Hmx]; [apply Hundo; [done|apply He|done|done]|].
    apply Hadd; [done|]. rewrite EL, fpage_past; [done|].
    assert (n0 <= pg - 1) by lia. nia.
  - apply pwp_bind, wp_readDbPage; [exact Hc|done|done|done|..].
    + intros l' rc Hio' Hrc.
      assert (Eb : negb (rc =? SQLITE_OK) && negb (rc =? SQLITE_IOERR_SHORT_READ) = false) by (destruct Hrc as [->| ->]; done).
      rewrite Eb. apply (Hadd l'); [done|by rewrite EL].
    + intros l' rc Hio' H1 H2. rewrite (proj2 (Z.eqb_neq _ _) H1), (proj2 (Z.eqb_neq _ _) H2). cbn [negb andb].
      apply Hundo; [done|apply He|done|done].
Qed.

Lemma wp_Get junk zJournal busy pg L w (Q : unit -> world -> Prop) (E : Z -> world -> Prop) : active None L w ->
  (forall w', active None L w' -> valid ps pg -> has L pg w' -> Q tt w') ->
  (forall rc w', rc <> SQLITE_OK -> safe w' -> E rc w') ->
  0 <= pg -> wp (sqlite3PagerGet junk zJournal busy pg) Q E w.
Proof.
  intros H HQ HE Hpg. unfold sqlite3PagerGet, pagerAcquire. apply pwp_bind, wp_pager.
  pose proof (active_conf _ _ _ _ _ _ _ H) as Hc. pose proof (active_held _ _ _ _ _ _ _ H) as Hh.
  pose proof (active_cache _ _ _ _ _ _ _ H) as Hca. pose proof (held_pos _ (cache_refs ps L _ _ Hca) Hh) as Hpos.
  assert (Hn : (0 <? nRef (pgr w)) = true) by (apply Z.ltb_lt; lia).
  apply pwp_bind, wp_asserts; [by rewrite Hn, orb_true_r|]. unfold PAGER_MJ_PGNO. rewrite (conf_pageSize _ _ Hc).
  match goal with |- wp (if ?b then _ else _) _ _ _ => destruct b eqn:Eb end.
  { apply wp_throw, HE; [done|by eapply active_safe]. }
  assert (Hv : valid ps pg).
  { rewrite !orb_false_iff, Z.ltb_ge, !Z.eqb_neq in Eb. unfold valid. lia. }
  apply pwp_bind, wp_sharedLock_locked; [done|by eapply active_unlocked|].
  apply pwp_bind, wp_pager. apply pwp_bind, wp_asserts.
  { apply negb_true_iff, Z.eqb_neq. by eapply active_unlocked. }
  unfold pager_lookup. destruct (pAll (pgr w) !! pg) as [x|] eqn:Hx.
  - apply pwp_bind, wp_asserts; [by rewrite Hn|]. change (negb false) with true.
    eapply wp_hit; [done|exact Hx|]. intros w1 H1. by apply HQ.
  - apply pwp_bind. eapply wp_allocate; [done| |exact HE]. intros w1 H1 Hnn. apply pwp_bind, wp_pager.
    apply (wp_miss junk zJournal pg L w1 (pInJournal (pgr w1))); [done|by apply Hnn|done|done| |done].
    intros w2 H2. by apply HQ.
Qed.

End get.
