(* ===== verification/PagerTxOpen.v ===== *)
(** * The first page of a process that has no lock

    [wp_first_get]: the lock is taken, there is no hot journal, page 1 is
    read; the process may read and write from there. *)

From S2P Require Import Prelude Varint PageBytes RecordUpdate DiskFile Pager PagerJournal PagerCache PagerWp.
From S2P Require Import PagerPlayback PagerRecovery PagerLog PagerPages PagerTx PagerTxJournal PagerTxPage PagerTxGet.

Section open.
Context (ps N0 : Z) (D0 : list Z) (ps_ok : page_size ps) (N0_range : 0 <= N0 < 2 ^ 31) (D0_size : zlen D0 = N0 * ps).

Local Notation survives := (survives ps D0).
Local Notation cache := (cache ps).
Local Notation env := (env ps D0).
Local Notation safe := (safe ps D0).
Local Notation reading := (reading ps N0 D0).

(** A process that has the database open and no lock on it. *)
Definition unused (p : Pager) : Prop :=
  conf ps p /\ dbSize p = -1 /\ journalOpen p = false /\ pInJournal p = None /\ (needSync p = false /\ dirtyCache p = false) /\
  pAll p = ∅ /\ lru p = [] /\ pFirstSynced p = None /\ pDirty p = [] /\ nRef p = 0.

Definition at_rest (w : world) : Prop :=
  env w /\ unused (pgr w) /\ state (pgr w) = PAGER_UNLOCK /\ jrn w = JNone /\ dbf w = mkDfile D0 [].

(** Unlocking leaves the files alone. *)
Lemma wp_pager_unlock w (Q : unit -> world -> Prop) E : safe w -> journalOpen (pgr w) = false ->
  (forall pg, pg ∈ lru (pgr w) -> is_Some (pAll (pgr w) !! pg)) ->
  (forall w', safe w' -> Q tt w') -> wp pager_unlock Q E w.
Proof.
  intros Hw Hj Hl HQ. unfold pager_unlock. apply pwp_bind, wp_pager. destruct (exclusiveMode (pgr w)); [by apply pwp_ret, HQ|].
  set (R := fun w1 : world => safe w1 /\ journalOpen (pgr w1) = false /\ forall pg, pg ∈ lru (pgr w1) -> is_Some (pAll (pgr w1) !! pg)).
  assert (Hk : forall (w1 : world) rc, R w1 -> wp (
      when (negb (rc =? SQLITE_OK)) (upd (fun p => p <| errCode := rc |>));;
      upd (fun p => p <| dbSize := -1 |>);;
      when (journalOpen (pgr w)) (upd (fun p => p <| journalOpen := false |> <| pInJournal := None |>));;
      p ← pager;
      when (negb (errCode p =? SQLITE_OK))
        (when (rc =? SQLITE_OK) (upd (fun p => p <| errCode := SQLITE_OK |>));;
         pager_reset;;
         when (stmtOpen p) (upd (fun p => p <| pInStmt := None |>));;
         upd (fun p => p <| stmtOpen := false |> <| stmtInUse := false |> <| journalOff := 0 |>
                         <| journalStarted := false |> <| stmtAutoopen := false |> <| origDbSize := 0 |>));;
      upd (fun p => p <| state := PAGER_UNLOCK |> <| changeCountDone := false |>)) Q E w1).
  { intros w1 rc (R1 & R2 & R3). apply pwp_bind, wp_when_upd.
    match goal with |- wp _ _ _ ?x => assert (R' : R x) by (destruct (negb (rc =? SQLITE_OK)); by split_and!); revert R'; generalize x; clear w1 R1 R2 R3 end.
    intros w1 (R1 & R2 & R3). apply pwp_bind, wp_upd. rewrite Hj. cbn [when]. apply pwp_bind, pwp_ret, pwp_bind, wp_pager. apply pwp_bind, wp_when.
    - intros _. apply pwp_bind, wp_when_upd.
      match goal with |- wp _ _ _ ?x => assert (R' : R x) by (destruct (rc =? SQLITE_OK); by split_and!); revert R'; generalize x; clear R1 R2 R3 end.
      intros w1' (R1 & R2 & R3). apply pwp_bind. unfold pager_reset. apply pwp_bind, wp_pager.
      destruct (negb (errCode (pgr w1') =? SQLITE_OK)).
      + apply pwp_ret. apply pwp_bind, wp_when_upd, wp_upd, wp_upd, HQ. by destruct (stmtOpen _).
      + apply pwp_bind, wp_asserts.
        { replace (List.filter _ _) with (@nil Z); [done|]. symmetry. revert R3. generalize (pAll (pgr w1')). clear.
          induction (lru (pgr w1')) as [|a l IH]; intros m H; [done|]. cbn. rewrite bool_decide_true by (apply H; left). cbn.
          apply IH. intros pg Hpg. apply H. by right. }
        apply wp_upd. apply pwp_bind, wp_when_upd, wp_upd, wp_upd, HQ. by destruct (stmtOpen _).
    - intros _. by apply wp_upd, HQ. }
  apply pwp_bind, wp_code. unfold sqlite3OsUnlock. apply pwp_bind, wp_os.
  - intros _. apply wp_check_ok. by apply Hk.
  - intros _ rc _ Hrc. apply wp_check; [done|]. intros _. by apply Hk.
Qed.

Lemma wp_pager_error_unused rc w (Q : unit -> world -> Prop) E : safe w -> journalOpen (pgr w) = false ->
  (forall pg, pg ∈ lru (pgr w) -> is_Some (pAll (pgr w) !! pg)) -> errCode (pgr w) = SQLITE_OK ->
  (forall w', safe w' -> Q tt w') -> wp (pager_error rc) Q E w.
Proof.
  intros Hw Hj Hl He HQ. unfold pager_error. apply pwp_bind, wp_pager. apply pwp_bind, wp_asserts; [by rewrite He, orb_true_r|].
  apply wp_when; intros _; [|by apply HQ]. apply pwp_bind, wp_upd. apply wp_when; intros _; [|by apply HQ].
  by apply wp_pager_unlock.
Qed.

(** The shared lock of a database without a journal. *)
Lemma wp_wait_shared busy w (Q : unit -> world -> Prop) (E : Z -> world -> Prop) :
  io_ok (io w) -> state (pgr w) = PAGER_UNLOCK -> dbSize (pgr w) = -1 ->
  (forall l, io_ok l -> Q tt (w <| io := l |> <| pgr ::= fun p => p <| state := SHARED_LOCK |> |>)) ->
  (forall l rc, io_ok l -> rc <> SQLITE_OK -> E rc (w <| io := l |>)) ->
  wp (pager_wait_on_lock busy SHARED_LOCK) Q E w.
Proof.
  intros Hio Hst Hd HQ HE. unfold pager_wait_on_lock. apply pwp_bind, pwp_get. apply pwp_bind, wp_asserts; [by rewrite Hst, Hd|].
  rewrite Hst. change (SHARED_LOCK <=? PAGER_UNLOCK) with false. cbn iota.
  apply pwp_bind, wp_lock_loop; [cbn; lia|done|..].
  - intros l Hl. by apply wp_upd, HQ.
  - intros l rc Hl Hrc _. by apply HE.
Qed.

Lemma unused_conf p : unused p -> conf ps p. Proof. by intros [? _]. Qed.

Lemma wp_sharedLock_none junk zJournal busy w (Q : unit -> world -> Prop) (E : Z -> world -> Prop) : at_rest w ->
  (forall l, io_ok l -> Q tt (w <| io := l |> <| pgr ::= fun p => p <| state := SHARED_LOCK |> |>)) ->
  (forall rc w', rc <> SQLITE_OK -> safe w' -> E rc w') ->
  wp (pagerSharedLock junk zJournal busy) Q E w.
Proof.
  intros (He & (Hc & Hd & Hjo & Hpj & Hns & Hall & Hlru & Hfs & Hdl & Hnr) & Hst & Hj & Hdb) HQ HE.
  unfold pagerSharedLock. apply pwp_bind, wp_pager.
  rewrite (conf_exclusiveMode _ _ Hc). cbn [andb when]. apply pwp_bind, pwp_ret. apply pwp_bind, wp_pager.
  rewrite (conf_errCode _ _ Hc), Hst. change (SQLITE_OK =? SQLITE_OK) with true. change (PAGER_UNLOCK =? PAGER_UNLOCK) with true. cbn [negb andb orb].
  apply pwp_bind, wp_asserts; [by rewrite Hnr|]. apply pwp_bind, wp_code, wp_wait_shared; [apply He|done|done|..].
  2: { intros l rc Hio Hrc. rewrite (proj2 (Z.eqb_neq _ _) Hrc). cbn [negb]. apply pwp_bind, wp_pager.
       apply pwp_bind, wp_asserts; [cbn; by rewrite Hst|]. apply pwp_bind. apply wp_pager_error_unused; [apply He|done| |by eapply conf_errCode|].
       - cbn. rewrite Hlru. by intros pg ?%elem_of_nil.
       - intros w1 H1. by apply wp_throw, HE. }
  intros l Hio. change (SQLITE_OK =? SQLITE_OK) with true. cbn [negb]. name_world w1.
  assert (Hk : forall l', io_ok l' -> wp (
      when (0 <? 0) (throw SQLITE_IOERR_NOMEM);;
      when ((0 =? 1) || false) (play_hot_journal junk zJournal 0 false);;
      p ← pager;
      when (negb (bool_decide (pAll p = ∅))) check_version;;
      p ← pager;
      asserts (exclusiveMode p || (state p <=? PAGER_SHARED));;
      when (state p =? PAGER_UNLOCK) (upd (fun p => p <| state := PAGER_SHARED |>)))
     (fun _ => wp (when (negb (SQLITE_OK =? SQLITE_OK)) pager_unlock;; check SQLITE_OK) Q E)
     (fun rc => wp (when (negb (rc =? SQLITE_OK)) pager_unlock;; check rc) Q E) (w1 <| io := l' |>)).
  { intros l' Hl'. cbn [when Z.ltb Z.compare Z.eqb orb]. apply pwp_bind, pwp_ret, pwp_bind, pwp_ret, pwp_bind, wp_pager.
    rewrite bool_decide_true by done. cbn [negb when]. apply pwp_bind, pwp_ret, pwp_bind, wp_pager.
    apply pwp_bind, wp_asserts; [by apply orb_true_r|]. apply pwp_ret. change (SQLITE_OK =? SQLITE_OK) with true. cbn [negb when].
    apply pwp_bind, pwp_ret, wp_check_ok. by apply (HQ l'). }
  apply pwp_bind, wp_pager. apply pwp_bind, wp_asserts; [done|]. apply pwp_bind, wp_code, pwp_bind. unfold hasHotJournal. apply pwp_bind, wp_pager.
  assert (Eu : useJournal (pgr w1) = true) by (by apply (conf_useJournal ps (pgr w) Hc)). rewrite Eu. cbn [negb].
  apply pwp_bind. unfold sqlite3OsAccess. apply pwp_bind, wp_refused; [intros n|intros _ rc n Hrc].
  all: apply pwp_bind, pwp_get; rewrite bool_decide_true by done; apply pwp_bind; unfold journal_exists; apply pwp_bind, pwp_get, pwp_ret.
  all: change (jrn (w1 <| io ::= tail |>)) with (jrn w); rewrite Hj; cbn [negb andb]; apply pwp_ret; cbn [Z.leb Z.compare]; apply pwp_ret.
  all: apply (Hk (tail l)); by apply io_ok_tail.
Qed.

(** The first page cannot be had. *)
Lemma wp_undo_first junk zJournal inJ rc w (Q : unit -> world -> Prop) (E : Z -> world -> Prop) : rc <> SQLITE_OK -> safe w ->
  nRef (pgr w) = 1 -> pAll (pgr w) = ∅ -> lru (pgr w) = [] -> journalOpen (pgr w) = false -> state (pgr w) = PAGER_SHARED ->
  (forall rc w', rc <> SQLITE_OK -> safe w' -> E rc w') ->
  wp (upd (fun p => p <| pAll ::= insert 1 (new_page inJ false []) |>);; sqlite3PagerUnref junk zJournal 1;;
      upd (unlinkPage 1);; (throw rc : M unit)) Q E w.
Proof.
  intros Hrc Hw Hn Hall Hlru Hjo Hst HE. apply pwp_bind, wp_upd. apply pwp_bind. unfold sqlite3PagerUnref. apply pwp_bind, wp_pager.
  name_world w1. assert (Hx : pAll (pgr w1) !! 1 = Some (new_page inJ false [])) by apply lookup_insert_eq. rewrite Hx.
  apply pwp_bind, wp_asserts; [done|]. apply pwp_bind, wp_upd. change (pg_nRef (new_page inJ false []) - 1 =? 0) with true. cbn iota.
  apply pwp_bind, wp_upd. apply pwp_bind, wp_upd. apply pwp_bind, wp_pager. name_world w2.
  set (p1 := set_page 1 (fun pPg => pPg <| pg_nRef ::= Z.pred |>) (pgr w1)) in *.
  destruct (lruListAdd_rest p1 1) as [fs Ef].
  assert (Ep : pgr w2 = p1 <| lru ::= fun l => l ++ [1] |> <| pFirstSynced := fs |> <| nRef ::= Z.pred |>) by (rewrite <- Ef; done).
  assert (Hw2 : safe w2) by exact Hw. clearbody w2.
  assert (E1 : nRef (pgr w2) = 0) by (rewrite Ep; cbn; by rewrite Hn).
  assert (E2 : state (pgr w2) = PAGER_SHARED) by (rewrite Ep; exact Hst).
  assert (E3 : journalOpen (pgr w2) = false) by (rewrite Ep; exact Hjo).
  assert (E4 : lru (pgr w2) = [1]) by (rewrite Ep; cbn; by rewrite Hlru).
  assert (E5 : is_Some (pAll (pgr w2) !! 1)).
  { rewrite Ep. cbn. rewrite lookup_alter_eq, lookup_insert_eq. by eexists. }
  clear Ep. rewrite E1. apply pwp_bind, wp_asserts; [done|]. cbn [Z.eqb andb].
  assert (Hend : forall w3, safe w3 -> wp (upd (unlinkPage 1);; (throw rc : M unit)) Q E w3).
  { intros w3 H3. apply pwp_bind, wp_upd, wp_throw, HE; [done|exact H3]. }
  apply wp_when; [|intros _; by apply Hend]. intros _. unfold pagerUnlockAndRollback. apply pwp_bind, wp_pager.
  rewrite E2. change (PAGER_RESERVED <=? PAGER_SHARED) with false. rewrite andb_false_r. cbn [when]. apply pwp_bind, pwp_ret.
  apply wp_pager_unlock; [done|done| |done]. rewrite E4. by intros pg ->%list_elem_of_singleton.
Qed.

Lemma valid_one : valid ps 1.
Proof.
  pose proof (page_size_range ps ps_ok). unfold valid, PENDING_BYTE, PAGER_MAX_PGNO.
  assert (0 < 0x40000000 / ps) by (apply Z.div_str_pos; lia). lia.
Qed.

(** Page 1 is read, and with it the version of the file. *)
Lemma wp_read_one w (Q : Z * list Z -> world -> Prop) E : pageSize (pgr w) = ps -> zlen (dbFileVers (pgr w)) = 16 -> io_ok (io w) ->
  (forall l dv rc, io_ok l -> zlen dv = 16 -> rc = SQLITE_OK \/ rc = SQLITE_IOERR_SHORT_READ ->
     Q (rc, fpage ps (now (dbf w)) 1) (w <| io := l |> <| pgr ::= fun p => p <| dbFileVers := dv |> |>)) ->
  (forall l, io_ok l -> Q (SQLITE_IOERR_READ, []) (w <| io := l |>)) ->
  wp (readDbPage 1) Q E w.
Proof.
  intros Eps Hdv Hio HQ1 HQ2. pose proof (page_size_range ps ps_ok) as Hps. unfold readDbPage. apply pwp_bind, wp_pager. rewrite Eps.
  assert (Ecall : called w = w <| io := tail (io w) |>) by (by destruct w).
  pose proof (io_ok_tail _ Hio) as Hio'. pose proof (fpage_zlen ps ltac:(lia) (now (dbf w)) 1 ltac:(lia)) as Lf.
  assert (Hz : fpage ps (now (dbf w)) 1 = fsub (now (dbf w)) 0 ps ++ replicate (Z.to_nat (ps - zlen (fsub (now (dbf w)) 0 ps))) 0) by done.
  assert (Hv : forall l rc, io_ok l -> rc = SQLITE_OK \/ rc = SQLITE_IOERR_SHORT_READ ->
    wp (when ((1 =? 1) && negb (bool_decide (fpage ps (now (dbf w)) 1 = [])))
          (upd (fun p => p <| dbFileVers := fsub (fpage ps (now (dbf w)) 1) 24 16 |>));; mret (rc, fpage ps (now (dbf w)) 1)) Q E (w <| io := l |>)).
  { intros l rc Hl Hrc. rewrite bool_decide_false; [|intros E0; rewrite E0, zlen_nil in Lf; lia]. cbn [Z.eqb Pos.eqb negb andb when].
    apply pwp_bind, wp_upd, pwp_ret. apply HQ1; [done|apply fsub_zlen; lia|done]. }
  change ((1 - 1) * ps) with 0.
  eapply pwp_bind, (wp_OsRead HDb (now (dbf w))); [done|lia|lia|..].
  - intros Hl. rewrite fsub_zlen in Hz by lia. rewrite Z.sub_diag in Hz. cbn in Hz. rewrite app_nil_r in Hz. rewrite <- Hz.
    rewrite Ecall. apply Hv; [done|by left].
  - intros Hl. rewrite <- Hz. rewrite Ecall. apply Hv; [done|by right].
  - intros _. rewrite Ecall. cbn [when Z.eqb Pos.eqb negb andb]. change (bool_decide (@nil Z = [])) with true. cbn [negb when].
    apply pwp_bind, pwp_ret, pwp_ret. by apply HQ2.
Qed.

(** The first page is in use, and nothing else. *)
Lemma opened_reading L w l n mx k dv : at_rest w -> io_ok l -> (forall pg, valid ps pg -> L pg = fpage ps D0 pg) ->
  zlen dv = 16 -> n = -1 \/ n = N0 ->
  let w' := w <| io := l |> <| pgr ::= fun p => p <| state := SHARED_LOCK |> <| nPage := k |> <| nRef ::= Z.succ |> <| dbSize := n |>
     <| mxPgno := mx |> <| dbFileVers := dv |> <| pAll ::= insert 1 (new_page false false (fpage ps D0 1)) |> |> in
  reading None L w'.
Proof.
  intros (He & (Hc & Hd & Hjo & Hpj & Hns & Hall & Hlru & Hfs & Hdl & Hnr) & Hst & Hj & Hdb) Hl HL Hdv Hn w'.
  pose proof (page_size_range ps ps_ok) as Hps. pose proof valid_one as Hv1.
  assert (Hx : forall q x, pAll (pgr w') !! q = Some x -> q = 1 /\ x = new_page false false (fpage ps D0 1)).
  { intros q x Hq. cbn in Hq. rewrite Hall in Hq. rewrite insert_empty in Hq. by apply lookup_singleton_Some in Hq as [<- <-]. }
  assert (H1 : pAll (pgr w') !! 1 = Some (new_page false false (fpage ps D0 1))) by apply lookup_insert_eq.
  refine (conj _ (conj _ (conj _ (conj _ (conj _ (conj _ (conj _ (conj _ (conj _ (conj _ (conj HL (conj _ _)))))))))))); try done.
  - refine (conj Hl (conj _ _)); apply He.
  - unfold conf in *. cbn. tauto.
  - split_and!.
    + intros q x [-> ->]%Hx. refine (conj Hv1 _). cbn. rewrite HL by done. split_and!; try done. apply fpage_zlen; lia.
    + intros q Hq _. by apply HL.
    + unfold lru_ok. replace (lru (pgr w')) with (@nil Z) by (symmetry; exact Hlru). split_and!; [constructor| |exact Hfs].
      intros q. split; [by intros ?%elem_of_nil|]. intros (x & [_ ->]%Hx & ?). done.
    + unfold dirty_ok. replace (pDirty (pgr w')) with (@nil Z) by (symmetry; exact Hdl). split; [constructor|].
      intros q. split; [by intros ?%elem_of_nil|]. intros (x & [_ ->]%Hx & ?). done.
    + exists {[1]}. split; [|change (Z.succ (nRef (pgr w)) = Z.of_nat (size ({[1]} : gset Z))); by rewrite Hnr, size_singleton]. intros q. rewrite elem_of_singleton. split.
      * intros ->. by exists (new_page false false (fpage ps D0 1)).
      * by intros (x & [-> _]%Hx & _).
  - intros q x [-> ->]%Hx. done.
  - by exists (new_page false false (fpage ps D0 1)).
Qed.

Lemma wp_first_get junk zJournal busy w (Q : unit -> world -> Prop) (E : Z -> world -> Prop) : at_rest w ->
  (forall w', (forall L, (forall pg, valid ps pg -> L pg = fpage ps D0 pg) -> reading None L w') -> Q tt w') ->
  (forall rc w', rc <> SQLITE_OK -> safe w' -> E rc w') ->
  wp (sqlite3PagerGet junk zJournal busy 1) Q E w.
Proof.
  intros H HQ HE. pose proof H as (He & (Hc & Hd & Hjo & Hpj & Hns & Hall & Hlru & Hfs & Hdl & Hnr) & Hst & Hj & Hdb).
  pose proof (page_size_range ps ps_ok) as Hps. pose proof valid_one as [Hv1 Hv2].
  assert (Eps : pageSize (pgr w) = ps) by (by eapply conf_pageSize).
  unfold sqlite3PagerGet, pagerAcquire. apply pwp_bind, wp_pager. apply pwp_bind, wp_asserts; [by rewrite Hst|].
  unfold PAGER_MJ_PGNO. rewrite Eps. rewrite (proj2 (Z.eqb_neq _ _) Hv2). change ((PAGER_MAX_PGNO <? 1) || (1 =? 0) || false) with false. cbn iota.
  apply pwp_bind, wp_sharedLock_none; [exact H| |exact HE]. intros l Hl. apply pwp_bind, wp_pager. apply pwp_bind, wp_asserts; [done|].
  name_world w0. assert (Eall : pAll (pgr w0) = ∅) by exact Hall. assert (Elru : lru (pgr w0) = []) by exact Hlru.
  unfold pager_lookup. rewrite Eall, lookup_empty.
  apply pwp_bind. unfold pagerAllocatePage. apply pwp_bind, wp_pager. rewrite Elru, orb_true_r. cbn [orb].
  apply pwp_bind, wp_malloc_ok; [apply He|]. cbn [negb]. apply wp_upd. apply pwp_bind, wp_pager. name_world w1.
  assert (Epj : pInJournal (pgr w1) = None) by exact Hpj. rewrite Epj.
  assert (Hundo : forall rc w' (Q : unit -> world -> Prop) (E : Z -> world -> Prop), rc <> SQLITE_OK -> safe w' ->
    nRef (pgr w') = 1 -> pAll (pgr w') = ∅ -> lru (pgr w') = [] -> journalOpen (pgr w') = false -> state (pgr w') = PAGER_SHARED ->
    (forall rc w', rc <> SQLITE_OK -> safe w' -> E rc w') ->
    wp (upd (fun p => p <| pAll ::= insert 1 (new_page false false []) |>);; sqlite3PagerUnref junk zJournal 1;;
      upd (unlinkPage 1);; (throw rc : M unit)) Q E w').
  { intros. by apply wp_undo_first. }
  apply pwp_bind, wp_upd. name_world w2. assert (Hw2 : env w2) by (refine (conj Hl (conj _ _)); apply He).
  assert (Hn2 : nRef (pgr w2) = 1) by (change (Z.succ (nRef (pgr w)) = 1); by rewrite Hnr).
  eapply pwp_bind, (wp_Pagecount ps D0 ps_ok w2 N0); [exact Hw2|exact Hc|done|lia|right; split; [exact Hd|change (now (dbf w2)) with (now (dbf w)); by rewrite Hdb]|..].
  2: { intros l' ec nr Hio Hec ->. apply pwp_bind, wp_pager. cbn. rewrite (proj2 (Z.eqb_neq _ _) Hec). cbn [negb].
       apply Hundo; try done. apply He. }
  intros l' mx n Hio Hn. apply pwp_bind, wp_pager.
  assert (E0 : errCode (pgr w) = SQLITE_OK) by (by eapply conf_errCode). cbn. rewrite E0.
  change (SQLITE_OK =? SQLITE_OK) with true. cbn [negb]. rewrite orb_false_r, Eps.
  assert (Hadd : forall l3 dv data, io_ok l3 -> zlen dv = 16 -> data = fpage ps D0 1 ->
    wp (upd (fun p => p <| pAll ::= insert 1 (new_page false false data) |>)) Q E
      (w2 <| io := l' |> <| pgr ::= fun p => p <| dbSize := N0 |> <| mxPgno := mx |> |> <| io := l3 |>
          <| pgr ::= fun p => p <| dbFileVers := dv |> |>)).
  { intros l3 dv data Hl3 Hdv ->. apply wp_upd. apply HQ. intros L HL.
    exact (opened_reading L w l3 N0 mx _ dv H Hl3 HL Hdv ltac:(by right)). }
  destruct (Z.ltb_spec n 1) as [Hlt|Hge].
  - destruct (Z.ltb_spec mx 1) as [Hmx|Hmx]; [apply Hundo; try done; apply He|].
    apply (Hadd l' (dbFileVers (pgr w))); [done|by apply (conf_vers ps)|]. rewrite fpage_past; [done|]. rewrite D0_size. nia.
  - apply pwp_bind, wp_read_one; [exact Eps|by apply (conf_vers ps)|done|..].
    + intros l3 dv rc Hl3 Hdv Hrc.
      assert (Eb : negb (rc =? SQLITE_OK) && negb (rc =? SQLITE_IOERR_SHORT_READ) = false) by (destruct Hrc as [->| ->]; done).
      rewrite Eb. apply (Hadd l3); [done|done|]. change (fpage ps (now (dbf w)) 1 = fpage ps D0 1). by rewrite Hdb.
    + intros l3 Hl3. apply Hundo; try done. apply He.
Qed.

End open.
