(* ===== verification/PagerTxBegin.v ===== *)
(** * The first write: a transaction begins

    [wp_Begin]: the reserved lock is taken, the journal is created, its first
    header is written. *)

From S2P Require Import Prelude Varint PageBytes RecordUpdate DiskFile Pager PagerJournal PagerCache PagerWp.
From S2P Require Import PagerPlayback PagerRecovery PagerLog PagerPages PagerTx PagerTxJournal PagerTxPage PagerTxGet.

(** ** What a computation leaves alone, however it ends *)

Definition keeps (P : world -> Prop) {A} (m : M A) : Prop := forall w w' r, P w -> m w = Ret (w', r) -> P w'.

Section keeps.
Context (P : world -> Prop).
Local Notation keeps := (keeps P).

Lemma keeps_ret {A} (a : A) : keeps (mret a).
Proof. intros w w' r H [= <- _]. done. Qed.

Lemma keeps_throw {A} rc : keeps (throw rc : M A).
Proof. intros w w' r H [= <- _]. done. Qed.

Lemma keeps_bind {A B} (m : M A) (f : A -> M B) : keeps m -> (forall a, keeps (f a)) -> keeps (m ≫= f).
Proof.
  intros Hm Hf w w' r H E. unfold mbind, M_bind in E. destruct (m w) as [[w1 [rc|a]]| | |] eqn:Em; try discriminate E.
  - injection E as <- <-. by eapply Hm.
  - eapply Hf; [|exact E]. by eapply Hm.
Qed.

Lemma keeps_get : keeps get.
Proof. intros w w' r H [= <- _]. done. Qed.

Lemma keeps_pager : keeps pager.
Proof. intros w w' r H [= <- _]. done. Qed.

Lemma keeps_lift {A} (m : res A) : keeps (lift m).
Proof. intros w w' r H E. unfold lift in E. destruct m; try discriminate E. by injection E as <- _. Qed.

Lemma keeps_upd f : (forall w, P w -> P (w <| pgr ::= f |>)) -> keeps (upd f).
Proof. intros Hf w w' r H [= <- _]. by apply Hf. Qed.

Lemma keeps_when b m : keeps m -> keeps (when b m).
Proof. destruct b; [done|]. intros _. apply keeps_ret. Qed.

Lemma keeps_attempt {A} (m : M A) : keeps m -> keeps (attempt m).
Proof.
  intros Hm w w' r H E. unfold attempt in E. destruct (m w) as [[w1 r1]| | |] eqn:Em; try discriminate E.
  injection E as <- _. by eapply Hm.
Qed.

Lemma keeps_code {A} (m : M A) : keeps m -> keeps (code m).
Proof. intros Hm. apply keeps_bind; [by apply keeps_attempt|]. intros a. apply keeps_ret. Qed.

Lemma keeps_check rc : keeps (check rc).
Proof. unfold check. destruct (rc =? SQLITE_OK); [apply keeps_ret|apply keeps_throw]. Qed.

Lemma keeps_asserts b : keeps (asserts b).
Proof. apply keeps_lift. Qed.

Lemma wp_keeps {A} (m : M A) (Q : A -> world -> Prop) E w : keeps m -> P w ->
  wp m (fun a w' => P w' -> Q a w') (fun rc w' => P w' -> E rc w') w -> wp m Q E w.
Proof.
  intros Hm Hw H. unfold wp in *. destruct (m w) as [[w' [rc|a]]| | |] eqn:Em; try done; apply H; by eapply Hm.
Qed.
End keeps.

(** What goes to the journal leaves the database and the pager's mode alone. *)
Definition writing (d : dfile) (s : Z) (w : world) : Prop :=
  dbf w = d /\ (exists jd nm, jrn w = JLive jd nm) /\ state (pgr w) = s /\ journalOpen (pgr w) = true /\
  exclusiveMode (pgr w) = false /\ journalMode (pgr w) = PAGER_JOURNALMODE_DELETE /\ stmtInUse (pgr w) = false.

Section header.
Context (d : dfile) (s : Z).
Local Notation keeps := (keeps (writing d s)).

Lemma keeps_OsWrite bs off : keeps (sqlite3OsWrite HJ bs off).
Proof.
  unfold sqlite3OsWrite. apply keeps_bind; [apply keeps_asserts|intros _]. apply keeps_bind.
  - unfold refused. apply keeps_bind; [|intros [? ?]; apply keeps_ret]. intros w w' r H E. unfold os in E.
    destruct (io w); injection E as <- _; exact H.
  - intros [[no rc] n]. destruct (off <? 0); [apply keeps_throw|]. apply keeps_bind.
    + intros w w' r H E. pose proof H as (_ & (jd & nm & Ej) & _). unfold content in E. rewrite Ej in E. by injection E as <- _.
    + assert (Hs : forall f, keeps (set_content HJ f)).
      { intros f w w' r H E. pose proof H as (_ & (jd & nm & Ej) & _). unfold set_content in E. rewrite Ej in E. injection E as <- _.
        destruct H as (H1 & _ & H2). split; [exact H1|]. split; [by eexists _, _|exact H2]. }
      intros f. destruct no; [|apply Hs]. apply keeps_bind; [apply Hs|]. intros _. apply keeps_throw.
Qed.

Ltac keep := repeat first
  [apply keeps_code|apply keeps_when|apply keeps_check|apply keeps_asserts|apply keeps_pager|apply keeps_OsWrite
  |apply keeps_bind; [|intros ?]|apply keeps_ret|apply keeps_lift|apply keeps_upd; intros ? H; exact H].

Lemma keeps_write_headers fuel n nHeader hdr : keeps (write_headers fuel n nHeader hdr).
Proof.
  revert n. induction fuel as [|fuel IH]; intros n; [apply keeps_lift|]. cbn [write_headers].
  apply keeps_bind; [apply keeps_pager|]. intros p. destruct (_ <=? n); [apply keeps_ret|]. keep. apply IH.
Qed.

Lemma keeps_writeJournalHdr : keeps writeJournalHdr.
Proof.
  unfold writeJournalHdr, seekJournalHdr, put_tmp. keep.
  all: repeat match goal with |- PagerTxBegin.keeps _ (if ?b then _ else _) => destruct b end; keep; try apply keeps_write_headers.
  all: intros w w' r H E; unfold sqlite3_randomness in E; destruct (rnd w); injection E as <- _; exact H.
Qed.
End header.

Section begin.
Context (ps N0 : Z) (D0 : list Z) (ps_ok : page_size ps) (N0_range : 0 <= N0 < 2 ^ 31) (D0_size : zlen D0 = N0 * ps).

Local Notation survives := (survives ps D0).
Local Notation files_ok := (files_ok ps N0 D0).
Local Notation cache := (cache ps).
Local Notation env := (env ps D0).
Local Notation safe := (safe ps D0).
Local Notation tx := (tx ps N0 D0).
Local Notation tx_sealed := (tx_sealed ps N0 D0).
Local Notation reading := (reading ps N0 D0).
Local Notation flags := (flags ps N0 D0).

Lemma same_untouched df : (forall v, v ∈ versions df -> v = D0) -> kept_all ps N0 D0 [] df.
Proof.
  intros H v Hv. rewrite (H v Hv). pose proof (page_size_range ps ps_ok). split; [nia|]. intros pg Hpg _. split; [nia|done].
Qed.

(** A journal that was just made. *)
Lemma files_ok_new df nm : untouched D0 df -> files_ok df (mkDfile [] []) nm [] [].
Proof.
  intros Hu. split_and!; [|constructor|by intros r ?%elem_of_nil|by apply same_untouched|done].
  split_and!; [by left|done|]. intros v Hv. unfold versions in Hv. cbn in Hv. apply list_elem_of_singleton in Hv as ->. apply tail_ok_self.
Qed.

(** A journal that is deleted before the database was touched. *)
Lemma survives_gone df jd nm : untouched D0 df -> survives (df, JLive jd nm) -> survives (df, JGone jd).
Proof.
  intros Hu Hs d jo Hc. inversion Hc; subst.
  - cbn. by eapply untouched_torn.
  - apply Hs. by constructor.
Qed.

Lemma wp_delete_safe w jd nm (Q : unit -> world -> Prop) E : env w -> jrn w = JLive jd nm -> untouched D0 (dbf w) ->
  (forall w', safe w' -> Q tt w') -> wp delete_journal Q E w.
Proof.
  intros (Hio & Hm & Hw) Hj Hu HQ. unfold delete_journal. apply pwp_bind, wp_refused.
  - intros _. apply pwp_bind, pwp_get. cbn. rewrite Hj. cbn. apply HQ. destruct Hw as [Hw1 Hw2].
    split; cbn; [|by constructor]. rewrite Hj in Hw1. by eapply survives_gone.
  - intros _ rc n Hrc. apply pwp_bind, pwp_get. cbn. rewrite Hj. apply pwp_ret, HQ, Hw.
Qed.

Lemma wp_delete_safe_none w (Q : unit -> world -> Prop) E : env w -> jrn w = JNone ->
  (forall w', safe w' -> Q tt w') -> wp delete_journal Q E w.
Proof.
  intros (Hio & Hm & Hw) Hj HQ. unfold delete_journal. apply pwp_bind, wp_refused.
  - intros _. apply pwp_bind, pwp_get. cbn. rewrite Hj. by apply pwp_ret, HQ.
  - intros _ rc n Hrc. apply pwp_bind, pwp_get. cbn. rewrite Hj. by apply pwp_ret, HQ.
Qed.

(** Making the journal; an error may come before or after the file is there. *)
Lemma wp_create w (Q : unit -> world -> Prop) (E : Z -> world -> Prop) : env w -> jrn w = JNone -> untouched D0 (dbf w) ->
  (forall w', env w' -> pgr w' = pgr w -> dbf w' = dbf w -> jrn w' = JLive (mkDfile [] []) false -> Q tt w') ->
  (forall rc w', rc <> SQLITE_OK -> env w' -> pgr w' = pgr w -> dbf w' = dbf w ->
     jrn w' = JNone \/ jrn w' = JLive (mkDfile [] []) false -> E rc w') ->
  wp create_journal Q E w.
Proof.
  intros He Hj Hu HQ HE. unfold create_journal.
  assert (Hnew : env (with_files (dbf w) (JLive (mkDfile [] []) false) (called w))).
  { apply env_files; [by apply env_called|]. eapply files_ok_survives; [done..|]. by apply files_ok_new. }
  apply pwp_bind, wp_refused.
  - intros n. apply pwp_bind, pwp_get. cbn. rewrite Hj. apply HQ; [exact Hnew|reflexivity..].
  - intros _ rc n Hrc. apply pwp_bind, pwp_get. cbn. rewrite Hj. destruct (n =? 0).
    + apply wp_throw, HE; [done|by apply env_called|done..|by left].
    + apply pwp_bind. apply HE; [done|exact Hnew|reflexivity..|by right].
Qed.

(** The header could not be written: the journal is deleted. *)
Lemma wp_begin_failed rc w (Q : unit -> world -> Prop) (E : Z -> world -> Prop) : rc <> SQLITE_OK -> safe w ->
  writing (mkDfile D0 []) PAGER_RESERVED w -> (forall rc w', rc <> SQLITE_OK -> safe w' -> E rc w') ->
  wp (if negb (rc =? SQLITE_OK) && negb (rc =? SQLITE_NOMEM) && negb (rc =? SQLITE_IOERR_NOMEM) then
        rc ← code (pager_end_transaction false); throw (if rc =? SQLITE_OK then SQLITE_FULL else rc)
      else check rc) Q E w.
Proof.
  intros Hrc Hw (Hd & (jd & nm & Hj) & Hst & Hjo & Hex & Hmo & Hsi) HE. destruct (_ && _).
  - assert (Hend : forall w', ended w jd w' -> safe w').
    { intros w' (Ed & Hc & _). destruct Hw as [Hw1 Hw2]. rewrite Hj in Hw1. assert (Hu : untouched D0 (dbf w)).
      { rewrite Hd. by intros v ->%list_elem_of_singleton. }
      destruct Hc as [[Ej Ep]|(_ & Ej & Ep)].
      - split; [rewrite Ed, Ej; by eapply survives_gone|]. rewrite Ep. constructor; [by rewrite Hj|done].
      - split; [rewrite Ed, Ej; by rewrite Hj|by rewrite Ep]. }
    apply pwp_bind, wp_code. eapply wp_end_delete; [by rewrite Hst|done|done|done|done|exact Hj| |].
    + intros w' H'. apply wp_throw, HE; [done|by apply Hend].
    + intros _ w' rc' H' Hrc'. apply wp_throw, HE; [by destruct (Z.eqb_spec rc' SQLITE_OK)|by apply Hend].
  - apply wp_check; [done|]. intros _. by apply HE.
Qed.

(** A process that has the reserved lock, and nothing was done yet. *)
Definition starting (pg : Z) (L : Z -> list Z) (w : world) : Prop :=
  reading (Some pg) L (w <| pgr ::= fun p => p <| state := PAGER_SHARED |> |>) /\ state (pgr w) = PAGER_RESERVED /\ dirtyCache (pgr w) = false.

Lemma starting_sealed pg L w w1 mx jh : starting pg L w -> env w1 -> dbf w1 = dbf w -> jrn w1 = JLive (mkDfile [] []) false ->
  pgr w1 = pgr w <| dbSize := N0 |> <| mxPgno := mx |> <| pInJournal := Some ∅ |> <| journalOff := 0 |> <| setMaster := false |>
       <| journalHdr := jh |> <| journalOpen := true |> <| journalStarted := false |> <| needSync := false |>
       <| alwaysRollback := false |> <| nRec := 0 |> <| origDbSize := N0 |> ->
  tx_sealed (Some pg) [] [] L w1.
Proof.
  intros ((He & Hc & Hst' & Hjo & Hpj & Hns & Hj & Hdb & Hsz & Hca & HL & Hfl & Hh) & Hst & Hdc) He' Ed Ej Ep.
  cbn in Hdb. pose proof (page_size_range ps ps_ok) as Hps.
  unfold tx_sealed, PagerTx.tx_sealed, running, sizes, started, disk_sealed. rewrite Ep, Ed, Ej, Hdb.
  refine (conj He' (conj _ (conj _ (conj _ (conj _ (conj _ (conj _ (conj _ Hh)))))))).
  - unfold conf in *. cbn in *. tauto.
  - split; [by left|]. split_and!; done.
  - cbn. split; [lia|]. rewrite D0_size. lia.
  - by split.
  - exists (mkDfile [] []), false. refine (conj eq_refl (conj _ (conj _ (conj eq_refl (conj eq_refl _))))); [|done|done].
    apply files_ok_new. by intros v ->%list_elem_of_singleton.
  - exact Hca.
  - refine (conj _ (conj _ (conj _ (conj _ _)))); [apply NoDup_nil_2|exists ∅; split; [done|set_solver]| |by intros q ?%elem_of_nil|].
    + intros q x Hx. destruct (Hfl q x Hx) as (F1 & F2 & F3). split_and!; [by rewrite F2|by rewrite F3|by intros ?%elem_of_nil|by intros ?%elem_of_nil|].
      intros Hne Hd. by rewrite F1 in Hd.
    + intros q Hq _ Hv. rewrite HL by done. apply fpage_in; [lia|lia|]. rewrite D0_size. nia.
Qed.

Lemma wp_open_journal pg L w (Q : unit -> world -> Prop) (E : Z -> world -> Prop) : starting pg L w ->
  (forall w', tx (Some pg) [] [] [] L w' -> pAll (pgr w') = pAll (pgr w) -> Q tt w') ->
  (forall rc w', rc <> SQLITE_OK -> safe w' -> E rc w') ->
  wp pager_open_journal Q E w.
Proof.
  intros H HQ HE. pose proof H as ((He & Hc & Hst' & Hjo & Hpj & Hns & Hj & Hdb & Hsz & Hca & HL & Hfl & Hh) & Hst & Hdc).
  change (env w) in He. change (conf ps (pgr w)) in Hc. change (jrn w = JNone) in Hj. change (dbf w = mkDfile D0 []) in Hdb.
  change (pInJournal (pgr w) = None) in Hpj. change (journalOpen (pgr w) = false) in Hjo. change (dbSize (pgr w) = -1 \/ dbSize (pgr w) = N0) in Hsz.
  assert (Hu : untouched D0 (dbf w)) by (rewrite Hdb; by intros v ->%list_elem_of_singleton).
  unfold pager_open_journal. apply pwp_bind, wp_pager. apply pwp_bind, wp_asserts; [by rewrite Hst|].
  apply pwp_bind, wp_asserts; [by eapply conf_useJournal|]. apply pwp_bind, wp_asserts; [by rewrite Hpj|].
  set (failed := fun rc : Z => upd (fun p => p <| pInJournal := None |>);; (throw rc : M unit)).
  assert (Hfail : forall rc w', rc <> SQLITE_OK -> safe w' -> wp (failed rc) Q E w').
  { intros rc w' Hrc Hw'. apply pwp_bind, wp_upd, wp_throw, HE; [done|exact Hw']. }
  (* what follows the count of the pages *)
  assert (Hk : forall l sz mx ec nr, io_ok l -> ec <> SQLITE_OK \/ sz = N0 /\ ec = SQLITE_OK /\ nr = nRef (pgr w) ->
    wp (b ← malloc_ok;
        if negb b then failed SQLITE_NOMEM else
        upd (fun p => p <| pInJournal := Some ∅ |>);;
        rc ← (if journalOpen (pgr w) then mret SQLITE_OK else
              rc ← code create_journal;
              upd (fun p => p <| journalOff := 0 |> <| setMaster := false |> <| journalHdr := 0 |>);;
              when (rc =? SQLITE_NOMEM) (_ ← code delete_journal; mret tt);;
              mret rc);
        if negb (rc =? SQLITE_OK) then failed rc else
        upd (fun p => p <| journalOpen := true |> <| journalStarted := false |> <| needSync := false |>
                  <| alwaysRollback := false |> <| nRec := 0 |>);;
        p ← pager;
        if negb (errCode p =? SQLITE_OK) then failed (errCode p) else
        upd (fun p => p <| origDbSize := dbSize p |>);;
        rc ← code (writeJournalHdr;; p ← pager; when (stmtAutoopen p) sqlite3PagerStmtBegin);
        if negb (rc =? SQLITE_OK) && negb (rc =? SQLITE_NOMEM) && negb (rc =? SQLITE_IOERR_NOMEM) then
          rc ← code (pager_end_transaction false);
          throw (if rc =? SQLITE_OK then SQLITE_FULL else rc)
        else check rc) Q E
      (w <| io := l |> <| pgr ::= fun p => p <| dbSize := sz |> <| mxPgno := mx |> <| errCode := ec |> <| nRef := nr |> |>)).
  { intros l sz mx ec nr Hl Hcase. apply pwp_bind, wp_malloc_ok; [apply He|]. cbn [negb]. apply pwp_bind, wp_upd. rewrite Hjo.
    name_world w1. assert (He1 : env w1) by (refine (conj Hl (conj _ _)); apply He).
    apply pwp_bind, pwp_bind, wp_code, wp_create; [exact He1|done|exact Hu|..].
    2: { intros rc w2 Hrc He2 Ep2 Ed2 Hj2. apply pwp_bind, wp_upd. name_world w3. change (env w3) in He2. change (dbf w3 = dbf w1) in Ed2.
         assert (Hu3 : untouched D0 (dbf w3)) by (by rewrite Ed2).
         assert (Hend : forall w4, safe w4 -> wp (if negb (rc =? SQLITE_OK) then failed rc else mret tt) Q E w4).
         { intros w4 Hw4. rewrite (proj2 (Z.eqb_neq _ _) Hrc). cbn [negb]. by apply Hfail. }
         apply pwp_bind, wp_when.
         - intros _. apply pwp_bind, wp_code. destruct Hj2 as [Hj2|Hj2].
           + eapply wp_delete_safe_none; [exact He2|exact Hj2|]. intros w4 Hw4. apply pwp_ret, pwp_ret. specialize (Hend w4 Hw4).
             rewrite (proj2 (Z.eqb_neq _ _) Hrc) in *. exact Hend.
           + eapply wp_delete_safe; [exact He2|exact Hj2|exact Hu3|]. intros w4 Hw4. apply pwp_ret, pwp_ret. specialize (Hend w4 Hw4).
             rewrite (proj2 (Z.eqb_neq _ _) Hrc) in *. exact Hend.
         - intros _. apply pwp_ret. specialize (Hend w3 ltac:(apply He2)). rewrite (proj2 (Z.eqb_neq _ _) Hrc) in *. exact Hend. }
    intros w2 He2 Ep2 Ed2 Ej2. apply pwp_bind, wp_upd. change (SQLITE_OK =? SQLITE_NOMEM) with false. cbn [when]. apply pwp_bind, pwp_ret, pwp_ret.
    change (SQLITE_OK =? SQLITE_OK) with true. cbn [negb]. apply pwp_bind, wp_upd, pwp_bind, wp_pager. name_world w3.
    assert (Eec : errCode (pgr w3) = ec) by (change (errCode (pgr w2) = ec); by rewrite Ep2). rewrite Eec.
    destruct Hcase as [Hec|(-> & -> & ->)].
    { rewrite (proj2 (Z.eqb_neq _ _) Hec). cbn [negb]. apply Hfail; [done|apply He2]. }
    change (SQLITE_OK =? SQLITE_OK) with true. cbn [negb]. apply pwp_bind, wp_upd. name_world w4.
    assert (E0 : errCode (pgr w) = SQLITE_OK) by (by eapply conf_errCode).
    assert (Hs : tx_sealed (Some pg) [] [] L w4).
    { apply (starting_sealed pg L w w4 mx 0 H); [exact He2|exact Ed2|exact Ej2|]. cbn. rewrite Ep2. cbn.
      revert E0. clear. destruct (pgr w). cbn. by intros ->. }
    apply pwp_bind, wp_code, pwp_bind. eapply (wp_keeps (writing (mkDfile D0 []) PAGER_RESERVED)); [apply keeps_writeJournalHdr| |].
    { pose proof Hs as (_ & Hc4 & Hr4 & _ & _ & (jd & nm & Hj4 & _) & _).
      refine (conj _ (conj _ (conj _ (conj _ (conj _ (conj _ _)))))); [by rewrite <- Hdb|by eexists _, _| |apply Hr4|by eapply conf_exclusiveMode
        |by eapply conf_journalMode|by eapply conf_stmtInUse].
      change (state (pgr w2) = PAGER_RESERVED). by rewrite Ep2. }
    assert (Epa : pAll (pgr w4) = pAll (pgr w)) by (change (pAll (pgr w2) = pAll (pgr w)); by rewrite Ep2).
    eapply (wp_writeJournalHdr ps N0 D0 ps_ok N0_range D0_size); [exact Hs|done| | |].
    - intros _. change (dbSize (pgr w2) = N0). by rewrite Ep2.
    - intros w5 H5 Hsp _. apply pwp_bind, wp_pager. pose proof H5 as (_ & Hc5 & _).
      rewrite (conf_stmtAutoopen _ _ Hc5). cbn [when]. apply pwp_ret. change (SQLITE_OK =? SQLITE_OK) with true. cbn [negb andb].
      apply wp_check_ok. apply HQ; [done|]. destruct Hsp as [-> _]. exact Epa.
    - intros rc w5 Hrc Hw5 HP. by apply wp_begin_failed. }
  eapply pwp_bind, (wp_Pagecount ps D0 ps_ok w N0); [exact He|exact Hc|by rewrite Hst|lia|..].
  - destruct Hsz as [Hsz|Hsz]; [right|by left]. split; [done|]. rewrite Hdb. exact D0_size.
  - intros l mx n Hl _. specialize (Hk l N0 mx SQLITE_OK (nRef (pgr w)) Hl ltac:(by right)).
    assert (E0 : errCode (pgr w) = SQLITE_OK) by (by eapply conf_errCode).
    revert Hk. match goal with |- wp _ _ _ ?a -> _ => assert (Ea : a = w <| io := l |> <| pgr ::= fun p => p <| dbSize := N0 |> <| mxPgno := mx |> |>) end.
    { destruct w as [p]. destruct p. cbn in *. by subst. }
    rewrite Ea. exact (fun h => h).
  - intros l ec nr Hl Hec _. specialize (Hk l (dbSize (pgr w)) (mxPgno (pgr w)) ec nr Hl ltac:(by left)).
    revert Hk. match goal with |- wp _ _ _ ?a -> _ => assert (Ea : a = w <| io := l |> <| pgr ::= fun p => p <| nRef := nr |> <| errCode := ec |> |>) end.
    { destruct w as [p]. by destruct p. }
    rewrite Ea. exact (fun h => h).
Qed.

Lemma wp_Begin_first busy pg L w (Q : unit -> world -> Prop) (E : Z -> world -> Prop) : reading (Some pg) L w -> held pg (pgr w) ->
  (forall w', tx (Some pg) [] [] [] L w' -> pAll (pgr w') = pAll (pgr w) -> Q tt w') ->
  (forall rc w', rc <> SQLITE_OK -> safe w' -> E rc w') ->
  wp (sqlite3PagerBegin busy pg false) Q E w.
Proof.
  intros H Hpg HQ HE. pose proof H as (He & Hc & Hst & Hjo & Hpj & _).
  unfold sqlite3PagerBegin. apply pwp_bind, wp_pager. destruct Hpg as (x & Hx & Hn).
  apply pwp_bind, wp_asserts; [rewrite Hx; by apply Z.ltb_lt|]. apply pwp_bind, wp_asserts; [by rewrite Hst|].
  rewrite Hst. change (PAGER_SHARED =? PAGER_SHARED) with true. cbn iota.
  apply pwp_bind, pwp_bind, wp_asserts; [by rewrite Hpj|]. apply pwp_bind. unfold sqlite3OsLock. apply pwp_bind, wp_os.
  2: { intros _ rc n Hrc. apply wp_check; [done|]. intros _. apply HE; [done|apply He]. }
  intros n. apply wp_check_ok. apply pwp_bind, wp_upd. cbn [when]. apply pwp_bind, pwp_ret. apply pwp_bind, wp_upd.
  rewrite (conf_useJournal _ _ Hc), (conf_journalMode _ _ Hc). cbn [andb]. change (negb (PAGER_JOURNALMODE_DELETE =? PAGER_JOURNALMODE_OFF)) with true.
  cbn iota. name_world w1.
  assert (Hs : starting pg L w1).
  { split; [|done]. pose proof H as ((_ & He2) & _ & _ & J1 & J2 & (J3 & _) & H').
    exact (conj (conj (io_ok_tail _ (proj1 He)) He2) (conj Hc (conj eq_refl (conj J1 (conj J2 (conj (conj J3 eq_refl) H')))))). }
  apply wp_code, (wp_open_journal pg L w1); [exact Hs|..].
  - intros w2 H2 Epa. apply pwp_bind, wp_pager. pose proof H2 as (_ & _ & _ & _ & _ & (jd & nm & ck & Hj & Hf & Hnm & Hseg & _ & _ & _ & Hoff & _) & _).
    apply pwp_bind, wp_asserts.
    { pose proof Hseg as (_ & _ & Ls & _). rewrite Hoff, Ls. change (zlen (@nil (Z * list Z))) with 0. change (roundup (zlen (@nil Z))) with 0.
      change (0 <? 0 + 512 + 0 * (ps + 8)) with true. by rewrite orb_true_r. }
    apply wp_check_ok. apply HQ; [done|]. exact Epa.
  - intros rc w2 Hrc Hw2. apply pwp_bind, wp_pager. apply pwp_bind, wp_asserts.
    { rewrite (proj2 (Z.eqb_neq _ _) Hrc). apply orb_true_r. }
    apply wp_check; [done|]. intros _. by apply HE.
Qed.

Lemma tx_journalOff e b closed opened L w : tx e b closed opened L w -> 0 < journalOff (pgr w).
Proof.
  intros (_ & _ & _ & _ & _ & (jd & nm & ck & Hj & Hf & Hnm & (_ & _ & Ls & _) & _ & _ & _ & Hoff & _) & _).
  rewrite Hoff, Ls. pose proof (zlen_nonneg b). destruct (roundup_bounds (zlen b)) as [Hr _]; [lia|].
  pose proof (zlen_nonneg opened). pose proof (page_size_range ps ps_ok). nia.
Qed.

Lemma wp_Begin_again busy e b closed opened pg L w (Q : unit -> world -> Prop) (E : Z -> world -> Prop) :
  tx e b closed opened L w -> held pg (pgr w) -> Q tt w -> wp (sqlite3PagerBegin busy pg false) Q E w.
Proof.
  intros H (x & Hx & Hn) HQ. pose proof (tx_journalOff _ _ _ _ _ _ H) as Hoff. pose proof H as (_ & _ & (Hst & Hjo & _) & _).
  unfold sqlite3PagerBegin. apply pwp_bind, wp_pager. apply pwp_bind, wp_asserts; [rewrite Hx; by apply Z.ltb_lt|].
  apply pwp_bind, wp_asserts; [by destruct Hst as [->| ->]|].
  assert (E1 : (state (pgr w) =? PAGER_SHARED) = false) by (by destruct Hst as [->| ->]). rewrite E1, Hjo.
  rewrite (proj2 (Z.eqb_neq (journalOff (pgr w)) 0)) by lia. cbn [andb]. apply pwp_bind, pwp_ret, pwp_bind, wp_pager.
  apply pwp_bind, wp_asserts; [rewrite (proj2 (Z.ltb_lt 0 _) Hoff); by rewrite orb_true_r|]. by apply wp_check_ok.
Qed.

End begin.
