(* ===== verification/PagerTxWrite.v ===== *)
(** * Writing a page

    [pager_write] puts the original of a page into the journal before the
    caller changes it ([wp_Write]). *)

From S2P Require Import Prelude Varint PageBytes RecordUpdate DiskFile Pager PagerJournal PagerCache PagerWp.
From S2P Require Import PagerPlayback PagerRecovery PagerLog PagerPages PagerTx PagerTxJournal PagerTxPage PagerTxGet.
From S2P Require Import PagerTxBegin.

Section write.
Context (ps N0 : Z) (D0 : list Z) (ps_ok : page_size ps) (N0_range : 0 <= N0 < 2 ^ 31) (D0_size : zlen D0 = N0 * ps).
Context (rw : bool).

Local Notation survives := (survives ps D0).
Local Notation files_ok := (files_ok ps N0 D0).
Local Notation cache := (cache ps).
Local Notation env := (env ps D0).
Local Notation safe := (safe ps D0).
Local Notation tx := (tx ps N0 D0).
Local Notation reading := (reading ps N0 D0).
Local Notation flags := (flags ps N0 D0).
Local Notation page_flags := (page_flags N0).
Local Notation active := (active ps N0 D0 rw).

(** ** A page becomes dirty *)

Lemma makeDirty_shape p pg x : pAll p !! pg = Some x -> exists m l, makeDirty pg p = p <| pAll := m |> <| pDirty := l |> /\
  m !! pg = Some (x <| dirty := true |>) /\ forall q, q <> pg -> m !! q = pAll p !! q.
Proof.
  intros Hx. unfold makeDirty. rewrite Hx. destruct (dirty x) eqn:Ed.
  - exists (pAll p), (pDirty p). split_and!; [by destruct p| |done]. rewrite Hx. f_equal. destruct x. cbn in *. by subst.
  - exists (pAll (set_page pg (fun y => y <| dirty := true |>) p)), (pg :: pDirty p). split_and!; [done|by apply set_page_this|].
    intros q Hq. by apply set_page_other.
Qed.

Lemma dirtied_reading L w pg x : reading None L w -> pAll (pgr w) !! pg = Some x ->
  reading (Some pg) L (w <| pgr ::= makeDirty pg |>).
Proof.
  intros (He & Hc & Hst & Hjo & Hpj & Hns & Hj & Hdb & Hsz & Hca & HL & Hfl & Hh) Hx.
  pose proof (cache_makeDirty ps L D0 _ _ _ Hca Hx) as Hca'.
  destruct (makeDirty_shape _ _ _ Hx) as (m & l & Em & Hm & Ho).
  assert (Hh' : held 1 (makeDirty pg (pgr w))).
  { rewrite Em. destruct Hh as (z & Hz & Hn). destruct (decide (1 = pg)) as [<-|Hne].
    - eexists. split; [exact Hm|]. by assert (x = z) as -> by congruence.
    - exists z. split; [|done]. cbn. by rewrite Ho. }
  change (w <| pgr ::= makeDirty pg |>) with (w <| pgr := makeDirty pg (pgr w) |>).
  unfold reading, PagerTx.reading. cbn [pgr dbf jrn set_field set_pgr]. rewrite Em in *.
  refine (conj He (conj Hc (conj Hst (conj Hjo (conj Hpj (conj Hns (conj Hj (conj Hdb (conj Hsz (conj Hca' (conj HL (conj _ Hh')))))))))))).
  intros q y Hy. cbn in Hy. destruct (decide (q = pg)) as [->|Hq].
  - rewrite Hm in Hy. injection Hy as <-. split; [done|]. by apply (Hfl pg x).
  - rewrite Ho in Hy by done. destruct (Hfl q y Hy) as (F1 & F2). split; [|done]. intros _. by apply F1.
Qed.

Lemma dirtied_tx b closed opened L w pg x : tx None b closed opened L w -> pAll (pgr w) !! pg = Some x ->
  tx (Some pg) b closed opened L (w <| pgr ::= makeDirty pg |>).
Proof.
  intros (He & Hc & Hrun & Hsz & Hst & Hdk & Hca & Hfl & Hh) Hx.
  pose proof (cache_makeDirty ps L _ _ _ _ Hca Hx) as Hca'.
  destruct (makeDirty_shape _ _ _ Hx) as (m & l & Em & Hm & Ho).
  assert (Hh' : held 1 (makeDirty pg (pgr w))).
  { rewrite Em. destruct Hh as (z & Hz & Hn). destruct (decide (1 = pg)) as [<-|Hne].
    - eexists. split; [exact Hm|]. by assert (x = z) as -> by congruence.
    - exists z. split; [|done]. cbn. by rewrite Ho. }
  change (w <| pgr ::= makeDirty pg |>) with (w <| pgr := makeDirty pg (pgr w) |>).
  unfold tx, PagerTx.tx. unfold sizes, disk. cbn [pgr dbf jrn set_field set_pgr]. rewrite Em in *.
  refine (conj He (conj Hc (conj _ (conj Hsz (conj Hst (conj Hdk (conj Hca' (conj _ Hh')))))))).
  { destruct Hrun as (R1 & R2 & R3 & _). by split_and!. }
  destruct Hfl as (H1 & H2 & H3 & H4 & H5). refine (conj H1 (conj H2 (conj _ (conj _ H5)))).
  - intros q y Hy. cbn in Hy. destruct (decide (q = pg)) as [->|Hq].
    + rewrite Hm in Hy. injection Hy as <-. destruct (H3 pg x Hx) as (F1 & F2 & F3 & F4 & F5). split_and!; try done.
    + rewrite Ho in Hy by done. destruct (H3 q y Hy) as (F1 & F2 & F3 & F4 & F5). split_and!; try done. intros _. by apply F5.
  - intros q Hq. cbn. destruct (decide (q = pg)) as [->|Hne]; [by eexists|]. rewrite Ho by done. by apply H4.
Qed.

(** ** Its original goes to the journal *)

Lemma flags_journaled L c o o' p p' pg x y : flags (Some pg) L c o p -> changed pg p p' ->
  pAll p !! pg = Some x -> inJournal x = false -> pAll p' !! pg = Some y -> inJournal y = true ->
  (needSync p = true -> needSync p' = true) -> (pg_needSync y = true -> needSync p' = true) ->
  journalStarted p' = journalStarted p -> dbSize p' = dbSize p -> (dirtyCache p = true -> dirtyCache p' = true) ->
  (exists s data, pInJournal p = Some s /\ pInJournal p' = Some ({[pg]} ∪ s) /\ o' = o ++ [(pg, data)] /\ pg_needSync y = true) \/
  (o' = o /\ pInJournal p' = pInJournal p /\ N0 < pg /\ (pg_needSync y = false -> journalStarted p = true)) ->
  flags (Some pg) L c o' p'.
Proof.
  intros (H1 & (s & Es & H2) & H3 & H4 & H5) Hch Hx Hi Hy Hiy En Eny Est Edb Edc Hcase.
  assert (Hno : pg ∉ (c ++ o).*1). { intros Hin. destruct (H3 pg x Hx) as (_ & _ & F & _). by rewrite F in Hi. }
  assert (Ho : forall q, q ∈ o'.*1 <-> q ∈ o.*1 \/ q = pg /\ o' <> o).
  { intros q. destruct Hcase as [(_ & data & _ & _ & -> & _)|(-> & _)]; [|naive_solver]. rewrite fmap_app, elem_of_app. cbn.
    rewrite list_elem_of_singleton. split; [intros [?|?]; [by left|right; split; [done|]]|intros [?|[? _]]; auto].
    intros E0. apply (f_equal length) in E0. rewrite length_app in E0. cbn in E0. lia. }
  assert (Hco : forall q, q ∈ (c ++ o').*1 <-> q ∈ (c ++ o).*1 \/ q = pg /\ o' <> o).
  { intros q. rewrite !fmap_app, !elem_of_app, Ho. tauto. }
  refine (conj _ (conj _ (conj _ (conj _ _)))).
  - destruct Hcase as [(_ & data & _ & _ & -> & _)|(-> & _)]; [|done]. rewrite app_assoc, fmap_app. apply NoDup_app. split_and!; [done| |apply NoDup_singleton].
    intros q Hq Hq2. cbn in Hq2. apply list_elem_of_singleton in Hq2 as ->. done.
  - destruct Hcase as [(s' & data & Es' & Es2 & -> & _)|(-> & Es2 & _)]; [|exists s; by rewrite Es2].
    exists ({[pg]} ∪ s'). split; [done|]. intros q. rewrite Hco, elem_of_union, elem_of_singleton.
    assert (s' = s) as -> by congruence. rewrite H2. split; [intros [->|?]; [right; split; [done|]|by left]|intros [?|[? _]]; auto].
    intros E0. apply (f_equal length) in E0. rewrite length_app in E0. cbn in E0. lia.
  - intros q z Hz. destruct (decide (q = pg)) as [->|Hq].
    + assert (z = y) as -> by congruence. split_and!; [done| |done| |done].
      * intros _. rewrite Hco, Est. destruct Hcase as [(_ & data & _ & _ & -> & E1)|(-> & _ & E1 & E2)].
        -- split; [|by rewrite E1]. intros _. right. split; [done|]. intros E0. apply (f_equal length) in E0. rewrite length_app in E0. cbn in E0. lia.
        -- split; [lia|done].
      * destruct Hcase as [(_ & data & _ & _ & -> & E1)|(-> & _)]; [done|]. intros Hin. destruct Hno. rewrite fmap_app, elem_of_app. by right.
    + rewrite Hch in Hz by done. destruct (H3 q z Hz) as (F1 & F2 & F3 & F4 & F5). split_and!.
      * auto.
      * intros Hiz. destruct (F2 Hiz) as [G1 G2]. rewrite Hco, Est. auto.
      * rewrite Hco. intros [?|[? _]]; [auto|done].
      * rewrite Ho. intros [?|[? _]]; [auto|done].
      * intros He Hd. destruct (F5 He Hd) as (?&?&?). rewrite Edb. auto.
  - intros q. rewrite Ho. intros [Hq|[-> _]]; [|by eexists]. destruct (decide (q = pg)) as [->|Hne]; [by eexists|]. rewrite Hch by done. by apply H4.
  - intros q Hq Hnin Hv. apply H5; [done| |done]. intros Hin. apply Hnin. rewrite Hco. by left.
Qed.

Definition begun (p : Pager) : Pager := p <| dirtyCache := true |> <| dbModified := true |>.

Lemma begun_tx e b c o L w : tx e b c o L w -> tx e b c o L (w <| pgr ::= begun |>).
Proof.
  intros (He & Hc & Hrun & Hsz & Hst & Hdk & Hca & (H1 & H2 & H3 & H4 & H5) & Hh).
  refine (conj He (conj Hc (conj _ (conj Hsz (conj Hst (conj Hdk (conj Hca (conj _ Hh)))))))).
  { destruct Hrun as (R1 & R2 & R3 & _). by split_and!. }
  refine (conj H1 (conj H2 (conj _ (conj H4 H5)))). intros q y Hy. destruct (H3 q y Hy) as (F1 & F2 & F3 & F4 & F5).
  split_and!; try done. intros E0 E1. by destruct (F5 E0 E1) as (?&?&?).
Qed.

(** All of the world after the record was written. *)
Lemma journaled_tx b c o o' L w w' pg x y jd jd' nm ck :
  tx (Some pg) b c o L w -> jrn w = JLive jd nm -> cksumInit (pgr w) = ck -> pAll (pgr w) !! pg = Some x -> inJournal x = false -> 0 < pg_nRef x ->
  env w' -> jrn w' = JLive jd' nm -> dbf w' = dbf w -> files_ok (dbf w') jd' nm b c -> open_segment ps N0 b (now jd') ck o' ->
  Forall (record_ok ps N0) o' -> originals ps D0 o' ->
  (exists s off n ns, pgr w' = set_page pg (fun z => z <| pg_needSync := pg_needSync y |> <| inJournal := true |>)
     (pgr w <| journalOff := off |> <| nRec := n |> <| pInJournal := s |> <| needSync := ns |>) /\ off = zlen (now jd') /\ n = zlen o' /\
     (needSync (pgr w) = true -> ns = true) /\ (pg_needSync y = true -> ns = true)) ->
  y = x <| pg_needSync := pg_needSync y |> <| inJournal := true |> ->
  (exists s data, pInJournal (pgr w) = Some s /\ pInJournal (pgr w') = Some ({[pg]} ∪ s) /\ o' = o ++ [(pg, data)] /\ pg_needSync y = true) \/
  (o' = o /\ pInJournal (pgr w') = pInJournal (pgr w) /\ N0 < pg /\ (pg_needSync y = false -> journalStarted (pgr w) = true)) ->
  tx (Some pg) b c o' L w' /\ pAll (pgr w') !! pg = Some y.
Proof.
  intros (He & Hc & Hrun & Hsz & Hst & Hdk & Hca & Hfl & Hh) Hj Hck Hx Hi Hn He' Hj' Ed' Hf' Hseg Hok Ho (s & off & n & ns & Ep & -> & -> & Hns1 & Hns2) Ey Hcase.
  set (p1 := pgr w <| journalOff := zlen (now jd') |> <| nRec := zlen o' |> <| pInJournal := s |> <| needSync := ns |>) in *.
  set (g := fun z : PgHdr => z <| pg_needSync := pg_needSync y |> <| inJournal := true |>) in *.
  assert (Hx1 : pAll p1 !! pg = Some x) by exact Hx.
  assert (Hy : pAll (pgr w') !! pg = Some y) by (rewrite Ep, (set_page_this _ _ _ g Hx1); f_equal; symmetry; exact Ey).
  split; [|exact Hy].
  assert (Hch : changed pg (pgr w) (pgr w')) by (intros q Hq; rewrite Ep, set_page_other by done; done).
  assert (Hca1 : cache L (now (dbf w)) p1) by exact Hca.
  pose proof (cache_flags ps L (now (dbf w)) p1 pg x Hca1 Hx1 g eq_refl eq_refl eq_refl eq_refl eq_refl ltac:(by right)) as Hca2.
  rewrite <- Ep in Hca2.
  refine (conj He' (conj _ (conj _ (conj _ (conj _ (conj _ (conj _ (conj _ _)))))))).
  - rewrite Ep. exact Hc.
  - rewrite Ep. exact Hrun.
  - unfold sizes. rewrite Ep, Ed'. exact Hsz.
  - unfold started. rewrite Ep. exact Hst.
  - destruct Hdk as (jd0 & nm0 & ck0 & Hj0 & _ & Hnm & _ & _ & _ & Hhdr & _ & _ & Hck0 & Hharm).
    assert (jd0 = jd /\ nm0 = nm) as [-> ->] by (rewrite Hj in Hj0; by injection Hj0).
    exists jd', nm, ck. rewrite Ep.
    refine (conj Hj' (conj Hf' (conj Hnm (conj Hseg (conj Hok (conj Ho (conj Hhdr (conj eq_refl (conj eq_refl (conj Hck Hharm)))))))))).
  - rewrite Ed'. exact Hca2.
  - eapply flags_journaled; [exact Hfl|exact Hch|exact Hx|exact Hi|exact Hy|by rewrite Ey|..]; try (rewrite Ep; done). exact Hcase.
  - eapply held_changed; [exact Hh|exact Hch|exact Hx|exact Hy|by rewrite Ey].
Qed.

(** The page is ready: it is dirty, in use, and the journal has its original. *)
Definition ready (L : Z -> list Z) (pg n : Z) (w : world) : Prop :=
  active None L w /\ exists x, pAll (pgr w) !! pg = Some x /\ pg_nRef x = n /\ 0 < n /\ dirty x = true.

Lemma wp_grow b c o L w pg x (Q : unit -> world -> Prop) E : tx (Some pg) b c o L w -> valid ps pg -> pAll (pgr w) !! pg = Some x ->
  0 < pg_nRef x -> dirty x = true -> inJournal x = true -> dirtyCache (pgr w) = true ->
  (forall w', ready L pg (pg_nRef x) w' -> Q tt w') ->
  wp (p ← pager; asserts (PAGER_SHARED <=? state p);;
      when (dbSize p <? pg)
        (upd (fun p => p <| dbSize := if pg =? PENDING_BYTE / pageSize p then pg + 1 else pg |>))) Q E w.
Proof.
  intros H Hv Hx Hn Hd Hi Hdc HQ. pose proof H as (He & Hc & Hrun & [Hs1 Hs2] & Hst & Hdk & Hca & (H1 & H2 & H3 & H4 & H5) & Hh).
  apply pwp_bind, wp_pager. apply pwp_bind, wp_asserts; [by destruct Hrun as [[->| ->] _]|]. apply wp_when_upd, HQ.
  set (n := if dbSize (pgr w) <? pg then (if pg =? PENDING_BYTE / pageSize (pgr w) then pg + 1 else pg) else dbSize (pgr w)).
  assert (Hn' : dbSize (pgr w) <= n <= 2 ^ 31 /\ pg <= n).
  { destruct Hv as [Hv _]. unfold PAGER_MAX_PGNO in Hv. unfold n. destruct (Z.ltb_spec (dbSize (pgr w)) pg); [|lia].
    destruct (pg =? _); lia. }
  assert (Ew : (if dbSize (pgr w) <? pg
      then w <| pgr ::= fun p => p <| dbSize := if pg =? PENDING_BYTE / pageSize p then pg + 1 else pg |> |> else w)
    = w <| pgr ::= fun p => p <| dbSize := n |> |>).
  { unfold n. destruct (dbSize (pgr w) <? pg); [done|]. destruct w as [p]. by destruct p. }
  rewrite Ew. clearbody n. pose proof (page_size_range ps ps_ok) as Hps.
  split; [|by exists x]. right. exists b, c, o.
  refine (conj He (conj Hc (conj _ (conj _ (conj Hst (conj Hdk (conj Hca (conj _ Hh)))))))).
  - destruct Hrun as (R1 & R2 & R3 & _). by split_and!.
  - split; cbn; [lia|]. nia.
  - refine (conj H1 (conj H2 (conj _ (conj H4 H5)))). intros q z Hz.
    change (pAll (pgr w) !! q = Some z) in Hz. destruct (H3 q z Hz) as (F1 & F2 & F3 & F4 & F5). split_and!; try done.
    intros _ Hdz. destruct (decide (q = pg)) as [->|Hq].
    + assert (z = x) as -> by congruence. cbn. split_and!; [lia|done|done].
    + destruct F5 as (?&?&?); [congruence|done|]. cbn. split_and!; [lia|done|done].
Qed.

Definition journal_block (pgno : Z) : M unit :=
  p ← pager;
  pPg ← find_page pgno;
  when (negb (inJournal pPg) && journalOpen p)
    ((if pgno <=? origDbSize p then journal_page pgno (pData pPg)
      else upd (set_page pgno (fun pPg => pPg <| pg_needSync := negb (journalStarted p) && negb (noSync p) |>)));;
     pPg ← find_page pgno;
     when (pg_needSync pPg) (upd (fun p => p <| needSync := true |>));;
     upd (set_page pgno (fun pPg => pPg <| inJournal := true |>))).

Lemma wp_find_page pg x w (Q : PgHdr -> world -> Prop) E : pAll (pgr w) !! pg = Some x -> Q x w -> wp (find_page pg) Q E w.
Proof. intros Hx HQ. unfold find_page. apply pwp_bind, wp_pager. rewrite Hx. by eapply wp_lift. Qed.

Lemma set_page_twice pg g h p ns :
  set_page pg g (set_page pg h p <| needSync := ns |>) = set_page pg (fun x => g (h x)) (p <| needSync := ns |>).
Proof. destruct p. unfold set_page, set_field, set_pAll, set_needSync. cbn. by rewrite alter_alter_eq. Qed.

(** What marks the page. *)
Lemma wp_mark pg z w (Q : unit -> world -> Prop) E : pAll (pgr w) !! pg = Some z ->
  Q tt (w <| pgr ::= fun p => set_page pg (fun y => y <| inJournal := true |>) (p <| needSync := needSync p || pg_needSync z |>) |>) ->
  wp (pPg ← find_page pg; when (pg_needSync pPg) (upd (fun p => p <| needSync := true |>));;
      upd (set_page pg (fun pPg => pPg <| inJournal := true |>))) Q E w.
Proof.
  intros Hz HQ. eapply pwp_bind, wp_find_page; [exact Hz|]. apply pwp_bind, wp_when_upd, wp_upd. revert HQ. clear.
  destruct w as [p]. destruct p. cbn. by destruct (pg_needSync z), needSync.
Qed.

Lemma wp_journal_block b c o L w pg x (Q : unit -> world -> Prop) (E : Z -> world -> Prop) :
  tx (Some pg) b c o L w -> valid ps pg -> pAll (pgr w) !! pg = Some x -> 0 < pg_nRef x -> dirty x = true -> dirtyCache (pgr w) = true ->
  (forall w' o' y, tx (Some pg) b c o' L w' -> pAll (pgr w') !! pg = Some y -> pg_nRef y = pg_nRef x -> dirty y = true -> inJournal y = true ->
     dirtyCache (pgr w') = true -> Q tt w') ->
  (forall rc w', rc <> SQLITE_OK -> safe w' -> E rc w') ->
  wp (journal_block pg) Q E w.
Proof.
  intros H Hv Hx Hn Hd Hdc HQ HE. pose proof (page_size_range ps ps_ok) as Hps.
  pose proof H as (He & Hc & Hrun & Hsz & Hst & (jd & nm & ck & Hj & Hf & Hnm & Hseg & Hok & Ho & Hhdr & Hoff & Hrec & Hck & Hharm) & Hca & Hfl & Hh).
  pose proof Hfl as (H1 & (s & Es & H2) & H3 & H4 & H5).
  unfold journal_block. apply pwp_bind, wp_pager. eapply pwp_bind, wp_find_page; [exact Hx|].
  assert (Ejo : journalOpen (pgr w) = true) by apply Hrun. rewrite Ejo.
  destruct (inJournal x) eqn:Ei; cbn [negb andb when]; [by apply pwp_ret; eapply HQ|].
  assert (Eor : origDbSize (pgr w) = N0) by apply Hrun. rewrite Eor.
  destruct (H3 pg x Hx) as (F1 & _ & F3 & F4 & _).
  assert (Hno : pg ∉ (c ++ o).*1) by (intros Hin; by rewrite F3 in Ei).
  destruct (cache_page ps L _ _ _ _ Hca Hx) as (_ & Ld & EL & _).
  destruct (Z.leb_spec pg N0) as [Hle|Hgt].
  - assert (Hr : record_ok ps N0 (pg, pData x)).
    { split_and!; cbn; [apply Hv|done|apply Hv|done]. }
    assert (Hor : pData x = page_at ps D0 pg) by (rewrite EL; apply H5; [destruct Hv; lia|done|done]).
    assert (Hcku : is_u32 ck) by (destruct Hseg as (_ & (mx & pz & _ & ? & _) & _); done).
    apply pwp_bind. eapply (wp_journal_page ps N0 D0 ps_ok N0_range D0_size b c o pg (pData x) s ck w jd nm);
      [exact He|exact Hc|exact Hj|exact Hf|exact Hseg|exact Hok|exact Hoff|exact Hck|exact Hcku|exact Es|exact Hr| |exact HE].
    intros w1 jd1 He1 Ej1 Ed1 Hf1 Hseg1 Ep1.
    assert (Hx1 : pAll (pgr w1) !! pg = Some (x <| pg_needSync := true |>)) by (rewrite Ep1; by apply set_page_this).
    eapply wp_mark; [exact Hx1|]. match goal with |- Q tt ?x => set (w2 := x) end.
    destruct (journaled_tx b c o (o ++ [(pg, pData x)]) L w w2 pg x (x <| pg_needSync := true |> <| inJournal := true |>) jd jd1 nm ck
      H Hj Hck Hx Ei Hn He1 Ej1 Ed1 Hf1 Hseg1) as [T1 T2].
    + apply Forall_app. split; [done|]. by constructor.
    + apply originals_app; [done|]. by intros r ->%list_elem_of_singleton.
    + exists (Some ({[pg]} ∪ s)), (zlen (now jd1)), (Z.succ (nRec (pgr w))), true. split_and!; try done.
      * change (pgr w2) with (set_page pg (fun y => y <| inJournal := true |>) (pgr w1 <| needSync := needSync (pgr w1) || true |>)).
        rewrite Ep1, orb_true_r. rewrite set_page_twice. reflexivity.
      * rewrite Hrec, zlen_app. change (zlen [(pg, pData x)]) with 1. lia.
    + done.
    + left. exists s, (pData x). split_and!; try done. change (pgr w2) with (set_page pg (fun y => y <| inJournal := true |>) (pgr w1 <| needSync := needSync (pgr w1) || true |>)).
      by rewrite Ep1.
    + eapply HQ; [exact T1|exact T2|done|done|done|]. change (dirtyCache (pgr w1) = true). by rewrite Ep1.
  - apply pwp_bind, wp_upd. rewrite (conf_noSync _ _ Hc). cbn [negb]. rewrite andb_true_r. name_world w1.
    set (ns := negb (journalStarted (pgr w))) in *.
    assert (Hx1 : pAll (pgr w1) !! pg = Some (x <| pg_needSync := ns |>)).
    { by apply (set_page_this (pgr w) pg x (fun y => y <| pg_needSync := ns |>)). }
    eapply wp_mark; [exact Hx1|]. match goal with |- Q tt ?x => set (w2 := x) end.
    destruct (journaled_tx b c o o L w w2 pg x (x <| pg_needSync := ns |> <| inJournal := true |>) jd jd nm ck
      H Hj Hck Hx Ei Hn He Hj eq_refl Hf Hseg Hok Ho) as [T1 T2].
    + exists (pInJournal (pgr w)), (journalOff (pgr w)), (nRec (pgr w)), (needSync (pgr w) || ns).
      split_and!; [|done|done|by intros ->|cbn; intros ->; apply orb_true_r].
      change (pgr w2) with (set_page pg (fun y => y <| inJournal := true |>)
        (set_page pg (fun y => y <| pg_needSync := ns |>) (pgr w) <| needSync := needSync (pgr w) || ns |>)).
      rewrite set_page_twice. reflexivity.
    + done.
    + right. split_and!; [done|done|done|]. cbn. unfold ns. by destruct (journalStarted (pgr w)).
    + by eapply HQ.
Qed.

(** [pager_write] in its parts. *)
Definition write_tail (pgno : Z) : M unit :=
  p ← pager;
  asserts (PAGER_SHARED <=? state p);;
  when (dbSize p <? pgno)
    (upd (fun p => p <| dbSize := if pgno =? PENDING_BYTE / pageSize p then pgno + 1 else pgno |>)).

Definition write_stmt (pgno : Z) : M unit :=
  p ← pager;
  pPg ← find_page pgno;
  when (stmtInUse p && negb (pageInStatement p pgno) && (pgno <=? stmtSize p))
    (asserts (inJournal pPg || (origDbSize p <? pgno));;
     stmt_journal_page pgno (pData pPg)).

Lemma wp_journaled b c o L w pg x (Q : unit -> world -> Prop) (E : Z -> world -> Prop) :
  tx (Some pg) b c o L w -> valid ps pg -> pAll (pgr w) !! pg = Some x -> 0 < pg_nRef x -> dirty x = true ->
  (forall w', ready L pg (pg_nRef x) w' -> Q tt w') ->
  (forall rc w', rc <> SQLITE_OK -> safe w' -> E rc w') ->
  wp (p ← pager;
      asserts (PAGER_RESERVED <=? state p);;
      when (negb (journalOpen p) && useJournal p && negb (journalMode p =? PAGER_JOURNALMODE_OFF)) pager_open_journal;;
      upd (fun p => p <| dirtyCache := true |> <| dbModified := true |>);;
      p ← pager;
      pPg ← find_page pg;
      when (negb (inJournal pPg) && journalOpen p)
        ((if pg <=? origDbSize p then journal_page pg (pData pPg)
          else upd (set_page pg (fun pPg => pPg <| pg_needSync := negb (journalStarted p) && negb (noSync p) |>)));;
         pPg ← find_page pg;
         when (pg_needSync pPg) (upd (fun p => p <| needSync := true |>));;
         upd (set_page pg (fun pPg => pPg <| inJournal := true |>)));;
      p ← pager;
      pPg ← find_page pg;
      when (stmtInUse p && negb (pageInStatement p pg) && (pg <=? stmtSize p))
        (asserts (inJournal pPg || (origDbSize p <? pg));;
         stmt_journal_page pg (pData pPg))) (fun _ => wp (write_tail pg) Q E) E w.
Proof.
  intros H Hv Hx Hn Hd HQ HE. pose proof H as (_ & _ & (Hst & Hjo & _) & _).
  apply pwp_bind, wp_pager. apply pwp_bind, wp_asserts; [by destruct Hst as [->| ->]|]. rewrite Hjo. cbn [negb andb when].
  apply pwp_bind, pwp_ret. apply pwp_bind, wp_upd. apply begun_tx in H. name_world w1.
  change (w <| pgr ::= begun |>) with w1 in H.
  assert (Hjb : forall (Q1 : unit -> world -> Prop) (m : M unit) w, wp (journal_block pg) (fun _ => wp m Q1 E) E w ->
    wp (p ← pager;
        pPg ← find_page pg;
        when (negb (inJournal pPg) && journalOpen p)
        ((if pg <=? origDbSize p then journal_page pg (pData pPg)
          else upd (set_page pg (fun pPg => pPg <| pg_needSync := negb (journalStarted p) && negb (noSync p) |>)));;
         pPg ← find_page pg;
         when (pg_needSync pPg) (upd (fun p => p <| needSync := true |>));;
         upd (set_page pg (fun pPg => pPg <| inJournal := true |>)));; m) Q1 E w).
  { intros Q1 m w0 Hw. unfold journal_block in Hw. revert Hw. unfold wp, mbind, M_bind, pager. unfold find_page, mbind, M_bind, pager.
    destruct (lift (of_opt (pAll (pgr w0) !! pg)) w0) as [[w3 [rc|y]]| | |]; try done.
    destruct (when _ _ w3) as [[w4 [rc|u]]| | |]; done. }
  apply Hjb. eapply wp_journal_block; [exact H|exact Hv|exact Hx|exact Hn|exact Hd|done| |exact HE].
  intros w2 o2 y H2 Hy Hny Hdy Hiy Hdc. rewrite <- Hny in Hn, HQ. apply pwp_bind, wp_pager. eapply pwp_bind, wp_find_page; [exact Hy|].
  pose proof H2 as (_ & Hc2 & _). rewrite (conf_stmtInUse _ _ Hc2). cbn [andb when]. apply pwp_ret.
  eapply wp_grow; [exact H2|exact Hv|exact Hy|exact Hn|exact Hdy|exact Hiy|exact Hdc|exact HQ].
Qed.

Lemma wp_pager_write busy L w pg x (Q : unit -> world -> Prop) (E : Z -> world -> Prop) :
  active None L w -> valid ps pg -> pAll (pgr w) !! pg = Some x -> 0 < pg_nRef x ->
  (forall w', ready L pg (pg_nRef x) w' -> Q tt w') ->
  (forall rc w', rc <> SQLITE_OK -> safe w' -> E rc w') ->
  wp (pager_write busy pg) Q E w.
Proof.
  intros H Hv Hx Hn HQ HE. pose proof (active_conf _ _ _ _ _ _ _ H) as Hc. pose proof (active_cache _ _ _ _ _ _ _ H) as Hca.
  destruct (cache_page ps L _ _ _ _ Hca Hx) as (_ & _ & _ & Hnr & _).
  unfold pager_write. apply pwp_bind, wp_pager. rewrite (conf_errCode _ _ Hc), (conf_readOnly _ _ Hc), (conf_setMaster _ _ Hc).
  change (negb (SQLITE_OK =? SQLITE_OK)) with false. cbn iota. apply pwp_bind, wp_asserts; [done|].
  apply pwp_bind. unfold pager_get_content. apply pwp_bind, wp_pager. rewrite Hx. eapply pwp_bind, wp_lift; [done|]. rewrite Hnr. apply pwp_ret.
  apply pwp_bind, wp_upd. name_world w1. apply pwp_bind, wp_pager.
  destruct (makeDirty_shape _ _ _ Hx) as (m & l & Em & Hm & Ho). set (x1 := x <| dirty := true |>) in *.
  assert (Ep1 : pgr w1 = pgr w <| pAll := m |> <| pDirty := l |>) by exact Em.
  assert (Hx1 : pAll (pgr w1) !! pg = Some x1) by (by rewrite Ep1).
  eapply pwp_bind, wp_find_page; [exact Hx1|].
  assert (Esi : stmtInUse (pgr w1) = false) by (rewrite Ep1; by eapply conf_stmtInUse). rewrite Esi. cbn [negb]. rewrite orb_true_r, andb_true_r.
  change (inJournal x1) with (inJournal x).
  assert (Hlocked : (negb (state (pgr w1) =? PAGER_UNLOCK)) = true).
  { apply negb_true_iff, Z.eqb_neq. rewrite Ep1. by apply (active_unlocked ps N0 D0 rw None L w). }
  destruct H as [[_ H]|(b & c & o & H)].
  - assert (Ei : inJournal x = false) by (by apply H in Hx as (_ & _ & ?)). rewrite Ei.
    pose proof (dirtied_reading L w pg x H Hx) as H1. change (w <| pgr ::= makeDirty pg |>) with w1 in H1.
    apply pwp_bind. apply pwp_bind, wp_asserts; [done|].
    eapply pwp_bind, (wp_Begin_first ps N0 D0 ps_ok N0_range D0_size); [exact H1|by exists x1| |exact HE].
    intros w2 H2 Epa. rewrite <- Epa in Hx1. by eapply wp_journaled.
  - pose proof (dirtied_tx b c o L w pg x H Hx) as H1. change (w <| pgr ::= makeDirty pg |>) with w1 in H1.
    destruct (inJournal x) eqn:Ei.
    + apply pwp_bind, wp_upd. apply begun_tx in H1.
      eapply wp_grow; [exact H1|exact Hv|exact Hx1|exact Hn|done|exact Ei|done|exact HQ].
    + apply pwp_bind. apply pwp_bind, wp_asserts; [done|].
      eapply pwp_bind, wp_Begin_again; [done..|exact H1|by exists x1|]. by eapply wp_journaled.
Qed.

(** Sectors are not larger than pages. *)
Lemma wp_PagerWrite junk zJournal busy L w pg x (Q : unit -> world -> Prop) (E : Z -> world -> Prop) :
  active None L w -> valid ps pg -> pAll (pgr w) !! pg = Some x -> 0 < pg_nRef x ->
  (forall w', ready L pg (pg_nRef x) w' -> Q tt w') ->
  (forall rc w', rc <> SQLITE_OK -> safe w' -> E rc w') ->
  wp (sqlite3PagerWrite junk zJournal busy pg) Q E w.
Proof.
  intros H Hv Hx Hn HQ HE. pose proof (active_conf _ _ _ _ _ _ _ H) as Hc. pose proof (page_size_range ps ps_ok) as Hps.
  unfold sqlite3PagerWrite. apply pwp_bind, wp_pager. rewrite (conf_sectorSize _ _ Hc), (conf_pageSize _ _ Hc). cbn zeta.
  assert (Hq : Z.quot 512 ps <= 1).
  { rewrite Z.quot_div_nonneg by lia. apply Z.lt_succ_r, Z.div_lt_upper_bound; lia. }
  rewrite (proj2 (Z.ltb_ge _ _) Hq). by eapply wp_pager_write.
Qed.

End write.
