(* ===== verification/PagerTxKeep.v ===== *)
(** * A page that stays in use

    However [pager_write] ends, page 1 is in the cache and in use as often as
    before ([keeps_pager_write]): its caller can give its reference back. *)

From S2P Require Import Prelude Varint PageBytes RecordUpdate DiskFile Pager PagerJournal PagerCache PagerWp.
From S2P Require Import PagerPlayback PagerRecovery PagerLog PagerPages PagerTx PagerTxJournal PagerTxPage PagerTxGet.
From S2P Require Import PagerTxBegin.

Definition pinned (w : world) : Prop :=
  state (pgr w) <> PAGER_UNLOCK /\ exists x, pAll (pgr w) !! 1 = Some x /\ 1 < pg_nRef x.

Local Notation keeps := (keeps pinned).

Lemma pinned_set_page w pg f : (forall x, pg_nRef (f x) = pg_nRef x) -> pinned w -> pinned (w <| pgr ::= set_page pg f |>).
Proof.
  intros Hf [Hst (x & Hx & Hn)]. split; [exact Hst|].
  change (exists y, pAll (set_page pg f (pgr w)) !! 1 = Some y /\ 1 < pg_nRef y). destruct (decide (1 = pg)) as [<-|Hne].
  - exists (f x). split; [by apply set_page_this|]. by rewrite Hf.
  - exists x. by rewrite set_page_other.
Qed.

Lemma pinned_clean w g : (forall p, state (g p) = state p /\ pAll (g p) = clean_page <$> pAll p) -> pinned w -> pinned (w <| pgr ::= g |>).
Proof.
  intros Hg [Hst (x & Hx & Hn)]. destruct (Hg (pgr w)) as [E1 E2]. split.
  - change (state (g (pgr w)) <> PAGER_UNLOCK). by rewrite E1.
  - exists (clean_page x). change (pAll (g (pgr w)) !! 1 = Some (clean_page x) /\ 1 < pg_nRef (clean_page x)). rewrite E2, lookup_fmap, Hx. by split.
Qed.

Lemma pinned_files w w' : pgr w' = pgr w -> pinned w -> pinned w'.
Proof. unfold pinned. by intros ->. Qed.

Lemma keeps_world {A} (m : M A) : (forall w w' r, m w = Ret (w', r) -> pgr w' = pgr w) -> keeps m.
Proof. intros H w w' r Hw E. eapply pinned_files; [by eapply H|done]. Qed.

Ltac upd_done := intros ? H; first
  [exact H|apply pinned_set_page; [done|exact H]|apply pinned_clean; [done|exact H]|split; [done|exact (proj2 H)]].

Create HintDb keeps.

Ltac keep := repeat lazymatch goal with
  | |- PagerTxBegin.keeps _ (code _) => apply keeps_code
  | |- PagerTxBegin.keeps _ (attempt _) => apply keeps_attempt
  | |- PagerTxBegin.keeps _ (when _ _) => apply keeps_when
  | |- PagerTxBegin.keeps _ (check _) => apply keeps_check
  | |- PagerTxBegin.keeps _ (asserts _) => apply keeps_asserts
  | |- PagerTxBegin.keeps _ (lift _) => apply keeps_lift
  | |- PagerTxBegin.keeps _ (throw _) => apply keeps_throw
  | |- PagerTxBegin.keeps _ (mret _) => apply keeps_ret
  | |- PagerTxBegin.keeps _ (upd (makeDirty _)) => solve [auto with keeps]
  | |- PagerTxBegin.keeps _ (upd _) => apply keeps_upd; upd_done
  | |- PagerTxBegin.keeps _ (_ ≫= _) => apply keeps_bind; [|intros ?]
  | |- PagerTxBegin.keeps _ (if ?b then _ else _) => destruct b
  | |- PagerTxBegin.keeps _ (match ?b with _ => _ end) => destruct b
  | |- PagerTxBegin.keeps _ pager => apply keeps_pager
  | |- PagerTxBegin.keeps _ get => apply keeps_get
  | |- PagerTxBegin.keeps _ _ => solve [auto with keeps]
  end.

Lemma keeps_os : keeps os.
Proof. apply keeps_world. intros w w' r E. unfold os in E. by destruct (io w); injection E as <- _. Qed.

Lemma keeps_malloc : keeps malloc_ok.
Proof. apply keeps_world. intros w w' r E. unfold malloc_ok in E. destruct (next_alloc (mem w)). by injection E as <- _. Qed.

Lemma keeps_random : keeps sqlite3_randomness.
Proof. apply keeps_world. intros w w' r E. unfold sqlite3_randomness in E. by destruct (rnd w); injection E as <- _. Qed.

Lemma keeps_new_files d j : keeps (new_files d j).
Proof. apply keeps_world. by intros w w' r [= <- _]. Qed.

Lemma keeps_content h : keeps (content h).
Proof. apply keeps_world. intros w w' r E. unfold content in E. destruct h, (jrn w); try discriminate E; by injection E as <- _. Qed.

Lemma keeps_set_content h f : keeps (set_content h f).
Proof. apply keeps_world. intros w w' r E. unfold set_content, new_files in E. destruct h, (jrn w); try discriminate E; by injection E as <- _. Qed.

#[local] Hint Resolve keeps_os keeps_malloc keeps_random keeps_new_files keeps_content keeps_set_content : keeps.

Lemma keeps_refused : keeps refused.
Proof. unfold refused. keep. Qed.

#[local] Hint Resolve keeps_refused : keeps.

Lemma keeps_OsRead h n off : keeps (sqlite3OsRead h n off).
Proof. unfold sqlite3OsRead. keep. Qed.

Lemma keeps_write_any h bs off : keeps (sqlite3OsWrite h bs off).
Proof. unfold sqlite3OsWrite. keep. Qed.

Lemma keeps_OsTruncate h n : keeps (sqlite3OsTruncate h n).
Proof. unfold sqlite3OsTruncate. keep. Qed.

Lemma keeps_OsFileSize h : keeps (sqlite3OsFileSize h).
Proof. unfold sqlite3OsFileSize. keep. Qed.

Lemma keeps_OsSync h : keeps (sqlite3OsSync h).
Proof. unfold sqlite3OsSync. keep. Qed.

#[local] Hint Resolve keeps_OsRead keeps_write_any keeps_OsTruncate keeps_OsFileSize keeps_OsSync : keeps.

Lemma keeps_create : keeps create_journal.
Proof. unfold create_journal. keep. Qed.

Lemma keeps_delete : keeps delete_journal.
Proof. unfold delete_journal. keep. Qed.

Lemma keeps_bitvec pg s : keeps (bitvec_set pg s).
Proof. unfold bitvec_set. keep. Qed.

Lemma keeps_put off bs : keeps (put_tmp off bs).
Proof. unfold put_tmp. keep. Qed.

Lemma keeps_find pg : keeps (find_page pg).
Proof. unfold find_page. keep. Qed.

Lemma keeps_headers fuel n nHeader hdr : keeps (write_headers fuel n nHeader hdr).
Proof. revert n. induction fuel as [|fuel IH]; intros n; cbn [write_headers]; keep. Qed.

#[local] Hint Resolve keeps_create keeps_delete keeps_bitvec keeps_put keeps_find keeps_headers : keeps.

Lemma keeps_header : keeps writeJournalHdr.
Proof. unfold writeJournalHdr, seekJournalHdr. keep. Qed.

(** [pager_error] unlocks only when nothing is in use. *)
Lemma keeps_pager_error rc : keeps (pager_error rc).
Proof.
  intros w w' r Hw E. unfold pager_error, mbind, M_bind, pager in E.
  destruct (asserts _ w) as [[w1 [rc1|u]]| | |] eqn:Ea; try discriminate E; unfold asserts, lift, c_assert in Ea.
  all: destruct ((errCode (pgr w) =? SQLITE_FULL) || _ || _); try discriminate Ea; injection Ea as <- _ || injection Ea as <-; try discriminate.
  destruct (_ || _ || _); cbn [when] in E; [|by injection E as <- _]. cbn in E.
  assert (Es : (state (pgr w) =? PAGER_UNLOCK) = false) by (apply Z.eqb_neq, Hw). rewrite Es in E. cbn in E. injection E as <- _. exact Hw.
Qed.

#[local] Hint Resolve keeps_header keeps_pager_error : keeps.

Lemma keeps_Pagecount : keeps sqlite3PagerPagecount.
Proof. unfold sqlite3PagerPagecount. keep. Qed.

Lemma keeps_end_transaction b : keeps (pager_end_transaction b).
Proof. unfold pager_end_transaction, sqlite3PagerStmtCommit, zeroJournalHdr, sqlite3OsUnlock. keep. Qed.

Lemma keeps_lock lk : keeps (sqlite3OsLock lk).
Proof. unfold sqlite3OsLock. keep. Qed.

#[local] Hint Resolve keeps_Pagecount keeps_end_transaction keeps_lock : keeps.

Lemma keeps_stmt_begin : keeps sqlite3PagerStmtBegin.
Proof. unfold sqlite3PagerStmtBegin. keep. apply keeps_world. by intros w w' r [= <- _]. Qed.

#[local] Hint Resolve keeps_stmt_begin : keeps.

Lemma keeps_open_journal : keeps pager_open_journal.
Proof. unfold pager_open_journal. keep. Qed.

#[local] Hint Resolve keeps_open_journal : keeps.

Lemma keeps_Begin busy pg : keeps (sqlite3PagerBegin busy pg false).
Proof. unfold sqlite3PagerBegin. cbn [when]. keep. Qed.

#[local] Hint Resolve keeps_Begin : keeps.

Lemma keeps_get_content pg : keeps (pager_get_content pg).
Proof. unfold pager_get_content, readDbPage. keep. Qed.

Lemma keeps_makeDirty pg : keeps (upd (makeDirty pg)).
Proof.
  apply keeps_upd. intros w H. unfold makeDirty.
  change (pinned (w <| pgr := makeDirty pg (pgr w) |>)). unfold makeDirty. destruct (pAll (pgr w) !! pg) as [x|]; [|by destruct w].
  destruct (dirty x); [by destruct w|]. by apply (pinned_set_page w pg (fun y => y <| dirty := true |>)).
Qed.

Lemma keeps_journal_page pg data : keeps (journal_page pg data).
Proof. unfold journal_page, write32bits. keep. Qed.

Lemma keeps_stmt_journal_page pg data : keeps (stmt_journal_page pg data).
Proof. unfold stmt_journal_page, write32bits. keep. Qed.

#[local] Hint Resolve keeps_get_content keeps_makeDirty keeps_journal_page keeps_stmt_journal_page : keeps.

Lemma keeps_pager_write busy pg : keeps (pager_write busy pg).
Proof. unfold pager_write. keep. Qed.
