(* ===== verification/PagerCommit.v ===== *)
(** * A transaction from its first page to its commit

    What a caller of the pager does is a [client]; [run_client] is its run and
    [logical] what it makes of the pages.  [transaction] begins with page 1
    and ends with the two phases of the commit. *)

From S2P Require Import Prelude Varint PageBytes RecordUpdate DiskFile Pager PagerJournal PagerCache PagerWp.
From S2P Require Import PagerPlayback PagerRecovery PagerLog PagerPages PagerTx PagerTxJournal PagerTxPage PagerTxGet.
From S2P Require Import PagerTxOpen PagerTxBegin PagerTxWrite PagerTxKeep.

(** ** Clients *)

(** Reads a page and goes on as its content says, or changes a page. *)
Inductive client :=
| CDone
| CRead (pg : Z) (k : list Z -> client)
| CWrite (pg : Z) (f : list Z -> list Z) (k : client).

Definition put_page (pg : Z) (data : list Z) (L : Z -> list Z) : Z -> list Z := fun q => if decide (q = pg) then data else L q.

Fixpoint logical (c : client) (L : Z -> list Z) : Z -> list Z :=
  match c with
  | CDone => L
  | CRead pg k => logical (k (L pg)) L
  | CWrite pg f k => logical k (put_page pg (f (L pg)) L)
  end.

(** Pages keep their size. *)
Fixpoint sized (ps : Z) (c : client) : Prop :=
  match c with
  | CDone => True
  | CRead pg k => 0 <= pg /\ forall d, sized ps (k d)
  | CWrite pg f k => 0 <= pg /\ (forall d, zlen d = ps -> zlen (f d) = ps) /\ sized ps k
  end.

Section run.
Context (junk : Z -> list Z) (zJournal : list Z) (busy : nat -> bool).

Fixpoint run_client (c : client) : M unit :=
  match c with
  | CDone => mret tt
  | CRead pg k =>
      sqlite3PagerGet junk zJournal busy pg;;
      pPg ← find_page pg;
      sqlite3PagerUnref junk zJournal pg;;
      run_client (k (pData pPg))
  | CWrite pg f k =>
      sqlite3PagerGet junk zJournal busy pg;;
      sqlite3PagerWrite junk zJournal busy pg;;
      pPg ← find_page pg;
      upd (set_page pg (fun y => y <| pData := f (pData pPg) |>));;
      sqlite3PagerUnref junk zJournal pg;;
      run_client k
  end.

Definition transaction (c : client) : M unit :=
  sqlite3PagerGet junk zJournal busy 1;;
  run_client c;;
  sqlite3PagerCommitPhaseOne junk zJournal busy None 0 false;;
  sqlite3PagerCommitPhaseTwo.
End run.

Section commit.
Context (ps N0 : Z) (D0 : list Z) (ps_ok : page_size ps) (N0_range : 0 <= N0 < 2 ^ 31) (D0_size : zlen D0 = N0 * ps).
Context (rw : bool).
Context (junk : Z -> list Z) (zJournal : list Z) (busy : nat -> bool).

Local Notation survives := (survives ps D0).
Local Notation files_ok := (files_ok ps N0 D0).
Local Notation cache := (cache ps).
Local Notation env := (env ps D0).
Local Notation safe := (safe ps D0).
Local Notation tx := (tx ps N0 D0).
Local Notation tx_sealed := (tx_sealed ps N0 D0).
Local Notation active := (active ps N0 D0 rw).
Local Notation ready := (ready ps N0 D0 rw).

(** ** The client *)

(** A page that is ready gets new content. *)
Lemma active_data L pg n w data : ready L pg n w -> zlen data = ps ->
  let w' := w <| pgr ::= set_page pg (fun y => y <| pData := data |>) |> in
  active None (put_page pg data L) w' /\ exists x, pAll (pgr w') !! pg = Some x /\ pg_nRef x = n /\ 0 < n.
Proof.
  intros [H (x & Hx & Hn & Hn0 & Hd)] Ld w'. pose proof (active_cache _ _ _ _ _ _ _ H) as Hca.
  pose proof (cache_data ps L _ _ _ _ Hca Hx data Hd Ld) as Hca'.
  assert (Hy : pAll (pgr w') !! pg = Some (x <| pData := data |>)) by (by apply (set_page_this _ _ _ _ Hx)).
  split; [|by eexists].
  destruct H as [H|(b & c & o & He & Hc & Hrun & Hsz & Hst & Hdk & _ & (H1 & H2 & H3 & H4 & H5) & Hh)].
  { exfalso. destruct H as (_ & _ & _ & _ & _ & _ & _ & _ & _ & _ & _ & _ & Hfl & _). destruct (Hfl pg x Hx) as [Hf _]. by rewrite Hf in Hd. }
  right. exists b, c, o. refine (conj He (conj Hc (conj Hrun (conj Hsz (conj Hst (conj Hdk (conj Hca' (conj _ _)))))))).
  - refine (conj H1 (conj H2 (conj _ (conj _ _)))).
    + intros q z Hz. destruct (decide (q = pg)) as [->|Hq].
      * rewrite Hy in Hz. injection Hz as <-. exact (H3 pg x Hx).
      * apply H3. revert Hz. change (pAll (set_page pg (fun y => y <| pData := data |>) (pgr w)) !! q = Some z -> pAll (pgr w) !! q = Some z).
        by rewrite set_page_other.
    + intros q Hq. destruct (decide (q = pg)) as [->|Hne]; [by eexists|].
      change (is_Some (pAll (set_page pg (fun y => y <| pData := data |>) (pgr w)) !! q)). rewrite set_page_other by done. by apply H4.
    + intros q Hq Hnin Hv. unfold put_page. rewrite decide_False; [by apply H5|]. intros ->.
      destruct (H3 pg x Hx) as (_ & F2 & _ & _ & F5). destruct (F5 ltac:(done) Hd) as (_ & Hi & _). apply Hnin, F2; [done|lia].
  - eapply held_changed; [exact Hh|apply changed_set_page|exact Hx|exact Hy|done].
Qed.

Lemma wp_run_client c L w (Q : unit -> world -> Prop) (E : Z -> world -> Prop) : sized ps c -> active None L w ->
  (forall w', active None (logical c L) w' -> Q tt w') ->
  (forall rc w', rc <> SQLITE_OK -> safe w' -> E rc w') ->
  wp (run_client junk zJournal busy c) Q E w.
Proof.
  revert L w Q E. induction c as [|pg k IH|pg f k IH]; intros L w Q E Hs H HQ HE; cbn [run_client].
  - by apply pwp_ret, HQ.
  - destruct Hs as [Hpg Hs]. eapply pwp_bind, wp_Get; [done..|exact H| |exact HE|done].
    intros w1 H1 Hv (x & Hx & Hn & Hn1 & Ed). eapply pwp_bind, wp_find_page; [exact Hx|].
    eapply pwp_bind, wp_Unref; [done..|exact H1|exact Hx|done| |].
    { destruct (decide (pg = 1)); [right; auto|by left]. }
    intros w2 H2. rewrite Ed. eapply IH; [apply Hs|exact H2|exact HQ|exact HE].
  - destruct Hs as (Hpg & Hf & Hs). eapply pwp_bind, wp_Get; [done..|exact H| |exact HE|done].
    intros w1 H1 Hv (x & Hx & Hn & Hn1 & Ed). eapply pwp_bind, wp_PagerWrite; [done..|exact H1|exact Hv|exact Hx|done| |exact HE].
    intros w2 H2. pose proof H2 as [H2a (y & Hy & Hny & _ & _)].
    pose proof (cache_page ps L _ _ _ _ (active_cache _ _ _ _ _ _ _ H2a) Hy) as (_ & Ly & Ey & _).
    eapply pwp_bind, wp_find_page; [exact Hy|]. apply pwp_bind, wp_upd.
    destruct (active_data L pg (pg_nRef x) w2 (f (pData y)) H2 ltac:(by apply Hf)) as [H3 (z & Hz & Hnz & _)].
    eapply pwp_bind, wp_Unref; [done..|exact H3|exact Hz|lia| |].
    { rewrite Hnz. destruct (decide (pg = 1)); [right; auto|by left]. }
    rewrite Ey. intros w4 H4. by eapply IH.
Qed.

(** ** The change counter *)

(** The first page with another change counter, or the same. *)
Definition stamped (L L' : Z -> list Z) : Prop :=
  L' = L \/ exists v, L' = put_page 1 (fwrite (L 1) 24 (sqlite3Put4byte v)) L.

Lemma get4_long bs : 4 <= zlen bs -> exists v, sqlite3Get4byte bs = Ret v.
Proof.
  intros L. unfold sqlite3Get4byte.
  destruct (rd_lt bs 0) as [x0 ->]; [lia|]. destruct (rd_lt bs 1) as [x1 ->]; [lia|].
  destruct (rd_lt bs 2) as [x2 ->]; [lia|]. destruct (rd_lt bs 3) as [x3 ->]; [lia|]. crun. by eexists.
Qed.

Lemma wp_PagerWrite_one pg w (Q : unit -> world -> Prop) (E : Z -> world -> Prop) : conf ps (pgr w) ->
  wp (pager_write busy pg) Q E w -> wp (sqlite3PagerWrite junk zJournal busy pg) Q E w.
Proof.
  intros Hc H. pose proof (page_size_range ps ps_ok) as Hps. unfold sqlite3PagerWrite. apply pwp_bind, wp_pager.
  rewrite (conf_sectorSize _ _ Hc), (conf_pageSize _ _ Hc). cbn zeta.
  assert (Hq : Z.quot 512 ps <= 1).
  { rewrite Z.quot_div_nonneg by lia. apply Z.lt_succ_r, Z.div_lt_upper_bound; lia. }
  by rewrite (proj2 (Z.ltb_ge _ _) Hq).
Qed.

(** Page 1 is given back by a caller whose write failed. *)
Lemma wp_Unref_pinned w (Q : unit -> world -> Prop) E : safe w -> pinned w -> (forall w', safe w' -> Q tt w') ->
  wp (sqlite3PagerUnref junk zJournal 1) Q E w.
Proof.
  intros Hw [_ (x & Hx & Hn)] HQ. eapply wp_Unref_raw; [exact Hx|lia|lia| |lia]. intros _. apply HQ. exact Hw.
Qed.

Lemma wp_incr L w (Q : unit -> world -> Prop) (E : Z -> world -> Prop) : active None L w ->
  (forall w' L', active None L' w' -> stamped L L' -> Q tt w') ->
  (forall rc w', rc <> SQLITE_OK -> safe w' -> E rc w') ->
  wp (pager_incr_changecounter junk zJournal busy false) Q E w.
Proof.
  intros H HQ HE. pose proof (page_size_range ps ps_ok) as Hps. unfold pager_incr_changecounter. apply pwp_bind, wp_pager.
  destruct (changeCountDone (pgr w)); [apply pwp_ret; eapply HQ; [exact H|by left]|].
  eapply pwp_bind, wp_Get; [done..|exact H| |exact HE|done]. intros w1 H1 Hv (x & Hx & Hn & Hn1 & Ed). specialize (Hn1 eq_refl).
  apply pwp_bind, wp_code, wp_PagerWrite_one; [by eapply active_conf|].
  eapply (wp_keeps pinned); [apply keeps_pager_write|split; [by eapply active_unlocked|by exists x]|].
  eapply wp_pager_write; [done..|exact H1|exact Hv|exact Hx|done| |].
  2: { intros rc w2 Hrc Hw2 Hp. rewrite (proj2 (Z.eqb_neq _ _) Hrc). cbn [negb when].
       apply pwp_bind, wp_Unref_pinned; [done|done|]. intros w3 Hw3. apply pwp_bind, wp_check; [done|]. intros _. by apply HE. }
  intros w2 H2 _. change (SQLITE_OK =? SQLITE_OK) with true. cbn [negb when]. apply pwp_bind, pwp_ret, pwp_bind, wp_check_ok.
  pose proof H2 as [H2a (y & Hy & Hny & _ & _)]. pose proof (active_conf _ _ _ _ _ _ _ H2a) as Hc2.
  pose proof (cache_page ps L _ _ _ _ (active_cache _ _ _ _ _ _ _ H2a) Hy) as (_ & Ly & Ey & _).
  apply pwp_bind, wp_pager. destruct (get4_long (dbFileVers (pgr w2))) as [v Ev]; [by rewrite (conf_vers _ _ Hc2)|].
  eapply pwp_bind, wp_lift; [exact Ev|]. eapply pwp_bind, wp_find_page; [exact Hy|].
  set (bs := sqlite3Put4byte (u32 (v + 1))). assert (Lb : zlen bs = 4) by done.
  eapply pwp_bind, wp_lift; [apply copy_to_fwrite; lia|]. apply pwp_bind, wp_upd.
  destruct (active_data L 1 (pg_nRef x) w2 (fwrite (pData y) 24 bs) H2) as [H3 (z & Hz & Hnz & _)].
  { rewrite fwrite_zlen by lia. lia. }
  apply pwp_bind, pwp_ret. eapply pwp_bind, wp_Unref; [done..|exact H3|exact Hz|lia|right; lia|].
  intros w4 H4. apply pwp_bind, wp_upd, wp_check_ok. eapply (HQ _ (put_page 1 (fwrite (pData y) 24 bs) L)).
  - destruct H4 as [[Erw H4]|(b & c & o & H4)]; [left; split; [exact Erw|]|right; exists b, c, o]; exact H4.
  - right. exists (u32 (v + 1)). by rewrite Ey.
Qed.

End commit.

(** ** The two phases *)

Section phases.
Context (ps N0 : Z) (D0 : list Z) (ps_ok : page_size ps) (N0_range : 0 <= N0 < 2 ^ 31) (D0_size : zlen D0 = N0 * ps).
Context (junk : Z -> list Z) (zJournal : list Z) (busy : nat -> bool).

Local Notation survives := (survives ps D0).
Local Notation files_ok := (files_ok ps N0 D0).
Local Notation cache := (cache ps).
Local Notation env := (env ps D0).
Local Notation safe := (safe ps D0).
Local Notation tx := (tx ps N0 D0).
Local Notation tx_sealed := (tx_sealed ps N0 D0).
Local Notation active := (active ps N0 D0).

(** The file says what the pages say. *)
Definition contents (d : list Z) (L : Z -> list Z) : Prop := forall pg, valid ps pg -> fpage ps d pg = L pg.

(** The journal is synced, the dirty pages may go to the file. *)
Definition quiet (b : list Z) (closed : list (Z * list Z)) (L : Z -> list Z) (w : world) : Prop :=
  env w /\ conf ps (pgr w) /\ running N0 None (pgr w) /\ sizes ps N0 w /\
  (exists jd nm, jrn w = JLive jd nm /\ files_ok (dbf w) jd nm b closed /\ (b <> [] -> nm = true)) /\
  cache L (now (dbf w)) (pgr w) /\
  (forall pg x, pAll (pgr w) !! pg = Some x -> dirty x = true ->
     pg <= dbSize (pgr w) /\ (pg <= N0 -> pg ∈ closed.*1) /\ b <> []).

Lemma wp_quiet b c o L w (Q : unit -> world -> Prop) (E : Z -> world -> Prop) : tx None b c o L w ->
  (forall w' b' c', quiet b' c' L w' -> Q tt w') ->
  (forall rc w', rc <> SQLITE_OK -> safe w' -> E rc w') ->
  wp syncJournal Q E w.
Proof.
  intros H HQ HE. eapply wp_syncJournal; [done..|exact H| | |exact HE].
  - intros w1 G _ HG (He & Hc & Hrun & Hsz & Hst & (jd & nm & Hj & Hf & Hnm & _) & Hca & (_ & _ & H3 & _) & _) _.
    apply (HQ w1 G (c ++ o)). refine (conj He (conj Hc (conj Hrun (conj Hsz (conj _ (conj Hca _)))))); [by exists jd, nm|].
    intros pg x Hx Hd. destruct (H3 pg x Hx) as (_ & F2 & _ & _ & F5). destruct (F5 ltac:(done) Hd) as (? & Hi & _).
    split_and!; [done| |done]. intros Hp. destruct (F2 Hi) as [G1 _]. specialize (G1 Hp). by rewrite app_nil_r in G1.
  - intros _ -> Hns. destruct H as (He & Hc & Hrun & Hsz & Hst & (jd & nm & ck & Hj & Hf & Hnm & _) & Hca & (_ & _ & H3 & _) & _).
    apply (HQ w b c). refine (conj He (conj Hc (conj Hrun (conj Hsz (conj _ (conj Hca _)))))); [by exists jd, nm|].
    intros pg x Hx Hd. destruct (H3 pg x Hx) as (_ & F2 & _ & _ & F5). destruct (F5 ltac:(done) Hd) as (? & Hi & _).
    destruct (F2 Hi) as [G1 G2]. split_and!; [done| |]; [|apply Hst, G2; by eapply Hns].
    intros Hp. specialize (G1 Hp). by rewrite app_nil_r in G1.
Qed.

(** The dirty pages are in the file. *)
Definition written (L : Z -> list Z) (w : world) : Prop :=
  env w /\ conf ps (pgr w) /\ journalOpen (pgr w) = true /\
  exists jd nm b c, jrn w = JLive jd nm /\ files_ok (dbf w) jd nm b c /\ contents (now (dbf w)) L.

(** The list of the dirty pages is complete. *)
Lemma wp_dirty_pages w (Q : list Z -> world -> Prop) E : dirty_ok (pgr w) -> Q (pDirty (pgr w)) w ->
  wp pager_get_all_dirty_pages Q E w.
Proof.
  intros [Hnd Hd] HQ. unfold pager_get_all_dirty_pages. apply pwp_bind, wp_pager, pwp_bind, wp_asserts; [|by apply pwp_ret].
  set (f := fun '(_, pPg) => dirty pPg : bool). apply Nat.eqb_eq. rewrite <- (length_fmap fst). apply Permutation_length, NoDup_Permutation.
  - generalize (NoDup_fst_map_to_list (pAll (pgr w))). generalize (map_to_list (pAll (pgr w))). clear.
    induction l as [|[q x] l IH]; [constructor|]. cbn. intros [Hn Hl]%NoDup_cons. destruct (dirty x); [|by apply IH].
    cbn. apply NoDup_cons. split; [|by apply IH]. intros ([q' y] & -> & Hy)%list_elem_of_fmap. apply Hn.
    apply list_elem_of_In, filter_In in Hy as [Hy _]. apply list_elem_of_fmap. exists (q', y). split; [done|]. by apply list_elem_of_In.
  - done.
  - intros q. rewrite Hd, list_elem_of_fmap. split.
    + intros ([q' x] & -> & [Hx Hf]%list_elem_of_In%filter_In). exists x. split; [|done]. by apply elem_of_map_to_list, list_elem_of_In.
    + intros (x & Hx & Hf). exists (q, x). split; [done|]. apply list_elem_of_In, filter_In. split; [|done].
      by apply list_elem_of_In, elem_of_map_to_list.
Qed.

Lemma wp_write_all b c L w (Q : unit -> world -> Prop) (E : Z -> world -> Prop) : quiet b c L w ->
  (forall w', written L w' -> Q tt w') ->
  (forall rc w', rc <> SQLITE_OK -> rc <> SQLITE_IOERR_BLOCKED -> safe w' -> E rc w') ->
  wp (pager_write_pagelist busy (pDirty (pgr w))) Q E w.
Proof.
  intros (He & Hc & (Hst & Hjo & _) & [Hs1 Hs2] & (jd & nm & Hj & Hf & Hnm) & (C1 & C2 & _ & (_ & C3) & _) & Hd) HQ HE.
  destruct (decide (pDirty (pgr w) = [])) as [E0|E0].
  - rewrite E0. apply pwp_ret, HQ. refine (conj He (conj Hc (conj Hjo _))). exists jd, nm, b, c. split_and!; [done..|].
    intros pg Hpg. symmetry. apply C2; [done|]. intros x Hx. destruct (dirty x) eqn:Ed; [|done].
    assert (Hin : pg ∈ pDirty (pgr w)) by (apply C3; by exists x). rewrite E0 in Hin. by apply elem_of_nil in Hin.
  - assert (Hb : b <> []).
    { destruct (pDirty (pgr w)) as [|pg l]; [done|]. assert (Hin : pg ∈ pg :: l) by left. apply C3 in Hin as (x & Hx & Hdx).
      by apply (Hd pg x). }
    rewrite (Hnm Hb) in *. eapply (wp_write_pagelist ps N0 D0 ps_ok D0_size busy b c jd); [done|exact Hj|exact Hf|done|done|lia|exact Hst|done| | |exact HE].
    + intros pg (x & Hx & Hdx)%C3. exists x. destruct (C1 pg x Hx) as ([Hv _] & Lx & _). destruct (Hd pg x Hx Hdx) as (H1 & H2 & _).
      split_and!; done || lia.
    + intros w1 dv m He1 Ej1 Ldv Ep1 Hm Hf1 En1. apply HQ. refine (conj He1 (conj _ (conj _ _))).
      * rewrite Ep1. unfold conf in *. cbn. tauto.
      * by rewrite Ep1.
      * exists jd, true, b, c. split_and!; [congruence|done|]. rewrite En1. intros pg Hpg.
        destruct (put_pages_ok ps ps_ok (pgr w) (now (dbf w)) (sort_pagelist (pDirty (pgr w))) (dbSize (pgr w))) as [_ P2]; [|done|].
        { intros q Hq. rewrite sort_pagelist_perm in Hq. apply C3 in Hq as (x & Hx & Hdx). destruct (C1 q x Hx) as ([Hv _] & Lx & _).
          destruct (Hd q x Hx Hdx) as (H1 & _). unfold page_data. rewrite Hx. split; [done|lia]. }
        rewrite P2 by apply Hpg. destruct (decide (pg ∈ sort_pagelist (pDirty (pgr w)))) as [Hin|Hin].
        -- rewrite sort_pagelist_perm in Hin. apply C3 in Hin as (x & Hx & _). unfold page_data. rewrite Hx. by apply (C1 pg x).
        -- symmetry. apply C2; [done|]. intros x Hx. destruct (dirty x) eqn:Ed; [|done]. destruct Hin.
           rewrite sort_pagelist_perm. apply C3. by exists x.
Qed.

(** The end of the first phase: the file is synced. *)
Definition prepared (L : Z -> list Z) (w : world) : Prop :=
  env w /\ conf ps (pgr w) /\ state (pgr w) = PAGER_SYNCED /\ journalOpen (pgr w) = true /\
  exists jd nm b c d, jrn w = JLive jd nm /\ files_ok (dbf w) jd nm b c /\ dbf w = mkDfile d [] /\ contents d L.

Lemma wp_sync_db L w (Q : unit -> world -> Prop) (E : Z -> world -> Prop) : written L w ->
  (forall w', prepared L w' -> Q tt w') ->
  (forall rc w', rc <> SQLITE_OK -> safe w' -> E rc w') ->
  wp (upd (fun p => p <| pDirty := [] |>);;
      p ← pager;
      rc ← code (when (negb (noSync p) && negb false) (sqlite3OsSync HDb));
      upd (fun p => p <| state := PAGER_SYNCED |>);;
      check rc) Q E w.
Proof.
  intros (He & Hc & Hjo & jd & nm & b & c & Hj & Hf & Hct) HQ HE. apply pwp_bind, wp_upd. name_world w1. apply pwp_bind, wp_pager.
  assert (En : noSync (pgr w1) = false) by (by eapply conf_noSync). rewrite En. cbn [negb andb when]. apply pwp_bind, wp_code.
  assert (He1 : env w1) by exact He. unfold sqlite3OsSync. apply pwp_bind, wp_refused.
  - intros n. apply pwp_bind, pwp_get. apply pwp_bind, wp_upd, wp_check_ok, HQ.
    pose proof (files_ok_db_flush _ _ _ _ _ _ _ _ Hf) as Hf'.
    refine (conj _ (conj Hc (conj eq_refl (conj Hjo _)))).
    + apply (env_files ps D0 (called w1) (flushed (dbf w1)) (jrn w1)); [by apply env_called|]. change (jrn w1) with (jrn w). rewrite Hj.
      by eapply files_ok_survives.
    + exists jd, nm, b, c, (now (dbf w)). split_and!; [exact Hj|exact Hf'|done|exact Hct].
  - intros _ rc n Hrc. apply pwp_bind, wp_upd, wp_check; [done|]. intros _. apply HE; [done|]. by apply env_safe, env_called.
Qed.

Lemma active_tx e L w : active true e L w -> exists b c o, tx e b c o L w.
Proof. intros [[? _]|H]; done. Qed.

Lemma wp_PhaseOne b c o L w (Q : unit -> world -> Prop) (E : Z -> world -> Prop) : tx None b c o L w ->
  (forall w' L', prepared L' w' -> stamped L L' -> Q tt w') ->
  (forall rc w', rc <> SQLITE_OK -> safe w' -> E rc w') ->
  wp (sqlite3PagerCommitPhaseOne junk zJournal busy None 0 false) Q E w.
Proof.
  intros H HQ HE. pose proof H as (_ & Hc & (Hst & _ & _ & Hdc) & _). unfold sqlite3PagerCommitPhaseOne.
  apply pwp_bind, wp_pager. rewrite (conf_journalMode _ _ Hc), (conf_exclusiveMode _ _ Hc), (conf_setMaster _ _ Hc).
  change (negb (PAGER_JOURNALMODE_DELETE =? PAGER_JOURNALMODE_DELETE) || false) with false. rewrite andb_false_r. cbn iota.
  assert (Es : (state (pgr w) =? PAGER_SYNCED) = false) by (by destruct Hst as [->| ->]). rewrite Es, (Hdc eq_refl). cbn [negb andb when].
  assert (Hfail : forall rc w', rc <> SQLITE_OK -> safe w' -> wp (check (if rc =? SQLITE_IOERR_BLOCKED then SQLITE_BUSY else rc)) Q E w').
  { intros rc w' Hrc Hw'. apply wp_check; [by destruct (rc =? SQLITE_IOERR_BLOCKED)|]. intros Hrc'. by apply HE. }
  apply pwp_bind, wp_code, pwp_bind. eapply pwp_bind, wp_incr; [done..|right; by exists b, c, o| |exact Hfail].
  intros w1 L1 (b1 & c1 & o1 & H1)%active_tx Hsl. change (negb (0 =? 0)) with false. cbn [when]. apply pwp_bind, pwp_ret.
  apply pwp_bind. unfold writeMasterJournal. apply pwp_bind, wp_pager, pwp_ret.
  eapply wp_quiet; [exact H1| |exact Hfail]. intros w2 b2 c2 H2. apply pwp_bind, pwp_ret.
  eapply pwp_bind, wp_dirty_pages; [apply H2|]. apply pwp_bind, wp_code. eapply wp_write_all; [exact H2| |].
  - intros w3 H3. apply pwp_bind, wp_asserts; [done|]. apply pwp_bind, wp_check_ok.
    eapply wp_sync_db; [exact H3| |exact Hfail]. intros w4 H4. apply wp_check_ok. by eapply HQ.
  - intros rc w3 Hrc Hb H3. apply pwp_bind, wp_asserts; [by rewrite (proj2 (Z.eqb_neq _ _) Hb), orb_true_r|].
    apply pwp_bind, wp_check; [done|]. intros _. by apply Hfail.
Qed.

(** What a crash leaves is what there was before, or what the pages say. *)
Definition lands (L : Z -> list Z) (s : dfile * jfile) : Prop :=
  forall d jo, crashed s d jo -> recoverable ps D0 d jo \/ jo = None /\ contents d L.

Definition lands_all (L : Z -> list Z) (w : world) : Prop := Forall (lands L) ((dbf w, jrn w) :: past w).

Lemma safe_lands L w : safe w -> lands_all L w.
Proof.
  intros [H1 H2]. assert (H : forall s, survives s -> lands L s) by (intros s Hs d jo Hc; left; by apply Hs).
  constructor; [by apply H|]. eapply Forall_impl; [exact H2|exact H].
Qed.

(** All is on the disk, and the journal is gone unless it could not be deleted. *)
Definition committed (L : Z -> list Z) (w : world) : Prop :=
  exists d, dbf w = mkDfile d [] /\ contents d L /\ ((exists jd, jrn w = JGone jd) \/ exists jd nm, jrn w = JLive jd nm).

Lemma wp_PhaseTwo L w (Q : unit -> world -> Prop) (E : Z -> world -> Prop) : prepared L w ->
  (forall w', lands_all L w' -> committed L w' -> (io w = [] -> io w' = [] /\ exists jd, jrn w' = JGone jd) -> Q tt w') ->
  (forall rc w', rc <> SQLITE_OK -> lands_all L w' -> E rc w') ->
  wp sqlite3PagerCommitPhaseTwo Q E w.
Proof.
  intros (He & Hc & Hst & Hjo & jd & nm & b & c & d & Hj & Hf & Hd & Hct) HQ HE. unfold sqlite3PagerCommitPhaseTwo.
  apply pwp_bind, wp_pager. rewrite (conf_errCode _ _ Hc). apply pwp_bind, wp_check_ok.
  rewrite Hst. change (PAGER_SYNCED <? PAGER_RESERVED) with false. cbn iota.
  rewrite (conf_journalMode _ _ Hc), (conf_exclusiveMode _ _ Hc).
  change (negb (PAGER_JOURNALMODE_DELETE =? PAGER_JOURNALMODE_DELETE) || false) with false. rewrite andb_false_r. cbn iota.
  apply pwp_bind, wp_asserts; [done|]. apply pwp_bind, wp_code.
  assert (Hend : forall w', ended w jd w' -> lands_all L w' /\ committed L w' /\ errCode (pgr w') = SQLITE_OK /\ state (pgr w') <> PAGER_UNLOCK /\
      (io w = [] -> io w' = [] /\ exists jd, jrn w' = JGone jd)).
  { intros w' (Ed & Hcase & Hio & Es & _ & _ & Ee & _). destruct He as (_ & _ & Hw). pose proof Hw as [Hw1 Hw2]. rewrite Hj, Hd in Hw1.
    split_and!.
    - destruct Hcase as [[Ej Ep]|(_ & Ej & Ep)].
      + unfold lands_all. rewrite Ed, Ej, Ep. constructor; [|by apply safe_lands].
        intros d' jo Hcr. rewrite Hd in Hcr. inversion Hcr; subst.
        * right. split; [done|]. match goal with H : torn_crash _ _ |- _ => apply torn_crash_sync in H as -> end. done.
        * left. apply Hw1. by constructor.
      + apply safe_lands. split; [rewrite Ed, Ej; by rewrite Hj, Hd|by rewrite Ep].
    - exists d. rewrite Ed. split_and!; [done..|]. destruct Hcase as [[Ej _]|(_ & Ej & _)]; [left; by exists jd|right; exists jd, nm; congruence].
    - rewrite Ee. by eapply conf_errCode.
    - by rewrite Es.
    - intros E0. split; [by apply Hio|]. destruct Hcase as [[Ej _]|(Hne & _)]; [by exists jd|done]. }
  rewrite (conf_setMaster _ _ Hc).
  eapply wp_end_delete; [by rewrite Hst|done|by eapply conf_exclusiveMode|by eapply conf_journalMode|by eapply conf_stmtInUse|exact Hj| |].
  - intros w' (H1 & H2 & H3 & H4 & H5)%Hend. apply pwp_bind, wp_pager_error; [done..|]. intros ec. apply wp_check_ok. by apply HQ.
  - intros _ w' rc (H1 & H2 & H3 & H4 & H5)%Hend Hrc. apply pwp_bind, wp_pager_error; [done..|]. intros ec.
    apply wp_check; [done|]. intros _. by apply HE.
Qed.

(** ** The whole transaction *)

Context (c : client) (Hsized : sized ps c).

(** What the client wants the pages to say. *)
Definition outcome (L : Z -> list Z) : Prop := stamped (logical c (fpage ps D0)) L.

Lemma wp_transaction w (Q : unit -> world -> Prop) (E : Z -> world -> Prop) : at_rest ps D0 w ->
  (forall w' L, outcome L -> lands_all L w' -> committed L w' -> Q tt w') ->
  (forall rc w' L, rc <> SQLITE_OK -> outcome L -> lands_all L w' -> E rc w') ->
  wp (transaction junk zJournal busy c) Q E w.
Proof.
  intros H HQ HE. set (L0 := fpage ps D0). set (L1 := logical c L0).
  assert (Hfail : forall rc w', rc <> SQLITE_OK -> safe w' -> E rc w').
  { intros rc w' Hrc Hw. apply (HE rc w' L1); [done|by left|by apply safe_lands]. }
  unfold transaction. eapply pwp_bind, wp_first_get; [done..|exact H| |exact Hfail].
  intros w1 H1. specialize (H1 L0 ltac:(done)).
  eapply pwp_bind, (wp_run_client ps N0 D0 ps_ok N0_range D0_size false); [exact Hsized|left; split; [done|exact H1]| |exact Hfail].
  intros w2 [[_ H2]|(b & c' & o & H2)].
  - pose proof H2 as (He & Hc & Hst & _ & _ & (_ & Hdc) & _). apply pwp_bind. unfold sqlite3PagerCommitPhaseOne. apply pwp_bind, wp_pager.
    rewrite (conf_journalMode _ _ Hc), (conf_exclusiveMode _ _ Hc).
    change (negb (PAGER_JOURNALMODE_DELETE =? PAGER_JOURNALMODE_DELETE) || false) with false. rewrite andb_false_r. cbn iota.
    rewrite Hdc, andb_false_r. apply pwp_bind, wp_code, pwp_ret. change (SQLITE_OK =? SQLITE_IOERR_BLOCKED) with false. apply wp_check_ok.
    unfold sqlite3PagerCommitPhaseTwo. apply pwp_bind, wp_pager. rewrite (conf_errCode _ _ Hc). apply pwp_bind, wp_check_ok.
    rewrite Hst. change (PAGER_SHARED <? PAGER_RESERVED) with true. apply wp_throw, Hfail; [done|apply He].
  - eapply pwp_bind, wp_PhaseOne; [exact H2| |exact Hfail]. intros w3 L3 H3 Hs3.
    eapply wp_PhaseTwo; [exact H3| |].
    + intros w4 H4 H5 _. by apply (HQ w4 L3).
    + intros rc w4 Hrc H4. by apply (HE rc w4 L3).
Qed.

End phases.

(** ** The transaction and the crash *)

(** C1: A transaction is atomic.  A caller gets page 1 from a pager that was
    idle, reads and changes pages as it likes, and commits, whatever the
    system answers to each of the calls that this takes.  The run ends (no
    assertion fails); when it ends without an error, the database is synced and
    says what the caller's changes make of the pages, but for the change
    counter of page 1.  And wherever the system crashes on the way, while pages
    of the cache are recycled, between two syncs, with sectors of the database
    torn, with the entry of the journal in its directory lost or brought back:
    a process that comes next and takes the shared lock has either the
    database as it was, or all of the changes.  What is taken to work: the
    sync of the directory that unixSync does with the first sync of a journal
    (it ignores an error of it), and malloc. *)
Theorem transaction_atomic junk zJournal busy ps N0 D0 c w : page_size ps -> 0 <= N0 < 2 ^ 31 -> zlen D0 = N0 * ps ->
  sized ps c -> at_rest ps D0 w ->
  exists w' r L, transaction junk zJournal busy c w = Ret (w', r) /\ outcome ps D0 c L /\
    (r = inr tt -> committed ps L w') /\
    forall s d jo, s ∈ (dbf w', jrn w') :: past w' -> crashed s d jo ->
    forall junk2 zJournal2 busy2 ps2 w2, (forall n, 0 <= n -> zlen (junk2 n) = n) -> 512 <= ps2 <= 32768 ->
      idle ps2 (pgr w2) -> restarted d jo w2 ->
      exists w3, pagerSharedLock junk2 zJournal2 busy2 w2 = Ret (w3, inr tt) /\
        (now (dbf w3) = D0 \/ contents ps (now (dbf w3)) L).
Proof.
  intros Hps HN HD Hc Hw. pose proof (page_size_range ps Hps).
  assert (Hnext : forall L w', lands_all ps D0 L w' -> forall s d jo, s ∈ (dbf w', jrn w') :: past w' -> crashed s d jo ->
    forall junk2 zJournal2 busy2 ps2 w2, (forall n, 0 <= n -> zlen (junk2 n) = n) -> 512 <= ps2 <= 32768 ->
      idle ps2 (pgr w2) -> restarted d jo w2 ->
      exists w3, pagerSharedLock junk2 zJournal2 busy2 w2 = Ret (w3, inr tt) /\
        (now (dbf w3) = D0 \/ contents ps (now (dbf w3)) L)).
  { intros L w' Hl s d jo Hs Hcr junk2 zJ2 busy2 ps2 w2 Hj2 Hps2 Hi Hr.
    unfold lands_all in Hl. rewrite Forall_forall in Hl. destruct (Hl s Hs d jo Hcr) as [Hrec|[-> Hct]].
    - destruct (wp_res _ _ _ _ (sharedLock_restores junk2 zJ2 busy2 ps ps2 D0 d jo w2 Hj2 Hps Hps2 ltac:(nia) Hi Hr Hrec))
        as [(w3 & [] & E & H3 & _)|(? & ? & _ & [])]. exists w3. split; [done|by left].
    - assert (Hn : wp (pagerSharedLock junk2 zJ2 busy2) (fun _ w3 => now (dbf w3) = d) (fun _ _ => False) w2).
      { eapply wp_sharedLock_no_journal; [done..|]. intros w3 Ed _ _ _. by rewrite Ed, (restarted_db _ _ _ Hr). }
      destruct (wp_res _ _ _ _ Hn) as [(w3 & [] & E & H3)|(? & ? & _ & [])]. exists w3. split; [done|right]. by rewrite H3. }
  assert (H0 : wp (transaction junk zJournal busy c)
    (fun _ w' => exists L, outcome ps D0 c L /\ lands_all ps D0 L w' /\ committed ps L w')
    (fun _ w' => exists L, outcome ps D0 c L /\ lands_all ps D0 L w') w).
  { eapply wp_transaction; [done..|exact Hw| |].
    - intros w' L H1 H2 H3. by exists L.
    - intros rc w' L _ H1 H2. by exists L. }
  destruct (wp_res _ _ _ _ H0) as [(w' & [] & E & L & H1 & H2 & H3)|(w' & rc & E & L & H1 & H2)].
  - exists w', (inr tt), L. split_and!; [done..|by apply Hnext].
  - exists w', (inl rc), L. split_and!; [done..|by apply Hnext].
Qed.

(** A caller that copies page 2 to the new page 4 and changes page 2. *)
Definition example_client : client :=
  CRead 2 (fun d => CWrite 4 (fun old => if zlen d =? 512 then d else old) (CWrite 2 (fun _ => crash_page 22) CDone)).

Definition example_run (io : list (Z * Z)) : res (world * (Z + unit)) :=
  transaction (fun n => replicate (Z.to_nat n) 170) [106] (fun _ => false) example_client (opened_world 512 crash_original None io).

Lemma opened_at_rest ps d io : page_size ps -> io_ok io -> at_rest ps d (opened_world ps d None io).
Proof.
  intros Hps Hio. pose proof (page_size_range ps Hps) as Hr.
  refine (conj (conj Hio (conj eq_refl (conj _ _))) (conj _ (conj eq_refl (conj eq_refl eq_refl)))); [|constructor|].
  - apply untouched_none. by intros v ->%list_elem_of_singleton.
  - split_and!; try done. split_and!; try done. change (zlen (replicate (Z.to_nat ps) 0) = ps). unfold zlen. rewrite length_replicate. lia.
Qed.

Lemma transaction_atomic_witness : exists w' L, example_run [] = Ret (w', inr tt) /\
  outcome 512 crash_original example_client L /\ committed 512 L w'.
Proof.
  destruct (transaction_atomic (fun n => replicate (Z.to_nat n) 170) [106] (fun _ => false) 512 3 crash_original example_client
    (opened_world 512 crash_original None [])) as (w' & r & L & E & H1 & H2 & _).
  - reflexivity.
  - lia.
  - reflexivity.
  - split; [lia|]. intros d. split; [lia|]. split.
    + intros old Hold. destruct (Z.eqb_spec (zlen d) 512); congruence.
    + split; [lia|]. split; [|exact I]. intros; reflexivity.
  - apply opened_at_rest; [reflexivity|constructor].
  - assert (Er : r = inr tt).
    { assert (Ev : match example_run [] with Ret (_, inr _) => true | _ => false end = true) by (vm_compute; reflexivity).
      unfold example_run in Ev. rewrite E in Ev. destruct r as [|[]]; [discriminate Ev|reflexivity]. }
    exists w', L. subst r. split_and!; [exact E|exact H1|apply H2; reflexivity].
Defined.
