(* ===== verification/PagerRun.v ===== *)
(** * Runs that lose a commit or a recovery

    Two concrete runs of the model: a commit that reports success although its
    journal is still there, and a recovery after which one more crash leaves
    the database torn, without a journal. *)

From S2P Require Import Prelude Varint PageBytes RecordUpdate DiskFile Pager PagerJournal PagerCache PagerWp.
From S2P Require Import PagerPlayback PagerRecovery PagerLog PagerPages PagerTx PagerTxJournal PagerTxPage PagerTxGet.
From S2P Require Import PagerTxOpen PagerTxBegin PagerTxWrite PagerTxKeep PagerCommit.

Definition run_memory (n : Z) : list Z := replicate (Z.to_nat n) 170.
Definition run_lock (w : world) : res (world * (Z + unit)) := pagerSharedLock run_memory [106] (fun _ => false) w.

(** The calls of [example_run] before its journal is deleted. *)
Definition calls_before_unlink : nat := 22.

(** [unixDelete] does not look at what [unlink] returns: the commit succeeds,
    and the next process rolls it back. *)
Lemma commit_lost : exists w f nm w3,
  example_run (repeat (0, 0) calls_before_unlink ++ [(SQLITE_IOERR, 0)]) = Ret (w, inr tt) /\ jrn w = JLive f nm /\
  run_lock (opened_world 512 (now (dbf w)) (Some (now f)) []) = Ret (w3, inr tt) /\
  now (dbf w3) = crash_original /\ now (dbf w) <> crash_original.
Proof.
  assert (H : match example_run (repeat (0, 0) calls_before_unlink ++ [(SQLITE_IOERR, 0)]) with
    | Ret (w, inr tt) =>
        match jrn w with
        | JLive f nm =>
            match run_lock (opened_world 512 (now (dbf w)) (Some (now f)) []) with
            | Ret (w3, inr tt) => bool_decide (now (dbf w3) = crash_original) && negb (bool_decide (now (dbf w) = crash_original))
            | _ => false
            end
        | _ => false
        end
    | _ => false
    end = true) by (vm_compute; reflexivity).
  destruct (example_run _) as [[w [|[]]]| | |]; try discriminate H. destruct (jrn w) as [|f nm|] eqn:Ej; try discriminate H.
  destruct (run_lock _) as [[w3 [|[]]]| | |] eqn:El; try discriminate H.
  apply andb_true_iff in H as [H1%bool_decide_eq_true H2%negb_true_iff%bool_decide_eq_false].
  exists w, f, nm, w3. done.
Qed.

(** A crash may leave what the last write but some found. *)
Lemma torn_version d v : v ∈ versions d -> torn_crash d v.
Proof.
  intros Hv. split; [exists v, v; split_and!; [done..|lia|lia]|]. intros s c _ H. by apply H.
Qed.

(** [pager_playback] does not sync the database before it deletes the journal. *)
Lemma recovery_not_synced : exists w',
  run_lock (opened_world 512 crash_database (Some crash_journal) []) = Ret (w', inr tt) /\
  now (dbf w') = crash_original /\ crashed (dbf w', jrn w') crash_database None /\ crash_database <> crash_original.
Proof.
  assert (H : match run_lock (opened_world 512 crash_database (Some crash_journal) []) with
    | Ret (w', inr tt) => bool_decide (now (dbf w') = crash_original) && bool_decide (crash_database ∈ versions (dbf w')) &&
        match jrn w' with JGone _ => true | _ => false end
    | _ => false
    end = true) by (vm_compute; reflexivity).
  destruct (run_lock _) as [[w' [|[]]]| | |]; try discriminate H. rewrite !andb_true_iff, !bool_decide_eq_true in H.
  destruct H as [[H1 H2] H3]. destruct (jrn w') as [| |jf] eqn:Ej; try discriminate H3.
  exists w'. split_and!; [done|done| |].
  - rewrite Ej. constructor. by apply torn_version.
  - intros E. apply (f_equal zlen) in E. vm_compute in E. discriminate E.
Qed.
